(* ===== verification/_CoqProject ===== *)
-Q . S2P
Prelude.v
CString.v
Glob.v
Numconv.v
Queue.v
Qsort.v
Tunables.v
Format.v
Env.v
Symtab.v
Memory.v
Mips.v
Ring.v
Hist.v
Watch.v
Expr.v
Bpt.v
BptSafe.v
Step.v
Loadrec.v
LoadSafe.v
Malloc.v
Tftp.v
Dbgpkt.v
Dbglink.v
Dbgreq.v
Getopt.v
Memcmds.v
Shell.v
Netboot.v
NetbootOk.v
Stack.v
Comp.v
Flashdev.v
Flashenv.v
FlashenvOk.v
FlashenvMap.v
FlashenvSafe.v
Sbdfrom.v
SbdfromOk.v
FlashSim.v
Flashcmd.v
EnvFlash.v
Clock.v
ClockOk.v
ClockTz.v
Rtc.v
RtcOk.v
RtcSim.v
Pager.v
Memtst.v
MemtstOk.v
Ttymode.v
Termio.v
TermioOk.v
TermioRead.v
Ns16550.v
TermioSim.v
Stty.v
Pci.v
P5064.v
PciScan.v
PciOk.v
P5064Ok.v
PciSim.v
