(* ===== verification/Prelude.v ===== *)
(** * A verification development for the PMON boot monitor

    PMON is a ROM monitor for MIPS boards: it reads command lines, edits and
    remembers them, keeps an environment and a symbol table, downloads programs,
    examines memory, and runs a client program under breakpoints, single stepping
    and watchpoints. The sources are [src/pmon] (the monitor), [src/lib] (its C
    library), [src/include] (the headers), [src/net] (a BSD network stack) and a
    directory per board.

    ** The files

    - Prelude: machine integers, C strings, memory, generic lemmas, automation.
    - CString: the string, character and word routines of [src/lib], [argvize],
      [str2cc], [cc2str].
    - Glob: [src/lib/strpat.c].
    - Numconv: [src/lib/atob.c] ([atob], [gethex], [btoa]), [atoi.c], [atol.c],
      [strtol.c].
    - Queue: [src/lib/queue.c], a byte ring.
    - Qsort: [src/lib/qsort.c].
    - Tunables: [src/pmon/sbrk.c], [src/pmon/more.c] and the other variables that
      change functions of the environment set.
    - Format: [src/lib/vsprintf.c].
    - Env: [src/pmon/set.c], the environment over the table of standard
      variables; the board's non-volatile store and the defaults it builds in
      ([sbd_boardenv], which EnvFlash gives for the P-5064) are parameters.
    - Symtab: [src/pmon/sym.c], a hash table with two sorted views.
    - Memory: the access macros of [src/pmon/pmon.h] and the stores of
      [src/pmon/commands.c].
    - Mips: the instruction table and the branch predicates of
      [src/pmon/machine.c].
    - Ring: the trace history and the modular steps it uses.
    - Hist: [src/pmon/hist.c], the command history and the line editor.
    - Watch: [src/pmon/watch.c] over an interface of drivers ([WatchFuncs], with
      the promises [WatchDriver]), the driver [src/pmon/r4kwatch.c], and the
      callback of [src/pmon/go.c] that protects the monitor.
    - Expr: [get_rsa] of [src/pmon/commands.c] and the register names of
      [src/pmon/regs.c].
    - Bpt, BptSafe, Step: [src/pmon/go.c], the breakpoints, the state machine of
      [exception] and single stepping; BptSafe has the theorems about the
      client's memory, Step those about the next instruction.
    - Loadrec, LoadSafe: [src/pmon/loadfn.c], [src/pmon/load.c] and the dump
      command of [src/pmon/commands.c], and their theorems.
    - Malloc: [src/lib/malloc.c], [calloc.c] and [realloc.c] over [sbrk].
    - Tftp: [src/net/cmd/tftplib.c], the client of the network file transfer.
    - Dbgpkt, Dbglink, Dbgreq: [src/pmon/debug.c], the packets and messages of the
      remote debugger, two ends of its line, and the requests.
    - Getopt: [src/lib/getopt.c].
    - Memcmds: the memory commands of [src/pmon/commands.c].
    - Shell: [src/pmon/main.c], the expansion of variables and the execution of a
      command line over the table of commands.
    - Netboot, NetbootOk: the [boot] command of [src/net/cmd/boot.c] over an
      interface of files ([NetFile], with the promises [NetFileOk] and
      [NetFileData]) that Tftp implements, and its theorems.
    - Stack: [initstack] of [src/pmon/go.c], over the environment of Env.
    - Comp: computations on a state that may fault, and their weakest
      preconditions; the hardware components are written in it.
    - Flashdev: the interface of flash devices of [src/pmon/p5064/flashdev.h]
      ([FlashDev], with the promises [FlashDevOk]).
    - Flashenv: [src/pmon/p5064/flashenv.c] and [sbdflashenv.c], the environment in
      the last sector of a flash device; FlashenvOk, FlashenvMap, FlashenvSafe:
      the format of the sector, each operation on it, and the theorems.
    - Sbdfrom: [src/pmon/p5064/sbdfrom.c], the driver of the flash chips;
      SbdfromOk: the chip it drives ([AmdChip]), that the driver keeps the
      promises of [FlashDevOk], and the theorem about it.
    - FlashSim: a simulated chip, the witnesses and the defects.
    - Flashcmd: [src/pmon/p5064/flash.c] and the [flash] command.
    - EnvFlash: the environment of Env with the flash as its store.
    - Clock: [src/pmon/time.c], the calendar, the time zones and the [date] command;
      ClockOk: the theorems of the calendar, ClockTz: of the zones and of [date].
    - Rtc: [src/pmon/p5064/rtc.c], the clock chip over its ports; RtcOk: what a
      running chip does ([RtcChip]) and the theorem about it; RtcSim: a simulated
      chip, the witness and the defects.
    - Pager: [src/pmon/more.c] and [src/lib/eraline.c], the paginator, and its
      theorem.
    - Memtst, MemtstOk: [src/pmon/memtst.c], the memory test, over an interface of
      memories ([Words]), and its theorem over a memory with faults.
    - Ttymode: the settings of a terminal ([src/include/termio.h]), baud rates and
      mode strings ([getbaudrate], [parsettymode] of [src/pmon/stty.c]).
    - Termio: [src/lib/termio.c] and [terms.c], the terminal driver over an
      interface of serial lines ([Board]); TermioOk: the invariant of its tables
      and the end of its polls; TermioRead: the theorems about reading and writing;
      Ns16550: the driver [src/pmon/p5064/ns16550.c] over the registers of its chip
      ([Chip], with the promises [ChipOk]), an implementation of [Board];
      TermioSim: that driver on a simulated chip, the witnesses and the defects.
    - Stty: the [stty] command of [src/pmon/stty.c].
    - Pci: [src/pmon/pci/pciconf.c], the scan and configuration of the PCI
      busses over an interface of boards ([PciBoard]) and of drivers
      ([PciDrivers]).
    - P5064: [src/pmon/p5064/pci_machdep.c], the board that implements it, over
      the machine's registers ([Hardware]).
    - PciScan, PciOk: the theorems of the scan against the promises of a board
      ([PciSpec]); P5064Ok: that the P-5064 keeps them, and the theorems for it.
    - PciSim: a simulated bus, the witnesses and the defects.

    ** How the code is modelled

    A C function is a function on the values it reads, and returns its result
    with the values it changes; the static variables of a file are a record. An
    [int], [long] or pointer is an integer reduced modulo [2^32] ([u32], [s32])
    where the code can wrap; a [sreg_t] has 64 bits; a [char] is signed. A string
    is the list of its characters without the NUL; a null pointer is [None].
    Output is a list of calls of [printf]. Memory is a function from addresses to
    bytes, compared pointwise ([=m=]). An allocation that can fail is an argument
    that says whether it does. What the program does after an access outside of its
    object is not defined in C, so a run ends there, with a result that says so:
    [None] where the caller has no use for the state, and a result that keeps the
    memory up to the access where the theorems speak of it ([Spoiled] of Loadrec,
    [Stuck] of Netboot, the faults of Comp). The theorems say which runs end in this
    way, or that none does.

    The configuration is that of the R4000 makefiles: [R4000], [__mips >= 3],
    [INET] and [FLOATINGPT] defined, [DHCP] and [NO_SERIAL] not; [FLASH] is
    defined for the [flash] command alone (the loaders are those without it).

    Loops that are not structural take fuel, and the definitions give them
    enough: the length of the string read plus one ([parse_spec], [vsprintf],
    [name_loop], [fast_loop], [dlsym_loop]: every round consumes a character),
    the number of elements ([quick_sort], [bsearch]), the number of bytes
    ([dump_loop], [write_loop]), the number of addresses of a range ([fill_words],
    [fill_bytes], [search_loop]: an address that wraps around would go on for
    ever), the number of headers ([malloc_loop], [free_loop]:
    the free list has no more blocks), the number of network events still to come
    ([tftprrq_loop], [tftpwrq_loop], [putmsg_loop], [getmsg_loop]; every round
    takes one), the characters of a line ([expand_loop]), the program headers
    ([load_segs]: every round takes one out), the bus numbers that are left
    ([_pci_query], [_pci_setup_ppb]: the code refuses a bus above its maximum).
    The poll of the V96x's FIFO and of a busy flash chip have the number of polls
    as an argument, since the hardware alone ends them. The loops over the records
    of the flash environment advance by two bytes or more, and their fuel is the
    size of the sector; the vectors of [fromprogrambytes] are bounded by its array.
    The fuel of the terminal driver bounds the depth of its mutual recursion and the
    number of its polls; [tty_read] and [tty_write] show for every state that some
    amount is enough, and that any larger one gives the same. The loops of [offtime]
    take [rounds], which is enough for every instant; the poll of the clock chip
    gives up by itself; the prompts of the paginator and the line typed at them take
    the keys that are left, plus one. [memtst -c] goes on until it finds an error,
    and has its number of rounds as an argument. The loops over the records of a file
    from the network ([cebin_loop], [xx_loop]) have no bound of their own: their
    fuel is the number of records, and without enough of it the result is
    [Stuck Rounds] with the memory of the records done; [boot_confined] holds for
    any number, so for a file of any length. For the other loops lemmas show that the
    result is there, so the fuel is never the limit: [strsort_sorts], [qsort_sorts], [getsymbyvalue_search],
    [walk_visits_all], [get_distbl_cache], [editor_screen], [dump_load], [malloc_correct],
    [tftp_transfer], [getpkt_bounds], [fill_repeats], [search_finds],
    [getopt_finds_options], [boot_loads_program], [p5064_scan_ends].

    ** What the theorems show

    - The client's code is safe with breakpoints: [memory_restored] (whenever the
      monitor has control again, after any run, memory is what the client left),
      [breakpoints_planted] (what is in memory when the client is let run),
      [step_covers_next].
    - Downloads are confined and faithful: [load_confined] (up to the record that
      spoils the monitor's own data, if one does), [dump_load]; over the network
      [tftp_read_honest], [tftp_transfer] (files the protocol can number),
      [boot_confined] (every file, with the reasons why a boot does not end) and
      [boot_loads_program] (memory is the image the file describes).
    - Command lines: [do_cmd_sequence] (against [performs], what a line of words
      means) and [expand_values]; what the client is given: [client_args].
    - The remote debugger: [dbg_delivery] (a run of the protocol refines two lists
      of messages), [getpkt_putpkt], [getpkt_bounds], [dbg_req_confined]
      (with the requests whose answer C does not define, [undefined_req]),
      [dbg_write_read].
    - The PCI busses: the windows of all devices are apart and placed where the
      board decodes them ([p5064_windows_apart], [p5064_windows_placed]), bridges
      forward what lies behind them ([p5064_bridges_cover]), the tables stay well
      formed ([p5064_scan_tables]) and the scan ends or faults ([p5064_scan_ends]).
    - The flash: the environment is a bounded list of variables over all
      operations and restarts ([flashenv_refines]), a power failure loses nothing
      but the variable being set ([flashenv_power_failure]), any chip can be
      started with ([flashenv_start]); the driver reads back what it programs
      ([flash_program_read]); composed with their clients:
      [set_survives_restart], [flash_command].
    - The terminal driver, over lines that keep the promise of [SerialOk], as
      the driver of the 16550 does: [tty_read] (what is read is the edit of what was
      typed; no character of any device is lost, nor is a wait endless), [tty_write];
      its settings: [mode_roundtrip], [baud_roundtrip], [stty_display_roundtrip].
    - Dates and the clock: [gmtime_calendar] and [gmmktime_gmtime] (the Gregorian
      calendar), [tzparse_text] and [localtime_zone] (time zones), [date_sets] (the
      command); [clock_keeps_time] (the chip).
    - The paginator shows what an abstract one would ([pages_shown]), and the memory
      test finds an error exactly when the memory has one ([memtst_exact]).
    - The memory commands and their options: [copy_moves], [fill_repeats],
      [search_finds], [getopt_finds_options].
    - The heap: [malloc_correct], [sbrk_blocks_disjoint].
    - The interactive parts implement their abstract counterparts:
      [editor_screen] and [history_events] (gap buffer and numbered list),
      [setenv_getenv], [envinit_defaults], [setenv_refuses]
      and [envbuild_fits] (a map with defaults), [get_rsa_grammar] (the meaning of
      terms and operators in integer arithmetic), [newsym_sym2adr], [getsymbyvalue_search] and [walk_visits_all]
      (a table of symbols), [watchpoint_set_armed].
    - The library routines: [queue_fifo], [qsort_sorts],
      [pchist_latest], the number round trips, patterns,
      words and characters.
    - The decoder agrees with the instruction set: [branch_classification],
      [get_distbl_cache].
    - Where the code does not do what it means to, a lemma shows the behaviour
      ([atoi_trailing_text], [strpat_incomplete], [stale_breakpoint],
      [refused_watchpoint_armed], [repeats_unanswered], [fp_registers_shifted],
      [fill_never_ends], [no_block_accepted], [retry_skips_block], [malloc_wraps], [double_dollar],
      [open_brace], [records_overwritten], [fast_records_spoiled], [negative_size_read],
      [args_past_memory] and others).

    ** Not modelled

    - The assembly files (exception vectors, context switch, caches): [exception]
      is modelled from the point where C code takes over. [clienttos] is
      translated; [clrhndlrs] is a parameter.
    - The stdio layer between the terminal driver and the commands: the models take
      what is read and give what is written. Of the drivers of the serial lines the
      16550's is modelled, and the others are the parameter of the terminal driver;
      those that ignore [OP_RXSTOP] ([src/pmon/p5064/p2681.c]) do not keep the
      promises [tty_read] and [tty_write] rest on. These two leave out the
      interrupt character (which jumps out of the read) and the stop character
      (which makes the writer wait for a person).
    - The texts of the register display and of the disassembler, the
      board directories but for the PCI, flash, clock and 16550 code of the P-5064.
      The allocation in [tzset] is assumed to succeed. Of the flash
      code, the caches and a power failure in the middle of a byte or of an erase
      are left out; the other boards' flash drivers and the batteries of their
      non-volatile memories are not modelled. Of the PCI code, the names of [pcidevs_data.h] and the drivers'
      attach functions are parameters, and the accesses to the I/O ports are left
      out.
    - [src/net] but for the file transfer and the [boot] command: the BSD network stack and its commands,
      third-party code, and [src/examples].
    - Floating-point conversions. *)

From Stdlib Require Export ZArith Lia Ascii Permutation.
From stdpp Require Export base list numbers option strings sets gmap sorting relations tactics.

#[global] Open Scope Z_scope.

(** ** Machine integers *)

Definition wrapu (w x : Z) : Z := x mod 2 ^ w.
Definition wraps (w x : Z) : Z := (x + 2 ^ (w - 1)) mod 2 ^ w - 2 ^ (w - 1).

Abbreviation u8 := (wrapu 8).
Abbreviation u16 := (wrapu 16).
Abbreviation u32 := (wrapu 32).
Abbreviation u64 := (wrapu 64).
Abbreviation s8 := (wraps 8).
Abbreviation s32 := (wraps 32).
Abbreviation s64 := (wraps 64).

Lemma wrapu_range w x : 0 <= w -> 0 <= wrapu w x < 2 ^ w.
Proof. intros. apply Z.mod_pos_bound, Z.pow_pos_nonneg; lia. Qed.

Lemma wrapu_small w x : 0 <= x < 2 ^ w -> wrapu w x = x.
Proof. apply Z.mod_small. Qed.

Lemma wraps_range w x : 0 < w -> - 2 ^ (w - 1) <= wraps w x < 2 ^ (w - 1).
Proof.
  intros Hw. unfold wraps.
  assert (0 < 2 ^ (w - 1)) by (apply Z.pow_pos_nonneg; lia).
  assert (2 ^ w = 2 * 2 ^ (w - 1)) as Hp
    by (rewrite <- Z.pow_succ_r by lia; f_equal; lia).
  pose proof (Z.mod_pos_bound (x + 2 ^ (w - 1)) (2 ^ w)). lia.
Qed.

Lemma wraps_small w x : 0 < w -> - 2 ^ (w - 1) <= x < 2 ^ (w - 1) -> wraps w x = x.
Proof.
  intros Hw Hx. unfold wraps.
  assert (2 ^ w = 2 * 2 ^ (w - 1)) as Hp
    by (rewrite <- Z.pow_succ_r by lia; f_equal; lia).
  rewrite Z.mod_small by lia. lia.
Qed.

Lemma wrapu_wrapu w x : wrapu w (wrapu w x) = wrapu w x.
Proof. apply Zmod_mod. Qed.

Lemma wrapu_wraps w x : wrapu w (wraps w x) = wrapu w x.
Proof.
  unfold wrapu, wraps. rewrite Zminus_mod_idemp_l. f_equal. lia.
Qed.

Lemma wrapu_add_l w x y : wrapu w (wrapu w x + y) = wrapu w (x + y).
Proof. apply Zplus_mod_idemp_l. Qed.

Lemma wrapu_sub_l w x y : wrapu w (wrapu w x - y) = wrapu w (x - y).
Proof. apply Zminus_mod_idemp_l. Qed.

Lemma wraps_wrapu w x : wraps w (wrapu w x) = wraps w x.
Proof. unfold wraps, wrapu. by rewrite Zplus_mod_idemp_l. Qed.

Lemma wraps_inj_wrapu w x y : wrapu w x = wrapu w y -> wraps w x = wraps w y.
Proof. intros H. rewrite <- (wraps_wrapu w x), H. apply wraps_wrapu. Qed.

(** Working ranges as literals, for [lia]. *)
Lemma s32_small x : -2147483648 <= x < 2147483648 -> s32 x = x.
Proof. intros H. apply wraps_small; [lia|]. change (2 ^ (32 - 1)) with 2147483648. lia. Qed.

Lemma u32_small x : 0 <= x < 4294967296 -> u32 x = x.
Proof. exact (wrapu_small 32 x). Qed.

Lemma u8_small x : 0 <= x < 256 -> u8 x = x.
Proof. exact (wrapu_small 8 x). Qed.

Lemma s8_small x : -128 <= x < 128 -> s8 x = x.
Proof. intros H. apply wraps_small; [lia|]. change (2 ^ (8 - 1)) with 128. lia. Qed.

Lemma u32_range x : 0 <= u32 x < 4294967296.
Proof. by apply (wrapu_range 32). Qed.

Lemma u8_range x : 0 <= u8 x < 256.
Proof. by apply (wrapu_range 8). Qed.

Lemma s32_range x : -2147483648 <= s32 x < 2147483648.
Proof. by apply (wraps_range 32). Qed.

Lemma s8_range x : -128 <= s8 x < 128.
Proof. by apply (wraps_range 8). Qed.

(** A bitwise or with bits below those of a shifted value is a sum. *)
Lemma lor_low k q d : 0 <= k -> 0 <= d < 2 ^ k -> Z.lor (q * 2 ^ k) d = q * 2 ^ k + d.
Proof.
  intros Hk Hd. symmetry. apply Z.add_nocarry_lor. apply Z.bits_inj'. intros n Hn.
  rewrite Z.land_spec, Z.bits_0. destruct (Z.lt_ge_cases n k).
  - rewrite Z.mul_pow2_bits_low by lia. done.
  - rewrite andb_comm. destruct (Z.eq_dec d 0) as [->|]; [by rewrite Z.bits_0|].
    rewrite Z.bits_above_log2; [done|lia|]. apply Z.lt_le_trans with k; [|lia].
    apply Z.log2_lt_pow2; lia.
Qed.

(** ** Characters and C strings

    A [char] is a signed byte (the default of the MIPS compilers the makefiles
    name), held as a [Z]. A NUL-terminated string is the list of its
    characters without the terminator; a pointer into it is an offset, and a
    [char *] that the code tests against 0 is an [option]. *)

Definition ch (a : ascii) : Z := s8 (Z.of_N (N_of_ascii a)).
Arguments ch a%_char.

Abbreviation cstr := (list Z).
Abbreviation cptr := (option (list Z)).

Fixpoint str (s : string) : cstr :=
  match s with
  | EmptyString => []
  | String a s' => ch a :: str s'
  end.
Arguments str s%_string.

(** The two quote characters and the control characters of the sources. *)
Definition dquote : Z := 34.
Definition squote : Z := 39.
Definition nl : Z := 10.
Definition cr : Z := 13.
Definition bs : Z := 8.
Definition bel : Z := 7.

Definition is_char (c : Z) : Prop := c <> 0 /\ -128 <= c <= 127.
Definition cstr_ok (s : cstr) : Prop := Forall is_char s.
(** Plain 7-bit text. *)
Definition is_ascii (c : Z) : Prop := 0 < c <= 127.
Definition ascii_ok (s : cstr) : Prop := Forall is_ascii s.

(** [at_ s i] reads [s[i]]: the terminating 0 at the end of the string. *)
Definition at_ (s : cstr) (i : nat) : Z := default 0 (s !! i).

(** ** Output

    A call of [printf] is an event: the format string and the arguments. *)
Inductive arg : Type :=
| AInt (z : Z)
| AStr (s : cptr).

Inductive event : Type :=
| Printf (fmt : string) (args : list arg)
| Putc (c : Z).

Abbreviation trace := (list event).

(** ** Memory

    The 32-bit address space as a function from addresses to unsigned bytes.
    Two memories are compared pointwise. *)
Definition mem : Type := Z -> Z.

Definition mem_eq (m1 m2 : mem) : Prop := forall a, m1 a = m2 a.

#[global] Instance mem_eq_equiv : Equivalence mem_eq.
Proof.
  split.
  - intros m a. reflexivity.
  - intros m1 m2 H a. symmetry. apply H.
  - intros m1 m2 m3 H1 H2 a. rewrite (H1 a). apply H2.
Qed.

Declare Scope mem_scope.
Delimit Scope mem_scope with mem.
Infix "=m=" := mem_eq (at level 70, no associativity) : mem_scope.
#[global] Open Scope mem_scope.

Definition upd (m : mem) (a v : Z) : mem := fun x => if x =? a then v else m x.

#[global] Instance upd_proper : Proper (mem_eq ==> eq ==> eq ==> mem_eq) upd.
Proof. intros m1 m2 Hm a ? <- v ? <- x. unfold upd. destruct (x =? a); auto. Qed.

Lemma upd_eq m a v : upd m a v a = v.
Proof. unfold upd. by rewrite Z.eqb_refl. Qed.

Lemma upd_ne m a v x : x <> a -> upd m a v x = m x.
Proof. intros H. unfold upd. by rewrite (proj2 (Z.eqb_neq x a) H). Qed.

Lemma upd_id m a : upd m a (m a) =m= m.
Proof. intros x. unfold upd. destruct (Z.eqb_spec x a); congruence. Qed.

Lemma upd_upd m a v w : upd (upd m a v) a w =m= upd m a w.
Proof. intros x. unfold upd. by destruct (x =? a). Qed.

Lemma upd_comm m a v b w :
  a <> b -> upd (upd m a v) b w =m= upd (upd m b w) a v.
Proof.
  intros H x. unfold upd.
  destruct (Z.eqb_spec x b), (Z.eqb_spec x a); congruence.
Qed.

(** ** Generic list lemmas *)

Lemma drop_cons_lookup {A} (l : list A) n x :
  l !! n = Some x -> drop n l = x :: drop (S n) l.
Proof.
  revert l. induction n as [|n IH]; intros [|y l] H; simplify_eq/=; [done|].
  rewrite (IH _ H). by destruct l.
Qed.

Lemma Forall_take_drop {A} (P : A -> Prop) n l :
  Forall P l -> Forall P (take n l) /\ Forall P (drop n l).
Proof. split; [by apply Forall_take | by apply Forall_drop]. Qed.

Lemma Forall_weaken {A} (P Q : A -> Prop) l :
  Forall P l -> (forall x, P x -> Q x) -> Forall Q l.
Proof. intros H HPQ. induction H; constructor; auto. Qed.

Lemma Forall_elem {A} (P : A -> Prop) l x : Forall P l -> x ∈ l -> P x.
Proof. intros H Hx. induction H; set_solver. Qed.

(** The [n]th element from the end. *)
Lemma rev_lookup_aux {A} (l : list A) n :
  (n < length l)%nat -> rev l !! n = l !! (length l - S n)%nat.
Proof.
  revert n. induction l as [|x l IH] using rev_ind; intros n Hn; [cbn in Hn; lia|].
  rewrite rev_app_distr, length_app in *. cbn in Hn |- *. destruct n as [|n].
  - rewrite lookup_app_r by lia. by replace (length l + 1 - 1 - length l)%nat with 0%nat by lia.
  - cbn. rewrite IH by lia. rewrite lookup_app_l by lia. f_equal. lia.
Qed.

(** ** Automation *)

Create HintDb pmon.
#[export] Hint Resolve wrapu_range wraps_range u32_range u8_range s32_range s8_range : pmon.
#[export] Hint Rewrite upd_eq : pmon.
#[export] Hint Rewrite upd_ne using lia : pmon.

(** Case analysis on the boolean tests that guard the branches of a model. *)
Ltac case_bool :=
  match goal with
  | |- context [Z.eqb ?a ?b] => destruct (Z.eqb_spec a b)
  | |- context [Z.ltb ?a ?b] => destruct (Z.ltb_spec a b)
  | |- context [Z.leb ?a ?b] => destruct (Z.leb_spec a b)
  | H : context [Z.eqb ?a ?b] |- _ => destruct (Z.eqb_spec a b)
  | H : context [Z.ltb ?a ?b] |- _ => destruct (Z.ltb_spec a b)
  | H : context [Z.leb ?a ?b] |- _ => destruct (Z.leb_spec a b)
  end.
