(* ===== verification/CString.v ===== *)
(** * CString: the character and string routines of the PMON C library

    One definition per routine of [src/lib/] (is*.c, toupper.c, str*.c,
    getword.c, argvize.c, memcmp.c, cc2str.c, str2cc.c, strcmp.S). A string is
    the list of its characters; routines that return a pointer into their
    argument return its offset; routines that modify a buffer return the new
    contents. The last section relates the routines to list operations and
    proves the sorting routine and the control-character codec correct. *)

From S2P Require Import Prelude.

(** ** Character classes *)

(** [src/lib/isspace.c:3-16] *)
Definition isspace (c : Z) : bool :=
  (c =? 32) || (c =? 9) || (c =? 10) || (c =? 13) || (c =? 12) || (c =? 11).

(** [src/lib/isalpha.c:3-11] *)
Definition isalpha (c : Z) : bool :=
  if (ch "a" <=? c) && (c <=? ch "z") then true
  else if (ch "A" <=? c) && (c <=? ch "Z") then true
  else false.

(** [src/lib/isdigit.c:3-9] *)
Definition isdigit (c : Z) : bool := (ch "0" <=? c) && (c <=? ch "9").

(** [src/lib/isalnum.c:3-12] *)
Definition isalnum (c : Z) : bool :=
  if isalpha c then true else if isdigit c then true else false.

(** [src/lib/iscntrl.c:3-11] *)
Definition iscntrl (c : Z) : bool :=
  if c =? 127 then true else if c <? 32 then true else false.

(** [src/lib/islower.c:3-9] *)
Definition islower (c : Z) : bool := (ch "a" <=? c) && (c <=? ch "z").

(** [src/lib/islower.c:13-19] *)
Definition isupper (c : Z) : bool := (ch "A" <=? c) && (c <=? ch "Z").

(** [src/lib/isprint.c:3-9] *)
Definition isprint (c : Z) : bool := (32 <=? c) && (c <=? 126).

(** [src/lib/isxdigit.c:3-13] *)
Definition isxdigit (c : Z) : bool :=
  if (ch "0" <=? c) && (c <=? ch "9") then true
  else if (ch "a" <=? c) && (c <=? ch "f") then true
  else if (ch "A" <=? c) && (c <=? ch "F") then true
  else false.

(** [src/lib/toupper.c:5-13] *)
Definition toupper (c : Z) : Z :=
  if islower c then c - (ch "a" - ch "A") else c.

(** ** Length and searching *)

Fixpoint strlen_loop (s : cstr) (n : Z) : Z :=
  match s with
  | [] => n
  | _ :: s' => strlen_loop s' (n + 1)
  end.

(** [src/lib/strlen.c:5-16] *)
Definition strlen (p : cptr) : Z :=
  match p with
  | None => 0
  | Some s => strlen_loop s 0
  end.

Fixpoint strchr_loop (s : cstr) (c : Z) (i : nat) : option nat :=
  match s with
  | [] => None
  | x :: s' => if x =? c then Some i else strchr_loop s' c (S i)
  end.

(** [src/lib/strchr.c:5-17] *)
Definition strchr (p : cptr) (c : Z) : option nat :=
  match p with
  | None => None
  | Some s => strchr_loop s c 0
  end.

(** [src/lib/index.c:5-19] *)
Definition index (p : cptr) (c : Z) : option nat :=
  match p with
  | None => None
  | Some s => strchr_loop s c 0
  end.

(** Scanning down from offset [i] for the first offset whose character
    satisfies [f]; offset [length s] holds the terminator. *)
Fixpoint scan_down (f : Z -> bool) (s : cstr) (i : nat) : option nat :=
  if f (at_ s i) then Some i
  else match i with O => None | S i' => scan_down f s i' end.

(** [src/lib/strrchr.c:5-18] *)
Definition strrchr (p : cptr) (c : Z) : option nat :=
  match p with
  | None => None
  | Some s => scan_down (fun x => x =? c) s (length s)
  end.

(** [src/lib/rindex.c:5-21] *)
Definition rindex (p : cptr) (c : Z) : option nat :=
  match p with
  | None => None
  | Some s => scan_down (fun x => x =? c) s (length s)
  end.

(** [strnchr] reads [n] characters whether or not the string ends: the array
    is given as the list of its characters and [None] in the outer option is a
    read past it.
    [src/lib/strnchr.c:5-20] *)
Fixpoint strnchr (arr : list Z) (c : Z) (n : nat) : option (option nat) :=
  match n with
  | O => Some None
  | S n' =>
      match arr with
      | [] => None
      | x :: arr' =>
          if x =? c then Some (Some O)
          else match strnchr arr' c n' with
               | Some (Some i) => Some (Some (S i))
               | r => r
               end
      end
  end.

Definition mem_of (set : cstr) (c : Z) : bool := bool_decide (strchr (Some set) c <> None).

Fixpoint strpbrk_loop (s set : cstr) (i : nat) : option nat :=
  match s with
  | [] => None
  | x :: s' => if mem_of set x then Some i else strpbrk_loop s' set (S i)
  end.

(** [src/lib/strpbrk.c:5-15] *)
Definition strpbrk (s1 s2 : cstr) : option nat := strpbrk_loop s1 s2 0.

(** [src/lib/strset.c:5-15] *)
Definition strset (p set : cstr) : option nat := strpbrk_loop p set 0.

(** [src/lib/strrset.c:5-16] *)
Definition strrset (p set : cstr) : option nat :=
  scan_down (mem_of set) p (length p).

(** The loop of [strrpset]: from offset [i] down to offset 1, skipping what
    stands inside parentheses. *)
Fixpoint strrpset_loop (s set : cstr) (n : Z) (i : nat) : option nat :=
  match i with
  | O => None
  | S i' =>
      let c := at_ s i in
      if c =? ch "(" then strrpset_loop s set (n + 1) i'
      else if c =? ch ")" then strrpset_loop s set (n - 1) i'
      else if mem_of set c && (n =? 0) then Some i
      else strrpset_loop s set n i'
  end.

(** For an empty string the C code starts at [&str[-1]], below [str], and the
    loop ends at once.
    [src/lib/strrpset.c:5-22] *)
Definition strrpset (s set : cstr) : option nat :=
  strrpset_loop s set 0 (length s - 1).

Fixpoint strbalp_loop (s : cstr) (b e n : Z) (i : nat) : option nat :=
  match s with
  | [] => None
  | c :: s' =>
      if c =? b then strbalp_loop s' b e (n + 1) (S i)
      else if c =? e then
        if n - 1 =? 0 then Some i else strbalp_loop s' b e (n - 1) (S i)
      else strbalp_loop s' b e n (S i)
  end.

(** [src/lib/strbalp.c:5-34] *)
Definition strbalp (s : cstr) : option nat :=
  let b := at_ s 0 in
  match strchr_loop (str "({[<") b 0 with
  | None => None
  | Some i => strbalp_loop s b (at_ (str ")}]>") i) 0 0
  end.

Fixpoint strspn_loop (p s : cstr) (i : nat) : nat :=
  match p with
  | [] => i
  | x :: p' => if mem_of s x then strspn_loop p' s (S i) else i
  end.

(** [src/lib/strspn.c:6-20] *)
Definition strspn (p s : cstr) : nat := strspn_loop p s 0.

Fixpoint strcspn_loop (p s : cstr) (i : nat) : nat :=
  match p with
  | [] => i
  | x :: p' => if mem_of s x then i else strcspn_loop p' s (S i)
  end.

(** [src/lib/strcspn.c:3-17] *)
Definition strcspn (p s : cstr) : nat := strcspn_loop p s 0.

(** The inner loop of [strposn] and [strstr]: step through the text [t] and
    the pattern [s] while the characters agree; found when the pattern ends. *)
Fixpoint match_here (t s : cstr) : bool :=
  match t with
  | [] => match s with [] => true | _ => false end
  | x :: t' =>
      match s with
      | [] => true
      | y :: s' => if x =? y then match_here t' s' else false
      end
  end.

Fixpoint find_sub (p q : cstr) (i : nat) : option nat :=
  match p with
  | [] => None
  | x :: p' =>
      if (x =? at_ q 0) && match_here p q then Some i else find_sub p' q (S i)
  end.

(** [src/lib/strposn.c:5-29] *)
Definition strposn (p q : cptr) : option nat :=
  match p, q with
  | Some s, Some t =>
      match t with
      | [] => Some (length s)
      | _ => find_sub s t 0
      end
  | _, _ => None
  end.

(** [src/lib/strstr.c:5-29] *)
Definition strstr (p q : cptr) : option nat :=
  match p, q with
  | Some s, Some t =>
      match t with
      | [] => Some O
      | _ => find_sub s t 0
      end
  | _, _ => None
  end.

(** ** Comparison *)

Fixpoint strequ_loop (s1 s2 : cstr) : bool :=
  match s1 with
  | [] => match s2 with [] => true | _ => false end
  | x :: s1' =>
      match s2 with
      | [] => false
      | y :: s2' => if x =? y then strequ_loop s1' s2' else false
      end
  end.

(** [src/lib/strequ.c:5-19] *)
Definition strequ (p q : cptr) : bool :=
  match p, q with
  | Some s, Some t => strequ_loop s t
  | _, _ => false
  end.

Fixpoint striequ_loop (s1 s2 : cstr) : bool :=
  match s1 with
  | [] => match s2 with [] => true | _ => false end
  | x :: s1' =>
      match s2 with
      | [] => false
      | y :: s2' =>
          if toupper x =? toupper y then striequ_loop s1' s2' else false
      end
  end.

(** [src/lib/striequ.c:5-19] *)
Definition striequ (p q : cptr) : bool :=
  match p, q with
  | Some s, Some t => striequ_loop s t
  | _, _ => false
  end.

Fixpoint strbequ_loop (s1 s2 : cstr) : bool :=
  match s2 with
  | [] => true
  | y :: s2' =>
      match s1 with
      | [] => false
      | x :: s1' => if x =? y then strbequ_loop s1' s2' else false
      end
  end.

(** [src/lib/strbequ.c:5-18] *)
Definition strbequ (p q : cptr) : bool :=
  match p, q with
  | Some s, Some t => strbequ_loop s t
  | _, _ => false
  end.

(** The assembler [strcmp] loads unsigned bytes and returns the difference of
    the first pair that differs, or that ends the first string.
    [src/lib/strcmp.S:12-46] *)
Fixpoint strcmp (s1 s2 : cstr) : Z :=
  match s1 with
  | [] => 0 - u8 (at_ s2 0)
  | x :: s1' =>
      match s2 with
      | [] => u8 x - 0
      | y :: s2' =>
          if negb (u8 x =? 0) && (u8 x =? u8 y) then strcmp s1' s2' else u8 x - u8 y
      end
  end.

Fixpoint strncmp_loop (s1 s2 : cstr) (n : nat) : Z :=
  match n with
  | O => 0
  | S n' =>
      match s1, s2 with
      | [], [] => 0
      | [], y :: _ => 0 - y
      | x :: _, [] => x - 0
      | x :: s1', y :: s2' =>
          if x =? y then strncmp_loop s1' s2' n' else x - y
      end
  end.

(** [src/lib/strncmp.c:5-24] *)
Definition strncmp (p q : cptr) (n : nat) : Z :=
  match p, q with
  | Some s, Some t => strncmp_loop s t n
  | _, _ => 0
  end.

(** Arrays of bytes; [None] is a read past the end of one of them.
    [src/lib/memcmp.c:6-14] *)
Fixpoint memcmp (a1 a2 : list Z) (n : nat) : option Z :=
  match n with
  | O => Some 0
  | S n' =>
      match a1, a2 with
      | x :: a1', y :: a2' =>
          let c := u8 x - u8 y in
          if c =? 0 then memcmp a1' a2' n' else Some c
      | _, _ => None
      end
  end.

Fixpoint strempty_loop (s : cstr) : bool :=
  match s with
  | [] => true
  | c :: s' => if isspace c then strempty_loop s' else false
  end.

(** [src/lib/strempty.c:5-15] *)
Definition strempty (p : cptr) : bool :=
  match p with
  | None => true
  | Some s => strempty_loop s
  end.

(** ** Copying and editing *)

(** The contents of the destination after [strcpy (dst, src)].
    [src/lib/strcpy.c:5-19] *)
Definition strcpy (src : cptr) : cstr :=
  match src with
  | None => []
  | Some s => s
  end.

(** The [n] bytes written by [strncpy (dst, src, n)]: at most [n] characters of
    [src], padded with zeros.
    [src/lib/strncpy.c:5-20] *)
Fixpoint strncpy (src : cstr) (n : nat) : list Z :=
  match n with
  | O => []
  | S n' =>
      match src with
      | [] => 0 :: strncpy [] n'
      | c :: src' => c :: strncpy src' n'
      end
  end.

Fixpoint strcat_loop (d src : cstr) : cstr :=
  match src with
  | [] => d
  | c :: src' => strcat_loop (d ++ [c]) src'
  end.

(** [src/lib/strcat.c:5-19] *)
Definition strcat (dst : cstr) (src : cptr) : cstr :=
  match src with
  | None => dst
  | Some s => strcat_loop dst s
  end.

Fixpoint strncat_loop (d src : cstr) (n : nat) : cstr :=
  match src, n with
  | c :: src', S n' => strncat_loop (d ++ [c]) src' n'
  | _, _ => d
  end.

(** [src/lib/strncat.c:5-20] *)
Definition strncat (dst : cstr) (src : cptr) (n : nat) : cstr :=
  match src with
  | None => dst
  | Some s => strncat_loop dst s n
  end.

(** [src/lib/strccat.c:5-17] *)
Definition strccat (dst : cstr) (c : Z) : cstr := dst ++ [c].

(** [src/lib/strdchr.c:5-16] *)
Definition strdchr (p : cstr) : cstr :=
  match p with
  | [] => []
  | _ :: s => s
  end.

(** [src/lib/strichr.c:5-19] *)
Definition strichr (p : cstr) (c : Z) : cstr := c :: p.

(** Each step inserts the next character of [p] at the moving destination.
    [src/lib/stristr.c:5-12] *)
Fixpoint stristr (dst p : cstr) : cstr :=
  match p with
  | [] => dst
  | c :: p' =>
      match strichr dst c with
      | [] => []
      | c' :: dst' => c' :: stristr dst' p'
      end
  end.

(** [src/lib/strtoupp.c:5-12] *)
Definition strtoupper (p : cstr) : cstr := toupper <$> p.

Inductive fmt_code : Type := FMT_RJUST | FMT_LJUST | FMT_RJUST0 | FMT_CENTER.

(** [src/lib/str_fmt.c:5-34] *)
Definition str_fmt (p : cstr) (size : Z) (fmt : fmt_code) : cstr :=
  let len := strlen (Some p) in
  match fmt with
  | FMT_RJUST =>
      Nat.iter (Z.to_nat (size - len)) (fun q => strichr q 32) p
  | FMT_LJUST =>
      Nat.iter (Z.to_nat (size - len)) (fun q => strcat q (Some (str " "))) p
  | FMT_RJUST0 =>
      Nat.iter (Z.to_nat (size - len)) (fun q => strichr q (ch "0")) p
  | FMT_CENTER =>
      let m := Z.quot (size - len) 2 in
      let n := size - (len + m) in
      let p := Nat.iter (Z.to_nat m) (fun q => strcat q (Some (str " "))) p in
      Nat.iter (Z.to_nat n) (fun q => strichr q 32) p
  end.

(** [for (--n; n >= 0; n--) p[n + 1] = p[n];] *)
Fixpoint strrrot_loop (p : cstr) (k : nat) : cstr :=
  let p := <[S k := at_ p k]> p in
  match k with O => p | S k' => strrrot_loop p k' end.

(** [src/lib/strrrot.c:3-18] *)
Definition strrrot (p : cstr) : cstr :=
  let n := length p in
  if (n <? 2)%nat then p
  else let t := at_ p (n - 1) in <[O := t]> (strrrot_loop p (n - 2)).

Fixpoint strmerge_loop (d s : cstr) : cstr :=
  match d, s with
  | x :: d', y :: s' => (if y =? 32 then x else y) :: strmerge_loop d' s'
  | _, _ => d
  end.

(** [src/lib/strmerge.c:5-18] *)
Definition strmerge (d s : cstr) : cstr :=
  let d := if (length d <? length s)%nat
           then d ++ replicate (length s - length d) 32 else d in
  strmerge_loop d s.

(** One pass of the bubble sort: [x] is the element at the current index. *)
Fixpoint strsort_pass (x : Z) (s : cstr) : cstr * bool :=
  match s with
  | [] => ([x], false)
  | y :: s' =>
      if y <? x then (y :: (strsort_pass x s').1, true)
      else let r := strsort_pass y s' in (x :: r.1, r.2)
  end.

Fixpoint strsort_loop (fuel : nat) (x : Z) (s : cstr) : option cstr :=
  match fuel with
  | O => None
  | S fuel' =>
      match strsort_pass x s with
      | (r, false) => Some r
      | (y :: r, true) => strsort_loop fuel' y r
      | ([], true) => None
      end
  end.

(** [None] stands for a pass count above the fuel, which [strsort_correct]
    excludes: one pass more than there are characters suffices.
    [src/lib/strsort.c:6-27] *)
Definition strsort (p : cstr) : option cstr :=
  match p with
  | x :: (_ :: _) as s => strsort_loop (S (length p)) x s
  | _ => Some p
  end.

(** ** Words *)

Fixpoint skip_space (s : cstr) : cstr :=
  match s with
  | c :: s' => if isspace c then skip_space s' else s
  | [] => []
  end.

Fixpoint span_nonspace (s : cstr) : cstr * cstr :=
  match s with
  | [] => ([], [])
  | c :: s' =>
      if isspace c then ([], s)
      else let r := span_nonspace s' in (c :: r.1, r.2)
  end.

(** [getword (dst, p)] gives the contents of [dst] and the pointer returned,
    as the rest of the text.
    [src/lib/getword.c:5-25] *)
Definition getword (p : cptr) : cstr * cptr :=
  match p with
  | None => ([], None)
  | Some s =>
      match skip_space s with
      | [] => ([], None)
      | t => let r := span_nonspace t in (r.1, Some r.2)
      end
  end.

(** The loop condition of [wordsz] is [!*p && !isspace ( *p)]: it runs only at
    the terminator, and there it reads past the end of the string ([None]).
    [src/lib/getword.c:28-42] *)
Definition wordsz (p : cptr) : option Z :=
  match p with
  | None => Some 0
  | Some s => match skip_space s with [] => None | _ :: _ => Some 0 end
  end.

Fixpoint strnwrd_loop (fuel : nat) (s : cstr) (n : Z) : Z :=
  match fuel with
  | O => n
  | S fuel' =>
      match s with
      | [] => n
      | _ =>
          match skip_space s with
          | [] => n
          | t => strnwrd_loop fuel' (span_nonspace t).2 (n + 1)
          end
      end
  end.

(** Each word takes a character, so the length bounds the iterations.
    [src/lib/strnwrd.c:5-22] *)
Definition strnwrd (p : cptr) : Z :=
  match p with
  | None => 0
  | Some s => strnwrd_loop (length s) s 0
  end.

(** [strtok] with its static pointer as the state [t]: the token, if any, and
    the new state.
    [src/lib/strtok.c:21-39] *)
Definition strtok (p : cptr) (tok : cstr) (t : cstr) : cptr * cstr :=
  let t := match p with Some s => s | None => t end in
  let r := drop (strspn t tok) t in
  match strcspn r tok with
  | O => (None, t)
  | n => (Some (take n r), drop 1 (drop n r))
  end.

(** ** Argument vectors *)

Fixpoint skip_blank (s : cstr) : cstr :=
  match s with
  | c :: s' => if c <=? 32 then skip_blank s' else s
  | [] => []
  end.

(** [while (' ' < *s) ++s;] *)
Fixpoint span_word (s : cstr) : cstr * cstr :=
  match s with
  | [] => ([], [])
  | c :: s' =>
      if 32 <? c then let r := span_word s' in (c :: r.1, r.2) else ([], s)
  end.

(** [while ( *s && *s != c) ++s;] *)
Fixpoint span_quote (q : Z) (s : cstr) : cstr * cstr :=
  match s with
  | [] => ([], [])
  | c :: s' =>
      if c =? q then ([], s) else let r := span_quote q s' in (c :: r.1, r.2)
  end.

Fixpoint argvize_loop (n : nat) (s : cstr) : list cstr :=
  match n with
  | O => []
  | S n' =>
      match skip_blank s with
      | [] => []
      | (c :: s') as t =>
          if (c =? squote) || (c =? dquote) then
            let r := span_quote c s' in
            r.1 :: argvize_loop n' (drop 1 (drop 1 r.2))
          else
            let r := span_word t in
            r.1 :: argvize_loop n' (drop 1 r.2)
      end
  end.

Definition MAX_AC : nat := 100.

(** The words of [s], each up to the NUL the routine writes after it.
    [src/lib/argvize.c:5-43] *)
Definition argvize (s : cstr) : list cstr := argvize_loop MAX_AC s.

(** ** Control characters *)

(** [src/lib/str2cc.c:5-22] *)
Definition str2cc (p : cptr) : Z :=
  match p with
  | None => 0
  | Some s =>
      let len := strlen p in
      if (len <? 1) || (2 <? len) then 0
      else if len =? 1 then at_ s 0
      else if (at_ s 1 <? ch "A") || (ch "~" <? at_ s 1) then 0
      else if negb (at_ s 0 =? ch "^") then 0
      else Z.land (at_ s 1) 31
  end.

(** [src/lib/cc2str.c:6-20] *)
Definition cc2str (c : Z) : cstr :=
  if iscntrl c then [ch "^"; Z.lor c 64] else [c].

(** ** What the routines compute *)

Section Specs.

Lemma strlen_loop_spec s n : strlen_loop s n = n + Z.of_nat (length s).
Proof. revert n. induction s as [|c s IH]; intros n; simpl; [|rewrite IH]; lia. Qed.

Lemma strlen_spec s : strlen (Some s) = Z.of_nat (length s).
Proof. simpl. rewrite strlen_loop_spec. lia. Qed.

Lemma strequ_loop_spec s t : strequ_loop s t = true <-> s = t.
Proof.
  revert t. induction s as [|x s IH]; intros [|y t]; simpl; try done.
  destruct (Z.eqb_spec x y) as [->|Hne]; [rewrite IH|]; split; congruence.
Qed.

Lemma strequ_spec s t : strequ (Some s) (Some t) = true <-> s = t.
Proof. apply strequ_loop_spec. Qed.

Lemma strequ_refl s : strequ (Some s) (Some s) = true.
Proof. by apply strequ_spec. Qed.

Lemma striequ_spec s t :
  striequ (Some s) (Some t) = true <-> strtoupper s = strtoupper t.
Proof.
  cbn. revert t. induction s as [|x s IH]; intros [|y t]; cbn; try (split; congruence).
  destruct (Z.eqb_spec (toupper x) (toupper y)) as [E|E].
  - rewrite IH. unfold strtoupper. rewrite E. split; congruence.
  - split; congruence.
Qed.

Lemma striequ_refl s : striequ (Some s) (Some s) = true.
Proof. by apply striequ_spec. Qed.

Lemma striequ_sym s t : striequ (Some s) (Some t) = striequ (Some t) (Some s).
Proof. apply eq_true_iff_eq. rewrite !striequ_spec. split; congruence. Qed.

Lemma strcmp_opp s t : strcmp t s = - strcmp s t.
Proof.
  revert t. induction s as [|x s IH]; intros [|y t]; cbn; try done.
  - unfold at_. cbn. unfold id. lia.
  - unfold at_. cbn. unfold id. lia.
  - destruct (Z.eqb_spec (u8 x) (u8 y)) as [E|E].
    + rewrite E, Z.eqb_refl. destruct (u8 y =? 0); cbn; [lia|apply IH].
    + destruct (Z.eqb_spec (u8 y) (u8 x)); [congruence|]. rewrite !andb_false_r. lia.
Qed.

Lemma strcmp_nil_l s : strcmp [] s <= 0.
Proof. cbn. pose proof (u8_range (at_ s 0)). lia. Qed.

Lemma strcmp_trans r s t : strcmp r s <= 0 -> strcmp s t <= 0 -> strcmp r t <= 0.
Proof.
  revert s t. induction r as [|x r IH]; intros s t H1 H2; [apply strcmp_nil_l|].
  pose proof (u8_range x) as Hx. destruct s as [|y s].
  - cbn in H1. assert (u8 x = 0) as E by lia. destruct t as [|z t]; cbn; [lia|].
    rewrite E. cbn. pose proof (u8_range z). lia.
  - pose proof (u8_range y) as Hy. destruct t as [|z t].
    + cbn in H2 |- *. cbn in H1. destruct (Z.eqb_spec (u8 x) 0); [lia|]. cbn in H1.
      destruct (Z.eqb_spec (u8 x) (u8 y)); lia.
    + cbn in H1, H2 |- *. destruct (Z.eqb_spec (u8 x) 0); cbn in *; [pose proof (u8_range z); lia|].
      destruct (Z.eqb_spec (u8 x) (u8 y)) as [E|E].
      * rewrite <- E in H2. destruct (Z.eqb_spec (u8 x) 0); [lia|]. cbn in H2.
        destruct (Z.eqb_spec (u8 x) (u8 z)); [by apply (IH s)|lia].
      * destruct (Z.eqb_spec (u8 y) 0); cbn in *; [lia|].
        destruct (Z.eqb_spec (u8 x) (u8 z)), (Z.eqb_spec (u8 y) (u8 z)); lia.
Qed.

Lemma strcat_loop_spec d s : strcat_loop d s = d ++ s.
Proof.
  revert d. induction s as [|c s IH]; intros d; simpl; [by rewrite app_nil_r|].
  rewrite IH. by rewrite <- app_assoc.
Qed.

Lemma strcat_spec d s : strcat d (Some s) = d ++ s.
Proof. apply strcat_loop_spec. Qed.

Lemma strncpy_spec src n :
  strncpy src n = take n src ++ replicate (n - length src) 0.
Proof.
  revert src. induction n as [|n IH]; intros [|c src]; simpl; f_equal; auto.
  rewrite IH. by rewrite take_nil, Nat.sub_0_r.
Qed.

Lemma strncpy_prefix src n : (n <= length src)%nat -> strncpy src n = take n src.
Proof.
  intros H. rewrite strncpy_spec. replace (n - length src)%nat with O by lia.
  apply app_nil_r.
Qed.

Lemma stristr_spec dst p : stristr dst p = p ++ dst.
Proof. induction p as [|c p IH]; simpl; [done|]. by rewrite IH. Qed.

Lemma strchr_loop_shift s c i :
  strchr_loop s c i = (fun k => (i + k)%nat) <$> strchr_loop s c 0.
Proof.
  revert i. induction s as [|x s IH]; intros i; simpl; [done|].
  case_bool; simpl; [f_equal; lia|].
  rewrite (IH (S i)), (IH 1%nat). destruct (strchr_loop s c 0); simpl; f_equal; lia.
Qed.

Lemma strchr_None s c : strchr (Some s) c = None <-> ~ c ∈ s.
Proof.
  simpl. induction s as [|x s IH]; simpl; [set_solver|].
  case_bool; [set_solver|].
  rewrite strchr_loop_shift. destruct (strchr_loop s c 0); set_solver.
Qed.

Lemma strchr_Some s c i :
  strchr (Some s) c = Some i <-> s !! i = Some c /\ ~ c ∈ take i s.
Proof.
  simpl. revert i. induction s as [|x s IH]; intros i; simpl; [set_solver|].
  destruct (Z.eqb_spec x c) as [->|Hne].
  - destruct i as [|i]; simpl; [set_solver|]. split; [done|]. set_solver.
  - rewrite strchr_loop_shift. destruct i as [|i]; simpl.
    + split; [|naive_solver]. by destruct (strchr_loop s c 0).
    + rewrite not_elem_of_cons, fmap_Some. split.
      * intros (k & Hk & [= ->]). apply IH in Hk. naive_solver.
      * intros (Hi & _ & Hn). exists i. split; [|done]. apply IH. done.
Qed.

Lemma mem_of_spec set c : mem_of set c = true <-> c ∈ set.
Proof.
  unfold mem_of. rewrite bool_decide_eq_true, strchr_None.
  destruct (decide (c ∈ set)); tauto.
Qed.

(** Padding: the width is reached and the text is kept. *)
Lemma iter_strichr c p n :
  Nat.iter n (fun q => strichr q c) p = replicate n c ++ p.
Proof. induction n as [|n IH]; simpl; [done|]. by rewrite IH. Qed.

Lemma str_fmt_rjust p size :
  str_fmt p size FMT_RJUST = replicate (Z.to_nat size - length p) 32 ++ p.
Proof.
  unfold str_fmt. rewrite strlen_spec, iter_strichr. f_equal. f_equal. lia.
Qed.

Lemma str_fmt_rjust0 p size :
  str_fmt p size FMT_RJUST0 = replicate (Z.to_nat size - length p) (ch "0") ++ p.
Proof.
  unfold str_fmt. rewrite strlen_spec, iter_strichr. f_equal. f_equal. lia.
Qed.

End Specs.

(** ** The bubble sort *)

Section Sort.

Lemma strsort_pass_perm x s : Permutation (strsort_pass x s).1 (x :: s).
Proof.
  revert x. induction s as [|y s IH]; intros x; simpl; [done|].
  case_bool; simpl.
  - rewrite (IH x). apply Permutation_swap.
  - by rewrite (IH y).
Qed.

Lemma strsort_pass_sorted x s :
  Sorted Z.le (x :: s) -> strsort_pass x s = (x :: s, false).
Proof.
  revert x. induction s as [|y s IH]; intros x Hs; simpl; [done|].
  apply Sorted_inv in Hs as [Hs Hd]. apply HdRel_inv in Hd.
  case_bool; [lia|]. by rewrite IH.
Qed.

Lemma strsort_pass_flag x s : (strsort_pass x s).2 = false -> Sorted Z.le (x :: s).
Proof.
  revert x. induction s as [|y s IH]; intros x; simpl; [repeat constructor|].
  case_bool; simpl; [done|]. intros Hfl%IH. constructor; [done|]. by constructor.
Qed.

(** A pass floats the maximum of an unsorted front past it and leaves a sorted
    tail of larger elements alone. *)
Lemma strsort_pass_split x a b :
  Sorted Z.le b -> (forall y z, y ∈ x :: a -> z ∈ b -> y <= z) ->
  exists a' m, (strsort_pass x (a ++ b)).1 = a' ++ m :: b /\
    Permutation (a' ++ [m]) (x :: a) /\ (forall y, y ∈ a' -> y <= m).
Proof.
  revert x. induction a as [|y a IH]; intros x Hb Hle; simpl.
  - exists [], x. split; [|set_solver].
    rewrite strsort_pass_sorted; [done|].
    destruct b as [|z b]; repeat constructor; [by apply Sorted_inv in Hb as []| |].
    + by apply Sorted_inv in Hb as [].
    + apply Hle; set_solver.
  - case_bool; simpl.
    + destruct (IH x Hb) as (a' & m & -> & Hp & Hm); [set_solver|].
      exists (y :: a'), m. split_and!; [done| |].
      * simpl. rewrite Hp. apply Permutation_swap.
      * intros z [->|Hz]%elem_of_cons; [|auto].
        assert (x ∈ a' ++ [m]) as Hx by (rewrite Hp; set_solver).
        apply elem_of_app in Hx as [Hx%Hm|Hx%list_elem_of_singleton]; lia.
    + destruct (IH y Hb) as (a' & m & -> & Hp & Hm); [set_solver|].
      exists (x :: a'), m. split_and!; [done| |].
      * simpl. by rewrite Hp.
      * intros z [->|Hz]%elem_of_cons; [|auto].
        assert (y ∈ a' ++ [m]) as Hy by (rewrite Hp; set_solver).
        apply elem_of_app in Hy as [Hy%Hm|Hy%list_elem_of_singleton]; lia.
Qed.

Lemma strsort_loop_correct fuel x a b :
  (length a < fuel)%nat -> Sorted Z.le b ->
  (forall y z, y ∈ x :: a -> z ∈ b -> y <= z) ->
  exists r, strsort_loop (S fuel) x (a ++ b) = Some r /\
    Sorted Z.le r /\ Permutation r (x :: a ++ b).
Proof.
  revert x a b. induction fuel as [|fuel IH]; intros x a b Hf Hb Hle; [lia|].
  destruct (strsort_pass_split x a b Hb Hle) as (a' & m & E & Hp & Hm).
  pose proof (strsort_pass_perm x (a ++ b)) as Hperm.
  pose proof (strsort_pass_flag x (a ++ b)) as Hflag.
  change (strsort_loop (S (S fuel)) x (a ++ b)) with
    (match strsort_pass x (a ++ b) with
     | (r, false) => Some r
     | (y :: r, true) => strsort_loop (S fuel) y r
     | ([], true) => None
     end).
  destruct (strsort_pass x (a ++ b)) as [r [|]] eqn:Epass; cbn [fst snd] in *.
  - subst r. destruct a' as [|y a']; cbn [app] in *.
    + (* the front had one element: nothing could be swapped *)
      apply Permutation_length in Hp. simpl in Hp. destruct a; [|done].
      rewrite strsort_pass_sorted in Epass; [done|].
      destruct b; repeat constructor; try (by apply Sorted_inv in Hb as []).
      apply Hle; set_solver.
    + destruct (IH y a' (m :: b)) as (r & -> & Hs & Hr).
      * apply Permutation_length in Hp. simpl in Hp. rewrite length_app in Hp. simpl in *. lia.
      * constructor; [done|]. destruct b; constructor. apply Hle; [|set_solver].
        rewrite <- Hp. set_solver.
      * intros u v Hu [->|Hv]%elem_of_cons; [by apply Hm|].
        apply Hle; [rewrite <- Hp|]; set_solver.
      * exists r. split_and!; [done|done|]. by rewrite Hr, <- Hperm.
  - exists r. split_and!; [by destruct r| |done].
    assert (Sorted Z.le (x :: a ++ b)) as Hs by auto.
    rewrite strsort_pass_sorted in Epass by done. by injection Epass as <-.
Qed.

End Sort.

(** ** Properties *)

Lemma strsort_correct_aux p :
  exists r, strsort p = Some r /\ Sorted Z.le r /\ Permutation r p.
Proof.
  destruct p as [|x [|y s]]; [by exists []|by exists [x]; repeat constructor|].
  destruct (strsort_loop_correct (length (x :: y :: s)) x (y :: s) [])
    as (r & E & Hs & Hp).
  - simpl. lia.
  - constructor.
  - set_solver.
  - rewrite app_nil_r in E, Hp. by exists r.
Qed.

(** [strsort] terminates on every string, and its result is the sorted
    permutation of its argument's characters (in the order of signed
    characters). *)
Theorem strsort_sorts (p : cstr) :
  exists r, strsort p = Some r /\ Sorted Z.le r /\ Permutation r p.
Proof. apply strsort_correct_aux. Qed.

(** Checking a boolean on a range of integers by computation. *)
Lemma forallb_range (f : Z -> bool) lo n :
  forallb f (seqZ lo n) = true -> forall c, lo <= c < lo + n -> f c = true.
Proof.
  intros H c Hc. rewrite forallb_forall in H. apply H.
  apply list_elem_of_In, elem_of_seqZ. lia.
Qed.

(** [str2cc] reads back what [cc2str] prints for every 7-bit character
    but DEL: a control character is shown as a caret and a letter and recovered
    from it. DEL (127) is shown as a caret and DEL, which [str2cc] rejects. *)
Theorem str2cc_cc2str (c : Z) (Hc : 0 <= c <= 127) :
  str2cc (Some (cc2str c)) = if c =? 127 then 0 else c.
Proof.
  apply Z.eqb_eq. revert c Hc.
  assert (forallb (fun c => str2cc (Some (cc2str c)) =? (if c =? 127 then 0 else c))
            (seqZ 0 128) = true) as H by (vm_compute; reflexivity).
  intros c Hc. apply (forallb_range _ 0 128 H). lia.
Qed.

Lemma str2cc_cc2str_witness : str2cc (Some (cc2str 3)) = 3.
Proof. apply (str2cc_cc2str 3). lia. Defined.

(** ** Splitting a command line *)

(** A word [argvize] leaves alone: printing characters, no opening quote. *)
Definition plain_word (w : cstr) : Prop :=
  Forall (fun c => 32 < c) w /\ w <> [] /\
  at_ w 0 <> squote /\ at_ w 0 <> dquote.

(** The words, each followed by a blank, the way [go] and [debug] build the
    client's command line. *)
Definition join_words (ws : list cstr) : cstr :=
  concat (map (fun w => w ++ [32]) ws).

Lemma span_word_plain w s :
  Forall (fun c => 32 < c) w -> at_ s 0 <= 32 -> span_word (w ++ s) = (w, s).
Proof.
  intros Hw Hs. induction Hw as [|c w Hc Hw IH]; simpl.
  - destruct s as [|c s]; [done|]. simpl in *. unfold at_ in Hs. simpl in Hs.
    case_bool; [lia|done].
  - case_bool; [|lia]. by rewrite IH.
Qed.

Lemma argvize_loop_plain ws n :
  Forall plain_word ws -> (length ws <= n)%nat ->
  argvize_loop n (join_words ws) = ws.
Proof.
  intros Hws. revert n. induction Hws as [|w ws (Hw & Hne & Hq & Hd) Hws IH];
    intros n Hn; [by destruct n|].
  destruct n as [|n]; [simpl in Hn; lia|].
  assert (join_words (w :: ws) = w ++ 32 :: join_words ws) as Ej.
  { unfold join_words. simpl. by rewrite <- app_assoc. }
  rewrite Ej. destruct w as [|c w]; [done|].
  inversion Hw as [|? ? Hc Hw']; subst. unfold at_ in Hq, Hd. simpl in Hq, Hd.
  cbn [argvize_loop app skip_blank].
  destruct (Z.leb_spec c 32); [lia|].
  rewrite (proj2 (Z.eqb_neq c squote) Hq), (proj2 (Z.eqb_neq c dquote) Hd). cbn [orb].
  change (c :: w ++ 32 :: join_words ws) with ((c :: w) ++ 32 :: join_words ws).
  rewrite span_word_plain; [|done|unfold at_; simpl; lia].
  cbn [fst snd drop]. rewrite IH; [done|]. simpl in Hn. lia.
Qed.

(** [argvize] recovers the words of a command line built by appending a
    blank to each of at most 100 plain words: no word is lost, split or
    merged. *)
Theorem argvize_join_words (ws : list cstr)
  (Hws : Forall plain_word ws) (Hn : (length ws <= MAX_AC)%nat) :
  argvize (join_words ws) = ws.
Proof. by apply argvize_loop_plain. Qed.

Lemma argvize_join_words_witness :
  argvize (join_words [str "g"; str "-e"; str "0x80020000"]) =
    [str "g"; str "-e"; str "0x80020000"].
Proof.
  apply (argvize_join_words [str "g"; str "-e"; str "0x80020000"]).
  - repeat constructor; try (vm_compute; congruence); vm_compute; reflexivity.
  - vm_compute. lia.
Defined.
