(* ===== verification/Glob.v ===== *)
(** * Glob: the wild-card matcher [strpat]

    [src/lib/strpat.c] matches a name against a pattern with [*] and [?]
    without backtracking: after a star it looks for the first occurrence of the
    literal text up to the next wild card. [glob] is the usual meaning of such
    patterns; the matcher is sound for it, and complete for the patterns in
    which no [?] and no second [*] follows a star directly or across literals
    (one [?] after a star is enough to make it miss a match). *)

From S2P Require Import Prelude CString.

Definition star : Z := ch "*".
Definition qmark : Z := ch "?".

(** [src/lib/strpat.c:5-6] *)
Definition BANCHOR : Z := s8 (Z.lor 128 (ch "^")).
Definition EANCHOR : Z := s8 (Z.lor 128 (ch "$")).

Definition is_wild (c : Z) : bool := (c =? star) || (c =? qmark).

(** [for (t = pat; *t && *t != '*' && *t != '?'; t++);] *)
Fixpoint lit_span (pat : cstr) : cstr * cstr :=
  match pat with
  | [] => ([], [])
  | c :: pat' =>
      if is_wild c then ([], pat)
      else let r := lit_span pat' in (c :: r.1, r.2)
  end.

(** Every iteration consumes a character of the pattern, so its length is fuel
    enough. [src/lib/strpat.c:33-56] *)
Fixpoint strpat_loop (fuel : nat) (p pat : cstr) : bool :=
  match p, pat with
  | x :: p', y :: pat' =>
      match fuel with
      | O => false
      | S f =>
          if y =? star then
            let r := lit_span pat' in
            match strposn (Some p) (Some r.1) with
            | None => false
            | Some t => strpat_loop f (drop (t + length r.1) p) r.2
            end
          else if (y =? qmark) || (y =? x) then strpat_loop f p' pat'
          else false
      end
  | [], [] => true
  | [], [y] => y =? star
  | _, _ => false
  end.

(** [src/lib/strpat.c:9-57] *)
Definition strpat (s1 s2 : cptr) : bool :=
  match s1, s2 with
  | Some a, Some b =>
      let p := BANCHOR :: a ++ [EANCHOR] in
      let pat := BANCHOR :: b ++ [EANCHOR] in
      strpat_loop (length pat) p pat
  | _, _ => false
  end.

(** ** The meaning of patterns *)

Inductive glob : cstr -> cstr -> Prop :=
| glob_nil : glob [] []
| glob_star p s t : glob p t -> glob (star :: p) (s ++ t)
| glob_any p c s : glob p s -> glob (qmark :: p) (c :: s)
| glob_lit p c s : is_wild c = false -> glob p s -> glob (c :: p) (c :: s).

(** The patterns for which first-occurrence matching is exact. *)
Fixpoint after_star (fresh : bool) (pat : cstr) : bool :=
  match pat with
  | [] => true
  | c :: p =>
      if c =? star then negb fresh && after_star true p
      else if c =? qmark then false
      else after_star false p
  end.

Fixpoint simple_pattern (pat : cstr) : bool :=
  match pat with
  | [] => true
  | c :: p => if c =? star then after_star true p else simple_pattern p
  end.

(** ** Occurrences *)

Lemma match_here_spec t s : match_here t s = true <-> exists r, t = s ++ r.
Proof.
  revert s. induction t as [|x t IH]; intros [|y s]; simpl.
  - split; [by exists []|done].
  - split; [done|]. by intros [r [=]].
  - split; [by exists (x :: t)|done].
  - destruct (Z.eqb_spec x y) as [->|Hne].
    + rewrite IH. split; intros [r Hr]; exists r; congruence.
    + split; [done|]. intros [r [= ? ?]]. congruence.
Qed.

Lemma find_sub_shift p q i :
  find_sub p q i = (fun k => (i + k)%nat) <$> find_sub p q 0.
Proof.
  revert i. induction p as [|x p IH]; intros i; simpl; [done|].
  destruct (_ && _); simpl; [f_equal; lia|].
  rewrite (IH (S i)), (IH 1%nat). destruct (find_sub p q 0); simpl; f_equal; lia.
Qed.

Lemma find_sub_sound p q i :
  find_sub p q 0 = Some i -> exists r, drop i p = q ++ r /\ (i <= length p)%nat.
Proof.
  revert i. induction p as [|x p IH]; intros i; simpl; [done|].
  destruct (_ && _) eqn:E; simpl.
  - intros [= <-]. apply andb_true_iff in E as [_ E].
    apply (proj1 (match_here_spec (x :: p) q)) in E as [r ->]. exists r. split; [done|lia].
  - rewrite find_sub_shift. intros (k & Hk & ->)%fmap_Some. simpl.
    destruct (IH _ Hk) as (r & -> & ?). exists r. split; [done|lia].
Qed.

(** The first occurrence is found, at or before any given one. *)
Lemma find_sub_complete u q r :
  q <> [] -> exists i, find_sub (u ++ q ++ r) q 0 = Some i /\ (i <= length u)%nat.
Proof.
  intros Hq. induction u as [|x u IH]; simpl.
  - destruct q as [|c q]; [done|]. simpl. unfold at_. simpl. rewrite !Z.eqb_refl. simpl.
    rewrite (proj2 (match_here_spec (q ++ r) q)) by (by exists r). by exists O.
  - destruct (_ && _); [exists O; split; [done|lia]|].
    rewrite find_sub_shift. destruct IH as (i & -> & ?). simpl.
    exists (S i). split; [done|lia].
Qed.

Lemma glob_lits l p s :
  forallb (fun c => negb (is_wild c)) l = true -> glob p s -> glob (l ++ p) (l ++ s).
Proof.
  induction l as [|c l IH]; simpl; [done|].
  rewrite andb_true_iff. intros [Hc Hl] H. constructor; [by destruct (is_wild c)|auto].
Qed.

Lemma lit_span_spec pat :
  pat = (lit_span pat).1 ++ (lit_span pat).2 /\
  forallb (fun c => negb (is_wild c)) (lit_span pat).1 = true.
Proof.
  induction pat as [|c pat [IH1 IH2]]; simpl; [done|].
  destruct (is_wild c) eqn:E; simpl; [done|]. rewrite E. simpl.
  split; [f_equal; apply IH1|done].
Qed.

Lemma strpat_loop_sound fuel p pat : strpat_loop fuel p pat = true -> glob pat p.
Proof.
  revert p pat. induction fuel as [|f IH]; intros p pat.
  - destruct p as [|x p], pat as [|y [|z pat]]; simpl; try done; [constructor|].
    intros ->%Z.eqb_eq. apply (glob_star [] []). constructor.
  - destruct p as [|x p], pat as [|y pat]; cbn [strpat_loop]; try done; [constructor| |].
    { destruct pat; [|done]. intros ->%Z.eqb_eq. apply (glob_star [] []). constructor. }
    destruct (Z.eqb_spec y star) as [->|Hst].
    + destruct (lit_span_spec pat) as [Epat Hlit].
      destruct (lit_span pat) as [tmp rest]; cbn [fst snd] in *. subst pat.
      destruct tmp as [|c tmp]; cbn [strposn].
      * intros H%IH. simpl in *. rewrite Nat.add_0_r in H.
        change (S (length p)) with (length (x :: p)) in H.
        rewrite drop_all in H. rewrite <- (app_nil_r (x :: p)). by constructor.
      * destruct (find_sub _ _ _) as [t|] eqn:E; [|done]. intros H%IH.
        apply find_sub_sound in E as (r & Er & _).
        rewrite <- (take_drop t (x :: p)), Er. constructor.
        apply glob_lits; [done|].
        by rewrite <- drop_drop, Er, drop_app_length in H.
    + destruct (_ || _) eqn:E; [|done]. intros H%IH.
      destruct (Z.eqb_spec y qmark) as [->|Hq]; [by constructor|].
      simpl in E. apply Z.eqb_eq in E as ->. constructor; [|done].
      unfold is_wild. by rewrite (proj2 (Z.eqb_neq x star) Hst), (proj2 (Z.eqb_neq x qmark) Hq).
Qed.

Lemma glob_snoc_lit q c u :
  is_wild c = false -> glob (q ++ [c]) u -> exists s, u = s ++ [c] /\ glob q s.
Proof.
  intros Hc. revert u. induction q as [|y q IH]; intros u H; simpl in H.
  - inversion H as [|? ? ? ? E|? ? ? ? E|? ? ? ? Hg]; subst; try (by vm_compute in Hc).
    inversion Hg; subst. exists []. split; [done|constructor].
  - inversion H as [|? s ? Hg|? x ? Hg|? ? ? ? Hg]; subst;
      apply IH in Hg as (w & -> & Hg).
    + exists (s ++ w). split; [by rewrite app_assoc|by constructor].
    + exists (x :: w). split; [done|by constructor].
    + exists (y :: w). split; [done|by constructor].
Qed.

(** ** Completeness *)

Lemma glob_lit_exact l t :
  forallb (fun c => negb (is_wild c)) l = true -> glob l t -> t = l.
Proof.
  revert t. induction l as [|c l IH]; intros t; simpl.
  - intros _ H. by inversion H.
  - rewrite andb_true_iff. intros [Hc Hl] H.
    inversion H; subst; try (by vm_compute in Hc). f_equal. auto.
Qed.

Lemma glob_lits_inv l p u :
  forallb (fun c => negb (is_wild c)) l = true -> glob (l ++ p) u ->
  exists t, u = l ++ t /\ glob p t.
Proof.
  revert u. induction l as [|c l IH]; intros u; simpl; [by exists u|].
  rewrite andb_true_iff. intros [Hc Hl] H.
  inversion H; subst; try (by vm_compute in Hc).
  destruct (IH s Hl) as (t & -> & ?); [done|]. by exists t.
Qed.

Lemma glob_star_suffix p s w : glob (star :: p) s -> glob (star :: p) (w ++ s).
Proof.
  intros H. inversion H as [|? u t Hg|? ? ? ? |? ? ? Hc Hg]; subst.
  - rewrite app_assoc. by constructor.
  - by vm_compute in Hc.
Qed.

(** Splitting a pattern that follows a star at its next star. *)
Lemma after_star_split b q :
  after_star b q = true ->
  exists l r, q = l ++ r /\ forallb (fun c => negb (is_wild c)) l = true /\
    (r = [] \/ exists r', r = star :: r' /\ after_star true r' = true /\ (b = true -> l <> [])).
Proof.
  revert b. induction q as [|c q IH]; intros b; simpl.
  - intros _. exists [], []. auto.
  - destruct (Z.eqb_spec c star) as [->|Hs].
    + rewrite andb_true_iff. intros [Hb Hq]. exists [], (star :: q).
      split_and!; [done|done|right]. exists q. by destruct b.
    + destruct (Z.eqb_spec c qmark) as [->|Hqm]; [done|]. intros Hq.
      destruct (IH _ Hq) as (l & r & -> & Hl & Hr).
      exists (c :: l), r. split_and!; [done| |].
      * simpl. rewrite Hl. unfold is_wild.
        by rewrite (proj2 (Z.eqb_neq c star) Hs), (proj2 (Z.eqb_neq c qmark) Hqm).
      * destruct Hr as [->|(r' & -> & Hr' & _)]; [by left|right]. by exists r'.
Qed.

Lemma lit_span_lits l r :
  forallb (fun c => negb (is_wild c)) l = true ->
  (r = [] \/ exists c r', r = c :: r' /\ is_wild c = true) ->
  lit_span (l ++ r) = (l, r).
Proof.
  induction l as [|c l IH]; simpl.
  - intros _ [->|(c & r' & -> & Hc)]; [done|]. simpl. by rewrite Hc.
  - rewrite andb_true_iff. intros [Hc Hl] Hr. rewrite IH by done.
    by destruct (is_wild c).
Qed.

Section Complete.
Variable E : Z.
Hypothesis E_lit : is_wild E = false.

Lemma E_ne : (E =? star) = false /\ (E =? qmark) = false.
Proof. unfold is_wild in E_lit. by apply orb_false_iff in E_lit. Qed.

(** After a star: the next literal run is found early enough. *)
Lemma strpat_star_step f q s :
  (forall q' s', (length q' < length q)%nat -> simple_pattern q' = true ->
     ~ E ∈ q' -> ~ E ∈ s' -> glob q' s' ->
     strpat_loop f (s' ++ [E]) (q' ++ [E]) = true) ->
  after_star true q = true -> ~ E ∈ q -> ~ E ∈ s -> glob (star :: q) s ->
  strpat_loop (S f) (s ++ [E]) (star :: q ++ [E]) = true.
Proof.
  intros IH Hq HEq HEs Hg.
  inversion Hg as [|? u t Ht|? ? ? ?|? ? ? Hc _]; subst; [|by vm_compute in Hc].
  destruct (after_star_split true q Hq) as (l & r & -> & Hl & Hr).
  destruct ((u ++ t) ++ [E]) as [|x p] eqn:Ep; [by destruct (u ++ t)|].
  cbn [strpat_loop]. rewrite Z.eqb_refl, <- Ep. clear Ep x p.
  apply glob_lits_inv in Ht as (t' & -> & Ht'); [|done].
  destruct Hr as [->|(r' & -> & Hr' & Hne)].
  - (* last run: it ends in the anchor *)
    inversion Ht'; subst. rewrite !app_nil_r in *.
    assert (lit_span (l ++ [E]) = (l ++ [E], [])) as ->.
    { rewrite <- (app_nil_r (l ++ [E])) at 1. apply lit_span_lits; [|by left].
      rewrite forallb_app, Hl. simpl. by rewrite E_lit. }
    cbn [fst snd].
    assert (l ++ [E] <> []) as Hn by (by destruct l).
    destruct (find_sub_complete u (l ++ [E]) [] Hn) as (i & Hi & Hle).
    rewrite app_nil_r, app_assoc in Hi.
    unfold strposn. destruct (l ++ [E]) as [|y w] eqn:El; [done|]. rewrite <- El in *.
    rewrite Hi. apply find_sub_sound in Hi as (w' & Hw & Hi).
    rewrite <- drop_drop, Hw, drop_app_length.
    assert (w' = []) as ->; [|by destruct f].
    (* anything after the anchor would put the anchor inside the subject *)
    destruct w' as [|z w'] using rev_ind; [done|exfalso].
    rewrite !app_assoc in Hw.
    assert (drop i ((u ++ l) ++ [E]) = drop i (u ++ l) ++ [E]) as Hd.
    { apply drop_app_le. rewrite length_app.
      assert (length (drop i ((u ++ l) ++ [E])) <= S (length (u ++ l)))%nat as HL
        by (rewrite length_drop, !length_app; simpl; lia).
      destruct (decide (i <= length u + length l)%nat); [done|].
      assert (length (drop i ((u ++ l) ++ [E])) = 0)%nat as HL0
        by (rewrite length_drop, !length_app; simpl; lia).
      rewrite Hw, !length_app in HL0. simpl in HL0. lia. }
    rewrite Hd in Hw. apply app_inj_tail in Hw as [Hw _].
    apply HEs. apply (subseteq_drop i (u ++ l)). rewrite Hw. set_solver.
  - assert (lit_span ((l ++ star :: r') ++ [E]) = (l, star :: r' ++ [E])) as ->.
    { rewrite <- app_assoc. apply lit_span_lits; [done|right].
      by exists star, (r' ++ [E]). }
    cbn [fst snd]. specialize (Hne eq_refl).
    destruct (find_sub_complete u l (t' ++ [E]) Hne) as (i & Hi & Hle).
    unfold strposn. destruct l as [|y l']; [done|].
    remember (y :: l') as l eqn:El.
    assert ((u ++ l ++ t') ++ [E] = u ++ l ++ t' ++ [E]) as -> by (by rewrite <- !app_assoc).
    rewrite Hi. apply find_sub_sound in Hi as (w' & Hw & _).
    rewrite <- drop_drop, Hw, drop_app_length.
    (* w' = s'' ++ [E] with t' a suffix of s'' *)
    assert (exists v, w' = (v ++ t') ++ [E]) as [v ->].
    { rewrite drop_app_le in Hw by done.
      assert (length (drop i u ++ l ++ t' ++ [E]) = length (l ++ w')) as HL by (by rewrite Hw).
      rewrite !length_app in HL. simpl in HL.
      exists (take (length (drop i u)) w').
      rewrite <- (take_drop (length (drop i u)) w') at 1. rewrite <- app_assoc. f_equal.
      assert (drop (length l + length (drop i u)) (l ++ w') = t' ++ [E]) as Hd.
      { rewrite <- Hw. rewrite app_assoc. apply drop_app_length'.
        rewrite length_app. lia. }
      by rewrite <- drop_drop, drop_app_length in Hd. }
    change (star :: r' ++ [E]) with ((star :: r') ++ [E]). apply IH.
    + rewrite length_app, El. simpl. lia.
    + simpl. by rewrite Hr'.
    + set_solver.
    + rewrite drop_app_le in Hw by done.
      assert (drop i u ++ l ++ t' = l ++ v ++ t') as Hw'.
      { apply (app_inj_tail _ _ E E). rewrite <- !app_assoc in *. done. }
      intros Hin. apply HEs.
      assert (E ∈ drop i u ++ l ++ t') as Hin' by (rewrite Hw'; set_solver).
      apply elem_of_app in Hin' as [Hin'|Hin']; [|set_solver].
      apply (subseteq_drop i u) in Hin'. set_solver.
    + by apply glob_star_suffix.
Qed.
End Complete.

Lemma strpat_loop_complete E (HE : is_wild E = false) n q s f :
  (length q < n)%nat -> (length q < f)%nat -> simple_pattern q = true ->
  ~ E ∈ q -> ~ E ∈ s -> glob q s ->
  strpat_loop f (s ++ [E]) (q ++ [E]) = true.
Proof.
  revert q s f. induction n as [|n IH]; intros q s f Hn Hf Hq HEq HEs Hg; [lia|].
  destruct (E_ne E HE) as [Hs Hm].
  destruct q as [|c q].
  { inversion Hg; subst. destruct f as [|f]; [simpl in Hf; lia|]. cbn [app strpat_loop].
    rewrite Hs, Hm, Z.eqb_refl. by destruct f. }
  destruct f as [|f]; [lia|]. simpl in Hn, Hf.
  cbn [simple_pattern] in Hq. destruct (Z.eqb_spec c star) as [->|Hc].
  - apply strpat_star_step; try done; [|set_solver].
    intros q' s' Hlt. intros. apply IH; try done; lia.
  - destruct s as [|x s'].
    { inversion Hg; subst; done. }
    cbn [app strpat_loop]. rewrite (proj2 (Z.eqb_neq c star) Hc).
    inversion Hg as [|? ? ? ?|? ? ? Hg'|? ? ? Hw Hg']; subst; [done| |];
      rewrite ?Z.eqb_refl, ?orb_true_r; cbn [orb];
      (apply IH; [lia|lia|done|set_solver|set_solver|done]).
Qed.

(** Anchored matching is matching. *)
Lemma anchors_glob a b :
  glob (BANCHOR :: b ++ [EANCHOR]) (BANCHOR :: a ++ [EANCHOR]) -> glob b a.
Proof.
  intros H. inversion H as [|? ? ? ?|? ? ? ?|? ? ? _ Hg]; subst.
  apply (glob_snoc_lit b EANCHOR) in Hg as (s & Es & Hg); [|by vm_compute].
  by apply app_inj_tail in Es as [-> _].
Qed.

Lemma ascii_no_anchor s : ascii_ok s -> ~ EANCHOR ∈ s.
Proof.
  intros Hs Hin%list_elem_of_In. apply (proj1 (List.Forall_forall _ _) Hs) in Hin.
  unfold is_ascii in Hin. change EANCHOR with (-92) in Hin. lia.
Qed.

(** [strpat] is sound: whenever it reports a match, the name matches the
    pattern in the usual meaning of [*] (any text) and [?] (any one
    character). *)
Theorem strpat_sound (a b : cstr) (H : strpat (Some a) (Some b) = true) : glob b a.
Proof. apply anchors_glob. by eapply strpat_loop_sound. Qed.

Lemma strpat_sound_witness : glob (str "m*z") (str "moresz").
Proof. apply (strpat_sound (str "moresz") (str "m*z")). vm_compute. reflexivity. Defined.

(** On 7-bit text [strpat] decides the match exactly, for every pattern in
    which no [?] comes after the first [*] and no two stars are adjacent. *)
Theorem strpat_exact (a b : cstr)
  (Ha : ascii_ok a) (Hb : ascii_ok b) (Hsimple : simple_pattern b = true) :
  strpat (Some a) (Some b) = true <-> glob b a.
Proof.
  split; [apply strpat_sound|]. intros Hg. unfold strpat.
  cbn [length strpat_loop app].
  assert ((BANCHOR =? star) = false) as -> by (by vm_compute).
  rewrite Z.eqb_refl, orb_true_r.
  apply (strpat_loop_complete EANCHOR eq_refl (S (length b))); try done.
  - lia.
  - rewrite length_app. simpl. lia.
  - by apply ascii_no_anchor.
  - by apply ascii_no_anchor.
Qed.

Lemma strpat_exact_witness :
  strpat (Some (str "showsym")) (Some (str "s?o*sym")) = true <->
  glob (str "s?o*sym") (str "showsym").
Proof.
  apply (strpat_exact (str "showsym") (str "s?o*sym"));
    [repeat constructor; vm_compute; congruence
    |repeat constructor; vm_compute; congruence|vm_compute; reflexivity].
Defined.

(** The restriction in [strpat_exact] is needed: the comment of
    [strpat.c] promises 1 whenever the pattern matches, but a [?] after a star
    or a doubled star makes the routine reject names that do match. *)
Theorem strpat_incomplete :
  (strpat (Some (str "xaabc")) (Some (str "*a?c")) = false /\
   glob (str "*a?c") (str "xaabc")) /\
  (strpat (Some (str "ab")) (Some (str "a**b")) = false /\
   glob (str "a**b") (str "ab")) /\
  (forall a, strpat (Some a) (Some (str "**")) = false).
Proof.
  split_and!; try (by vm_compute).
  - apply (glob_star _ (str "xa") (str "abc")), glob_lit, glob_any, glob_lit, glob_nil;
      by vm_compute.
  - apply glob_lit; [by vm_compute|].
    apply (glob_star _ [] (str "b")), (glob_star _ [] (str "b")), glob_lit, glob_nil; by vm_compute.
  - intros [|x a]; [by vm_compute|]. unfold strpat.
    change (str "**") with [star; star]. cbn [length app strpat_loop].
    assert ((BANCHOR =? star) = false) as -> by (by vm_compute).
    rewrite !Z.eqb_refl, orb_true_r. cbn [lit_span is_wild].
    assert (is_wild star = true) as -> by (by vm_compute). cbn [fst snd strposn length].
    rewrite Nat.add_0_r.
    change (S (length (a ++ [EANCHOR]))) with (length (x :: a ++ [EANCHOR])).
    by rewrite drop_all.
Qed.
