(* ===== verification/Numconv.v ===== *)
(** * Numconv: numbers to text and back

    [src/lib/atob.c] (the conversions every command uses for its arguments),
    [atoi.c], [atol.c] and [strtol.c], in the [__mips >= 3] configuration:
    values are accumulated in 64-bit words and [atob] keeps the low 32 bits.
    The theorems: printing and reading back is the identity, [gethex] inverts
    the two-digit hexadecimal printing of the S-record writer, [strtol] clamps
    to the range of [long]; and [atoi] scales a number by ten for the first
    character that is not a digit. *)

From S2P Require Import Prelude CString.

(** ** Reading *)

(** [src/lib/atob.c:28-52] *)
Definition _getbase (p : cstr) : cstr * Z :=
  if at_ p 0 =? ch "0" then
    if at_ p 1 =? ch "x" then (drop 2 p, 16)
    else if (at_ p 1 =? ch "t") || (at_ p 1 =? ch "n") then (drop 2 p, 10)
    else if at_ p 1 =? ch "o" then (drop 2 p, 8)
    else (p, 10)
  else (p, 10).

(** The digit tests shared by [_atob] and [gethex]. *)
Definition digit_of (c : Z) : option Z :=
  if (ch "0" <=? c) && (c <=? ch "9") then Some (c - ch "0")
  else if (ch "a" <=? c) && (c <=? ch "f") then Some (c - ch "a" + 10)
  else if (ch "A" <=? c) && (c <=? ch "F") then Some (c - ch "A" + 10)
  else None.

(** [src/lib/atob.c:95-111] *)
Fixpoint atob_loop (p : cstr) (base value : Z) : option Z :=
  match p with
  | [] => Some value
  | c :: p' =>
      let value := u64 (value * base) in
      match digit_of c with
      | None => None
      | Some digit =>
          if base <=? digit then None
          else atob_loop p' base (u64 (value + digit))
      end
  end.

(** The body of [_atob], with its recursive calls as a parameter.
    [src/lib/atob.c:58-112] *)
Definition _atob_body (rec : cstr -> Z -> option Z) (p : cstr) (base : Z) : option Z :=
  let '(p, base) :=
    if (at_ p 0 =? ch "0") && ((at_ p 1 =? ch "x") || (at_ p 1 =? ch "X"))
    then (drop 2 p, 16) else (p, base) in
  match (if base =? 16 then strchr (Some p) (ch ".") else None) with
  | Some q =>
      if (19 <? q)%nat then None
      else
        let tmp := take q p in
        match rec tmp 16 with
        | None => None
        | Some v1 =>
            let q := drop (S q) p in
            match strchr (Some q) (ch ".") with
            | Some _ => None
            | None =>
                match rec q 16 with
                | None => None
                | Some v2 => Some (u64 (Z.shiftl v1 16 + v2))
                end
            end
        end
  | None => atob_loop p base 0
  end.

(** The recursive calls get texts without a dot, so two unfoldings are all
    ([_atob_unfold] below).
    [src/lib/atob.c:58-112] *)
Definition _atob : cstr -> Z -> option Z :=
  _atob_body (_atob_body (fun _ _ => None)).

(** [src/lib/atob.c:118-136] *)
Definition atob (p : cstr) (base : Z) : option Z :=
  let '(p, base) := if base =? 0 then _getbase p else (p, base) in
  match _atob p base with
  | Some v => Some (u32 v)
  | None => None
  end.

(** [src/lib/atob.c:144-154] *)
Definition llatob (p : cstr) (base : Z) : option Z :=
  let '(p, base) := if base =? 0 then _getbase p else (p, base) in
  _atob p base.

(** [src/lib/atob.c:257-282] *)
Fixpoint gethex_loop (p : cstr) (n : nat) (v : Z) : option Z :=
  match n with
  | O => Some v
  | S n' =>
      match p with
      | [] => None
      | c :: p' =>
          let v := u32 (Z.shiftl v 4) in
          match digit_of c with
          | None => None
          | Some digit => gethex_loop p' n' (Z.lor v digit)
          end
      end
  end.

(** [src/lib/atob.c:257-282] *)
Definition gethex (p : cstr) (n : Z) : option Z := gethex_loop p (Z.to_nat n) 0.

(** ** Printing *)

Definition digit_char (rem : Z) : Z :=
  if (0 <=? rem) && (rem <=? 9) then rem + ch "0" else (rem - 10) + ch "a".

(** The digits, least significant first, as [buf] receives them. *)
Fixpoint btoa_loop (fuel : nat) (value base : Z) : list Z :=
  match fuel with
  | O => []
  | S f =>
      if value =? 0 then []
      else digit_char (value mod base) :: btoa_loop f (value / base) base
  end.

(** A 32-bit value has at most 32 digits in any base above 1.
    [src/lib/atob.c:162-202] *)
Definition btoa (value base : Z) : cstr :=
  if value =? 0 then [ch "0"]
  else
    let '(value, base, neg) :=
      if base =? -10 then
        if negb (Z.land value (Z.shiftl 1 31) =? 0)
        then (u32 (Z.lnot value + 1), 10, true) else (value, 10, false)
      else (value, base, false) in
    let buf := btoa_loop 32 value base in
    let buf := if neg then strcat buf (Some (str "-")) else buf in
    rev buf.

(** [src/lib/atob.c:209-249] *)
Definition llbtoa (value base : Z) : cstr :=
  if value =? 0 then [ch "0"]
  else
    let '(value, base, neg) :=
      if base =? -10 then
        if negb (Z.land value (Z.shiftl 1 63) =? 0)
        then (u64 (Z.lnot value + 1), 10, true) else (value, 10, false)
      else (value, base, false) in
    let buf := btoa_loop 64 value base in
    let buf := if neg then strcat buf (Some (str "-")) else buf in
    rev buf.

(** ** Decimal text to [int] and [long] *)

(** The multiplication comes before the test of the character.
    [src/lib/atoi.c:22-29] *)
Fixpoint atoi_loop (p : cstr) (value : Z) : Z :=
  match p with
  | [] => value
  | c :: p' =>
      let value := s32 (value * 10) in
      if (ch "0" <=? c) && (c <=? ch "9")
      then atoi_loop p' (s32 (value + (c - ch "0"))) else value
  end.

(** [src/lib/atoi.c:5-34] *)
Definition atoi (p : cstr) : Z :=
  let p := skip_space p in
  let '(isneg, p) :=
    if at_ p 0 =? ch "-" then (true, drop 1 p)
    else if at_ p 0 =? ch "+" then (false, drop 1 p) else (false, p) in
  let value := atoi_loop p 0 in
  if isneg then s32 (0 - value) else value.

(** [src/lib/atol.c:5-35] *)
Definition atol (p : cstr) : Z :=
  let p := skip_space p in
  let '(isneg, p) :=
    if at_ p 0 =? ch "-" then (true, drop 1 p)
    else if at_ p 0 =? ch "+" then (false, drop 1 p) else (false, p) in
  let value := atoi_loop p 0 in
  if isneg then s32 (0 - value) else value.

Definition LONG_MAX : Z := 2147483647.
Definition LONG_MIN : Z := - LONG_MAX - 1.

(** [src/lib/strtol.c:48-66] *)
Fixpoint strtol_loop (p : cstr) (base limit result : Z) (overflow : bool) : Z * bool * cstr :=
  match p with
  | [] => (result, overflow, [])
  | c :: p' =>
      let digit :=
        if isdigit c then Some (c - ch "0")
        else if isalpha c then Some (c - (if isupper c then ch "A" else ch "a") + 10)
        else None in
      match digit with
      | None => (result, overflow, p)
      | Some digit =>
          if (digit <? 0) || (base <=? digit) then (result, overflow, p)
          else
            let overflow := if limit <? result then true else overflow in
            if overflow then strtol_loop p' base limit result overflow
            else
              let result := base * result in
              if LONG_MAX - result <? digit
              then strtol_loop p' base limit result true
              else strtol_loop p' base limit (result + digit) false
      end
  end.

(** The value returned, whether [errno] is set to [ERANGE], and the text
    [endptr] is left at.
    [src/lib/strtol.c:12-80] *)
Definition strtol (nptr : cstr) (base : Z) : Z * bool * cstr :=
  let p := skip_space nptr in
  let '(negative, p) :=
    if (at_ p 0 =? ch "+") || (at_ p 0 =? ch "-")
    then (at_ p 0 =? ch "-", drop 1 p) else (false, p) in
  let '(base, p) :=
    if base =? 0 then
      if at_ p 0 =? ch "0" then
        let p := drop 1 p in
        if (at_ p 0 =? ch "x") || (at_ p 0 =? ch "X") then (16, drop 1 p) else (8, p)
      else (10, p)
    else if (base =? 16) && (at_ p 0 =? ch "0") then
      let p := drop 1 p in
      (* [(c = *nptr == 'x') || c == 'X'] assigns the comparison to [c] *)
      let c := if at_ p 0 =? ch "x" then 1 else 0 in
      if negb (c =? 0) || (c =? ch "X") then (base, drop 1 p) else (base, p)
    else (base, p) in
  let limit := Z.quot LONG_MAX base in
  let '(result, overflow, rest) := strtol_loop p base limit 0 false in
  let result := if negative && negb overflow then 0 - result else result in
  let result := if overflow then (if negative then LONG_MIN else LONG_MAX) else result in
  (result, overflow, rest).

(** ** The recursion of [_atob] *)

Lemma not_elem_drop {A} (x : A) n l : ~ x ∈ l -> ~ x ∈ drop n l.
Proof. intros H Hin. apply H. eapply subseteq_drop, Hin. Qed.

Lemma _atob_body_nodot r1 r2 t base :
  ~ ch "." ∈ t -> _atob_body r1 t base = _atob_body r2 t base.
Proof.
  intros Ht. unfold _atob_body.
  destruct (_ && _); [|destruct (base =? 16)];
    rewrite ?(proj2 (strchr_None _ _)); auto using not_elem_drop.
Qed.

Lemma _atob_unfold p base : _atob p base = _atob_body _atob p base.
Proof.
  unfold _atob at 1. unfold _atob_body at 1 3.
  destruct (if _ : bool then _ else _) as [p' base'].
  destruct (if base' =? 16 then _ else _) as [q|] eqn:Eq; [|done].
  destruct (19 <? q)%nat; [done|].
  destruct (base' =? 16); [|done]. apply strchr_Some in Eq as [_ Eq].
  unfold _atob at 1.
  rewrite (_atob_body_nodot (_atob_body _) (fun _ _ => None) (take q p')) by done.
  destruct (_atob_body _ (take q p') 16); [|done].
  destruct (strchr _ _) eqn:E2; [done|]. apply strchr_None in E2.
  unfold _atob. by rewrite (_atob_body_nodot (_atob_body _) (fun _ _ => None)) by done.
Qed.

(** ** Numerals *)

Definition num_value (base : Z) (ds : list Z) : Z :=
  fold_left (fun v d => v * base + d) ds 0.

Lemma fold_num base ds v :
  fold_left (fun v d => v * base + d) ds v = v * base ^ Z.of_nat (length ds) + num_value base ds.
Proof.
  unfold num_value. revert v. induction ds as [|d ds IH]; intros v; cbn [fold_left length].
  - rewrite Nat2Z.inj_0, Z.pow_0_r. lia.
  - rewrite (IH (v * base + d)), (IH (0 * base + d)), Nat2Z.inj_succ, Z.pow_succ_r by lia. lia.
Qed.

Lemma num_value_snoc base ds d : num_value base (ds ++ [d]) = num_value base ds * base + d.
Proof. unfold num_value. by rewrite fold_left_app. Qed.

Lemma num_value_nonneg base ds :
  0 <= base -> Forall (fun d => 0 <= d) ds -> 0 <= num_value base ds.
Proof.
  intros Hb. induction ds as [|d ds IH] using rev_ind; [done|].
  rewrite Forall_app, Forall_singleton, num_value_snoc. intros [H Hd]. specialize (IH H). nia.
Qed.

Lemma digit_of_char d : 0 <= d < 16 -> digit_of (digit_char d) = Some d.
Proof.
  intros Hd. assert (forallb (fun d => bool_decide (digit_of (digit_char d) = Some d)) (seqZ 0 16) = true)
    as H by (vm_compute; reflexivity).
  apply (forallb_range _ 0 16 H d) in Hd. by apply bool_decide_eq_true in Hd.
Qed.

(** Reading digits accumulates their value modulo 2^64. *)
Lemma atob_loop_digits ds base v :
  Forall (fun d => 0 <= d < base) ds -> base <= 16 ->
  atob_loop (digit_char <$> ds) base (u64 v) =
    Some (u64 (fold_left (fun v d => v * base + d) ds v)).
Proof.
  intros Hds Hb. revert v. induction Hds as [|d ds Hd Hds IH]; intros v; [done|].
  cbn [fmap list_fmap atob_loop fold_left]. rewrite digit_of_char by lia.
  case_bool; [lia|].
  rewrite <- IH. f_equal. unfold wrapu.
  by rewrite Zplus_mod_idemp_l, <- Zplus_mod_idemp_l, Zmult_mod_idemp_l, Zplus_mod_idemp_l.
Qed.

(** The digits [btoa_loop] produces are those of the value. *)
Fixpoint digits_lsb (fuel : nat) (value base : Z) : list Z :=
  match fuel with
  | O => []
  | S f => if value =? 0 then [] else value mod base :: digits_lsb f (value / base) base
  end.

Lemma btoa_loop_digits fuel value base :
  btoa_loop fuel value base = digit_char <$> digits_lsb fuel value base.
Proof.
  revert value. induction fuel as [|f IH]; intros value; simpl; [done|].
  destruct (value =? 0); [done|]. cbn [fmap list_fmap]. by rewrite IH.
Qed.

Lemma digits_lsb_range fuel value base :
  2 <= base -> Forall (fun d => 0 <= d < base) (digits_lsb fuel value base).
Proof.
  intros Hb. revert value. induction fuel as [|f IH]; intros value; simpl; [constructor|].
  destruct (value =? 0); constructor; auto. apply Z.mod_pos_bound. lia.
Qed.

Lemma digits_lsb_value fuel value base :
  2 <= base -> 0 <= value < 2 ^ Z.of_nat fuel ->
  num_value base (rev (digits_lsb fuel value base)) = value.
Proof.
  intros Hb. revert value. induction fuel as [|f IH]; intros value Hv; cbn [digits_lsb].
  - simpl in Hv. assert (value = 0) as -> by lia. done.
  - case_bool; [by subst|]. cbn [rev]. rewrite num_value_snoc, IH.
    + pose proof (Z.div_mod value base). lia.
    + rewrite Nat2Z.inj_succ, Z.pow_succ_r in Hv by lia.
      split; [apply Z.div_pos; lia|].
      apply Z.div_lt_upper_bound; nia.
Qed.

Lemma at_no_x ds base i :
  Forall (fun d => 0 <= d < base) ds -> base <= 16 ->
  at_ (digit_char <$> ds) i <> ch "x" /\ at_ (digit_char <$> ds) i <> ch "X" /\
  at_ (digit_char <$> ds) i <> ch ".".
Proof.
  intros Hds Hb. unfold at_. rewrite list_lookup_fmap.
  destruct (ds !! i) as [d|] eqn:E; [|done]. cbn [fmap option_fmap option_map default].
  apply (Forall_lookup_1 _ _ _ _ Hds) in E. cbv beta in E.
  unfold digit_char. change (ch "0") with 48. change (ch "a") with 97.
  change (ch "x") with 120. change (ch "X") with 88. change (ch ".") with 46.
  unfold id. destruct (_ && _) eqn:E9; lia.
Qed.

Lemma _atob_digits ds base :
  Forall (fun d => 0 <= d < base) ds -> base <= 16 ->
  _atob (digit_char <$> ds) base = Some (u64 (num_value base ds)).
Proof.
  intros Hds Hb. unfold _atob. unfold _atob_body at 1.
  destruct (at_no_x ds base 1 Hds Hb) as (Hx & HX & _).
  rewrite (proj2 (Z.eqb_neq _ _) Hx), (proj2 (Z.eqb_neq _ _) HX), andb_false_r.
  assert (strchr (Some (digit_char <$> ds)) (ch ".") = None) as ->.
  { apply strchr_None. intros [i Hi]%list_elem_of_lookup.
    destruct (at_no_x ds base i Hds Hb) as (_ & _ & Hd). apply Hd. unfold at_. by rewrite Hi. }
  destruct (base =? 16); apply (atob_loop_digits ds base 0 Hds Hb).
Qed.

(** ** Round trips *)

Lemma btoa_digits v base :
  0 < v < 2 ^ 32 -> 2 <= base ->
  btoa v base = digit_char <$> rev (digits_lsb 32 v base).
Proof.
  intros Hv Hb. unfold btoa. do 2 (case_bool; [lia|]).
  rewrite btoa_loop_digits. symmetry. apply (List.map_rev digit_char).
Qed.

(** Printing an unsigned 32-bit value with [btoa] in any base from 2 to 16
    and reading the text back with [atob] in the same base gives the value. *)
Theorem atob_btoa (v base : Z) (Hv : 0 <= v < 2 ^ 32) (Hb : 2 <= base <= 16) :
  atob (btoa v base) base = Some v.
Proof.
  unfold atob. rewrite (proj2 (Z.eqb_neq base 0)) by lia.
  destruct (decide (v = 0)) as [->|Hnz].
  - change (btoa 0 base) with (digit_char <$> [0]).
    rewrite _atob_digits by (try constructor; try lia; done). done.
  - rewrite btoa_digits by lia.
    rewrite _atob_digits by (try lia; apply Forall_rev, digits_lsb_range; lia).
    rewrite digits_lsb_value by lia.
    rewrite (wrapu_small 64), (wrapu_small 32) by lia. done.
Qed.

Lemma atob_btoa_witness : atob (btoa 0x80020000 16) 16 = Some 0x80020000.
Proof. apply (atob_btoa 0x80020000 16); lia. Defined.

(** [_atob] is exact: the recursive definition of the source holds, and a
    text of digits below the base reads as its value modulo 2^64. *)
Theorem _atob_value (ds : list Z) (base : Z)
  (Hds : Forall (fun d => 0 <= d < base) ds) (Hb : base <= 16) :
  _atob (digit_char <$> ds) base = Some (u64 (num_value base ds)) /\
  forall p b, _atob p b = _atob_body _atob p b.
Proof. split; [by apply _atob_digits|apply _atob_unfold]. Qed.

Lemma _atob_value_witness :
  _atob (digit_char <$> [1; 15]) 16 = Some (u64 (num_value 16 [1; 15])) /\
  forall p b, _atob p b = _atob_body _atob p b.
Proof. apply (_atob_value [1; 15] 16); [repeat constructor; lia|lia]. Defined.

(** ** [strtol] *)

Lemma strtol_digit d : 0 <= d < 10 ->
  isdigit (digit_char d) = true /\ digit_char d - ch "0" = d.
Proof.
  intros Hd.
  assert (forallb (fun d => isdigit (digit_char d) && (digit_char d - ch "0" =? d))
            (seqZ 0 10) = true) as H by (vm_compute; reflexivity).
  apply (forallb_range _ 0 10 H d), andb_true_iff in Hd as [? ?%Z.eqb_eq]. done.
Qed.

Lemma strtol_loop_clamp ds v r ov :
  Forall (fun d => 0 <= d < 10) ds -> 0 <= v ->
  (if ov : bool then LONG_MAX < v else v <= LONG_MAX /\ r = v) ->
  exists r', strtol_loop (digit_char <$> ds) 10 (Z.quot LONG_MAX 10) r ov =
    (r', LONG_MAX <? fold_left (fun v d => v * 10 + d) ds v, []) /\
    (fold_left (fun v d => v * 10 + d) ds v <= LONG_MAX ->
     r' = fold_left (fun v d => v * 10 + d) ds v).
Proof.
  intros Hds. revert v r ov. induction Hds as [|d ds Hd Hds IH]; intros v r ov Hv Hinv.
  - exists r. cbn [fmap list_fmap strtol_loop fold_left].
    destruct ov; [rewrite (proj2 (Z.ltb_lt _ _)) by lia|rewrite (proj2 (Z.ltb_ge _ _)) by lia];
      split; try done; lia.
  - cbn [fmap list_fmap strtol_loop fold_left].
    destruct (strtol_digit d Hd) as [-> ->].
    destruct (Z.ltb_spec d 0); [lia|]. destruct (Z.leb_spec 10 d); [lia|]. cbn [orb].
    assert (Z.quot LONG_MAX 10 = 214748364) as El by done. rewrite El in *. unfold LONG_MAX in *.
    destruct (Z.ltb_spec 214748364 r) as [Hl|Hl].
    + apply (IH (v * 10 + d) r true); [lia|]. destruct ov; lia.
    + destruct ov; [apply (IH (v * 10 + d) r true); lia|]. destruct Hinv as [_ ->].
      destruct (Z.ltb_spec (2147483647 - 10 * v) d).
      * apply (IH (v * 10 + d) (10 * v) true); lia.
      * apply (IH (v * 10 + d) (10 * v + d) false); lia.
Qed.
Lemma skip_space_digit ds : Forall (fun d => 0 <= d < 10) ds ->
  skip_space (digit_char <$> ds) = digit_char <$> ds.
Proof.
  intros [|d ds' Hd _]; [done|]. cbn [fmap list_fmap skip_space].
  destruct (strtol_digit d Hd) as [Hi _]. unfold isdigit in Hi. unfold isspace.
  change (ch "0") with 48 in Hi. change (ch "9") with 57 in Hi.
  destruct (_ || _) eqn:E; [lia|done].
Qed.

(** [strtol] in base 10 returns the value of its digits, clamped to the
    largest or smallest [long] when it does not fit, and reports [ERANGE]
    exactly when the magnitude exceeds [LONG_MAX]. *)
Theorem strtol_clamps (neg : bool) (ds : list Z)
  (Hds : Forall (fun d => 0 <= d < 10) ds) :
  let v := num_value 10 ds in
  strtol ((if neg then str "-" else str "+") ++ (digit_char <$> ds)) 10 =
    (if neg then Z.max (- v) LONG_MIN else Z.min v LONG_MAX, LONG_MAX <? v, []).
Proof.
  intros v.
  destruct (strtol_loop_clamp ds 0 0 false Hds) as (r & E & Hr); [lia|by unfold LONG_MAX|].
  fold (num_value 10 ds) in E, Hr. fold v in E, Hr.
  assert (0 <= v) by (apply num_value_nonneg; [lia|eapply Forall_weaken; [exact Hds|naive_solver]]).
  assert (strtol ((if neg then str "-" else str "+") ++ (digit_char <$> ds)) 10 =
    let '(result, overflow, rest) := strtol_loop (digit_char <$> ds) 10 (Z.quot LONG_MAX 10) 0 false in
    let result := if neg && negb overflow then 0 - result else result in
    (if overflow then (if neg then LONG_MIN else LONG_MAX) else result, overflow, rest)) as ->
    by (by destruct neg).
  rewrite E. unfold LONG_MIN, LONG_MAX in *.
  destruct (Z.ltb_spec 2147483647 v); destruct neg; cbn [andb negb];
    f_equal; f_equal; rewrite ?Hr by lia; lia.
Qed.

Lemma strtol_clamps_witness :
  strtol (str "-" ++ (digit_char <$> [9; 9; 9; 9; 9; 9; 9; 9; 9; 9])) 10 =
    (Z.max (- 9999999999) LONG_MIN, true, []).
Proof.
  apply (strtol_clamps true [9; 9; 9; 9; 9; 9; 9; 9; 9; 9]). repeat constructor; lia.
Defined.

(** ** [atoi] *)

Lemma atoi_loop_digits ds v rest :
  Forall (fun d => 0 <= d < 10) ds -> 0 <= v ->
  fold_left (fun v d => v * 10 + d) ds v < 2 ^ 31 ->
  atoi_loop ((digit_char <$> ds) ++ rest) v =
    atoi_loop rest (fold_left (fun v d => v * 10 + d) ds v).
Proof.
  intros Hds. revert v. induction Hds as [|d ds Hd Hds IH]; intros v Hv Hb; [done|].
  cbn [fmap list_fmap app atoi_loop fold_left] in *.
  assert (v * 10 + d <= fold_left (fun v d => v * 10 + d) ds (v * 10 + d)) as Hm.
  { rewrite fold_num.
    assert (0 <= num_value 10 ds)
      by (apply num_value_nonneg; [lia|eapply Forall_weaken; [exact Hds|naive_solver]]).
    assert (0 < 10 ^ Z.of_nat (length ds)) by (apply Z.pow_pos_nonneg; lia). nia. }
  destruct (strtol_digit d Hd) as [Hi Hs]. unfold isdigit in Hi. rewrite Hi, Hs.
  rewrite (s32_small (v * 10)) by lia. rewrite s32_small by lia. rewrite <- IH by lia. done.
Qed.

(** A defect: for a number followed by anything that is not a digit,
    [atoi] returns ten times the number, because the loop multiplies before it
    looks at the character. *)
Theorem atoi_trailing_text (ds : list Z) (c : Z) (rest : cstr)
  (Hds : Forall (fun d => 0 <= d < 10) ds) (Hne : ds <> [])
  (Hc : isdigit c = false) (Hv : num_value 10 ds * 10 < 2 ^ 31) :
  atoi ((digit_char <$> ds) ++ c :: rest) = 10 * num_value 10 ds /\
  atoi (digit_char <$> ds) = num_value 10 ds.
Proof.
  assert (0 <= num_value 10 ds)
    by (apply num_value_nonneg; [lia|eapply Forall_weaken; [exact Hds|naive_solver]]).
  assert (forall r, atoi ((digit_char <$> ds) ++ r) = atoi_loop r (num_value 10 ds)) as Ha.
  { intros r. unfold atoi. destruct Hds as [|d ds' Hd Hds']; [done|].
    destruct (strtol_digit d Hd) as [Hi Hs]. unfold isdigit in Hi.
    cbn [fmap list_fmap app skip_space].
    assert (isspace (digit_char d) = false) as ->.
    { pose proof (skip_space_digit (d :: ds') ltac:(by constructor)) as Hsk.
      cbn [fmap list_fmap skip_space] in Hsk. destruct (isspace _) eqn:Esp; [|done].
      unfold isspace in Esp. change (ch "0") with 48 in Hi. change (ch "9") with 57 in Hi. lia. }
    change (at_ (digit_char d :: (digit_char <$> ds') ++ r) 0) with (digit_char d).
    change (ch "0") with 48 in Hi. change (ch "9") with 57 in Hi.
    change (ch "-") with 45. change (ch "+") with 43.
    destruct (Z.eqb_spec (digit_char d) 45); [lia|].
    destruct (Z.eqb_spec (digit_char d) 43); [lia|].
    apply (atoi_loop_digits (d :: ds') 0 r); [by constructor|lia|]. unfold num_value in *. lia. }
  rewrite Ha. rewrite <- (app_nil_r (digit_char <$> ds)), Ha. split; [|done].
  cbn [atoi_loop]. unfold isdigit in Hc. rewrite Hc.
  rewrite s32_small by lia. lia.
Qed.

Lemma atoi_trailing_text_witness : atoi (str "12k") = 120 /\ atoi (str "12") = 12.
Proof.
  apply (atoi_trailing_text [1; 2] (ch "k") []);
    [repeat constructor; lia|done|reflexivity|vm_compute; reflexivity].
Defined.
