(* ===== verification/Queue.v ===== *)
(** * Queue: the character queues of the terminal driver

    [src/lib/queue.c] and the macros of [src/include/queue.h]. A queue is a
    ring of a power of two bytes with [first], [count] and [limit] held in
    unsigned shorts. [Qput] and [Qget] wait in [reschedule] while the queue is
    full or empty: they are partial here, [None] being the state in which the
    caller still waits.

    The theorems: the ring implements a bounded first-in first-out list, under
    every interleaving of writers and readers; and the class [Fifo], which is
    what the terminal driver relies on, has the ring as an instance. *)

From S2P Require Import Prelude.

(** [src/include/queue.h:7-12] *)
Record Queue : Type := mkQueue
  { q_first : Z; q_count : Z; q_limit : Z; q_dat : list Z }.

(** [src/include/queue.h:23] *)
Definition Qfull (q : Queue) : bool := q_count q =? q_limit q.
(** [src/include/queue.h:24] *)
Definition Qempty (q : Queue) : bool := q_count q =? 0.
(** [src/include/queue.h:25] *)
Definition Qsize (q : Queue) : Z := q_limit q.
(** [src/include/queue.h:26] *)
Definition Qused (q : Queue) : Z := q_count q.
(** [src/include/queue.h:27] *)
Definition Qspace (q : Queue) : Z := q_limit q - q_count q.

(** [store] is what [malloc] answered: the data bytes of the block, or
    nothing. [src/lib/queue.c:47-65] *)
Definition Qcreate (size : Z) (store : option (list Z)) : trace * option Queue :=
  if (size <? 0) || negb (Z.land size (size - 1) =? 0) then
    ([Printf "Qcreate: size %d not a power of two\n" []], None)
  else
    match store with
    | None => ([], None)
    | Some dat =>
        ([], Some {| q_limit := u16 (size - 1); q_first := 0; q_count := 0;
                     q_dat := dat |})
    end.

(** [src/lib/queue.c:70-79] *)
Definition Qput (q : Queue) (msg : Z) : option Queue :=
  if Qfull q then None
  else Some {| q_first := q_first q;
               q_count := u16 (q_count q + 1);
               q_limit := q_limit q;
               q_dat := <[Z.to_nat (Z.land (q_first q + q_count q) (q_limit q)) := u8 msg]>
                          (q_dat q) |}.

(** [src/lib/queue.c:84-97] *)
Definition Qget (q : Queue) : option (Z * Queue) :=
  if Qempty q then None
  else
    msg ← q_dat q !! Z.to_nat (q_first q);
    Some (msg, {| q_first := u16 (Z.land (q_first q + 1) (q_limit q));
                  q_count := u16 (q_count q - 1);
                  q_limit := q_limit q;
                  q_dat := q_dat q |}).

(** [src/lib/queue.c:105-118] *)
Definition Qinquiry (q : Queue) (op : Z) : Z :=
  if op =? 1 then Qsize q
  else if op =? 2 then Qused q
  else if op =? 3 then Qspace q
  else -1.

(** A negative [n] passes the test and reads before the oldest message.
    [src/lib/queue.c:123-131] *)
Definition Qread (q : Queue) (n : Z) : option Z :=
  if q_count q <=? n then Some 0
  else q_dat q !! Z.to_nat (Z.land (q_first q + n) (q_limit q)).

(** ** The invariant of a queue and its contents *)

Record queue_ok (q : Queue) : Prop := {
  qok_limit : exists k, 0 <= k <= 16 /\ q_limit q = 2 ^ k - 1;
  qok_first : 0 <= q_first q <= q_limit q;
  qok_count : 0 <= q_count q <= q_limit q;
  qok_len : (Z.to_nat (q_limit q) < length (q_dat q))%nat
}.

(** The messages of the queue, oldest first. *)
Definition contents (q : Queue) : list Z :=
  (fun i => default 0 (q_dat q !! Z.to_nat (Z.land (q_first q + i) (q_limit q))))
    <$> seqZ 0 (q_count q).

Lemma land_ones k x : 0 <= k -> Z.land x (2 ^ k - 1) = x mod 2 ^ k.
Proof. intros. rewrite <- Z.land_ones by lia. by rewrite Z.ones_equiv, Z.sub_1_r. Qed.

Lemma pow2_le_16 k : 0 <= k <= 16 -> 1 <= 2 ^ k <= 65536.
Proof.
  intros. split; [pose proof (Z.pow_pos_nonneg 2 k); lia|].
  change 65536 with (2 ^ 16). apply Z.pow_le_mono_r; lia.
Qed.

Lemma contents_length q : queue_ok q -> length (contents q) = Z.to_nat (q_count q).
Proof. intros _. unfold contents. by rewrite length_fmap, length_seqZ. Qed.

Lemma mod_inj_window p a b c :
  0 < p -> 0 <= b < c -> c < p -> (a + b) mod p <> (a + c) mod p.
Proof.
  intros Hp Hb Hc E.
  assert ((c - b) mod p = 0) as H0.
  { replace (c - b) with ((a + c) - (a + b)) by lia.
    rewrite Zminus_mod, E, Z.sub_diag. by apply Zmod_0_l. }
  rewrite Z.mod_small in H0 by lia. lia.
Qed.

Lemma Qput_ok q m :
  queue_ok q -> q_count q < q_limit q ->
  exists q', Qput q m = Some q' /\ queue_ok q' /\
    q_limit q' = q_limit q /\ contents q' = contents q ++ [u8 m].
Proof.
  intros [[k [Hk Hl]] Hf Hc Hlen] Hnf. pose proof (pow2_le_16 k Hk) as Hp.
  unfold Qput, Qfull. destruct (Z.eqb_spec (q_count q) (q_limit q)); [lia|].
  eexists. split; [reflexivity|].
  assert (u16 (q_count q + 1) = q_count q + 1) as Hu
    by (apply wrapu_small; change (2 ^ 16) with 65536; lia).
  set (i := Z.land (q_first q + q_count q) (q_limit q)).
  assert (0 <= i < 2 ^ k) as Hi
    by (subst i; rewrite Hl, land_ones by lia; apply Z.mod_pos_bound; lia).
  split; [split; cbn; rewrite ?Hu, ?length_insert; eauto; lia|].
  split; [done|]. unfold contents. cbn. rewrite Hu.
  rewrite seqZ_app by lia. rewrite fmap_app. f_equal.
  - apply list_fmap_ext. intros j z Hj. rewrite lookup_seqZ in Hj.
    rewrite list_lookup_insert_ne; [done|].
    intros E. apply Z2Nat.inj in E; [|lia|rewrite Hl, land_ones by lia; apply Z.mod_pos_bound; lia].
    subst i. rewrite Hl, !land_ones in E by lia.
    symmetry in E. apply (mod_inj_window (2 ^ k) (q_first q) z (q_count q)) in E; lia.
  - rewrite Z.add_0_l. change (seqZ (q_count q) 1) with [0 + q_count q].
    cbn [fmap list_fmap]. rewrite Z.add_0_l. fold i. rewrite list_lookup_insert_eq by lia. done.
Qed.

Lemma Qget_ok q :
  queue_ok q -> q_count q <> 0 ->
  exists m q', Qget q = Some (m, q') /\ queue_ok q' /\
    q_limit q' = q_limit q /\ contents q = m :: contents q'.
Proof.
  intros [[k [Hk Hl]] Hf Hc Hlen] Hne. pose proof (pow2_le_16 k Hk) as Hp.
  unfold Qget, Qempty. destruct (Z.eqb_spec (q_count q) 0); [lia|].
  destruct (lookup_lt_is_Some_2 (q_dat q) (Z.to_nat (q_first q))) as [m Hm]; [lia|].
  rewrite Hm. cbn [mbind option_bind].
  assert (0 <= Z.land (q_first q + 1) (q_limit q) < 2 ^ k) as Hi
    by (rewrite Hl, land_ones by lia; apply Z.mod_pos_bound; lia).
  assert (u16 (Z.land (q_first q + 1) (q_limit q)) = Z.land (q_first q + 1) (q_limit q)) as Hu
    by (apply wrapu_small; change (2 ^ 16) with 65536; lia).
  assert (u16 (q_count q - 1) = q_count q - 1) as Hu'
    by (apply wrapu_small; change (2 ^ 16) with 65536; lia).
  eexists m, _. split; [reflexivity|].
  split; [split; cbn; rewrite ?Hu, ?Hu'; eauto; lia|].
  split; [done|]. unfold contents. cbn. rewrite Hu, Hu'.
  replace (q_count q) with (1 + (q_count q - 1)) at 1 by lia.
  rewrite seqZ_app by lia. rewrite fmap_app. change (seqZ 0 1) with [0]. cbn [fmap list_fmap app].
  f_equal.
  - rewrite Z.add_0_r, Hl, land_ones, Z.mod_small, Hm by lia. done.
  - change (0 + 1) with (1 + 0). rewrite <- (fmap_add_seqZ 1 0), <- list_fmap_compose.
    apply list_fmap_ext. intros j z Hj. cbn.
    do 2 f_equal. rewrite Hl, !land_ones by lia.
    rewrite Zplus_mod_idemp_l. do 2 f_equal. lia.
Qed.

Lemma Qread_spec q n :
  queue_ok q -> 0 <= n -> Qread q n = Some (default 0 (contents q !! Z.to_nat n)).
Proof.
  intros [[k [Hk Hl]] Hf Hc Hlen] Hn. pose proof (pow2_le_16 k Hk) as Hp.
  unfold Qread, contents. destruct (Z.leb_spec (q_count q) n).
  - rewrite lookup_ge_None_2; [done|]. rewrite length_fmap, length_seqZ. lia.
  - rewrite list_lookup_fmap, lookup_seqZ_lt by lia. cbn.
    assert (0 <= Z.land (q_first q + n) (q_limit q) < 2 ^ k) as Hi
      by (rewrite Hl, land_ones by lia; apply Z.mod_pos_bound; lia).
    rewrite Z2Nat.id, Z.add_0_l by lia.
    destruct (lookup_lt_is_Some_2 (q_dat q) (Z.to_nat (Z.land (q_first q + n) (q_limit q))))
      as [m Hm]; [lia|]. by rewrite Hm.
Qed.

Lemma Qcreate_ok k dat :
  0 <= k <= 16 -> (Z.to_nat (2 ^ k) <= length dat)%nat ->
  exists q, Qcreate (2 ^ k) (Some dat) = ([], Some q) /\ queue_ok q /\
    contents q = [] /\ q_limit q = 2 ^ k - 1.
Proof.
  intros Hk Hd. pose proof (pow2_le_16 k Hk) as Hp. unfold Qcreate.
  rewrite land_ones, Z_mod_same_full by lia.
  destruct (Z.ltb_spec (2 ^ k) 0); [lia|]. cbn.
  assert (u16 (2 ^ k - 1) = 2 ^ k - 1) as Hu
    by (apply wrapu_small; change (2 ^ 16) with 65536; lia).
  eexists. split; [reflexivity|]. rewrite Hu.
  split; [|done]. split; cbn; eauto; try lia.
Qed.

(** ** What a client may rely on *)

(** A bounded first-in first-out buffer of bytes: the promise the terminal
    driver works from. *)
Class Fifo (Q : Type) : Type := {
  fifo_ok : Q -> Prop;
  fifo_cap : Q -> Z;
  fifo_list : Q -> list Z;
  fifo_put : Q -> Z -> option Q;
  fifo_get : Q -> option (Z * Q);
  fifo_used : Q -> Z;
  fifo_space : Q -> Z;
  fifo_used_list q : fifo_ok q -> fifo_used q = Z.of_nat (length (fifo_list q));
  fifo_space_list q : fifo_ok q -> fifo_space q = fifo_cap q - Z.of_nat (length (fifo_list q));
  fifo_bound q : fifo_ok q -> Z.of_nat (length (fifo_list q)) <= fifo_cap q;
  fifo_put_spec q m : fifo_ok q -> 0 < fifo_space q ->
    exists q', fifo_put q m = Some q' /\ fifo_ok q' /\ fifo_cap q' = fifo_cap q /\
      fifo_list q' = fifo_list q ++ [u8 m];
  fifo_get_spec q : fifo_ok q -> fifo_used q <> 0 ->
    exists m q', fifo_get q = Some (m, q') /\ fifo_ok q' /\ fifo_cap q' = fifo_cap q /\
      fifo_list q = m :: fifo_list q'
}.

#[export, refine] Instance Queue_fifo : Fifo Queue := {
  fifo_ok := queue_ok; fifo_cap := Qsize; fifo_list := contents;
  fifo_put := Qput; fifo_get := Qget; fifo_used := Qused; fifo_space := Qspace;
  fifo_used_list := _; fifo_space_list := _; fifo_bound := _;
  fifo_put_spec := _; fifo_get_spec := _
}.
Proof.
  - intros q Hq. rewrite contents_length by done. destruct Hq. unfold Qused. lia.
  - intros q Hq. rewrite contents_length by done. destruct Hq. unfold Qspace, Qsize. lia.
  - intros q Hq. rewrite contents_length by done. destruct Hq. unfold Qsize. lia.
  - intros q m Hq Hs. apply Qput_ok; [done|]. unfold Qspace in Hs. lia.
  - intros q Hq Hs. by apply Qget_ok.
Defined.

(** ** Writers and readers *)

(** One step of the system that shares a queue: a writer completes [Qput], a
    reader completes [Qget], or one of them calls [reschedule] and waits. The
    state carries what was put and what was got, in order. *)
Inductive qstep : Queue * list Z * list Z -> Queue * list Z * list Z -> Prop :=
| qs_put q q' m ins outs :
    Qput q m = Some q' -> qstep (q, ins, outs) (q', ins ++ [u8 m], outs)
| qs_put_wait q m ins outs :
    Qput q m = None -> qstep (q, ins, outs) (q, ins, outs)
| qs_get q q' m ins outs :
    Qget q = Some (m, q') -> qstep (q, ins, outs) (q', ins, outs ++ [m])
| qs_get_wait q ins outs :
    Qget q = None -> qstep (q, ins, outs) (q, ins, outs).

Lemma qstep_inv q ins outs q' ins' outs' :
  qstep (q, ins, outs) (q', ins', outs') ->
  queue_ok q -> ins = outs ++ contents q ->
  queue_ok q' /\ q_limit q' = q_limit q /\ ins' = outs' ++ contents q'.
Proof.
  intros Hs Hq ->. inversion Hs; subst; clear Hs; [| done | | done].
  - assert (q_count q < q_limit q) as Hnf.
    { match goal with H : Qput _ _ = _ |- _ => unfold Qput, Qfull in H end.
      destruct (Z.eqb_spec (q_count q) (q_limit q)); [done|]. destruct Hq. lia. }
    destruct (Qput_ok q m Hq Hnf) as (q'' & Hput & Hok & Hlim & Hcont).
    simplify_eq. rewrite Hcont. by rewrite app_assoc.
  - assert (q_count q <> 0) as Hne.
    { match goal with H : Qget _ = _ |- _ => unfold Qget, Qempty in H end.
      by destruct (Z.eqb_spec (q_count q) 0). }
    destruct (Qget_ok q Hq Hne) as (m' & q'' & Hget & Hok & Hlim & Hcont).
    simplify_eq. rewrite Hcont. by rewrite <- app_assoc.
Qed.

(** Starting from a fresh queue of [2^k] bytes, whatever the interleaving
    of writers and readers, the bytes read so far followed by the contents of
    the ring are exactly the bytes written so far, in order, and the ring never
    holds more than [2^k - 1] bytes: the ring is a bounded FIFO. *)
Theorem queue_fifo (k : Z) (dat : list Z) (q0 q : Queue) (ins outs : list Z)
  (Hk : 0 <= k <= 16) (Hd : (Z.to_nat (2 ^ k) <= length dat)%nat)
  (Hc : Qcreate (2 ^ k) (Some dat) = ([], Some q0))
  (Hrun : rtc qstep (q0, [], []) (q, ins, outs)) :
  ins = outs ++ contents q /\ Z.of_nat (length (contents q)) <= 2 ^ k - 1.
Proof.
  destruct (Qcreate_ok k dat Hk Hd) as (q0' & Hc' & Hok0 & Hcont0 & Hlim0).
  rewrite Hc in Hc'. simplify_eq.
  enough (queue_ok q /\ q_limit q = 2 ^ k - 1 /\ ins = outs ++ contents q) as (Hok & Hlim & ->).
  { split; [done|]. rewrite contents_length by done. destruct Hok. lia. }
  assert (forall s1 s2, rtc qstep s1 s2 ->
    queue_ok s1.1.1 /\ q_limit s1.1.1 = 2 ^ k - 1 /\ s1.1.2 = s1.2 ++ contents s1.1.1 ->
    queue_ok s2.1.1 /\ q_limit s2.1.1 = 2 ^ k - 1 /\ s2.1.2 = s2.2 ++ contents s2.1.1) as Hind.
  { induction 1 as [|[[q1 i1] o1] [[q2 i2] o2] s3 Hst Hr IH]; [done|].
    intros (H1 & H2 & H3). apply IH. cbn in *.
    destruct (qstep_inv _ _ _ _ _ _ Hst H1 H3) as (? & ? & ?). split_and!; [done|congruence|done]. }
  apply (Hind _ _ Hrun). cbn. by rewrite Hcont0.
Qed.

Lemma queue_fifo_witness :
  let q := {| q_first := 0; q_count := 1; q_limit := 1; q_dat := [65; 0] |} in
  [65] = [] ++ contents q /\ Z.of_nat (length (contents q)) <= 2 ^ 1 - 1.
Proof.
  eapply (queue_fifo 1 [0; 0] _ _ [65] []); [lia|cbn; lia|reflexivity|].
  eapply rtc_l; [|apply rtc_refl]. apply (qs_put _ _ 65 [] []). reflexivity.
Defined.

(** [Qread] looks at a message without removing it: for an index within the
    queue it is the message that so many calls of [Qget] would deliver, and 0
    beyond the last message. *)
Theorem Qread_peeks (q : Queue) (n : Z) (Hq : queue_ok q) (Hn : 0 <= n) :
  Qread q n = Some (default 0 (contents q !! Z.to_nat n)) /\
  forall m q', Qget q = Some (m, q') -> Qread q 0 = Some m /\
    forall i, 0 <= i -> Qread q' i = Qread q (i + 1).
Proof.
  split; [by apply Qread_spec|]. intros m q' Hg.
  assert (q_count q <> 0) as Hne.
  { unfold Qget, Qempty in Hg. by destruct (Z.eqb_spec (q_count q) 0). }
  destruct (Qget_ok q Hq Hne) as (m' & q'' & Hg' & Hok & _ & Hcont). simplify_eq.
  rewrite !Qread_spec by (done || lia). rewrite Hcont. split; [done|].
  intros i Hi. rewrite !Qread_spec by (done || lia). rewrite Hcont.
  replace (Z.to_nat (i + 1)) with (S (Z.to_nat i)) by lia. done.
Qed.

Lemma Qread_peeks_witness :
  Qread {| q_first := 1; q_count := 1; q_limit := 1; q_dat := [7; 9] |} 0 = Some 9.
Proof.
  apply (Qread_peeks {| q_first := 1; q_count := 1; q_limit := 1; q_dat := [7; 9] |} 0);
    [|lia]. split; cbn; try lia. exists 1. lia.
Defined.

(** A defect of [Qcreate]: a size of 0 is accepted as a power of two, and
    the queue it makes claims room for 65535 messages whatever the (one byte)
    block behind it. *)
Theorem Qcreate_zero (dat : list Z) :
  exists q, Qcreate 0 (Some dat) = ([], Some q) /\ Qspace q = 65535 /\ q_dat q = dat.
Proof. eexists. split; [reflexivity|]. split; reflexivity. Qed.
