(* ===== verification/Qsort.v ===== *)
(** * Qsort: the sorting routine

    [src/lib/qsort.c], at the level of elements: the array is a list, a
    pointer into it is an index, and [SWAP] and the byte loop of
    [insertion_sort] move whole elements. The comparison function is a
    parameter. [goto partition] is a tail call; the number of calls on a path
    is bounded by the number of elements, which is the fuel [qsort] gives.

    The theorem: for every comparison that is a total preorder, [qsort]
    terminates with a sorted permutation of its input. The class [Sorter] is
    the promise the symbol table relies on. *)

From S2P Require Import Prelude.

(** [src/lib/qsort.c:49] *)
Definition MTHRESH : nat := 6.
(** [src/lib/qsort.c:55] *)
Definition THRESH : nat := 4.

Section Qsort.
Context {A : Type}.
Variable compar : A -> A -> Z.

(** [compar] applied to two positions of the array; 0 when one is outside. *)
Definition cmp_at (l : list A) (i j : nat) : Z :=
  match l !! i, l !! j with
  | Some x, Some y => compar x y
  | _, _ => 0
  end.

(** [src/lib/qsort.c:81-88] *)
Definition SWAP (l : list A) (a b : nat) : list A :=
  match l !! a, l !! b with
  | Some x, Some y => <[b := x]> (<[a := y]> l)
  | _, _ => l
  end.

(** The slot scan: [d] is the distance of [t2] from [bot] after [t2 += size].
    [src/lib/qsort.c:267-268] *)
Fixpoint find_slot (l : list A) (bot t1 d : nat) : nat :=
  match d with
  | O => O
  | S d' => if cmp_at l t1 (bot + d')%nat <? 0 then find_slot l bot t1 d' else d
  end.

(** The element [x] of [t1] goes down by [k] places, the others move up.
    [src/lib/qsort.c:269-275] *)
Fixpoint bubble (l : list A) (t1 k : nat) (x : A) : list A :=
  match k with
  | O => <[t1 := x]> l
  | S k' =>
      match l !! (t1 - 1)%nat with
      | Some y => bubble (<[t1 := y]> l) (t1 - 1) k' x
      | None => l
      end
  end.

(** [src/lib/qsort.c:266-278] *)
Fixpoint isort_loop (k : nat) (l : list A) (bot t1 : nat) : list A :=
  match k with
  | O => l
  | S k' =>
      match l !! t1 with
      | None => l
      | Some x =>
          let t2 := (bot + find_slot l bot t1 (t1 - bot))%nat in
          let l := if Nat.eqb t1 t2 then l else bubble l t1 (t1 - t2) x in
          isort_loop k' l bot (S t1)
      end
  end.

(** [src/lib/qsort.c:249-279] *)
Definition insertion_sort (l : list A) (bot nmemb : nat) : list A :=
  isort_loop (nmemb - 1) l bot (S bot).

(** [src/lib/qsort.c:104-112] *)
Definition SORT (l : list A) (bot n : nat) : list A :=
  if Nat.ltb 1 n then
    if Nat.eqb n 2 then
      if cmp_at l (S bot) bot <? 0 then SWAP l (S bot) bot else l
    else insertion_sort l bot n
  else l.

(** [for (; bot < mid && compar(bot, mid) <= 0; bot += size)], with
    [k = mid - bot]. [src/lib/qsort.c:162] *)
Fixpoint scan_up (l : list A) (mid k : nat) : nat :=
  match k with
  | O => mid
  | S k' => if cmp_at l (mid - k)%nat mid <=? 0 then scan_up l mid k' else (mid - k)%nat
  end.

(** The scan of [top] down to [mid], with [k = top - mid]: the position of an
    element smaller than the pivot, or [mid]. [src/lib/qsort.c:163-167] *)
Fixpoint scan_down (l : list A) (mid k : nat) : nat :=
  match k with
  | O => mid
  | S k' => if cmp_at l mid (mid + k)%nat <=? 0 then scan_down l mid k' else (mid + k)%nat
  end.

(** [src/lib/qsort.c:160-188] *)
Fixpoint partition (fuel : nat) (l : list A) (bot mid top : nat) (didswap : bool)
  : option (list A * nat * bool) :=
  match fuel with
  | O => None
  | S f =>
      let bot := scan_up l mid (mid - bot) in
      let top := scan_down l mid (top - mid) in
      if Nat.ltb mid top then
        if Nat.eqb bot mid then partition f (SWAP l bot top) (S bot) top top true
        else partition f (SWAP l bot top) (S bot) mid (top - 1) true
      else if Nat.eqb bot mid then Some (l, mid, didswap)
      else partition f (SWAP l bot mid) bot bot (top - 1) true
  end.

(** The median of three. [src/lib/qsort.c:139-154] *)
Definition median (l : list A) (bot mid top nmemb : nat) : list A :=
  if Nat.leb MTHRESH nmemb then
    let n1 := cmp_at l bot mid in
    let n2 := cmp_at l mid top in
    let t1 :=
      if (n1 <? 0) && (0 <? n2) then if cmp_at l bot top <? 0 then top else bot
      else if (0 <? n1) && (n2 <? 0) then if 0 <? cmp_at l bot top then top else bot
      else mid in
    if negb (Nat.eqb t1 mid) then SWAP l t1 mid else l
  else l.

(** The two parts beside the pivot, the smaller one first; [qs] stands for the
    recursive call and for [goto partition]. [src/lib/qsort.c:206-246] *)
Definition repartition (qs : list A -> nat -> nat -> option (list A))
    (l : list A) (bot mid nmemb : nat) : option (list A) :=
  let nlower := (mid - bot)%nat in
  let mid := S mid in
  let nupper := (nmemb - nlower - 1)%nat in
  if Nat.ltb nupper nlower then
    if Nat.leb THRESH nupper then
      match qs l mid nupper with
      | Some l => qs l bot nlower
      | None => None
      end
    else
      let l := SORT l mid nupper in
      if Nat.ltb nlower THRESH then Some (SORT l bot nlower)
      else qs l bot nlower
  else
    if Nat.leb THRESH nlower then
      match qs l bot nlower with
      | Some l => qs l mid nupper
      | None => None
      end
    else
      let l := SORT l bot nlower in
      if Nat.ltb nupper THRESH then Some (SORT l mid nupper)
      else qs l mid nupper.

(** [src/lib/qsort.c:114-247] *)
Fixpoint quick_sort (fuel : nat) (l : list A) (bot nmemb : nat) : option (list A) :=
  match fuel with
  | O => None
  | S f =>
      let mid := (bot + Nat.div2 nmemb)%nat in
      let top := (bot + (nmemb - 1))%nat in
      let l := median l bot mid top nmemb in
      match partition (S nmemb) l bot mid top false with
      | None => None
      | Some (l, mid, didswap) =>
          if negb didswap then Some (insertion_sort l bot nmemb)
          else repartition (quick_sort f) l bot mid nmemb
      end
  end.

(** [src/lib/qsort.c:57-72] *)
Definition qsort (l : list A) : option (list A) :=
  let nmemb := length l in
  if Nat.leb nmemb 1 then Some l
  else if Nat.leb THRESH nmemb then quick_sort nmemb l 0 nmemb
  else Some (insertion_sort l 0 nmemb).

(** ** Permutations of a part of the array *)

Definition perm_on (lo hi : nat) (l l' : list A) : Prop :=
  l ≡ₚ l' /\ forall i, (i < lo \/ hi <= i)%nat -> l' !! i = l !! i.

Lemma perm_on_refl lo hi l : perm_on lo hi l l.
Proof. done. Qed.

Lemma perm_on_trans lo hi l1 l2 l3 :
  perm_on lo hi l1 l2 -> perm_on lo hi l2 l3 -> perm_on lo hi l1 l3.
Proof.
  intros [H1 F1] [H2 F2]. split; [by etrans|]. intros i Hi. by rewrite F2, F1.
Qed.

Lemma perm_on_mono lo hi lo' hi' l l' :
  perm_on lo hi l l' -> (lo' <= lo)%nat -> (hi <= hi')%nat -> perm_on lo' hi' l l'.
Proof. intros [H F] ??. split; [done|]. intros i Hi. apply F. lia. Qed.

Lemma perm_on_length lo hi l l' : perm_on lo hi l l' -> length l' = length l.
Proof. intros [H _]. symmetry. by apply Permutation_length. Qed.

(** Two updates that exchange elements permute the list. *)
Lemma insert_swap_perm (l : list A) i j x y :
  l !! i = Some x -> l !! j = Some y -> <[j := x]> (<[i := y]> l) ≡ₚ l.
Proof.
  assert (forall a b u v, (a < b)%nat -> l !! a = Some u -> l !! b = Some v ->
    <[b := u]> (<[a := v]> l) ≡ₚ l) as H.
  { intros a b u v Hab Ha Hb.
    pose proof (lookup_lt_Some _ _ _ Hb).
    assert (drop (S a) l !! (b - S a)%nat = Some v) as Hb'
      by (rewrite lookup_drop, <- Hb; f_equal; lia).
    pose proof (take_drop_middle l a u Ha) as El.
    rewrite <- (take_drop_middle _ _ _ Hb') in El.
    assert (length (take a l) = a) as La by (rewrite length_take; lia).
    assert (length (take (b - S a) (drop (S a) l)) = b - S a)%nat as Lb
      by (rewrite length_take, length_drop; lia).
    revert El La Lb. generalize (take a l) (take (b - S a) (drop (S a) l))
      (drop (S (b - S a)) (drop (S a) l)). intros p q r <- Lp Lq.
    rewrite insert_app_r_alt by lia.
    replace (a - length p)%nat with 0%nat by lia. cbn [insert list_insert].
    rewrite insert_app_r_alt by lia.
    replace (b - length p)%nat with (S (b - S a)) by lia.
    change (<[S (b - S a) := u]> (v :: q ++ v :: r))
      with (v :: <[(b - S a)%nat := u]> (q ++ v :: r)).
    rewrite insert_app_r_alt by lia.
    replace (b - S a - length q)%nat with 0%nat by lia. cbn [insert list_insert].
    apply Permutation_app_head. rewrite <- !Permutation_middle. apply perm_swap. }
  intros Hi Hj. destruct (lt_eq_lt_dec i j) as [[Hlt | ->] | Hgt].
  - by apply H.
  - simplify_eq. by rewrite list_insert_insert_eq, list_insert_id.
  - rewrite list_insert_insert_ne by lia. by apply H.
Qed.

Lemma SWAP_perm_on l a b lo hi :
  (lo <= a < hi)%nat -> (lo <= b < hi)%nat -> perm_on lo hi l (SWAP l a b).
Proof.
  intros Ha Hb. unfold SWAP.
  destruct (l !! a) as [x|] eqn:Ea; [|apply perm_on_refl].
  destruct (l !! b) as [y|] eqn:Eb; [|apply perm_on_refl].
  split; [symmetry; by apply insert_swap_perm|].
  intros i Hi. by rewrite !list_lookup_insert_ne by lia.
Qed.

Lemma SWAP_lookup l a b x y i :
  l !! a = Some x -> l !! b = Some y ->
  SWAP l a b !! i = if Nat.eqb i b then Some x else if Nat.eqb i a then Some y else l !! i.
Proof.
  intros Ea Eb. unfold SWAP. rewrite Ea, Eb.
  pose proof (lookup_lt_Some _ _ _ Ea). pose proof (lookup_lt_Some _ _ _ Eb).
  destruct (Nat.eqb_spec i b) as [->|Hb].
  - by rewrite list_lookup_insert_eq by (rewrite length_insert; lia).
  - rewrite list_lookup_insert_ne by lia. destruct (Nat.eqb_spec i a) as [->|Ha].
    + by rewrite list_lookup_insert_eq by lia.
    + by rewrite list_lookup_insert_ne by lia.
Qed.

(** What holds of every element of a part holds after permuting that part. *)
Definition all_on (P : A -> Prop) (lo hi : nat) (l : list A) : Prop :=
  forall i x, (lo <= i < hi)%nat -> l !! i = Some x -> P x.

Lemma perm_on_all P lo hi l l' :
  (lo <= hi)%nat -> perm_on lo hi l l' -> all_on P lo hi l -> all_on P lo hi l'.
Proof.
  intros Hle Hp Ha. pose proof (perm_on_length _ _ _ _ Hp) as Hlen. destruct Hp as [Hp Hf].
  assert (take lo l' = take lo l) as Ht.
  { apply list_eq. intros i. destruct (decide (i < lo)%nat).
    - rewrite !lookup_take_lt by lia. apply Hf. lia.
    - by rewrite !lookup_take_ge by lia. }
  assert (drop hi l' = drop hi l) as Hd.
  { apply list_eq. intros i. rewrite !lookup_drop. apply Hf. lia. }
  set (seg (m : list A) := take (hi - lo) (drop lo m)).
  assert (forall m : list A, m = take lo m ++ seg m ++ drop hi m) as Hdec.
  { intros m. unfold seg. replace hi with (lo + (hi - lo))%nat at 2 by lia.
    rewrite <- drop_drop. by rewrite take_drop, take_drop. }
  assert (seg l ≡ₚ seg l') as Hseg.
  { rewrite (Hdec l), (Hdec l'), Ht, Hd in Hp.
    apply Permutation_app_inv_l in Hp. by apply Permutation_app_inv_r in Hp. }
  intros i x Hi Hx.
  assert (x ∈ seg l') as Hin.
  { apply list_elem_of_lookup. exists (i - lo)%nat. unfold seg.
    rewrite lookup_take_lt, lookup_drop by lia. rewrite <- Hx. f_equal. lia. }
  rewrite <- Hseg in Hin. apply list_elem_of_lookup in Hin as [j Hj]. unfold seg in Hj.
  assert (j < hi - lo)%nat.
  { apply lookup_lt_Some in Hj. rewrite length_take in Hj. lia. }
  rewrite lookup_take_lt, lookup_drop in Hj by lia.
  apply (Ha (lo + j)%nat); [lia|done].
Qed.

(** ** Sorting *)

(** The documented contract of a comparison function. *)
Hypothesis compar_flip : forall x y, compar x y <= 0 <-> 0 <= compar y x.
Hypothesis compar_trans : forall x y z, compar x y <= 0 -> compar y z <= 0 -> compar x z <= 0.

Definition sorted_on (lo hi : nat) (l : list A) : Prop :=
  forall i j x y, (lo <= i)%nat -> (i < j < hi)%nat ->
    l !! i = Some x -> l !! j = Some y -> compar x y <= 0.

Lemma sorted_on_frame lo hi l l' :
  sorted_on lo hi l -> (forall i, (lo <= i < hi)%nat -> l' !! i = l !! i) -> sorted_on lo hi l'.
Proof.
  intros Hs Hf i j x y Hi Hj Hx Hy.
  rewrite Hf in Hx by lia. rewrite Hf in Hy by lia. eapply Hs; eauto.
Qed.

(** Two sorted parts around an element that separates them. *)
Lemma sorted_on_join lo mid hi l p :
  (lo <= mid < hi)%nat -> l !! mid = Some p ->
  all_on (fun x => compar x p <= 0) lo mid l -> all_on (fun x => compar p x <= 0) (S mid) hi l ->
  sorted_on lo mid l -> sorted_on (S mid) hi l -> sorted_on lo hi l.
Proof.
  intros Hm Hp Hl Hu Sl Su i j x y Hi Hj Hx Hy.
  destruct (decide (j < mid)%nat); [apply (Sl i j); auto; lia|].
  destruct (decide (mid < i)%nat); [apply (Su i j); auto; lia|].
  assert (compar p p <= 0) as Hpp by (pose proof (compar_flip p p); lia).
  assert (compar x p <= 0).
  { destruct (decide (i = mid)) as [->|]; [by simplify_eq|]. apply (Hl i); [lia|done]. }
  assert (compar p y <= 0).
  { destruct (decide (j = mid)) as [->|]; [by simplify_eq|]. apply (Hu j); [lia|done]. }
  by apply (compar_trans x p).
Qed.

Lemma find_slot_spec l bot t1 d x :
  l !! t1 = Some x -> (bot + d <= length l)%nat ->
  let s := find_slot l bot t1 d in
  (s <= d)%nat /\
  (forall i y, (bot + s <= i < bot + d)%nat -> l !! i = Some y -> compar x y <= 0) /\
  ((0 < s)%nat -> exists y, l !! (bot + (s - 1))%nat = Some y /\ compar y x <= 0).
Proof.
  intros Hx. induction d as [|d IH]; intros Hd; cbn [find_slot].
  - split; [lia|]. split; [lia|]. lia.
  - destruct (lookup_lt_is_Some_2 l (bot + d)) as [y Hy]; [lia|].
    unfold cmp_at. rewrite Hx, Hy. destruct (Z.ltb_spec (compar x y) 0) as [Hlt|Hge].
    + destruct IH as (H1 & H2 & H3); [lia|]. split; [lia|]. split; [|done].
      intros i z Hi Hz. destruct (decide (i = bot + d)%nat) as [->|]; [simplify_eq; lia|].
      apply (H2 i); [lia|done].
    + split; [lia|]. split; [lia|]. intros _. exists y.
      replace (S d - 1)%nat with d by lia. split; [done|].
      apply compar_flip. lia.
Qed.

Lemma bubble_lookup l t1 k x i :
  (k <= t1 < length l)%nat ->
  bubble l t1 k x !! i =
    if Nat.eqb i (t1 - k) then Some x
    else if Nat.leb (t1 - k) i && Nat.leb i t1 then l !! (i - 1)%nat else l !! i.
Proof.
  revert l t1. induction k as [|k IH]; intros l t1 Hk; cbn [bubble].
  - rewrite Nat.sub_0_r. destruct (Nat.eqb_spec i t1) as [->|Hne].
    + apply list_lookup_insert_eq. lia.
    + rewrite list_lookup_insert_ne by lia.
      destruct (Nat.leb_spec t1 i), (Nat.leb_spec i t1); try done. lia.
  - destruct (lookup_lt_is_Some_2 l (t1 - 1)) as [y Hy]; [lia|]. rewrite Hy.
    rewrite IH by (rewrite length_insert; lia).
    replace (t1 - 1 - k)%nat with (t1 - S k)%nat by lia.
    destruct (Nat.eqb_spec i (t1 - S k)); [done|].
    destruct (Nat.leb_spec (t1 - S k) i); cbn [andb];
      [|rewrite list_lookup_insert_ne by lia; done].
    destruct (Nat.leb_spec i (t1 - 1)).
    + rewrite list_lookup_insert_ne by lia. destruct (Nat.leb_spec i t1); [done|lia].
    + destruct (Nat.leb_spec i t1).
      * assert (i = t1) as -> by lia. by rewrite list_lookup_insert_eq by lia.
      * by rewrite list_lookup_insert_ne by lia.
Qed.

Lemma bubble_perm l t1 k x :
  (k <= t1 < length l)%nat -> bubble l t1 k x ≡ₚ <[t1 := x]> l.
Proof.
  revert l t1. induction k as [|k IH]; intros l t1 Hk; cbn [bubble]; [done|].
  destruct (lookup_lt_is_Some_2 l (t1 - 1)) as [y Hy]; [lia|]. rewrite Hy.
  rewrite IH by (rewrite length_insert; lia).
  rewrite <- (insert_swap_perm (<[t1 := x]> l) t1 (t1 - 1) x y).
  - by rewrite list_insert_insert_eq.
  - apply list_lookup_insert_eq. lia.
  - rewrite list_lookup_insert_ne by lia. done.
Qed.

Lemma isort_step l bot t1 x :
  (bot < t1)%nat -> l !! t1 = Some x -> sorted_on bot t1 l ->
  let t2 := (bot + find_slot l bot t1 (t1 - bot))%nat in
  let l' := if Nat.eqb t1 t2 then l else bubble l t1 (t1 - t2) x in
  sorted_on bot (S t1) l' /\ perm_on bot (S t1) l l'.
Proof.
  intros Hb Hx Hs t2. pose proof (lookup_lt_Some _ _ _ Hx) as Hlen.
  destruct (find_slot_spec l bot t1 (t1 - bot) x Hx) as (H1 & H2 & H3); [lia|].
  replace (bot + (t1 - bot))%nat with t1 in H2 by lia.
  fold t2 in H2. cbn zeta in H1, H3.
  assert (forall i y, (bot <= i < t2)%nat -> l !! i = Some y -> compar y x <= 0) as H4.
  { intros i y Hi Hy. destruct H3 as (z & Hz & Hzx); [lia|].
    replace (bot + (find_slot l bot t1 (t1 - bot) - 1))%nat with (t2 - 1)%nat in Hz by lia.
    destruct (decide (i = t2 - 1)%nat) as [->|]; [by simplify_eq|].
    apply (compar_trans y z); [|done]. apply (Hs i (t2 - 1)%nat); auto; lia. }
  cbn zeta. destruct (Nat.eqb_spec t1 t2) as [Et|Hne].
  - split; [|apply perm_on_refl]. intros i j a b Hi Hj Ha Hb'.
    destruct (decide (j = t1)) as [->|]; [|apply (Hs i j); auto; lia].
    simplify_eq. apply (H4 i); [lia|done].
  - assert (t1 - (t1 - t2) = t2)%nat as Ek by lia. split.
    + intros i j a b Hi Hj. rewrite !bubble_lookup, Ek by lia.
      repeat match goal with
             | |- context [Nat.eqb ?u ?v] => destruct (Nat.eqb_spec u v)
             | |- context [Nat.leb ?u ?v] => destruct (Nat.leb_spec u v)
             end; cbn [andb]; intros Ha Hb'; try lia;
      first
        [ injection Ha as <-; apply (H2 (j - 1)%nat); [lia|done]
        | injection Hb' as <-; apply (H4 i); [lia|done]
        | match goal with
          | _ : ?m !! ?u = Some a, _ : ?m !! ?v = Some b |- _ => apply (Hs u v); auto; lia
          end ].
    + split.
      * rewrite bubble_perm by lia. by rewrite list_insert_id.
      * intros i Hi. rewrite bubble_lookup, Ek by lia.
        destruct (Nat.eqb_spec i t2); [lia|].
        destruct (Nat.leb_spec t2 i), (Nat.leb_spec i t1); cbn [andb]; try done. lia.
Qed.

Lemma isort_loop_ok k l bot t1 :
  (bot < t1)%nat -> (t1 + k <= length l)%nat -> sorted_on bot t1 l ->
  sorted_on bot (t1 + k) (isort_loop k l bot t1) /\
  perm_on bot (t1 + k) l (isort_loop k l bot t1).
Proof.
  revert l t1. induction k as [|k IH]; intros l t1 Hb Hlen Hs; cbn [isort_loop].
  - rewrite Nat.add_0_r. split; [done|apply perm_on_refl].
  - destruct (lookup_lt_is_Some_2 l t1) as [x Hx]; [lia|]. rewrite Hx.
    destruct (isort_step l bot t1 x Hb Hx Hs) as [Hs' Hp]. cbn zeta in Hs', Hp.
    set (l' := if Nat.eqb t1 _ then l else _) in *.
    destruct (IH l' (S t1)) as [H1 H2]; [lia|rewrite (perm_on_length _ _ _ _ Hp); lia|done|].
    replace (t1 + S k)%nat with (S t1 + k)%nat by lia. split; [done|].
    eapply perm_on_trans; [|done]. eapply perm_on_mono; [done|lia|lia].
Qed.

Lemma sorted_on_short lo hi l : (hi <= S lo)%nat -> sorted_on lo hi l.
Proof. intros H i j x y. lia. Qed.

Lemma insertion_sort_ok l bot n :
  (bot + n <= length l)%nat ->
  sorted_on bot (bot + n) (insertion_sort l bot n) /\
  perm_on bot (bot + n) l (insertion_sort l bot n).
Proof.
  intros Hn. unfold insertion_sort. destruct n as [|n].
  - cbn [Nat.sub isort_loop]. split; [apply sorted_on_short; lia|apply perm_on_refl].
  - replace (S n - 1)%nat with n by lia. replace (bot + S n)%nat with (S bot + n)%nat by lia.
    apply isort_loop_ok; [lia|lia|apply sorted_on_short; lia].
Qed.

Lemma SORT_ok l bot n :
  (bot + n <= length l)%nat ->
  sorted_on bot (bot + n) (SORT l bot n) /\ perm_on bot (bot + n) l (SORT l bot n).
Proof.
  intros Hn. unfold SORT. destruct (Nat.ltb_spec 1 n).
  2: { split; [apply sorted_on_short; lia|apply perm_on_refl]. }
  destruct (Nat.eqb_spec n 2) as [->|]; [|by apply insertion_sort_ok].
  destruct (lookup_lt_is_Some_2 l bot) as [x Hx]; [lia|].
  destruct (lookup_lt_is_Some_2 l (S bot)) as [y Hy]; [lia|].
  unfold cmp_at. rewrite Hx, Hy. destruct (Z.ltb_spec (compar y x) 0) as [Hlt|Hge].
  - split; [|apply SWAP_perm_on; lia]. intros i j a b Hi Hj.
    assert (i = bot /\ j = S bot) as [-> ->] by lia.
    rewrite !(SWAP_lookup l (S bot) bot y x) by done.
    rewrite !Nat.eqb_refl. destruct (Nat.eqb_spec (S bot) bot); [lia|].
    intros [= <-] [= <-]. lia.
  - split; [|apply perm_on_refl]. intros i j a b Hi Hj.
    assert (i = bot /\ j = S bot) as [-> ->] by lia. intros Ha Hb. simplify_eq.
    apply compar_flip. lia.
Qed.

(** ** Partitioning *)

Lemma scan_up_spec l mid k p :
  l !! mid = Some p -> (k <= mid)%nat ->
  let b := scan_up l mid k in
  (mid - k <= b <= mid)%nat /\ all_on (fun x => compar x p <= 0) (mid - k) b l /\
  ((b < mid)%nat -> exists y, l !! b = Some y /\ compar p y <= 0).
Proof.
  intros Hp. pose proof (lookup_lt_Some _ _ _ Hp).
  induction k as [|k IH]; intros Hk; cbn [scan_up].
  - split; [lia|]. split; [|lia]. intros i x. lia.
  - destruct (lookup_lt_is_Some_2 l (mid - S k)) as [y Hy]; [lia|].
    unfold cmp_at. rewrite Hy, Hp. destruct (Z.leb_spec (compar y p) 0) as [Hle|Hgt].
    + destruct IH as (H1 & H2 & H3); [lia|]. split; [lia|]. split; [|done].
      intros i x Hi Hx. destruct (decide (i = mid - S k)%nat) as [->|]; [by simplify_eq|].
      apply (H2 i); [lia|done].
    + split; [lia|]. split; [intros i x; lia|]. intros _. exists y. split; [done|].
      apply compar_flip. lia.
Qed.

Lemma scan_down_spec l mid k p :
  l !! mid = Some p -> (mid + k < length l)%nat ->
  let t := scan_down l mid k in
  (mid <= t <= mid + k)%nat /\ all_on (fun x => compar p x <= 0) (S t) (S (mid + k)) l /\
  ((mid < t)%nat -> exists y, l !! t = Some y /\ compar y p <= 0).
Proof.
  intros Hp. induction k as [|k IH]; intros Hk; cbn [scan_down].
  - split; [lia|]. split; [|lia]. intros i x. lia.
  - destruct (lookup_lt_is_Some_2 l (mid + S k)) as [y Hy]; [lia|].
    unfold cmp_at. rewrite Hy, Hp. destruct (Z.leb_spec (compar p y) 0) as [Hle|Hgt].
    + destruct IH as (H1 & H2 & H3); [lia|]. split; [lia|]. split; [|done].
      intros i x Hi Hx. destruct (decide (i = mid + S k)%nat) as [->|]; [by simplify_eq|].
      apply (H2 i); [lia|done].
    + split; [lia|]. split; [intros i x; lia|]. intros _. exists y. split; [done|].
      apply compar_flip. lia.
Qed.

Lemma all_on_app P lo mid hi l :
  all_on P lo mid l -> all_on P mid hi l -> all_on P lo hi l.
Proof.
  intros H1 H2 i x Hi Hx. destruct (decide (i < mid)%nat); [apply (H1 i)|apply (H2 i)]; auto; lia.
Qed.

Lemma all_on_swap_out P lo hi l a b :
  all_on P lo hi l -> ~ (lo <= a < hi)%nat -> ~ (lo <= b < hi)%nat ->
  all_on P lo hi (SWAP l a b).
Proof.
  intros H Ha Hb i x Hi. unfold SWAP.
  destruct (l !! a) eqn:Ea; [|by apply H]. destruct (l !! b) eqn:Eb; [|by apply H].
  rewrite !list_lookup_insert_ne by lia. by apply H.
Qed.

Lemma all_on_one P i x l : l !! i = Some x -> P x -> all_on P i (S i) l.
Proof. intros Hx HP j y Hj Hy. assert (j = i) as -> by lia. by simplify_eq. Qed.

(** The pivot [p] separates what lies before [bot] from what lies after [top]. *)
Definition split_at (lo hi : nat) (p : A) (bot top : nat) (l : list A) : Prop :=
  all_on (fun x => compar x p <= 0) lo bot l /\ all_on (fun x => compar p x <= 0) (S top) hi l.

Lemma SWAP_left l a b x y : l !! a = Some x -> l !! b = Some y -> SWAP l a b !! a = Some y.
Proof.
  intros Ha Hb. rewrite (SWAP_lookup l a b x y) by done.
  destruct (Nat.eqb_spec a b) as [->|]; [congruence|]. by rewrite Nat.eqb_refl.
Qed.

Lemma SWAP_right l a b x y : l !! a = Some x -> l !! b = Some y -> SWAP l a b !! b = Some x.
Proof. intros Ha Hb. by rewrite (SWAP_lookup l a b x y), Nat.eqb_refl by done. Qed.

(** The exchange of [bot] and a smaller element at [top]. *)
Lemma split_swap_low lo hi p l b t x y :
  (lo <= b < t)%nat -> l !! b = Some x -> l !! t = Some y -> compar y p <= 0 ->
  split_at lo hi p b t l -> split_at lo hi p (S b) t (SWAP l b t).
Proof.
  intros Hb Hx Hy Hyp [Hl Hu]. split; [|apply all_on_swap_out; [done|lia..]].
  eapply all_on_app; [apply all_on_swap_out; [exact Hl|lia..]|].
  eapply all_on_one; [by eapply SWAP_left|done].
Qed.

(** The exchange of [t] with a larger element at [b]. *)
Lemma split_swap_high lo hi p l b t bot x y :
  (lo <= bot <= b)%nat -> (b < t < hi)%nat -> l !! b = Some x -> l !! t = Some y ->
  compar p x <= 0 -> all_on (fun x => compar p x <= 0) (S t) hi l ->
  all_on (fun x => compar p x <= 0) (S (t - 1)) hi (SWAP l b t).
Proof.
  intros Hb Ht Hx Hy Hxp Hu. replace (S (t - 1)) with t by lia.
  eapply all_on_app; [|apply all_on_swap_out; [exact Hu|lia..]].
  eapply all_on_one; [by eapply SWAP_right|done].
Qed.

Lemma partition_ok fuel l bot mid top ds lo hi p :
  (lo <= bot <= mid)%nat -> (mid <= top < hi)%nat -> (hi <= length l)%nat ->
  l !! mid = Some p -> split_at lo hi p bot top l -> (top - bot < fuel)%nat ->
  exists l' mid' ds', partition fuel l bot mid top ds = Some (l', mid', ds') /\
    (lo <= mid' < hi)%nat /\ l' !! mid' = Some p /\ split_at lo hi p mid' mid' l' /\
    perm_on lo hi l l'.
Proof.
  revert l bot mid top ds. induction fuel as [|f IH];
    intros l bot mid top ds Hb Ht Hlen Hp [Hl Hu] Hf; [lia|]. cbn [partition].
  assert (forall l1 bot1 mid1 top1, (lo <= bot1 <= mid1)%nat -> (mid1 <= top1 < hi)%nat ->
    l1 !! mid1 = Some p -> split_at lo hi p bot1 top1 l1 -> (top1 - bot1 < f)%nat ->
    perm_on lo hi l l1 -> exists l' mid' ds',
      partition f l1 bot1 mid1 top1 true = Some (l', mid', ds') /\
      (lo <= mid' < hi)%nat /\ l' !! mid' = Some p /\ split_at lo hi p mid' mid' l' /\
      perm_on lo hi l l') as Hnext.
  { intros l1 b1 m1 t1 H1 H2 H3 H4 H5 H6.
    destruct (IH l1 b1 m1 t1 true) as (l' & m' & ds' & D1 & D2 & D3 & D4 & D5); try done.
    - rewrite (perm_on_length _ _ _ _ H6). lia.
    - exists l', m', ds'. by pose proof (perm_on_trans _ _ _ _ _ H6 D5). }
  clear IH.
  destruct (scan_up_spec l mid (mid - bot) p Hp) as (B1 & B2 & B3); [lia|].
  destruct (scan_down_spec l mid (top - mid) p Hp) as (T1 & T2 & T3); [lia|].
  set (b := scan_up l mid (mid - bot)) in *. set (t := scan_down l mid (top - mid)) in *.
  replace (mid - (mid - bot))%nat with bot in B1, B2 by lia.
  replace (mid + (top - mid))%nat with top in T1, T2 by lia.
  pose proof (all_on_app _ _ _ _ _ Hl B2) as Hl'.
  pose proof (all_on_app _ _ _ _ _ T2 Hu) as Hu'.
  destruct (Nat.ltb_spec mid t) as [Hmt|Hmt].
  - destruct (T3 Hmt) as (y & Hy & Hyp). destruct (Nat.eqb_spec b mid) as [Eb|Eb].
    + apply Hnext; [lia..| | |lia|apply SWAP_perm_on; lia].
      * rewrite Eb. by eapply SWAP_right.
      * apply (split_swap_low lo hi p l b t p y); [lia|by rewrite Eb|done..].
    + destruct B3 as (z & Hz & Hzp); [lia|].
      apply Hnext; [lia..| | |lia|apply SWAP_perm_on; lia].
      * rewrite (SWAP_lookup l b t z y) by done.
        destruct (Nat.eqb_spec mid t), (Nat.eqb_spec mid b); (done || lia).
      * destruct (split_swap_low lo hi p l b t z y) as [HA HB]; try done; [lia|].
        split; [done|]. apply (split_swap_high lo hi p l b t b z y); (done || lia).
  - assert (t = mid) as Et by lia. destruct (Nat.eqb_spec b mid) as [Eb|Eb].
    + exists l, mid, ds. split; [done|]. split; [lia|]. split; [done|].
      split; [|apply perm_on_refl]. split; [by rewrite <- Eb|by rewrite <- Et].
    + destruct B3 as (z & Hz & Hzp); [lia|].
      apply Hnext; [lia..| | |lia|apply SWAP_perm_on; lia].
      * by eapply SWAP_left.
      * rewrite Et in *. split; [apply all_on_swap_out; [done|lia..]|].
        apply (split_swap_high lo hi p l b mid b z p); (done || lia).
Qed.

Lemma median_perm l bot mid top n lo hi :
  (lo <= bot < hi)%nat -> (lo <= mid < hi)%nat -> (lo <= top < hi)%nat ->
  perm_on lo hi l (median l bot mid top n).
Proof.
  intros. unfold median. destruct (Nat.leb MTHRESH n); [|apply perm_on_refl].
  match goal with |- context [Nat.eqb ?t mid] => destruct (Nat.eqb_spec t mid) as [|Hne] end;
    cbn [negb]; [apply perm_on_refl|].
  apply SWAP_perm_on; [|lia].
  repeat (case_match; try lia).
Qed.

Definition sorts (lo hi : nat) (l : list A) (r : option (list A)) : Prop :=
  exists l', r = Some l' /\ sorted_on lo hi l' /\ perm_on lo hi l l'.

(** [l2] comes from [l] by sorting the two parts beside [mid], one after the
    other, with [l1] in between. *)
Definition halves (up_first : bool) (lo mid hi : nat) (l l1 l2 : list A) : Prop :=
  if up_first
  then (sorted_on (S mid) hi l1 /\ perm_on (S mid) hi l l1) /\
       (sorted_on lo mid l2 /\ perm_on lo mid l1 l2)
  else (sorted_on lo mid l1 /\ perm_on lo mid l l1) /\
       (sorted_on (S mid) hi l2 /\ perm_on (S mid) hi l1 l2).

Lemma sorts_halves up_first l l1 l2 lo mid hi p :
  (lo <= mid < hi)%nat -> l !! mid = Some p -> split_at lo hi p mid mid l ->
  halves up_first lo mid hi l l1 l2 -> sorts lo hi l (Some l2).
Proof.
  intros Hm Hp [Hl Hu] H. exists l2. split; [done|].
  destruct up_first; destruct H as [[S1 P1] [S2 P2]].
  all: assert (perm_on lo hi l l2) as HP
    by (eapply perm_on_trans; eapply perm_on_mono; eauto; lia).
  all: assert (l2 !! mid = Some p) as Hp2
    by (rewrite (proj2 P2), (proj2 P1) by lia; done).
  all: split; [|done]; apply (sorted_on_join lo mid hi l2 p); try done.
  - eapply perm_on_all; [lia|exact P2|]. intros i x Hi Hx.
    rewrite (proj2 P1) in Hx by lia. by apply (Hl i).
  - intros i x Hi Hx. rewrite (proj2 P2) in Hx by lia.
    revert i x Hi Hx. eapply perm_on_all; [lia|exact P1|done].
  - eapply sorted_on_frame; [exact S1|]. intros i Hi. apply (proj2 P2). lia.
  - intros i x Hi Hx. rewrite (proj2 P2) in Hx by lia.
    revert i x Hi Hx. eapply perm_on_all; [lia|exact P1|done].
  - eapply perm_on_all; [lia|exact P2|]. intros i x Hi Hx.
    rewrite (proj2 P1) in Hx by lia. by apply (Hu i).
  - eapply sorted_on_frame; [exact S1|]. intros i Hi. apply (proj2 P2). lia.
Qed.

(** A routine that sorts the parts of fewer than [n] elements it is given. *)
Definition sorts_below (n : nat) (qs : list A -> nat -> nat -> option (list A)) : Prop :=
  forall l bot k, (1 <= k < n)%nat -> (bot + k <= length l)%nat ->
    sorts bot (bot + k) l (qs l bot k).

Lemma repartition_ok qs l bot mid n p :
  sorts_below n qs -> (bot <= mid < bot + n)%nat -> (bot + n <= length l)%nat ->
  l !! mid = Some p -> split_at bot (bot + n) p mid mid l ->
  sorts bot (bot + n) l (repartition qs l bot mid n).
Proof.
  intros Hqs Hm Hlen Hp Hsp.
  assert (forall up l1 l2, halves up bot mid (bot + n) l l1 l2 ->
    sorts bot (bot + n) l (Some l2)) as Hjoin
    by (intros up l1 l2; by apply (sorts_halves up l l1 l2 bot mid (bot + n) p)).
  unfold repartition. replace (n - (mid - bot) - 1)%nat with (bot + n - S mid)%nat by lia.
  assert (forall m lo hi, (lo <= hi <= length l)%nat -> length m = length l ->
    sorted_on lo hi (SORT m lo (hi - lo)) /\ perm_on lo hi m (SORT m lo (hi - lo))) as HS.
  { intros m lo hi Hlo Hlm. pose proof (SORT_ok m lo (hi - lo)) as HS.
    replace (lo + (hi - lo))%nat with hi in HS by lia. apply HS. lia. }
  assert (forall m lo hi, (lo < hi <= length l)%nat -> (hi - lo < n)%nat -> length m = length l ->
    sorts lo hi m (qs m lo (hi - lo)%nat)) as HQ.
  { intros m lo hi H1 H2 H3. replace hi with (lo + (hi - lo))%nat at 1 by lia. apply Hqs; lia. }
  assert (forall lo hi m m', perm_on lo hi m m' -> length m = length l -> length m' = length l)
    as HL by (intros lo hi m m' P <-; by apply (perm_on_length lo hi)).
  unfold THRESH.
  destruct (Nat.ltb_spec (bot + n - S mid) (mid - bot)) as [Hgt|Hle].
  - destruct (Nat.leb_spec 4 (bot + n - S mid)).
    + destruct (HQ l (S mid) (bot + n)%nat) as (l1 & -> & S1 & P1); [lia..|].
      destruct (HQ l1 bot mid) as (l2 & -> & S2 & P2); [lia..|by eapply HL|].
      by apply (Hjoin true l1).
    + destruct (HS l (S mid) (bot + n)%nat) as [S1 P1]; [lia..|].
      pose proof (HL _ _ _ _ P1 eq_refl) as L1. destruct (Nat.ltb_spec (mid - bot) 4).
      * eapply (Hjoin true). split; [done|]. apply HS; [lia|done].
      * destruct (HQ _ bot mid ltac:(lia) ltac:(lia) L1) as (l2 & -> & S2 & P2).
        by eapply (Hjoin true).
  - destruct (Nat.leb_spec 4 (mid - bot)).
    + destruct (HQ l bot mid) as (l1 & -> & S1 & P1); [lia..|].
      destruct (HQ l1 (S mid) (bot + n)%nat) as (l2 & -> & S2 & P2); [lia..|by eapply HL|].
      by apply (Hjoin false l1).
    + destruct (HS l bot mid) as [S1 P1]; [lia..|].
      pose proof (HL _ _ _ _ P1 eq_refl) as L1.
      destruct (Nat.ltb_spec (bot + n - S mid) 4).
      * eapply (Hjoin false). split; [done|]. apply HS; [lia|done].
      * destruct (HQ _ (S mid) (bot + n)%nat ltac:(lia) ltac:(lia) L1) as (l2 & -> & S2 & P2).
        by eapply (Hjoin false).
Qed.

Lemma quick_sort_ok fuel l bot n :
  (1 <= n <= fuel)%nat -> (bot + n <= length l)%nat ->
  sorts bot (bot + n) l (quick_sort fuel l bot n).
Proof.
  revert l bot n. induction fuel as [|f IH]; intros l bot n Hn Hlen; [lia|].
  cbn [quick_sort].
  assert (Nat.div2 n < n)%nat as Hd by (apply Nat.lt_div2; lia).
  revert Hd. generalize (Nat.div2 n). intros h Hd.
  set (l0 := median l bot (bot + h) (bot + (n - 1)) n).
  assert (perm_on bot (bot + n) l l0) as P0 by (apply median_perm; lia).
  pose proof (perm_on_length _ _ _ _ P0) as L0.
  destruct (lookup_lt_is_Some_2 l0 (bot + h)) as [p Hp]; [lia|].
  destruct (partition_ok (S n) l0 bot (bot + h) (bot + (n - 1)) false bot (bot + n) p)
    as (l1 & mid & ds & -> & Hm & Hp1 & Hsp & P1); try done; try lia.
  { split; intros i x Hi; lia. }
  pose proof (perm_on_length _ _ _ _ P1) as L1.
  pose proof (perm_on_trans _ _ _ _ _ P0 P1) as P01.
  assert (sorts bot (bot + n) l1 (if negb ds then Some (insertion_sort l1 bot n)
    else repartition (quick_sort f) l1 bot mid n)) as (l2 & -> & S2 & P2).
  { destruct ds; cbn [negb].
    - apply (repartition_ok _ _ _ _ _ p); try done; [|lia].
      intros m b k Hk Hb. apply IH; lia.
    - eexists. split; [reflexivity|]. apply insertion_sort_ok. lia. }
  exists l2. split; [done|]. split; [done|]. by eapply perm_on_trans.
Qed.

Lemma sorted_on_StronglySorted l :
  sorted_on 0 (length l) l -> StronglySorted (fun x y => compar x y <= 0) l.
Proof.
  induction l as [|x l IH]; intros H; constructor.
  - apply IH. intros i j a b Hi Hj Ha Hb. apply (H (S i) (S j)); cbn; auto; lia.
  - apply List.Forall_forall. intros y Hy. apply list_elem_of_In, list_elem_of_lookup in Hy as [j Hj].
    apply (H 0%nat (S j)); cbn; auto. apply lookup_lt_Some in Hj. lia.
Qed.

Lemma qsort_correct l :
  exists l', qsort l = Some l' /\ l ≡ₚ l' /\ StronglySorted (fun x y => compar x y <= 0) l'.
Proof.
  assert (sorts 0 (length l) l (qsort l)) as (l' & E & Hs & Hp).
  { unfold qsort. destruct (Nat.leb_spec (length l) 1).
    - exists l. split; [done|]. split; [apply sorted_on_short; lia|apply perm_on_refl].
    - unfold THRESH. destruct (Nat.leb_spec 4 (length l)).
      + apply (quick_sort_ok (length l) l 0 (length l)); lia.
      + eexists. split; [reflexivity|]. apply (insertion_sort_ok l 0 (length l)). lia. }
  exists l'. split; [done|]. split; [apply Hp|]. apply sorted_on_StronglySorted.
  by rewrite (perm_on_length _ _ _ _ Hp).
Qed.
End Qsort.

(** ** Sorting commutes with a map

    The routine only compares and moves elements, so a comparison that is a
    preorder on some elements sorts the arrays made of these. *)
Section Naturality.
Context {A C : Type}.
Variable g : A -> C.
Variable compar : C -> C -> Z.

Abbreviation compar' := (fun x y : A => compar (g x) (g y)).

Lemma cmp_at_map l i j : cmp_at compar (g <$> l) i j = cmp_at compar' l i j.
Proof. unfold cmp_at. rewrite !list_lookup_fmap. by destruct (l !! i), (l !! j). Qed.

Lemma SWAP_map l a b : SWAP (g <$> l) a b = g <$> SWAP l a b.
Proof.
  unfold SWAP. rewrite !list_lookup_fmap. destruct (l !! a), (l !! b); try done.
  cbn. by rewrite !list_fmap_insert.
Qed.

Lemma find_slot_map l bot t1 d : find_slot compar (g <$> l) bot t1 d = find_slot compar' l bot t1 d.
Proof. induction d as [|d IH]; [done|]. cbn [find_slot]. by rewrite cmp_at_map, IH. Qed.

Lemma bubble_map l t1 k x : bubble (g <$> l) t1 k (g x) = g <$> bubble l t1 k x.
Proof.
  revert l t1. induction k as [|k IH]; intros l t1; cbn [bubble]; [by rewrite list_fmap_insert|].
  rewrite list_lookup_fmap. destruct (l !! _); [|done]. cbn. by rewrite <- list_fmap_insert, IH.
Qed.

Lemma isort_loop_map k l bot t1 : isort_loop compar k (g <$> l) bot t1 = g <$> isort_loop compar' k l bot t1.
Proof.
  revert l t1. induction k as [|k IH]; intros l t1; [done|]. cbn [isort_loop].
  rewrite list_lookup_fmap. destruct (l !! t1) as [x|]; [|done]. cbn [fmap option_fmap option_map].
  rewrite find_slot_map. destruct (Nat.eqb _ _); [apply IH|]. by rewrite bubble_map, IH.
Qed.

Lemma SORT_map l bot n : SORT compar (g <$> l) bot n = g <$> SORT compar' l bot n.
Proof.
  unfold SORT, insertion_sort. rewrite cmp_at_map, SWAP_map, isort_loop_map.
  by repeat case_match.
Qed.

Lemma scan_up_map l mid k : scan_up compar (g <$> l) mid k = scan_up compar' l mid k.
Proof. induction k as [|k IH]; [done|]. cbn [scan_up]. by rewrite cmp_at_map, IH. Qed.

Lemma scan_down_map l mid k : scan_down compar (g <$> l) mid k = scan_down compar' l mid k.
Proof. induction k as [|k IH]; [done|]. cbn [scan_down]. by rewrite cmp_at_map, IH. Qed.

Definition map_part (r : list A * nat * bool) : list C * nat * bool :=
  let '(l, mid, d) := r in (g <$> l, mid, d).

Lemma partition_map fuel l bot mid top d :
  partition compar fuel (g <$> l) bot mid top d = map_part <$> partition compar' fuel l bot mid top d.
Proof.
  revert l bot mid top d. induction fuel as [|f IH]; intros l bot mid top d; [done|].
  cbn [partition]. rewrite scan_up_map, scan_down_map, !SWAP_map.
  repeat case_match; try done; apply IH.
Qed.

Lemma median_map l bot mid top n : median compar (g <$> l) bot mid top n = g <$> median compar' l bot mid top n.
Proof. unfold median. rewrite !cmp_at_map, SWAP_map. by repeat case_match. Qed.

Lemma repartition_map qs qs' l bot mid n :
  (forall l b k, qs (g <$> l) b k = option_map (map g) (qs' l b k)) ->
  repartition compar qs (g <$> l) bot mid n = option_map (map g) (repartition compar' qs' l bot mid n).
Proof.
  intros Hq. unfold repartition. rewrite !SORT_map, !Hq.
  repeat (case_match; simplify_eq/=; rewrite ?SORT_map, ?Hq; try done);
    destruct (qs' _ _ _); simplify_eq/=; rewrite ?Hq; done.
Qed.

Lemma quick_sort_map fuel l bot n :
  quick_sort compar fuel (g <$> l) bot n = option_map (map g) (quick_sort compar' fuel l bot n).
Proof.
  revert l bot n. induction fuel as [|f IH]; intros l bot n; [done|].
  cbn [quick_sort]. rewrite median_map, partition_map.
  destruct (partition compar' _ _ _ _ _ _) as [[[l' m] d]|]; [|done]. cbn.
  destruct d; cbn; [by apply repartition_map|].
  unfold insertion_sort. by rewrite isort_loop_map.
Qed.

Lemma qsort_map l : qsort compar (g <$> l) = option_map (map g) (qsort compar' l).
Proof.
  unfold qsort. rewrite length_fmap, quick_sort_map. unfold insertion_sort.
  rewrite isort_loop_map. by repeat case_match.
Qed.
End Naturality.

Lemma Forall_sig {A} (P : A -> Prop) (l : list A) :
  Forall P l -> exists l' : list (sig P), l = proj1_sig <$> l'.
Proof.
  induction 1 as [|x l Hx _ [l' ->]]; [by exists []|]. by exists (exist P x Hx :: l').
Qed.

(** A comparison that is a total preorder on the elements of the array. *)
Lemma qsort_sorts_on {A} (P : A -> Prop) (compar : A -> A -> Z) l :
  (forall x y, P x -> P y -> compar x y <= 0 <-> 0 <= compar y x) ->
  (forall x y z, P x -> P y -> P z -> compar x y <= 0 -> compar y z <= 0 -> compar x z <= 0) ->
  Forall P l ->
  exists l', qsort compar l = Some l' /\ l ≡ₚ l' /\ StronglySorted (fun x y => compar x y <= 0) l'.
Proof.
  intros Hf Ht [l' ->]%Forall_sig. rewrite qsort_map.
  destruct (qsort_correct (fun x y : sig P => compar (`x) (`y))) with (l := l') as (r & -> & Hp & Hs).
  - intros [x Hx] [y Hy]. by apply Hf.
  - intros [x Hx] [y Hy] [z Hz]. by apply Ht.
  - exists (proj1_sig <$> r). split; [done|]. split; [by apply fmap_Permutation|].
    clear -Hs. induction Hs as [|x r _ IH Hx]; constructor; [done|].
    by apply Forall_fmap, (Forall_weaken _ _ _ Hx).
Qed.

(** ** What a client may rely on *)

(** A total preorder given by the sign of a comparison. *)
Class Compar {A : Type} (compar : A -> A -> Z) : Prop := {
  compar_flip x y : compar x y <= 0 <-> 0 <= compar y x;
  compar_trans x y z : compar x y <= 0 -> compar y z <= 0 -> compar x z <= 0
}.

(** A sorting routine, as the callers of [qsort] use it. *)
Class Sorter (sort : forall A, (A -> A -> Z) -> list A -> option (list A)) : Prop := {
  sort_correct A (compar : A -> A -> Z) l : Compar compar ->
    exists l', sort A compar l = Some l' /\ l ≡ₚ l' /\
      StronglySorted (fun x y => compar x y <= 0) l'
}.

#[export] Instance qsort_sorter : Sorter (fun A => @qsort A).
Proof. split. intros A compar l [Hf Ht]. by apply qsort_correct. Qed.

(** C40. [qsort] terminates and returns a permutation of its input that is
    sorted, for every comparison function that is a total preorder. *)
Theorem qsort_sorts {A : Type} (compar : A -> A -> Z) (l : list A) (HC : Compar compar) :
  exists l', qsort compar l = Some l' /\ l ≡ₚ l' /\
    StronglySorted (fun x y => compar x y <= 0) l'.
Proof. by apply (sort_correct A compar l). Qed.

#[export] Instance Z_sub_compar : Compar Z.sub.
Proof. split; intros; lia. Qed.

Lemma qsort_sorts_witness :
  exists l', qsort Z.sub [3; 1; 2; 9; 5; 5; 0] = Some l' /\ [3; 1; 2; 9; 5; 5; 0] ≡ₚ l' /\
    StronglySorted (fun x y => x - y <= 0) l'.
Proof. apply (qsort_sorts Z.sub [3; 1; 2; 9; 5; 5; 0]). exact Z_sub_compar. Defined.
