(* ===== verification/Tunables.v ===== *)
(** * Tunables: the settings that environment variables drive

    The functions the environment calls before it accepts a new value
    ([src/pmon/more.c:chg_moresz], [src/pmon/sbrk.c:chg_heaptop],
    [src/pmon/go.c:chg_validpc]) and the memory allocator's [sbrk]
    ([src/pmon/sbrk.c]), over the variables they share. Addresses are 32-bit
    words.

    The theorem: whatever the order of allocations and changes of [heaptop],
    the blocks handed out by [sbrk] lie one after the other below the limit in
    force, so no two of them overlap. *)

From S2P Require Import Prelude CString Numconv.

(** [src/include/mips.h:36] *)
Definition K0BASE : Z := 0x80000000.
(** [src/include/mips.h:37] *)
Definition K0SIZE : Z := 0x20000000.
(** [src/include/mips.h:40] *)
Definition K2BASE : Z := 0xc0000000.
(** [src/include/mips.h:198] *)
Definition K0_TO_PHYS (va : Z) : Z := Z.land (u32 va) (K0SIZE - 1).
(** [src/pmon/pmon.h:17] *)
Definition CLIENTPC : Z := 0x80020000.

(** The file-level variables the change functions set. *)
Record tunables : Type := mkTunables
  { moresz : Z;          (* more.c *)
    allocp1 : Z;         (* sbrk.c *)
    heaptop : Z;
    _pmon_in_ram : bool;
    nvalidpc : Z }.      (* go.c: -1 when the list must be computed *)

(** [src/pmon/more.c:16-28] *)
Definition chg_moresz (value : cstr) (t : tunables) : trace * bool * tunables :=
  match atob value 10 with
  | Some v =>
      if (2 <? v) && (v <? 100) then
        ([], true, {| moresz := v; allocp1 := allocp1 t; heaptop := heaptop t;
                      _pmon_in_ram := _pmon_in_ram t; nvalidpc := nvalidpc t |})
      else ([Printf "%s: invalid moresz value\n" [AStr (Some value)]], false, t)
  | None => ([Printf "%s: invalid moresz value\n" [AStr (Some value)]], false, t)
  end.

(** [src/pmon/sbrk.c:17-35] *)
Definition chg_heaptop (value : cstr) (t : tunables) : trace * bool * tunables :=
  match atob value 16 with
  | Some top =>
      if _pmon_in_ram t then ([], true, t)
      else if K0_TO_PHYS top <? K0_TO_PHYS (allocp1 t) then
        ([Printf "%x: heap is already above this point\n" [AInt top]], false, t)
      else ([], true, {| moresz := moresz t; allocp1 := allocp1 t; heaptop := top;
                         _pmon_in_ram := _pmon_in_ram t; nvalidpc := nvalidpc t |})
  | None => ([Printf "%s: invalid address\n" [AStr (Some value)]], false, t)
  end.

(** The limit [sbrk] works with. [src/pmon/sbrk.c:44-46] *)
Definition sbrk_top (t : tunables) : Z :=
  if heaptop t =? 0 then CLIENTPC else heaptop t.

(** [src/pmon/sbrk.c:38-54] *)
Definition sbrk (n : Z) (t : tunables) : Z * tunables :=
  if u32 (K0_TO_PHYS (allocp1 t) + n) <=? K0_TO_PHYS (sbrk_top t) then
    (allocp1 t, {| moresz := moresz t; allocp1 := u32 (allocp1 t + n); heaptop := heaptop t;
                   _pmon_in_ram := _pmon_in_ram t; nvalidpc := nvalidpc t |})
  else (0, t).

(** [src/pmon/go.c:1139-1142] *)
Definition flush_validpc (t : tunables) : tunables :=
  {| moresz := moresz t; allocp1 := allocp1 t; heaptop := heaptop t;
     _pmon_in_ram := _pmon_in_ram t; nvalidpc := -1 |}.

(** [src/pmon/go.c:1146-1160] *)
Definition chg_validpc (value : cstr) (t : tunables) : trace * bool * tunables :=
  if negb (Nat.even (length (argvize value))) then
    ([Printf "validpc variable must have even number of values\n" []], false, t)
  else ([], true, flush_validpc t).

(** ** The heap *)

Lemma K0_TO_PHYS_mod va : K0_TO_PHYS va = va mod K0SIZE.
Proof.
  unfold K0_TO_PHYS, K0SIZE. change (0x20000000 - 1) with (Z.ones 29).
  rewrite Z.land_ones by lia. unfold wrapu.
  change (2 ^ 32) with (2 ^ 29 * 8). rewrite Z.rem_mul_r by lia.
  rewrite Z.mul_comm, Z_mod_plus_full. apply Zmod_mod.
Qed.

Lemma K0_TO_PHYS_range va : 0 <= K0_TO_PHYS va < K0SIZE.
Proof. rewrite K0_TO_PHYS_mod. apply Z.mod_pos_bound. done. Qed.

(** [allocp1] is an address of [kseg0], below the limit. *)
Definition heap_ok (t : tunables) : Prop :=
  K0BASE <= allocp1 t < K0BASE + K0SIZE /\
  K0_TO_PHYS (allocp1 t) <= K0_TO_PHYS (sbrk_top t).

Lemma kseg0_phys a : K0BASE <= a < K0BASE + K0SIZE -> K0_TO_PHYS a = a - K0BASE.
Proof.
  intros H. rewrite K0_TO_PHYS_mod. unfold K0BASE, K0SIZE in *.
  replace a with ((a - 0x80000000) + 4 * 0x20000000) at 1 by lia.
  rewrite Z_mod_plus_full. apply Z.mod_small. lia.
Qed.

Lemma sbrk_spec n t r t' :
  heap_ok t -> 0 <= n < 2 ^ 31 -> sbrk n t = (r, t') ->
  heap_ok t' /\ heaptop t' = heaptop t /\
  ((r = 0 /\ t' = t) \/ (r = allocp1 t /\ allocp1 t' = allocp1 t + n)).
Proof.
  intros [Ha Hl] Hn. unfold sbrk.
  rewrite u32_small by (pose proof (K0_TO_PHYS_range (allocp1 t)); unfold K0SIZE in *; lia).
  destruct (Z.leb_spec (K0_TO_PHYS (allocp1 t) + n) (K0_TO_PHYS (sbrk_top t))) as [Hle|Hgt];
    intros [= <- <-]; [|split; [by split|split; [done|by left]]].
  pose proof (K0_TO_PHYS_range (sbrk_top t)) as Ht. rewrite kseg0_phys in Hle by done.
  assert (u32 (allocp1 t + n) = allocp1 t + n) as Hu
    by (apply u32_small; unfold K0BASE, K0SIZE in *; lia).
  split; [|split; [done|right; cbn; by rewrite Hu]].
  split; cbn [allocp1 heaptop]; rewrite Hu; [lia|].
  rewrite kseg0_phys by lia. unfold sbrk_top in *. cbn. lia.
Qed.

Lemma chg_heaptop_spec value t ev b t' :
  heap_ok t -> chg_heaptop value t = (ev, b, t') -> heap_ok t' /\ allocp1 t' = allocp1 t.
Proof.
  intros Hok. unfold chg_heaptop. destruct (atob value 16) as [top|]; [|by intros [= <- <- <-]].
  destruct (_pmon_in_ram t); [by intros [= <- <- <-]|].
  destruct (Z.ltb_spec (K0_TO_PHYS top) (K0_TO_PHYS (allocp1 t))) as [Hlt|Hge];
    intros [= <- <- <-]; [done|]. destruct Hok as [Ha Hl].
  split; [|done]. split; [done|]. unfold sbrk_top in *. cbn [heaptop allocp1].
  destruct (Z.eqb_spec top 0) as [->|]; [|lia].
  change (K0_TO_PHYS 0) with 0 in Hge. pose proof (K0_TO_PHYS_range (allocp1 t)).
  pose proof (K0_TO_PHYS_range CLIENTPC). lia.
Qed.

(** The calls that move the heap: allocations and changes of [heaptop], with
    the blocks allocated so far, the latest first. *)
Inductive heap_step : tunables * list (Z * Z) -> tunables * list (Z * Z) -> Prop :=
| hs_sbrk t n r t' blocks :
    0 <= n < 2 ^ 31 -> sbrk n t = (r, t') -> r <> 0 ->
    heap_step (t, blocks) (t', (r, n) :: blocks)
| hs_nomem t n t' blocks :
    0 <= n < 2 ^ 31 -> sbrk n t = (0, t') -> heap_step (t, blocks) (t', blocks)
| hs_heaptop t value ev b t' blocks :
    chg_heaptop value t = (ev, b, t') -> heap_step (t, blocks) (t', blocks).

Definition blocks_ok (s : tunables * list (Z * Z)) : Prop :=
  heap_ok s.1 /\
  Forall (fun b => b.1 + b.2 <= allocp1 s.1) s.2 /\
  ForallOrdPairs (fun b1 b2 => b2.1 + b2.2 <= b1.1) s.2.

Lemma heap_step_ok s1 s2 : heap_step s1 s2 -> blocks_ok s1 -> blocks_ok s2.
Proof.
  intros Hs (Hh & Hf & Ho). destruct Hs as [t n r t' bl Hn E Hr|t n t' bl Hn E|t v ev b t' bl E];
    cbn in *.
  - destruct (sbrk_spec n t r t' Hh Hn E) as (H1 & _ & [[-> _]|[-> H2]]); [done|].
    split; [done|]. cbn. split.
    + constructor; [cbn; lia|]. eapply Forall_weaken; [exact Hf|]. cbn. lia.
    + constructor; [|done]. eapply Forall_weaken; [exact Hf|]. done.
  - destruct (sbrk_spec n t 0 t' Hh Hn E) as (H1 & _ & [[_ ->]|[Hr H2]]); [done|].
    destruct Hh as [Hh _]. unfold K0BASE in Hh. lia.
  - destruct (chg_heaptop_spec v t ev b t' Hh E) as [H1 H2].
    split; [done|]. cbn. by rewrite H2.
Qed.

(** From a sound heap, every sequence of [sbrk] calls (of less than 2 GB
    each) and [heaptop] changes leaves the blocks it handed out pairwise
    disjoint and below the allocation pointer, which stays below the limit in
    force. *)
Theorem sbrk_blocks_disjoint (t : tunables) (t' : tunables) (blocks : list (Z * Z))
  (Hok : heap_ok t) (Hrun : rtc heap_step (t, []) (t', blocks)) :
  heap_ok t' /\ Forall (fun b => b.1 + b.2 <= allocp1 t') blocks /\
  ForallOrdPairs (fun b1 b2 => b2.1 + b2.2 <= b1.1) blocks.
Proof.
  assert (forall s1 s2, rtc heap_step s1 s2 -> blocks_ok s1 -> blocks_ok s2) as H.
  { induction 1; [done|]. intros. eauto using heap_step_ok. }
  apply (H _ _ Hrun). split; [done|]. split; constructor.
Qed.

Lemma sbrk_blocks_disjoint_witness :
  let t' := mkTunables 10 0x80010100 0 false (-1) in
  heap_ok t' /\ Forall (fun b => b.1 + b.2 <= allocp1 t') [(0x80010000, 0x100)] /\
  ForallOrdPairs (fun b1 b2 => b2.1 + b2.2 <= b1.1) [(0x80010000, 0x100)].
Proof.
  apply (sbrk_blocks_disjoint (mkTunables 10 0x80010000 0 false (-1))).
  - split; [split|]; vm_compute; congruence.
  - eapply rtc_l; [|apply rtc_refl]. eapply (hs_sbrk _ 0x100); [lia|reflexivity|done].
Defined.
