(* ===== verification/Format.v ===== *)
(** * Format: the text of [printf]

    [src/lib/vsprintf.c], without the floating-point directives ([%e], [%f],
    [%g], compiled under [FLOATINGPT]), in the [__mips >= 3] configuration.
    The arguments are a list; the result is the text left in the destination,
    or [None] for a directive that is not modelled, a missing argument, or a
    negative precision (a store before the buffer).

    The theorem: a hexadecimal directive with a zero-padded width prints
    exactly that many digits, and [gethex] reads the value back; the download
    protocols rely on it. *)

From S2P Require Import Prelude CString Numconv.

Record spec : Type := mkSpec
  { sp_fmt : fmt_code; sp_width : Z; sp_trunc : Z; sp_haddot : bool }.

Definition conversions : cstr := str "dobxXulscefg%".

Fixpoint span_digits (s : cstr) : cstr * cstr :=
  match s with
  | [] => ([], [])
  | c :: s' => if isdigit c then let r := span_digits s' in (c :: r.1, r.2) else ([], s)
  end.

Definition set_number (sp : spec) (n : Z) : spec :=
  if sp_haddot sp then mkSpec (sp_fmt sp) (sp_width sp) n true
  else mkSpec (sp_fmt sp) n (sp_trunc sp) false.

Definition set_fmt (sp : spec) (f : fmt_code) : spec :=
  mkSpec f (sp_width sp) (sp_trunc sp) (sp_haddot sp).

(** The text from the conversion character on, the flags, and the arguments
    left. [tmp] holds 40 characters.
    [src/lib/vsprintf.c:37-65] *)
Fixpoint parse_spec (fuel : nat) (s : cstr) (sp : spec) (args : list arg)
  : option (cstr * spec * list arg) :=
  match fuel with
  | O => None
  | S f =>
      match s with
      | [] => Some ([], sp, args)
      | c :: s' =>
          if mem_of conversions c then Some (s, sp, args)
          else if c =? ch "-" then parse_spec f s' (set_fmt sp FMT_LJUST) args
          else if c =? ch "0" then parse_spec f s' (set_fmt sp FMT_RJUST0) args
          else if c =? ch "~" then parse_spec f s' (set_fmt sp FMT_CENTER) args
          else if c =? ch "*" then
            match args with
            | AInt n :: args' => parse_spec f s' (set_number sp (s32 n)) args'
            | _ => None
            end
          else if (ch "1" <=? c) && (c <=? ch "9") then
            let '(ds, rest) := span_digits s in
            if (39 <? length ds)%nat then None
            else
              match atob ds 10 with
              | Some n => parse_spec f rest (set_number sp (s32 n)) args
              | None => None
              end
          else if c =? ch "." then
            parse_spec f s' (mkSpec (sp_fmt sp) (sp_width sp) (sp_trunc sp) true) args
          else parse_spec f s' sp args
      end
  end.

(** [src/lib/vsprintf.c:88-98] *)
Definition conv_base (c : Z) : option Z :=
  if c =? ch "d" then Some (-10)
  else if c =? ch "u" then Some 10
  else if (c =? ch "x") || (c =? ch "X") then Some 16
  else if c =? ch "o" then Some 8
  else if c =? ch "b" then Some 2
  else None.

(** The integer directives: the text and what follows the conversion.
    [src/lib/vsprintf.c:81-108] *)
Definition conv_int (s : cstr) (args : list arg) : option (cstr * cstr * list arg) :=
  let '(longlong, s) :=
    if at_ s 0 =? ch "l" then
      let s := drop 1 s in
      if at_ s 0 =? ch "l" then (true, drop 1 s) else (false, s)
    else (false, s) in
  match s, args with
  | c :: s', AInt v :: args' =>
      match conv_base c with
      | None => None
      | Some base =>
          let d := if longlong : bool then llbtoa (u64 v) base else btoa (u32 v) base in
          let d := if c =? ch "X" then strtoupper d else d in
          Some (d, s', args')
      end
  | _, _ => None
  end.

(** One directive: the text it leaves at [d], after the characters it has
    already passed. [src/lib/vsprintf.c:66-124] *)
Definition directive (s : cstr) (args : list arg) : option (cstr * cstr * list arg) :=
  match parse_spec (S (length s)) s (mkSpec FMT_RJUST 0 0 false) args with
  | None => None
  | Some (s, sp, args) =>
      let conv :=
        match s with
        | [] => None
        | c :: s' =>
            if c =? ch "%" then Some ([ch "%"], [], s', args)
            else if c =? ch "s" then
              match args with
              | AStr p :: args' =>
                  Some ([], match p with Some t => t | None => str "(null)" end, s', args')
              | _ => None
              end
            else if c =? ch "c" then
              match args with
              | AInt n :: args' => Some ([], if s8 n =? 0 then [] else [s8 n], s', args')
              | _ => None
              end
            else
              match conv_int s args with
              | Some (d, s', args') => Some ([], d, s', args')
              | None => None
              end
        end in
      match conv with
      | None => None
      | Some (passed, d, s', args') =>
          if sp_trunc sp <? 0 then None
          else
            let d := if sp_trunc sp =? 0 then d else take (Z.to_nat (sp_trunc sp)) d in
            let d := if sp_width sp =? 0 then d else str_fmt d (sp_width sp) (sp_fmt sp) in
            Some (passed ++ d, s', args')
      end
  end.

Fixpoint vsprintf_loop (fuel : nat) (s : cstr) (args : list arg) : option cstr :=
  match fuel with
  | O => None
  | S f =>
      match s with
      | [] => Some []
      | c :: s' =>
          if c =? ch "%" then
            match directive s' args with
            | None => None
            | Some (d, s'', args') =>
                match vsprintf_loop f s'' args' with
                | Some r => Some (d ++ r)
                | None => None
                end
            end
          else
            match vsprintf_loop f s' args with
            | Some r => Some (c :: r)
            | None => None
            end
      end
  end.

(** Every round of the loop consumes a character of the format.
    [src/lib/vsprintf.c:17-130] *)
Definition vsprintf (s : cstr) (args : list arg) : option cstr :=
  vsprintf_loop (S (length s)) s args.

(** [src/lib/sprintf.c:7-19] *)
Definition sprintf (s : string) (args : list arg) : option cstr := vsprintf (str s) args.

(** ** Hexadecimal fields *)

(** The character of a digit, in capitals. *)
Definition hexchar (d : Z) : Z := toupper (digit_char d).

(** [v] in [w] hexadecimal digits. *)
Fixpoint hexfield (w : nat) (v : Z) : cstr :=
  match w with
  | O => []
  | S w' => hexfield w' (v / 16) ++ [hexchar (v mod 16)]
  end.

Lemma hexfield_length w v : length (hexfield w v) = w.
Proof. revert v. induction w as [|w IH]; intros v; cbn; [done|]. rewrite length_app, IH. cbn. lia. Qed.

Lemma hexfield_zero w : hexfield w 0 = replicate w (ch "0").
Proof.
  induction w as [|w IH]; [done|]. cbn [hexfield]. change (0 / 16) with 0. rewrite IH.
  change [hexchar (0 mod 16)] with [ch "0"]. by rewrite <- replicate_cons_app.
Qed.

Lemma hexfield_digits fuel w v :
  0 <= v < 16 ^ Z.of_nat w -> v < 2 ^ Z.of_nat fuel ->
  hexfield w v = replicate (w - length (digits_lsb fuel v 16)) (ch "0") ++
    strtoupper (digit_char <$> rev (digits_lsb fuel v 16)).
Proof.
  revert w v. induction fuel as [|f IH]; intros w v Hv Hf.
  - change (2 ^ Z.of_nat 0) with 1 in Hf. assert (v = 0) as -> by lia.
    cbn. by rewrite app_nil_r, Nat.sub_0_r, hexfield_zero.
  - cbn [digits_lsb]. destruct (Z.eqb_spec v 0) as [->|Hnz].
    { cbn. by rewrite app_nil_r, Nat.sub_0_r, hexfield_zero. }
    destruct w as [|w]; [change (16 ^ Z.of_nat 0) with 1 in Hv; lia|].
    rewrite Nat2Z.inj_succ, Z.pow_succ_r in Hv, Hf by lia.
    cbn [hexfield length rev]. rewrite (IH w (v / 16)).
    + rewrite <- app_assoc. f_equal. unfold strtoupper. rewrite !fmap_app. done.
    + split; [apply Z.div_pos; lia|apply Z.div_lt_upper_bound; lia].
    + apply Z.div_lt_upper_bound; lia.
Qed.

Lemma digits_lsb_length fuel b w v :
  2 <= b -> 0 <= v < b ^ Z.of_nat w -> (length (digits_lsb fuel v b) <= w)%nat.
Proof.
  intros Hb. revert w v. induction fuel as [|f IH]; intros w v Hv; cbn; [lia|].
  destruct (Z.eqb_spec v 0); [cbn; lia|]. destruct w as [|w]; [rewrite Z.pow_0_r in Hv; lia|].
  rewrite Nat2Z.inj_succ, Z.pow_succ_r in Hv by lia. cbn [length].
  assert (length (digits_lsb f (v / b) b) <= w)%nat; [|lia].
  apply IH. split; [apply Z.div_pos; lia|apply Z.div_lt_upper_bound; lia].
Qed.

(** The text of [%0wX]. *)
Lemma hex_padded w v :
  0 <= v < 16 ^ Z.of_nat w -> v < 2 ^ 32 -> (0 < w)%nat ->
  str_fmt (strtoupper (btoa v 16)) (Z.of_nat w) FMT_RJUST0 = hexfield w v.
Proof.
  intros Hv H32 Hw. rewrite str_fmt_rjust0, Nat2Z.id. unfold strtoupper at 1. rewrite length_fmap.
  destruct (Z.eq_dec v 0) as [->|Hnz].
  - change (btoa 0 16) with [ch "0"]. rewrite hexfield_zero. cbn [length strtoupper fmap list_fmap].
    change (toupper (ch "0")) with (ch "0"). destruct w as [|w]; [lia|].
    cbn [Nat.sub]. rewrite Nat.sub_0_r. by rewrite <- replicate_cons_app.
  - rewrite btoa_digits by lia. rewrite length_fmap, length_rev.
    symmetry. apply hexfield_digits; [done|]. exact H32.
Qed.

(** ** Reading a field back *)

Lemma gethex_loop_app p q v :
  gethex_loop (p ++ q) (length p) v = gethex_loop p (length p) v.
Proof.
  revert v. induction p as [|c p IH]; intros v; [by destruct q|].
  cbn. destruct (digit_of c); [|done]. apply IH.
Qed.

Lemma gethex_loop_snoc p c v :
  gethex_loop (p ++ [c]) (S (length p)) v =
    match gethex_loop p (length p) v with
    | Some r =>
        match digit_of c with
        | Some d => Some (Z.lor (u32 (Z.shiftl r 4)) d)
        | None => None
        end
    | None => None
    end.
Proof.
  revert v. induction p as [|x p IH]; intros v; [done|].
  change ((x :: p) ++ [c]) with (x :: (p ++ [c])). cbn [length].
  change (gethex_loop (x :: p ++ [c]) (S (S (length p))) v) with
    (match digit_of x with
     | Some d => gethex_loop (p ++ [c]) (S (length p)) (Z.lor (u32 (Z.shiftl v 4)) d)
     | None => None end).
  cbn [gethex_loop]. destruct (digit_of x); [apply IH|done].
Qed.

Lemma digit_of_hexchar d : 0 <= d < 16 -> digit_of (hexchar d) = Some d.
Proof.
  intros Hd.
  assert (forallb (fun d => bool_decide (digit_of (hexchar d) = Some d)) (seqZ 0 16) = true)
    as H by (vm_compute; reflexivity).
  apply (forallb_range _ 0 16 H d) in Hd. by apply bool_decide_eq_true in Hd.
Qed.

Lemma hex_step_ok q d :
  0 <= q < 2 ^ 28 -> 0 <= d < 16 -> Z.lor (u32 (Z.shiftl q 4)) d = q * 16 + d.
Proof.
  intros Hq Hd. rewrite Z.shiftl_mul_pow2 by lia. change (2 ^ 4) with 16.
  rewrite u32_small by lia. by apply (lor_low 4).
Qed.

Lemma gethex_hexfield w v :
  (w <= 8)%nat -> 0 <= v < 16 ^ Z.of_nat w -> gethex (hexfield w v) (Z.of_nat w) = Some v.
Proof.
  unfold gethex. rewrite Nat2Z.id. revert v. induction w as [|w IH]; intros v Hw Hv.
  { change (16 ^ Z.of_nat 0) with 1 in Hv. assert (v = 0) as -> by lia. done. }
  rewrite Nat2Z.inj_succ, Z.pow_succ_r in Hv by lia. cbn [hexfield].
  pose proof (gethex_loop_snoc (hexfield w (v / 16)) (hexchar (v mod 16)) 0) as Hs.
  rewrite hexfield_length in Hs. rewrite Hs.
  assert (0 <= v / 16 < 16 ^ Z.of_nat w) as Hq
    by (split; [apply Z.div_pos; lia|apply Z.div_lt_upper_bound; lia]).
  pose proof (Z.mod_pos_bound v 16 ltac:(lia)) as Hm.
  rewrite IH by (lia || done). rewrite digit_of_hexchar by done.
  assert (16 ^ Z.of_nat w <= 2 ^ 28).
  { change (2 ^ 28) with (16 ^ 7). apply Z.pow_le_mono_r; lia. }
  rewrite hex_step_ok by lia. f_equal. rewrite (Z_div_mod_eq_full v 16) at 3. lia.
Qed.

(** A field followed by other text. *)
Lemma gethex_field w v rest :
  (w <= 8)%nat -> 0 <= v < 16 ^ Z.of_nat w ->
  gethex (hexfield w v ++ rest) (Z.of_nat w) = Some v.
Proof.
  intros Hw Hv. rewrite <- (gethex_hexfield w v Hw Hv). unfold gethex. rewrite Nat2Z.id.
  rewrite <- (hexfield_length w v) at 2 4. apply gethex_loop_app.
Qed.

(** [sprintf] with [%02X], [%04X] or [%08X] writes exactly two, four or
    eight digits for every value that fits, and [gethex] reads the value back
    from the text, whatever follows it. *)
Theorem sprintf_gethex (w : nat) (v : Z) (rest : cstr)
  (Hw : w = 2%nat \/ w = 4%nat \/ w = 8%nat) (Hv : 0 <= v < 16 ^ Z.of_nat w) :
  exists t, vsprintf (str "%0" ++ [48 + Z.of_nat w] ++ str "X") [AInt v] = Some t /\
    length t = w /\ gethex (t ++ rest) (Z.of_nat w) = Some v.
Proof.
  exists (hexfield w v). rewrite hexfield_length.
  split; [|split; [done|apply gethex_field; [lia|done]]].
  assert (0 <= v < 2 ^ 32) as H32.
  { split; [lia|]. apply (Z.lt_le_trans _ _ _ (proj2 Hv)).
    destruct Hw as [-> | [-> | ->]]; vm_compute; congruence. }
  assert (u32 v = v) as Hu by (apply u32_small; lia).
  assert (vsprintf (str "%0" ++ [48 + Z.of_nat w] ++ str "X") [AInt v] =
    Some (str_fmt (strtoupper (btoa (u32 v) 16)) (Z.of_nat w) FMT_RJUST0 ++ [])) as ->
    by (destruct Hw as [-> | [-> | ->]]; reflexivity).
  rewrite Hu, app_nil_r, hex_padded by lia. done.
Qed.

Lemma sprintf_gethex_witness :
  exists t, vsprintf (str "%0" ++ [48 + Z.of_nat 8] ++ str "X") [AInt 0x80020000] = Some t /\
    length t = 8%nat /\ gethex (t ++ str "ff") (Z.of_nat 8) = Some 0x80020000.
Proof. apply (sprintf_gethex 8 0x80020000 (str "ff")); [auto|vm_compute; split; congruence]. Defined.

Lemma btoa_negative v :
  - 2 ^ 31 <= v < 0 ->
  btoa (u32 v) (-10) = ch "-" :: (digit_char <$> rev (digits_lsb 32 (- v) 10)).
Proof.
  intros Hv. assert (u32 v = v + 2 ^ 32) as Hu.
  { unfold wrapu. rewrite <- (Z_mod_plus_full v 1). apply Z.mod_small. lia. }
  unfold btoa. rewrite Hu. destruct (Z.eqb_spec (v + 2 ^ 32) 0); [lia|].
  change (-10 =? -10) with true. cbv iota.
  assert (Z.land (v + 2 ^ 32) (Z.shiftl 1 31) <> 0) as Hb.
  { intros E. assert (Z.testbit (Z.land (v + 2 ^ 32) (Z.shiftl 1 31)) 31 = true) as Ht.
    { rewrite Z.land_spec. apply andb_true_intro. split; [|reflexivity].
      apply Z.testbit_true; [lia|].
      assert ((v + 2 ^ 32) / 2 ^ 31 = 1) as ->; [|done].
      symmetry. apply (Z.div_unique_pos _ _ 1 (v + 2 ^ 31)); lia. }
    rewrite E in Ht. done. }
  rewrite (proj2 (Z.eqb_neq _ _) Hb). cbn [negb].
  assert (u32 (Z.lnot (v + 2 ^ 32) + 1) = - v) as ->.
  { replace (Z.lnot (v + 2 ^ 32) + 1) with (- v + (-1) * 2 ^ 32) by (unfold Z.lnot; lia).
    unfold wrapu. rewrite Z_mod_plus_full. apply Z.mod_small. lia. }
  rewrite strcat_spec, rev_app_distr, btoa_loop_digits. cbn [rev app str]. f_equal.
  symmetry. apply (List.map_rev digit_char).
Qed.

(** A defect: zero padding goes before the sign, so a negative number in a
    zero-padded field prints with zeros in front of its minus sign. *)
Theorem zero_pad_sign (v : Z) (Hv : - 2 ^ 31 <= v < 0) :
  exists n ds, vsprintf (str "%012d") [AInt v] =
    Some (replicate (S n) (ch "0") ++ ch "-" :: ds) /\ btoa (u32 v) (-10) = ch "-" :: ds.
Proof.
  pose proof (digits_lsb_length 32 10 10 (- v) ltac:(lia) ltac:(lia)) as Hl.
  set (ds := digit_char <$> rev (digits_lsb 32 (- v) 10)).
  assert (length ds <= 10)%nat as Hd by (subst ds; by rewrite length_fmap, length_rev).
  exists (10 - length ds)%nat, ds. split; [|by apply btoa_negative].
  assert (vsprintf (str "%012d") [AInt v] =
    Some (str_fmt (btoa (u32 v) (-10)) 12 FMT_RJUST0 ++ [])) as -> by reflexivity.
  rewrite app_nil_r, str_fmt_rjust0, btoa_negative by done. fold ds.
  change (Z.to_nat 12) with 12%nat. cbn [length].
  replace (12 - S (length ds))%nat with (S (10 - length ds)) by lia. done.
Qed.

Lemma zero_pad_sign_witness :
  exists n ds, vsprintf (str "%012d") [AInt (-5)] =
    Some (replicate (S n) (ch "0") ++ ch "-" :: ds) /\ btoa (u32 (-5)) (-10) = ch "-" :: ds.
Proof. apply (zero_pad_sign (-5)). lia. Defined.
