(* ===== verification/Env.v ===== *)
(** * Env: the environment variables

    [src/pmon/set.c], in the configuration with [R4000], [INET] and
    [FLOATINGPT] and without [DHCP]. The 64 slots of [envvar] are a list;
    a name or a value that may be a null pointer is an [option]. The board's
    non-volatile store and [malloc] are parameters that act on a state of
    their own, and so are the defaults the board builds in ([sbd_boardenv]).
    Variable names are compared without regard to case.

    A null [value] handed to a change function is read as the empty string.

    The theorems: the slots implement a finite map from names (up to case) to
    values, kept by [_setenv] and [unsetenv] and read by [_getenv] (a value for which
    there is no memory takes the variable away); values
    outside the list of a standard variable are refused; a fresh start gives
    every standard variable its default; and [envbuild] fills exactly the
    space that [envsize] computed. *)

From S2P Require Import Prelude CString Glob Numconv Tunables.

(** [src/pmon/set.c:19-21] *)
Inductive chgfunc : Type := Chg_moresz | Chg_validpc | Chg_heaptop.

(** [src/pmon/set.c:10-15] *)
Record stdenv : Type := mkStd
  { sv_name : cstr; sv_init : cstr; sv_values : cptr; sv_chgfunc : option chgfunc }.

(** [src/pmon/set.c:27-68] *)
Definition stdenvtab : list stdenv :=
  let v s := Some (str s) in
  [ mkStd (str "brkcmd") (str "l -r @epc 1") None None;
    mkStd (str "datasz") (str "-b") (v "-b -h -w -d") None;
    mkStd (str "dlecho") (str "off") (v "off on lfeed") None;
    mkStd (str "dlproto") (str "EtxAck") (v "none XonXoff EtxAck") None;
    mkStd (str "bootp") (str "no") (v "no sec pri save") None;
    mkStd (str "hostport") (str "tty1") None None;
    mkStd (str "inalpha") (str "hex") (v "hex symbol") None;
    mkStd (str "inbase") (str "16") (v "auto 8 10 16") None;
    mkStd (str "moresz") (str "10") None (Some Chg_moresz);
    mkStd (str "prompt") (str "PMON> ") None None;
    mkStd (str "regstyle") (str "sw") (v "hw sw") None;
    mkStd (str "regsize") (str "32") (v "32 64") None;
    mkStd (str "rptcmd") (str "trace") (v "off on trace") None;
    mkStd (str "trabort") (str "^K") None None;
    mkStd (str "ulcr") (str "cr") (v "cr lf crlf") None;
    mkStd (str "uleof") (str "%") None None;
    mkStd (str "validpc") (str "_ftext etext") None (Some Chg_validpc);
    mkStd (str "heaptop") (str "0x80020000") None (Some Chg_heaptop);
    mkStd (str "showsym") (str "yes") (v "no yes") None;
    mkStd (str "fpfmt") (str "both") (v "both double single none") None;
    mkStd (str "fpdis") (str "yes") (v "no yes") None ].

(** [src/pmon/set.c:71-74] *)
Record envpair : Type := mkPair { e_name : cptr; e_value : cptr }.

(** [src/pmon/set.c:76] *)
Definition NVAR : nat := 64.

Fixpoint matchval_loop (fuel : nat) (t : cptr) (value : cptr) (j : Z) : Z :=
  match fuel with
  | O => -2
  | S fuel' =>
      match getword t with
      | (_, None) => -2
      | (wrd, Some t') =>
          if striequ (Some wrd) value then j else matchval_loop fuel' (Some t') value (j + 1)
      end
  end.

(** Each word takes a character, so the length of the list is enough fuel.
    [src/pmon/set.c:81-96] *)
Definition _matchval (sp : stdenv) (value : cptr) : Z :=
  matchval_loop (S (length (strcpy (sv_values sp)))) (sv_values sp) value 0.

Fixpoint getstdenv_loop (tab : list stdenv) (name : cstr) : option stdenv :=
  match tab with
  | [] => None
  | sp :: tab' =>
      if striequ (Some name) (Some (sv_name sp)) then Some sp else getstdenv_loop tab' name
  end.

(** [src/pmon/set.c:99-108] *)
Definition getstdenv (name : cstr) : option stdenv := getstdenv_loop stdenvtab name.

(** The scan of [_setenv]: the first slot that holds [name], and otherwise the
    first free one. [src/pmon/set.c:128-133] *)
Fixpoint env_scan (vars : list envpair) (name : cstr) (i : nat) (bp : option nat)
  : option nat * option nat :=
  match vars with
  | [] => (None, bp)
  | ep :: vars' =>
      match e_name ep with
      | None =>
          env_scan vars' name (S i) (match bp with None => Some i | Some _ => bp end)
      | Some n =>
          if striequ (Some name) (Some n) then (Some i, bp)
          else env_scan vars' name (S i) bp
      end
  end.

Fixpoint getenv_loop (vars : list envpair) (name : cstr) : cptr :=
  match vars with
  | [] => None
  | ep :: vars' =>
      match e_name ep with
      | Some n =>
          if striequ (Some name) (Some n)
          then Some (match e_value ep with Some v => v | None => [] end)
          else getenv_loop vars' name
      | None => getenv_loop vars' name
      end
  end.

Section Env.
(** The board: the state of its non-volatile store and of the allocator. *)
Context {W : Type}.
Variable malloc : Z -> W -> bool * W.
Variable sbd_setenv : cstr -> cptr -> W -> bool * W.
Variable sbd_unsetenv : cstr -> W -> bool * W.
(** The variables [sbd_mapenv] passes to its argument, in order. *)
Variable sbd_vars : W -> list (cstr * cptr).

Record env : Type := mkEnv
  { envinited : bool; envvar : list envpair; tun : tunables; world : W; out : trace }.

Definition set_vars (vars : list envpair) (s : env) : env :=
  mkEnv (envinited s) vars (tun s) (world s) (out s).
Definition set_world (w : W) (s : env) : env :=
  mkEnv (envinited s) (envvar s) (tun s) w (out s).
Definition set_tun (t : tunables) (s : env) : env :=
  mkEnv (envinited s) (envvar s) t (world s) (out s).
Definition emit (ev : trace) (s : env) : env :=
  mkEnv (envinited s) (envvar s) (tun s) (world s) (out s ++ ev).
Definition set_slot (i : nat) (ep : envpair) (s : env) : env :=
  set_vars (<[i := ep]> (envvar s)) s.

Definition run_chg (f : chgfunc) (value : cptr) (s : env) : bool * env :=
  let '(ev, b, t) :=
    match f with
    | Chg_moresz => chg_moresz (strcpy value) (tun s)
    | Chg_validpc => chg_validpc (strcpy value) (tun s)
    | Chg_heaptop => chg_heaptop (strcpy value) (tun s)
    end in
  (b, emit ev (set_tun t s)).

(** The checks on a standard variable. [src/pmon/set.c:119-126] *)
Definition setenv_check (name : cstr) (value : cptr) (s : env) : bool * env :=
  match getstdenv name with
  | None => (true, s)
  | Some sp =>
      let '(ok, s) :=
        match sv_chgfunc sp with
        | Some f => run_chg f value s
        | None => (true, s)
        end in
      if negb ok then (false, s)
      else
        match sv_values sp with
        | Some vals =>
            if envinited s && (_matchval sp value <? 0) then
              (false, emit [Printf "%s: bad %s value, try [%s]\n"
                             [AStr value; AStr (Some name); AStr (Some vals)]] s)
            else (true, s)
        | None => (true, s)
        end
  end.

(** The new value of slot [i], which holds the name [n] and no value.
    [src/pmon/set.c:151-160] *)
Definition store_value (i : nat) (n : cstr) (value : cptr) (s : env) : bool * env :=
  match value with
  | None => (true, s)
  | Some v =>
      let '(ok, w) := malloc (strlen value + 1) (world s) in
      let s := set_world w s in
      if ok then (true, set_slot i (mkPair (Some n) (Some v)) s)
      else (false, set_slot i (mkPair None None) s)
  end.

(** [src/pmon/set.c:111-161] *)
Definition _setenv (name : cstr) (value : cptr) (s : env) : bool * env :=
  let '(ok, s) := setenv_check name value s in
  if negb ok then (false, s)
  else
    match env_scan (envvar s) name 0 None with
    | (Some i, _) =>
        let n := default [] (envvar s !! i ≫= e_name) in
        store_value i n value (set_slot i (mkPair (Some n) None) s)
    | (None, Some i) =>
        let '(ok, w) := malloc (strlen (Some name) + 1) (world s) in
        let s := set_world w s in
        if ok then
          let v := envvar s !! i ≫= e_value in
          store_value i name value (set_slot i (mkPair (Some name) v) s)
        else (false, s)
    | (None, None) => (false, s)
    end.

(** [src/pmon/set.c:164-178] *)
Definition setenv (name : cstr) (value : cptr) (s : env) : bool * env :=
  let '(ok, s) := _setenv name value s in
  if ok then
    let '(r, w) :=
      match getstdenv name with
      | Some sp =>
          if striequ value (Some (sv_init sp)) then sbd_unsetenv name (world s)
          else sbd_setenv name value (world s)
      | None => sbd_setenv name value (world s)
      end in
    (r, set_world w s)
  else (false, s).

(** [src/pmon/set.c:181-190] *)
Definition _getenv (name : cstr) (s : env) : cptr := getenv_loop (envvar s) name.

(** [src/pmon/set.c:193-205] *)
Definition getenv (name : cstr) (s : env) : cptr :=
  if envinited s then _getenv name s
  else match getstdenv name with Some sp => Some (sv_init sp) | None => None end.

(** The arguments [mapenv] passes to its function, in order.
    [src/pmon/set.c:208-217] *)
Definition mapenv (s : env) : list (cstr * cptr) :=
  omap (fun ep => match e_name ep with Some n => Some (n, e_value ep) | None => None end)
    (envvar s).

Fixpoint unsetenv_loop (k : nat) (i : nat) (pat : cstr) (ndone : Z) (s : env) : bool * env :=
  match k with
  | O => (0 <? ndone, s)
  | S k' =>
      match envvar s !! i ≫= e_name with
      | None => unsetenv_loop k' (S i) pat ndone s
      | Some n =>
          if strpat (Some n) (Some pat) then
            match getstdenv n with
            | Some sp =>
                let '(ok, s) := setenv (sv_name sp) (Some (sv_init sp)) s in
                if ok then unsetenv_loop k' (S i) pat (ndone + 1) s else (false, s)
            | None =>
                let '(_, w) := sbd_unsetenv n (world s) in
                unsetenv_loop k' (S i) pat (ndone + 1)
                  (set_slot i (mkPair None None) (set_world w s))
            end
          else unsetenv_loop k' (S i) pat ndone s
      end
  end.

(** [src/pmon/set.c:220-246] *)
Definition unsetenv (pat : cstr) (s : env) : bool * env := unsetenv_loop NVAR 0 pat 0 s.

(** [src/pmon/set.c:281-284] *)
Definition env_default (s : env) (sp : stdenv) : env :=
  match _getenv (sv_name sp) s with
  | Some _ => s
  | None => (_setenv (sv_name sp) (Some (sv_init sp)) s).2
  end.

(** The weak default of [sbd_boardenv], on boards that have none of their own.
    [src/pmon/set.c:257-261] *)
Definition no_boardenv (s : env) : env := s.

(** [sbd_boardenv] is the board's function, and [_sbd_env_suppress] the weak
    default of the file, which lets everything through.
    [src/pmon/set.c:263-287] *)
Definition envinit (sbd_boardenv : env -> env) (s : env) : env :=
  let s := mkEnv false (replicate NVAR (mkPair None None)) (tun s) (world s) (out s) in
  let s := fold_left (fun s v => (_setenv v.1 v.2 s).2) (sbd_vars (world s)) s in
  let s := sbd_boardenv s in
  let s := fold_left env_default stdenvtab s in
  mkEnv true (envvar s) (tun s) (world s) (out s).

(** [src/pmon/set.c:425-439] *)
Definition matchenv (name : cstr) (s : env) : Z :=
  match getstdenv name with
  | None => -1
  | Some sp =>
      _matchval sp (match getenv name s with Some v => Some v | None => Some [] end)
  end.

Definition envsize_step (acc : Z * Z) (ep : envpair) : Z * Z :=
  match e_name ep with
  | None => acc
  | Some n =>
      match e_value ep with
      | Some v => (acc.1 + 1, acc.2 + (strlen (Some n) + 1 + strlen (Some v) + 1))
      | None => (acc.1 + 1, acc.2 + (strlen (Some n) + 1 + 1))
      end
  end.

(** [src/pmon/set.c:443-459] *)
Definition envsize (s : env) : Z * Z := fold_left envsize_step (envvar s) (0, 0).

(** The pointers stored from [vsp] on (as offsets from [ssp], [None] for the
    closing null pointer) and the bytes written from [ssp] on. *)
Definition envbuild_step (acc : list Z * list Z) (ep : envpair) : list Z * list Z :=
  match e_name ep with
  | None => acc
  | Some n =>
      (acc.1 ++ [Z.of_nat (length acc.2)],
       acc.2 ++ n ++ [ch "="] ++ strcpy (e_value ep) ++ [0])
  end.

(** [src/pmon/set.c:461-476] *)
Definition envbuild (s : env) : list (option Z) * list Z :=
  let r := fold_left envbuild_step (envvar s) ([], []) in
  ((Some <$> r.1) ++ [None], r.2).

#[local] Set Default Proof Using "Type".

(** ** Names up to case *)

Definition named (name : cstr) (ep : envpair) : bool :=
  match e_name ep with Some n => striequ (Some name) (Some n) | None => false end.

Lemma named_true name ep :
  named name ep = true <-> exists n, e_name ep = Some n /\ strtoupper name = strtoupper n.
Proof.
  unfold named. destruct (e_name ep) as [n|].
  - rewrite striequ_spec. split; [by exists n|]. by intros (m & [= <-] & E).
  - split; [done|]. by intros (m & ? & ?).
Qed.

Lemma getenv_loop_cons ep vars name :
  getenv_loop (ep :: vars) name =
    if named name ep then Some (default [] (e_value ep)) else getenv_loop vars name.
Proof. cbn [getenv_loop]. unfold named. destruct (e_name ep); [|done]. by destruct (striequ _ _), (e_value ep). Qed.

Lemma named_striequ name name' ep :
  striequ (Some name) (Some name') = true -> named name ep = named name' ep.
Proof.
  intros H%striequ_spec. apply eq_true_iff_eq. rewrite !named_true.
  split; intros (n & ? & ?); exists n; split; congruence.
Qed.

Lemma getenv_loop_striequ vars name name' :
  striequ (Some name) (Some name') = true -> getenv_loop vars name = getenv_loop vars name'.
Proof.
  intros H. induction vars as [|ep vars IH]; [done|].
  rewrite !getenv_loop_cons, (named_striequ name name' ep H). by rewrite IH.
Qed.

(** What a lookup sees after slot [i] was replaced. *)
Lemma getenv_loop_hit vars i ep name :
  (i < length vars)%nat -> named name ep = true ->
  (forall j ep', (j < i)%nat -> vars !! j = Some ep' -> named name ep' = false) ->
  getenv_loop (<[i := ep]> vars) name = Some (default [] (e_value ep)).
Proof.
  revert i. induction vars as [|e vars IH]; intros i Hi Hn Hb; [cbn in Hi; lia|].
  destruct i as [|i].
  - cbn [insert list_insert]. by rewrite getenv_loop_cons, Hn.
  - change (<[S i := ep]> (e :: vars)) with (e :: <[i := ep]> vars).
    rewrite getenv_loop_cons, (Hb 0%nat e) by (done || lia).
    apply IH; [cbn in Hi; lia|done|]. intros j ep' Hj. apply (Hb (S j)). lia.
Qed.

Lemma getenv_loop_miss vars i ep0 ep name :
  vars !! i = Some ep0 -> named name ep0 = false -> named name ep = false ->
  getenv_loop (<[i := ep]> vars) name = getenv_loop vars name.
Proof.
  revert i. induction vars as [|e vars IH]; intros i Hi H0 H1; [done|].
  destruct i as [|i]; simplify_eq/=.
  - change (getenv_loop (ep :: vars) name = getenv_loop (ep0 :: vars) name).
    by rewrite !getenv_loop_cons, H0, H1.
  - change (getenv_loop (e :: <[i := ep]> vars) name = getenv_loop (e :: vars) name).
    rewrite !getenv_loop_cons. by rewrite (IH i).
Qed.

Lemma getenv_loop_none vars name :
  (forall j ep, vars !! j = Some ep -> named name ep = false) <-> getenv_loop vars name = None.
Proof.
  induction vars as [|e vars IH]; [done|]. rewrite getenv_loop_cons. split.
  - intros H. rewrite (H 0%nat e) by done. apply IH. intros j. apply (H (S j)).
  - destruct (named name e) eqn:E; [done|]. intros H. destruct j as [|j]; intros ep Hep; simplify_eq/=;
      [done|]. by apply (proj2 IH H j).
Qed.

Lemma env_scan_spec vars name i bp :
  match env_scan vars name i bp with
  | (Some k, _) => exists j ep, k = (i + j)%nat /\ vars !! j = Some ep /\ named name ep = true /\
      forall j' ep', (j' < j)%nat -> vars !! j' = Some ep' -> named name ep' = false
  | (None, r) => (forall j ep, vars !! j = Some ep -> named name ep = false) /\
      match bp with
      | Some b => r = Some b
      | None =>
          match r with
          | Some k => exists j ep, k = (i + j)%nat /\ vars !! j = Some ep /\ e_name ep = None
          | None => forall j ep, vars !! j = Some ep -> e_name ep <> None
          end
      end
  end.
Proof.
  revert i bp. induction vars as [|ep vars IH]; intros i bp; cbn [env_scan].
  { split; [done|]. by destruct bp. }
  destruct (e_name ep) as [n|] eqn:En.
  - assert (named name ep = striequ (Some name) (Some n)) as Hn by (unfold named; by rewrite En).
    destruct (striequ (Some name) (Some n)) eqn:E.
    + exists 0%nat, ep. rewrite Nat.add_0_r. split_and!; try done. lia.
    + specialize (IH (S i) bp). destruct (env_scan vars name (S i) bp) as [[k|] r].
      * destruct IH as (j & e & -> & H1 & H2 & H3). exists (S j), e.
        split_and!; [lia|done|done|]. intros [|j'] ep' Hj Hl; simplify_eq/=; [done|].
        apply (H3 j'); [lia|done].
      * destruct IH as [H1 H2]. split.
        { intros [|j] e He; simplify_eq/=; [done|]. by apply (H1 j). }
        destruct bp; [done|]. destruct r as [k|].
        { destruct H2 as (j & e & -> & ? & ?). exists (S j), e. split; [lia|done]. }
        intros [|j] e He; simplify_eq/=; [congruence|]. by apply (H2 j).
  - assert (named name ep = false) as Hn by (unfold named; by rewrite En).
    specialize (IH (S i) (match bp with Some _ => bp | None => Some i end)).
    destruct (env_scan vars name (S i) _) as [[k|] r].
    * destruct IH as (j & e & -> & H1 & H2 & H3). exists (S j), e.
      split_and!; [lia|done|done|]. intros [|j'] ep' Hj Hl; simplify_eq/=; [done|].
      apply (H3 j'); [lia|done].
    * destruct IH as [H1 H2]. split.
      { intros [|j] e He; simplify_eq/=; [done|]. by apply (H1 j). }
      destruct bp; [done|]. rewrite H2. exists 0%nat, ep. by rewrite Nat.add_0_r.
Qed.

(** ** The invariant of the slots *)

Record env_ok (s : env) : Prop := {
  env_len : length (envvar s) = NVAR;
  env_free : forall i ep, envvar s !! i = Some ep -> e_name ep = None -> e_value ep = None;
  env_nodup : forall i j ep1 ep2 n, envvar s !! i = Some ep1 -> envvar s !! j = Some ep2 ->
    named n ep1 = true -> named n ep2 = true -> i = j
}.

Lemma setenv_check_vars name value s b s' :
  setenv_check name value s = (b, s') -> envvar s' = envvar s /\ envinited s' = envinited s.
Proof.
  unfold setenv_check. destruct (getstdenv name) as [sp|]; [|by intros [= <- <-]].
  destruct (match sv_chgfunc sp with Some f => run_chg f value s | None => (true, s) end)
    as [ok s1] eqn:E.
  assert (envvar s1 = envvar s /\ envinited s1 = envinited s) as [Hv Hi].
  { destruct (sv_chgfunc sp) as [f|]; [|by simplify_eq]. unfold run_chg in E.
    destruct (match f with Chg_moresz => _ | Chg_validpc => _ | Chg_heaptop => _ end) as [[ev b0] t].
    by simplify_eq. }
  rewrite <- Hv, <- Hi. destruct ok; cbn [negb]; [|by intros [= <- <-]].
  destruct (sv_values sp); [|by intros [= <- <-]].
  destruct (envinited s1 && (_matchval sp value <? 0)); by intros [= <- <-].
Qed.

(** Replacing a slot whose name is free or matches [name] by one that is free
    or matches [name] keeps the invariant, if no other slot has that name. *)
Lemma env_ok_set_slot s i ep0 ep name :
  env_ok s -> envvar s !! i = Some ep0 ->
  (forall j ep', j <> i -> envvar s !! j = Some ep' -> named name ep' = false) ->
  (e_name ep = None -> e_value ep = None) ->
  (forall n, e_name ep = Some n -> striequ (Some name) (Some n) = true) ->
  env_ok (set_slot i ep s).
Proof.
  intros [Hl Hf Hnd] Hi Ho He Hn. pose proof (lookup_lt_Some _ _ _ Hi) as Hlt.
  split; cbn.
  - by rewrite length_insert.
  - intros j e. destruct (decide (i = j)) as [<-|Hne].
    + rewrite list_lookup_insert_eq by done. intros [= <-]. done.
    + rewrite list_lookup_insert_ne by done. apply Hf.
  - assert (forall n, named n ep = true -> striequ (Some name) (Some n) = true) as Hsame.
    { intros n (m & Hm & Em)%named_true. apply Hn in Hm. rewrite striequ_spec in *. congruence. }
    assert (forall j e n, j <> i -> envvar s !! j = Some e -> named n ep = true ->
      named n e = true -> False) as Hx.
    { intros j e n Hj He' H1 H2. apply Hsame in H1. rewrite <- (named_striequ name n e H1) in H2.
      rewrite (Ho j e) in H2 by done. done. }
    intros j k e1 e2 n H1 H2 N1 N2.
    destruct (decide (i = j)) as [<-|Hj], (decide (i = k)) as [<-|Hk]; [done| | |].
    + rewrite list_lookup_insert_eq in H1 by done. simplify_eq.
      rewrite list_lookup_insert_ne in H2 by done. exfalso. by apply (Hx k e2 n).
    + rewrite list_lookup_insert_eq in H2 by done. simplify_eq.
      rewrite list_lookup_insert_ne in H1 by done. exfalso. by apply (Hx j e1 n).
    + rewrite list_lookup_insert_ne in H1 by done. rewrite list_lookup_insert_ne in H2 by done.
      by apply (Hnd j k e1 e2 n).
Qed.

Lemma set_slot_twice i ep1 ep2 s : set_slot i ep2 (set_slot i ep1 s) = set_slot i ep2 s.
Proof. unfold set_slot, set_vars. cbn. by rewrite list_insert_insert_eq. Qed.

Lemma store_value_spec i n value s b s' :
  store_value i n value s = (b, s') ->
  envinited s' = envinited s /\
  match b, value with
  | true, Some v => envvar s' = <[i := mkPair (Some n) (Some v)]> (envvar s)
  | true, None => envvar s' = envvar s
  | false, _ => envvar s' = <[i := mkPair None None]> (envvar s) /\ value <> None /\
      exists w, malloc (strlen value + 1) w = (false, world s')
  end.
Proof.
  unfold store_value. destruct value as [v|]; [|by intros [= <- <-]].
  destruct (malloc _ _) as [[|] w] eqn:E; intros [= <- <-]; [done|]. split; [done|]. split; [done|]. split; [done|]. by eexists.
Qed.

Lemma env_ok_vars s s' : envvar s' = envvar s -> env_ok s -> env_ok s'.
Proof. intros E [H1 H2 H3]. split; rewrite E; done. Qed.

(** The state in which slot [i], the one slot for [name], holds [ep]. *)
Lemma slot_update s s' i ep0 ep name :
  env_ok s -> envvar s !! i = Some ep0 -> named name ep0 = true \/ e_name ep0 = None ->
  (forall j ep', j <> i -> envvar s !! j = Some ep' -> named name ep' = false) ->
  envvar s' = <[i := ep]> (envvar s) ->
  ep = mkPair None None \/ named name ep = true ->
  env_ok s' /\
  forall name', _getenv name' s' =
    if striequ (Some name') (Some name)
    then if named name ep then Some (default [] (e_value ep)) else None
    else _getenv name' s.
Proof.
  intros Hok Hi H0 Ho Hs' Hep. pose proof (lookup_lt_Some _ _ _ Hi) as Hlt. split.
  - apply (env_ok_vars (set_slot i ep s)); [done|].
    apply (env_ok_set_slot s i ep0 ep name); try done.
    + intros E. destruct Hep as [->|Hep]; [done|]. unfold named in Hep. by rewrite E in Hep.
    + intros n E. destruct Hep as [->|Hep]; [done|]. unfold named in Hep. by rewrite E in Hep.
  - intros name'. unfold _getenv. rewrite Hs'.
    destruct (striequ (Some name') (Some name)) eqn:E.
    + rewrite (getenv_loop_striequ _ name' name E).
      destruct (named name ep) eqn:En.
      * apply getenv_loop_hit; [done|done|]. intros j ep' Hj. apply Ho. lia.
      * apply getenv_loop_none. intros j ep' Hj. destruct (decide (i = j)) as [<-|Hne].
        { rewrite list_lookup_insert_eq in Hj by done. by simplify_eq. }
        rewrite list_lookup_insert_ne in Hj by done. by apply (Ho j).
    + assert (forall e, named name e = true -> named name' e = false) as Hx.
      { intros e (n & Hn & En)%named_true. apply not_true_iff_false.
        intros (m & Hm & Em)%named_true. apply not_true_iff_false in E. apply E.
        apply striequ_spec. congruence. }
      apply (getenv_loop_miss _ _ ep0); [done| |].
      * destruct H0 as [H0|H0]; [by apply Hx|]. unfold named. by rewrite H0.
      * destruct Hep as [->|Hep]; [done|by apply Hx].
Qed.

(** What a call of [_setenv] that returned [b] did to the lookups. When it was
    refused they are as before, unless the checks had been passed and it was the
    memory for the new value that there was none of: then the name is gone. *)
Definition setenv_effect (name : cstr) (value : cptr) (s : env) (b : bool) (s' : env) : Prop :=
  if b then
    forall name', _getenv name' s' =
      if striequ (Some name') (Some name) then Some (default [] value) else _getenv name' s
  else
    (forall name', _getenv name' s' = _getenv name' s) \/
    ((setenv_check name value s).1 = true /\ value <> None /\
     (exists w, malloc (strlen value + 1) w = (false, world s')) /\
     forall name', _getenv name' s' = if striequ (Some name') (Some name) then None else _getenv name' s).

Lemma _setenv_spec name value s b s' :
  env_ok s -> _setenv name value s = (b, s') ->
  env_ok s' /\ envinited s' = envinited s /\ setenv_effect name value s b s'.
Proof.
  intros Hok. unfold _setenv. destruct (setenv_check name value s) as [ok s1] eqn:Ec.
  pose proof Ec as Ec0. apply setenv_check_vars in Ec as [Hv Hin].
  assert (forall s2, envvar s2 = envvar s1 -> envinited s2 = envinited s1 ->
    env_ok s2 /\ envinited s2 = envinited s /\ setenv_effect name value s false s2) as Hsame.
  { intros s2 H2 Hi2. split; [apply (env_ok_vars s); congruence|]. split; [congruence|].
    left. intros name'. unfold _getenv. by rewrite H2, Hv. }
  destruct ok; cbn [negb]; [|intros [= <- <-]; by apply Hsame].
  pose proof (env_ok_vars s s1 Hv Hok) as Hok1.
  assert (forall i n ep0 s2, envvar s1 !! i = Some ep0 ->
    named name ep0 = true \/ e_name ep0 = None ->
    (forall j ep', j <> i -> envvar s1 !! j = Some ep' -> named name ep' = false) ->
    striequ (Some name) (Some n) = true ->
    envvar s2 = <[i := mkPair (Some n) None]> (envvar s1) -> envinited s2 = envinited s1 ->
    forall b s3, store_value i n value s2 = (b, s3) ->
    env_ok s3 /\ envinited s3 = envinited s /\ setenv_effect name value s b s3) as Hstore.
  { intros i n ep0 s2 Hi H0 Ho Hn Hv2 Hin2 b0 s3 Hst. apply store_value_spec in Hst as [Hin3 Hv3].
    assert (envvar s3 = <[i := if b0 then mkPair (Some n) value else mkPair None None]>
      (envvar s1)) as Hv3'.
    { rewrite Hv2 in Hv3. destruct b0, value; rewrite ?list_insert_insert_eq in Hv3; try done; apply Hv3. }
    destruct (slot_update s1 s3 i ep0 _ name Hok1 Hi H0 Ho Hv3') as [Hok3 Hget].
    { destruct b0; [by right|by left]. }
    split; [done|]. split; [congruence|].
    destruct b0.
    - intros name'. rewrite Hget. unfold _getenv. rewrite Hv. assert (named name (mkPair (Some n) value) = true) as -> by done. done.
    - right. destruct Hv3 as (_ & Hval & Hm). split; [by rewrite Ec0|]. split; [done|]. split; [done|].
      intros name'. rewrite Hget. unfold _getenv. by rewrite Hv. }
  pose proof (env_scan_spec (envvar s1) name 0 None) as Hscan.
  destruct (env_scan (envvar s1) name 0 None) as [[i|] r].
  - destruct Hscan as (j & ep & -> & Hj & Hn & _). cbn [Nat.add].
    rewrite Hj. cbn [mbind option_bind].
    pose proof (proj1 (named_true name ep) Hn) as (n & En & Eu). rewrite En. cbn [default].
    unfold id. apply (Hstore j n ep); try done; [by left| |by apply striequ_spec].
    intros k e Hk He. apply not_true_iff_false. intros Hne.
    apply Hk. by apply (env_nodup s1 Hok1 k j e ep name).
  - destruct Hscan as [Hno Hfree]. destruct r as [i|]; [|intros [= <- <-]; by apply Hsame].
    destruct Hfree as (j & ep & -> & Hj & Hn). cbn [Nat.add].
    destruct (malloc _ _) as [[|] w]; [|intros [= <- <-]; by apply Hsame].
    apply (Hstore j name ep); cbn; try done; [by right|by eauto|apply striequ_refl|].
    rewrite Hj. cbn. by rewrite (env_free s1 Hok1 j ep Hj Hn).
Qed.

(** ** Free slots *)

Fixpoint used (vars : list envpair) : nat :=
  match vars with
  | [] => 0
  | ep :: vars' => match e_name ep with Some _ => S (used vars') | None => used vars' end
  end.

Lemma used_insert i ep vars : (used (<[i := ep]> vars) <= S (used vars))%nat.
Proof.
  revert i. induction vars as [|e vars IH]; intros i; [destruct i; cbn; lia|].
  destruct i as [|i].
  - cbn. destruct (e_name ep), (e_name e); lia.
  - change (<[S i := ep]> (e :: vars)) with (e :: <[i := ep]> vars). cbn [used].
    specialize (IH i). destruct (e_name e); lia.
Qed.

Lemma used_full vars :
  (forall j ep, vars !! j = Some ep -> e_name ep <> None) -> used vars = length vars.
Proof.
  induction vars as [|e vars IH]; intros H; [done|]. cbn.
  specialize (IH (fun j => H (S j))). specialize (H 0%nat e eq_refl).
  destruct (e_name e); [lia|done].
Qed.

(** A new variable can be set while there is a free slot and memory. *)
Lemma _setenv_succeeds name v s s1 :
  (forall n w, (malloc n w).1 = true) ->
  env_ok s -> setenv_check name (Some v) s = (true, s1) -> (used (envvar s) < NVAR)%nat ->
  exists s', _setenv name (Some v) s = (true, s') /\ tun s' = tun s1 /\
    (used (envvar s') <= S (used (envvar s)))%nat.
Proof.
  intros Hm Hok Hc Hu. unfold _setenv. rewrite Hc. cbn [negb].
  destruct (setenv_check_vars _ _ _ _ _ Hc) as [Hv _].
  assert (forall i n v0 s2, exists s', store_value i n (Some v)
    (set_slot i (mkPair (Some n) v0) s2) = (true, s') /\ tun s' = tun s2 /\
    (used (envvar s') <= S (used (envvar s2)))%nat) as Hst.
  { intros i n v0 s2. unfold store_value. pose proof (Hm (strlen (Some v) + 1)
      (world (set_slot i (mkPair (Some n) v0) s2))) as Hmm.
    destruct (malloc _ _) as [ok w]. cbn in Hmm. subst ok.
    eexists. split; [reflexivity|]. split; [done|]. cbn. rewrite list_insert_insert_eq.
    apply used_insert. }
  pose proof (env_scan_spec (envvar s1) name 0 None) as Hscan.
  destruct (env_scan (envvar s1) name 0 None) as [[i|] r].
  - rewrite <- Hv. apply Hst.
  - destruct Hscan as [_ Hfree]. destruct r as [i|].
    + pose proof (Hm (strlen (Some name) + 1) (world s1)) as Hmm.
      destruct (malloc _ _) as [ok w]. cbn in Hmm. subst ok.
      rewrite <- Hv. apply (Hst i name _ (set_world w s1)).
    + pose proof (used_full _ Hfree) as Hfull. rewrite Hv in Hfull.
      rewrite (env_len s Hok) in Hfull. lia.
Qed.

(** ** The defaults *)

(** The default of every standard variable passes its own checks. *)
Definition heap_below_client (t : tunables) : Prop :=
  _pmon_in_ram t = false /\ K0_TO_PHYS (allocp1 t) <= K0_TO_PHYS CLIENTPC.

Lemma default_passes sp s :
  sp ∈ stdenvtab -> envinited s = false -> heap_below_client (tun s) ->
  exists s1, setenv_check (sv_name sp) (Some (sv_init sp)) s = (true, s1) /\
    heap_below_client (tun s1).
Proof.
  intros Hin Hinit [Hr Hh].
  assert (getstdenv (sv_name sp) = Some sp) as Hg.
  { assert (Forall (fun sp => getstdenv (sv_name sp) = Some sp) stdenvtab) as HF
      by (repeat constructor).
    by apply (Forall_elem _ _ _ HF). }
  unfold setenv_check. rewrite Hg.
  assert (exists s1, match sv_chgfunc sp with
    | Some f => run_chg f (Some (sv_init sp)) s | None => (true, s) end = (true, s1) /\
    envinited s1 = false /\ heap_below_client (tun s1)) as (s1 & -> & Hi1 & Hh1).
  { assert (sv_chgfunc sp = None \/
      sp = mkStd (str "moresz") (str "10") None (Some Chg_moresz) \/
      sp = mkStd (str "validpc") (str "_ftext etext") None (Some Chg_validpc) \/
      sp = mkStd (str "heaptop") (str "0x80020000") None (Some Chg_heaptop)) as Hsp.
    { revert Hin. unfold stdenvtab. clear. rewrite !elem_of_cons, elem_of_nil. naive_solver. }
    destruct Hsp as [-> | [-> | [-> | ->]]]; [by exists s|..]; cbn [sv_chgfunc sv_init];
      unfold run_chg.
    - eexists. split; [reflexivity|]. done.
    - eexists. split; [reflexivity|]. done.
    - unfold chg_heaptop. change (atob (strcpy (Some (str "0x80020000"))) 16) with (Some CLIENTPC).
      cbv iota beta. rewrite Hr. destruct (Z.ltb_spec (K0_TO_PHYS CLIENTPC) (K0_TO_PHYS (allocp1 (tun s)))); [lia|].
      eexists. split; [reflexivity|]. done. }
  cbn [negb]. rewrite Hi1. destruct (sv_values sp); by eauto.
Qed.

(** The state of [envinit] after the defaults of [done] were considered. *)
Record defaults_done (done : list stdenv) (s : env) : Prop := {
  dd_ok : env_ok s;
  dd_init : envinited s = false;
  dd_heap : heap_below_client (tun s);
  dd_used : (used (envvar s) <= length done)%nat;
  dd_set : forall sp, sp ∈ done -> _getenv (sv_name sp) s = Some (sv_init sp);
  dd_only : forall name, _getenv name s <> None ->
    exists sp, sp ∈ done /\ striequ (Some name) (Some (sv_name sp)) = true
}.

Lemma env_default_step done sp s :
  (forall n w, (malloc n w).1 = true) ->
  defaults_done done s -> sp ∈ stdenvtab -> (length done < NVAR)%nat ->
  Forall (fun sp' => striequ (Some (sv_name sp')) (Some (sv_name sp)) = false) done ->
  defaults_done (done ++ [sp]) (env_default s sp).
Proof.
  intros Hm [Hok Hin Hh Hu Hs Honly] Hsp Hlen Hd.
  assert (_getenv (sv_name sp) s = None) as Hnone.
  { destruct (_getenv (sv_name sp) s) eqn:E; [|done].
    destruct (Honly (sv_name sp)) as (sp' & Hin' & Hs'); [congruence|].
    pose proof (Forall_elem _ _ _ Hd Hin') as Hf. cbn beta in Hf.
    rewrite striequ_sym in Hs'. congruence. }
  unfold env_default. rewrite Hnone.
  destruct (default_passes sp s Hsp Hin Hh) as (s1 & Hc & Hh1).
  destruct (_setenv_succeeds _ _ s s1 Hm Hok Hc) as (s' & Hset & Ht & Hu'); [lia|].
  destruct (_setenv_spec _ _ _ _ _ Hok Hset) as (Hok' & Hin' & Hget). rewrite Hset. cbn [snd].
  split; [done|congruence|by rewrite Ht|rewrite length_app; cbn; lia| |].
  - intros sp' [Hin''|Hin'']%elem_of_app; rewrite Hget.
    + pose proof (Forall_elem _ _ _ Hd Hin'') as Hf. cbn beta in Hf. rewrite Hf. by apply Hs.
    + apply list_elem_of_singleton in Hin'' as ->. by rewrite striequ_refl.
  - intros name. rewrite Hget. destruct (striequ (Some name) (Some (sv_name sp))) eqn:E.
    + intros _. exists sp. split; [|done]. apply elem_of_app. right. by apply list_elem_of_singleton.
    + intros Hne. destruct (Honly name Hne) as (sp' & ? & ?). exists sp'. split; [|done].
      apply elem_of_app. by left.
Qed.

Lemma defaults_fold done rest s :
  (forall n w, (malloc n w).1 = true) -> done ++ rest = stdenvtab ->
  defaults_done done s -> defaults_done stdenvtab (fold_left env_default rest s).
Proof.
  intros Hm. revert done s. induction rest as [|sp rest IH]; intros done s E Hd.
  - rewrite app_nil_r in E. by subst.
  - cbn [fold_left]. apply (IH (done ++ [sp])); [by rewrite <- app_assoc|].
    apply env_default_step; [done|done| | |].
    + rewrite <- E. apply elem_of_app. right. apply list_elem_of_here.
    + assert (length (done ++ sp :: rest) = 21)%nat as Hl by (by rewrite E).
      rewrite length_app in Hl. cbn in Hl. unfold NVAR. lia.
    + assert (ForallOrdPairs (fun a b => striequ (Some (sv_name a)) (Some (sv_name b)) = false)
        stdenvtab) as Hop by (repeat constructor).
      rewrite <- E in Hop. clear -Hop. induction done as [|d done IH]; [constructor|].
      inversion Hop as [|? ? Hf Hr]; subst. constructor; [|by apply IH].
      apply List.Forall_forall with (x := sp) in Hf; [done|]. apply List.in_or_app. right. by left.
Qed.

(** On a fresh board (nothing in the non-volatile store, memory available,
    the heap below the client area), [envinit] gives every standard variable
    its default value, and [getenv] answers it whatever the case of the name. *)
Theorem envinit_defaults (s : env) (sp : stdenv) (name : cstr)
  (Hm : forall n w, (malloc n w).1 = true) (Hnv : sbd_vars (world s) = [])
  (Hh : heap_below_client (tun s)) (Hsp : sp ∈ stdenvtab)
  (Hn : striequ (Some name) (Some (sv_name sp)) = true) :
  env_ok (envinit no_boardenv s) /\ getenv name (envinit no_boardenv s) = Some (sv_init sp).
Proof.
  unfold envinit, no_boardenv. cbn [world]. rewrite Hnv. cbn [fold_left].
  set (s0 := mkEnv false (replicate NVAR (mkPair None None)) (tun s) (world s) (out s)).
  assert (forall j ep, envvar s0 !! j = Some ep -> ep = mkPair None None) as Hrep.
  { intros j ep Hj. by apply lookup_replicate in Hj as [-> _]. }
  assert (defaults_done [] s0) as H0.
  { split; [split; [done| |]|done|done|apply le_0_n| |].
    - intros i ep Hi. by rewrite (Hrep i ep Hi).
    - intros i j e1 e2 n H1 _ N1 _. by rewrite (Hrep i e1 H1) in N1.
    - by intros ? ?%elem_of_nil.
    - intros n Hne. destruct Hne. apply getenv_loop_none. intros j ep Hj.
      by rewrite (Hrep j ep Hj). }
  pose proof (defaults_fold [] stdenvtab s0 Hm (app_nil_l stdenvtab) H0) as Hd. clearbody s0.
  revert Hd. generalize (fold_left env_default stdenvtab s0). intros s1 [Hok _ _ _ Hset _].
  split; [by apply (env_ok_vars s1)|].
  unfold getenv. cbn [envinited]. unfold _getenv at 1. cbn [envvar].
  rewrite (getenv_loop_striequ _ _ _ Hn). by apply Hset.
Qed.

(** C34. The slots are a map from names, up to case, to values. A successful
    [_setenv] makes [_getenv] answer the new value for every spelling of the
    name and leaves all other names as they were. A refused one leaves every name
    as it was, but for one case: when the checks are passed and there is no memory
    for the new value, the variable is gone (and all others are as they were). The
    invariant of the slots (64 slots, free slots empty, names distinct up to case)
    is kept. *)
Theorem setenv_getenv (name : cstr) (value : cptr) (s : env) (Hok : env_ok s) :
  let r := _setenv name value s in
  env_ok r.2 /\ setenv_effect name value s r.1 r.2.
Proof.
  destruct (_setenv name value s) as [b s'] eqn:E.
  destruct (_setenv_spec _ _ _ _ _ Hok E) as (H1 & _ & H2). done.
Qed.

(** ** Removing variables *)

(** What [unsetenv] makes of one slot: a standard variable goes back to its
    default, another one disappears. *)
Definition unset_slot (pat : cstr) (ep : envpair) : envpair :=
  match e_name ep with
  | None => ep
  | Some n =>
      if strpat (Some n) (Some pat) then
        match getstdenv n with
        | Some sp => mkPair (Some n) (Some (sv_init sp))
        | None => mkPair None None
        end
      else ep
  end.

Lemma getstdenv_name n sp :
  getstdenv n = Some sp -> striequ (Some n) (Some (sv_name sp)) = true.
Proof.
  unfold getstdenv. generalize stdenvtab. intros tab.
  induction tab as [|sp' tab IH]; [done|]. cbn [getstdenv_loop].
  destruct (striequ (Some n) (Some (sv_name sp'))) eqn:E; [|done]. by intros [= ->].
Qed.

Lemma unset_std_slot s i n v sp s' :
  env_ok s -> envvar s !! i = Some (mkPair (Some n) v) -> getstdenv n = Some sp ->
  setenv (sv_name sp) (Some (sv_init sp)) s = (true, s') ->
  env_ok s' /\ envvar s' = <[i := mkPair (Some n) (Some (sv_init sp))]> (envvar s).
Proof.
  intros Hok Hi Hg. unfold setenv.
  destruct (_setenv (sv_name sp) (Some (sv_init sp)) s) as [b s1] eqn:E.
  destruct b; [|done].
  destruct (_setenv_spec _ _ _ _ _ Hok E) as (Hok1 & _ & _).
  match goal with |- context [let '(r, w) := ?e in _] => destruct e as [r w] end.
  intros [= -> <-]. split; [by apply (env_ok_vars s1)|]. cbn. revert E. unfold _setenv.
  destruct (setenv_check _ _ s) as [ok s2] eqn:Ec. apply setenv_check_vars in Ec as [Hv _].
  destruct ok; cbn [negb]; [|done].
  apply getstdenv_name in Hg. rewrite striequ_sym in Hg.
  pose proof (env_scan_spec (envvar s2) (sv_name sp) 0 None) as Hscan.
  destruct (env_scan (envvar s2) (sv_name sp) 0 None) as [[k|] fr].
  - destruct Hscan as (j & ep & -> & Hj & Hn & _). rewrite Hv in *. cbn [Nat.add].
    assert (j = i) as -> by (by apply (env_nodup s Hok j i _ _ (sv_name sp) Hj Hi)).
    rewrite Hi. cbn [mbind option_bind e_name default]. intros Hst.
    apply store_value_spec in Hst as [_ Hst]. cbn in Hst. by rewrite Hst, Hv, list_insert_insert_eq.
  - destruct Hscan as [Hno _]. rewrite Hv in Hno. specialize (Hno i _ Hi).
    cbn [named e_name] in Hno. congruence.
Qed.

Lemma unsetenv_loop_spec k i pat ndone s s' :
  env_ok s -> unsetenv_loop k i pat ndone s = (true, s') ->
  env_ok s' /\ forall j, envvar s' !! j =
    if (Nat.leb i j && Nat.ltb j (i + k))%nat then unset_slot pat <$> (envvar s !! j)
    else envvar s !! j.
Proof.
  revert i ndone s. induction k as [|k IH]; intros i ndone s Hok; cbn [unsetenv_loop].
  { intros [= _ <-]. split; [done|]. intros j.
    destruct (Nat.leb_spec i j), (Nat.ltb_spec j (i + 0)); cbn; try done. lia. }
  assert (forall s1 nd, env_ok s1 ->
    (forall j, envvar s1 !! j = if Nat.eqb j i then unset_slot pat <$> (envvar s !! j)
                                else envvar s !! j) ->
    unsetenv_loop k (S i) pat nd s1 = (true, s') ->
    env_ok s' /\ forall j, envvar s' !! j =
      if (Nat.leb i j && Nat.ltb j (i + S k))%nat then unset_slot pat <$> (envvar s !! j)
      else envvar s !! j) as Hnext.
  { intros s1 nd Hok1 Hs1 Hrun. destruct (IH _ _ _ Hok1 Hrun) as [H1 H2]. split; [done|].
    intros j. rewrite H2, Hs1. destruct (Nat.leb_spec (S i) j), (Nat.leb_spec i j),
      (Nat.ltb_spec j (S i + k)), (Nat.ltb_spec j (i + S k)), (Nat.eqb_spec j i);
      cbn [andb]; try done; lia. }
  destruct (envvar s !! i) as [[nm v]|] eqn:Ei; cbn [mbind option_bind e_name].
  2: { apply Hnext; [done|]. intros j. destruct (Nat.eqb_spec j i) as [->|]; [by rewrite Ei|done]. }
  destruct nm as [n|].
  2: { apply Hnext; [done|]. intros j. destruct (Nat.eqb_spec j i) as [->|]; [by rewrite Ei|done]. }
  pose proof (lookup_lt_Some _ _ _ Ei) as Hlt.
  assert (forall ep s1, envvar s1 = <[i := ep]> (envvar s) ->
    unset_slot pat (mkPair (Some n) v) = ep -> forall j, envvar s1 !! j =
      if Nat.eqb j i then unset_slot pat <$> (envvar s !! j) else envvar s !! j) as Hins.
  { intros ep s1 -> <- j. destruct (Nat.eqb_spec j i) as [->|].
    - rewrite list_lookup_insert_eq by done. by rewrite Ei.
    - by rewrite list_lookup_insert_ne by done. }
  unfold unset_slot in Hins. cbn [e_name] in Hins.
  destruct (strpat (Some n) (Some pat)) eqn:Ep.
  2: { apply Hnext; [done|]. eapply Hins; [|reflexivity]. by rewrite list_insert_id. }
  destruct (getstdenv n) as [sp|] eqn:Eg.
  - destruct (setenv _ _ s) as [ok s1] eqn:Es. destruct ok; [|done].
    destruct (unset_std_slot s i n v sp s1 Hok Ei Eg Es) as [Hok1 Hv1].
    apply Hnext; [done|]. by eapply Hins.
  - destruct (sbd_unsetenv n (world s)) as [r w]. apply Hnext; [|by eapply Hins].
    apply (env_ok_set_slot _ i (mkPair (Some n) v) _ n);
      [by apply (env_ok_vars s)|done| |done|done].
    intros j ep' Hj Hl. apply not_true_iff_false. intros Hn. apply Hj.
    apply (env_nodup s Hok j i ep' (mkPair (Some n) v) n); try done.
    unfold named. cbn [e_name]. apply striequ_refl.
Qed.

#[local] Strategy expand [unsetenv].

Lemma unsetenv_loop_all nvar pat s s' :
  env_ok s -> length (envvar s) = nvar -> unsetenv_loop nvar 0 pat 0 s = (true, s') ->
  env_ok s' /\ envvar s' = unset_slot pat <$> envvar s.
Proof.
  intros Hok Hl Hrun. destruct (unsetenv_loop_spec _ _ _ _ _ _ Hok Hrun) as [H1 H2].
  split; [done|]. apply list_eq. intros j. rewrite H2, list_lookup_fmap. cbn [Nat.leb Nat.add].
  destruct (Nat.ltb_spec j nvar); [done|]. cbn [andb].
  rewrite lookup_ge_None_2; [done|]. lia.
Qed.

(** When [unsetenv pat] succeeds, every variable whose name matches the
    pattern has its default value again if it is a standard variable and is
    gone otherwise, and every other variable is as before. *)
Theorem unsetenv_effect (pat : cstr) (s s' : env) (Hok : env_ok s)
  (Hrun : unsetenv pat s = (true, s')) :
  env_ok s' /\ envvar s' = unset_slot pat <$> envvar s.
Proof. exact (unsetenv_loop_all NVAR pat s s' Hok (env_len s Hok) Hrun). Qed.

(** ** The client's environment *)

Lemma envsize_build vars ec slen ptrs bytes :
  ec = Z.of_nat (length ptrs) -> slen = Z.of_nat (length bytes) ->
  let r := fold_left envsize_step vars (ec, slen) in
  let b := fold_left envbuild_step vars (ptrs, bytes) in
  r.1 = Z.of_nat (length b.1) /\ r.2 = Z.of_nat (length b.2).
Proof.
  revert ec slen ptrs bytes. induction vars as [|ep vars IH]; intros ec slen ptrs bytes -> ->;
    [done|]. cbn [fold_left]. unfold envsize_step at 2 4, envbuild_step at 2 4.
  destruct (e_name ep) as [n|]; [|by apply IH].
  destruct (e_value ep) as [v|]; apply IH; cbn [fst snd];
    rewrite ?strlen_spec, !length_app; cbn [length strcpy]; lia.
Qed.

(** [envbuild] stores exactly as many pointers (and the closing null) and
    bytes as [envsize] computed: the buffers the callers size with it fit. *)
Theorem envbuild_fits (s : env) :
  let '(ec, slen) := envsize s in
  let '(vsp, ssp) := envbuild s in
  Z.of_nat (length vsp) = ec + 1 /\ Z.of_nat (length ssp) = slen /\
  forall p, Some p ∈ vsp -> 0 <= p < slen.
Proof.
  unfold envsize, envbuild.
  destruct (envsize_build (envvar s) 0 0 [] [] eq_refl eq_refl) as [H1 H2].
  destruct (fold_left envsize_step (envvar s) (0, 0)) as [ec slen].
  destruct (fold_left envbuild_step (envvar s) ([], [])) as [ptrs bytes] eqn:Eb.
  cbn in *. split; [rewrite length_app, length_fmap; cbn; lia|]. split; [lia|].
  intros p Hp. rewrite elem_of_app, list_elem_of_singleton in Hp. destruct Hp as [Hp|]; [|done].
  apply list_elem_of_fmap in Hp as (q & [= <-] & Hq). subst.
  assert (forall vars pt bt, Forall (fun p => 0 <= p < Z.of_nat (length bt)) pt ->
    Forall (fun p => 0 <= p < Z.of_nat (length (fold_left envbuild_step vars (pt, bt)).2))
      (fold_left envbuild_step vars (pt, bt)).1) as HF.
  { induction vars as [|ep vars IH]; intros pt bt HF; [done|]. cbn [fold_left].
    unfold envbuild_step at 2 4. destruct (e_name ep) as [n|]; [|by apply IH]. apply IH.
    cbn. rewrite !length_app. cbn. apply Forall_app. split.
    - eapply Forall_weaken; [exact HF|]. cbn. lia.
    - constructor; [lia|constructor]. }
  specialize (HF (envvar s) [] [] (Forall_nil _)). rewrite Eb in HF. cbn in HF.
  by apply (Forall_elem _ _ _ HF).
Qed.

(** ** Restricted variables *)

Fixpoint getwords (fuel : nat) (t : cptr) : list cstr :=
  match fuel with
  | O => []
  | S fuel' =>
      match getword t with
      | (_, None) => []
      | (wrd, Some t') => wrd :: getwords fuel' (Some t')
      end
  end.

Lemma matchval_loop_words fuel t value j :
  0 <= j ->
  (0 <= matchval_loop fuel t value j <->
   exists w, w ∈ getwords fuel t /\ striequ (Some w) value = true).
Proof.
  revert t j. induction fuel as [|f IH]; intros t j Hj; cbn [matchval_loop getwords].
  - split; [lia|]. intros (w & Hw & _). by apply elem_of_nil in Hw.
  - destruct (getword t) as [wrd [t'|]].
    + destruct (striequ (Some wrd) value) eqn:E.
      * split; [|done]. intros _. exists wrd. split; [apply list_elem_of_here|done].
      * rewrite IH by lia. split; intros (w & Hw & Ew); exists w; split; auto.
        { by apply list_elem_of_further. }
        apply elem_of_cons in Hw as [->|]; [congruence|done].
    + split; [lia|]. intros (w & Hw & _). by apply elem_of_nil in Hw.
Qed.

(** The words of every value list of the table, as [argvize] splits them. *)
Lemma table_words sp vals :
  sp ∈ stdenvtab -> sv_values sp = Some vals ->
  getwords (S (length vals)) (Some vals) = argvize vals.
Proof.
  assert (forallb (fun sp => match sv_values sp with
    | None => true
    | Some v => bool_decide (getwords (S (length v)) (Some v) = argvize v)
    end) stdenvtab = true) as H by (vm_compute; reflexivity).
  intros Hin Hv. rewrite forallb_forall in H. apply list_elem_of_In in Hin.
  specialize (H sp Hin). rewrite Hv in H. by apply bool_decide_eq_true in H.
Qed.

Lemma _matchval_words sp vals value :
  sp ∈ stdenvtab -> sv_values sp = Some vals ->
  (0 <= _matchval sp value <-> exists w, w ∈ argvize vals /\ striequ (Some w) value = true).
Proof.
  intros Hin Hv. unfold _matchval. rewrite Hv. cbn [strcpy].
  rewrite matchval_loop_words by lia. by rewrite (table_words sp vals).
Qed.

(** Once the environment is initialised, a standard variable that has a
    list of values takes no value outside its list: such a call is refused, a
    message is printed and no variable changes. *)
Theorem setenv_refuses (name : cstr) (value : cptr) (sp : stdenv) (vals : cstr) (s : env)
  (Hinit : envinited s = true) (Hg : getstdenv name = Some sp) (Hin : sp ∈ stdenvtab)
  (Hvals : sv_values sp = Some vals) (Hchg : sv_chgfunc sp = None)
  (Hno : forall w, w ∈ argvize vals -> striequ (Some w) value = false) :
  _setenv name value s =
    (false, emit [Printf "%s: bad %s value, try [%s]\n"
                   [AStr value; AStr (Some name); AStr (Some vals)]] s).
Proof.
  unfold _setenv, setenv_check. rewrite Hg, Hchg, Hvals, Hinit. cbn [negb andb].
  destruct (Z.ltb_spec (_matchval sp value) 0) as [Hlt|Hge]; [done|].
  apply (_matchval_words sp vals value Hin Hvals) in Hge as (w & Hw & E).
  rewrite (Hno w Hw) in E. done.
Qed.
End Env.

(** ** Witnesses: a board with memory and an empty store *)

Definition w_malloc (n : Z) (w : unit) : bool * unit := (true, w).
Definition w_setenv (n : cstr) (v : cptr) (w : unit) : bool * unit := (true, w).
Definition w_unsetenv (n : cstr) (w : unit) : bool * unit := (true, w).
Definition w_vars (w : unit) : list (cstr * cptr) := [].
Definition w_tun : tunables := mkTunables 10 0x80010000 0 false (-1).
Definition w_start : env := mkEnv false [] w_tun tt [].
Definition w_slots (l : list envpair) : list envpair :=
  l ++ replicate (NVAR - length l) (mkPair None None).
Definition w_one (n v : string) : env :=
  mkEnv true (w_slots [mkPair (Some (str n)) (Some (str v))]) w_tun tt [].

Lemma w_one_ok n v : env_ok (w_one n v).
Proof.
  split; [done| |].
  - intros [|i] ep; cbn.
    + by intros [= <-].
    + intros H. change ((replicate 63 (mkPair None None)) !! i = Some ep) in H.
      apply lookup_replicate in H as [-> _]. done.
  - assert (forall i ep m, envvar (w_one n v) !! S i = Some ep -> named m ep = false) as Hx.
    { intros i ep m H. change ((replicate 63 (mkPair None None)) !! i = Some ep) in H.
      apply lookup_replicate in H as [-> _]. done. }
    intros [|i] [|j] e1 e2 m H1 H2 N1 N2; [done|..].
    + by rewrite (Hx _ _ _ H2) in N2.
    + by rewrite (Hx _ _ _ H1) in N1.
    + by rewrite (Hx _ _ _ H1) in N1.
Qed.

Lemma envinit_defaults_witness :
  env_ok (envinit w_malloc w_vars no_boardenv w_start) /\
  getenv (str "MoreSz") (envinit w_malloc w_vars no_boardenv w_start) = Some (str "10").
Proof.
  apply (envinit_defaults w_malloc w_vars w_start
    (mkStd (str "moresz") (str "10") None (Some Chg_moresz)) (str "MoreSz"));
    [done|done|split; [done|vm_compute; congruence]| |reflexivity].
  unfold stdenvtab. repeat (apply list_elem_of_here || apply list_elem_of_further).
Defined.

Lemma setenv_getenv_witness :
  let r := _setenv w_malloc (str "USER") (Some (str "x")) (w_one "user" "y") in
  env_ok r.2 /\ setenv_effect w_malloc (str "USER") (Some (str "x")) (w_one "user" "y") r.1 r.2.
Proof. apply (setenv_getenv w_malloc). apply w_one_ok. Defined.

Lemma unsetenv_effect_witness :
  let s' := (unsetenv w_malloc w_setenv w_unsetenv (str "us*") (w_one "user" "y")).2 in
  env_ok s' /\ envvar s' = unset_slot (str "us*") <$> envvar (w_one "user" "y").
Proof.
  apply (unsetenv_effect w_malloc w_setenv w_unsetenv (str "us*") (w_one "user" "y"));
    [apply w_one_ok|vm_compute; reflexivity].
Defined.

Lemma setenv_refuses_witness :
  (_setenv w_malloc (str "inbase") (Some (str "12")) (w_one "inbase" "16")).1 = false.
Proof.
  rewrite (setenv_refuses w_malloc (str "inbase") (Some (str "12"))
    (mkStd (str "inbase") (str "16") (Some (str "auto 8 10 16")) None) (str "auto 8 10 16")).
  - reflexivity.
  - reflexivity.
  - vm_compute. reflexivity.
  - unfold stdenvtab. repeat (apply list_elem_of_here || apply list_elem_of_further).
  - reflexivity.
  - reflexivity.
  - assert (Forall (fun w => striequ (Some w) (Some (str "12")) = false)
      (argvize (str "auto 8 10 16"))) as HF by (vm_compute; repeat constructor).
    intros w Hw. by apply (Forall_elem _ _ _ HF).
Defined.
