(* ===== verification/Symtab.v ===== *)
(** * Symtab: the symbol table

    [src/pmon/sym.c]. A symbol is a cell of a heap; the 127 hash chains and the
    two sorted lists hold pointers to cells, so that a value changed in place
    is seen through every list. A chain is the list of its pointers, first
    symbol first. [malloc] gives a pointer the heap does not use, or nothing.
    [matchenv ("showsym")] is an argument of the lookups that consult it.

    Names are not empty: the comparison of two empty names, [strequ (name+1,
    sym->name+1)], reads past their terminators.

    The theorems: the table is a finite map from names to values; the sorted
    lists are sorted permutations of the symbols; and the search by value,
    binary or linear according to the memory available, finds the nearest
    symbol at or below an address. *)

From S2P Require Import Prelude CString Glob Numconv Format Qsort Tunables.

(** [src/pmon/sym.c:8-12] *)
Record Sym : Type := mkSym { s_value : Z; s_name : cstr }.

(** [src/pmon/sym.c:19] *)
Definition NHASH : Z := 127.

(** [src/pmon/sym.c:29-30] *)
Inductive sort_type : Type := ALPHA | NUMERIC.
#[export] Instance sort_type_eq_dec : EqDecision sort_type.
Proof. solve_decision. Defined.

Definition other (t : sort_type) : sort_type :=
  match t with ALPHA => NUMERIC | NUMERIC => ALPHA end.

(** The static variables of the file. [src/pmon/sym.c:20-34] *)
Record symtab : Type := mkTab
  { heap : gmap nat Sym; symhash : list (list nat);
    symsort_alpha : option (list nat); symsort_num : option (list nat);
    maxsymlen : Z; nsyms : Z }.

Definition symsort (st : symtab) (t : sort_type) : option (list nat) :=
  match t with ALPHA => symsort_alpha st | NUMERIC => symsort_num st end.

Definition set_sort (t : sort_type) (l : option (list nat)) (st : symtab) : symtab :=
  match t with
  | ALPHA => mkTab (heap st) (symhash st) l (symsort_num st) (maxsymlen st) (nsyms st)
  | NUMERIC => mkTab (heap st) (symhash st) (symsort_alpha st) l (maxsymlen st) (nsyms st)
  end.

Definition set_heap (h : gmap nat Sym) (st : symtab) : symtab :=
  mkTab h (symhash st) (symsort_alpha st) (symsort_num st) (maxsymlen st) (nsyms st).

(** [src/pmon/sym.c:46-52] *)
Definition hash_step (h c : Z) : Z :=
  let h := u32 (u32 (Z.shiftl h 4) + c) in
  if 0x0fffffff <? h
  then Z.land (Z.lxor h (Z.land (Z.shiftr h 24) 0xf0)) 0x0fffffff
  else h.

(** [src/pmon/sym.c:41-54] *)
Definition strhash (s : cstr) : Z := fold_left hash_step s 0.

(** The chain of a name. *)
Definition bucket (name : cstr) : nat := Z.to_nat (strhash name mod NHASH).

(** [src/pmon/sym.c:57-64] *)
Definition flushsort (t : sort_type) (st : symtab) : symtab := set_sort t None st.

Definition deref (h : gmap nat Sym) (p : nat) : Sym := default (mkSym 0 []) (h !! p).

(** [src/pmon/sym.c:67-71] *)
Definition namecmp (h : gmap nat Sym) (s1 s2 : nat) : Z :=
  strcmp (s_name (deref h s1)) (s_name (deref h s2)).

(** [src/pmon/sym.c:74-83] *)
Definition valcmp (h : gmap nat Sym) (s1 s2 : nat) : Z :=
  if s_value (deref h s1) <? s_value (deref h s2) then -1
  else if s_value (deref h s2) <? s_value (deref h s1) then 1
  else 0.

Definition sort_cmp (t : sort_type) : gmap nat Sym -> nat -> nat -> Z :=
  match t with ALPHA => namecmp | NUMERIC => valcmp end.

(** [room] tells whether [malloc] found memory for the list.
    [src/pmon/sym.c:86-114] *)
Definition getsort (t : sort_type) (room : bool) (st : symtab) : option (list nat) * symtab :=
  if nsyms st =? 0 then (None, st)
  else
    match symsort st t with
    | Some syms => (Some syms, st)
    | None =>
        let '(syms, st) :=
          if room then (Some (concat (symhash st)), st)
          else
            match symsort st (other t) with
            | Some syms => (Some syms, set_sort (other t) None st)
            | None => (None, st)
            end in
        match syms with
        | None => (None, st)
        | Some syms =>
            let syms := qsort (sort_cmp t (heap st)) syms in
            (syms, set_sort t syms st)
        end
    end.

(** [name[0] == sym->name[0] && strequ (name+1, sym->name+1)] *)
Definition same_name (n m : cstr) : bool :=
  (at_ n 0 =? at_ m 0) && strequ (Some (drop 1 n)) (Some (drop 1 m)).

Fixpoint chain_find (h : gmap nat Sym) (chain : list nat) (name : cstr) : option nat :=
  match chain with
  | [] => None
  | p :: chain' => if same_name name (s_name (deref h p)) then Some p else chain_find h chain' name
  end.

Definition chain_of (st : symtab) (name : cstr) : list nat :=
  default [] (symhash st !! bucket name).

(** [src/pmon/sym.c:120-135] *)
Definition getsymbyname (name : cstr) (st : symtab) : option nat :=
  if nsyms st =? 0 then None else chain_find (heap st) (chain_of st name) name.

(** The long way. [src/pmon/sym.c:154-162] *)
Fixpoint linear_search (h : gmap nat Sym) (ps : list nat) (addr : Z) (best : option nat)
  : option nat :=
  match ps with
  | [] => best
  | p :: ps' =>
      let v := s_value (deref h p) in
      if v =? addr then Some p
      else
        let better :=
          match best with None => true | Some b => s_value (deref h b) <? v end in
        linear_search h ps' addr (if (v <? addr) && better then Some p else best)
  end.

Definition val_at (h : gmap nat Sym) (syms : list nat) (i : nat) : Z :=
  s_value (deref h (default 0%nat (syms !! i))).

(** The interval shrinks at every round, so its length is enough fuel.
    [src/pmon/sym.c:179-190] *)
Fixpoint bsearch (fuel : nat) (h : gmap nat Sym) (syms : list nat) (addr : Z) (lo hi : nat)
  : option nat :=
  match fuel with
  | O => None
  | S f =>
      if addr <? val_at h syms hi then
        let mid := Nat.div2 (lo + hi) in
        if Nat.eqb lo mid || (addr <=? val_at h syms mid)
        then bsearch f h syms addr lo mid
        else bsearch f h syms addr mid hi
      else syms !! hi
  end.

(** [src/pmon/sym.c:141-191] *)
Definition getsymbyvalue (addr : Z) (room : bool) (st : symtab) : option nat * symtab :=
  if nsyms st =? 0 then (None, st)
  else
    let '(syms, st) := getsort NUMERIC room st in
    match syms with
    | None => (linear_search (heap st) (concat (symhash st)) addr None, st)
    | Some syms =>
        if addr <? val_at (heap st) syms 0 then (None, st)
        else
          (bsearch (S (Z.to_nat (nsyms st))) (heap st) syms addr 0
             (Z.to_nat (nsyms st - 1)), st)
    end.

(** [mem] is the cell [malloc] found. [src/pmon/sym.c:194-231] *)
Definition newsym (name : cstr) (value : Z) (mem : option nat) (st : symtab) : bool * symtab :=
  match chain_find (heap st) (chain_of st name) name with
  | Some p =>
      if s_value (deref (heap st) p) =? value then (true, st)
      else
        (true, flushsort NUMERIC
                 (set_heap (<[p := mkSym value (s_name (deref (heap st) p))]> (heap st)) st))
  | None =>
      let st := flushsort NUMERIC (flushsort ALPHA st) in
      let len := strlen (Some name) in
      match mem with
      | None => (false, st)
      | Some p =>
          (true,
           {| heap := <[p := mkSym value name]> (heap st);
              symhash := <[bucket name := p :: chain_of st name]> (symhash st);
              symsort_alpha := symsort_alpha st; symsort_num := symsort_num st;
              maxsymlen := if maxsymlen st <? len then len else maxsymlen st;
              nsyms := nsyms st + 1 |})
      end
  end.

(** [src/pmon/sym.c:235-253] *)
Definition clrsyms (st : symtab) (t : tunables) : symtab * tunables :=
  ({| heap := ∅; symhash := replicate (Z.to_nat NHASH) [];
      symsort_alpha := None; symsort_num := None; maxsymlen := 0; nsyms := 0 |},
   flush_validpc t).

(** [src/pmon/sym.c:257-270] *)
Definition sym2adr (name : cstr) (st : symtab) : Z * bool :=
  match getsymbyname name st with
  | Some p => (s_value (deref (heap st) p), true)
  | None => (0, false)
  end.

(** [src/pmon/sym.c:274-301] *)
Definition adr2sym (v : Z) (showsym : Z) (room : bool) (st : symtab) : cptr * symtab :=
  if showsym =? 0 then (None, st)
  else
    let '(sym, st) := getsymbyvalue v room st in
    match sym with
    | None => (None, st)
    | Some p =>
        if s_value (deref (heap st) p) =? v then (Some (s_name (deref (heap st) p)), st)
        else (None, st)
    end.

(** The text left in [dst], or nothing when the routine returns 0.
    [src/pmon/sym.c:305-343] *)
Definition adr2symoff (value width : Z) (showsym : Z) (room : bool) (st : symtab)
  : cptr * symtab :=
  if showsym =? 0 then (None, st)
  else
    let '(sym, st) := getsymbyvalue value room st in
    match sym with
    | None => (None, st)
    | Some p =>
        let s := deref (heap st) p in
        if value <? s_value s then (None, st)
        else if 0x5000 <? u32 (value - s_value s) then (None, st)
        else
          let dst :=
            if width =? 0 then sprintf "%s" [AStr (Some (s_name s))]
            else sprintf "%*.*s" [AInt width; AInt width; AStr (Some (s_name s))] in
          let tail :=
            if value =? s_value s then Some (str "       ")
            else sprintf "+0x%-4x" [AInt (value - s_value s)] in
          match dst, tail with
          | Some d, Some t => (Some (strcat d (Some t)), st)
          | _, _ => (None, st)
          end
    end.

(** [src/pmon/sym.c:557-564] *)
Definition defsym (name : cstr) (value : Z) (mem : option nat) (st : symtab) : symtab :=
  match getsymbyname name st with
  | Some _ => st
  | None => (newsym name value mem st).2
  end.

(** [start] is the address of the monitor; [mems] the cells for the four
    symbols. [src/pmon/sym.c:567-577] *)
Definition defsyms (start minaddr maxaddr pc : Z) (m1 m2 m3 m4 : option nat) (st : symtab)
  : symtab :=
  let st := defsym (str "Pmon") start m1 st in
  let st := if minaddr =? u32 (-1) then st else defsym (str "_ftext") minaddr m2 st in
  let st := if maxaddr =? 0 then st else defsym (str "etext") maxaddr m3 st in
  defsym (str "start") pc m4 st.

(** ** Walking through the symbols *)

(** The static variables of [nextsym]: the sorted list, the rest of the chain
    after [symcur], and [symno]. [src/pmon/sym.c:374-376] *)
Record cursor : Type := mkCur { symlst : option (list nat); symcur : list nat; symno : nat }.

(** The search for the next chain that is not empty.
    [src/pmon/sym.c:388-392] *)
Fixpoint next_chain (chains : list (list nat)) (no : nat) : option (nat * list nat) * nat :=
  match chains with
  | [] => (None, no)
  | [] :: chains' => next_chain chains' (S no)
  | (p :: rest) :: _ => (Some (p, rest), S no)
  end.

(** [src/pmon/sym.c:378-397] *)
Definition nextsym (st : symtab) (c : cursor) : option nat * cursor :=
  match symlst c with
  | Some l =>
      if (Z.to_nat (nsyms st) <=? symno c)%nat then (None, c)
      else (l !! symno c, mkCur (symlst c) (symcur c) (S (symno c)))
  | None =>
      match symcur c with
      | p :: rest => (Some p, mkCur None rest (symno c))
      | [] =>
          match next_chain (drop (symno c) (symhash st)) (symno c) with
          | (Some (p, rest), no) => (Some p, mkCur None rest no)
          | (None, no) => (None, mkCur None [] no)
          end
      end
  end.

(** [src/pmon/sym.c:400-413] *)
Definition firstsym (t : sort_type) (room : bool) (st : symtab) (c : cursor)
  : option nat * cursor * symtab * trace :=
  if nsyms st =? 0 then (None, c, st, [])
  else
    let '(l, st) := getsort t room st in
    let '(p, c) := nextsym st (mkCur l [] 0) in
    (p, c, st,
     match l with None => [Printf "Not enough memory to sort symbols, sorry\n" []] | Some _ => [] end).

(** The loop [for (sym = firstsym (); sym; sym = nextsym ())] of [dopat], as
    the symbols it sees. [src/pmon/sym.c:455-461] *)
Fixpoint walk (fuel : nat) (st : symtab) (p : option nat) (c : cursor) : list nat :=
  match fuel, p with
  | S f, Some q => let '(p', c') := nextsym st c in q :: walk f st p' c'
  | _, _ => []
  end.

(** The lines of the long listing. [src/pmon/sym.c:453-463] *)
Definition dopat_long (pat : cstr) (t : sort_type) (room : bool) (st : symtab)
  : list (option cstr) * symtab :=
  let '(p, c, st, _) := firstsym t room st (mkCur None [] 0) in
  let shown := filter (fun q => strpat (Some (s_name (deref (heap st) q))) (Some pat) = true)
                 (walk (S (Z.to_nat (nsyms st))) st p c) in
  ((fun q => sprintf "%08x %s" [AInt (s_value (deref (heap st) q));
                                AStr (Some (s_name (deref (heap st) q)))]) <$> shown, st).

Definition LFLAG : Z := 1.
Definition VFLAG : Z := 2.
Definition NFLAG : Z := 4.
Definition AFLAG : Z := 64.

(** The option letters of [ls]. [src/pmon/sym.c:508-527] *)
Fixpoint ls_letters (s : cstr) (flags : Z) : option Z :=
  match s with
  | [] => Some flags
  | c :: s' =>
      if c =? ch "l" then ls_letters s' (Z.lor flags LFLAG)
      else if c =? ch "v" then ls_letters s' (Z.lor flags VFLAG)
      else if c =? ch "n" then ls_letters s' (Z.lor flags NFLAG)
      else if c =? ch "a" then ls_letters s' (Z.lor flags AFLAG)
      else None
  end.

(** The flags and the number of patterns, or nothing for a bad option.
    [src/pmon/sym.c:504-530] *)
Fixpoint ls_args (av : list cstr) (flags pats : Z) : option (Z * Z) :=
  match av with
  | [] => Some (flags, pats)
  | a :: av' =>
      if at_ a 0 =? ch "-" then
        match ls_letters (drop 1 a) flags with
        | Some flags => ls_args av' flags pats
        | None => None
        end
      else ls_args av' flags (pats + 1)
  end.

(** ** Order *)

#[export] Instance valcmp_compar h : Compar (valcmp h).
Proof.
  split.
  - intros x y. unfold valcmp. repeat case_bool; lia.
  - intros x y z. unfold valcmp. repeat case_bool; lia.
Qed.

#[export] Instance namecmp_compar h : Compar (namecmp h).
Proof.
  split.
  - intros x y. unfold namecmp. rewrite (strcmp_opp _ (s_name (deref h x))). lia.
  - intros x y z. unfold namecmp. apply strcmp_trans.
Qed.

#[export] Instance sort_cmp_compar t h : Compar (sort_cmp t h).
Proof. destruct t; apply _. Qed.

Lemma valcmp_le h p q : valcmp h p q <= 0 <-> s_value (deref h p) <= s_value (deref h q).
Proof. unfold valcmp. repeat case_bool; lia. Qed.

(** ** The invariant *)

Definition syms (st : symtab) : list nat := concat (symhash st).

Definition sorted_list (t : sort_type) (st : symtab) (l : list nat) : Prop :=
  l ≡ₚ syms st /\ StronglySorted (fun p q => sort_cmp t (heap st) p q <= 0) l.

Record tab_ok (st : symtab) : Prop := {
  tab_len : length (symhash st) = Z.to_nat NHASH;
  tab_cell : forall i chain p, symhash st !! i = Some chain -> p ∈ chain ->
    exists s, heap st !! p = Some s /\ s_name s <> [] /\ bucket (s_name s) = i;
  tab_names : forall p q, p ∈ syms st -> q ∈ syms st ->
    s_name (deref (heap st) p) = s_name (deref (heap st) q) -> p = q;
  tab_count : nsyms st = Z.of_nat (length (syms st));
  tab_sort : forall t l, symsort st t = Some l -> sorted_list t st l
}.

Lemma elem_of_concat_chain {A} (ls : list (list A)) p :
  p ∈ concat ls <-> exists i chain, ls !! i = Some chain /\ p ∈ chain.
Proof.
  rewrite list_elem_of_In, in_concat. split.
  - intros (c & Hc & Hp). apply list_elem_of_In, list_elem_of_lookup in Hc as [i Hi].
    exists i, c. split; [done|]. by apply list_elem_of_In.
  - intros (i & c & Hi & Hp). exists c. split; [|by apply list_elem_of_In].
    apply list_elem_of_In. by eapply list_elem_of_lookup_2.
Qed.

Lemma tab_heap st p : tab_ok st -> p ∈ syms st ->
  exists s, heap st !! p = Some s /\ s_name s <> [] /\ deref (heap st) p = s.
Proof.
  intros Hok Hp. apply elem_of_concat_chain in Hp as (i & c & Hi & Hp).
  destruct (tab_cell st Hok i c p Hi Hp) as (s & Hs & Hn & _).
  exists s. split; [done|]. split; [done|]. unfold deref. by rewrite Hs.
Qed.

Lemma same_name_spec n m : n <> [] -> m <> [] -> same_name n m = true <-> n = m.
Proof.
  destruct n as [|x n], m as [|y m]; try done. intros _ _. unfold same_name.
  rewrite andb_true_iff, strequ_spec, Z.eqb_eq. unfold at_. cbn. unfold id.
  rewrite !drop_0. split; [intros [-> ->]; done|by intros [= -> ->]].
Qed.

Lemma bucket_lt name : (bucket name < Z.to_nat NHASH)%nat.
Proof.
  unfold bucket, NHASH. pose proof (Z.mod_pos_bound (strhash name) 127 ltac:(lia)). lia.
Qed.

Lemma chain_of_lookup st name : tab_ok st -> symhash st !! bucket name = Some (chain_of st name).
Proof.
  intros Hok. destruct (lookup_lt_is_Some_2 (symhash st) (bucket name)) as [c Hc].
  - rewrite (tab_len st Hok). apply bucket_lt.
  - unfold chain_of. by rewrite Hc.
Qed.

Lemma chain_in_syms st name p : tab_ok st -> p ∈ chain_of st name -> p ∈ syms st.
Proof.
  intros Hok Hp. apply elem_of_concat_chain. eexists _, _. split; [by apply chain_of_lookup|done].
Qed.

Lemma chain_find_spec h chain name :
  match chain_find h chain name with
  | Some p => p ∈ chain /\ same_name name (s_name (deref h p)) = true
  | None => forall p, p ∈ chain -> same_name name (s_name (deref h p)) = false
  end.
Proof.
  induction chain as [|p chain IH]; cbn [chain_find]; [by intros p ?%elem_of_nil|].
  destruct (same_name name (s_name (deref h p))) eqn:E.
  - split; [apply list_elem_of_here|done].
  - destruct (chain_find h chain name) as [q|].
    + destruct IH as [H1 H2]. split; [by apply list_elem_of_further|done].
    + intros q [->|Hq]%elem_of_cons; [done|by apply IH].
Qed.

(** A symbol is found by its name, and only by it. *)
Lemma chain_find_name st name p :
  tab_ok st -> name <> [] ->
  (chain_find (heap st) (chain_of st name) name = Some p <->
   p ∈ syms st /\ s_name (deref (heap st) p) = name).
Proof.
  intros Hok Hne. pose proof (chain_find_spec (heap st) (chain_of st name) name) as Hf.
  assert (forall q, q ∈ syms st -> s_name (deref (heap st) q) <> []) as Hnm.
  { intros q Hq. destruct (tab_heap st q Hok Hq) as (s & _ & Hn & ->). done. }
  assert (forall q, q ∈ syms st -> s_name (deref (heap st) q) = name -> q ∈ chain_of st name) as Hin.
  { intros q Hq Hn. apply elem_of_concat_chain in Hq as (i & c & Hi & Hc).
    destruct (tab_cell st Hok i c q Hi Hc) as (s & Hs & _ & Hb).
    unfold deref in Hn. rewrite Hs in Hn. cbn in Hn. unfold id in Hn. subst.
    rewrite (chain_of_lookup st (s_name s) Hok) in Hi. by injection Hi as ->. }
  destruct (chain_find (heap st) (chain_of st name) name) as [q|].
  - destruct Hf as [Hq Hs]. pose proof (chain_in_syms _ _ _ Hok Hq) as Hq'.
    apply same_name_spec in Hs; [|done|by apply Hnm]. split.
    + by intros [= <-].
    + intros [Hp Hn]. f_equal. apply (tab_names st Hok); congruence || done.
  - split; [done|]. intros [Hp Hn]. specialize (Hf p (Hin p Hp Hn)).
    rewrite Hn in Hf. rewrite (proj2 (same_name_spec name name Hne Hne) eq_refl) in Hf. done.
Qed.

(** What [sym2adr] answers, in terms of the symbols alone. *)
Lemma sym2adr_spec st name :
  tab_ok st -> name <> [] ->
  sym2adr name st =
    match chain_find (heap st) (chain_of st name) name with
    | Some p => (s_value (deref (heap st) p), true)
    | None => (0, false)
    end.
Proof.
  intros Hok Hne. unfold sym2adr, getsymbyname. destruct (Z.eqb_spec (nsyms st) 0) as [E|E]; [|done].
  destruct (chain_find (heap st) (chain_of st name) name) as [p|] eqn:Ef; [|done].
  apply chain_find_name in Ef as [Hp _]; [|done..]. rewrite (tab_count st Hok) in E.
  destruct (syms st) as [|q l]; [by apply elem_of_nil in Hp|cbn in E; lia].
Qed.

(** ** Defining a symbol *)

Lemma deref_insert_eq h p s : deref (<[p := s]> h) p = s.
Proof. unfold deref. by rewrite lookup_insert_eq. Qed.

Lemma deref_insert_ne h p q s : p <> q -> deref (<[p := s]> h) q = deref h q.
Proof. intros. unfold deref. by rewrite lookup_insert_ne. Qed.

Lemma StronglySorted_weaken {A} (R S : A -> A -> Prop) l :
  StronglySorted R l -> (forall x y, R x y -> S x y) -> StronglySorted S l.
Proof.
  intros H HRS. induction H as [|x l Hl IH Hx]; constructor; [done|].
  eapply Forall_weaken; [exact Hx|]. auto.
Qed.

Lemma newsym_change_ok st p v :
  tab_ok st -> p ∈ syms st ->
  tab_ok (flushsort NUMERIC
    (set_heap (<[p := mkSym v (s_name (deref (heap st) p))]> (heap st)) st)).
Proof.
  intros Hok Hp. set (h' := <[p := _]> (heap st)).
  assert (forall q, s_name (deref h' q) = s_name (deref (heap st) q)) as Hname.
  { intros q. subst h'. destruct (decide (p = q)) as [<-|].
    - by rewrite deref_insert_eq.
    - by rewrite deref_insert_ne. }
  split; cbn.
  - apply (tab_len st Hok).
  - intros i c q Hi Hq. destruct (tab_cell st Hok i c q Hi Hq) as (s & Hs & Hn & Hb).
    destruct (decide (p = q)) as [<-|].
    + exists (mkSym v (s_name (deref (heap st) p))). subst h'. rewrite lookup_insert_eq.
      split; [done|]. cbn. unfold deref. by rewrite Hs.
    + exists s. subst h'. by rewrite lookup_insert_ne.
  - intros q r Hq Hr. rewrite !Hname. by apply (tab_names st Hok).
  - apply (tab_count st Hok).
  - intros [|] l Hl; cbn in Hl; [|done]. destruct (tab_sort st Hok ALPHA l Hl) as [H1 H2].
    split; [done|]. cbn in H2 |- *. eapply StronglySorted_weaken; [exact H2|].
    intros x y. unfold namecmp. by rewrite !Hname.
Qed.

Lemma concat_insert_perm {A} (ls : list (list A)) i c (p : A) :
  ls !! i = Some c -> concat (<[i := p :: c]> ls) ≡ₚ p :: concat ls.
Proof.
  revert i. induction ls as [|l ls IH]; intros i Hi; [done|]. destruct i as [|i]; simplify_eq/=.
  - done.
  - change (l ++ concat (<[i := p :: c]> ls) ≡ₚ p :: l ++ concat ls).
    rewrite (IH i Hi). by rewrite Permutation_middle.
Qed.

Lemma flush_ok t st : tab_ok st -> tab_ok (flushsort t st).
Proof.
  intros Hok. split; try (destruct t; apply Hok).
  intros t' l Hl. assert (symsort st t' = Some l) as Hl' by (by destruct t, t').
  destruct (tab_sort st Hok t' l Hl') as [H1 H2]. by destruct t.
Qed.

(** The state after a symbol that was not there is entered. *)
Definition with_sym (name : cstr) (v : Z) (p : nat) (len : Z) (st : symtab) : symtab :=
  {| heap := <[p := mkSym v name]> (heap st);
     symhash := <[bucket name := p :: chain_of st name]> (symhash st);
     symsort_alpha := None; symsort_num := None; maxsymlen := len; nsyms := nsyms st + 1 |}.

Lemma with_sym_syms name v p len st :
  tab_ok st -> syms (with_sym name v p len st) ≡ₚ p :: syms st.
Proof. intros Hok. apply concat_insert_perm. by apply chain_of_lookup. Qed.

Lemma with_sym_ok name v p len st :
  tab_ok st -> name <> [] -> heap st !! p = None ->
  chain_find (heap st) (chain_of st name) name = None ->
  tab_ok (with_sym name v p len st).
Proof.
  intros Hok Hne Hp Hf.
  assert (~ p ∈ syms st) as Hfresh.
  { intros Hin. destruct (tab_heap st p Hok Hin) as (s & Hs & _). congruence. }
  assert (forall q, q ∈ syms st -> p <> q) as Hpq by (intros q Hq ->; done).
  assert (forall q, q ∈ syms st -> s_name (deref (heap st) q) <> name) as Hnn.
  { intros q Hq Hn. rewrite (proj2 (chain_find_name st name q Hok Hne) (conj Hq Hn)) in Hf. done. }
  split.
  - cbn. rewrite length_insert. apply (tab_len st Hok).
  - cbn. intros i c q Hi Hq. destruct (decide (bucket name = i)) as [<-|Hbi].
    + rewrite list_lookup_insert_eq in Hi by (rewrite (tab_len st Hok); apply bucket_lt).
      injection Hi as <-. apply elem_of_cons in Hq as [->|Hq].
      * exists (mkSym v name). by rewrite lookup_insert_eq.
      * pose proof (Hpq q (chain_in_syms _ _ _ Hok Hq)).
        destruct (tab_cell st Hok _ _ q (chain_of_lookup st name Hok) Hq) as (s & Hs).
        exists s. by rewrite lookup_insert_ne.
    + rewrite list_lookup_insert_ne in Hi by done.
      destruct (tab_cell st Hok i c q Hi Hq) as (s & Hs).
      exists s. rewrite lookup_insert_ne; [done|]. apply Hpq.
      apply elem_of_concat_chain. by exists i, c.
  - intros q r Hq Hr. rewrite (with_sym_syms _ _ _ _ _ Hok) in Hq, Hr. cbn.
    apply elem_of_cons in Hq as [->|Hq], Hr as [->|Hr]; [done|..].
    + rewrite deref_insert_eq, deref_insert_ne by (by apply Hpq). cbn.
      intros E. destruct (Hnn r Hr). done.
    + rewrite deref_insert_eq, deref_insert_ne by (by apply Hpq). cbn.
      intros E. destruct (Hnn q Hq). done.
    + rewrite !deref_insert_ne by (by apply Hpq). by apply (tab_names st Hok).
  - rewrite (with_sym_syms _ _ _ _ _ Hok). cbn. rewrite (tab_count st Hok). cbn. lia.
  - by intros [|] l Hl.
Qed.

(** [newsym] with its three outcomes. *)
Lemma newsym_cases name v mem st :
  newsym name v mem st =
    match chain_find (heap st) (chain_of st name) name with
    | Some p =>
        (true, if s_value (deref (heap st) p) =? v then st
               else flushsort NUMERIC
                 (set_heap (<[p := mkSym v (s_name (deref (heap st) p))]> (heap st)) st))
    | None =>
        match mem with
        | None => (false, flushsort NUMERIC (flushsort ALPHA st))
        | Some p =>
            (true, with_sym name v p
                     (if maxsymlen st <? strlen (Some name) then strlen (Some name)
                      else maxsymlen st) st)
        end
    end.
Proof.
  unfold newsym. destruct (chain_find (heap st) (chain_of st name) name) as [p|].
  - by destruct (_ =? v).
  - by destruct mem.
Qed.

(** The symbols of a table, as names and values: the relation every operation
    of the table is specified by. *)
Definition defines (st : symtab) (name : cstr) (v : Z) : Prop :=
  exists p, p ∈ syms st /\ deref (heap st) p = mkSym v name.

Lemma sym2adr_defines st name v :
  tab_ok st -> name <> [] -> (sym2adr name st = (v, true) <-> defines st name v).
Proof.
  intros Hok Hne. rewrite sym2adr_spec by done. split.
  - destruct (chain_find (heap st) (chain_of st name) name) as [p|] eqn:E; [|done].
    intros [= <-]. apply chain_find_name in E as [Hp Hn]; [|done..].
    exists p. split; [done|]. rewrite <- Hn. by destruct (deref (heap st) p).
  - intros (p & Hp & Hd).
    rewrite (proj2 (chain_find_name st name p Hok Hne)); [by rewrite Hd|].
    split; [done|by rewrite Hd].
Qed.

Lemma sym2adr_fail st name :
  tab_ok st -> name <> [] ->
  sym2adr name st = (0, false) \/ exists v, defines st name v /\ sym2adr name st = (v, true).
Proof.
  intros Hok Hne. destruct (sym2adr name st) as [v b] eqn:E. destruct b.
  - right. exists v. split; [|done]. by apply sym2adr_defines in E.
  - left. rewrite sym2adr_spec in E by done. destruct (chain_find _ _ _); congruence.
Qed.

Lemma newsym_ok name v mem st :
  tab_ok st -> name <> [] -> (forall p, mem = Some p -> heap st !! p = None) ->
  let r := newsym name v mem st in
  tab_ok r.2 /\
  (forall name' v', defines r.2 name' v' <->
     if r.1 then if decide (name' = name) then v' = v else defines st name' v'
     else defines st name' v').
Proof.
  intros Hok Hne Hmem. rewrite newsym_cases.
  destruct (chain_find (heap st) (chain_of st name) name) as [p|] eqn:Ef.
  - apply chain_find_name in Ef as [Hp Hn]; [|done..]. cbn [fst snd].
    destruct (Z.eqb_spec (s_value (deref (heap st) p)) v) as [Ev|Ev].
    + split; [done|]. intros name' v'. destruct (decide (name' = name)) as [->|]; [|done]. split.
      * intros (q & Hq & Hd). assert (q = p) as ->
          by (apply (tab_names st Hok); [done|done|by rewrite Hd, Hn]). by rewrite Hd in Ev.
      * intros ->. exists p. split; [done|]. destruct (deref (heap st) p). cbn in *. congruence.
    + split; [by apply newsym_change_ok|]. intros name' v'. unfold defines. cbn [heap flushsort set_sort set_heap].
      change (syms (flushsort NUMERIC (set_heap _ st))) with (syms st). split.
      * intros (q & Hq & Hd). destruct (decide (p = q)) as [<-|Hpq].
        { rewrite deref_insert_eq, Hn in Hd. injection Hd as <- <-. by rewrite decide_True. }
        rewrite deref_insert_ne in Hd by done. rewrite decide_False; [by exists q|].
        intros ->. apply Hpq. apply (tab_names st Hok); [done|done|by rewrite Hd, Hn].
      * destruct (decide (name' = name)) as [->|Hnn].
        { intros ->. exists p. split; [done|]. by rewrite deref_insert_eq, Hn. }
        intros (q & Hq & Hd). exists q. split; [done|]. rewrite deref_insert_ne; [done|].
        intros ->. rewrite Hd in Hn. cbn in Hn. congruence.
  - destruct mem as [p|]; cbn [fst snd].
    2: { split; [by apply flush_ok, flush_ok|done]. }
    specialize (Hmem p eq_refl). split; [by apply with_sym_ok|].
    set (len := if _ <? _ then _ else _). clearbody len. intros name' v'. unfold defines.
    setoid_rewrite (with_sym_syms name v p len st Hok). cbn [heap with_sym].
    assert (forall q, q ∈ syms st -> p <> q) as Hpq.
    { intros q Hq ->. destruct (tab_heap st q Hok Hq) as (s & Hs & _). congruence. }
    assert (forall q, q ∈ syms st -> s_name (deref (heap st) q) <> name) as Hnn.
    { intros q Hq Hn. rewrite (proj2 (chain_find_name st name q Hok Hne) (conj Hq Hn)) in Ef. done. }
    split.
    + intros (q & Hq & Hd). apply elem_of_cons in Hq as [->|Hq].
      * rewrite deref_insert_eq in Hd. injection Hd as <- <-. by rewrite decide_True.
      * rewrite deref_insert_ne in Hd by (by apply Hpq). rewrite decide_False; [by exists q|].
        intros ->. apply (Hnn q Hq). by rewrite Hd.
    + destruct (decide (name' = name)) as [->|].
      * intros ->. exists p. split; [apply list_elem_of_here|]. by rewrite deref_insert_eq.
      * intros (q & Hq & Hd). exists q. split; [by apply list_elem_of_further|].
        by rewrite deref_insert_ne by (by apply Hpq).
Qed.

(** ** The sorted lists *)

Lemma tab_ok_same st st' :
  heap st' = heap st -> symhash st' = symhash st -> nsyms st' = nsyms st ->
  (forall t l, symsort st' t = Some l -> sorted_list t st l) -> tab_ok st -> tab_ok st'.
Proof.
  intros Eh Es En Hs [H1 H2 H3 H4 H5].
  split; unfold syms in *; rewrite ?Eh, ?Es, ?En; try done.
  intros t l Hl. unfold sorted_list, syms. rewrite Eh, Es. by apply Hs.
Qed.

Lemma getsort_spec t room st r st' :
  tab_ok st -> getsort t room st = (r, st') ->
  tab_ok st' /\ heap st' = heap st /\ symhash st' = symhash st /\ nsyms st' = nsyms st /\
  match r with
  | Some l => nsyms st <> 0 /\ sorted_list t st l
  | None => nsyms st = 0 \/ room = false
  end.
Proof.
  intros Hok. unfold getsort. destruct (Z.eqb_spec (nsyms st) 0) as [E|E].
  { intros [= <- <-]. split_and!; try done. by left. }
  destruct (symsort st t) as [l|] eqn:Es.
  { intros [= <- <-]. split_and!; try done. by apply (tab_sort st Hok). }
  assert (forall l st1, l ≡ₚ syms st -> heap st1 = heap st -> symhash st1 = symhash st ->
    nsyms st1 = nsyms st -> (forall t' l', t' <> t -> symsort st1 t' = Some l' ->
      symsort st t' = Some l') ->
    forall r st', (qsort (sort_cmp t (heap st1)) l,
      set_sort t (qsort (sort_cmp t (heap st1)) l) st1) = (r, st') ->
    tab_ok st' /\ heap st' = heap st /\ symhash st' = symhash st /\ nsyms st' = nsyms st /\
    match r with
    | Some l => nsyms st <> 0 /\ sorted_list t st l
    | None => nsyms st = 0 \/ room = false end) as Hsort.
  { intros l st1 Hl Eh Eh' En Hoth r0 st0. rewrite Eh.
    destruct (sort_correct nat (sort_cmp t (heap st)) l _) as (l' & Hq & Hp & Hss).
    rewrite Hq. intros [= <- <-].
    assert (sorted_list t st l') as Hsl by (split; [by rewrite <- Hp|done]).
    split; [|destruct t; by split_and!].
    apply (tab_ok_same st); try (by destruct t).
    intros t' k Hk. destruct (decide (t' = t)) as [->|Hne].
    - assert (k = l') as -> by (destruct t; cbn in Hk; congruence). done.
    - apply (tab_sort st Hok). apply Hoth; [done|]. by destruct t, t'. }
  destruct room.
  - apply Hsort; done.
  - destruct (symsort st (other t)) as [l|] eqn:Eo.
    + destruct (tab_sort st Hok _ l Eo) as [Hp _].
      apply (Hsort l (set_sort (other t) None st)); try (by destruct t).
      intros t' l' Hne. destruct t, t'; done.
    + intros [= <- <-]. split_and!; try done. by right.
Qed.

(** ** The search by value *)

(** [r] is the symbol nearest to [addr] from below, if there is one. *)
Definition nearest (st : symtab) (addr : Z) (r : option nat) : Prop :=
  match r with
  | Some p => p ∈ syms st /\ s_value (deref (heap st) p) <= addr /\
      forall q, q ∈ syms st -> s_value (deref (heap st) q) <= addr ->
        s_value (deref (heap st) q) <= s_value (deref (heap st) p)
  | None => forall q, q ∈ syms st -> addr < s_value (deref (heap st) q)
  end.

Lemma linear_search_spec h seen ps addr best :
  (match best with
   | Some b => b ∈ seen /\ s_value (deref h b) < addr /\
       forall q, q ∈ seen -> s_value (deref h q) <= addr ->
         s_value (deref h q) <= s_value (deref h b)
   | None => forall q, q ∈ seen -> addr < s_value (deref h q)
   end) ->
  match linear_search h ps addr best with
  | Some p => p ∈ seen ++ ps /\ s_value (deref h p) <= addr /\
      forall q, q ∈ seen ++ ps -> s_value (deref h q) <= addr ->
        s_value (deref h q) <= s_value (deref h p)
  | None => forall q, q ∈ seen ++ ps -> addr < s_value (deref h q)
  end.
Proof.
  revert seen best. induction ps as [|p ps IH]; intros seen best Hb; cbn [linear_search].
  { rewrite app_nil_r. destruct best as [b|]; [|done]. destruct Hb as (? & ? & ?).
    split_and!; [done|lia|done]. }
  destruct (Z.eqb_spec (s_value (deref h p)) addr) as [E|E].
  { split; [set_solver|]. split; [lia|]. intros q _. lia. }
  replace (seen ++ p :: ps) with ((seen ++ [p]) ++ ps) by (by rewrite <- app_assoc).
  apply IH. destruct (Z.ltb_spec (s_value (deref h p)) addr) as [Hlt|Hge]; cbn [andb].
  - destruct best as [b|].
    + destruct Hb as (H1 & H2 & H3).
      destruct (Z.ltb_spec (s_value (deref h b)) (s_value (deref h p))).
      * split; [set_solver|]. split; [done|]. intros q.
        rewrite elem_of_app, list_elem_of_singleton. intros [Hq| ->]; [|lia].
        intros Hle. specialize (H3 q Hq Hle). lia.
      * split; [set_solver|]. split; [done|]. intros q.
        rewrite elem_of_app, list_elem_of_singleton. intros [Hq| ->]; [by apply H3|lia].
    + split; [set_solver|]. split; [done|]. intros q.
      rewrite elem_of_app, list_elem_of_singleton. intros [Hq| ->]; [|lia].
      specialize (Hb q Hq). lia.
  - destruct best as [b|].
    + destruct Hb as (H1 & H2 & H3). split; [set_solver|]. split; [done|]. intros q.
      rewrite elem_of_app, list_elem_of_singleton. intros [Hq| ->]; [by apply H3|lia].
    + intros q. rewrite elem_of_app, list_elem_of_singleton. intros [Hq| ->]; [by apply Hb|lia].
Qed.

Lemma StronglySorted_lookup {A} (R : A -> A -> Prop) l i j x y :
  StronglySorted R l -> (i < j)%nat -> l !! i = Some x -> l !! j = Some y -> R x y.
Proof.
  intros H. revert i j. induction H as [|z l Hl IH Hz]; intros i j Hij Hx Hy; [done|].
  destruct j as [|j]; [lia|]. cbn in Hy. destruct i as [|i].
  - injection Hx as ->. apply (Forall_elem _ _ _ Hz). by eapply list_elem_of_lookup_2.
  - by apply (IH i j); [lia| |].
Qed.

Lemma val_at_mono st l i j :
  sorted_list NUMERIC st l -> (i <= j < length l)%nat ->
  val_at (heap st) l i <= val_at (heap st) l j.
Proof.
  intros [_ Hs] Hij. destruct (decide (i = j)) as [->|]; [lia|].
  destruct (lookup_lt_is_Some_2 l i) as [p Hp]; [lia|].
  destruct (lookup_lt_is_Some_2 l j) as [q Hq]; [lia|].
  unfold val_at. rewrite Hp, Hq. cbn. unfold id. apply valcmp_le.
  by apply (StronglySorted_lookup _ l i j p q Hs); [lia| |].
Qed.

Lemma bsearch_spec fuel st l addr lo hi :
  sorted_list NUMERIC st l -> (lo <= hi < length l)%nat -> (hi - lo < fuel)%nat ->
  val_at (heap st) l lo <= addr ->
  (forall i, (hi < i < length l)%nat -> addr < val_at (heap st) l i) \/
    val_at (heap st) l hi = addr ->
  exists i p, bsearch fuel (heap st) l addr lo hi = Some p /\ l !! i = Some p /\
    val_at (heap st) l i <= addr /\
    forall j, (j < length l)%nat -> val_at (heap st) l j <= addr ->
      val_at (heap st) l j <= val_at (heap st) l i.
Proof.
  intros Hs. revert lo hi. induction fuel as [|f IH]; intros lo hi Hlh Hf Hlo Hhi; [lia|].
  cbn [bsearch]. destruct (Z.ltb_spec addr (val_at (heap st) l hi)) as [Hgt|Hle].
  - destruct Hhi as [Hhi|Hhi]; [|lia].
    assert (lo < hi)%nat as Hlt by (destruct (decide (lo = hi)) as [->|]; lia).
    assert (lo <= Nat.div2 (lo + hi) < hi /\ (lo = Nat.div2 (lo + hi) -> hi = S lo))%nat as [Hm1 Hm2].
    { rewrite Nat.div2_div. pose proof (Nat.div_mod (lo + hi) 2 ltac:(lia)).
      pose proof (Nat.mod_upper_bound (lo + hi) 2 ltac:(lia)). lia. }
    revert Hm1 Hm2. generalize (Nat.div2 (lo + hi)). intros mid Hm1 Hm2.
    destruct (Nat.eqb_spec lo mid) as [<-|Hne]; cbn [orb].
    + apply IH; [lia|lia|done|]. left. intros i Hi.
      destruct (decide (i = hi)) as [->|]; [done|]. apply Hhi. lia.
    + destruct (Z.leb_spec addr (val_at (heap st) l mid)) as [Hge|Hltm].
      * apply IH; [lia|lia|done|].
        destruct (Z.eq_dec (val_at (heap st) l mid) addr); [by right|]. left. intros i Hi.
        pose proof (val_at_mono st l mid i Hs). lia.
      * apply IH; [lia|lia|lia|]. by left.
  - destruct (lookup_lt_is_Some_2 l hi) as [p Hp]; [lia|]. exists hi, p. split_and!; try done.
    intros j Hj Hja. destruct Hhi as [Hhi|Hhi]; [|lia].
    destruct (decide (hi < j)%nat); [specialize (Hhi j); lia|].
    apply val_at_mono; [done|lia].
Qed.

Lemma getsymbyvalue_nearest addr room st r st' :
  tab_ok st -> getsymbyvalue addr room st = (r, st') ->
  tab_ok st' /\ heap st' = heap st /\ symhash st' = symhash st /\ nearest st addr r.
Proof.
  intros Hok. unfold getsymbyvalue. destruct (Z.eqb_spec (nsyms st) 0) as [E|E].
  { intros [= <- <-]. split_and!; try done. intros q Hq. rewrite (tab_count st Hok) in E.
    destruct (syms st); [by apply elem_of_nil in Hq|cbn in E; lia]. }
  destruct (getsort NUMERIC room st) as [o st1] eqn:Eg.
  destruct (getsort_spec _ _ _ _ _ Hok Eg) as (Hok1 & Eh & Es & En & Ho).
  rewrite Eh, Es, En. destruct o as [l|].
  - destruct Ho as [_ Hl]. pose proof (proj1 Hl) as Hp.
    assert (length l = Z.to_nat (nsyms st) /\ (0 < length l)%nat) as [Hlen Hpos].
    { rewrite (tab_count st Hok) in E |- *. rewrite (Permutation_length Hp). lia. }
    assert (forall i p, l !! i = Some p -> val_at (heap st) l i = s_value (deref (heap st) p)) as Hval
      by (intros i p Hi; unfold val_at; by rewrite Hi).
    destruct (Z.ltb_spec addr (val_at (heap st) l 0)) as [Hlt|Hge];
      intros [<- <-]%pair_equal_spec; (split; [done|]; split; [done|]; split; [done|]).
    + intros q Hq. rewrite <- Hp in Hq. apply list_elem_of_lookup in Hq as [i Hi].
      rewrite <- (Hval i q Hi). pose proof (lookup_lt_Some _ _ _ Hi).
      pose proof (val_at_mono st l 0 i Hl). lia.
    + destruct (bsearch_spec (S (Z.to_nat (nsyms st))) st l addr 0 (Z.to_nat (nsyms st - 1)))
        as (i & p & -> & Hi & Hle & Hmax); [done|lia|lia|done|left; lia|].
      rewrite (Hval i p Hi) in Hle, Hmax. split; [|split; [done|]].
      { rewrite <- Hp. by eapply list_elem_of_lookup_2. }
      intros q Hq. rewrite <- Hp in Hq. apply list_elem_of_lookup in Hq as [j Hj].
      rewrite <- (Hval j q Hj). apply Hmax. by apply lookup_lt_Some in Hj.
  - intros [= <- <-]. split; [done|]. split; [done|]. split; [done|].
    pose proof (linear_search_spec (heap st) [] (concat (symhash st)) addr None) as H.
    cbn [app] in H. apply H. by intros q ?%elem_of_nil.
Qed.

(** ** The walk *)

Definition remaining (st : symtab) (c : cursor) : list nat :=
  match symlst c with
  | Some l => drop (symno c) (take (Z.to_nat (nsyms st)) l)
  | None => symcur c ++ concat (drop (symno c) (symhash st))
  end.

Lemma next_chain_spec chains no :
  match next_chain chains no with
  | (Some (p, rest), no') => exists k, no' = (no + k)%nat /\
      concat chains = p :: rest ++ concat (drop k chains)
  | (None, no') => concat chains = [] /\ no' = (no + length chains)%nat
  end.
Proof.
  revert no. induction chains as [|[|p rest] chains IH]; intros no; cbn [next_chain].
  - split; [done|]. cbn. lia.
  - specialize (IH (S no)). destruct (next_chain chains (S no)) as [[[p rest]|] no'].
    + destruct IH as (k & -> & E). exists (S k). split; [lia|done].
    + destruct IH as [E ->]. split; [done|cbn; lia].
  - exists 1%nat. split; [lia|done].
Qed.

Lemma nextsym_spec st c :
  (forall l, symlst c = Some l -> (Z.to_nat (nsyms st) <= length l)%nat) ->
  (nextsym st c).1 = hd_error (remaining st c) /\
  remaining st (nextsym st c).2 = tl (remaining st c) /\
  symlst (nextsym st c).2 = symlst c.
Proof.
  intros Hlen. unfold nextsym, remaining. destruct (symlst c) as [l|] eqn:El.
  - specialize (Hlen l eq_refl). destruct (Nat.leb_spec (Z.to_nat (nsyms st)) (symno c)) as [H|H].
    + cbn [fst snd]. rewrite El. rewrite drop_ge by (rewrite length_take; lia). done.
    + cbn [fst snd symlst symno].
      destruct (lookup_lt_is_Some_2 l (symno c)) as [p Hp]; [lia|].
      assert (take (Z.to_nat (nsyms st)) l !! symno c = Some p) as Ht
        by (by rewrite lookup_take_lt by lia).
      by rewrite (drop_cons_lookup _ _ _ Ht), Hp.
  - destruct (symcur c) as [|p rest]; [|done].
    pose proof (next_chain_spec (drop (symno c) (symhash st)) (symno c)) as Hn.
    destruct (next_chain (drop (symno c) (symhash st)) (symno c)) as [[[p rest]|] no'].
    + destruct Hn as (k & -> & E). rewrite drop_drop in E. cbn [fst snd symlst symcur symno app].
      by rewrite E.
    + destruct Hn as [E ->]. cbn [fst snd symlst symcur symno app]. rewrite E.
      rewrite drop_ge; [done|]. rewrite length_drop. lia.
Qed.

Lemma walk_spec fuel st p c :
  (forall l, symlst c = Some l -> (Z.to_nat (nsyms st) <= length l)%nat) ->
  (length (remaining st c) < fuel)%nat ->
  walk fuel st p c = match p with Some q => q :: remaining st c | None => [] end.
Proof.
  revert p c. induction fuel as [|f IH]; intros p c Hlen Hf; [lia|].
  destruct p as [q|]; [|done]. cbn [walk].
  destruct (nextsym st c) as [p' c'] eqn:En.
  destruct (nextsym_spec st c Hlen) as (H1 & H2 & H3). rewrite En in H1, H2, H3. cbn in H1, H2, H3.
  f_equal. rewrite H1. destruct (remaining st c) as [|r rs] eqn:Er; cbn [hd_error].
  - by destruct f.
  - rewrite IH; [by rewrite H2|by rewrite H3|]. rewrite H2. cbn in *. lia.
Qed.

(** ** Properties *)

(** A successful [newsym] makes [sym2adr] answer the new value for that
    name and nothing else changes; one that fails for lack of memory changes
    no symbol. The invariant of the table (chains agree with the hash, names
    distinct, the count exact, the sorted lists sorted permutations of the
    symbols) is kept. *)
Theorem newsym_sym2adr (name : cstr) (v : Z) (mem : option nat) (st : symtab)
  (Hok : tab_ok st) (Hne : name <> []) (Hmem : forall p, mem = Some p -> heap st !! p = None) :
  let r := newsym name v mem st in
  tab_ok r.2 /\
  forall name', name' <> [] ->
    sym2adr name' r.2 = if r.1 && bool_decide (name' = name) then (v, true) else sym2adr name' st.
Proof.
  destruct (newsym_ok name v mem st Hok Hne Hmem) as [Hok' Hd].
  destruct (newsym name v mem st) as [b st']. cbn [fst snd] in *. split; [done|].
  intros name' Hne'. case_bool_decide as Hn; rewrite ?andb_true_r, ?andb_false_r.
  - destruct b.
    + apply sym2adr_defines; [done..|]. apply Hd. by rewrite decide_True.
    + destruct (sym2adr_fail st name' Hok Hne') as [E|(v' & Hv & E)].
      * rewrite E. destruct (sym2adr_fail st' name' Hok' Hne') as [->|(v' & Hv & _)]; [done|].
        apply Hd, (sym2adr_defines st name' v') in Hv; [|done..]. congruence.
      * rewrite E. apply sym2adr_defines; [done..|]. by apply Hd.
  - destruct (sym2adr_fail st name' Hok Hne') as [E|(v' & Hv & E)]; rewrite E.
    + destruct (sym2adr_fail st' name' Hok' Hne') as [->|(v' & Hv & _)]; [done|].
      apply Hd in Hv. rewrite decide_False in Hv by done.
      assert (defines st name' v') as Hv' by (by destruct b).
      apply (sym2adr_defines st name' v') in Hv'; [congruence|done..].
    + apply sym2adr_defines; [done..|]. apply Hd. rewrite decide_False by done. by destruct b.
Qed.

Definition empty_tab : symtab := (clrsyms (mkTab ∅ [] None None 0 0) (mkTunables 0 0 0 false 0)).1.

Lemma empty_tab_ok : tab_ok empty_tab.
Proof.
  split; try done.
  - intros i chain p Hi Hp. apply lookup_replicate in Hi as [-> _]. by apply elem_of_nil in Hp.
  - intros p q Hp. by apply elem_of_nil in Hp.
  - by intros [|] l.
Qed.

Lemma newsym_sym2adr_witness :
  let r := newsym (str "main") 0x80020000 (Some 1%nat) empty_tab in
  tab_ok r.2 /\
  forall name', name' <> [] ->
    sym2adr name' r.2 =
      if r.1 && bool_decide (name' = str "main") then (0x80020000, true) else sym2adr name' empty_tab.
Proof.
  apply (newsym_sym2adr (str "main") 0x80020000 (Some 1%nat) empty_tab);
    [apply empty_tab_ok|done|done].
Defined.

(** C37. [getsymbyvalue] returns a symbol at or below the address such that no
    symbol lies strictly between, and none only when all lie above, whether it
    could sort the table and search by bisection or had to look at every
    symbol. The search terminates and leaves the symbols as they were. *)
Theorem getsymbyvalue_search (addr : Z) (room : bool) (st : symtab) (Hok : tab_ok st) :
  let r := getsymbyvalue addr room st in
  nearest st addr r.1 /\ tab_ok r.2 /\ heap r.2 = heap st /\ symhash r.2 = symhash st.
Proof.
  destruct (getsymbyvalue addr room st) as [r st'] eqn:E.
  destruct (getsymbyvalue_nearest _ _ _ _ _ Hok E) as (H1 & H2 & H3 & H4). done.
Qed.

Lemma one_sym_ok : tab_ok (newsym (str "main") 0x80020000 (Some 1%nat) empty_tab).2.
Proof. apply newsym_ok; [apply empty_tab_ok|done|done]. Qed.

Lemma getsymbyvalue_search_witness :
  let st := (newsym (str "main") 0x80020000 (Some 1%nat) empty_tab).2 in
  let r := getsymbyvalue 0x80020010 true st in
  nearest st 0x80020010 r.1 /\ tab_ok r.2 /\ heap r.2 = heap st /\ symhash r.2 = symhash st.
Proof. apply (getsymbyvalue_search 0x80020010 true). exact one_sym_ok. Defined.

(** The loop over [firstsym] and [nextsym] visits every symbol exactly
    once, in the order asked for when there was memory to sort. *)
Theorem walk_visits_all (t : sort_type) (room : bool) (st : symtab) (c : cursor) (Hok : tab_ok st) :
  let '(p, c', st', _) := firstsym t room st c in
  let l := walk (S (Z.to_nat (nsyms st'))) st' p c' in
  l ≡ₚ syms st /\ (room = true -> StronglySorted (fun p q => sort_cmp t (heap st) p q <= 0) l).
Proof.
  unfold firstsym. destruct (Z.eqb_spec (nsyms st) 0) as [E|E].
  { rewrite (tab_count st Hok) in E. cbn [walk].
    destruct (syms st) eqn:Es; [|cbn in E; lia]. split; [done|]. constructor. }
  destruct (getsort t room st) as [o st1] eqn:Eg.
  destruct (getsort_spec _ _ _ _ _ Hok Eg) as (Hok1 & Eh & Es & En & Ho).
  set (c0 := mkCur o [] 0).
  assert (forall l, symlst c0 = Some l -> (Z.to_nat (nsyms st1) <= length l)%nat) as Hlen.
  { intros l Hl. cbn in Hl. subst o. destruct Ho as [_ [Hp _]].
    rewrite (Permutation_length Hp), En, (tab_count st Hok). lia. }
  destruct (nextsym_spec st1 c0 Hlen) as (H1 & H2 & H3).
  destruct (nextsym st1 c0) as [p c1]. cbn [fst snd] in H1, H2, H3.
  assert (remaining st1 c0 ≡ₚ syms st /\
    (room = true -> StronglySorted (fun p q => sort_cmp t (heap st) p q <= 0) (remaining st1 c0)))
    as [Hperm Hsorted].
  { unfold remaining. cbn [symlst c0 symcur symno]. destruct o as [l|].
    - destruct Ho as [_ [Hp Hs]]. rewrite drop_0, take_ge; [done|].
      rewrite (Permutation_length Hp), En, (tab_count st Hok). lia.
    - rewrite drop_0, Es. split; [done|]. destruct Ho as [Ho| ->]; [lia|done]. }
  assert (length (remaining st1 c0) = Z.to_nat (nsyms st1)) as Hl.
  { rewrite (Permutation_length Hperm), En, (tab_count st Hok). lia. }
  rewrite walk_spec; [|by rewrite H3|].
  - rewrite H1, H2. by destruct (remaining st1 c0).
  - rewrite H2. destruct (remaining st1 c0); cbn in *; lia.
Qed.

Lemma walk_visits_all_witness :
  let st := (newsym (str "main") 0x80020000 (Some 1%nat) empty_tab).2 in
  let '(p, c', st', _) := firstsym ALPHA true st (mkCur None [] 0) in
  let l := walk (S (Z.to_nat (nsyms st'))) st' p c' in
  l ≡ₚ syms st /\ (true = true -> StronglySorted (fun p q => sort_cmp ALPHA (heap st) p q <= 0) l).
Proof.
  apply (walk_visits_all ALPHA true (newsym (str "main") 0x80020000 (Some 1%nat) empty_tab).2).
  exact one_sym_ok.
Defined.
