(* ===== verification/Memory.v ===== *)
(** * Memory: loads and stores of the monitor

    The access macros of [src/pmon/pmon.h] and the store routines of
    [src/pmon/commands.c], over a byte-addressed 32-bit memory, for both byte
    orders. The cache maintenance that follows each store has no effect on the
    contents of memory and is left out. *)

From S2P Require Import Prelude.

(** ** Byte strings and values *)

Definition le_val (bs : list Z) : Z := fold_right (fun b v => b + 256 * v) 0 bs.

Fixpoint le_bytes (n : nat) (v : Z) : list Z :=
  match n with
  | O => []
  | S n' => v mod 256 :: le_bytes n' (v / 256)
  end.

(** The value of the bytes at increasing addresses, and back. *)
Definition val_of (big : bool) (bs : list Z) : Z := le_val (if big then rev bs else bs).
Definition bytes_of (big : bool) (n : nat) (v : Z) : list Z :=
  if big then rev (le_bytes n v) else le_bytes n v.

Definition is_byte (b : Z) : Prop := 0 <= b < 256.
Definition bytes_ok (bs : list Z) : Prop := Forall is_byte bs.
Definition mem_ok (m : mem) : Prop := forall a, is_byte (m a).

Fixpoint load_bytes (m : mem) (a : Z) (n : nat) : list Z :=
  match n with
  | O => []
  | S n' => m (u32 a) :: load_bytes m (a + 1) n'
  end.

Fixpoint store_bytes (m : mem) (a : Z) (bs : list Z) : mem :=
  match bs with
  | [] => m
  | b :: bs' => store_bytes (upd m (u32 a) b) (a + 1) bs'
  end.

(** ** The accesses *)

(** [src/pmon/pmon.h:377] *)
Definition load_byte (m : mem) (adr : Z) : Z := s8 (m (u32 adr)).
(** [src/pmon/pmon.h:378] *)
Definition load_half (big : bool) (m : mem) (adr : Z) : Z :=
  wraps 16 (val_of big (load_bytes m adr 2)).
(** [src/pmon/pmon.h:379] *)
Definition load_word (big : bool) (m : mem) (adr : Z) : Z :=
  s32 (val_of big (load_bytes m adr 4)).
(** [src/pmon/pmon.h:380] *)
Definition load_dword (big : bool) (m : mem) (adr : Z) : Z :=
  s64 (val_of big (load_bytes m adr 8)).

(** [src/pmon/commands.c:558-565] *)
Definition store_dword (big : bool) (m : mem) (adr v : Z) : mem :=
  store_bytes m adr (bytes_of big 8 v).
(** [src/pmon/commands.c:567-574] *)
Definition store_word (big : bool) (m : mem) (adr v : Z) : mem :=
  store_bytes m adr (bytes_of big 4 v).
(** [src/pmon/commands.c:576-583] *)
Definition store_half (big : bool) (m : mem) (adr v : Z) : mem :=
  store_bytes m adr (bytes_of big 2 v).
(** [src/pmon/commands.c:585-592] *)
Definition store_byte (m : mem) (adr v : Z) : mem := upd m (u32 adr) (u8 v).

(** [src/pmon/pmon.h:376] *)
Definition getfield (w s p : Z) : Z :=
  Z.shiftr (Z.land (u32 w) (Z.shiftl (Z.shiftl 1 s - 1) p)) p.

(** The string at an address, if it ends within [fuel] characters. *)
Fixpoint mem_str (fuel : nat) (m : mem) (a : Z) : option cstr :=
  match fuel with
  | O => None
  | S f => let c := s8 (m (u32 a)) in if c =? 0 then Some [] else s ← mem_str f m (a + 1); Some (c :: s)
  end.

(** ** Lemmas *)

Lemma le_bytes_length n v : length (le_bytes n v) = n.
Proof. revert v. induction n as [|n IH]; intros v; cbn; [done|]. by rewrite IH. Qed.

Lemma bytes_of_length big n v : length (bytes_of big n v) = n.
Proof. unfold bytes_of. destruct big; rewrite ?length_rev; apply le_bytes_length. Qed.

Lemma le_bytes_ok n v : bytes_ok (le_bytes n v).
Proof.
  revert v. induction n as [|n IH]; intros v; constructor; [|apply IH].
  apply Z.mod_pos_bound. lia.
Qed.

Lemma Forall_rev_list {A} (P : A -> Prop) l : Forall P l -> Forall P (rev l).
Proof. apply List.Forall_rev. Qed.

Lemma bytes_of_ok big n v : bytes_ok (bytes_of big n v).
Proof.
  unfold bytes_of, bytes_ok. destruct big; [apply Forall_rev_list|]; apply le_bytes_ok.
Qed.

Lemma le_val_bytes n v : le_val (le_bytes n v) = v mod 256 ^ Z.of_nat n.
Proof.
  revert v. induction n as [|n IH]; intros v.
  - cbn. by rewrite Z.mod_1_r.
  - cbn [le_bytes le_val fold_right]. fold (le_val (le_bytes n (v / 256))). rewrite IH.
    rewrite Nat2Z.inj_succ, Z.pow_succ_r, (Z.rem_mul_r v 256) by
      (try apply Z.pow_pos_nonneg; lia). lia.
Qed.

Lemma le_bytes_val bs : bytes_ok bs -> le_bytes (length bs) (le_val bs) = bs.
Proof.
  intros H. induction H as [|b bs Hb Hbs IH]; [done|]. unfold is_byte in Hb.
  cbn [length le_bytes le_val fold_right]. fold (le_val bs).
  rewrite (Z.mul_comm 256), Z_mod_plus_full, Z.mod_small by lia.
  rewrite Z_div_plus_full, Z.div_small, Z.add_0_l, IH by lia. done.
Qed.

Lemma val_of_bytes big n v : val_of big (bytes_of big n v) = v mod 256 ^ Z.of_nat n.
Proof. unfold val_of, bytes_of. destruct big; rewrite ?rev_involutive; apply le_val_bytes. Qed.

Lemma bytes_of_val big bs : bytes_ok bs -> bytes_of big (length bs) (val_of big bs) = bs.
Proof.
  intros H. unfold val_of, bytes_of. destruct big; [|by apply le_bytes_val].
  rewrite <- (length_rev bs), le_bytes_val by (by apply Forall_rev_list). apply rev_involutive.
Qed.

(** A value written in [n] bytes depends only on its low [8 n] bits. *)
Lemma le_bytes_mod n v w : v mod 256 ^ Z.of_nat n = w mod 256 ^ Z.of_nat n ->
  le_bytes n v = le_bytes n w.
Proof.
  intros E. rewrite <- (le_bytes_val (le_bytes n v)), <- (le_bytes_val (le_bytes n w))
    by apply le_bytes_ok. by rewrite !le_bytes_length, !le_val_bytes, E.
Qed.

Lemma bytes_of_mod big n v w : v mod 256 ^ Z.of_nat n = w mod 256 ^ Z.of_nat n ->
  bytes_of big n v = bytes_of big n w.
Proof. intros E. unfold bytes_of. by rewrite (le_bytes_mod n v w E). Qed.

Lemma load_bytes_length m a n : length (load_bytes m a n) = n.
Proof. revert a. induction n as [|n IH]; intros a; cbn; [done|]. by rewrite IH. Qed.

Lemma load_bytes_ok m a n : mem_ok m -> bytes_ok (load_bytes m a n).
Proof. intros Hm. revert a. induction n as [|n IH]; intros a; constructor; [apply Hm|apply IH]. Qed.

Lemma load_bytes_app m a i j :
  load_bytes m a (i + j) = load_bytes m a i ++ load_bytes m (a + Z.of_nat i) j.
Proof.
  revert a. induction i as [|i IH]; intros a; cbn [Nat.add load_bytes app].
  - by rewrite Z.add_0_r.
  - rewrite IH. f_equal. f_equal. f_equal. lia.
Qed.

Lemma store_bytes_app m a bs cs :
  store_bytes m a (bs ++ cs) = store_bytes (store_bytes m a bs) (a + Z.of_nat (length bs)) cs.
Proof.
  revert m a. induction bs as [|b bs IH]; intros m a; cbn [app store_bytes length].
  - by rewrite Z.add_0_r.
  - rewrite IH. f_equal. lia.
Qed.

#[export] Instance store_bytes_proper : Proper (mem_eq ==> eq ==> eq ==> mem_eq) store_bytes.
Proof.
  intros m1 m2 Hm a ? <- bs ? <-. revert m1 m2 a Hm.
  induction bs as [|b bs IH]; intros m1 m2 a Hm; [done|]. cbn. apply IH. by rewrite Hm.
Qed.

#[export] Instance load_bytes_proper : Proper (mem_eq ==> eq ==> eq ==> eq) load_bytes.
Proof.
  intros m1 m2 Hm a ? <- n ? <-. revert a.
  induction n as [|n IH]; intros a; [done|]. cbn. by rewrite (Hm (u32 a)), IH.
Qed.

#[export] Instance load_word_proper big : Proper (mem_eq ==> eq ==> eq) (load_word big).
Proof. intros m1 m2 Hm a ? <-. unfold load_word. by rewrite Hm. Qed.

#[export] Instance store_word_proper big : Proper (mem_eq ==> eq ==> eq ==> mem_eq) (store_word big).
Proof. intros m1 m2 Hm a ? <- v ? <-. unfold store_word. by rewrite Hm. Qed.

(** An access that does not run past the end of the address space. *)
Definition in_space (a : Z) (n : nat) : Prop := 0 <= a /\ a + Z.of_nat n <= 2 ^ 32.

Lemma store_bytes_at m a bs x :
  in_space a (length bs) ->
  store_bytes m a bs x =
    if (a <=? x) && (x <? a + Z.of_nat (length bs))
    then default 0 (bs !! Z.to_nat (x - a)) else m x.
Proof.
  revert m a. induction bs as [|b bs IH]; intros m a [Ha Hl]; cbn [store_bytes length].
  - destruct (Z.leb_spec a x), (Z.ltb_spec x (a + Z.of_nat 0)); cbn; try done. lia.
  - cbn [length] in Hl. rewrite IH by (split; lia). rewrite u32_small by lia. unfold upd.
    destruct (Z.leb_spec (a + 1) x), (Z.leb_spec a x),
      (Z.ltb_spec x (a + 1 + Z.of_nat (length bs))), (Z.ltb_spec x (a + Z.of_nat (S (length bs)))),
      (Z.eqb_spec x a); cbn [andb]; try lia; try done.
    + replace (Z.to_nat (x - a)) with (S (Z.to_nat (x - (a + 1)))) by lia. done.
    + subst. by rewrite Z.sub_diag.
Qed.

Lemma load_bytes_at m a n i :
  in_space a n -> (i < n)%nat -> load_bytes m a n !! i = Some (m (a + Z.of_nat i)).
Proof.
  revert a i. induction n as [|n IH]; intros a i [Ha Hl] Hi; [lia|]. cbn [load_bytes].
  destruct i as [|i].
  - cbn. rewrite u32_small by lia. by rewrite Z.add_0_r.
  - cbn. rewrite IH by (try split; lia). do 2 f_equal. lia.
Qed.

Lemma load_store_bytes m a bs :
  in_space a (length bs) -> load_bytes (store_bytes m a bs) a (length bs) = bs.
Proof.
  intros Hs. apply list_eq. intros i. destruct (decide (i < length bs)%nat).
  - rewrite load_bytes_at by done. rewrite store_bytes_at by done.
    destruct (Z.leb_spec a (a + Z.of_nat i)), (Z.ltb_spec (a + Z.of_nat i) (a + Z.of_nat (length bs)));
      try lia. cbn [andb]. replace (Z.to_nat (a + Z.of_nat i - a)) with i by lia.
    by destruct (lookup_lt_is_Some_2 bs i) as [b ->]; [lia|].
  - rewrite !lookup_ge_None_2; [done|lia|rewrite load_bytes_length; lia].
Qed.

Lemma store_load_bytes m a n : in_space a n -> store_bytes m a (load_bytes m a n) =m= m.
Proof.
  intros Hs x. rewrite store_bytes_at by (by rewrite load_bytes_length). rewrite load_bytes_length.
  destruct (Z.leb_spec a x), (Z.ltb_spec x (a + Z.of_nat n)); cbn [andb]; try done.
  rewrite load_bytes_at by (done || lia). cbn. unfold id. f_equal. lia.
Qed.

Lemma store_store_bytes m a bs cs :
  in_space a (length bs) -> length bs = length cs ->
  store_bytes (store_bytes m a bs) a cs =m= store_bytes m a cs.
Proof.
  intros Hs El x. rewrite !store_bytes_at by (by rewrite <- ?El). rewrite El.
  by destruct (_ && _).
Qed.

(** Two stores that do not overlap commute, and a load does not see a store
    beside it. *)
Definition apart (a : Z) (n : nat) (b : Z) (k : nat) : Prop :=
  a + Z.of_nat n <= b \/ b + Z.of_nat k <= a.

Lemma store_comm m a bs b cs :
  in_space a (length bs) -> in_space b (length cs) -> apart a (length bs) b (length cs) ->
  store_bytes (store_bytes m a bs) b cs =m= store_bytes (store_bytes m b cs) a bs.
Proof.
  intros Ha Hb Hd x. rewrite !store_bytes_at by done.
  destruct (Z.leb_spec a x), (Z.leb_spec b x), (Z.ltb_spec x (a + Z.of_nat (length bs))),
    (Z.ltb_spec x (b + Z.of_nat (length cs))); cbn [andb]; try done.
  unfold apart in Hd. lia.
Qed.

Lemma load_store_apart m a n b cs :
  in_space a n -> in_space b (length cs) -> apart a n b (length cs) ->
  load_bytes (store_bytes m b cs) a n = load_bytes m a n.
Proof.
  intros Ha Hb Hd. apply list_eq. intros i. destruct (decide (i < n)%nat).
  - rewrite !load_bytes_at by done. f_equal. rewrite store_bytes_at by done. unfold apart in Hd.
    destruct (Z.leb_spec b (a + Z.of_nat i)), (Z.ltb_spec (a + Z.of_nat i) (b + Z.of_nat (length cs)));
      cbn [andb]; try done. lia.
  - rewrite !lookup_ge_None_2; rewrite ?load_bytes_length; try lia. done.
Qed.

Lemma load_store_word big m a v : in_space a 4 -> load_word big (store_word big m a v) a = s32 v.
Proof.
  intros Ha. unfold load_word, store_word.
  pose proof (load_store_bytes m a (bytes_of big 4 v)) as H. rewrite bytes_of_length in H.
  rewrite H by done. rewrite val_of_bytes. change (256 ^ Z.of_nat 4) with (2 ^ 32).
  apply wraps_wrapu.
Qed.

Lemma store_load_word big m a : mem_ok m -> in_space a 4 -> store_word big m a (load_word big m a) =m= m.
Proof.
  intros Hm Ha. unfold store_word, load_word.
  assert (bytes_of big 4 (s32 (val_of big (load_bytes m a 4))) = load_bytes m a 4) as ->.
  { rewrite (bytes_of_mod big 4 _ (val_of big (load_bytes m a 4))).
    - pose proof (bytes_of_val big (load_bytes m a 4)) as H. rewrite load_bytes_length in H.
      apply H. by apply load_bytes_ok.
    - change (256 ^ Z.of_nat 4) with (2 ^ 32). apply wrapu_wraps. }
  by apply store_load_bytes.
Qed.

Lemma store_bytes_mem_ok m a bs : mem_ok m -> bytes_ok bs -> mem_ok (store_bytes m a bs).
Proof.
  intros Hm Hb. revert m a Hm. induction Hb as [|b bs Hb Hbs IH]; intros m a Hm; [done|].
  cbn. apply IH. intros x. unfold upd. destruct (x =? u32 a); [done|apply Hm].
Qed.

(** Without any condition on the address: writing back what was read, and
    writing twice at the same place. *)
Lemma store_load_back m a n : store_bytes m a (load_bytes m a n) =m= m.
Proof.
  revert m a. induction n as [|n IH]; intros m a; [done|]. cbn [load_bytes store_bytes].
  transitivity (store_bytes m (a + 1) (load_bytes m (a + 1) n)); [|apply IH].
  by rewrite upd_id.
Qed.

Lemma store_bytes_agree m1 m2 a bs :
  (forall x, (forall i, (i < length bs)%nat -> x <> u32 (a + Z.of_nat i)) -> m1 x = m2 x) ->
  store_bytes m1 a bs =m= store_bytes m2 a bs.
Proof.
  revert m1 m2 a. induction bs as [|b bs IH]; intros m1 m2 a Hag.
  { intros x. apply Hag. cbn. lia. }
  cbn [store_bytes]. apply IH. intros x Hx. unfold upd. destruct (Z.eqb_spec x (u32 a)); [done|].
  apply Hag. intros i Hi. destruct i as [|i]; [by rewrite Z.add_0_r|].
  cbn [length] in Hi. replace (a + Z.of_nat (S i)) with (a + 1 + Z.of_nat i) by lia. apply Hx. lia.
Qed.

Lemma store_bytes_outside m a bs x :
  (forall i, (i < length bs)%nat -> x <> u32 (a + Z.of_nat i)) -> store_bytes m a bs x = m x.
Proof.
  revert m a. induction bs as [|b bs IH]; intros m a Hx; [done|]. cbn [store_bytes length] in *. rewrite IH.
  - unfold upd. rewrite (proj2 (Z.eqb_neq x (u32 a))); [done|].
    specialize (Hx 0%nat). rewrite Z.add_0_r in Hx. apply Hx. lia.
  - intros i Hi. replace (a + 1 + Z.of_nat i) with (a + Z.of_nat (S i)) by lia. apply Hx. lia.
Qed.

Lemma store_store_back m a bs cs :
  length bs = length cs -> store_bytes (store_bytes m a bs) a cs =m= store_bytes m a cs.
Proof.
  intros El. apply store_bytes_agree. intros x Hx. apply store_bytes_outside. by rewrite El.
Qed.

Lemma store_word_back big m a v :
  mem_ok m -> store_word big (store_word big m a v) a (load_word big m a) =m= m.
Proof.
  intros Hm. unfold store_word. rewrite store_store_back by (by rewrite !bytes_of_length).
  unfold load_word.
  assert (bytes_of big 4 (s32 (val_of big (load_bytes m a 4))) = load_bytes m a 4) as ->.
  { rewrite (bytes_of_mod big 4 _ (val_of big (load_bytes m a 4))).
    - pose proof (bytes_of_val big (load_bytes m a 4)) as H. rewrite load_bytes_length in H.
      apply H. by apply load_bytes_ok.
    - change (256 ^ Z.of_nat 4) with (2 ^ 32). apply wrapu_wraps. }
  apply store_load_back.
Qed.

Lemma u32_step_ne a i : 0 < i < 2 ^ 32 -> u32 a <> u32 (a + i).
Proof.
  intros Hi E. unfold u32, wrapu in E. pose proof (Z.div_mod a (2 ^ 32)). pose proof (Z.div_mod (a + i) (2 ^ 32)).
  assert (i = 2 ^ 32 * ((a + i) / 2 ^ 32 - a / 2 ^ 32)) as Ei by lia.
  destruct (Z.le_gt_cases ((a + i) / 2 ^ 32 - a / 2 ^ 32) 0); nia.
Qed.

Lemma load_store_back m a bs :
  Z.of_nat (length bs) <= 2 ^ 32 -> load_bytes (store_bytes m a bs) a (length bs) = bs.
Proof.
  revert m a. induction bs as [|b bs IH]; intros m a Hl; [done|]. cbn [length load_bytes store_bytes] in *.
  f_equal.
  - rewrite store_bytes_outside; [apply upd_eq|]. intros i Hi.
    replace (a + 1 + Z.of_nat i) with (a + (1 + Z.of_nat i)) by lia. apply u32_step_ne. lia.
  - apply IH. lia.
Qed.

Lemma load_store_word_back big m a v : load_word big (store_word big m a v) a = s32 v.
Proof.
  unfold load_word, store_word. pose proof (load_store_back m a (bytes_of big 4 v)) as H.
  rewrite bytes_of_length in H. rewrite H by (change (Z.of_nat 4) with 4; lia). rewrite val_of_bytes.
  change (256 ^ Z.of_nat 4) with (2 ^ 32). apply wraps_wrapu.
Qed.

Lemma store_word_u32 big m a v : store_word big m a (u32 v) = store_word big m a v.
Proof.
  unfold store_word. f_equal. apply bytes_of_mod. change (256 ^ Z.of_nat 4) with (2 ^ 32). apply Z.mod_mod. lia.
Qed.

(** ** Words

    The aligned words, and the word at an address as an unsigned number. *)
Definition aligned (a : Z) : Prop := 0 <= a < 2 ^ 32 /\ a mod 4 = 0.

Definition word (big : bool) (m : mem) (a : Z) : Z := u32 (load_word big m a).

Lemma aligned_space a : aligned a -> in_space a 4.
Proof.
  intros [Ha Hm]. split; [lia|]. pose proof (Z.div_mod a 4). lia.
Qed.

Lemma aligned_apart a b : aligned a -> aligned b -> a <> b -> apart a 4 b 4.
Proof.
  intros [Ha Hma] [Hb Hmb] Hne. unfold apart. pose proof (Z.div_mod a 4). pose proof (Z.div_mod b 4). lia.
Qed.

Lemma word_store_eq big m a v : aligned a -> word big (store_word big m a v) a = u32 v.
Proof.
  intros Ha. unfold word. rewrite load_store_word by (by apply aligned_space). apply wrapu_wraps.
Qed.

Lemma word_store_ne big m a b v :
  aligned a -> aligned b -> a <> b -> word big (store_word big m a v) b = word big m b.
Proof.
  intros Ha Hb Hne. unfold word, load_word, store_word. rewrite load_store_apart; [done|by apply aligned_space| |].
  - rewrite bytes_of_length. by apply aligned_space.
  - rewrite bytes_of_length. by apply aligned_apart.
Qed.

Lemma word_bytes big m1 m2 a :
  mem_ok m1 -> mem_ok m2 -> word big m1 a = word big m2 a -> load_bytes m1 a 4 = load_bytes m2 a 4.
Proof.
  intros H1 H2 E. unfold word, load_word in E.
  rewrite <- (bytes_of_val big (load_bytes m1 a 4)), <- (bytes_of_val big (load_bytes m2 a 4))
    by (by apply load_bytes_ok). rewrite !load_bytes_length. apply bytes_of_mod.
  rewrite !wrapu_wraps in E. exact E.
Qed.

(** Two memories with the same words, and the same outside the address space,
    are the same. *)
Lemma words_mem_eq big m1 m2 :
  mem_ok m1 -> mem_ok m2 -> (forall a, aligned a -> word big m1 a = word big m2 a) ->
  (forall x, ~ 0 <= x < 2 ^ 32 -> m1 x = m2 x) -> m1 =m= m2.
Proof.
  intros H1 H2 Hw Ho x. destruct (decide (0 <= x < 2 ^ 32)) as [Hx|Hx]; [|by apply Ho].
  set (a := 4 * (x / 4)). pose proof (Z.div_mod x 4). pose proof (Z.mod_pos_bound x 4).
  assert (aligned a) as Ha.
  { split; [lia|]. unfold a. rewrite Z.mul_comm. apply Z.mod_mul. lia. }
  pose proof (word_bytes big m1 m2 a H1 H2 (Hw a Ha)) as Hb.
  apply (f_equal (fun l => l !! Z.to_nat (x mod 4))) in Hb.
  rewrite !load_bytes_at in Hb by (try apply aligned_space; try done; lia).
  injection Hb as Hb. rewrite Z2Nat.id in Hb by lia. replace (a + x mod 4) with x in Hb by lia. done.
Qed.

#[export] Instance word_proper big : Proper (mem_eq ==> eq ==> eq) (word big).
Proof. intros m1 m2 Hm a ? <-. unfold word. by rewrite Hm. Qed.
