(* ===== verification/Mips.v ===== *)
(** * Mips: the instruction table

    [src/pmon/machine.c], in the configuration without [LR33000] and [LR33020]:
    the table of mnemonics, its lookup with the one-entry cache, and the
    questions single-stepping asks of an instruction: is it a branch, is it
    conditional, where does it go, does it write the return address. Masks,
    codes and instructions are unsigned 32-bit words.

    The theorems: the lookup terminates for every word and the cache does not
    change its answers; an instruction is classified as a branch exactly when
    its fields say so; and four entries of the table can never be found. *)

From S2P Require Import Prelude Memory.

(** [src/pmon/pmon.h:201-209] *)
Inductive TYPE : Type :=
| RD_RS_RT | RT_RS_IMM | OFF | RS_RT_OFF | RS_OFF | NONE | RT_RD | COFUN | RD_RT
| RS_RT | TARGET | JALR | RS | RD_RT_SFT | LOAD_STORE | RT_IMM | RD | RD_RT_RS | RD_RS
| RT_RS_SIMM | RS_SIMM | RT_SIMM | JR | RT_C0 | RT_C1 | RT_CN | RT_CC1 | LDSTC0 | LDSTC1
| LDSTCN | WORD | RT_C2 | RT_CC2 | BPCODE | CACHE_OP
| CP_OFF | STORE | STOREC1 | STORECN
| FT_FS_FD_D | FT_FS_FD_S | FS_FD_D | FS_FD_S | FS_FD_W | FS_FD_L | FT_FS_D | FT_FS_S
| RT_RD_TO | RT_CC1_TO | RT_CN_TO | RT_C0_TO | RT_C1_TO.

(** [src/pmon/pmon.h:211-215] *)
Record DISTBL : Type := row { d_str : string; d_mask : Z; d_code : Z; d_type : TYPE }.

(** [src/pmon/machine.c:7-21] *)
Definition distbl_alias : list DISTBL :=
  [ row "nop" 0xffffffff 0x00000000 NONE;
    row "li" 0xffe00000 0x24000000 RT_SIMM;
    row "li" 0xffe00000 0x34000000 RT_IMM;
    row "move" 0xfc1f07ff 0x00000021 RD_RS;
    row "move" 0xfc1f07ff 0x00000025 RD_RS;
    row "neg" 0xffe007ff 0x00000022 RD_RT;
    row "negu" 0xffe007ff 0x00000023 RD_RT;
    row "dmove" 0xfc1f07ff 0x0000002d RD_RS;
    row "dneg" 0xffe007ff 0x0000002e RD_RT;
    row "dnegu" 0xffe007ff 0x0000002f RD_RT;
    row "not" 0xfc1f07ff 0x00000027 RD_RS;
    row "b" 0xffff0000 0x10000000 OFF;
    row "b" 0xffff0000 0x04010000 OFF;
    row "bal" 0xffff0000 0x04110000 OFF ].

(** [src/pmon/machine.c:23-75] *)
Definition distbl_branch : list DISTBL :=
  [ row "add" 0xfc0007ff 0x00000020 RD_RS_RT;
    row "addi" 0xfc000000 0x20000000 RT_RS_SIMM;
    row "addiu" 0xfc000000 0x24000000 RT_RS_SIMM;
    row "addu" 0xfc0007ff 0x00000021 RD_RS_RT;
    row "dadd" 0xfc0007ff 0x0000002c RD_RS_RT;
    row "daddi" 0xfc000000 0x60000000 RT_RS_SIMM;
    row "daddiu" 0xfc000000 0x64000000 RT_RS_SIMM;
    row "daddu" 0xfc0007ff 0x0000002d RD_RS_RT;
    row "and" 0xfc0007ff 0x00000024 RD_RS_RT;
    row "andi" 0xfc000000 0x30000000 RT_RS_IMM;
    row "bc0f" 0xffff0000 0x41000000 CP_OFF;
    row "bc1f" 0xffff0000 0x45000000 CP_OFF;
    row "bc2f" 0xffff0000 0x49000000 CP_OFF;
    row "bc3f" 0xffff0000 0x4d000000 CP_OFF;
    row "bc0t" 0xffff0000 0x41010000 CP_OFF;
    row "bc1t" 0xffff0000 0x45010000 CP_OFF;
    row "bc2t" 0xffff0000 0x49010000 CP_OFF;
    row "bc3t" 0xffff0000 0x4d010000 CP_OFF;
    row "bc0fl" 0xffff0000 0x41020000 CP_OFF;
    row "bc1fl" 0xffff0000 0x45020000 CP_OFF;
    row "bc2fl" 0xffff0000 0x49020000 CP_OFF;
    row "bc3fl" 0xffff0000 0x4d020000 CP_OFF;
    row "bc0tl" 0xffff0000 0x41030000 CP_OFF;
    row "bc1tl" 0xffff0000 0x45030000 CP_OFF;
    row "bc2tl" 0xffff0000 0x49030000 CP_OFF;
    row "bc3tl" 0xffff0000 0x4d030000 CP_OFF;
    row "beq" 0xfc000000 0x10000000 RS_RT_OFF;
    row "bne" 0xfc000000 0x14000000 RS_RT_OFF;
    row "blez" 0xfc1f0000 0x18000000 RS_OFF;
    row "bgtz" 0xfc1f0000 0x1c000000 RS_OFF;
    row "beql" 0xfc000000 0x50000000 RS_RT_OFF;
    row "bnel" 0xfc000000 0x54000000 RS_RT_OFF;
    row "blezl" 0xfc1f0000 0x58000000 RS_OFF;
    row "bgtzl" 0xfc1f0000 0x5c000000 RS_OFF;
    row "bltz" 0xfc1f0000 0x04000000 RS_OFF;
    row "bgez" 0xfc1f0000 0x04010000 RS_OFF;
    row "bltzl" 0xfc1f0000 0x04020000 RS_OFF;
    row "bgezl" 0xfc1f0000 0x04030000 RS_OFF;
    row "bltzal" 0xfc1f0000 0x04100000 RS_OFF;
    row "bgezal" 0xfc1f0000 0x04110000 RS_OFF;
    row "bltzall" 0xfc1f0000 0x04120000 RS_OFF;
    row "bgezall" 0xfc1f0000 0x04130000 RS_OFF ].

(** [src/pmon/machine.c:77-95] *)
Definition distbl_cop : list DISTBL :=
  [ row "break" 0xfc00003f 0x0000000d BPCODE;
    row "cache" 0xfc000000 0xbc000000 CACHE_OP;
    row "cfc0" 0xffe007ff 0x40400000 RT_RD;
    row "cfc1" 0xffe007ff 0x44400000 RT_CC1;
    row "cfc2" 0xffe007ff 0x48400000 RT_CN;
    row "cfc3" 0xffe007ff 0x4c400000 RT_CN;
    row "tlbp" 0xffffffff 0x42000008 NONE;
    row "tlbr" 0xffffffff 0x42000001 NONE;
    row "tlbwi" 0xffffffff 0x42000002 NONE;
    row "tlbwr" 0xffffffff 0x42000006 NONE;
    row "rfe" 0xffffffff 0x42000010 NONE;
    row "eret" 0xffffffff 0x42000018 NONE;
    row "cop0" 0xfe000000 0x42000000 COFUN ].

(** [src/pmon/machine.c:97-175] *)
Definition distbl_fp : list DISTBL :=
  [ row "add.s" 0xfee0003f 0x46000000 FT_FS_FD_S;
    row "add.d" 0xfee0003f 0x46200000 FT_FS_FD_D;
    row "sub.s" 0xfee0003f 0x46000001 FT_FS_FD_S;
    row "sub.d" 0xfee0003f 0x46200001 FT_FS_FD_D;
    row "mul.s" 0xfee0003f 0x46000002 FT_FS_FD_S;
    row "mul.d" 0xfee0003f 0x46200002 FT_FS_FD_D;
    row "div.s" 0xfee0003f 0x46000003 FT_FS_FD_S;
    row "div.d" 0xfee0003f 0x46200003 FT_FS_FD_D;
    row "abs.s" 0xfee0003f 0x46000005 FS_FD_S;
    row "abs.d" 0xfee0003f 0x46200005 FS_FD_D;
    row "mov.s" 0xfee0003f 0x46000006 FS_FD_S;
    row "mov.d" 0xfee0003f 0x46200006 FS_FD_D;
    row "neg.s" 0xfee0003f 0x46000007 FS_FD_S;
    row "neg.d" 0xfee0003f 0x46200007 FS_FD_D;
    row "sqrt.d" 0xfee0003f 0x46200004 FS_FD_D;
    row "sqrt.s" 0xfee0003f 0x46000004 FS_FD_S;
    row "c.f.s" 0xfee0003f 0x46000030 FT_FS_S;
    row "c.f.d" 0xfee0003f 0x46200030 FT_FS_D;
    row "c.un.s" 0xfee0003f 0x46000031 FT_FS_S;
    row "c.un.d" 0xfee0003f 0x46200031 FT_FS_D;
    row "c.eq.s" 0xfee0003f 0x46000032 FT_FS_S;
    row "c.eq.d" 0xfee0003f 0x46200032 FT_FS_D;
    row "c.ueq.s" 0xfee0003f 0x46000033 FT_FS_S;
    row "c.ueq.d" 0xfee0003f 0x46200033 FT_FS_D;
    row "c.olt.s" 0xfee0003f 0x46000034 FT_FS_S;
    row "c.olt.d" 0xfee0003f 0x46200034 FT_FS_D;
    row "c.ult.s" 0xfee0003f 0x46000035 FT_FS_S;
    row "c.ult.d" 0xfee0003f 0x46200035 FT_FS_D;
    row "c.ole.s" 0xfee0003f 0x46000036 FT_FS_S;
    row "c.ole.d" 0xfee0003f 0x46200036 FT_FS_D;
    row "c.ule.s" 0xfee0003f 0x46000037 FT_FS_S;
    row "c.ule.d" 0xfee0003f 0x46200037 FT_FS_D;
    row "c.sf.s" 0xfee0003f 0x46000038 FT_FS_S;
    row "c.sf.d" 0xfee0003f 0x46200038 FT_FS_D;
    row "c.ngle.s" 0xfee0003f 0x46000039 FT_FS_S;
    row "c.ngle.d" 0xfee0003f 0x46200039 FT_FS_D;
    row "c.seq.s" 0xfee0003f 0x4600003a FT_FS_S;
    row "c.seq.d" 0xfee0003f 0x4620003a FT_FS_D;
    row "c.ngl.s" 0xfee0003f 0x4600003b FT_FS_S;
    row "c.ngl.d" 0xfee0003f 0x4620003b FT_FS_D;
    row "c.lt.s" 0xfee0003f 0x4600003c FT_FS_S;
    row "c.lt.d" 0xfee0003f 0x4620003c FT_FS_D;
    row "c.nge.s" 0xfee0003f 0x4600003d FT_FS_S;
    row "c.nge.d" 0xfee0003f 0x4620003d FT_FS_D;
    row "c.le.s" 0xfee0003f 0x4600003e FT_FS_S;
    row "c.le.d" 0xfee0003f 0x4620003e FT_FS_D;
    row "c.ngt.s" 0xfee0003f 0x4600003f FT_FS_S;
    row "c.ngt.d" 0xfee0003f 0x4620003f FT_FS_D;
    row "cvt.s.w" 0xfee0003f 0x46800020 FS_FD_W;
    row "cvt.s.l" 0xfee0003f 0x46a00020 FS_FD_L;
    row "cvt.s.d" 0xfee0003f 0x46200020 FS_FD_D;
    row "cvt.d.s" 0xfee0003f 0x46000021 FS_FD_S;
    row "cvt.d.w" 0xfee0003f 0x46800021 FS_FD_W;
    row "cvt.d.l" 0xfee0003f 0x46a00021 FS_FD_L;
    row "cvt.w.d" 0xfee0003f 0x46200024 FS_FD_D;
    row "cvt.w.s" 0xfee0003f 0x46000024 FS_FD_S;
    row "cvt.l.d" 0xfee0003f 0x46200025 FS_FD_D;
    row "cvt.l.s" 0xfee0003f 0x46000025 FS_FD_S;
    row "ceil.l.d" 0xffff003f 0x4620000a FS_FD_L;
    row "ceil.l.s" 0xffff003f 0x4600000a FS_FD_L;
    row "ceil.w.d" 0xffff003f 0x4620000e FS_FD_W;
    row "ceil.w.s" 0xffff003f 0x4600000e FS_FD_W;
    row "floor.l.d" 0xffff003f 0x4620000b FS_FD_L;
    row "floor.l.s" 0xffff003f 0x4600000b FS_FD_L;
    row "floor.w.d" 0xffff003f 0x4620000f FS_FD_W;
    row "floor.w.s" 0xffff003f 0x4600000f FS_FD_W;
    row "round.l.d" 0xffff003f 0x46200008 FS_FD_L;
    row "round.l.s" 0xffff003f 0x46000008 FS_FD_L;
    row "round.w.d" 0xffff003f 0x4620000c FS_FD_W;
    row "round.w.s" 0xffff003f 0x4600000c FS_FD_W;
    row "trunc.l.d" 0xffff003f 0x46200009 FS_FD_L;
    row "trunc.l.s" 0xffff003f 0x46000009 FS_FD_L;
    row "trunc.w.d" 0xffff003f 0x4620000d FS_FD_W;
    row "trunc.w.s" 0xffff003f 0x4600000d FS_FD_W;
    row "cop1" 0xfe000000 0x46000000 COFUN ].

(** [src/pmon/machine.c:208-296] *)
Definition distbl_move : list DISTBL :=
  [ row "cop2" 0xfe000000 0x4a000000 COFUN;
    row "cop3" 0xfe000000 0x4e000000 COFUN;
    row "ctc0" 0xffe007ff 0x40c00000 RT_RD_TO;
    row "ctc1" 0xffe007ff 0x44c00000 RT_CC1_TO;
    row "ctc2" 0xffe007ff 0x48c00000 RT_CN_TO;
    row "ctc3" 0xffe007ff 0x4cc00000 RT_CN_TO;
    row "div" 0xfc00ffff 0x0000001a RS_RT;
    row "divu" 0xfc00ffff 0x0000001b RS_RT;
    row "ddiv" 0xfc00ffff 0x0000001e RS_RT;
    row "ddivu" 0xfc00ffff 0x0000001f RS_RT;
    row "j" 0xfc000000 0x08000000 TARGET;
    row "jal" 0xfc000000 0x0c000000 TARGET;
    row "jalr" 0xfc1f07ff 0x00000009 JALR;
    row "jr" 0xfc1fffff 0x00000008 JR;
    row "lui" 0xfc000000 0x3c000000 RT_IMM;
    row "lb" 0xfc000000 0x80000000 LOAD_STORE;
    row "lbu" 0xfc000000 0x90000000 LOAD_STORE;
    row "lh" 0xfc000000 0x84000000 LOAD_STORE;
    row "lhu" 0xfc000000 0x94000000 LOAD_STORE;
    row "lw" 0xfc000000 0x8c000000 LOAD_STORE;
    row "lwl" 0xfc000000 0x88000000 LOAD_STORE;
    row "lwr" 0xfc000000 0x98000000 LOAD_STORE;
    row "lwu" 0xfc000000 0x9c000000 LOAD_STORE;
    row "ldl" 0xfc000000 0x68000000 LOAD_STORE;
    row "ldr" 0xfc000000 0x6c000000 LOAD_STORE;
    row "ll" 0xfc000000 0xc0000000 LOAD_STORE;
    row "lwc1" 0xfc000000 0xc4000000 LDSTC1;
    row "lwc2" 0xfc000000 0xc8000000 LDSTCN;
    row "lwc3" 0xfc000000 0xcc000000 LDSTCN;
    row "lld" 0xfc000000 0xd0000000 LOAD_STORE;
    row "ldc1" 0xfc000000 0xd4000000 LDSTC1;
    row "ldc2" 0xfc000000 0xd8000000 LDSTCN;
    row "ld" 0xfc000000 0xdc000000 LOAD_STORE;
    row "mfc0" 0xffe007ff 0x40000000 RT_C0;
    row "mfc1" 0xffe007ff 0x44000000 RT_C1;
    row "mfc2" 0xffe007ff 0x48000000 RT_CN;
    row "mfc3" 0xffe007ff 0x4c000000 RT_CN;
    row "dmfc0" 0xffe007ff 0x40200000 RT_C0;
    row "dmfc1" 0xffe007ff 0x44200000 RT_C1;
    row "dmfc2" 0xffe007ff 0x48200000 RT_CN;
    row "dmfc3" 0xffe007ff 0x4c200000 RT_CN;
    row "mtc0" 0xffe007ff 0x40800000 RT_C0_TO;
    row "mtc1" 0xffe007ff 0x44800000 RT_C1_TO;
    row "mtc2" 0xffe007ff 0x48800000 RT_CN_TO;
    row "mtc3" 0xffe007ff 0x4c800000 RT_CN_TO;
    row "dmtc0" 0xffe007ff 0x40a00000 RT_C0_TO;
    row "dmtc1" 0xffe007ff 0x44a00000 RT_C1_TO;
    row "dmtc2" 0xffe007ff 0x48a00000 RT_CN_TO;
    row "dmtc3" 0xffe007ff 0x4ca00000 RT_CN_TO;
    row "mfhi" 0xffff07ff 0x00000010 RD;
    row "mflo" 0xffff07ff 0x00000012 RD;
    row "mthi" 0xfc1fffff 0x00000011 RS;
    row "mtlo" 0xfc1fffff 0x00000013 RS;
    row "mult" 0xfc00ffff 0x00000018 RS_RT;
    row "multu" 0xfc00ffff 0x00000019 RS_RT;
    row "dmult" 0xfc00ffff 0x0000001c RS_RT;
    row "dmultu" 0xfc00ffff 0x0000001d RS_RT;
    row "madd16" 0xfc00ffff 0x00000028 RS_RT;
    row "dmadd16" 0xfc00ffff 0x00000020 RS_RT;
    row "standby" 0xffffffff 0x42000021 NONE;
    row "suspend" 0xffffffff 0x42000022 NONE;
    row "hibernate" 0xffffffff 0x42000023 NONE ].

(** [src/pmon/machine.c:298-367] *)
Definition distbl_rest : list DISTBL :=
  [ row "nor" 0xfc0007ff 0x00000027 RD_RS_RT;
    row "or" 0xfc0007ff 0x00000025 RD_RS_RT;
    row "ori" 0xfc000000 0x34000000 RT_RS_IMM;
    row "sb" 0xfc000000 0xa0000000 STORE;
    row "sh" 0xfc000000 0xa4000000 STORE;
    row "swl" 0xfc000000 0xa8000000 STORE;
    row "sw" 0xfc000000 0xac000000 STORE;
    row "sdl" 0xfc000000 0xb0000000 STORE;
    row "sdr" 0xfc000000 0xb4000000 STORE;
    row "swr" 0xfc000000 0xb8000000 STORE;
    row "sc" 0xfc000000 0xe0000000 STORE;
    row "swc1" 0xfc000000 0xe4000000 STOREC1;
    row "swc2" 0xfc000000 0xe8000000 STORECN;
    row "swc3" 0xfc000000 0xec000000 STORECN;
    row "scd" 0xfc000000 0xf0000000 STORE;
    row "sdc1" 0xfc000000 0xf4000000 STOREC1;
    row "sdc2" 0xfc000000 0xf8000000 STORECN;
    row "sd" 0xfc000000 0xfc000000 STORE;
    row "sll" 0xffe0003f 0x00000000 RD_RT_SFT;
    row "sllv" 0xfc0007ff 0x00000004 RD_RT_RS;
    row "dsll" 0xffe0003f 0x00000038 RD_RT_SFT;
    row "dsllv" 0xfc0007ff 0x00000014 RD_RT_RS;
    row "dsll32" 0xfc0007ff 0x0000003c RD_RT_RS;
    row "slt" 0xfc0007ff 0x0000002a RD_RS_RT;
    row "slti" 0xfc000000 0x28000000 RT_RS_SIMM;
    row "sltiu" 0xfc000000 0x2c000000 RT_RS_SIMM;
    row "sltu" 0xfc0007ff 0x0000002b RD_RS_RT;
    row "sra" 0xffe0003f 0x00000003 RD_RT_SFT;
    row "srav" 0xfc0007ff 0x00000007 RD_RT_RS;
    row "dsra" 0xffe0003f 0x0000003b RD_RT_SFT;
    row "dsrav" 0xfc0007ff 0x00000017 RD_RT_RS;
    row "dsra32" 0xfc0007ff 0x0000003f RD_RT_RS;
    row "srl" 0xffe0003f 0x00000002 RD_RT_SFT;
    row "srlv" 0xfc0007ff 0x00000006 RD_RT_RS;
    row "dsrl" 0xffe0003f 0x0000003a RD_RT_SFT;
    row "dsrlv" 0xfc0007ff 0x00000016 RD_RT_RS;
    row "dsrl32" 0xfc0007ff 0x0000003e RD_RT_RS;
    row "sub" 0xfc0007ff 0x00000022 RD_RS_RT;
    row "subu" 0xfc0007ff 0x00000023 RD_RS_RT;
    row "dsub" 0xfc0007ff 0x0000002e RD_RS_RT;
    row "dsubu" 0xfc0007ff 0x0000002f RD_RS_RT;
    row "teqi" 0xfc1f0000 0x040c0000 RS_SIMM;
    row "teq" 0xfc00003f 0x00000034 RS_RT;
    row "tgei" 0xfc1f0000 0x04080000 RS_SIMM;
    row "tge" 0xfc00003f 0x00000030 RS_RT;
    row "tgeiu" 0xfc1f0000 0x04090000 RS_SIMM;
    row "tgeu" 0xfc00003f 0x00000031 RS_RT;
    row "tlti" 0xfc1f0000 0x040a0000 RS_SIMM;
    row "tlt" 0xfc00003f 0x00000032 RS_RT;
    row "tltiu" 0xfc1f0000 0x040b0000 RS_SIMM;
    row "tltu" 0xfc00003f 0x00000033 RS_RT;
    row "tnei" 0xfc1f0000 0x040e0000 RS_SIMM;
    row "tne" 0xfc00003f 0x00000036 RS_RT;
    row "sync" 0xffffffff 0x0000000f NONE;
    row "syscall" 0xffffffff 0x0000000c NONE;
    row "xor" 0xfc0007ff 0x00000026 RD_RS_RT;
    row "xori" 0xfc000000 0x38000000 RT_RS_IMM;
    row ".word" 0x00000000 0x00000000 WORD ].

(** The table; the last entry matches every word. [src/pmon/machine.c:5-5] *)
Definition distbl : list DISTBL :=
  distbl_alias ++ distbl_branch ++ distbl_cop ++ distbl_fp ++ distbl_move ++ distbl_rest.

(** [src/pmon/pmon.h:261] *)
Definition RS_ (x : Z) : Z := Z.land (Z.shiftr x 21) 31.

(** [while ((bits & pt->mask) != pt->code) ++pt;] as the index of the entry.
    [src/pmon/machine.c:486-487] *)
Fixpoint find_row (tab : list DISTBL) (bits : Z) : option nat :=
  match tab with
  | [] => None
  | r :: tab' =>
      if Z.land bits (d_mask r) =? d_code r then Some 0%nat
      else match find_row tab' bits with Some i => Some (S i) | None => None end
  end.

(** The static variables [lastpt] and [lastbits]. *)
Definition dis_cache : Type := option nat * Z.

(** [src/pmon/machine.c:474-491] *)
Definition get_distbl (bits : Z) (c : dis_cache) : option nat * dis_cache :=
  match c with
  | (Some lastpt, lastbits) =>
      if bits =? lastbits then (Some lastpt, c)
      else let pt := find_row distbl bits in (pt, (pt, bits))
  | (None, _) => let pt := find_row distbl bits in (pt, (pt, bits))
  end.

Definition row_type (pt : option nat) : TYPE :=
  match pt ≫= fun i => distbl !! i with Some r => d_type r | None => WORD end.

(** The type of an instruction, as a lookup with an empty cache gives it. *)
Definition type_of (inst : Z) : TYPE := row_type (get_distbl inst (None, 0)).1.

Definition branch_type (t : TYPE) : bool :=
  match t with
  | OFF | RS_RT_OFF | RS_OFF | CP_OFF | TARGET | JALR | JR => true
  | _ => false
  end.

Section Machine.
Variable big : bool.

(** The instruction word at an address. *)
Definition fetch (m : mem) (adr : Z) : Z := u32 (load_word big m adr).

(** [src/pmon/machine.c:370-391] *)
Definition is_branch (m : mem) (adr : Z) : bool := branch_type (type_of (fetch m adr)).

(** [src/pmon/machine.c:393-410] *)
Definition is_conditional_branch (m : mem) (adr : Z) : bool :=
  match type_of (fetch m adr) with
  | RS_RT_OFF | RS_OFF | CP_OFF => true
  | _ => false
  end.

(** [src/pmon/machine.c:412-421] *)
Definition is_jr (m : mem) (adr : Z) : bool :=
  match type_of (fetch m adr) with JR => true | _ => false end.

(** [gpr] is the saved general register file.
    [src/pmon/machine.c:423-452] *)
Definition branch_target_address (gpr : Z -> Z) (m : mem) (adr : Z) : Z :=
  let inst := fetch m adr in
  match type_of inst with
  | OFF | RS_RT_OFF | RS_OFF | CP_OFF =>
      let val := Z.land inst 0xffff in
      let val := if Z.land val 0x8000 =? 0 then val else s32 (Z.lor val 0xffff0000) in
      s32 (adr + 4 + s32 (Z.shiftl val 2))
  | TARGET =>
      let val := Z.land inst 0x3ffffff in
      s32 (Z.lor (Z.land (u32 (adr + 4)) 0xf0000000) (Z.shiftl val 2))
  | JALR | JR => s32 (gpr (RS_ inst))
  | _ => 0
  end.

(** [src/pmon/machine.c:454-472] *)
Definition is_jal (m : mem) (adr : Z) : bool :=
  let inst := fetch m adr in
  let op := getfield inst 6 26 in
  if op =? 0 then getfield inst 6 0 =? 9
  else if op =? 1 then getfield inst 2 19 =? 2
  else op =? 3.

(** Memory that ignores stores at some addresses is described by [wr]: what a
    store leaves behind. [src/pmon/machine.c:493-513] *)
Definition is_writeable (wr : mem -> Z -> Z -> mem) (m : mem) (adr : Z) : bool * mem :=
  let x := u32 (load_word big m adr) in
  let m := wr m adr (u32 (Z.lnot x)) in
  if negb (u32 (load_word big m adr) =? u32 (Z.lnot x)) then (false, m)
  else (true, wr m adr x).
End Machine.

(** ** The lookup *)

Definition matches (bits : Z) (r : DISTBL) : bool := Z.land bits (d_mask r) =? d_code r.

Lemma find_row_spec tab bits :
  match find_row tab bits with
  | Some i => exists r, tab !! i = Some r /\ matches bits r = true /\
      forall j r', (j < i)%nat -> tab !! j = Some r' -> matches bits r' = false
  | None => forall j r', tab !! j = Some r' -> matches bits r' = false
  end.
Proof.
  induction tab as [|r tab IH]; [done|]. cbn [find_row]. fold (matches bits r).
  destruct (matches bits r) eqn:E.
  - exists r. split_and!; [done|done|]. lia.
  - destruct (find_row tab bits) as [i|].
    + destruct IH as (r' & H1 & H2 & H3). exists r'. split_and!; [done|done|].
      intros [|j] r'' Hj Hl; simplify_eq/=; [done|]. apply (H3 j); [lia|done].
    + intros [|j] r' Hl; simplify_eq/=; [done|]. by apply (IH j).
Qed.

Lemma find_row_total bits : is_Some (find_row distbl bits).
Proof.
  pose proof (find_row_spec distbl bits) as H. destruct (find_row distbl bits) as [i|]; [done|].
  assert (distbl !! (length distbl - 1)%nat = Some (row ".word" 0 0 WORD)) as Hl
    by (vm_compute; reflexivity).
  specialize (H _ _ Hl). unfold matches in H. cbn in H. by rewrite Z.land_0_r in H.
Qed.

(** A cache that holds the answer for its word. *)
Definition cache_ok (c : dis_cache) : Prop :=
  match c with (Some i, b) => find_row distbl b = Some i | (None, _) => True end.

(** The lookup of an instruction terminates for every word; the cache of
    the last answer is transparent: whatever was looked up before, the answer
    is the first entry of the table that matches, and the cache stays sound. *)
Theorem get_distbl_cache (bits : Z) (c : dis_cache) (Hc : cache_ok c) :
  let r := get_distbl bits c in
  cache_ok r.2 /\ exists i, r.1 = Some i /\ find_row distbl bits = Some i.
Proof.
  destruct (find_row_total bits) as [i Hi]. destruct c as [[p|] b]; cbn [get_distbl].
  - destruct (Z.eqb_spec bits b) as [->|].
    + unfold cache_ok in Hc. rewrite Hi in Hc. injection Hc as ->. split; [done|]. by exists p.
    + rewrite Hi. split; [done|]. by exists i.
  - rewrite Hi. split; [done|]. by exists i.
Qed.

Lemma get_distbl_cache_witness :
  let r := get_distbl 0x03e00008 (Some 0%nat, 0) in
  cache_ok r.2 /\ exists i, r.1 = Some i /\ find_row distbl 0x03e00008 = Some i.
Proof. apply (get_distbl_cache 0x03e00008 (Some 0%nat, 0)). vm_compute. reflexivity. Defined.

(** ** Which instructions are branches *)

(** A set of instructions given by the bits of a mask: [(mask, code)]. *)
Definition pattern : Type := Z * Z.
Definition in_pattern (inst : Z) (p : pattern) : bool := Z.land inst p.1 =? p.2.

(** The field of [s] bits at position [p] has the value [k]. *)
Definition field (s p k : Z) : pattern := (Z.shiftl (Z.ones s) p, Z.shiftl k p).
Definition both (p q : pattern) : pattern := (Z.lor p.1 q.1, Z.lor p.2 q.2).

Definition opc (k : Z) : pattern := field 6 26 k.
Definition rs_is (k : Z) : pattern := field 5 21 k.
Definition rt_is (k : Z) : pattern := field 5 16 k.
Definition funct (k : Z) : pattern := field 6 0 k.

(** The control transfers of MIPS III: [jr] and [jalr]; the branches of the
    REGIMM group; [j], [jal], [beq], [bne], [beql], [bnel]; [blez], [bgtz] and
    their likely forms; the coprocessor branches. *)
Definition branch_patterns : list pattern :=
  [both (opc 0) (both (field 15 6 0) (funct 8));
   both (opc 0) (both (rt_is 0) (both (field 5 6 0) (funct 9)))] ++
  map (fun k => both (opc 1) (rt_is k)) [0; 1; 2; 3; 16; 17; 18; 19] ++
  map opc [2; 3; 4; 5; 20; 21] ++
  map (fun k => both (opc k) (rt_is 0)) [6; 7; 22; 23] ++
  flat_map (fun k => map (fun c => both (opc k) (both (rs_is 8) (rt_is c))) [0; 1; 2; 3])
    [16; 17; 18; 19].

Lemma land_sub a m n : Z.land m n = n -> Z.land a n = Z.land (Z.land a m) n.
Proof. intros H. by rewrite <- Z.land_assoc, H. Qed.

(** What the patterns mean, in terms of [getfield]. *)
Lemma in_field inst s p k :
  0 <= s -> 0 <= p -> 0 <= k < 2 ^ s -> 0 <= inst < 2 ^ 32 ->
  in_pattern inst (field s p k) = true <-> getfield inst s p = k.
Proof.
  intros Hs Hp Hk Hi. unfold in_pattern, field, getfield. cbn [fst snd].
  rewrite u32_small by lia. rewrite Z.eqb_eq. rewrite (Z.shiftl_mul_pow2 1 s), Z.mul_1_l by lia.
  replace (2 ^ s - 1) with (Z.ones s) by (rewrite Z.ones_equiv; lia).
  assert (Z.land inst (Z.shiftl (Z.ones s) p) =
    Z.shiftl (Z.shiftr (Z.land inst (Z.shiftl (Z.ones s) p)) p) p) as E.
  { apply Z.bits_inj'. intros n Hn. destruct (Z.lt_ge_cases n p).
    - rewrite Z.shiftl_spec_low by lia. rewrite Z.land_spec, Z.shiftl_spec_low by lia.
      apply andb_false_r.
    - rewrite Z.shiftl_spec by lia. rewrite Z.shiftr_spec by lia. f_equal. lia. }
  split.
  - intros H. rewrite H. rewrite Z.shiftr_shiftl_l, Z.sub_diag by lia. apply Z.shiftl_0_r.
  - intros H. rewrite E, H. done.
Qed.

Lemma in_both inst p q :
  Z.land p.1 q.1 = 0 -> Z.land p.2 p.1 = p.2 -> Z.land q.2 q.1 = q.2 ->
  in_pattern inst (both p q) = in_pattern inst p && in_pattern inst q.
Proof.
  intros Hd Hp Hq. unfold in_pattern, both. cbn [fst snd]. apply eq_true_iff_eq.
  rewrite andb_true_iff, !Z.eqb_eq, Z.land_lor_distr_r. split; [|by intros [-> ->]].
  intros H.
  assert (forall a b c d, Z.land c d = 0 -> Z.land a c = a -> Z.land b d = b ->
    Z.land (Z.lor a b) c = a) as Hproj.
  { intros a b c d H1 H2 H3. rewrite Z.land_lor_distr_l, H2, <- H3.
    rewrite <- Z.land_assoc, (Z.land_comm d c), H1, Z.land_0_r. apply Z.lor_0_r. }
  assert (forall x, Z.land (Z.land inst x) x = Z.land inst x) as Hidem
    by (intros x; by rewrite <- Z.land_assoc, Z.land_diag).
  split.
  - rewrite <- (Hproj _ _ _ _ Hd (Hidem p.1) (Hidem q.1)), H. by apply (Hproj _ _ _ q.1).
  - assert (Z.land q.1 p.1 = 0) as Hd' by (by rewrite Z.land_comm).
    rewrite Z.lor_comm, (Z.lor_comm p.2) in H.
    rewrite <- (Hproj _ _ _ _ Hd' (Hidem q.1) (Hidem p.1)), H. by apply (Hproj _ _ _ p.1).
Qed.

(** [p] covers every word the entry [r] matches; and conversely. *)
Definition row_within (r : DISTBL) (p : pattern) : bool :=
  (Z.land (d_mask r) p.1 =? p.1) && (Z.land (d_code r) p.1 =? p.2).
Definition pattern_within (p : pattern) (r : DISTBL) : bool :=
  (Z.land p.1 (d_mask r) =? d_mask r) && (Z.land p.2 (d_mask r) =? d_code r).
(** No word is in [p] and matched by [r]. *)
Definition excludes (p : pattern) (r : DISTBL) : bool :=
  negb (Z.land p.2 (d_mask r) =? Z.land (d_code r) p.1).

Lemma row_within_ok r p inst :
  row_within r p = true -> matches inst r = true -> in_pattern inst p = true.
Proof.
  unfold row_within, matches, in_pattern. rewrite andb_true_iff, !Z.eqb_eq. intros [H1 H2] H.
  by rewrite (land_sub _ _ _ H1), H.
Qed.

Lemma pattern_within_ok r p inst :
  pattern_within p r = true -> in_pattern inst p = true -> matches inst r = true.
Proof.
  unfold pattern_within, matches, in_pattern. rewrite andb_true_iff, !Z.eqb_eq. intros [H1 H2] H.
  by rewrite (land_sub _ _ _ H1), H.
Qed.

Lemma excludes_ok r p inst :
  excludes p r = true -> in_pattern inst p = true -> matches inst r = false.
Proof.
  unfold excludes, matches, in_pattern. rewrite negb_true_iff, Z.eqb_neq, Z.eqb_eq, Z.eqb_neq.
  intros H H1 H2. apply H. rewrite <- H1, <- H2, <- !Z.land_assoc. f_equal. apply Z.land_comm.
Qed.

(** The search for a word of [p] meets an entry of branch type that matches
    before any other. *)
Fixpoint covered (p : pattern) (tab : list DISTBL) : bool :=
  match tab with
  | [] => false
  | r :: tab' =>
      if branch_type (d_type r) then pattern_within p r || covered p tab'
      else excludes p r && covered p tab'
  end.

Lemma covered_ok p tab inst :
  covered p tab = true -> in_pattern inst p = true ->
  exists i r, find_row tab inst = Some i /\ tab !! i = Some r /\ branch_type (d_type r) = true.
Proof.
  induction tab as [|r tab IH]; [done|]. cbn [covered find_row]. fold (matches inst r).
  intros Hc Hp. destruct (matches inst r) eqn:Em.
  - exists 0%nat, r. split; [done|]. split; [done|].
    destruct (branch_type (d_type r)); [done|].
    apply andb_true_iff in Hc as [He _]. by rewrite (excludes_ok _ _ _ He Hp) in Em.
  - assert (covered p tab = true) as Hc'.
    { destruct (branch_type (d_type r)).
      - apply orb_true_iff in Hc as [Hw|]; [|done].
        by rewrite (pattern_within_ok _ _ _ Hw Hp) in Em.
      - by apply andb_true_iff in Hc as [_ ?]. }
    destruct (IH Hc' Hp) as (i & r' & -> & ? & ?). by exists (S i), r'.
Qed.

Lemma type_of_row inst i r :
  find_row distbl inst = Some i -> distbl !! i = Some r -> type_of inst = d_type r.
Proof. intros Hf Hr. unfold type_of, get_distbl, row_type. cbn [fst]. rewrite Hf. cbn [mbind option_bind]. by rewrite Hr. Qed.

(** C39. The table classifies a word as a branch or jump exactly when its
    fields are those of a control transfer of the MIPS III instruction set. *)
Theorem branch_classification (inst : Z) :
  branch_type (type_of inst) = existsb (in_pattern inst) branch_patterns.
Proof.
  apply eq_true_iff_eq. rewrite existsb_exists. split.
  - pose proof (find_row_spec distbl inst) as Hf.
    destruct (find_row_total inst) as [i Hi]. rewrite Hi in Hf. destruct Hf as (r & Hr & Hm & _).
    rewrite (type_of_row inst i r Hi Hr). intros Hb.
    assert (forallb (fun r => implb (branch_type (d_type r))
      (existsb (row_within r) branch_patterns)) distbl = true) as Hall by (vm_compute; reflexivity).
    rewrite forallb_forall in Hall. specialize (Hall r).
    rewrite Hb in Hall. cbn [implb] in Hall.
    assert (In r distbl) as Hin by (apply list_elem_of_In; by eapply list_elem_of_lookup_2).
    apply Hall, existsb_exists in Hin as (p & Hp & Hw). exists p. split; [done|].
    by eapply row_within_ok.
  - intros (p & Hp & Hin).
    assert (forallb (fun p => covered p distbl) branch_patterns = true) as Hall
      by (vm_compute; reflexivity).
    rewrite forallb_forall in Hall. specialize (Hall p Hp).
    destruct (covered_ok _ _ _ Hall Hin) as (i & r & Hf & Hr & Hb).
    by rewrite (type_of_row inst i r Hf Hr).
Qed.

(** ** Entries that are never found *)

(** An earlier entry matches every word that [r] matches. *)
Definition shadowed_by (r r' : DISTBL) : bool := pattern_within (d_mask r, d_code r) r'.

Definition name_in (names : list string) (r : DISTBL) : bool :=
  existsb (String.eqb (d_str r)) names.

(** A defect of the table: no word is ever displayed as [dmadd16],
    [standby], [suspend] or [hibernate], because [add] and [cop0] come first
    and match all their words. *)
Theorem dead_entries (inst : Z) (i : nat) (r : DISTBL)
  (Hf : find_row distbl inst = Some i) (Hr : distbl !! i = Some r) :
  name_in ["dmadd16"; "standby"; "suspend"; "hibernate"]%string r = false.
Proof.
  pose proof (find_row_spec distbl inst) as H. rewrite Hf in H. destruct H as (r0 & Hr0 & Hm & Hb).
  rewrite Hr in Hr0. injection Hr0 as <-.
  assert (forallb (fun '(j, s) => implb
      (name_in ["dmadd16"; "standby"; "suspend"; "hibernate"]%string s)
      (existsb (shadowed_by s) (take j distbl))) (imap pair distbl) = true)
    as Hall by (vm_compute; reflexivity).
  destruct (name_in _ r) eqn:En; [|done]. exfalso. rewrite forallb_forall in Hall.
  assert (In (i, r) (imap pair distbl)) as Hin.
  { apply list_elem_of_In. apply (list_elem_of_lookup_2 _ i). rewrite list_lookup_imap, Hr. done. }
  specialize (Hall _ Hin). cbn beta iota in Hall. rewrite En in Hall. cbn [implb] in Hall.
  apply existsb_exists in Hall as (s & Hs & Hsh).
  apply list_elem_of_In, list_elem_of_lookup in Hs as [j Hj].
  pose proof (lookup_lt_Some _ _ _ Hj) as Hlt. rewrite length_take in Hlt.
  rewrite lookup_take_lt in Hj by lia.
  assert (matches inst s = false) as Hns by (apply (Hb j); [lia|done]).
  rewrite (pattern_within_ok s (d_mask r, d_code r) inst Hsh) in Hns; [done|].
  unfold in_pattern. cbn [fst snd]. exact Hm.
Qed.

Lemma dead_entries_witness :
  name_in ["dmadd16"; "standby"; "suspend"; "hibernate"]%string (row "cop0" 0xfe000000 0x42000000 COFUN)
    = false.
Proof.
  apply (dead_entries 0x42000021 68%nat); vm_compute; reflexivity.
Defined.
