(* ===== verification/Ring.v ===== *)
(** * Ring: the rings of the monitor and the trace history

    [incmod] and [decmod] of [src/pmon/pmon.h] and what the two users of these
    macros share: a ring of [SZ + 1] slots whose elements run from [op] to
    [ip] and never fill the last slot. The trace history of [src/pmon/go.c]
    ([addpchist], [getpchist]) is here too; the command history is in Hist.

    The theorem: the trace history holds the last 200 addresses, latest
    first. *)

From S2P Require Import Prelude.

(** [src/pmon/pmon.h:384] *)
Definition incmod (x modulus : nat) : nat := if (modulus <? x + 1)%nat then 0%nat else (x + 1)%nat.
(** [src/pmon/pmon.h:385] *)
Definition decmod (x modulus : nat) : nat := if Nat.eqb x 0 then modulus else (x - 1)%nat.

(** Case analysis on the comparisons of slot numbers. *)
Ltac slot_cases :=
  repeat match goal with
  | H : context [Nat.leb ?a ?b] |- _ => revert H
  | H : context [Nat.ltb ?a ?b] |- _ => revert H
  end;
  repeat match goal with
  | |- context [Z.ltb ?a ?b] => destruct (Z.ltb_spec a b)
  | |- context [Nat.ltb ?a ?b] => destruct (Nat.ltb_spec a b)
  | |- context [Nat.leb ?a ?b] => destruct (Nat.leb_spec a b)
  end; intros; lia.

Section Ring.
Context {A : Type} (d0 : A) (SZ : nat).

Record ring : Type := mkRing { r_data : list A; r_ip : nat; r_op : nat }.

Definition ring_ok (r : ring) : Prop :=
  length (r_data r) = S SZ /\ (r_ip r <= SZ)%nat /\ (r_op r <= SZ)%nat.

(** The distance from [op] to [ip]. *)
Definition count (r : ring) : nat :=
  if (r_op r <=? r_ip r)%nat then (r_ip r - r_op r)%nat else (S SZ + r_ip r - r_op r)%nat.

(** The slot [i] places after [op]. *)
Definition slot (r : ring) (i : nat) : nat :=
  if (r_op r + i <=? SZ)%nat then (r_op r + i)%nat else (r_op r + i - S SZ)%nat.

(** The elements, oldest first. *)
Definition elems (r : ring) : list A :=
  (fun i => default d0 (r_data r !! slot r i)) <$> seq 0 (count r).

Lemma count_bound r : ring_ok r -> (count r <= SZ)%nat.
Proof. intros (? & ? & ?). unfold count. destruct (Nat.leb_spec (r_op r) (r_ip r)); lia. Qed.

Lemma incmod_bound x : (x <= SZ)%nat -> (incmod x SZ <= SZ)%nat.
Proof. unfold incmod. destruct (Nat.ltb_spec SZ (x + 1)); lia. Qed.

Lemma decmod_bound x : (x <= SZ)%nat -> (decmod x SZ <= SZ)%nat.
Proof. unfold decmod. destruct (Nat.eqb_spec x 0); lia. Qed.

Lemma slot_bound r i : ring_ok r -> (i <= SZ)%nat -> (slot r i <= SZ)%nat.
Proof. intros (? & ? & ?) ?. unfold slot. destruct (Nat.leb_spec (r_op r + i) SZ); lia. Qed.

Lemma slot_inj r i j :
  ring_ok r -> (i <= SZ)%nat -> (j <= SZ)%nat -> slot r i = slot r j -> i = j.
Proof.
  intros (? & ? & ?) ??. unfold slot.
  destruct (Nat.leb_spec (r_op r + i) SZ), (Nat.leb_spec (r_op r + j) SZ); lia.
Qed.

Lemma slot_count r : ring_ok r -> slot r (count r) = r_ip r.
Proof.
  intros (? & ? & ?). unfold slot, count. destruct (Nat.leb_spec (r_op r) (r_ip r)).
  - destruct (Nat.leb_spec (r_op r + (r_ip r - r_op r)) SZ); lia.
  - destruct (Nat.leb_spec (r_op r + (S SZ + r_ip r - r_op r)) SZ); lia.
Qed.

(** The ring is full exactly when the next [ip] would meet [op]. *)
Lemma full_iff r : ring_ok r -> (incmod (r_ip r) SZ = r_op r <-> count r = SZ).
Proof.
  intros (? & ? & ?). unfold incmod, count.
  destruct (Nat.ltb_spec SZ (r_ip r + 1)), (Nat.leb_spec (r_op r) (r_ip r)); lia.
Qed.

(** Dropping the oldest element. *)
Definition drop_oldest (r : ring) : ring := mkRing (r_data r) (r_ip r) (incmod (r_op r) SZ).

Lemma drop_oldest_spec r :
  ring_ok r -> count r <> 0%nat ->
  ring_ok (drop_oldest r) /\ count (drop_oldest r) = (count r - 1)%nat /\
  elems (drop_oldest r) = tl (elems r).
Proof.
  intros Hok Hc. pose proof (count_bound r Hok). destruct Hok as (H1 & H2 & H3).
  assert (count (drop_oldest r) = (count r - 1)%nat) as Hcnt.
  { unfold count, drop_oldest, incmod in *. cbn [r_ip r_op r_data] in *. slot_cases. }
  split; [|split; [done|]].
  - split; [done|]. split; [done|]. cbn. by apply incmod_bound.
  - unfold elems. rewrite Hcnt. destruct (count r) as [|c]; [done|].
    cbn [seq fmap list_fmap tl]. rewrite Nat.sub_1_r. cbn [Nat.pred].
    rewrite <- fmap_S_seq, <- list_fmap_compose. apply list_fmap_ext. intros i x Hx.
    apply lookup_seq in Hx as [-> Hx]. cbn. do 2 f_equal. unfold slot, drop_oldest, incmod.
    cbn [r_ip r_op r_data]. slot_cases.
Qed.

(** Entering an element in a ring that is not full. *)
Definition enter (r : ring) (x : A) : ring :=
  mkRing (<[r_ip r := x]> (r_data r)) (incmod (r_ip r) SZ) (r_op r).

Lemma enter_spec r x :
  ring_ok r -> (count r < SZ)%nat ->
  ring_ok (enter r x) /\ count (enter r x) = S (count r) /\ elems (enter r x) = elems r ++ [x].
Proof.
  intros Hok Hc. pose proof Hok as (H1 & H2 & H3).
  assert (count (enter r x) = S (count r)) as Hcnt.
  { unfold count, enter, incmod in *. cbn [r_ip r_op r_data] in *. slot_cases. }
  split; [|split; [done|]].
  - split; [cbn; by rewrite length_insert|]. split; [cbn; by apply incmod_bound|done].
  - unfold elems. rewrite Hcnt, seq_S, fmap_app. cbn [Nat.add fmap list_fmap].
    change (slot (enter r x)) with (slot r). f_equal.
    + apply list_fmap_ext. intros i y Hy. apply lookup_seq in Hy as [-> Hy]. cbn.
      rewrite list_lookup_insert_ne; [done|]. intros E. rewrite <- (slot_count r Hok) in E.
      apply slot_inj in E; [lia|done|lia|lia].
    + rewrite (slot_count r Hok). cbn. by rewrite list_lookup_insert_eq by lia.
Qed.

(** The last [n] elements of a list. *)
Definition lastn (n : nat) (l : list A) : list A := drop (length l - n) l.

Lemma lastn_all n l : (length l <= n)%nat -> lastn n l = l.
Proof. intros H. unfold lastn. replace (length l - n)%nat with 0%nat by lia. apply drop_0. Qed.

Lemma lastn_snoc n (l : list A) x :
  (length l = n)%nat -> (0 < n)%nat -> lastn n (l ++ [x]) = tl l ++ [x].
Proof.
  intros H Hn. unfold lastn. rewrite length_app. cbn [length].
  replace (length l + 1 - n)%nat with 1%nat by lia. by destruct l; [cbn in H; lia|].
Qed.

Lemma lastn_step n (l : list A) x :
  (0 < n)%nat -> lastn n (lastn n l ++ [x]) = lastn n (l ++ [x]).
Proof.
  intros Hn. unfold lastn. rewrite !length_app, length_drop. cbn [length].
  destruct (le_lt_dec (length l) n) as [Hle|Hgt].
  - replace (length l - n)%nat with 0%nat by lia. rewrite drop_0. f_equal. lia.
  - rewrite drop_app_le by (rewrite length_drop; lia). rewrite drop_drop.
    rewrite drop_app_le by lia. f_equal. f_equal. lia.
Qed.

Lemma elems_length r : length (elems r) = count r.
Proof. unfold elems. by rewrite length_fmap, length_seq. Qed.

Lemma elems_lookup r i : (i < count r)%nat ->
  elems r !! i = Some (default d0 (r_data r !! slot r i)).
Proof.
  intros Hi. unfold elems. rewrite list_lookup_fmap, lookup_seq_lt by lia. done.
Qed.
End Ring.

Arguments ring : clear implicits.
Arguments mkRing {A}.

(** ** The trace history *)

(** [src/pmon/go.c:39] *)
Definition PCHISTSZ : nat := 200.

(** [pchist_d], [pchist_ip], [pchist_op]. [src/pmon/go.c:40-41] *)
Definition pchist : Type := ring Z.

(** [src/pmon/go.c:1208-1216] *)
Definition addpchist (adr : Z) (h : pchist) : pchist :=
  let h := mkRing (<[r_ip h := u32 adr]> (r_data h)) (incmod (r_ip h) PCHISTSZ) (r_op h) in
  if Nat.eqb (r_ip h) (r_op h)
  then mkRing (r_data h) (r_ip h) (incmod (r_op h) PCHISTSZ) else h.

(** [src/pmon/go.c:1221-1224] *)
Definition clrpchist (h : pchist) : pchist := mkRing (r_data h) 0 0.

(** [src/pmon/go.c:1229-1241] *)
Definition getpchist (n : nat) (h : pchist) : Z :=
  let i := Z.of_nat (r_ip h) - Z.of_nat n - 1 in
  let i := if i <? 0 then i + (Z.of_nat PCHISTSZ + 1) else i in
  if Nat.eqb (incmod (Z.to_nat i) PCHISTSZ) (r_op h) then 0
  else default 0 (r_data h !! Z.to_nat i).

Lemma addpchist_spec adr (h : pchist) :
  ring_ok PCHISTSZ h ->
  ring_ok PCHISTSZ (addpchist adr h) /\
  elems 0 PCHISTSZ (addpchist adr h) = lastn PCHISTSZ (elems 0 PCHISTSZ h ++ [u32 adr]).
Proof.
  intros Hok. pose proof (count_bound _ h Hok) as Hcb.
  destruct (Nat.eq_dec (count PCHISTSZ h) PCHISTSZ) as [Hfull|Hfree].
  - assert (addpchist adr h = enter PCHISTSZ (drop_oldest PCHISTSZ h) (u32 adr)) as ->.
    { unfold addpchist. cbn [r_ip r_op r_data].
      rewrite (proj2 (full_iff _ h Hok) Hfull), Nat.eqb_refl.
      unfold enter, drop_oldest. cbn [r_ip r_op r_data].
      by rewrite (proj2 (full_iff _ h Hok) Hfull). }
    destruct (drop_oldest_spec 0 PCHISTSZ h Hok) as (H1 & H2 & H3); [unfold PCHISTSZ in *; lia|].
    destruct (enter_spec 0 PCHISTSZ _ (u32 adr) H1) as (H4 & H5 & H6); [unfold PCHISTSZ in *; lia|].
    split; [done|]. rewrite H6, H3. symmetry. apply lastn_snoc; [|unfold PCHISTSZ; lia].
    by rewrite elems_length.
  - assert (addpchist adr h = enter PCHISTSZ h (u32 adr)) as ->.
    { unfold addpchist. cbn [r_ip r_op r_data].
      destruct (Nat.eqb_spec (incmod (r_ip h) PCHISTSZ) (r_op h)) as [E|]; [|done].
      apply full_iff in E; [lia|done]. }
    destruct (enter_spec 0 PCHISTSZ h (u32 adr) Hok) as (H4 & H5 & H6); [lia|].
    split; [done|]. rewrite H6. symmetry. apply lastn_all. rewrite length_app, elems_length. cbn. lia.
Qed.

(** The slot of the [n]th latest element. *)
Lemma pchist_slot n (h : pchist) :
  ring_ok PCHISTSZ h -> (n <= count PCHISTSZ h)%nat ->
  let i := Z.of_nat (r_ip h) - Z.of_nat n - 1 in
  let i := if i <? 0 then i + (Z.of_nat PCHISTSZ + 1) else i in
  incmod (Z.to_nat i) PCHISTSZ = slot PCHISTSZ h (count PCHISTSZ h - n) /\
  ((n < count PCHISTSZ h)%nat -> Z.to_nat i = slot PCHISTSZ h (count PCHISTSZ h - S n)).
Proof.
  intros (H1 & H2 & H3) Hn. unfold count, PCHISTSZ in *.
  destruct (Nat.leb_spec (r_op h) (r_ip h)); unfold slot, incmod; cbn zeta;
    (split; [|intros Hlt]; slot_cases).
Qed.

Lemma getpchist_spec n (h : pchist) :
  ring_ok PCHISTSZ h -> (n <= count PCHISTSZ h)%nat ->
  getpchist n h = default 0 (rev (elems 0 PCHISTSZ h) !! n).
Proof.
  intros Hok Hn. pose proof (count_bound _ h Hok) as Hcb.
  destruct (pchist_slot n h Hok Hn) as [Hi Hi']. unfold getpchist. cbn zeta in Hi, Hi'.
  rewrite Hi. assert (slot PCHISTSZ h 0 = r_op h) as H0.
  { destruct Hok as (H1 & H2 & H3). unfold slot. slot_cases. }
  destruct (Nat.eq_dec n (count PCHISTSZ h)) as [->|Hne].
  - rewrite (lookup_ge_None_2 (rev _)) by (rewrite length_rev, elems_length; lia).
    by rewrite Nat.sub_diag, H0, Nat.eqb_refl.
  - destruct (Nat.eqb_spec (slot PCHISTSZ h (count PCHISTSZ h - n)) (r_op h)) as [E|_].
    { rewrite <- H0 in E. apply slot_inj in E; [lia|done|lia|lia]. }
    rewrite (Hi' ltac:(lia)).
    assert (rev (elems 0 PCHISTSZ h) !! n = elems 0 PCHISTSZ h !! (count PCHISTSZ h - S n)%nat) as ->.
    { rewrite <- (elems_length 0 PCHISTSZ h). apply rev_lookup_aux. rewrite elems_length. lia. }
    by rewrite elems_lookup by lia.
Qed.

(** After any sequence of [addpchist] since [clrpchist], [getpchist]
    answers the recorded addresses latest first, up to the last 200, and 0 just
    after the oldest one kept. *)
Theorem pchist_latest (adrs : list Z) (h0 : pchist) (n : nat)
  (Hlen : length (r_data h0) = S PCHISTSZ) :
  let h := fold_left (fun h a => addpchist a h) adrs (clrpchist h0) in
  let kept := lastn PCHISTSZ (u32 <$> adrs) in
  (n <= length kept)%nat -> getpchist n h = default 0 (rev kept !! n).
Proof.
  assert (forall adrs, let h := fold_left (fun h a => addpchist a h) adrs (clrpchist h0) in
    ring_ok PCHISTSZ h /\ elems 0 PCHISTSZ h = lastn PCHISTSZ (u32 <$> adrs)) as Hind.
  { intros l. induction l as [|a l IH] using rev_ind.
    - split; [|done]. split; [done|]. cbn. lia.
    - rewrite fold_left_app. cbn [fold_left]. destruct IH as [Hok He].
      destruct (addpchist_spec a _ Hok) as [Hok' He']. split; [done|].
      rewrite He', He, fmap_app. cbn [fmap list_fmap]. apply lastn_step. unfold PCHISTSZ. lia. }
  destruct (Hind adrs) as [Hok He]. cbn zeta in *. rewrite <- He. intros Hn.
  apply getpchist_spec; [done|]. by rewrite <- elems_length with (d0 := 0).
Qed.

Lemma pchist_latest_witness :
  getpchist 1 (fold_left (fun h a => addpchist a h) [0x80020000; 0x80020004]
    (clrpchist (mkRing (replicate 201 0) 7 9))) = 0x80020000.
Proof.
  apply (pchist_latest [0x80020000; 0x80020004] (mkRing (replicate 201 0) 7 9) 1);
    [reflexivity|vm_compute; lia].
Defined.
