(* ===== verification/Hist.v ===== *)
(** * Hist: the command line editor and the command history

    [src/pmon/hist.c]. The history is the ring of Ring with the 201 string
    pointers of [hist]; [get_line] is a function of the keys typed, which
    returns the edited line together with the characters sent to the terminal.

    The theorems: the history is the list of the last 200 distinct-in-a-row
    commands; and after every key the terminal shows exactly the line being
    edited, with its cursor where the editor believes it to be. Two defects of
    the editor are proved as well. *)

From S2P Require Import Prelude CString Numconv Ring.

(** [src/pmon/hist.c:19] *)
Definition HISTMAX : nat := 200.
(** [src/pmon/pmon.h:90] *)
Definition LINESZ : nat := 200.

(** ** The history *)

(** [hist], [histi] and [histo] are the ring. [src/pmon/hist.c:20-25] *)
Record history : Type := mkHist { hist : ring cptr; histr : nat; histno : Z }.

(** [src/pmon/hist.c:39-43] *)
Definition histinit (h : history) : history := mkHist (hist h) (histr h) 1.

Definition hist_at (h : history) (i : nat) : cptr := default None (r_data (hist h) !! i).

Fixpoint dec_times (d : nat) (m : nat) : nat :=
  match d with O => m | S d' => dec_times d' (decmod m HISTMAX) end.

(** [src/pmon/hist.c:284-297] *)
Definition gethistn (n : Z) (h : history) : cptr :=
  if (n <? histno h - Z.of_nat HISTMAX) || (histno h <? n) then None
  else hist_at h (dec_times (Z.to_nat (histno h - n)) (r_ip (hist h))).

Fixpoint gethists_loop (fuel : nat) (h : history) (p : cstr) (i : nat) : cptr :=
  match fuel with
  | O => None
  | S f =>
      if Nat.eqb i (decmod (r_op (hist h)) HISTMAX) then None
      else
        match hist_at h i with
        | None => None
        | Some s =>
            if strbequ (Some s) (Some p) then Some s
            else gethists_loop f h p (decmod i HISTMAX)
        end
  end.

(** The walk ends within one turn of the ring.
    [src/pmon/hist.c:302-317] *)
Definition gethists (p : cstr) (h : history) : cptr :=
  gethists_loop (S HISTMAX) h p (decmod (r_ip (hist h)) HISTMAX).

(** [room] tells whether [malloc] succeeds. [src/pmon/hist.c:322-349] *)
Definition addhist (p : cstr) (room : bool) (h : history) : history * trace :=
  if strempty (Some p) then (h, [])
  else
    let i := decmod (r_ip (hist h)) HISTMAX in
    let same := match hist_at h i with Some q => strequ (Some p) (Some q) | None => false end in
    if same then (h, [])
    else
      let r := hist h in
      let r :=
        if Nat.eqb (incmod (r_ip r) HISTMAX) (r_op r)
        then mkRing (<[r_op r := None]> (r_data r)) (r_ip r) (incmod (r_op r) HISTMAX)
        else r in
      if room then
        (mkHist (mkRing (<[r_ip r := Some p]> (r_data r)) (incmod (r_ip r) HISTMAX) (r_op r))
           (histr h) (histno h + 1), [])
      else
        (mkHist (mkRing (<[r_ip r := None]> (r_data r)) (r_ip r) (r_op r)) (histr h) (histno h),
         [Printf "addhist: out of memory\n" []]).

(** The text from a history mark on, or nothing. The flag tells that a quote
    was not closed: the scan then goes on past the end of the string.
    [src/pmon/hist.c:372-388] *)
Fixpoint skip_quote (p : cstr) (quote : Z) : option cstr :=
  match p with
  | [] => None
  | c :: p' => if c =? quote then Some p' else skip_quote p' quote
  end.

Fixpoint findbang_loop (fuel : nat) (p : cstr) (i : nat) : option (option nat) :=
  match fuel with
  | O => None
  | S f =>
      match p with
      | [] => Some None
      | c :: p' =>
          if (c =? squote) || (c =? dquote) then
            match skip_quote p' c with
            | None => None
            | Some p'' => findbang_loop f p'' (i + (length p - length p''))%nat
            end
          else if c =? ch "!" then Some (Some i)
          else findbang_loop f p' (S i)
      end
  end.

(** The offset of the mark; [None] when the scan leaves the string.
    [src/pmon/hist.c:372-388] *)
Definition findbang (p : cstr) : option (option nat) := findbang_loop (S (length p)) p 0.

(** ** The editor *)

Definition PREV : Z := 16.
Definition NEXT : Z := 14.
Definition FORW : Z := 6.
Definition BACK : Z := 2.
Definition BEGIN : Z := 1.
Definition END : Z := 5.
Definition DELETE : Z := 4.
Definition DELLINE : Z := 11.
Definition MARK : Z := 0.
Definition KILL : Z := 23.

(** The line, the global [column], the local [mark], and the characters sent
    to the terminal. *)
Record editor : Type := mkEd { ed_line : cstr; ed_col : nat; ed_mark : Z; ed_out : list Z }.

Definition set_line (p : cstr) (e : editor) : editor := mkEd p (ed_col e) (ed_mark e) (ed_out e).
Definition set_mark (m : Z) (e : editor) : editor := mkEd (ed_line e) (ed_col e) m (ed_out e).

Definition put_one (c : Z) (e : editor) : editor :=
  mkEd (ed_line e) (if c =? nl then 0 else S (ed_col e)) (ed_mark e) (ed_out e ++ [c]).

(** [src/pmon/hist.c:354-367] *)
Definition putstr (s : cstr) (e : editor) : editor := fold_left (fun e c => put_one c e) s e.

(** [src/pmon/hist.c:270-279] *)
Definition left (n : Z) (e : editor) : editor :=
  let k := Nat.min (Z.to_nat n) (ed_col e) in
  mkEd (ed_line e) (ed_col e - k) (ed_mark e) (ed_out e ++ replicate k bs).

(** [src/pmon/hist.c:253-265] *)
Definition right (n : Z) (e : editor) : editor :=
  let k := Nat.min (Z.to_nat n) (length (ed_line e) - ed_col e) in
  mkEd (ed_line e) (ed_col e + k) (ed_mark e) (ed_out e ++ take k (drop (ed_col e) (ed_line e))).

(** [src/pmon/hist.c:239-248] *)
Definition backspace (n : Z) (e : editor) : editor :=
  let k := Nat.min (Z.to_nat n) (ed_col e) in
  mkEd (ed_line e) (ed_col e - k) (ed_mark e) (ed_out e ++ concat (replicate k [bs; 32; bs])).

(** [strdchr (&p[column])], [n] times. *)
Definition delete_here (n : nat) (e : editor) : editor :=
  set_line (take (ed_col e) (ed_line e) ++
            Nat.iter n strdchr (drop (ed_col e) (ed_line e))) e.

Definition tail_len (e : editor) (oc : nat) : Z := strlen (Some (drop oc (ed_line e))).
Definition put_tail (e : editor) : editor := putstr (drop (ed_col e) (ed_line e)) e.
Definition put_blanks (n : nat) (e : editor) : editor := Nat.iter n (putstr [32]) e.

(** [src/pmon/hist.c:189-202] *)
Definition addchar (c : Z) (e : editor) : editor :=
  if Z.of_nat LINESZ - 40 <? strlen (Some (ed_line e)) then e
  else
    let oc := ed_col e in
    let e := set_line (take oc (ed_line e) ++ strichr (drop oc (ed_line e)) c) e in
    let e := put_tail e in
    left (tail_len e oc - 1) e.

(** The recalled line replaces the one being edited.
    [src/pmon/hist.c:68-74] *)
Definition recall (h : history) (i : nat) (e : editor) : editor :=
  let e := right (strlen (Some (ed_line e)) - Z.of_nat (ed_col e)) e in
  let e := backspace (Z.of_nat (ed_col e)) e in
  let e := set_line (strcpy (hist_at h i)) e in
  set_mark 0 (putstr (ed_line e) e).

(** One key other than the end of the line.
    [src/pmon/hist.c:65-142] *)
Definition edit_key (usehist : bool) (h : history) (c : Z) (e : editor) : editor * history :=
  if (c =? PREV) && usehist then
    let r := if Nat.eqb (histr h) (r_op (hist h)) then histr h else decmod (histr h) HISTMAX in
    (recall h r e, mkHist (hist h) r (histno h))
  else if (c =? NEXT) && usehist then
    let r := if Nat.eqb (histr h) (r_ip (hist h)) then histr h else incmod (histr h) HISTMAX in
    (recall h r e, mkHist (hist h) r (histno h))
  else if c =? FORW then (right 1 e, h)
  else if c =? BACK then (left 1 e, h)
  else if c =? BEGIN then (left (Z.of_nat (ed_col e)) e, h)
  else if c =? END then (right (tail_len e (ed_col e)) e, h)
  else if c =? MARK then (set_mark (Z.of_nat (ed_col e)) e, h)
  else if c =? DELETE then
    let oc := ed_col e in
    let e := putstr [32] (put_tail (delete_here 1 e)) in
    let e := left (tail_len e oc + 1) e in
    (if Z.of_nat oc <? ed_mark e then set_mark (ed_mark e - 1) e else e, h)
  else if c =? DELLINE then
    let n := tail_len e (ed_col e) in
    let e := set_line (take (ed_col e) (ed_line e)) e in
    let oc := ed_col e in
    let e := left n (put_blanks (Z.to_nat n) e) in
    (if Z.of_nat oc <? ed_mark e then set_mark (Z.of_nat oc) e else e, h)
  else if c =? KILL then
    let col := Z.of_nat (ed_col e) in
    if col =? ed_mark e then (e, h)
    else
      let '(n, e) :=
        if ed_mark e <? col then (col - ed_mark e, left (col - ed_mark e) e)
        else (ed_mark e - col, e) in
      let e := delete_here (Z.to_nat n) e in
      let oc := ed_col e in
      let e := put_blanks (Z.to_nat n) (put_tail e) in
      let e := left (tail_len e oc + n) e in
      (set_mark (Z.of_nat (ed_col e)) e, h)
  else if c =? bs then
    let e := left 1 e in
    let oc := ed_col e in
    let e := putstr [32] (put_tail (delete_here 1 e)) in
    let e := left (tail_len e oc + 1) e in
    (if Z.of_nat oc <=? ed_mark e then set_mark (ed_mark e - 1) e else e, h)
  else if isprint c then (addchar c e, h)
  else (mkEd (ed_line e) (ed_col e) (ed_mark e) (ed_out e ++ [bel]), h).

Fixpoint edit_keys (usehist : bool) (keys : list Z) (e : editor) (h : history)
  : option (editor * history * list Z) :=
  match keys with
  | [] => None
  | c :: keys' =>
      if (c =? nl) || (c =? cr) then Some (putstr [nl] e, h, keys')
      else let '(e, h) := edit_key usehist h c e in edit_keys usehist keys' e h
  end.

(** The line, the terminal output and the keys left; [None] while the user
    has not finished the line. [src/pmon/hist.c:48-145] *)
Definition get_line (p : cstr) (usehist : bool) (keys : list Z) (h : history)
  : option (editor * history * list Z) :=
  let h := mkHist (hist h) (r_ip (hist h)) (histno h) in
  let e := mkEd p 0 0 [] in
  let e := match p with [] => e | _ => let e := putstr p e in left (Z.of_nat (ed_col e)) e end in
  edit_keys usehist keys e h.

(** The history substitution of [get_cmd] on the line just read: the line to
    execute and the messages. [None] when [findbang] leaves the line.
    [src/pmon/hist.c:158-182] *)
Definition history_subst (p : cstr) (h : history) : option (cstr * trace) :=
  match findbang p with
  | None => None
  | Some None => Some (p, [])
  | Some (Some q) =>
      let buf := strdchr (getword (Some (drop q p))).1 in
      if strempty (Some buf) then Some (p, [])
      else
        let rest := Nat.iter (S (length buf)) strdchr (drop q p) in
        let insert t :=
          let line := take q p ++ stristr rest (strcpy t) in
          (line, [Printf "%s\n" [AStr (Some line)]]) in
        let missing := (take q p ++ rest, [Printf "%s: Event not found.\n" [AStr (Some buf)]]) in
        Some
          (if strequ (Some buf) (Some (str "!")) then
             insert (hist_at h (decmod (r_ip (hist h)) HISTMAX))
           else
             match atob buf 10 with
             | Some v =>
                 match gethistn (s32 v) h with Some t => insert (Some t) | None => missing end
             | None =>
                 match gethists buf h with Some t => insert (Some t) | None => missing end
             end)
  end.

(** [src/pmon/hist.c:148-184] *)
Definition get_cmd (keys : list Z) (room : bool) (h : history)
  : option (cstr * history * trace) :=
  match get_line [] true keys h with
  | None => None
  | Some (e, h, _) =>
      match history_subst (ed_line e) h with
      | None => None
      | Some (line, ev) => let '(h, ev') := addhist line room h in Some (line, h, ev ++ ev')
      end
  end.

(** ** The history as a list *)

Abbreviation N := HISTMAX.
Abbreviation contents h := (elems None N (hist h)).

(** Every slot outside the elements holds a null pointer. *)
Record hist_ok (h : history) : Prop := {
  ho_ring : ring_ok N (hist h);
  ho_free : forall i, (count N (hist h) <= i <= N)%nat -> hist_at h (slot N (hist h) i) = None
}.

Lemma dec_slot (r : ring cptr) i :
  ring_ok N r -> (i <= N)%nat ->
  decmod (slot N r i) N = slot N r (if Nat.eqb i 0 then N else i - 1)%nat.
Proof.
  intros (H1 & H2 & H3) Hi. unfold slot, decmod, N in *.
  destruct (Nat.eqb_spec i 0) as [->|];
    repeat match goal with
    | |- context [Nat.leb ?a ?b] => destruct (Nat.leb_spec a b)
    | |- context [Nat.eqb ?a ?b] => destruct (Nat.eqb_spec a b)
    end; lia.
Qed.

Lemma dec_times_slot (r : ring cptr) d i :
  ring_ok N r -> (d <= i <= N)%nat -> dec_times d (slot N r i) = slot N r (i - d).
Proof.
  intros Hok. revert i. induction d as [|d IH]; intros i Hd; cbn [dec_times].
  - f_equal. lia.
  - rewrite dec_slot by (done || lia). destruct (Nat.eqb_spec i 0); [lia|].
    rewrite IH by lia. f_equal. lia.
Qed.

Lemma hist_at_elem h i :
  hist_ok h -> (i < count N (hist h))%nat ->
  hist_at h (slot N (hist h) i) = default None (contents h !! i).
Proof. intros [Hok _] Hi. rewrite elems_lookup by done. done. Qed.

(** The slot just before [histi] holds the last command, or nothing. *)
Lemma last_slot h :
  hist_ok h -> hist_at h (decmod (r_ip (hist h)) N) = default None (list.last (contents h)).
Proof.
  intros Hh. pose proof (ho_ring h Hh) as Hok. pose proof (count_bound N (hist h) Hok) as Hb.
  rewrite <- (slot_count N (hist h) Hok), dec_slot by done.
  destruct (Nat.eqb_spec (count N (hist h)) 0) as [E|E].
  - rewrite (ho_free h Hh) by lia.
    assert (contents h = []) as -> by (apply nil_length_inv; by rewrite elems_length). done.
  - rewrite hist_at_elem by (done || lia). rewrite last_lookup, elems_length.
    f_equal. f_equal. lia.
Qed.

Lemma enter_free h p op :
  hist_ok (mkHist (mkRing (r_data (hist h)) (r_ip (hist h)) op) (histr h) (histno h)) ->
  (count N (mkRing (r_data (hist h)) (r_ip (hist h)) op) < N)%nat ->
  let h' := mkHist (enter N (mkRing (r_data (hist h)) (r_ip (hist h)) op) (Some p)) (histr h) (histno h + 1) in
  hist_ok h' /\
  contents h' = elems None N (mkRing (r_data (hist h)) (r_ip (hist h)) op) ++ [Some p].
Proof.
  set (r := mkRing (r_data (hist h)) (r_ip (hist h)) op). intros Hh Hc.
  pose proof (ho_ring _ Hh) as Hok. cbn [hist] in Hok.
  destruct (enter_spec None N r (Some p) Hok Hc) as (H1 & H2 & H3). cbn zeta. split; [|exact H3].
  split; [exact H1|]. cbn [hist]. rewrite H2. intros i Hi. unfold hist_at. cbn [hist r_data enter].
  change (slot N (enter N r (Some p)) i) with (slot N r i).
  rewrite list_lookup_insert_ne.
  - apply (ho_free _ Hh i). cbn [hist]. lia.
  - rewrite <- (slot_count N r Hok). intros E. apply slot_inj in E; [lia|done|lia|lia].
Qed.

(** Freeing the oldest entry of a full history leaves the others. *)
Lemma clear_oldest (r : ring cptr) hr hn :
  hist_ok (mkHist r hr hn) -> count N r = N ->
  let r1 := mkRing (<[r_op r := None]> (r_data r)) (r_ip r) (incmod (r_op r) N) in
  hist_ok (mkHist r1 hr hn) /\ count N r1 = (N - 1)%nat /\ elems None N r1 = tl (elems None N r).
Proof.
  intros Hh Hcnt r1. pose proof (ho_ring _ Hh) as Hok. cbn [hist] in Hok.
  destruct (drop_oldest_spec None N r Hok) as (D1 & D2 & D3); [unfold N in *; lia|].
  assert (slot N r 0 = r_op r) as H0.
  { destruct Hok as (? & ? & ?). unfold slot. destruct (Nat.leb_spec (r_op r + 0) N); lia. }
  assert (forall i, (i <= N)%nat -> slot N r1 i = if Nat.eqb i N then r_op r else slot N r (S i)) as Hsl.
  { intros i Hi. destruct Hok as (? & ? & ?). unfold r1, slot, incmod. cbn [r_op].
    destruct (Nat.ltb_spec N (r_op r + 1)), (Nat.eqb_spec i N);
      repeat match goal with |- context [Nat.leb ?a ?b] => destruct (Nat.leb_spec a b) end; lia. }
  assert (forall i, (i < N)%nat -> r_data r1 !! slot N r1 i = r_data r !! slot N r (S i)) as Hkeep.
  { intros i Hi. rewrite Hsl by lia. destruct (Nat.eqb_spec i N); [lia|]. cbn [r_data r1].
    rewrite list_lookup_insert_ne; [done|].
    rewrite <- H0. intros E. apply slot_inj in E; [lia|done|lia|lia]. }
  assert (count N r1 = (N - 1)%nat) as Hc1
    by (change (count N r1) with (count N (drop_oldest N r)); lia).
  split; [|split; [exact Hc1|]].
  - split; cbn [hist].
    + destruct Hok as (K1 & K2 & K3). split; [cbn; by rewrite length_insert|].
      split; [done|]. cbn. by apply incmod_bound.
    + rewrite Hc1. intros i Hi. unfold hist_at. cbn [hist]. destruct (decide (i = N)) as [->|Hni].
      * rewrite Hsl, Nat.eqb_refl by lia. cbn [r_data r1].
        rewrite list_lookup_insert_eq; [done|]. destruct Hok as (-> & ? & ?). lia.
      * rewrite Hkeep by lia. apply (ho_free _ Hh (S i)). cbn [hist]. lia.
  - rewrite <- D3. unfold elems. rewrite D2, Hc1, Hcnt.
    apply list_fmap_ext. intros i x Hx. apply lookup_seq in Hx as [-> Hx].
    change (slot N (drop_oldest N r) (0 + i)) with (slot N r1 i). rewrite Hkeep by lia.
    cbn [Nat.add drop_oldest r_data]. rewrite Hsl by lia. destruct (Nat.eqb_spec i N); [lia|done].
Qed.

(** The comparison [addhist] makes with the latest command. *)
Lemma same_as_last p h :
  hist_ok h ->
  match hist_at h (decmod (r_ip (hist h)) N) with
  | Some q => strequ (Some p) (Some q) | None => false end =
  bool_decide (list.last (contents h) = Some (Some p)).
Proof.
  intros Hh. rewrite last_slot by done. apply eq_true_iff_eq. rewrite bool_decide_eq_true.
  destruct (list.last (contents h)) as [[q|]|]; cbn [default].
  - unfold id. rewrite strequ_spec. naive_solver.
  - split; [done|congruence].
  - split; [done|congruence].
Qed.

(** What [addhist] does to the list of commands. *)
Lemma addhist_spec p h :
  hist_ok h -> strempty (Some p) = false ->
  let h' := (addhist p true h).1 in
  hist_ok h' /\
  (contents h', histno h') =
    (if decide (list.last (contents h) = Some (Some p)) then (contents h, histno h)
     else (lastn N (contents h ++ [Some p]), histno h + 1)).
Proof.
  intros Hh Hne. pose proof (ho_ring h Hh) as Hok.
  unfold addhist. rewrite Hne, same_as_last by done.
  destruct (decide (list.last (contents h) = Some (Some p))) as [Hs|Hs].
  { rewrite bool_decide_true by done. done. }
  rewrite bool_decide_false by done. destruct h as [r hr hn]. cbn [hist histr histno] in *.
  destruct (Nat.eqb_spec (incmod (r_ip r) N) (r_op r)) as [Hfull|Hfree].
  - apply (full_iff N r Hok) in Hfull as Hcnt.
    destruct (clear_oldest r hr hn Hh Hcnt) as (Hh1 & Hc1 & Hel).
    set (r1 := mkRing _ _ _) in *.
    destruct (enter_free (mkHist r1 hr hn) p (incmod (r_op r) N)) as [E1 E2];
      [exact Hh1|cbn [hist r_data r_ip r1]; fold r1; unfold N in *; lia|].
    cbn [hist r_data r_ip r1 histr histno] in E1, E2. fold r1 in E1, E2. cbn [fst].
    split; [exact E1|]. f_equal. rewrite Hel in E2. unfold enter in E2. cbn [r_data r_ip r_op r1] in E2.
    rewrite <- (lastn_snoc N (elems None N r) (Some p)) in E2;
      [exact E2|by rewrite elems_length|unfold N; lia].
  - assert (count N r < N)%nat as Hlt.
    { pose proof (count_bound N r Hok). destruct (Nat.eq_dec (count N r) N) as [E|]; [|lia].
      apply (full_iff N r Hok) in E. done. }
    destruct r as [d ip op]. cbn [r_data r_ip r_op] in *.
    destruct (enter_free (mkHist (mkRing d ip op) hr hn) p op) as [E1 E2]; [exact Hh|exact Hlt|].
    cbn [hist r_data r_ip histr histno fst] in *. split; [exact E1|]. f_equal.
    rewrite lastn_all; [exact E2|]. rewrite length_app, elems_length. cbn. lia.
Qed.

(** The power-on history, after [histinit]. *)
Definition hist0 : history := histinit (mkHist (mkRing (replicate 201 None) 0 0) 0 0).

Definition type_cmds (ps : list cstr) (h : history) : history :=
  fold_left (fun h p => (addhist p true h).1) ps h.

(** The commands that count: not blank, and not the same as the one before. *)
Definition record_cmd (l : list cstr) (p : cstr) : list cstr :=
  if strempty (Some p) then l else if decide (list.last l = Some p) then l else l ++ [p].
Definition recorded (ps : list cstr) : list cstr := fold_left record_cmd ps [].

Definition hist_holds (h : history) (l : list cstr) : Prop :=
  hist_ok h /\ contents h = lastn N (Some <$> l) /\ histno h = 1 + Z.of_nat (length l).

Lemma last_lastn {A} n (l : list A) : (0 < n)%nat -> list.last (lastn n l) = list.last l.
Proof.
  intros Hn. rewrite !last_lookup. unfold lastn. rewrite lookup_drop, length_drop.
  destruct (decide (l = [])) as [->|]; [done|]. destruct l; [done|]. f_equal. cbn [length]. lia.
Qed.

Lemma hist_holds_step h l p :
  hist_holds h l -> hist_holds ((addhist p true h).1) (record_cmd l p).
Proof.
  intros (Hok & Hc & Hn). unfold record_cmd. destruct (strempty (Some p)) eqn:Hp.
  { unfold addhist. rewrite Hp. by split_and!. }
  destruct (addhist_spec p h Hok Hp) as [Hok' Heq].
  rewrite Hc, last_lastn, fmap_last, Hn in Heq by (unfold N; lia).
  assert (Some <$> list.last l = Some (Some p) <-> list.last l = Some p) as Hiff
    by (destruct (list.last l); naive_solver).
  destruct (decide (Some <$> list.last l = Some (Some p))), (decide (list.last l = Some p));
    try tauto; apply pair_equal_spec in Heq as [Hc' Hn']; (split; [done|split; [rewrite Hc'|rewrite Hn']]).
  - done.
  - done.
  - by rewrite lastn_step, fmap_app by (unfold N; lia).
  - rewrite length_app. cbn. lia.
Qed.

Lemma hist_holds_init : hist_holds hist0 [].
Proof.
  split; [|done]. split; [by vm_compute; repeat split; lia|].
  intros i Hi. unfold hist_at, hist0. cbn [histinit hist r_data].
  destruct (replicate 201 None !! _) as [x|] eqn:E; [|done].
  by apply lookup_replicate in E as [-> _].
Qed.

Lemma hist_holds_type ps h l : hist_holds h l -> hist_holds (type_cmds ps h) (fold_left record_cmd ps l).
Proof.
  revert h l. induction ps as [|p ps IH]; intros h l H; [done|]. cbn. by apply IH, hist_holds_step.
Qed.

Lemma dec_times_add a b m : dec_times (a + b) m = dec_times b (dec_times a m).
Proof. revert m. induction a as [|a IH]; intros m; [done|]. cbn [Nat.add dec_times]. apply IH. Qed.

(** Stepping back [d] places from the insertion point. *)
Lemma dec_times_ip h d :
  hist_ok h -> (d <= N)%nat ->
  hist_at h (dec_times d (r_ip (hist h))) =
    if (Nat.leb 1 d && Nat.leb d (count N (hist h)))%bool
    then default None (contents h !! (count N (hist h) - d)%nat) else None.
Proof.
  intros Hh Hd. pose proof (ho_ring h Hh) as Hok. pose proof (count_bound N (hist h) Hok) as Hb.
  rewrite <- (slot_count N (hist h) Hok).
  destruct (Nat.leb_spec 1 d) as [H1|H1]; cbn [andb].
  2:{ replace d with 0%nat by lia. cbn [dec_times]. apply (ho_free h Hh). lia. }
  destruct (Nat.leb_spec d (count N (hist h))) as [H2|H2].
  - rewrite dec_times_slot by (done || lia). apply hist_at_elem; [done|lia].
  - replace d with (count N (hist h) + (1 + (d - count N (hist h) - 1)))%nat by lia.
    rewrite dec_times_add, dec_times_slot by (done || lia). rewrite Nat.sub_diag.
    cbn [Nat.add dec_times]. rewrite dec_slot by (done || lia). rewrite Nat.eqb_refl.
    rewrite dec_times_slot by (done || lia). apply (ho_free h Hh). lia.
Qed.

Lemma gethistn_spec h l n :
  hist_holds h l ->
  gethistn n h =
    if bool_decide (1 <= n <= Z.of_nat (length l) /\ Z.of_nat (length l) - 200 < n)
    then l !! Z.to_nat (n - 1) else None.
Proof.
  intros (Hok & Hc & Hn). unfold gethistn. rewrite Hn. change (Z.of_nat N) with 200.
  assert (count N (hist h) = Nat.min (length l) N) as Hcnt.
  { rewrite <- elems_length with (d0 := None), Hc. unfold lastn. rewrite length_drop, length_fmap. lia. }
  destruct (Z.ltb_spec n (1 + Z.of_nat (length l) - 200)) as [H1|H1]; cbn [orb].
  { rewrite bool_decide_false by lia. done. }
  destruct (Z.ltb_spec (1 + Z.of_nat (length l)) n) as [H2|H2].
  { rewrite bool_decide_false by lia. done. }
  rewrite dec_times_ip by (done || (unfold N; lia)). rewrite Hcnt, Hc.
  set (d := Z.to_nat (1 + Z.of_nat (length l) - n)).
  assert (Z.of_nat d = 1 + Z.of_nat (length l) - n) as Hd by lia.
  destruct (Nat.leb_spec 1 d), (Nat.leb_spec d (Nat.min (length l) N)); cbn [andb];
    [|rewrite bool_decide_false by (unfold N in *; lia); done..].
  rewrite bool_decide_true by (unfold N in *; lia).
  unfold lastn. rewrite lookup_drop, length_fmap, list_lookup_fmap.
  replace (length l - N + (Nat.min (length l) N - d))%nat with (Z.to_nat (n - 1)) by (unfold N in *; lia).
  by destruct (l !! Z.to_nat (n - 1)).
Qed.

Lemma gethists_loop_spec h p k :
  hist_ok h -> (k <= count N (hist h))%nat -> Forall is_Some (contents h) -> forall fuel, (k < fuel)%nat ->
  gethists_loop fuel h p (decmod (slot N (hist h) k) N) =
  mjoin (List.find (fun s => strbequ s (Some p)) (rev (take k (contents h)))).
Proof.
  intros Hh. pose proof (ho_ring h Hh) as Hok. pose proof (count_bound N (hist h) Hok) as Hb.
  intros Hk Hsome fuel. revert k Hk.
  assert (slot N (hist h) 0 = r_op (hist h)) as H0.
  { destruct Hok as (? & ? & ?). unfold slot. destruct (Nat.leb_spec (r_op (hist h) + 0) N); lia. }
  induction fuel as [|f IH]; intros k Hk Hf; [lia|]. cbn [gethists_loop].
  destruct k as [|k]; [rewrite H0, Nat.eqb_refl; done|].
  rewrite dec_slot by (done || lia). cbn [Nat.eqb Nat.sub]. rewrite Nat.sub_0_r.
  destruct (Nat.eqb_spec (slot N (hist h) k) (decmod (r_op (hist h)) N)) as [E|_].
  { rewrite <- H0, dec_slot in E by (done || lia). cbn in E. apply slot_inj in E; [lia|done|lia|lia]. }
  rewrite hist_at_elem by (done || lia).
  destruct (lookup_lt_is_Some_2 (contents h) k) as [x Hx]; [rewrite elems_length; lia|].
  rewrite (take_S_r _ _ x Hx), rev_app_distr, Hx. cbn [rev app List.find default].
  destruct (Forall_lookup_1 _ _ _ _ Hsome Hx) as [s ->]. unfold id.
  destruct (strbequ (Some s) (Some p)); [done|]. apply IH; lia.
Qed.

Lemma gethists_spec h l p :
  hist_holds h l ->
  gethists p h = List.find (fun s => strbequ (Some s) (Some p)) (rev (lastn N l)).
Proof.
  intros (Hok & Hc & Hn). pose proof (ho_ring h Hok) as Hr. unfold gethists.
  pose proof (count_bound N (hist h) Hr).
  rewrite <- (slot_count N (hist h) Hr), gethists_loop_spec; try done; try lia.
  - rewrite firstn_all2 by (rewrite elems_length; lia). rewrite Hc.
    replace (lastn N (Some <$> l)) with (Some <$> lastn N l)
      by (unfold lastn; by rewrite fmap_drop, length_fmap).
    rewrite <- map_rev. induction (rev (lastn N l)) as [|s r IH]; [done|]. cbn [map List.find].
    destruct (strbequ (Some s) (Some p)); [done|]. exact IH.
  - rewrite Hc. unfold lastn. rewrite <- fmap_drop. apply List.Forall_forall.
    intros x (y & <- & _)%in_map_iff. done.
Qed.

(** C22. The history is the list of the commands typed, blank lines and
    immediate repetitions left out, numbered from 1. Event [n] is found exactly
    when it is among the last 200, and it is the [n]th command of that list;
    the search by prefix gives the latest of the last 200 commands that starts
    with the prefix. *)
Theorem history_events (ps : list cstr) :
  let h := type_cmds ps hist0 in
  let l := recorded ps in
  histno h = 1 + Z.of_nat (length l) /\
  (forall n, gethistn n h =
     if bool_decide (1 <= n <= Z.of_nat (length l) /\ Z.of_nat (length l) - 200 < n)
     then l !! Z.to_nat (n - 1) else None) /\
  (forall p, gethists p h = List.find (fun s => strbequ (Some s) (Some p)) (rev (lastn HISTMAX l))).
Proof.
  pose proof (hist_holds_type ps hist0 [] hist_holds_init) as H. cbn zeta. split; [|split].
  - apply H.
  - intros n. by apply gethistn_spec.
  - intros p. by apply gethists_spec.
Qed.

(** ** The terminal *)

(** One row of a terminal, to the right of the prompt: its cells and the
    column of its cursor. *)
Record term : Type := mkTerm { cells : list Z; cursor : nat }.

Definition term_step (t : term) (c : Z) : term :=
  if c =? bs then mkTerm (cells t) (cursor t - 1)
  else if c =? bel then t
  else mkTerm (take (cursor t) (cells t) ++ [c] ++ drop (S (cursor t)) (cells t)) (S (cursor t)).

Definition term_run (cs : list Z) (t : term) : term := fold_left term_step cs t.

Definition visible (c : Z) : Prop := 32 <= c.

(** The terminal that received the editor's output has the cells [x] and its
    cursor where [column] says. *)
Definition on_screen (e : editor) (x : list Z) : Prop :=
  term_run (ed_out e) (mkTerm [] 0) = mkTerm x (ed_col e) /\ (ed_col e <= length x)%nat.

(** The row reads [l], followed by blanks. *)
Definition reads (x l : list Z) : Prop := exists k, x = l ++ replicate k 32.

Lemma term_run_app s1 s2 t : term_run (s1 ++ s2) t = term_run s2 (term_run s1 t).
Proof. unfold term_run. apply fold_left_app. Qed.

Lemma on_screen_putstr s e x :
  Forall visible s -> on_screen e x ->
  on_screen (putstr s e) (take (ed_col e) x ++ s ++ drop (ed_col e + length s) x) /\
  ed_col (putstr s e) = (ed_col e + length s)%nat /\
  ed_line (putstr s e) = ed_line e /\ ed_mark (putstr s e) = ed_mark e.
Proof.
  revert e x. induction s as [|c s IH]; intros e x Hs [Hrun Hle].
  { cbn. rewrite Nat.add_0_r, take_drop. done. }
  apply Forall_cons_iff in Hs as [Hc Hs]. cbn [putstr fold_left]. change (fold_left _ s ?e0) with (putstr s e0).
  unfold visible in Hc.
  assert (on_screen (put_one c e) (take (ed_col e) x ++ [c] ++ drop (S (ed_col e)) x)) as H1.
  { unfold on_screen, put_one. cbn [ed_out ed_col]. rewrite term_run_app, Hrun. cbn [term_run fold_left].
    unfold term_step, bs, bel, nl. rewrite !(proj2 (Z.eqb_neq c _)) by lia. cbn [cells cursor]. split; [done|].
    rewrite !length_app, length_take, length_drop. cbn. lia. }
  assert (ed_col (put_one c e) = S (ed_col e)) as Hcol.
  { unfold put_one, nl. cbn. by rewrite (proj2 (Z.eqb_neq c _)) by lia. }
  destruct (IH _ _ Hs H1) as (A & B & C & D). rewrite Hcol in A, B. split_and!; [|cbn; lia|done|done].
  assert (length (take (ed_col e) x) = ed_col e) as Hlt by (rewrite length_take; lia).
  rewrite (app_assoc (take (ed_col e) x) [c] (drop (S (ed_col e)) x)) in A.
  rewrite take_app_le, (firstn_all2 (take (ed_col e) x ++ [c])) in A by (rewrite length_app; cbn; lia).
  rewrite drop_app_ge in A by (rewrite length_app; cbn; lia).
  rewrite length_app, drop_drop, Hlt in A. cbn [length] in A |- *.
  rewrite <- app_assoc in A. cbn [app] in A |- *.
  replace (S (ed_col e) + (S (ed_col e) + length s - (ed_col e + 1)))%nat
    with (ed_col e + S (length s))%nat in A by lia. exact A.
Qed.

Lemma on_screen_left n e x :
  on_screen e x -> on_screen (left n e) x /\
  ed_col (left n e) = (ed_col e - Nat.min (Z.to_nat n) (ed_col e))%nat /\
  ed_line (left n e) = ed_line e /\ ed_mark (left n e) = ed_mark e.
Proof.
  intros [Hrun Hle]. split; [|done]. unfold on_screen, left. cbn [ed_out ed_col].
  split; [|lia]. rewrite term_run_app, Hrun. generalize (Nat.min (Z.to_nat n) (ed_col e)) as k.
  intros k. clear Hrun Hle. generalize (ed_col e) as c. revert x.
  induction k as [|k IH]; intros x c; cbn; [by rewrite Nat.sub_0_r|].
  change (fold_left _ (replicate k bs) ?t) with (term_run (replicate k bs) t).
  rewrite IH. f_equal. lia.
Qed.

Lemma putstr_app s1 s2 e : putstr (s1 ++ s2) e = putstr s2 (putstr s1 e).
Proof. unfold putstr. apply fold_left_app. Qed.

Lemma putstr_visible s e :
  Forall visible s -> putstr s e = mkEd (ed_line e) (ed_col e + length s) (ed_mark e) (ed_out e ++ s).
Proof.
  intros Hs. revert e. induction Hs as [|c s Hc Hs IH]; intros e.
  { cbn. rewrite Nat.add_0_r, app_nil_r. by destruct e. }
  change (putstr (c :: s) e) with (putstr s (put_one c e)). rewrite IH. unfold put_one. cbn.
  unfold visible, nl in *. rewrite (proj2 (Z.eqb_neq c _)) by lia. rewrite <- app_assoc. f_equal. lia.
Qed.

Lemma visible_blanks n : Forall visible (replicate n 32).
Proof. induction n as [|n IH]; [constructor|]. by constructor. Qed.

Lemma put_blanks_putstr n e : put_blanks n e = putstr (replicate n 32) e.
Proof.
  induction n as [|n IH]; [done|].
  change (put_blanks (S n) e) with (putstr [32] (put_blanks n e)). rewrite IH, <- putstr_app.
  change [32] with (replicate 1 32). by rewrite <- replicate_add, Nat.add_comm.
Qed.

(** What the editor keeps true between two keys. *)
Definition shown (e : editor) : Prop :=
  exists x, on_screen e x /\ reads x (ed_line e) /\
    (ed_col e <= length (ed_line e))%nat /\ Forall visible (ed_line e).

(** Writing [s] and [n] blanks over the rest of the line. *)
Lemma reads_overwrite x l0 c s n :
  reads x l0 -> (c <= length l0 <= c + length s + n)%nat ->
  reads (take c x ++ (s ++ replicate n 32) ++ drop (c + length (s ++ replicate n 32)) x) (take c l0 ++ s).
Proof.
  intros [k ->] Hc. rewrite length_app, length_replicate.
  rewrite take_app_le by lia. rewrite drop_app_ge by lia. rewrite drop_replicate.
  eexists. rewrite <- !app_assoc, <- replicate_add. done.
Qed.

Lemma redraw e x l0 s n :
  on_screen e x -> reads x l0 -> Forall visible s ->
  (ed_col e <= length l0 <= ed_col e + length s + n)%nat ->
  ed_line e = take (ed_col e) l0 ++ s ->
  exists x', on_screen (put_blanks n (put_tail e)) x' /\ reads x' (ed_line e) /\
    ed_col (put_blanks n (put_tail e)) = (ed_col e + length s + n)%nat /\
    ed_line (put_blanks n (put_tail e)) = ed_line e /\
    ed_mark (put_blanks n (put_tail e)) = ed_mark e.
Proof.
  intros Hx Hr Hs Hl He. unfold put_tail. rewrite put_blanks_putstr, <- putstr_app.
  assert (drop (ed_col e) (ed_line e) = s) as ->.
  { rewrite He, drop_app_ge, length_take by (rewrite length_take; lia).
    by replace (ed_col e - Nat.min (ed_col e) (length l0))%nat with 0%nat by lia. }
  destruct (on_screen_putstr (s ++ replicate n 32) e x) as (A & B & C & D);
    [apply Forall_app; split; [done|apply visible_blanks]|done|].
  eexists. split; [exact A|]. rewrite B, C, D, length_app, length_replicate.
  split_and!; try done; try lia. rewrite He. rewrite <- (length_replicate n 32) at 2.
  rewrite <- length_app. by apply reads_overwrite.
Qed.

(** The same, with the cursor moved back by [k]. *)
Lemma redraw_left e x l0 s n (k : Z) :
  on_screen e x -> reads x l0 -> Forall visible l0 -> Forall visible s ->
  (ed_col e <= length l0 <= ed_col e + length s + n)%nat ->
  ed_line e = take (ed_col e) l0 ++ s -> Z.of_nat n <= k <= Z.of_nat (length s + n) ->
  let e' := left k (put_blanks n (put_tail e)) in
  shown e' /\ ed_line e' = ed_line e /\ ed_mark e' = ed_mark e /\
  ed_col e' = (ed_col e + length s + n - Z.to_nat k)%nat.
Proof.
  intros Hx Hr Hv Hs Hl He Hk. destruct (redraw e x l0 s n Hx Hr Hs Hl He) as (x' & A & B & C & D & E).
  destruct (on_screen_left k _ _ A) as (F & G & H & I). cbn zeta.
  rewrite H, I, D, E, G, C. split_and!; try done; [|lia].
  exists x'. rewrite H, G, D, C. split_and!; try done.
  - rewrite He, length_app, length_take. lia.
  - rewrite He. apply Forall_app; split; [by apply Forall_take|done].
Qed.

Lemma shown_left n e : shown e -> shown (left n e).
Proof.
  intros (x & A & B & C & D). destruct (on_screen_left n _ _ A) as (F & G & H & I).
  exists x. rewrite H, G. split_and!; try done. lia.
Qed.

(** Moving right prints the characters that are already there. *)
Lemma on_screen_right n e x :
  shown e -> on_screen e x -> reads x (ed_line e) ->
  on_screen (right n e) x /\ shown (right n e).
Proof.
  intros (_ & _ & _ & C & D) Hx [k ->]. set (m := Nat.min (Z.to_nat n) (length (ed_line e) - ed_col e)).
  set (s := take m (drop (ed_col e) (ed_line e))).
  assert (length s = m) as Hlen by (unfold s; rewrite length_take, length_drop; lia).
  assert (Forall visible s) as Hs by (unfold s; by apply Forall_take, Forall_drop).
  assert (right n e = putstr s e) as ->.
  { rewrite putstr_visible by done. unfold right. fold m. fold s. by rewrite Hlen. }
  destruct (on_screen_putstr s e _ Hs Hx) as (F & G & H & I).
  replace (take (ed_col e) (ed_line e ++ replicate k 32) ++ s ++
      drop (ed_col e + length s) (ed_line e ++ replicate k 32)) with (ed_line e ++ replicate k 32) in F.
  - split; [done|]. eexists. split; [exact F|]. rewrite G, H. split_and!; [by eexists|lia|done].
  - rewrite Hlen, take_app_le, drop_app_le by lia. rewrite <- drop_drop, app_assoc, app_assoc.
    unfold s. f_equal. rewrite <- app_assoc, take_drop. by rewrite take_drop.
Qed.

(** [backspace] blanks the cells it moves over. *)
Lemma on_screen_backspace n e x :
  on_screen e x ->
  let k := Nat.min (Z.to_nat n) (ed_col e) in
  on_screen (backspace n e) (take (ed_col e - k) x ++ replicate k 32 ++ drop (ed_col e) x) /\
  ed_col (backspace n e) = (ed_col e - k)%nat.
Proof.
  intros [Hrun Hle] k. split; [|done]. unfold on_screen, backspace. fold k. cbn [ed_out ed_col].
  assert (k <= ed_col e)%nat as Hk by lia. split.
  2:{ rewrite !length_app, length_take, length_replicate, length_drop. lia. }
  rewrite term_run_app, Hrun. clearbody k. clear Hrun. revert x Hle. generalize dependent (ed_col e).
  induction k as [|k IH]; intros c Hk x Hle; cbn [replicate concat].
  { cbn. rewrite Nat.sub_0_r. by rewrite take_drop. }
  rewrite term_run_app. unfold term_run at 2. cbn [fold_left].
  unfold term_step. change (bs =? bs) with true. change (32 =? bs) with false. change (32 =? bel) with false.
  cbn [cells cursor].
  replace (S (c - 1) - 1)%nat with (c - 1)%nat by lia. rewrite IH; [|lia|].
  - f_equal; [|lia]. replace (S (c - 1)) with c by lia.
    assert (length (take (c - 1) x) = c - 1)%nat as Hl by (rewrite length_take; lia).
    rewrite take_app_le, take_take by lia. replace (Nat.min (c - 1 - k) (c - 1)) with (c - S k)%nat by lia.
    rewrite drop_app_ge, Hl, Nat.sub_diag by lia. cbn [drop app].
    change (32 :: drop c x) with (replicate 1 32 ++ drop c x).
    rewrite (app_assoc (replicate k 32)), <- replicate_add, Nat.add_1_r. done.
  - rewrite !length_app, length_take, length_drop. cbn. lia.
Qed.

Lemma shown_recall h i e :
  shown e -> Forall visible (strcpy (hist_at h i)) ->
  shown (recall h i e) /\ ed_line (recall h i e) = strcpy (hist_at h i) /\
  ed_col (recall h i e) = length (strcpy (hist_at h i)) /\ ed_mark (recall h i e) = 0.
Proof.
  intros He Hs. unfold recall. rewrite strlen_spec. pose proof He as (x & A & B & C & D).
  destruct (on_screen_right (Z.of_nat (length (ed_line e)) - Z.of_nat (ed_col e)) e x He A B)
    as [[F F'] _].
  set (e1 := right _ e) in *.
  assert (ed_col e1 = length (ed_line e)) as Hc1 by (unfold e1, right; cbn; lia).
  destruct (on_screen_backspace (Z.of_nat (ed_col e1)) e1 x (conj F F')) as [G H].
  set (e2 := backspace _ e1) in *. rewrite Nat2Z.id, Nat.min_id, Nat.sub_diag in G, H. cbn [take app] in G.
  destruct (on_screen_putstr (strcpy (hist_at h i)) (set_line (strcpy (hist_at h i)) e2)
              (replicate (ed_col e1) 32 ++ drop (ed_col e1) x) Hs G) as (K & L & M & P).
  cbn [ed_col ed_line ed_mark set_mark] in *. cbn [set_line ed_line ed_col] in *.
  rewrite L, M, H. split; [|done].
  eexists. split; [exact K|]. cbn [ed_col ed_line ed_mark set_mark]. rewrite L, M, H. cbn [take app Nat.add]. split_and!; [|lia|done].
  destruct B as [k ->]. rewrite Hc1, drop_app_ge, Nat.sub_diag, drop_0, <- replicate_add by done.
  rewrite drop_replicate. by eexists.
Qed.

Lemma iter_strdchr n l : Nat.iter n strdchr l = drop n l.
Proof.
  revert l. induction n as [|n IH]; intros l; [done|].
  rewrite Nat.iter_succ_r, IH. destruct l; cbn; [apply drop_nil|done].
Qed.

Lemma shown_set_mark m e : shown e -> shown (set_mark m e).
Proof. done. Qed.

(** Deleting [n] characters at the cursor and redrawing. *)
Lemma shown_delete n e :
  shown e -> (1 <= n)%nat ->
  let e1 := put_blanks n (put_tail (delete_here n e)) in
  let e2 := left (tail_len e1 (ed_col e) + Z.of_nat n) e1 in
  shown e2 /\ ed_col e2 = ed_col e /\ ed_mark e2 = ed_mark e /\
  ed_line e2 = take (ed_col e) (ed_line e) ++ drop (ed_col e + n) (ed_line e).
Proof.
  intros (x & A & B & C & D) Hn. cbn zeta.
  set (s := drop (ed_col e + n) (ed_line e)).
  assert (ed_line (delete_here n e) = take (ed_col e) (ed_line e) ++ s) as Hl.
  { unfold delete_here, s. cbn. by rewrite iter_strdchr, drop_drop. }
  assert (Forall visible s) as Hs by by apply Forall_drop.
  assert (length s = length (ed_line e) - (ed_col e + n))%nat as Hls by apply length_drop.
  destruct (redraw (delete_here n e) x (ed_line e) s n) as (_ & _ & _ & _ & E1 & _);
    [exact A|done|done|cbn; lia|done|].
  assert (tail_len (put_blanks n (put_tail (delete_here n e))) (ed_col e) = Z.of_nat (length s)) as ->.
  { unfold tail_len. rewrite E1, Hl, strlen_spec, drop_app_ge, length_take by (rewrite length_take; lia).
    by replace (ed_col e - Nat.min (ed_col e) (length (ed_line e)))%nat with 0%nat by lia. }
  destruct (redraw_left (delete_here n e) x (ed_line e) s n (Z.of_nat (length s) + Z.of_nat n))
    as (F & G & H & I); [exact A|done|done|done|cbn; lia|done|lia|].
  rewrite G, H, I, Hl. cbn. split_and!; try done. lia.
Qed.

Lemma shown_addchar c e :
  shown e -> isprint c = true ->
  shown (addchar c e) /\ ed_mark (addchar c e) = ed_mark e /\
  (ed_line (addchar c e), ed_col (addchar c e)) =
    if Z.of_nat (LINESZ - 40) <? Z.of_nat (length (ed_line e)) then (ed_line e, ed_col e)
    else (take (ed_col e) (ed_line e) ++ c :: drop (ed_col e) (ed_line e), S (ed_col e)).
Proof.
  intros He Hc. pose proof He as (x & A & B & C & D). unfold addchar.
  rewrite strlen_spec. change (Z.of_nat LINESZ - 40) with (Z.of_nat (LINESZ - 40)).
  case_match; [done|]. clear H.
  set (s := c :: drop (ed_col e) (ed_line e)). unfold strichr. fold s.
  set (e1 := set_line _ e).
  assert (Forall visible s) as Hs.
  { constructor; [unfold isprint in Hc; unfold visible; lia|by apply Forall_drop]. }
  assert (length s = S (length (ed_line e) - ed_col e)) as Hls by (cbn; by rewrite length_drop).
  change (put_tail e1) with (put_blanks 0 (put_tail e1)).
  destruct (redraw e1 x (ed_line e) s 0) as (_ & _ & _ & _ & E1 & _);
    [exact A|done|done|change (ed_col e1) with (ed_col e); lia|done|].
  assert (tail_len (put_blanks 0 (put_tail e1)) (ed_col e) = Z.of_nat (length s)) as ->.
  { unfold tail_len. rewrite E1. cbn [ed_line e1 set_line]. rewrite strlen_spec, drop_app_ge, length_take by (rewrite length_take; lia).
    by replace (ed_col e - Nat.min (ed_col e) (length (ed_line e)))%nat with 0%nat by lia. }
  destruct (redraw_left e1 x (ed_line e) s 0 (Z.of_nat (length s) - 1))
    as (F & G & H & I); [exact A|done|done|done|change (ed_col e1) with (ed_col e); lia|done|lia|].
  split; [exact F|]. split; [exact H|]. apply pair_equal_spec. split; [exact G|].
  rewrite I. change (ed_col e1) with (ed_col e). lia.
Qed.

(** ** What the keys mean *)

(** The text before and after the cursor, and the mark. *)
Record gap : Type := mkGap { before : cstr; after : cstr; mark : Z }.

Definition gap_of (e : editor) : gap :=
  mkGap (take (ed_col e) (ed_line e)) (drop (ed_col e) (ed_line e)) (ed_mark e).

(** Moving the history pointer back and forth, within the history. *)
Definition hist_prev (h : history) : history :=
  mkHist (hist h) (if Nat.eqb (histr h) (r_op (hist h)) then histr h else decmod (histr h) HISTMAX) (histno h).
Definition hist_next (h : history) : history :=
  mkHist (hist h) (if Nat.eqb (histr h) (r_ip (hist h)) then histr h else incmod (histr h) HISTMAX) (histno h).

(** The effect of a key on the text. *)
Definition gap_key (usehist : bool) (c : Z) (g : gap) (h : history) : gap * history :=
  let 'mkGap b a m := g in
  let n := Z.of_nat (length b) in
  if (c =? PREV) && usehist then (mkGap (strcpy (hist_at h (histr (hist_prev h)))) [] 0, hist_prev h)
  else if (c =? NEXT) && usehist then (mkGap (strcpy (hist_at h (histr (hist_next h)))) [] 0, hist_next h)
  else if c =? FORW then (mkGap (b ++ take 1 a) (drop 1 a) m, h)
  else if c =? BACK then (mkGap (removelast b) (drop (length b - 1) b ++ a) m, h)
  else if c =? BEGIN then (mkGap [] (b ++ a) m, h)
  else if c =? END then (mkGap (b ++ a) [] m, h)
  else if c =? MARK then (mkGap b a n, h)
  else if c =? DELETE then (mkGap b (drop 1 a) (if n <? m then m - 1 else m), h)
  else if c =? DELLINE then (mkGap b [] (Z.min n m), h)
  else if c =? KILL then
    (if n <? m then mkGap b (drop (Z.to_nat (m - n)) a) n
     else if n =? m then g
     else mkGap (take (Z.to_nat m) b) (drop (Z.to_nat (- m)) a) (Z.max 0 m), h)
  else if c =? bs then
    (mkGap (removelast b) (if Nat.eqb (length b) 0 then drop 1 a else a)
       (if Z.max 0 (n - 1) <=? m then m - 1 else m), h)
  else if isprint c then
    (if Z.of_nat (LINESZ - 40) <? Z.of_nat (length (b ++ a)) then g else mkGap (b ++ [c]) a m, h)
  else (g, h).

(** The keys of a line that is not finished. *)
Definition run_keys (usehist : bool) (keys : list Z) (s : editor * history) : editor * history :=
  fold_left (fun s c => edit_key usehist s.2 c s.1) keys s.

Definition gap_keys (usehist : bool) (keys : list Z) (s : gap * history) : gap * history :=
  fold_left (fun s c => gap_key usehist c s.1 s.2) keys s.

Definition hist_visible (h : history) : Prop :=
  Forall (fun p => Forall visible (strcpy p)) (r_data (hist h)).

Lemma hist_visible_at h i : hist_visible h -> Forall visible (strcpy (hist_at h i)).
Proof.
  intros H. unfold hist_at. destruct (r_data (hist h) !! i) as [p|] eqn:E; cbn; [|constructor].
  by apply (Forall_lookup_1 _ _ _ _ H E).
Qed.

Lemma gap_of_cursor e b a m :
  ed_line e = b ++ a -> ed_col e = length b -> ed_mark e = m -> gap_of e = mkGap b a m.
Proof.
  intros Hl Hc Hm. unfold gap_of. by rewrite Hl, Hc, take_app_length, drop_app_length, Hm.
Qed.

Lemma gap_cases e : (ed_col e <= length (ed_line e))%nat ->
  exists b a, gap_of e = mkGap b a (ed_mark e) /\ ed_line e = b ++ a /\ ed_col e = length b.
Proof.
  intros H. exists (take (ed_col e) (ed_line e)), (drop (ed_col e) (ed_line e)).
  split; [done|]. rewrite take_drop, length_take. split; [done|lia].
Qed.

Lemma removelast_take {A} (l : list A) : removelast l = take (length l - 1) l.
Proof. rewrite removelast_firstn_len. by rewrite Nat.sub_1_r. Qed.

Section Keys.
Context (e : editor) (b a : cstr) (He : shown e) (Hl : ed_line e = b ++ a) (Hc : ed_col e = length b).
#[local] Set Default Proof Using "All".

Lemma key_left n :
  shown (left n e) /\
  gap_of (left n e) = mkGap (take (length b - Z.to_nat n) b) (drop (length b - Z.to_nat n) b ++ a) (ed_mark e).
Proof.
  split; [by apply shown_left|]. apply gap_of_cursor; cbn; [by rewrite app_assoc, take_drop|
    rewrite length_take; lia|done].
Qed.

Lemma key_right n :
  shown (right n e) /\
  gap_of (right n e) = mkGap (b ++ take (Z.to_nat n) a) (drop (Z.to_nat n) a) (ed_mark e).
Proof.
  destruct He as (x & A & B & _). split; [by apply (on_screen_right n e x)|].
  apply gap_of_cursor; cbn; [by rewrite <- app_assoc, take_drop| |done].
  rewrite Hl, Hc, !length_app, length_take. lia.
Qed.

Lemma key_delete n :
  (1 <= n)%nat ->
  let e1 := put_blanks n (put_tail (delete_here n e)) in
  let e2 := left (tail_len e1 (ed_col e) + Z.of_nat n) e1 in
  shown e2 /\ ed_col e2 = ed_col e /\ ed_mark e2 = ed_mark e /\ ed_line e2 = b ++ drop n a.
Proof.
  intros Hn. destruct (shown_delete n e He Hn) as (A & B & C & D). split_and!; try done.
  rewrite D, Hl, Hc, take_app_length, drop_app_ge by lia. f_equal. f_equal. lia.
Qed.

Lemma key_dellline :
  let n := tail_len e (ed_col e) in
  let e1 := set_line (take (ed_col e) (ed_line e)) e in
  let e2 := left n (put_blanks (Z.to_nat n) e1) in
  shown e2 /\ ed_col e2 = ed_col e /\ ed_mark e2 = ed_mark e /\ ed_line e2 = b.
Proof.
  cbn zeta. destruct He as (x & A & B & C & D).
  unfold tail_len. rewrite strlen_spec, Hl, Hc, drop_app_length, take_app_length, Nat2Z.id.
  set (e1 := set_line b e).
  assert (put_tail e1 = e1) as <- by (unfold put_tail; cbn; by rewrite Hc, drop_ge by lia).
  rewrite Hl in B, D. apply Forall_app in D as [Db Da].
  destruct (redraw_left e1 x (b ++ a) [] (length a) (Z.of_nat (length a))) as (F & G & H & I).
  - exact A.
  - exact B.
  - by apply Forall_app.
  - constructor.
  - cbn. rewrite length_app. lia.
  - cbn. by rewrite Hc, take_app_length, app_nil_r.
  - cbn. lia.
  - split; [exact F|]. rewrite G, H, I. cbn. split_and!; try done. lia.
Qed.

End Keys.

Lemma gap_inv e b a m :
  (ed_col e <= length (ed_line e))%nat -> gap_of e = mkGap b a m ->
  ed_line e = b ++ a /\ ed_col e = length b /\ ed_mark e = m.
Proof.
  intros H [= <- <- <-]. rewrite take_drop, length_take. split_and!; try done. lia.
Qed.

Lemma drop_split {A} k n (b a : list A) :
  (n <= length b)%nat -> drop k (drop (length b - n) b ++ a) = drop k (drop (length b - n) b) ++ drop (k - n) a.
Proof. intros H. rewrite skipn_app. f_equal. f_equal. rewrite length_drop. lia. Qed.

(** Deleting what lies between the mark and the cursor. *)
Lemma key_kill_back e b a m :
  shown e -> ed_line e = b ++ a -> ed_col e = length b -> ed_mark e = m -> m < Z.of_nat (length b) ->
  let n := Z.of_nat (length b) - m in
  let e0 := delete_here (Z.to_nat n) (left n e) in
  let e1 := put_blanks (Z.to_nat n) (put_tail e0) in
  let e2 := left (tail_len e1 (ed_col e0) + n) e1 in
  shown e2 /\ ed_line e2 = take (Z.to_nat m) b ++ drop (Z.to_nat (- m)) a /\
  ed_col e2 = length (take (Z.to_nat m) b).
Proof.
  intros He Hl Hc Hm Hlt n. cbn zeta. destruct (key_left e b a He Hl Hc n) as [A B].
  apply gap_inv in B as (B1 & B2 & B3); [|by destruct A as (? & _ & _ & ? & _)].
  destruct (key_delete (left n e) _ _ A B1 B2 (Z.to_nat n)) as (F & G & H & I); [lia|].
  rewrite Z2Nat.id in F, G, I by lia.
  change (ed_col (delete_here (Z.to_nat n) (left n e))) with (ed_col (left n e)).
  split; [exact F|]. rewrite G, I, B2. split.
  - replace (length b - Z.to_nat n)%nat with (Nat.min (Z.to_nat m) (length b)) by lia.
    destruct (Z.leb_spec 0 m).
    + replace (Z.to_nat (- m)) with 0%nat by lia. f_equal; [f_equal; lia|].
      rewrite drop_app_ge by (rewrite length_drop; lia). rewrite length_drop. f_equal. lia.
    + replace (Z.to_nat m) with 0%nat by lia. rewrite Nat.min_0_l, drop_0, take_0.
      cbn [app]. rewrite drop_app_ge by lia. f_equal. lia.
  - f_equal. f_equal. lia.
Qed.

(** One key keeps the screen right and does what the key means. *)
Definition step_ok (u : bool) (h : history) (c : Z) (e : editor) : Prop :=
  let '(e', h') := edit_key u h c e in
  shown e' /\ (gap_of e', h') = gap_key u c (gap_of e) h /\ hist_visible h'.

Ltac select_key :=
  unfold step_ok, edit_key, gap_key;
  repeat match goal with
  | |- context [?x =? ?y] =>
      let v := eval vm_compute in (x =? y) in
      match v with true => idtac | false => idtac end; change (x =? y) with v; cbn [andb]
  end.

Lemma step_kill u h e b a :
  shown e -> hist_visible h -> gap_of e = mkGap b a (ed_mark e) -> ed_line e = b ++ a ->
  ed_col e = length b -> step_ok u h KILL e.
Proof.
  intros He Hh Hg Hl Hc. select_key. rewrite Hg.
  rewrite Hc. destruct (Z.eqb_spec (Z.of_nat (length b)) (ed_mark e)) as [E|E].
    { split; [done|]. split; [|done]. rewrite <- E, Z.ltb_irrefl. f_equal. by rewrite Hg, E. }
    destruct (Z.ltb_spec (ed_mark e) (Z.of_nat (length b))).
    - destruct (key_kill_back e b a (ed_mark e) He Hl Hc eq_refl) as (F & G & H1); [lia|].
      rewrite (proj2 (Z.ltb_ge _ _)) by lia. split; [done|]. split; [|done]. f_equal.
      apply gap_of_cursor; [done|done|]. cbn [set_mark ed_mark]. rewrite H1, length_take. lia.
    - rewrite (proj2 (Z.ltb_lt _ _)) by lia.
      destruct (key_delete e b a He Hl Hc (Z.to_nat (ed_mark e - Z.of_nat (length b)))) as (F & G & H1 & I); [lia|].
      rewrite Z2Nat.id, Hc in F, G, H1, I by lia.
      change (ed_col (delete_here ?k e)) with (ed_col e). rewrite Hc.
      split; [exact F|]. split; [|done]. f_equal.
      apply gap_of_cursor; [done|done|]. cbn [set_mark ed_mark]. by rewrite G.
Qed.

Lemma step_bs u h e b a :
  shown e -> hist_visible h -> gap_of e = mkGap b a (ed_mark e) -> ed_line e = b ++ a ->
  ed_col e = length b -> step_ok u h bs e.
Proof.
  intros He Hh Hg Hl Hc. select_key. rewrite Hg.
  destruct (key_left e b a He Hl Hc 1) as [A B].
    apply gap_inv in B as (B1 & B2 & B3); [|by destruct A as (? & _ & _ & ? & _)].
    destruct (key_delete (left 1 e) _ _ A B1 B2 1) as (F & G & H & I); [lia|]. cbn zeta.
    change (putstr [32] ?z) with (put_blanks 1 z). change (ed_col (delete_here 1 ?z)) with (ed_col z).
    change (Z.of_nat 1) with 1 in *. change (Z.to_nat 1) with 1%nat in *. rewrite H, B2, B3.
    rewrite B2 in F, G, I. rewrite B2, B3 in H. rewrite length_take in *.
    replace (Z.of_nat (Nat.min (length b - 1) (length b))) with (Z.max 0 (Z.of_nat (length b) - 1)) by lia.
    split; [by case_match|]. split; [|done]. f_equal. rewrite removelast_take.
    assert (drop 1 (drop (length b - 1) b ++ a) = if Nat.eqb (length b) 0 then drop 1 a else a) as E.
    { destruct (Nat.eqb_spec (length b) 0) as [E|E].
      - apply nil_length_inv in E as ->. done.
      - rewrite drop_app_ge, length_drop by (rewrite length_drop; lia).
        by replace (1 - (length b - (length b - 1)))%nat with 0%nat by lia. }
    rewrite E in I. destruct (_ <=? ed_mark e);
      (apply gap_of_cursor; cbn [set_mark ed_line ed_col ed_mark]; rewrite ?G, ?length_take; done).
Qed.

Lemma edit_key_step u h c e :
  shown e -> hist_visible h ->
  step_ok u h c e.
Proof.
  intros He Hh. destruct (gap_cases e) as (b & a & Hg & Hl & Hc); [by destruct He as (? & _ & _ & ? & _)|].
  destruct (Z.eq_dec c KILL) as [->|Hk]; [by apply (step_kill u h e b a)|].
  destruct (Z.eq_dec c bs) as [->|Hb]; [by apply (step_bs u h e b a)|].
  unfold step_ok, edit_key, gap_key. rewrite Hg.
  destruct ((c =? PREV) && u).
  { destruct (shown_recall h (histr (hist_prev h)) e) as (A & B & C & D); [done|by apply hist_visible_at|].
    split; [exact A|]. split; [|done]. f_equal.
    apply gap_of_cursor; [by rewrite app_nil_r|done|done]. }
  destruct ((c =? NEXT) && u).
  { destruct (shown_recall h (histr (hist_next h)) e) as (A & B & C & D); [done|by apply hist_visible_at|].
    split; [exact A|]. split; [|done]. f_equal.
    apply gap_of_cursor; [by rewrite app_nil_r|done|done]. }
  destruct (c =? FORW).
  { destruct (key_right e b a He Hl Hc 1) as [A B]. by rewrite B. }
  destruct (c =? BACK).
  { destruct (key_left e b a He Hl Hc 1) as [A B]. by rewrite B, removelast_take. }
  destruct (c =? BEGIN).
  { destruct (key_left e b a He Hl Hc (Z.of_nat (ed_col e))) as [A B].
    rewrite B, Nat2Z.id, Hc, Nat.sub_diag. by rewrite Hc in A. }
  destruct (c =? END).
  { unfold tail_len. rewrite strlen_spec, Hl, Hc, drop_app_length.
    destruct (key_right e b a He Hl Hc (Z.of_nat (length a))) as [A B].
    by rewrite B, Nat2Z.id, firstn_all, drop_ge by done. }
  destruct (c =? MARK).
  { split; [done|]. split; [|done]. f_equal. apply gap_of_cursor; [done|done|]. cbn. by rewrite Hc. }
  destruct (c =? DELETE).
  { destruct (key_delete e b a He Hl Hc 1) as (F & G & H & I); [lia|]. cbn zeta.
    change (putstr [32] ?z) with (put_blanks 1 z). change (Z.of_nat 1) with 1 in *.
    rewrite H, Hc. case_match; (split; [by rewrite ?Hc in F|]); (split; [|done]); f_equal;
      apply gap_of_cursor; rewrite ?Hc in *; cbn; try done. }
  destruct (c =? DELLINE).
  { destruct (key_dellline e b a He Hl Hc) as (F & G & H & I). cbn zeta in *.
    change (ed_col (set_line ?z e)) with (ed_col e).
    rewrite H, Hc. rewrite Hc in F, G, H, I. destruct (Z.ltb_spec (Z.of_nat (length b)) (ed_mark e));
      (split; [done|]); (split; [|done]); f_equal; apply gap_of_cursor;
      cbn [set_mark ed_line ed_col ed_mark]; rewrite ?app_nil_r, ?H; try done; lia. }
  rewrite (proj2 (Z.eqb_neq c KILL)), (proj2 (Z.eqb_neq c bs)) by done.
  destruct (isprint c) eqn:Hp.
  { destruct (shown_addchar c e He Hp) as (A & B & C). split; [done|]. split; [|done].
    rewrite <- Hl. case_match; apply pair_equal_spec in C as [C D]; f_equal.
    - rewrite <- Hg. unfold gap_of. by rewrite B, C, D.
    - apply gap_of_cursor; [|rewrite D, length_app; cbn; lia|done].
      by rewrite C, Hl, Hc, take_app_length, drop_app_length, <- app_assoc. }
  destruct He as (x & (A & A') & B & C & D). split; [|by rewrite <- Hg]. exists x.
  split; [|split; [done|split; done]].
  split; [|done]. cbn [ed_out ed_col]. by rewrite term_run_app, A.
Qed.

Definition ends_line (c : Z) : bool := (c =? nl) || (c =? cr).

Lemma edit_keys_run u keys rest e h :
  Forall (fun c => ends_line c = false) keys ->
  edit_keys u (keys ++ nl :: rest) e h =
  Some (putstr [nl] (run_keys u keys (e, h)).1, (run_keys u keys (e, h)).2, rest).
Proof.
  intros Hk. revert e h. induction Hk as [|c keys Hc Hk IH]; intros e h; [done|].
  cbn [app edit_keys]. unfold ends_line in Hc. rewrite Hc.
  change (run_keys u (c :: keys) (e, h)) with (run_keys u keys (edit_key u h c e)).
  destruct (edit_key u h c e) as [e1 h1]. apply IH.
Qed.

Lemma run_keys_shown u keys s :
  shown s.1 -> hist_visible s.2 ->
  let s' := run_keys u keys s in
  shown s'.1 /\ hist_visible s'.2 /\ (gap_of s'.1, s'.2) = gap_keys u keys (gap_of s.1, s.2).
Proof.
  revert s. induction keys as [|c keys IH]; intros [e h] He Hh; [done|]. cbn [fst snd] in *.
  pose proof (edit_key_step u h c e He Hh) as H. unfold step_ok in H.
  change (run_keys u (c :: keys) (e, h)) with (run_keys u keys (edit_key u h c e)).
  change (gap_keys u (c :: keys) (gap_of e, h)) with (gap_keys u keys (gap_key u c (gap_of e) h)).
  destruct (edit_key u h c e) as [e1 h1]. destruct H as (A & <- & B). by apply (IH (e1, h1)).
Qed.

(** The screen when the editor starts with the text [p]. *)
Lemma start_shown p :
  Forall visible p ->
  let e := mkEd p 0 0 [] in
  let e0 := match p with [] => e | _ => let e := putstr p e in left (Z.of_nat (ed_col e)) e end in
  shown e0 /\ gap_of e0 = mkGap [] p 0.
Proof.
  intros Hp e. assert (on_screen e []) as H0 by done. destruct p as [|c p]; cbn zeta.
  { split; [|done]. exists []. split_and!; [done|by exists 0%nat|cbn; lia|constructor]. }
  destruct (on_screen_putstr (c :: p) e [] Hp H0) as (A & B & C & D).
  rewrite take_nil, drop_nil, app_nil_r in A. cbn [app] in A.
  set (e1 := putstr (c :: p) e) in *.
  assert (shown e1) as Hs.
  { exists (c :: p). rewrite C, B. cbn [ed_line ed_col e]. split_and!; [done| |lia|done].
    exists 0%nat. by rewrite app_nil_r. }
  split; [by apply shown_left|]. apply gap_of_cursor; [done|cbn; lia|done].
Qed.

(** C21. Whatever keys the user types before the end of the line, and whatever
    text the editor starts with, [get_line] returns; the text is the one the
    meaning of the keys gives, and at the moment the line is finished the
    terminal shows exactly that text, with its cursor in the column where the
    editor has it. *)
Theorem editor_screen (p : cstr) (u : bool) (keys rest : list Z) (h : history) :
  Forall visible p -> hist_visible h -> Forall (fun c => ends_line c = false) keys ->
  exists e h',
    get_line p u (keys ++ nl :: rest) h = Some (putstr [nl] e, h', rest) /\
    (gap_of e, h') = gap_keys u keys (mkGap [] p 0, mkHist (hist h) (r_ip (hist h)) (histno h)) /\
    (exists x, term_run (ed_out e) (mkTerm [] 0) = mkTerm x (ed_col e) /\ reads x (ed_line e)).
Proof.
  intros Hp Hh Hk. unfold get_line. rewrite edit_keys_run by done.
  destruct (start_shown p Hp) as [A B]. cbn zeta in A, B. set (e0 := match p with [] => _ | _ => _ end) in *.
  destruct (run_keys_shown u keys (e0, mkHist (hist h) (r_ip (hist h)) (histno h)) A Hh) as (C & D & E).
  eexists _, _. split; [done|]. split; [rewrite E; cbn [fst snd]; by rewrite B|].
  destruct C as (x & [F _] & G & _). by exists x.
Qed.

Lemma editor_screen_witness :
  exists e h', get_line [] true (str "lod" ++ [BACK; ch "a"; END; bs] ++ nl :: []) hist0 = Some (putstr [nl] e, h', []) /\
    ed_line e = str "loa".
Proof.
  destruct (editor_screen [] true (str "lod" ++ [BACK; ch "a"; END; bs]) [] hist0) as (e & h' & A & B & _).
  - constructor.
  - unfold hist_visible, hist0. cbn [histinit hist r_data].
    apply List.Forall_forall. intros x Hx. apply list_elem_of_In in Hx.
    apply elem_of_replicate in Hx as [-> _]. constructor.
  - repeat constructor.
  - exists e, h'. split; [exact A|].
    apply pair_equal_spec in B as [B _].
    assert (gap_of e = mkGap (str "loa") [] 0) as Hg by (rewrite B; by vm_compute).
    apply (f_equal (fun g => before g ++ after g)) in Hg. cbn in Hg. by rewrite take_drop in Hg.
Defined.

(** With the cursor in the first column, the erase key deletes the character
    under the cursor, and moves the mark before the line. *)
Lemma erase_at_start (u : bool) (h : history) (c : Z) (a : cstr) (out : list Z) :
  Forall visible (c :: a) -> hist_visible h -> on_screen (mkEd (c :: a) 0 0 out) (c :: a) ->
  gap_of (edit_key u h bs (mkEd (c :: a) 0 0 out)).1 = mkGap [] a (-1).
Proof.
  intros Hv Hh Hs.
  assert (shown (mkEd (c :: a) 0 0 out)) as Hsh.
  { exists (c :: a). split_and!; [done| |cbn; lia|done]. exists 0%nat. by rewrite app_nil_r. }
  pose proof (edit_key_step u h bs _ Hsh Hh) as H. unfold step_ok in H.
  destruct (edit_key u h bs _) as [e' h']. destruct H as (_ & E & _).
  apply pair_equal_spec in E as [E _]. cbn [fst]. rewrite E. by destruct u.
Qed.

(** A quote that is not closed takes the search for a history mark past the
    end of the line. *)
Lemma findbang_unclosed (p q : cstr) (c : Z) :
  c = squote \/ c = dquote -> Forall (fun x => x <> squote /\ x <> dquote /\ x <> ch "!") p ->
  Forall (fun x => x <> c) q -> findbang (p ++ c :: q) = None.
Proof.
  intros Hc Hp Hq. unfold findbang.
  assert (skip_quote q c = None) as Hskip.
  { induction Hq as [|x q Hx Hq IH]; [done|]. cbn. rewrite (proj2 (Z.eqb_neq x c)) by done. exact IH. }
  generalize 0%nat. assert (length p < S (length (p ++ c :: q)))%nat as Hf by (rewrite length_app; cbn; lia).
  revert Hf. generalize (S (length (p ++ c :: q))) as f.
  induction Hp as [|x p (H1 & H2 & H3) Hp IH]; intros f Hf i; (destruct f as [|f]; [done|]);
    cbn [app findbang_loop length] in *.
  - replace ((c =? squote) || (c =? dquote)) with true
      by (symmetry; rewrite orb_true_iff, !Z.eqb_eq; naive_solver). by rewrite Hskip.
  - rewrite (proj2 (Z.eqb_neq x squote)), (proj2 (Z.eqb_neq x dquote)), (proj2 (Z.eqb_neq x (ch "!"))) by done.
    apply IH. lia.
Qed.
