(* ===== verification/Watch.v ===== *)
(** * Watch: hardware watchpoints

    [src/pmon/watch.c] keeps a table of watchpoint resources and drives the
    processor through a table of functions, [struct mips_watchpoint_funcs]. The
    table of functions is the class [WatchFuncs] and what the generic layer
    relies on is the class [WatchDriver]; the driver of the R4000,
    [src/pmon/r4kwatch.c], is its instance. The check of the watched range
    against the monitor's own memory is in [src/pmon/go.c].

    The theorems: the don't-care mask is the smallest aligned block around the
    range; a watchpoint that is accepted is armed over its whole range, and lies
    outside the monitor; and one that is refused because it overlaps the monitor
    is armed all the same. *)

From S2P Require Import Prelude Memory.

(** ** Constants *)

Definition WP_INEXACT : Z := 0x8000.
Definition WP_VADDR : Z := 0x100.
Definition WP_DWORD : Z := 0x20.
Definition WP_X : Z := 4.
Definition WP_R : Z := 2.
Definition WP_W : Z := 1.

(** The results of setting and clearing.
    [src/pmon/watchpoint.h:83-89] *)
Inductive wp_result : Type :=
  | WP_OK | WP_NONE | WP_NOTSUP | WP_INUSE | WP_NOMATCH | WP_OVERLAP | WP_BADADDR.

#[export] Instance wp_result_eq_dec : EqDecision wp_result.
Proof. solve_decision. Defined.

Definition K0BASE : Z := 0x80000000.
Definition K2BASE : Z := 0xc0000000.
(** [src/include/mips.h:198] *)
Definition K0_TO_PHYS (va : Z) : Z := Z.land (u32 va) 0x1fffffff.
(** [src/include/mips.h:212] *)
Definition KVA_TO_PA (va : Z) : Z := Z.land (u32 va) 0x1fffffff.
(** [src/include/mips.h:218] *)
Definition IS_KVA01 (v : Z) : bool := Z.shiftr (u32 v) 30 =? 2.

(** One watchpoint resource. [src/pmon/watchpoint.h:25-35] *)
Record mips_watchpoint : Type := mkWp {
  num : Z; capabilities : Z; type : Z; asid : Z; va : Z; pa : Z; len : Z; mask : Z }.

Definition set_len (l : Z) (w : mips_watchpoint) : mips_watchpoint :=
  mkWp (num w) (capabilities w) (type w) (asid w) (va w) (pa w) l (mask w).
Definition set_mask (m : Z) (w : mips_watchpoint) : mips_watchpoint :=
  mkWp (num w) (capabilities w) (type w) (asid w) (va w) (pa w) (len w) m.

(** What the exception handler saved of the client. *)
Record regs : Type := mkRegs { r_epc : Z; r_cause : Z; r_gpr : Z -> Z }.

(** The functions of one processor. [src/pmon/watchpoint.h:38-47] *)
Class WatchFuncs (D : Type) : Type := {
  wp_init : Z -> Z;
  wp_setup : mips_watchpoint -> mips_watchpoint;
  wp_hit : bool -> D -> regs -> mem -> Z * Z * Z;
  wp_set : mips_watchpoint -> D -> bool * mips_watchpoint * D;
  wp_clear : mips_watchpoint -> D -> D;
  wp_remove : D -> D;
  wp_insert : D -> D;
  wp_reset : D -> D
}.

(** ** Address arithmetic *)

Fixpoint mask_loop (fuel : nat) (mask i : Z) : Z :=
  match fuel with
  | O => i
  | S f => if mask =? 0 then i else mask_loop f (Z.shiftr mask 1) (i - 1)
  end.

(** The shift instruction takes its amount modulo 32.
    [src/pmon/watch.c:304-323] *)
Definition calc_mask (addr len : Z) : Z :=
  let mask := Z.lxor addr (u32 (addr + len - 1)) in
  Z.shiftr 0xffffffff (mask_loop 33 mask 32 mod 32).

(** [src/pmon/watch.c:326-344] *)
Definition datalen : list Z :=
  [0; 0; 0; 0;  0; 0; 0; 0;  0; 0; 0; 0;  0; 0; 0; 0;
   0; 0; 0; 0;  0; 0; 0; 0;  0; 0; 7; 7;  0; 0; 0; 0;
   1; 2; 3; 4;  1; 2; 3; 4;  1; 2; 3; 4;  7; 7; 3; 4;
   4; 4; 4; 4;  8; 8; 8; 8;  4; 4; 4; 4;  8; 8; 8; 8].

(** The flags, the address and the length of the access that trapped.
    [src/pmon/watch.c:351-423] *)
Definition watchpoint_address (big : bool) (ty : Z) (r : regs) (m : mem) : Z * Z * Z :=
  let pc := u32 (r_epc r) in
  if negb (Z.land pc 3 =? 0) then (ty, 0, 0)
  else
    let pc := if Z.land (u32 (r_cause r)) 0x80000000 =? 0 then pc else u32 (pc + 4) in
    let '(ty, va, len) :=
      if Z.land ty (Z.lor WP_R WP_W) =? 0 then (ty, 0, 0)
      else
        let ty := Z.ldiff ty (Z.lor WP_R WP_W) in
        let i := u32 (load_word big m pc) in
        let op := getfield i 6 26 in
        let len := default 0 (datalen !! Z.to_nat op) in
        if len =? 0 then (ty, 0, 0)
        else
          let va := u32 (u32 (r_gpr r (getfield i 5 21)) + wraps 16 (Z.land i 0xffff)) in
          let '(va, len') :=
            if (len =? 3) || (len =? 7) then
              let left := (op =? 34) || (op =? 42) || (op =? 26) || (op =? 44) in
              if Bool.eqb left big then (va, len + 1 - Z.land va len)
              else let va := Z.ldiff va len in (va, Z.land va len + 1)
            else (va, len) in
          let ty :=
            if (op =? 26) || (op =? 27) then Z.lor ty WP_R
            else Z.lor ty (if Z.land op 8 =? 0 then WP_R else WP_W) in
          (ty, va, len') in
    if ty =? WP_X then (ty, pc, 4) else (ty, va, len).

(** ** The check against the monitor's memory *)

(** The monitor's code and data, and the size of memory. *)
Record layout : Type := mkLayout { ftext : Z; etext : Z; fdata : Z; heaptop : Z; memorysize : Z }.

(** [src/pmon/go.c:372] *)
Definition overlap (as_ ae bs be : Z) : bool := (bs <? ae) && (as_ <? be).

(** [src/pmon/go.c:374-402] *)
Definition set_callback (l : layout) (asid va len : Z) : wp_result :=
  if (va <? K0BASE) || (K2BASE <? u32 (va + len)) then WP_BADADDR
  else
    let start := K0_TO_PHYS va in
    let finish := u32 (start + len) in
    if overlap start finish (K0_TO_PHYS (ftext l)) (K0_TO_PHYS (etext l)) then WP_OVERLAP
    else if overlap start finish (K0_TO_PHYS (fdata l)) (K0_TO_PHYS (heaptop l)) then WP_OVERLAP
    else if overlap start finish (memorysize l) (u32 (memorysize l + 512 * 1024)) then WP_OVERLAP
    else WP_OK.

(** ** The generic layer *)

Section Watch.
Context {D : Type} `{WatchFuncs D} (l : layout).

(** [watchpoints] and [nwatchpoints]: the resources found, none before
    [watchpoint_init]. [src/pmon/watch.c:65-70] *)
Record watch : Type := mkWatch { found : bool; watchpoints : list mips_watchpoint; driver : D }.

(** For the one driver of the class, tried on the processor number [prid].
    [src/pmon/watch.c:75-109] *)
Definition watchpoint_init (prid : Z) (w : watch) : watch :=
  if found w then w
  else
    let n := wp_init prid in
    if 0 <? n then
      mkWatch true
        ((fun i => wp_setup (mkWp (Z.of_nat i) 0 0 0 0 0 0 0)) <$> seq 0 (Z.to_nat n))
        (wp_reset (driver w))
    else w.

Fixpoint hit_loop (wps : list mips_watchpoint) (hit hva hlen : Z) : Z :=
  match wps with
  | [] => Z.lor hit WP_INEXACT
  | wp :: wps' =>
      if negb (Z.land (type wp) hit =? 0) && negb (len wp =? 0) then
        let phys := Z.land (capabilities wp) WP_VADDR =? 0 in
        let wpa := if phys then KVA_TO_PA (va wp) else va wp in
        let hita := if phys then KVA_TO_PA hva else hva in
        if (wpa <? u32 (hita + hlen)) && (hita <? u32 (wpa + len wp))
        then Z.lor hit (Z.land (type wp) WP_VADDR)
        else hit_loop wps' hit hva hlen
      else hit_loop wps' hit hva hlen
  end.

(** [src/pmon/watch.c:140-180] *)
Definition watchpoint_hit (big : bool) (w : watch) (r : regs) (m : mem) : Z * Z * Z :=
  if found w then
    let '(hit, hva, hlen) := wp_hit big (driver w) r m in
    if hit =? 0 then (0, hva, hlen) else (hit_loop (watchpoints w) hit hva hlen, hva, hlen)
  else (0, 0, 0).

(** [src/pmon/watch.c:186-191] *)
Definition watchpoint_remove (w : watch) : watch :=
  if found w then mkWatch true (watchpoints w) (wp_remove (driver w)) else w.

(** [src/pmon/watch.c:197-202] *)
Definition watchpoint_insert (w : watch) : watch :=
  if found w then mkWatch true (watchpoints w) (wp_insert (driver w)) else w.

(** A free resource takes the request. *)
Definition claim (wp : mips_watchpoint) (ty as_ va_ pa_ len_ : Z) (d : D)
  : wp_result * mips_watchpoint * D :=
  let wp := mkWp (num wp) (capabilities wp) ty as_ va_ (pa wp) (len wp) (mask wp) in
  let arm pa_ :=
    let wp := mkWp (num wp) (capabilities wp) ty as_ va_ pa_ len_ (calc_mask va_ len_) in
    let '(ok, wp, d) := wp_set wp d in
    let res :=
      if ok then set_callback l (asid wp) (Z.ldiff (va wp) (mask wp)) (u32 (mask wp + 1))
      else WP_NOTSUP in
    (res, if bool_decide (res = WP_OK) then wp else set_len 0 wp, d) in
  if negb (Z.land (capabilities wp) WP_VADDR =? 0) || negb (pa_ =? 0) then arm pa_
  else if IS_KVA01 va_ then arm (KVA_TO_PA va_)
  else (WP_BADADDR, wp, d).

Fixpoint set_loop (wps : list mips_watchpoint) (res : wp_result) (ty as_ va_ pa_ len_ : Z) (d : D)
  : wp_result * list mips_watchpoint * D :=
  match wps with
  | [] => (res, [], d)
  | wp :: wps' =>
      if Z.land (capabilities wp) ty =? ty then
        if negb (len wp =? 0) then
          let '(res, wps', d) := set_loop wps' WP_INUSE ty as_ va_ pa_ len_ d in (res, wp :: wps', d)
        else
          let '(res, wp, d) := claim wp ty as_ va_ pa_ len_ d in (res, wp :: wps', d)
      else let '(res, wps', d) := set_loop wps' res ty as_ va_ pa_ len_ d in (res, wp :: wps', d)
  end.

(** [src/pmon/watch.c:220-259] *)
Definition watchpoint_set (ty as_ va_ pa_ len_ : Z) (w : watch) : wp_result * watch :=
  if negb (found w) || Nat.eqb (length (watchpoints w)) 0 then (WP_NONE, w)
  else
    let '(res, wps, d) := set_loop (watchpoints w) WP_NOTSUP ty as_ va_ pa_ len_ (driver w) in
    (res, mkWatch true wps d).

Fixpoint clear_loop (wps : list mips_watchpoint) (ty as_ va_ len_ : Z) (d : D)
  : wp_result * list mips_watchpoint * D :=
  match wps with
  | [] => (WP_NOMATCH, [], d)
  | wp :: wps' =>
      if (type wp =? ty) && (asid wp =? as_) && (va wp =? va_) && (len wp =? len_)
      then (WP_OK, set_len 0 wp :: wps', wp_clear (set_len 0 wp) d)
      else let '(res, wps', d) := clear_loop wps' ty as_ va_ len_ d in (res, wp :: wps', d)
  end.

(** [src/pmon/watch.c:265-280] *)
Definition watchpoint_clear (ty as_ va_ len_ : Z) (w : watch) : wp_result * watch :=
  let '(res, wps, d) := clear_loop (watchpoints w) ty as_ va_ len_ (driver w) in
  (res, mkWatch (found w) wps d).

(** [src/pmon/watch.c:286-295] *)
Definition watchpoint_reset (w : watch) : watch :=
  if found w then mkWatch true (set_len 0 <$> watchpoints w) (wp_reset (driver w)) else w.
End Watch.
Arguments watch : clear implicits.

(** ** The R4000 driver *)

Definition WATCHLO_PA : Z := 0xfffffff8.
Definition WATCHLO_R : Z := 2.
Definition WATCHLO_W : Z := 1.

(** [watchlo] is the copy the exception handler loads into the processor when
    the client resumes. [src/pmon/r4kwatch.c:46-47] *)
Record r4k : Type := mkR4k { r4kwp_reg : Z; r4kwp_type : Z; watchlo : Z }.

(** [src/pmon/r4kwatch.c:49-68] *)
Definition r4kwp_init (prid : Z) : Z :=
  let p := Z.land (Z.shiftr prid 8) 0xff in
  if bool_decide (p ∈ [0x04; 0x0c; 0x0a; 0x0b; 0x54]) then 1
  else if bool_decide (p ∈ [0x20; 0x21; 0x30]) then 0
  else -1.

(** [src/pmon/r4kwatch.c:71-76] *)
Definition r4kwp_setup (wp : mips_watchpoint) : mips_watchpoint :=
  mkWp (num wp) (Z.lor (Z.lor WP_DWORD WP_R) WP_W) (type wp) (asid wp) (va wp) (pa wp) (len wp) (mask wp).

(** [src/pmon/r4kwatch.c:79-89] *)
Definition r4kwp_hit (big : bool) (d : r4k) (r : regs) (m : mem) : Z * Z * Z :=
  if Z.land (u32 (r_cause r)) 0x7c =? 23 * 4 then watchpoint_address big (r4kwp_type d) r m
  else (0, 0, 0).

(** [src/pmon/r4kwatch.c:92-106] *)
Definition r4kwp_set (wp : mips_watchpoint) (d : r4k) : bool * mips_watchpoint * r4k :=
  if 7 <? u32 (Z.land (va wp) 7 + len wp - 1) then (false, wp, d)
  else
    let wp := set_mask 7 wp in
    let reg := Z.land (pa wp) WATCHLO_PA in
    let reg := if Z.land (type wp) WP_R =? 0 then reg else Z.lor reg WATCHLO_R in
    let reg := if Z.land (type wp) WP_W =? 0 then reg else Z.lor reg WATCHLO_W in
    (true, wp, mkR4k reg (type wp) (watchlo d)).

(** [src/pmon/r4kwatch.c:109-114] *)
Definition r4kwp_clear (wp : mips_watchpoint) (d : r4k) : r4k := mkR4k 0 (r4kwp_type d) (watchlo d).

(** [src/pmon/r4kwatch.c:117-124] *)
Definition r4kwp_remove (d : r4k) : r4k :=
  if r4kwp_reg d =? 0 then d else mkR4k (r4kwp_reg d) (r4kwp_type d) 0.

(** [src/pmon/r4kwatch.c:127-133] *)
Definition r4kwp_insert (d : r4k) : r4k :=
  if r4kwp_reg d =? 0 then d else mkR4k (r4kwp_reg d) (r4kwp_type d) (r4kwp_reg d).

(** [src/pmon/r4kwatch.c:136-143] *)
Definition r4kwp_reset (d : r4k) : r4k := mkR4k 0 (r4kwp_type d) 0.

#[export] Instance r4k_watchpoint_funcs : WatchFuncs r4k := {|
  wp_init := r4kwp_init; wp_setup := r4kwp_setup; wp_hit := r4kwp_hit; wp_set := r4kwp_set;
  wp_clear := r4kwp_clear; wp_remove := r4kwp_remove; wp_insert := r4kwp_insert;
  wp_reset := r4kwp_reset |}.

(** ** The mask *)

Lemma mask_loop_spec fuel m i :
  0 <= m -> m < 2 ^ Z.of_nat fuel -> mask_loop fuel m i = i - (if m =? 0 then 0 else Z.log2 m + 1).
Proof.
  revert m i. induction fuel as [|f IH]; intros m i Hm Hlt.
  - cbn in Hlt. replace m with 0 by lia. cbn. lia.
  - cbn [mask_loop]. destruct (Z.eqb_spec m 0) as [->|Hn]; [lia|].
    rewrite Nat2Z.inj_succ, Z.pow_succ_r in Hlt by lia.
    rewrite Z.shiftr_div_pow2 by lia. change (2 ^ 1) with 2.
    rewrite IH by (try apply Z.div_pos; try apply Z.div_lt_upper_bound; lia).
    destruct (Z.eqb_spec (m / 2) 0) as [E|E].
    + assert (m = 1) as -> by (pose proof (Z.div_mod m 2); pose proof (Z.mod_pos_bound m 2); lia). cbn. lia.
    + pose proof (Z.log2_shiftr m 1) as Hl. rewrite Z.shiftr_div_pow2 in Hl by lia.
      change (2 ^ 1) with 2 in Hl. rewrite Hl by lia.
      assert (2 <= m) by (destruct (Z.eq_dec m 1) as [->|]; [done|lia]).
      assert (1 <= Z.log2 m) by (apply (Z.log2_le_pow2 m 1); lia). lia.
Qed.

(** The highest bit in which the two ends of the range differ. *)
Definition top_diff (addr len : Z) : Z := Z.log2 (Z.lxor addr (addr + len - 1)) + 1.

Lemma lxor_below a b n : 0 <= a < 2 ^ n -> 0 <= b < 2 ^ n -> 0 <= n -> 0 <= Z.lxor a b < 2 ^ n.
Proof.
  intros Ha Hb Hn. assert (0 <= Z.lxor a b) as H0 by (apply Z.lxor_nonneg; lia).
  split; [done|]. destruct (Z.eq_dec (Z.lxor a b) 0) as [->|Hz]; [apply Z.pow_pos_nonneg; lia|].
  destruct (Z.lt_ge_cases (Z.lxor a b) (2 ^ n)) as [|Hge]; [done|].
  apply Z.log2_le_pow2 in Hge; [|lia].
  pose proof (Z.log2_lxor a b) as Hl. assert (0 < n) as Hp.
  { destruct (Z.eq_dec n 0) as [->|]; [|lia]. cbn in Ha, Hb. replace a with 0 in Hz by lia.
    replace b with 0 in Hz by lia. done. }
  pose proof (Z.log2_lt_pow2 a n). pose proof (Z.log2_lt_pow2 b n).
  destruct (Z.eq_dec a 0), (Z.eq_dec b 0); subst; cbn in *; lia.
Qed.

Lemma calc_mask_spec addr len :
  0 <= addr -> 1 < len -> addr + len <= 2 ^ 32 ->
  1 <= top_diff addr len <= 32 /\ calc_mask addr len = Z.ones (top_diff addr len).
Proof.
  intros Ha Hl Hs. unfold calc_mask, top_diff. rewrite u32_small by lia.
  set (m := Z.lxor addr (addr + len - 1)).
  assert (0 <= m < 2 ^ 32) as Hm by (apply lxor_below; lia).
  assert (m <> 0) as Hn by (intros E%Z.lxor_eq; lia).
  assert (0 <= Z.log2 m < 32) as Hlog by (split; [apply Z.log2_nonneg|apply Z.log2_lt_pow2; lia]).
  split; [lia|]. rewrite mask_loop_spec by (change (2 ^ Z.of_nat 33) with (2 * 2 ^ 32); lia).
  rewrite (proj2 (Z.eqb_neq m 0)) by done. rewrite Z.mod_small by lia.
  change 0xffffffff with (Z.ones 32). rewrite Z.shiftr_div_pow2 by lia.
  rewrite Z.ones_div_pow2 by lia. f_equal. lia.
Qed.

Lemma same_block a b k : 0 <= k -> (Z.ldiff a (Z.ones k) = Z.ldiff b (Z.ones k) <-> a / 2 ^ k = b / 2 ^ k).
Proof.
  intros Hk. rewrite !Z.ldiff_ones_r, !Z.shiftr_div_pow2, !Z.shiftl_mul_pow2 by done.
  split; [|by intros ->]. intros E. apply Z.mul_cancel_r in E; [done|].
  pose proof (Z.pow_pos_nonneg 2 k). lia.
Qed.

(** The don't-care mask of a range is the smallest one: the mask is all
    ones up to some bit, every address of the range agrees with its first
    address outside the mask, and one bit less is not enough. *)
Theorem watch_mask (addr len : Z) :
  0 <= addr -> 1 < len -> addr + len <= 2 ^ 32 ->
  exists k, 1 <= k <= 32 /\ calc_mask addr len = Z.ones k /\
    (forall a, addr <= a < addr + len -> Z.ldiff a (Z.ones k) = Z.ldiff addr (Z.ones k)) /\
    Z.ldiff (addr + len - 1) (Z.ones (k - 1)) <> Z.ldiff addr (Z.ones (k - 1)).
Proof.
  intros Ha Hl Hs. destruct (calc_mask_spec addr len Ha Hl Hs) as [Hk E].
  exists (top_diff addr len). split; [done|]. split; [done|]. unfold top_diff in *.
  set (m := Z.lxor addr (addr + len - 1)) in *.
  assert (0 < m) as Hm.
  { assert (0 <= m) by (apply Z.lxor_nonneg; lia). assert (m <> 0) by (intros E'%Z.lxor_eq; lia). lia. }
  split.
  - intros a Hin. apply same_block; [lia|].
    assert (addr / 2 ^ (Z.log2 m + 1) = (addr + len - 1) / 2 ^ (Z.log2 m + 1)) as Ee.
    { rewrite <- !Z.shiftr_div_pow2 by lia. apply Z.lxor_eq. rewrite <- Z.shiftr_lxor.
      apply Z.shiftr_eq_0; [lia|]. fold m. lia. }
    pose proof (Z.div_le_mono addr a (2 ^ (Z.log2 m + 1)) (Z.pow_pos_nonneg 2 (Z.log2 m + 1) ltac:(lia) ltac:(lia))).
    pose proof (Z.div_le_mono a (addr + len - 1) (2 ^ (Z.log2 m + 1)) (Z.pow_pos_nonneg 2 (Z.log2 m + 1) ltac:(lia) ltac:(lia))).
    lia.
  - rewrite Z.add_simpl_r. intros Ee. apply same_block in Ee; [|lia].
    rewrite <- !Z.shiftr_div_pow2 in Ee by lia.
    assert (Z.shiftr m (Z.log2 m) = 0) as Hz.
    { unfold m at 1. rewrite Z.shiftr_lxor, Ee. apply Z.lxor_nilpotent. }
    apply (f_equal (fun z => Z.testbit z 0)) in Hz. rewrite Z.shiftr_spec, Z.add_0_l in Hz by lia.
    rewrite Z.bit_log2, Z.bits_0 in Hz by lia. done.
Qed.

Lemma watch_mask_witness :
  exists k, 1 <= k <= 32 /\ calc_mask 0x80020006 4 = Z.ones k /\
    (forall a, 0x80020006 <= a < 0x80020006 + 4 -> Z.ldiff a (Z.ones k) = Z.ldiff 0x80020006 (Z.ones k)) /\
    Z.ldiff (0x80020006 + 4 - 1) (Z.ones (k - 1)) <> Z.ldiff 0x80020006 (Z.ones (k - 1)).
Proof. apply (watch_mask 0x80020006 4); lia. Defined.

(** For a range of one byte the shift amount is 32, and the mask is not empty
    but covers the whole address space. *)
Lemma watch_mask_single (addr : Z) : 0 <= addr < 2 ^ 32 -> calc_mask addr 1 = 0xffffffff.
Proof.
  intros H. unfold calc_mask. replace (addr + 1 - 1) with addr by lia.
  rewrite u32_small, Z.lxor_nilpotent by lia. by vm_compute.
Qed.

(** ** What the drivers promise *)

(** [arms d n kind a]: with the state [d], once inserted, resource [n] traps a
    data access of the kind [WP_R] or [WP_W] to the physical address [a]. *)
Class WatchDriver (D : Type) `{WatchFuncs D} : Type := {
  arms : D -> Z -> Z -> Z -> Prop;
  set_fields wp d wp' d' : wp_set wp d = (true, wp', d') ->
    wp' = set_mask (mask wp') wp;
  set_block wp d wp' d' : wp_set wp d = (true, wp', d') -> 0 <= va wp < 2 ^ 32 -> 0 < len wp < 2 ^ 31 ->
    exists k, 0 <= k <= 29 /\ mask wp' = Z.ones k /\ va wp mod 2 ^ k + len wp <= 2 ^ k;
  set_arms wp d wp' d' kind a : wp_set wp d = (true, wp', d') ->
    0 <= va wp < 2 ^ 32 -> 0 <= pa wp -> pa wp + len wp <= 2 ^ 32 -> pa wp mod 2 ^ 29 = va wp mod 2 ^ 29 ->
    0 < len wp < 2 ^ 31 -> kind = WP_R \/ kind = WP_W -> Z.land (type wp) kind <> 0 ->
    pa wp <= a < pa wp + len wp -> arms d' (num wp) kind a;
  clear_disarms wp d kind a : ~ arms (wp_clear wp d) (num wp) kind a
}.

Lemma land_WATCHLO_PA x : 0 <= x < 2 ^ 32 -> Z.land x WATCHLO_PA = 8 * (x / 8).
Proof.
  intros Hx. change WATCHLO_PA with (Z.land (Z.ones 32) (Z.lnot (Z.ones 3))).
  rewrite Z.land_assoc, Z.land_ones, Z.mod_small by lia. rewrite <- Z.ldiff_land, Z.ldiff_ones_r by lia.
  rewrite Z.shiftr_div_pow2, Z.shiftl_mul_pow2 by lia. change (2 ^ 3) with 8. lia.
Qed.

(** The R4000 watch register. *)
Definition r4k_arms (d : r4k) (n kind a : Z) : Prop :=
  Z.land (r4kwp_reg d) kind <> 0 /\ Z.land (r4kwp_reg d) WATCHLO_PA = Z.land a WATCHLO_PA.

Lemma land_lor_nonzero x k : k <> 0 -> Z.land (Z.lor x k) k <> 0.
Proof. intros Hk. rewrite Z.land_lor_distr_l, Z.land_diag. by rewrite Z.lor_eq_0_iff; intros [_ ?]. Qed.

Lemma r4k_reg_kind reg ty kind :
  kind = WP_R \/ kind = WP_W -> Z.land ty kind <> 0 ->
  let reg := if Z.land ty WP_R =? 0 then reg else Z.lor reg WATCHLO_R in
  let reg := if Z.land ty WP_W =? 0 then reg else Z.lor reg WATCHLO_W in
  Z.land reg kind <> 0.
Proof.
  intros [-> | ->] Hk; cbn zeta.
  - rewrite (proj2 (Z.eqb_neq _ _) Hk). destruct (Z.land ty WP_W =? 0).
    + by apply land_lor_nonzero.
    + rewrite <- Z.lor_assoc, (Z.lor_comm WATCHLO_R), Z.lor_assoc. by apply land_lor_nonzero.
  - rewrite (proj2 (Z.eqb_neq _ _) Hk). by apply land_lor_nonzero.
Qed.

Lemma r4k_reg_address reg ty :
  let reg' := if Z.land ty WP_R =? 0 then reg else Z.lor reg WATCHLO_R in
  let reg' := if Z.land ty WP_W =? 0 then reg' else Z.lor reg' WATCHLO_W in
  Z.land reg' WATCHLO_PA = Z.land reg WATCHLO_PA.
Proof.
  cbn zeta. destruct (Z.land ty WP_R =? 0), (Z.land ty WP_W =? 0); rewrite ?Z.land_lor_distr_l; try done;
    change (Z.land WATCHLO_R WATCHLO_PA) with 0; change (Z.land WATCHLO_W WATCHLO_PA) with 0;
    by rewrite ?Z.lor_0_r.
Qed.

(** What [r4kwp_set] accepts. *)
Lemma r4k_set_inv wp d wp' d' :
  r4kwp_set wp d = (true, wp', d') ->
  u32 (va wp mod 8 + len wp - 1) <= 7 /\ wp' = set_mask 7 wp /\
  Z.land (r4kwp_reg d') WATCHLO_PA = Z.land (pa wp) WATCHLO_PA /\
  (forall kind, kind = WP_R \/ kind = WP_W -> Z.land (type wp) kind <> 0 -> Z.land (r4kwp_reg d') kind <> 0).
Proof.
  unfold r4kwp_set. change 7 with (Z.ones 3) at 2. rewrite Z.land_ones by lia. change (2 ^ 3) with 8.
  destruct (Z.ltb_spec 7 (u32 (va wp mod 8 + len wp - 1))) as [|Hle]; [done|].
  intros E. apply pair_equal_spec in E as [E Ed]. apply pair_equal_spec in E as [_ Ew]. subst wp' d'.
  split; [done|]. split; [done|]. split.
  - cbn [r4kwp_reg]. rewrite r4k_reg_address. cbn [set_mask pa]. by rewrite <- Z.land_assoc, Z.land_diag.
  - intros kind Hk Ht. cbn [r4kwp_reg]. by apply r4k_reg_kind.
Qed.

#[export] Instance r4k_driver : WatchDriver r4k.
Proof.
  refine {| arms := r4k_arms |}.
  - intros wp d wp' d' E. apply r4k_set_inv in E as (_ & -> & _). done.
  - intros wp d wp' d' E Hv Hl. apply r4k_set_inv in E as (Hle & -> & _). exists 3.
    split; [lia|]. split; [done|]. change (2 ^ 3) with 8.
    pose proof (Z.mod_pos_bound (va wp) 8). rewrite u32_small in Hle by lia. lia.
  - intros wp d wp' d' kind a E Hv Hp Hps Hpv Hl Hk Ht Ha.
    apply r4k_set_inv in E as (Hle & _ & Hadr & Hkind). split; [by apply Hkind|]. rewrite Hadr.
    rewrite !land_WATCHLO_PA by lia. f_equal.
    assert (pa wp mod 8 = va wp mod 8) as Em.
    { rewrite <- (Z.mod_mod_divide (pa wp) (2 ^ 29) 8), <- (Z.mod_mod_divide (va wp) (2 ^ 29) 8)
        by (by exists (2 ^ 26)). by rewrite Hpv. }
    pose proof (Z.mod_pos_bound (va wp) 8). rewrite u32_small in Hle by lia.
    pose proof (Z.div_mod (pa wp) 8). apply (Z.div_unique a 8 _ (a - 8 * (pa wp / 8))); lia.
  - intros wp d kind a [Hz _]. apply Hz. by cbn.
Defined.

(** ** Setting a watchpoint *)

(** The physical addresses that belong to the monitor. *)
Definition monitor_memory (l : layout) (x : Z) : Prop :=
  K0_TO_PHYS (ftext l) <= x < K0_TO_PHYS (etext l) \/
  K0_TO_PHYS (fdata l) <= x < K0_TO_PHYS (heaptop l) \/
  memorysize l <= x < u32 (memorysize l + 512 * 1024).

Lemma phys_mod v : 0 <= v < 2 ^ 32 -> K0_TO_PHYS v = v mod 2 ^ 29.
Proof.
  intros Hv. unfold K0_TO_PHYS. rewrite u32_small by lia. change 0x1fffffff with (Z.ones 29).
  by rewrite Z.land_ones.
Qed.

Lemma kva_phys v : KVA_TO_PA v = K0_TO_PHYS v.
Proof. done. Qed.

Lemma overlap_false as_ ae bs be x :
  overlap as_ ae bs be = false -> as_ <= x < ae -> ~ bs <= x < be.
Proof.
  unfold overlap. intros E Hx Hb. destruct (Z.ltb_spec bs ae), (Z.ltb_spec as_ be); cbn in E; try lia.
Qed.

Lemma set_callback_ok l as_ base size x :
  set_callback l as_ base size = WP_OK -> K0_TO_PHYS base <= x < u32 (K0_TO_PHYS base + size) ->
  ~ monitor_memory l x.
Proof.
  unfold set_callback. destruct (_ || _); [done|].
  destruct (overlap _ _ (K0_TO_PHYS (ftext l)) _) eqn:E1; [done|].
  destruct (overlap _ _ (K0_TO_PHYS (fdata l)) _) eqn:E2; [done|].
  destruct (overlap _ _ (memorysize l) _) eqn:E3; [done|]. intros _ Hx [Hm|[Hm|Hm]].
  - by apply (overlap_false _ _ _ _ x E1).
  - by apply (overlap_false _ _ _ _ x E2).
  - by apply (overlap_false _ _ _ _ x E3).
Qed.

(** A byte of the range lies, physically, in the block the mask describes. *)
Lemma block_phys v k i :
  0 <= v < 2 ^ 32 -> 0 <= k <= 29 -> 0 <= i -> v mod 2 ^ k + i < 2 ^ k -> v + i < 2 ^ 32 ->
  K0_TO_PHYS (Z.ldiff v (Z.ones k)) <= K0_TO_PHYS (v + i) <
    u32 (K0_TO_PHYS (Z.ldiff v (Z.ones k)) + u32 (Z.ones k + 1)).
Proof.
  intros Hv Hk Hi Hb Hs. set (p := 2 ^ k) in *. assert (0 < p) as Hp by (apply Z.pow_pos_nonneg; lia).
  assert (2 ^ 29 = p * 2 ^ (29 - k)) as Hsplit.
  { unfold p. rewrite <- Z.pow_add_r by lia. f_equal. lia. }
  assert (Z.ldiff v (Z.ones k) = v - v mod p) as ->.
  { rewrite Z.ldiff_ones_r, Z.shiftr_div_pow2, Z.shiftl_mul_pow2 by lia. fold p.
    pose proof (Z.div_mod v p). lia. }
  assert (Z.ones k + 1 = p) as -> by (rewrite Z.ones_equiv; unfold p; lia).
  pose proof (Z.mod_pos_bound v p Hp) as Hm. pose proof (Z.mod_le v p).
  assert (p <= 2 ^ 29) as Hp29 by (unfold p; apply Z.pow_le_mono_r; lia).
  rewrite !phys_mod, (u32_small p) by lia. change (2 ^ 29) with 536870912 in *.
  set (q := 2 ^ (29 - k)) in *. assert (0 < q) by (unfold q; apply Z.pow_pos_nonneg; lia).
  assert ((v - v mod p) mod 536870912 = p * ((v / p) mod q)) as Eb.
  { rewrite Hsplit. replace (v - v mod p) with (p * (v / p)) by (pose proof (Z.div_mod v p); lia).
    apply Z.mul_mod_distr_l; lia. }
  pose proof (Z.mod_pos_bound (v / p) q). rewrite Eb.
  assert (p * ((v / p) mod q) + p <= 536870912) as Hfit by nia.
  assert ((v + i) mod 536870912 = p * ((v / p) mod q) + (v mod p + i)) as Ei.
  { symmetry. apply (Z.mod_unique _ _ (v / p / q)); [left; lia|].
    pose proof (Z.div_mod v p). pose proof (Z.div_mod (v / p) q). rewrite Hsplit. nia. }
  rewrite Ei, u32_small by lia. lia.
Qed.

Section WatchLaws.
Context {D : Type} `{HF : WatchFuncs D} `{HD : !WatchDriver D} (l : layout).
#[local] Set Default Proof Using "Type".

(** The watchpoint is recorded, armed over its whole range for each of its
    kinds, and no byte of the range belongs to the monitor. *)
Definition armed_over (wp : mips_watchpoint) (d : D) (ty v n : Z) : Prop :=
  type wp = ty /\ va wp = v /\ len wp = n /\
  (forall kind a, kind = WP_R \/ kind = WP_W -> Z.land ty kind <> 0 ->
     KVA_TO_PA v <= a < KVA_TO_PA v + n -> arms d (num wp) kind a) /\
  (forall i, 0 <= i < n -> ~ monitor_memory l (K0_TO_PHYS (v + i))).

Lemma claim_ok wp ty as_ v n d wp' d' :
  Z.land (capabilities wp) WP_VADDR = 0 -> 0 <= v < 2 ^ 32 -> 0 < n < 2 ^ 31 ->
  claim l wp ty as_ v 0 n d = (WP_OK, wp', d') -> armed_over wp' d' ty v n.
Proof.
  intros Hcap Hv Hn. unfold claim. cbn [capabilities]. rewrite Hcap. cbn [Z.eqb negb orb].
  destruct (IS_KVA01 v) eqn:Hk; [|done].
  assert (2 ^ 31 <= v < 3 * 2 ^ 30) as Hv'.
  { unfold IS_KVA01 in Hk. rewrite u32_small in Hk by done. apply Z.eqb_eq in Hk.
    rewrite Z.shiftr_div_pow2 in Hk by lia. pose proof (Z.div_mod v (2 ^ 30)).
    pose proof (Z.mod_pos_bound v (2 ^ 30)). lia. }
  set (wp0 := mkWp _ _ _ _ _ _ _ _). destruct (wp_set wp0 d) as [[ok wp1] d1] eqn:Hset.
  intros E. apply pair_equal_spec in E as [E ->]. apply pair_equal_spec in E as [Er Ew].
  destruct ok; [|done]. rewrite Er, bool_decide_true in Ew by done. subst wp'.
  pose proof (set_fields _ _ _ _ Hset) as Hf. rewrite Hf. cbn.
  destruct (set_block _ _ _ _ Hset) as (k & Hk29 & Hmask & Hfit); [done|done|]. cbn in Hfit.
  split; [done|]. split; [done|]. split; [done|]. split.
  - intros kind a Hkind Hty Ha. apply (set_arms wp0 d wp1 d'); try done; cbn;
      rewrite ?kva_phys, ?phys_mod in * by done; pose proof (Z.mod_pos_bound v (2 ^ 29)); try lia.
    by rewrite Z.mod_mod.
  - intros i Hi. rewrite Hf in Er. cbn in Er. rewrite Hmask in Er.
    apply (set_callback_ok l _ _ _ _ Er). apply block_phys; try lia.
    pose proof (Z.pow_le_mono_r 2 k 29). pose proof (Z.mod_pos_bound v (2 ^ k)).
    pose proof (Z.pow_pos_nonneg 2 k). lia.
Qed.

Lemma set_loop_ok wps res ty as_ v n d wps' d' :
  Forall (fun wp => Z.land (capabilities wp) WP_VADDR = 0) wps -> res <> WP_OK ->
  0 <= v < 2 ^ 32 -> 0 < n < 2 ^ 31 ->
  set_loop l wps res ty as_ v 0 n d = (WP_OK, wps', d') ->
  exists wp, wp ∈ wps' /\ armed_over wp d' ty v n.
Proof.
  intros Hcaps Hres Hv Hn. revert res Hres wps'.
  induction Hcaps as [|wp wps Hcap Hcaps IH]; intros res Hres wps' E; cbn [set_loop] in E; [congruence|].
  destruct (Z.land (capabilities wp) ty =? ty).
  - destruct (negb (len wp =? 0)).
    + destruct (set_loop l wps WP_INUSE ty as_ v 0 n d) as [[r ws] dd] eqn:Hl.
      apply pair_equal_spec in E as [E ->]. apply pair_equal_spec in E as [-> <-].
      destruct (IH WP_INUSE ltac:(done) ws Hl) as (x & Hx & Ha). exists x. split; [by apply list_elem_of_further|done].
    + destruct (claim l wp ty as_ v 0 n d) as [[r w] dd] eqn:Hl.
      apply pair_equal_spec in E as [E ->]. apply pair_equal_spec in E as [-> <-].
      exists w. split; [apply list_elem_of_here|]. by apply (claim_ok wp ty as_ v n d).
  - destruct (set_loop l wps res ty as_ v 0 n d) as [[r ws] dd] eqn:Hl.
    apply pair_equal_spec in E as [E ->]. apply pair_equal_spec in E as [-> <-].
    destruct (IH res Hres ws Hl) as (x & Hx & Ha). exists x. split; [by apply list_elem_of_further|done].
Qed.

(** C38. A watchpoint that is accepted works and is safe: on any processor whose
    driver keeps the promises of [WatchDriver] and watches physical addresses,
    it is armed for every byte of the range and every kind of access asked for,
    and no byte of the range belongs to the monitor. *)
Theorem watchpoint_set_armed (w w' : watch D) (ty as_ v n : Z) :
  Forall (fun wp => Z.land (capabilities wp) WP_VADDR = 0) (watchpoints w) ->
  0 <= v < 2 ^ 32 -> 0 < n < 2 ^ 31 ->
  watchpoint_set l ty as_ v 0 n w = (WP_OK, w') ->
  exists wp, wp ∈ watchpoints w' /\ armed_over wp (driver w') ty v n.
Proof.
  intros Hc Hv Hn. unfold watchpoint_set. destruct (_ || _); [done|].
  destruct (set_loop l (watchpoints w) _ _ _ _ _ _ _) as [[r ws] d] eqn:E. intros Ee.
  apply pair_equal_spec in Ee as [-> <-]. by apply (set_loop_ok (watchpoints w) WP_NOTSUP ty as_ v n (driver w)).
Qed.
End WatchLaws.

(** A monitor in the first megabyte, with 64 MB of memory. *)
Definition layout0 : layout := mkLayout 0x80008000 0x80040000 0x80040000 0x80080000 0x4000000.
Definition watch0 : watch r4k := watchpoint_init 0x400 (mkWatch false [] (mkR4k 0 0 0)).

Lemma watchpoint_set_armed_witness :
  exists wp, wp ∈ watchpoints (watchpoint_set layout0 WP_W (-1) 0x80100004 0 4 watch0).2 /\
    armed_over layout0 wp (driver (watchpoint_set layout0 WP_W (-1) 0x80100004 0 4 watch0).2) WP_W 0x80100004 4.
Proof.
  apply (watchpoint_set_armed layout0 watch0 _ WP_W (-1) 0x80100004 4).
  - repeat constructor.
  - lia.
  - lia.
  - by vm_compute.
Defined.

(** A watchpoint refused because it lies in the monitor leaves its resource
    free, but the driver keeps the register: the next insertion arms it. *)
Lemma refused_watchpoint_armed :
  let r := watchpoint_set layout0 WP_W (-1) 0x80050000 0 4 watch0 in
  r.1 = WP_OVERLAP /\ Forall (fun wp => len wp = 0) (watchpoints r.2) /\
  forall a, 0x50000 <= a < 0x50004 -> arms (driver (watchpoint_insert r.2)) 0 WP_W a.
Proof.
  split; [by vm_compute|]. split; [repeat constructor|]. intros a Ha.
  split; [by vm_compute|]. rewrite (land_WATCHLO_PA a) by lia.
  assert (a / 8 = 0xa000) as ->; [|by vm_compute].
  symmetry. apply (Z.div_unique a 8 _ (a - 0x50000)); lia.
Qed.
