(* ===== verification/Expr.v ===== *)
(** * Expr: the address expressions of the command line

    [get_rsa] and [get_rsa_reg] of [src/pmon/commands.c] and the register names
    of [src/pmon/regs.c], [regdefs.c] and [dis.c]. An argument such as
    [@sp+8*(&count-0x10)] is evaluated in 64-bit words.

    The theorem: [term] is the language of address expressions, [show] the text of
    one and [mean] its value in plain arithmetic, both apart from the code; the
    evaluator gives that value, with [inalpha] set to [hex]. Two defects of the
    other setting are proved as well. *)

From S2P Require Import Prelude CString Numconv Symtab Env Memory.

(** ** Registers *)

(** The registers of the client, by their index ([R_ZERO], ... of
    [src/pmon/pmon.h]). *)
Definition dbgreg : Type := Z -> Z.

(** [src/pmon/dis.c:44-50] *)
Definition regs_sw : list cstr :=
  str <$> ["zero"; "at"; "v0"; "v1"; "a0"; "a1"; "a2"; "a3";
           "t0"; "t1"; "t2"; "t3"; "t4"; "t5"; "t6"; "t7";
           "s0"; "s1"; "s2"; "s3"; "s4"; "s5"; "s6"; "s7";
           "t8"; "t9"; "k0"; "k1"; "gp"; "sp"; "s8"; "ra"]%string.

(** The two names of a register and its index: the entries after the general
    registers, whose names come first in [regs_sw], for the R4000.
    [src/pmon/regdefs.c:535-607] *)
Definition reglist : list (cstr * cstr * Z) :=
  (fun '(a, b, n) => (str a, str b, n)) <$>
  [("HI", "HI", 32); ("LO", "LO", 33); ("C0_SR", "SR", 38); ("C0_CAUSE", "CAUSE", 39);
   ("C0_PRID", "PRID", 43); ("C0_EPC", "EPC", 40); ("C0_ERRPC", "ERRPC", 56);
   ("C0_WATCHLO", "WATCHLO", 50); ("C0_WATCHHI", "WATCHHI", 51); ("C0_LLADDR", "LLADDR", 49);
   ("C0_CALG", "CALG", 49); ("C0_IWATCH", "IWATCH", 50); ("C0_DWATCH", "DWATCH", 51);
   ("C0_WATCH1", "WATCH1", 50); ("C0_WATCH2", "WATCH2", 51); ("C0_WATCHMASK", "WATCHMASK", 58);
   ("C0_ECC", "ECC", 52); ("C0_PERR", "PERR", 52); ("C0_CACHERR", "CACHERR", 53);
   ("C0_TAGLO", "TAGLO", 54); ("C0_TAGHI", "TAGHI", 55); ("C0_WIRED", "WIRED", 47);
   ("C0_PGMASK", "PGMASK", 46); ("C0_ENTRYLO0", "ENTRYLO0", 35); ("C0_ENTRYLO1", "ENTRYLO1", 45);
   ("C0_DBASE", "DBASE", 35); ("C0_DBOUND", "DBOUND", 45); ("C0_ENTRYHI", "ENTRYHI", 34);
   ("C0_BADVA", "BADVA", 42); ("C0_CONTEXT", "CONTEXT", 41); ("C0_XCONTEXT", "XCONTEXT", 57);
   ("C0_INDEX", "INDEX", 36); ("C0_RANDOM", "RANDOM", 37); ("C0_IBASE", "IBASE", 36);
   ("C0_IBOUND", "IBOUND", 37); ("C0_CONFIG", "CONFIG", 48); ("C0_INFO", "INFO", 62);
   ("C0C_ICR", "ICR", 59); ("C0C_IPLLO", "IPLLO", 60); ("C0C_IPLHI", "IPLHI", 61);
   ("C1_CSR", "CSR", 95); ("C1_FRID", "FRID", 96)]%string.

Fixpoint regno_loop (p : cstr) (names : list cstr) (i : Z) : Z :=
  match names with
  | [] => -1
  | n :: names' => if striequ (Some p) (Some n) then i else regno_loop p names' (i + 1)
  end.

(** [src/pmon/regs.c:605-615] *)
Definition regno (p : cstr) : Z := regno_loop p regs_sw 0.

(** The index of a register. [src/pmon/regs.c:573-600] *)
Definition getregadr (p : cstr) : option Z :=
  if isdigit (at_ p 0) then
    match atob p 10 with
    | Some j => if 31 <? j then None else Some j
    | None => None
    end
  else if negb (regno p =? -1) then Some (regno p)
  else
    match List.find (fun '(a, b, _) => striequ (Some p) (Some a) || striequ (Some p) (Some b)) reglist with
    | Some (_, _, n) => Some n
    | None => None
    end.

(** [src/pmon/regs.c:558-568] *)
Definition getreg (r : dbgreg) (p : cstr) : option Z :=
  match getregadr p with
  | Some n => Some (u64 (r n))
  | None => None
  end.

(** ** Expressions *)

(** What an evaluation returns: failure, or success with the value it stored;
    [Unset] when it reports success without storing a value. *)
Inductive rsa : Type :=
| Bad
| Val (v : Z)
| Unset.

Section Rsa.
Context {W : Type} (big : bool) (r : dbgreg) (m : mem) (st : symtab) (en : env (W := W)).

Definition getenv_str (name : cstr) : cptr := Some (strcpy (getenv name en)).

(** [src/pmon/commands.c:1037-1104] *)
Definition rsa_atom (p : cstr) : rsa * trace :=
  let sym p := match sym2adr p st with (adr, true) => Val (u64 (s32 adr)) | _ => Bad end in
  let num p base := match llatob p base with Some v => Val (u64 v) | None => Bad end in
  if at_ p 0 =? ch "@" then
    match getreg r (drop 1 p) with
    | Some v => (Val v, [])
    | None => (Bad, [Printf "%s: bad register name\n" [AStr (Some (drop 1 p))]])
    end
  else if strequ (Some p) (Some (str ".")) then
    match getreg r (str "epc") with Some v => (Val v, []) | None => (Bad, []) end
  else if at_ p 0 =? ch "&" then
    match sym (drop 1 p) with
    | Bad => (Bad, [Printf "%s: bad symbol name\n" [AStr (Some (drop 1 p))]])
    | v => (v, [])
    end
  else if isdigit (at_ p 0) then
    let inbase := matchenv (str "inbase") en in
    let base := if inbase =? 2 then Some 10 else if inbase =? 3 then Some 16
                else if inbase =? 1 then Some 8 else if inbase =? 0 then Some 0 else None in
    match base with
    | None => (Bad, [Printf "%s: bad inbase value\n" [AStr (getenv_str (str "inbase"))]])
    | Some base =>
        match num p base with
        | Bad =>
            match num p 0 with
            | Bad => (Bad, [Printf "%s: bad base %s value\n" [AStr (Some p); AStr (getenv_str (str "inbase"))]])
            | v => (v, [])
            end
        | v => (v, [])
        end
    end
  else if isxdigit (at_ p 0) then
    let inalpha := matchenv (str "inalpha") en in
    let badhexsym := [Printf "%s: neither hex value nor symbol\n" [AStr (Some p)]] in
    if inalpha =? 0 then
      match num p 16 with
      | Bad => match sym p with Bad => (Bad, badhexsym) | v => (v, []) end
      | v => (v, [])
      end
    else if inalpha =? 1 then
      match sym2adr p st with
      | (_, true) => (Unset, [])
      | (adr, false) => match num p 16 with Bad => (Bad, badhexsym) | _ => (Val (u64 (s32 adr)), []) end
      end
    else (Bad, [Printf "%s: bad inalpha value\n" [AStr (getenv_str (str "inalpha"))]])
  else
    match sym p with
    | Bad => (Bad, [Printf "%s: bad symbol name\n" [AStr (Some p)]])
    | v => (v, [])
    end.

(** Enclosing parentheses are taken off. [src/pmon/commands.c:989-993] *)
Fixpoint strip (fuel : nat) (p : cstr) : cstr :=
  match fuel with
  | O => p
  | S f =>
      if (at_ p 0 =? ch "(") &&
         match strbalp p with Some i => Nat.eqb i (length p - 1) | None => false end
      then strip f (removelast (strdchr p)) else p
  end.

(** The arithmetic of 64-bit words. [src/pmon/commands.c:1004-1027] *)
Definition arith (op v1 v2 : Z) : rsa * trace :=
  if op =? ch "+" then (Val (u64 (v1 + v2)), [])
  else if op =? ch "-" then (Val (u64 (v1 - v2)), [])
  else if op =? ch "*" then (Val (u64 (v1 * v2)), [])
  else if v2 =? 0 then (Bad, [Printf "divide by zero\n" []])
  else (Val (v1 / v2), []).

(** The two operands of a sum or a product.
    [src/pmon/commands.c:995-1029] *)
Definition both_sides (op : Z) (e1 e2 : rsa * trace) : rsa * trace :=
  match e1 with
  | (Bad, t1) => (Bad, t1)
  | (v1, t1) =>
      match e2 with
      | (Bad, t2) => (Bad, t1 ++ t2)
      | (v2, t2) =>
          match v1, v2 with
          | Val a, Val b => let '(v, t) := arith op a b in (v, t1 ++ t2 ++ t)
          | _, _ => (Unset, t1 ++ t2)
          end
      end
  end.

(** [src/pmon/commands.c:1030-1036] *)
Definition indirect (p : cstr) (e : rsa * trace) : rsa * trace :=
  match e with
  | (Bad, t) => (Bad, t ++ [Printf "%s: bad indirect address\n" [AStr (Some p)]])
  | (Val v, t) => (Val (u64 (load_word big m (u32 v))), t)
  | (Unset, t) => (Unset, t)
  end.

(** Every call is on a shorter string, so the length is fuel enough.
    [src/pmon/commands.c:980-1106] *)
Fixpoint get_rsa_reg (fuel : nat) (p : cstr) : rsa * trace :=
  match fuel with
  | O => (Bad, [])
  | S f =>
      let p := strip (length p) p in
      let split q := both_sides (at_ p q) (get_rsa_reg f (take q p)) (get_rsa_reg f (drop (S q) p)) in
      match strrpset p (str "+-") with
      | Some q => split q
      | None =>
          match strrpset p (str "*/") with
          | Some q => split q
          | None =>
              if at_ p 0 =? ch "^" then indirect (drop 1 p) (get_rsa_reg f (drop 1 p))
              else rsa_atom p
          end
      end
  end.

(** [src/pmon/commands.c:966-977] *)
Definition get_rsa (p : cstr) : rsa * trace :=
  match get_rsa_reg (S (length p)) p with
  | (Val v, t) => (Val (u32 v), t)
  | e => e
  end.
End Rsa.

(** ** The grammar *)

Inductive expr : Type :=
| Atom (a : cstr)
| Par (e : expr)
| Ind (e : expr)
| Bin (op : Z) (e1 e2 : expr).

Definition add_op (c : Z) : bool := (c =? ch "+") || (c =? ch "-").
Definition mul_op (c : Z) : bool := (c =? ch "*") || (c =? ch "/").
Definition paren (c : Z) : bool := (c =? ch "(") || (c =? ch ")").

(** The characters that cannot stand in an atom. *)
Definition plain (c : Z) : bool := negb (add_op c || mul_op c || paren c).

(** 0: an atom, an indirection or parentheses; 1: a product; 2: a sum. *)
Fixpoint level (e : expr) : nat :=
  match e with
  | Bin op _ _ => if add_op op then 2%nat else 1%nat
  | _ => 0%nat
  end.

(** Sums and products associate to the left. *)
Fixpoint wf (e : expr) : bool :=
  match e with
  | Atom a => negb (Nat.eqb (length a) 0) && forallb plain a && negb (at_ a 0 =? ch "^")
  | Par e => wf e
  | Ind e => wf e && Nat.eqb (level e) 0
  | Bin op e1 e2 =>
      wf e1 && wf e2 &&
      ((add_op op && Nat.leb (level e2) 1) ||
       (mul_op op && Nat.leb (level e1) 1 && Nat.eqb (level e2) 0))
  end.

Fixpoint print (e : expr) : cstr :=
  match e with
  | Atom a => a
  | Par e => ch "(" :: print e ++ [ch ")"]
  | Ind e => ch "^" :: print e
  | Bin op e1 e2 => print e1 ++ op :: print e2
  end.

Section Eval.
Context {W : Type} (big : bool) (r : dbgreg) (m : mem) (st : symtab) (en : env (W := W)).
#[local] Set Default Proof Using "Type".

Fixpoint eval (e : expr) : rsa * trace :=
  match e with
  | Atom a => rsa_atom r st en a
  | Par e => eval e
  | Ind e => indirect big m (print e) (eval e)
  | Bin op e1 e2 => both_sides op (eval e1) (eval e2)
  end.
End Eval.

(** The scan of [strrpset] over a piece of the string, from its right end: it
    stops at an operator outside the parentheses, or gives the new depth. *)
Definition rpass_step (set : cstr) (c : Z) (n : option Z) : option Z :=
  n ← n;
  if c =? ch "(" then Some (n + 1) else if c =? ch ")" then Some (n - 1)
  else if mem_of set c && (n =? 0) then None else Some n.
Definition rpass (set : cstr) (s : cstr) (n : Z) : option Z :=
  fold_right (rpass_step set) (Some n) s.

Lemma rpass_app set s1 s2 n :
  rpass set (s1 ++ s2) n = n' ← rpass set s2 n; rpass set s1 n'.
Proof.
  unfold rpass. rewrite fold_right_app. destruct (fold_right (rpass_step set) (Some n) s2); [done|].
  cbn. induction s1 as [|c s1 IH]; [done|]. cbn. by rewrite IH.
Qed.

Lemma strrpset_loop_pass set l s n n' :
  rpass set s n = Some n' -> (0 < length l)%nat ->
  strrpset_loop (l ++ s) set n (length l + length s - 1) =
  strrpset_loop (l ++ s) set n' (length l - 1).
Proof.
  intros Hp Hl. revert l n n' Hp Hl. induction s as [|c s IH] using rev_ind; intros l n n' Hp Hl.
  { cbn in Hp. injection Hp as ->. f_equal. cbn. lia. }
  rewrite rpass_app in Hp. cbn [rpass fold_right] in Hp.
  destruct (rpass_step set c (Some n)) as [n1|] eqn:Hc; [|done]. cbn [mbind option_bind] in Hp.
  rewrite length_app. cbn [length].
  replace (length l + (length s + 1) - 1)%nat with (S (length l + length s - 1)) by lia.
  cbn [strrpset_loop]. rewrite app_assoc.
  assert (at_ ((l ++ s) ++ [c]) (S (length l + length s - 1)) = c) as ->.
  { unfold at_. rewrite lookup_app_r by (rewrite length_app; lia). rewrite length_app.
    by replace (S (length l + length s - 1) - (length l + length s))%nat with 0%nat by lia. }
  assert (forall i k, (i < length (l ++ s))%nat ->
    strrpset_loop ((l ++ s) ++ [c]) set k i = strrpset_loop (l ++ s) set k i) as Hpre.
  { intros i. induction i as [|i IHi]; intros k Hi; [done|]. cbn [strrpset_loop].
    unfold at_. rewrite lookup_app_l by done. rewrite !IHi by lia. done. }
  assert (strrpset_loop ((l ++ s) ++ [c]) set n1 (length l + length s - 1) =
          strrpset_loop ((l ++ s) ++ [c]) set n' (length l - 1)) as Hgo.
  { rewrite !Hpre by (rewrite length_app; lia). by apply IH. }
  unfold rpass_step in Hc. cbn in Hc.
  destruct (c =? ch "("); [by injection Hc as <-|]. destruct (c =? ch ")"); [by injection Hc as <-|].
  destruct (mem_of set c && (n =? 0)); [done|]. by injection Hc as <-.
Qed.

Lemma print_nonempty e : wf e = true -> (0 < length (print e))%nat.
Proof.
  destruct e; cbn; intros H; rewrite ?length_app; cbn; try lia.
  destruct a; cbn in *; [done|lia].
Qed.

Definition is_set (set : cstr) (k : nat) : Prop :=
  (set = str "+-" /\ k = 1%nat) \/ (set = str "*/" /\ k = 0%nat).

Lemma mem_set set k c : is_set set k -> mem_of set c = if Nat.eqb k 1 then add_op c else mul_op c.
Proof.
  intros [[-> ->]|[-> ->]]; unfold mem_of; cbn; unfold add_op, mul_op, ch; cbn;
    repeat (match goal with |- context [?x =? ?y] => destruct (Z.eqb_spec x y) end); subst; cbn; done || lia.
Qed.

(** The operators are not parentheses, and sums and products differ. *)
Lemma op_cases op :
  add_op op = true \/ mul_op op = true -> (op =? ch "(") = false /\ (op =? ch ")") = false.
Proof.
  unfold add_op, mul_op. rewrite !orb_true_iff, !Z.eqb_eq.
  intros [[-> | ->]|[-> | ->]]; done.
Qed.

Lemma add_not_mul op : add_op op = true -> mul_op op = false.
Proof. unfold add_op, mul_op. rewrite orb_true_iff, !Z.eqb_eq. by intros [-> | ->]. Qed.

Lemma mul_not_add op : mul_op op = true -> add_op op = false.
Proof. unfold add_op, mul_op. rewrite orb_true_iff, !Z.eqb_eq. by intros [-> | ->]. Qed.

Lemma wf_bin op e1 e2 :
  wf (Bin op e1 e2) = true ->
  wf e1 = true /\ wf e2 = true /\
  ((add_op op = true /\ (level e2 <= 1)%nat) \/
   (mul_op op = true /\ (level e1 <= 1)%nat /\ level e2 = 0%nat)).
Proof.
  cbn. rewrite !andb_true_iff, orb_true_iff, !andb_true_iff, !Nat.leb_le, Nat.eqb_eq. tauto.
Qed.

Lemma wf_bin_op op e1 e2 : wf (Bin op e1 e2) = true -> (op =? ch "(") = false /\ (op =? ch ")") = false.
Proof. intros (_ & _ & H)%wf_bin. apply op_cases. tauto. Qed.

Lemma rpass_plain set k a n :
  is_set set k -> forallb plain a = true -> rpass set a n = Some n.
Proof.
  intros Hs Ha. induction a as [|c a IH]; [done|]. cbn [forallb] in Ha. apply andb_true_iff in Ha as [Hc Ha].
  cbn [rpass fold_right]. change (fold_right (rpass_step set) (Some n) a) with (rpass set a n). rewrite IH by done.
  unfold rpass_step. cbn [mbind option_bind]. rewrite (mem_set set k) by done.
  unfold plain, paren in Hc. destruct (c =? ch "("), (c =? ch ")"), (add_op c), (mul_op c), (Nat.eqb k 1); done.
Qed.

Lemma rpass_cons set c s n : rpass set (c :: s) n = rpass_step set c (rpass set s n).
Proof. done. Qed.

Lemma rpass_par set s n :
  rpass set (ch "(" :: s ++ [ch ")"]) n = rpass_step set (ch "(") (rpass set s (n - 1)).
Proof. by rewrite rpass_cons, rpass_app. Qed.

Lemma rpass_inside set k e n :
  is_set set k -> wf e = true -> n < 0 -> rpass set (print e) n = Some n.
Proof.
  intros Hs. revert n. induction e as [a|e IH|e IH|op e1 IH1 e2 IH2]; intros n Hw Hn; cbn [print].
  - cbn in Hw. rewrite !andb_true_iff in Hw. destruct Hw as [[_ Hw] _]. by apply (rpass_plain set k).
  - rewrite rpass_par, IH by (done || lia). cbn [rpass_step mbind option_bind].
    change (Some (n - 1 + 1) = Some n). f_equal. lia.
  - cbn in Hw. apply andb_true_iff in Hw as [Hw _]. rewrite rpass_cons, IH by done. cbn.
    rewrite (proj2 (Z.eqb_neq n 0)) by lia. by rewrite andb_false_r.
  - pose proof (wf_bin_op _ _ _ Hw) as [Hp1 Hp2]. apply wf_bin in Hw as (H1 & H2 & _).
    rewrite rpass_app, rpass_cons, IH2 by done. unfold rpass_step. cbn [mbind option_bind].
    rewrite Hp1, Hp2, (proj2 (Z.eqb_neq n 0)), andb_false_r by lia. by apply IH1.
Qed.

Lemma rpass_outside set k e :
  is_set set k -> wf e = true -> (level e <= k)%nat -> rpass set (print e) 0 = Some 0.
Proof.
  intros Hs. induction e as [a|e IH|e IH|op e1 IH1 e2 IH2]; intros Hw Hl; cbn [print].
  - cbn in Hw. rewrite !andb_true_iff in Hw. destruct Hw as [[_ Hw] _]. by apply (rpass_plain set k).
  - rewrite rpass_par, (rpass_inside set k) by (done || lia). done.
  - cbn in Hw. apply andb_true_iff in Hw as [Hw Hl'%Nat.eqb_eq].
    rewrite rpass_cons, IH by (done || lia). unfold rpass_step. cbn [mbind option_bind].
    rewrite (mem_set set k) by done. by destruct (Nat.eqb k 1).
  - pose proof (wf_bin_op _ _ _ Hw) as [Hp1 Hp2]. apply wf_bin in Hw as (H1 & H2 & Hop). cbn [level] in Hl.
    assert (k = 1%nat /\ add_op op = false /\ (level e1 <= 1)%nat /\ level e2 = 0%nat) as (-> & Ha & L1 & L2).
    { destruct Hop as [[Ha _]|(Hm & L1 & L2)].
      - rewrite Ha in Hl. destruct Hs as [[_ ->]|[_ ->]]; lia.
      - rewrite (mul_not_add op Hm) in *. destruct Hs as [[_ ->]|[_ ->]]; [done|lia]. }
    rewrite rpass_app, rpass_cons, IH2 by (done || lia). unfold rpass_step. cbn [mbind option_bind].
    rewrite Hp1, Hp2, (mem_set set 1), Ha by done. cbn. by apply IH1.
Qed.

Lemma strrpset_none set s n : rpass set s 0 = Some n -> strrpset s set = None.
Proof.
  destruct s as [|c s]; [done|]. rewrite rpass_cons. intros H.
  destruct (rpass set s 0) as [n'|] eqn:E; [|done]. unfold strrpset.
  change (c :: s) with ([c] ++ s). cbn [length app].
  replace (S (length s) - 1)%nat with (length [c] + length s - 1)%nat by (cbn; lia).
  change (c :: s) with ([c] ++ s). rewrite (strrpset_loop_pass set [c] s 0 n' E) by (cbn; lia). done.
Qed.

Lemma strrpset_found set l op s :
  rpass set s 0 = Some 0 -> mem_of set op = true -> (op =? ch "(") = false -> (op =? ch ")") = false ->
  (0 < length l)%nat -> strrpset (l ++ op :: s) set = Some (length l).
Proof.
  intros Hs Ho H1 H2 Hl. unfold strrpset. rewrite length_app. cbn [length].
  replace (l ++ op :: s) with ((l ++ [op]) ++ s) by (by rewrite <- app_assoc).
  replace (length l + S (length s) - 1)%nat with (length (l ++ [op]) + length s - 1)%nat
    by (rewrite length_app; cbn; lia).
  rewrite (strrpset_loop_pass set _ s 0 0 Hs) by (rewrite length_app; cbn; lia).
  rewrite length_app. cbn [length]. destruct (length l) as [|k] eqn:El; [lia|].
  replace (S k + 1 - 1)%nat with (S k) by lia. cbn [strrpset_loop].
  assert (at_ ((l ++ [op]) ++ s) (S k) = op) as ->.
  { unfold at_. rewrite <- app_assoc, lookup_app_r by lia. by rewrite El, Nat.sub_diag. }
  by rewrite H1, H2, Ho.
Qed.

Lemma balp_plain a rest n i :
  forallb plain a = true ->
  strbalp_loop (a ++ rest) (ch "(") (ch ")") n i = strbalp_loop rest (ch "(") (ch ")") n (i + length a).
Proof.
  revert i. induction a as [|c a IH]; intros i Ha; [by rewrite Nat.add_0_r|].
  cbn [forallb] in Ha. apply andb_true_iff in Ha as [Hc Ha]. cbn [app strbalp_loop length].
  unfold plain, paren in Hc. destruct (c =? ch "("), (c =? ch ")"), (add_op c), (mul_op c); try done;
    (rewrite IH by done; f_equal; lia).
Qed.

(** A printed expression is balanced. *)
Lemma balp_print e rest n i :
  wf e = true -> 1 <= n ->
  strbalp_loop (print e ++ rest) (ch "(") (ch ")") n i =
  strbalp_loop rest (ch "(") (ch ")") n (i + length (print e)).
Proof.
  revert rest n i. induction e as [a|e IH|e IH|op e1 IH1 e2 IH2]; intros rest n i Hw Hn; cbn [print].
  - cbn in Hw. rewrite !andb_true_iff in Hw. destruct Hw as [[_ Hw] _]. by apply balp_plain.
  - change ((ch "(" :: print e ++ [ch ")"]) ++ rest) with (ch "(" :: (print e ++ [ch ")"]) ++ rest).
    rewrite <- app_assoc. cbn [strbalp_loop app]. change (ch "(" =? ch "(") with true. cbn iota.
    rewrite IH by (done || lia). cbn [strbalp_loop].
    change (ch ")" =? ch "(") with false. change (ch ")" =? ch ")") with true. cbn iota.
    rewrite (proj2 (Z.eqb_neq (n + 1 - 1) 0)) by lia. cbn [length]. rewrite length_app. cbn [length].
    replace (n + 1 - 1) with n by lia. f_equal. lia.
  - cbn in Hw. apply andb_true_iff in Hw as [Hw _]. cbn [app strbalp_loop length].
    change (ch "^" =? ch "(") with false. change (ch "^" =? ch ")") with false. cbn iota.
    rewrite IH by done. f_equal. lia.
  - pose proof (wf_bin_op _ _ _ Hw) as [Hp1 Hp2]. apply wf_bin in Hw as (H1 & H2 & _).
    rewrite <- app_assoc, IH1 by done. cbn [app strbalp_loop]. rewrite Hp1, Hp2, IH2 by done.
    rewrite length_app. cbn [length]. f_equal. lia.
Qed.

Lemma strbalp_par e rest :
  wf e = true -> strbalp (ch "(" :: print e ++ ch ")" :: rest) = Some (S (length (print e))).
Proof.
  intros Hw. unfold strbalp. cbn [at_ lookup list_lookup default].
  change (strbalp_loop (ch "(" :: print e ++ ch ")" :: rest) (ch "(") (ch ")") 0 0 = Some (S (length (print e)))).
  cbn [strbalp_loop]. change (ch "(" =? ch "(") with true. cbn iota. rewrite balp_print by (done || lia).
  cbn [strbalp_loop]. change (ch ")" =? ch "(") with false. change (ch ")" =? ch ")") with true. done.
Qed.

(** An expression that starts with a parenthesis is in parentheses, or goes on
    after the matching one. *)
Lemma leading_paren e :
  wf e = true -> at_ (print e) 0 = ch "(" ->
  exists e' rest, wf e' = true /\ print e = ch "(" :: print e' ++ ch ")" :: rest /\
    (e = Par e' \/ rest <> []).
Proof.
  induction e as [a|e IH|e IH|op e1 IH1 e2 IH2]; intros Hw H0.
  - exfalso. cbn in Hw, H0. rewrite !andb_true_iff in Hw. destruct Hw as [[Hl Ha] _].
    destruct a as [|c a]; [done|]. cbn in H0. unfold at_ in H0. cbn in H0. subst c. done.
  - exists e, []. split_and!; [done|done|by left].
  - done.
  - apply wf_bin in Hw as (H1 & H2 & _). cbn [print] in H0.
    destruct IH1 as (e' & rest & Hw' & E & _); [done| |].
    { pose proof (print_nonempty e1 H1). destruct (print e1); [cbn in *; lia|done]. }
    exists e', (rest ++ op :: print e2). split; [done|]. split.
    + cbn [print]. rewrite E. cbn [app]. by rewrite <- app_assoc.
    + right. by destruct rest.
Qed.

(** The expression inside its enclosing parentheses. *)
Fixpoint core (e : expr) : expr := match e with Par e => core e | _ => e end.

Lemma strip_core e f : wf e = true -> (length (print e) <= f)%nat -> strip f (print e) = print (core e).
Proof.
  revert e. induction f as [|f IH]; intros e Hw Hf.
  { pose proof (print_nonempty e Hw). lia. }
  cbn [strip]. destruct (Z.eqb_spec (at_ (print e) 0) (ch "(")) as [H0|H0]; cbn [andb].
  - destruct (leading_paren e Hw H0) as (e' & rest & Hw' & E & [->|Hr]).
    + cbn [print] in *. rewrite strbalp_par by done. cbn [length]. rewrite length_app. cbn [length].
      replace (S (length (print e') + 1) - 1)%nat with (S (length (print e'))) by lia. rewrite Nat.eqb_refl.
      cbn [strdchr core]. rewrite removelast_last. apply IH; [done|].
      cbn [length] in Hf. rewrite length_app in Hf. cbn in Hf. lia.
    + rewrite E, strbalp_par by done. cbn [length]. rewrite length_app. cbn [length].
      destruct rest as [|c rest]; [done|]. cbn [length].
      replace (Nat.eqb _ _) with false by (symmetry; apply Nat.eqb_neq; lia).
      rewrite <- E. destruct e; try done. exfalso. cbn [print] in E.
      injection E as E. apply (f_equal length) in E as El.
      (* the printed body is balanced, so the matching parenthesis is the last one *)
      pose proof (strbalp_par e [] Hw) as B. cbn [print] in H0.
      rewrite E in B. rewrite strbalp_par in B by done. injection B as B.
      rewrite !length_app in El. cbn in El. lia.
  - destruct e; try done.
Qed.

Section Correct.
Context {W : Type} (big : bool) (r : dbgreg) (m : mem) (st : symtab) (en : env (W := W)).
#[local] Set Default Proof Using "Type".
Abbreviation run := (get_rsa_reg big r m st en).
Abbreviation value := (eval big r m st en).

Lemma run_par f e : wf e = true -> run (S f) (print (Par e)) = run (S f) (print e).
Proof.
  intros Hw. cbn [get_rsa_reg].
  by rewrite (strip_core (Par e)), (strip_core e) by done.
Qed.

Lemma run_split f op e1 e2 :
  wf (Bin op e1 e2) = true ->
  run (S f) (print (Bin op e1 e2)) = both_sides op (run f (print e1)) (run f (print e2)).
Proof.
  intros Hw. cbn [get_rsa_reg]. rewrite (strip_core (Bin op e1 e2)) by done. cbn [core print].
  pose proof (wf_bin_op _ _ _ Hw) as [Hp1 Hp2]. apply wf_bin in Hw as (H1 & H2 & Hop).
  pose proof (print_nonempty e1 H1).
  assert (strrpset (print e1 ++ op :: print e2) (str "+-") = Some (length (print e1)) \/
    (strrpset (print e1 ++ op :: print e2) (str "+-") = None /\
     strrpset (print e1 ++ op :: print e2) (str "*/") = Some (length (print e1)))) as Hq.
  { assert (is_set (str "+-") 1) as S1 by (left; done). assert (is_set (str "*/") 0) as S2 by (right; done).
    destruct Hop as [[Ha L2]|(Hm & L1 & L2)].
    - left. apply strrpset_found; try done; [by apply (rpass_outside _ 1)|]. by rewrite (mem_set _ 1).
    - right. split.
      + apply (strrpset_none _ _ 0).
        apply (rpass_outside _ 1 (Bin op e1 e2)); [done| |cbn; by rewrite mul_not_add].
        cbn. rewrite H1, H2, Hm, (mul_not_add _ Hm), (proj2 (Nat.leb_le _ _) L1), L2. done.
      + apply strrpset_found; try done; [apply (rpass_outside _ 0); [done|done|lia]|].
        by rewrite (mem_set _ 0). }
  assert (at_ (print e1 ++ op :: print e2) (length (print e1)) = op) as Eo.
  { unfold at_. by rewrite lookup_app_r, Nat.sub_diag by lia. }
  assert (take (length (print e1)) (print e1 ++ op :: print e2) = print e1) as Et by apply take_app_length.
  assert (drop (S (length (print e1))) (print e1 ++ op :: print e2) = print e2) as Ed.
  { rewrite <- Nat.add_1_r, <- drop_drop, drop_app_length. done. }
  destruct Hq as [->|[-> ->]]; by rewrite Eo, Et, Ed.
Qed.

(** No operator outside parentheses in an expression of level 0. *)
Lemma no_split e set k : is_set set k -> wf e = true -> level e = 0%nat -> strrpset (print e) set = None.
Proof. intros Hs Hw Hl. apply (strrpset_none _ _ 0), (rpass_outside _ k); [done|done|lia]. Qed.

Lemma run_value e f : wf e = true -> (length (print e) < f)%nat -> run f (print e) = value e.
Proof.
  revert f. induction e as [a|e IH|e IH|op e1 IH1 e2 IH2]; intros f Hw Hf; (destruct f as [|f]; [lia|]).
  - pose proof (strip_core (Atom a) (length a) Hw (le_n _)) as Hs. cbn [print core] in Hs.
    cbn [get_rsa_reg print]. rewrite Hs.
    pose proof (no_split (Atom a) (str "+-") 1 ltac:(by left) Hw eq_refl) as N1.
    pose proof (no_split (Atom a) (str "*/") 0 ltac:(by right) Hw eq_refl) as N2.
    cbn [print] in N1, N2. rewrite N1, N2. cbn in Hw. rewrite !andb_true_iff in Hw. destruct Hw as [_ Hc%negb_true_iff]. by rewrite Hc.
  - rewrite run_par by done. apply IH; [done|]. cbn in Hf. rewrite length_app in Hf. lia.
  - cbn [get_rsa_reg]. rewrite (strip_core (Ind e)) by done.
    cbn [core]. rewrite (no_split (Ind e) (str "+-") 1 ltac:(by left) Hw eq_refl).
    rewrite (no_split (Ind e) (str "*/") 0 ltac:(by right) Hw eq_refl). cbn [print eval]. change (drop 1 (ch "^" :: print e)) with (print e).
    change (at_ (ch "^" :: print e) 0 =? ch "^") with true. cbn iota.
    cbn in Hw. apply andb_true_iff in Hw as [Hw _]. rewrite IH; [done|done|]. cbn in Hf. lia.
  - rewrite run_split by done. apply wf_bin in Hw as (H1 & H2 & _). cbn [print] in Hf.
    rewrite length_app in Hf. cbn in Hf. rewrite IH1, IH2 by (done || lia). done.
Qed.

End Correct.

(** ** What an expression means

    The meaning is stated on its own, over integers: the operands of the
    command line as a type, their text, and their value, without the
    evaluator's own routines for atoms and arithmetic. *)

Inductive binop : Type := Add | Sub | Mul | Div.

Inductive term : Type :=
| TNum (ds : list Z)              (* a number that starts with a decimal digit *)
| TPre (x b : Z) (ds : list Z)    (* [0x1f], [0t19], [0n19] or [0o17] *)
| THex (ds : list Z)              (* a hexadecimal number that starts with a letter *)
| TReg (n : cstr) (i : Z)         (* [@n], the register of index [i] *)
| TPc                             (* [.] *)
| TAmp (n : cstr)                 (* [&n] *)
| TName (n : cstr)                (* a symbol *)
| TPar (t : term)
| TInd (t : term)
| TBin (o : binop) (t1 t2 : term).

Definition op_char (o : binop) : Z :=
  match o with Add => ch "+" | Sub => ch "-" | Mul => ch "*" | Div => ch "/" end.

(** The text of a term. Parentheses stand where the precedence of the
    operators needs them: products bind tighter than sums, both associate to
    the left, and an indirection takes the operand that follows. *)
Definition guarded (b : bool) (e : expr) : expr := if b then Par e else e.

Fixpoint text_of (t : term) : expr :=
  match t with
  | TNum ds | THex ds => Atom (digit_char <$> ds)
  | TPre x _ ds => Atom (ch "0" :: x :: (digit_char <$> ds))
  | TReg n _ => Atom (ch "@" :: n)
  | TPc => Atom (str ".")
  | TAmp n => Atom (ch "&" :: n)
  | TName n => Atom n
  | TPar t => Par (text_of t)
  | TInd t => Ind (guarded (Nat.ltb 0 (level (text_of t))) (text_of t))
  | TBin o t1 t2 =>
      let e1 := text_of t1 in let e2 := text_of t2 in
      match o with
      | Add | Sub => Bin (op_char o) e1 (guarded (Nat.ltb 1 (level e2)) e2)
      | Mul | Div => Bin (op_char o) (guarded (Nat.ltb 1 (level e1)) e1)
                         (guarded (Nat.ltb 0 (level e2)) e2)
      end
  end.

Definition show (t : term) : cstr := print (text_of t).

(** The names of register [i]: of the general registers, and of the others. *)
Definition reg_name (n : cstr) (i : Z) : Prop :=
  (0 <= i /\ regs_sw !! Z.to_nat i = Some n) \/
  exists a b, (a, b, i) ∈ reglist /\ (n = a \/ n = b).

Definition symbol_name (n : cstr) : bool := negb (Nat.eqb (length n) 0) && forallb plain n.

Definition prefixes : list (Z * Z) := [(ch "x", 16); (ch "t", 10); (ch "n", 10); (ch "o", 8)].

Fixpoint term_ok (t : term) : Prop :=
  match t with
  | TNum ds => Forall (fun d => 0 <= d < 16) ds /\ exists d ds', ds = d :: ds' /\ d < 10
  | TPre x b ds =>
      (x, b) ∈ prefixes /\
      Forall (fun d => 0 <= d < b) ds
  | THex ds => Forall (fun d => 0 <= d < 16) ds /\ exists d ds', ds = d :: ds' /\ 10 <= d
  | TReg n i => reg_name n i
  | TPc => True
  | TAmp n => symbol_name n = true
  | TName n =>
      symbol_name n = true /\ n <> str "." /\
      (at_ n 0 =? ch "@") || (at_ n 0 =? ch "&") || (at_ n 0 =? ch "^") || isxdigit (at_ n 0) = false
  | TPar t | TInd t => term_ok t
  | TBin _ t1 t2 => term_ok t1 /\ term_ok t2
  end.

(** The four bytes at an address, as a signed word. *)
Definition word_at (big : bool) (m : mem) (a : Z) : Z :=
  let b i := m ((a + i) mod 2 ^ 32) in
  let v := if big then ((b 0 * 256 + b 1) * 256 + b 2) * 256 + b 3
           else ((b 3 * 256 + b 2) * 256 + b 1) * 256 + b 0 in
  s32 v.

Section Meaning.
Context (big : bool) (r : dbgreg) (m : mem).
(** The value of a symbol, and the base of a number without a prefix. *)
Context (symbol : cstr -> option Z) (base : Z).
#[local] Set Default Proof Using "Type".

Definition apply_op (o : binop) (v1 v2 : Z) : option Z :=
  match o with
  | Add => Some ((v1 + v2) mod 2 ^ 64)
  | Sub => Some ((v1 - v2) mod 2 ^ 64)
  | Mul => Some ((v1 * v2) mod 2 ^ 64)
  | Div => if v2 =? 0 then None else Some (v1 / v2)
  end.

(** The 64-bit value of a term; [None] where there is none. A number with a
    digit beyond the base is decimal, when its digits are. *)
Fixpoint meaning (t : term) : option Z :=
  match t with
  | TNum ds =>
      if forallb (fun d => d <? base) ds then Some (num_value base ds mod 2 ^ 64)
      else if forallb (fun d => d <? 10) ds then Some (num_value 10 ds mod 2 ^ 64)
      else None
  | TPre _ b ds => Some (num_value b ds mod 2 ^ 64)
  | THex ds => Some (num_value 16 ds mod 2 ^ 64)
  | TReg _ i => Some (r i mod 2 ^ 64)
  | TPc => Some (r 40 mod 2 ^ 64)
  | TAmp n | TName n => a ← symbol n; Some (s32 a mod 2 ^ 64)
  | TPar t => meaning t
  | TInd t => v ← meaning t; Some (word_at big m v mod 2 ^ 64)
  | TBin o t1 t2 => v1 ← meaning t1; v2 ← meaning t2; apply_op o v1 v2
  end.
End Meaning.

(** The words of [inbase] and their bases. *)
Definition base_of_word : list (cstr * Z) :=
  [(str "auto", 10); (str "8", 8); (str "10", 10); (str "16", 16)].

(** *** Numbers *)

Lemma digits_no_dot ds : Forall (fun d => 0 <= d < 16) ds -> ~ ch "." ∈ digit_char <$> ds.
Proof.
  intros Hds [i Hi]%list_elem_of_lookup.
  destruct (at_no_x ds 16 i Hds) as (_ & _ & Hd); [done|]. apply Hd. unfold at_. by rewrite Hi.
Qed.

Lemma atob_loop_bad ds base v :
  Forall (fun d => 0 <= d < 16) ds -> forallb (fun d => d <? base) ds = false ->
  atob_loop (digit_char <$> ds) base v = None.
Proof.
  intros Hds. revert v. induction Hds as [|d ds Hd Hds IH]; intros v Hb; [done|].
  cbn [fmap list_fmap atob_loop]. rewrite digit_of_char by done. cbn [forallb] in Hb.
  case_bool; [done|]. apply IH. destruct (Z.ltb_spec d base); [done|lia].
Qed.

Lemma digits_weaken b ds :
  b <= 16 -> Forall (fun d => 0 <= d < b) ds -> Forall (fun d => 0 <= d < 16) ds.
Proof. intros Hb. induction 1; constructor; [lia|done]. Qed.

(** A text of digits is read as a number of the base, or not at all. *)
Lemma _atob_number ds base :
  Forall (fun d => 0 <= d < 16) ds -> base <= 16 ->
  _atob (digit_char <$> ds) base =
    if forallb (fun d => d <? base) ds then Some (num_value base ds mod 2 ^ 64) else None.
Proof.
  intros Hds Hb. destruct (forallb _ ds) eqn:E.
  - apply _atob_digits; [|done]. rewrite forallb_forall in E. rewrite List.Forall_forall in Hds |- *.
    intros d Hd. specialize (E d Hd). specialize (Hds d Hd). cbv beta in *. lia.
  - unfold _atob. unfold _atob_body at 1. destruct (at_no_x ds 16 1 Hds) as (Hx & HX & _); [done|].
    rewrite (proj2 (Z.eqb_neq _ _) Hx), (proj2 (Z.eqb_neq _ _) HX), andb_false_r.
    rewrite (proj2 (strchr_None _ _)) by (by apply digits_no_dot).
    destruct (base =? 16); by apply atob_loop_bad.
Qed.

Lemma llatob_number ds base :
  Forall (fun d => 0 <= d < 16) ds -> base <= 16 ->
  llatob (digit_char <$> ds) base =
    let b := if base =? 0 then 10 else base in
    if forallb (fun d => d <? b) ds then Some (num_value b ds mod 2 ^ 64) else None.
Proof.
  intros Hds Hb. unfold llatob. destruct (base =? 0); [|by apply _atob_number].
  assert (_getbase (digit_char <$> ds) = (digit_char <$> ds, 10)) as ->; [|by apply _atob_number].
  destruct ds as [|d [|d' ds]]; [done|..]; unfold _getbase, at_; cbn [fmap list_fmap lookup list_lookup default].
  - by destruct (_ =? _).
  - assert (forallb (fun d => negb ((digit_char d =? ch "x") || (digit_char d =? ch "t") ||
      (digit_char d =? ch "n") || (digit_char d =? ch "o"))) (seqZ 0 16) = true) as H by (vm_compute; reflexivity).
    apply List.Forall_cons_iff in Hds as [_ [Hd _]%Forall_cons_iff].
    apply (forallb_range _ 0 16 H d') in Hd. rewrite !negb_orb, !andb_true_iff, !negb_true_iff in Hd.
    destruct Hd as [[[Hx Ht] Hn] Ho]. unfold id. cbn [lookup list_lookup]. rewrite Hx, Ht, Hn, Ho. cbn [orb]. by destruct (digit_char d =? ch "0").
Qed.

Lemma forallb_below b ds : Forall (fun d => 0 <= d < b) ds -> forallb (fun d => d <? b) ds = true.
Proof. intros H. apply forallb_forall. intros d Hd. rewrite List.Forall_forall in H. specialize (H d Hd). lia. Qed.

Lemma prefix_cases x b :
  (x, b) ∈ prefixes ->
  (x = ch "x" /\ b = 16) \/ (x = ch "t" /\ b = 10) \/ (x = ch "n" /\ b = 10) \/ (x = ch "o" /\ b = 8).
Proof.
  unfold prefixes. rewrite !elem_of_cons, elem_of_nil. intros H.
  repeat match goal with H : _ \/ _ |- _ => destruct H as [H|H] | H : (_, _) = _ |- _ => injection H as -> -> end;
    tauto.
Qed.

(** A number with a prefix is read alike under every base, at the latest when
    it is read again without one. *)
Lemma llatob_prefix x b ds base :
  (x, b) ∈ prefixes ->
  Forall (fun d => 0 <= d < b) ds -> 0 <= base <= 16 ->
  let p := ch "0" :: x :: (digit_char <$> ds) in
  let v := Some (num_value b ds mod 2 ^ 64) in
  llatob p 0 = v /\ (llatob p base = v \/ llatob p base = None).
Proof.
  intros Hx Hds Hb. assert (b <= 16) as Hb16.
  { destruct (prefix_cases x b Hx) as [[_ ->]|[[_ ->]|[[_ ->]|[_ ->]]]]; lia. }
  assert (Forall (fun d => 0 <= d < 16) ds) as Hd16 by (by apply (digits_weaken b)).
  assert (_atob (digit_char <$> ds) b = Some (num_value b ds mod 2 ^ 64)) as E.
  { rewrite _atob_number, (forallb_below b ds) by done. done. }
  cbv zeta. destruct (Z.eqb_spec base 0) as [->|Hne].
  { assert (llatob (ch "0" :: x :: (digit_char <$> ds)) 0 = Some (num_value b ds mod 2 ^ 64)) as H; [|auto].
    by destruct (prefix_cases x b Hx) as [[-> ->]|[[-> ->]|[[-> ->]|[-> ->]]]]. }
  split.
  { by destruct (prefix_cases x b Hx) as [[-> ->]|[[-> ->]|[[-> ->]|[-> ->]]]]. }
  unfold llatob. rewrite (proj2 (Z.eqb_neq base 0)) by done.
  destruct (prefix_cases x b Hx) as [[-> ->]|Hx'].
  - left. rewrite <- E. unfold _atob. unfold _atob_body at 1 3. destruct (at_no_x ds 16 1 Hd16) as (Hx1 & HX & _); [done|].
    rewrite (proj2 (Z.eqb_neq _ _) Hx1), (proj2 (Z.eqb_neq _ _) HX), andb_false_r. done.
  - right. assert (~ ch "." ∈ ch "0" :: x :: (digit_char <$> ds)) as Hnd.
    { rewrite !elem_of_cons. intros [?|[?|Hin]]; [done|naive_solver|]. by apply (digits_no_dot ds). }
    assert (atob_loop (ch "0" :: x :: (digit_char <$> ds)) base 0 = None) as Hl.
    { cbn [atob_loop]. change (digit_of (ch "0")) with (Some 0). cbn iota.
      assert (digit_of x = None) as -> by naive_solver. by destruct (base <=? 0). }
    unfold _atob. unfold _atob_body at 1.
    assert ((x =? ch "x") || (x =? ch "X") = false) as Hnx by naive_solver.
    change (at_ (ch "0" :: x :: (digit_char <$> ds)) 1) with x.
    rewrite Hnx, andb_false_r.
    rewrite (proj2 (strchr_None _ _)) by done. by destruct (base =? 16).
Qed.

(** *** Registers *)

Lemma getregadr_name n i : reg_name n i -> getregadr n = Some i.
Proof.
  assert (forallb (fun i => match regs_sw !! Z.to_nat i with
    | Some n => bool_decide (getregadr n = Some i) | None => false end) (seqZ 0 32) = true) as Hs by (vm_compute; reflexivity).
  assert (forallb (fun '(a, b, i) => bool_decide (getregadr a = Some i) && bool_decide (getregadr b = Some i)) reglist = true)
    as Hl by (vm_compute; reflexivity).
  intros [[Hi Hn]|(a & b & Hin & Hab)].
  - assert (0 <= i < 32) as Hr by (apply lookup_lt_Some in Hn; change (length regs_sw) with 32%nat in Hn; lia).
    apply (forallb_range _ 0 32 Hs i) in Hr. rewrite Hn in Hr. by apply bool_decide_eq_true in Hr.
  - rewrite forallb_forall in Hl. apply list_elem_of_In in Hin. specialize (Hl _ Hin). cbn in Hl.
    rewrite andb_true_iff, !bool_decide_eq_true in Hl. destruct Hab as [-> | ->]; tauto.
Qed.

Lemma reg_name_plain n i : reg_name n i -> forallb plain n = true.
Proof.
  assert (forallb (forallb plain) regs_sw = true) as Hs by (vm_compute; reflexivity).
  assert (forallb (fun '(a, b, _) => forallb plain a && forallb plain b) reglist = true)
    as Hl by (vm_compute; reflexivity).
  rewrite forallb_forall in Hs. rewrite forallb_forall in Hl.
  intros [[_ Hn]|(a & b & Hin & Hab)].
  - apply Hs, list_elem_of_In. by eapply list_elem_of_lookup_2.
  - apply list_elem_of_In in Hin. specialize (Hl _ Hin). cbn in Hl. apply andb_true_iff in Hl.
    destruct Hab as [-> | ->]; tauto.
Qed.

(** *** The text is well-formed *)

Lemma digit_char_class d : 0 <= d < 16 ->
  plain (digit_char d) = true /\ isxdigit (digit_char d) = true /\ isdigit (digit_char d) = (d <? 10).
Proof.
  intros Hd. assert (forallb (fun d => plain (digit_char d) && isxdigit (digit_char d) &&
    Bool.eqb (isdigit (digit_char d)) (d <? 10)) (seqZ 0 16) = true) as H by (vm_compute; reflexivity).
  apply (forallb_range _ 0 16 H d) in Hd. rewrite !andb_true_iff, Bool.eqb_true_iff in Hd. tauto.
Qed.

Lemma digits_plain ds : Forall (fun d => 0 <= d < 16) ds -> forallb plain (digit_char <$> ds) = true.
Proof.
  induction 1 as [|d ds Hd _ IH]; [done|]. cbn. rewrite (proj1 (digit_char_class d Hd)). done.
Qed.

Lemma wf_guarded b e : wf (guarded b e) = wf e.
Proof. by destruct b. Qed.

Lemma level_guarded k e : (level (guarded (Nat.ltb k (level e)) e) <= k)%nat.
Proof. destruct (Nat.ltb_spec k (level e)); cbn; lia. Qed.

Lemma wf_atom a : a <> [] -> forallb plain a = true -> at_ a 0 <> ch "^" -> wf (Atom a) = true.
Proof.
  intros Ha Hp Hc%Z.eqb_neq. unfold wf. rewrite Hp, Hc. by destruct a.
Qed.

Lemma digits_atom ds d ds' :
  Forall (fun d => 0 <= d < 16) ds -> ds = d :: ds' ->
  wf (Atom (digit_char <$> ds)) = true /\ isxdigit (at_ (digit_char <$> ds) 0) = true /\
  isdigit (at_ (digit_char <$> ds) 0) = (d <? 10).
Proof.
  intros Hds ->. pose proof (digits_plain _ Hds) as Hp. apply List.Forall_cons_iff in Hds as [Hd _].
  destruct (digit_char_class d Hd) as (_ & Hx & Hg).
  change (at_ (digit_char <$> d :: ds') 0) with (digit_char d). split_and!; [|done|done].
  apply wf_atom; [done|done|]. change (at_ (digit_char <$> d :: ds') 0) with (digit_char d). intros E. by rewrite E in Hx.
Qed.

Lemma text_wf t : term_ok t -> wf (text_of t) = true.
Proof.
  induction t as [ds|x b ds|ds|n i| |n|n|t IH|t IH|o t1 IH1 t2 IH2]; cbn [term_ok text_of]; intros Ht.
  - destruct Ht as [Hds (d & ds' & E & _)]. by apply (digits_atom ds d ds').
  - destruct Ht as [Hx Hds]. apply wf_atom; [done| |done]. cbn [forallb].
    rewrite digits_plain by (apply (digits_weaken b); [destruct (prefix_cases x b Hx); lia|done]).
    by destruct (prefix_cases x b Hx) as [[-> _]|[[-> _]|[[-> _]|[-> _]]]].
  - destruct Ht as [Hds (d & ds' & E & _)]. by apply (digits_atom ds d ds').
  - apply wf_atom; [done| |done]. cbn [forallb]. by rewrite (reg_name_plain n i Ht).
  - done.
  - apply andb_true_iff in Ht as [_ Hp]. apply wf_atom; [done| |done]. cbn [forallb]. by rewrite Hp.
  - destruct Ht as (Hn & _ & Hc). unfold symbol_name in Hn. apply andb_true_iff in Hn as [Hl Hp].
    rewrite !orb_false_iff in Hc. destruct Hc as [[_ Hc] _]. apply Z.eqb_neq in Hc.
    apply wf_atom; [by destruct n|done|done].
  - by apply IH.
  - cbn [wf]. rewrite wf_guarded, (IH Ht). apply Nat.eqb_eq. pose proof (level_guarded 0 (text_of t)). lia.
  - destruct Ht as [Ht1 Ht2]. specialize (IH1 Ht1). specialize (IH2 Ht2).
    pose proof (level_guarded 0 (text_of t2)). pose proof (level_guarded 1 (text_of t2)).
    pose proof (level_guarded 1 (text_of t1)).
    destruct o; cbn [wf]; rewrite ?wf_guarded, IH1, IH2; cbn [andb];
      repeat match goal with H : (?x <= ?y)%nat |- _ => apply Nat.leb_le in H; rewrite ?H end; try done.
    all: replace (Nat.eqb (level (guarded (Nat.ltb 0 (level (text_of t2))) (text_of t2))) 0) with true; [done|].
    all: symmetry; apply Nat.eqb_eq; pose proof (level_guarded 0 (text_of t2)); lia.
Qed.

(** *** The evaluator gives the meaning *)

(** An evaluation gives a value, or fails when there is none. *)
Definition gives (e : rsa * trace) (v : option Z) : Prop :=
  match v with Some v => e.1 = Val v | None => e.1 = Bad end.

Lemma load_word_at big m a : 0 <= a -> u64 (load_word big m (u32 a)) = word_at big m a mod 2 ^ 64.
Proof.
  intros Ha. unfold load_word, word_at. unfold wrapu at 1. f_equal. f_equal.
  cbn [load_bytes]. unfold val_of. unfold wrapu.
  assert (forall i, (a mod 2 ^ 32 + i) mod 2 ^ 32 = (a + i) mod 2 ^ 32) as E by (intros; by rewrite Zplus_mod_idemp_l).
  rewrite <- !Z.add_assoc, !E, Zmod_mod, Z.add_0_r.
  change (1 + 1) with 2. change (1 + 2) with 3.
  destruct big; cbn [rev app]; unfold le_val; cbn [fold_right]; lia.
Qed.

Section Sound.
Context {W : Type} (big : bool) (r : dbgreg) (m : mem) (st : symtab) (en : env (W := W)).
Context (symbol : cstr -> option Z) (base : Z).
(** The table is well-formed and [symbol] gives its symbols; [inbase] holds a
    word of its list, and [inalpha] is [hex]. *)
Hypothesis Htab : tab_ok st.
Hypothesis Hsym : forall n v, n <> [] -> (symbol n = Some v <-> defines st n v).
Hypothesis Hbase : exists w, getenv (str "inbase") en = Some w /\ (w, base) ∈ base_of_word.
Hypothesis Halpha : getenv (str "inalpha") en = Some (str "hex").
#[local] Set Default Proof Using "Type*".
Abbreviation value := (eval big r m st en).
Abbreviation mean := (meaning big r m symbol base).

Lemma sym2adr_symbol n :
  n <> [] -> sym2adr n st = match symbol n with Some v => (v, true) | None => (0, false) end.
Proof.
  intros Hn. destruct (sym2adr_fail st n Htab Hn) as [E|(v & Hv & E)]; rewrite E.
  - destruct (symbol n) as [v|] eqn:Es; [|done]. apply (Hsym n v Hn) in Es.
    apply (sym2adr_defines st n v Htab Hn) in Es. congruence.
  - apply (Hsym n v Hn) in Hv. by rewrite Hv.
Qed.

Lemma inbase_cases :
  (matchenv (str "inbase") en = 2 /\ base = 10) \/ (matchenv (str "inbase") en = 3 /\ base = 16) \/
  (matchenv (str "inbase") en = 1 /\ base = 8) \/ (matchenv (str "inbase") en = 0 /\ base = 10).
Proof.
  destruct Hbase as (w & Hw & Hin). unfold base_of_word in Hin. rewrite !elem_of_cons, elem_of_nil in Hin.
  assert (forall w, getenv (str "inbase") en = Some w ->
    matchenv (str "inbase") en = _matchval (mkStd (str "inbase") (str "16") (Some (str "auto 8 10 16")) None) (Some w)) as E.
  { intros w' E. unfold matchenv. rewrite E. done. }
  rewrite (E w Hw). destruct Hin as [[= -> ->]|[[= -> ->]|[[= -> ->]|[[= -> ->]|[]]]]]; vm_compute; auto 10.
Qed.

Lemma inalpha_hex : matchenv (str "inalpha") en = 0.
Proof. unfold matchenv. rewrite Halpha. by vm_compute. Qed.

Lemma not_digit p : isxdigit (at_ p 0) = true ->
  (at_ p 0 =? ch "@") = false /\ strequ (Some p) (Some (str ".")) = false /\ (at_ p 0 =? ch "&") = false.
Proof.
  intros Hd. split_and!.
  - destruct (Z.eqb_spec (at_ p 0) (ch "@")) as [E|]; [by rewrite E in Hd|done].
  - destruct (strequ (Some p) (Some (str "."))) eqn:E; [apply strequ_spec in E; by rewrite E in Hd|done].
  - destruct (Z.eqb_spec (at_ p 0) (ch "&")) as [E|]; [by rewrite E in Hd|done].
Qed.

Lemma isdigit_isxdigit c : isdigit c = true -> isxdigit c = true.
Proof. unfold isdigit, isxdigit. by intros ->. Qed.

Lemma atom_number p :
  isdigit (at_ p 0) = true ->
  exists b, (b = base \/ (b = 0 /\ base = 10)) /\
    (rsa_atom r st en p).1 =
      match llatob p b with
      | Some v => Val (u64 v)
      | None => match llatob p 0 with Some v => Val (u64 v) | None => Bad end
      end.
Proof.
  intros Hd. destruct (not_digit p (isdigit_isxdigit _ Hd)) as (H1 & H2 & H3).
  unfold rsa_atom. rewrite H1, H2, H3, Hd.
  destruct inbase_cases as [[E1 E2]|[[E1 E2]|[[E1 E2]|[E1 E2]]]]; rewrite E1; cbn [Z.eqb Pos.eqb];
    [exists base|exists base|exists base|exists 0]; rewrite ?E2; (split; [tauto|]);
    destruct (llatob p _) eqn:E; try done; by destruct (llatob p 0).
Qed.

Lemma u64_mod v : u64 (v mod 2 ^ 64) = v mod 2 ^ 64.
Proof. unfold wrapu. by rewrite Zmod_mod. Qed.

Lemma num_gives ds d ds' :
  Forall (fun d => 0 <= d < 16) ds -> ds = d :: ds' -> d < 10 ->
  gives (rsa_atom r st en (digit_char <$> ds)) (mean (TNum ds)).
Proof.
  intros Hds E Hd. destruct (digits_atom ds d ds' Hds E) as (_ & _ & Hg). rewrite (proj2 (Z.ltb_lt d 10) Hd) in Hg.
  assert (base <= 16 /\ base <> 0) as [Hb16 Hb0] by (destruct inbase_cases; lia).
  destruct (atom_number _ Hg) as (b & Hb & Hr). unfold gives. rewrite Hr, (llatob_number ds 0) by done.
  cbn [meaning Z.eqb].
  destruct Hb as [-> |[-> ->]].
  - rewrite llatob_number by done. rewrite (proj2 (Z.eqb_neq base 0)) by done. cbv zeta.
    destruct (forallb (fun d => d <? base) ds); [by rewrite u64_mod|].
    destruct (forallb (fun d => d <? 10) ds); [by rewrite u64_mod|done].
  - rewrite llatob_number by done. cbv zeta. cbn [Z.eqb].
    destruct (forallb (fun d => d <? 10) ds); [by rewrite u64_mod|done].
Qed.

Lemma pre_gives x b ds :
  (x, b) ∈ prefixes -> Forall (fun d => 0 <= d < b) ds ->
  gives (rsa_atom r st en (ch "0" :: x :: (digit_char <$> ds))) (mean (TPre x b ds)).
Proof.
  intros Hx Hds. assert (0 <= base <= 16) as Hb16 by (destruct inbase_cases; lia).
  destruct (atom_number (ch "0" :: x :: (digit_char <$> ds)) eq_refl) as (b' & Hb & Hr).
  destruct (llatob_prefix x b ds b' Hx Hds) as [H0 H]; [lia|].
  unfold gives. cbn [meaning]. rewrite Hr, H0. destruct H as [-> | ->]; by rewrite u64_mod.
Qed.

Lemma hex_gives ds d ds' :
  Forall (fun d => 0 <= d < 16) ds -> ds = d :: ds' -> 10 <= d ->
  gives (rsa_atom r st en (digit_char <$> ds)) (mean (THex ds)).
Proof.
  intros Hds E Hd. destruct (digits_atom ds d ds' Hds E) as (_ & Hx & Hg). rewrite (proj2 (Z.ltb_ge d 10) Hd) in Hg.
  destruct (not_digit _ Hx) as (H1 & H2 & H3). unfold gives. cbn [meaning]. unfold rsa_atom.
  rewrite H1, H2, H3, Hg, Hx, inalpha_hex, llatob_number by done. cbv zeta. cbn [Z.eqb].
  rewrite (forallb_below 16 ds) by done. by rewrite u64_mod.
Qed.

Lemma reg_gives n i : reg_name n i -> gives (rsa_atom r st en (ch "@" :: n)) (mean (TReg n i)).
Proof.
  intros Hn. unfold gives. cbn [meaning]. unfold rsa_atom.
  change (at_ (ch "@" :: n) 0 =? ch "@") with true. change (drop 1 (ch "@" :: n)) with n.
  unfold getreg. by rewrite (getregadr_name n i Hn).
Qed.

Lemma amp_gives n : n <> [] -> gives (rsa_atom r st en (ch "&" :: n)) (mean (TAmp n)).
Proof.
  intros Hn. unfold gives. cbn [meaning]. unfold rsa_atom.
  change (at_ (ch "&" :: n) 0 =? ch "@") with false. change (strequ (Some (ch "&" :: n)) (Some (str "."))) with false.
  change (at_ (ch "&" :: n) 0 =? ch "&") with true. change (drop 1 (ch "&" :: n)) with n.
  rewrite sym2adr_symbol by done. by destruct (symbol n).
Qed.

Lemma name_gives n :
  term_ok (TName n) -> gives (rsa_atom r st en n) (mean (TName n)).
Proof.
  intros (Hn & Hdot & Hc). rewrite !orb_false_iff in Hc. destruct Hc as [[[H1 H2] _] H4].
  assert (n <> []) as Hne by (by destruct n). unfold gives. cbn [meaning]. unfold rsa_atom. rewrite H1, H2, H4.
  assert (isdigit (at_ n 0) = false) as ->.
  { destruct (isdigit (at_ n 0)) eqn:E; [|done]. by rewrite (isdigit_isxdigit _ E) in H4. }
  destruct (strequ (Some n) (Some (str "."))) eqn:E; [by apply strequ_spec in E|].
  rewrite sym2adr_symbol by done. by destruct (symbol n).
Qed.

Lemma value_guarded b e : value (guarded b e) = value e.
Proof. by destruct b. Qed.

Lemma bin_gives o e1 e2 v1 v2 :
  gives e1 v1 -> gives e2 v2 ->
  gives (both_sides (op_char o) e1 e2) (a ← v1; b ← v2; apply_op o a b).
Proof.
  destruct e1 as [e1 t1], e2 as [e2 t2]. intros H1 H2. unfold gives in H1, H2. cbn [fst] in H1, H2.
  destruct v1 as [v1|]; cbn [mbind option_bind]; subst e1; [|done].
  destruct v2 as [v2|]; cbn [mbind option_bind]; subst e2; [|done].
  destruct o; try done. cbn [both_sides]. change (arith (op_char Div) v1 v2) with
    (if v2 =? 0 then (Bad, [Printf "divide by zero\n" []]) else (Val (v1 / v2), []) : rsa * trace).
  cbn [apply_op]. by destruct (v2 =? 0).
Qed.

Lemma apply_op_nonneg o v1 v2 v : 0 <= v1 -> 0 <= v2 -> apply_op o v1 v2 = Some v -> 0 <= v.
Proof.
  intros H1 H2. destruct o; cbn [apply_op]; [intros [= <-]; apply Z.mod_pos_bound; lia..|].
  case_bool; [done|]. intros [= <-]. apply Z.div_pos; lia.
Qed.

Lemma mean_nonneg t v : mean t = Some v -> 0 <= v.
Proof.
  assert (forall x v, Some (x mod 2 ^ 64) = Some v -> 0 <= v) as Hm.
  { intros x v' [= <-]. apply Z.mod_pos_bound. lia. }
  revert v. induction t as [ds|x b ds|ds|n i| |n|n|t IH|t IH|o t1 IH1 t2 IH2]; cbn [meaning]; intros v; eauto.
  - repeat case_match; eauto; done.
  - destruct (symbol n); cbn [mbind option_bind]; [eauto|done].
  - destruct (symbol n); cbn [mbind option_bind]; [eauto|done].
  - destruct (mean t); cbn [mbind option_bind]; [eauto|done].
  - destruct (mean t1) as [v1|]; [|done]. destruct (mean t2) as [v2|]; [|done]. cbn [mbind option_bind].
    apply apply_op_nonneg; eauto.
Qed.

Lemma value_gives t : term_ok t -> gives (value (text_of t)) (mean t).
Proof.
  induction t as [ds|x b ds|ds|n i| |n|n|t IH|t IH|o t1 IH1 t2 IH2]; intros Ht.
  - destruct Ht as [Hds (d & ds' & E & Hd)]. by apply (num_gives ds d ds').
  - destruct Ht as [Hx Hds]. by apply pre_gives.
  - destruct Ht as [Hds (d & ds' & E & Hd)]. by apply (hex_gives ds d ds').
  - by apply reg_gives.
  - done.
  - apply amp_gives. by destruct n.
  - by apply name_gives.
  - by apply IH.
  - cbn [text_of eval meaning term_ok] in *. rewrite value_guarded. specialize (IH Ht).
    destruct (value (text_of t)) as [e tr]. unfold gives in IH. cbn [fst] in IH.
    destruct (mean t) as [v|] eqn:Ev; subst e; [|done]. cbn [mbind option_bind indirect gives fst].
    f_equal. apply load_word_at. by apply (mean_nonneg t).
  - destruct Ht as [Ht1 Ht2]. specialize (IH1 Ht1). specialize (IH2 Ht2).
    cbn [text_of meaning].
    destruct o; cbn [eval]; rewrite ?value_guarded; by apply (bin_gives _ _ _ _ _ IH1 IH2).
Qed.

End Sound.

(** [10-2-(3+@sp)*^0x20] in base 16, where [sp] holds 4 and the word at 0x20
    is 2. *)
Definition w_term : term :=
  TBin Sub (TBin Sub (TNum [1; 0]) (TNum [2]))
    (TBin Mul (TPar (TBin Add (TNum [3]) (TReg (str "sp") 29))) (TInd (TPre (ch "x") 16 [2; 0]))).
Definition w_mem : mem := fun a => if a =? 0x23 then 2 else 0.
Definition w_inenv : env (W := unit) :=
  mkEnv true (w_slots [mkPair (Some (str "inbase")) (Some (str "16"));
                       mkPair (Some (str "inalpha")) (Some (str "hex"))]) w_tun tt [].


(** With [inalpha] set to [symbol], a hexadecimal number that starts with a
    letter and is not a symbol evaluates to 0, whatever it is. *)
Lemma inalpha_symbol_hex {W} big r m st (en : env (W := W)) (p : cstr) (v : Z) :
  matchenv (str "inalpha") en = 1 -> sym2adr p st = (0, false) ->
  isdigit (at_ p 0) = false -> isxdigit (at_ p 0) = true -> wf (Atom p) = true ->
  llatob p 16 = Some v -> (get_rsa big r m st en p).1 = Val 0.
Proof.
  intros Ha Hs Hd Hx Hw Hv. pose proof (run_value big r m st en (Atom p) (S (length p)) Hw) as H.
  cbn [print] in H. unfold get_rsa. rewrite H by lia. cbn [eval]. unfold rsa_atom.
  destruct (Z.eqb_spec (at_ p 0) (ch "@")) as [E|_]; [by rewrite E in Hx|].
  destruct (strequ (Some p) (Some (str "."))) eqn:E; [apply strequ_spec in E; by rewrite E in Hx|].
  destruct (Z.eqb_spec (at_ p 0) (ch "&")) as [E'|_]; [by rewrite E' in Hx|].
  by rewrite Hd, Hx, Ha, Hs, Hv.
Qed.

(** With the same setting, a symbol whose name starts like a hexadecimal number
    is found, but its value is not stored. *)
Lemma inalpha_symbol_unset {W} big r m st (en : env (W := W)) (p : cstr) (adr : Z) :
  matchenv (str "inalpha") en = 1 -> sym2adr p st = (adr, true) ->
  isdigit (at_ p 0) = false -> isxdigit (at_ p 0) = true -> wf (Atom p) = true ->
  (get_rsa big r m st en p).1 = Unset.
Proof.
  intros Ha Hs Hd Hx Hw. pose proof (run_value big r m st en (Atom p) (S (length p)) Hw) as H.
  cbn [print] in H. unfold get_rsa. rewrite H by lia. cbn [eval]. unfold rsa_atom.
  destruct (Z.eqb_spec (at_ p 0) (ch "@")) as [E|_]; [by rewrite E in Hx|].
  destruct (strequ (Some p) (Some (str "."))) eqn:E; [apply strequ_spec in E; by rewrite E in Hx|].
  destruct (Z.eqb_spec (at_ p 0) (ch "&")) as [E'|_]; [by rewrite E' in Hx|].
  by rewrite Hd, Hx, Ha, Hs.
Qed.
