(* ===== verification/Bpt.v ===== *)
(** * Bpt: breakpoints, tracing and the exception handler

    The part of [src/pmon/go.c] that runs the client: the table of user
    breakpoints, the temporary and trace breakpoints, planting them in the
    client's code and taking them out, the choice of the trace breakpoints from
    the instruction at the pc, and [exception], the state machine that decides
    at every trap whether the client goes on, the monitor stops, or the remote
    debugger takes over.

    This file holds the definitions; their theorems are in BptSafe. *)

From S2P Require Import Prelude CString Numconv Ring Memory Mips Tunables Env Symtab Expr Watch.

(** ** The breakpoint table *)

(** [src/pmon/pmon.h:89] *)
Definition MAX_BPT : nat := 64.
(** As an [unsigned long]. [src/pmon/pmon.h:94] *)
Definition NO_BPT : Z := 0xffffffff.
(** [src/pmon/pmon.h:95] *)
Definition BPT_CODE : Z := 0xd.

(** A command string: none, allocated, or already freed. *)
Inductive cmdptr : Type :=
| CNull
| CLive (s : cstr)
| CFreed (s : cstr).

(** [src/pmon/pmon.h:186-192] *)
Record Bps : Type := mkBps { addr : Z; blen : Z; value : Z; wpt : Z; cmdstr : cmdptr }.

Definition set_addr (a : Z) (b : Bps) : Bps := mkBps a (blen b) (value b) (wpt b) (cmdstr b).
Definition set_value (v : Z) (b : Bps) : Bps := mkBps (addr b) (blen b) v (wpt b) (cmdstr b).
Definition set_wpt (w : Z) (b : Bps) : Bps := mkBps (addr b) (blen b) (value b) w (cmdstr b).
Definition set_cmd (c : cmdptr) (b : Bps) : Bps := mkBps (addr b) (blen b) (value b) (wpt b) c.

(** [free (cmdstr)]; the flag tells that the string had been freed before. *)
Definition free_cmd (b : Bps) : Bps * bool :=
  match cmdstr b with
  | CNull => (b, false)
  | CLive s => (set_cmd (CFreed s) b, false)
  | CFreed s => (b, true)
  end.

(** [src/pmon/pmon.h:98-108] *)
Inductive trace_state : Type :=
| TRACE_NO | TRACE_TB | TRACE_TG | TRACE_GB | TRACE_DG
| TRACE_DC | TRACE_DS | TRACE_TN | TRACE_TW | TRACE_DW.

#[export] Instance trace_state_eq_dec : EqDecision trace_state.
Proof. solve_decision. Defined.

(** [src/pmon/pmon.h:194-199] *)
Record Stopentry : Type := mkStop { st_addr : Z; st_value : Z; st_name : cstr; st_sense : Z }.

(** [src/pmon/go.c:36] *)
Definition STOPMAX : nat := 10.

Section Bpt.
Context {D : Type} `{WatchFuncs D} {W : Type}.
(** The byte order, the addresses whose words ignore stores, the monitor's
    memory layout, the environment, the symbols, and the board's name for a
    debug interrupt. *)
Context (big : bool) (rom : Z -> bool) (lay : layout) (en : env (W := W)) (st : symtab)
        (sbddbgintr : Z -> cptr).
#[local] Set Default Proof Using "Type".

(** The globals of [go.c] with the client's registers and memory.
    [src/pmon/go.c:22-44] *)
Record client : Type := mkClient {
  Bpt : list Bps; BptTmp : Bps; BptTrc : Bps; BptTrcb : Bps;
  c_regs : dbgreg; c_mem : mem; c_watch : watch D;
  trace_mode : trace_state; trace_count : Z; trace_verbose : bool; trace_invalid : bool;
  trace_over : bool; trace_bflag : bool; trace_cflag : bool;
  stopval : list Stopentry; c_pchist : pchist; c_out : trace; c_double_free : bool;
  validpc : option (list (Z * Z)) }.

Definition set_mem (m : mem) (c : client) : client :=
  mkClient (Bpt c) (BptTmp c) (BptTrc c) (BptTrcb c) (c_regs c) m (c_watch c)
    (trace_mode c) (trace_count c) (trace_verbose c) (trace_invalid c) (trace_over c) (trace_bflag c)
    (trace_cflag c) (stopval c) (c_pchist c) (c_out c) (c_double_free c) (validpc c).
Definition set_regs (r : dbgreg) (c : client) : client :=
  mkClient (Bpt c) (BptTmp c) (BptTrc c) (BptTrcb c) r (c_mem c) (c_watch c)
    (trace_mode c) (trace_count c) (trace_verbose c) (trace_invalid c) (trace_over c) (trace_bflag c)
    (trace_cflag c) (stopval c) (c_pchist c) (c_out c) (c_double_free c) (validpc c).
Definition set_bpts (l : list Bps) (t u v : Bps) (c : client) : client :=
  mkClient l t u v (c_regs c) (c_mem c) (c_watch c)
    (trace_mode c) (trace_count c) (trace_verbose c) (trace_invalid c) (trace_over c) (trace_bflag c)
    (trace_cflag c) (stopval c) (c_pchist c) (c_out c) (c_double_free c) (validpc c).
Definition set_watch (w : watch D) (c : client) : client :=
  mkClient (Bpt c) (BptTmp c) (BptTrc c) (BptTrcb c) (c_regs c) (c_mem c) w
    (trace_mode c) (trace_count c) (trace_verbose c) (trace_invalid c) (trace_over c) (trace_bflag c)
    (trace_cflag c) (stopval c) (c_pchist c) (c_out c) (c_double_free c) (validpc c).
Definition set_mode (t : trace_state) (n : Z) (c : client) : client :=
  mkClient (Bpt c) (BptTmp c) (BptTrc c) (BptTrcb c) (c_regs c) (c_mem c) (c_watch c)
    t n (trace_verbose c) (trace_invalid c) (trace_over c) (trace_bflag c)
    (trace_cflag c) (stopval c) (c_pchist c) (c_out c) (c_double_free c) (validpc c).
Definition set_log (h : pchist) (o : trace) (f : bool) (c : client) : client :=
  mkClient (Bpt c) (BptTmp c) (BptTrc c) (BptTrcb c) (c_regs c) (c_mem c) (c_watch c)
    (trace_mode c) (trace_count c) (trace_verbose c) (trace_invalid c) (trace_over c) (trace_bflag c)
    (trace_cflag c) (stopval c) h o f (validpc c).
Definition set_validpc (v : option (list (Z * Z))) (c : client) : client :=
  mkClient (Bpt c) (BptTmp c) (BptTrc c) (BptTrcb c) (c_regs c) (c_mem c) (c_watch c)
    (trace_mode c) (trace_count c) (trace_verbose c) (trace_invalid c) (trace_over c) (trace_bflag c)
    (trace_cflag c) (stopval c) (c_pchist c) (c_out c) (c_double_free c) v.

Definition say (o : trace) (c : client) : client := set_log (c_pchist c) (c_out c ++ o) (c_double_free c) c.
Definition freed (f : bool) (c : client) : client := set_log (c_pchist c) (c_out c) (c_double_free c || f) c.
Definition set_Bpt (l : list Bps) (c : client) : client := set_bpts l (BptTmp c) (BptTrc c) (BptTrcb c) c.
Definition set_trc (u v : Bps) (c : client) : client := set_bpts (Bpt c) (BptTmp c) u v c.

(** The registers. [src/pmon/pmon.h:387-392] *)
Definition Epc (c : client) : Z := u32 (c_regs c 40).
Definition Cause (c : client) : Z := u32 (c_regs c 39).
Definition Status (c : client) : Z := u32 (c_regs c 38).
Definition saved (c : client) : regs := mkRegs (c_regs c 40) (c_regs c 39) (c_regs c).

(** A store to read-only memory is lost. *)
Definition wr (m : mem) (a v : Z) : mem := if rom (u32 a) then m else store_word big m a v.

(** ** The user's table *)

Definition same_bpt (w a n : Z) (b : Bps) : bool := (addr b =? a) && (blen b =? n) && (wpt b =? w).

(** [src/pmon/go.c:349-369] *)
Definition clrbpt (w a n : Z) (c : client) : bool * client :=
  match list_find (fun b => same_bpt w a n b = true) (Bpt c) with
  | Some (j, b) =>
      let c := if w =? 0 then c else set_watch (watchpoint_clear w (-1) a n (c_watch c)).2 c in
      let '(b, f) := free_cmd (set_addr NO_BPT b) in
      (true, freed f (set_Bpt (<[j := b]> (Bpt c)) c))
  | None => (false, c)
  end.

Definition wp_message (r : wp_result) : trace :=
  [Printf (match r with
           | WP_NONE => "h/w watchpoints not available\n"
           | WP_NOTSUP => "cannot handle this watchpoint type\n"
           | WP_INUSE => "out of h/w watchpoint resources\n"
           | WP_OVERLAP => "watchpoint overlaps PMON memory\n"
           | WP_BADADDR => "unsupported watchpoint virtual address\n"
           | _ => "internal watchpoint problem\n"
           end) []].

(** The slot found, if the breakpoint was set. [src/pmon/go.c:405-454] *)
Definition setbpt (w a n : Z) (c : client) : option nat * client :=
  let '(_, c) := clrbpt w a n c in
  match list_find (fun b => addr b = NO_BPT) (Bpt c) with
  | None => (None, c)
  | Some (j, b) =>
      let '(res, c) :=
        if w =? 0 then (WP_OK, c)
        else let '(res, ws) := watchpoint_set lay w (-1) a 0 n (c_watch c) in (res, set_watch ws c) in
      if bool_decide (res = WP_OK)
      then (Some j, set_Bpt (<[j := mkBps a n (value b) w (cmdstr b)]> (Bpt c)) c)
      else (None, say (wp_message res) c)
  end.

Definition clear_one (i : nat) (c : client) : client :=
  match Bpt c !! i with
  | None => c
  | Some b =>
      let c := if negb (addr b =? NO_BPT) && negb (wpt b =? 0)
               then set_watch (watchpoint_clear (wpt b) (-1) (addr b) (blen b) (c_watch c)).2 c else c in
      let '(b, f) := free_cmd (set_wpt 0 (set_addr NO_BPT b)) in
      freed f (set_Bpt (<[i := b]> (Bpt c)) c)
  end.

(** [src/pmon/go.c:693-706] *)
Definition clrbpts (c : client) : client := fold_left (fun c i => clear_one i c) (seq 0 MAX_BPT) c.

(** One argument of the [db] command: whether the command goes on. [None]: a
    negative number, which makes the code index before the table.
    [src/pmon/go.c:641-664] *)
Definition clrbp_arg (a : cstr) (c : client) : option (bool * client) :=
  if strequ (Some a) (Some (str "*")) then Some (true, clrbpts c)
  else
    match atob a 10 with
    | None => Some (false, say [Printf "%s: decimal number expected\n" [AStr (Some a)]] c)
    | Some i =>
        if s32 i <? 0 then None
        else if Z.of_nat MAX_BPT <=? s32 i
        then Some (true, say [Printf "%d: breakpoint number too large\n" [AInt i]] c)
        else
          b ← Bpt c !! Z.to_nat (s32 i);
          if addr b =? NO_BPT then Some (true, say [Printf "Bpt %2d not set\n" [AInt i]] c)
          else
            let '(b, c) :=
              if wpt b =? 0 then (b, c)
              else (set_wpt 0 b,
                    set_watch (watchpoint_clear (wpt b) (-1) (addr b) (blen b) (c_watch c)).2 c) in
            let '(b, f) := free_cmd (set_addr NO_BPT b) in
            Some (true, freed f (set_Bpt (<[Z.to_nat (s32 i) := b]> (Bpt c)) c))
    end.

Fixpoint clrbp_args (av : list cstr) (c : client) : option (Z * client) :=
  match av with
  | [] => Some (0, c)
  | a :: av' => '(ok, c) ← clrbp_arg a c; if (ok : bool) then clrbp_args av' c else Some (-1, c)
  end.

(** The [db] command with arguments. [src/pmon/go.c:633-669] *)
Definition clrbp (av : list cstr) (c : client) : option (Z * client) := clrbp_args (drop 1 av) c.

(** [src/pmon/go.c:324-346] *)
Definition addstop (a v : Z) (name : cstr) (sense : Z) (c : client) : bool * client :=
  match list_find (fun s => st_addr s = 0) (stopval c) with
  | None => (false, say [Printf "stopval table full\n" []] c)
  | Some (i, _) =>
      let s := mkStop a v name (if (sense =? ch "M") || (sense =? ch "R") then 1 else 0) in
      (true, mkClient (Bpt c) (BptTmp c) (BptTrc c) (BptTrcb c) (c_regs c) (c_mem c) (c_watch c)
        (trace_mode c) (trace_count c) (trace_verbose c) (trace_invalid c) (trace_over c) (trace_bflag c)
        (trace_cflag c) (<[i := s]> (stopval c)) (c_pchist c) (c_out c) (c_double_free c) (validpc c))
  end.

(** ** Planting and removing *)

(** Planting one breakpoint in memory. *)
Definition plant1 (b : Bps) (m : mem) : Bps * mem :=
  (set_value (u32 (load_word big m (addr b))) b, wr m (addr b) BPT_CODE).

(** Taking one out, if the memory still holds the break instruction. *)
Definition unplant1 (b : Bps) (m : mem) : mem :=
  if load_word big m (addr b) =? BPT_CODE then wr m (addr b) (value b) else m.

Definition is_set (b : Bps) : bool := negb (addr b =? NO_BPT).
Definition is_soft (b : Bps) : bool := is_set b && (wpt b =? 0).

Fixpoint plant_all (l : list Bps) (m : mem) : list Bps * mem :=
  match l with
  | [] => ([], m)
  | b :: l' =>
      let '(b, m) := if is_soft b then plant1 b m else (b, m) in
      let '(l', m) := plant_all l' m in (b :: l', m)
  end.

Fixpoint unplant_all (l : list Bps) (m : mem) : mem :=
  match l with
  | [] => m
  | b :: l' => unplant_all l' (if is_soft b then unplant1 b m else m)
  end.

Definition plant_opt (b : Bps) (m : mem) : Bps * mem := if is_set b then plant1 b m else (b, m).
Definition unplant_opt (b : Bps) (m : mem) : mem := if is_set b then unplant1 b m else m.

(** [src/pmon/go.c:1095-1105] *)
Definition store_trace_breakpoint (c : client) : client :=
  let '(u, m) := plant_opt (BptTrc c) (c_mem c) in
  let '(v, m) := plant_opt (BptTrcb c) m in
  set_mem m (set_trc u v c).

(** [src/pmon/go.c:1107-1115] *)
Definition remove_trace_breakpoint (c : client) : client :=
  let m := unplant_opt (BptTrc c) (c_mem c) in
  let m := unplant_opt (BptTrcb c) m in
  set_mem m (set_trc (set_addr NO_BPT (BptTrc c)) (set_addr NO_BPT (BptTrcb c)) c).

(** [src/pmon/go.c:674-688] *)
Definition rm_bpts (c : client) : client :=
  let m := unplant_opt (BptTmp c) (c_mem c) in
  let m := unplant_all (Bpt c) m in
  remove_trace_breakpoint
    (set_mem m (set_bpts (Bpt c) (set_addr NO_BPT (BptTmp c)) (BptTrc c) (BptTrcb c) c)).

(** The start of [main], which [stop] calls after the command.
    [src/pmon/main.c:91] *)
Definition main_start (c : client) : client := rm_bpts c.

Definition cancel (b : bool) (x : Bps) : Bps := if b then set_addr NO_BPT x else x.
Definition in_table (l : list Bps) (x : Bps) : bool := existsb (fun b => addr x =? addr b) l.

(** [src/pmon/go.c:1062-1090] *)
Definition store_breakpoint (c : client) : client :=
  let t := cancel (in_table (Bpt c) (BptTmp c)) (BptTmp c) in
  let u := cancel (in_table (Bpt c) (BptTrc c)) (BptTrc c) in
  let v := cancel (in_table (Bpt c) (BptTrcb c)) (BptTrcb c) in
  let u := cancel (addr u =? addr t) u in
  let v := cancel ((addr v =? addr t) || (addr v =? addr u)) v in
  let '(l, m) := plant_all (Bpt c) (c_mem c) in
  let '(t, m) := plant_opt t m in
  let c := store_trace_breakpoint (set_mem m (set_bpts l t u v c)) in
  set_watch (watchpoint_insert (c_watch c)) c.

(** [src/pmon/go.c:1120-1132] *)
Definition is_break_point (a : Z) (c : client) : bool :=
  existsb (fun b => (addr b =? a) && (wpt b =? 0)) (Bpt c) || (addr (BptTmp c) =? a).

(** ** The valid program counters *)

Fixpoint validpc_pairs (ws : list cstr) (c : client) : list (Z * Z) :=
  match ws with
  | a :: b :: ws' =>
      match (get_rsa big (c_regs c) (c_mem c) st en a).1, (get_rsa big (c_regs c) (c_mem c) st en b).1 with
      | Val lo, Val hi => (lo, hi) :: validpc_pairs ws' c
      | _, _ => validpc_pairs ws' c
      end
  | _ => []
  end.

(** The ranges of the [validpc] variable; a range with a bad end is left out.
    [chg_validpc] makes sure that the number of words is even.
    [src/pmon/go.c:1162-1179] *)
Definition compute_validpc (c : client) : list (Z * Z) :=
  validpc_pairs (argvize (strcpy (getenv (str "validpc") en))) c.

(** The ranges are computed at the first use after a change of the variable or
    of the symbols, and kept ([nvalidpc]). [src/pmon/go.c:1185-1202] *)
Definition is_validpc (a : Z) (c : client) : bool * client :=
  if negb (Z.land a 3 =? 0) || (a <? K0BASE) || (K2BASE <=? a) then (false, c)
  else
    let l := match validpc c with Some l => l | None => compute_validpc c end in
    (existsb (fun '(lo, hi) => (lo <=? a) && (a <? hi)) l, set_validpc (Some l) c).

(** ** Single stepping *)

(** [src/pmon/go.c:1246-1276] *)
Definition setTrcbp (a : Z) (stepover : bool) (c : client) : client :=
  let u := set_addr NO_BPT (BptTrc c) in
  let v := set_addr NO_BPT (BptTrcb c) in
  let m := c_mem c in
  if is_branch big m a then
    let target := u32 (branch_target_address big (c_regs c) m a) in
    let target := if target =? a then u32 (a + 8) else target in
    let u := if is_conditional_branch big m a && negb (target =? u32 (a + 8))
             then set_addr (u32 (a + 8)) u else u in
    if is_jal big m a && stepover then set_trc (set_addr (u32 (a + 8)) u) v c
    else if is_jr big m a then
      let '(ok, m) := is_writeable big wr m target in
      if ok then set_mem m (set_trc u (set_addr target v) c)
      else set_mem m (set_trc (set_addr (u32 (c_regs c 31)) u) v c)
    else set_trc u (set_addr target v) c
  else set_trc (set_addr (u32 (a + 4)) u) v c.

(** Resuming the client; the processor then runs it until the next trap. The
    [cont] command passes [true]. [src/pmon/go.c:711-727] *)
Definition goclient (cont : bool) (c : client) : client :=
  if cont || is_break_point (Epc c) c then
    let c := setTrcbp (Epc c) false c in
    store_trace_breakpoint (set_mode TRACE_TG (trace_count c) c)
  else store_breakpoint (set_mode TRACE_GB (trace_count c) c).

(** [src/pmon/go.c:733-742] *)
Definition godebug (c : client) : client := store_breakpoint (set_mode TRACE_DC (trace_count c) c).

(** [src/pmon/go.c:747-755] *)
Definition sstep (c : client) : client :=
  let c := setTrcbp (Epc c) false c in
  store_trace_breakpoint (set_mode TRACE_DS (trace_count c) c).

(** The end of the [t] command, once its options are read.
    [src/pmon/go.c:310-318] *)
Definition trace_start (multi : bool) (c : client) : client :=
  let c := setTrcbp (Epc c) (trace_over c) c in
  let c := set_log (clrpchist (c_pchist c)) (c_out c) (c_double_free c) c in
  store_trace_breakpoint (set_mode (if multi then TRACE_TN else TRACE_TB) (trace_count c) c).

(** ** The exception handler *)

(** What a trap ends in: the client resumes, the monitor stops and executes a
    command ([None]: the [brkcmd] variable), or the remote debugger is
    entered. *)
Inductive outcome : Type :=
| Go
| Stop (cmd : option cmdptr)
| Dbg.

Definition CEXC_INT : Z := 0.
Definition CEXC_BP : Z := 9 * 4.

(** The hardware breakpoint that explains the hit. [src/pmon/go.c:927-946] *)
Definition hw_bpt (hit hitaddr hitlen : Z) (c : client) : option (nat * Bps) :=
  let phys := Z.land hit WP_VADDR =? 0 in
  let adj a := if phys then KVA_TO_PA a else a in
  list_find (fun b => negb (Z.land (wpt b) hit =? 0) &&
    (adj (addr b) <? u32 (adj hitaddr + hitlen)) && (adj hitaddr <? u32 (adj (addr b) + blen b)) = true) (Bpt c).

(** The software breakpoint at an address. *)
Definition soft_at (a : Z) (c : client) : option (nat * Bps) :=
  list_find (fun b => (addr b =? a) && (wpt b =? 0) = true) (Bpt c).

(** [stop]: the trace mode is reset; the command is executed by the caller.
    [src/pmon/go.c:1043-1057] *)
Definition stop (cmd : option cmdptr) (c : client) : outcome * client :=
  (Stop cmd, set_mode TRACE_NO (trace_count c) c).

Definition stop_met (m : mem) (s : Stopentry) : bool :=
  negb (st_addr s =? 0) &&
  (((st_sense s =? 0) && (u32 (load_word big m (st_addr s)) =? st_value s)) ||
   ((st_sense s =? 1) && negb (u32 (load_word big m (st_addr s)) =? st_value s))).

Definition stop_message (s : Stopentry) : trace :=
  let p := AStr (Some (if st_sense s =? 0 then str " == " else str " != ")) in
  if strequ (Some (st_name s)) (Some (str "MEMORY"))
  then [Printf "\r\nStopped: 0x%08x%s0x%08x\r\n" [AInt (st_addr s); p; AInt (st_value s)]]
  else [Printf "\r\nStopped: %s%s0x%08x\r\n" [AStr (Some (st_name s)); p; AInt (st_value s)]].

(** The end of a step of a multiple trace: the pc is recorded, and the next step
    is set up. The lines of the disassembler are left out.
    [src/pmon/go.c:1000-1031] *)
Definition trace_next (c : client) : outcome * client :=
  let pc := Epc c in
  let flag := if trace_bflag c || trace_cflag c
              then (trace_bflag c && is_branch big (c_mem c) pc) || (trace_cflag c && is_jal big (c_mem c) pc)
              else true in
  let c := if flag then set_log (addpchist pc (c_pchist c)) (c_out c) (c_double_free c) c else c in
  let n := if trace_count c =? 0 then 0 else trace_count c - 1 in
  let c := set_mode (if n =? 1 then TRACE_TB else trace_mode c) n c in
  (Go, store_trace_breakpoint (setTrcbp pc (trace_over c) c)).

(** A step of a multiple trace. [src/pmon/go.c:963-1032] *)
Definition trace_step (hit : Z) (c : client) : outcome * client :=
  match soft_at (Epc c) c with
  | Some (i, b) => stop (Some (cmdstr b)) (say [Printf "\r\nStopped at Bpt %d\r\n" [AInt (Z.of_nat i)]] c)
  | None =>
      if negb (hit =? 0) then
        stop None (say [Printf "\r\nStopped by %sH/w Bpt\r\n"
          [AStr (Some (if Z.land hit WP_INEXACT =? 0 then [] else str "Inexact "))]] c)
      else
        let '(ok, c) := if trace_invalid c then is_validpc (Epc c) c else (true, c) in
        if negb ok then stop None (say [Printf "\r\nStopped: Invalid PC value\r\n" []] c)
        else
          match List.find (stop_met (c_mem c)) (stopval c) with
          | Some s => stop None (say (stop_message s) c)
          | None => trace_next c
          end
  end.

(** Going on to a breakpoint. [src/pmon/go.c:926-957] *)
Definition go_break (hit hitaddr hitlen : Z) (c : client) : outcome * client :=
  let '(b, msg) :=
    if negb (hit =? 0) then
      match hw_bpt hit hitaddr hitlen c with
      | Some (i, b) => (Some b, [Printf "\r\nStopped at H/w Bpt %d (addr %x)\r\n" [AInt (Z.of_nat i); AInt hitaddr]])
      | None => (None, [Printf "\r\nStopped by unknown H/w Bpt (addr %x)\n" [AInt hitaddr]])
      end
    else
      match soft_at (Epc c) c with
      | Some (i, b) => (Some b, [Printf "\r\nStopped at Bpt %d\n" [AInt (Z.of_nat i)]])
      | None => (None, [])
      end in
  stop (cmdstr <$> b) (rm_bpts (say msg c)).

(** What follows the treatment of watchpoints. [src/pmon/go.c:907-1037] *)
Definition dispatch (exc hit hitaddr hitlen : Z) (intr : cptr) (c : client) : outcome * client :=
  match trace_mode c with
  | TRACE_DC | TRACE_DS => (Dbg, rm_bpts c)
  | _ =>
      if negb (exc =? CEXC_BP) && (hit =? 0) then
        stop None (match intr with
          | None => say [Printf "\r\nException Cause=%s (%08x)\r\n" [AInt exc; AInt (Cause c)]] c
          | Some _ => c
          end)
      else
        match trace_mode c with
        | TRACE_NO =>
            stop None (say (if hit =? 0 then [Printf "\r\nUnexpected Breakpoint\r\n" []]
              else [Printf "\r\nUnexpected H/w Breakpoint (addr %x)\r\n" [AInt hitaddr]]) c)
        | TRACE_GB => go_break hit hitaddr hitlen c
        | TRACE_TB => stop None (remove_trace_breakpoint c)
        | TRACE_TN => trace_step hit (remove_trace_breakpoint c)
        | mode =>
            let c := remove_trace_breakpoint c in
            let mode := match mode with TRACE_DG => TRACE_DC | _ => TRACE_GB end in
            (Go, store_breakpoint (set_mode mode (trace_count c) c))
        end
  end.

(** [src/pmon/go.c:854-1038] *)
Definition exception (c : client) : outcome * client :=
  let exc := Z.land (Cause c) 0x7c in
  let intr := if exc =? CEXC_INT then sbddbgintr (Z.land (Cause c) (Status c)) else None in
  let c := match intr with Some p => say [Printf "\r\n%s Interrupt\r\n" [AStr (Some p)]] c | None => c end in
  let c := set_watch (watchpoint_remove (c_watch c)) c in
  let '(hit, hitaddr, hitlen) := watchpoint_hit big (c_watch c) (saved c) (c_mem c) in
  let inexact := negb (Z.land hit WP_INEXACT =? 0) in
  match trace_mode c, inexact with
  | TRACE_DC, true | TRACE_GB, true =>
      let mode := match trace_mode c with TRACE_DC => TRACE_DW | _ => TRACE_TW end in
      let c := setTrcbp (Epc c) false c in
      (Go, store_trace_breakpoint (set_mode mode (trace_count c) c))
  | TRACE_DW, _ | TRACE_TW, _ =>
      let mode := match trace_mode c with TRACE_DW => TRACE_DC | _ => TRACE_GB end in
      let c := remove_trace_breakpoint (set_mode mode (trace_count c) c) in
      if (exc =? CEXC_BP) && negb (is_break_point (Epc c) c)
      then (Go, set_watch (watchpoint_insert (c_watch c)) c)
      else dispatch exc hit hitaddr hitlen intr c
  | _, _ => dispatch exc hit hitaddr hitlen intr c
  end.
End Bpt.
