(* ===== verification/BptSafe.v ===== *)
(** * BptSafe: the client's code under breakpoints

    The theorems about Bpt. The central notion is [restorable l m m0]: taking
    the breakpoints of [l] out of the memory [m] gives [m0]. The runs of the
    client are the relation [reach], whose steps are the client's own stores and
    the traps; it pairs the state of the monitor with the memory as the client
    sees it. *)

From S2P Require Import Prelude CString Ring Memory Mips Env Symtab Expr Watch Bpt.

Section Restore.
Context (big : bool) (rom : Z -> bool).
#[local] Set Default Proof Using "Type".
Abbreviation wd := (word big).
Abbreviation wr := (wr big rom).
Abbreviation plant1 := (plant1 big rom).
Abbreviation unplant1 := (unplant1 big rom).

Lemma wr_eq m a v : aligned a -> wd (wr m a v) a = if rom a then wd m a else u32 v.
Proof.
  intros Ha. unfold wr. rewrite (u32_small a) by apply Ha. destruct (rom a); [done|]. by apply word_store_eq.
Qed.

Lemma wr_ne m a b v : aligned a -> aligned b -> a <> b -> wd (wr m a v) b = wd m b.
Proof. intros Ha Hb Hn. unfold wr. destruct (rom (u32 a)); [done|]. by apply word_store_ne. Qed.

Lemma wr_ok m a v : mem_ok m -> mem_ok (wr m a v).
Proof.
  intros Hm. unfold wr. destruct (rom (u32 a)); [done|]. apply store_bytes_mem_ok; [done|apply bytes_of_ok].
Qed.

Lemma wr_outside m a v x : ~ 0 <= x < 2 ^ 32 -> wr m a v x = m x.
Proof.
  intros Hx. unfold wr. destruct (rom (u32 a)); [done|]. unfold store_word.
  apply store_bytes_outside. intros i Hi ->. apply Hx, u32_range.
Qed.

#[local] Instance wr_proper : Proper (mem_eq ==> eq ==> eq ==> mem_eq) wr.
Proof. intros m1 m2 Hm a ? <- v ? <-. unfold wr. destruct (rom (u32 a)); [done|]. by rewrite Hm. Qed.

(** The first breakpoint of a list at an address. *)
Definition first_at (a : Z) (l : list Bps) : option Bps := List.find (fun b => addr b =? a) l.

Lemma first_at_addr a l e : first_at a l = Some e -> addr e = a /\ e ∈ l.
Proof. intros [Hi Ha]%find_some. split; [by apply Z.eqb_eq|by apply list_elem_of_In]. Qed.

Lemma first_at_app a l1 l2 :
  first_at a (l1 ++ l2) = match first_at a l1 with Some e => Some e | None => first_at a l2 end.
Proof. unfold first_at. induction l1 as [|b l1 IH]; [done|]. cbn. by destruct (addr b =? a). Qed.

Lemma first_at_none a l : first_at a l = None <-> (forall e, e ∈ l -> addr e <> a).
Proof.
  unfold first_at. split.
  - intros Hf e He Ea. apply list_elem_of_In in He. pose proof (find_none _ _ Hf e He) as H.
    cbn in H. apply Z.eqb_neq in H. done.
  - intros Hn. induction l as [|b l IH]; [done|]. cbn. rewrite (proj2 (Z.eqb_neq (addr b) a)).
    + apply IH. intros e He. apply Hn. by apply list_elem_of_further.
    + apply Hn, list_elem_of_here.
Qed.

(** At every address, the memory holds either the original word, or the break
    instruction with the original word kept by the first breakpoint there. *)
Record restorable (l : list Bps) (m m0 : mem) : Prop := {
  rs_ok : mem_ok m;
  rs_ok0 : mem_ok m0;
  rs_outside : forall x, ~ 0 <= x < 2 ^ 32 -> m x = m0 x;
  rs_kept : forall e, e ∈ l -> wd m0 (addr e) = BPT_CODE -> u32 (value e) = BPT_CODE;
  rs_word : forall a, aligned a ->
    wd m a = wd m0 a \/
    (rom a = false /\ wd m a = BPT_CODE /\
     exists e, first_at a l = Some e /\ u32 (value e) = wd m0 a)
}.

Definition all_aligned (l : list Bps) : Prop := forall e, e ∈ l -> aligned (addr e).

Definition unplant_list (l : list Bps) (m : mem) : mem := fold_left (fun m b => unplant1 b m) l m.

Fixpoint plant_list (l : list Bps) (m : mem) : list Bps * mem :=
  match l with
  | [] => ([], m)
  | b :: l' => let '(b, m) := plant1 b m in let '(l', m) := plant_list l' m in (b :: l', m)
  end.

Lemma load_is_break m a : (load_word big m a =? BPT_CODE) = (wd m a =? BPT_CODE).
Proof.
  unfold word. pose proof (s32_range (val_of big (load_bytes m a 4))) as Hr.
  change (load_word big m a) with (s32 (val_of big (load_bytes m a 4))).
  set (x := s32 _) in *. unfold BPT_CODE. apply eq_true_iff_eq. rewrite !Z.eqb_eq. split.
  - intros ->. done.
  - unfold u32, wrapu. intros E. destruct (Z.leb_spec 0 x).
    + rewrite Z.mod_small in E by lia. done.
    + rewrite <- (Z.mod_unique x (2 ^ 32) (-1) (x + 2 ^ 32)) in E by lia. lia.
Qed.

Lemma restorable_nil m m0 : restorable [] m m0 -> m =m= m0.
Proof.
  intros [H1 H2 H3 _ H5]. apply (words_mem_eq big); [done|done| |done].
  intros a Ha. destruct (H5 a Ha) as [E|(_ & _ & e & He & _)]; [done|done].
Qed.

Lemma restorable_proper l m m' m0 : m =m= m' -> restorable l m m0 -> restorable l m' m0.
Proof.
  intros E [H1 H2 H3 H4 H5]. split; [|done| |done|].
  - intros x. rewrite <- (E x). apply H1.
  - intros x Hx. rewrite <- (E x). by apply H3.
  - intros a Ha. rewrite <- !E. by apply H5.
Qed.

Lemma restorable_clean m : mem_ok m -> restorable [] m m.
Proof. intros Hm. split; [done|done|done|by intros e ?%elem_of_nil|by left]. Qed.

(** Taking out the first breakpoint. *)
Lemma restorable_unplant b l m m0 :
  aligned (addr b) -> all_aligned l -> restorable (b :: l) m m0 -> restorable l (unplant1 b m) m0.
Proof.
  intros Hb Hl [H1 H2 H3 H4 H5]. unfold unplant1. rewrite load_is_break.
  assert (forall a, aligned a -> a <> addr b -> wd m a = wd m0 a \/ (rom a = false /\ wd m a = BPT_CODE /\
     exists e, first_at a l = Some e /\ u32 (value e) = wd m0 a)) as Hother.
  { intros a Ha Hne. destruct (H5 a Ha) as [E|(R & E & e & Hf & Hv)]; [by left|right].
    split; [done|]. split; [done|]. exists e. split; [|done]. cbn in Hf.
    by rewrite (proj2 (Z.eqb_neq (addr b) a)) in Hf by congruence. }
  destruct (Z.eqb_spec (wd m (addr b)) BPT_CODE) as [Eb|Eb].
  - split; [by apply wr_ok|done|intros x Hx; rewrite wr_outside by done; by apply H3| |].
    + intros e He. apply H4. by apply list_elem_of_further.
    + intros a Ha. destruct (decide (a = addr b)) as [->|Hne].
      * left. rewrite wr_eq by done.
        destruct (H5 _ Hb) as [E|(R & E & e & Hf & Hv)].
        -- destruct (rom (addr b)); [done|]. rewrite <- E, Eb. apply H4; [apply list_elem_of_here|congruence].
        -- rewrite R. cbn in Hf. rewrite Z.eqb_refl in Hf. by injection Hf as <-.
      * rewrite wr_ne by (done || congruence). by apply Hother.
  - split; [done|done|done| |].
    + intros e He. apply H4. by apply list_elem_of_further.
    + intros a Ha. destruct (decide (a = addr b)) as [->|Hne]; [|by apply Hother].
      left. destruct (H5 _ Hb) as [E|(_ & E & _)]; [done|done].
Qed.

Lemma unplant_restores l m m0 : all_aligned l -> restorable l m m0 -> unplant_list l m =m= m0.
Proof.
  revert m. induction l as [|b l IH]; intros m Hl Hr; [by apply restorable_nil|].
  cbn. apply IH.
  - intros e He. apply Hl. by apply list_elem_of_further.
  - apply restorable_unplant; [apply Hl, list_elem_of_here| |done].
    intros e He. apply Hl. by apply list_elem_of_further.
Qed.

Lemma plant_list_addr l m : addr <$> (plant_list l m).1 = addr <$> l.
Proof.
  revert m. induction l as [|b l IH]; intros m; [done|]. cbn [plant_list plant1].
  specialize (IH (wr m (addr b) BPT_CODE)).
  destruct (plant_list l _) as [l' m']. cbn in *. by rewrite IH.
Qed.

(** Planting keeps the original word with each breakpoint. *)
Lemma plant_restorable l m :
  all_aligned l -> mem_ok m -> restorable (plant_list l m).1 (plant_list l m).2 m.
Proof.
  revert m. induction l as [|b l IH]; intros m Hl Hm; [by apply restorable_clean|].
  assert (aligned (addr b)) as Hb by (apply Hl, list_elem_of_here).
  cbn [plant_list Bpt.plant1]. set (m1 := wr m (addr b) BPT_CODE).
  assert (mem_ok m1) as Hm1 by by apply wr_ok.
  destruct (plant_list l m1) as [l' m2] eqn:E. cbn [fst snd].
  assert (restorable l' m2 m1) as [H1 H2 H3 H4 H5].
  { specialize (IH m1). rewrite E in IH. apply IH; [|done].
    intros e He. apply Hl. by apply list_elem_of_further. }
  assert (forall a, aligned a -> a <> addr b -> wd m1 a = wd m a) as Hne
    by (intros a Ha Hn; unfold m1; by apply wr_ne).
  assert (all_aligned l') as Hl'.
  { intros e He. apply (list_elem_of_fmap_2 addr) in He.
    pose proof (plant_list_addr l m1) as Ea. rewrite E in Ea. cbn in Ea. rewrite Ea in He.
    apply list_elem_of_fmap in He as (e0 & -> & He). apply Hl. by apply list_elem_of_further. }
  split; [done|done| | |].
  - intros x Hx. rewrite H3 by done. unfold m1. by apply wr_outside.
  - intros e He Hk. apply elem_of_cons in He as [->|He].
    + cbn [value set_value addr] in *. fold (wd m (addr b)). rewrite Hk. done.
    + apply H4; [done|]. destruct (decide (addr e = addr b)) as [Ee|Ee].
      * rewrite Ee in *. unfold m1. rewrite wr_eq by done. by destruct (rom (addr b)).
      * rewrite Hne; [done|by apply Hl'|done].
  - intros a Ha. destruct (decide (a = addr b)) as [->|Hn].
    + destruct (rom (addr b)) eqn:R.
      * left. destruct (H5 _ Hb) as [Ee|(R' & _)]; [|congruence].
        rewrite Ee. unfold m1. by rewrite wr_eq, R by done.
      * right. split; [done|]. split.
        -- assert (wd m1 (addr b) = BPT_CODE) as E1 by (unfold m1; by rewrite wr_eq, R by done).
           destruct (H5 _ Hb) as [Ee|(_ & Ee & _)]; congruence.
        -- exists (set_value (u32 (load_word big m (addr b))) b). cbn. rewrite Z.eqb_refl. split; [done|].
           unfold word. by rewrite (u32_small (u32 _)) by apply u32_range.
    + rewrite <- (Hne a) by done. destruct (H5 a Ha) as [Ee|(R & Eb & e & Hf & Hv)]; [by left|right].
      split; [done|]. split; [done|]. exists e. split; [|done]. cbn.
      by rewrite (proj2 (Z.eqb_neq (addr b) a)) by congruence.
Qed.

(** A breakpoint whose address is not among those before it can come first. *)
Lemma restorable_front l1 t l2 m m0 :
  (forall e, e ∈ l1 -> addr e <> addr t) -> restorable (l1 ++ t :: l2) m m0 -> restorable (t :: l1 ++ l2) m m0.
Proof.
  intros Hn [H1 H2 H3 H4 H5]. split; [done|done|done| |].
  - intros e He. apply H4. rewrite elem_of_app, !elem_of_cons, elem_of_app in *. tauto.
  - intros a Ha. destruct (H5 a Ha) as [E|(R & E & e & Hf & Hv)]; [by left|right].
    split; [done|]. split; [done|]. exists e. split; [|done]. revert Hf. rewrite first_at_app. cbn.
    destruct (Z.eqb_spec (addr t) a) as [<-|Hne].
    + by rewrite (proj2 (first_at_none (addr t) l1) Hn).
    + intros <-. change (first_at a (l1 ++ l2) = match first_at a l1 with Some e => Some e | None => first_at a l2 end).
      apply first_at_app.
Qed.

(** A store of the client, of any word but the break instruction. *)
Lemma restorable_store l m m0 a v :
  all_aligned l -> aligned a -> u32 v <> BPT_CODE -> restorable l m m0 -> restorable l (wr m a v) (wr m0 a v).
Proof.
  intros Hl Ha Hv [H1 H2 H3 H4 H5]. split; [by apply wr_ok|by apply wr_ok| | |].
  - intros x Hx. rewrite !wr_outside by done. by apply H3.
  - intros e He. destruct (decide (addr e = a)) as [<-|Hne].
    + rewrite wr_eq by done. destruct (rom (addr e)); [by apply H4|done].
    + rewrite wr_ne; [by apply H4|done|by apply Hl|congruence].
  - intros b Hb. destruct (decide (b = a)) as [->|Hne].
    + rewrite !wr_eq by done. destruct (rom a) eqn:R; [|by left].
      destruct (H5 a Ha) as [E|(R' & _)]; [by left|congruence].
    + rewrite !wr_ne by (done || congruence). by apply H5.
Qed.

(** Breakpoints [lt] planted over the breakpoints [lu]. *)
Lemma restorable_over lu lt m m1 m0 :
  all_aligned lu -> all_aligned lt -> restorable lu m1 m0 -> restorable lt m m1 ->
  (forall t u, t ∈ lt -> u ∈ lu -> addr t = addr u -> u32 (value t) = BPT_CODE) ->
  restorable (lu ++ lt) m m0.
Proof.
  intros Au At [U1 U2 U3 U4 U5] [T1 T2 T3 T4 T5] Hf. split; [done|done| | |].
  - intros x Hx. rewrite T3 by done. by apply U3.
  - intros e He Hk. apply elem_of_app in He as [He|He]; [by apply U4|]. apply T4; [done|].
    destruct (U5 (addr e) (At e He)) as [E|(_ & E & _)]; congruence.
  - intros a Ha. rewrite first_at_app. destruct (T5 a Ha) as [E|(R & E & t & Ht & Hv)].
    + rewrite E. destruct (U5 a Ha) as [Eu|(Ru & Eu & u & Hu & Hvu)]; [by left|right].
      split; [done|]. split; [done|]. exists u. by rewrite Hu.
    + destruct (first_at a lu) as [u|] eqn:Hu.
      * apply first_at_addr in Ht as [Ht1 Ht2]. apply first_at_addr in Hu as Hu'. destruct Hu' as [Hu1 Hu2].
        assert (wd m1 a = BPT_CODE) as E1 by (rewrite <- Hv; apply (Hf t u); [done|done|congruence]).
        destruct (U5 a Ha) as [Eu|(Ru & Eu & u' & Hu' & Hvu)]; [left; congruence|right].
        split; [done|]. split; [done|]. exists u'. split; [congruence|done].
      * destruct (U5 a Ha) as [Eu|(_ & _ & u' & Hu' & _)]; [|congruence]. right.
        split; [done|]. split; [done|]. exists t. split; [done|congruence].
Qed.

Lemma restorable_unplanted l m m1 m0 : restorable l m1 m0 -> m =m= m0 -> restorable l m m0.
Proof.
  intros [H1 H2 H3 H4 H5] E. split; [|done| |done|].
  - intros x. rewrite (E x). apply H2.
  - intros x _. apply E.
  - intros a _. left. by rewrite E.
Qed.
End Restore.

(** ** The state of the monitor *)

Section Client.
Context {D : Type} `{WatchFuncs D} {W : Type}.
Context (big : bool) (rom : Z -> bool) (en : env (W := W)) (st : symtab).
#[local] Set Default Proof Using "Type".
Abbreviation state := (client (D := D)).

(** The software breakpoints of the user with the temporary one, in the order in
    which they are taken out, and the trace breakpoints. *)
Definition user (c : state) : list Bps :=
  List.filter is_set [BptTmp c] ++ List.filter is_soft (Bpt c).
Definition trc (c : state) : list Bps := List.filter is_set [BptTrc c; BptTrcb c].

Lemma unplant_all_list l m :
  unplant_all big rom l m = unplant_list big rom (List.filter is_soft l) m.
Proof.
  revert m. induction l as [|b l IH]; intros m; [done|]. cbn. destruct (is_soft b); cbn; apply IH.
Qed.

Lemma unplant_opt_list b m : unplant_opt big rom b m = unplant_list big rom (List.filter is_set [b]) m.
Proof. unfold unplant_opt. cbn. by destruct (is_set b). Qed.

Lemma unplant_list_app l1 l2 m :
  unplant_list big rom (l1 ++ l2) m = unplant_list big rom l2 (unplant_list big rom l1 m).
Proof. apply fold_left_app. Qed.

Lemma remove_trace_mem (c : state) :
  c_mem (remove_trace_breakpoint big rom c) = unplant_list big rom (trc c) (c_mem c).
Proof.
  unfold remove_trace_breakpoint, trc. cbn [c_mem set_mem].
  change [BptTrc c; BptTrcb c] with ([BptTrc c] ++ [BptTrcb c]). rewrite List.filter_app, unplant_list_app.
  by rewrite <- !unplant_opt_list.
Qed.

Lemma rm_bpts_mem (c : state) :
  c_mem (rm_bpts big rom c) = unplant_list big rom (user c ++ trc c) (c_mem c).
Proof.
  unfold rm_bpts. rewrite remove_trace_mem. cbn [c_mem set_mem].
  change (trc (set_mem _ _)) with (trc c). unfold user.
  by rewrite !unplant_list_app, <- unplant_all_list, <- unplant_opt_list.
Qed.

Lemma unset_filter b : List.filter is_set [set_addr NO_BPT b] = [].
Proof. done. Qed.

Lemma remove_trace_user (c : state) :
  user (remove_trace_breakpoint big rom c) = user c /\ trc (remove_trace_breakpoint big rom c) = [].
Proof. done. Qed.

Lemma rm_bpts_user (c : state) :
  user (rm_bpts big rom c) = List.filter is_soft (Bpt c) /\ trc (rm_bpts big rom c) = [].
Proof. done. Qed.

(** Planting the trace breakpoints. *)
Lemma store_trace_list (c : state) :
  let c' := store_trace_breakpoint big rom c in
  plant_list big rom (trc c) (c_mem c) = (trc c', c_mem c') /\ user c' = user c.
Proof.
  unfold store_trace_breakpoint, trc, plant_opt. cbn [List.filter].
  destruct (is_set (BptTrc c)) eqn:E1; destruct (is_set (BptTrcb c)) eqn:E2; cbn;
    unfold is_set in *; cbn in *; rewrite ?E1, ?E2; cbn; done.
Qed.

Lemma store_trace_mode (c : state) : trace_mode (store_trace_breakpoint big rom c) = trace_mode c.
Proof. unfold store_trace_breakpoint, plant_opt. by destruct (is_set _), (is_set _). Qed.

Lemma plant_all_list l m :
  List.filter is_soft (plant_all big rom l m).1 = (plant_list big rom (List.filter is_soft l) m).1 /\
  (plant_all big rom l m).2 = (plant_list big rom (List.filter is_soft l) m).2.
Proof.
  revert m. induction l as [|b l IH]; intros m; [done|]. cbn [plant_all List.filter].
  destruct (is_soft b) eqn:E; cbn [plant1 plant_list].
  - specialize (IH (wr big rom m (addr b) BPT_CODE)).
    destruct (plant_all big rom l _) as [l1 m1], (plant_list big rom _ _) as [l2 m2]. cbn in *.
    unfold is_soft, is_set in *. cbn. rewrite E. destruct IH as [-> ->]. done.
  - specialize (IH m). destruct (plant_all big rom l m) as [l1 m1]. cbn. rewrite E. exact IH.
Qed.

Lemma plant_list_app l1 l2 m :
  plant_list big rom (l1 ++ l2) m =
    ((plant_list big rom l1 m).1 ++ (plant_list big rom l2 (plant_list big rom l1 m).2).1,
     (plant_list big rom l2 (plant_list big rom l1 m).2).2).
Proof.
  revert m. induction l1 as [|b l1 IH]; intros m; [cbn; by destruct (plant_list big rom l2 m)|].
  cbn [app plant_list plant1]. rewrite IH.
  destruct (plant_list big rom l1 _) as [l3 m3]. cbn. by destruct (plant_list big rom l2 m3).
Qed.

Lemma trc_nil (c : state) : trc c = [] -> is_set (BptTrc c) = false /\ is_set (BptTrcb c) = false.
Proof.
  unfold trc. cbn. destruct (is_set (BptTrc c)), (is_set (BptTrcb c)); done.
Qed.

Lemma cancel_unset b x : is_set x = false -> is_set (cancel b x) = false.
Proof. destruct b; [done|]. done. Qed.

Lemma in_table_false l x : in_table l x = false -> forall b, b ∈ l -> addr b <> addr x.
Proof.
  intros Hf b Hb E. unfold in_table in Hf. apply not_true_iff_false in Hf. apply Hf, existsb_exists.
  exists b. split; [by apply list_elem_of_In|]. by apply Z.eqb_eq.
Qed.

Lemma filter_subset {A} (f : A -> bool) l x : x ∈ List.filter f l -> x ∈ l.
Proof. intros [Hx _]%list_elem_of_In%filter_In. by apply list_elem_of_In. Qed.

(** The temporary breakpoint that [store_breakpoint] keeps. *)
Definition tmp_kept (c : state) : Bps := cancel (in_table (Bpt c) (BptTmp c)) (BptTmp c).

Lemma store_breakpoint_lists (c : state) :
  trc c = [] ->
  let c' := store_breakpoint big rom c in
  let r1 := plant_list big rom (List.filter is_soft (Bpt c)) (c_mem c) in
  let r2 := plant_list big rom (List.filter is_set [tmp_kept c]) r1.2 in
  trc c' = [] /\ user c' = r2.1 ++ r1.1 /\ c_mem c' = r2.2.
Proof.
  intros Ht%trc_nil. destruct Ht as [Hu Hv]. cbn zeta. unfold store_breakpoint.
  fold (tmp_kept c). set (t := tmp_kept c).
  set (u := cancel (addr _ =? addr t) _). set (v := cancel (_ || _) _).
  assert (is_set u = false) as Eu by by apply cancel_unset, cancel_unset.
  assert (is_set v = false) as Ev by by apply cancel_unset, cancel_unset.
  clearbody u v. destruct (plant_all_list (Bpt c) (c_mem c)) as [P1 P2].
  destruct (plant_all big rom (Bpt c) (c_mem c)) as [l m1]. cbn [fst snd] in P1, P2.
  destruct (plant_list big rom (List.filter is_soft (Bpt c)) (c_mem c)) as [l1 m1']. cbn [fst snd] in *. subst l1 m1'.
  unfold store_trace_breakpoint, plant_opt. cbn [List.filter].
  destruct (is_set t) eqn:Et; cbn [plant1 plant_list fst snd BptTrc BptTrcb set_mem set_bpts c_mem];
    rewrite Eu, Ev; unfold trc, user; cbn [List.filter BptTrc BptTrcb BptTmp Bpt set_watch set_mem set_trc set_bpts c_mem];
    rewrite Eu, Ev; (split; [done|]); [change (is_set (set_value _ t)) with (is_set t)|]; by rewrite Et.
Qed.

Lemma plant_list_aligned l m : all_aligned l -> all_aligned (plant_list big rom l m).1.
Proof.
  intros Hl e He. apply (list_elem_of_fmap_2 addr) in He. rewrite plant_list_addr in He.
  apply list_elem_of_fmap in He as (e0 & -> & He). by apply Hl.
Qed.

(** [store_breakpoint] on a clean memory. *)
Lemma store_breakpoint_restorable (c : state) :
  trc c = [] -> all_aligned (user c) -> mem_ok (c_mem c) ->
  let c' := store_breakpoint big rom c in
  restorable big rom (user c') (c_mem c') (c_mem c) /\ trc c' = [] /\ all_aligned (user c').
Proof.
  intros Ht Ha Hm. destruct (store_breakpoint_lists c Ht) as (T & U & M). cbn zeta in *.
  set (l0 := List.filter is_soft (Bpt c)) in *. set (lt := List.filter is_set [tmp_kept c]) in *.
  assert (all_aligned l0) as A0 by (intros e He; apply Ha, elem_of_app; by right).
  assert (all_aligned lt) as At.
  { unfold lt, tmp_kept, cancel. destruct (in_table _ _); [by intros e ?%elem_of_nil|].
    intros e He. apply Ha, elem_of_app. by left. }
  assert (all_aligned (l0 ++ lt)) as Aall by (intros e [He|He]%elem_of_app; [by apply A0|by apply At]).
  pose proof (plant_restorable big rom (l0 ++ lt) (c_mem c) Aall Hm) as R.
  rewrite plant_list_app in R. cbn [fst snd] in R.
  set (r1 := plant_list big rom l0 (c_mem c)) in *. set (r2 := plant_list big rom lt r1.2) in *.
  split; [|split; [done|]].
  - rewrite U, M. clear U M. unfold r2, lt in R |- *. clear r2. revert R. cbn [List.filter].
    destruct (is_set (tmp_kept c)) eqn:Es; cbn [plant_list plant1 fst snd app]; [|by rewrite app_nil_r].
    intros R. apply (restorable_front big rom _ _ []) in R; [by rewrite app_nil_r in R|].
    intros e He. cbn [addr set_value]. unfold tmp_kept, cancel in *.
    destruct (in_table (Bpt c) (BptTmp c)) eqn:Ei; [done|].
    apply (list_elem_of_fmap_2 addr) in He. unfold r1 in He. rewrite plant_list_addr in He.
    apply list_elem_of_fmap in He as (e0 & -> & He).
    apply (in_table_false _ _ Ei). by apply filter_subset in He.
  - rewrite U. intros e [He|He]%elem_of_app; [by apply (plant_list_aligned lt r1.2)|by apply (plant_list_aligned l0 (c_mem c))].
Qed.

(** The write test leaves the memory as it was. *)
Lemma is_writeable_mem m a : mem_ok m -> (is_writeable big (wr big rom) m a).2 =m= m.
Proof.
  intros Hm. unfold is_writeable, wr. destruct (rom (u32 a)).
  - by destruct (negb _).
  - set (x := Z.lnot (u32 (load_word big m a))). rewrite load_store_word_back.
    rewrite wrapu_wraps, (u32_small (u32 x)) by apply u32_range. rewrite Z.eqb_refl. cbn [negb snd].
    rewrite store_word_u32. by apply store_word_back.
Qed.

(** [setTrcbp] changes the trace breakpoints only. *)
Lemma setTrcbp_keeps a so (c : state) :
  mem_ok (c_mem c) ->
  let c' := setTrcbp big rom a so c in
  c_mem c' =m= c_mem c /\ user c' = user c /\ trace_mode c' = trace_mode c /\ c_regs c' = c_regs c.
Proof.
  intros Hm. unfold setTrcbp. destruct (is_branch big (c_mem c) a); [|done].
  destruct (_ && so); [done|]. destruct (is_jr big (c_mem c) a); [|done].
  set (target := if _ =? a then _ else _). pose proof (is_writeable_mem (c_mem c) target Hm) as E.
  destruct (is_writeable big (wr big rom) (c_mem c) target) as [[|] m]; done.
Qed.

(** ** Runs of the client *)

(** In these modes the breakpoints of the user are in the code. *)
Definition user_planted (t : trace_state) : bool :=
  match t with TRACE_GB | TRACE_DC | TRACE_TW | TRACE_DW => true | _ => false end.
(** In these modes the trace breakpoints are not. *)
Definition trace_unset (t : trace_state) : bool :=
  match t with TRACE_GB | TRACE_DC => true | _ => false end.

(** The monitor's state and the client's view [m0] of its memory: the trace
    breakpoints lie over a memory [m1] in which those of the user lie over
    [m0]. *)
Definition inv (c : state) (m0 : mem) : Prop :=
  exists m1, restorable big rom (user c) m1 m0 /\ restorable big rom (trc c) (c_mem c) m1 /\
    all_aligned (user c) /\ all_aligned (trc c) /\
    (trace_unset (trace_mode c) = true -> trc c = []) /\
    (user_planted (trace_mode c) = false -> m1 =m= m0) /\ trace_mode c <> TRACE_NO.

(** No trace breakpoint lies on the address of a user's breakpoint, unless it
    was planted over it. *)
Definition no_stale (c : state) : Prop :=
  forall t u, t ∈ trc c -> u ∈ user c -> addr t = addr u -> u32 (value t) = BPT_CODE.

Lemma inv_rm (c : state) m0 : inv c m0 -> no_stale c -> c_mem (rm_bpts big rom c) =m= m0.
Proof.
  intros (m1 & U & T & Au & At & _) Hs. rewrite rm_bpts_mem. apply unplant_restores.
  - intros e [He|He]%elem_of_app; [by apply Au|by apply At].
  - by apply (restorable_over big rom _ _ _ m1).
Qed.

(** The state after the trace breakpoints are taken out. *)
Lemma inv_remove_trace (c : state) m0 :
  inv c m0 -> let c' := remove_trace_breakpoint big rom c in
  exists m1, restorable big rom (user c') m1 m0 /\ c_mem c' =m= m1 /\ all_aligned (user c') /\ trc c' = [] /\
    (user_planted (trace_mode c) = false -> m1 =m= m0).
Proof.
  intros (m1 & U & T & Au & At & _ & Hm & _). exists m1. destruct (remove_trace_user c) as [-> ->].
  split; [done|]. split; [|done]. rewrite remove_trace_mem. by apply unplant_restores.
Qed.

(** [c2] differs from [c1] in nothing that concerns the breakpoints. *)
Definition same_bpts (c1 c2 : state) : Prop :=
  user c2 = user c1 /\ trc c2 = trc c1 /\ c_mem c2 = c_mem c1.

(** Planting new trace breakpoints over a memory without any. *)
Lemma inv_step (c c1 : state) m0 m1 a so :
  restorable big rom (user c) m1 m0 -> c_mem c =m= m1 -> all_aligned (user c) ->
  same_bpts (setTrcbp big rom a so c) c1 ->
  (user_planted (trace_mode c1) = false -> m1 =m= m0) ->
  trace_unset (trace_mode c1) = false -> trace_mode c1 <> TRACE_NO ->
  let c' := store_trace_breakpoint big rom c1 in all_aligned (trc c') -> inv c' m0.
Proof.
  intros U E Au (S1 & S2 & S3) Hm Ht Hno c' At. pose proof (rs_ok _ _ _ _ _ U) as Ok1.
  assert (mem_ok (c_mem c)) as Okc by (intros x; rewrite (E x); apply Ok1).
  destruct (setTrcbp_keeps a so c Okc) as (Em & Eu & _). rewrite <- S3 in Em. rewrite <- S1 in Eu.
  destruct (store_trace_list c1) as [P Eu']. fold c' in P, Eu'. rewrite Eu in Eu'.
  assert (mem_ok (c_mem c1)) as Ok by (intros x; rewrite (Em x); apply Okc).
  assert (all_aligned (trc c1)) as At1.
  { intros e He. apply (list_elem_of_fmap_2 addr) in He.
    rewrite <- (plant_list_addr big rom (trc c1) (c_mem c1)), P in He. cbn [fst] in He.
    apply list_elem_of_fmap in He as (e0 & -> & He). by apply At. }
  pose proof (plant_restorable big rom (trc c1) (c_mem c1) At1 Ok) as R. rewrite P in R. cbn [fst snd] in R.
  assert (trace_mode c' = trace_mode c1) as Et by apply store_trace_mode.
  exists (c_mem c1). rewrite Eu', Et.
  split; [|split; [done|split; [done|split; [done|split; [congruence|split; [|done]]]]]].
  - apply (restorable_proper big rom _ m1); [|done]. symmetry. etransitivity; [exact Em|exact E].
  - intros Hp. etransitivity; [exact Em|]. etransitivity; [exact E|by apply Hm].
Qed.

(** No trace breakpoint is set, and the memory is the one under them. *)
Definition settled (c : state) (m1 m0 : mem) : Prop :=
  restorable big rom (user c) m1 m0 /\ c_mem c =m= m1 /\ all_aligned (user c) /\ trc c = [].

Lemma settled_rm (c : state) m1 m0 : settled c m1 m0 -> c_mem (rm_bpts big rom c) =m= m0.
Proof.
  intros (U & E & Au & T). rewrite rm_bpts_mem, T, app_nil_r. apply unplant_restores; [done|].
  apply (restorable_proper big rom _ m1); [by symmetry|done].
Qed.

Lemma rm_settled (c : state) m0 : inv c m0 -> no_stale c -> settled (rm_bpts big rom c) m0 m0.
Proof.
  intros Hi Hs. pose proof (inv_rm c m0 Hi Hs) as E. destruct Hi as (m1 & U & _ & Au & _).
  destruct (rm_bpts_user c) as [Eu Et]. unfold settled. rewrite Eu, Et.
  assert (forall e, e ∈ List.filter is_soft (Bpt c) -> e ∈ user c) as Hsub
    by (intros e He; apply elem_of_app; by right).
  split_and!; [|done| |done].
  - destruct U as [H1 H2 H3 H4 H5]. split; [done|done|done|intros e He; by apply H4, Hsub|by left].
  - intros e He. by apply Au, Hsub.
Qed.

Lemma restorable_base l m m0 m0' : m0 =m= m0' -> restorable big rom l m m0 -> restorable big rom l m m0'.
Proof.
  intros E [H1 H2 H3 H4 H5]. split; [done| | | |].
  - intros x. rewrite <- (E x). apply H2.
  - intros x Hx. rewrite <- (E x). by apply H3.
  - intros e He. rewrite <- E. by apply H4.
  - intros a Ha. assert (word big m0' a = word big m0 a) as -> by (by rewrite E). by apply H5.
Qed.

Lemma store_breakpoint_mode (c : state) : trace_mode (store_breakpoint big rom c) = trace_mode c.
Proof.
  unfold store_breakpoint. destruct (plant_all _ _ _ _) as [l m], (plant_opt _ _ _ _) as [t m'].
  cbn [trace_mode set_watch]. by rewrite store_trace_mode.
Qed.

(** Planting the breakpoints of the user in a clean memory. *)
Lemma inv_resume (c : state) m0 t n :
  settled c m0 m0 -> trace_unset t = true -> inv (store_breakpoint big rom (set_mode t n c)) m0.
Proof.
  intros (U & E & Au & T) Ht. set (c1 := set_mode t n c).
  assert (mem_ok (c_mem c1)) as Ok by (intros x; change (c_mem c1) with (c_mem c); rewrite (E x); apply (rs_ok0 _ _ _ _ _ U)).
  destruct (store_breakpoint_restorable c1 T Au Ok) as (R & Et & Au'). cbn zeta in *.
  exists (c_mem (store_breakpoint big rom c1)). rewrite Et, store_breakpoint_mode. cbn [trace_mode set_mode c1].
  split_and!; try done.
  - by apply (restorable_base _ _ (c_mem c1)).
  - apply restorable_clean. apply (rs_ok _ _ _ _ _ R).
  - by intros e ?%elem_of_nil.
  - by destruct t.
  - by destruct t.
Qed.

Abbreviation dispatch := (dispatch big rom en st).

Lemma same_settled c1 c2 m1 m0 : same_bpts c1 c2 -> settled c1 m1 m0 -> settled c2 m1 m0.
Proof. intros (E1 & E2 & E3) H'. unfold settled. by rewrite E1, E2, E3. Qed.

Lemma same_inv c1 c2 m0 : same_bpts c1 c2 -> trace_mode c2 = trace_mode c1 -> inv c1 m0 -> inv c2 m0.
Proof. intros (E1 & E2 & E3) Et H'. unfold inv. by rewrite E1, E2, E3, Et. Qed.

Lemma same_stale c1 c2 : same_bpts c1 c2 -> no_stale c1 -> no_stale c2.
Proof. intros (E1 & E2 & _). unfold no_stale. by rewrite E1, E2. Qed.

Lemma inv_trc_nil (c : state) m0 : inv c m0 -> trc c = [] -> exists m1, settled c m1 m0.
Proof.
  intros (m1 & U & R & Au & _) T. exists m1. rewrite T in R. split_and!; try done. by apply (restorable_nil big rom).
Qed.

(** A state in which the client may be left: the start of [main] gives the client's
    memory, and it is there at once for the remote debugger and after an expected
    trap ([P]). *)
Definition stops_ok (P : Prop) (o : outcome) (c : state) (m0 : mem) : Prop :=
  c_mem (main_start big rom c) =m= m0 /\ (o = Dbg \/ P -> c_mem c =m= m0).

Lemma settled_stops P o (c : state) m0 : settled c m0 m0 -> stops_ok P o c m0.
Proof. intros Hs. split; [by apply (settled_rm c m0)|intros _; apply Hs]. Qed.

Lemma trace_next_ok (c : state) m0 :
  settled c m0 m0 -> trace_mode c = TRACE_TN ->
  let '(o, c') := trace_next big rom c in o = Go /\ (all_aligned (trc c') -> inv c' m0).
Proof.
  intros (U & E & Au & T) Ht. unfold trace_next. cbn zeta. split; [done|].
  set (flag := if trace_bflag c || trace_cflag c then _ else true).
  set (c2 := if flag then _ else c).
  assert (same_bpts c c2 /\ trace_mode c2 = TRACE_TN) as [(E1 & E2 & E3) Ht2] by (unfold c2; by destruct flag).
  clearbody c2. set (n := if trace_count c2 =? 0 then 0 else _).
  set (c3 := set_mode _ n c2). apply (inv_step c3 _ m0 m0 (Epc c) (trace_over c3)).
  - change (user c3) with (user c2). by rewrite E1.
  - change (c_mem c3) with (c_mem c2). by rewrite E3.
  - change (user c3) with (user c2). by rewrite E1.
  - done.
  - done.
  - assert (trace_mode (setTrcbp big rom (Epc c) (trace_over c3) c3) = trace_mode c3) as ->.
    { apply (setTrcbp_keeps (Epc c) (trace_over c3) c3). intros x. change (c_mem c3) with (c_mem c2).
      rewrite E3, (E x). apply (rs_ok _ _ _ _ _ U). }
    cbn. rewrite Ht2. by destruct (n =? 1).
  - assert (trace_mode (setTrcbp big rom (Epc c) (trace_over c3) c3) = trace_mode c3) as ->.
    { apply (setTrcbp_keeps (Epc c) (trace_over c3) c3). intros x. change (c_mem c3) with (c_mem c2).
      rewrite E3, (E x). apply (rs_ok _ _ _ _ _ U). }
    cbn. rewrite Ht2. by destruct (n =? 1).
Qed.

Lemma trace_step_ok P hit (c : state) m0 :
  settled c m0 m0 -> trace_mode c = TRACE_TN ->
  let '(o, c') := trace_step big rom en st hit c in
  match o with Go => all_aligned (trc c') -> inv c' m0 | _ => stops_ok P o c' m0 end.
Proof.
  intros Hs Ht. assert (forall o c', same_bpts c c' -> stops_ok P o c' m0) as Hk by (intros o c' E; by apply settled_stops, (same_settled c)).
  unfold trace_step. destruct (soft_at _ _) as [[i b]|]; [by apply Hk|].
  destruct (negb (hit =? 0)); [by apply Hk|].
  assert (exists ok c1, (if trace_invalid c then is_validpc big en st (Epc c) c else (true, c)) = (ok, c1) /\
    same_bpts c c1 /\ trace_mode c1 = TRACE_TN) as (ok & c1 & -> & Hsame & Ht1).
  { destruct (trace_invalid c); [|by exists true, c].
    unfold is_validpc. destruct (_ || _); eexists _, _; done. }
  destruct (negb ok); [by apply Hk|].
  destruct (List.find _ _); [by apply Hk|].
  apply (same_settled _ _ _ _ Hsame) in Hs.
  pose proof (trace_next_ok c1 m0 Hs Ht1) as Hn. destruct (trace_next big rom c1) as [o c'].
  destruct Hn as [-> Hn]. done.
Qed.

Lemma dispatch_ok exc hit ha hl intr (c : state) m0 :
  inv c m0 -> trace_mode c <> TRACE_TW -> trace_mode c <> TRACE_DW ->
  let '(o, c') := dispatch exc hit ha hl intr c in
  match o with
  | Go => all_aligned (trc c') -> inv c' m0
  | _ => no_stale c \/ (exc = CEXC_BP /\ trace_mode c <> TRACE_DS) -> stops_ok (exc = CEXC_BP \/ hit <> 0) o c' m0
  end.
Proof.
  intros Hi Htw Hdw.
  assert (trace_unset (trace_mode c) = true -> no_stale c) as Hnil.
  { destruct Hi as (_ & _ & _ & _ & _ & Hu & _). intros Hm t u Hx. rewrite (Hu Hm) in Hx. by apply elem_of_nil in Hx. }
  pose proof (fun o c' => settled_stops (exc = CEXC_BP \/ hit <> 0) o c' m0) as Hset.
  assert (user_planted (trace_mode c) = false -> settled (remove_trace_breakpoint big rom c) m0 m0) as Hclean.
  { intros Hp. destruct (inv_remove_trace c m0 Hi) as (m1 & U & E & Au & T & Hm). specialize (Hm Hp).
    split_and!; try done; [by apply (restorable_proper big rom _ m1)|]. etransitivity; [exact E|exact Hm]. }
  unfold Bpt.dispatch. destruct (decide (trace_mode c = TRACE_DC \/ trace_mode c = TRACE_DS)) as [Hd|Hd].
  { assert (no_stale c \/ exc = CEXC_BP /\ trace_mode c ≠ TRACE_DS -> no_stale c) as Hs.
    { destruct Hd as [Hd|Hd]; [intros _; apply Hnil; by rewrite Hd|intros [?|[_ ?]]; done]. }
    destruct Hd as [Ed|Ed]; rewrite Ed in *; intros Hc; apply Hset, rm_settled; tauto. }
  destruct (negb (exc =? CEXC_BP) && (hit =? 0)) eqn:Hf.
  { apply andb_true_iff in Hf as [Hf%negb_true_iff%Z.eqb_neq Hh%Z.eqb_eq].
    destruct (trace_mode c) eqn:Et; try tauto; intros Hc;
      (split; [|intros [?|[?|?]]; done]);
      (transitivity (c_mem (rm_bpts big rom c)); [unfold main_start; rewrite !rm_bpts_mem; by destruct intr|apply inv_rm; tauto]). }
  destruct (trace_mode c) eqn:Et; try tauto.
  - destruct Hi as (_ & _ & _ & _ & _ & _ & _ & Hno). done.
  - intros _. apply Hset, (same_settled (remove_trace_breakpoint big rom c)); [done|]. by apply Hclean.
  - intros _. by apply inv_resume; [apply Hclean|].
  - unfold go_break.
    assert (settled (rm_bpts big rom c) m0 m0) as Hrm by (apply rm_settled; [done|by apply Hnil]).
    destruct (negb (hit =? 0)); [destruct (hw_bpt _ _ _ _) as [[? ?]|]|destruct (soft_at _ _) as [[? ?]|]];
      intros _; apply Hset, (same_settled (rm_bpts big rom c)); done.
  - intros _. by apply inv_resume; [apply Hclean|].
  - pose proof (trace_step_ok (exc = CEXC_BP \/ hit <> 0) hit (remove_trace_breakpoint big rom c) m0 (Hclean eq_refl) Et) as Hk.
    destruct (trace_step _ _ _ _ _ _) as [o c']. by destruct o.
Qed.

Context (sbddbgintr : Z -> cptr).
Abbreviation exception := (exception big rom en st sbddbgintr).

(** What the proof needs of a trap that may end in the monitor. *)
Definition trap_ok (c : state) : Prop :=
  no_stale c \/ (Z.land (Cause c) 0x7c = CEXC_BP /\ trace_mode c <> TRACE_DS).

(** The watchpoint a trap hit, and a trap that the monitor asked for: a break
    instruction or a watchpoint. *)
Definition trap_hit (c : state) : Z := (watchpoint_hit big (watchpoint_remove (c_watch c)) (saved c) (c_mem c)).1.1.
Definition expected (c : state) : Prop := Z.land (Cause c) 0x7c = CEXC_BP \/ trap_hit c <> 0.

(** The single step over a watchpoint that was hit by accident. *)
Lemma skip_watch_ok (c : state) m0 t :
  inv c m0 -> trc c = [] -> user_planted t = true -> trace_unset t = false ->
  let c1 := setTrcbp big rom (Epc c) false c in
  let c' := store_trace_breakpoint big rom (set_mode t (trace_count c1) c1) in
  all_aligned (trc c') -> inv c' m0.
Proof.
  intros Hi T Hp Hu c1 c' At. destruct (inv_trc_nil c m0 Hi T) as (m1 & U & E & Au & _).
  apply (inv_step c _ m0 m1 (Epc c) false); try done; cbn; destruct t; done.
Qed.

(** The trap at the end of that step. *)
Lemma restart_watch_ok exc hit ha hl intr (c : state) m0 t :
  inv c m0 -> trace_unset t = true ->
  let c3 := remove_trace_breakpoint big rom (set_mode t (trace_count c) c) in
  let '(o, c') := if (exc =? CEXC_BP) && negb (is_break_point (Epc c3) c3)
    then (Go, set_watch (watchpoint_insert (c_watch c3)) c3) else dispatch exc hit ha hl intr c3 in
  match o with Go => all_aligned (trc c') -> inv c' m0 | _ => stops_ok (exc = CEXC_BP \/ hit <> 0) o c' m0 end.
Proof.
  intros Hi Hu c3. destruct (inv_remove_trace c m0 Hi) as (m1 & U & E & Au & T & _).
  assert (inv c3 m0) as Hi3.
  { exists m1. split; [done|]. split.
    - change (trc c3) with (@nil Bps). apply (restorable_proper big rom _ m1); [by symmetry|].
      apply restorable_clean, (rs_ok _ _ _ _ _ U).
    - split; [done|]. split; [by intros e ?%elem_of_nil|]. cbn. by destruct t. }
  assert (no_stale c3) as Hn by (intros x u Hx; by apply elem_of_nil in Hx).
  destruct (_ && _); [intros _; by apply (same_inv c3)|].
  assert (trace_mode c3 <> TRACE_TW /\ trace_mode c3 <> TRACE_DW) as [Hx Hy] by (cbn; by destruct t).
  pose proof (dispatch_ok exc hit ha hl intr c3 m0 Hi3 Hx Hy) as Hk.
  destruct (dispatch exc hit ha hl intr c3) as [o c'].
  destruct o; [exact Hk|apply Hk; by left|apply Hk; by left].
Qed.

Lemma exception_ok (c : state) m0 :
  inv c m0 ->
  let '(o, c') := exception c in
  match o with
  | Go => all_aligned (trc c') -> inv c' m0
  | _ => trap_ok c -> stops_ok (expected c) o c' m0
  end.
Proof.
  intros Hi. unfold Bpt.exception.
  set (exc := Z.land (Cause c) 0x7c). set (intr := if exc =? CEXC_INT then _ else None).
  set (c1 := match intr with Some p => say _ c | None => c end).
  set (c2 := set_watch (watchpoint_remove (c_watch c1)) c1).
  assert (same_bpts c c2 /\ trace_mode c2 = trace_mode c) as [Hs Ht] by (unfold c2, c1; by destruct intr).
  assert (inv c2 m0) as Hi2 by by apply (same_inv c).
  assert (trace_unset (trace_mode c2) = true -> trc c2 = []) as Hu
    by (by destruct Hi2 as (? & _ & _ & _ & _ & Hu & _)).
  assert (trap_hit c = (watchpoint_hit big (c_watch c2) (saved c2) (c_mem c2)).1.1) as Eh by (unfold c2, c1; by destruct intr).
  unfold expected. rewrite Eh. change (Z.land (Cause c) 0x7c) with exc. clear Eh.
  destruct (watchpoint_hit big (c_watch c2) (saved c2) (c_mem c2)) as [[hit ha] hl]. cbn [fst snd].
  assert (trap_ok c -> no_stale c2 \/ (exc = CEXC_BP /\ trace_mode c2 <> TRACE_DS)) as Hcase.
  { intros [Hn|[He Hd]]; [left; by apply (same_stale c)|right; by rewrite Ht]. }
  clearbody c2 exc. clear c1. clearbody intr. clear Hs Ht Hi.
  assert (trace_mode c2 <> TRACE_TW -> trace_mode c2 <> TRACE_DW ->
    let '(o, c') := dispatch exc hit ha hl intr c2 in
    match o with Go => all_aligned (trc c') -> inv c' m0 | _ => trap_ok c -> stops_ok (exc = CEXC_BP \/ hit <> 0) o c' m0 end) as Hdisp.
  { intros Hx Hy. pose proof (dispatch_ok exc hit ha hl intr c2 m0 Hi2 Hx Hy) as Hk.
    destruct (dispatch exc hit ha hl intr c2) as [o c']. destruct o; tauto. }
  assert (forall t, trace_unset t = true ->
    let c3 := remove_trace_breakpoint big rom (set_mode t (trace_count c2) c2) in
    let '(o, c') := if (exc =? CEXC_BP) && negb (is_break_point (Epc c3) c3)
      then (Go, set_watch (watchpoint_insert (c_watch c3)) c3) else dispatch exc hit ha hl intr c3 in
    match o with Go => all_aligned (trc c') -> inv c' m0 | _ => trap_ok c -> stops_ok (exc = CEXC_BP \/ hit <> 0) o c' m0 end) as Hwatch.
  { intros t Htu c3. pose proof (restart_watch_ok exc hit ha hl intr c2 m0 t Hi2 Htu) as Hk. cbn zeta in Hk.
    fold c3 in Hk. destruct (if _ && _ then _ else _) as [o c']. destruct o; tauto. }
  destruct (trace_mode c2); try exact (Hdisp ltac:(done) ltac:(done)).
  - destruct (negb _); [exact (skip_watch_ok c2 m0 TRACE_TW Hi2 (Hu eq_refl) eq_refl eq_refl)|].
    exact (Hdisp ltac:(done) ltac:(done)).
  - destruct (negb _); [exact (skip_watch_ok c2 m0 TRACE_DW Hi2 (Hu eq_refl) eq_refl eq_refl)|].
    exact (Hdisp ltac:(done) ltac:(done)).
  - exact (Hwatch TRACE_GB eq_refl).
  - exact (Hwatch TRACE_DC eq_refl).
Qed.

(** The monitor at its prompt: no trace or temporary breakpoint is left from
    before, and the memory is the client's. *)
Definition at_prompt (c : state) (m0 : mem) : Prop := settled c m0 m0.

Inductive resume : Type := RGo (cont : bool) | RDebug | RStep | RTrace (multi : bool).

Definition do_resume (r : resume) (c : state) : state :=
  match r with
  | RGo cont => goclient big rom cont c
  | RDebug => godebug big rom c
  | RStep => sstep big rom c
  | RTrace multi => trace_start big rom multi c
  end.

(** Runs: the client is started, stores words (any but the break instruction),
    changes its registers, and traps. *)
Inductive reach : state -> mem -> Prop :=
| reach_start c m0 r : at_prompt c m0 -> all_aligned (trc (do_resume r c)) -> reach (do_resume r c) m0
| reach_store c m0 a v : reach c m0 -> aligned a -> u32 v <> BPT_CODE ->
    reach (set_mem (wr big rom (c_mem c) a v) c) (wr big rom m0 a v)
| reach_regs c m0 rs : reach c m0 -> reach (set_regs rs c) m0
| reach_trap c c' m0 : reach c m0 -> exception c = (Go, c') -> all_aligned (trc c') -> reach c' m0.

Lemma start_inv (c : state) m0 r :
  at_prompt c m0 -> all_aligned (trc (do_resume r c)) -> inv (do_resume r c) m0.
Proof.
  intros Hp. pose proof Hp as (U & E & Au & T).
  assert (forall a so c0 c1, c0 = setTrcbp big rom a so c -> same_bpts c0 c1 ->
    user_planted (trace_mode c1) = false -> trace_mode c1 <> TRACE_NO ->
    all_aligned (trc (store_trace_breakpoint big rom c1)) -> inv (store_trace_breakpoint big rom c1) m0) as Hstep.
  { intros a so c0 c1 -> Hs Hu Hno. apply (inv_step c c1 m0 m0 a so); try done. by destruct (trace_mode c1). }
  destruct r as [cont| | |multi]; cbn [do_resume].
  - unfold goclient. destruct (cont || _); [|intros _; by apply inv_resume].
    remember (setTrcbp big rom (Epc c) false c) as c0 eqn:E0. by apply (Hstep _ _ c0 _ E0).
  - intros _. by apply inv_resume.
  - unfold sstep. remember (setTrcbp big rom (Epc c) false c) as c0 eqn:E0. by apply (Hstep _ _ c0 _ E0).
  - unfold trace_start. remember (setTrcbp big rom (Epc c) (trace_over c) c) as c0 eqn:E0.
    apply (Hstep _ _ c0 _ E0); [done|by destruct multi|by destruct multi].
Qed.

Lemma reach_inv c m0 : reach c m0 -> inv c m0.
Proof.
  intros Hr. induction Hr as [c m0 r Hp At|c m0 a v Hr IH Ha Hv|c m0 rs Hr IH|c c' m0 Hr IH He At].
  - by apply start_inv.
  - destruct IH as (m1 & U & T & Au & At & Hu & Hm & Hno). exists (wr big rom m1 a v).
    split_and!; try done; [by apply restorable_store|by apply restorable_store|].
    intros Hp x. apply wr_proper; [by apply Hm|done|done].
  - exact IH.
  - pose proof (exception_ok c m0 IH) as Hk. rewrite He in Hk. by apply Hk.
Qed.


Lemma plant_keeps_break l m a :
  all_aligned l -> aligned a -> rom a = false -> word big m a = BPT_CODE ->
  word big (plant_list big rom l m).2 a = BPT_CODE.
Proof.
  intros Hl Ha Hrom. revert m. induction l as [|x l IH]; intros m Hm; [done|].
  cbn [plant_list plant1]. set (m1 := wr big rom m (addr x) BPT_CODE).
  assert (word big m1 a = BPT_CODE) as H1.
  { unfold m1. destruct (decide (addr x = a)) as [<-|Hne]; [by rewrite wr_eq, Hrom by done|].
    rewrite wr_ne; [done|apply Hl, list_elem_of_here|done|done]. }
  specialize (IH ltac:(intros e He; apply Hl; by apply list_elem_of_further) m1 H1).
  by destruct (plant_list big rom l m1).
Qed.

Lemma plant_list_planted l m b :
  all_aligned l -> b ∈ l -> rom (addr b) = false -> word big (plant_list big rom l m).2 (addr b) = BPT_CODE.
Proof.
  intros Hl Hb Hrom. revert m Hb. induction l as [|x l IH]; intros m Hb; [by apply elem_of_nil in Hb|].
  assert (all_aligned l) as Hl' by (intros e He; apply Hl; by apply list_elem_of_further).
  cbn [plant_list plant1]. set (m1 := wr big rom m (addr x) BPT_CODE).
  apply elem_of_cons in Hb as [->|Hb].
  - pose proof (plant_keeps_break l m1 (addr x) Hl' (Hl x ltac:(apply list_elem_of_here)) Hrom) as Hk.
    destruct (plant_list big rom l m1). apply Hk. unfold m1.
    rewrite wr_eq, Hrom; [done|apply Hl, list_elem_of_here].
  - specialize (IH Hl' m1 Hb). by destruct (plant_list big rom l m1).
Qed.

Lemma store_breakpoint_plants (c : state) (b : Bps) :
  trc c = [] -> all_aligned (user c) -> b ∈ user c -> rom (addr b) = false ->
  b ∈ List.filter is_soft (Bpt c) \/ in_table (Bpt c) b = false ->
  word big (c_mem (store_breakpoint big rom c)) (addr b) = BPT_CODE.
Proof.
  intros Ht Ha Hb Hrom Hin. destruct (store_breakpoint_lists c Ht) as (_ & _ & ->).
  assert (all_aligned (List.filter is_soft (Bpt c))) as A0 by (intros e He; apply Ha, elem_of_app; by right).
  assert (all_aligned (List.filter is_set [tmp_kept c])) as At.
  { unfold tmp_kept, cancel. destruct (in_table (Bpt c) (BptTmp c)); [by intros e ?%elem_of_nil|].
    intros e He. apply Ha, elem_of_app. by left. }
  assert (b ∈ List.filter is_soft (Bpt c) \/ b ∈ List.filter is_set [tmp_kept c]) as [Hs|Hs].
  { destruct Hin as [Hin|Hin]; [by left|]. apply elem_of_app in Hb as [Hb|Hb]; [right|by left].
    unfold tmp_kept, cancel. apply filter_subset in Hb as Hb'. apply list_elem_of_singleton in Hb'. subst b.
    by rewrite Hin. }
  - apply plant_keeps_break; [done|by apply A0|done|]. by apply plant_list_planted.
  - by apply plant_list_planted.
Qed.

(** The ways the client is let run to a breakpoint: the remote debugger's [go],
    the [g] command from an address without a breakpoint, and the trap that ends
    the step with which [g] and [c] leave one. *)
Inductive runs_free (c : state) : state -> Prop :=
| run_debug : trc c = [] -> runs_free c (godebug big rom c)
| run_go : trc c = [] -> is_break_point (Epc c) c = false -> runs_free c (goclient big rom false c)
| run_left c' : trace_mode c = TRACE_TG \/ trace_mode c = TRACE_DG -> exception c = (Go, c') -> runs_free c c'.

(** C17. When the client is let run to a breakpoint (by the debugger, by [g] from
    an address without a breakpoint, or at the end of the single step by which
    [g] and [c] leave one; the restart after an inexact watchpoint, which keeps
    what is planted, is not meant), with all breakpoints at addresses of words,
    every software breakpoint of the user outside read-only memory is in its
    code, and so is the temporary one, unless an entry of the table, of either
    kind, has its address. *)
Theorem breakpoints_planted (c c' : state) (b : Bps) :
  runs_free c c' -> all_aligned (user c) -> b ∈ user c -> rom (addr b) = false ->
  b ∈ List.filter is_soft (Bpt c) \/ in_table (Bpt c) b = false ->
  word big (c_mem c') (addr b) = BPT_CODE.
Proof.
  intros Hrun Ha Hb Hrom Hin. destruct Hrun as [Ht|Ht Hp|c' Hm He].
  - unfold godebug. by apply store_breakpoint_plants.
  - unfold goclient. rewrite Hp. by apply store_breakpoint_plants.
  - unfold Bpt.exception in He. set (intr := if _ =? CEXC_INT then _ else None) in *.
    assert (exists c1 mode, c' = store_breakpoint big rom (set_mode mode (trace_count c1) (remove_trace_breakpoint big rom c1)) /\
      user c1 = user c /\ Bpt c1 = Bpt c) as (c1 & mode & -> & Eu & Eb).
    { set (c1 := match intr with Some _ => _ | None => c end) in *.
      assert (user c1 = user c /\ Bpt c1 = Bpt c /\ trace_mode c1 = trace_mode c) as (Eu & Eb & Em) by (unfold c1; by destruct intr).
      set (c2 := set_watch _ c1) in *. exists c2. change (trace_mode c2) with (trace_mode c1) in He. rewrite Em in He.
      destruct (watchpoint_hit _ _ _ _) as [[hit ha] hl].
      assert (Bpt.dispatch big rom en st (Z.land (Cause c) 0x7c) hit ha hl intr c2 = (Go, c')) as Hd by (destruct Hm as [Hm|Hm]; rewrite Hm in He; exact He).
      unfold Bpt.dispatch in Hd. change (trace_mode c2) with (trace_mode c1) in Hd. rewrite Em in Hd.
      destruct Hm as [Hm|Hm]; rewrite Hm in Hd; (destruct (negb _ && (hit =? 0)); [discriminate Hd|]); injection Hd as <-; by eexists. }
    apply store_breakpoint_plants; [done| | |done|].
    + change (all_aligned (user c1)). by rewrite Eu.
    + change (b ∈ user c1). by rewrite Eu.
    + change (b ∈ List.filter is_soft (Bpt c1) \/ in_table (Bpt c1) b = false). by rewrite Eb.
Qed.

Lemma unplant1_word b m :
  unplant1 big rom b m = if word big m (addr b) =? BPT_CODE then wr big rom m (addr b) (value b) else m.
Proof. unfold unplant1. by rewrite load_is_break. Qed.

Lemma unplant_list_skip l m a :
  (forall t, t ∈ l -> addr t = a) -> word big m a <> BPT_CODE -> unplant_list big rom l m = m.
Proof.
  intros Hl Hm. induction l as [|t l IH]; [done|].
  change (unplant_list big rom (t :: l) m) with (unplant_list big rom l (unplant1 big rom t m)).
  rewrite unplant1_word, (Hl t), (proj2 (Z.eqb_neq _ _) Hm) by apply list_elem_of_here.
  apply IH. intros t' Ht'. apply Hl. by apply list_elem_of_further.
Qed.

Lemma stale_rm (c : state) (b : Bps) :
  user c = [b] -> aligned (addr b) -> trc c <> [] -> (forall t, t ∈ trc c -> addr t = addr b) ->
  rom (addr b) = false -> u32 (value b) <> BPT_CODE ->
  word big (c_mem (rm_bpts big rom (store_trace_breakpoint big rom c))) (addr b) = u32 (value b).
Proof.
  intros Hu Hb Hne Hadr Hrom Hv. destruct (store_trace_list c) as [P Eu].
  rewrite rm_bpts_mem, Eu, Hu.
  assert (forall t, t ∈ trc (store_trace_breakpoint big rom c) -> addr t = addr b) as Hadr'.
  { intros t Ht. apply (list_elem_of_fmap_2 addr) in Ht.
    assert (addr <$> trc (store_trace_breakpoint big rom c) = addr <$> trc c) as Ea
      by (rewrite <- (plant_list_addr big rom (trc c) (c_mem c)), P; done).
    rewrite Ea in Ht. apply list_elem_of_fmap in Ht as (t0 & -> & Ht). by apply Hadr. }
  assert (word big (c_mem (store_trace_breakpoint big rom c)) (addr b) = BPT_CODE) as Hbrk.
  { replace (c_mem (store_trace_breakpoint big rom c)) with (plant_list big rom (trc c) (c_mem c)).2 by (by rewrite P).
    destruct (trc c) as [|t ts] eqn:Et; [done|]. assert (addr t = addr b) as Ea by (apply Hadr, list_elem_of_here).
    rewrite <- Ea. apply plant_list_planted; [|apply list_elem_of_here|by rewrite Ea].
    intros e He. by rewrite (Hadr e He). }
  change (unplant_list big rom ([b] ++ ?l) ?m) with (unplant_list big rom l (unplant1 big rom b m)).
  rewrite unplant1_word, Hbrk, Z.eqb_refl.
  rewrite (unplant_list_skip _ _ (addr b)); [|done|]; by rewrite wr_eq, Hrom by done.
Qed.

(** A defect: single stepping onto the address of a user's breakpoint. While the
    client is stepped, that breakpoint is not in the code; but [rm_bpts] finds
    the break instruction of the trace breakpoint there, and stores the word
    left in the table by an earlier run over the client's instruction. *)
Lemma stale_breakpoint (c : state) (m0 : mem) (b : Bps) :
  at_prompt c m0 -> user c = [b] ->
  let c1 := setTrcbp big rom (Epc c) false c in
  trc c1 <> [] -> (forall t, t ∈ trc c1 -> addr t = addr b) ->
  rom (addr b) = false -> u32 (value b) <> BPT_CODE ->
  word big (c_mem (rm_bpts big rom (sstep big rom c))) (addr b) = u32 (value b).
Proof.
  intros (U & E & Au & T) Hu c1 Hne Hadr Hrom Hv.
  assert (mem_ok (c_mem c)) as Okc by (intros x; rewrite (E x); apply (rs_ok _ _ _ _ _ U)).
  destruct (setTrcbp_keeps (Epc c) false c Okc) as (_ & Eu & _). rewrite Hu in *.
  unfold sstep. fold c1 in Eu |- *. clearbody c1.
  apply stale_rm; try done. apply Au, list_elem_of_here.
Qed.
End Client.

(** ** A concrete client *)

Definition no_bpt : Bps := mkBps NO_BPT 0 0 0 CNull.

(** Stopped at 0x80020000, with one breakpoint, in a memory full of zeroes. *)
Definition client0 (b : Bps) : client (D := r4k) :=
  mkClient (b :: replicate 63 no_bpt) no_bpt no_bpt no_bpt
    (fun i => if i =? 40 then 0x80020000 else 0) (fun _ => 0) (mkWatch false [] (mkR4k 0 0 0))
    TRACE_NO 0 false false false false false [] (mkRing [] 0 0) [] false None.

Definition bpt0 : Bps := mkBps 0x80020010 4 0 0 CNull.

Lemma user_client0 : user (client0 bpt0) = [bpt0].
Proof. by vm_compute. Qed.

Lemma prompt_client0 : at_prompt true (fun _ => false) (client0 bpt0) (fun _ => 0).
Proof.
  split; [|split; [done|split; [|done]]].
  - split; [done|done|done| |by left].
    intros e _ Hk. exfalso. unfold word, load_word in Hk. cbn [load_bytes] in Hk. by vm_compute in Hk.
  - rewrite user_client0. intros e He. apply list_elem_of_singleton in He as ->. by vm_compute.
Qed.

Definition hit0 : client (D := r4k) :=
  set_regs (fun i => if i =? 40 then 0x80020010 else if i =? 39 then CEXC_BP else 0)
    (goclient true (fun _ => false) false (client0 bpt0)).


Lemma breakpoints_planted_witness :
  word true (c_mem (godebug true (fun _ => false) (client0 bpt0))) 0x80020010 = BPT_CODE.
Proof.
  apply (breakpoints_planted true (fun _ => false) (w_one "brkcmd" "") empty_tab (fun _ => None) (client0 bpt0) _ bpt0).
  - apply run_debug. by vm_compute.
  - apply prompt_client0.
  - rewrite user_client0. apply list_elem_of_here.
  - done.
  - left. by vm_compute; apply list_elem_of_here.
Defined.

(** A temporary breakpoint ([g -b]) at the address of a watchpoint is dropped:
    the comparison does not look at the kind of the entry. *)
Lemma temporary_dropped :
  let c := client0 (mkBps 0x80020010 4 0 WP_W CNull) in
  let c := set_bpts (Bpt c) (mkBps 0x80020010 4 0 0 CNull) (BptTrc c) (BptTrcb c) c in
  word true (c_mem (godebug true (fun _ => false) c)) 0x80020010 = 0.
Proof. by vm_compute. Qed.

(** Clearing the breakpoints twice frees the command string twice. *)
Lemma double_free :
  c_double_free (clrbpts (clrbpts (client0 (mkBps 0x80020010 4 0 0 (CLive (str "r")))))) = true.
Proof. by vm_compute. Qed.
