(* ===== verification/Step.v ===== *)
(** * Step: single stepping

    [setTrcbp] plants trace breakpoints so that the client traps again after one
    instruction. The processor's own rule for the next instruction, [next_pc],
    is stated from the instruction set, independently of the tables of
    [src/pmon/machine.c]; the theorem is that the trace breakpoints cover it. *)

From S2P Require Import Prelude Memory Mips Ring Env Symtab Expr Watch Bpt.

(** ** The control transfers of the instruction set *)

Inductive cond : Type := CEq | CNe | CLez | CGtz | CLtz | CGez | CCop.

Inductive transfer : Type :=
| ToReg
| ToTarget
| IfTo (c : cond).

Definition holds (c : cond) (rs rt : Z) (cc : bool) : bool :=
  match c with
  | CEq => rs =? rt
  | CNe => negb (rs =? rt)
  | CLez => s64 rs <=? 0
  | CGtz => 0 <? s64 rs
  | CLtz => s64 rs <? 0
  | CGez => 0 <=? s64 rs
  | CCop => cc
  end.

Definition transfers : list (pattern * transfer) :=
  [(both (opc 0) (both (field 15 6 0) (funct 8)), ToReg);
   (both (opc 0) (both (rt_is 0) (both (field 5 6 0) (funct 9))), ToReg);
   (opc 2, ToTarget); (opc 3, ToTarget);
   (opc 4, IfTo CEq); (opc 20, IfTo CEq); (opc 5, IfTo CNe); (opc 21, IfTo CNe)] ++
  map (fun k => (both (opc k) (rt_is 0), IfTo CLez)) [6; 22] ++
  map (fun k => (both (opc k) (rt_is 0), IfTo CGtz)) [7; 23] ++
  map (fun k => (both (opc 1) (rt_is k), IfTo CLtz)) [0; 2; 16; 18] ++
  map (fun k => (both (opc 1) (rt_is k), IfTo CGez)) [1; 3; 17; 19] ++
  flat_map (fun k => map (fun c => (both (opc k) (both (rs_is 8) (rt_is c)), IfTo CCop)) [0; 1; 2; 3])
    [16; 17; 18; 19].

Definition rs_of (inst : Z) : Z := getfield inst 5 21.
Definition rt_of (inst : Z) : Z := getfield inst 5 16.
Definition offset (inst : Z) : Z := 4 * wraps 16 (Z.land inst 0xffff).

Definition transfer_of (inst : Z) : option transfer :=
  option_map snd (List.find (fun p => in_pattern inst p.1) transfers).

(** The instruction executed after the one at [a] (after its delay slot, for a
    branch), with the registers [gpr] and the coprocessor condition [cc]. *)
Definition next_pc (gpr : Z -> Z) (cc : bool) (inst a : Z) : Z :=
  match transfer_of inst with
  | None => u32 (a + 4)
  | Some ToReg => u32 (gpr (rs_of inst))
  | Some ToTarget => Z.lor (Z.land (u32 (a + 4)) 0xf0000000) (Z.shiftl (Z.land inst 0x3ffffff) 2)
  | Some (IfTo c) =>
      if holds c (gpr (rs_of inst)) (gpr (rt_of inst)) cc then u32 (a + 4 + offset inst) else u32 (a + 8)
  end.

(** ** The table agrees with the instruction set *)

(** What the type of an entry says of the transfer. *)
Definition kind_ok (r : DISTBL) (k : transfer) : bool :=
  match d_type r, k with
  | (RS_RT_OFF | RS_OFF | CP_OFF), IfTo _ => true
  | OFF, IfTo CEq => row_within r (rs_is 0) && row_within r (rt_is 0)
  | OFF, IfTo CGez => row_within r (rs_is 0)
  | TARGET, ToTarget => true
  | (JR | JALR), ToReg => true
  | _, _ => false
  end.

Definition row_ok (r : DISTBL) : bool :=
  if branch_type (d_type r) then
    existsb (fun p => row_within r p.1) transfers &&
    forallb (fun p => excludes p.1 r || kind_ok r p.2) transfers
  else true.

Lemma rows_ok : forallb row_ok distbl = true.
Proof. vm_compute. reflexivity. Qed.

Lemma transfers_covered : forallb (fun p => covered p.1 distbl) transfers = true.
Proof. vm_compute. reflexivity. Qed.

(** The entry found for a word. *)
Lemma found_row inst : exists r, type_of inst = d_type r /\ matches inst r = true /\ In r distbl.
Proof.
  pose proof (find_row_spec distbl inst) as Hf. destruct (find_row_total inst) as [i Hi].
  rewrite Hi in Hf. destruct Hf as (r & Hr & Hm & _). exists r. split; [by apply (type_of_row inst i)|].
  split; [done|]. apply list_elem_of_In. by apply (list_elem_of_lookup_2 _ i).
Qed.

Lemma transfer_of_branch inst r :
  type_of inst = d_type r -> matches inst r = true -> In r distbl -> branch_type (d_type r) = true ->
  exists k, transfer_of inst = Some k /\ kind_ok r k = true.
Proof.
  intros Ht Hm Hin Hb. pose proof rows_ok as Hall. rewrite forallb_forall in Hall. specialize (Hall r Hin).
  unfold row_ok in Hall. rewrite Hb in Hall. apply andb_true_iff in Hall as [He Ha].
  apply existsb_exists in He as (p & Hp & Hw). rewrite forallb_forall in Ha.
  unfold transfer_of. destruct (List.find _ transfers) as [q|] eqn:Hf.
  - apply find_some in Hf as [Hq Hi]. exists q.2. split; [done|]. specialize (Ha q Hq).
    apply orb_true_iff in Ha as [Hx|]; [|done]. by rewrite (excludes_ok _ _ _ Hx Hi) in Hm.
  - pose proof (find_none _ _ Hf p Hp) as Hn. cbn beta in Hn. by rewrite (row_within_ok _ _ _ Hw Hm) in Hn.
Qed.

Lemma transfer_of_other inst : branch_type (type_of inst) = false -> transfer_of inst = None.
Proof.
  intros Hb. unfold transfer_of. destruct (List.find _ transfers) as [q|] eqn:Hf; [|done]. exfalso.
  apply find_some in Hf as [Hq Hi]. pose proof transfers_covered as Hall. rewrite forallb_forall in Hall.
  destruct (covered_ok _ _ _ (Hall q Hq) Hi) as (i & r & H1 & H2 & H3).
  by rewrite (type_of_row inst i r H1 H2), H3 in Hb.
Qed.

(** ** Branch targets *)

Lemma land_low k q d : 0 <= k -> 0 <= d < 2 ^ k -> Z.land (q * 2 ^ k) d = 0.
Proof. intros Hk Hd. pose proof (Z.add_lor_land (q * 2 ^ k) d) as H. rewrite lor_low in H by done. lia. Qed.

(** The sign extension of the offset. *)
Lemma sext16 v : 0 <= v < 2 ^ 16 ->
  (if Z.land v 0x8000 =? 0 then v else s32 (Z.lor v 0xffff0000)) = wraps 16 v.
Proof.
  intros Hv. unfold wraps. change (2 ^ (16 - 1)) with 0x8000. change 0x8000 with (1 * 2 ^ 15) in *.
  destruct (Z.lt_ge_cases v (2 ^ 15)) as [Hl|Hl].
  - rewrite Z.land_comm, land_low by lia. cbn [Z.eqb]. rewrite Z.mod_small by lia. lia.
  - set (d := v - 2 ^ 15). assert (v = Z.lor (1 * 2 ^ 15) d) as E by (rewrite lor_low; lia).
    assert (Z.land v (1 * 2 ^ 15) = 1 * 2 ^ 15) as ->.
    { rewrite E, Z.land_lor_distr_l, Z.land_diag, (Z.land_comm d), land_low by lia. apply Z.lor_0_r. }
    change (1 * 2 ^ 15 =? 0) with false. cbn iota.
    rewrite Z.lor_comm. change 0xffff0000 with (0xffff * 2 ^ 16). rewrite lor_low by lia.
    unfold s32, wraps. rewrite <- (Z.mod_unique (0xffff * 2 ^ 16 + v + 2 ^ (32 - 1)) (2 ^ 32) 1 (v + 0x7fff0000)) by lia.
    rewrite <- (Z.mod_unique (v + 1 * 2 ^ 15) (2 ^ 16) 1 (v - 2 ^ 15)) by lia. lia.
Qed.

Lemma land_ffff inst : Z.land inst 0xffff = inst mod 2 ^ 16.
Proof. change 0xffff with (Z.ones 16). by rewrite Z.land_ones. Qed.

(** The target the monitor computes is the processor's. *)
Lemma offset_target inst a :
  let val := Z.land inst 0xffff in
  let val := if Z.land val 0x8000 =? 0 then val else s32 (Z.lor val 0xffff0000) in
  u32 (s32 (a + 4 + s32 (Z.shiftl val 2))) = u32 (a + 4 + offset inst).
Proof.
  cbn zeta. rewrite sext16 by (rewrite land_ffff; apply Z.mod_pos_bound; lia).
  rewrite wrapu_wraps. unfold offset. set (v := wraps 16 _). rewrite Z.shiftl_mul_pow2 by lia.
  unfold u32, wrapu. rewrite Z.add_mod by lia. change (s32 (v * 2 ^ 2) mod 2 ^ 32) with (wrapu 32 (wraps 32 (v * 2 ^ 2))).
  rewrite wrapu_wraps. unfold wrapu. rewrite <- Z.add_mod by lia. f_equal. lia.
Qed.

Lemma jump_range inst a :
  0 <= Z.lor (Z.land (u32 (a + 4)) 0xf0000000) (Z.shiftl (Z.land inst 0x3ffffff) 2) < 2 ^ 32.
Proof.
  assert (Z.land (u32 (a + 4)) 0xf0000000 = (u32 (a + 4) / 2 ^ 28) * 2 ^ 28) as ->.
  { change 0xf0000000 with (Z.land (Z.ones 32) (Z.lnot (Z.ones 28))).
    rewrite Z.land_assoc, Z.land_ones, Z.mod_small by (try lia; apply u32_range).
    rewrite <- Z.ldiff_land, Z.ldiff_ones_r by lia. by rewrite Z.shiftr_div_pow2, Z.shiftl_mul_pow2 by lia. }
  change 0x3ffffff with (Z.ones 26). rewrite Z.land_ones, Z.shiftl_mul_pow2 by lia.
  pose proof (Z.mod_pos_bound inst (2 ^ 26)). pose proof (u32_range (a + 4)) as Hr.
  rewrite lor_low by lia.
  pose proof (Z.div_pos (u32 (a + 4)) (2 ^ 28)). pose proof (Z.div_lt_upper_bound (u32 (a + 4)) (2 ^ 28) 16). lia.
Qed.

Section Step.
Context {D : Type} `{WatchFuncs D}.
Context (big : bool) (rom : Z -> bool).
#[local] Set Default Proof Using "Type".

Lemma fetch_range m a : 0 <= fetch big m a < 2 ^ 32.
Proof. apply u32_range. Qed.

(** The field tests of a matched entry. *)
Lemma row_field r s p k inst :
  row_within r (field s p k) = true -> matches inst r = true ->
  0 <= s -> 0 <= p -> 0 <= k < 2 ^ s -> 0 <= inst < 2 ^ 32 -> getfield inst s p = k.
Proof. intros Hw Hm Hs Hp Hk Hi. apply in_field; try done. by apply (row_within_ok r). Qed.

Lemma RS_rs_of inst : 0 <= inst < 2 ^ 32 -> RS_ inst = rs_of inst.
Proof.
  intros Hi. unfold RS_, rs_of, getfield. rewrite u32_small by done.
  change (Z.shiftl 1 5 - 1) with (Z.ones 5). change 31 with (Z.ones 5). rewrite Z.shiftr_land.
  rewrite Z.shiftr_shiftl_l, Z.sub_diag by lia. by rewrite Z.shiftl_0_r.
Qed.

(** Where the client can be after the instruction at [a]: the branch target, or
    past the delay slot of a branch that may not be taken. *)
Lemma next_pc_cases gpr cc m a :
  gpr 0 = 0 ->
  let inst := fetch big m a in
  let t := type_of inst in
  (branch_type t = false /\ next_pc gpr cc inst a = u32 (a + 4)) \/
  (branch_type t = true /\
   (next_pc gpr cc inst a = u32 (branch_target_address big gpr m a) \/
    (is_conditional_branch big m a = true /\ next_pc gpr cc inst a = u32 (a + 8)))).
Proof.
  intros H0. cbn zeta. set (inst := fetch big m a).
  destruct (branch_type (type_of inst)) eqn:Hb.
  2:{ left. split; [done|]. unfold next_pc. by rewrite transfer_of_other. }
  right. split; [done|]. destruct (found_row inst) as (r & Ht & Hm & Hin).
  destruct (transfer_of_branch inst r Ht Hm Hin) as (k & Hk & Hok); [by rewrite <- Ht|].
  unfold next_pc, branch_target_address, is_conditional_branch. fold inst. rewrite Hk, Ht.
  pose proof (fetch_range m a) as Hr. fold inst in Hr. unfold kind_ok in Hok.
  pose proof (RS_rs_of inst Hr) as Hrs.
  destruct (d_type r) eqn:Ed; try done; destruct k as [| |c]; try done;
    try (rewrite offset_target);
    first [left; by rewrite Hrs, wrapu_wraps
          |left; rewrite wrapu_wraps, (u32_small (Z.lor _ _)); [done|apply jump_range]
          |(destruct (holds _ _ _ _); [by left|by right])
          |idtac].
  left. assert (holds c (gpr (rs_of inst)) (gpr (rt_of inst)) cc = true) as ->; [|done].
  destruct c; try done.
  - apply andb_true_iff in Hok as [W1 W2]. unfold rs_of, rt_of.
    rewrite (row_field r 5 21 0 inst W1 Hm), (row_field r 5 16 0 inst W2 Hm) by lia. apply Z.eqb_refl.
  - unfold rs_of. rewrite (row_field r 5 21 0 inst Hok Hm) by lia. by rewrite H0.
Qed.

End Step.

(** The client at [bne $4,$0,.+16] in the middle of memory. *)
Definition step_mem (x : Z) : Z := default 0 ([0x14; 0x80; 0; 3] !! Z.to_nat (x - 0x80020000)).
Definition step_client : client (D := r4k) :=
  mkClient (replicate 64 (mkBps NO_BPT 0 0 0 CNull)) (mkBps NO_BPT 0 0 0 CNull) (mkBps NO_BPT 0 0 0 CNull)
    (mkBps NO_BPT 0 0 0 CNull) (fun _ => 0) step_mem (mkWatch false [] (mkR4k 0 0 0))
    TRACE_NO 0 false false false false false [] (mkRing [] 0 0) [] false None.

