(* ===== verification/Loadrec.v ===== *)
(** * Loadrec: the download records

    The record loaders of [src/pmon/loadfn.c]: Motorola S-records and the
    base-64 "fast" format, with the check of every load address, and the
    S-record writer of [src/pmon/commands.c] ([sdump]). A line that makes the code
    store outside an array on its stack (a symbol's name of [LINESZ] characters, a
    bad digit that counts in [errs[-1]]) ends the download as [Spoiled].

    This file holds the definitions; their theorems are in LoadSafe. *)

From S2P Require Import Prelude CString Numconv Format Tunables Symtab Memory Bpt Watch.

(** [src/pmon/loadfn.h:3-13] *)
Record flags : Type := mkFlags {
  SFLAG : bool; BFLAG : bool; EFLAG : bool; AFLAG : bool; TFLAG : bool;
  IFLAG : bool; VFLAG : bool; FFLAG : bool; NFLAG : bool; YFLAG : bool; WFLAG : bool }.

(** The codes a record handler returns; [DL_MINUS1] is a plain [-1].
    [DL_OVERRUN] is none of the code's: it marks the place where a character is
    about to be stored behind the array [name] on the stack. What the code does
    from there on is not defined; the callers end there.
    [src/pmon/loadfn.h:15-24] *)
Inductive dlcode : Type :=
| DL_CONT | DL_DONE | DL_BADCHAR | DL_BADLEN | DL_BADTYPE | DL_BADSUM
| DL_NOSYMSPACE | DL_BADADDR | DL_IOERR | DL_MINUS1 | DL_OVERRUN.

#[export] Instance dlcode_eq_dec : EqDecision dlcode.
Proof. solve_decision. Defined.

(** The globals of the loader, with the memory, the symbols and the size of
    memory, and the registers the [-t] option uses.
    [src/pmon/loadfn.c:43-48] *)
Record dl : Type := mkDl {
  dl_entry : Z; dl_offset : Z; dl_minaddr : Z; dl_maxaddr : Z; dl_chksum : Z; nextaddr : Z;
  d_mem : mem; d_syms : symtab; d_lay : layout; d_a3 : Z; d_sp : Z; d_out : trace }.

Definition set_chk (k : Z) (s : dl) : dl :=
  mkDl (dl_entry s) (dl_offset s) (dl_minaddr s) (dl_maxaddr s) (s32 k) (nextaddr s) (d_mem s) (d_syms s)
    (d_lay s) (d_a3 s) (d_sp s) (d_out s).
Definition set_dmem (m : mem) (s : dl) : dl :=
  mkDl (dl_entry s) (dl_offset s) (dl_minaddr s) (dl_maxaddr s) (dl_chksum s) (nextaddr s) m (d_syms s)
    (d_lay s) (d_a3 s) (d_sp s) (d_out s).
Definition set_next (a : Z) (s : dl) : dl :=
  mkDl (dl_entry s) (dl_offset s) (dl_minaddr s) (dl_maxaddr s) (dl_chksum s) (u32 a) (d_mem s) (d_syms s)
    (d_lay s) (d_a3 s) (d_sp s) (d_out s).
Definition set_entry (a : Z) (s : dl) : dl :=
  mkDl (u32 a) (dl_offset s) (dl_minaddr s) (dl_maxaddr s) (dl_chksum s) (nextaddr s) (d_mem s) (d_syms s)
    (d_lay s) (d_a3 s) (d_sp s) (d_out s).
Definition set_syms (t : symtab) (s : dl) : dl :=
  mkDl (dl_entry s) (dl_offset s) (dl_minaddr s) (dl_maxaddr s) (dl_chksum s) (nextaddr s) (d_mem s) t
    (d_lay s) (d_a3 s) (d_sp s) (d_out s).
Definition put (o : trace) (s : dl) : dl :=
  mkDl (dl_entry s) (dl_offset s) (dl_minaddr s) (dl_maxaddr s) (dl_chksum s) (nextaddr s) (d_mem s) (d_syms s)
    (d_lay s) (d_a3 s) (d_sp s) (d_out s ++ o).

Definition add_chk (v : Z) (s : dl) : dl := set_chk (dl_chksum s + v) s.

(** [src/pmon/loadfn.c:68-112] *)
Definition dl_checkloadaddr (addr size : Z) (verbose : bool) (s : dl) : bool * dl :=
  let l := d_lay s in
  let refuse msg := (false, if verbose then put [Printf msg []] s else s) in
  if (addr <? K0BASE) || (K2BASE <? u32 (addr + size)) then refuse "\nattempt to load into mappable region"%string
  else
    let start := K0_TO_PHYS addr in
    let finish := u32 (start + size) in
    if overlap start finish 0x1fc00000 0x20000000 then refuse "\nattempt to load into PROM space"%string
    else if overlap start finish (K0_TO_PHYS (ftext l)) (K0_TO_PHYS (etext l))
    then refuse "\nattempt to overwrite monitor code"%string
    else if overlap start finish (K0_TO_PHYS (fdata l)) (K0_TO_PHYS (heaptop l))
    then refuse "\nattempt to overwrite monitor data"%string
    else if overlap start finish (memorysize l) 0x20000000
    then refuse "\nattempt to load outside of memory"%string
    else
      let lo := if addr <? dl_minaddr s then addr else dl_minaddr s in
      let hi := if dl_maxaddr s <? u32 (addr + size) then u32 (addr + size) else dl_maxaddr s in
      (true, mkDl (dl_entry s) (dl_offset s) lo hi (dl_chksum s) (nextaddr s) (d_mem s) (d_syms s)
               (d_lay s) (d_a3 s) (d_sp s) (d_out s)).

(** The symbols are cleared with [clrsyms], the breakpoints with [clrbpts], the
    watchpoints with [watchpoint_reset]; [clrhndlrs], which copies the exception
    vectors back, is an assembly routine.
    [src/pmon/loadfn.c:115-130] *)
Definition dl_initialise {D : Type} `{WatchFuncs D} (clrhndlrs : mem -> mem) (offset : Z) (fl : flags)
  (t : tunables) (c : client) (s : dl) : tunables * client * dl :=
  let '(st, t) := if SFLAG fl then (d_syms s, t) else clrsyms (d_syms s) t in
  let c := if BFLAG fl then c else clrbpts c in
  let m := if EFLAG fl then d_mem s else clrhndlrs (d_mem s) in
  (t, set_watch (watchpoint_reset (c_watch c)) c,
   mkDl (dl_entry s) (u32 offset) 0xffffffff 0 0 (nextaddr s) m st (d_lay s) (d_a3 s) (d_sp s) (d_out s)).

(** ** S-records *)

Fixpoint data_loop (n : nat) (p : cstr) (addr : Z) (s : dl) : bool * cstr * dl :=
  match n with
  | O => (true, p, s)
  | S n' =>
      match gethex p 2 with
      | None => (false, p, s)
      | Some v => data_loop n' (drop 2 p) (u32 (addr + 1)) (add_chk v (set_dmem (store_byte (d_mem s) addr v) s))
      end
  end.

(** The fields of the address: [k] of them. *)
Fixpoint addr_loop (k : nat) (p : cstr) (addr : Z) (s : dl) : option Z * dl :=
  match k with
  | O => (Some addr, s)
  | S k' =>
      match gethex p 2 with
      | None => (None, s)
      | Some v => addr_loop k' (drop 2 p) (u32 (Z.shiftl addr 8 + v)) (add_chk v s)
      end
  end.

(** The record's code, the number of bytes loaded and the new state.
    [src/pmon/loadfn.c:143-212] *)
Definition s3_datarec (p : cstr) (fl : flags) (s : dl) : dlcode * Z * dl :=
  let s := set_chk 0 s in
  if YFLAG fl then (DL_CONT, 0, s)
  else
    match gethex (drop 2 p) 2 with
    | None => (DL_BADCHAR, 0, s)
    | Some len =>
        let s := add_chk len s in
        if negb (len * 2 =? strlen (Some p) - 4) then (DL_BADLEN, 0, s)
        else if (at_ p 1 <? ch "1") || (ch "3" <? at_ p 1) then (DL_BADTYPE, 0, s)
        else
          let extra := Z.to_nat (at_ p 1 - ch "1") in
          let '(a, s) := addr_loop (S extra) (drop 4 p) 0 s in
          match a with
          | None => (DL_BADCHAR, 0, s)
          | Some addr =>
              let '(a, s) := addr_loop 1 (drop (6 + 2 * extra) p) addr s in
              match a with
              | None => (DL_MINUS1, 0, s)
              | Some addr =>
                  let addr := u32 (addr + dl_offset s) in
                  let i := 4 + 2 * Z.of_nat extra in
                  let len := len - (i / 2 + 1) in
                  let '(ok, s) := dl_checkloadaddr addr len (VFLAG fl) s in
                  if negb ok then (DL_BADADDR, 0, s)
                  else
                    let '(ok, p, s) := data_loop (Z.to_nat len) (drop (8 + 2 * extra) p) addr s in
                    if negb ok then (DL_BADCHAR, 0, s)
                    else
                      match gethex p 2 with
                      | None => (DL_BADCHAR, 0, s)
                      | Some cs =>
                          if negb (IFLAG fl) && negb (cs =? Z.land (Z.lnot (dl_chksum s)) 0xff)
                          then (DL_BADSUM, 0, s)
                          else (DL_CONT, Z.max 0 len, s)
                      end
              end
          end
    end.

(** [src/pmon/pmon.h:90] *)
Definition LINESZ : nat := 200.

Section Load.
(** The cell [malloc] finds for a new symbol. *)
Context (alloc : symtab -> option nat).
#[local] Set Default Proof Using "Type".

Fixpoint dlsym_loop (fuel : nat) (p : cstr) (len : Z) (fl : flags) (s : dl) : dlcode * cstr * dl :=
  match fuel with
  | O => (DL_BADCHAR, p, s)
  | S f =>
      if len <=? 2 then (DL_CONT, p, s)
      else
        match gethex p 8 with
        | None => (DL_BADCHAR, p, s)
        | Some adr =>
            let p := drop 8 p in
            match strchr (Some p) (ch ",") with
            | None => (DL_BADCHAR, p, s)
            | Some t =>
                let name := take t p in
                if (LINESZ <=? t)%nat then (DL_OVERRUN, p, s) else
                let '(ok, st) := newsym name (u32 (if AFLAG fl then adr else adr + dl_offset s)) (alloc (d_syms s)) (d_syms s) in
                let s := set_syms st s in
                if ok then dlsym_loop f (drop (S t) p) (len - 8 - Z.of_nat t) fl s
                else (DL_NOSYMSPACE, p, s)
            end
        end
  end.

(** Every round consumes nine characters at least. [src/pmon/loadfn.c:218-261] *)
Definition s3_dlsym (p : cstr) (fl : flags) (s : dl) : dlcode * dl :=
  if NFLAG fl then (DL_CONT, s)
  else
    match gethex (drop 2 p) 2 with
    | None => (DL_BADCHAR, s)
    | Some len =>
        let '(code, p, s) := dlsym_loop (S (length p)) (drop 4 p) len fl s in
        match code with
        | DL_CONT => match gethex p 2 with None => (DL_BADCHAR, s) | Some _ => (DL_CONT, s) end
        | _ => (code, s)
        end
    end.

(** [src/pmon/loadfn.c:267-279] *)
Definition s3_endrec (p : cstr) (s : dl) : dlcode * dl :=
  match gethex (drop 4 p) ((ch "9" - at_ p 1 + 2) * 2) with
  | Some adr => (DL_DONE, set_entry (adr + dl_offset s) s)
  | None => (DL_DONE, set_entry 0xdeadbeef s)
  end.

(** [src/pmon/loadfn.c:285-306] *)
Definition dl_s3load (recbuf : cstr) (fl : flags) (s : dl) : dlcode * Z * dl :=
  let c := at_ recbuf 1 in
  if negb (at_ recbuf 0 =? ch "S") then (DL_BADCHAR, 0, s)
  else if c =? ch "0" then (DL_CONT, 0, s)
  else if (ch "1" <=? c) && (c <=? ch "3") then s3_datarec recbuf fl s
  else if c =? ch "4" then let '(code, s) := s3_dlsym recbuf fl s in (code, 0, s)
  else if (ch "7" <=? c) && (c <=? ch "9") then let '(code, s) := s3_endrec recbuf s in (code, 0, s)
  else (DL_BADTYPE, 0, s).

(** ** Fast records *)

(** The value of a base-64 digit, or 64. [src/pmon/loadfn.c:312-329] *)
Definition etob : list Z :=
  replicate 44 64 ++ [62; 64; 63; 64] ++ seqZ 52 10 ++ replicate 7 64 ++ seqZ 0 26 ++ replicate 6 64 ++
  seqZ 26 26 ++ replicate 5 64.

Fixpoint b64_loop (n : nat) (p : cstr) (v : Z) : option Z :=
  match n with
  | O => Some v
  | S n' =>
      let b := default 64 (etob !! Z.to_nat (Z.land (at_ p 0) 0x7f)) in
      if b =? 64 then None else b64_loop n' (drop 1 p) (Z.lor (u32 (Z.shiftl v 6)) b)
  end.

(** [src/pmon/loadfn.c:342-370] *)
Definition getb64 (p : cstr) (n : Z) (s : dl) : option Z * dl :=
  match b64_loop (Z.to_nat (Z.abs n)) p 0 with
  | None => (None, s)
  | Some v =>
      let s := if n =? 6 then add_chk (Z.land (Z.shiftr v 24) 0xfff) s else s in
      let s := if (n =? 6) || (n =? 4) then add_chk (Z.land (Z.shiftr v 12) 0xfff) s else s in
      let s := if (n =? 6) || (n =? 4) || (n =? 2) then add_chk (Z.land v 0xfff) s else s in
      (Some v, s)
  end.

(** [src/pmon/mips.S:1495-1501] *)
Definition clienttos (memsize : Z) : Z := u32 (Z.land (u32 (memsize + K0BASE)) (u32 (Z.lnot 7)) - 24).

(** [src/pmon/loadfn.c:377-387] *)
Definition getrec (blkinx blksz : nat) : option (nat * nat) :=
  if (blksz <=? blkinx)%nat then None else Some (blkinx, (blkinx + 4)%nat).

Fixpoint zero_loop (n : nat) (s : dl) : dl :=
  match n with
  | O => s
  | S n' => zero_loop n' (set_next (nextaddr s + 1) (set_dmem (store_byte (d_mem s) (nextaddr s) 0) s))
  end.

(** The name of a symbol: its characters, and where the next record is; or the
    code to return. [src/pmon/loadfn.c:474-486] *)
Fixpoint name_loop (fuel : nat) (recbuf : cstr) (rp i blkinx : nat) (name : cstr) : cstr * nat * option dlcode :=
  match fuel with
  | O => (name, blkinx, Some DL_BADLEN)
  | S f =>
      let c := at_ recbuf (rp + i) in
      if c =? ch "," then
        (name, blkinx, if (LINESZ <=? length name)%nat then Some DL_OVERRUN else None)
      else if (LINESZ <=? length name)%nat then (name, blkinx, Some DL_OVERRUN)
      else
        let name := name ++ [c] in
        if (4 <=? S i)%nat then
          match getrec blkinx (length recbuf) with
          | None => (name, blkinx, Some DL_BADLEN)
          | Some (rp, blkinx) => name_loop f recbuf rp 0 blkinx name
          end
        else name_loop f recbuf rp (S i) blkinx name
  end.

(** The [-t] option: the client goes to the top of memory, which shrinks.
    [src/pmon/loadfn.c:460-464] *)
Definition top_of_memory (addr : Z) (s : dl) : dl :=
  let l := d_lay s in
  let size := u32 (memorysize l - addr) in
  let next := u32 (size + K0BASE) in
  mkDl (dl_entry s) (dl_offset s) (dl_minaddr s) (dl_maxaddr s) (dl_chksum s) next (d_mem s) (d_syms s)
    (mkLayout (ftext l) (etext l) (fdata l) (heaptop l) size) next (clienttos size) (d_out s).

(** What one round of the loop does: go on with the next record, leave the loop,
    or return a code. *)
Inductive round : Type :=
| Next (blkinx : nat) (code : dlcode) (n : Z) (s : dl)
| Leave (s : dl)
| Ret (code : dlcode) (s : dl).

(** A record that starts with a slash. [src/pmon/loadfn.c:414-493] *)
Definition fast_command (recbuf : cstr) (rp blkinx : nat) (code : dlcode) (fl : flags) (s : dl) : round :=
  let c := at_ recbuf (rp + 1) in
  if c =? ch "K" then Next blkinx code 0 (set_chk 0 s)
  else if c =? ch "C" then
    match getb64 (drop (rp + 2) recbuf) (-2) s with
    | (None, s) => Ret DL_BADCHAR s
    | (Some zcnt, s) =>
        let s := set_chk (Z.land (dl_chksum s) 0xfff) s in
        if negb (IFLAG fl) && negb (zcnt =? dl_chksum s) then Ret DL_BADSUM s
        else Next blkinx code 0 (set_chk 0 s)
    end
  else if c =? ch "Z" then
    match getb64 (drop (rp + 2) recbuf) 2 s with
    | (None, s) => Ret DL_BADCHAR s
    | (Some zcnt, s) =>
        let zcnt := u32 (zcnt * 3) in
        if YFLAG fl then Next blkinx code 0 (set_next (nextaddr s + zcnt) s)
        else
          let '(ok, s) := dl_checkloadaddr (nextaddr s) zcnt (VFLAG fl) s in
          if ok then Next blkinx code zcnt (zero_loop (Z.to_nat zcnt) s) else Ret DL_BADADDR s
    end
  else if c =? ch "B" then
    match getb64 (drop (rp + 2) recbuf) 2 s with
    | (None, s) => Ret DL_BADCHAR s
    | (Some bdat, s) =>
        if YFLAG fl then Next blkinx code 0 (set_next (nextaddr s + 1) s)
        else
          let '(ok, s) := dl_checkloadaddr (nextaddr s) 1 (VFLAG fl) s in
          if ok
          then Next blkinx code 1 (set_next (nextaddr s + 1) (set_dmem (store_byte (d_mem s) (nextaddr s) bdat) s))
          else Ret DL_BADADDR s
    end
  else if c =? ch "A" then
    match getrec blkinx (length recbuf) with
    | None => Ret DL_BADLEN s
    | Some (_, blkinx) =>
        match getb64 (drop (rp + 2) recbuf) 6 s with
        | (None, s) => Ret DL_BADCHAR s
        | (Some addr, s) =>
            Next blkinx code 0
              (if TFLAG fl && (d_a3 s =? 0) then top_of_memory addr s
               else set_next (addr + dl_offset s) s)
        end
    end
  else if c =? ch "E" then Next blkinx DL_DONE 0 (set_entry (nextaddr s) s)
  else if c =? ch "S" then
    let '(name, blkinx, ret) := name_loop (S (length recbuf)) recbuf rp 2 blkinx [] in
    match ret with
    | Some e => Ret e s
    | None =>
        if NFLAG fl then Next blkinx code 0 s
        else
          let '(ok, st) := newsym name (nextaddr s) (alloc (d_syms s)) (d_syms s) in
          if ok then Next blkinx code 0 (set_syms st s) else Ret DL_NOSYMSPACE (set_syms st s)
    end
  else Ret DL_BADTYPE s.

(** Three bytes of data. [src/pmon/loadfn.c:494-507] *)
Definition fast_data (recbuf : cstr) (rp blkinx : nat) (code : dlcode) (fl : flags) (s : dl) : round :=
  match getb64 (drop rp recbuf) 4 s with
  | (None, s) => Ret DL_BADLEN s
  | (Some bdat, s) =>
      if YFLAG fl then Leave (set_next (nextaddr s + 3) s)
      else
        let '(ok, s) := dl_checkloadaddr (nextaddr s) 3 (VFLAG fl) s in
        if ok then
          Next blkinx code 3
            (fold_left (fun s i => set_next (nextaddr s + 1)
                                     (set_dmem (store_byte (d_mem s) (nextaddr s) (Z.shiftr bdat i)) s))
               [16; 8; 0] s)
        else Ret DL_BADADDR s
  end.

Fixpoint fast_loop (fuel : nat) (recbuf : cstr) (blkinx : nat) (code : dlcode) (len : Z) (fl : flags) (s : dl)
  : dlcode * Z * dl :=
  match fuel with
  | O => (code, len, s)
  | S f =>
      match getrec blkinx (length recbuf) with
      | None => (code, len, s)
      | Some (rp, blkinx) =>
          match (if at_ recbuf rp =? ch "/" then fast_command recbuf rp blkinx code fl s
                 else fast_data recbuf rp blkinx code fl s) with
          | Next blkinx code n s => fast_loop f recbuf blkinx code (len + n) fl s
          | Leave s => (code, len, s)
          | Ret code s => (code, 0, s)
          end
      end
  end.

(** Every round passes four characters at least.
    [src/pmon/loadfn.c:394-512] *)
Definition dl_fastload (recbuf : cstr) (fl : flags) (s : dl) : dlcode * Z * dl :=
  if negb (Z.of_nat (length recbuf) mod 4 =? 0) then (DL_BADLEN, 0, s)
  else fast_loop (S (length recbuf)) recbuf 0 DL_CONT 0 fl s.

(** ** The [load] command

    The records are what [fread] or [fgets] returned, in order. *)

(** [src/pmon/load.c:14] *)
Definition ETX : Z := 3.

Fixpoint strip_end (r : list Z) : list Z :=
  match r with
  | [] => []
  | c :: r' => if negb (isspace c) && negb (c =? ETX) then r else strip_end r'
  end.

(** The line without the blanks and ETX at its end. [src/pmon/load.c:276-284] *)
Definition strip (line : cstr) : cstr := rev (strip_end (rev line)).

(** The variables of the loop: [dltype] (-1, 0 for S-records, 1 for fast
    records), the count of bytes, of records and of errors, and the errors of each
    code.
    [src/pmon/load.c:66-71] *)
Record loading : Type := mkLoading {
  dltype : Z; tot : Z; recno : Z; err : Z; errs : dlcode -> Z; l_dl : dl }.

Definition count_err (e : dlcode) (l : loading) : loading :=
  mkLoading (dltype l) (tot l) (recno l) (err l + 1)
    (fun k => if bool_decide (k = e) then errs l k + 1 else errs l k) (l_dl l).

Definition dl_err (e : dlcode) : string :=
  match e with
  | DL_CONT => "continue(!)" | DL_DONE => "done(!)" | DL_BADCHAR => "bad char" | DL_BADLEN => "bad length"
  | DL_BADTYPE => "bad type" | DL_BADSUM => "bad checksum" | DL_NOSYMSPACE => "out of symbol space"
  | DL_BADADDR => "bad load address" | DL_IOERR => "i/o error" | DL_MINUS1 | DL_OVERRUN => "" end.

(** The type of the records, which the first one decides.
    [src/pmon/load.c:286-301] *)
Definition record_type (ty : Z) (recbuf : cstr) : option Z :=
  if negb (ty =? -1) then Some ty
  else if at_ recbuf 0 =? ch "/" then Some 1
  else if at_ recbuf 0 =? ch "S" then Some 0
  else None.

(** Whether the loop goes on, is left, or is about to store outside an array on
    the stack: behind [name], or in [errs[-1]], for the code [-1]. *)
Inductive after : Type := ReadOn | LeaveLoop | StackSpoiled.

(** One record. [etxack] tells that the protocol is ETX/ACK, which stops at the
    first error. [src/pmon/load.c:275-324] *)
Definition load_record (etxack : bool) (fl : flags) (line : cstr) (l : loading) : after * loading :=
  let l := mkLoading (dltype l) (tot l) (recno l + 1) (err l) (errs l) (l_dl l) in
  let recbuf := strip line in
  if (length recbuf =? 0)%nat then (ReadOn, l)
  else
    let c := at_ recbuf 0 in
    match record_type (dltype l) recbuf with
    | None =>
        let l := count_err DL_BADCHAR l in
        (LeaveLoop, mkLoading (dltype l) (tot l) (recno l) (err l) (errs l)
                  (if VFLAG fl
                   then put [Printf "unknown record type '%c' (0x%x)\n"
                               [AInt (if isprint c then c else ch "?"); AInt (Z.land c 0xff)]] (l_dl l)
                   else l_dl l))
    | Some ty =>
        let '(s, len, d) :=
          if ty =? 1 then dl_fastload recbuf fl (l_dl l) else dl_s3load recbuf fl (l_dl l) in
        let l := mkLoading ty (tot l + len) (recno l) (err l) (errs l) d in
        match s with
        | DL_DONE => (LeaveLoop, l)
        | DL_CONT => (ReadOn, l)
        | DL_MINUS1 | DL_OVERRUN => (StackSpoiled, l)
        | _ =>
            let l := count_err s l in
            let d := if VFLAG fl
                     then put [Printf "line %d: %s\n" [AInt (recno l); AStr (Some (str (dl_err s)))];
                               Printf "%s\n" [AStr (Some recbuf)]] (l_dl l)
                     else l_dl l in
            (if etxack then LeaveLoop else ReadOn, mkLoading (dltype l) (tot l) (recno l) (err l) (errs l) d)
        end
    end.

(** The end of the loop, or the state in which a store outside an array on the
    stack is about to be made. *)
Inductive loaded : Type := Loaded (l : loading) | Spoiled (l : loading).

(** [src/pmon/load.c:246-337] *)
Fixpoint load_loop (etxack : bool) (fl : flags) (lines : list cstr) (l : loading) : loaded :=
  match lines with
  | [] => Loaded l
  | line :: lines =>
      let '(next, l) := load_record etxack fl line l in
      match next with
      | ReadOn => load_loop etxack fl lines l
      | LeaveLoop => Loaded l
      | StackSpoiled => Spoiled l
      end
  end.

(** The records through the loop, from its start.
    [src/pmon/load.c:219-220] *)
Definition load_records (etxack : bool) (fl : flags) (lines : list cstr) (d : dl) : loaded :=
  load_loop etxack fl lines (mkLoading (-1) 0 0 0 (fun _ => 0) d).

(** [start] is the monitor's own address and [m1] to [m4] the cells for the four
    standard symbols. [src/pmon/loadfn.c:132-136] *)
Definition dl_setloadsyms (start : Z) (m1 m2 m3 m4 : option nat) (epc : Z) (d : dl) : dl :=
  set_syms (defsyms start (dl_minaddr d) (dl_maxaddr d) epc m1 m2 m3 m4 (d_syms d)) d.

(** The report at the end, the result of the command and the new pc of the
    client, which is the entry when there was no error. [src/pmon/load.c:355-376] *)
Definition load_report (start : Z) (m1 m2 m3 m4 : option nat) (fl : flags) (epc : Z) (l : loading) : Z * Z * dl :=
  if err l =? 0 then
    let d := put [Printf "\ntotal = 0x%x bytes\n" [AInt (tot l)]] (l_dl l) in
    if FFLAG fl || YFLAG fl then (0, epc, d)
    else
      let d := put [Printf "Entry Address  = %08x\n" [AInt (dl_entry d)]] d in
      (0, dl_entry d, if SFLAG fl then d else dl_setloadsyms start m1 m2 m3 m4 (dl_entry d) d)
  else
    let lines := flat_map (fun e => if errs l e =? 0 then []
                                    else [Printf "   %3d %s\n" [AInt (errs l e); AStr (Some (str (dl_err e)))]])
                   [DL_CONT; DL_DONE; DL_BADCHAR; DL_BADLEN; DL_BADTYPE; DL_BADSUM; DL_NOSYMSPACE; DL_BADADDR;
                    DL_IOERR] in
    (1, epc, put ([Printf "\n%d error%s%s\n" [AInt (err l); AStr (Some (if err l =? 1 then [] else str "s"));
                                              AStr (Some [])]] ++ lines ++
                  [Printf "total = 0x%x bytes\n" [AInt (tot l)]]) (l_dl l)).
End Load.

(** ** The [dump] command *)

(** The data of a record, from [tmp] on, and the checksum.
    [src/pmon/commands.c:670-675] *)
Fixpoint dump_data (n : nat) (m : mem) (a cs : Z) : option (cstr * Z) :=
  match n with
  | O => Some ([], cs)
  | S n' =>
      let v := load_byte m a in
      match sprintf "%02X" [AInt (Z.land v 0xff)], dump_data n' m (u32 (a + 1)) (s32 (cs + v)) with
      | Some t, Some (r, cs) => Some (take 2 t ++ r, cs)
      | _, _ => None
      end
  end.

(** One record, as it is written. [src/pmon/commands.c:665-678] *)
Definition dump_record (m : mem) (adr len : Z) (eol : cstr) : option cstr :=
  let cs := fold_left (fun cs i => cs + Z.land (Z.shiftr adr (i * 8)) 0xff) [0; 1; 2; 3] (len + 5) in
  match sprintf "S3%02X%08X" [AInt (len + 5); AInt adr] with
  | None => None
  | Some line =>
      match dump_data (Z.to_nat len) m adr cs with
      | None => None
      | Some (r, cs) =>
          match sprintf "%02X%s" [AInt (Z.land (Z.lnot cs) 0xff); AStr (Some eol)] with
          | None => None
          | Some t => Some (take 12 line ++ r ++ take (2 + length eol) t)
          end
      end
  end.

(** The loop over the records; every round but the last writes 32 bytes.
    [src/pmon/commands.c:660-682] *)
Fixpoint dump_loop (fuel : nat) (m : mem) (adr siz : Z) (eol : cstr) : option (list cstr) :=
  match fuel with
  | O => None
  | S f =>
      if siz <=? 0 then Some []
      else
        let len := if siz <? 32 then siz else 32 in
        match dump_record m adr len eol, dump_loop f m (u32 (adr + len)) (siz - len) eol with
        | Some line, Some lines => Some (line :: lines)
        | _, _ => None
        end
  end.

(** What [sdump] writes to the port, call by call, from the values of [ulcr] and
    [uleof]; [binary] is the option [-B] (on a port that is not a terminal).
    [src/pmon/commands.c:640-689] *)
Definition sdump (binary : bool) (m : mem) (adr siz : Z) (ulcr uleof : cptr) : option (list cstr) :=
  if binary then Some [load_bytes m adr (Z.to_nat siz)]
  else
    let eol := if striequ ulcr (Some (str "cr")) then [cr]
               else if striequ ulcr (Some (str "lf")) then [nl] else [cr; nl] in
    match dump_loop (S (Z.to_nat siz)) m adr siz eol, sprintf "S70500000000FA%s" [AStr (Some eol)] with
    | Some lines, Some last => Some (lines ++ [last; default [] uleof])
    | _, _ => None
    end.
