(* ===== verification/LoadSafe.v ===== *)
(** * LoadSafe: what the download commands guarantee

    The theorems about Loadrec: what [sdump] writes, [load] loads back, byte for
    byte, without an error; and no record whatever, well formed or not, in either
    format, makes the loader write outside the memory a client may be loaded
    into, up to the first line that makes it store outside an array on its stack. *)

From S2P Require Import Prelude CString Numconv Format Tunables Symtab Memory Watch Loadrec.

(** ** Where a client may be loaded *)

(** Unmapped memory, outside the PROM and the monitor. *)
Definition outside_monitor (l : layout) (x : Z) : Prop :=
  K0BASE <= x < K2BASE /\ ~ 0x1fc00000 <= K0_TO_PHYS x < 0x20000000 /\
  ~ K0_TO_PHYS (ftext l) <= K0_TO_PHYS x < K0_TO_PHYS (etext l) /\
  ~ K0_TO_PHYS (fdata l) <= K0_TO_PHYS x < K0_TO_PHYS (heaptop l).

Definition loadable (l : layout) (x : Z) : Prop :=
  outside_monitor l x /\ ~ memorysize l <= K0_TO_PHYS x < 0x20000000.

Lemma K0_TO_PHYS_nonneg a : 0 <= K0_TO_PHYS a.
Proof. apply Z.land_nonneg. left. apply u32_range. Qed.

(** The test of the PROM keeps the sums from running over the end of a segment
    or of the address space. *)
Lemma range_phys a n :
  K0BASE <= a < 2 ^ 32 -> u32 (a + n) <= K2BASE -> 0 < n <= 2 ^ 31 ->
  overlap (K0_TO_PHYS a) (u32 (K0_TO_PHYS a + n)) 0x1fc00000 0x20000000 = false ->
  a + n <= K2BASE /\ u32 (K0_TO_PHYS a + n) = K0_TO_PHYS a + n /\ K0_TO_PHYS a + n <= 0x1fc00000 /\
  forall i, 0 <= i <= n -> K0_TO_PHYS (a + i) = K0_TO_PHYS a + i.
Proof.
  unfold K0BASE, K2BASE. intros Ha Hk Hn Ho. rewrite phys_mod in * by lia.
  pose proof (Z.div_mod a (2 ^ 29)) as Ed. pose proof (Z.mod_pos_bound a (2 ^ 29)) as Em.
  assert (a / 2 ^ 29 < 8) as Hq by (apply Z.div_lt_upper_bound; lia). change (2 ^ 29) with 0x20000000 in *.
  set (st := a mod 0x20000000) in *. rewrite (u32_small (st + n)) in * by lia.
  assert (st + n <= 0x1fc00000) as Hfin.
  { unfold overlap in Ho. destruct (Z.ltb_spec 0x1fc00000 (st + n)), (Z.ltb_spec st 0x20000000);
      cbn in Ho; try done; lia. }
  rewrite u32_small in Hk by lia. split; [lia|]. split; [lia|]. split; [lia|]. intros i Hi.
  rewrite phys_mod by lia. change (2 ^ 29) with 0x20000000. symmetry.
  apply (Z.mod_unique_pos _ _ (a / 0x20000000)); lia.
Qed.

(** The addresses a positive answer covers. *)
Lemma check_ok addr size v s s' i :
  dl_checkloadaddr addr size v s = (true, s') -> 0 <= addr < 2 ^ 32 -> 0 <= i < size -> size <= 2 ^ 31 ->
  0 <= addr + i < 2 ^ 32 /\ loadable (d_lay s) (addr + i).
Proof.
  unfold dl_checkloadaddr. intros H Ha Hi Hs.
  destruct (_ || _) eqn:E0; [by destruct v|]. apply orb_false_elim in E0 as [E0 E0']. apply Z.ltb_ge in E0, E0'.
  destruct (overlap _ _ 0x1fc00000 _) eqn:E1; [by destruct v|].
  destruct (overlap _ _ (K0_TO_PHYS (ftext _)) _) eqn:E2; [by destruct v|].
  destruct (overlap _ _ (K0_TO_PHYS (fdata _)) _) eqn:E3; [by destruct v|].
  destruct (overlap _ _ (memorysize _) _) eqn:E4; [by destruct v|]. clear H.
  destruct (range_phys addr size) as (Hk & Eu & Hf & Hx); [lia|done|lia|done|]. rewrite Eu in *.
  unfold loadable, outside_monitor. rewrite Hx by lia. unfold K0BASE, K2BASE in *.
  split; [lia|]. split; [split; [lia|split; [lia|split]]|].
  - by apply (overlap_false _ _ _ _ _ E2); lia.
  - by apply (overlap_false _ _ _ _ _ E3); lia.
  - by apply (overlap_false _ _ _ _ _ E4); lia.
Qed.

Lemma check_frame addr size v s ok s' :
  dl_checkloadaddr addr size v s = (ok, s') ->
  d_mem s' = d_mem s /\ d_lay s' = d_lay s /\ dl_offset s' = dl_offset s /\ nextaddr s' = nextaddr s /\
  dl_chksum s' = dl_chksum s /\ d_syms s' = d_syms s /\ dl_entry s' = dl_entry s.
Proof.
  unfold dl_checkloadaddr. intros H.
  repeat match type of H with context [if ?b then _ else _] => destruct b end; simplify_eq; done.
Qed.

(** ** Nothing is written elsewhere *)

(** How the state may change while records are loaded: the monitor stays where
    it is, the end of memory moves only under [-t], and memory changes only where
    a client may be. *)
Record safe (fl : flags) (s s' : dl) : Prop := mkSafe {
  safe_monitor : forall x, outside_monitor (d_lay s') x <-> outside_monitor (d_lay s) x;
  safe_layout : TFLAG fl = false -> d_lay s' = d_lay s;
  safe_next : 0 <= nextaddr s < 2 ^ 32 -> 0 <= nextaddr s' < 2 ^ 32;
  safe_mem : forall x, d_mem s' x <> d_mem s x ->
    outside_monitor (d_lay s) x /\ (TFLAG fl = false -> loadable (d_lay s) x) }.

#[export] Instance safe_preorder fl : PreOrder (safe fl).
Proof.
  split.
  - intros s. split; naive_solver.
  - intros s1 s2 s3 [A1 B1 C1 D1] [A2 B2 C2 D2]. split.
    + intros x. rewrite A2. apply A1.
    + intros Hf. by rewrite B2, B1.
    + auto.
    + intros x Hx. destruct (decide (d_mem s2 x = d_mem s1 x)) as [E|E]; [|by apply D1].
      destruct (D2 x) as [Ho Hl]; [congruence|]. split; [by apply A1|].
      intros Hf. rewrite <- (B1 Hf). by apply Hl.
Qed.

(** Changes that concern neither the memory nor its layout. *)
Lemma safe_same fl s s' :
  d_mem s' = d_mem s -> d_lay s' = d_lay s -> (0 <= nextaddr s < 2 ^ 32 -> 0 <= nextaddr s' < 2 ^ 32) -> safe fl s s'.
Proof. intros Em El En. split; rewrite ?Em, ?El; naive_solver. Qed.

Lemma safe_store fl s a v :
  0 <= a < 2 ^ 32 -> loadable (d_lay s) a -> safe fl s (set_dmem (store_byte (d_mem s) a v) s).
Proof.
  intros Ha Hl. split; cbn; try naive_solver. intros x Hx. unfold store_byte, upd in Hx.
  rewrite u32_small in Hx by lia. destruct (Z.eqb_spec x a) as [E|]; [|done]. rewrite E. split; [apply Hl|done].
Qed.

Lemma set_next_range a s : 0 <= nextaddr (set_next a s) < 2 ^ 32.
Proof. apply (u32_range a). Qed.

Lemma safe_set_next fl a s : safe fl s (set_next a s).
Proof. apply safe_same; [done..|]. intros _. apply set_next_range. Qed.

Lemma safe_check fl addr size v s ok s' : dl_checkloadaddr addr size v s = (ok, s') -> safe fl s s'.
Proof. intros H. apply check_frame in H as (Em & El & _ & En & _). apply safe_same; [done..|]. by rewrite En. Qed.

(** A store at [nextaddr], which moves on. *)
Lemma safe_push fl s v :
  0 <= nextaddr s < 2 ^ 32 -> loadable (d_lay s) (nextaddr s) ->
  safe fl s (set_next (nextaddr s + 1) (set_dmem (store_byte (d_mem s) (nextaddr s) v) s)).
Proof. intros Ha Hl. etransitivity; [by apply safe_store|]. apply safe_set_next. Qed.

(** The hypothesis the loops need: [n] addresses from [a] on may be written. *)
Definition room (l : layout) (a : Z) (n : nat) : Prop :=
  forall i, 0 <= i < Z.of_nat n -> 0 <= a + i < 2 ^ 32 /\ loadable l (a + i).

Lemma room_head l a n : room l a (S n) -> 0 <= a < 2 ^ 32 /\ loadable l a.
Proof. intros H. specialize (H 0). rewrite Z.add_0_r in H. apply H. lia. Qed.

Lemma room_tail l a n : room l a (S n) -> room l (u32 (a + 1)) n.
Proof.
  intros H i Hi. destruct n as [|n]; [lia|]. rewrite u32_small.
  - replace (a + 1 + i) with (a + (1 + i)) by lia. apply H. lia.
  - destruct (H 1); lia.
Qed.

Lemma zero_loop_safe fl n s : room (d_lay s) (nextaddr s) n -> safe fl s (zero_loop n s).
Proof.
  revert s. induction n as [|n IH]; intros s Hr; [reflexivity|]. cbn [zero_loop].
  destruct (room_head _ _ _ Hr) as [Ha Hl].
  etransitivity; [by apply (safe_push fl s 0)|]. apply IH. cbn. by apply room_tail.
Qed.

Lemma data_loop_safe fl n p a s ok p' s' :
  room (d_lay s) a n -> data_loop n p a s = (ok, p', s') -> safe fl s s'.
Proof.
  revert p a s. induction n as [|n IH]; intros p a s Hr H; cbn in H; [simplify_eq; reflexivity|].
  destruct (gethex p 2) as [v|]; [|simplify_eq; reflexivity].
  destruct (room_head _ _ _ Hr) as [Ha Hl]. etransitivity; [by apply (safe_store fl s a v)|].
  etransitivity; [|eapply IH; [|exact H]; cbn; by apply room_tail].
  by apply safe_same.
Qed.

Lemma addr_loop_safe fl k p a s r s' :
  addr_loop k p a s = (r, s') ->
  safe fl s s' /\ dl_offset s' = dl_offset s /\ (0 <= a < 2 ^ 32 -> forall b, r = Some b -> 0 <= b < 2 ^ 32).
Proof.
  revert p a s. induction k as [|k IH]; intros p a s H; cbn in H; [simplify_eq; naive_solver (reflexivity || lia)|].
  destruct (gethex p 2) as [v|]; [|simplify_eq; split; [reflexivity|done]].
  apply IH in H as (Hs & Ho & Hr). split; [|split; [exact Ho|]].
  - etransitivity; [|exact Hs]. by apply safe_same.
  - intros _. apply Hr. apply u32_range.
Qed.

Lemma digit_of_range c d : digit_of c = Some d -> 0 <= d < 16.
Proof.
  unfold digit_of, islower, isupper, isdigit. change (ch "0") with 48. change (ch "9") with 57.
  change (ch "A") with 65. change (ch "a") with 97. change (ch "F") with 70. change (ch "f") with 102.
  intros H. repeat (case_bool; cbn in H); simplify_eq; try done; lia.
Qed.

Lemma gethex2_range p v : gethex p 2 = Some v -> 0 <= v < 256.
Proof.
  unfold gethex. change (Z.to_nat 2) with 2%nat. intros H.
  destruct p as [|c1 p]; cbn in H; [done|]. destruct (digit_of c1) as [d1|] eqn:E1; [|done].
  destruct p as [|c2 p]; cbn in H; [done|]. destruct (digit_of c2) as [d2|] eqn:E2; [|done].
  apply digit_of_range in E1, E2. change (u32 0) with 0 in H. rewrite Z.lor_0_l in H.
  rewrite hex_step_ok in H by lia. destruct p; cbn in H; simplify_eq; lia.
Qed.

(** The check followed by a store of what was checked. *)
Lemma check_room fl addr size s s' :
  dl_checkloadaddr addr size (VFLAG fl) s = (true, s') -> 0 <= addr < 2 ^ 32 -> size <= 2 ^ 22 ->
  room (d_lay s') addr (Z.to_nat size).
Proof.
  intros H Ha Hs i Hi. destruct (check_frame _ _ _ _ _ _ H) as (_ & -> & _).
  apply (check_ok addr size _ s s' i H); lia.
Qed.

Lemma s3_datarec_safe fl p s c n s' : s3_datarec p fl s = (c, n, s') -> safe fl s s'.
Proof.
  unfold s3_datarec. intros H. etransitivity; [apply (safe_same fl s (set_chk 0 s)); done|].
  destruct (YFLAG fl); [simplify_eq; reflexivity|].
  destruct (gethex (drop 2 p) 2) as [len|] eqn:El; [|simplify_eq; reflexivity].
  apply gethex2_range in El. etransitivity; [apply (safe_same fl _ (add_chk len (set_chk 0 s))); done|].
  destruct (negb _); [simplify_eq; reflexivity|]. destruct (_ || _); [simplify_eq; reflexivity|].
  destruct (addr_loop (S _) _ _ _) as [a1 s1] eqn:E1. apply (addr_loop_safe fl) in E1 as (S1 & _ & _).
  etransitivity; [exact S1|]. destruct a1 as [a1|]; [|simplify_eq; reflexivity].
  destruct (addr_loop 1 _ _ _) as [a2 s2] eqn:E2. apply (addr_loop_safe fl) in E2 as (S2 & _ & _).
  etransitivity; [exact S2|]. destruct a2 as [a2|]; [|simplify_eq; reflexivity].
  destruct (dl_checkloadaddr _ _ _ _) as [ok s3] eqn:E3.
  etransitivity; [exact (safe_check fl _ _ _ _ _ _ E3)|].
  destruct ok; cbn [negb] in H; [|simplify_eq; reflexivity].
  pose proof (check_room fl _ _ _ _ E3 (u32_range _)) as Hr.
  destruct (data_loop _ _ _ _) as [[ok q] s4] eqn:E4.
  apply (data_loop_safe fl) in E4; [|apply Hr].
  2: { pose proof (Z.div_pos (4 + 2 * Z.of_nat (Z.to_nat (at_ p 1 - ch "1"))) 2). lia. }
  etransitivity; [exact E4|]. repeat case_match; simplify_eq; reflexivity.
Qed.

Section Safety.
Context (alloc : symtab -> option nat).
#[local] Set Default Proof Using "Type".

Lemma dlsym_loop_safe fl f p len s c p' s' : dlsym_loop alloc f p len fl s = (c, p', s') -> safe fl s s'.
Proof.
  revert p len s. induction f as [|f IH]; intros p len s H; cbn [dlsym_loop] in H; [simplify_eq; reflexivity|].
  destruct (len <=? 2); [simplify_eq; reflexivity|].
  destruct (gethex p 8) as [adr|]; [|simplify_eq; reflexivity].
  destruct (strchr _ _) as [t|]; [|simplify_eq; reflexivity].
  destruct (LINESZ <=? t)%nat; [simplify_eq; reflexivity|].
  destruct (newsym _ _ _ _) as [ok st]. etransitivity; [apply (safe_same fl s (set_syms st s)); done|].
  destruct ok; [by apply IH in H|simplify_eq; reflexivity].
Qed.

Lemma dl_s3load_safe fl p s c n s' : dl_s3load alloc p fl s = (c, n, s') -> safe fl s s'.
Proof.
  unfold dl_s3load. intros H. destruct (negb _); [simplify_eq; reflexivity|].
  destruct (_ =? ch "0"); [simplify_eq; reflexivity|].
  destruct (_ && _); [by apply s3_datarec_safe in H|].
  destruct (_ =? ch "4").
  - unfold s3_dlsym in H. destruct (NFLAG fl); [simplify_eq; reflexivity|].
    destruct (gethex _ 2); [|simplify_eq; reflexivity].
    destruct (dlsym_loop _ _ _ _ _ _) as [[k q] s1] eqn:E1. apply dlsym_loop_safe in E1.
    repeat case_match; simplify_eq; exact E1.
  - destruct (_ && _); [|simplify_eq; reflexivity]. unfold s3_endrec in H.
    destruct (gethex _ _); simplify_eq; by apply safe_same.
Qed.

Lemma getb64_frame p n s r s' :
  getb64 p n s = (r, s') -> d_mem s' = d_mem s /\ d_lay s' = d_lay s /\ nextaddr s' = nextaddr s.
Proof.
  unfold getb64. intros H. destruct (b64_loop _ _ _); [|by simplify_eq].
  repeat match type of H with context [if ?b then _ else _] => destruct b end; by simplify_eq.
Qed.

Lemma getb64_safe fl p n s r s' : getb64 p n s = (r, s') -> safe fl s s'.
Proof. intros H. apply getb64_frame in H as (Em & El & En). apply safe_same; [done..|]. by rewrite En. Qed.

Definition round_state (r : round) : dl := match r with Next _ _ _ s | Leave s | Ret _ s => s end.

(** The number of bytes of a zero fill. *)
Lemma b64_two p v : b64_loop 2 p 0 = Some v -> 0 <= v < 4096.
Proof.
  assert (forall k, 0 <= default 64 (etob !! k) <= 64) as Hr.
  { intros k. destruct (etob !! k) as [b|] eqn:E; [|cbn; lia]. apply list_elem_of_lookup_2 in E.
    assert (Forall (fun b => 0 <= b <= 64) etob) as Hf
      by (apply (bool_decide_unpack _); vm_compute; exact I).
    apply (Forall_elem _ _ _ Hf) in E. cbn. exact E. }
  cbn [b64_loop]. intros H. pose proof (Hr (Z.to_nat (Z.land (at_ p 0) 127))) as H1.
  destruct (Z.eqb_spec (default 64 (etob !! Z.to_nat (Z.land (at_ p 0) 127))) 64) as [|N1]; [done|].
  pose proof (Hr (Z.to_nat (Z.land (at_ (drop 1 p) 0) 127))) as H2.
  destruct (Z.eqb_spec (default 64 (etob !! Z.to_nat (Z.land (at_ (drop 1 p) 0) 127))) 64) as [|N2]; [done|].
  simplify_eq. change (u32 (Z.shiftl 0 6)) with 0. rewrite Z.lor_0_l.
  rewrite Z.shiftl_mul_pow2, u32_small by lia. rewrite (lor_low 6) by lia. lia.
Qed.

Lemma top_of_memory_safe fl addr s : TFLAG fl = true -> safe fl s (top_of_memory addr s).
Proof.
  intros Ht. split; cbn; [naive_solver|by rewrite Ht| |naive_solver]. intros _. apply u32_range.
Qed.

(** A check, then [k] bytes pushed. *)
Lemma check_push_safe fl v s ok s1 (f : list Z) :
  dl_checkloadaddr (nextaddr s) (Z.of_nat (length f)) v s = (ok, s1) -> ok = true ->
  0 <= nextaddr s < 2 ^ 32 -> (length f <= 3)%nat ->
  safe fl s (fold_left (fun s b => set_next (nextaddr s + 1)
                                     (set_dmem (store_byte (d_mem s) (nextaddr s) b) s)) f s1).
Proof.
  intros Hc -> Ha Hf. etransitivity; [exact (safe_check fl _ _ _ _ _ _ Hc)|].
  assert (room (d_lay s1) (nextaddr s1) (length f)) as Hr.
  { destruct (check_frame _ _ _ _ _ _ Hc) as (_ & -> & _ & -> & _). intros i Hi.
    apply (check_ok _ _ _ _ _ i Hc); lia. }
  clear Hc Hf Ha. revert s1 Hr. induction f as [|b f IH]; intros s1 Hr; [reflexivity|].
  cbn [fold_left]. destruct (room_head _ _ _ Hr). etransitivity; [by apply (safe_push fl s1 b)|].
  apply IH. cbn. by apply room_tail.
Qed.

Lemma fast_data_safe fl recbuf rp blkinx code s :
  0 <= nextaddr s < 2 ^ 32 -> safe fl s (round_state (fast_data recbuf rp blkinx code fl s)).
Proof.
  intros Ha. unfold fast_data. destruct (getb64 _ 4 s) as [r s1] eqn:E.
  pose proof (getb64_safe fl _ _ _ _ _ E) as S1. etransitivity; [exact S1|].
  pose proof (safe_next _ _ _ S1 Ha) as Ha1. destruct r as [bdat|]; [|reflexivity].
  destruct (YFLAG fl); [apply safe_set_next|].
  destruct (dl_checkloadaddr _ 3 _ _) as [ok s2] eqn:E2. destruct ok.
  - apply (check_push_safe fl _ s1 true s2 [Z.shiftr bdat 16; Z.shiftr bdat 8; Z.shiftr bdat 0] E2 eq_refl Ha1).
    cbn. lia.
  - exact (safe_check fl _ _ _ _ _ _ E2).
Qed.

Lemma fast_command_safe fl recbuf rp blkinx code s :
  0 <= nextaddr s < 2 ^ 32 -> safe fl s (round_state (fast_command alloc recbuf rp blkinx code fl s)).
Proof.
  intros Ha. unfold fast_command.
  destruct (_ =? ch "K"); [by apply safe_same|]. destruct (_ =? ch "C").
  { destruct (getb64 _ _ s) as [r s1] eqn:E. etransitivity; [exact (getb64_safe fl _ _ _ _ _ E)|].
    destruct r; [|reflexivity]. destruct (_ && _); by apply safe_same. }
  destruct (_ =? ch "Z").
  { destruct (getb64 _ _ s) as [r s1] eqn:E. pose proof (getb64_safe fl _ _ _ _ _ E) as S1.
    etransitivity; [exact S1|]. pose proof (safe_next _ _ _ S1 Ha) as Ha1. destruct r as [z|]; [|reflexivity].
    destruct (YFLAG fl); [apply safe_set_next|]. destruct (dl_checkloadaddr _ _ _ _) as [ok s2] eqn:E2.
    destruct ok; [|exact (safe_check fl _ _ _ _ _ _ E2)]. etransitivity; [exact (safe_check fl _ _ _ _ _ _ E2)|].
    apply zero_loop_safe. destruct (check_frame _ _ _ _ _ _ E2) as (_ & _ & _ & -> & _).
    apply (check_room fl _ _ _ _ E2 Ha1). unfold getb64 in E. change (Z.to_nat (Z.abs 2)) with 2%nat in E.
    destruct (b64_loop 2 _ 0) as [z'|] eqn:Ez; [|done]. cbn in E. simplify_eq. apply b64_two in Ez.
    rewrite u32_small by lia. lia. }
  destruct (_ =? ch "B").
  { destruct (getb64 _ _ s) as [r s1] eqn:E. pose proof (getb64_safe fl _ _ _ _ _ E) as S1.
    etransitivity; [exact S1|]. pose proof (safe_next _ _ _ S1 Ha) as Ha1. destruct r as [b|]; [|reflexivity].
    destruct (YFLAG fl); [apply safe_set_next|]. destruct (dl_checkloadaddr _ _ _ _) as [ok s2] eqn:E2.
    destruct ok; [|exact (safe_check fl _ _ _ _ _ _ E2)].
    apply (check_push_safe fl _ s1 true s2 [b] E2 eq_refl Ha1). cbn. lia. }
  destruct (_ =? ch "A").
  { destruct (getrec _ _) as [[? ?]|]; [|reflexivity]. destruct (getb64 _ _ s) as [r s1] eqn:E.
    etransitivity; [exact (getb64_safe fl _ _ _ _ _ E)|]. destruct r; [|reflexivity]. cbn [round_state].
    destruct (TFLAG fl) eqn:Et; cbn [andb]; [|apply safe_set_next].
    destruct (d_a3 s1 =? 0); [by apply top_of_memory_safe|apply safe_set_next]. }
  destruct (_ =? ch "E"); [by apply safe_same|]. destruct (_ =? ch "S"); [|reflexivity].
  destruct (name_loop _ _ _ _ _ _) as [[name k] [e|]]; [reflexivity|].
  destruct (NFLAG fl); [reflexivity|]. destruct (newsym _ _ _ _) as [[] st]; by apply safe_same.
Qed.

Lemma fast_loop_safe fl f recbuf blkinx code len s :
  0 <= nextaddr s < 2 ^ 32 -> safe fl s (fast_loop alloc f recbuf blkinx code len fl s).2.
Proof.
  revert blkinx code len s. induction f as [|f IH]; intros blkinx code len s Ha; cbn [fast_loop]; [reflexivity|].
  destruct (getrec _ _) as [[rp k]|]; [|reflexivity].
  match goal with |- context [match ?r with Next _ _ _ _ => _ | _ => _ end] => assert (safe fl s (round_state r)) as S1 end.
  { destruct (_ =? _); [by apply fast_command_safe|by apply fast_data_safe]. }
  match goal with |- context [match ?r with Next _ _ _ _ => _ | _ => _ end] =>
    destruct r as [k' c' n s1|s1|c' s1] end; cbn [round_state] in S1; [|exact S1..].
  etransitivity; [exact S1|]. apply IH. by apply (safe_next _ _ _ S1).
Qed.

Lemma load_record_safe etxack fl line l :
  0 <= nextaddr (l_dl l) < 2 ^ 32 -> safe fl (l_dl l) (l_dl (load_record alloc etxack fl line l).2).
Proof.
  intros Ha. unfold load_record. cbn [l_dl dltype]. destruct (length _ =? 0)%nat; [reflexivity|].
  match goal with |- context [match ?t with Some _ => _ | None => _ end] => destruct t as [ty|] end; [|cbn; destruct (VFLAG fl); by apply safe_same].
  destruct (if ty =? 1 then dl_fastload _ _ _ _ else _) as [[c n] s1] eqn:E.
  assert (safe fl (l_dl l) s1) as S1.
  { destruct (ty =? 1); [|by apply dl_s3load_safe in E]. unfold dl_fastload in E.
    destruct (negb _); [simplify_eq; reflexivity|].
    pose proof (fast_loop_safe fl (S (length (strip line))) (strip line) 0 DL_CONT 0 _ Ha) as S1. by rewrite E in S1. }
  etransitivity; [exact S1|]. destruct c; cbn; destruct (VFLAG fl); by apply safe_same.
Qed.

(** ** Lines that spoil the stack *)

(** The last byte of the address of an S-record is not two hexadecimal digits. *)
Definition bad_address (p : cstr) : Prop :=
  at_ p 0 = ch "S" /\ ch "1" <= at_ p 1 <= ch "3" /\
  gethex (drop (6 + 2 * Z.to_nat (at_ p 1 - ch "1")) p) 2 = None.

(** What a line must be like for that: it has a bad address, or is so long that the
    name of a symbol in it can fill the array. *)
Definition spoiling (line : cstr) : Prop := (LINESZ <= length (strip line))%nat \/ bad_address (strip line).

Lemma s3_datarec_codes fl p s c n s' : at_ p 0 = ch "S" -> ch "1" <= at_ p 1 <= ch "3" ->
  s3_datarec p fl s = (c, n, s') -> c = DL_MINUS1 \/ c = DL_OVERRUN -> bad_address p.
Proof.
  intros H0 H1 H Hc. split; [done|]. split; [done|]. destruct (gethex (drop (6 + _) p) 2) as [v|] eqn:E; [|done]. exfalso.
  unfold s3_datarec in H. destruct (YFLAG fl); [simplify_eq; naive_solver|].
  destruct (gethex (drop 2 p) 2); [|simplify_eq; naive_solver]. destruct (negb _); [simplify_eq; naive_solver|].
  destruct (_ || _); [simplify_eq; naive_solver|]. destruct (addr_loop (S _) _ _ _) as [[a1|] s1]; [|simplify_eq; naive_solver].
  cbn [addr_loop] in H. rewrite E in H. destruct (dl_checkloadaddr _ _ _ _) as [[|] s2]; cbn [negb] in H; [|simplify_eq; naive_solver].
  destruct (data_loop _ _ _ _) as [[[|] q] s3]; cbn [negb] in H; [|simplify_eq; naive_solver].
  destruct (gethex q 2); [|simplify_eq; naive_solver]. destruct (_ && _); simplify_eq; naive_solver.
Qed.

Lemma dlsym_loop_codes f p len fl s c p' s' : dlsym_loop alloc f p len fl s = (c, p', s') ->
  c = DL_MINUS1 \/ c = DL_OVERRUN -> (LINESZ <= length p)%nat.
Proof.
  revert p len s. induction f as [|f IH]; intros p len s H Hc; cbn [dlsym_loop] in H; [simplify_eq; naive_solver|].
  destruct (len <=? 2); [simplify_eq; naive_solver|]. destruct (gethex p 8); [|simplify_eq; naive_solver].
  destruct (strchr _ _) as [t|] eqn:Et; [|simplify_eq; naive_solver].
  assert (t <= length (drop 8 p))%nat as Hl by (apply strchr_Some in Et as [Et _]; apply lookup_lt_Some in Et; lia).
  rewrite length_drop in Hl. destruct (Nat.leb_spec LINESZ t); [lia|].
  destruct (newsym _ _ _ _) as [[] st]; [|simplify_eq; naive_solver].
  apply IH in H; [|done]. rewrite !length_drop in H. lia.
Qed.

Lemma name_loop_codes f recbuf rp i name blkinx nm k e : (length name + 2 <= rp + i)%nat -> (i <= 3)%nat ->
  (rp < length recbuf)%nat -> blkinx = (rp + 4)%nat -> name_loop f recbuf rp i blkinx name = (nm, k, Some e) ->
  e = DL_BADLEN \/ e = DL_OVERRUN /\ (LINESZ <= length recbuf)%nat.
Proof.
  revert rp i name blkinx. induction f as [|f IH]; intros rp i name blkinx Hn Hi Hr -> H; cbn [name_loop] in H; [simplify_eq; auto|].
  destruct (_ =? _); [destruct (Nat.leb_spec LINESZ (length name)); simplify_eq; right; split; [done|lia]|].
  destruct (Nat.leb_spec LINESZ (length name)); [simplify_eq; right; split; [done|lia]|].
  destruct (Nat.leb_spec 4 (S i)).
  - unfold getrec in H. destruct (Nat.leb_spec (length recbuf) (rp + 4)); [simplify_eq; auto|].
    eapply IH; [..|exact H]; [rewrite length_app; cbn; lia|lia|lia|done].
  - eapply IH; [..|exact H]; [rewrite length_app; cbn; lia|lia|lia|done].
Qed.

Definition round_code (r : round) : option dlcode := match r with Next _ c _ _ => Some c | Leave _ => None | Ret c _ => Some c end.

Lemma fast_command_codes fl recbuf rp code s c : (rp < length recbuf)%nat -> code <> DL_MINUS1 -> code <> DL_OVERRUN ->
  round_code (fast_command alloc recbuf rp (rp + 4) code fl s) = Some c -> c = DL_MINUS1 \/ c = DL_OVERRUN ->
  (exists s', fast_command alloc recbuf rp (rp + 4) code fl s = Ret c s') /\ (LINESZ <= length recbuf)%nat.
Proof.
  intros Hr Hc1 Hc2 H Hc. unfold fast_command in *.
  destruct (_ =? ch "K"); [cbn in H; naive_solver|]. destruct (_ =? ch "C").
  { destruct (getb64 _ _ _) as [[] ?]; [destruct (_ && _)|]; cbn in H; naive_solver. }
  destruct (_ =? ch "Z").
  { destruct (getb64 _ _ _) as [[] ?]; [destruct (YFLAG fl); [|destruct (dl_checkloadaddr _ _ _ _) as [[] ?]]|]; cbn in H; naive_solver. }
  destruct (_ =? ch "B").
  { destruct (getb64 _ _ _) as [[] ?]; [destruct (YFLAG fl); [|destruct (dl_checkloadaddr _ _ _ _) as [[] ?]]|]; cbn in H; naive_solver. }
  destruct (_ =? ch "A").
  { destruct (getrec _ _) as [[]|]; [destruct (getb64 _ _ _) as [[] ?]|]; cbn in H; naive_solver. }
  destruct (_ =? ch "E"); [cbn in H; naive_solver|]. destruct (_ =? ch "S"); [|cbn in H; naive_solver].
  destruct (name_loop _ _ _ _ _ _) as [[nm k] [e|]] eqn:En.
  - cbn in H. simplify_eq. apply name_loop_codes in En; [|cbn; lia|lia|done|done]. split; [by eexists|]. naive_solver.
  - destruct (NFLAG fl); [|destruct (newsym _ _ _ _) as [[] ?]]; cbn in H; naive_solver.
Qed.

Lemma fast_loop_codes f recbuf blkinx code len fl s c n s' : code <> DL_MINUS1 -> code <> DL_OVERRUN ->
  fast_loop alloc f recbuf blkinx code len fl s = (c, n, s') -> c = DL_MINUS1 \/ c = DL_OVERRUN -> (LINESZ <= length recbuf)%nat.
Proof.
  revert blkinx code len s. induction f as [|f IH]; intros blkinx code len s H1 H2 H Hc; cbn [fast_loop] in H; [simplify_eq; naive_solver|].
  unfold getrec in H. destruct (Nat.leb_spec (length recbuf) blkinx); [simplify_eq; naive_solver|].
  match type of H with context [match ?r with Next _ _ _ _ => _ | _ => _ end] => remember r as rd eqn:Er end.
  assert (forall c', round_code rd = Some c' -> c' = DL_MINUS1 \/ c' = DL_OVERRUN -> (exists s1, rd = Ret c' s1) /\ (LINESZ <= length recbuf)%nat) as Hrd.
  { intros c' Hk Hc'. subst rd. destruct (at_ recbuf blkinx =? ch "/"); [by apply (fast_command_codes fl recbuf blkinx code s c')|].
    unfold fast_data in Hk. destruct (getb64 _ _ _) as [[] ?]; [destruct (YFLAG fl); [|destruct (dl_checkloadaddr _ _ _ _) as [[] ?]]|]; cbn in Hk; naive_solver. }
  clear Er. destruct rd as [k1 c1 n1 s1|s1|c1 s1]; [|simplify_eq; naive_solver|simplify_eq; by apply (Hrd c)].
  eapply IH; [..|exact H|exact Hc]; intros ->; destruct (Hrd _ eq_refl ltac:(auto)) as [[? ?] _]; discriminate.
Qed.

Lemma load_record_spoiled etxack fl line l l' : load_record alloc etxack fl line l = (StackSpoiled, l') -> spoiling line.
Proof.
  unfold load_record, spoiling. cbn [l_dl dltype]. set (p := strip line). destruct (length p =? 0)%nat; [done|].
  destruct (record_type _ _) as [ty|]; [|done].
  destruct (if ty =? 1 then dl_fastload _ _ _ _ else _) as [[c n] s1] eqn:E. intros H.
  assert (c = DL_MINUS1 \/ c = DL_OVERRUN) as Hc by (destruct c; try destruct etxack; naive_solver).
  clear H. destruct (ty =? 1).
  { left. unfold dl_fastload in E. destruct (negb _); [simplify_eq; naive_solver|].
    by eapply (fast_loop_codes _ p 0 DL_CONT) in E. }
  unfold dl_s3load in E. destruct (Z.eqb_spec (at_ p 0) (ch "S")) as [E0|]; cbn [negb] in E; [|simplify_eq; naive_solver].
  destruct (_ =? ch "0"); [simplify_eq; naive_solver|]. destruct (_ && _) eqn:E1.
  { right. apply (s3_datarec_codes fl p (l_dl l) c n s1); [done| |done|done]. apply andb_true_iff in E1 as [?%Z.leb_le ?%Z.leb_le]. lia. }
  destruct (_ =? ch "4").
  - left. unfold s3_dlsym in E. destruct (NFLAG fl); [simplify_eq; naive_solver|]. destruct (gethex _ 2); [|simplify_eq; naive_solver].
    destruct (dlsym_loop _ _ _ _ _ _) as [[k q] s2] eqn:Ed.
    assert (k = c) as -> by (destruct k; [destruct (gethex q 2)|..]; simplify_eq; naive_solver).
    apply dlsym_loop_codes in Ed; [|done]. rewrite length_drop in Ed. lia.
  - destruct ((ch "7" <=? at_ p 1) && (at_ p 1 <=? ch "9")) in E; [unfold s3_endrec in E; destruct (gethex _ _) in E|]; cbn in E; injection E as <- _ _; by destruct Hc.
Qed.

Definition loaded_state (r : loaded) : loading := match r with Loaded l | Spoiled l => l end.

Lemma load_loop_safe etxack fl lines l :
  0 <= nextaddr (l_dl l) < 2 ^ 32 ->
  safe fl (l_dl l) (l_dl (loaded_state (load_loop alloc etxack fl lines l))) /\
  (forall l', load_loop alloc etxack fl lines l = Spoiled l' -> Exists spoiling lines).
Proof.
  revert l. induction lines as [|line lines IH]; intros l Ha; cbn [load_loop]; [done|].
  pose proof (load_record_safe etxack fl line l Ha) as S1. pose proof (load_record_spoiled etxack fl line l) as Hw.
  destruct (load_record _ _ _ _ _) as [[] l1]; cbn [snd loaded_state] in *; [|done|].
  - destruct (IH l1) as [S2 W2]; [by apply (safe_next _ _ _ S1)|]. split; [by etransitivity|]. intros l' Hl. right. by apply (W2 l').
  - split; [exact S1|]. intros l' _. left. by apply (Hw l1).
Qed.
End Safety.

(** C2. A download is confined. Whatever lines come from the port (S-records or
    fast records, well formed or not), with whatever options, the only bytes of
    memory that the loader stores to are in the unmapped segments, outside the
    PROM and outside the code, the data and the heap of the monitor, and inside
    the memory fitted unless the option [-t] moves the end of memory. This holds
    for the whole download, unless a line makes the code store outside an array on
    its stack; it then holds up to that store, and there is such a line among
    them: one of 200 characters or more (whose symbol's name fills the array), or
    an S-record with a bad digit in the last byte of its address. *)
Theorem load_confined (alloc : symtab -> option nat) (etxack : bool) (fl : flags) (lines : list cstr) (d : dl)
  (Hn : 0 <= nextaddr d < 2 ^ 32) :
  let r := load_records alloc etxack fl lines d in
  (forall x, d_mem (l_dl (loaded_state r)) x <> d_mem d x ->
    outside_monitor (d_lay d) x /\ (TFLAG fl = false -> loadable (d_lay d) x)) /\
  match r with Loaded _ => True | Spoiled _ => Exists spoiling lines end.
Proof.
  destruct (load_loop_safe alloc etxack fl lines (mkLoading (-1) 0 0 0 (fun _ => 0) d) Hn) as [Hs Hw].
  split; [apply (safe_mem _ _ _ Hs)|]. change (load_records _ _ _ _ _) with (load_loop alloc etxack fl lines (mkLoading (-1) 0 0 0 (fun _ => 0) d)).
  destruct (load_loop _ _ _ _ _); [done|by eapply Hw].
Qed.

(** The fast records of the comment at the top of the file, one line each. *)
Definition no_flags : flags := mkFlags false false false false false false false false false false false.
Definition dl0 : dl :=
  mkDl 0 0 0xffffffff 0 0 0 (fun _ => 0) (mkTab ∅ (replicate (Z.to_nat NHASH) []) None None 0 0) layout0 0 0 [].

Lemma load_confined_witness :
  0 <= nextaddr dl0 < 2 ^ 32 /\
  let r := load_records (fun _ => Some 0%nat) false no_flags [str "/ACgEgAA"; str "AAABAAAC"] dl0 in
  d_mem (l_dl (loaded_state r)) 0xa0120002 = 1 /\
  outside_monitor layout0 0xa0120002 /\ (TFLAG no_flags = false -> loadable layout0 0xa0120002).
Proof.
  assert (0 <= nextaddr dl0 < 2 ^ 32) as Hn by (vm_compute; split; congruence).
  split; [exact Hn|]. cbv zeta. split; [vm_compute; reflexivity|].
  pose proof (load_confined (fun _ => Some 0%nat) false no_flags [str "/ACgEgAA"; str "AAABAAAC"] dl0 Hn) as H. cbv zeta in H.
  destruct H as [H _]. apply (H 0xa0120002). vm_compute. congruence.
Defined.

(** Two lines that spoil the stack: a digit that is none, and a name that is too
    long. *)
Lemma spoiled_lines :
  (exists l, load_records (fun _ => Some 0%nat) false no_flags [str "S309802000xx010203044C"] dl0 = Spoiled l) /\
  (exists l, load_records (fun _ => Some 0%nat) false no_flags [str "S4FF80200000" ++ replicate 200 (ch "a") ++ str ",00"] dl0 = Spoiled l).
Proof. split; eexists; vm_compute; reflexivity. Qed.

(** ** The records of [sdump] *)

Lemma hexfield_split i j v : hexfield (i + j) v = hexfield i (v / 16 ^ Z.of_nat j) ++ hexfield j v.
Proof.
  revert v. induction j as [|j IH]; intros v.
  - rewrite Nat.add_0_r, app_nil_r. by rewrite Z.div_1_r.
  - rewrite Nat.add_succ_r. cbn [hexfield]. rewrite IH, <- app_assoc.
    rewrite Nat2Z.inj_succ, Z.pow_succ_r, Z.div_div by (try apply Z.pow_pos_nonneg; lia). done.
Qed.

Lemma hexfield_mod w v : hexfield w (v mod 16 ^ Z.of_nat w) = hexfield w v.
Proof.
  revert v. induction w as [|w IH]; intros v; [done|]. cbn [hexfield].
  rewrite Nat2Z.inj_succ, Z.pow_succ_r by lia.
  assert (0 < 16 ^ Z.of_nat w) by (apply Z.pow_pos_nonneg; lia).
  rewrite Z.rem_mul_r, Z.add_comm, Z.mul_comm by lia.
  rewrite Z_div_plus_full_l, (Z.div_small (v mod 16)), Z.add_0_r by (try apply Z.mod_pos_bound; lia).
  rewrite Z.add_comm, Z_mod_plus_full, Z.mod_mod by lia. by rewrite IH.
Qed.

(** Bytes in hexadecimal. *)
Definition hexbytes (bs : list Z) : cstr := flat_map (hexfield 2) bs.

Lemma hexbytes_cons b bs : hexbytes (b :: bs) = hexfield 2 b ++ hexbytes bs.
Proof. done. Qed.

Lemma hexbytes_length bs : length (hexbytes bs) = (2 * length bs)%nat.
Proof.
  induction bs as [|b bs IH]; [done|]. rewrite hexbytes_cons, length_app, hexfield_length, IH. cbn. lia.
Qed.

(** An address as four bytes. *)
Definition adr_bytes (a : Z) : list Z := [a / 2 ^ 24; a / 2 ^ 16 mod 256; a / 2 ^ 8 mod 256; a mod 256].

Lemma adr_bytes_ok a : 0 <= a < 2 ^ 32 -> bytes_ok (adr_bytes a).
Proof.
  intros Ha. unfold adr_bytes, bytes_ok, is_byte.
  repeat constructor; try (apply Z.mod_pos_bound; lia); [apply Z.div_pos; lia|apply Z.div_lt_upper_bound; lia].
Qed.

Lemma hexfield_adr a : 0 <= a < 2 ^ 32 -> hexfield 8 a = hexbytes (adr_bytes a).
Proof.
  intros Ha. unfold adr_bytes. rewrite !hexbytes_cons. cbn [hexbytes flat_map]. rewrite app_nil_r.
  change (hexfield 8 a) with (hexfield (2 + 6) a). rewrite hexfield_split.
  change (hexfield 6 a) with (hexfield (2 + 4) a). rewrite hexfield_split.
  change (hexfield 4 a) with (hexfield (2 + 2) a). rewrite hexfield_split.
  pose proof (hexfield_mod 2) as H. change (16 ^ Z.of_nat 2) with 256 in H. rewrite !H. done.
Qed.

Lemma gethex2 b rest : is_byte b -> gethex (hexfield 2 b ++ rest) 2 = Some b.
Proof. intros Hb. apply (gethex_field 2 b rest); [lia|exact Hb]. Qed.

Lemma drop_hexfield b rest : drop 2 (hexfield 2 b ++ rest) = rest.
Proof. rewrite <- (hexfield_length 2 b) at 1. apply drop_app_length. Qed.

Lemma sprintf_byte b : is_byte b -> sprintf "%02X" [AInt b] = Some (hexfield 2 b).
Proof.
  intros Hb. assert (u32 b = b) as Hu by (apply u32_small; unfold is_byte in Hb; lia).
  assert (sprintf "%02X" [AInt b] = Some (str_fmt (strtoupper (btoa (u32 b) 16)) (Z.of_nat 2) FMT_RJUST0 ++ []))
    as -> by reflexivity.
  unfold is_byte in Hb. rewrite Hu, app_nil_r, hex_padded by (change (16 ^ Z.of_nat 2) with 256; lia). done.
Qed.

Lemma sprintf_head n a :
  is_byte n -> 0 <= a < 2 ^ 32 ->
  sprintf "S3%02X%08X" [AInt n; AInt a] = Some (str "S3" ++ hexfield 2 n ++ hexfield 8 a).
Proof.
  intros Hb Ha. unfold is_byte in Hb.
  assert (u32 n = n) as Hu by (apply u32_small; lia). assert (u32 a = a) as Hv by (apply u32_small; lia).
  assert (sprintf "S3%02X%08X" [AInt n; AInt a] =
    Some (str "S3" ++ str_fmt (strtoupper (btoa (u32 n) 16)) (Z.of_nat 2) FMT_RJUST0 ++
          str_fmt (strtoupper (btoa (u32 a) 16)) (Z.of_nat 8) FMT_RJUST0 ++ [])) as -> by reflexivity.
  rewrite Hu, Hv, app_nil_r, !hex_padded by (try change (16 ^ Z.of_nat 2) with 256; try change (16 ^ Z.of_nat 8) with (2 ^ 32); lia).
  done.
Qed.

Lemma sprintf_tail b eol :
  is_byte b -> sprintf "%02X%s" [AInt b; AStr (Some eol)] = Some (hexfield 2 b ++ eol).
Proof.
  intros Hb. assert (u32 b = b) as Hu by (apply u32_small; unfold is_byte in Hb; lia).
  assert (sprintf "%02X%s" [AInt b; AStr (Some eol)] =
    Some (str_fmt (strtoupper (btoa (u32 b) 16)) (Z.of_nat 2) FMT_RJUST0 ++ eol ++ [])) as -> by reflexivity.
  unfold is_byte in Hb. rewrite Hu, app_nil_r, hex_padded by (change (16 ^ Z.of_nat 2) with 256; lia). done.
Qed.

(** Checksums, modulo 256. *)
Definition total (bs : list Z) : Z := fold_right Z.add 0 bs.

Lemma land_ff x : Z.land x 0xff = x mod 256.
Proof. change 0xff with (Z.ones 8). rewrite Z.land_ones by lia. done. Qed.

Lemma s32_mod256 x : s32 x mod 256 = x mod 256.
Proof.
  assert (forall y, y mod 256 = u32 y mod 256) as H.
  { intros y. apply Znumtheory.Zmod_div_mod; [lia|lia|]. exists (2 ^ 24). done. }
  rewrite (H (s32 x)), (H x). by rewrite wrapu_wraps.
Qed.

Lemma s8_byte b : is_byte b -> s8 b mod 256 = b.
Proof. intros Hb. pose proof (wrapu_wraps 8 b) as H. unfold wrapu in H. change (2 ^ 8) with 256 in H. rewrite H. by apply Z.mod_small. Qed.

Definition checksum (c : Z) : Z := Z.land (Z.lnot c) 0xff.

Lemma checksum_mod c c' : c mod 256 = c' mod 256 -> checksum c = checksum c'.
Proof.
  intros E. unfold checksum. rewrite !land_ff. unfold Z.lnot. rewrite <- !Z.sub_1_r.
  rewrite (Zminus_mod (- c)), (Zminus_mod (- c')). f_equal. f_equal.
  rewrite <- (Z.sub_0_l c), <- (Z.sub_0_l c'), (Zminus_mod 0 c), (Zminus_mod 0 c'), E. done.
Qed.

Lemma checksum_byte c : is_byte (checksum c).
Proof. unfold checksum. rewrite land_ff. apply Z.mod_pos_bound. lia. Qed.

Lemma load_bytes_u32 m a k : load_bytes m (u32 a) k = load_bytes m a k.
Proof.
  revert a. induction k as [|k IH]; intros a; [done|]. cbn. rewrite wrapu_wrapu. f_equal.
  rewrite <- (IH (a + 1)), <- (IH (u32 a + 1)). by rewrite wrapu_add_l.
Qed.

Lemma store_bytes_u32 m a bs : store_bytes m (u32 a) bs = store_bytes m a bs.
Proof.
  revert m a. induction bs as [|b bs IH]; intros m a; [done|]. cbn. rewrite wrapu_wrapu.
  rewrite <- (IH _ (a + 1)), <- (IH _ (u32 a + 1)). by rewrite wrapu_add_l.
Qed.

Lemma dump_data_spec n m a cs :
  mem_ok m -> exists cs', dump_data n m a cs = Some (hexbytes (load_bytes m a n), cs') /\
    cs' mod 256 = (cs + total (load_bytes m a n)) mod 256.
Proof.
  intros Hm. revert a cs. induction n as [|n IH]; intros a cs; cbn [dump_data load_bytes].
  { exists cs. by rewrite Z.add_0_r. }
  unfold load_byte. rewrite land_ff, s8_byte by apply Hm. rewrite sprintf_byte by apply Hm.
  destruct (IH (u32 (a + 1)) (s32 (cs + s8 (m (u32 a))))) as (cs' & -> & Hcs).
  rewrite load_bytes_u32 in *. exists cs'. split.
  - rewrite <- (hexfield_length 2 (m (u32 a))) at 1. by rewrite firstn_all, hexbytes_cons.
  - rewrite Hcs. cbn [total fold_right]. fold (total (load_bytes m (a + 1) n)).
    rewrite Zplus_mod, s32_mod256, <- Zplus_mod.
    rewrite <- (s8_byte (m (u32 a))) at 2 by apply Hm.
    rewrite Z.add_assoc, (Zplus_mod (cs + s8 _)), (Zplus_mod cs (s8 _)).
    rewrite (Zplus_mod (cs + _ mod 256)), (Zplus_mod cs (_ mod 256)), Z.mod_mod by lia. done.
Qed.

Lemma adr_sum a k : 0 <= a < 2 ^ 32 ->
  fold_left (fun cs i => cs + Z.land (Z.shiftr a (i * 8)) 0xff) [0; 1; 2; 3] k = k + total (adr_bytes a).
Proof.
  intros Ha. cbn [fold_left]. rewrite !land_ff, !Z.shiftr_div_pow2 by lia.
  change (2 ^ (0 * 8)) with 1. change (2 ^ (1 * 8)) with (2 ^ 8). change (2 ^ (2 * 8)) with (2 ^ 16).
  change (2 ^ (3 * 8)) with (2 ^ 24). rewrite Z.div_1_r.
  rewrite (Z.mod_small (a / 2 ^ 24)) by (split; [apply Z.div_pos; lia|apply Z.div_lt_upper_bound; lia]).
  unfold adr_bytes, total. cbn [fold_right]. lia.
Qed.

(** The text of a record without its end of line. *)
Definition s3_text (a : Z) (bs : list Z) : cstr :=
  let body := (Z.of_nat (length bs) + 5) :: adr_bytes a ++ bs in
  str "S3" ++ hexbytes body ++ hexfield 2 (checksum (total body)).

Lemma total_app bs cs : total (bs ++ cs) = total bs + total cs.
Proof. induction bs as [|b bs IH]; cbn; [done|]. unfold total in *. rewrite IH. lia. Qed.

Lemma hexbytes_app bs cs : hexbytes (bs ++ cs) = hexbytes bs ++ hexbytes cs.
Proof. apply flat_map_app. Qed.

Lemma dump_record_spec m adr len eol :
  mem_ok m -> 0 <= adr < 2 ^ 32 -> 0 <= len <= 32 ->
  dump_record m adr len eol = Some (s3_text adr (load_bytes m adr (Z.to_nat len)) ++ eol).
Proof.
  intros Hm Ha Hl. unfold dump_record. rewrite adr_sum by done.
  rewrite sprintf_head by (unfold is_byte; lia).
  destruct (dump_data_spec (Z.to_nat len) m adr (len + 5 + total (adr_bytes adr)) Hm) as (cs & -> & Hcs).
  fold (checksum cs). rewrite sprintf_tail by apply checksum_byte.
  f_equal. rewrite (take_ge (_ ++ eol)) by (rewrite length_app, hexfield_length; lia).
  rewrite (take_ge (str "S3" ++ _)) by (rewrite !length_app, !hexfield_length; cbn; lia).
  unfold s3_text. rewrite load_bytes_length, Z2Nat.id by lia. rewrite hexbytes_cons, hexbytes_app, hexfield_adr by done.
  rewrite (checksum_mod cs (total (len + 5 :: adr_bytes adr ++ load_bytes m adr (Z.to_nat len)))).
  - by rewrite <- !app_assoc.
  - rewrite Hcs. f_equal. change (total (?x :: ?l)) with (x + total l). rewrite total_app. lia.
Qed.

(** ** Loading them *)

(** The test of a load address, which depends on the layout only. *)
Definition loads (l : layout) (addr size : Z) : bool :=
  negb ((addr <? K0BASE) || (K2BASE <? u32 (addr + size))) &&
  (let start := K0_TO_PHYS addr in
   let finish := u32 (start + size) in
   negb (overlap start finish 0x1fc00000 0x20000000) &&
   negb (overlap start finish (K0_TO_PHYS (ftext l)) (K0_TO_PHYS (etext l))) &&
   negb (overlap start finish (K0_TO_PHYS (fdata l)) (K0_TO_PHYS (heaptop l))) &&
   negb (overlap start finish (memorysize l) 0x20000000)).

Lemma check_loads addr size v s : (dl_checkloadaddr addr size v s).1 = loads (d_lay s) addr size.
Proof.
  unfold dl_checkloadaddr, loads. destruct (_ || _); [done|]. cbn [negb andb].
  repeat match goal with |- context [if ?b then _ else _] => destruct b; [done|]; cbn [negb andb] end. done.
Qed.

Lemma overlap_sub a b a' b' c d : overlap a b c d = false -> a <= a' -> b' <= b -> overlap a' b' c d = false.
Proof.
  unfold overlap. intros. destruct (Z.ltb_spec c b), (Z.ltb_spec a d), (Z.ltb_spec c b'), (Z.ltb_spec a' d); cbn in *; try done; lia.
Qed.

(** A range inside one that may be loaded may be loaded. *)
Lemma loads_sub l a n i k :
  loads l a n = true -> 0 <= a -> a + n <= 2 ^ 32 -> 0 <= i -> 0 <= k -> i + k <= n -> 0 < n -> loads l (a + i) k = true.
Proof.
  unfold loads. intros H Ha Hn Hi Hk Hik Hpos.
  apply andb_prop in H as [H0 H]. apply negb_true_iff, orb_false_elim in H0 as [A1 A2].
  apply andb_prop in H as [H H4]. apply andb_prop in H as [H H3]. apply andb_prop in H as [H1 H2].
  apply negb_true_iff in H1, H2, H3, H4. apply Z.ltb_ge in A1, A2.
  destruct (range_phys a n) as (Hb & Eu & Hf & Hx); [lia|done|unfold K0BASE in *; lia|done|]. rewrite Eu in *.
  pose proof (K0_TO_PHYS_nonneg a) as Hp. rewrite Hx by lia. unfold K0BASE, K2BASE in *.
  rewrite (u32_small (a + i + k)), (u32_small (K0_TO_PHYS a + i + k)) by lia. set (st := K0_TO_PHYS a) in *.
  rewrite (overlap_sub _ _ (st + i) (st + i + k) _ _ H1 ltac:(lia) ltac:(lia)),
    (overlap_sub _ _ (st + i) (st + i + k) _ _ H2 ltac:(lia) ltac:(lia)),
    (overlap_sub _ _ (st + i) (st + i + k) _ _ H3 ltac:(lia) ltac:(lia)),
    (overlap_sub _ _ (st + i) (st + i + k) _ _ H4 ltac:(lia) ltac:(lia)). cbn [negb andb].
  rewrite (proj2 (Z.ltb_ge _ _)), (proj2 (Z.ltb_ge _ _)) by lia. done.
Qed.

Definition add_all (bs : list Z) (s : dl) : dl := fold_left (fun s v => add_chk v s) bs s.

Lemma add_all_chk bs s : dl_chksum (add_all bs s) mod 256 = (dl_chksum s + total bs) mod 256.
Proof.
  revert s. induction bs as [|b bs IH]; intros s; cbn [add_all fold_left].
  - cbn. by rewrite Z.add_0_r.
  - change (fold_left _ bs ?x) with (add_all bs x). rewrite IH. cbn.
    rewrite Zplus_mod, s32_mod256, <- Zplus_mod. f_equal. unfold total. lia.
Qed.

Lemma add_all_frame bs s :
  d_mem (add_all bs s) = d_mem s /\ d_lay (add_all bs s) = d_lay s /\ dl_offset (add_all bs s) = dl_offset s.
Proof. revert s. induction bs as [|b bs IH]; intros s; [done|]. apply (IH (add_chk b s)). Qed.

Lemma addr_loop_hex bs rest a s k :
  bytes_ok bs -> length bs = k -> addr_loop k (hexbytes bs ++ rest) a s =
    (Some (fold_left (fun a v => u32 (Z.shiftl a 8 + v)) bs a), add_all bs s).
Proof.
  intros Hb <-. revert a s. induction Hb as [|b bs Hb Hbs IH]; intros a s; [done|].
  rewrite hexbytes_cons, <- app_assoc. cbn [length addr_loop]. rewrite gethex2, drop_hexfield by done. apply IH.
Qed.

Lemma data_loop_hex bs rest a s k :
  bytes_ok bs -> length bs = k -> 0 <= a -> a + Z.of_nat (length bs) <= 2 ^ 32 ->
  data_loop k (hexbytes bs ++ rest) a s =
    (true, rest, add_all bs (set_dmem (store_bytes (d_mem s) a bs) s)).
Proof.
  intros Hb <-. revert a s. induction Hb as [|b bs Hb Hbs IH]; intros a s Ha Hl; [by destruct s|].
  rewrite hexbytes_cons, <- app_assoc. cbn [length data_loop] in *. rewrite gethex2, drop_hexfield by done.
  destruct bs as [|b' bs].
  - cbn. unfold store_byte. rewrite u8_small by done. done.
  - cbn [length] in *. rewrite (u32_small (a + 1)) by lia. rewrite IH by (cbn [length] in *; lia).
    unfold store_byte. rewrite u8_small by done. done.
Qed.

Lemma adr_fold a : 0 <= a < 2 ^ 32 -> fold_left (fun a v => u32 (Z.shiftl a 8 + v)) (adr_bytes a) 0 = a.
Proof.
  intros Ha. unfold adr_bytes. cbn [fold_left]. rewrite !Z.shiftl_mul_pow2 by lia.
  pose proof (Z.div_mod a (2 ^ 8)) as D1. pose proof (Z.div_mod (a / 2 ^ 8) (2 ^ 8)) as D2.
  pose proof (Z.div_mod (a / 2 ^ 16) (2 ^ 8)) as D3.
  rewrite Z.div_div in D2, D3 by lia. change (2 ^ 8 * 2 ^ 8) with (2 ^ 16) in D2.
  change (2 ^ 16 * 2 ^ 8) with (2 ^ 24) in D3. change 256 with (2 ^ 8).
  pose proof (Z.mod_pos_bound a (2 ^ 8)). pose proof (Z.mod_pos_bound (a / 2 ^ 8) (2 ^ 8)).
  pose proof (Z.mod_pos_bound (a / 2 ^ 16) (2 ^ 8)). pose proof (Z.div_pos a (2 ^ 24)).
  assert (a / 2 ^ 24 < 256) by (apply Z.div_lt_upper_bound; lia).
  rewrite (u32_small (0 * 2 ^ 8 + a / 2 ^ 24)), (u32_small (_ + a / 2 ^ 16 mod _)) by lia.
  rewrite (u32_small (_ + a / 2 ^ 8 mod _)), u32_small by lia. lia.
Qed.

Lemma s3_text_length a bs : length (s3_text a bs) = (14 + 2 * length bs)%nat.
Proof. unfold s3_text. rewrite !length_app, hexbytes_length, hexfield_length. cbn [length str].
  rewrite length_app. cbn. lia. Qed.

(** The record's own fields. *)
Lemma s3_text_fields a bs : 0 <= a < 2 ^ 32 ->
  exists rest, s3_text a bs = str "S3" ++ hexfield 2 (Z.of_nat (length bs) + 5) ++ hexbytes (adr_bytes a) ++ hexbytes bs ++ rest /\
    rest = hexfield 2 (checksum (Z.of_nat (length bs) + 5 + total (adr_bytes a) + total bs)).
Proof.
  intros Ha. eexists. split; [|reflexivity]. unfold s3_text. rewrite hexbytes_cons, hexbytes_app, <- !app_assoc.
  do 5 f_equal. change (total (?x :: ?l)) with (x + total l). rewrite total_app. f_equal. lia.
Qed.

Lemma drop_text n bs rest k : length bs = k ->
  drop (4 + 2 * k) (str "S3" ++ hexfield 2 n ++ hexbytes bs ++ rest) = rest.
Proof.
  intros <-. change (drop (4 + ?k) (str "S3" ++ ?x)) with (drop (2 + k) x).
  rewrite <- drop_drop. rewrite drop_hexfield, <- hexbytes_length. apply drop_app_length.
Qed.

(** The address of the record, read in two steps as the code does. *)
Lemma addr_loops_text a n data s : 0 <= a < 2 ^ 32 ->
  let p := str "S3" ++ hexfield 2 n ++ hexbytes (adr_bytes a) ++ data in
  exists mid s1, addr_loop 3 (drop 4 p) 0 s = (Some mid, s1) /\
    addr_loop 1 (drop 10 p) mid s1 = (Some a, add_all (adr_bytes a) s) /\ drop 12 p = data.
Proof.
  intros Ha. pose proof (adr_bytes_ok a Ha) as Hab. pose proof (adr_fold a Ha) as Ef.
  assert (exists hi lo, adr_bytes a = hi ++ lo /\ length hi = 3%nat /\ length lo = 1%nat) as (hi & lo & Eh & Hh & Hlo)
    by (exists (take 3 (adr_bytes a)), (drop 3 (adr_bytes a)); done).
  rewrite Eh in *. apply Forall_app in Hab as [Hhi Hlow].
  pose proof (drop_text n [] (hexbytes hi ++ hexbytes lo ++ data) 0 eq_refl) as D4.
  pose proof (drop_text n hi (hexbytes lo ++ data) 3 Hh) as D10.
  pose proof (drop_text n (hi ++ lo) data 4) as D12. rewrite length_app, Hh, Hlo in D12. specialize (D12 eq_refl).
  rewrite hexbytes_app, <- app_assoc in D12 |- *. cbn [hexbytes flat_map app] in D4.
  change (4 + 2 * 0)%nat with 4%nat in D4. change (4 + 2 * 3)%nat with 10%nat in D10.
  change (4 + 2 * 4)%nat with 12%nat in D12. cbv zeta. rewrite D4, D10, (addr_loop_hex hi _ 0 s 3) by done.
  eexists _, _. split; [reflexivity|]. split; [|exact D12].
  rewrite (addr_loop_hex lo _ _ _ 1) by done. rewrite <- fold_left_app, Ef.
  unfold add_all. by rewrite fold_left_app.
Qed.

(** The state after the record: the bytes are in memory. *)
Lemma s3_datarec_text fl a bs s :
  YFLAG fl = false -> 0 <= a < 2 ^ 32 -> bytes_ok bs -> (length bs <= 32)%nat ->
  let to := u32 (a + dl_offset s) in
  to + Z.of_nat (length bs) <= 2 ^ 32 -> loads (d_lay s) to (Z.of_nat (length bs)) = true ->
  exists s', s3_datarec (s3_text a bs) fl s = (DL_CONT, Z.of_nat (length bs), s') /\
    d_mem s' = store_bytes (d_mem s) to bs /\ d_lay s' = d_lay s /\ dl_offset s' = dl_offset s.
Proof.
  intros Hy Ha Hb Hl to Hto Hok. unfold s3_datarec. rewrite Hy.
  destruct (s3_text_fields a bs Ha) as (rest & Et & Er). rewrite strlen_spec, s3_text_length, Et.
  change (drop 2 (str "S3" ++ ?x)) with x. change (at_ (str "S3" ++ ?x) 1) with (ch "3").
  rewrite gethex2 by (unfold is_byte; lia).
  destruct (Z.eqb_spec ((Z.of_nat (length bs) + 5) * 2) (Z.of_nat (14 + 2 * length bs) - 4)); [|lia]. cbn [negb].
  change ((ch "3" <? ch "1") || (ch "3" <? ch "3")) with false. cbn iota.
  change (Z.to_nat (ch "3" - ch "1")) with 2%nat. set (n := Z.of_nat (length bs) + 5) in *.
  set (s1 := add_chk n (set_chk 0 s)).
  destruct (addr_loops_text a n (hexbytes bs ++ rest) s1 Ha) as (mid & s1' & -> & A2 & D12).
  change (6 + 2 * 2)%nat with 10%nat. rewrite A2. clear A2.
  remember (add_all (adr_bytes a) s1) as s2 eqn:Es2.
  destruct (add_all_frame (adr_bytes a) s1) as (Fm & Fl & Fo). rewrite <- Es2 in Fm, Fl, Fo. rewrite Fo.
  change (n - ((4 + 2 * Z.of_nat 2) / 2 + 1)) with (n - 5). replace (n - 5) with (Z.of_nat (length bs)) by lia.
  change (dl_offset s1) with (dl_offset s). fold to.
  pose proof (check_loads to (Z.of_nat (length bs)) (VFLAG fl) s2) as Hc. rewrite Fl in Hc.
  change (d_lay s1) with (d_lay s) in Hc. rewrite Hok in Hc.
  destruct (dl_checkloadaddr _ _ _ _) as [ok s3] eqn:Ec. cbn [fst] in Hc. subst ok. cbn [negb].
  destruct (check_frame _ _ _ _ _ _ Ec) as (Gm & Gl & Go & _ & Gc & _).
  change (8 + 2 * 2)%nat with 12%nat. rewrite D12.
  rewrite (data_loop_hex bs rest to s3) by (done || lia || apply u32_range). cbn [negb].
  remember (set_dmem (store_bytes (d_mem s3) to bs) s3) as s4 eqn:Es4.
  rewrite Er, <- (app_nil_r (hexfield 2 _)), gethex2 by apply checksum_byte.
  assert (checksum (n + total (adr_bytes a) + total bs) = Z.land (Z.lnot (dl_chksum (add_all bs s4))) 255) as ->.
  { apply checksum_mod. rewrite add_all_chk, Es4. cbn [dl_chksum set_dmem]. rewrite Gc, Es2.
    rewrite (Zplus_mod (dl_chksum _)), add_all_chk, <- Zplus_mod. f_equal.
    change (dl_chksum s1) with (s32 (0 + n)). rewrite (s32_small (0 + n)) by lia. lia. }
  rewrite Z.eqb_refl, andb_false_r. exists (add_all bs s4).
  destruct (add_all_frame bs s4) as (-> & -> & ->). rewrite Z.max_r by lia. rewrite Es4. cbn.
  rewrite Gm, Gl, Go, Fm, Fl, Fo. done.
Qed.

(** The end of a line is stripped and nothing of the record. *)
Definition is_eol (eol : cstr) : Prop := eol = [cr] \/ eol = [nl] \/ eol = [cr; nl].

Lemma hexchar_kept d : 0 <= d < 16 -> isspace (hexchar d) = false /\ (hexchar d =? ETX) = false.
Proof.
  intros Hd.
  assert (forallb (fun d => negb (isspace (hexchar d)) && negb (hexchar d =? ETX)) (seqZ 0 16) = true)
    as H by (vm_compute; reflexivity).
  apply (forallb_range _ 0 16 H d), andb_true_iff in Hd as [A B]. by apply negb_true_iff in A, B.
Qed.

Lemma strip_eol p w v eol : is_eol eol -> strip (p ++ hexfield (S w) v ++ eol) = p ++ hexfield (S w) v.
Proof.
  intros He. unfold strip. cbn [hexfield]. rewrite <- app_assoc, !rev_app_distr.
  destruct (hexchar_kept (v mod 16) (Z.mod_pos_bound v 16 ltac:(lia))) as [A B].
  set (r := rev (hexfield w (v / 16)) ++ rev p).
  assert (strip_end ((rev eol ++ [hexchar (v mod 16)]) ++ r) = hexchar (v mod 16) :: r) as E.
  { destruct He as [-> | [-> | ->]]; cbn; change (isspace 13) with true; change (isspace 10) with true; cbn;
      by rewrite A, B. }
  rewrite <- (app_assoc _ _ (rev p)). fold r. cbn [rev app]. rewrite E. unfold r. cbn [rev].
  by rewrite rev_app_distr, !rev_involutive, <- app_assoc.
Qed.

Section RoundTrip.
Context (alloc : symtab -> option nat).
#[local] Set Default Proof Using "Type".

Lemma record_type_S ty recbuf : ty = -1 \/ ty = 0 -> at_ recbuf 0 = ch "S" -> record_type ty recbuf = Some 0.
Proof. intros Ht E. unfold record_type. rewrite E. by destruct Ht as [-> | ->]. Qed.

(** One data record through the loop of [load]. *)
Lemma load_record_text etxack fl a bs eol l :
  YFLAG fl = false -> is_eol eol -> 0 <= a < 2 ^ 32 -> bytes_ok bs -> (length bs <= 32)%nat ->
  dltype l = -1 \/ dltype l = 0 ->
  let to := u32 (a + dl_offset (l_dl l)) in
  to + Z.of_nat (length bs) <= 2 ^ 32 -> loads (d_lay (l_dl l)) to (Z.of_nat (length bs)) = true ->
  exists d', load_record alloc etxack fl (s3_text a bs ++ eol) l =
    (ReadOn, mkLoading 0 (tot l + Z.of_nat (length bs)) (recno l + 1) (err l) (errs l) d') /\
    d_mem d' = store_bytes (d_mem (l_dl l)) to bs /\ d_lay d' = d_lay (l_dl l) /\
    dl_offset d' = dl_offset (l_dl l).
Proof.
  intros Hy He Ha Hb Hl Ht to Hto Hok.
  destruct (s3_datarec_text fl a bs (l_dl l) Hy Ha Hb Hl Hto Hok) as (d' & E & Hd).
  exists d'. split; [|exact Hd]. unfold load_record.
  assert (strip (s3_text a bs ++ eol) = s3_text a bs) as ->.
  { unfold s3_text. rewrite app_assoc, <- app_assoc. by apply strip_eol. }
  rewrite s3_text_length. cbn [Nat.eqb Nat.add dltype l_dl tot recno err errs].
  assert (at_ (s3_text a bs) 0 = ch "S" /\ at_ (s3_text a bs) 1 = ch "3") as [E0 E1] by done.
  assert (record_type (dltype l) (s3_text a bs) = Some 0) as -> by (by apply record_type_S).
  change (0 =? 1) with false. cbn iota. unfold dl_s3load. rewrite E0, E1. cbn -[s3_datarec Z.add s3_text].
  by rewrite E.
Qed.

(** The terminator. *)
Lemma load_record_end etxack fl eol l :
  is_eol eol -> dltype l = -1 \/ dltype l = 0 ->
  load_record alloc etxack fl (str "S70500000000FA" ++ eol) l =
    (LeaveLoop, mkLoading 0 (tot l) (recno l + 1) (err l) (errs l) (set_entry (dl_offset (l_dl l)) (l_dl l))).
Proof.
  intros He Ht. unfold load_record.
  assert (strip (str "S70500000000FA" ++ eol) = str "S70500000000FA") as ->
    by (by destruct He as [-> | [-> | ->]]).
  cbn [dltype tot recno err errs l_dl].
  assert (dl_s3load alloc (str "S70500000000FA") fl (l_dl l) = (DL_DONE, 0, set_entry (0 + dl_offset (l_dl l)) (l_dl l)))
    as E by reflexivity.
  change (length (str "S70500000000FA") =? 0)%nat with false. cbn iota.
  assert (record_type (dltype l) (str "S70500000000FA") = Some 0) as -> by (by apply record_type_S).
  change (0 =? 1) with false. cbn iota. rewrite E. cbv beta iota zeta. by rewrite Z.add_0_r, Z.add_0_l.
Qed.

(** All the records. *)
Lemma load_loop_dump etxack fl m eol lines : YFLAG fl = false -> is_eol eol -> mem_ok m ->
  forall n fuel adr l, (n < fuel)%nat -> 0 <= adr < 2 ^ 32 -> dltype l = -1 \/ dltype l = 0 ->
  let to := u32 (adr + dl_offset (l_dl l)) in
  to + Z.of_nat n <= 2 ^ 32 -> loads (d_lay (l_dl l)) to (Z.of_nat n) = true \/ n = 0%nat ->
  exists ls, dump_loop fuel m adr (Z.of_nat n) eol = Some ls /\
    exists l', load_loop alloc etxack fl (ls ++ (str "S70500000000FA" ++ eol) :: lines) l = Loaded l' /\
    tot l' = tot l + Z.of_nat n /\ err l' = err l /\ dl_entry (l_dl l') = u32 (dl_offset (l_dl l)) /\
    d_mem (l_dl l') = store_bytes (d_mem (l_dl l)) to (load_bytes m adr n).
Proof.
  intros Hy He Hm n. induction (lt_wf n) as [n _ IH]. intros [|f] adr l Hf Ha Ht to Hto Hok; [lia|].
  cbn [dump_loop]. destruct (Z.leb_spec (Z.of_nat n) 0) as [Hn|Hn].
  { assert (n = 0%nat) as -> by lia. exists []. split; [done|]. cbn [app load_loop].
    rewrite load_record_end by done. eexists. split; [done|]. cbn. rewrite Z.add_0_r. done. }
  set (len := if Z.of_nat n <? 32 then Z.of_nat n else 32).
  assert (0 < len <= 32 /\ len <= Z.of_nat n) as Hlen by (unfold len; case_bool; lia).
  clearbody len. set (k := Z.to_nat len). assert (Z.of_nat k = len) as Ek by lia.
  destruct Hok as [Hok|]; [|lia]. pose proof (u32_range (adr + dl_offset (l_dl l))) as Hr. fold to in Hr.
  rewrite dump_record_spec by (done || lia). fold k.
  destruct (load_record_text etxack fl adr (load_bytes m adr k) eol l) as (d' & El & Em & Elay & Eo);
    rewrite ?load_bytes_length; try done; try lia; [by apply load_bytes_ok| |].
  { fold to. rewrite Ek, <- (Z.add_0_r to). apply (loads_sub _ _ (Z.of_nat n)); (done || lia). }
  rewrite load_bytes_length in El. fold to in Em.
  set (l1 := mkLoading 0 (tot l + Z.of_nat k) (recno l + 1) (err l) (errs l) d') in El.
  assert (u32 (u32 (adr + len) + dl_offset (l_dl l1)) = u32 (to + len)) as Et.
  { cbn. rewrite Eo. unfold to. rewrite !wrapu_add_l. f_equal. lia. }
  destruct (IH (n - k)%nat ltac:(lia) f (u32 (adr + len)) l1) as (ls & Els & l2 & El2 & Et1 & Et2 & Et3 & Et4);
    [lia|apply u32_range|by right|..].
  { rewrite Et. destruct (Z.eq_dec (to + len) (2 ^ 32)) as [E2|E2]; [rewrite E2; change (u32 (2 ^ 32)) with 0; lia|].
    rewrite u32_small by lia. lia. }
  { destruct (decide (n = k)) as [->|]; [right; lia|left]. cbn. rewrite Eo, Elay. cbn in Et. rewrite Eo in Et. rewrite Et.
    rewrite u32_small by lia. apply (loads_sub _ _ (Z.of_nat n)); (done || lia). }
  replace (Z.of_nat n - len) with (Z.of_nat (n - k)) by lia. rewrite Els.
  eexists. split; [reflexivity|]. cbn [app load_loop]. rewrite El. exists l2. split; [exact El2|].
  rewrite Et1, Et2, Et3, Et4. cbn [tot err l_dl l1]. rewrite Eo, Em. split; [lia|]. split; [done|]. split; [done|].
  cbn in Et. rewrite Eo in Et. rewrite Et, load_bytes_u32, store_bytes_u32.
  replace n with (k + (n - k))%nat at 2 by lia. by rewrite load_bytes_app, store_bytes_app, load_bytes_length, Ek.
Qed.
End RoundTrip.

(** C3. What one monitor dumps another loads. The lines [sdump] writes for a
    range of memory (with any of the line ends it can use) go through [load]
    without an error, [load] counts exactly the bytes of the range, and memory
    afterwards is the old one with a copy of the range in it, moved by the load
    offset; the entry address is the offset. The only condition is that [load]
    would accept the target range as a whole. *)
Theorem dump_load (alloc : symtab -> option nat) (etxack : bool) (fl : flags) (m : mem) (adr siz : Z)
  (ulcr uleof : cptr) (d : dl)
  (Hm : mem_ok m) (Ha : 0 <= adr < 2 ^ 32) (Hs : 0 <= siz) (Hy : YFLAG fl = false)
  (Hto : u32 (adr + dl_offset d) + siz <= 2 ^ 32)
  (Hok : (dl_checkloadaddr (u32 (adr + dl_offset d)) siz false d).1 = true) :
  exists lines, sdump false m adr siz ulcr uleof = Some lines /\
    exists l, load_records alloc etxack fl lines d = Loaded l /\
    err l = 0 /\ tot l = siz /\ dl_entry (l_dl l) = u32 (dl_offset d) /\
    d_mem (l_dl l) = store_bytes (d_mem d) (u32 (adr + dl_offset d)) (load_bytes m adr (Z.to_nat siz)).
Proof.
  unfold sdump. set (eol := if striequ ulcr _ then _ else _).
  assert (is_eol eol) as He by (unfold eol, is_eol; repeat case_match; auto).
  assert (sprintf "S70500000000FA%s" [AStr (Some eol)] = Some (str "S70500000000FA" ++ eol)) as ->
    by (destruct He as [-> | [-> | ->]]; reflexivity).
  rewrite check_loads in Hok.
  destruct (load_loop_dump alloc etxack fl m eol [default [] uleof] Hy He Hm (Z.to_nat siz) (S (Z.to_nat siz)) adr
              (mkLoading (-1) 0 0 0 (fun _ => 0) d)) as (ls & E & l' & El & Et & Ee & En & Em); rewrite ?Z2Nat.id by done; auto.
  rewrite Z2Nat.id in E by done. rewrite E. eexists. split; [reflexivity|]. exists l'. split; [exact El|]. cbn in Et, Ee, En, Em.
  rewrite Z2Nat.id in Et by done. auto.
Qed.

Lemma dump_load_witness :
  exists lines, sdump false (fun x => x mod 251) 0x80120000 40 (Some (str "lf")) None = Some lines /\
    exists l, load_records (fun _ => None) true no_flags lines dl0 = Loaded l /\
    err l = 0 /\ tot l = 40 /\ dl_entry (l_dl l) = 0 /\
    d_mem (l_dl l) = store_bytes (d_mem dl0) 0x80120000 (load_bytes (fun x => x mod 251) 0x80120000 40).
Proof.
  apply (dump_load (fun _ => None) true no_flags (fun x => x mod 251) 0x80120000 40 (Some (str "lf")) None dl0).
  - intros x. pose proof (Z.mod_pos_bound x 251). unfold is_byte. lia.
  - lia.
  - lia.
  - reflexivity.
  - vm_compute. congruence.
  - vm_compute. reflexivity.
Defined.
