(* ===== verification/Malloc.v ===== *)
(** * Malloc: the allocator

    [src/lib/malloc.c], the allocator of Kernighan and Ritchie with a circular
    list of free blocks, over [sbrk] of Tunables. A header is a cell of two
    words, 8 bytes long, at the address of its block; sizes count headers.

    The theorem relates the list to a tiling of the heap: between the first
    address [sbrk] gave and the last, free and allocated blocks follow one another
    without a gap, and no two free blocks are neighbours. Hence allocated blocks
    never overlap, [malloc] and [free] return, and freeing everything leaves one
    block. *)

From S2P Require Import Prelude Tunables.

(** [src/lib/malloc.c:4-10] *)
Record header : Type := mkHeader { ptr : Z; size : Z }.

(** [sizeof (HEADER)]: two words, which the alignment of [double] does not
    change. *)
Definition HDR : Z := 8.

(** [p + n] on headers. *)
Definition padd (p n : Z) : Z := u32 (p + n * HDR).

(** The headers in memory, the free list pointer (0 before the first call), and
    the variables of [sbrk]. [base] is the address of the static header.
    [src/lib/malloc.c:14-15] *)
Record arena : Type := mkArena { cells : gmap Z header; allocp : Z; brk : tunables }.

Definition hdr (a : arena) (p : Z) : header := default (mkHeader 0 0) (cells a !! p).
Definition set_hdr (p : Z) (h : header) (a : arena) : arena := mkArena (<[p := h]> (cells a)) (allocp a) (brk a).
Definition set_ptr (p q : Z) (a : arena) : arena := set_hdr p (mkHeader q (size (hdr a p))) a.
Definition set_size (p n : Z) (a : arena) : arena := set_hdr p (mkHeader (ptr (hdr a p)) (u32 n)) a.
Definition set_allocp (p : Z) (a : arena) : arena := mkArena (cells a) p (brk a).

(** [src/lib/malloc.c:18] *)
Definition NALLOC : Z := 128.

Section Malloc.
Context (base : Z).
#[local] Set Default Proof Using "Type".

(** The search of [free] for the place of [p]. [src/lib/malloc.c:80-82] *)
Fixpoint free_loop (fuel : nat) (p q : Z) (a : arena) : option Z :=
  match fuel with
  | O => None
  | S f =>
      let n := ptr (hdr a q) in
      if (q <? p) && (p <? n) then Some q
      else if (n <=? q) && ((q <? p) || (p <? n)) then Some q
      else free_loop f p n a
  end.

(** The free list has no more blocks than there are cells.
    [src/lib/malloc.c:74-94] *)
Definition free (ap : Z) (a : arena) : option arena :=
  let p := u32 (ap - HDR) in
  match free_loop (S (S (map_size (cells a)))) p (allocp a) a with
  | None => None
  | Some q =>
      let n := ptr (hdr a q) in
      let a :=
        if padd p (size (hdr a p)) =? n then
          let a := set_size p (size (hdr a p) + size (hdr a n)) a in
          set_ptr p (ptr (hdr a n)) a
        else set_ptr p n a in
      let a :=
        if padd q (size (hdr a q)) =? p then
          let a := set_size q (size (hdr a q) + size (hdr a p)) a in
          set_ptr q (ptr (hdr a p)) a
        else set_ptr q p a in
      Some (set_allocp q a)
  end.

(** A null pointer is 0. [src/lib/malloc.c:54-71] *)
Definition morecore (nu : Z) (a : arena) : option (Z * arena) :=
  let rnu := u32 (NALLOC * (u32 (nu + NALLOC - 1) / NALLOC)) in
  let '(cp, b) := sbrk (u32 (rnu * HDR)) (brk a) in
  let a := mkArena (cells a) (allocp a) b in
  if cp =? 0 then Some (0, a)
  else
    match free (u32 (cp + HDR)) (set_size cp rnu a) with
    | None => None
    | Some a => Some (allocp a, a)
    end.

(** The block at [p], after [q] in the list, is big enough: it is taken whole, or
    its tail is. [src/lib/malloc.c:37-46] *)
Definition take_block (nunits q p : Z) (a : arena) : Z * arena :=
  let '(p, a) :=
    if size (hdr a p) =? nunits then (p, set_ptr q (ptr (hdr a p)) a)
    else
      let a := set_size p (size (hdr a p) - nunits) a in
      let p := padd p (size (hdr a p)) in
      (p, set_size p nunits a) in
  (padd p 1, set_allocp q a).

(** [src/lib/malloc.c:36-51] *)
Fixpoint malloc_loop (fuel : nat) (nunits q p : Z) (a : arena) : option (Z * arena) :=
  match fuel with
  | O => None
  | S f =>
      if nunits <=? size (hdr a p) then Some (take_block nunits q p a)
      else if p =? allocp a then
        match morecore nunits a with
        | None => None
        | Some (p, a) => if p =? 0 then Some (0, a) else malloc_loop f nunits p (ptr (hdr a p)) a
        end
      else malloc_loop f nunits p (ptr (hdr a p)) a
  end.

(** The loop goes around the free list once, and once more after [morecore].
    [src/lib/malloc.c:24-52] *)
Definition malloc (nbytes : Z) (a : arena) : option (Z * arena) :=
  let nunits := u32 (u32 (nbytes + HDR - 1) / HDR + 1) in
  let a := if allocp a =? 0 then set_allocp base (set_hdr base (mkHeader base 0) a) else a in
  malloc_loop (2 * (map_size (cells a) + 2)) nunits (allocp a) (ptr (hdr a (allocp a))) a.

(** [src/lib/malloc.c:96-103] *)
Definition allocsize (ap : Z) (a : arena) : Z := u32 (size (hdr a (u32 (ap - HDR))) * HDR).

(** With the bytes of memory, which the blocks hold.
    [src/lib/calloc.c:4-16] *)
Definition calloc (nelem elsize : Z) (a : arena) (m : mem) : option (Z * arena * mem) :=
  let n := u32 (nelem * elsize) in
  match malloc n a with
  | None => None
  | Some (p, a) =>
      if p =? 0 then Some (p, a, m)
      else Some (p, a, fun x => if (p <=? x) && (x <? p + n) then 0 else m x)
  end.

(** [src/lib/realloc.c:4-19] *)
Definition realloc (old sz : Z) (a : arena) (m : mem) : option (Z * arena * mem) :=
  match malloc sz a with
  | None => None
  | Some (p, a) =>
      if p =? 0 then Some (p, a, m)
      else
        let osz := allocsize old a in
        let k := if sz <? osz then sz else osz in
        match free old a with
        | None => None
        | Some a => Some (p, a, fun x => if (p <=? x) && (x <? p + k) then m (old + (x - p)) else m x)
        end
  end.
End Malloc.

(** ** The heap as a sequence of blocks

    A tile is a block: free or not, and its size. *)
Abbreviation tile := (bool * Z)%type.

Definition total (L : list tile) : Z := fold_right (fun t n => t.2 + n) 0 L.

(** Where the free ([w]) or the allocated blocks are, the first of all at [p]. *)
Fixpoint blocks (w : bool) (p : Z) (L : list tile) : list (Z * Z) :=
  match L with
  | [] => []
  | (b, s) :: L' => (if Bool.eqb b w then [(p, s)] else []) ++ blocks w (p + s * HDR) L'
  end.

Abbreviation flist := (blocks true).
Abbreviation alist := (blocks false).

Definition sizes_ok (L : list tile) : Prop := Forall (fun t => 1 <= t.2) L.

Definition hd_free (L : list tile) : bool := match L with (b, _) :: _ => b | [] => false end.
Fixpoint last_free (L : list tile) : bool :=
  match L with [] => false | [(b, _)] => b | _ :: L' => last_free L' end.

(** No two free blocks are neighbours. *)
Fixpoint merged (L : list tile) : Prop :=
  match L with
  | [] => True
  | (b, _) :: L' => (b = true -> hd_free L' = false) /\ merged L'
  end.

Lemma tiles_total_app L1 L2 : total (L1 ++ L2) = total L1 + total L2.
Proof. unfold total. induction L1 as [|t L1 IH]; cbn; [done|]. rewrite IH. lia. Qed.

Lemma total_nonneg L : sizes_ok L -> 0 <= total L.
Proof. intros H. induction H as [|t L Ht HL IH]; cbn; [lia|]. unfold total in IH. lia. Qed.

Lemma blocks_app w p L1 L2 : blocks w p (L1 ++ L2) = blocks w p L1 ++ blocks w (p + total L1 * HDR) L2.
Proof.
  revert p. induction L1 as [|[b s] L1 IH]; intros p; cbn [blocks app total fold_right].
  - by rewrite Z.add_0_r.
  - rewrite IH, <- app_assoc. do 3 f_equal. cbn. unfold total, HDR. lia.
Qed.

Lemma blocks_bounds w p L x s :
  sizes_ok L -> (x, s) ∈ blocks w p L -> p <= x /\ 1 <= s /\ x + s * HDR <= p + total L * HDR.
Proof.
  intros H. revert p. induction H as [|[b t] L Ht HL IH]; intros p Hx; cbn in *; [by apply elem_of_nil in Hx|].
  pose proof (total_nonneg L HL) as Hn. unfold HDR in *. apply elem_of_app in Hx as [Hx|Hx].
  - destruct (Bool.eqb b w); [|by apply elem_of_nil in Hx]. apply list_elem_of_singleton in Hx. simplify_eq.
    fold (total L). lia.
  - apply IH in Hx. fold (total L). lia.
Qed.

Lemma blocks_split w p L g1 x s g2 :
  blocks w p L = g1 ++ (x, s) :: g2 ->
  exists L1 L2, L = L1 ++ (w, s) :: L2 /\ g1 = blocks w p L1 /\ x = p + total L1 * HDR /\
    g2 = blocks w (x + s * HDR) L2.
Proof.
  revert p g1. induction L as [|[b t] L IH]; intros p g1 H; cbn in H; [by destruct g1|].
  destruct (Bool.eqb b w) eqn:E; cbn in H; [apply Bool.eqb_prop in E as ->; destruct g1 as [|g g1]; cbn in H|].
  - injection H as -> -> <-. exists [], L. cbn. rewrite Z.add_0_r. done.
  - injection H as <- H. apply IH in H as (L1 & L2 & -> & -> & -> & ->). exists ((w, t) :: L1), L2. cbn.
    rewrite Bool.eqb_reflx. unfold total, HDR. split; [done|]. split; [done|]. split; [lia|]. f_equal; lia.
  - apply IH in H as (L1 & L2 & -> & -> & -> & ->). exists ((b, t) :: L1), L2. cbn. rewrite E.
    split; [done|]. split; [done|]. unfold total, HDR. split; [lia|]. f_equal; lia.
Qed.

Lemma last_free_snoc L b s : last_free (L ++ [(b, s)]) = b.
Proof. induction L as [|t L IH]; [done|]. cbn. destruct t. destruct L; [done|exact IH]. Qed.

Lemma hd_free_app L1 L2 : L1 <> [] -> hd_free (L1 ++ L2) = hd_free L1.
Proof. by destruct L1. Qed.

Lemma merged_app L1 L2 :
  merged (L1 ++ L2) <-> merged L1 /\ merged L2 /\ (last_free L1 = true -> hd_free L2 = false).
Proof.
  induction L1 as [|[b s] L1 IH]; cbn [app merged].
  - naive_solver.
  - rewrite IH. destruct L1 as [|t L1]; [cbn; naive_solver|]. rewrite hd_free_app by done.
    change (last_free ((b, s) :: t :: L1)) with (last_free (t :: L1)). naive_solver.
Qed.

(** ** The circular list *)

Definition nxt (f : list (Z * Z)) (stop : Z) : Z := match f with [] => stop | (x, _) :: _ => x end.
Fixpoint lst (q : Z) (f : list (Z * Z)) : Z := match f with [] => q | (x, _) :: f' => lst x f' end.

(** From [q] the pointers lead through the blocks [f] to [stop]. *)
Fixpoint chain (a : arena) (q : Z) (f : list (Z * Z)) (stop : Z) : Prop :=
  match f with
  | [] => ptr (hdr a q) = stop
  | (x, s) :: f' => ptr (hdr a q) = x /\ size (hdr a x) = s /\ chain a x f' stop
  end.

Lemma lst_app q f g : lst q (f ++ g) = lst (lst q f) g.
Proof. revert q. induction f as [|[x s] f IH]; intros q; [done|]. apply IH. Qed.

Lemma lst_elem q f : lst q f = q \/ lst q f ∈ f.*1.
Proof.
  revert q. induction f as [|[x s] f IH]; intros q; [by left|]. right. cbn.
  destruct (IH x) as [-> |H]; [apply list_elem_of_here|by apply list_elem_of_further].
Qed.

Lemma chain_head a q f stop : chain a q f stop -> ptr (hdr a q) = nxt f stop.
Proof. destruct f as [|[x s] f]; cbn; naive_solver. Qed.

Lemma chain_app a q f g stop :
  chain a q (f ++ g) stop <-> chain a q f (nxt g stop) /\ chain a (lst q f) g stop.
Proof.
  revert q. induction f as [|[x s] f IH]; intros q; cbn [app chain lst].
  - split; [|naive_solver]. intros H. split; [by apply chain_head|done].
  - rewrite IH. naive_solver.
Qed.

Lemma chain_mid a q f x s g stop :
  chain a q f x -> size (hdr a x) = s -> chain a x g stop -> chain a q (f ++ (x, s) :: g) stop.
Proof. revert q. induction f as [|[y t] f IH]; intros q Hf Hs Hg; cbn in *; naive_solver. Qed.

Lemma chain_size a q f stop x s : chain a q f stop -> (x, s) ∈ f -> size (hdr a x) = s.
Proof.
  revert q. induction f as [|[y t] f IH]; intros q H Hx; [by apply elem_of_nil in Hx|].
  destruct H as (_ & Hs & H). apply elem_of_cons in Hx as [Hx|Hx]; [by simplify_eq|]. by apply (IH y).
Qed.

Lemma chain_frame a a' q f stop :
  (forall x, x = q \/ x ∈ f.*1 -> cells a' !! x = cells a !! x) -> chain a q f stop -> chain a' q f stop.
Proof.
  revert q. induction f as [|[y t] f IH]; intros q Hc H; cbn in *.
  - unfold hdr in *. rewrite Hc by auto. done.
  - destruct H as (Hp & Hs & H). unfold hdr in *. rewrite !Hc by set_solver. split; [done|]. split; [done|].
    apply IH; [|done]. intros x Hx. apply Hc. set_solver.
Qed.

(** [free] stops behind the last free block before [p]. *)
Definition stops (a : arena) (p q : Z) : bool :=
  ((q <? p) && (p <? ptr (hdr a q))) || ((ptr (hdr a q) <=? q) && ((q <? p) || (p <? ptr (hdr a q)))).

Lemma free_here fuel p q a : stops a p q = true -> free_loop (S fuel) p q a = Some q.
Proof.
  unfold stops. cbn [free_loop]. intros H. destruct (_ && (p <? _)); [done|]. cbn [orb] in H. by rewrite H.
Qed.

Lemma free_walk fuel p f q stop a :
  chain a q f stop -> (forall x, x = q \/ x ∈ f.*1 -> stops a p x = false) ->
  free_loop (S (length f) + fuel) p q a = free_loop fuel p stop a.
Proof.
  revert q. induction f as [|[x s] f IH]; intros q Hc Hs.
  - specialize (Hs q (or_introl eq_refl)). unfold stops in Hs. apply orb_false_elim in Hs as [H1 H2].
    cbn [length Nat.add free_loop]. rewrite H1, H2. cbn in Hc. by rewrite Hc.
  - pose proof (Hs q (or_introl eq_refl)) as Hq. unfold stops in Hq. apply orb_false_elim in Hq as [H1 H2].
    destruct Hc as (Hp & _ & Hc). cbn [length Nat.add]. change (S (S (length f) + fuel)) with (S (S (length f) + fuel)).
    cbn [free_loop]. rewrite H1, H2, Hp. apply IH; [done|]. intros y Hy. apply Hs. set_solver.
Qed.

Lemma malloc_walk fuel n f q stop a :
  chain a q f stop -> (forall x s, (x, s) ∈ f -> s < n /\ x <> allocp a) ->
  malloc_loop (length f + fuel) n q (nxt f stop) a = malloc_loop fuel n (lst q f) stop a.
Proof.
  revert q. induction f as [|[x s] f IH]; intros q Hc Hf; [done|]. destruct Hc as (_ & Hs & Hc).
  destruct (Hf x s (list_elem_of_here _ _)) as [Hlt Hne]. cbn [length Nat.add nxt malloc_loop lst].
  rewrite Hs. destruct (Z.leb_spec n s); [lia|]. rewrite (proj2 (Z.eqb_neq _ _) Hne).
  rewrite (chain_head _ _ _ _ Hc). apply IH; [done|]. intros y t Hy. apply Hf. by apply list_elem_of_further.
Qed.

(** ** The invariant *)

Record tiled (base lo : Z) (L : list tile) (a : arena) : Prop := mkTiled {
  t_sizes : sizes_ok L;
  t_merged : merged L;
  t_heap : heap_ok (brk a);
  t_brk : lo + total L * HDR = allocp1 (brk a);
  t_base : 0 < base < lo;
  t_size0 : size (hdr a base) = 0;
  t_chain : chain a base (flist lo L) base;
  t_alloc : forall x s, (x, s) ∈ alist lo L -> size (hdr a x) = s;
  t_allocp : allocp a = base \/ allocp a ∈ (flist lo L).*1 }.

Lemma tiled_top base lo L a : tiled base lo L a -> lo + total L * HDR < 2 ^ 32.
Proof. intros H. rewrite (t_brk _ _ _ _ H). destruct (t_heap _ _ _ _ H) as [Hk _]. unfold K0BASE, K0SIZE in Hk. lia. Qed.

(** The free blocks are in the order of their addresses. *)
Lemma blocks_before w lo L f1 f2 x s y t :
  sizes_ok L -> blocks w lo L = f1 ++ (y, t) :: f2 -> (x, s) ∈ f1 -> lo <= x /\ x + s * HDR <= y /\ 1 <= s.
Proof.
  intros Hs E Hx. apply blocks_split in E as (L1 & L2 & -> & -> & -> & _).
  apply Forall_app in Hs as [Hs _]. apply (blocks_bounds _ _ _ _ _ Hs) in Hx. lia.
Qed.

Lemma lst_before lo L f1 f2 y t base :
  sizes_ok L -> base < lo -> flist lo L = f1 ++ (y, t) :: f2 -> base <= lst base f1 < y /\ lo <= y.
Proof.
  intros Hs Hb E. assert (lo <= y) as Hy.
  { assert ((y, t) ∈ flist lo L) as H by (rewrite E; set_solver). apply (blocks_bounds _ _ _ _ _ Hs) in H. lia. }
  destruct (lst_elem base f1) as [-> |H]; [lia|]. apply list_elem_of_fmap in H as ([x s] & Ex & Hx).
  cbn in Ex. subst x. destruct (blocks_before _ _ _ _ _ _ _ _ _ Hs E Hx) as (? & ? & ?). unfold HDR in *. lia.
Qed.

Lemma blocks_length w p L : (length (blocks w p L) <= length L)%nat.
Proof. revert p. induction L as [|[b s] L IH]; intros p; cbn; [done|]. rewrite length_app. specialize (IH (p + s * HDR)). destruct (Bool.eqb b w); cbn; lia. Qed.

Lemma blocks_nodup w p L : sizes_ok L -> NoDup (blocks w p L).*1.
Proof.
  intros H. revert p. induction H as [|[b s] L Hs HL IH]; intros p; cbn; [constructor|].
  destruct (Bool.eqb b w); cbn; [|apply IH]. constructor; [|apply IH]. intros Hin.
  apply list_elem_of_fmap in Hin as ([x t] & Ex & Hx). apply (blocks_bounds _ _ _ _ _ HL) in Hx. cbn in *. unfold HDR in *. lia.
Qed.

(** Every block of a chain has its cell, so the list is no longer than the map. *)
Lemma chain_cells a q f stop :
  chain a q f stop -> NoDup f.*1 -> (forall x s, (x, s) ∈ f -> 1 <= s) -> (length f <= map_size (cells a))%nat.
Proof.
  intros Hc Hn Hs. pose proof (subseteq_size (list_to_set f.*1 : gset Z) (dom (cells a))) as H.
  rewrite size_list_to_set, size_dom, length_fmap in H by done. apply H. clear H. intros x Hx. apply elem_of_list_to_set, list_elem_of_fmap in Hx as ([y s] & -> & Hy).
  pose proof (chain_size _ _ _ _ _ _ Hc Hy) as Hz. specialize (Hs _ _ Hy). apply elem_of_dom. cbn.
  unfold hdr in Hz. destruct (cells a !! y); [done|]. cbn in Hz. lia.
Qed.

Lemma free_fuel base lo L a : tiled base lo L a -> (length (flist lo L) <= map_size (cells a))%nat.
Proof.
  intros H. eapply chain_cells; [apply (t_chain _ _ _ _ H)|apply blocks_nodup, (t_sizes _ _ _ _ H)|].
  intros x s Hx. apply (blocks_bounds _ _ _ _ _ (t_sizes _ _ _ _ H)) in Hx. lia.
Qed.

(** ** Changes of the list *)

Lemma hdr_insert_eq p h a : hdr (set_hdr p h a) p = h.
Proof. unfold hdr, set_hdr. cbn. by rewrite lookup_insert_eq. Qed.

Lemma hdr_insert_ne p h a x : x <> p -> hdr (set_hdr p h a) x = hdr a x.
Proof. intros Hne. unfold hdr, set_hdr. cbn. by rewrite lookup_insert_ne. Qed.

(** The chain behind a block whose pointer is set. *)
Lemma chain_relink a a' q0 q g stop :
  chain a q0 g stop -> (forall x, x ∈ g.*1 -> hdr a' x = hdr a x) -> ptr (hdr a' q) = nxt g stop -> chain a' q g stop.
Proof.
  revert q0 q. induction g as [|[x s] g IH]; intros q0 q H Hg Hp; [done|]. destruct H as (_ & Hs & H). cbn in *.
  split; [done|]. split; [by rewrite Hg by set_solver|]. apply (IH x); [done|intros; apply Hg; set_solver|].
  rewrite Hg by set_solver. by apply chain_head.
Qed.

(** The chain before a block, with the pointer of its last one set. *)
Lemma chain_retarget a a' q f stop stop' :
  chain a q f stop -> NoDup (q :: f.*1) ->
  (forall x, x = q \/ x ∈ f.*1 -> x <> lst q f -> hdr a' x = hdr a x) ->
  size (hdr a' (lst q f)) = size (hdr a (lst q f)) -> ptr (hdr a' (lst q f)) = stop' -> chain a' q f stop'.
Proof.
  revert q. induction f as [|[x s] f IH]; intros q H Hn Hg Hs Hp; [done|]. destruct H as (Hq & Hx & H).
  cbn [chain lst] in *. cbn [fmap list_fmap fst] in *.
  pose proof (NoDup_cons_1_1 _ _ Hn) as Hqn. pose proof (NoDup_cons_1_2 _ _ Hn) as Hn'. assert (q <> lst x f) as Hne.
  { intros ->. apply Hqn. destruct (lst_elem x f) as [-> |Hin]; set_solver. }
  split; [by rewrite Hg by auto|]. split.
  - destruct (decide (x = lst x f)) as [E|E]; [by rewrite E, Hs, <- E|]. rewrite Hg; [done|set_solver|done].
  - apply IH; [done|done| |done|done]. intros y Hy. apply Hg. set_solver.
Qed.

Lemma blocks_disjoint p L x s t : sizes_ok L -> (x, s) ∈ flist p L -> (x, t) ∈ alist p L -> False.
Proof.
  intros H. revert p. induction H as [|[b u] L Hu HL IH]; intros p Hf Ha; cbn in *; [by apply elem_of_nil in Hf|].
  apply elem_of_app in Hf as [Hf|Hf], Ha as [Ha|Ha]; [| | |by apply (IH (p + u * HDR))].
  - destruct b; cbn in *; [by apply elem_of_nil in Ha|by apply elem_of_nil in Hf].
  - destruct b; cbn in *; [|by apply elem_of_nil in Hf]. apply list_elem_of_singleton in Hf. simplify_eq.
    apply (blocks_bounds _ _ _ _ _ HL) in Ha. unfold HDR in *. lia.
  - destruct b; cbn in *; [by apply elem_of_nil in Ha|]. apply list_elem_of_singleton in Ha. simplify_eq.
    apply (blocks_bounds _ _ _ _ _ HL) in Hf. unfold HDR in *. lia.
Qed.

(** The free blocks beside a freed one are joined to it. *)
Definition split_head (L : list tile) : Z * list tile :=
  match L with (true, s) :: L' => (s, L') | _ => (0, L) end.

Fixpoint split_last (L : list tile) : list tile * Z :=
  match L with
  | [] => ([], 0)
  | [(true, s)] => ([], s)
  | t :: L' => let '(M, s) := split_last L' in (t :: M, s)
  end.

Definition coalesce (L1 : list tile) (s : Z) (L2 : list tile) : list tile :=
  let '(M1, s1) := split_last L1 in
  let '(s2, M2) := split_head L2 in
  M1 ++ (true, s1 + s + s2) :: M2.

Lemma split_last_cons t t' L : split_last (t :: t' :: L) = let '(M, s) := split_last (t' :: L) in (t :: M, s).
Proof. by destruct t as [[] u]. Qed.

Lemma split_last_spec L :
  (last_free L = false /\ split_last L = (L, 0)) \/ (exists M s, L = M ++ [(true, s)] /\ split_last L = (M, s)).
Proof.
  induction L as [|[b s] L IH]; [by left|]. destruct L as [|t L].
  - destruct b; [right; by exists [], s|by left].
  - destruct IH as [[H1 H2]|(M & u & E1 & E2)].
    + left. split; [exact H1|]. by rewrite split_last_cons, H2.
    + right. exists ((b, s) :: M), u. split; [by rewrite E1|]. by rewrite split_last_cons, E2.
Qed.

Section Free.
Context (base lo : Z) (L1 : list tile) (s : Z) (L2 : list tile) (a : arena).
Context (Ht : tiled base lo (L1 ++ (false, s) :: L2) a).
#[local] Set Default Proof Using "Type*".

Let p := lo + total L1 * HDR.
Let f1 := flist lo L1.
Let f2 := flist (p + s * HDR) L2.

Lemma free_list : flist lo (L1 ++ (false, s) :: L2) = f1 ++ f2.
Proof. by rewrite blocks_app. Qed.

Lemma free_sizes : sizes_ok L1 /\ 1 <= s /\ sizes_ok L2.
Proof. pose proof (t_sizes _ _ _ _ Ht) as H. apply Forall_app in H as [H1 H2]. apply Forall_cons_iff in H2 as [H2 H3]. done. Qed.

Lemma free_chain : chain a base f1 (nxt f2 base) /\ chain a (lst base f1) f2 base.
Proof. pose proof (t_chain _ _ _ _ Ht) as H. rewrite free_list in H. by apply chain_app. Qed.

Lemma free_low x t : (x, t) ∈ f1 -> lo <= x /\ 1 <= t /\ x + t * HDR <= p.
Proof. intros H. destruct free_sizes as (Hs & _ & _). by apply (blocks_bounds _ _ _ _ _ Hs) in H. Qed.

Lemma free_high x t : (x, t) ∈ f2 -> p + s * HDR <= x /\ 1 <= t /\ x + t * HDR <= lo + total (L1 ++ (false, s) :: L2) * HDR.
Proof.
  intros H. destruct free_sizes as (_ & _ & Hs). apply (blocks_bounds _ _ _ _ _ Hs) in H.
  rewrite tiles_total_app. cbn. fold (total L2). unfold p, HDR in *. lia.
Qed.

Lemma free_pos : lo <= p /\ 1 <= s /\ base < lo /\ 0 < base.
Proof.
  destruct free_sizes as (H1 & H2 & _). pose proof (total_nonneg _ H1). pose proof (t_base _ _ _ _ Ht). unfold p, HDR. lia.
Qed.

Lemma lst_low : base <= lst base f1 < p.
Proof.
  pose proof free_pos. destruct (lst_elem base f1) as [-> |H']; [lia|].
  apply list_elem_of_fmap in H' as ([x t] & E & Hx). cbn in E. subst x. apply free_low in Hx. unfold HDR in *. lia.
Qed.

Lemma stops_last : stops a p (lst base f1) = true.
Proof.
  destruct free_chain as [_ Hc]. apply chain_head in Hc. pose proof lst_low as Hl. pose proof free_pos. unfold stops. rewrite Hc.
  rewrite (proj2 (Z.ltb_lt _ _)) by lia. cbn [andb orb]. destruct f2 as [|[x t] g] eqn:E; cbn [nxt].
  - rewrite (proj2 (Z.leb_le _ _)) by lia. apply orb_true_r.
  - destruct (free_high x t) as (Hx & _); [rewrite E; apply list_elem_of_here|].
    rewrite (proj2 (Z.ltb_lt p x)); [done|]. unfold HDR in *. lia.
Qed.

Lemma stops_low h1 x t h2 : f1 = h1 ++ (x, t) :: h2 -> stops a p (lst base h1) = false.
Proof.
  intros E. destruct free_chain as [Hc _]. rewrite E in Hc. apply chain_app in Hc as [_ Hc]. apply chain_head in Hc.
  destruct free_sizes as (Hs & _). pose proof free_pos.
  destruct (lst_before lo L1 h1 h2 x t base Hs) as [Hq Hx]; [lia|done|].
  destruct (free_low x t) as (_ & Ht1 & Hp); [rewrite E; set_solver|].
  unfold stops. rewrite Hc. cbn [nxt]. unfold HDR in *. rewrite (proj2 (Z.ltb_ge p x)), (proj2 (Z.leb_gt x _)) by lia.
  by rewrite andb_false_r.
Qed.

Lemma stops_high h1 x t h2 : f2 = h1 ++ (x, t) :: h2 -> stops a p x = false.
Proof.
  intros E. destruct free_chain as [_ Hc]. rewrite E in Hc. apply chain_app in Hc as [_ Hc].
  destruct Hc as (_ & _ & Hc). apply chain_head in Hc. pose proof free_pos.
  destruct (free_high x t) as (Hx & _ & _); [rewrite E; set_solver|].
  unfold stops. rewrite Hc. unfold HDR in *. rewrite (proj2 (Z.ltb_ge x p)) by lia. cbn [andb orb].
  destruct h2 as [|[y u] h2]; cbn [nxt].
  - rewrite (proj2 (Z.ltb_ge p base)) by lia. by rewrite andb_false_r.
  - rewrite (proj2 (Z.leb_gt y x)); [done|].
    destruct free_sizes as (_ & _ & Hs).
    destruct (blocks_before true (p + s * HDR) L2 (h1 ++ [(x, t)]) h2 x t y u Hs) as (_ & Hy & ?);
      [by rewrite <- app_assoc|set_solver|]. unfold HDR in *. lia.
Qed.

(** From a block before [p] the search goes up to the last one. *)
Lemma free_up h1 h2 fuel :
  f1 = h1 ++ h2 -> free_loop (S (length h2) + fuel) p (lst base h1) a = Some (lst base f1).
Proof.
  intros E. destruct h2 as [|[x t] h2 _] using rev_ind.
  { rewrite app_nil_r in E. rewrite <- E. apply free_here, stops_last. }
  destruct free_chain as [Hc _]. rewrite E in Hc. apply chain_app in Hc as [_ Hc]. apply chain_app in Hc as [Hc _].
  rewrite length_app. cbn [length nxt] in *. replace (S (length h2 + 1) + fuel)%nat with (S (length h2) + S fuel)%nat by lia.
  rewrite (free_walk _ p h2 _ x).
  - assert (lst base f1 = x) as El by (by rewrite E, app_assoc, lst_app). rewrite <- El. apply free_here, stops_last.
  - exact Hc.
  - intros y [-> |Hy].
    + destruct h2 as [|[z u] h2]; [by apply (stops_low h1 x t [])|].
      apply (stops_low h1 z u (h2 ++ [(x, t)])). by rewrite E.
    + apply list_elem_of_fmap in Hy as ([y' u] & -> & Hy). apply list_elem_of_split in Hy as (g1 & g2 & ->).
      assert (y' = lst base (h1 ++ g1 ++ [(y', u)])) as Ey by (by rewrite !lst_app).
      cbn [fst]. rewrite Ey. destruct g2 as [|[z v] g2].
      * apply (stops_low _ x t []). by rewrite E, <- !app_assoc.
      * apply (stops_low _ z v (g2 ++ [(x, t)])). rewrite E, <- !app_assoc. done.
Qed.

Lemma free_finds fuel : (length f1 + length f2 + 1 < fuel)%nat -> free_loop fuel p (allocp a) a = Some (lst base f1).
Proof.
  intros Hf. destruct (t_allocp _ _ _ _ Ht) as [-> |Hin].
  { replace fuel with (S (length f1) + (fuel - S (length f1)))%nat by lia. by apply (free_up [] f1). }
  rewrite free_list in Hin. apply list_elem_of_fmap in Hin as ([x t] & -> & Hin). apply elem_of_app in Hin as [Hin|Hin].
  - apply list_elem_of_split in Hin as (g1 & g2 & E). cbn [fst].
    assert (length f1 = (length g1 + S (length g2))%nat) as El by (by rewrite E, length_app).
    replace fuel with (S (length g2) + (fuel - S (length g2)))%nat by lia.
    assert (x = lst base (g1 ++ [(x, t)])) as Ex by (by rewrite lst_app). rewrite Ex at 1.
    apply free_up. by rewrite <- app_assoc.
  - apply list_elem_of_split in Hin as (g1 & g2 & E). cbn [fst].
    assert (length f2 = (length g1 + S (length g2))%nat) as El by (by rewrite E, length_app).
    destruct free_chain as [_ Hc]. rewrite E in Hc. apply chain_app in Hc as [_ (_ & _ & Hc)].
    replace fuel with (S (length g2) + (S (length f1) + (fuel - S (length g2) - S (length f1))))%nat by lia.
    rewrite (free_walk _ p g2 x base).
    + by apply (free_up [] f1).
    + exact Hc.
    + intros y [-> |Hy]; [by apply (stops_high g1 x t g2)|].
      apply list_elem_of_fmap in Hy as ([y' u] & -> & Hy). apply list_elem_of_split in Hy as (k1 & k2 & ->).
      apply (stops_high (g1 ++ (x, t) :: k1) y' u k2). rewrite E. by rewrite <- app_assoc.
Qed.

Let q := lst base f1.
Let s2 := (split_head L2).1.
Let M2 := (split_head L2).2.
Let g2 := flist (p + (s + s2) * HDR) M2.

Lemma free_top : p + (s + total L2) * HDR < 2 ^ 32.
Proof. pose proof (tiled_top _ _ _ _ Ht) as H. rewrite tiles_total_app in H. cbn in H. fold (total L2) in H. unfold p, HDR in *. lia. Qed.

Lemma free_size : size (hdr a p) = s.
Proof. apply (t_alloc _ _ _ _ Ht). rewrite blocks_app. cbn. fold p. set_solver. Qed.

Lemma head_cases :
  (L2 = (true, s2) :: M2 /\ f2 = (p + s * HDR, s2) :: g2) \/
  (hd_free L2 = false /\ s2 = 0 /\ M2 = L2 /\ g2 = f2 /\ nxt f2 base <> p + s * HDR).
Proof.
  unfold g2, f2, s2, M2. destruct free_sizes as (_ & Hs1 & Hs). pose proof free_pos. destruct L2 as [|[[] u] L]; cbn.
  - right. unfold HDR in *. split; [done|]. split; [done|]. split; [done|]. split; [done|]. lia.
  - left. split; [done|]. do 2 f_equal. unfold HDR. lia.
  - right. rewrite Z.add_0_r. split; [done|]. split; [done|]. split; [done|]. split; [done|].
    apply Forall_cons_iff in Hs as [Hu Hs]. cbn in Hu.
    destruct (flist (p + s * HDR + u * HDR) L) as [|[y v] g] eqn:E; cbn; [unfold HDR; lia|].
    assert ((y, v) ∈ flist (p + s * HDR + u * HDR) L) as Hy by (rewrite E; apply list_elem_of_here).
    apply (blocks_bounds _ _ _ _ _ Hs) in Hy. unfold HDR in *. lia.
Qed.

(** The block joined to the free one behind it. *)
Lemma free_step1 :
  (if padd p (size (hdr a p)) =? ptr (hdr a q) then
     let a' := set_size p (size (hdr a p) + size (hdr a (ptr (hdr a q)))) a in
     set_ptr p (ptr (hdr a' (ptr (hdr a q)))) a'
   else set_ptr p (ptr (hdr a q)) a) = set_hdr p (mkHeader (nxt g2 base) (s + s2)) a.
Proof.
  destruct free_chain as [_ Hc]. pose proof (chain_head _ _ _ _ Hc) as Hq. fold q in Hq, Hc. rewrite Hq, free_size.
  pose proof free_top as Htop. pose proof free_pos as Hpos. destruct free_sizes as (_ & _ & Hs2).
  pose proof (total_nonneg _ Hs2) as Htot. unfold padd. rewrite u32_small by (unfold HDR in *; lia).
  destruct head_cases as [[E2 Ef]|(_ & E1 & _ & Eg & Hne)].
  - rewrite Ef in Hc |- *. destruct Hc as (_ & Hz & Hc). cbn [nxt]. rewrite Z.eqb_refl.
    unfold set_ptr, set_size. rewrite Hz.
    assert (0 <= s + s2 < 4294967296) as Hr.
    { rewrite E2 in Hs2, Htop. apply Forall_cons_iff in Hs2 as [Hu HM]. cbn in Hu, Htop.
      fold (total M2) in Htop. pose proof (total_nonneg _ HM). unfold HDR in *. lia. }
    rewrite u32_small by done. cbv zeta. rewrite hdr_insert_ne by (unfold HDR; lia).
    rewrite (chain_head _ _ _ _ Hc). rewrite hdr_insert_eq. unfold set_hdr. cbn. by rewrite insert_insert_eq.
  - rewrite (proj2 (Z.eqb_neq _ _)) by congruence. unfold set_ptr. rewrite free_size, Eg, E1, Z.add_0_r. done.
Qed.

Let M1 := (split_last L1).1.
Let s1 := (split_last L1).2.
Let k1 := flist lo M1.
Let a1 := set_hdr p (mkHeader (nxt g2 base) (s + s2)) a.

Lemma last_cases :
  (L1 = M1 ++ [(true, s1)] /\ f1 = k1 ++ [(q, s1)] /\ q + s1 * HDR = p /\ q = lo + total M1 * HDR /\
     size (hdr a q) = s1 /\ 1 <= s1) \/
  (last_free L1 = false /\ s1 = 0 /\ M1 = L1 /\ k1 = f1 /\ padd q (size (hdr a q)) <> p).
Proof.
  pose proof free_pos as Hpos. pose proof free_top as Htop. destruct free_sizes as (Hs & _ & Hs2).
  pose proof (total_nonneg _ Hs2) as Htot. destruct free_chain as [Hc _].
  destruct (split_last_spec L1) as [[Hl E]|(M & u & EL & E)].
  - right. unfold k1, M1, s1. rewrite E. split; [done|]. split; [done|]. split; [done|]. split; [done|].
    destruct (lst_elem base f1) as [Eq|Hin].
    + unfold q. rewrite Eq, (t_size0 _ _ _ _ Ht). unfold padd. rewrite u32_small by (unfold HDR in *; lia). lia.
    + apply list_elem_of_fmap in Hin as ([x t] & Eq & Hx). cbn in Eq. unfold q. rewrite Eq.
      rewrite (chain_size _ _ _ _ _ _ Hc Hx).
      destruct L1 as [|[b u] L _] using rev_ind; [by apply elem_of_nil in Hx|]. rewrite last_free_snoc in Hl. subst b.
      unfold f1 in Hx. rewrite blocks_app in Hx. cbn in Hx. rewrite app_nil_r in Hx.
      apply Forall_app in Hs as [Hs Hu]. apply Forall_cons_iff in Hu as [Hu _]. cbn in Hu.
      apply (blocks_bounds _ _ _ _ _ Hs) in Hx. unfold p in *. rewrite tiles_total_app in *. cbn in *. unfold padd.
      rewrite u32_small by (unfold HDR in *; lia). unfold HDR in *. lia.
  - left. unfold k1, M1, s1. rewrite E. cbn [fst snd]. split; [done|].
    assert (f1 = flist lo M ++ [(lo + total M * HDR, u)]) as Ef by (unfold f1; rewrite EL, blocks_app; done).
    assert (q = lo + total M * HDR) as Eq by (unfold q; rewrite Ef, lst_app; done).
    rewrite Ef, Eq. split; [done|]. split; [unfold p; rewrite EL, tiles_total_app; cbn; unfold HDR; lia|]. split; [done|].
    split; [apply (chain_size _ _ _ _ _ _ Hc); rewrite Ef; set_solver|].
    rewrite EL in Hs. apply Forall_app in Hs as [_ Hs]. apply Forall_cons_iff in Hs as [Hs _]. exact Hs.
Qed.

Lemma q_not_p : q <> p.
Proof. pose proof lst_low. unfold q. lia. Qed.

(** And to the one before it. *)
Lemma free_step2 :
  (if padd q (size (hdr a1 q)) =? p then
     let a' := set_size q (size (hdr a1 q) + size (hdr a1 p)) a1 in
     set_ptr q (ptr (hdr a' p)) a'
   else set_ptr q p a1) =
  set_hdr q (if last_free L1 then mkHeader (nxt g2 base) (s1 + s + s2) else mkHeader p (size (hdr a q))) a1.
Proof.
  pose proof q_not_p as Hqp. pose proof free_top as Htop. pose proof free_pos as Hpos.
  destruct free_sizes as (Hs & _ & Hs2). pose proof lst_low as Hlow. fold q in Hlow.
  assert (hdr a1 q = hdr a q) as Eq by (by apply hdr_insert_ne). rewrite Eq.
  destruct last_cases as [(E1 & _ & Eqp & _ & Esz & Hs1)|(El & Es1 & _ & _ & Hne)].
  - rewrite Esz. assert (last_free L1 = true) as -> by (rewrite E1; apply last_free_snoc).
    assert (0 <= s2 <= total L2) as H2.
    { destruct head_cases as [[E2 _]|(_ & -> & _)]; [|pose proof (total_nonneg _ Hs2); lia].
      rewrite E2 in Hs2 |- *. apply Forall_cons_iff in Hs2 as [Hu HM]. pose proof (total_nonneg _ HM). cbn in *.
      fold (total M2). lia. }
    unfold padd. rewrite u32_small by (unfold HDR in *; lia). rewrite Eqp, Z.eqb_refl. cbv zeta. unfold set_ptr, set_size.
    assert (hdr a1 p = mkHeader (nxt g2 base) (s + s2)) as Ep by apply hdr_insert_eq. rewrite Ep. cbn [size].
    rewrite hdr_insert_eq, hdr_insert_ne, Ep by done. cbn [size ptr]. rewrite u32_small by (unfold HDR in *; lia).
    unfold set_hdr. cbn [cells allocp brk]. rewrite insert_insert_eq, Z.add_assoc. done.
  - rewrite El, (proj2 (Z.eqb_neq _ _) Hne). unfold set_ptr. by rewrite Eq.
Qed.

Let a2 := set_allocp q
  (set_hdr q (if last_free L1 then mkHeader (nxt g2 base) (s1 + s + s2) else mkHeader p (size (hdr a q))) a1).

Lemma free_result : free (p + HDR) a = Some a2.
Proof.
  unfold free. pose proof free_top. pose proof free_pos. destruct free_sizes as (_ & _ & Hs2).
  pose proof (total_nonneg _ Hs2). replace (p + HDR - HDR) with p by lia.
  rewrite u32_small by (unfold HDR in *; lia). pose proof (free_fuel _ _ _ _ Ht) as Hf. rewrite free_list, length_app in Hf.
  rewrite free_finds by lia. fold q.
  pose proof free_step1 as S1. pose proof free_step2 as S2. cbv zeta in S1, S2 |- *. rewrite S1. fold a1. by rewrite S2.
Qed.

Lemma hdr_a2 x : x <> p -> x <> q -> hdr a2 x = hdr a x.
Proof. intros H1 H2. unfold a2, hdr at 1. cbn. rewrite !lookup_insert_ne by done. done. Qed.

(** What stays: the other free blocks and the allocated ones. *)
Lemma g2_kept x : x ∈ g2.*1 -> x <> p /\ x <> q /\ x ∈ f2.*1.
Proof.
  intros Hx. assert (x ∈ f2.*1) as Hf by (destruct head_cases as [[_ ->]|(_ & _ & _ & E & _)]; [set_solver|by rewrite <- E]).
  pose proof Hf as Hf'. apply list_elem_of_fmap in Hf' as ([y t] & -> & Hy). apply free_high in Hy. pose proof lst_low.
  pose proof free_pos. cbn [fst] in *. unfold q, HDR in *. split; [lia|]. split; [lia|]. exact Hf.
Qed.

Lemma coalesce_chain : chain a2 base (flist lo (coalesce L1 s L2)) base.
Proof.
  assert (coalesce L1 s L2 = M1 ++ (true, s1 + s + s2) :: M2) as ->
    by (unfold coalesce, M1, s1, s2, M2; by destruct (split_last L1), (split_head L2)).
  destruct free_chain as [Hc1 Hc2]. pose proof q_not_p as Hqp. pose proof free_pos as Hpos. pose proof lst_low as Hlow.
  assert (exists q0, chain a q0 g2 base) as [q0 Hg].
  { destruct head_cases as [[_ E]|(_ & _ & _ & -> & _)]; [rewrite E in Hc2; by destruct Hc2 as (_ & _ & Hc2); eexists|by eexists]. }
  rewrite blocks_app. cbn [blocks Bool.eqb app]. fold k1.
  assert (forall x, x ∈ g2.*1 -> hdr a2 x = hdr a x) as Hg2 by (intros x Hx; apply g2_kept in Hx as (? & ? & _); by apply hdr_a2).
  destruct free_sizes as (Hs & _). destruct last_cases as [(E1 & Ef & Eqp & Eq & Esz & Hs1)|(El & Es1 & EM & Ek & Hne)].
  - assert (last_free L1 = true) as El by (rewrite E1; apply last_free_snoc). rewrite <- Eq.
    rewrite Ef in Hc1. apply chain_app in Hc1 as [Hc1 _]. cbn [nxt] in Hc1.
    assert (hdr a2 q = mkHeader (nxt g2 base) (s1 + s + s2)) as Hq
      by (unfold a2; rewrite El; unfold hdr; cbn; by rewrite lookup_insert_eq).
    rewrite E1 in Hs. apply Forall_app in Hs as [Hs _].
    apply chain_mid; [|by rewrite Hq|].
    + eapply chain_frame; [|exact Hc1]. intros x Hx. unfold a2. cbn. assert (x < q) as Hxq.
      { destruct Hx as [-> |Hx]; [pose proof (total_nonneg M1 Hs); unfold HDR in *; lia|].
        apply list_elem_of_fmap in Hx as ([y t] & -> & Hy). apply (blocks_bounds _ _ _ _ _ Hs) in Hy. unfold HDR in *. cbn. lia. }
      rewrite !lookup_insert_ne by (unfold q in *; lia). done.
    + replace (q + (s1 + s + s2) * HDR) with (p + (s + s2) * HDR) by (unfold HDR in *; lia).
      apply (chain_relink a a2 q0); [done|done|by rewrite Hq].
  - rewrite Ek, EM, Es1. fold p. cbn [Z.add]. fold g2.
    assert (hdr a2 p = mkHeader (nxt g2 base) (s + s2)) as Hp
      by (unfold a2, a1, hdr; cbn; rewrite lookup_insert_ne by done; by rewrite lookup_insert_eq).
    assert (hdr a2 q = mkHeader p (size (hdr a q))) as Hq
      by (unfold a2; rewrite El; unfold hdr; cbn; by rewrite lookup_insert_eq).
    apply chain_mid; [|by rewrite Hp|].
    + apply (chain_retarget a a2 base f1 (nxt f2 base) p); fold q; [done| | |by rewrite Hq|by rewrite Hq].
      * constructor; [|apply blocks_nodup, Hs]. intros Hin. apply list_elem_of_fmap in Hin as ([y t] & E & Hy).
        apply free_low in Hy. cbn in E. lia.
      * intros x Hx Hxq. apply hdr_a2; [|done]. destruct Hx as [-> |Hx]; [lia|].
        apply list_elem_of_fmap in Hx as ([y t] & -> & Hy). apply free_low in Hy. unfold HDR in *. cbn. lia.
    + apply (chain_relink a a2 q0); [done|done|by rewrite Hp].
Qed.

Lemma coalesce_eq : coalesce L1 s L2 = M1 ++ (true, s1 + s + s2) :: M2.
Proof. unfold coalesce, M1, s1, s2, M2. by destruct (split_last L1), (split_head L2). Qed.

(** The sequence of blocks itself. *)
Lemma coalesce_tiles :
  sizes_ok (coalesce L1 s L2) /\ merged (coalesce L1 s L2) /\ total (coalesce L1 s L2) = total (L1 ++ (false, s) :: L2) /\
  (forall x t, (x, t) ∈ alist lo (coalesce L1 s L2) -> (x, t) ∈ alist lo L1 \/ (x, t) ∈ alist (p + s * HDR) L2).
Proof.
  rewrite coalesce_eq. destruct free_sizes as (Hs1 & Hs & Hs2). pose proof (t_merged _ _ _ _ Ht) as Hm.
  apply merged_app in Hm as (Hm1 & [_ Hm2] & _).
  assert (sizes_ok M1 /\ merged M1 /\ last_free M1 = false /\ 0 <= s1 /\ total L1 = total M1 + s1 /\ alist lo M1 = alist lo L1) as (A1 & A2 & A3 & A4 & A5 & A6).
  { destruct last_cases as [(E & _ & _ & _ & _ & H)|(El & E & EM & _)].
    - rewrite E in Hs1, Hm1 |- *. apply Forall_app in Hs1 as [Hs1 _]. apply merged_app in Hm1 as (Hm1 & _ & Hl).
      rewrite tiles_total_app, blocks_app. cbn. rewrite app_nil_r. repeat split; try done; try lia.
      destruct (last_free M1); [by specialize (Hl eq_refl)|done].
    - rewrite EM, E. repeat split; try done; lia. }
  assert (sizes_ok M2 /\ merged M2 /\ hd_free M2 = false /\ 0 <= s2 /\ total L2 = s2 + total M2 /\
          alist (p + (s + s2) * HDR) M2 = alist (p + s * HDR) L2) as (B1 & B2 & B3 & B4 & B5 & B6).
  { destruct head_cases as [[E _]|(E1 & E2 & EM & _)].
    - rewrite E in Hs2, Hm2 |- *. apply Forall_cons_iff in Hs2 as [Hu Hs2]. destruct Hm2 as [Hh Hm2]. cbn in *.
      repeat split; try done; try lia; [by apply Hh|]. f_equal. unfold HDR. lia.
    - rewrite EM, E2, Z.add_0_r. repeat split; try done; lia. }
  split; [apply Forall_app; split; [done|constructor; [cbn; lia|done]]|].
  split; [apply merged_app; split; [done|split; [|by rewrite A3]]; cbn; split; [by intros _|done]|].
  split; [rewrite !tiles_total_app; cbn; fold (total M2) (total L2); lia|].
  intros x t Hx. rewrite blocks_app in Hx. cbn in Hx.
  replace (lo + total M1 * HDR + (s1 + s + s2) * HDR) with (p + (s + s2) * HDR) in Hx by (unfold p, HDR; lia).
  rewrite B6, A6 in Hx. by apply elem_of_app in Hx.
Qed.

Lemma q_free : q = base \/ exists t, (q, t) ∈ f1.
Proof.
  destruct (lst_elem base f1) as [H|H]; [by left|]. right.
  apply list_elem_of_fmap in H as ([y t] & E & Hy). exists t. unfold q. by rewrite E.
Qed.

Lemma free_ok : exists a', free (p + HDR) a = Some a' /\ tiled base lo (coalesce L1 s L2) a'.
Proof.
  exists a2. split; [exact free_result|]. destruct coalesce_tiles as (C1 & C2 & C3 & C4).
  pose proof q_not_p as Hqp. pose proof free_pos as Hpos. destruct free_sizes as (Hs1 & Hs & Hs2).
  split; [done|done|apply (t_heap _ _ _ _ Ht)|rewrite C3; apply (t_brk _ _ _ _ Ht)|apply (t_base _ _ _ _ Ht)| |exact coalesce_chain| |].
  - destruct (decide (q = base)) as [E|E]; [|rewrite hdr_a2 by (done || lia); apply (t_size0 _ _ _ _ Ht)].
    destruct last_cases as [(E1 & _ & _ & Eq & _)|(El & _)].
    + rewrite E1 in Hs1. apply Forall_app in Hs1 as [Hs1 _]. pose proof (total_nonneg _ Hs1). unfold HDR in *. lia.
    + unfold a2. rewrite El, <- E. unfold hdr. cbn. rewrite lookup_insert_eq. cbn. rewrite E.
      apply (t_size0 _ _ _ _ Ht).
  - intros x t Hx. assert ((x, t) ∈ alist lo (L1 ++ (false, s) :: L2)) as Hin.
    { rewrite blocks_app. apply elem_of_app. destruct (C4 _ _ Hx) as [H|H]; [by left|right]. cbn. fold p. by apply list_elem_of_further. }
    rewrite hdr_a2; [by apply (t_alloc _ _ _ _ Ht)| |].
    + destruct (C4 _ _ Hx) as [H|H]; [apply (blocks_bounds _ _ _ _ _ Hs1) in H|apply (blocks_bounds _ _ _ _ _ Hs2) in H];
        fold p in H; unfold HDR in *; lia.
    + intros ->. destruct q_free as [E|[u Hu]].
      * rewrite E in Hin. apply (blocks_bounds _ _ _ _ _ (t_sizes _ _ _ _ Ht)) in Hin. lia.
      * apply (blocks_disjoint lo (L1 ++ (false, s) :: L2) q u t (t_sizes _ _ _ _ Ht)); [|done]. rewrite free_list. set_solver.
  - change (allocp a2) with q. rewrite coalesce_eq, blocks_app. cbn [blocks Bool.eqb app].
    destruct last_cases as [(_ & _ & _ & Eq & _)|(_ & _ & _ & Ek & _)].
    + right. rewrite fmap_app. apply elem_of_app. right. rewrite <- Eq. apply list_elem_of_here.
    + destruct q_free as [E|[u Hu]]; [by left|right]. fold k1. rewrite Ek, fmap_app. apply elem_of_app. left.
      apply list_elem_of_fmap. by exists (q, u).
Qed.
End Free.

(** ** Allocation *)

(** What is left of a free block of [s] when [n] are taken from its end. *)
Definition rest (s n : Z) : list tile := if s =? n then [] else [(true, s - n)].

Section Take.
Context (base lo : Z) (L1 : list tile) (s : Z) (L2 : list tile) (a : arena) (n : Z).
Context (Ht : tiled base lo (L1 ++ (true, s) :: L2) a) (Hn : 1 <= n <= s).
#[local] Set Default Proof Using "Type*".

Let p := lo + total L1 * HDR.
Let f1 := flist lo L1.
Let f2 := flist (p + s * HDR) L2.
Let q := lst base f1.

Lemma take_facts :
  sizes_ok L1 /\ sizes_ok L2 /\ 0 <= total L1 /\ 0 <= total L2 /\ lo <= p /\ 0 < base < lo /\ p + (s + total L2) * HDR < 2 ^ 32 /\
  base <= q < p /\ chain a base f1 p /\ size (hdr a p) = s /\ chain a p f2 base.
Proof.
  pose proof (t_sizes _ _ _ _ Ht) as H. apply Forall_app in H as [H1 H2]. apply Forall_cons_iff in H2 as [Hs H2].
  pose proof (total_nonneg _ H1). pose proof (total_nonneg _ H2). pose proof (t_base _ _ _ _ Ht).
  pose proof (tiled_top _ _ _ _ Ht) as Htop. rewrite tiles_total_app in Htop. cbn in Htop. fold (total L2) in Htop.
  pose proof (t_chain _ _ _ _ Ht) as Hc. rewrite blocks_app in Hc. cbn [blocks Bool.eqb app] in Hc.
  apply chain_app in Hc as [Hc1 (_ & Hz & Hc2)].
  repeat split; try done; try (unfold p, HDR in *; lia).
  - unfold q. destruct (lst_elem base f1) as [-> |E]; [lia|]. apply list_elem_of_fmap in E as ([y t] & E & Hy). rewrite E.
    apply (blocks_bounds _ _ _ _ _ H1) in Hy. cbn. lia.
  - unfold q. destruct (lst_elem base f1) as [-> |E]; [unfold p, HDR; lia|]. apply list_elem_of_fmap in E as ([y t] & E & Hy). rewrite E.
    apply (blocks_bounds _ _ _ _ _ H1) in Hy. unfold p, HDR in *. cbn. lia.
Qed.

(** The other free blocks, and the allocated ones, are elsewhere. *)
Lemma take_apart x t :
  ((x, t) ∈ f1 -> lo <= x < p) /\ ((x, t) ∈ f2 -> p + s * HDR <= x) /\
  ((x, t) ∈ alist lo L1 -> lo <= x < p /\ x <> q) /\ ((x, t) ∈ alist (p + s * HDR) L2 -> p + s * HDR <= x).
Proof.
  destruct take_facts as (H1 & H2 & _ & _ & Hlo & Hb & _).
  split; [|split; [|split]]; intros H; try apply (blocks_bounds _ _ _ _ _ H2) in H as HB; try apply (blocks_bounds _ _ _ _ _ H1) in H as HB;
    fold p in HB; unfold HDR in *; try lia.
  split; [lia|]. intros ->. unfold q in *. destruct (lst_elem base f1) as [E|E]; [rewrite E in *; lia|].
  apply list_elem_of_fmap in E as ([y u] & E & Hy). cbn in E. rewrite E in *. by apply (blocks_disjoint lo L1 y u t H1).
Qed.

Lemma take_allocp : q = base \/ q ∈ f1.*1.
Proof. unfold q. apply lst_elem. Qed.

Lemma take_merged : merged (L1 ++ rest s n ++ (false, n) :: L2).
Proof.
  pose proof (t_merged _ _ _ _ Ht) as Hm. apply merged_app in Hm as (Hm1 & [Hh Hm2] & Hl). cbn in Hl.
  unfold rest. case_bool; cbn [app]; apply merged_app; (split; [done|]); cbn; naive_solver.
Qed.

(** The whole block. *)
Lemma take_whole : s = n ->
  tiled base lo (L1 ++ (false, n) :: L2) (set_allocp q (set_ptr q (ptr (hdr a p)) a)).
Proof.
  intros E. destruct take_facts as (H1 & H2 & T1 & T2 & Hlo & Hb & Htop & Hq & Hc1 & Hz & Hc2).
  pose proof take_merged as Hm. unfold rest in Hm. rewrite E, Z.eqb_refl in Hm.
  set (a' := set_allocp q (set_ptr q (ptr (hdr a p)) a)).
  assert (forall x, x <> q -> hdr a' x = hdr a x) as Hx by (intros x Hne; by apply hdr_insert_ne).
  assert (hdr a' q = mkHeader (nxt f2 base) (size (hdr a q))) as Hhq.
  { unfold a', set_ptr, hdr at 1. cbn. rewrite lookup_insert_eq. cbn. by rewrite (chain_head _ _ _ _ Hc2). }
  assert (flist lo (L1 ++ (false, n) :: L2) = f1 ++ f2) as Ef by (rewrite blocks_app; cbn; fold p; by rewrite <- E).
  split.
  - apply Forall_app. split; [done|]. constructor; [cbn; lia|done].
  - exact Hm.
  - apply (t_heap _ _ _ _ Ht).
  - rewrite <- (t_brk _ _ _ _ Ht : _ = allocp1 (brk a')), !tiles_total_app. cbn. lia.
  - done.
  - destruct (decide (q = base)) as [Eb|Eb]; [rewrite <- Eb at 1; rewrite Hhq; cbn; rewrite Eb|rewrite Hx by congruence]; apply (t_size0 _ _ _ _ Ht).
  - rewrite Ef. apply chain_app. fold q. split.
    + apply (chain_retarget a a' base f1 p); fold q; [done| | |by rewrite Hhq|by rewrite Hhq].
      * constructor; [|by apply blocks_nodup]. intros Hin. apply list_elem_of_fmap in Hin as ([y t] & Ey & Hy).
        apply (proj1 (take_apart y t)) in Hy. cbn in Ey. lia.
      * intros x _ Hne. by apply Hx.
    + apply (chain_relink a a' p); [done| |by rewrite Hhq]. intros x Hin. apply Hx.
      apply list_elem_of_fmap in Hin as ([y t] & -> & Hy). apply (proj1 (proj2 (take_apart y t))) in Hy. unfold HDR in *. cbn. lia.
  - intros x t Hin. rewrite blocks_app in Hin. cbn in Hin. fold p in Hin. rewrite <- E in Hin.
    pose proof (take_apart x t) as (_ & _ & A3 & A4).
    assert (x = p /\ t = s \/ (x, t) ∈ alist lo (L1 ++ (true, s) :: L2) /\ x <> q) as [[-> ->]|[Hal Hne]].
    { rewrite blocks_app. cbn. fold p. apply elem_of_app in Hin as [Hin|Hin]; [right; split; [set_solver|by apply A3]|].
      apply elem_of_cons in Hin as [Hin|Hin]; [by simplify_eq; left|right]. split; [set_solver|]. apply A4 in Hin. unfold HDR in *. lia. }
    + rewrite Hx by lia. done.
    + rewrite Hx by done. by apply (t_alloc _ _ _ _ Ht).
  - rewrite Ef. cbn. destruct take_allocp as [->|Hin]; [by left|right]. rewrite fmap_app. set_solver.
Qed.

(** The tail of a larger one. *)
Lemma take_tail : n < s ->
  tiled base lo (L1 ++ (true, s - n) :: (false, n) :: L2)
    (set_allocp q (set_size (p + (s - n) * HDR) n (set_size p (s - n) a))).
Proof.
  intros Hlt. destruct take_facts as (H1 & H2 & T1 & T2 & Hlo & Hb & Htop & Hq & Hc1 & Hz & Hc2).
  pose proof take_merged as Hm. unfold rest in Hm. rewrite (proj2 (Z.eqb_neq s n)) in Hm by lia. cbn [app] in Hm.
  set (p' := p + (s - n) * HDR). set (a' := set_allocp q (set_size p' n (set_size p (s - n) a))).
  assert (p < p' < p + s * HDR) as Hp' by (unfold p', HDR; lia).
  assert (forall x, x <> p -> x <> p' -> hdr a' x = hdr a x) as Hx.
  { intros x N1 N2. unfold a', set_size. unfold hdr at 1. cbn. rewrite !lookup_insert_ne by done. done. }
  assert (hdr a' p = mkHeader (ptr (hdr a p)) (s - n)) as Hhp.
  { unfold a', set_size. unfold hdr at 1. cbn. rewrite lookup_insert_ne, lookup_insert_eq by lia. cbn.
    rewrite u32_small; [done|]. unfold HDR in *. lia. }
  assert (size (hdr a' p') = n) as Hhp'.
  { unfold a', set_size. unfold hdr at 1. cbn. rewrite lookup_insert_eq. cbn. apply u32_small. unfold HDR in *. lia. }
  assert (p' + n * HDR = p + s * HDR) as Ep by (unfold p', HDR; lia).
  assert (flist lo (L1 ++ (true, s - n) :: (false, n) :: L2) = f1 ++ (p, s - n) :: f2) as Ef
    by (rewrite blocks_app; cbn; fold p; fold p'; by rewrite Ep).
  split.
  - apply Forall_app. split; [done|]. constructor; [cbn; lia|]. constructor; [cbn; lia|done].
  - exact Hm.
  - apply (t_heap _ _ _ _ Ht).
  - rewrite <- (t_brk _ _ _ _ Ht : _ = allocp1 (brk a')), !tiles_total_app. cbn. lia.
  - done.
  - rewrite Hx by lia. apply (t_size0 _ _ _ _ Ht).
  - rewrite Ef. apply chain_mid; [|by rewrite Hhp|].
    + apply (chain_frame a); [|exact Hc1]. intros x Hin. unfold a', set_size. cbn.
      assert (x < p) by (destruct Hin as [-> |Hin]; [lia|]; apply list_elem_of_fmap in Hin as ([y t] & -> & Hy);
                         apply (proj1 (take_apart y t)) in Hy; cbn; lia).
      rewrite !lookup_insert_ne by lia. done.
    + apply (chain_relink a a' p); [done| |rewrite Hhp; by apply chain_head]. intros x Hin.
      apply list_elem_of_fmap in Hin as ([y t] & -> & Hy). apply (proj1 (proj2 (take_apart y t))) in Hy. cbn. apply Hx; lia.
  - intros x t Hin. rewrite blocks_app in Hin. cbn in Hin. fold p in Hin. fold p' in Hin. rewrite Ep in Hin.
    pose proof (take_apart x t) as (_ & _ & A3 & A4). apply elem_of_app in Hin as [Hin|Hin].
    + pose proof (A3 Hin). rewrite Hx by lia. apply (t_alloc _ _ _ _ Ht). rewrite blocks_app. set_solver.
    + apply elem_of_cons in Hin as [Hin|Hin]; [simplify_eq; done|]. pose proof (A4 Hin). rewrite Hx by lia.
      apply (t_alloc _ _ _ _ Ht). rewrite blocks_app. cbn. fold p. set_solver.
  - rewrite Ef. cbn. destruct take_allocp as [->|Hin]; [by left|right]. rewrite fmap_app. set_solver.
Qed.

Lemma take_ok : exists a', take_block n q p a = (lo + total (L1 ++ rest s n) * HDR + HDR, a') /\
  tiled base lo (L1 ++ rest s n ++ (false, n) :: L2) a'.
Proof.
  destruct take_facts as (H1 & H2 & T1 & T2 & Hlo & Hb & Htop & Hq & Hc1 & Hz & Hc2).
  unfold take_block. rewrite Hz. unfold rest. destruct (Z.eqb_spec s n) as [E|E]; cbn [app].
  - eexists. split; [|by apply take_whole]. f_equal. rewrite app_nil_r. unfold padd. rewrite u32_small; unfold p, HDR in *; lia.
  - eexists. split; [|apply take_tail; lia].
    assert (size (hdr (set_size p (s - n) a) p) = s - n) as ->.
    { unfold set_size. rewrite hdr_insert_eq. cbn. apply u32_small. unfold HDR in *. lia. }
    assert (padd p (s - n) = p + (s - n) * HDR) as -> by (unfold padd; rewrite u32_small; unfold HDR in *; lia).
    f_equal. unfold padd. rewrite tiles_total_app. cbn. rewrite u32_small; unfold p, HDR in *; lia.
Qed.
End Take.

(** ** The search for a block *)

Lemma first_fit (n : Z) (f : list (Z * Z)) :
  (forall x s, (x, s) ∈ f -> s < n) \/
  exists g1 x s g2, f = g1 ++ (x, s) :: g2 /\ n <= s /\ forall y t, (y, t) ∈ g1 -> t < n.
Proof.
  induction f as [|[x s] f IH]; [left; intros x s Hx; by apply elem_of_nil in Hx|].
  destruct (Z_lt_le_dec s n) as [Hs|Hs].
  - destruct IH as [IH|(g1 & y & t & g2 & -> & Ht & Hg)].
    + left. intros y t Hy. apply elem_of_cons in Hy as [Hy|Hy]; [by simplify_eq|by apply (IH y)].
    + right. exists ((x, s) :: g1), y, t, g2. split; [done|]. split; [done|]. intros z u Hz.
      apply elem_of_cons in Hz as [Hz|Hz]; [by simplify_eq|by apply (Hg z)].
  - right. exists [], x, s, f. split; [done|]. split; [done|]. intros y t Hy. by apply elem_of_nil in Hy.
Qed.

Lemma malloc_here fuel n q p a :
  n <= size (hdr a p) -> malloc_loop (S fuel) n q p a = Some (take_block n q p a).
Proof. intros H. cbn [malloc_loop]. by rewrite (proj2 (Z.leb_le _ _) H). Qed.

(** A stretch of the list that does not hold [allocp]. *)
Lemma malloc_stretch n q f stop a :
  chain a q f stop -> (forall x s, (x, s) ∈ f -> x <> allocp a) ->
  (exists g1 x s g2, f = g1 ++ (x, s) :: g2 /\ n <= s /\
     forall fuel, malloc_loop (length f + fuel) n q (nxt f stop) a = Some (take_block n (lst q g1) x a)) \/
  ((forall x s, (x, s) ∈ f -> s < n) /\
     forall fuel, malloc_loop (length f + fuel) n q (nxt f stop) a = malloc_loop fuel n (lst q f) stop a).
Proof.
  intros Hc Hf. destruct (first_fit n f) as [Hn|(g1 & x & s & g2 & -> & Hs & Hg)].
  - right. split; [done|]. intros fuel. apply malloc_walk; [done|]. intros x s Hx. split; [by apply (Hn x)|by apply (Hf x s)].
  - left. exists g1, x, s, g2. split; [done|]. split; [done|]. intros fuel. apply chain_app in Hc as [Hc1 (_ & Hz & _)].
    cbn [nxt] in Hc1. rewrite length_app. cbn [length].
    replace (length g1 + S (length g2) + fuel)%nat with (length g1 + S (length g2 + fuel))%nat by lia.
    replace (nxt (g1 ++ (x, s) :: g2) stop) with (nxt g1 x) by (by destruct g1 as [|[? ?] ?]).
    rewrite malloc_walk; [|done|].
    + apply malloc_here. lia.
    + intros y t Hy. split; [by apply (Hg y)|]. apply (Hf y t). set_solver.
Qed.

(** The whole round: a block that is big enough, or none and [morecore]. *)
Definition after_morecore (fuel : nat) (n : Z) (a : arena) : option (Z * arena) :=
  match morecore n a with
  | None => None
  | Some (p, a) => if p =? 0 then Some (0, a) else malloc_loop fuel n p (ptr (hdr a p)) a
  end.

Lemma malloc_exhausted fuel n q a :
  size (hdr a (allocp a)) < n -> malloc_loop (S fuel) n q (allocp a) a = after_morecore fuel n a.
Proof. intros H. cbn [malloc_loop]. by rewrite (proj2 (Z.leb_gt _ _) H), Z.eqb_refl. Qed.

Lemma malloc_round base lo L a n fuel :
  tiled base lo L a -> 1 <= n ->
  let r := malloc_loop (length (flist lo L) + 1 + fuel) n (allocp a) (ptr (hdr a (allocp a))) a in
  (exists g1 x s g2, flist lo L = g1 ++ (x, s) :: g2 /\ n <= s /\ r = Some (take_block n (lst base g1) x a)) \/
  ((forall x s, (x, s) ∈ flist lo L -> s < n) /\ r = after_morecore fuel n a).
Proof.
  intros Ht Hn r. subst r. pose proof (t_chain _ _ _ _ Ht) as Hc. pose proof (t_size0 _ _ _ _ Ht) as Hz.
  pose proof (blocks_nodup true lo L (t_sizes _ _ _ _ Ht)) as Hnd.
  assert (forall x s, (x, s) ∈ flist lo L -> x <> base) as Hb.
  { intros x s Hx. apply (blocks_bounds _ _ _ _ _ (t_sizes _ _ _ _ Ht)) in Hx. pose proof (t_base _ _ _ _ Ht). lia. }
  destruct (t_allocp _ _ _ _ Ht) as [Ea|Ha].
  - (* the list pointer is at the static header *)
    rewrite Ea, (chain_head _ _ _ _ Hc), <- Nat.add_assoc.
    destruct (malloc_stretch n base (flist lo L) base a Hc) as [(g1 & x & s & g2 & E & Hs & Hr)|[Hs Hr]].
    + rewrite Ea. exact Hb.
    + left. exists g1, x, s, g2. by rewrite Hr.
    + right. split; [done|]. rewrite Hr. rewrite <- Ea. apply malloc_exhausted. rewrite Ea, Hz. lia.
  - (* or at a block *)
    apply list_elem_of_fmap in Ha as ([x t] & Ea & Hx). cbn in Ea. apply list_elem_of_split in Hx as (k & h2 & E).
    rewrite E in Hc, Hnd, Hb |- *. apply chain_app in Hc as [Hc1 (_ & Hxt & Hc2)]. cbn [nxt] in Hc1.
    rewrite fmap_app in Hnd. cbn in Hnd. apply list.NoDup_app in Hnd as (_ & Hk & Hnd). pose proof (NoDup_cons_1_1 _ _ Hnd) as Hh2.
    rewrite Ea, (chain_head _ _ _ _ Hc2), length_app. cbn [length].
    replace (length k + S (length h2) + 1 + fuel)%nat with (length h2 + S (length k + S fuel))%nat by lia.
    destruct (malloc_stretch n x h2 base a Hc2) as [(g1 & y & s & g2 & E2 & Hs & Hr)|[Hs Hr]].
    + intros y s Hy ->. apply Hh2. rewrite <- Ea. apply list_elem_of_fmap. by exists (allocp a, s).
    + left. exists (k ++ (x, t) :: g1), y, s, g2. rewrite Hr, E2, <- app_assoc. split; [done|]. split; [done|]. by rewrite lst_app.
    + rewrite Hr. cbn [malloc_loop]. rewrite Hz, (proj2 (Z.leb_gt n 0)) by lia.
      assert (x <> base) as Hxb by (apply (Hb x t); set_solver). rewrite Ea, (proj2 (Z.eqb_neq base x)) by congruence.
      rewrite (chain_head _ _ _ _ Hc1).
      destruct (malloc_stretch n base k x a Hc1) as [(g1 & y & s & g2 & E2 & Hs' & Hr')|[Hs' Hr']].
      * intros y s Hy. rewrite Ea. intros ->. apply (Hk x); [|set_solver]. apply list_elem_of_fmap. by exists (x, s).
      * left. exists g1, y, s, (g2 ++ (x, t) :: h2). rewrite Hr', E2, <- app_assoc. done.
      * rewrite Hr'. destruct (Z_lt_le_dec t n) as [Hlt|Hle].
        -- right. split; [|rewrite <- Ea; apply malloc_exhausted; rewrite Ea; lia].
           intros y s Hy. apply elem_of_app in Hy as [Hy|Hy]; [by apply (Hs' y)|].
           apply elem_of_cons in Hy as [Hy|Hy]; [by simplify_eq|by apply (Hs y)].
        -- left. exists k, x, t, h2. split; [done|]. split; [done|]. apply malloc_here. lia.
Qed.

(** ** [morecore] and [malloc] *)

Lemma tiled_allocp base lo L a : tiled base lo L a -> allocp a <> 0.
Proof.
  intros H. pose proof (t_base _ _ _ _ H). destruct (t_allocp _ _ _ _ H) as [-> |Hin]; [lia|].
  apply list_elem_of_fmap in Hin as ([x s] & -> & Hx). apply (blocks_bounds _ _ _ _ _ (t_sizes _ _ _ _ H)) in Hx. cbn. lia.
Qed.

(** New memory is an allocated block at the end. *)
Lemma tiled_grow base lo L a n b :
  tiled base lo L a -> 1 <= n < 2 ^ 28 -> heap_ok b -> allocp1 b = allocp1 (brk a) + n * HDR ->
  tiled base lo (L ++ [(false, n)]) (set_size (allocp1 (brk a)) n (mkArena (cells a) (allocp a) b)).
Proof.
  intros Ht Hn Hb Eb. pose proof (t_sizes _ _ _ _ Ht) as Hs. pose proof (total_nonneg _ Hs) as Htot.
  pose proof (t_brk _ _ _ _ Ht) as Hbrk. pose proof (t_base _ _ _ _ Ht) as Hbase.
  set (cp := allocp1 (brk a)) in *. set (a' := set_size cp n _).
  assert (forall x, x < cp -> hdr a' x = hdr a x) as Hx.
  { intros x Hlt. unfold a', set_size, hdr at 1. cbn. rewrite lookup_insert_ne by lia. done. }
  assert (forall w x s, (x, s) ∈ blocks w lo L -> x < cp) as Hlt.
  { intros w x s Hin. apply (blocks_bounds _ _ _ _ _ Hs) in Hin. unfold HDR in *. lia. }
  assert (flist lo (L ++ [(false, n)]) = flist lo L) as Ef by (rewrite blocks_app; cbn; by rewrite app_nil_r).
  split.
  - apply Forall_app. split; [done|]. constructor; [cbn; lia|constructor].
  - apply merged_app. split; [apply (t_merged _ _ _ _ Ht)|]. split; cbn; auto.
  - exact Hb.
  - unfold a', set_size, set_hdr. cbn [brk]. rewrite Eb, tiles_total_app. cbn. unfold HDR in *. lia.
  - done.
  - rewrite Hx by (unfold HDR in *; lia). apply (t_size0 _ _ _ _ Ht).
  - rewrite Ef. apply (chain_frame a); [|apply (t_chain _ _ _ _ Ht)]. intros x Hin. unfold a', set_size. cbn.
    rewrite lookup_insert_ne; [done|]. destruct Hin as [-> |Hin]; [unfold HDR in *; lia|].
    apply list_elem_of_fmap in Hin as ([y t] & -> & Hy). apply Hlt in Hy. cbn. lia.
  - intros x s Hin. rewrite blocks_app in Hin. cbn in Hin. rewrite Hbrk in Hin. apply elem_of_app in Hin as [Hin|Hin].
    + rewrite Hx by (by apply (Hlt false x s)). by apply (t_alloc _ _ _ _ Ht).
    + apply list_elem_of_singleton in Hin. simplify_eq. unfold a', set_size. rewrite hdr_insert_eq. cbn.
      apply u32_small. lia.
  - rewrite Ef. apply (t_allocp _ _ _ _ Ht).
Qed.

Lemma morecore_ok base lo L a n :
  tiled base lo L a -> 1 <= n <= 2 ^ 27 + 1 ->
  exists r a', morecore n a = Some (r, a') /\
    ((r = 0 /\ tiled base lo L a') \/
     (r = allocp a' /\ r <> 0 /\ exists k, n <= k /\ tiled base lo (coalesce L k []) a')).
Proof.
  intros Ht Hn. unfold morecore, NALLOC. rewrite (u32_small (n + 128 - 1)) by lia.
  pose proof (Z.div_mod (n + 128 - 1) 128) as Hd. pose proof (Z.mod_pos_bound (n + 128 - 1) 128) as Hm.
  rewrite (u32_small (128 * _)) by lia. set (rnu := 128 * ((n + 128 - 1) / 128)) in *.
  rewrite (u32_small (rnu * HDR)) by (unfold HDR; lia).
  destruct (sbrk (rnu * HDR) (brk a)) as [cp b] eqn:Eb.
  apply sbrk_spec in Eb as (Hb & _ & Hr); [|apply (t_heap _ _ _ _ Ht)|unfold HDR; lia].
  destruct Hr as [[-> ->]|[-> Ebrk]].
  - eexists 0, _. split; [reflexivity|]. left. split; [done|]. by destruct a.
  - pose proof (t_brk _ _ _ _ Ht) as Hbrk. pose proof (t_base _ _ _ _ Ht). pose proof (total_nonneg _ (t_sizes _ _ _ _ Ht)).
    rewrite (proj2 (Z.eqb_neq _ 0)) by (unfold HDR in *; lia).
    pose proof (tiled_grow _ _ _ _ rnu b Ht ltac:(lia) Hb Ebrk) as Hg. rewrite <- Hbrk in *.
    pose proof (tiled_top _ _ _ _ Hg) as Htop. rewrite tiles_total_app in Htop. cbn in Htop.
    rewrite u32_small by (unfold HDR in *; lia).
    destruct (free_ok base lo L rnu [] _ Hg) as (a' & -> & Ha'). eexists _, _. split; [reflexivity|]. right. split; [done|].
    split; [by apply tiled_allocp in Ha'|]. exists rnu. split; [lia|done].
Qed.

(** What [malloc] does to the sequence of blocks: a free block of [L0] (which is
    the old sequence, perhaps with more memory at its end) gives up its tail. *)
Definition grown (L L0 : list tile) : Prop := L0 = L \/ exists k, 1 <= k /\ L0 = coalesce L k [].

Definition taken (lo : Z) (L : list tile) (n r : Z) (L' : list tile) : Prop :=
  exists L0 L1 s L2, grown L L0 /\ L0 = L1 ++ (true, s) :: L2 /\ n <= s /\
    r = lo + total (L1 ++ rest s n) * HDR + HDR /\ L' = L1 ++ rest s n ++ (false, n) :: L2.

Lemma take_found base lo L a n g1 x s g2 :
  tiled base lo L a -> flist lo L = g1 ++ (x, s) :: g2 -> 1 <= n <= s ->
  exists L1 L2 a', L = L1 ++ (true, s) :: L2 /\
    take_block n (lst base g1) x a = (lo + total (L1 ++ rest s n) * HDR + HDR, a') /\
    tiled base lo (L1 ++ rest s n ++ (false, n) :: L2) a'.
Proof.
  intros Ht E Hn. apply blocks_split in E as (L1 & L2 & -> & -> & -> & _).
  destruct (take_ok base lo L1 s L2 a n Ht Hn) as (a' & E & Ha'). by exists L1, L2, a'.
Qed.

Lemma coalesce_end L k : exists L1 s, coalesce L k [] = L1 ++ [(true, s)] /\ (1 <= k -> sizes_ok L -> k <= s).
Proof.
  unfold coalesce. destruct (split_last_spec L) as [[_ ->]|(M & u & -> & ->)]; cbn [split_head].
  - exists L, (0 + k + 0). split; [done|]. lia.
  - exists M, (u + k + 0). split; [done|]. intros _ H. apply Forall_app in H as [_ H]. apply Forall_cons_iff in H as [H _]. cbn in H. lia.
Qed.

Lemma blocks_coalesce_length lo L k : (length (flist lo (coalesce L k [])) <= length (flist lo L) + 1)%nat.
Proof.
  unfold coalesce. destruct (split_last_spec L) as [[_ ->]|(M & u & -> & ->)]; cbn [split_head];
    rewrite !blocks_app, !length_app; cbn; lia.
Qed.

(** The number of headers for a request. *)
Definition units (nbytes : Z) : Z := (nbytes + HDR - 1) / HDR + 1.

Lemma units_range n : 0 <= n <= 2 ^ 30 -> 1 <= units n <= 2 ^ 27 + 1 /\ n + HDR <= units n * HDR.
Proof. intros Hn. unfold units, HDR. pose proof (Z.div_mod (n + 8 - 1) 8). pose proof (Z.mod_pos_bound (n + 8 - 1) 8). lia. Qed.

Lemma units_code n : 0 <= n <= 2 ^ 30 -> u32 (u32 (n + HDR - 1) / HDR + 1) = units n.
Proof.
  intros Hn. pose proof (units_range n Hn) as [H _]. rewrite (u32_small (n + HDR - 1)) by (unfold HDR; lia).
  fold (units n). apply u32_small. lia.
Qed.

Lemma malloc_loop_ok base lo L a n fuel :
  tiled base lo L a -> 1 <= n <= 2 ^ 27 + 1 -> (2 * length (flist lo L) + 3 <= fuel)%nat ->
  exists r a', malloc_loop fuel n (allocp a) (ptr (hdr a (allocp a))) a = Some (r, a') /\
    ((r = 0 /\ tiled base lo L a') \/ (r <> 0 /\ exists L', taken lo L n r L' /\ tiled base lo L' a')).
Proof.
  intros Ht Hn Hf.
  assert (forall L1 s, sizes_ok (L1 ++ rest s n) -> 0 < base < lo -> lo + total (L1 ++ rest s n) * HDR + HDR <> 0) as Hnz.
  { intros L1 s Hs Hb. pose proof (total_nonneg _ Hs). unfold HDR. lia. }
  assert (forall L1 L2 s a', tiled base lo (L1 ++ rest s n ++ (false, n) :: L2) a' -> sizes_ok (L1 ++ rest s n) /\ 0 < base < lo) as Hsz.
  { intros L1 L2 s a' H. split; [|apply (t_base _ _ _ _ H)]. pose proof (t_sizes _ _ _ _ H) as Hs. rewrite app_assoc in Hs. by apply Forall_app in Hs as [Hs _]. }
  replace fuel with (length (flist lo L) + 1 + (fuel - (length (flist lo L) + 1)))%nat by lia.
  destruct (malloc_round base lo L a n (fuel - (length (flist lo L) + 1)) Ht ltac:(lia)) as [(g1 & x & s & g2 & E & Hs & ->)|[Hsmall ->]].
  - destruct (take_found _ _ _ _ n _ _ _ _ Ht E ltac:(lia)) as (L1 & L2 & a' & EL & -> & Ha').
    eexists _, _. split; [reflexivity|]. right. split; [apply Hsz in Ha' as [? ?]; by apply Hnz|]. eexists. split; [|exact Ha'].
    exists L, L1, s, L2. split; [by left|]. done.
  - unfold after_morecore. destruct (morecore_ok base lo L a n Ht Hn) as (r & a1 & -> & [[-> Ha1]|(Er & Hr & k & Hk & Ha1)]).
    { eexists 0, _. split; [reflexivity|]. by left. }
    rewrite (proj2 (Z.eqb_neq r 0) Hr), Er.
    pose proof (blocks_coalesce_length lo L k) as Hlen. set (L0 := coalesce L k []) in *.
    replace (fuel - (length (flist lo L) + 1))%nat with
      (length (flist lo L0) + 1 + (fuel - (length (flist lo L) + 1) - (length (flist lo L0) + 1)))%nat by lia.
    destruct (malloc_round base lo L0 a1 n (fuel - (length (flist lo L) + 1) - (length (flist lo L0) + 1)) Ha1 ltac:(lia)) as [(g1 & x & s & g2 & E & Hs & ->)|[Hbad _]].
    + destruct (take_found _ _ _ _ n _ _ _ _ Ha1 E ltac:(lia)) as (L1 & L2 & a' & EL & -> & Ha').
      eexists _, _. split; [reflexivity|]. right. split; [apply Hsz in Ha' as [? ?]; by apply Hnz|]. eexists. split; [|exact Ha'].
      exists L0, L1, s, L2. split; [right; exists k; split; [lia|done]|]. done.
    + exfalso. destruct (coalesce_end L k) as (M & u & EM & Hu). specialize (Hu ltac:(lia) (t_sizes _ _ _ _ Ht)).
      assert (u < n); [|lia]. apply (Hbad (lo + total M * HDR)). unfold L0. rewrite EM, blocks_app. cbn. set_solver.
Qed.

(** A heap that was never used, or one that is tiled. *)
Definition fresh (base lo : Z) (a : arena) : Prop :=
  allocp a = 0 /\ heap_ok (brk a) /\ 0 < base < lo /\ lo = allocp1 (brk a).

Definition started (base : Z) (a : arena) : arena :=
  if allocp a =? 0 then set_allocp base (set_hdr base (mkHeader base 0) a) else a.

Lemma fresh_tiled base lo a : fresh base lo a -> tiled base lo [] (started base a).
Proof.
  intros (Ha & Hh & Hb & Hl). unfold started. rewrite Ha. cbn [Z.eqb].
  assert (hdr (set_allocp base (set_hdr base (mkHeader base 0) a)) base = mkHeader base 0) as E by apply hdr_insert_eq.
  split; try done; try (by cbn; rewrite E); try (intros x s Hx; by apply elem_of_nil in Hx).
  - constructor.
  - cbn. unfold HDR. lia.
  - by left.
Qed.

Lemma malloc_ok base lo L a nbytes :
  tiled base lo L (started base a) -> 0 <= nbytes <= 2 ^ 30 ->
  exists r a', malloc base nbytes a = Some (r, a') /\
    ((r = 0 /\ tiled base lo L a') \/ (r <> 0 /\ exists L', taken lo L (units nbytes) r L' /\ tiled base lo L' a')).
Proof.
  intros Ht Hn. unfold malloc. rewrite units_code by done. fold (started base a).
  pose proof (free_fuel _ _ _ _ Ht). apply malloc_loop_ok; [done|by apply units_range|lia].
Qed.

Lemma tiled_started base lo L a : tiled base lo L a -> started base a = a.
Proof. intros H. unfold started. by rewrite (proj2 (Z.eqb_neq _ 0) (tiled_allocp _ _ _ _ H)). Qed.

(** ** Sequences of calls *)

(** The blocks the callers hold: the address [malloc] returned and the number of
    bytes asked for. *)
Inductive heap_run (base lo : Z) : arena -> list (Z * Z) -> Prop :=
| run_start a : fresh base lo a -> heap_run base lo a []
| run_malloc a live n r a' :
    heap_run base lo a live -> 0 <= n <= 2 ^ 30 -> malloc base n a = Some (r, a') -> r <> 0 ->
    heap_run base lo a' ((r, n) :: live)
| run_nomem a live n a' :
    heap_run base lo a live -> 0 <= n <= 2 ^ 30 -> malloc base n a = Some (0, a') -> heap_run base lo a' live
| run_free a l1 r n l2 a' :
    heap_run base lo a (l1 ++ (r, n) :: l2) -> free r a = Some a' -> heap_run base lo a' (l1 ++ l2).

Definition block_of (b : Z * Z) : Z * Z := (b.1 - HDR, units b.2).

Record live_ok (base lo : Z) (a : arena) (live : list (Z * Z)) : Prop := mkLive {
  live_sizes : forall r n, (r, n) ∈ live -> 0 <= n <= 2 ^ 30;
  live_tiles : exists L, tiled base lo L (started base a) /\ (allocp a = 0 -> L = []) /\ alist lo L ≡ₚ block_of <$> live }.

Lemma alist_coalesce lo L1 s L2 :
  alist lo (coalesce L1 s L2) = alist lo L1 ++ alist (lo + (total L1 + s) * HDR) L2.
Proof.
  unfold coalesce.
  assert (exists s2 M2, split_head L2 = (s2, M2) /\ forall p, alist p L2 = alist (p + s2 * HDR) M2) as (s2 & M2 & -> & E2).
  { destruct L2 as [|[[] u] L2]; cbn; eexists _, _; (split; [reflexivity|]); intros p; cbn; rewrite ?Z.add_0_r; done. }
  rewrite E2. destruct (split_last_spec L1) as [[_ ->]|(M & u & -> & ->)]; rewrite !blocks_app; cbn.
  - f_equal. f_equal. unfold HDR. lia.
  - rewrite app_nil_r, tiles_total_app. cbn. f_equal. f_equal. unfold HDR. lia.
Qed.

Lemma total_rest s n : total (rest s n) = s - n.
Proof. unfold rest. case_bool; cbn; lia. Qed.

Lemma alist_rest p s n : alist p (rest s n) = [].
Proof. unfold rest. by case_bool. Qed.

Lemma alist_taken lo L n r L' : taken lo L n r L' -> alist lo L' ≡ₚ (r - HDR, n) :: alist lo L.
Proof.
  intros (L0 & L1 & s & L2 & Hg & E0 & Hn & -> & ->).
  assert (alist lo L = alist lo L0) as ->.
  { destruct Hg as [-> |(k & _ & ->)]; [done|]. rewrite alist_coalesce. cbn. by rewrite app_nil_r. }
  rewrite E0, !blocks_app. cbn. rewrite alist_rest, total_rest, !tiles_total_app, total_rest. cbn [app].
  replace (lo + (total L1 + (s - n)) * HDR + HDR - HDR) with (lo + total L1 * HDR + (s - n) * HDR) by (unfold HDR; lia).
  replace (lo + total L1 * HDR + (s - n) * HDR + n * HDR) with (lo + total L1 * HDR + s * HDR) by (unfold HDR; lia).
  symmetry. apply Permutation_middle.
Qed.

Lemma heap_run_live base lo a live : heap_run base lo a live -> live_ok base lo a live.
Proof.
  induction 1 as [a Hf|a live n r a' _ [Hs (L & Ht & HL & Hp)] Hn E Hr|a live n a' _ [Hs (L & Ht & HL & Hp)] Hn E
                 |a l1 r n l2 a' _ [Hs (L & Ht & HL & Hp)] E].
  - split; [intros r n Hin; by apply elem_of_nil in Hin|]. exists []. split; [by apply fresh_tiled|]. done.
  - destruct (malloc_ok base lo L a n Ht Hn) as (r' & a1 & E' & [[-> _]|(_ & L' & Htk & Ha')]); rewrite E in E'; simplify_eq.
    split; [intros x m Hin; apply elem_of_cons in Hin as [Hin|Hin]; [by simplify_eq|by apply (Hs x)]|].
    exists L'. rewrite (tiled_started _ _ _ _ Ha'). split; [done|].
    split; [intros H0; by apply tiled_allocp in Ha'|]. rewrite (alist_taken _ _ _ _ _ Htk), Hp. done.
  - destruct (malloc_ok base lo L a n Ht Hn) as (r' & a1 & E' & [[-> Ha']|(Hr & _)]); rewrite E in E'; simplify_eq.
    split; [done|]. exists L. rewrite (tiled_started _ _ _ _ Ha'). split; [done|]. split; [intros H0; by apply tiled_allocp in Ha'|done].
  - assert (allocp a <> 0) as Hnz.
    { intros H0. rewrite (HL H0) in Hp. symmetry in Hp. apply Permutation_nil_r in Hp. by destruct l1. }
    unfold started in Ht. rewrite (proj2 (Z.eqb_neq _ 0) Hnz) in Ht.
    assert (block_of (r, n) ∈ alist lo L) as Hin by (rewrite Hp, fmap_app; set_solver).
    apply list_elem_of_split in Hin as (g1 & g2 & Eg). pose proof Eg as Eg'.
    apply blocks_split in Eg as (L1 & L2 & EL & -> & Ex & ->). rewrite EL in Ht.
    destruct (free_ok base lo L1 (units n) L2 a Ht) as (a2 & E2 & Ha2).
    replace (lo + total L1 * HDR + HDR) with r in E2 by (cbn in Ex; lia). rewrite E in E2. simplify_eq.
    split; [intros x m Hin; apply (Hs x); set_solver|]. eexists. rewrite (tiled_started _ _ _ _ Ha2). split; [exact Ha2|].
    split; [intros H0; by apply tiled_allocp in Ha2|]. rewrite alist_coalesce.
    rewrite Eg', fmap_app in Hp. cbn in Hp. apply Permutation_app_inv in Hp. rewrite fmap_app, <- Hp. cbn in Ex.
    apply Permutation_app_head. cbn [fst snd].
    replace (r - HDR + units n * HDR) with (lo + (total L1 + units n) * HDR) by (unfold HDR in *; lia). done.
Qed.

Lemma alist_pair lo L x s y t :
  sizes_ok L -> (x, s) ∈ alist lo L -> (y, t) ∈ alist lo L -> x = y \/ x + s * HDR <= y \/ y + t * HDR <= x.
Proof.
  intros Hs Hx Hy. apply list_elem_of_split in Hx as (g1 & g2 & E). rewrite E in Hy.
  apply elem_of_app in Hy as [Hy|Hy].
  - right. right. destruct (blocks_before _ _ _ _ _ _ _ _ _ Hs E Hy) as (_ & H & _). exact H.
  - apply elem_of_cons in Hy as [Hy|Hy]; [left; by simplify_eq|]. right. left.
    apply blocks_split in E as (L1 & L2 & -> & -> & -> & ->). apply Forall_app in Hs as [_ Hs].
    apply Forall_cons_iff in Hs as [_ Hs]. apply (blocks_bounds _ _ _ _ _ Hs) in Hy. lia.
Qed.

(** Without an allocated block there is at most one free one. *)
Lemma merged_all_free lo L : sizes_ok L -> merged L -> alist lo L = [] -> L = [] \/ exists s, L = [(true, s)].
Proof.
  intros Hs Hm Ha. destruct L as [|[[] s] L]; [by left| |done]. right. exists s.
  destruct L as [|[[] t] L]; [done| |done]. destruct Hm as [Hm _]. by specialize (Hm eq_refl).
Qed.

(** C9. The allocator is correct for every sequence of calls of [malloc], each for
    at most 1 GB, and of [free] of live blocks, from a heap never used. Every
    block lies in the memory [sbrk] gave, holds the bytes asked for, starts at a
    multiple of 8 from its start, and overlaps no other block nor another block's
    header. The next [malloc] of at most 1 GB returns (a block or 0), as does
    [free] of any live block; and when no block is live, all the memory is one
    free block again. (For requests near 4 GB the rounding wraps around:
    [malloc_wraps].) *)
Theorem malloc_correct (base lo : Z) (a : arena) (live : list (Z * Z)) (Hrun : heap_run base lo a live) :
  (forall r n, (r, n) ∈ live -> lo + HDR <= r /\ r + n <= allocp1 (brk a) /\ (r - lo) mod HDR = 0) /\
  NoDup live.*1 /\
  (forall r1 n1 r2 n2, (r1, n1) ∈ live -> (r2, n2) ∈ live ->
     r1 = r2 \/ r1 + n1 <= r2 - HDR \/ r2 + n2 <= r1 - HDR) /\
  (forall n, 0 <= n <= 2 ^ 30 -> exists r a', malloc base n a = Some (r, a')) /\
  (forall r n, (r, n) ∈ live -> exists a', free r a = Some a') /\
  (live = [] -> lo < allocp1 (brk a) ->
     hdr a base = mkHeader lo 0 /\ hdr a lo = mkHeader base ((allocp1 (brk a) - lo) / HDR)).
Proof.
  destruct (heap_run_live _ _ _ _ Hrun) as [Hs (L & Ht & HL & Hp)].
  pose proof (t_sizes _ _ _ _ Ht) as HsL. pose proof (t_brk _ _ _ _ Ht) as Hbrk.
  assert (brk (started base a) = brk a) as Eb by (unfold started; by case_bool). rewrite Eb in Hbrk.
  assert (forall r n, (r, n) ∈ live -> block_of (r, n) ∈ alist lo L) as Hin
    by (intros r n H; rewrite Hp; apply list_elem_of_fmap; by exists (r, n)).
  split; [|split; [|split; [|split; [|split]]]].
  - intros r n H. pose proof (units_range n (Hs _ _ H)) as [_ Hu]. pose proof (Hin _ _ H) as Ha.
    apply list_elem_of_split in Ha as (g1 & g2 & E). apply blocks_split in E as (L1 & L2 & -> & _ & Ex & _).
    cbn in Ex. apply Forall_app in HsL as [H1 H2]. apply Forall_cons_iff in H2 as [_ H2].
    pose proof (total_nonneg _ H1). pose proof (total_nonneg _ H2). rewrite tiles_total_app in Hbrk. cbn in Hbrk.
    fold (total L2) in Hbrk. unfold HDR in *. split; [lia|]. split; [lia|].
    replace (r - lo) with ((total L1 + 1) * 8) by lia. apply Z.mod_mul. lia.
  - assert (NoDup (block_of <$> live).*1) as H by (rewrite <- Hp; by apply blocks_nodup).
    rewrite <- list_fmap_compose in H. apply (NoDup_fmap_1 (fun r => r - HDR)). by rewrite <- list_fmap_compose.
  - intros r1 n1 r2 n2 H1 H2. pose proof (units_range n1 (Hs _ _ H1)) as [_ U1]. pose proof (units_range n2 (Hs _ _ H2)) as [_ U2].
    destruct (alist_pair lo L _ _ _ _ HsL (Hin _ _ H1) (Hin _ _ H2)) as [E|[E|E]]; cbn in E; unfold HDR in *; lia.
  - intros n Hn. destruct (malloc_ok base lo L a n Ht Hn) as (r & a' & E & _). by exists r, a'.
  - intros r n H. apply Hin, list_elem_of_split in H as (g1 & g2 & E). apply blocks_split in E as (L1 & L2 & -> & _ & Ex & _).
    assert (started base a = a) as Es.
    { unfold started. destruct (Z.eqb_spec (allocp a) 0) as [E0|]; [|done]. by destruct L1; specialize (HL E0). }
    rewrite Es in Ht. destruct (free_ok base lo L1 _ L2 a Ht) as (a' & E & _). exists a'. rewrite <- E. f_equal. cbn in Ex. lia.
  - intros -> Hlt. cbn in Hp. apply Permutation_nil_r in Hp.
    destruct (merged_all_free lo L HsL (t_merged _ _ _ _ Ht) Hp) as [-> |[s ->]]; [cbn in Hbrk; unfold HDR in *; lia|].
    assert (started base a = a) as Es.
    { unfold started. destruct (Z.eqb_spec (allocp a) 0) as [E0|]; [|done]. by specialize (HL E0). }
    rewrite Es in Ht. pose proof (t_chain _ _ _ _ Ht) as (E1 & E2 & E3). pose proof (t_size0 _ _ _ _ Ht) as E4. cbn in E3, Hbrk.
    rewrite <- Hbrk. replace (lo + (s + 0) * HDR - lo) with (s * HDR) by lia. rewrite Z.div_mul by done.
    destruct (hdr a base), (hdr a lo). cbn in *. by simplify_eq.
Qed.

(** A heap of 128 headers after one request of 100 bytes. *)
Definition arena0 : arena := mkArena ∅ 0 (mkTunables 10 0x80010000 0 false (-1)).
Definition arena1 : arena := match malloc 0x80001000 100 arena0 with Some (_, a) => a | None => arena0 end.

Lemma malloc_correct_witness :
  allocp1 (brk arena1) = 0x80010400 /\
  (0x80010000 + HDR <= 0x80010398 /\ 0x80010398 + 100 <= allocp1 (brk arena1) /\ (0x80010398 - 0x80010000) mod HDR = 0) /\
  (forall n, 0 <= n <= 2 ^ 30 -> exists r a', malloc 0x80001000 n arena1 = Some (r, a')).
Proof.
  assert (heap_run 0x80001000 0x80010000 arena1 [(0x80010398, 100)]) as Hrun.
  { apply (run_malloc _ _ arena0 [] 100); [|lia|vm_compute; reflexivity|lia]. apply run_start.
    split; [reflexivity|]. split; [split; [split|]; vm_compute; congruence|]. split; [lia|reflexivity]. }
  pose proof (malloc_correct 0x80001000 0x80010000 arena1 [(0x80010398, 100)] Hrun) as (H1 & _ & _ & H4 & _).
  split; [vm_compute; reflexivity|]. split; [|exact H4]. apply (H1 _ 100). apply list_elem_of_here.
Defined.

(** The limit of the requests matters: a request close to 4 GB makes the number
    of bytes asked of [sbrk] wrap around to 0, and [malloc] returns a block of
    memory the heap does not have. *)
Lemma malloc_wraps :
  match malloc 0x80001000 0xffffff00 arena0 with
  | Some (r, a) => r <> 0 /\ allocp1 (brk a) = allocp1 (brk arena0)
  | None => False
  end.
Proof. vm_compute. split; [congruence|reflexivity]. Qed.
