(* ===== verification/Tftp.v ===== *)
(** * Tftp: the network file transfer

    [src/net/cmd/tftplib.c]: the files the boot command reads over TFTP. The
    socket is a list of the events that [select] and [recvfrom] will report and a
    log of what was sent; everything else is translated from the source. A
    datagram has the four bytes of a header at least.

    The theorems: whatever the network loses, repeats or delays, the bytes a read
    delivers are those of the file at its offset, and a read is short only at the
    end of the file, until a read fails; and it does return when the server's blocks
    get through. A read after one that failed can deliver other bytes:
    [retry_skips_block]. *)

From S2P Require Import Prelude CString.

(** ** The network *)

(** [src/net/sys/arpa/tftp.h:43-52] *)
Definition SEGSIZE : Z := 512.
Definition RRQ : Z := 1.
Definition WRQ : Z := 2.
Definition DATA : Z := 3.
Definition ACK : Z := 4.
Definition ERROR : Z := 5.

(** [src/net/cmd/tftplib.c:42-44] *)
Definition MAXREXMT : Z := 5.

(** What the next [select] or [recvfrom] says: a timeout, an error, or a
    datagram with its source port, the two fields of its header and its data.
    [queued] is the number of further datagrams already there at that moment. *)
Inductive netev : Type :=
| EvTimeout
| EvSelErr
| EvRecvErr
| EvPacket (port op blk : Z) (data : list Z) (queued : nat).

(** What is sent: a request, data, an acknowledgement, or an error. *)
Inductive pkt : Type :=
| PReq (op : Z) (name mode : cstr)
| PData (blk : Z) (data : list Z)
| PAck (blk : Z)
| PError (code : Z) (msg : cstr).

(** The error numbers the code sets. *)
Inductive errcode : Type :=
| EOK | EIO | ENOENT | EACCES | ENOSPC | EINVAL | EEXIST | ETIMEDOUT | EPERM | ESPIPE | ENOTTY | EDESTADDRREQ
| ENAMETOOLONG | EADDRNOTAVAIL | EPROTONOSUPPORT | ENOBUFS.

(** [n_send] tells for each coming [sendto] whether it sends (yes when the list
    is empty). *)
Record net : Type := mkNet {
  n_in : list netev; n_send : list bool; n_sent : list pkt; n_errno : errcode; n_out : trace }.

Definition set_in (l : list netev) (n : net) : net := mkNet l (n_send n) (n_sent n) (n_errno n) (n_out n).
Definition set_errno (e : errcode) (n : net) : net := mkNet (n_in n) (n_send n) (n_sent n) e (n_out n).
Definition say (t : trace) (n : net) : net := mkNet (n_in n) (n_send n) (n_sent n) (n_errno n) (n_out n ++ t).

Definition sendto (p : pkt) (n : net) : bool * net :=
  (match n_send n with b :: _ => b | [] => true end,
   mkNet (n_in n) (drop 1 (n_send n)) (n_sent n ++ [p]) (n_errno n) (n_out n)).

(** [src/net/cmd/tftplib.c:30-39] *)
Definition tftperrmap : list errcode := [EIO; ENOENT; EACCES; ENOSPC; EIO; EINVAL; EEXIST; EACCES].

(** [src/net/cmd/tftplib.c:46-55] *)
Record tftpfile : Type := mkTftp {
  sin_port : Z; block : Z; flags : Z; eof : bool; start : Z; fend : Z; foffs : Z; th_data : list Z }.

Definition set_port (p : Z) (f : tftpfile) : tftpfile :=
  mkTftp p (block f) (flags f) (eof f) (start f) (fend f) (foffs f) (th_data f).
Definition set_eof (f : tftpfile) : tftpfile :=
  mkTftp (sin_port f) (block f) (flags f) true (start f) (fend f) (foffs f) (th_data f).
Definition set_data (d : list Z) (f : tftpfile) : tftpfile :=
  mkTftp (sin_port f) (block f) (flags f) (eof f) (start f) (fend f) (foffs f) d.
Definition set_range (s e : Z) (f : tftpfile) : tftpfile :=
  mkTftp (sin_port f) (block f) (flags f) (eof f) s e (foffs f) (th_data f).
Definition set_foffs (o : Z) (f : tftpfile) : tftpfile :=
  mkTftp (sin_port f) (block f) (flags f) (eof f) (start f) (fend f) o (th_data f).

(** [block] has 16 bits, unsigned; the delay that [O_NONBLOCK] asks for is left
    out. [src/net/cmd/tftplib.c:375-382] *)
Definition tftpnxtblk (f : tftpfile) : tftpfile :=
  mkTftp (sin_port f) (u16 (block f + 1)) (flags f) (eof f) (start f) (fend f) (foffs f) (th_data f).

(** Drops what is queued. [src/net/cmd/tftplib.c:641-661] *)
Definition synchnet (queued : nat) (n : net) : net := set_in (drop queued (n_in n)) n.

(** The part of the two loops after a datagram has come: continue, or return a
    value. [want] is the code of the datagram waited for. The fields of the header
    are of type [short]. *)
Inductive verdict : Type :=
| VAgain (f : tftpfile) (n : net)
| VMatch (f : tftpfile) (n : net)
| VFail (f : tftpfile) (n : net).

(** [src/net/cmd/tftplib.c:440-476] *)
Definition receive (first : bool) (want port op blk : Z) (data : list Z) (queued : nat) (f : tftpfile) (n : net) : verdict :=
  if negb first && negb (port =? sin_port f) then VAgain f n
  else
    let f := if first then set_port port f else f in
    let op := wraps 16 op in
    let blk := wraps 16 blk in
    if op =? ERROR then
      VFail f (set_errno (default EIO (tftperrmap !! Z.to_nat (Z.land blk 7)))
                 (if at_ data 0 =? 0 then n else say [Printf "tftp: %s\n" [AStr (Some data)]] n))
    else if op =? want then
      if blk =? block f then VMatch f n
      else
        let n := synchnet queued n in
        let n := if (queued =? 0)%nat then n else say [Printf "tftp: discarded %d packets\n" [AInt (Z.of_nat queued)]] n in
        if negb (blk =? block f - 1) then VFail f n else VAgain f n
    else VAgain f n.

(** [None]: still waiting for the network. Otherwise the value returned.
    [src/net/cmd/tftplib.c:398-477] *)
Fixpoint tftprrq_loop (fuel : nat) (req : pkt) (rexmt : Z) (f : tftpfile) (n : net) : option (Z * tftpfile * net) :=
  match fuel with
  | O => None
  | S fu =>
      let '(ok, n) := sendto req n in
      if negb ok then Some (-1, f, say [Printf "tftp: sendto" []] n)
      else if eof f then Some (0, f, n)
      else
        match n_in n with
        | [] => None
        | EvSelErr :: evs => Some (-1, f, say [Printf "tftp: select" []] (set_in evs n))
        | EvTimeout :: evs =>
            let n := set_in evs n in
            if MAXREXMT <? rexmt + 1 then Some (-1, f, set_errno ETIMEDOUT n)
            else tftprrq_loop fu req (rexmt + 1) f (say [Printf "tftp: timeout, retry %d\n" [AInt (rexmt + 1)]] n)
        | EvRecvErr :: evs => Some (-1, f, say [Printf "tftp: recvfrom" []] (set_in evs n))
        | EvPacket port op blk data queued :: evs =>
            let n := set_in evs n in
            let data := take (Z.to_nat SEGSIZE) data in
            let f := set_data data f in
            match receive (block f <=? 1) DATA port op blk data queued f n with
            | VAgain f n => tftprrq_loop fu req rexmt f n
            | VFail f n => Some (-1, f, n)
            | VMatch f n =>
                let len := Z.of_nat (length data) in
                Some (len, if len <? SEGSIZE then set_eof f else f, n)
            end
        end
  end.

(** Every round takes an event. [src/net/cmd/tftplib.c:385-478] *)
Definition tftprrq (req : pkt) (f : tftpfile) (n : net) : option (Z * tftpfile * net) :=
  tftprrq_loop (S (length (n_in n))) req 0 f n.

(** [src/net/cmd/tftplib.c:494-565] *)
Fixpoint tftpwrq_loop (fuel : nat) (req : pkt) (size rexmt : Z) (f : tftpfile) (n : net) : option (Z * tftpfile * net) :=
  match fuel with
  | O => None
  | S fu =>
      let '(ok, n) := sendto req n in
      if negb ok then Some (-1, f, say [Printf "tftp: sendto" []] n)
      else
        match n_in n with
        | [] => None
        | EvSelErr :: evs => Some (-1, f, say [Printf "tftp: select" []] (set_in evs n))
        | EvTimeout :: evs =>
            let n := set_in evs n in
            if MAXREXMT <? rexmt + 1 then Some (-1, f, set_errno ETIMEDOUT n)
            else tftpwrq_loop fu req size (rexmt + 1) f (say [Printf "tftp: timeout, retry %d\n" [AInt (rexmt + 1)]] n)
        | EvRecvErr :: evs => Some (-1, f, say [Printf "tftp: recvfrom" []] (set_in evs n))
        | EvPacket port op blk data queued :: evs =>
            let n := set_in evs n in
            match receive (block f =? 0) ACK port op blk (take (Z.to_nat SEGSIZE) data) queued f n with
            | VAgain f n => tftpwrq_loop fu req size rexmt f n
            | VFail f n => Some (-1, f, n)
            | VMatch f n => Some (size, f, n)
            end
        end
  end.

(** [src/net/cmd/tftplib.c:480-566] *)
Definition tftpwrq (req : pkt) (size : Z) (f : tftpfile) (n : net) : option (Z * tftpfile * net) :=
  tftpwrq_loop (S (length (n_in n))) req size 0 f n.

(** ** The operations on a file *)

Definition O_RDONLY : Z := 0.
Definition O_WRONLY : Z := 1.
Definition access (fl : Z) : Z := Z.land fl 3.

(** [src/net/sys/sys/param.h:66] *)
Definition MAXHOSTNAMELEN : Z := 256.

(** The host and the file that a path names; the variable [tftphost] names the
    host when the path does not. [src/net/cmd/tftplib.c:116-135] *)
Definition split_path (path : cstr) (tftphost : cptr) (n : net) : option (cstr * cstr) * net :=
  match strchr (Some path) (ch ":") with
  | Some len =>
      if MAXHOSTNAMELEN <? Z.of_nat len + 1 then (None, set_errno ENAMETOOLONG n)
      else (Some (take len path, drop (S len) path), n)
  | None =>
      match tftphost with
      | None => (None, set_errno EDESTADDRREQ (say [Printf "tftp: missing/bad host name: %s\n" [AStr (Some path)]] n))
      | Some host => (Some (host, path), n)
      end
  end.

(** [resolve] tells whether [gethostbyname] or [inet_addr] knows the host,
    [port] is the port of the service, [room] and [sock] whether there are
    memory and a socket. The mode is always [octet]: the test of [O_ASCII] is made
    on the access mode only. [src/net/cmd/tftplib.c:83-191] *)
Definition tftpopen (resolve : cstr -> bool) (port : option Z) (tftphost : cptr) (room sock : bool)
  (path : cstr) (fl : Z) (n : net) : option (option tftpfile * net) :=
  if negb (access fl =? O_RDONLY) && negb (access fl =? O_WRONLY) then Some (None, set_errno EACCES n)
  else
    match port with
    | None => Some (None, set_errno EPROTONOSUPPORT n)
    | Some port =>
        let '(hn, n) := split_path path tftphost n in
        match hn with
        | None => Some (None, n)
        | Some (host, name) =>
            if negb room then Some (None, set_errno ENOBUFS n)
            else if negb sock then Some (None, n)
            else if negb (resolve host) then
              Some (None, set_errno EADDRNOTAVAIL (say [Printf "tftp: bad internet address: %s\n" [AStr (Some host)]] n))
            else if access fl =? O_RDONLY then
              match tftprrq (PReq RRQ name (str "octet")) (mkTftp port 1 fl false 0 0 0 []) n with
              | None => None
              | Some (size, f, n) => Some (if 0 <=? size then Some (set_range (start f) (start f + size) f) else None, n)
              end
            else
              match tftpwrq (PReq WRQ name (str "octet")) (2 + strlen (Some name) + 1 + 6 - 4) (mkTftp port 0 fl false 0 0 0 []) n with
              | None => None
              | Some (size, f, n) => Some (if 0 <=? size then Some f else None, n)
              end
        end
    end.

(** The copy out of the buffer: the bytes, and the file.
    [src/net/cmd/tftplib.c:213-221] *)
Definition copy_out (nb : Z) (f : tftpfile) : list Z * tftpfile :=
  if (start f <=? foffs f) && (foffs f <? fend f) then
    let k := if nb <? fend f - foffs f then nb else fend f - foffs f in
    (take (Z.to_nat k) (drop (Z.to_nat (foffs f - start f)) (th_data f)), set_foffs (foffs f + k) f)
  else ([], f).

(** The bytes delivered so far, the value returned, the file. [None]: waiting.
    [src/net/cmd/tftplib.c:211-235] *)
Fixpoint read_loop (fuel : nat) (nb : Z) (out : list Z) (f : tftpfile) (n : net) : option (bool * list Z * tftpfile * net) :=
  match fuel with
  | O => None
  | S fu =>
      if (nb =? 0) || negb (start f <? fend f) then Some (true, out, f, n)
      else
        let '(d, f) := copy_out nb f in
        let nb := nb - Z.of_nat (length d) in
        if fend f <=? foffs f then
          match tftprrq (PAck (block f)) (tftpnxtblk f) n with
          | None => None
          | Some (k, f, n) =>
              if k <? 0 then Some (false, out ++ d, f, n)
              else read_loop fu nb (out ++ d) (set_range (fend f) (fend f + k) f) n
          end
        else read_loop fu nb (out ++ d) f n
  end.

(** The bytes stored at [buf]; the value returned is their number, or -1 (the
    flag is [false]). A round that takes no event is the last but one.
    [src/net/cmd/tftplib.c:193-238] *)
Definition tftpread (nread : Z) (f : tftpfile) (n : net) : option (bool * list Z * tftpfile * net) :=
  if negb (access (flags f) =? O_RDONLY) then Some (false, [], f, set_errno EPERM n)
  else read_loop (length (n_in n) + 3) nread [] f n.

(** A full buffer is sent. [src/net/cmd/tftplib.c:255-275] *)
Fixpoint write_loop (fuel : nat) (buf : list Z) (f : tftpfile) (n : net) : option (bool * tftpfile * net) :=
  match fuel with
  | O => None
  | S fu =>
      if (length buf =? 0)%nat then Some (true, f, n)
      else
        let k := Z.to_nat (if Z.of_nat (length buf) <? SEGSIZE - fend f then Z.of_nat (length buf) else SEGSIZE - fend f) in
        let f := set_foffs (foffs f + Z.of_nat k)
                   (set_data (take (Z.to_nat (fend f)) (th_data f) ++ take k buf)
                      (set_range (start f) (fend f + Z.of_nat k) f)) in
        let buf := drop k buf in
        if fend f =? SEGSIZE then
          let f := tftpnxtblk f in
          match tftpwrq (PData (block f) (th_data f)) (fend f) f n with
          | None => None
          | Some (r, f, n) =>
              if r <? 0 then Some (false, f, n) else write_loop fu buf (set_range (start f) 0 f) n
          end
        else write_loop fu buf f n
  end.

(** [true]: all was written, and the number of bytes is returned.
    [src/net/cmd/tftplib.c:240-277] *)
Definition tftpwrite (buf : list Z) (f : tftpfile) (n : net) : option (bool * tftpfile * net) :=
  if negb (access (flags f) =? O_WRONLY) then Some (false, f, set_errno EPERM n)
  else write_loop (S (S (length buf))) buf f n.

(** [src/net/cmd/tftplib.c:279-314] *)
Definition tftplseek (offs how : Z) (f : tftpfile) (n : net) : Z * tftpfile * net :=
  let noffs := if how =? 0 then Some offs else if how =? 1 then Some (foffs f + offs) else None in
  match noffs with
  | None => (-1, f, n)
  | Some noffs =>
      if access (flags f) =? O_WRONLY then
        if negb (noffs =? foffs f) then (-1, f, set_errno ESPIPE n) else (foffs f, f, n)
      else if noffs <? start f then (-1, f, set_errno ESPIPE n)
      else (noffs, set_foffs noffs f, n)
  end.

(** [src/net/cmd/tftplib.c:328-373] *)
Definition tftpclose (f : tftpfile) (n : net) : option net :=
  if access (flags f) =? O_WRONLY then
    let f := tftpnxtblk f in
    match tftpwrq (PData (block f) (take (Z.to_nat (fend f)) (th_data f))) (fend f) f n with
    | None => None
    | Some (r, f, n) =>
        if (0 <=? r) && (fend f =? SEGSIZE) then
          let f := tftpnxtblk f in
          match tftpwrq (PData (block f) []) 0 f n with
          | None => None
          | Some (_, _, n) => Some n
          end
        else Some n
    end
  else if (foffs f <? fend f) || negb (eof f) then
    let '(ok, n) := sendto (PError 0 (str "file closed")) n in
    Some (if ok then n else say [Printf "sendto(eof)" []] n)
  else Some n.

(** ** A server that has a file *)

Section Server.
Context (file : list Z).
#[local] Set Default Proof Using "Type".

(** The blocks of the file, numbered from 1; the last is shorter than the
    others, perhaps empty. *)
Definition blk (k : nat) : list Z := take 512 (drop (512 * (k - 1)) file).
Definition nblocks : nat := S (length file / 512).
#[local] Arguments blk : simpl never.
#[local] Arguments nblocks : simpl never.

(** Every data block that can arrive is one of the file's, with its number. *)
Definition honest_ev (e : netev) : Prop :=
  match e with
  | EvPacket _ op b data _ =>
      wraps 16 op = DATA -> exists k, (1 <= k <= nblocks)%nat /\ b = Z.of_nat k /\ data = blk k
  | _ => True
  end.
Definition honest (n : net) : Prop := Forall honest_ev (n_in n).

Lemma blk_length k : (length (blk k) <= 512)%nat.
Proof. unfold blk. rewrite length_take. lia. Qed.

Lemma blk_full k : (1 <= k < nblocks)%nat -> length (blk k) = 512%nat.
Proof.
  unfold blk, nblocks. intros Hk. rewrite length_take, length_drop.
  pose proof (Nat.div_mod (length file) 512). lia.
Qed.

Lemma blk_last : (length (blk nblocks) < 512)%nat /\ (512 * (nblocks - 1) + length (blk nblocks) = length file)%nat.
Proof.
  unfold blk, nblocks. rewrite length_take, length_drop.
  pose proof (Nat.div_mod (length file) 512). pose proof (Nat.mod_upper_bound (length file) 512). lia.
Qed.

Lemma blk_end k : (1 <= k <= nblocks)%nat -> (512 * (k - 1) + length (blk k) <= length file)%nat.
Proof.
  intros Hk. destruct (decide (k = nblocks)) as [-> |]; [pose proof blk_last; lia|].
  rewrite blk_full by lia. unfold nblocks in *. pose proof (Nat.div_mod (length file) 512). lia.
Qed.

Lemma blk_drop k i : drop i (blk k) = take (512 - i) (drop (512 * (k - 1) + i) file).
Proof. unfold blk. by rewrite skipn_firstn_comm, drop_drop. Qed.

Lemma s16_small x : 0 <= x < 32768 -> wraps 16 x = x.
Proof. intros H. apply wraps_small; [lia|]. change (2 ^ (16 - 1)) with 32768. lia. Qed.

(** The numbers of the blocks fit a positive [short]. *)
Context (Hsize : Z.of_nat nblocks < 32767).
#[local] Set Default Proof Using "Type*".

Lemma synchnet_honest q n : honest n -> honest (synchnet q n).
Proof. unfold honest, synchnet. cbn. apply Forall_drop. Qed.

(** What stays of the file while a block is waited for. *)
Definition same_file (f f' : tftpfile) : Prop :=
  block f' = block f /\ flags f' = flags f /\ eof f' = eof f /\ start f' = start f /\ fend f' = fend f /\ foffs f' = foffs f.

Lemma same_file_trans f1 f2 f3 : same_file f1 f2 -> same_file f2 f3 -> same_file f1 f3.
Proof. unfold same_file. intuition congruence. Qed.

Lemma receive_honest first port op b data q f n :
  honest n -> honest_ev (EvPacket port op b data q) ->
  match receive first DATA port op b (take 512 data) q (set_data (take 512 data) f) n with
  | VAgain f' n' | VFail f' n' => same_file f f' /\ honest n'
  | VMatch f' n' => same_file f f' /\ honest n' /\ th_data f' = take 512 data /\ wraps 16 op = DATA /\ wraps 16 b = block f
  end.
Proof.
  intros Hn He. unfold receive. destruct (negb first && _); [done|].
  set (f1 := if first then _ else _). assert (same_file f f1 /\ th_data f1 = take 512 data) as [Hf Hd] by (unfold f1; by destruct first).
  destruct (Z.eqb_spec (wraps 16 op) ERROR); [split; [done|]; by destruct (_ =? 0)|].
  destruct (Z.eqb_spec (wraps 16 op) DATA) as [Eo|]; [|done].
  assert (block f1 = block f) as Eb by apply Hf. rewrite Eb.
  destruct (Z.eqb_spec (wraps 16 b) (block f)); [done|].
  assert (honest (if (q =? 0)%nat then synchnet q n
                  else say [Printf "tftp: discarded %d packets\n" [AInt (Z.of_nat q)]] (synchnet q n))) as Hs
    by (destruct (q =? 0)%nat; by apply (synchnet_honest q n)).
  by destruct (negb _).
Qed.

(** A request answered: the block, or a failure; never other data. *)
Lemma tftprrq_honest fuel req t f n r f' n' k :
  honest n -> eof f = false -> block f = Z.of_nat k -> (1 <= k <= nblocks)%nat ->
  tftprrq_loop fuel req t f n = Some (r, f', n') ->
  honest n' /\ (r = -1 \/
    (r = Z.of_nat (length (blk k)) /\ th_data f' = blk k /\ eof f' = (r <? 512) /\ block f' = block f /\ flags f' = flags f /\
     start f' = start f /\ fend f' = fend f /\ foffs f' = foffs f)).
Proof.
  intros Hn He Hb Hk. revert t f n Hn He Hb. induction fuel as [|fu IH]; intros t f n Hn He Hb H; [done|].
  cbn [tftprrq_loop] in H. destruct (sendto req n) as [ok n1] eqn:Es. unfold sendto in Es. injection Es as Eok En.
  assert (honest n1) as Hn1 by (rewrite <- En; exact Hn). clear Eok En.
  destruct (negb ok); [simplify_eq; auto|]. rewrite He in H.
  unfold honest in Hn1. destruct (n_in n1) as [|e evs] eqn:Ei; [done|]. apply Forall_cons_iff in Hn1 as [He1 Hn1].
  destruct e as [| | |port op b data q]; [|simplify_eq; auto..|].
  - destruct (MAXREXMT <? t + 1); [simplify_eq; auto|]. eapply IH; [..|exact H]; done.
  - pose proof (receive_honest (block f <=? 1) port op b data q f (set_in evs n1) Hn1 He1) as Hr.
    change (Z.to_nat SEGSIZE) with 512%nat in H. change (block (set_data (take 512 data) f)) with (block f) in H.
    destruct (receive _ _ _ _ _ _ _ _ _) as [f1 n2|f1 n2|f1 n2].
    + destruct Hr as [(Eb & Ef & Ee & E1 & E2 & E3) Hn2].
      eapply IH in H; [|done|congruence|congruence]. destruct H as [H1 H2]. split; [done|].
      destruct H2 as [H2|H2]; [by left|right]. rewrite Eb, Ef, E1, E2, E3 in H2. exact H2.
    + destruct Hr as ((Eb & Ef & Ee & E1 & E2 & E3) & Hn2 & Ed & Eop & Ebl).
      destruct (He1 Eop) as (j & Hj & -> & ->). rewrite s16_small in Ebl by lia. assert (j = k) as -> by lia.
      rewrite (take_ge (blk k)) in H, Ed by apply blk_length. injection H as <- <- <-. split; [done|]. right.
      change SEGSIZE with 512. destruct (_ <? 512) eqn:El; cbn [set_eof block flags eof start fend foffs th_data]; rewrite ?Ee, ?He; repeat split; congruence.
    + destruct Hr. simplify_eq. auto.
Qed.

(** Where a file that was opened for reading stands: block [k] is in the buffer,
    or the end was reached. *)
Definition opened (k : nat) (f : tftpfile) : Prop :=
  (1 <= k <= nblocks)%nat /\ block f = Z.of_nat k /\ access (flags f) = O_RDONLY /\ start f = 512 * (Z.of_nat k - 1) /\
  fend f = start f + Z.of_nat (length (blk k)) /\ th_data f = blk k /\ eof f = (Z.of_nat (length (blk k)) <? 512) /\
  start f <= foffs f.

Definition ended (f : tftpfile) : Prop :=
  eof f = true /\ access (flags f) = O_RDONLY /\ start f = Z.of_nat (length file) /\ fend f = start f /\ start f <= foffs f.

Definition reading (f : tftpfile) : Prop := (exists k, opened k f) \/ ended f.

(** The copy out of the buffer copies the file. *)
Lemma copy_out_file k f nb d f' :
  opened k f -> 0 <= nb -> copy_out nb f = (d, f') ->
  d = take (length d) (drop (Z.to_nat (foffs f)) file) /\ Z.of_nat (length d) <= nb /\
    f' = set_foffs (foffs f + Z.of_nat (length d)) f /\
    (foffs f + Z.of_nat (length d) < fend f -> Z.of_nat (length d) = nb) /\
    (foffs f < fend f -> foffs f + Z.of_nat (length d) <= fend f).
Proof.
  intros (Hk & _ & _ & Es & Ee & Ed & _ & Hf) Hnb E. unfold copy_out in E. rewrite (proj2 (Z.leb_le _ _) Hf) in E. cbn [andb] in E.
  destruct (Z.ltb_spec (foffs f) (fend f)) as [Hlt|Hge].
  - set (m := if nb <? fend f - foffs f then nb else fend f - foffs f) in *.
    assert (0 <= m <= nb /\ m <= fend f - foffs f /\ (m < fend f - foffs f -> m = nb)) as (Hm & Hm1 & Hm2) by (unfold m; case_bool; lia).
    clearbody m. injection E as <- <-. rewrite Ed, blk_drop, firstn_firstn.
    pose proof (blk_length k) as Hl. pose proof (blk_end k Hk) as Hend.
    replace (Nat.min (Z.to_nat m) (512 - Z.to_nat (foffs f - start f))) with (Z.to_nat m) by lia.
    replace (512 * (k - 1) + Z.to_nat (foffs f - start f))%nat with (Z.to_nat (foffs f)) by lia.
    assert (length (take (Z.to_nat m) (drop (Z.to_nat (foffs f)) file)) = Z.to_nat m) as El
      by (rewrite length_take, length_drop; lia).
    rewrite El. split; [done|]. split; [lia|]. split; [f_equal; lia|]. split; lia.
  - injection E as <- <-. cbn. split; [done|]. split; [lia|].
    split; [by rewrite Z.add_0_r; destruct f|]. split; lia.
Qed.

(** The next block, after the one in the buffer was used up. *)
Definition refilled (k : nat) (f f' : tftpfile) : Prop :=
  foffs f' = foffs f /\ ((k < nblocks)%nat /\ opened (S k) f' \/ k = nblocks /\ ended f').

Lemma opened_eof k f : opened k f -> eof f = true <-> k = nblocks.
Proof.
  intros (Hk & _ & _ & _ & _ & _ & -> & _). rewrite Z.ltb_lt. pose proof blk_last as [Hl _].
  destruct (decide (k = nblocks)) as [-> |]; [lia|]. rewrite blk_full by lia. lia.
Qed.

Lemma opened_next k f : opened k f -> block (tftpnxtblk f) = Z.of_nat (S k).
Proof. intros (Hk & Hb & _). cbn. rewrite Hb. rewrite (wrapu_small 16); [lia|]. change (2 ^ 16) with 65536. lia. Qed.

(** The state after a successful refill. *)
Lemma refill_opened k f f' r :
  opened k f -> fend f <= foffs f -> (k < nblocks)%nat ->
  (r = Z.of_nat (length (blk (S k))) /\ th_data f' = blk (S k) /\ eof f' = (r <? 512) /\ block f' = Z.of_nat (S k) /\
   flags f' = flags f /\ fend f' = fend f /\ foffs f' = foffs f) ->
  refilled k f (set_range (fend f') (fend f' + r) f').
Proof.
  intros (Hk & _ & Ha & Es & Ee & _ & _ & _) Hf Hlt (-> & Ed & Eeof & Eb & Efl & Efe & Efo).
  split; [exact Efo|]. left. split; [done|]. rewrite blk_full in Ee by lia.
  split; [lia|]. cbn. rewrite Eb, Efl, Ed, Eeof, Efe, Efo. repeat split; (done || lia).
Qed.

Lemma refill_ended k f :
  opened k f -> fend f <= foffs f -> k = nblocks ->
  refilled k f (set_range (fend (tftpnxtblk f)) (fend (tftpnxtblk f) + 0) (tftpnxtblk f)).
Proof.
  intros Ho Hf E. pose proof (proj2 (opened_eof k f Ho) E) as He. destruct Ho as (Hk & _ & Ha & Es & Ee & _ & _ & _).
  split; [done|]. right. split; [done|]. pose proof blk_last as [_ Hl]. subst k.
  unfold ended. cbn [eof flags start fend foffs set_range tftpnxtblk]. repeat split; (done || lia).
Qed.

Lemma refill_honest k f n r f' n' req :
  opened k f -> honest n -> fend f <= foffs f -> tftprrq req (tftpnxtblk f) n = Some (r, f', n') ->
  honest n' /\ (r < 0 \/ 0 <= r /\ refilled k f (set_range (fend f') (fend f' + r) f')).
Proof.
  intros Ho Hn Hf H. pose proof (opened_eof k f Ho) as He. unfold tftprrq in H. pose proof Ho as (Hk & _).
  destruct (decide (k = nblocks)) as [E|E].
  - cbn [tftprrq_loop] in H. destruct (sendto req n) as [ok n1] eqn:Es. unfold sendto in Es. injection Es as Eok En.
    assert (honest n1) as Hn1 by (rewrite <- En; exact Hn). destruct (negb ok); [simplify_eq; split; [done|left; lia]|].
    change (eof (tftpnxtblk f)) with (eof f) in H. rewrite (proj2 He E) in H. injection H as <- <- <-.
    split; [done|]. right. split; [lia|]. by apply refill_ended.
  - apply (tftprrq_honest _ _ _ _ _ _ _ _ (S k)) in H as [H1 H2]; [|done| |by apply opened_next|lia].
    + split; [done|]. destruct H2 as [-> |(-> & Ed & Eeof & Eb & Efl & _ & Efe & Efo)]; [left; lia|right]. split; [lia|].
      apply refill_opened; [done..|lia|]. rewrite (opened_next k f Ho) in Eb. done.
    + change (eof (tftpnxtblk f)) with (eof f). destruct (eof f); [|done]. exfalso. apply E. by apply He.
Qed.

Lemma reading_short f : reading f -> start f <= foffs f /\ (fend f <= start f -> drop (Z.to_nat (foffs f)) file = []).
Proof.
  intros [[k (Hk & _ & _ & Es & Ee & _ & _ & Hf)]|(_ & _ & Es & Ee & Hf)]; (split; [done|]); intros Hle; apply drop_ge; [|lia].
  pose proof blk_last as [_ Hl]. destruct (decide (k = nblocks)) as [-> |]; [lia|]. rewrite blk_full in Ee by lia. lia.
Qed.

(** Whatever the network does, what is delivered is the file. *)
Lemma read_loop_honest fuel nb out f n ok out' f' n' :
  reading f -> honest n -> 0 <= nb -> read_loop fuel nb out f n = Some (ok, out', f', n') ->
  honest n' /\ exists j, (Z.of_nat j <= nb) /\ out' = out ++ take j (drop (Z.to_nat (foffs f)) file) /\
    (ok = true -> reading f' /\ out' = out ++ take (Z.to_nat nb) (drop (Z.to_nat (foffs f)) file) /\
       foffs f' = foffs f + Z.of_nat (length (take (Z.to_nat nb) (drop (Z.to_nat (foffs f)) file)))).
Proof.
  revert nb out f n. induction fuel as [|fu IH]; intros nb out f n Hr Hn Hnb H; [done|]. cbn [read_loop] in H.
  destruct (reading_short f Hr) as [Hsf Hshort].
  destruct ((nb =? 0) || negb (start f <? fend f)) eqn:Estop.
  { injection H as <- <- <- <-. split; [done|]. exists 0%nat. cbn. rewrite app_nil_r. split; [lia|]. split; [done|].
    intros _. split; [done|].
    assert (take (Z.to_nat nb) (drop (Z.to_nat (foffs f)) file) = []) as ->.
    { apply orb_prop in Estop as [E|E]; [apply Z.eqb_eq in E as ->; done|].
      apply negb_true_iff, Z.ltb_ge in E. rewrite Hshort by done. apply take_nil. }
    rewrite app_nil_r. cbn. split; [done|lia]. }
  apply orb_false_elim in Estop as [E1 E2]. apply Z.eqb_neq in E1. apply negb_false_iff, Z.ltb_lt in E2.
  destruct Hr as [[k Ho]|(_ & _ & _ & Hx & _)]; [|lia].
  destruct (copy_out nb f) as [d f1] eqn:Ec. destruct (copy_out_file k f nb d f1 Ho Hnb Ec) as (Ed & Hd & Ef1 & Hfull & Hin).
  set (rest := drop (Z.to_nat (foffs f)) file) in *.
  assert (opened k f1) as Ho1.
  { rewrite Ef1. destruct Ho as (A1 & A2 & A3 & A4 & A5 & A6 & A7 & A8). repeat split; try done; cbn; lia. }
  assert (0 <= foffs f) as Hpos by (destruct Ho as (? & _ & _ & ? & _); lia).
  assert (forall j, take (length d) rest ++ take j (drop (Z.to_nat (foffs f + Z.of_nat (length d))) file) = take (length d + j) rest) as Hj.
  { intros j. unfold rest. replace (Z.to_nat (foffs f + Z.of_nat (length d))) with (Z.to_nat (foffs f) + length d)%nat by lia.
    by rewrite <- drop_drop, take_take_drop. }
  assert (forall f2, foffs f2 = foffs f + Z.of_nat (length d) -> reading f2 ->
    forall n2, honest n2 -> read_loop fu (nb - Z.of_nat (length d)) (out ++ d) f2 n2 = Some (ok, out', f', n') ->
    honest n' /\ exists j, Z.of_nat j <= nb /\ out' = out ++ take j rest /\
    (ok = true -> reading f' /\ out' = out ++ take (Z.to_nat nb) rest /\
       foffs f' = foffs f + Z.of_nat (length (take (Z.to_nat nb) rest)))) as Hgo.
  { intros f2 Ef2 Hr2 n2 Hn2 H2. apply IH in H2 as (A & j & Hjb & B & C); [|done..|lia]. split; [done|].
    rewrite Ef2 in B, C. assert (out' = out ++ take (length d + j) rest) as Eo by (rewrite B, Ed, <- app_assoc at 1; by rewrite <- Hj, <- Ed).
    exists (length d + j)%nat. split; [lia|]. split; [done|]. intros Hok. destruct (C Hok) as (D1 & D2 & D3). split; [done|].
    replace (Z.to_nat nb) with (length d + Z.to_nat (nb - Z.of_nat (length d)))%nat by lia. rewrite <- Hj, <- Ed. split.
    - by rewrite D2, app_assoc.
    - rewrite D3, length_app. lia. }
  destruct (Z.leb_spec (fend f1) (foffs f1)) as [Hle|Hgt].
  - destruct (tftprrq _ (tftpnxtblk f1) n) as [[[r f2] n2]|] eqn:Eq; [|done].
    destruct (refill_honest k f1 n r f2 n2 _ Ho1 Hn Hle Eq) as (Hn2 & Hcase). destruct (Z.ltb_spec r 0) as [Hneg|Hge].
    + injection H as <- <- <- <-. split; [done|]. exists (length d). split; [done|]. by rewrite <- Ed.
    + destruct Hcase as [|(_ & Hfo & Hcase)]; [lia|]. apply (Hgo _) in H; [exact H| | |done].
      * rewrite Hfo, Ef1. done.
      * destruct Hcase as [[_ Hx]|[_ Hx]]; [left; by eexists|by right].
  - apply (Hgo f1) in H; [exact H|by rewrite Ef1|left; by exists k|done].
Qed.


(** ** A network that delivers

    The events from the moment block [k] is asked for, after [t] timeouts, until
    the last block has come from port [P]: up to five timeouts per block, repeated
    copies of the block before, datagrams from other ports, and then the block. *)
Inductive delivers (P : Z) : nat -> Z -> list netev -> Prop :=
| del_end k t l : (nblocks < k)%nat -> delivers P k t l
| del_data k t q l : (k <= nblocks)%nat -> delivers P (S k) 0 l ->
    delivers P k t (EvPacket P DATA (Z.of_nat k) (blk k) q :: l)
| del_timeout k t l : t < MAXREXMT -> delivers P k (t + 1) l -> delivers P k t (EvTimeout :: l)
| del_repeat k t l : (1 < k <= nblocks)%nat -> delivers P k t l ->
    delivers P k t (EvPacket P DATA (Z.of_nat (k - 1)) (blk (k - 1)) 0 :: l)
| del_stray k t port op b d q l : (1 < k <= nblocks)%nat -> port <> P -> delivers P k t l ->
    delivers P k t (EvPacket port op b d q :: l).

(** The state after block [k] has come. *)
Definition fetched (P : Z) (k : nat) (f f' : tftpfile) (n' : net) : Prop :=
  th_data f' = blk k /\ eof f' = (Z.of_nat (length (blk k)) <? 512) /\ block f' = block f /\ flags f' = flags f /\
  start f' = start f /\ fend f' = fend f /\ foffs f' = foffs f /\ sin_port f' = P /\
  n_send n' = [] /\ delivers P (S k) 0 (n_in n').

Lemma fetched_same P k f f1 f' n' : same_file f f1 -> fetched P k f1 f' n' -> fetched P k f f' n'.
Proof. intros (E1 & E2 & E3 & E4 & E5 & E6) H. unfold fetched in *. by rewrite E1, E2, E4, E5, E6 in H. Qed.

(** The block itself arrives. *)
Lemma receive_block P k q f n : (1 <= k <= nblocks)%nat -> block f = Z.of_nat k -> ((1 < k)%nat -> sin_port f = P) ->
  exists f1, receive (block f <=? 1) DATA P DATA (Z.of_nat k) (blk k) q (set_data (blk k) f) n = VMatch f1 n /\
    same_file f f1 /\ th_data f1 = blk k /\ sin_port f1 = P.
Proof.
  intros Hk Hb Hport. unfold receive. change (wraps 16 DATA) with DATA. rewrite s16_small by lia.
  change (DATA =? ERROR) with false. change (DATA =? DATA) with true. cbn iota.
  assert (negb (block f <=? 1) && negb (P =? sin_port (set_data (blk k) f)) = false) as ->.
  { destruct (Z.leb_spec (block f) 1); [done|]. cbn. rewrite Hport by lia. by rewrite Z.eqb_refl. }
  exists (if block f <=? 1 then set_port P (set_data (blk k) f) else set_data (blk k) f).
  destruct (Z.leb_spec (block f) 1); cbn [block set_port set_data]; rewrite Hb, Z.eqb_refl; (split; [reflexivity|]);
    (split; [done|]); (split; [done|]); cbn [sin_port set_port set_data]; auto with lia.
Qed.

(** The block before it once more. *)
Lemma receive_repeat P k f n : (1 < k <= nblocks)%nat -> block f = Z.of_nat k -> sin_port f = P ->
  exists f1, receive (block f <=? 1) DATA P DATA (Z.of_nat (k - 1)) (blk (k - 1)) 0 (set_data (blk (k - 1)) f) n = VAgain f1 n /\
    same_file f f1 /\ sin_port f1 = P.
Proof.
  intros Hk Hb Hport. unfold receive. change (wraps 16 DATA) with DATA. rewrite s16_small by lia.
  change (DATA =? ERROR) with false. change (DATA =? DATA) with true. cbn iota.
  rewrite (proj2 (Z.leb_gt (block f) 1)) by lia. cbn [negb andb sin_port set_data]. rewrite Hport, Z.eqb_refl. cbn [negb block set_data].
  rewrite Hb, (proj2 (Z.eqb_neq (Z.of_nat (k - 1)) (Z.of_nat k))) by lia.
  rewrite (proj2 (Z.eqb_eq (Z.of_nat (k - 1)) (Z.of_nat k - 1))) by lia. cbn [negb Nat.eqb].
  exists (set_data (blk (k - 1)) f). destruct n. done.
Qed.

Lemma tftprrq_delivers P k t l : delivers P k t l ->
  forall fuel req f n, (1 <= k <= nblocks)%nat -> (length l < fuel)%nat -> n_in n = l -> n_send n = [] -> eof f = false ->
  block f = Z.of_nat k -> ((1 < k)%nat -> sin_port f = P) ->
  exists f' n', tftprrq_loop fuel req t f n = Some (Z.of_nat (length (blk k)), f', n') /\ fetched P k f f' n' /\
    (length (n_in n') < length l)%nat.
Proof.
  induction 1 as [k t l Hend|k t q l Hk Hd IH|k t l Ht Hd IH|k t l Hk Hd IH|k t port op b d q l Hk Hp Hd IH];
    intros fuel req f n Hk1 Hfu Ei Es He Hb Hport; [lia|..]; (destruct fuel as [|fu]; [cbn in Hfu; lia|]); cbn [length] in Hfu |- *;
    cbn [tftprrq_loop]; unfold sendto; rewrite Es; cbn [negb n_in drop]; rewrite He, Ei; cbn iota;
    change (Z.to_nat SEGSIZE) with 512%nat; rewrite ?(take_ge (blk _)) by apply blk_length;
    change (block (set_data ?x f)) with (block f).
  - match goal with |- context [receive _ _ _ _ _ _ _ _ ?m] => destruct (receive_block P k q f m Hk1 Hb Hport) as (f1 & -> & Hs & Ed & Ep) end.
    eexists _, _. split; [reflexivity|]. destruct Hs as (E1 & E2 & E3 & E4 & E5 & E6). change SEGSIZE with 512. split.
    + unfold fetched. destruct (_ <? 512); cbn; repeat split; congruence || done.
    + cbn. lia.
  - rewrite (proj2 (Z.ltb_ge _ _)) by (unfold MAXREXMT in *; lia).
    match goal with |- context [tftprrq_loop fu req _ f ?m] => destruct (IH fu req f m) as (f' & n' & A & B & C) end; try done; try lia.
    exists f', n'. split; [exact A|]. split; [done|lia].
  - match goal with |- context [receive _ _ _ _ _ _ _ _ ?m] => destruct (receive_repeat P k f m Hk Hb (Hport ltac:(lia))) as (f1 & -> & Hs & Ep) end.
    match goal with |- context [tftprrq_loop fu req _ f1 ?m] => destruct (IH fu req f1 m) as (f' & n' & A & B & C) end;
      try done; try lia; try (destruct Hs as (E1 & E2 & E3 & _); congruence).
    exists f', n'. split; [exact A|]. split; [by apply (fetched_same P k f f1)|lia].
  - assert (forall m, receive (block f <=? 1) DATA port op b (take 512 d) q (set_data (take 512 d) f) m = VAgain (set_data (take 512 d) f) m) as ->.
    { intros m. unfold receive. rewrite (proj2 (Z.leb_gt (block f) 1)) by lia. cbn [negb andb sin_port set_data]. rewrite Hport by lia.
      by rewrite (proj2 (Z.eqb_neq port P) Hp). }
    match goal with |- context [tftprrq_loop fu req _ ?g ?m] => destruct (IH fu req g m) as (f' & n' & A & B & C) end; try done; try lia.
    exists f', n'. split; [exact A|]. split; [|lia]. by apply (fetched_same P k f (set_data (take 512 d) f)).
Qed.

(** The read ends and delivers everything it can. *)
Lemma read_stops fu nb out f n : reading f -> (nb = 0 \/ fend f <= start f) ->
  read_loop (S fu) nb out f n = Some (true, out ++ take (Z.to_nat nb) (drop (Z.to_nat (foffs f)) file), f, n).
Proof.
  intros Hr Hs. cbn [read_loop]. destruct (reading_short f Hr) as [_ Hsh].
  destruct Hs as [-> |Hs]; [rewrite app_nil_r; done|].
  rewrite (proj2 (Z.ltb_ge _ _) Hs), orb_true_r, Hsh by done. by rewrite take_nil, app_nil_r.
Qed.

(** The file is at offset [o], and all its blocks from there on get through. *)
Definition supplied (P : Z) (o : Z) (f : tftpfile) (n : net) : Prop :=
  ((exists k, opened k f /\ sin_port f = P /\ delivers P (S k) 0 (n_in n)) \/ ended f) /\ n_send n = [] /\ foffs f = o.

Lemma supplied_reading P o f n : supplied P o f n -> reading f.
Proof. intros [[(k & Ho & _)|He] _]; [left; by exists k|by right]. Qed.

Lemma supplied_opened P o k f n : opened k f -> sin_port f = P -> delivers P (S k) 0 (n_in n) -> n_send n = [] -> foffs f = o ->
  supplied P o f n.
Proof. intros. split; [left; by exists k|done]. Qed.

Lemma read_stops_supplied P fu o nb out f n : supplied P o f n -> 0 <= nb -> (nb = 0 \/ fend f <= start f) ->
  exists f' n', read_loop (S fu) nb out f n = Some (true, out ++ take (Z.to_nat nb) (drop (Z.to_nat (foffs f)) file), f', n') /\
    (o + nb <= Z.of_nat (length file) -> supplied P (o + nb) f' n').
Proof.
  intros Hsup Hnb Hstop. pose proof (supplied_reading _ _ _ _ Hsup) as Hr. eexists _, _.
  split; [by apply read_stops|]. intros Hle. replace (o + nb) with o; [done|].
  destruct Hstop as [-> |Hs]; [lia|]. destruct (reading_short f Hr) as [Hsf Hsh]. specialize (Hsh Hs).
  apply (f_equal length) in Hsh. rewrite length_drop in Hsh. cbn in Hsh.
  assert (0 <= start f) by (destruct Hr as [(k & ? & _ & _ & ? & _)|(_ & _ & ? & _)]; lia).
  destruct Hsup as (_ & _ & <-). lia.
Qed.

Lemma read_loop_delivers P fuel o nb out f n :
  supplied P o f n -> 0 <= nb -> (length (n_in n) + 3 <= fuel)%nat ->
  exists f' n', read_loop fuel nb out f n = Some (true, out ++ take (Z.to_nat nb) (drop (Z.to_nat (foffs f)) file), f', n') /\
    (o + nb <= Z.of_nat (length file) -> supplied P (o + nb) f' n').
Proof.
  revert o nb out f n. induction fuel as [|fu IH]; intros o nb out f n Hsup Hnb Hfu; [lia|].
  destruct (decide (nb = 0 \/ fend f <= start f)) as [Hstop|Hgo].
  { by apply read_stops_supplied. }
  destruct Hsup as ([(k & Ho & Hp & Hd)|(_ & _ & _ & Hx & _)] & Hs & Eo); [|lia].
  cbn [read_loop]. rewrite (proj2 (Z.eqb_neq nb 0)), (proj2 (Z.ltb_lt (start f) (fend f))) by lia. cbn [orb negb].
  destruct (copy_out nb f) as [d f1] eqn:Ec. destruct (copy_out_file k f nb d f1 Ho Hnb Ec) as (Ed & Hd1 & Ef1 & Hfull & Hin).
  assert (opened k f1) as Ho1.
  { rewrite Ef1. destruct Ho as (A1 & A2 & A3 & A4 & A5 & A6 & A7 & A8). repeat split; try done; cbn; lia. }
  assert (0 <= foffs f) as Hpos by (destruct Ho as (? & _ & _ & ? & _ & _ & _ & ?); lia).
  assert (foffs f1 = o + Z.of_nat (length d)) as Eo1 by (rewrite Ef1, <- Eo; done).
  replace (o + nb) with (o + Z.of_nat (length d) + (nb - Z.of_nat (length d))) by lia.
  assert (out ++ take (Z.to_nat nb) (drop (Z.to_nat (foffs f)) file) =
          (out ++ d) ++ take (Z.to_nat (nb - Z.of_nat (length d))) (drop (Z.to_nat (foffs f1)) file)) as ->.
  { rewrite <- app_assoc. f_equal. rewrite Ef1. cbn [foffs set_foffs].
    pose proof (take_take_drop (drop (Z.to_nat (foffs f)) file) (length d) (Z.to_nat (nb - Z.of_nat (length d)))) as HT.
    rewrite <- Ed, drop_drop in HT.
    replace (length d + Z.to_nat (nb - Z.of_nat (length d)))%nat with (Z.to_nat nb) in HT by lia. rewrite <- HT. do 3 f_equal. lia. }
  assert (sin_port f1 = P) as Hp1 by (by rewrite Ef1). destruct (Z.leb_spec (fend f1) (foffs f1)) as [Hle|Hgt].
  - pose proof (proj1 Ho1) as Hk. destruct (decide (k = nblocks)) as [E|E].
    + pose proof (refill_ended k f1 Ho1 Hle E) as [Hfo [[? _]|[_ He]]]; [lia|].
      unfold tftprrq. cbn [tftprrq_loop]. unfold sendto. rewrite Hs. cbn [negb].
      change (eof (tftpnxtblk f1)) with (eof f1). rewrite (proj2 (opened_eof k f1 Ho1) E). cbn [Z.ltb Z.compare].
      rewrite <- Hfo. destruct fu as [|fu]; [lia|]. apply read_stops_supplied; [|lia|right; destruct He as (_ & _ & _ & He & _); rewrite He; lia].
      split; [by right|]. split; [done|]. by rewrite Hfo.
    + destruct (tftprrq_delivers P (S k) 0 _ Hd (S (length (n_in n))) (PAck (block f1)) (tftpnxtblk f1) n) as (f2 & n2 & Eq & Hf2 & Hlen);
        [lia|lia|done|done| |by apply opened_next|done|].
      { change (eof (tftpnxtblk f1)) with (eof f1). destruct (eof f1) eqn:Ee; [|done]. by apply (opened_eof k f1 Ho1) in Ee. }
      unfold tftprrq. rewrite Eq, (proj2 (Z.ltb_ge _ 0)) by lia.
      destruct Hf2 as (B1 & B2 & B3 & B4 & _ & B6 & B7 & B8 & B9 & B10).
      destruct (refill_opened k f1 f2 (Z.of_nat (length (blk (S k)))) Ho1 Hle ltac:(lia)) as [Hfo [[_ Ho2]|[? _]]]; [|rewrite <- Hfo|done].
      { rewrite <- (opened_next k f1 Ho1). done. }
      apply IH; [|lia|lia]. apply (supplied_opened P _ (S k)); try done. by rewrite Hfo.
  - destruct fu as [|fu]; [lia|]. apply read_stops_supplied; [by apply (supplied_opened P _ k)|lia|]. left.
    rewrite Ef1 in Hgt. cbn in Hgt. specialize (Hfull Hgt). lia.
Qed.

(** Opening a file for reading asks for its first block. *)
Lemma tftpopen_delivers resolve port tftphost path fl P host name n :
  access fl = O_RDONLY -> split_path path tftphost n = (Some (host, name), n) -> resolve host = true ->
  delivers P 1 0 (n_in n) -> n_send n = [] ->
  exists f n1, tftpopen resolve (Some port) tftphost true true path fl n = Some (Some f, n1) /\
    opened 1 f /\ foffs f = 0 /\ sin_port f = P /\ delivers P 2 0 (n_in n1) /\ n_send n1 = [].
Proof.
  intros Ha Hsp Hres Hd Hs. unfold tftpopen. rewrite Ha, Hsp, Hres. cbn [Z.eqb O_RDONLY O_WRONLY negb andb].
  assert (1 <= nblocks)%nat as Hn by (unfold nblocks; lia).
  destruct (tftprrq_delivers P 1 0 _ Hd (S (length (n_in n))) (PReq RRQ name (str "octet")) (mkTftp port 1 fl false 0 0 0 []) n)
    as (f & n1 & E & (B1 & B2 & B3 & B4 & B5 & B6 & B7 & B8 & B9 & B10) & _); [lia|lia|done|done|done|done|lia|].
  unfold tftprrq. rewrite E, (proj2 (Z.leb_le 0 _)) by lia. eexists _, n1. split; [reflexivity|].
  cbn in B3, B4, B5, B6, B7. split; [|done]. unfold opened. cbn. rewrite B4, B5. repeat split; try done; try lia.
Qed.


(** The transfer ends. For a file of less than 16 MB (32766 blocks), when the
    server's blocks get through, each after at most five timeouts, repeated copies
    of the block before and datagrams of others, [tftpopen] opens the file and the
    first [tftpread] returns exactly the bytes asked for (all the file when more
    are). A larger file cannot be read: [no_block_accepted]. *)
Theorem tftp_transfer (resolve : cstr -> bool) (port : Z) (tftphost : cptr) (path host name : cstr) (fl P nread : Z) (n : net)
  (Ha : access fl = O_RDONLY) (Hpath : split_path path tftphost n = (Some (host, name), n)) (Hres : resolve host = true)
  (Hnet : delivers P 1 0 (n_in n)) (Hsend : n_send n = []) (Hr : 0 <= nread) :
  exists f n1 f' n2, tftpopen resolve (Some port) tftphost true true path fl n = Some (Some f, n1) /\
    tftpread nread f n1 = Some (true, take (Z.to_nat nread) file, f', n2).
Proof.
  destruct (tftpopen_delivers resolve port tftphost path fl P host name n) as (f & n1 & Ho & Hf & Hfo & Hp & Hd & Hs); try done.
  destruct (read_loop_delivers P (length (n_in n1) + 3) 0 nread [] f n1) as (f' & n2 & Hrd & _);
    [by apply (supplied_opened P 0 1)|done..|].
  exists f, n1, f', n2. split; [exact Ho|]. unfold tftpread. pose proof Hf as (_ & _ & Hacc & _). rewrite Hacc. cbn [Z.eqb O_RDONLY negb].
  rewrite Hrd, Hfo. done.
Qed.
End Server.

(** ** Concrete transfers *)

(** A file of two blocks; the first comes after a timeout, the second after a
    copy of the first and a datagram of another port. *)
Definition file2 : list Z := replicate 512 7 ++ [1; 2; 3].
Definition net2 : net :=
  mkNet [EvTimeout; EvPacket 4000 DATA 1 (blk file2 1) 0; EvPacket 4000 DATA 1 (blk file2 1) 0;
         EvPacket 4001 DATA 2 [9; 9] 0; EvTimeout; EvPacket 4000 DATA 2 (blk file2 2) 0] [] [] EOK [].

Lemma net2_delivers : delivers file2 4000 1 0 (n_in net2).
Proof.
  cbn [n_in net2]. change (nblocks file2) with 2%nat.
  apply del_timeout; [done|]. apply (del_data file2 4000 1); [vm_compute; lia|].
  apply (del_repeat file2 4000 2); [vm_compute; lia|]. apply del_stray; [vm_compute; lia|done|].
  apply del_timeout; [done|]. apply (del_data file2 4000 2); [vm_compute; lia|]. apply del_end. vm_compute. lia.
Qed.

Lemma tftp_transfer_witness :
  exists f n1 f' n2, tftpopen (fun _ => true) (Some 69) None true true (str "host:vmlinux") 0 net2 = Some (Some f, n1) /\
    tftpread 1000 f n1 = Some (true, take (Z.to_nat 1000) file2, f', n2).
Proof.
  apply (tftp_transfer file2 ltac:(vm_compute; done) (fun _ => true) 69 None (str "host:vmlinux") (str "host") (str "vmlinux") 0 4000 1000 net2);
    [reflexivity|vm_compute; reflexivity|reflexivity|exact net2_delivers|reflexivity|lia].
Defined.

(** The second block of that file is read when the first has been. *)
Definition at_block1 : tftpfile := mkTftp 4000 1 0 false 0 512 510 (blk file2 1).
Definition net1 : net := mkNet [EvPacket 4001 DATA 2 (blk file2 2) 0; EvTimeout; EvPacket 4000 DATA 2 (blk file2 2) 0] [] [] EOK [].


(** ** A read after a failed one

    The number of the block expected is counted up before the block is asked for,
    and stays so when the read fails after six timeouts. The next read then
    acknowledges the block that never came, and what the server answers, the block
    after it, is stored in its place: at offset 512 the third block of the file is
    read, not the second. ([fdgets] of [src/net/cmd/boot.c] reads on after a read
    that failed.) *)
Definition file3 : list Z := replicate 512 1 ++ replicate 512 2 ++ [3; 4; 5].
Definition file3_block1 : tftpfile := mkTftp 4000 1 0 false 0 512 512 (blk file3 1).
Definition net3 : net := mkNet (replicate 6 EvTimeout ++ [EvPacket 4000 DATA 3 (blk file3 3) 0]) [] [] EOK [].

Lemma retry_skips_block :
  reading file3 file3_block1 /\ honest file3 net3 /\
  exists f1 n1 f2 n2,
    tftpread 3 file3_block1 net3 = Some (false, [], f1, n1) /\ n_errno n1 = ETIMEDOUT /\ foffs f1 = 512 /\
    tftpread 3 f1 n1 = Some (true, [3; 4; 5], f2, n2) /\
    PAck 2 ∈ n_sent n2 /\
    take 3 (drop 512 file3) = [2; 2; 2].
Proof.
  split; [|split].
  - left. exists 1%nat. unfold opened. split; [vm_compute; lia|]. repeat split; vm_compute; congruence.
  - unfold honest, net3, n_in. apply Forall_app. split; [by apply Forall_replicate|]. repeat constructor.
    intros _. exists 3%nat. split; [vm_compute; lia|done].
  - do 4 eexists. split_and!; try (vm_compute; reflexivity). vm_compute. repeat constructor.
Qed.

(** ** The limit

    The number of a block is compared as a [short] with an unsigned one, so that
    from block 32768 on no block is accepted: a file of 16 MB cannot be read. *)
Lemma no_block_accepted (first : bool) (want port op b : Z) (data : list Z) (queued : nat) (f f' : tftpfile) (n n' : net) :
  32768 <= block f -> receive first want port op b data queued f n <> VMatch f' n'.
Proof.
  intros Hb. unfold receive. destruct (negb first && _); [done|]. destruct (_ =? ERROR); [done|]. destruct (_ =? want); [|done].
  assert (block (if first then set_port port f else f) = block f) as -> by (by destruct first).
  destruct (Z.eqb_spec (wraps 16 b) (block f)) as [E|]; [|by destruct (negb _)].
  pose proof (wraps_range 16 b ltac:(lia)). change (2 ^ (16 - 1)) with 32768 in *. lia.
Qed.

