(* ===== verification/Dbgpkt.v ===== *)
(** * Dbgpkt: the packets and messages of the remote debugger

    The lower half of [src/pmon/debug.c]: packets with a checksum over a serial
    line ([putpkt], [getpkt]), and messages that are repeated until they are
    acknowledged ([putmsg], [getmsg]). The reports that the options [-v] and [-V]
    ask for are left out.

    The theorems: what [putpkt] sends [getpkt] receives; nothing that comes over
    the line makes [getpkt] write outside its buffer. Dbglink shows that the two
    ends of a line deliver every message once and in order. *)

From S2P Require Import Prelude CString.

(** ** Packets *)

(** [src/pmon/debug.c:54] *)
Definition SYN : Z := 22.
(** [src/pmon/debug.c:74-75] *)
Definition DATA : Z := 0x00.
Definition ACKPKT : Z := 0x20.
(** [src/pmon/debug.c:76] *)
Definition nextseq (x : Z) : Z := Z.land (x + 1) 63.
(** [src/pmon/debug.c:103] *)
Definition MAXMSG : Z := 80.

Definition AT : Z := ch "@".

Definition sum (l : list Z) : Z := fold_right Z.add 0 l.

(** The characters of a packet. *)
Definition frame (seq : Z) (msg : cptr) : list Z :=
  let '(type, len) := match msg with Some m => (DATA, strlen msg) | None => (ACKPKT, 0) end in
  let type_len := Z.lor type (Z.shiftr len 6) in
  let len := Z.land len 0x3f in
  let body := [type_len + AT; len + AT; seq + AT] ++ default [] msg in
  let csum := sum body in
  s8 <$> [SYN] ++ body ++
    [Z.land (Z.shiftr csum 12) 0x3f + AT; Z.land (Z.shiftr csum 6) 0x3f + AT; Z.land csum 0x3f + AT].

(** What is written; [None] when it does not fit [tmp].
    [src/pmon/debug.c:395-439] *)
Definition putpkt (seq : Z) (msg : cptr) : option (list Z) :=
  let f := frame seq msg in if (length f <=? 80)%nat then Some f else None.

(** [src/pmon/debug.c:442-450] *)
Inductive rxstate : Type :=
| STATE_START | STATE_TYPLEN1 | STATE_LEN2 | STATE_SEQ | STATE_MSG
| STATE_CSUM1 | STATE_CSUM2 | STATE_CSUM3 | STATE_END.

#[export] Instance rxstate_eq_dec : EqDecision rxstate.
Proof. solve_decision. Defined.

(** The local variables; [r_msg] holds the [rlen] characters stored so far. None
    is read before it is set. [src/pmon/debug.c:504-512] *)
Record rx : Type := mkRx {
  r_state : rxstate; r_type : Z; r_len : Z; r_seq : Z; r_msg : list Z; r_csum : Z; r_rsum : Z }.

Definition rx0 : rx := mkRx STATE_START 0 0 0 [] 0 0.

(** What a character does: the next state, a bad character or length, or a store
    outside the buffer. *)
Inductive rxstep : Type :=
| RxGo (r : rx)
| RxBad
| RxOverrun.

(** [src/pmon/debug.c:524-587] *)
Definition getpkt_char (c : Z) (r : rx) : rxstep :=
  if c =? SYN then RxGo (mkRx STATE_TYPLEN1 (r_type r) (r_len r) (r_seq r) [] 0 0)
  else
    match r_state r with
    | STATE_START | STATE_END => RxGo r
    | STATE_TYPLEN1 =>
        if c <? AT then RxBad
        else RxGo (mkRx STATE_LEN2 (Z.land c ACKPKT) (Z.land c 0x1f) (r_seq r) (r_msg r) (r_csum r) (r_rsum r + c))
    | STATE_LEN2 =>
        if c <? AT then RxBad
        else
          let len := Z.shiftl (r_len r) 6 + (c - AT) in
          if MAXMSG <=? len then RxBad
          else RxGo (mkRx STATE_SEQ (r_type r) len (r_seq r) (r_msg r) (r_csum r) (r_rsum r + c))
    | STATE_SEQ =>
        if c <? AT then RxBad
        else RxGo (mkRx (if r_len r =? 0 then STATE_CSUM1 else STATE_MSG)
                     (r_type r) (r_len r) (c - AT) (r_msg r) (r_csum r) (r_rsum r + c))
    | STATE_MSG =>
        let rlen := Z.of_nat (length (r_msg r)) in
        if MAXMSG <=? rlen then RxOverrun
        else RxGo (mkRx (if rlen + 1 =? r_len r then STATE_CSUM1 else STATE_MSG)
                     (r_type r) (r_len r) (r_seq r) (r_msg r ++ [c]) (r_csum r) (r_rsum r + c))
    | STATE_CSUM1 | STATE_CSUM2 | STATE_CSUM3 =>
        if c <? AT then RxBad
        else RxGo (mkRx (match r_state r with STATE_CSUM1 => STATE_CSUM2 | STATE_CSUM2 => STATE_CSUM3 | _ => STATE_END end)
                     (r_type r) (r_len r) (r_seq r) (r_msg r) (Z.shiftl (r_csum r) 6 + (c - AT)) (r_rsum r))
    end.

(** What the line reports to [readc]: a character, or that the time limit has
    passed without one. *)
Inductive rxev : Type :=
| RxChar (c : Z)
| RxTimeout.

(** The outcome: a packet, the error -1, the timeout -2, or a store outside the
    buffer. *)
Inductive pktres : Type :=
| Pkt (type ts : Z) (msg : list Z)
| PktErr
| PktTimeout
| PktOverrun.

(** The end of a packet. [src/pmon/debug.c:589-600] *)
Definition getpkt_end (r : rx) : pktres :=
  if negb (Z.land (r_rsum r) 0x3ffff =? r_csum r) then PktErr
  else if MAXMSG <=? Z.of_nat (length (r_msg r)) then PktOverrun
  else Pkt (r_type r) (r_seq r) (r_msg r).

(** [readc] waits for ever at the start of a message ([wait]: [msg] is not null),
    and has a time limit otherwise. It returns a [char], so that a negative one
    counts as a timeout. [src/pmon/debug.c:464-522] *)
Fixpoint getpkt_loop (wait : bool) (r : rx) (evs : list rxev) : option (pktres * list rxev) :=
  match evs with
  | [] => None
  | RxTimeout :: evs =>
      if bool_decide (r_state r = STATE_START) && wait then getpkt_loop wait r evs else Some (PktTimeout, evs)
  | RxChar c :: evs =>
      let c := s8 c in
      if c <? 0 then Some (PktTimeout, evs)
      else
        match getpkt_char c r with
        | RxBad => Some (PktErr, evs)
        | RxOverrun => Some (PktOverrun, evs)
        | RxGo r => if bool_decide (r_state r = STATE_END) then Some (getpkt_end r, evs) else getpkt_loop wait r evs
        end
  end.

(** The packet received and what is still to come; [None]: still waiting.
    [src/pmon/debug.c:500-606] *)
Definition getpkt (wait : bool) (evs : list rxev) : option (pktres * list rxev) := getpkt_loop wait rx0 evs.

(** ** Messages *)

(** [src/pmon/debug.c:93-95] *)
Record link : Type := mkLink { txseq : Z; rxseq : Z; lastwasget : bool }.

(** What [putmsg] does with a packet: it is done, it sends once more (after an
    acknowledgement or not), or it goes on waiting. *)
Inductive putact : Type :=
| PutDone
| PutResend (ack : bool)
| PutWait.

(** [src/pmon/debug.c:336-353] *)
Definition putmsg_step (p : pktres) (l : link) : putact :=
  match p with
  | Pkt type ts _ =>
      if (type =? ACKPKT) && (ts =? nextseq (txseq l)) then PutDone
      else if (type =? ACKPKT) && (ts =? txseq l) then PutResend false
      else PutWait
  | PktTimeout => PutResend (lastwasget l)
  | _ => PutWait
  end.

(** [src/pmon/debug.c:356-357] *)
Definition put_msg (l : link) : link := mkLink (nextseq (txseq l)) (rxseq l) false.

(** The characters written before the loop goes on. *)
Definition put_again (msg : cstr) (ack : bool) (l : link) : option (list Z) :=
  a ← (if ack then putpkt (rxseq l) None else Some []);
  f ← putpkt (txseq l) (Some msg);
  Some (a ++ f).

(** [src/pmon/debug.c:331-354] *)
Fixpoint putmsg_loop (fuel : nat) (msg : cstr) (l : link) (sent : list Z) (evs : list rxev)
  : option (link * list Z * list rxev) :=
  match fuel with
  | O => None
  | S fu =>
      '(p, evs) ← getpkt false evs;
      match putmsg_step p l with
      | PutDone => Some (put_msg l, sent, evs)
      | PutResend ack => f ← put_again msg ack l; putmsg_loop fu msg l (sent ++ f) evs
      | PutWait => putmsg_loop fu msg l sent evs
      end
  end.

(** The new state, what was written, and what is still to come. [None]: still
    waiting, or the message is too long. [src/pmon/debug.c:324-360] *)
Definition putmsg (msg : cstr) (l : link) (evs : list rxev) : option (link * list Z * list rxev) :=
  f ← put_again msg false l; putmsg_loop (S (length evs)) msg l f evs.

(** What [getmsg] does with a packet. *)
Inductive getact : Type :=
| GetDone (msg : list Z)
| GetReack
| GetIgnore.

(** [src/pmon/debug.c:371-384] *)
Definition getmsg_step (p : pktres) (l : link) : getact :=
  match p with
  | Pkt type ts msg => if (type =? DATA) && (ts =? rxseq l) then GetDone msg else GetIgnore
  | _ => GetReack
  end.

(** [src/pmon/debug.c:386-389] *)
Definition got_msg (l : link) : link := mkLink (txseq l) (nextseq (rxseq l)) true.

(** [src/pmon/debug.c:371-390] *)
Fixpoint getmsg_loop (fuel : nat) (l : link) (sent : list Z) (evs : list rxev)
  : option (list Z * link * list Z * list rxev) :=
  match fuel with
  | O => None
  | S fu =>
      '(p, evs) ← getpkt true evs;
      match getmsg_step p l with
      | GetDone msg => f ← putpkt (rxseq (got_msg l)) None; Some (msg, got_msg l, sent ++ f, evs)
      | GetReack => f ← putpkt (rxseq l) None; getmsg_loop fu l (sent ++ f) evs
      | GetIgnore => getmsg_loop fu l sent evs
      end
  end.

(** [src/pmon/debug.c:365-390] *)
Definition getmsg (l : link) (evs : list rxev) : option (list Z * link * list Z * list rxev) :=
  getmsg_loop (S (length evs)) l [] evs.

(** ** A packet that gets through *)

(** The texts that can be sent: plain characters, and not too many for [tmp]. *)
Definition sendable (m : cstr) : Prop := Forall (fun c => 0 < c < 128 /\ c <> SYN) m /\ (length m <= 73)%nat.

#[export] Instance sendable_dec m : Decision (sendable m).
Proof. unfold sendable. apply _. Defined.

Lemma strlen_length m : strlen (Some m) = Z.of_nat (length m).
Proof.
  assert (forall s n, strlen_loop s n = n + Z.of_nat (length s)) as H; [|apply H].
  induction s as [|c s IH]; intros n; cbn; [lia|]. rewrite IH. lia.
Qed.

Lemma sum_bound m : sendable m -> 0 <= sum m <= 127 * 73.
Proof.
  intros [H Hl]. assert (0 <= sum m <= 127 * Z.of_nat (length m)); [|lia].
  clear Hl. induction H as [|c m Hc H IH]; [done|]. cbn [sum fold_right length]. fold (sum m). lia.
Qed.

Lemma sum_app l1 l2 : sum (l1 ++ l2) = sum l1 + sum l2.
Proof. unfold sum. induction l1 as [|x l1 IH]; [done|]. cbn. rewrite IH. lia. Qed.

Lemma low6 x : Z.land x 0x3f = x mod 64.
Proof. apply (Z.land_ones x 6). lia. Qed.

Lemma s8_plain l : Forall (fun c => 0 <= c < 128) l -> s8 <$> l = l.
Proof. induction 1 as [|c l Hc Hl IH]; [done|]. cbn. rewrite IH, s8_small by lia. done. Qed.

(** The three digits of the checksum. *)
Lemma csum_digits c : 0 <= c < 2 ^ 18 ->
  Z.shiftl (Z.shiftl (Z.shiftl 0 6 + Z.land (Z.shiftr c 12) 0x3f) 6 + Z.land (Z.shiftr c 6) 0x3f) 6 + Z.land c 0x3f = c.
Proof.
  intros Hc. rewrite !low6, !Z.shiftr_div_pow2, !Z.shiftl_mul_pow2 by lia.
  change (2 ^ 6) with 64. change (2 ^ 12) with 4096. change (2 ^ 18) with 262144 in Hc.
  Z.to_euclidean_division_equations. lia.
Qed.

(** A packet before its characters are cut to 8 bits: the length and the type in
    the first two characters. *)
Definition head1 (msg : cptr) : Z := match msg with Some m => Z.shiftr (Z.of_nat (length m)) 6 | None => ACKPKT end.
Definition text (msg : cptr) : cstr := default [] msg.

Lemma head1_range msg : sendable (text msg) -> 0 <= head1 msg <= 32.
Proof.
  destruct msg as [m|]; [|by unfold head1, ACKPKT]. intros [_ Hl]. cbn in *. rewrite Z.shiftr_div_pow2 by lia.
  change (2 ^ 6) with 64. Z.to_euclidean_division_equations. lia.
Qed.

Lemma frame_plain seq msg : 0 <= seq < 64 -> sendable (text msg) ->
  let body := [head1 msg + 64; Z.of_nat (length (text msg)) mod 64 + 64; seq + 64] ++ text msg in
  frame seq msg = SYN :: body ++
    [Z.land (Z.shiftr (sum body) 12) 0x3f + 64; Z.land (Z.shiftr (sum body) 6) 0x3f + 64; Z.land (sum body) 0x3f + 64].
Proof.
  intros Hs Hm body. pose proof (head1_range msg Hm) as Hh.
  assert (frame seq msg = s8 <$> SYN :: body ++
    [Z.land (Z.shiftr (sum body) 12) 0x3f + 64; Z.land (Z.shiftr (sum body) 6) 0x3f + 64; Z.land (sum body) 0x3f + 64]) as E.
  { unfold frame, body, text, head1. change AT with 64. destruct msg as [m|]; [|reflexivity].
    rewrite strlen_length, low6. change DATA with 0. rewrite Z.lor_0_l. reflexivity. }
  rewrite E. apply s8_plain. constructor; [unfold SYN; lia|].
  apply Forall_app. split.
  - unfold body. repeat (apply Forall_cons; [Z.to_euclidean_division_equations; lia|]).
    apply (Forall_weaken _ _ _ (proj1 Hm)). cbn. lia.
  - rewrite !low6. repeat (apply Forall_cons; [Z.to_euclidean_division_equations; lia|]). constructor.
Qed.

Lemma loop_char w c r evs : 0 <= c < 128 ->
  getpkt_loop w r (RxChar c :: evs) =
  match getpkt_char c r with
  | RxBad => Some (PktErr, evs)
  | RxOverrun => Some (PktOverrun, evs)
  | RxGo r => if bool_decide (r_state r = STATE_END) then Some (getpkt_end r, evs) else getpkt_loop w r evs
  end.
Proof. intros Hc. cbn [getpkt_loop]. rewrite s8_small by lia. by rewrite (proj2 (Z.ltb_ge c 0)) by lia. Qed.

(** A text is collected. *)
Lemma loop_text w t len sq m : forall d rs evs, Forall (fun c => 0 < c < 128 /\ c <> SYN) m -> m <> [] ->
  len = Z.of_nat (length (d ++ m)) -> len < MAXMSG ->
  getpkt_loop w (mkRx STATE_MSG t len sq d 0 rs) ((RxChar <$> m) ++ evs) =
  getpkt_loop w (mkRx STATE_CSUM1 t len sq (d ++ m) 0 (rs + sum m)) evs.
Proof.
  induction m as [|c m IH]; intros d rs evs Hm Hne Hlen Hmax; [done|]. apply Forall_cons_iff in Hm as [[Hc Hsyn] Hm].
  rewrite length_app in Hlen. cbn [length] in Hlen.
  cbn [fmap list_fmap app]. rewrite loop_char by lia. unfold getpkt_char. rewrite (proj2 (Z.eqb_neq _ _) Hsyn). cbn [r_state r_msg r_len r_type r_seq r_csum r_rsum].
  rewrite (proj2 (Z.leb_gt MAXMSG _)) by lia. cbn iota. change (sum (c :: m)) with (c + sum m).
  destruct m as [|c' m].
  - rewrite (proj2 (Z.eqb_eq _ _)) by (cbn in Hlen; lia). cbn [r_state]. rewrite bool_decide_false by done.
    cbn [fmap list_fmap app]. do 2 f_equal. cbn. lia.
  - rewrite (proj2 (Z.eqb_neq _ _)) by (cbn in Hlen |- *; lia). cbn [r_state]. rewrite bool_decide_false by done.
    rewrite IH; [|done|done| |done].
    + rewrite <- app_assoc. do 2 f_equal. lia.
    + rewrite !length_app. cbn in *. lia.
Qed.

Definition ptype (msg : cptr) : Z := match msg with Some _ => DATA | None => ACKPKT end.

Lemma head_type msg : sendable (text msg) -> Z.land (head1 msg + 64) ACKPKT = ptype msg /\
  Z.shiftl (Z.land (head1 msg + 64) 0x1f) 6 + Z.of_nat (length (text msg)) mod 64 = Z.of_nat (length (text msg)).
Proof.
  destruct msg as [m|]; [|done]. intros [_ Hl]. cbn [head1 text default] in *.
  rewrite Z.shiftr_div_pow2 by lia. change (2 ^ 6) with 64.
  assert (Z.of_nat (length m) / 64 = 0 /\ Z.of_nat (length m) < 64 \/ Z.of_nat (length m) / 64 = 1 /\ 64 <= Z.of_nat (length m) < 128) as [[-> H]|[-> H]]
    by (cbn in Hl; Z.to_euclidean_division_equations; lia).
  - split; [done|]. change (Z.shiftl (Z.land (0 + 64) 31) 6) with 0. cbn in *. rewrite Z.mod_small; lia.
  - split; [done|]. change (Z.shiftl (Z.land (1 + 64) 31) 6) with 64. cbn [id] in *. Z.to_euclidean_division_equations. lia.
Qed.

(** The header, whatever the state before. *)
Lemma loop_head w r h l q evs :
  0 <= h <= 32 -> 0 <= l < 64 -> 0 <= q < 64 -> Z.shiftl (Z.land (h + 64) 0x1f) 6 + l < MAXMSG ->
  getpkt_loop w r (RxChar SYN :: RxChar (h + 64) :: RxChar (l + 64) :: RxChar (q + 64) :: evs) =
  let len := Z.shiftl (Z.land (h + 64) 0x1f) 6 + l in
  getpkt_loop w (mkRx (if len =? 0 then STATE_CSUM1 else STATE_MSG) (Z.land (h + 64) ACKPKT) len q [] 0 (h + 64 + (l + 64) + (q + 64))) evs.
Proof.
  intros Hh Hl Hq Hlen. cbv zeta. do 4 (rewrite loop_char by (unfold SYN; lia); unfold getpkt_char at 1;
    cbn [r_state r_msg r_len r_type r_seq r_csum r_rsum];
    first [rewrite Z.eqb_refl | rewrite (proj2 (Z.eqb_neq _ _)) by (unfold SYN; lia)];
    change AT with 64; try rewrite (proj2 (Z.ltb_ge _ 64)) by lia; rewrite ?Z.add_simpl_r;
    try rewrite (proj2 (Z.leb_gt MAXMSG _)) by lia; cbn iota; cbn [r_state]; rewrite bool_decide_false by (by repeat case_match)).
  reflexivity.
Qed.

(** The checksum. *)
Lemma loop_csum w t len q m rs d2 d1 d0 evs :
  0 <= d2 < 64 -> 0 <= d1 < 64 -> 0 <= d0 < 64 -> Z.of_nat (length m) < MAXMSG ->
  Z.land rs 0x3ffff = Z.shiftl (Z.shiftl (Z.shiftl 0 6 + d2) 6 + d1) 6 + d0 ->
  getpkt_loop w (mkRx STATE_CSUM1 t len q m 0 rs) (RxChar (d2 + 64) :: RxChar (d1 + 64) :: RxChar (d0 + 64) :: evs) =
  Some (Pkt t q m, evs).
Proof.
  intros H2 H1 H0 Hm E. do 3 (rewrite loop_char by lia; unfold getpkt_char at 1;
    cbn [r_state r_msg r_len r_type r_seq r_csum r_rsum]; rewrite (proj2 (Z.eqb_neq _ _)) by (unfold SYN; lia);
    change AT with 64; rewrite (proj2 (Z.ltb_ge _ 64)) by lia; rewrite Z.add_simpl_r; cbn iota; cbn [r_state];
    try rewrite bool_decide_false by done).
  rewrite bool_decide_true by done. unfold getpkt_end. cbn [r_msg r_type r_seq r_csum r_rsum].
  by rewrite E, Z.eqb_refl, (proj2 (Z.leb_gt _ _) Hm).
Qed.

(** Whatever state the receiver is in, a whole packet is received. *)
Lemma getpkt_frame w seq msg r evs : 0 <= seq < 64 -> sendable (text msg) ->
  getpkt_loop w r ((RxChar <$> frame seq msg) ++ evs) = Some (Pkt (ptype msg) seq (text msg), evs).
Proof.
  intros Hs Hm. pose proof (frame_plain seq msg Hs Hm) as E. cbv zeta in E. rewrite E. clear E.
  pose proof (head1_range msg Hm) as Hh. pose proof (sum_bound _ Hm) as Hsum. destruct (head_type msg Hm) as [Et El].
  assert (0 <= Z.of_nat (length (text msg)) mod 64 < 64) as Hl by (apply Z.mod_pos_bound; lia).
  remember ([head1 msg + 64; Z.of_nat (length (text msg)) mod 64 + 64; seq + 64] ++ text msg) as b eqn:Eqb.
  assert (sum b = head1 msg + 64 + (Z.of_nat (length (text msg)) mod 64 + 64) + (seq + 64) + sum (text msg)) as Eb
    by (rewrite Eqb, sum_app; cbn; lia).
  assert (0 <= sum b < 2 ^ 18) as Hb by (change (2 ^ 18) with 262144; lia).
  pose proof (csum_digits (sum b) Hb) as Hc. rewrite !low6 in *.
  assert (Z.land (sum b) 0x3ffff = sum b) as Emask by (change 0x3ffff with (Z.ones 18); rewrite Z.land_ones by lia; by apply Z.mod_small).
  assert (forall e, (RxChar <$> SYN :: b ++ e) ++ evs =
    RxChar SYN :: RxChar (head1 msg + 64) :: RxChar (Z.of_nat (length (text msg)) mod 64 + 64) :: RxChar (seq + 64) ::
      (RxChar <$> text msg) ++ (RxChar <$> e) ++ evs) as ->
    by (intros e; rewrite Eqb, fmap_cons, fmap_app, fmap_app; cbn; by rewrite <- app_assoc).
  assert (Z.of_nat (length (text msg)) < MAXMSG) as Hlen by (destruct Hm; unfold MAXMSG; lia).
  rewrite loop_head by (rewrite ?El; lia). cbv zeta. rewrite El, Et.
  assert (forall evs', getpkt_loop w (mkRx (if Z.of_nat (length (text msg)) =? 0 then STATE_CSUM1 else STATE_MSG)
      (ptype msg) (Z.of_nat (length (text msg))) seq [] 0 (head1 msg + 64 + (Z.of_nat (length (text msg)) mod 64 + 64) + (seq + 64)))
      ((RxChar <$> text msg) ++ evs') =
    getpkt_loop w (mkRx STATE_CSUM1 (ptype msg) (Z.of_nat (length (text msg))) seq (text msg) 0 (sum b)) evs') as ->.
  { intros evs'. destruct (text msg) as [|c m] eqn:Em; cbn [length].
    - rewrite Eb. cbn. do 2 f_equal. lia.
    - rewrite (proj2 (Z.eqb_neq _ _)) by lia. rewrite (loop_text w _ _ _ (c :: m) []), Eb; [done|apply Hm|done|done|done]. }
  apply loop_csum; [apply Z.mod_pos_bound; lia..|done|]. by rewrite Emask, Hc.
Qed.

Lemma putpkt_fits seq msg : sendable (text msg) -> putpkt seq msg = Some (frame seq msg).
Proof.
  intros [_ H]. unfold putpkt. rewrite (proj2 (Nat.leb_le _ _)); [done|]. unfold frame.
  destruct msg; rewrite length_fmap, !length_app; cbn in *; lia.
Qed.

(** A receiver that is still waiting is in some state. *)
Lemma getpkt_waits w evs r : getpkt_loop w r evs = None ->
  exists r', forall evs', getpkt_loop w r (evs ++ evs') = getpkt_loop w r' evs'.
Proof.
  revert r. induction evs as [|[c|] evs IH]; intros r H; cbn [getpkt_loop app] in *.
  - by exists r.
  - destruct (s8 c <? 0); [done|]. destruct (getpkt_char (s8 c) r) as [r1| |]; [|done..].
    destruct (bool_decide _); [done|]. by apply IH.
  - destruct (_ && w); [by apply IH|done].
Qed.

(** C31. A packet is received as it was sent. Every text of at most 73 characters
    (7 bits each, none of them SYN), or an acknowledgement, is written by [putpkt],
    and whatever came over the line before (noise, or a packet cut short) that
    leaves [getpkt] waiting, the packet is then received with its type, its number
    and its text, and nothing after it is consumed. *)
Theorem getpkt_putpkt (wait : bool) (seq : Z) (msg : cptr) (junk evs : list rxev)
  (Hseq : 0 <= seq < 64) (Hmsg : sendable (text msg)) (Hjunk : getpkt wait junk = None) :
  exists f, putpkt seq msg = Some f /\
    getpkt wait (junk ++ (RxChar <$> f) ++ evs) = Some (Pkt (ptype msg) seq (text msg), evs).
Proof.
  exists (frame seq msg). split; [by apply putpkt_fits|].
  destruct (getpkt_waits wait junk rx0 Hjunk) as [r Hr]. unfold getpkt. rewrite Hr. by apply getpkt_frame.
Qed.

Lemma getpkt_putpkt_witness :
  exists f, putpkt 5 (Some (str "1 d 0x80020000 0x0")) = Some f /\
    getpkt true ([RxChar 97; RxTimeout; RxChar SYN; RxChar 64; RxChar 66] ++ (RxChar <$> f) ++ [RxTimeout]) =
      Some (Pkt DATA 5 (str "1 d 0x80020000 0x0"), [RxTimeout]).
Proof.
  apply (getpkt_putpkt true 5 (Some (str "1 d 0x80020000 0x0"))); [lia| |reflexivity].
  apply (bool_decide_unpack _). vm_compute. exact I.
Defined.

(** ** The buffer *)

(** What holds of the local variables. *)
Definition rx_ok (r : rx) : Prop :=
  let len := Z.of_nat (length (r_msg r)) in
  let t := r_type r = DATA \/ r_type r = ACKPKT in
  match r_state r with
  | STATE_START => True
  | STATE_TYPLEN1 => len = 0
  | STATE_LEN2 => len = 0 /\ t /\ 0 <= r_len r
  | STATE_SEQ => len = 0 /\ t /\ 0 <= r_len r < MAXMSG
  | STATE_MSG => len < r_len r < MAXMSG /\ t /\ 0 <= r_seq r < 64
  | _ => len < MAXMSG /\ t /\ 0 <= r_seq r < 64
  end.

Lemma land_ack c : Z.land c ACKPKT = DATA \/ Z.land c ACKPKT = ACKPKT.
Proof.
  assert (ACKPKT = 2 ^ 5) as -> by done. destruct (Z.testbit c 5) eqn:E; [right|left]; apply Z.bits_inj'; intros n Hn.
  - rewrite Z.land_spec, Z.pow2_bits_eqb by lia. destruct (Z.eqb_spec 5 n) as [<-|]; [by rewrite E|by rewrite andb_false_r].
  - rewrite Z.land_spec, Z.pow2_bits_eqb by lia. change DATA with 0. rewrite Z.bits_0.
    destruct (Z.eqb_spec 5 n) as [<-|]; [by rewrite E|by rewrite andb_false_r].
Qed.

Lemma getpkt_char_ok c r : 0 <= c < 128 -> rx_ok r ->
  match getpkt_char c r with RxGo r' => rx_ok r' | RxBad => True | RxOverrun => False end.
Proof.
  intros Hc Hr. unfold getpkt_char. destruct (Z.eqb_spec c SYN); [done|]. change AT with 64.
  unfold rx_ok in *. destruct (r_state r) eqn:Es; rewrite ?Es; try done;
    try (destruct (Z.ltb_spec c 64); [done|]); cbn [r_state r_msg r_len r_type r_seq].
  - split; [done|]. split; [apply land_ack|]. apply Z.land_nonneg. lia.
  - destruct (Z.leb_spec MAXMSG (Z.shiftl (r_len r) 6 + (c - 64))); [done|]. cbn [r_state r_msg r_len r_type r_seq].
    destruct Hr as (H1 & H2 & H3). split; [done|]. split; [done|]. pose proof (proj2 (Z.shiftl_nonneg (r_len r) 6) H3). lia.
  - destruct Hr as (H1 & H2 & H3). destruct (Z.eqb_spec (r_len r) 0); (split; [unfold MAXMSG in *; lia|]); (split; [done|]); lia.
  - destruct Hr as (H1 & H2 & H3). rewrite (proj2 (Z.leb_gt MAXMSG _)) by lia. cbn [r_state r_msg r_len r_type r_seq].
    destruct (Z.eqb_spec (Z.of_nat (length (r_msg r)) + 1) (r_len r)); rewrite length_app; cbn [length];
      (split; [lia|done]).
  - exact Hr.
  - exact Hr.
  - exact Hr.
Qed.

Lemma getpkt_loop_ok w evs r p rest : rx_ok r -> getpkt_loop w r evs = Some (p, rest) ->
  (length rest < length evs)%nat /\
  match p with
  | Pkt type ts msg => (type = DATA \/ type = ACKPKT) /\ 0 <= ts < 64 /\ Z.of_nat (length msg) < MAXMSG
  | PktOverrun => False
  | _ => True
  end.
Proof.
  revert r. induction evs as [|[c|] evs IH]; intros r Hr H; cbn [getpkt_loop length] in *; [done| |].
  - destruct (Z.ltb_spec (s8 c) 0); [simplify_eq; split; [lia|done]|]. pose proof (s8_range c) as Hc.
    pose proof (getpkt_char_ok (s8 c) r ltac:(lia) Hr) as Hok. destruct (getpkt_char (s8 c) r) as [r1| |]; [|simplify_eq; split; [lia|done]|done].
    case_bool_decide as E; [|apply IH in H; [split; [lia|apply H]|done]]. simplify_eq. split; [lia|]. unfold getpkt_end.
    destruct (negb _); [done|]. unfold rx_ok in Hok. rewrite E in Hok. destruct Hok as (H1 & H2 & H3).
    by rewrite (proj2 (Z.leb_gt MAXMSG _)) by lia.
  - destruct (_ && w); [apply IH in H; [split; [lia|apply H]|done]|simplify_eq; split; [lia|done]].
Qed.

(** C32. Whatever comes over the line, [getpkt] stores at most 79 characters and
    the NUL in its buffer of 80, reports only the two types and numbers of packets
    there are, and consumes at least one character whenever it returns (so that
    the loops of [putmsg] and [getmsg] make progress). *)
Theorem getpkt_bounds (wait : bool) (evs rest : list rxev) (p : pktres) (H : getpkt wait evs = Some (p, rest)) :
  (length rest < length evs)%nat /\
  match p with
  | Pkt type ts msg => (type = DATA \/ type = ACKPKT) /\ 0 <= ts < 64 /\ Z.of_nat (length msg) < MAXMSG
  | PktOverrun => False
  | _ => True
  end.
Proof. exact (getpkt_loop_ok wait evs rx0 p rest I H). Qed.

Lemma getpkt_bounds_witness :
  getpkt false [RxChar SYN; RxChar 65; RxChar 80] = Some (PktErr, []) /\ (length (@nil rxev) < 3)%nat.
Proof.
  split; [reflexivity|]. apply (getpkt_bounds false [RxChar SYN; RxChar 65; RxChar 80] [] PktErr). reflexivity.
Defined.
