(* ===== verification/Dbglink.v ===== *)
(** * Dbglink: the two ends of the debugger's line

    Two parties that run [putmsg] and [getmsg] of Dbgpkt against each other, in any
    order, over a line that loses packets, damages them and lets time pass. The
    steps are the bodies of the loops of the code; what is in transit are the
    characters that [putpkt] wrote, and a packet arrives by [getpkt].

    The theorem: every message is delivered once and in order, in both directions
    at once, and [putmsg] returns only when its message has been delivered. *)

From S2P Require Import Prelude CString Dbgpkt.

(** ** The parties and the line *)

Inductive pmode : Type :=
| Idle
| Putting (m : cstr)
| Getting.

(** The variables of the code, where the party is, the messages it gave to
    [putmsg], and those [getmsg] gave it. *)
Record party : Type := mkParty { p_link : link; p_mode : pmode; p_put : list cstr; p_got : list cstr }.

(** A packet arrives, a damaged one is noticed, or the time limit passes. *)
Inductive receives (wait : bool) : list (list Z) -> pktres -> list (list Z) -> Prop :=
| rec_packet f fs p : getpkt wait (RxChar <$> f) = Some (p, []) -> receives wait (f :: fs) p fs
| rec_error fs : receives wait fs PktErr fs
| rec_timeout fs : receives wait fs PktTimeout fs.

(** One round of the loop of [putmsg]: the new state and the packets sent. *)
Definition put_round (m : cstr) (p : pktres) (x : party) : party * list (list Z) :=
  let l := p_link x in
  match putmsg_step p l with
  | PutDone => (mkParty (put_msg l) Idle (p_put x) (p_got x), [])
  | PutResend ack => (x, (if ack then [frame (rxseq l) None] else []) ++ [frame (txseq l) (Some m)])
  | PutWait => (x, [])
  end.

(** One round of the loop of [getmsg]. *)
Definition get_round (p : pktres) (x : party) : party * list (list Z) :=
  let l := p_link x in
  match getmsg_step p l with
  | GetDone m => (mkParty (got_msg l) Idle (p_put x) (p_got x ++ [m]), [frame (rxseq (got_msg l)) None])
  | GetReack => (x, [frame (rxseq l) None])
  | GetIgnore => (x, [])
  end.

(** A step of one party: what it consumes, what it sends. *)
Inductive pstep : party -> list (list Z) -> party -> list (list Z) -> list (list Z) -> Prop :=
| p_start_put x m fs : p_mode x = Idle -> sendable m ->
    pstep x fs (mkParty (p_link x) (Putting m) (p_put x ++ [m]) (p_got x)) fs [frame (txseq (p_link x)) (Some m)]
| p_start_get x fs : p_mode x = Idle -> pstep x fs (mkParty (p_link x) Getting (p_put x) (p_got x)) fs []
| p_put_round x m fs p fs' : p_mode x = Putting m -> receives false fs p fs' ->
    pstep x fs (put_round m p x).1 fs' (put_round m p x).2
| p_get_round x fs p fs' : p_mode x = Getting -> receives true fs p fs' ->
    pstep x fs (get_round p x).1 fs' (get_round p x).2.

(** The two parties and the packets in transit each way. *)
Inductive sys_step : party * party * list (list Z) * list (list Z) -> party * party * list (list Z) * list (list Z) -> Prop :=
| s_left a b ab ba a' ba' out : pstep a ba a' ba' out -> sys_step (a, b, ab, ba) (a', b, ab ++ out, ba')
| s_right a b ab ba b' ab' out : pstep b ab b' ab' out -> sys_step (a, b, ab, ba) (a, b', ab', ba ++ out)
| s_lose_left a b f1 f f2 ba : sys_step (a, b, f1 ++ f :: f2, ba) (a, b, f1 ++ f2, ba)
| s_lose_right a b ab f1 f f2 : sys_step (a, b, ab, f1 ++ f :: f2) (a, b, ab, f1 ++ f2).

(** As [debug] sets it up. *)
Definition party0 : party := mkParty (mkLink 0 0 false) Idle [] [].

Definition running (a b : party) : Prop :=
  exists ab ba, rtc sys_step (party0, party0, [], []) (a, b, ab, ba).

(** ** Lists of numbers in order *)

(** Ascending, from [lo] on and below [hi]. *)
Fixpoint mono (lo : nat) (l : list nat) (hi : nat) : Prop :=
  match l with
  | [] => True
  | x :: l' => (lo <= x < hi)%nat /\ mono x l' hi
  end.

Lemma mono_weaken lo lo' l hi hi' : (lo' <= lo)%nat -> (hi <= hi')%nat -> mono lo l hi -> mono lo' l hi'.
Proof. revert lo lo'. induction l as [|x l IH]; intros lo lo' H1 H2; [done|]. intros [Hx H]. split; [lia|]. by apply (IH x). Qed.

Lemma mono_snoc lo l x hi : mono lo l (S x) -> (lo <= x < hi)%nat -> mono lo (l ++ [x]) hi.
Proof.
  revert lo. induction l as [|y l IH]; intros lo H Hx; [done|]. destruct H as [Hy H]. split; [lia|]. apply IH; [done|lia].
Qed.

Lemma mono_remove lo l1 x l2 hi : mono lo (l1 ++ x :: l2) hi -> mono lo (l1 ++ l2) hi.
Proof.
  revert lo. induction l1 as [|y l1 IH]; intros lo; cbn; [|naive_solver]. intros [Hx H]. apply (mono_weaken x lo _ hi); [lia|lia|done].
Qed.

Lemma mono_bound lo l hi x : mono lo l hi -> x ∈ l -> (lo <= x < hi)%nat.
Proof.
  revert lo. induction l as [|y l IH]; intros lo H Hx; [by apply elem_of_nil in Hx|]. destruct H as [Hy H].
  apply elem_of_cons in Hx as [-> |Hx]; [done|]. specialize (IH y H Hx). lia.
Qed.

(** ** The invariant *)

(** A packet in transit: message number [i], or the acknowledgement of all
    messages before number [i]. *)
Inductive apkt : Type :=
| ADat (i : nat)
| AAck (i : nat).

Definition seqno (i : nat) : Z := Z.of_nat i mod 64.

(** Its characters; [M] are the sender's messages. *)
Definition enc (M : list cstr) (p : apkt) : list Z :=
  match p with
  | ADat i => frame (seqno i) (Some (default [] (M !! i)))
  | AAck i => frame (seqno i) None
  end.

Definition dats : list apkt -> list nat := omap (fun p => match p with ADat i => Some i | AAck _ => None end).
Definition acks : list apkt -> list nat := omap (fun p => match p with AAck i => Some i | ADat _ => None end).

Definition putting (x : party) : bool := match p_mode x with Putting _ => true | _ => false end.

(** The number of messages whose [putmsg] has returned. *)
Definition done (x : party) : nat := (length (p_put x) - if putting x then 1 else 0)%nat.

(** The messages from [x] to [y], with the numbers of those in transit and of the
    acknowledgements on their way back. *)
Record flow (x y : party) (D K : list nat) : Prop := mkFlow {
  f_send : Forall sendable (p_put x);
  f_cur : forall m, p_mode x = Putting m -> exists M, p_put x = M ++ [m];
  f_tx : txseq (p_link x) = seqno (done x);
  f_rx : rxseq (p_link y) = seqno (length (p_got y));
  f_got : p_got y = take (length (p_got y)) (p_put x);
  f_num : (done x <= length (p_got y) <= length (p_put x))%nat;
  f_D : mono (length (p_got y) - 1) D (length (p_put x));
  f_K : mono (done x) K (S (length (p_got y))) }.

Definition inv (a b : party) (ab ba : list (list Z)) : Prop :=
  exists LA LB, ab = enc (p_put a) <$> LA /\ ba = enc (p_put b) <$> LB /\
    flow a b (dats LA) (acks LB) /\ flow b a (dats LB) (acks LA).

Lemma inv_sym a b ab ba : inv a b ab ba -> inv b a ba ab.
Proof. intros (LA & LB & H1 & H2 & H3 & H4). by exists LB, LA. Qed.

Lemma seqno_range i : 0 <= seqno i < 64.
Proof. apply Z.mod_pos_bound. lia. Qed.

Lemma seqno_next i : nextseq (seqno i) = seqno (S i).
Proof.
  unfold nextseq, seqno. rewrite low6, Nat2Z.inj_succ. unfold Z.succ. by rewrite Zplus_mod_idemp_l.
Qed.

(** In a window of two numbers they are told apart. *)
Lemma seqno_inj i j : seqno i = seqno j -> (i <= S j)%nat -> (j <= S i)%nat -> i = j.
Proof. unfold seqno. intros. Z.to_euclidean_division_equations. lia. Qed.

Lemma dats_app l1 l2 : dats (l1 ++ l2) = dats l1 ++ dats l2.
Proof. apply omap_app. Qed.

Lemma acks_app l1 l2 : acks (l1 ++ l2) = acks l1 ++ acks l2.
Proof. apply omap_app. Qed.

Lemma done_idle x : putting x = false -> done x = length (p_put x).
Proof. unfold done. intros ->. lia. Qed.

Lemma done_putting x y D K m : flow x y D K -> p_mode x = Putting m ->
  length (p_put x) = S (done x) /\ p_put x !! done x = Some m.
Proof.
  intros Hf Hm. destruct (f_cur _ _ _ _ Hf m Hm) as [M E]. unfold done, putting. rewrite Hm, E, length_app. cbn [length].
  split; [lia|]. replace (length M + 1 - 1)%nat with (length M) by lia. by apply list_lookup_middle.
Qed.

(** *** Losing a packet *)
Lemma flow_remove_D x y D1 d D2 K : flow x y (D1 ++ d ++ D2) K -> (length d <= 1)%nat -> flow x y (D1 ++ D2) K.
Proof. intros H Hd. destruct d as [|d [|]]; cbn in Hd; [done| |lia]. destruct H. split; try done. by apply (mono_remove _ D1 d). Qed.

Lemma flow_remove_K x y D K1 k K2 : flow x y D (K1 ++ k ++ K2) -> (length k <= 1)%nat -> flow x y D (K1 ++ K2).
Proof. intros H Hd. destruct k as [|k [|]]; cbn in Hd; [done| |lia]. destruct H. split; try done. by apply (mono_remove _ K1 k). Qed.

Lemma one_dat p : (length (dats [p]) <= 1)%nat /\ (length (acks [p]) <= 1)%nat.
Proof. destruct p; cbn; lia. Qed.

Lemma inv_lose a b f1 f f2 ba : inv a b (f1 ++ f :: f2) ba -> inv a b (f1 ++ f2) ba.
Proof.
  intros (LA & LB & H1 & H2 & H3 & H4). symmetry in H1. apply fmap_app_inv in H1 as (L1 & L2 & E1 & E2 & ->).
  symmetry in E2. apply fmap_cons_inv in E2 as (p & L2' & -> & -> & ->). subst f1.
  exists (L1 ++ L2'), LB. rewrite fmap_app. split; [done|]. split; [done|].
  change (p :: L2') with ([p] ++ L2') in H3, H4. rewrite !dats_app in H3. rewrite !acks_app in H4. rewrite dats_app, acks_app.
  destruct (one_dat p). split; [by apply (flow_remove_D _ _ _ (dats [p]))|by apply (flow_remove_K _ _ _ _ (acks [p]))].
Qed.

(** *** Receiving *)

(** What a packet that arrives can be. *)
Definition arrived (a b : party) (p : pktres) (LB : list apkt) : Prop :=
  match p with
  | Pkt t ts m =>
      (exists j, t = DATA /\ ts = seqno j /\ p_put b !! j = Some m /\ (length (p_got a) - 1 <= j)%nat /\
         mono j (dats LB) (length (p_put b))) \/
      (exists k, t = ACKPKT /\ ts = seqno k /\ (done a <= k <= length (p_got b))%nat /\
         mono k (acks LB) (S (length (p_got b))))
  | PktOverrun => False
  | _ => True
  end.

Lemma getpkt_enc wait f p q : 0 <= q < 64 -> sendable (text f) ->
  getpkt wait (RxChar <$> frame q f) = Some (p, []) -> p = Pkt (ptype f) q (text f).
Proof.
  intros Hq Hs H. pose proof (getpkt_frame wait q f rx0 [] Hq Hs) as E. rewrite app_nil_r in E.
  unfold getpkt in H. congruence.
Qed.

Lemma receives_inv wait a b LA LB p ba' :
  flow a b (dats LA) (acks LB) -> flow b a (dats LB) (acks LA) -> receives wait (enc (p_put b) <$> LB) p ba' ->
  exists LB', ba' = enc (p_put b) <$> LB' /\ flow a b (dats LA) (acks LB') /\ flow b a (dats LB') (acks LA) /\
    arrived a b p LB'.
Proof.
  intros H1 H2 Hr. inversion Hr as [f fs p' Hg Ef| |]; [|by exists LB..]. subst p' fs. symmetry in Ef.
  apply fmap_cons_inv in Ef as (q & LB' & -> & -> & ->). exists LB'. split; [done|].
  change (q :: LB') with ([q] ++ LB') in H1, H2. rewrite acks_app in H1. rewrite dats_app in H2. destruct (one_dat q) as [O1 O2].
  split; [by apply (flow_remove_K _ _ _ [] (acks [q]))|]. split; [by apply (flow_remove_D _ _ [] (dats [q]))|].
  destruct q as [j|k]; cbn in H1, H2; cbn [enc] in Hg.
  - pose proof (f_D _ _ _ _ H2) as [Hj Hm]. destruct (lookup_lt_is_Some_2 (p_put b) j) as [m Em]; [lia|]. rewrite Em in Hg. cbn [default] in Hg. change (id m) with m in Hg.
    assert (sendable m) as Hs by (apply (Forall_elem _ _ m (f_send _ _ _ _ H2)); by eapply list_elem_of_lookup_2).
    apply getpkt_enc in Hg as ->; [|apply seqno_range|done]. left. exists j. repeat split; try done. lia.
  - pose proof (f_K _ _ _ _ H1) as [Hk Hm]. apply getpkt_enc in Hg as ->; [|apply seqno_range|vm_compute; split; [constructor|lia]].
    right. exists k. repeat split; try done; lia.
Qed.

(** *** Sending *)

Lemma inv_send_ack a b ab ba : inv a b ab ba -> inv a b (ab ++ [frame (rxseq (p_link a)) None]) ba.
Proof.
  intros (LA & LB & -> & -> & H1 & H2). exists (LA ++ [AAck (length (p_got a))]), LB. rewrite fmap_app, dats_app, acks_app, (f_rx _ _ _ _ H2).
  split; [done|]. split; [done|]. cbn. rewrite app_nil_r. split; [done|]. pose proof (f_num _ _ _ _ H2) as Hn.
  destruct H2. split; try done. apply mono_snoc; [done|]. lia.
Qed.

Lemma inv_send_data a b ab ba m : p_mode a = Putting m -> inv a b ab ba ->
  inv a b (ab ++ [frame (txseq (p_link a)) (Some m)]) ba.
Proof.
  intros Hm (LA & LB & -> & -> & H1 & H2). destruct (done_putting _ _ _ _ _ H1 Hm) as [Hn Ec].
  exists (LA ++ [ADat (done a)]), LB. rewrite fmap_app, dats_app, acks_app, (f_tx _ _ _ _ H1).
  split; [cbn; by rewrite Ec|]. split; [done|]. cbn. rewrite app_nil_r. split; [|done]. pose proof (f_num _ _ _ _ H1) as Hr.
  destruct H1. split; try done. apply mono_snoc; [|lia]. by rewrite <- Hn.
Qed.

(** Another message does not change the packets in transit. *)
Lemma enc_app M m lo L : mono lo (dats L) (length M) -> enc (M ++ [m]) <$> L = enc M <$> L.
Proof.
  revert lo. induction L as [|[i|i] L IH]; intros lo H; [done|..]; rewrite !fmap_cons.
  - destruct H as [Hi H]. rewrite (IH _ H). f_equal. unfold enc. by rewrite lookup_app_l by lia.
  - by rewrite (IH _ H).
Qed.

Lemma inv_start_put a b ab ba m : p_mode a = Idle -> sendable m -> inv a b ab ba ->
  inv (mkParty (p_link a) (Putting m) (p_put a ++ [m]) (p_got a)) b ab ba.
Proof.
  intros Hm Hs (LA & LB & -> & -> & H1 & H2). exists LA, LB.
  assert (done a = length (p_put a)) as Hd by (apply done_idle; unfold putting; by rewrite Hm).
  set (a' := mkParty _ _ _ _). assert (done a' = done a) as Hd' by (unfold done, putting; cbn; rewrite Hm, length_app; cbn; lia).
  split; [cbn; symmetry; eapply enc_app, H1|]. split; [done|]. split; [|by destruct H2].
  destruct H1 as [I1 I2 I3 I4 I5 I6 I7 I8]. split; cbn [p_link p_put p_got p_mode a']; rewrite ?Hd'; try done.
  - apply Forall_app. split; [done|]. by constructor.
  - intros m' [= <-]. by exists (p_put a).
  - by rewrite take_app_le by lia.
  - rewrite length_app. lia.
  - rewrite length_app. eapply mono_weaken; [..|exact I7]; lia.
Qed.

Lemma inv_start_get a b ab ba : p_mode a = Idle -> inv a b ab ba -> inv (mkParty (p_link a) Getting (p_put a) (p_got a)) b ab ba.
Proof.
  intros Hm (LA & LB & -> & -> & H1 & H2). exists LA, LB. split; [done|]. split; [done|]. split; [|by destruct H2].
  set (a' := mkParty _ _ _ _). assert (done a' = done a) as Hd' by (unfold done, putting; cbn; by rewrite Hm).
  destruct H1 as [I1 I2 I3 I4 I5 I6 I7 I8]. split; cbn [p_link p_put p_got p_mode a']; rewrite ?Hd'; done.
Qed.

(** *** The two rounds *)

Lemma inv_put_round a b ab ba ba' m p : p_mode a = Putting m -> inv a b ab ba -> receives false ba p ba' ->
  inv (put_round m p a).1 b (ab ++ (put_round m p a).2) ba'.
Proof.
  intros Hm (LA & LB & -> & -> & H1 & H2) Hr. destruct (receives_inv _ _ _ _ _ _ _ H1 H2 Hr) as (LB' & -> & H1' & H2' & Harr).
  assert (inv a b (enc (p_put a) <$> LA) (enc (p_put b) <$> LB')) as Hi by (by exists LA, LB'). unfold put_round.
  destruct (putmsg_step p (p_link a)) as [|ack|] eqn:Ep; cbn [fst snd]; [|destruct ack; cbn [app]|by rewrite app_nil_r].
  - rewrite app_nil_r. destruct p as [t ts x| | |]; cbn in Ep; try done. destruct Harr as [(j & -> & _)|(k & -> & -> & Hk & Hmono)]; [done|].
    rewrite (f_tx _ _ _ _ H1), seqno_next in Ep. destruct (done_putting _ _ _ _ _ H1 Hm) as [Hn _]. pose proof (f_num _ _ _ _ H1) as Hr'.
    destruct (Z.eqb_spec (seqno k) (seqno (S (done a)))) as [E|]; [|cbn in Ep; by destruct (_ =? _)].
    apply seqno_inj in E as ->; [|lia..]. set (a' := mkParty _ _ _ _).
    assert (done a' = S (done a)) as Hd by (rewrite <- Hn; by apply (done_idle a')).
    exists LA, LB'. split; [done|]. split; [done|]. split; [|by destruct H2'].
    destruct H1' as [I1 I2 I3 I4 I5 I6 I7 I8]. split; rewrite ?Hd; cbn [p_link p_put p_got p_mode a']; try done.
    + cbn. by rewrite I3, seqno_next.
    + lia.
  - change [frame ?x None; ?y] with ([frame x None] ++ [y]). rewrite app_assoc. apply inv_send_data; [done|]. by apply inv_send_ack.
  - by apply inv_send_data.
Qed.

Lemma inv_get_round a b ab ba ba' p : p_mode a = Getting -> inv a b ab ba -> receives true ba p ba' ->
  inv (get_round p a).1 b (ab ++ (get_round p a).2) ba'.
Proof.
  intros Hm (LA & LB & -> & -> & H1 & H2) Hr. destruct (receives_inv _ _ _ _ _ _ _ H1 H2 Hr) as (LB' & -> & H1' & H2' & Harr).
  assert (inv a b (enc (p_put a) <$> LA) (enc (p_put b) <$> LB')) as Hi by (by exists LA, LB'). unfold get_round.
  destruct (getmsg_step p (p_link a)) as [x| |] eqn:Ep; cbn [fst snd]; [|by apply inv_send_ack|by rewrite app_nil_r].
  destruct p as [t ts y| | |]; cbn in Ep; try done. destruct Harr as [(j & -> & -> & Ej & Hj & Hmono)|(k & -> & _)]; [|done].
  rewrite (f_rx _ _ _ _ H2) in Ep. pose proof (f_num _ _ _ _ H2) as Hn.
  destruct (Z.eqb_spec (seqno j) (seqno (length (p_got a)))) as [E|]; [|done]. injection Ep as ->.
  pose proof (lookup_lt_Some _ _ _ Ej) as Hlt.
  assert (length (p_put b) <= S (done b))%nat as Hw by (unfold done; destruct (putting b); lia).
  apply seqno_inj in E as ->; [|lia..]. set (a' := mkParty _ _ _ _).
  assert (done a' = done a) as Hd by (unfold done, putting; cbn; by rewrite Hm).
  apply (inv_send_ack a' b). exists LA, LB'. split; [done|]. split; [done|]. split.
  - destruct H1' as [I1 I2 I3 I4 I5 I6 I7 I8]. split; rewrite ?Hd; cbn [p_link p_put p_got p_mode a']; done.
  - destruct H2' as [I1 I2 I3 I4 I5 I6 I7 I8]. split; cbn [p_link p_put p_got p_mode a']; rewrite ?length_app; cbn [length]; try done.
    + cbn. rewrite I4, seqno_next. f_equal. lia.
    + rewrite Nat.add_1_r. erewrite take_S_r by done. by rewrite <- I5.
    + lia.
    + replace (length (p_got a) + 1 - 1)%nat with (length (p_got a)) by lia. done.
    + eapply mono_weaken; [..|exact I8]; lia.
Qed.

(** *** All steps *)

Lemma inv_pstep a ba a' ba' out b ab : pstep a ba a' ba' out -> inv a b ab ba -> inv a' b (ab ++ out) ba'.
Proof.
  intros Hs Hi. inversion Hs; subst.
  - match goal with |- inv ?p _ _ _ => by apply (inv_send_data p); [|apply inv_start_put] end.
  - rewrite app_nil_r. by apply inv_start_get.
  - by eapply inv_put_round.
  - by eapply inv_get_round.
Qed.

Definition sys_inv (s : party * party * list (list Z) * list (list Z)) : Prop :=
  let '(a, b, ab, ba) := s in inv a b ab ba.

Lemma sys_inv_step s s' : sys_step s s' -> sys_inv s -> sys_inv s'.
Proof.
  intros Hs Hi. destruct Hs; cbn in *.
  - by eapply inv_pstep.
  - apply inv_sym. eapply inv_pstep; [done|]. by apply inv_sym.
  - by eapply inv_lose.
  - apply inv_sym. eapply inv_lose. by apply inv_sym.
Qed.

Lemma inv_start : inv party0 party0 [] [].
Proof. exists [], []. repeat split; try done; cbn; try lia; constructor. Qed.

Lemma running_inv a b : running a b -> exists ab ba, inv a b ab ba.
Proof.
  intros (ab & ba & Hr). exists ab, ba. change (sys_inv (a, b, ab, ba)).
  assert (sys_inv (party0, party0, [], [])) as H0 by exact inv_start.
  revert Hr H0. generalize (party0, party0, @nil (list Z), @nil (list Z)). generalize (a, b, ab, ba). intros s' s Hr H0.
  induction Hr as [s|s s1 s2 Hs _ IH]; [done|]. apply IH. by eapply sys_inv_step.
Qed.

(** The messages of [x] that [y] has got. *)
Definition delivered (x y : party) : Prop :=
  exists rest, p_put x = p_got y ++ rest /\
    match p_mode x with Putting m => rest = [] \/ rest = [m] | _ => rest = [] end.

Lemma flow_delivered x y D K : flow x y D K -> delivered x y.
Proof.
  intros Hf. exists (drop (length (p_got y)) (p_put x)). rewrite (f_got _ _ _ _ Hf) at 1. split; [by rewrite take_drop|].
  pose proof (f_num _ _ _ _ Hf) as Hn. destruct (p_mode x) as [|m|] eqn:Em.
  1, 3: (rewrite done_idle in Hn by (unfold putting; by rewrite Em)); apply drop_ge; lia.
  destruct (f_cur _ _ _ _ Hf m Em) as [M E]. destruct (done_putting _ _ _ _ _ Hf Em) as [Hl _]. rewrite E, length_app in *. cbn in Hn, Hl.
  destruct (decide (length (p_got y) = length M)) as [-> |]; [right; by rewrite drop_app_length|left].
  apply drop_ge. rewrite length_app. cbn. lia.
Qed.


(** *** A run with a lost packet *)

Definition hi : cstr := str "1 d 0x80020000 0x0".
Definition sender1 : party := mkParty (mkLink 0 0 false) (Putting hi) [hi] [].
Definition sender2 : party := mkParty (mkLink 1 0 false) Idle [hi] [].
Definition receiver1 : party := mkParty (mkLink 0 0 false) Getting [] [].
Definition receiver2 : party := mkParty (mkLink 0 1 true) Idle [] [hi].

Lemma lost_packet_run : running sender2 receiver2.
Proof.
  exists [], []. eapply rtc_l.
  { apply (s_left party0 party0 [] [] sender1 [] [frame 0 (Some hi)]). apply p_start_put; [done|].
    apply (bool_decide_unpack _). vm_compute. exact I. }
  eapply rtc_l. { apply (s_lose_left sender1 party0 [] (frame 0 (Some hi)) []). }
  eapply rtc_l. { apply (s_right sender1 party0 [] [] receiver1 [] []). by apply p_start_get. }
  eapply rtc_l.
  { apply (s_left sender1 receiver1 [] [] sender1 [] [frame 0 (Some hi)]).
    apply (p_put_round sender1 hi [] PktTimeout []); [done|apply rec_timeout]. }
  eapply rtc_l.
  { apply (s_right sender1 receiver1 [frame 0 (Some hi)] [] receiver2 [] [frame 1 None]).
    apply (p_get_round receiver1 _ (Pkt DATA 0 hi)); [done|]. apply rec_packet. vm_compute. reflexivity. }
  eapply rtc_l.
  { apply (s_left sender1 receiver2 [] [frame 1 None] sender2 [] []).
    apply (p_put_round sender1 hi _ (Pkt ACKPKT 1 [])); [done|]. apply rec_packet. vm_compute. reflexivity. }
  apply rtc_refl.
Qed.


(** ** A repeated message is not acknowledged

    When the acknowledgement of a message is lost and this end waits for the next
    message, the copies that the other end keeps sending are ignored: nothing is
    ever sent back, and neither end gets on. *)
Lemma repeats_unanswered (n : nat) (l : link) (seq : Z) (m : cstr) :
  0 <= seq < 64 -> sendable m -> seq <> rxseq l ->
  getmsg l (concat (replicate n (RxChar <$> frame seq (Some m)))) = None.
Proof.
  intros Hs Hm Hne. unfold getmsg. generalize (S (length (concat (replicate n (RxChar <$> frame seq (Some m)))))) as fuel.
  induction n as [|n IH]; intros fuel; [by destruct fuel|]. destruct fuel as [|fuel]; [done|]. cbn [replicate concat getmsg_loop].
  unfold getpkt. rewrite (getpkt_frame true seq (Some m) rx0) by done. cbn [mbind option_bind]. unfold getmsg_step.
  change (ptype (Some m) =? DATA) with true. cbn [andb]. rewrite (proj2 (Z.eqb_neq _ _) Hne). apply IH.
Qed.
