(* ===== verification/Dbgreq.v ===== *)
(** * Dbgreq: the requests of the remote debugger

    The upper half of [src/pmon/debug.c]: the stop report of [dbgmode], and
    [do_req], which reads and writes the client's memory and registers, sets
    breakpoints and lets the client run. The messages themselves go through
    Dbgpkt; the reports of the option [-v] are left out.

    The theorems: a request touches no memory outside the unmapped segments and
    nothing else when it is refused, and it is answered or lets the client run, but
    for the requests whose effect C leaves undefined ([undefined_req]); what is
    written is read back. *)

From S2P Require Import Prelude CString Numconv Format Memory Tunables Expr Watch Bpt BptSafe Dbgpkt.

(** [src/pmon/debug.c:70-71] *)
Definition EFAULT : Z := 14.
Definition EINVAL : Z := 22.

(** [src/pmon/pmon.h:521] *)
Definition R_F0 : Z := 63.
Definition R_HI : Z := 32.
Definition R_LO : Z := 33.
Definition R_CAUSE : Z := 39.
Definition R_EPC : Z := 40.
Definition R_FCR : Z := R_F0 + 32.
Definition SR_FR : Z := 0x04000000.

(** The words of [rxarg]; a request of more words is stored past its end.
    [src/pmon/debug.c:224] *)
Definition RXARG : nat := 8.

(** The string in an array: up to the first NUL. *)
Fixpoint take_while_nonzero (l : list Z) : cstr :=
  match l with
  | [] => []
  | c :: l' => if c =? 0 then [] else c :: take_while_nonzero l'
  end.

(** The requests take addresses in the unmapped segments, aligned. *)
Definition good_adr (n adr : Z) : bool := (K0BASE <=? adr) && (adr <? K2BASE) && (Z.land adr (n - 1) =? 0).

Lemma low_bits a : Z.ldiff a 3 = 4 * (a / 4).
Proof.
  change 3 with (Z.ones 2). rewrite Z.ldiff_ones_r by lia. rewrite Z.shiftr_div_pow2, Z.shiftl_mul_pow2 by lia. change (2 ^ 2) with 4. lia.
Qed.

Lemma good_adr_spec n adr : n = 1 \/ n = 2 \/ n = 4 -> good_adr n adr = true ->
  K0BASE <= adr < K2BASE /\ adr mod n = 0.
Proof.
  unfold good_adr. intros Hn Hg. apply andb_true_iff in Hg as [Hg Ha]. apply andb_true_iff in Hg as [H1 H2].
  apply Z.leb_le in H1. apply Z.ltb_lt in H2. apply Z.eqb_eq in Ha. split; [done|].
  destruct Hn as [-> |[-> | ->]]; [apply Z.mod_1_r| |].
  - rewrite <- Ha. symmetry. apply (Z.land_ones adr 1). lia.
  - rewrite <- Ha. symmetry. apply (Z.land_ones adr 2). lia.
Qed.

(** The bytes of an aligned access are in one word. *)
Lemma same_word n adr x : n = 1 \/ n = 2 \/ n = 4 -> adr mod n = 0 -> adr <= x < adr + n -> Z.ldiff x 3 = Z.ldiff adr 3.
Proof. intros Hn Ha Hx. rewrite !low_bits. destruct Hn as [-> |[-> | ->]]; Z.to_euclidean_division_equations; lia. Qed.

(** A text in a buffer of 80 characters; [None] when it does not fit. *)
Definition in_msg (t : option cstr) : option cstr :=
  s ← t; if (length s <? 80)%nat then Some s else None.

Lemma hex_length v : 0 <= v < 2 ^ 32 -> (length (btoa v 16) <= 8)%nat.
Proof.
  intros Hv. destruct (Z.eq_dec v 0) as [-> |Hn]; [vm_compute; lia|]. rewrite btoa_digits by lia. rewrite length_fmap, length_rev.
  apply digits_lsb_length; [lia|]. change (16 ^ Z.of_nat 8) with (2 ^ 32). lia.
Qed.

(** The replies. *)
Lemma sprintf_reply a0 a1 v w :
  sprintf "%s %s 0x%x 0x%x" [AStr (Some a0); AStr (Some a1); AInt v; AInt w] =
  Some (a0 ++ str " " ++ a1 ++ str " 0x" ++ btoa (u32 v) 16 ++ str " 0x" ++ btoa (u32 w) 16).
Proof.
  assert (sprintf "%s %s 0x%x 0x%x" [AStr (Some a0); AStr (Some a1); AInt v; AInt w] =
    Some (([] ++ a0) ++ str " " ++ ([] ++ a1) ++ str " 0x" ++ ([] ++ btoa (u32 v) 16) ++ str " 0x" ++ ([] ++ btoa (u32 w) 16) ++ [])) as ->
    by reflexivity.
  by rewrite app_nil_r.
Qed.

Lemma in_msg_reply a0 a1 v w : (length a0 + length a1 <= 50)%nat ->
  in_msg (sprintf "%s %s 0x%x 0x%x" [AStr (Some a0); AStr (Some a1); AInt v; AInt w]) =
  Some (a0 ++ str " " ++ a1 ++ str " 0x" ++ btoa (u32 v) 16 ++ str " 0x" ++ btoa (u32 w) 16).
Proof.
  intros Hl. rewrite sprintf_reply. cbn [in_msg mbind option_bind]. rewrite (proj2 (Nat.ltb_lt _ _)); [done|].
  pose proof (hex_length (u32 v) (u32_range v)). pose proof (hex_length (u32 w) (u32_range w)).
  rewrite !length_app. change (length (str " ")) with 1%nat. change (length (str " 0x")) with 3%nat. lia.
Qed.

(** The other replies fit too. *)
Lemma llhex_length v : 0 <= v < 2 ^ 64 -> (length (llbtoa v 16) <= 16)%nat.
Proof.
  intros Hv. unfold llbtoa. destruct (Z.eqb_spec v 0); [cbn; lia|]. change (16 =? -10) with false. cbn iota.
  rewrite length_rev, btoa_loop_digits, length_fmap. apply digits_lsb_length; [lia|]. change (16 ^ Z.of_nat 16) with (2 ^ 64). lia.
Qed.

Lemma in_msg_fits t s : t = Some s -> (length s < 80)%nat -> in_msg t <> None.
Proof. intros -> Hl. unfold in_msg. cbn [mbind option_bind]. by rewrite (proj2 (Nat.ltb_lt _ _) Hl). Qed.

Lemma fits_value (wide : bool) a0 a1 v : (length a0 + length a1 <= 50)%nat ->
  in_msg (sprintf (if wide then "%s %s 0x0 0x%llx" else "%s %s 0x0 0x%x") [AStr (Some a0); AStr (Some a1); AInt v]) <> None.
Proof.
  intros Hl. pose proof (hex_length (u32 v) (u32_range v)). pose proof (llhex_length (u64 v) (wrapu_range 64 v ltac:(lia))).
  apply (in_msg_fits _ (([] ++ a0) ++ str " " ++ ([] ++ a1) ++ str " 0x0 0x" ++ ([] ++ if wide then llbtoa (u64 v) 16 else btoa (u32 v) 16) ++ [])).
  - by destruct wide.
  - rewrite !length_app. change (length (str " ")) with 1%nat. change (length (str " 0x0 0x")) with 7%nat. destruct wide; cbn [length]; lia.
Qed.

Lemma fits_x a0 a1 v : (length a0 + length a1 <= 50)%nat ->
  in_msg (sprintf "%s %s 0x0 0x%x" [AStr (Some a0); AStr (Some a1); AInt v]) <> None.
Proof. exact (fits_value false a0 a1 v). Qed.

Lemma fits_llx a0 a1 v : (length a0 + length a1 <= 50)%nat ->
  in_msg (sprintf "%s %s 0x0 0x%llx" [AStr (Some a0); AStr (Some a1); AInt v]) <> None.
Proof. exact (fits_value true a0 a1 v). Qed.

Lemma fits_zero a0 a1 : (length a0 + length a1 <= 50)%nat ->
  in_msg (sprintf "%s %s 0x0 0x0" [AStr (Some a0); AStr (Some a1)]) <> None.
Proof.
  intros Hl. apply (in_msg_fits _ (([] ++ a0) ++ str " " ++ ([] ++ a1) ++ str " 0x0 0x0" ++ [])); [done|].
  rewrite !length_app. change (length (str " ")) with 1%nat. change (length (str " 0x0 0x0")) with 8%nat. cbn [length]. lia.
Qed.

Section Dbgreq.
Context {D : Type} `{WatchFuncs D}.
Context (big : bool) (rom : Z -> bool) (lay : layout).
#[local] Set Default Proof Using "Type".

(** ** Registers *)

(** The index of the debugger's register number [adr].
    [src/pmon/debug.c:609-652] *)
Definition mapdbgreg (adr : Z) (c : client (D := D)) : Z :=
  if adr <? 32 then adr
  else if adr <? 64 then
    let adr := R_F0 + adr - 32 in
    if Z.land (Status c) SR_FR =? 0 then Z.ldiff adr 1 else adr
  else if adr =? 96 then R_EPC
  else if adr =? 97 then R_CAUSE
  else if adr =? 98 then R_HI
  else if adr =? 99 then R_LO
  else if adr =? 100 then R_FCR
  else 0.

Definition is_half (adr size : Z) : bool := (32 <=? adr) && (adr <? 64) && (size =? 4).

(** The word of a register that has the bits from 32 on ([hi]), or those below,
    in both byte orders. *)
Definition half_of (hi : bool) (v : Z) : Z := if hi then u32 (Z.shiftr (u64 v) 32) else u32 v.
Definition set_half (hi : bool) (w v : Z) : Z :=
  if hi then s64 (Z.shiftl (u32 w) 32 + u32 v) else s64 (u64 v - u32 v + u32 w).

(** [src/pmon/debug.c:654-676] *)
Definition getdbgreg (adr size : Z) (c : client) : Z :=
  let v := c_regs c (mapdbgreg adr c) in
  if is_half adr size then half_of (Z.odd adr) v else v.

Definition set_reg (i v : Z) (c : client (D := D)) : client :=
  set_regs (fun k => if k =? i then v else c_regs c k) c.

(** The old value, and the client. [src/pmon/debug.c:678-707] *)
Definition putdbgreg (adr size val : Z) (c : client) : Z * client :=
  let i := mapdbgreg adr c in
  if is_half adr size then
    (half_of (Z.odd adr) (c_regs c i), set_reg i (set_half (Z.odd adr) val (c_regs c i)) c)
  else (c_regs c i, if adr =? 0 then c else set_reg i (s64 val) c).

(** ** The stop report *)

(** The signal for an exception code. [src/pmon/debug.c:261-299] *)
Definition dbg_signal (exc : Z) : Z :=
  let e := exc / 4 in
  if (e =? 2) || (e =? 3) then 11
  else if (e =? 1) || (4 <=? e) && (e <=? 7) then 10
  else if e =? 9 then 5
  else if (e =? 8) || (e =? 10) || (e =? 11) then 4
  else if e =? 12 then 8
  else if (e =? 13) || (e =? 23) then 5
  else if e =? 15 then 8
  else if (e =? 14) || (e =? 31) then 15
  else 5.

(** [src/pmon/debug.c:216-217] *)
Definition wpflags : list string := ["" ; "w" ; "r" ; "rw" ; "x" ; "xw" ; "xr" ; "xrw"]%string.

(** The debugger: the client, whether the host knows the longer report, whether
    the program can come back by [gobuf], whether the line is open.
    [src/pmon/debug.c:93-101] *)
Record dbg : Type := mkDbg { d_client : client (D := D); newgdb : bool; gobufvalid : bool; hostopen : bool }.

Definition set_client (c : client) (d : dbg) : dbg := mkDbg c (newgdb d) (gobufvalid d) (hostopen d).

(** The message sent when the client stops; [hit], [hitaddr] and [hitlen] are
    what [_mips_watchpoint_hit] answers when a trace mode is set.
    [src/pmon/debug.c:222-313] *)
Definition stop_report (exited : bool) (hit hitaddr hitlen : Z) (d : dbg) : option cstr :=
  let c := d_client d in
  let req := match trace_mode c with TRACE_DS => ch "s" | TRACE_DC => ch "c" | _ => ch "b" end in
  let hit := match trace_mode c with TRACE_NO => 0 | _ => hit end in
  let sig := if req =? ch "b" then 5 else dbg_signal (Z.land (Cause c) 0x7c) in
  let stat := if exited then 0 else Z.lor (Z.shiftl sig 8) 0x7f in
  t ← sprintf "0x1 %c 0x0 0x%x" [AInt req; AInt stat];
  in_msg
    (if newgdb d then
       t2 ← sprintf " 0x%x 0x%x 0x%x" [AInt (Epc c); AInt (c_regs c 30); AInt (c_regs c 29)];
       if hit =? 0 then Some (t ++ t2)
       else
         t3 ← sprintf " 0x%x %s%d" [AInt hitaddr; AStr (Some (str (default EmptyString (wpflags !! Z.to_nat (Z.land hit 7))))); AInt hitlen];
         Some (t ++ t2 ++ t3)
     else Some t).

(** ** The requests *)

(** After a request the debugger waits for the next, the client runs, or remote
    debugging ends. *)
Inductive next : Type :=
| NGo
| NRun
| NExit.

Definition Answer : Type := option (list cstr * dbg * next).

Definition answer (t : option cstr) (d : dbg) : Answer := s ← in_msg t; Some ([s], d, NGo).

(** [src/pmon/debug.c:944-947] *)
Definition refuse (a0 a1 : cstr) (d : dbg) : Answer :=
  answer (sprintf "%s %s 0x%x 0x%x" [AStr (Some a0); AStr (Some a1); AInt (-1); AInt EINVAL]) d.

(** The reply to the requests on memory. *)
Definition mem_answer (a0 a1 : cstr) (ok : bool) (val : Z) (d : dbg) : Answer :=
  answer (sprintf "%s %s 0x%x 0x%x" [AStr (Some a0); AStr (Some a1); AInt (if ok then 0 else -1);
            AInt (if ok then u32 val else EFAULT)]) d.

(** [src/pmon/debug.c:745-777] *)
Definition read_req (n : Z) (a0 a1 : cstr) (adr : Z) (d : dbg) : Answer :=
  let m := c_mem (d_client d) in
  let val := if n =? 4 then load_word big m adr else if n =? 2 then load_half big m adr else load_byte m adr in
  mem_answer a0 a1 (good_adr n adr) val d.

(** The write; the old value reported for a half-word is that of its first byte.
    Stores to read-only memory are lost. [src/pmon/debug.c:813-848] *)
Definition write_req (n : Z) (a0 a1 : cstr) (adr dat : Z) (d : dbg) : Answer :=
  let c := d_client d in
  let m := c_mem c in
  if good_adr n adr then
    let val := if n =? 4 then load_word big m adr else load_byte m adr in
    let m' := if rom (Z.ldiff adr 3) then m
              else if n =? 4 then store_word big m adr dat
              else if n =? 2 then store_half big m adr dat else store_byte m adr dat in
    mem_answer a0 a1 true val (set_client (set_mem m' c) d)
  else mem_answer a0 a1 false 0 d.

(** The replies of a request for several registers: one each round, for the last
    register whose bit was set; before the first one the pointer is not set.
    [src/pmon/debug.c:789-811] *)
Fixpoint regs_loop (fmt : string) (wide : bool) (a0 a1 : cstr) (n : nat) (i adr : Z) (rp : option Z) (c : client (D := D))
  : option (list cstr) :=
  match n with
  | O => Some []
  | S n' =>
      let rp := if Z.odd adr then Some i else rp in
      r ← rp;
      t ← in_msg (sprintf fmt [AStr (Some a0); AStr (Some a1); AInt (if wide then c_regs c r else u32 (c_regs c r))]);
      ts ← regs_loop fmt wide a0 a1 n' (i + 1) (Z.shiftr adr 1) rp c;
      Some (t :: ts)
  end.

(** [src/pmon/debug.c:923-933] *)
Definition dobpt (w : Z) (a0 a1 : cstr) (adr dat : Z) (d : dbg) : Answer :=
  let '(ok, c) :=
    if at_ a1 0 =? ch "B" then let '(r, c) := setbpt lay w adr (u32 dat) (d_client d) in (bool_decide (r <> None), c)
    else clrbpt w adr (u32 dat) (d_client d) in
  if ok : bool then answer (sprintf "%s %s 0x0 0x0" [AStr (Some a0); AStr (Some a1)]) (set_client c d)
  else refuse a0 a1 (set_client c d).

(** [src/pmon/debug.c:888-940] *)
Definition bpt_req (a0 a1 a4 : cstr) (adr dat : Z) (d : dbg) : Answer :=
  let c := d_client d in
  let reply v := answer (sprintf "%s %s 0x0 0x%x" [AStr (Some a0); AStr (Some a1); AInt v]) d in
  let dobpt w := dobpt w a0 a1 adr dat d in
  let k := at_ a4 0 in
  if k =? ch "n" then reply (if found (c_watch c) then Z.of_nat (length (watchpoints (c_watch c))) else 0)
  else if k =? ch "q" then
    reply (if s32 adr <? 0 then 0 else default 0 (capabilities <$> watchpoints (c_watch c) !! Z.to_nat (s32 adr)))
  else if k =? ch "u" then
    if at_ a1 0 =? ch "B" then refuse a0 a1 d
    else answer (sprintf "%s %s 0x0 0x0" [AStr (Some a0); AStr (Some a1)])
           (mkDbg (clrbpts c) true (gobufvalid d) (hostopen d))
  else if k =? ch "x" then dobpt WP_X
  else if k =? ch "w" then dobpt WP_W
  else if k =? ch "r" then dobpt WP_R
  else if k =? ch "a" then dobpt (Z.lor WP_R WP_W)
  else if k =? ch "f" then dobpt 0
  else refuse a0 a1 d.

(** The pc for [s] and [c]. *)
Definition start_at (adr : Z) (c : client (D := D)) : client := if adr =? 1 then c else set_reg R_EPC adr c.

(** The switch on the letter of the request. [src/pmon/debug.c:744-949] *)
Definition request (k : Z) (a0 a1 : cstr) (a4 : option cstr) (adr dat : Z) (d : dbg) : Answer :=
  let c := d_client d in
  if (k =? ch "i") || (k =? ch "d") then read_req 4 a0 a1 adr d
  else if k =? ch "h" then read_req 2 a0 a1 adr d
  else if k =? ch "p" then read_req 1 a0 a1 adr d
  else if k =? ch "t" then answer (sprintf "%s %s 0x0 0x%llx" [AStr (Some a0); AStr (Some a1); AInt (getdbgreg adr 8 c)]) d
  else if k =? ch "r" then answer (sprintf "%s %s 0x0 0x%x" [AStr (Some a0); AStr (Some a1); AInt (u32 (getdbgreg adr 4 c))]) d
  else if k =? ch "u" then ts ← regs_loop "%s %s 0x0 0x%llx" true a0 a1 32 0 adr None c; Some (ts, d, NGo)
  else if k =? ch "g" then ts ← regs_loop "%s %s 0x0 0x%x" false a0 a1 32 0 adr None c; Some (ts, d, NGo)
  else if (k =? ch "I") || (k =? ch "D") then write_req 4 a0 a1 adr dat d
  else if k =? ch "H" then write_req 2 a0 a1 adr dat d
  else if k =? ch "P" then write_req 1 a0 a1 adr dat d
  else if k =? ch "T" then
    let '(v, c) := putdbgreg adr 8 dat c in
    answer (sprintf "%s %s 0x0 0x%llx" [AStr (Some a0); AStr (Some a1); AInt v]) (set_client c d)
  else if k =? ch "R" then
    let '(v, c) := putdbgreg adr 4 (s32 dat) c in
    answer (sprintf "%s %s 0x0 0x%x" [AStr (Some a0); AStr (Some a1); AInt (u32 v)]) (set_client c d)
  else if k =? ch "s" then Some ([], set_client (sstep big rom (start_at adr c)) d, NRun)
  else if k =? ch "c" then Some ([], set_client (godebug big rom (start_at adr c)) d, NRun)
  else if k =? ch "x" then
    s ← in_msg (sprintf "%s %s 0x0 0x0" [AStr (Some a0); AStr (Some a1)]);
    Some ([s], mkDbg (say [Printf "Exiting remote debug mode\r\n" []] (clrbpts (set_mode TRACE_NO (trace_count c) c))) false false false, NExit)
  else if (k =? ch "B") || (k =? ch "b") then
    match a4 with
    | None => refuse a0 a1 d
    | Some a4 => bpt_req a0 a1 a4 adr dat d
    end
  else refuse a0 a1 d.

(** What [llatob] leaves in [*vp]: a text with a bad digit leaves 0, one refused
    for its dots leaves the old value. [src/lib/atob.c:74-100] *)
Definition llatob_store (p : cstr) (old : Z) : Z :=
  match llatob p 0 with
  | Some v => v
  | None =>
      let '(p, base) := _getbase p in
      let '(p, base) :=
        if (at_ p 0 =? ch "0") && ((at_ p 1 =? ch "x") || (at_ p 1 =? ch "X")) then (drop 2 p, 16) else (p, base) in
      if (base =? 16) && bool_decide (strchr (Some p) (ch ".") <> None) then old else 0
  end.

(** The replies in the order they are sent, the new state, and what follows.
    [junk1] and [junk2] are what [adr] and [dat] hold before they are set: a
    number that cannot be read leaves them. [None]: a buffer is overrun, or a
    pointer is used that was not set. [src/pmon/debug.c:714-950] *)
Definition do_req (junk1 junk2 : Z) (av : list cstr) (d : dbg) : Answer :=
  match av with
  | a0 :: a1 :: av' =>
      match av' with
      | a2 :: a3 :: av'' =>
          if negb (at_ a1 1 =? 0) then refuse a0 a1 d
          else request (at_ a1 0) a0 a1 (hd_error av'') (default junk1 (atob a2 0)) (llatob_store a3 junk2) d
      | _ => refuse a0 a1 d
      end
  | _ => None
  end.

(** One round of the loop of [dbgmode]: a message is taken from the line, split
    into words and answered, each reply through [putmsg]. [src/pmon/debug.c:314-318] *)
Fixpoint put_all (ts : list cstr) (l : link) (sent : list Z) (evs : list rxev) : option (link * list Z * list rxev) :=
  match ts with
  | [] => Some (l, sent, evs)
  | t :: ts' => '(l, f, evs) ← putmsg t l evs; put_all ts' l (sent ++ f) evs
  end.

(** [src/pmon/debug.c:314-318] *)
Definition dbg_round (junk1 junk2 : Z) (l : link) (evs : list rxev) (d : dbg)
  : option (link * list Z * list rxev * dbg * next) :=
  '(msg, l, f1, evs) ← getmsg l evs;
  let av := argvize (take_while_nonzero msg) in
  if (RXARG <? length av)%nat then None
  else
    '(ts, d, nx) ← do_req junk1 junk2 av d;
    '(l, f2, evs) ← put_all ts l f1 evs;
    Some (l, f2, evs, d, nx).

(** ** What a request changes *)

Lemma clrbpt_mem w a n c : c_mem (clrbpt w a n c).2 = c_mem c.
Proof.
  unfold clrbpt. destruct (list_find _ _) as [[j b]|]; [|done]. destruct (w =? 0); cbn [c_mem set_watch];
    destruct (free_cmd _) as [b' f]; done.
Qed.

Lemma setbpt_mem w a n c : c_mem (setbpt lay w a n c).2 = c_mem c.
Proof.
  unfold setbpt. rewrite <- (clrbpt_mem w a n c). destruct (clrbpt w a n c) as [ok c1]. cbn [snd].
  destruct (list_find _ _) as [[j b]|]; [|done]. destruct (w =? 0).
  - by case_bool_decide.
  - destruct (watchpoint_set _ _ _ _ _ _ _) as [res ws]. by case_bool_decide.
Qed.

Lemma say_mem o (c : client (D := D)) : c_mem (say o c) = c_mem c.
Proof. done. Qed.

Lemma clear_one_mem i c : c_mem (clear_one i c) = c_mem c.
Proof.
  unfold clear_one. destruct (Bpt c !! i) as [b|]; [|done]. destruct (_ && _); cbn [c_mem set_watch]; by destruct (free_cmd _).
Qed.

Lemma clrbpts_mem c : c_mem (clrbpts c) = c_mem c.
Proof.
  unfold clrbpts. generalize (seq 0 MAX_BPT) as l. intros l. revert c. induction l as [|i l IH]; intros c; [done|]. cbn [fold_left].
  by rewrite IH, clear_one_mem.
Qed.

Lemma putdbgreg_mem adr size val c : c_mem (putdbgreg adr size val c).2 = c_mem c.
Proof. unfold putdbgreg. destruct (is_half adr size); [done|]. by destruct (adr =? 0). Qed.

(** A reply was sent and the memory is as before. *)
Definition kept (d : dbg) (A : Answer) : Prop :=
  match A with
  | Some (ts, d', nx) => nx <> NRun /\ (length ts = 1%nat \/ length ts = 32%nat) /\ c_mem (d_client d') = c_mem (d_client d)
  | None => True
  end.

Lemma answer_kept t d d' : c_mem (d_client d') = c_mem (d_client d) -> kept d (answer t d').
Proof. intros E. unfold answer. destruct (in_msg t); cbn; auto. Qed.

Lemma regs_loop_length fmt wide a0 a1 n i adr rp c ts : regs_loop fmt wide a0 a1 n i adr rp c = Some ts -> length ts = n.
Proof.
  revert i adr rp ts. induction n as [|n IH]; intros i adr rp ts Hr; cbn [regs_loop] in Hr; [by simplify_eq|].
  destruct (if Z.odd adr then Some i else rp) as [r|] eqn:Er; [|done]. cbn [mbind option_bind] in Hr.
  destruct (in_msg _) as [t|]; [|done]. cbn [mbind option_bind] in Hr.
  destruct (regs_loop _ _ _ _ _ _ _ _ _) as [ts'|] eqn:E; [|done]. cbn in Hr. simplify_eq. cbn. f_equal. by eapply IH.
Qed.

Lemma regs_kept fmt wide a0 a1 adr d :
  kept d (ts ← regs_loop fmt wide a0 a1 32 0 adr None (d_client d); Some (ts, d, NGo)).
Proof.
  destruct (regs_loop _ _ _ _ _ _ _ _ _) as [ts|] eqn:E; [|done]. apply regs_loop_length in E. cbn [mbind option_bind kept]. auto.
Qed.

Lemma dobpt_kept w a0 a1 adr dat d : kept d (dobpt w a0 a1 adr dat d).
Proof.
  unfold dobpt. destruct (at_ a1 0 =? ch "B").
  - pose proof (setbpt_mem w adr (u32 dat) (d_client d)) as E. destruct (setbpt _ _ _ _ _) as [r c].
    case_bool_decide; by apply answer_kept.
  - pose proof (clrbpt_mem w adr (u32 dat) (d_client d)) as E. destruct (clrbpt _ _ _ _) as [[] c]; by apply answer_kept.
Qed.

Lemma bpt_req_kept a0 a1 a4 adr dat d : kept d (bpt_req a0 a1 a4 adr dat d).
Proof.
  unfold bpt_req. cbv zeta.
  repeat match goal with |- kept _ (if ?b then _ else _) => destruct b end;
    try apply dobpt_kept; apply answer_kept; try done. apply clrbpts_mem.
Qed.

(** A request that writes memory. *)
Definition is_write (k : Z) : option Z :=
  if (k =? ch "I") || (k =? ch "D") then Some 4 else if k =? ch "H" then Some 2 else if k =? ch "P" then Some 1 else None.

Lemma request_kept k a0 a1 a4 adr dat d :
  is_write k = None -> k <> ch "s" -> k <> ch "c" -> kept d (request k a0 a1 a4 adr dat d).
Proof.
  unfold is_write, request. intros Hw Hs Hc. cbv zeta. rewrite (proj2 (Z.eqb_neq _ _) Hs), (proj2 (Z.eqb_neq _ _) Hc).
  repeat match goal with |- kept _ (if ?b then _ else _) => destruct b eqn:? end;
    match goal with
    | |- kept _ (regs_loop _ _ _ _ _ _ _ _ _ ≫= _) => apply regs_kept
    | |- kept _ (write_req _ _ _ _ _ _) => exfalso; simplify_eq
    | |- kept _ (match a4 with _ => _ end) => destruct a4; [apply bpt_req_kept|by apply answer_kept]
    | |- kept _ (let '(_, _) := putdbgreg ?a ?n ?v ?c in _) =>
        pose proof (putdbgreg_mem a n v c); destruct (putdbgreg a n v c); by apply answer_kept
    | |- kept _ (in_msg ?t ≫= _) => destruct (in_msg t); [|done]; cbn [mbind option_bind kept]
    | |- _ => by apply answer_kept
    end.
  split; [done|]. split; [by left|]. cbn [d_client]. rewrite say_mem, clrbpts_mem. done.
Qed.

Lemma write_req_changes n a0 a1 adr dat d ts d' nx : n = 1 \/ n = 2 \/ n = 4 ->
  write_req n a0 a1 adr dat d = Some (ts, d', nx) ->
  nx = NGo /\ length ts = 1%nat /\
  forall x, c_mem (d_client d') x <> c_mem (d_client d) x ->
    good_adr n adr = true /\ adr <= x < adr + n /\ rom (Z.ldiff x 3) = false.
Proof.
  intros Hn Hr. unfold write_req, mem_answer, answer in Hr. destruct (good_adr n adr) eqn:Hg.
  - destruct (in_msg _) as [t|]; [|done]. cbn in Hr. injection Hr as <- <- <-. split; [done|]. split; [done|].
    intros x Hx. split; [done|]. destruct (good_adr_spec n adr Hn Hg) as [Hk Ha]. unfold K0BASE, K2BASE in Hk. cbn [d_client set_client c_mem set_mem] in Hx.
    destruct (rom (Z.ldiff adr 3)) eqn:Erom; [done|].
    assert (exists bs, Z.of_nat (length bs) = n /\
      (if n =? 4 then store_word big (c_mem (d_client d)) adr dat
       else if n =? 2 then store_half big (c_mem (d_client d)) adr dat else store_byte (c_mem (d_client d)) adr dat) =
      store_bytes (c_mem (d_client d)) adr bs) as (bs & Hl & E).
    { destruct Hn as [-> |[-> | ->]]; [exists [u8 dat]|exists (bytes_of big 2 dat)|exists (bytes_of big 4 dat)];
        rewrite ?bytes_of_length; done. }
    rewrite E in Hx. assert (adr <= x < adr + n) as Hin.
    { rewrite store_bytes_at in Hx by (split; [lia|]; change (2 ^ 32) with 4294967296; lia).
      destruct (Z.leb_spec adr x), (Z.ltb_spec x (adr + Z.of_nat (length bs))); cbn [andb] in Hx; try done; lia. }
    split; [done|]. by rewrite (same_word n adr x).
  - destruct (in_msg _) as [t|]; [|done]. cbn in Hr. injection Hr as <- <- <-. done.
Qed.

Lemma is_write_req k n a0 a1 a4 adr dat d : is_write k = Some n ->
  request k a0 a1 a4 adr dat d = write_req n a0 a1 adr dat d /\ (n = 1 \/ n = 2 \/ n = 4).
Proof.
  unfold is_write. intros Hw. destruct ((k =? ch "I") || (k =? ch "D")) eqn:E1; [|destruct (k =? ch "H") eqn:E2; [|destruct (k =? ch "P") eqn:E3; [|done]]];
    simplify_eq; (split; [|auto]).
  - apply orb_true_iff in E1 as [E1|E1]; apply Z.eqb_eq in E1 as ->; reflexivity.
  - apply Z.eqb_eq in E2 as ->. reflexivity.
  - apply Z.eqb_eq in E3 as ->. reflexivity.
Qed.

(** What a request that does not let the client run may do. *)
Definition confined (av : list cstr) (d : dbg) (ts : list cstr) (d' : dbg) (nx : next) : Prop :=
  nx <> NRun /\ (length ts = 1%nat \/ length ts = 32%nat) /\
  forall x, c_mem (d_client d') x <> c_mem (d_client d) x ->
    K0BASE <= x < K2BASE /\ rom (Z.ldiff x 3) = false /\
    exists a1 n, av !! 1%nat = Some a1 /\ is_write (at_ a1 0) = Some n.

Lemma kept_confined av d A ts d' nx : kept d A -> A = Some (ts, d', nx) -> confined av d ts d' nx.
Proof. intros Hk ->. destruct Hk as (H1 & H2 & E). split; [exact H1|]. split; [exact H2|]. rewrite E. by intros x []. Qed.

Lemma write_confined a0 a1 av n adr dat d ts d' nx : is_write (at_ a1 0) = Some n -> n = 1 \/ n = 2 \/ n = 4 ->
  write_req n a0 a1 adr dat d = Some (ts, d', nx) -> confined (a0 :: a1 :: av) d ts d' nx.
Proof.
  intros Ew Hn Hr. apply write_req_changes in Hr as (-> & Hl & Hx); [|done]. split; [done|]. split; [by left|].
  intros x Hne. destruct (Hx x Hne) as (Hg & Hin & Hrom). apply good_adr_spec in Hg as [Hg Ha]; [|done]. split; [|split; [done|by exists a1, n]].
  unfold K0BASE, K2BASE in *. destruct Hn as [-> |[-> | ->]]; Z.to_euclidean_division_equations; lia.
Qed.

Lemma run_confined k a0 a1 a4 adr dat d ts d' nx : k = ch "s" \/ k = ch "c" ->
  request k a0 a1 a4 adr dat d = Some (ts, d', nx) -> nx = NRun /\ ts = [].
Proof.
  assert (forall d1, Some ([] : list cstr, d1, NRun) = Some (ts, d', nx) -> nx = NRun /\ ts = []) as Hr by (intros d1 [= <- _ <-]; done).
  intros [-> | ->]; apply Hr.
Qed.

(** Short words get an answer. *)
#[local] Opaque sprintf in_msg.

Lemma answer_some t d : in_msg t <> None -> answer t d <> None.
Proof. unfold answer. by destruct (in_msg t). Qed.

Ltac fits :=
  apply answer_some;
  match goal with
  | |- in_msg (sprintf "%s %s 0x0 0x%x"%string _) <> None => by apply fits_x
  | |- in_msg (sprintf "%s %s 0x0 0x%llx"%string _) <> None => by apply fits_llx
  | |- in_msg (sprintf "%s %s 0x0 0x0"%string _) <> None => by apply fits_zero
  end.

Lemma refuse_some a0 a1 d : (length a0 + length a1 <= 50)%nat -> refuse a0 a1 d <> None.
Proof. intros Hl. apply answer_some. by rewrite in_msg_reply. Qed.

Lemma mem_answer_some a0 a1 ok v d : (length a0 + length a1 <= 50)%nat -> mem_answer a0 a1 ok v d <> None.
Proof. intros Hl. apply answer_some. by rewrite in_msg_reply. Qed.

Lemma dobpt_some w a0 a1 adr dat d : (length a0 + length a1 <= 50)%nat -> dobpt w a0 a1 adr dat d <> None.
Proof.
  intros Hl. unfold dobpt. destruct (if at_ a1 0 =? ch "B" then _ else _) as [[] c];
    [apply answer_some, fits_zero|apply refuse_some]; done.
Qed.

Lemma bpt_req_some a0 a1 a4 adr dat d : (length a0 + length a1 <= 50)%nat -> bpt_req a0 a1 a4 adr dat d <> None.
Proof.
  intros Hl. unfold bpt_req. cbv zeta.
  repeat match goal with |- (if ?b then _ else _) <> None => destruct b end;
    match goal with
    | |- dobpt _ _ _ _ _ _ <> None => by apply dobpt_some
    | |- refuse _ _ _ <> None => by apply refuse_some
    | |- _ => fits
    end.
Qed.

Lemma regs_loop_some (wide : bool) a0 a1 n i adr rp c : (length a0 + length a1 <= 50)%nat -> rp <> None \/ Z.odd adr = true ->
  regs_loop (if wide then "%s %s 0x0 0x%llx" else "%s %s 0x0 0x%x")%string wide a0 a1 n i adr rp c <> None.
Proof.
  intros Hl. revert i adr rp. induction n as [|n IH]; intros i adr rp Hr; cbn [regs_loop]; [done|].
  destruct (if Z.odd adr then Some i else rp) as [r|] eqn:E; cbn [mbind option_bind].
  2: { destruct Hr as [Hr|Hr]; [by destruct (Z.odd adr)|by rewrite Hr in E]. }
  pose proof (fits_value wide a0 a1 (if wide then c_regs c r else u32 (c_regs c r)) Hl) as Hf.
  destruct (in_msg _); [|done]. cbn [mbind option_bind].
  pose proof (IH (i + 1) (Z.shiftr adr 1) (Some r)) as Hgo.
  destruct (regs_loop _ _ _ _ _ _ _ _ _); [done|]. exfalso. by apply Hgo; [left|].
Qed.

(** The requests for several registers. *)
Definition asks_registers (k : Z) : Prop := k = ch "u" \/ k = ch "g".

Lemma request_some k a0 a1 a4 adr dat d : (length a0 + length a1 <= 50)%nat ->
  (asks_registers k -> Z.odd adr = true) -> request k a0 a1 a4 adr dat d <> None.
Proof.
  intros Hl Hk. unfold request. cbv zeta.
  repeat match goal with |- (if ?b then _ else _) <> None => destruct b eqn:? end;
    try match goal with
    | |- read_req _ _ _ _ _ <> None => by apply mem_answer_some
    | |- write_req _ _ _ _ _ _ <> None => unfold write_req; destruct (good_adr _ _); by apply mem_answer_some
    | |- (match a4 with _ => _ end) <> None => destruct a4; [by apply bpt_req_some|by apply refuse_some]
    | |- (let '(_, _) := putdbgreg ?a ?n ?v ?c in _) <> None => destruct (putdbgreg a n v c); fits
    | |- refuse _ _ _ <> None => by apply refuse_some
    | |- answer _ _ <> None => fits
    | |- Some _ <> None => discriminate
    end.
  - pose proof (regs_loop_some true a0 a1 32 0 adr None (d_client d) Hl) as Hr.
    destruct (regs_loop _ _ _ _ _ _ _ _ _); [done|]. exfalso. apply Hr; [right; apply Hk; left; lia|done].
  - pose proof (regs_loop_some false a0 a1 32 0 adr None (d_client d) Hl) as Hr.
    destruct (regs_loop _ _ _ _ _ _ _ _ _); [done|]. exfalso. apply Hr; [right; apply Hk; right; lia|done].
  - pose proof (fits_zero a0 a1 Hl). by destruct (in_msg _).
Qed.

(** What the code does is not defined: there are less than two words, the first
    two are too long for the reply, or several registers are asked for and the
    first is not among them. *)
Definition undefined_req (junk1 : Z) (av : list cstr) : Prop :=
  match av with
  | a0 :: a1 :: av' =>
      (50 < length a0 + length a1)%nat \/
      exists a2 a3 av'', av' = a2 :: a3 :: av'' /\ asks_registers (at_ a1 0) /\ Z.odd (default junk1 (atob a2 0)) = false
  | _ => True
  end.

Lemma do_req_some junk1 junk2 av d : do_req junk1 junk2 av d = None -> undefined_req junk1 av.
Proof.
  destruct av as [|a0 [|a1 av]]; [done..|]. cbn [do_req undefined_req]. intros Hr.
  destruct (Nat.ltb_spec 50 (length a0 + length a1)) as [|Hl]; [by left|]. right.
  destruct av as [|a2 [|a3 av]]; [by apply refuse_some in Hr..|]. destruct (negb _); [by apply refuse_some in Hr|].
  exists a2, a3, av. split; [done|]. destruct (Z.odd (default junk1 (atob a2 0))) eqn:Eo.
  { exfalso. by eapply (request_some (at_ a1 0) a0 a1 (hd_error av)); [exact Hl| |exact Hr]. }
  split; [|done]. destruct (decide (at_ a1 0 = ch "u")); [by left|]. destruct (decide (at_ a1 0 = ch "g")); [by right|].
  exfalso. eapply (request_some (at_ a1 0) a0 a1 (hd_error av)); [exact Hl| |exact Hr]. by intros [?|?].
Qed.

Lemma do_req_confined (junk1 junk2 : Z) (av : list cstr) (d d' : dbg) (ts : list cstr) (nx : next)
  (Hreq : do_req junk1 junk2 av d = Some (ts, d', nx)) :
  nx = NRun /\ ts = [] \/ confined av d ts d' nx.
Proof.
  destruct av as [|a0 [|a1 av]]; [discriminate Hreq..|]. cbn [do_req] in Hreq.
  assert (kept d (refuse a0 a1 d)) as Hrf by (by apply answer_kept).
  destruct av as [|a2 [|a3 av]]; [right; exact (kept_confined _ _ _ _ _ _ Hrf Hreq)..|].
  destruct (negb _); [right; exact (kept_confined _ _ _ _ _ _ Hrf Hreq)|].
  destruct (is_write (at_ a1 0)) as [n|] eqn:Ew.
  - match type of Hreq with request _ _ _ ?a4 ?adr ?dat _ = _ => destruct (is_write_req (at_ a1 0) n a0 a1 a4 adr dat d Ew) as [E Hn] end.
    rewrite E in Hreq. right. exact (write_confined _ _ _ _ _ _ _ _ _ _ Ew Hn Hreq).
  - destruct (decide (at_ a1 0 = ch "s" \/ at_ a1 0 = ch "c")) as [Es|Es]; [left; exact (run_confined _ _ _ _ _ _ _ _ _ _ Es Hreq)|].
    right. eapply kept_confined; [|exact Hreq]. apply request_kept; [exact Ew|tauto|tauto].
Qed.


#[local] Transparent sprintf in_msg.

(** What the debugger writes it reads back: after a request to write a word of
    memory at an address of the unmapped segments, aligned and not read-only, the
    request to read it answers the value written, in hexadecimal, with the status
    0; the write itself answers the old value. *)
Theorem dbg_write_read (junk1 junk2 adr dat : Z) (a0 a2 a3 a3' : cstr) (d : dbg)
  (Ha : atob a2 0 = Some adr) (Hd : llatob a3 0 = Some dat) (Hg : good_adr 4 adr = true) (Hrom : rom adr = false)
  (Hl : (length a0 <= 40)%nat) :
  exists d1,
    do_req junk1 junk2 [a0; str "D"; a2; a3] d =
      Some ([a0 ++ str " D 0x0 0x" ++ btoa (word big (c_mem (d_client d)) adr) 16], d1, NGo) /\
    do_req junk1 junk2 [a0; str "d"; a2; a3'] d1 = Some ([a0 ++ str " d 0x0 0x" ++ btoa (u32 dat) 16], d1, NGo) /\
    c_mem (d_client d1) = store_word big (c_mem (d_client d)) adr dat.
Proof.
  destruct (good_adr_spec 4 adr ltac:(auto) Hg) as [_ Hal].
  assert (Z.ldiff adr 3 = adr) as E3 by (rewrite low_bits; Z.to_euclidean_division_equations; lia).
  exists (set_client (set_mem (store_word big (c_mem (d_client d)) adr dat) (d_client d)) d). split; [|split; [|done]].
  - unfold do_req. rewrite Ha. unfold llatob_store at 1. rewrite Hd. cbn [default].
    change (write_req 4 a0 (str "D") adr dat d = Some ([a0 ++ str " D 0x0 0x" ++ btoa (word big (c_mem (d_client d)) adr) 16],
      set_client (set_mem (store_word big (c_mem (d_client d)) adr dat) (d_client d)) d, NGo)).
    unfold write_req, mem_answer, answer. rewrite Hg, E3, Hrom. cbn [Z.eqb Pos.eqb].
    rewrite in_msg_reply by (cbn; lia). rewrite wrapu_wrapu. reflexivity.
  - unfold do_req. rewrite Ha. cbn [default]. set (d1 := set_client _ d).
    change (read_req 4 a0 (str "d") adr d1 = Some ([a0 ++ str " d 0x0 0x" ++ btoa (u32 dat) 16], d1, NGo)).
    unfold read_req, mem_answer, answer. rewrite Hg. cbn [Z.eqb Pos.eqb d1 d_client set_client c_mem set_mem].
    rewrite load_store_word_back. rewrite in_msg_reply by (cbn; lia). rewrite wrapu_wrapu, wrapu_wraps. reflexivity.
Qed.
End Dbgreq.

(** ** Examples *)

Definition dbg0 : dbg (D := r4k) := mkDbg (client0 bpt0) false true true.
Definition lay0 : layout := mkLayout 0 0 0 0 0.

(** A write of a byte. *)
Example dbg_req_byte :
  match do_req true (fun _ => false) lay0 0 0 [str "1"; str "P"; str "0x80020001"; str "0x41"] dbg0 with
  | Some (ts, d', NGo) => ts = [str "1 P 0x0 0x0"] /\ c_mem (d_client d') 0x80020001 = 0x41
  | _ => False
  end.
Proof. vm_compute. split; reflexivity. Qed.

Lemma dbg_write_read_witness :
  exists d1,
    do_req true (fun _ => false) lay0 0 0 [str "1"; str "D"; str "0x80020000"; str "0x12345678"] dbg0 = Some ([str "1" ++ str " D 0x0 0x" ++ btoa (word true (c_mem (d_client dbg0)) 0x80020000) 16], d1, NGo) /\
    do_req true (fun _ => false) lay0 0 0 [str "1"; str "d"; str "0x80020000"; str "0"] d1 = Some ([str "1" ++ str " d 0x0 0x" ++ btoa (u32 0x12345678) 16], d1, NGo) /\
    c_mem (d_client d1) = store_word true (c_mem (d_client dbg0)) 0x80020000 0x12345678.
Proof.
  apply (dbg_write_read true (fun _ => false) lay0 0 0 0x80020000 0x12345678 (str "1") (str "0x80020000") (str "0x12345678") (str "0") dbg0);
    [reflexivity..|cbn; lia].
Defined.

(** ** Defects *)

(** With 32-bit floating-point registers ([SR_FR] clear) the index of the even
    register of a pair is computed by clearing a bit of the index in the table,
    and the table of floating-point registers starts at an odd index: register
    [$f0] is the word before the table ([R_INFO]), and [$f2] is [$f1]. *)
Lemma fp_registers_shifted (c : client (D := r4k)) : Z.land (Status c) SR_FR = 0 ->
  mapdbgreg 32 c = 62 /\ mapdbgreg 34 c = R_F0 + 1 /\ mapdbgreg 33 c = R_F0 + 1.
Proof. intros E. unfold mapdbgreg. rewrite E. done. Qed.

(** A request for several registers that does not ask for [$0] uses a pointer
    that was not set. *)
Lemma regs_pointer_unset (a0 a1 : cstr) (adr : Z) (d : dbg (D := r4k)) : Z.odd adr = false ->
  request true (fun _ => false) lay0 (ch "g") a0 a1 None adr 0 d = None.
Proof.
  intros E. change ((ts ← regs_loop "%s %s 0x0 0x%x" false a0 a1 32 0 adr None (d_client d); Some (ts, d, NGo)) = None).
  cbn [regs_loop]. by rewrite E.
Qed.
