(* ===== verification/Getopt.v ===== *)
(** * Getopt: the options of a command

    [src/lib/getopt.c]: one call takes the next option letter of the words of a
    command; the commands call it until it answers [EOF], after setting [optind]
    to 0.

    The theorem: the calls end, and give the options that a command line was built
    from, whatever way they are grouped and their arguments attached, and leave
    [optind] at the first word that is not an option. *)

From S2P Require Import Prelude CString.

Definition EOF : Z := -1.
(** [src/lib/getopt.c:51] *)
Definition BADCH : Z := ch "?".

(** [src/lib/getopt.c:46-60] *)
Record gopt : Type := mkGopt { optind : nat; optarg : cptr; place : cstr; g_out : trace }.

(** The name of the program in a report: after the last slash. *)
Definition progname (av : list cstr) : cptr :=
  let p := default [] (av !! 0%nat) in
  Some (match strrchr (Some p) (ch "/") with Some i => drop (S i) p | None => p end).

Definition complain (fmt : string) (av : list cstr) (c : Z) : trace := [Printf fmt [AStr (progname av); AInt c]].

(** The part once [place] points at a letter. [src/lib/getopt.c:80-125] *)
Definition getopt_letter (av : list cstr) (ostr : cstr) (g : gopt) : Z * gopt :=
  let optopt := at_ (place g) 0 in
  let pl := drop 1 (place g) in
  match (if optopt =? ch ":" then None else index (Some ostr) optopt) with
  | None =>
      if optopt =? ch "-" then (EOF, mkGopt (optind g) (optarg g) pl (g_out g))
      else (BADCH, mkGopt (if (length pl =? 0)%nat then S (optind g) else optind g) (optarg g) pl
                     (g_out g ++ complain "%s: illegal option -- %c\n" av optopt))
  | Some oli =>
      if negb (at_ ostr (S oli) =? ch ":") then
        (optopt, mkGopt (if (length pl =? 0)%nat then S (optind g) else optind g) None pl (g_out g))
      else if negb (length pl =? 0)%nat then (optopt, mkGopt (S (optind g)) (Some pl) [] (g_out g))
      else
        match av !! S (optind g) with
        | None => (BADCH, mkGopt (S (optind g)) (optarg g) []
                            (g_out g ++ complain "%s: option requires an argument -- %c\n" av optopt))
        | Some a => (optopt, mkGopt (S (S (optind g))) (Some a) [] (g_out g))
        end
  end.

(** [src/lib/getopt.c:54-126] *)
Definition getopt (av : list cstr) (ostr : cstr) (g : gopt) : Z * gopt :=
  let g := if (optind g =? 0)%nat then mkGopt 1 (optarg g) [] (g_out g) else g in
  match place g with
  | [] =>
      match av !! optind g with
      | None => (EOF, mkGopt (optind g) (optarg g) [] (g_out g))
      | Some w =>
          if negb (at_ w 0 =? ch "-") then (EOF, mkGopt (optind g) (optarg g) [] (g_out g))
          else if at_ w 1 =? 0 then getopt_letter av ostr (mkGopt (optind g) (optarg g) w (g_out g))
          else if at_ w 1 =? ch "-" then (EOF, mkGopt (S (optind g)) (optarg g) [] (g_out g))
          else getopt_letter av ostr (mkGopt (optind g) (optarg g) (drop 1 w) (g_out g))
      end
  | _ :: _ => getopt_letter av ostr g
  end.

(** The loop of the commands: the letters with their arguments, and the state at
    the end. *)
Fixpoint getopts (fuel : nat) (av : list cstr) (ostr : cstr) (g : gopt) : option (list (Z * cptr) * gopt) :=
  match fuel with
  | O => None
  | S f =>
      let '(c, g) := getopt av ostr g in
      if c =? EOF then Some ([], g)
      else '(l, g') ← getopts f av ostr g; Some ((c, optarg g) :: l, g')
  end.

(** The loop with what a command does for each letter: it changes its variables,
    or returns. The words after the options are what [optind] leaves. *)
Fixpoint getopt_each {S R : Type} (body : Z -> cptr -> S -> S + R * trace) (fuel : nat) (av : list cstr) (ostr : cstr)
  (s : S) (g : gopt) : option (S * gopt + R * trace) :=
  match fuel with
  | O => None
  | Datatypes.S f =>
      let '(c, g) := getopt av ostr g in
      if c =? EOF then Some (inl (s, g))
      else
        match body c (optarg g) s with
        | inl s => getopt_each body f av ostr s g
        | inr (r, t) => Some (inr (r, g_out g ++ t))
        end
  end.

Definition gopt0 : gopt := mkGopt 0 None [] [].

(** ** Command lines *)

(** A word of options: some letters without an argument, and perhaps one with an
    argument, in the same word or the next. *)
Inductive lastopt : Type :=
| LNone
| LJoined (c : Z) (a : cstr)
| LSep (c : Z) (a : cstr).

Record optword : Type := mkOptword { flags : list Z; last_ : lastopt }.

Definition words_of (o : optword) : list cstr :=
  match last_ o with
  | LNone => [ch "-" :: flags o]
  | LJoined c a => [ch "-" :: flags o ++ c :: a]
  | LSep c a => [ch "-" :: flags o ++ [c]; a]
  end.

Definition opts_of (o : optword) : list (Z * cptr) :=
  ((fun c => (c, None)) <$> flags o) ++
  match last_ o with LNone => [] | LJoined c a | LSep c a => [(c, Some a)] end.

(** The letters are in the list of options and take an argument or not. *)
Definition takes (ostr : cstr) (c : Z) (arg : bool) : Prop :=
  c <> ch ":" /\ c <> ch "-" /\ c <> 0 /\ c <> EOF /\
  exists i, index (Some ostr) c = Some i /\ (at_ ostr (S i) =? ch ":") = arg.

Definition optword_ok (ostr : cstr) (o : optword) : Prop :=
  Forall (fun c => takes ostr c false) (flags o) /\
  match last_ o with
  | LNone => flags o <> []
  | LJoined c a => takes ostr c true /\ a <> []
  | LSep c _ => takes ostr c true
  end.

(** The words after the options. *)
Definition operands (ws : list cstr) : Prop := match ws with [] => True | w :: _ => at_ w 0 <> ch "-" end.

(** ** The calls *)

Section Getopt.
Context (av : list cstr) (ostr : cstr).
#[local] Set Default Proof Using "Type".

(** From state [g] the options [l] come next and lead to [g']. *)
Definition runs (g : gopt) (l : list (Z * cptr)) (g' : gopt) : Prop :=
  forall fuel, getopts (length l + fuel) av ostr g = '(l', e) ← getopts fuel av ostr g'; Some (l ++ l', e).

Lemma runs_nil g : runs g [] g.
Proof. intros fuel. cbn. by destruct (getopts fuel av ostr g) as [[l' e]|]. Qed.

Lemma runs_app g1 l1 g2 l2 g3 : runs g1 l1 g2 -> runs g2 l2 g3 -> runs g1 (l1 ++ l2) g3.
Proof.
  intros H1 H2 fuel. rewrite length_app, <- Nat.add_assoc, H1, H2. destruct (getopts fuel av ostr g3) as [[l e]|]; [|done].
  cbn. by rewrite app_assoc.
Qed.

Lemma runs_one g c oa g' : getopt av ostr g = (c, g') -> optarg g' = oa -> c <> EOF -> runs g [(c, oa)] g'.
Proof.
  intros E Eo Hc fuel. cbn [length Nat.add getopts]. rewrite E, (proj2 (Z.eqb_neq _ _) Hc), Eo.
  by destruct (getopts fuel av ostr g') as [[l' e]|].
Qed.

Lemma letter_ok c b : takes ostr c b -> exists i, (if c =? ch ":" then None else index (Some ostr) c) = Some i /\ (at_ ostr (S i) =? ch ":") = b.
Proof. intros (H1 & _ & _ & _ & i & H2 & H3). exists i. by rewrite (proj2 (Z.eqb_neq _ _) H1). Qed.

(** One letter of a word. *)
Lemma getopt_flag i oa c pl out : takes ostr c false -> (0 < i)%nat ->
  getopt av ostr (mkGopt i oa (c :: pl) out) = (c, mkGopt (if (length pl =? 0)%nat then S i else i) None pl out).
Proof.
  intros Ht Hi. destruct (letter_ok c false Ht) as (k & E1 & E2). unfold getopt. cbn [optind place].
  rewrite (proj2 (Nat.eqb_neq i 0)) by lia. unfold getopt_letter. cbn [place optind]. change (at_ (c :: pl) 0) with c.
  rewrite E1, E2. done.
Qed.

Lemma getopt_arg i oa c pl out : takes ostr c true -> (0 < i)%nat ->
  getopt av ostr (mkGopt i oa (c :: pl) out) =
  if negb (length pl =? 0)%nat then (c, mkGopt (S i) (Some pl) [] out)
  else match av !! S i with
       | Some a => (c, mkGopt (S (S i)) (Some a) [] out)
       | None => (BADCH, mkGopt (S i) oa [] (out ++ complain "%s: option requires an argument -- %c\n" av c))
       end.
Proof.
  intros Ht Hi. destruct (letter_ok c true Ht) as (k & E1 & E2). unfold getopt. cbn [optind place].
  rewrite (proj2 (Nat.eqb_neq i 0)) by lia. unfold getopt_letter. cbn [place optind optarg g_out]. change (at_ (c :: pl) 0) with c.
  rewrite E1, E2. done.
Qed.

(** The start of a word of options. *)
Lemma getopts_word i oa out c pl fuel : (0 < i)%nat -> av !! i = Some (ch "-" :: c :: pl) -> c <> 0 -> c <> ch "-" ->
  getopts fuel av ostr (mkGopt i oa [] out) = getopts fuel av ostr (mkGopt i oa (c :: pl) out).
Proof.
  intros Hi Hw H0 H1. destruct fuel as [|f]; [done|]. cbn [getopts]. replace (getopt av ostr (mkGopt i oa [] out))
    with (getopt av ostr (mkGopt i oa (c :: pl) out)); [done|].
  unfold getopt. cbn [optind place optarg g_out]. rewrite (proj2 (Nat.eqb_neq i 0)) by lia. cbn [place optind]. rewrite Hw.
  change (at_ (ch "-" :: c :: pl) 0 =? ch "-") with true. change (at_ (ch "-" :: c :: pl) 1) with c.
  rewrite (proj2 (Z.eqb_neq _ _) H0), (proj2 (Z.eqb_neq _ _) H1). done.
Qed.

(** Letters without arguments, with more of the word to come or not. *)
Lemma runs_flags fl t i oa out : Forall (fun c => takes ostr c false) fl -> (0 < i)%nat -> t <> [] ->
  exists oa', runs (mkGopt i oa (fl ++ t) out) ((fun c => (c, None)) <$> fl) (mkGopt i oa' t out).
Proof.
  intros Hf Hi Ht. revert oa. induction Hf as [|c fl Hc Hf IH]; intros oa; [exists oa; apply runs_nil|].
  destruct (IH None) as [oa' Hr]. exists oa'. change (((fun c => (c, None)) <$> c :: fl)) with ([(c, None : cptr)] ++ ((fun c => (c, None)) <$> fl)).
  eapply runs_app; [|exact Hr]. pose proof Hc as (_ & _ & _ & He & _). apply runs_one; [|done|done]. cbn [app].
  rewrite getopt_flag by done. rewrite (proj2 (Nat.eqb_neq _ _)); [done|]. rewrite length_app. destruct t; [done|]. cbn. lia.
Qed.

Lemma runs_word_flags fl c i oa out : Forall (fun c => takes ostr c false) (fl ++ [c]) -> (0 < i)%nat ->
  runs (mkGopt i oa (fl ++ [c]) out) ((fun c => (c, None)) <$> fl ++ [c]) (mkGopt (S i) None [] out).
Proof.
  intros Hf Hi. apply Forall_app in Hf as [Hf Hc]. apply Forall_cons_iff in Hc as [Hc _].
  destruct (runs_flags fl [c] i oa out Hf Hi) as [oa' Hr]; [done|]. rewrite fmap_app. eapply runs_app; [exact Hr|].
  pose proof Hc as (_ & _ & _ & He & _). apply runs_one; [|done|done]. by rewrite getopt_flag.
Qed.

(** The letters of a word of options, after the hyphen. *)
Definition letters (o : optword) : cstr :=
  flags o ++ match last_ o with LNone => [] | LJoined c a => c :: a | LSep c _ => [c] end.

Lemma letters_head o : optword_ok ostr o -> exists c pl, letters o = c :: pl /\ c <> 0 /\ c <> ch "-".
Proof.
  intros [Hf Hl]. destruct o as [[|c fl] la]; cbn in *.
  - destruct la as [|c a|c a]; [done| |]; [destruct Hl as [(_ & ? & ? & _) _]|destruct Hl as (_ & ? & ? & _)]; eauto.
  - apply Forall_cons_iff in Hf as [(_ & ? & ? & _) _]. eauto.
Qed.

Lemma runs_optword o i oa out : optword_ok ostr o -> (0 < i)%nat -> (forall j w, words_of o !! j = Some w -> av !! (i + j)%nat = Some w) ->
  exists oa', runs (mkGopt i oa [] out) (opts_of o) (mkGopt (i + length (words_of o)) oa' [] out).
Proof.
  intros Ho Hi Hw. destruct (letters_head o Ho) as (c & pl & El & H0 & H1).
  assert (av !! i = Some (ch "-" :: letters o)) as Hwd.
  { rewrite <- (Nat.add_0_r i). apply Hw. unfold words_of, letters. destruct (last_ o); [by rewrite app_nil_r|done..]. }
  assert (exists oa', runs (mkGopt i oa (letters o) out) (opts_of o) (mkGopt (i + length (words_of o)) oa' [] out)) as [oa' Hr].
  { destruct Ho as [Hf Hl]. unfold letters, opts_of, words_of in *. destruct (last_ o) as [|d a|d a].
    - destruct (flags o) as [|x fl _] eqn:Ef using rev_ind; [done|]. exists None. rewrite !app_nil_r.
      replace (i + length [_])%nat with (S i) by (cbn; lia). by apply runs_word_flags.
    - destruct Hl as [Ht Ha]. destruct (runs_flags (flags o) (d :: a) i oa out Hf Hi) as [oa' Hr]; [done|]. exists (Some a).
      eapply runs_app; [exact Hr|]. pose proof Ht as (_ & _ & _ & He & _). apply runs_one; [|done|done].
      rewrite getopt_arg by done. destruct a; [done|]. cbn. do 2 f_equal. lia.
    - destruct (runs_flags (flags o) [d] i oa out Hf Hi) as [oa' Hr]; [done|]. exists (Some a).
      eapply runs_app; [exact Hr|]. pose proof Hl as (_ & _ & _ & He & _). apply runs_one; [|done|done].
      rewrite getopt_arg by done. cbn [length Nat.eqb negb]. rewrite <- (Nat.add_1_r i), (Hw 1%nat a) by done. do 2 f_equal. lia. }
  exists oa'. intros fuel. rewrite <- Hr. rewrite El in *. by apply getopts_word.
Qed.

Lemma runs_optwords os : forall i oa out, Forall (optword_ok ostr) os -> (0 < i)%nat ->
  (forall j w, concat (words_of <$> os) !! j = Some w -> av !! (i + j)%nat = Some w) ->
  exists oa', runs (mkGopt i oa [] out) (concat (opts_of <$> os)) (mkGopt (i + length (concat (words_of <$> os))) oa' [] out).
Proof.
  induction os as [|o os IH]; intros i oa out Hok Hi Hw; cbn [fmap list_fmap concat] in *.
  - exists oa. rewrite Nat.add_0_r. apply runs_nil.
  - apply Forall_cons_iff in Hok as [Ho Hok].
    destruct (runs_optword o i oa out Ho Hi) as [oa1 H1]. { intros j w Hj. apply Hw. by apply lookup_app_l_Some. }
    destruct (IH (i + length (words_of o))%nat oa1 out Hok ltac:(lia)) as [oa2 H2].
    { intros j w Hj. rewrite <- Nat.add_assoc. apply Hw. rewrite lookup_app_r by lia. by replace (_ + j - _)%nat with j by lia. }
    exists oa2. rewrite length_app, Nat.add_assoc. by eapply runs_app.
Qed.
End Getopt.

(** The options of a command line are found. For every list of words of
    options, whose letters are grouped or not and whose arguments are in the same
    word or the next, followed by operands, the calls of [getopt] from [optind] 0
    end; they answer exactly the letters and the arguments the line was built from,
    report nothing, and leave [optind] at the first operand. *)
Theorem getopt_finds_options (ostr name : cstr) (os : list optword) (ws : list cstr)
  (Hos : Forall (optword_ok ostr) os) (Hws : operands ws) :
  exists g, getopts (S (length (concat (opts_of <$> os)))) (name :: concat (words_of <$> os) ++ ws) ostr gopt0 =
      Some (concat (opts_of <$> os), g) /\
    drop (optind g) (name :: concat (words_of <$> os) ++ ws) = ws /\ g_out g = [].
Proof.
  set (W := concat (words_of <$> os)). set (av := name :: W ++ ws).
  destruct (runs_optwords av ostr os 1 None [] Hos ltac:(lia)) as [oa Hr].
  { intros j w Hj. change (av !! (1 + j)%nat) with ((W ++ ws) !! j). by apply lookup_app_l_Some. }
  specialize (Hr 1%nat). rewrite Nat.add_1_r in Hr.
  assert (forall fuel, getopts fuel av ostr gopt0 = getopts fuel av ostr (mkGopt 1 None [] [])) as -> by (by intros []).
  rewrite Hr. cbn [getopts]. fold W. set (n := length W). unfold getopt. cbn [optind Nat.eqb Nat.add place optarg g_out].
  assert (av !! S n = ws !! 0%nat) as Hl. { change (av !! S n) with ((W ++ ws) !! n). unfold n. rewrite lookup_app_r by lia. by rewrite Nat.sub_diag. }
  assert (drop (S n) av = ws) as Hdr by (cbn; apply drop_app_length). rewrite Hl.
  destruct ws as [|w ws]; cbn [lookup list_lookup].
  - rewrite Z.eqb_refl. cbn. eexists. rewrite app_nil_r. done.
  - cbn in Hws. rewrite (proj2 (Z.eqb_neq _ _) Hws). cbn [negb]. rewrite Z.eqb_refl. cbn. eexists. rewrite app_nil_r. done.
Qed.

(** A command line of the load command. *)
Lemma getopt_finds_options_witness :
  exists g, getopts 5 [str "load"; str "-st"; str "-b"; str "-u"; str "115200"; str "tty1"] (str "stbu:") gopt0 =
      Some ([(ch "s", None); (ch "t", None); (ch "b", None); (ch "u", Some (str "115200"))], g) /\
    drop (optind g) [str "load"; str "-st"; str "-b"; str "-u"; str "115200"; str "tty1"] = [str "tty1"] /\ g_out g = [].
Proof.
  apply (getopt_finds_options (str "stbu:") (str "load")
    [mkOptword [ch "s"; ch "t"] LNone; mkOptword [ch "b"] LNone; mkOptword [] (LSep (ch "u") (str "115200"))] [str "tty1"]);
    [|vm_compute; congruence].
  repeat constructor; try (vm_compute; congruence); eexists; split; vm_compute; reflexivity.
Defined.
