(* ===== verification/Memcmds.v ===== *)
(** * Memcmds: the memory commands

    The commands of [src/pmon/commands.c] that change, copy, fill, search and
    display memory, over the expressions of Expr. Words and half-words are in the
    byte order of the processor; a null word of the command line does not occur
    (the command table demands enough words).

    The theorems: [copy] moves a range, also onto itself; [fill] repeats the
    pattern over the range, by words or by bytes; [search] finds exactly the
    places where the pattern is. *)

From S2P Require Import Prelude CString Numconv Format Memory Tunables Env Symtab Expr Getopt.

(** [src/pmon/pmon.h:92] *)
Definition PATSZ : nat := 80.

(** ** Copy *)

(** [src/pmon/commands.c:709-710] *)
Fixpoint copy_up (n : nat) (from to : Z) (m : mem) : mem :=
  match n with
  | O => m
  | S n' => copy_up n' (from + 1) (to + 1) (store_byte m to (load_byte m from))
  end.

(** [src/pmon/commands.c:712-713] *)
Fixpoint copy_down (n : nat) (from to : Z) (m : mem) : mem :=
  match n with
  | O => m
  | S n' => copy_down n' from to (store_byte m (to + Z.of_nat n') (load_byte m (from + Z.of_nat n')))
  end.

(** [src/pmon/commands.c:708-713] *)
Definition copy_mem (from to n : Z) (m : mem) : mem :=
  if to <? from then copy_up (Z.to_nat n) from to m else copy_down (Z.to_nat n) from to m.

(** ** Fill *)

(** The word written for a pattern of 1, 2 or 4 bytes.
    [src/pmon/commands.c:933-945] *)
Definition fill_word (big : bool) (pat : list Z) : Z :=
  match pat with
  | [b] =>
      let w := Z.lor b (Z.shiftl b 8) in Z.lor w (Z.shiftl w 16)
  | [_; _] =>
      let w := val_of big pat in Z.lor w (Z.shiftl w 16)
  | _ => val_of big pat
  end.

(** [None]: the loop does not end. [src/pmon/commands.c:946-947] *)
Fixpoint fill_words (fuel : nat) (big : bool) (from to w : Z) (m : mem) : option mem :=
  match fuel with
  | O => None
  | S f => if to <? from then Some m else fill_words f big (u32 (from + 4)) to w (store_word big m from w)
  end.

(** [junk] is what the pattern's first byte holds when there is no pattern.
    [src/pmon/commands.c:950-954] *)
Fixpoint fill_bytes (fuel : nat) (from to junk : Z) (pat : list Z) (i : nat) (m : mem) : option mem :=
  match fuel with
  | O => None
  | S f =>
      if to <? from then Some m
      else
        let m := upd m from (default junk (pat !! i)) in
        fill_bytes f (u32 (from + 1)) to junk pat (if (length pat <=? S i)%nat then 0%nat else S i) m
  end.

(** Every round takes an address; more rounds than addresses mean that the
    address has wrapped around. [src/pmon/commands.c:929-955] *)
Definition fill_mem (big : bool) (from to junk : Z) (pat : list Z) (m : mem) : option mem :=
  let fuel := Z.to_nat (to - from + 2) in
  if ((length pat =? 1) || (length pat =? 2) || (length pat =? 4))%nat && (Z.land from 3 =? 0) && (Z.land to 3 =? 3)
  then fill_words fuel big from to (fill_word big pat) m
  else fill_bytes fuel from to junk pat 0 m.

(** ** Search *)

(** [src/pmon/commands.c:299-304] *)
Fixpoint matches (m : mem) (pat : list Z) (adr : Z) : bool :=
  match pat with
  | [] => true
  | c :: pat' => (c =? load_byte m adr) && matches m pat' (adr + 1)
  end.

(** The addresses reported; [quit] tells at each whether the user stops there.
    [None]: the loop does not end. [src/pmon/commands.c:296-315] *)
Fixpoint search_loop (fuel : nat) (m : mem) (from to : Z) (pat : list Z) (quit : list bool) : option (list Z) :=
  match fuel with
  | O => None
  | S f =>
      if to <? from then Some []
      else if matches m pat from then
        match quit with
        | true :: _ => Some [from]
        | _ => l ← search_loop f m (u32 (from + 1)) to pat (tail quit); Some (from :: l)
        end
      else search_loop f m (u32 (from + 1)) to pat quit
  end.

(** [src/pmon/commands.c:294-318] *)
Definition search_mem (m : mem) (from to : Z) (pat : list Z) (quit : list bool) : option (list Z) :=
  let to := u32 (to - (Z.of_nat (length pat) - 1)) in
  search_loop (Z.to_nat (to - from + 2)) m from to pat quit.

(** ** The text of a line *)

Fixpoint disp_fields (n : nat) (big : bool) (m : mem) (adr i siz : Z) : option cstr :=
  match n with
  | O => Some []
  | S n' =>
      if 16 <=? i then Some []
      else
        let v := val_of big (load_bytes m (adr + i) (Z.to_nat siz)) in
        t ← (if siz =? 1 then sprintf "%02x " [AInt v]
             else if siz =? 2 then sprintf "%04x " [AInt v]
             else if siz =? 4 then sprintf "%08x " [AInt v]
             else sprintf "%016llx " [AInt v]);
        rest ← disp_fields n' big m adr (i + siz) siz;
        Some ((if i =? 8 then [ch " "] else []) ++ t ++ rest)
  end.

(** The text of 16 bytes, and the address after them. [siz] is 1, 2, 4 or 8.
    [src/pmon/commands.c:836-885] *)
Definition dispmem (big : bool) (m : mem) (adr siz : Z) : option (cstr * Z) :=
  h ← sprintf "%08x  " [AInt adr];
  f ← disp_fields 16 big m adr 0 siz;
  Some (h ++ f ++ str "  " ++ ((fun i => let v := load_byte m (adr + Z.of_nat i) in if isprint v then v else ch ".") <$> seq 0 16),
        s32 (adr + 16)).

(** ** The commands *)

Section Memcmds.
Context {W : Type} (big : bool) (r : dbgreg) (st : symtab) (en : env (W := W)).
#[local] Set Default Proof Using "Type".

(** What a command returns, memory, and what it prints; [None] when a value is
    used that was not set, or the command does not end. *)
Definition Cmd : Type := option (Z * mem * trace).

Definition with_rsa (p : cstr) (m : mem) (o : trace) (k : Z -> trace -> Cmd) : Cmd :=
  match get_rsa big r m st en p with
  | (Val v, t) => k v (o ++ t)
  | (Bad, t) => Some (-1, m, o ++ t)
  | (Unset, _) => None
  end.

(** The argument number [i] of a command. *)
Definition argn (av : list cstr) (i : nat) : cstr := default [] (av !! i).

(** [src/pmon/commands.c:700-715] *)
Definition copy (av : list cstr) (m : mem) : Cmd :=
  with_rsa (argn av 1) m [] (fun from o =>
  with_rsa (argn av 2) m o (fun to o =>
  with_rsa (argn av 3) m o (fun n o => Some (0, copy_mem from to n m, o)))).

(** A pattern of the words of a command, each byte stored by [cut]; a text after
    [-s], or a value. [limit]: the length is checked against that of the buffer
    ([fill]), or the buffer is overrun ([search]).
    [src/pmon/commands.c:904-926] *)
Fixpoint pattern (cut : Z -> Z) (limit : bool) (ws : list cstr) (m : mem) (pat : list Z) (o : trace)
  (k : list Z -> trace -> Cmd) : Cmd :=
  match ws with
  | [] => k pat o
  | w :: ws' =>
      let add l o (go : list Z -> trace -> Cmd) :=
        if (PATSZ <? length pat + length l)%nat
        then if limit then Some (-1, m, o ++ [Printf "pattern too long\n" []]) else None
        else go (pat ++ l) o in
      if strequ (Some w) (Some (str "-s")) then
        match ws' with
        | [] => Some (-1, m, o ++ [Printf "bad arg count\n" []])
        | s :: ws'' => add (cut <$> s) o (fun pat o => pattern cut limit ws'' m pat o k)
        end
      else with_rsa w m o (fun v o => add [cut v] o (fun pat o => pattern cut limit ws' m pat o k))
  end.

(** [src/pmon/commands.c:888-959] *)
Definition fill (junk : Z) (av : list cstr) (m : mem) : Cmd :=
  with_rsa (argn av 1) m [] (fun from o =>
  with_rsa (argn av 2) m o (fun to o =>
    if to <? from then Some (1, m, o)
    else pattern u8 true (drop 3 av) m [] o (fun pat o =>
      m' ← fill_mem big from to junk pat m; Some (0, m', o)))).

(** The lines displayed for the addresses found. *)
Definition found_lines (m : mem) (l : list Z) : trace :=
  (fun a => Printf "%s\n" [AStr (fst <$> dispmem big m a 4)]) <$> l.

(** The backward search of the source is never reached; the mark that shows that
    the search is going on is left out. [src/pmon/commands.c:260-340] *)
Definition search (quit : list bool) (av : list cstr) (m : mem) : Cmd :=
  with_rsa (argn av 1) m [] (fun from o =>
  with_rsa (argn av 2) m o (fun to o =>
    pattern s8 false (drop 3 av) m [] o (fun pat o =>
      if to <=? from then Some (1, m, o ++ [Printf "'to' address too small\n" []])
      else l ← search_mem m from to pat quit; Some (0, m, o ++ found_lines m l)))).

(** *** Modify *)

(** A value of the size [datasz]. *)
Definition store_size (datasz : Z) (m : mem) (adr v : Z) : mem :=
  if datasz =? 1 then store_byte m adr v
  else if datasz =? 2 then store_half big m adr v
  else if datasz =? 4 then store_word big m adr v
  else store_dword big m adr v.

(** [-b], [-h], [-w], [-d] and [-n]. [src/pmon/commands.c:119-147] *)
Definition modify_opt (c : Z) (_ : cptr) (s : Z * bool) : (Z * bool) + Z * trace :=
  let '(datasz, nowrite) := s in
  if negb (datasz =? -2) then inr (-1, [Printf "multiple data types specified\n" []])
  else if c =? ch "d" then inl (8, nowrite)
  else if c =? ch "w" then inl (4, nowrite)
  else if c =? ch "h" then inl (2, nowrite)
  else if c =? ch "b" then inl (1, nowrite)
  else if c =? ch "n" then inl (datasz, true)
  else inr (-1, []).

Fixpoint store_text (s : cstr) (adr : Z) (m : mem) : mem :=
  match s with
  | [] => m
  | c :: s' => store_text s' (adr + 1) (store_byte m adr c)
  end.

Definition rsa_reg (p : cstr) (m : mem) : rsa * trace := get_rsa_reg big r m st en (S (length p)) p.

Definition unaligned (adr : Z) : trace := [Printf "%08x: unaligned address\n" [AInt adr]].

(** The values on the command line. [src/pmon/commands.c:160-191] *)
Fixpoint modify_words (ws : list cstr) (datasz adr : Z) (m : mem) (o : trace) : Cmd :=
  match ws with
  | [] => Some (0, m, o)
  | w :: ws' =>
      if strequ (Some w) (Some (str "-s")) then
        match ws' with
        | [] => Some (-1, m, o ++ [Printf "bad arg count\n" []])
        | s :: ws'' => modify_words ws'' datasz (adr + Z.of_nat (length s)) (store_text s adr m) o
        end
      else
        match rsa_reg w m with
        | (Bad, t) => Some (-1, m, o ++ t)
        | (Unset, _) => None
        | (Val v, t) =>
            if negb (Z.land adr (datasz - 1) =? 0) then Some (1, m, o ++ t ++ unaligned adr)
            else modify_words ws' datasz (adr + datasz) (store_size datasz m adr v) (o ++ t)
        end
  end.

Fixpoint skip_spaces (s : cstr) : cstr :=
  match s with c :: s' => if c =? ch " " then skip_spaces s' else s | [] => [] end.

(** The dialogue; [None] also when it waits for the next line.
    [src/pmon/commands.c:197-253] *)
Fixpoint modify_lines (lines : list cstr) (nowrite : bool) (datasz adr : Z) (m : mem) (o : trace) : Cmd :=
  let v := val_of big (load_bytes m adr (Z.to_nat datasz)) in
  let o := o ++ [Printf "%08x %0*llx " [AInt adr; AInt (2 * datasz); AInt v]] in
  if nowrite then Some (0, m, o ++ [Printf "\n" []])
  else
    match lines with
    | [] => None
    | line :: lines' =>
        let p := skip_spaces line in
        let c := at_ p 0 in
        if c =? ch "." then Some (0, m, o)
        else if c =? 0 then modify_lines lines' nowrite datasz (adr + datasz) m o
        else if (c =? ch "^") || (c =? ch "-") then modify_lines lines' nowrite datasz (adr - datasz) m o
        else if c =? ch "=" then modify_lines lines' nowrite datasz adr m o
        else
          match rsa_reg p m with
          | (Bad, t) => modify_lines lines' nowrite datasz adr m (o ++ t)
          | (Unset, _) => None
          | (Val v, t) => modify_lines lines' nowrite datasz (adr + datasz) (store_size datasz m adr v) (o ++ t)
          end
    end.

(** [src/pmon/commands.c:105-256] *)
Definition modify (av lines : list cstr) (m : mem) : Cmd :=
  e ← getopt_each modify_opt (S (length (concat av))) av (str "dwhbn") (-2, false) gopt0;
  match e with
  | inr (res, t) => Some (res, m, t)
  | inl (datasz, nowrite, g) =>
      match drop (optind g) av with
      | [] => Some (-1, m, g_out g)
      | a :: ws =>
          with_rsa a m (g_out g) (fun adr o =>
            let datasz := if datasz =? -2 then Z.shiftl 1 (matchenv (str "datasz") en) else datasz in
            match ws with
            | _ :: _ => modify_words ws datasz adr m o
            | [] =>
                if negb (Z.land adr (datasz - 1) =? 0) then Some (1, m, o ++ unaligned adr)
                else modify_lines lines nowrite datasz adr m o
            end)
      end
  end.
End Memcmds.

(** ** Copy moves the range *)

Definition moved (from to n : Z) (m : mem) : mem :=
  fun x => if (to <=? x) && (x <? to + n) then m (from + (x - to)) else m x.

Lemma copied_byte m from to : mem_ok m -> 0 <= from < 2 ^ 32 -> 0 <= to < 2 ^ 32 ->
  store_byte m to (load_byte m from) = upd m to (m from).
Proof.
  intros Hm Hf Ht. unfold store_byte, load_byte. rewrite !u32_small by (change (2 ^ 32) with 4294967296 in *; lia).
  f_equal. rewrite wrapu_wraps. apply u8_small. apply Hm.
Qed.

Lemma mem_ok_upd m a v : mem_ok m -> is_byte v -> mem_ok (upd m a v).
Proof. intros Hm Hv x. unfold upd. by destruct (x =? a). Qed.

Lemma in_range lo x hi : (lo <=? x) && (x <? hi) = bool_decide (lo <= x < hi).
Proof. destruct (Z.leb_spec lo x), (Z.ltb_spec x hi); cbn; symmetry; (apply bool_decide_true || apply bool_decide_false); lia. Qed.

Lemma copy_up_moves n : forall from to m, mem_ok m -> 0 <= to < from -> from + Z.of_nat n <= 2 ^ 32 ->
  copy_up n from to m =m= moved from to (Z.of_nat n) m.
Proof.
  induction n as [|n IH]; intros from to m Hm Hlt Hn x; unfold moved; rewrite in_range; cbn [copy_up].
  - by rewrite bool_decide_false by lia.
  - rewrite copied_byte by (done || lia). rewrite IH by (first [lia | apply mem_ok_upd; [done|apply Hm]]).
    unfold moved. rewrite in_range. case_bool_decide as H1; case_bool_decide as H2; try lia.
    + rewrite upd_ne by lia. f_equal. lia.
    + assert (x = to) as -> by lia. rewrite upd_eq. f_equal. lia.
    + by rewrite upd_ne by lia.
Qed.

Lemma copy_down_moves n : forall from to m, mem_ok m -> 0 <= from <= to -> to + Z.of_nat n <= 2 ^ 32 ->
  copy_down n from to m =m= moved from to (Z.of_nat n) m.
Proof.
  induction n as [|n IH]; intros from to m Hm Hlt Hn x; unfold moved; rewrite in_range; cbn [copy_down].
  - by rewrite bool_decide_false by lia.
  - rewrite copied_byte by (done || lia). rewrite IH by (first [lia | apply mem_ok_upd; [done|apply Hm]]).
    unfold moved. rewrite in_range. case_bool_decide as H1; case_bool_decide as H2; try lia.
    + by rewrite upd_ne by lia.
    + assert (x = to + Z.of_nat n) as -> by lia. rewrite upd_eq. f_equal. lia.
    + by rewrite upd_ne by lia.
Qed.

(** The copy command moves the range as a whole: whatever way the two ranges
    overlap, every byte of the destination gets the byte that the source had before
    the command, and no other byte changes. *)
Theorem copy_moves (from to n : Z) (m : mem) (Hm : mem_ok m) (Hf : 0 <= from) (Ht : 0 <= to) (Hn : 0 <= n)
  (Hfe : from + n <= 2 ^ 32) (Hte : to + n <= 2 ^ 32) (x : Z) :
  copy_mem from to n m x = if (to <=? x) && (x <? to + n) then m (from + (x - to)) else m x.
Proof.
  unfold copy_mem. destruct (Z.ltb_spec to from).
  - rewrite copy_up_moves by (done || lia). unfold moved. by rewrite Z2Nat.id.
  - rewrite copy_down_moves by (done || lia). unfold moved. by rewrite Z2Nat.id.
Qed.

Lemma copy_moves_witness : copy_mem 0x80020000 0x80020002 4 (fun a => a mod 256) 0x80020005 = 3.
Proof.
  rewrite (copy_moves 0x80020000 0x80020002 4 (fun a => a mod 256)); [vm_compute; reflexivity|..]; try (vm_compute; congruence).
  intros a. unfold is_byte. apply Z.mod_pos_bound. lia.
Defined.

(** ** Fill repeats the pattern *)

Definition filled (from to : Z) (pat : list Z) (m : mem) : mem :=
  fun x => if (from <=? x) && (x <=? to) then default 0 (pat !! (Z.to_nat (x - from) mod length pat)%nat) else m x.

Lemma in_range_le lo x hi : (lo <=? x) && (x <=? hi) = bool_decide (lo <= x <= hi).
Proof. destruct (Z.leb_spec lo x), (Z.leb_spec x hi); cbn; symmetry; (apply bool_decide_true || apply bool_decide_false); lia. Qed.

(** The bytes from the one at index [i] of the pattern on. *)
Definition filled_from (i : nat) (from to : Z) (pat : list Z) (m : mem) : mem :=
  fun x => if (from <=? x) && (x <=? to) then default 0 (pat !! ((i + Z.to_nat (x - from)) mod length pat)%nat) else m x.

(** The index in the pattern goes around. *)
Lemma next_index i k n : (i < n)%nat ->
  (((if (n <=? S i)%nat then 0 else S i) + k) mod n = (i + S k) mod n)%nat.
Proof.
  intros Hi. destruct (Nat.leb_spec n (S i)).
  - assert (n = S i) as -> by lia. replace (i + S k)%nat with (k + 1 * S i)%nat by lia. by rewrite Nat.Div0.mod_add.
  - f_equal. lia.
Qed.

Lemma fill_bytes_fills fuel : forall from to junk pat i m, (i < length pat)%nat -> 0 <= from <= to + 1 -> to < 2 ^ 32 - 1 ->
  to - from + 1 < Z.of_nat fuel -> exists m', fill_bytes fuel from to junk pat i m = Some m' /\ m' =m= filled_from i from to pat m.
Proof.
  induction fuel as [|f IH]; intros from to junk pat i m Hi Hf Ht Hfu; [lia|]. cbn [fill_bytes].
  destruct (Z.ltb_spec to from).
  { exists m. split; [done|]. intros x. unfold filled_from. by rewrite in_range_le, bool_decide_false by lia. }
  rewrite u32_small by (change (2 ^ 32) with 4294967296 in *; lia).
  destruct (IH (from + 1) to junk pat (if (length pat <=? S i)%nat then 0%nat else S i) (upd m from (default junk (pat !! i)))) as (m' & -> & Hm');
    [destruct (Nat.leb_spec (length pat) (S i)); lia|lia|lia|lia|].
  exists m'. split; [done|]. intros x. rewrite Hm'. unfold filled_from. rewrite !in_range_le.
  case_bool_decide as H1; case_bool_decide as H2; try lia.
  - rewrite next_index by done. do 4 f_equal. lia.
  - assert (x = from) as -> by lia. rewrite upd_eq, Z.sub_diag, Nat.add_0_r, Nat.mod_small by lia.
    by destruct (lookup_lt_is_Some_2 pat i Hi) as [b ->].
  - by rewrite upd_ne by lia.
Qed.

(** The word of a short pattern has the bytes of the pattern. *)
Lemma double_half w : 0 <= w < 65536 -> Z.lor w (Z.shiftl w 16) = w * 65536 + w.
Proof.
  intros Hw. rewrite Z.shiftl_mul_pow2 by lia. rewrite Z.lor_comm, lor_low by (change (2 ^ 16) with 65536; lia). reflexivity.
Qed.

(** Equal lists of bytes, byte by byte. *)
Ltac same_bytes := repeat (apply (f_equal2 (@cons Z)); [Z.to_euclidean_division_equations; lia|]); reflexivity.

Lemma bytes_double big w : 0 <= w < 65536 -> bytes_of big 4 (w * 65536 + w) = bytes_of big 2 w ++ bytes_of big 2 w.
Proof.
  intros Hw. assert (le_bytes 4 (w * 65536 + w) = le_bytes 2 w ++ le_bytes 2 w) as E.
  { cbn [le_bytes app]. same_bytes. }
  unfold bytes_of. rewrite E. destruct big; [by rewrite rev_app_distr|done].
Qed.

Lemma fill_word_bytes big pat : bytes_ok pat -> length pat = 1%nat \/ length pat = 2%nat \/ length pat = 4%nat ->
  forall k, default 0 (bytes_of big 4 (fill_word big pat) !! (k mod 4)%nat) = default 0 (pat !! (k mod length pat)%nat).
Proof.
  intros Hp Hl k. destruct Hl as [Hl|[Hl|Hl]].
  - destruct pat as [|b [|]]; try done. apply Forall_cons_iff in Hp as [Hb _]. unfold is_byte in Hb. cbn [fill_word].
    assert (Z.lor b (Z.shiftl b 8) = b * 256 + b) as ->
      by (rewrite Z.shiftl_mul_pow2, Z.lor_comm, lor_low by (try lia; change (2 ^ 8) with 256; lia); reflexivity).
    rewrite double_half, bytes_double by lia.
    assert (bytes_of big 2 (b * 256 + b) = [b; b]) as ->.
    { assert (le_bytes 2 (b * 256 + b) = [b; b]) as E by (cbn [le_bytes]; same_bytes).
      unfold bytes_of. rewrite E. by destruct big. }
    cbn [length]. rewrite Nat.mod_1_r. pose proof (Nat.mod_upper_bound k 4 ltac:(lia)). destruct (k mod 4)%nat as [|[|[|[|]]]]; [done..|lia].
  - pose proof (bytes_of_val big pat Hp) as E. rewrite Hl in E.
    destruct pat as [|b [|c [|]]]; try done. apply Forall_cons_iff in Hp as [Hb Hp]. apply Forall_cons_iff in Hp as [Hc _]. unfold is_byte in *.
    cbn [fill_word]. assert (0 <= val_of big [b; c] < 65536) as Hv by (unfold val_of; destruct big; cbn; lia).
    rewrite double_half, bytes_double, E by done. cbn [length app].
    assert (k mod 4 = k mod 2 \/ k mod 4 = 2 + k mod 2)%nat as [-> | ->]
      by (pose proof (Nat.div_mod k 4); pose proof (Nat.div_mod k 2); pose proof (Nat.mod_upper_bound k 4); pose proof (Nat.mod_upper_bound k 2); lia);
      pose proof (Nat.mod_upper_bound k 2 ltac:(lia)); destruct (k mod 2)%nat as [|[|]]; done || lia.
  - pose proof (bytes_of_val big pat Hp) as E. rewrite Hl in *. destruct pat as [|b [|c [|d [|e [|]]]]]; try done. cbn [fill_word]. by rewrite E.
Qed.

Lemma fill_words_fills big fuel : forall from to w m, 0 <= from <= to + 1 -> (to + 1 - from) mod 4 = 0 -> to < 2 ^ 32 - 1 ->
  to - from + 1 < Z.of_nat fuel ->
  exists m', fill_words fuel big from to w m = Some m' /\
    forall x, m' x = if (from <=? x) && (x <=? to) then default 0 (bytes_of big 4 w !! (Z.to_nat (x - from) mod 4)%nat) else m x.
Proof.
  induction fuel as [|f IH]; intros from to w m Hf Hal Ht Hfu; [lia|]. cbn [fill_words]. destruct (Z.ltb_spec to from).
  { exists m. split; [done|]. intros x. by rewrite in_range_le, bool_decide_false by lia. }
  assert (from + 4 <= to + 1) as Hw by (Z.to_euclidean_division_equations; lia).
  change (2 ^ 32) with 4294967296 in Ht. rewrite u32_small by lia.
  destruct (IH (from + 4) to w (store_word big m from w)) as (m' & -> & Hm'); [lia| |lia|lia|].
  { Z.to_euclidean_division_equations; lia. }
  exists m'. split; [done|]. intros x. rewrite Hm', !in_range_le. unfold store_word.
  case_bool_decide as H1; [rewrite bool_decide_true by lia|].
  - do 2 f_equal. replace (Z.to_nat (x - from)) with (Z.to_nat (x - (from + 4)) + 1 * 4)%nat by lia. by rewrite Nat.Div0.mod_add.
  - rewrite store_bytes_at by (split; [lia|rewrite bytes_of_length; change (2 ^ 32) with 4294967296; lia]).
    rewrite bytes_of_length, in_range. change (Z.of_nat 4) with 4.
    case_bool_decide as H2; case_bool_decide as H3; try (exfalso; lia); [|done]. rewrite Nat.mod_small by lia. done.
Qed.

(** The fill command repeats its pattern: for a range that does not reach the
    last address, the command ends, every byte from [from] to [to] is the byte of
    the pattern that its distance from [from] gives, counted around the pattern,
    and no other byte changes. The words the code writes when the pattern is short
    and the range aligned make no difference, in either byte order. *)
Theorem fill_repeats (big : bool) (from to junk : Z) (pat : list Z) (m : mem)
  (Hp : bytes_ok pat) (Hne : pat <> []) (Hf : 0 <= from <= to) (Ht : to < 2 ^ 32 - 1) :
  exists m', fill_mem big from to junk pat m = Some m' /\
    forall x, m' x = if (from <=? x) && (x <=? to)
                     then default 0 (pat !! (Z.to_nat (x - from) mod length pat)%nat) else m x.
Proof.
  assert (0 < length pat)%nat as Hl by (destruct pat; [done|cbn; lia]). unfold fill_mem.
  destruct (_ && (Z.land to 3 =? 3)) eqn:E.
  - apply andb_true_iff in E as [E E3]. apply andb_true_iff in E as [E1 E2]. apply Z.eqb_eq in E2, E3.
    assert (from mod 4 = 0) as H1 by (rewrite <- E2; symmetry; by apply (Z.land_ones from 2)).
    assert (to mod 4 = 3) as H2 by (rewrite <- E3; symmetry; by apply (Z.land_ones to 2)).
    assert (length pat = 1%nat \/ length pat = 2%nat \/ length pat = 4%nat) as Hc.
    { apply orb_true_iff in E1 as [E1|E1]; [apply orb_true_iff in E1 as [E1|E1]|]; apply Nat.eqb_eq in E1; auto. }
    destruct (fill_words_fills big (Z.to_nat (to - from + 2)) from to (fill_word big pat) m) as (m' & -> & Hm');
      [lia|Z.to_euclidean_division_equations; lia|done|lia|].
    exists m'. split; [done|]. intros x. rewrite Hm'. by rewrite fill_word_bytes.
  - destruct (fill_bytes_fills (Z.to_nat (to - from + 2)) from to junk pat 0 m) as (m' & -> & Hm'); [done|lia|done|lia|].
    exists m'. split; [done|]. intros x. by rewrite Hm'.
Qed.

Lemma fill_repeats_witness :
  exists m', fill_mem true 0x80020000 0x80020007 0 [1; 2] (fun _ => 0) = Some m' /\
    forall x, m' x = if (0x80020000 <=? x) && (x <=? 0x80020007)
                     then default 0 ([1; 2] !! (Z.to_nat (x - 0x80020000) mod 2)%nat) else 0.
Proof.
  apply (fill_repeats true 0x80020000 0x80020007 0 [1; 2] (fun _ => 0)); [|done|lia|vm_compute; done].
  repeat constructor; vm_compute; congruence.
Defined.

(** A range that ends at the last address is filled for ever: the address wraps
    around and is never greater. *)
Lemma fill_never_ends (fuel : nat) (from junk : Z) (pat : list Z) (i : nat) (m : mem) :
  0 <= from < 2 ^ 32 -> fill_bytes fuel from 0xffffffff junk pat i m = None.
Proof.
  revert from i m. induction fuel as [|f IH]; intros from i m Hf; [done|]. cbn [fill_bytes].
  rewrite (proj2 (Z.ltb_ge _ _)) by (change (2 ^ 32) with 4294967296 in Hf; lia). apply IH. apply wrapu_range. lia.
Qed.

(** ** Search finds the pattern *)

Lemma search_loop_finds fuel : forall m from to pat, 0 <= from <= to + 1 -> to < 2 ^ 32 - 1 -> to - from + 1 < Z.of_nat fuel ->
  exists l, search_loop fuel m from to pat [] = Some l /\ Sorted Z.lt l /\
    forall a, a ∈ l <-> from <= a <= to /\ matches m pat a = true.
Proof.
  induction fuel as [|f IH]; intros m from to pat Hf Ht Hfu; [lia|]. cbn [search_loop]. destruct (Z.ltb_spec to from).
  { exists []. split; [done|]. split; [constructor|]. intros a. rewrite elem_of_nil. split; [done|lia]. }
  rewrite u32_small by (change (2 ^ 32) with 4294967296 in *; lia).
  destruct (IH m (from + 1) to pat) as (l & El & Hs & Hl); [lia|lia|lia|]. cbn [tail]. rewrite El.
  destruct (matches m pat from) eqn:Em.
  - exists (from :: l). split; [done|]. split.
    + constructor; [done|]. destruct l as [|y l]; constructor. assert (y ∈ y :: l) as Hy by apply list_elem_of_here. apply Hl in Hy. lia.
    + intros a. rewrite elem_of_cons, Hl. split; [intros [-> |[]]; split; (done || lia)|].
      intros [Ha Hm]. destruct (decide (a = from)); [by left|right]. split; [lia|done].
  - exists l. split; [done|]. split; [done|]. intros a. rewrite Hl. split; intros [Ha Hm]; (split; [|done]); [lia|].
    assert (a <> from) by congruence. lia.
Qed.

Lemma matches_bytes m pat a : matches m pat a = true <-> forall i c, pat !! i = Some c -> load_byte m (a + Z.of_nat i) = c.
Proof.
  revert a. induction pat as [|c pat IH]; intros a; cbn [matches]; [split; [by intros _ i c Hi|done]|].
  rewrite andb_true_iff, Z.eqb_eq, IH. split.
  - intros [Hc Hp] [|i] d Hd; cbn in Hd; [by simplify_eq; rewrite Z.add_0_r|]. rewrite <- (Hp i d Hd). f_equal. lia.
  - intros Hp. split; [specialize (Hp 0%nat c eq_refl); by rewrite Z.add_0_r in Hp|].
    intros i d Hd. rewrite <- (Hp (S i) d Hd). f_equal. lia.
Qed.

(** The search command finds the pattern: when the user does not stop it, and
    the range does not reach the last address, it ends and reports, in ascending
    order, exactly the addresses at which all the bytes of the pattern are in
    memory, within the range. *)
Theorem search_finds (m : mem) (from to : Z) (pat : list Z) (Hne : pat <> []) (Hf : 0 <= from)
  (Hlen : from + Z.of_nat (length pat) <= to + 1) (Ht : to < 2 ^ 32 - 1) :
  exists l, search_mem m from to pat [] = Some l /\ Sorted Z.lt l /\
    forall a, a ∈ l <-> (from <= a /\ a + Z.of_nat (length pat) <= to + 1) /\
      forall i c, pat !! i = Some c -> load_byte m (a + Z.of_nat i) = c.
Proof.
  assert (0 < length pat)%nat by (destruct pat; [done|cbn; lia]). unfold search_mem.
  rewrite u32_small by (change (2 ^ 32) with 4294967296 in *; lia).
  destruct (search_loop_finds (Z.to_nat (to - (Z.of_nat (length pat) - 1) - from + 2)) m from (to - (Z.of_nat (length pat) - 1)) pat)
    as (l & El & Hs & Hl); [lia|lia|lia|].
  exists l. split; [done|]. split; [done|]. intros a. rewrite Hl, matches_bytes. split; intros [Ha Hm]; (split; [lia|done]).
Qed.

Lemma search_finds_witness :
  exists l, search_mem (fun a => a mod 16) 0x80020000 0x80020028 [3; 4] [] = Some l /\ Sorted Z.lt l /\
    forall a, a ∈ l <-> (0x80020000 <= a /\ a + Z.of_nat 2 <= 0x80020028 + 1) /\
      forall i c, [3; 4] !! i = Some c -> load_byte (fun a => a mod 16) (a + Z.of_nat i) = c.
Proof.
  apply (search_finds (fun a => a mod 16) 0x80020000 0x80020028 [3; 4]); [done|lia|vm_compute; congruence|vm_compute; done].
Defined.
