(* ===== verification/Shell.v ===== *)
(** * Shell: the command loop

    The part of [src/pmon/main.c] that executes a line: the expansion of
    variables ([expand]), the commands separated by semicolons, and the search of
    the command table ([do_cmd]); the table is that of [src/pmon/cmdtable.c]. The
    commands themselves are a parameter.

    The theorems: a line of words runs its commands in order, up to the first that
    fails, and quoted semicolons do not separate ([performs] says so apart from the
    code); lines of plain references are expanded to their values. [expand] can
    overrun its buffer: [open_brace]. *)

From S2P Require Import Prelude CString Tunables Env Ring Hist.

(** [src/pmon/pmon.h:90] *)
Definition LINESZ : nat := 200.
(** [sizeof (expline)]. [src/pmon/main.c:446] *)
Definition EXPSZ : nat := LINESZ + 8.
(** [src/pmon/main.c:519] *)
Definition NCMDS : nat := 20.

(** ** Variables *)

(** The outcome: the line, a message and no line, or the scan of the line goes on
    past its end. *)
Inductive expansion : Type :=
| ExpLine (s : cstr)
| ExpFail (msg : trace)
| ExpOverrun.

Fixpoint span_brace (s : cstr) : cstr * cstr :=
  match s with
  | [] => ([], [])
  | c :: s' => if c =? ch "}" then ([], s) else let '(n, r) := span_brace s' in (c :: n, r)
  end.

Fixpoint span_alnum (s : cstr) : cstr * cstr :=
  match s with
  | [] => ([], [])
  | c :: s' => if isalpha c || isdigit c then let '(n, r) := span_alnum s' in (c :: n, r) else ([], s)
  end.

(** The name after the dollar and what follows it; an open brace lets the pointer
    pass the end of the line ([None]). [src/pmon/main.c:470-490] *)
Definition var_name (ip : cstr) : cstr * cptr :=
  if at_ ip 0 =? ch "{" then
    let '(n, r) := span_brace (drop 1 ip) in
    (n, match r with [] => None | _ :: r' => Some r' end)
  else let '(n, r) := span_alnum ip in (n, Some r).

Definition too_long : expansion := ExpFail [Printf "Line too long after expansion\n" []].

(** A second dollar gives a dollar but is not passed. Every round passes a
    character. [src/pmon/main.c:454-506] *)
Fixpoint expand_loop (fuel : nat) (getenv : cstr -> cptr) (ip op : cstr) : expansion :=
  match fuel with
  | O => ExpOverrun
  | S f =>
      match ip with
      | [] => ExpLine op
      | c :: ip' =>
          if (EXPSZ - 1 <=? length op)%nat then too_long
          else if negb (c =? ch "$") then expand_loop f getenv ip' (op ++ [c])
          else if at_ ip' 0 =? ch "$" then expand_loop f getenv ip' (op ++ [ch "$"])
          else
            let '(var, r) := var_name ip' in
            match getenv var with
            | None => ExpFail [Printf "Undefined variable %s\n" [AStr (Some var)]]
            | Some v =>
                if (EXPSZ - 1 <=? length op + length v)%nat then too_long
                else match r with None => ExpOverrun | Some ip => expand_loop f getenv ip (op ++ v) end
            end
      end
  end.

(** [src/pmon/main.c:441-507] *)
Definition expand (getenv : cstr -> cptr) (cmdline : cstr) : expansion :=
  match strchr (Some cmdline) (ch "$") with
  | None => ExpLine cmdline
  | Some _ => expand_loop (S (length cmdline)) getenv cmdline []
  end.

(** ** The commands of a line *)

(** The commands; [q] is the quote the scan is inside of. [src/pmon/main.c:548-563] *)
Fixpoint split_cmds (q : option Z) (s cur : cstr) : list cstr :=
  match s with
  | [] => [cur]
  | c :: s' =>
      match q with
      | Some d => split_cmds (if c =? d then None else q) s' (cur ++ [c])
      | None =>
          if (c =? squote) || (c =? dquote) then split_cmds (Some c) s' (cur ++ [c])
          else if c =? ch ";" then cur :: split_cmds None s' []
          else split_cmds None s' (cur ++ [c])
      end
  end.

(** [src/pmon/pmon.h:175-184] *)
Record cmd : Type := mkCmd { c_name : cstr; c_opts : cstr; minac : nat; maxac : nat; repeat_ : bool }.

(** With the network and the serial loader, without the options of single boards.
    [src/pmon/cmdtable.c:57-134] *)
Definition CmdTable : list cmd :=
  (fun '(n, o, lo, hi, rp) => mkCmd (str n) (str o) lo hi rp) <$>
  [("h", "[*|cmd..]", 1, 99, false); ("hi", "[cnt]", 1, 2, false);
   ("m", "adr [val|-s str]..", 2, 99, true); ("r", "[reg* [val|field val]]", 1, 4, true);
   ("d", "[-bhws] adr [cnt]", 2, 4, true); ("l", "[-bct][adr [cnt]]", 1, 5, true);
   ("copy", "from to siz", 4, 4, true); ("fill", "from to {val|-s str}..", 4, 99, true);
   ("search", "from to {val|-s str}..", 4, 99, true); ("tr", "", 1, 1, true);
   ("g", "[-s][-b bpadr][-e adr][-- args]", 1, 99, true); ("c", "[bptadr]", 1, 2, true);
   ("t", "[-vibcmMrR] [cnt]", 1, 99, true); ("to", "[-vibc] [cnt]", 1, 99, true);
   ("b", "[-drwx] [-l len] [-s cmd] [adr]..", 1, 99, true); ("db", "[numb|*]..", 1, 99, true);
   ("load", "[-beastif][-u baud][-o offs][-c cmd][-h port]", 1, 16, false);
   ("dump", "[-B] adr siz [port]", 3, 6, false);
   ("set", "[name [value]]", 1, 3, true); ("eset", "name ...", 2, 99, true); ("unset", "name* ...", 2, 99, true);
   ("debug", "[-svV][-h port][-- args]", 1, 99, false); ("stty", "[device] [opts]", 1, 99, true);
   ("sym", "name value", 3, 5, true); ("ls", "[-ln sym*|-va adr]", 1, 99, true);
   ("flush", "[-di]", 1, 3, true); ("mt", "[-c][[addr] size]", 1, 4, true);
   ("call", "addr [val|-s str]..", 2, 99, true); ("bt", "[-v] [cnt]", 1, 3, true);
   ("boot", "[-bens] [[host:]file]", 1, 99, true); ("ping", "[-fqrv] [-c cnt] [-s sz] host", 1, 99, true);
   ("sh", "", 1, 99, true); ("more", "", 1, 99, true); ("reboot", "", 1, 99, false)]%string%nat.

Section Shell.
(** The rest of the monitor, and what a command does: its number in the table, the
    flag [repeating_cmd] and its words give a status, the new state and a text. *)
Context {S W : Type} (func : nat -> bool -> list cstr -> S -> Z * S * trace).
#[local] Set Default Proof Using "Type".

Definition lookup_cmd (name : cstr) : option (nat * cmd) :=
  list_find (fun c => strequ (Some (c_name c)) (Some name) = true) CmdTable.

(** One command: whether the next is executed, the state, and what is printed.
    [src/pmon/main.c:566-599] *)
Definition do_one (repeating : bool) (line : cstr) (s : S) : bool * S * trace :=
  match argvize line with
  | [] => (true, s, [])
  | a0 :: args =>
      match lookup_cmd a0 with
      | None => (false, s, [Printf "%s: Command not found.\n" [AStr (Some a0)]])
      | Some (i, c) =>
          let ac := length (a0 :: args) in
          if repeating && negb (repeat_ c) then (false, s, [])
          else
            let '(stat, s, o) :=
              if (ac <? minac c)%nat then (-1, s, [Printf "%s: not enough arguments\n" [AStr (Some (c_name c))]])
              else if (maxac c <? ac)%nat then (-1, s, [Printf "%s: too many arguments\n" [AStr (Some (c_name c))]])
              else func i repeating (a0 :: args) s in
            (stat =? 0, s,
             o ++ if stat <? 0 then [Printf "usage: %s %s\n" [AStr (Some (c_name c)); AStr (Some (c_opts c))]] else [])
      end
  end.

(** [src/pmon/main.c:565-600] *)
Fixpoint do_list (repeating : bool) (cmds : list cstr) (s : S) (o : trace) : S * trace :=
  match cmds with
  | [] => (s, o)
  | l :: cmds' =>
      let '(go, s, o1) := do_one repeating l s in
      if go : bool then do_list repeating cmds' s (o ++ o1) else (s, o ++ o1)
  end.

(** The line for an empty one, by the variable [rptcmd]: the line to execute, or
    what is printed. [None]: the length of the word is not defined.
    [src/pmon/main.c:523-544] *)
Definition repeat_line (en : env (W := W)) (h : history) : option (cstr + trace) :=
  let rptcmd := matchenv (str "rptcmd") en in
  if rptcmd =? 0 then Some (inr [])
  else
    let t := gethistn (histno h - 1) h in
    if rptcmd =? 1 then Some (inl (strcpy t))
    else if rptcmd =? 2 then
      n ← wordsz t;
      if 10 <? n then Some (inr [])
      else
        let tmp := (getword t).1 in
        if strequ (Some tmp) (Some (str "t")) || strequ (Some tmp) (Some (str "to")) then Some (inl tmp) else Some (inr [])
    else Some (inr [Printf "bad rptcmd value [%s]\n" [AStr (getenv (str "rptcmd") en)]]).

(** The commands of the line; [None] when the scan passes the end of the line or
    there are more commands than [cmdlist] has room for.
    [src/pmon/main.c:545-600] *)
Definition do_line (repeating : bool) (en : env (W := W)) (p : cstr) (s : S) : option (S * trace) :=
  match expand (fun n => getenv n en) p with
  | ExpFail o => Some (s, o)
  | ExpOverrun => None
  | ExpLine p =>
      let cmds := split_cmds None p [] in
      if (NCMDS <? length cmds)%nat then None else Some (do_list repeating cmds s [])
  end.

(** [src/pmon/main.c:514-601] *)
Definition do_cmd (en : env (W := W)) (h : history) (p : cstr) (s : S) : option (S * trace) :=
  if strempty (Some p) then
    r ← repeat_line en h;
    match r with
    | inr o => Some (s, o)
    | inl p => do_line true en p s
    end
  else do_line false en p s.

(** [src/pmon/main.c:710-730] *)
Fixpoint getln (m : list Z) : cstr * list Z * bool :=
  match m with
  | [] => ([], [], false)
  | c :: m' =>
      if (c =? 0xff) || (c =? 0) then ([], m, false)
      else if c =? nl then ([], m', true)
      else let '(l, r, more) := getln m' in (c :: l, r, more)
  end.
End Shell.

(** ** Expansion *)

Lemma expand_loop_fits fuel getenv ip op s : (length op < EXPSZ)%nat -> expand_loop fuel getenv ip op = ExpLine s -> (length s < EXPSZ)%nat.
Proof.
  revert ip op. induction fuel as [|f IH]; intros ip op Hop H; [done|]. cbn [expand_loop] in H.
  destruct ip as [|c ip]; [by injection H as <-|].
  destruct (Nat.leb_spec (EXPSZ - 1) (length op)); [done|].
  assert (forall x, length (op ++ [x]) < EXPSZ)%nat as Hx by (intros x; rewrite length_app; cbn [length]; lia).
  destruct (negb _); [by eapply IH, H|]. destruct (_ =? _); [by eapply IH, H|]. destruct (var_name ip) as [var r].
  destruct (getenv var) as [v|]; [|done]. destruct (Nat.leb_spec (EXPSZ - 1) (length op + length v)); [done|].
  destruct r as [r|]; [|done]. eapply IH, H. rewrite length_app. lia.
Qed.

(** A line in pieces: a character, or a variable with braces or without. *)
Inductive piece : Type :=
| PChar (c : Z)
| PVar (name : cstr) (brace : bool).

Definition print_piece (p : piece) : cstr :=
  match p with
  | PChar c => [c]
  | PVar n true => ch "$" :: ch "{" :: n ++ [ch "}"]
  | PVar n false => ch "$" :: n
  end.
Definition print_line (ps : list piece) : cstr := concat (print_piece <$> ps).

Definition alnum (c : Z) : bool := isalpha c || isdigit c.

(** A name without braces ends where the letters and digits end. *)
Fixpoint pieces_ok (ps : list piece) : Prop :=
  match ps with
  | [] => True
  | PChar c :: ps' => c <> ch "$" /\ pieces_ok ps'
  | PVar n true :: ps' => Forall (fun c => c <> ch "}") n /\ pieces_ok ps'
  | PVar n false :: ps' =>
      n <> [] /\ Forall (fun c => alnum c = true) n /\
      match ps' with PChar c :: _ => alnum c = false | _ => True end /\ pieces_ok ps'
  end.

Section Values.
Context (getenv : cstr -> cptr).
#[local] Set Default Proof Using "Type".

Definition value_piece (p : piece) : cstr := match p with PChar c => [c] | PVar n _ => default [] (getenv n) end.
Definition value_line (ps : list piece) : cstr := concat (value_piece <$> ps).
Definition defined (ps : list piece) : Prop := Forall (fun p => match p with PVar n _ => getenv n <> None | _ => True end) ps.

Lemma span_brace_name n r : Forall (fun c => c <> ch "}") n -> span_brace (n ++ ch "}" :: r) = (n, ch "}" :: r).
Proof.
  induction 1 as [|c n Hc Hn IH]; [done|]. cbn [app span_brace]. by rewrite (proj2 (Z.eqb_neq _ _) Hc), IH.
Qed.

Lemma span_alnum_name n r : Forall (fun c => alnum c = true) n -> match r with c :: _ => alnum c = false | [] => True end ->
  span_alnum (n ++ r) = (n, r).
Proof.
  intros Hn Hr. induction Hn as [|c n Hc Hn IH]; cbn [app span_alnum].
  - destruct r as [|c r]; [done|]. cbn. unfold alnum in Hr. by rewrite Hr.
  - unfold alnum in Hc. by rewrite Hc, IH.
Qed.

Lemma next_not_alnum ps : pieces_ok ps -> match ps with PChar c :: _ => alnum c = false | _ => True end ->
  match print_line ps with c :: _ => alnum c = false | [] => True end.
Proof. destruct ps as [|[c|n []] ps]; cbn; [done|naive_solver|done|done]. Qed.

Lemma alnum_not_special n : n <> [] -> Forall (fun c => alnum c = true) n -> at_ n 0 <> ch "$" /\ at_ n 0 <> ch "{".
Proof. destruct n as [|c n]; [done|]. intros _ H. apply Forall_cons_iff in H as [Hc _]. split; intros E; cbn in E; rewrite E in Hc; done. Qed.

Lemma var_name_piece n b r : pieces_ok [PVar n b] -> (b = false -> match r with c :: _ => alnum c = false | [] => True end) ->
  exists ip, print_piece (PVar n b) ++ r = ch "$" :: ip /\ (at_ ip 0 =? ch "$") = false /\ var_name ip = (n, Some r).
Proof.
  intros Hok Hr. destruct b; cbn in Hok.
  - exists (ch "{" :: n ++ ch "}" :: r). split; [cbn; by rewrite <- app_assoc|]. split; [done|].
    unfold var_name. change (at_ (ch "{" :: _) 0 =? ch "{") with true.
    change (drop 1 (ch "{" :: ?l)) with l. by rewrite span_brace_name by apply Hok.
  - destruct Hok as (Hne & Hn & _). exists (n ++ r). split; [done|]. destruct (alnum_not_special n Hne Hn) as [H1 H2].
    assert (at_ (n ++ r) 0 = at_ n 0) as E by (by destruct n). rewrite E, (proj2 (Z.eqb_neq _ _) H1). split; [done|].
    unfold var_name. rewrite E, (proj2 (Z.eqb_neq _ _) H2). by rewrite (span_alnum_name n r Hn (Hr eq_refl)).
Qed.

Lemma expand_loop_pieces ps : forall fuel op, pieces_ok ps -> defined ps ->
  (length (print_line ps) < fuel)%nat -> (length op + length (value_line ps) < EXPSZ - 1)%nat ->
  expand_loop fuel getenv (print_line ps) op = ExpLine (op ++ value_line ps).
Proof.
  induction ps as [|p ps IH]; intros fuel op Hok Hdef Hfu Hlen; (destruct fuel as [|f]; [lia|]).
  { cbn. by rewrite app_nil_r. }
  apply Forall_cons_iff in Hdef as [Hd Hdef].
  change (print_line (p :: ps)) with (print_piece p ++ print_line ps) in *.
  change (value_line (p :: ps)) with (value_piece p ++ value_line ps) in *. rewrite !length_app in *.
  destruct p as [c|n b].
  - destruct Hok as [Hc Hok]. cbn [print_piece app expand_loop]. cbn [print_piece value_piece length] in Hfu, Hlen.
    rewrite (proj2 (Nat.leb_gt _ _)) by lia. rewrite (proj2 (Z.eqb_neq _ _) Hc). cbn [negb].
    rewrite IH; [by rewrite <- app_assoc|done|done|lia|]. rewrite length_app. cbn [length]. lia.
  - assert (pieces_ok ps /\ pieces_ok [PVar n b] /\ (b = false -> match print_line ps with c :: _ => alnum c = false | [] => True end))
      as (Hok1 & Hok2 & Hnext).
    { destruct b; cbn in *; [naive_solver|]. destruct Hok as (? & ? & Hn & ?). split; [done|]. split; [done|]. intros _. by apply next_not_alnum. }
    destruct (var_name_piece n b (print_line ps) Hok2 Hnext) as (ip & E & Es & Ev). rewrite E.
    cbn [expand_loop]. rewrite (proj2 (Nat.leb_gt _ _)) by lia. change (negb (ch "$" =? ch "$")) with false. cbn iota. rewrite Es, Ev.
    destruct (getenv n) as [v|] eqn:En; [|by destruct Hd]. cbn [value_piece] in Hlen |- *. rewrite En in Hlen |- *. cbn [default] in Hlen |- *. unfold id in *.
    rewrite (proj2 (Nat.leb_gt _ _)) by lia. rewrite IH; [by rewrite <- app_assoc|done|done| |rewrite length_app; lia].
    assert (length (print_piece (PVar n b) ++ print_line ps) = S (length ip)) as El by (by rewrite E). rewrite length_app in El.
    assert (1 <= length (print_piece (PVar n b)))%nat by (destruct b; cbn; lia). lia.
Qed.
End Values.

Lemma strchr_found s c : c ∈ s -> c <> 0 -> exists i, strchr (Some s) c = Some i.
Proof.
  intros Hc H0. destruct (strchr (Some s) c) as [i|] eqn:E; [by exists i|]. apply strchr_None in E. done.
Qed.

Lemma expand_line getenv ps : pieces_ok ps -> defined getenv ps -> (length (value_line getenv ps) < EXPSZ - 1)%nat ->
  expand getenv (print_line ps) = ExpLine (value_line getenv ps).
Proof.
  intros Hok Hdef Hlen. unfold expand. destruct (strchr _ _) eqn:E.
  { by rewrite expand_loop_pieces by (done || lia). }
  apply strchr_None in E. f_equal. clear Hlen. induction ps as [|[c|n b] ps IH]; [done| |].
  - change (print_line (PChar c :: ps)) with (c :: print_line ps) in *. change (value_line getenv (PChar c :: ps)) with (c :: value_line getenv ps).
    f_equal. apply IH; [apply Hok|by apply Forall_cons_iff in Hdef as [_ Hdef]|]. intros Hin. apply E. by apply list_elem_of_further.
  - destruct E. change (print_line (PVar n b :: ps)) with (print_piece (PVar n b) ++ print_line ps). destruct b; apply list_elem_of_here.
Qed.

(** The expansion of a line: when a line is made of characters other than a
    dollar and of references to variables that are set, with braces or without,
    and the result is shorter than the buffer, [expand] gives the line with every
    reference replaced by the value; and whatever the line, a result written to the
    buffer fits it. *)
Theorem expand_values (getenv : cstr -> cptr) (ps : list piece) (Hok : pieces_ok ps) (Hdef : defined getenv ps)
  (Hlen : (length (value_line getenv ps) < EXPSZ - 1)%nat) :
  expand getenv (print_line ps) = ExpLine (value_line getenv ps) /\
  forall fuel ip s, expand_loop fuel getenv ip [] = ExpLine s -> (length s < EXPSZ)%nat.
Proof.
  split; [by apply expand_line|]. intros fuel ip s. apply expand_loop_fits. unfold EXPSZ. cbn. lia.
Qed.

(** A line with the two kinds of reference. *)
Definition env1 (n : cstr) : cptr := if strequ (Some n) (Some (str "p")) then Some (str "tty1") else Some (str "ab").
Definition line1 : list piece :=
  (PChar <$> str "load ") ++ [PVar (str "p") false; PChar (ch " "); PVar (str "q") true; PChar (ch "s")].

Lemma expand_values_witness :
  print_line line1 = str "load $p ${q}s" /\ expand env1 (print_line line1) = ExpLine (str "load tty1 abs").
Proof.
  split; [vm_compute; reflexivity|].
  assert (str "load tty1 abs" = value_line env1 line1) as -> by (vm_compute; reflexivity).
  apply (expand_values env1 line1).
  - vm_compute. repeat split; try congruence; repeat constructor; congruence.
  - repeat constructor; vm_compute; congruence.
  - vm_compute. lia.
Defined.

(** ** The commands of a line *)

(** The text of a command: plain characters and quoted texts. *)
Inductive seg : Type :=
| SChar (c : Z)
| SQuote (q : Z) (s : cstr).

Definition seg_ok (g : seg) : Prop :=
  match g with
  | SChar c => c <> squote /\ c <> dquote /\ c <> ch ";"
  | SQuote q s => (q = squote \/ q = dquote) /\ Forall (fun c => c <> q) s
  end.
Definition print_seg (g : seg) : cstr := match g with SChar c => [c] | SQuote q s => q :: s ++ [q] end.
Definition print_cmd (gs : list seg) : cstr := concat (print_seg <$> gs).

(** The commands with semicolons between them. *)
Fixpoint join_cmds (cs : list cstr) : cstr :=
  match cs with
  | [] => []
  | [c] => c
  | c :: cs' => c ++ ch ";" :: join_cmds cs'
  end.

Lemma split_quoted q s r cur : Forall (fun c => c <> q) s -> split_cmds (Some q) (s ++ q :: r) cur = split_cmds None r (cur ++ s ++ [q]).
Proof.
  intros Hs. revert cur. induction Hs as [|c s Hc Hs IH]; intros cur; cbn [app split_cmds]; [by rewrite Z.eqb_refl|].
  rewrite (proj2 (Z.eqb_neq _ _) Hc), IH, <- app_assoc. done.
Qed.

Lemma split_segs gs r cur : Forall seg_ok gs -> split_cmds None (print_cmd gs ++ r) cur = split_cmds None r (cur ++ print_cmd gs).
Proof.
  intros Hg. revert cur. induction Hg as [|g gs Hg Hgs IH]; intros cur; [by rewrite app_nil_r|].
  change (print_cmd (g :: gs)) with (print_seg g ++ print_cmd gs). destruct g as [c|q s]; cbn [print_seg].
  - destruct Hg as (H1 & H2 & H3). cbn [app split_cmds].
    rewrite (proj2 (Z.eqb_neq _ _) H1), (proj2 (Z.eqb_neq _ _) H2), (proj2 (Z.eqb_neq _ _) H3). cbn [orb].
    by rewrite IH, <- app_assoc.
  - destruct Hg as [Hq Hs]. rewrite <- !app_comm_cons, <- !app_assoc. cbn [app split_cmds].
    assert ((q =? squote) || (q =? dquote) = true) as -> by (destruct Hq as [-> | ->]; done).
    rewrite split_quoted by done. rewrite IH. f_equal. by rewrite <- !app_assoc.
Qed.

Lemma split_join css : css <> [] -> Forall (Forall seg_ok) css ->
  split_cmds None (join_cmds (print_cmd <$> css)) [] = print_cmd <$> css.
Proof.
  intros Hne Hok. induction Hok as [|gs css Hg Hok IH]; [done|]. destruct css as [|gs' css].
  - cbn [fmap list_fmap join_cmds]. rewrite <- (app_nil_r (print_cmd gs)) at 1. by rewrite split_segs.
  - specialize (IH ltac:(done)). rewrite !fmap_cons in *.
    change (join_cmds (?a :: ?b :: ?l)) with (a ++ ch ";" :: join_cmds (b :: l)). rewrite split_segs by done. cbn [split_cmds app].
    change ((ch ";" =? squote) || (ch ";" =? dquote)) with false. change (ch ";" =? ch ";") with true. cbn iota. by rewrite IH.
Qed.

(** A word of a command: plain characters, or a quoted text. *)
Inductive word : Type :=
| WPlain (w : cstr)
| WQuote (q : Z) (s : cstr).

Definition word_value (w : word) : cstr := match w with WPlain w => w | WQuote _ s => s end.

Definition word_ok (w : word) : Prop :=
  match w with
  | WPlain w => w <> [] /\ Forall (fun c => 32 < c /\ c <> squote /\ c <> dquote /\ c <> ch ";") w
  | WQuote q s => (q = squote \/ q = dquote) /\ Forall (fun c => c <> q) s
  end.

Definition word_segs (w : word) : list seg :=
  match w with WPlain w => SChar <$> w | WQuote q s => [SQuote q s] end.

(** The words with a blank between them. *)
Fixpoint words_segs (ws : list word) : list seg :=
  match ws with
  | [] => []
  | [w] => word_segs w
  | w :: ws' => word_segs w ++ SChar 32 :: words_segs ws'
  end.

(** A command is its words after some blanks. *)
Definition command : Type := nat * list word.
Definition command_segs (c : command) : list seg := replicate c.1 (SChar 32) ++ words_segs c.2.
Definition command_ok (c : command) : Prop := Forall word_ok c.2 /\ (length c.2 <= MAX_AC)%nat.
Definition command_words (c : command) : list cstr := word_value <$> c.2.

(** The text of a line: its commands with semicolons between them. *)
Definition line_text (cs : list command) : cstr := join_cmds ((fun c => print_cmd (command_segs c)) <$> cs).

Lemma print_cmd_app g h : print_cmd (g ++ h) = print_cmd g ++ print_cmd h.
Proof. unfold print_cmd. by rewrite fmap_app, concat_app. Qed.

Lemma print_plain w : print_cmd (SChar <$> w) = w.
Proof. induction w as [|c w IH]; [done|]. unfold print_cmd in *. cbn. by rewrite IH. Qed.

Lemma command_segs_ok c : command_ok c -> Forall seg_ok (command_segs c).
Proof.
  intros [Hws _]. unfold command_segs. apply Forall_app. split.
  { induction c.1; cbn; [constructor|]. constructor; [vm_compute; split_and!; congruence|done]. }
  assert (forall w, word_ok w -> Forall seg_ok (word_segs w)) as Hw.
  { intros [w|q s]; cbn; [|by constructor]. intros [_ Hw]. induction Hw as [|x w Hx Hw IH]; cbn; [constructor|]. constructor; [cbn; tauto|done]. }
  induction Hws as [|w ws Hw1 Hws IH]; [constructor|]. destruct ws as [|w' ws]; [by apply Hw|].
  change (words_segs (w :: w' :: ws)) with (word_segs w ++ SChar 32 :: words_segs (w' :: ws)).
  apply Forall_app. split; [by apply Hw|]. constructor; [vm_compute; split_and!; congruence|done].
Qed.

Lemma skip_blanks k s : skip_blank (replicate k 32 ++ s) = skip_blank s.
Proof. induction k as [|k IH]; [done|]. cbn [replicate app]. by rewrite <- IH. Qed.

Lemma argvize_loop_blanks n k s : argvize_loop n (replicate k 32 ++ s) = argvize_loop n s.
Proof. destruct n; [done|]. cbn [argvize_loop]. by rewrite skip_blanks. Qed.

(** A word is read up to the blank after it, or to the end. *)
Lemma argvize_loop_word n w r :
  word_ok w -> (r = [] \/ exists r', r = 32 :: r') ->
  argvize_loop (S n) (print_cmd (word_segs w) ++ r) = word_value w :: argvize_loop n (drop 1 r).
Proof.
  intros Hw Hr. destruct w as [w|q s].
  - cbn [word_segs word_value]. rewrite print_plain. destruct Hw as [Hne Hw].
    assert (span_word (w ++ r) = (w, r)) as Hs.
    { clear Hne. induction Hw as [|c w (Hc & _) Hw IH]; cbn [app span_word].
      - by destruct Hr as [-> |[r' ->]].
      - rewrite (proj2 (Z.ltb_lt _ _)) by lia. by rewrite IH. }
    destruct w as [|c w]; [done|]. apply Forall_cons_iff in Hw as [(Hc & H1 & H2 & _) _].
    cbn [argvize_loop app skip_blank] in *. rewrite (proj2 (Z.leb_gt _ _)) by lia.
    rewrite (proj2 (Z.eqb_neq _ _) H1), (proj2 (Z.eqb_neq _ _) H2). cbn [orb]. by rewrite Hs.
  - destruct Hw as [Hq Hs]. assert (print_cmd (word_segs (WQuote q s)) = q :: s ++ [q]) as ->.
    { cbn. by rewrite app_nil_r. }
    assert (span_quote q ((s ++ [q]) ++ r) = (s, q :: r)) as Hsp.
    { rewrite <- app_assoc. change ([q] ++ r) with (q :: r). induction Hs as [|c s Hc Hs IH]; cbn [app span_quote]; [by rewrite Z.eqb_refl|].
      by rewrite (proj2 (Z.eqb_neq _ _) Hc), IH. }
    cbn [app argvize_loop skip_blank word_value].
    assert ((q <=? 32) = false) as -> by (by destruct Hq as [-> | ->]).
    assert ((q =? squote) || (q =? dquote) = true) as -> by (by destruct Hq as [-> | ->]). by rewrite Hsp.
Qed.

Lemma argvize_words ws n :
  Forall word_ok ws -> (length ws <= n)%nat ->
  argvize_loop n (print_cmd (words_segs ws)) = word_value <$> ws.
Proof.
  intros Hws. revert n. induction Hws as [|w ws Hw Hws IH]; intros n Hn; [by destruct n|].
  cbn [length] in Hn. destruct n as [|n]; [lia|]. destruct ws as [|w' ws].
  - cbn [words_segs]. rewrite <- (app_nil_r (print_cmd _)), argvize_loop_word by auto. by destruct n.
  - change (words_segs (w :: w' :: ws)) with (word_segs w ++ [SChar 32] ++ words_segs (w' :: ws)).
    rewrite !print_cmd_app, argvize_loop_word; [|done|right; by eexists].
    change (drop 1 (print_cmd [SChar 32] ++ ?l)) with l. rewrite IH by lia. done.
Qed.

Lemma argvize_command c : command_ok c -> argvize (print_cmd (command_segs c)) = command_words c.
Proof.
  intros [Hws Hn]. unfold argvize, command_segs. rewrite print_cmd_app.
  assert (print_cmd (replicate c.1 (SChar 32)) = replicate c.1 32) as ->.
  { induction c.1 as [|k IH]; [done|]. cbn [replicate]. rewrite <- IH. done. }
  rewrite argvize_loop_blanks. by apply argvize_words.
Qed.

Section Sequence.
Context {S W : Type} (func : nat -> bool -> list cstr -> S -> Z * S * trace).
#[local] Set Default Proof Using "Type".

(** What one command does, by its words: whether it succeeds, the state it
    leaves and what is printed. Only a command that returns 0 succeeds. *)
Inductive performs : list cstr -> S -> bool -> S -> trace -> Prop :=
| p_blank s : performs [] s true s []
| p_unknown name args s :
    (forall c, c ∈ CmdTable -> c_name c <> name) ->
    performs (name :: args) s false s [Printf "%s: Command not found.\n" [AStr (Some name)]]
| p_count i c args s msg :
    CmdTable !! i = Some c ->
    ((1 + length args < minac c)%nat /\ msg = "%s: not enough arguments\n"%string) \/
    ((maxac c < 1 + length args)%nat /\ msg = "%s: too many arguments\n"%string) ->
    performs (c_name c :: args) s false s
      [Printf msg [AStr (Some (c_name c))]; Printf "usage: %s %s\n" [AStr (Some (c_name c)); AStr (Some (c_opts c))]]
| p_run i c args s s' o :
    CmdTable !! i = Some c -> (minac c <= 1 + length args <= maxac c)%nat ->
    func i false (c_name c :: args) s = (0, s', o) ->
    performs (c_name c :: args) s true s' o
| p_fail i c args s stat s' o :
    CmdTable !! i = Some c -> (minac c <= 1 + length args <= maxac c)%nat ->
    func i false (c_name c :: args) s = (stat, s', o) -> stat <> 0 ->
    performs (c_name c :: args) s false s'
      (o ++ if stat <? 0 then [Printf "usage: %s %s\n" [AStr (Some (c_name c)); AStr (Some (c_opts c))]] else []).

(** The meaning of a sequence: the commands one after the other, up to and with
    the first that does not succeed. *)
Inductive executes : list (list cstr) -> S -> S -> trace -> Prop :=
| ex_end s : executes [] s s []
| ex_next l ls s s1 s2 o1 o2 :
    performs l s true s1 o1 -> executes ls s1 s2 o2 -> executes (l :: ls) s s2 (o1 ++ o2)
| ex_stop l ls s s1 o1 : performs l s false s1 o1 -> executes (l :: ls) s s1 o1.

Lemma do_one_performs l s :
  let '(go, s', o) := do_one func false l s in performs (argvize l) s go s' o.
Proof.
  unfold do_one. destruct (argvize l) as [|a0 args]; [constructor|].
  unfold lookup_cmd. destruct (list_find _ CmdTable) as [[i c]|] eqn:E.
  - apply list_find_Some in E as (Hi & Hc & _). apply strequ_spec in Hc. subst a0. cbn [andb length].
    destruct (Nat.ltb_spec (Datatypes.S (length args)) (minac c)); [cbn; eapply p_count; [exact Hi|auto]|].
    destruct (Nat.ltb_spec (maxac c) (Datatypes.S (length args))); [cbn; eapply p_count; [exact Hi|auto]|].
    destruct (func i false (c_name c :: args) s) as [[stat s'] o] eqn:Ef. destruct (Z.eqb_spec stat 0) as [->|Hst].
    + cbn. rewrite app_nil_r. by apply (p_run i c).
    + apply (p_fail i c); [done|lia|done|done].
  - apply p_unknown. intros c Hc En. rewrite list_find_None in E. rewrite List.Forall_forall in E.
    apply (E c); [by apply list_elem_of_In|]. by apply strequ_spec.
Qed.

Lemma do_list_executes ls s o :
  exists s' o', do_list func false ls s o = (s', o ++ o') /\ executes (argvize <$> ls) s s' o'.
Proof.
  revert s o. induction ls as [|l ls IH]; intros s o; cbn [do_list].
  - exists s, []. rewrite app_nil_r. split; [done|constructor].
  - pose proof (do_one_performs l s) as H. destruct (do_one func false l s) as [[go s1] o1]. destruct go.
    + destruct (IH s1 (o ++ o1)) as (s2 & o2 & -> & H2). exists s2, (o1 ++ o2). rewrite <- app_assoc. split; [done|].
      by eapply ex_next.
    + exists s1, o1. split; [done|]. by apply ex_stop.
Qed.

(** C23. A line executes its commands. For a line that is not blank and that
    the expansion of variables turns into at most 20 commands separated by
    semicolons, each of at most 100 words that are plain or in quotes (a
    semicolon or a blank inside quotes belongs to the word), [do_cmd] runs the
    commands in order with their words as arguments and stops after the first
    that is unknown, has a wrong number of arguments or does not return 0; the
    messages for each are as [performs] states. *)
Theorem do_cmd_sequence (en : env (W := W)) (h : history) (p : cstr) (cs : list command) (s : S)
  (Hblank : strempty (Some p) = false) (Hne : cs <> []) (Hok : Forall command_ok cs) (Hn : (length cs <= 20)%nat)
  (Hexp : expand (fun n => getenv n en) p = ExpLine (line_text cs)) :
  exists s' o, do_cmd func en h p s = Some (s', o) /\ executes (command_words <$> cs) s s' o.
Proof.
  unfold do_cmd, do_line. rewrite Hblank, Hexp. unfold line_text.
  change ((fun c => print_cmd (command_segs c)) <$> cs) with ((print_cmd ∘ command_segs) <$> cs).
  rewrite list_fmap_compose, split_join; [|by destruct cs|].
  2: { apply Forall_fmap. eapply List.Forall_impl; [|exact Hok]. apply command_segs_ok. }
  rewrite !length_fmap, (proj2 (Nat.ltb_ge _ _)) by (unfold NCMDS; lia).
  destruct (do_list_executes (print_cmd <$> (command_segs <$> cs)) s []) as (s' & o & -> & He). exists s', o. split; [done|].
  replace (command_words <$> cs) with (argvize <$> (print_cmd <$> (command_segs <$> cs))); [done|].
  rewrite <- !list_fmap_compose. clear -Hok. induction Hok as [|c cs Hc Hok IH]; [done|]. rewrite !fmap_cons. f_equal; [by apply argvize_command|exact IH].
Qed.
End Sequence.

(** The names of the commands are different, so that none hides another. *)
Lemma commands_distinct : NoDup (c_name <$> CmdTable).
Proof. apply (bool_decide_unpack _). vm_compute. exact I. Qed.

(** ** Defects *)

(** A doubled dollar, meant to stand for one, puts a dollar in the line but the
    second is taken as the start of a variable. *)
Lemma double_dollar (getenv : cstr -> cptr) : getenv [] = None ->
  expand getenv (str "a$$") = ExpFail [Printf "Undefined variable %s\n" [AStr (Some [])]].
Proof. intros E. vm_compute. by rewrite E. Qed.

(** An open brace makes the scan go on past the end of the line. *)
Lemma open_brace (getenv : cstr -> cptr) : getenv (str "x") = Some (str "y") -> expand getenv (str "${x") = ExpOverrun.
Proof. intros E. vm_compute in E |- *. by rewrite E. Qed.

(** ** An example *)

(** A monitor whose commands all succeed and that counts them. *)
Definition count_cmd (i : nat) (rp : bool) (av : list cstr) (n : nat) : Z * nat * trace := (0, S n, []).
Definition no_env : env (W := unit) := mkEnv true (replicate NVAR (mkPair None None)) (mkTunables 24 0 0 false 0) tt [].
(** A text with its single quotes turned into double ones. *)
Definition dq (s : string) : cstr := (fun c => if c =? squote then dquote else c) <$> str s.
Definition two_cmds : list command :=
  [(0%nat, [WPlain (str "hi")]); (1%nat, [WPlain (str "set"); WPlain (str "x"); WQuote dquote (str "a;b")])].

Lemma do_cmd_sequence_witness :
  line_text two_cmds = dq "hi; set x 'a;b'" /\
  exists n o, do_cmd count_cmd no_env hist0 (dq "hi; set x 'a;b'") 0%nat = Some (n, o) /\
    executes count_cmd [[str "hi"]; [str "set"; str "x"; str "a;b"]] 0%nat n o.
Proof.
  assert (line_text two_cmds = dq "hi; set x 'a;b'") as E by (vm_compute; reflexivity). split; [exact E|]. rewrite <- E.
  apply (do_cmd_sequence count_cmd no_env hist0 (line_text two_cmds) two_cmds 0%nat);
    [vm_compute; reflexivity|done| |vm_compute; lia|vm_compute; reflexivity].
  assert (forall w, w <> [] -> forallb (fun c => (32 <? c) && negb (c =? squote) && negb (c =? dquote) && negb (c =? ch ";")) w = true ->
    word_ok (WPlain w)) as Hp.
  { intros w Hne H. split; [done|]. rewrite forallb_forall in H. apply List.Forall_forall. intros c Hc. specialize (H c Hc). lia. }
  assert (word_ok (WQuote dquote (str "a;b"))) as Hq.
  { split; [by right|]. repeat (apply List.Forall_cons; [vm_compute; congruence|]); apply List.Forall_nil. }
  apply List.Forall_cons; [|apply List.Forall_cons; [|apply List.Forall_nil]]; (split; [|cbn; unfold MAX_AC; lia]);
    repeat apply List.Forall_cons; try apply List.Forall_nil; try (by apply Hp); exact Hq.
Defined.
