(* ===== verification/Netboot.v ===== *)
(** * Netboot: programs loaded over the network

    The [boot] command of [src/net/cmd/boot.c]: the loaders for Windows CE images,
    ELF, ECOFF, S-records and fast records, which are tried in this order, the
    tables of symbols at the top of memory, and the command around them. The file
    is an interface ([NetFile]) that the TFTP client of Tftp implements. A step for
    which the code has no result (a read without an end, a store outside an array)
    ends the run as [Stuck], with the reason and the state up to it. *)

From S2P Require Import Prelude CString Format Memory Tunables Symtab Watch Loadrec LoadSafe Tftp.

(** ** The file *)

(** [netread] stores bytes and returns their number, or -1 ([false]), having
    perhaps stored some; [netlseek] returns the new offset. [None]: it waits for
    ever. *)
Class NetFile (F : Type) := {
  f_read : Z -> F -> option (list Z * bool * F);
  f_seek : Z -> F -> Z * F }.

(** What a loader relies on for its safety: a read stores no more than was asked
    for. *)
Class NetFileOk (F : Type) `{NetFile F} : Prop :=
  f_read_len : forall n f bs ok f', 0 <= n -> f_read n f = Some (bs, ok, f') -> Z.of_nat (length bs) <= n.

(** What it relies on to get its work done, from a file of contents [d] at offset
    [o]: a read within the file delivers its bytes, and an offset further on can be
    moved to. *)
Class NetFileData (F : Type) `{NetFile F} (file : list Z -> Z -> F -> Prop) : Prop := {
  fd_read : forall d o n f, file d o f -> 0 <= n -> o + n <= Z.of_nat (length d) ->
    exists f', f_read n f = Some (take (Z.to_nat n) (drop (Z.to_nat o) d), true, f') /\ file d (o + n) f';
  fd_seek : forall d o p f, file d o f -> o <= p -> exists f', f_seek p f = (p, f') /\ file d p f' }.

(** [src/net/cmd/tftplib.c:193-314] *)
#[export] Instance tftp_file : NetFile (tftpfile * net) := {|
  f_read n f := '(ok, out, f1, n1) ← tftpread n f.1 f.2; Some (out, ok, (f1, n1));
  f_seek o f := let '(r, f1, n1) := tftplseek o 0 f.1 f.2 in (r, (f1, n1)) |}.

Lemma copy_out_length nb f : 0 <= nb -> Z.of_nat (length (copy_out nb f).1) <= nb.
Proof.
  intros Hn. unfold copy_out. destruct (_ && _) eqn:E; [|cbn; lia]. cbn [fst]. rewrite length_take.
  destruct (Z.ltb_spec nb (fend f - foffs f)); lia.
Qed.

Lemma read_loop_length fuel nb out f n ok out' f' n' : 0 <= nb -> read_loop fuel nb out f n = Some (ok, out', f', n') ->
  Z.of_nat (length out') <= Z.of_nat (length out) + nb.
Proof.
  revert nb out f n. induction fuel as [|fu IH]; intros nb out f n Hn H; [done|]. cbn [read_loop] in H.
  destruct (_ || _); [simplify_eq; lia|]. pose proof (copy_out_length nb f Hn) as Hc. destruct (copy_out nb f) as [d f1]. cbn [fst] in Hc.
  assert (forall f2 n2, read_loop fu (nb - Z.of_nat (length d)) (out ++ d) f2 n2 = Some (ok, out', f', n') ->
    Z.of_nat (length out') <= Z.of_nat (length out) + nb) as Hgo.
  { intros f2 n2 H2. apply IH in H2; [|lia]. rewrite length_app in H2. lia. }
  destruct (_ <=? _); [|by eapply Hgo]. destruct (tftprrq _ _ _) as [[[k f2] n2]|]; [|done].
  destruct (k <? 0); [simplify_eq; rewrite length_app; lia|by eapply Hgo].
Qed.

#[export] Instance tftp_file_ok : NetFileOk (tftpfile * net).
Proof.
  intros n [f nt] bs ok f' Hn H. cbn in H. unfold tftpread in H. destruct (negb _); [simplify_eq/=; lia|].
  destruct (read_loop _ _ _ _ _) as [[[[ok1 out] f1] n1]|] eqn:E; [|done]. cbn in H. simplify_eq.
  apply read_loop_length in E; [|done]. cbn in E. lia.
Qed.

(** A file opened with TFTP whose blocks get through from port [P]. *)
Definition tftp_stands (P : Z) (d : list Z) (o : Z) (f : tftpfile * net) : Prop :=
  Z.of_nat (nblocks d) < 32767 /\ supplied d P o f.1 f.2.

#[export] Instance tftp_file_data P : NetFileData (tftpfile * net) (tftp_stands P).
Proof.
  split.
  - intros d o n [f nt] [Hd Hs] Hn Hle. cbn [fst snd] in Hs.
    destruct (read_loop_delivers d Hd P (length (n_in nt) + 3) o n [] f nt Hs Hn) as (f' & n' & E & Hs'); [lia|].
    exists (f', n'). split; [|by split; [|apply Hs']]. cbn. unfold tftpread.
    pose proof (supplied_reading d Hd _ _ _ _ Hs) as Hr.
    assert (access (flags f) = O_RDONLY) as -> by (destruct Hr as [[k (_ & _ & H & _)]|(_ & H & _)]; exact H).
    change (negb (O_RDONLY =? O_RDONLY)) with false. cbn iota. rewrite E. destruct Hs as (_ & _ & <-). done.
  - intros d o p [f nt] [Hd (Hk & Hsn & Eo)] Hle. cbn [fst snd] in *. exists (set_foffs p f, nt). cbn. unfold tftplseek.
    change (0 =? 0) with true. cbn iota.
    assert (access (flags f) = O_RDONLY /\ start f <= foffs f) as [-> Hst]
      by (destruct Hk as [(k & (_ & _ & H & _ & _ & _ & _ & Hf) & _)|(_ & H & _ & _ & Hf)]; done).
    change (O_RDONLY =? O_WRONLY) with false. cbn iota. rewrite (proj2 (Z.ltb_ge p (start f))) by lia.
    split; [done|]. split; [done|]. split; [|done].
    destruct Hk as [(k & (A1 & A2 & A3 & A4 & A5 & A6 & A7 & A8) & Hk)|(A1 & A2 & A3 & A4 & A5)]; [left; exists k|right];
      repeat split; try done; cbn; try lia; apply Hk.
Qed.

(** ** The headers *)

(** An unsigned field of [n] bytes at an offset. *)
Definition fld (big : bool) (b : list Z) (off n : nat) : Z := val_of big (take n (drop off b)) mod 256 ^ Z.of_nat n.

(** The fields the loader uses. [src/net/cmd/elf.h:19-34] *)
Record Elf32_Ehdr : Type := mkEhdr {
  e_ident : list Z; e_machine : Z; e_entry : Z; e_phoff : Z; e_shoff : Z; e_phentsize : Z; e_phnum : Z; e_shnum : Z }.
Definition ehdr_of (big : bool) (b : list Z) : Elf32_Ehdr :=
  mkEhdr (take 16 b) (fld big b 18 2) (fld big b 24 4) (fld big b 28 4) (fld big b 32 4)
    (fld big b 42 2) (fld big b 44 2) (fld big b 48 2).
Definition EHDRSZ : nat := 52.

(** [src/net/cmd/elf.h:84-93] *)
Record Elf32_Phdr : Type := mkPhdr { p_type : Z; p_offset : Z; p_vaddr : Z; p_filesz : Z; p_memsz : Z }.
Definition phdr_of (big : bool) (b : list Z) : Elf32_Phdr :=
  mkPhdr (fld big b 0 4) (fld big b 4 4) (fld big b 8 4) (fld big b 16 4) (fld big b 20 4).
Definition PHDRSZ : nat := 32.
Definition PT_NULL : Z := 0.
Definition PT_LOAD : Z := 1.

(** [src/net/cmd/elf.h:117-128] *)
Record Elf32_Shdr : Type := mkShdr { sh_type : Z; sh_offset : Z; sh_size : Z; sh_link : Z; sh_info : Z; sh_entsize : Z }.
Definition shdr_of (big : bool) (b : list Z) : Elf32_Shdr :=
  mkShdr (fld big b 4 4) (fld big b 16 4) (fld big b 20 4) (fld big b 24 4) (fld big b 28 4) (fld big b 36 4).
Definition SHDRSZ : nat := 40.
Definition SHT_SYMTAB : Z := 2.

(** A table of entries of [sz] bytes. *)
Fixpoint table_of {A : Type} (f : list Z -> A) (sz n : nat) (b : list Z) : list A :=
  match n with
  | O => []
  | S n' => f (take sz b) :: table_of f sz n' (drop sz b)
  end.

(** [src/net/cmd/ecoff.h:4-12], with the fields used; [src/net/cmd/ecoff.h:50-61] *)
Record mipsexec : Type := mkExec {
  f_magic : Z; f_nscns : Z; f_symptr : Z; a_magic : Z; a_vstamp : Z; a_tsize : Z; a_dsize : Z; a_bsize : Z;
  a_entry : Z; a_text_start : Z; a_data_start : Z; a_bss_start : Z }.
Definition mipsexec_of (big : bool) (b : list Z) : mipsexec :=
  mkExec (fld big b 0 2) (fld big b 2 2) (s32 (fld big b 8 4)) (wraps 16 (fld big b 20 2)) (wraps 16 (fld big b 22 2))
    (s32 (fld big b 24 4)) (s32 (fld big b 28 4)) (s32 (fld big b 32 4)) (s32 (fld big b 36 4))
    (fld big b 40 4) (fld big b 44 4) (fld big b 48 4).
Definition FILHSZ : Z := 20.
Definition AOUTHSZ : Z := 56.
Definition EXECSZ : Z := FILHSZ + AOUTHSZ.

(** For an R4000, which takes all three. [src/net/cmd/ecoff.h:15-44] *)
Definition MIPS_OK (big : bool) (m : mipsexec) : bool :=
  bool_decide (f_magic m ∈ (if big then [0x160; 0x163; 0x140] else [0x162; 0x166; 0x142])).
(** [src/net/cmd/ecoff.h:64-66] *)
Definition OMAGIC : Z := 0x107.
Definition NMAGIC : Z := 0x108.
Definition ZMAGIC : Z := 0x10b.
(** [src/net/cmd/ecoff.h:68-73] *)
Definition N_TXTOFF (m : mipsexec) : Z :=
  if a_magic m =? ZMAGIC then 0
  else if a_vstamp m <? 23 then Z.ldiff (FILHSZ + AOUTHSZ + f_nscns m * 40 + 7) 7
  else Z.ldiff (FILHSZ + AOUTHSZ + f_nscns m * 40 + 15) 15.
(** [src/net/cmd/ecoff.h:75-76] *)
Definition N_BADMAG (m : mipsexec) : bool :=
  negb (a_magic m =? OMAGIC) && negb (a_magic m =? NMAGIC) && negb (a_magic m =? ZMAGIC).

(** The symbolic header, with the fields used. [src/net/cmd/sym.h:58-85] *)
Record HDRR : Type := mkHdrr { h_magic : Z; issExtMax : Z; cbSsExtOffset : Z; iextMax : Z; cbExtOffset : Z }.
Definition hdrr_of (big : bool) (b : list Z) : HDRR :=
  mkHdrr (wraps 16 (fld big b 0 2)) (s32 (fld big b 64 4)) (s32 (fld big b 68 4)) (s32 (fld big b 88 4)) (s32 (fld big b 92 4)).
Definition HDRRSZ : Z := 96.
(** [src/net/cmd/symconst.h:27] *)
Definition magicSym : Z := 0x7009.
(** An external symbol has 16 bytes: [iss] is at 4 and [value] at 8.
    [src/net/cmd/sym.h:244-251] *)
Definition EXTRSZ : Z := 16.

(** [src/lib/strnchr.c:5-20] *)
Fixpoint strnchr (p : list Z) (c : Z) (n : nat) : option nat :=
  match n, p with
  | S n', x :: p' => if x =? c then Some 0%nat else S <$> strnchr p' c n'
  | _, _ => None
  end.

(** Bytes stored into a buffer. *)
Definition patch (off : nat) (bs buf : list Z) : list Z := take off buf ++ bs ++ drop (off + length bs) buf.

(** The characters of a buffer up to the first NUL. *)
Fixpoint c_string (b : list Z) : cstr :=
  match b with
  | [] => []
  | x :: b' => if x =? 0 then [] else s8 x :: c_string b'
  end.

Section Netboot.
Context {F : Type} `{NetFile F}.
(** The byte order, whether the monitor runs in the cached segment, whether the
    allocator has so many bytes, and the cell for a new symbol. *)
Context (big kseg0 : bool) (malloc_ok : Z -> bool) (alloc : symtab -> option nat).
#[local] Set Default Proof Using "Type".

(** The static variables, and the buffer of [com_boot] with the number of bytes
    read into it, which all the loaders share.
    [src/net/cmd/boot.c:16-22] *)
Record boot : Type := mkBoot {
  b_dl : dl; b_file : F; bootseg : Z; bootscheme : bool; bootbigend : bool; tablebase : Z; b_buf : list Z; b_n : Z }.

Definition with_dl (d : dl) (b : boot) : boot :=
  mkBoot d (b_file b) (bootseg b) (bootscheme b) (bootbigend b) (tablebase b) (b_buf b) (b_n b).
Definition with_file (f : F) (b : boot) : boot :=
  mkBoot (b_dl b) f (bootseg b) (bootscheme b) (bootbigend b) (tablebase b) (b_buf b) (b_n b).
Definition next_seg (b : boot) : boot :=
  mkBoot (b_dl b) (b_file b) (bootseg b + 1) (bootscheme b) (bootbigend b) (tablebase b) (b_buf b) (b_n b).
Definition with_scheme (b : boot) : boot :=
  mkBoot (b_dl b) (b_file b) (bootseg b) true (bootbigend b) (tablebase b) (b_buf b) (b_n b).
Definition with_endian (e : bool) (b : boot) : boot :=
  mkBoot (b_dl b) (b_file b) (bootseg b) (bootscheme b) e (tablebase b) (b_buf b) (b_n b).
Definition with_table (t : Z) (b : boot) : boot :=
  mkBoot (b_dl b) (b_file b) (bootseg b) (bootscheme b) (bootbigend b) t (b_buf b) (b_n b).
Definition with_buf (l : list Z) (n : Z) (b : boot) : boot :=
  mkBoot (b_dl b) (b_file b) (bootseg b) (bootscheme b) (bootbigend b) (tablebase b) l n.
Definition tell (o : trace) (b : boot) : boot := with_dl (put o (b_dl b)) b.
Definition b_mem (b : boot) : mem := d_mem (b_dl b).
Definition store_at (a : Z) (bs : list Z) (b : boot) : boot :=
  with_dl (set_dmem (store_bytes (b_mem b) a bs) (b_dl b)) b.

(** Why the command goes no further: it waits for the network for ever; it asks
    [netread] for a negative number of bytes, and [bcopy] takes that for a length
    of almost 2^32; it divides by zero, reads past a table, uses a variable that
    is not set or copies from the null pointer; a loader writes outside its own
    buffers ([DL_MINUS1], [DL_OVERRUN]); a name of a symbol has 64 KB or more; or
    the rounds given to a loop over the records of a file are used up. *)
Inductive stuck : Type :=
| Waits | NegativeRead | DivByZero | OffTable | NotSet | NullCopy | Overrun | LongName | Rounds.

(** A result, or the state at the step that has none. *)
Inductive res (A : Type) : Type :=
| Ret (a : A)
| Stuck (why : stuck) (b : boot).

Arguments Ret {A} _.
Arguments Stuck {A} _ _.

#[export] Instance res_bind : MBind res := fun A B k m =>
  match m with Ret a => k a | Stuck why b => Stuck why b end.

(** A part of the state that may be missing. *)
Definition given {A} (why : stuck) (o : option A) (b : boot) : res A :=
  match o with Some a => Ret a | None => Stuck why b end.

(** [netread] of the open file: the bytes, whether it did not fail, the state.
    [src/net/cmd/netio.c:76-83] *)
Definition netread (n : Z) (b : boot) : res (list Z * bool * boot) :=
  match f_read n (b_file b) with
  | Some (bs, ok, f) => Ret (bs, ok, with_file f b)
  | None => Stuck Waits b
  end.

(** [netread] into a variable: the value of all its bytes when they came.  *)
Definition read_exact (n : Z) (b : boot) : res (option (list Z) * boot) :=
  '(bs, ok, b) ← netread n b;
  Ret (if (ok : bool) && (Z.of_nat (length bs) =? n) then Some bs else None, b).

(** [netlseek] and [netread] of a table. *)
Definition read_at (off n : Z) (b : boot) : res (option (list Z) * boot) :=
  let '(o, f) := f_seek (s32 off) (b_file b) in
  if negb (u32 o =? off) then Ret (None, with_file f b) else read_exact n (with_file f b).

(** ** Segments and tables *)

Definition plus_note (note : event) (b : boot) : boot :=
  next_seg (tell ((if 0 <? bootseg b then [Printf "\b + " []] else []) ++ [note]) b).

(** What is printed for a segment. [src/net/cmd/boot.c:30-39] *)
Definition seg_note (addr size : Z) (b : boot) : boot :=
  if bootscheme b
  then next_seg (tell [Printf "\r%-26s" [AStr (sprintf "%-4d 0x%08x/%d" [AInt (bootseg b); AInt addr; AInt size])]] b)
  else plus_note (Printf "0x%x/%d " [AInt addr; AInt size]) b.

(** The value returned, -1 or [size]. [src/net/cmd/boot.c:24-53] *)
Definition bootread (addr size : Z) (b : boot) : res (Z * boot) :=
  let b := seg_note addr size b in
  let '(ok, d) := dl_checkloadaddr addr size true (b_dl b) in
  let b := with_dl d b in
  if negb ok then Ret (-1, b)
  else if size <? 0 then Stuck NegativeRead b
  else
    '(bs, okr, b) ← netread size b;
    let b := store_at addr bs b in
    if (okr : bool) && (size <=? Z.of_nat (length bs)) then Ret (size, b)
    else Ret (-1, tell (if okr then [Printf "\nread failed (corrupt object file?)" []] else [Printf "\nsegment read" []]) b).

(** [src/net/cmd/boot.c:56-71] *)
Definition bootclear (addr size : Z) (b : boot) : Z * boot :=
  let b := plus_note (Printf "0x%x/%d " [AInt addr; AInt size]) b in
  let '(ok, d) := dl_checkloadaddr addr size true (b_dl b) in
  let b := with_dl d b in
  if negb ok then (-1, b)
  else (size, if 0 <? size then store_at addr (replicate (Z.to_nat size) 0) b else b).

(** [src/include/mips.h:196-197] *)
Definition PHYS_TO_K0 (pa : Z) : Z := Z.lor pa 0x80000000.
Definition PHYS_TO_K1 (pa : Z) : Z := Z.lor pa 0xa0000000.

(** The table is read to the top of memory; the address, 0 when it cannot be.
    [src/net/cmd/boot.c:74-100] *)
Definition gettable (offs size : Z) (name : string) (b : boot) : res (Z * boot) :=
  let base := Z.ldiff (u32 (tablebase b - size)) 7 in
  if base <? K0_TO_PHYS (dl_maxaddr (b_dl b)) then Ret (0, tell [Printf "\nnot enough memory for %s table" [AInt base]] b)
  else
    let b := with_table base b in
    let va := if kseg0 then PHYS_TO_K0 base else PHYS_TO_K1 base in
    let '(o, f) := f_seek offs (b_file b) in
    let b := with_file f b in
    let bad := [Printf "\ncannot read %s table" [AStr (Some (str name))]] in
    if negb (o =? offs) then Ret (0, tell bad b)
    else if size <? 0 then Stuck NegativeRead b
    else
      '(bs, ok, b) ← netread size b;
      let b := store_at va bs b in
      if (ok : bool) && (Z.of_nat (length bs) =? size) then Ret (va, b) else Ret (0, tell bad b).

(** A symbol whose name, of less than 64 KB, is in memory; whether there was room for it. *)
Definition enter_sym (a value : Z) (b : boot) : res (bool * boot) :=
  name ← given LongName (mem_str 65536 (b_mem b) a) b;
  let '(ok, st) := newsym name value (alloc (d_syms (b_dl b))) (d_syms (b_dl b)) in
  Ret (ok, with_dl (set_syms st (b_dl b)) b).

(** ** ECOFF *)

(** [src/net/cmd/boot.c:141-154] *)
Fixpoint ecoff_syms (n : nat) (i strtab issmax : Z) (b : boot) : res (Z * boot) :=
  match n with
  | O => Ret (1, b)
  | S n' =>
      '(r, b) ← read_exact EXTRSZ b;
      match r with
      | None => Ret (0, tell [Printf "\nsymbol table" []] b)
      | Some e =>
          let iss := s32 (fld big e 4 4) in
          if issmax <=? iss then Ret (0, tell [Printf "\ncorrupt string pointer" []] b)
          else
            '(ok, b) ← enter_sym (strtab + iss) (fld big e 8 4) b;
            if negb (ok : bool) then Ret (0, tell [Printf "\nonly room for %d symbols" [AInt i]] b)
            else ecoff_syms n' (i + 1) strtab issmax b
      end
  end.

(** [src/net/cmd/boot.c:108-157] *)
Definition ecoffreadsyms (symptr : Z) (b : boot) : res (Z * boot) :=
  '(r, b) ← read_at (u32 symptr) HDRRSZ b;
  match r with
  | None => Ret (0, tell [Printf "\nsym header" []] b)
  | Some bs =>
      let h := hdrr_of big bs in
      if negb (h_magic h =? magicSym) then Ret (0, tell [Printf "\nbad sym header" []] b)
      else
        let b := plus_note (Printf "%d syms " [AInt (iextMax h)]) b in
        '(strtab, b) ← gettable (cbSsExtOffset h) (issExtMax h) "string" b;
        if strtab =? 0 then Ret (0, b)
        else
          let '(o, f) := f_seek (cbExtOffset h) (b_file b) in
          let b := with_file f b in
          if negb (o =? cbExtOffset h) then Ret (0, tell [Printf "\nsymbol table" []] b)
          else ecoff_syms (Z.to_nat (iextMax h)) 0 strtab (issExtMax h) b
  end.

(** Bytes read behind the [n] the buffer has, up to [size]; they are in the
    buffer even when there are too few. [src/net/cmd/boot.c:315-319] *)
Definition fill_buf (size : Z) (b : boot) : res (bool * boot) :=
  let k := size - b_n b in
  '(bs, ok, b) ← netread k b;
  let full := (ok : bool) && (Z.of_nat (length bs) =? k) in
  Ret (full, with_buf (patch (Z.to_nat (b_n b)) bs (b_buf b)) (if full then size else b_n b) b).

(** [src/net/cmd/boot.c:193-194] *)
Definition no_flash (e : bool) (b : boot) : Z * boot :=
  (-2, tell [Printf "Cannot load flash from this format (yet)\n" []] (with_endian e b)).

(** The segments. [src/net/cmd/boot.c:198-210] *)
Definition ecoff_segs (m : mipsexec) (b : boot) : res (bool * boot) :=
  let seekto := N_TXTOFF m in
  let '(o, f) := f_seek seekto (b_file b) in
  let b := with_file f b in
  if negb (o =? seekto) then Ret (false, tell [Printf "seek failed (corrupt object file?)\n" []] b)
  else
    '(r, b) ← bootread (a_text_start m) (a_tsize m) b;
    if negb (r =? a_tsize m) then Ret (false, b)
    else
      '(r, b) ← bootread (a_data_start m) (a_dsize m) b;
      if negb (r =? a_dsize m) then Ret (false, b)
      else Ret (true, (bootclear (a_bss_start m) (a_bsize m) b).2).

(** The header is completed only when the buffer has more than it. With [-y] and
    without [-n], [seekto] is not set. [src/net/cmd/boot.c:160-217] *)
Definition load_ecoff (fl : Loadrec.flags) (b : boot) : res (Z * boot) :=
  '(ok, b) ← (if EXECSZ <? b_n b then fill_buf EXECSZ b else Ret (true, b));
  if negb (ok : bool) then Ret (-1, b)
  else
    let m := mipsexec_of big (b_buf b) in
    if negb (MIPS_OK big m) || N_BADMAG m then Ret (-1, b)
    else
      let b := tell [Printf "(ecoff)\n" []] b in
      if FFLAG fl then Ret (no_flash big b)
      else if YFLAG fl then (if NFLAG fl then Ret (a_entry m, b) else Stuck NotSet b)
      else
        '(ok, b) ← ecoff_segs m b;
        if negb (ok : bool) then Ret (-1, b)
        else
          '(_, b) ← (if negb (NFLAG fl) && (N_TXTOFF m <? f_symptr m) then ecoffreadsyms (f_symptr m) b else Ret (0, b));
          Ret (a_entry m, b).

(** ** ELF *)

(** [src/net/cmd/boot.c:221-241] *)
Definition elfgetshdr (eh : Elf32_Ehdr) (b : boot) : res (option (list Elf32_Shdr) * boot) :=
  let size := e_shnum eh * Z.of_nat SHDRSZ in
  if negb (malloc_ok size) then Ret (None, tell [Printf "\nnot enough memory to read section headers" []] b)
  else
    '(r, b) ← read_at (e_shoff eh) size b;
    Ret (match r with
          | Some bs => (Some (table_of (shdr_of big) SHDRSZ (Z.to_nat (e_shnum eh)) bs), b)
          | None => (None, tell [Printf "\nsection headers" []] b)
          end).

(** The symbols, from the tables in memory. The test of the string pointer is made
    for global symbols and functions only, and [newsym] is called for all.
    [src/net/cmd/boot.c:278-299] *)
Fixpoint elf_syms (n : nat) (i sym strtab strsize : Z) (b : boot) : res (Z * boot) :=
  match n with
  | O => Ret (1, b)
  | S n' =>
      let s := load_bytes (b_mem b) sym 16 in
      let shndx := fld big s 14 2 in
      let info := fld big s 12 1 in
      let st_name := fld big s 0 4 in
      let type := Z.land info 0xf in
      if (shndx =? 0) || (shndx =? 0xfff2) || (type =? 3) || (type =? 4)
      then elf_syms n' (i + 1) (sym + 16) strtab strsize b
      else if ((Z.shiftr info 4 =? 1) || (type =? 2)) && (strsize <=? st_name)
      then Ret (0, tell [Printf "\ncorrupt string pointer" []] b)
      else
        '(ok, b) ← enter_sym (strtab + st_name) (fld big s 4 4) b;
        if negb (ok : bool) then Ret (0, tell [Printf "\nonly room for %d symbols" [AInt i]] b)
        else elf_syms n' (i + 1) (sym + 16) strtab strsize b
  end.

(** The index of the table of names is not checked, nor is the size of an entry;
    when the tables are at the same offset, [sym] is not set.
    [src/net/cmd/boot.c:244-302] *)
Definition elfreadsyms (shtab : list Elf32_Shdr) (b : boot) : res (Z * boot) :=
  match list_find (fun sh => sh_type sh = SHT_SYMTAB) shtab with
  | None => Ret (0, b)
  | Some (_, sh) =>
      strh ← given OffTable (shtab !! Z.to_nat (sh_link sh)) b;
      if sh_entsize sh =? 0 then Stuck DivByZero b
      else
        let nsym := s32 (sh_size sh / sh_entsize sh - sh_info sh) in
        let offs := s32 (sh_offset sh + sh_info sh * sh_entsize sh) in
        let size := s32 (nsym * sh_entsize sh) in
        let b := plus_note (Printf "%d syms " [AInt nsym]) b in
        let first := u32 offs <? sh_offset strh in
        '(sym, b) ← (if first then gettable offs size "symbol" b else Ret (1, b));
        if sym =? 0 then Ret (0, b)
        else
          '(strtab, b) ← gettable (s32 (sh_offset strh)) (s32 (sh_size strh)) "string" b;
          if strtab =? 0 then Ret (0, b)
          else
            '(sym, b) ← (if first then Ret (sym, b)
                         else if sh_offset strh <? u32 offs then gettable offs size "symbol" b
                         else Stuck NotSet b);
            if sym =? 0 then Ret (0, b)
            else elf_syms (Z.to_nat nsym) 0 sym strtab (sh_size strh) b
  end.

(** The segment to load with the lowest offset in the file, below [low].
    [src/net/cmd/boot.c:406-414] *)
Fixpoint lowest (phs : list Elf32_Phdr) (i : nat) (low : Z) (best : option (nat * Elf32_Phdr)) : option (nat * Elf32_Phdr) :=
  match phs with
  | [] => best
  | ph :: phs' =>
      if (p_type ph =? PT_LOAD) && (p_offset ph <? low) then lowest phs' (S i) (p_offset ph) (Some (i, ph))
      else lowest phs' (S i) low best
  end.

(** The part of a segment that is in the file: whether the loader goes on.
    [src/net/cmd/boot.c:419-431] *)
Definition load_part (ph : Elf32_Phdr) (b : boot) : res (bool * boot) :=
  if p_filesz ph =? 0 then Ret (true, b)
  else
    let '(o, f) := f_seek (s32 (p_offset ph)) (b_file b) in
    let b := with_file f b in
    if negb (u32 o =? p_offset ph) then Ret (false, tell [Printf "seek failed (corrupt object file?)\n" []] b)
    else '(r, b) ← bootread (p_vaddr ph) (s32 (p_filesz ph)) b; Ret (u32 r =? p_filesz ph, b).

(** [src/net/cmd/boot.c:432-433] *)
Definition load_seg (ph : Elf32_Phdr) (b : boot) : res (bool * boot) :=
  '(ok, b) ← load_part ph b;
  if negb (ok : bool) then Ret (false, b)
  else Ret (true, if p_filesz ph <? p_memsz ph
                   then (bootclear (u32 (p_vaddr ph + p_filesz ph)) (s32 (p_memsz ph - p_filesz ph)) b).2 else b).

Definition set_null (ph : Elf32_Phdr) : Elf32_Phdr := mkPhdr PT_NULL (p_offset ph) (p_vaddr ph) (p_filesz ph) (p_memsz ph).

(** Every round takes a segment out of consideration.
    [src/net/cmd/boot.c:405-435] *)
Fixpoint load_segs (fuel : nat) (phs : list Elf32_Phdr) (b : boot) : res (bool * boot) :=
  match lowest phs 0 0xffffffff None with
  | None => Ret (true, b)
  | Some (i, ph) =>
      match fuel with
      | O => Stuck Rounds b
      | S f =>
          '(ok, b) ← load_seg ph b;
          if negb (ok : bool) then Ret (false, b) else load_segs f (<[i := set_null ph]> phs) b
      end
  end.

(** Why a header is refused. [src/net/cmd/boot.c:331-352] *)
Definition nogood (eh : Elf32_Ehdr) : option string :=
  if negb (at_ (e_ident eh) 4 =? 1) then Some "not 32-bit"%string
  else if negb (at_ (e_ident eh) 5 =? (if big then 2 else 1)) then Some "incorrect endianess"%string
  else if negb (at_ (e_ident eh) 6 =? 1) then Some "version not current"%string
  else if negb (e_machine eh =? 10) && negb (e_machine eh =? 8) then Some "incorrect machine type"%string
  else None.

(** The symbols, after the segments. [src/net/cmd/boot.c:438-446] *)
Definition late_syms (fl : Loadrec.flags) (eh : Elf32_Ehdr) (shtab : option (list Elf32_Shdr)) (b : boot) : res (unit * boot) :=
  if NFLAG fl then Ret (tt, b)
  else
    '(shtab, b) ← (match shtab with Some t => Ret (Some t, b) | None => elfgetshdr eh b end);
    match shtab with
    | None => Ret (tt, b)
    | Some t => '(_, b) ← elfreadsyms t b; Ret (tt, b)
    end.

(** The part once the header is accepted. [src/net/cmd/boot.c:360-450] *)
Definition load_elf_body (fl : Loadrec.flags) (eh : Elf32_Ehdr) (b : boot) : res (Z * boot) :=
  if FFLAG fl then Ret (no_flash (at_ (e_ident eh) 5 =? 2) b)
  else if (e_phoff eh =? 0) || (e_phnum eh =? 0) || negb (e_phentsize eh =? Z.of_nat PHDRSZ)
  then Ret (-2, tell [Printf "missing program header (not executable)\n" []] b)
  else
    let nbytes := e_phnum eh * Z.of_nat PHDRSZ in
    if negb (malloc_ok nbytes) then Ret (-2, tell [Printf "\nnot enough memory to read program headers" []] b)
    else
      '(r, b) ← read_at (e_phoff eh) nbytes b;
      match r with
      | None => Ret (-2, tell [Printf "program header" []] b)
      | Some bs =>
          let phs := table_of (phdr_of big) PHDRSZ (Z.to_nat (e_phnum eh)) bs in
          let early := negb (NFLAG fl) && match phs with ph :: _ => e_shoff eh <? p_offset ph | [] => false end in
          '(shtab, b) ← (if early then elfgetshdr eh b else Ret (None, b));
          '(ok, b) ← (if YFLAG fl then Ret (true, b) else load_segs (length phs) phs b);
          if negb (ok : bool) then Ret (-2, b)
          else '(_, b) ← late_syms fl eh shtab b; Ret (s32 (e_entry eh), b)
      end.

(** The entry address, or -1 when this is not such a file, or -2 when it cannot
    be loaded. [src/net/cmd/boot.c:305-358] *)
Definition load_elf (fl : Loadrec.flags) (b : boot) : res (Z * boot) :=
  '(ok, b) ← (if b_n b <? Z.of_nat EHDRSZ then fill_buf (Z.of_nat EHDRSZ) b else Ret (true, b));
  if negb (ok : bool) then Ret (-1, b)
  else
    let eh := ehdr_of big (b_buf b) in
    if negb (bool_decide (take 4 (e_ident eh) = [127; 69; 76; 70])) then Ret (-1, b)
    else
      let b := tell [Printf "(elf)\n" []] b in
      match nogood eh with
      | Some why => Ret (-2, tell [Printf "Invalid ELF: %s\n" [AStr (Some (str why))]] b)
      | None => load_elf_body fl eh b
      end.

(** ** Windows CE images *)

(** The sum of the bytes of a record, of none when it runs over the end of the
    address space. [src/net/cmd/boot.c:542-546] *)
Definition cksum (m : mem) (addr size : Z) : Z :=
  if addr <? u32 (addr + size) then u32 (fold_right Z.add 0 (load_bytes m addr (Z.to_nat size))) else 0.

(** [fuel]: the number of records. [src/net/cmd/boot.c:528-554] *)
Fixpoint cebin_loop (fuel : nat) (b : boot) : res (Z * boot) :=
  match fuel with
  | O => Stuck Rounds b
  | S fu =>
      '(r, b) ← read_exact 12 b;
      match r with
      | None => Ret (-1, tell [Printf " [rechdr]" []] b)
      | Some bs =>
          let addr := fld false bs 0 4 in
          let size := fld false bs 4 4 in
          let csum := fld false bs 8 4 in
          if addr =? 0 then Ret (s32 size, b)
          else
            '(r, b) ← bootread addr (s32 size) b;
            if negb (u32 r =? size) then Ret (-1, tell [Printf " [record]" []] b)
            else
              let sum := cksum (b_mem b) addr size in
              if negb (sum =? csum) then
                Ret (-1, tell [Printf "\nchecksum failure: 0x%08x:0x%08x want 0x%x got 0x%x"
                                  [AInt addr; AInt (u32 (addr + size)); AInt csum; AInt sum]] b)
              else cebin_loop fu b
      end
  end.

(** Only on little-endian boards. The value returned with [-y] is not set.
    [src/net/cmd/boot.c:474-558] *)
Definition load_cebin (fuel : nat) (fl : Loadrec.flags) (b : boot) : res (Z * boot) :=
  if big then Ret (-1, b)
  else
    '(ok, b) ← (if b_n b <? 7 then fill_buf 7 b else Ret (true, b));
    if negb (ok : bool) then Ret (-1, b)
    else if negb (bool_decide (take 7 (b_buf b) = str "B000FF" ++ [nl])) then Ret (-1, b)
    else
      let b := tell [Printf "(cebin)\n" []] b in
      if FFLAG fl then Ret (no_flash false b)
      else if YFLAG fl then Stuck NotSet b
      else
        '(r, b) ← read_exact 8 b;
        match r with
        | None => Ret (-1, tell [Printf " [imghdr]" []] b)
        | Some bs =>
            let '(ok, d) := dl_checkloadaddr (fld false bs 0 4) (s32 (fld false bs 4 4)) true (b_dl b) in
            let b := with_dl d b in
            if negb ok then Ret (-1, b) else cebin_loop fuel (with_scheme b)
        end.

(** ** Records *)

(** [src/pmon/loadfn.h:1] *)
Definition DLREC : nat := 550.

(** The characters of a line, at most [maxn]. [src/net/cmd/boot.c:458-466] *)
Fixpoint line_loop (maxn : nat) (b : boot) : res (list Z * boot) :=
  match maxn with
  | O => Ret ([], b)
  | S k =>
      '(r, b) ← read_exact 1 b;
      match r with
      | Some [c] => if c =? nl then Ret ([], b) else '(l, b) ← line_loop k b; Ret (c :: l, b)
      | _ => Ret ([], b)
      end
  end.

(** The line is stored at an offset of the buffer; the number of its characters.
    [src/net/cmd/boot.c:453-471] *)
Definition fdgets (off maxn : nat) (b : boot) : res (nat * boot) :=
  '(l, b) ← line_loop maxn b;
  Ret (length l, with_buf (patch off (l ++ [0]) (b_buf b)) (b_n b) b).

(** The loop: [nb] characters of a record, then [rest] more bytes of the buffer
    from [p] on, which the search for the end of the line has perhaps left null. [src/net/cmd/boot.c:587-606] *)
Fixpoint xx_loop (fuel : nat) (fn : list Z -> nat -> dl -> dlcode * Z * dl) (nb : nat) (p : option nat) (rest : nat) (b : boot)
  : res (Z * boot) :=
  match fuel with
  | O => Stuck Rounds b
  | S fu =>
      let '(s, _, d) := fn (b_buf b) nb (b_dl b) in
      let b := with_dl d b in
      match s with
      | DL_DONE => Ret (s32 (dl_entry d), b)
      | DL_CONT =>
          if (rest =? 0)%nat then '(k, b) ← fdgets 0 DLREC b; xx_loop fu fn k p rest b
          else
            p ← given NullCopy p b;
            let buf := patch 0 (take rest (drop p (b_buf b))) (b_buf b) in
            match strnchr buf nl rest with
            | Some i => xx_loop fu fn i (Some (S i)) (rest - S i) (with_buf (patch i [0] buf) (b_n b) b)
            | None => '(k, b) ← fdgets 0 DLREC (with_buf buf (b_n b) b); xx_loop fu fn (rest + k) None rest b
            end
      | DL_MINUS1 | DL_OVERRUN => Stuck Overrun b
      | _ => Ret (-2, b)
      end
  end.

(** [src/net/cmd/boot.c:560-607] *)
Definition load_xx (fuel : nat) (rectype : string) (recid : Z) (fn : list Z -> nat -> dl -> dlcode * Z * dl) (b : boot)
  : res (Z * boot) :=
  let n := Z.to_nat (b_n b) in
  '(nb, p, rest, b) ← (match strnchr (b_buf b) nl n with
                       | Some i => Ret (i, Some (S i), (n - S i)%nat, with_buf (patch i [0] (b_buf b)) (b_n b) b)
                       | None => '(k, b) ← fdgets n (DLREC - n) b;
                                 Ret ((n + k)%nat, None, 0%nat, with_buf (b_buf b) (b_n b + Z.of_nat k) b)
                       end);
  if negb (at_ (b_buf b) 0 =? recid) then Ret (-1, b)
  else xx_loop fuel fn nb p rest (tell [Printf "(%s)\n" [AStr (Some (str rectype))]] b).

(** [src/net/cmd/boot.c:609-613] *)
Definition load_s3 (fuel : nat) (fl : Loadrec.flags) : boot -> res (Z * boot) :=
  load_xx fuel "s3" (ch "S") (fun buf _ => dl_s3load alloc (c_string buf) fl).

(** [src/net/cmd/boot.c:615-621] *)
Definition load_fast (fuel : nat) (fl : Loadrec.flags) : boot -> res (Z * boot) :=
  load_xx fuel "fast" (ch "/") (fun buf nb => dl_fastload alloc (map s8 (take nb buf)) fl).

(** ** The command *)

(** [fuel]: the number of records of a file. [src/net/cmd/boot.c:625-632] *)
Definition loaders (fuel : nat) (fl : Loadrec.flags) : list (boot -> res (Z * boot)) :=
  [load_cebin fuel fl; load_elf fl; load_ecoff fl; load_s3 fuel fl; load_fast fuel fl].

(** [src/net/cmd/boot.c:789-791] *)
Fixpoint try_loaders (ls : list (boot -> res (Z * boot))) (b : boot) : res (Z * boot) :=
  match ls with
  | [] => Ret (-1, b)
  | l :: ls' => '(ep, b) ← l b; if ep =? -1 then try_loaders ls' b else Ret (ep, b)
  end.

(** What is printed when the loaders are through, the result of the command and
    the new pc of the client. [start] is the monitor's own address and [m1] to
    [m4] the cells for the standard symbols. [src/net/cmd/boot.c:794-813] *)
Definition boot_report (start : Z) (m1 m2 m3 m4 : option nat) (fl : Loadrec.flags) (path : cstr) (epc ep : Z) (b : boot) : Z * Z * boot :=
  let b := tell [Printf "\n" []] b in
  if ep =? -1 then (1, epc, tell [Printf "%s: boot failed\n" [AStr (Some path)]] b)
  else if ep =? -2 then (1, epc, tell [Printf "%s: invalid executable object file\n" [AStr (Some path)]] b)
  else if FFLAG fl || YFLAG fl then (0, epc, b)
  else
    let b := tell [Printf "Entry address is %08x\n" [AInt ep]] b in
    (0, u32 ep, if SFLAG fl then b else with_dl (dl_setloadsyms start m1 m2 m3 m4 (u32 ep) (b_dl b)) b).
End Netboot.
Arguments res {F} A.
Arguments Ret {F A} _.
Arguments Stuck {F A} _ _.

(** The path that is opened, from the last argument and the variables [bootaddr]
    and [bootfile]; or what is printed. [*host] is the first character of the
    whole argument, perhaps the colon. [src/net/cmd/boot.c:715-751] *)
Definition boot_path (arg bootaddr bootfile : cptr) : cstr + string :=
  let '(host, file) :=
    match arg with
    | None => (None, None)
    | Some a => match strchr (Some a) (ch ":") with
                | Some i => (Some (take i a), Some (drop (S i) a))
                | None => (None, Some a)
                end
    end in
  let empty (s : cptr) := match s with Some (_ :: _) => false | _ => true end in
  let host := if match host, arg with Some _, Some (_ :: _) => false | _, _ => true end then bootaddr else host in
  match host with
  | None => inr "missing host address and $bootaddr not set\n"%string
  | Some h =>
      match (if empty file then bootfile else file) with
      | None => inr "missing file name and $bootfile not set\n"%string
      | Some f => if 256 <? Z.of_nat (length h) + Z.of_nat (length f) + 2 then inr "remote pathname too long\n"%string
                  else inl (h ++ ch ":" :: f)
      end
  end.
