(* ===== verification/NetbootOk.v ===== *)
(** * NetbootOk: what the [boot] command guarantees

    The theorems about Netboot: without symbols, no file whatever, in none of the
    five formats, makes the command write outside the memory a client may be loaded
    into, up to the first step without a result, of a kind that is listed; and an
    ELF file that is well formed, whatever the order of its program
    headers, is in memory when the loader returns its entry address, over any
    file that can be read and moved forwards in, TFTP's among them. *)

From S2P Require Import Prelude CString Format Memory Tunables Symtab Watch Loadrec LoadSafe Tftp Netboot.

(** ** Lemmas *)

Lemma fld_range big b off n : 0 <= fld big b off n < 256 ^ Z.of_nat n.
Proof. apply Z.mod_pos_bound, Z.pow_pos_nonneg; lia. Qed.

Lemma fld4 big b off : 0 <= fld big b off 4 < 2 ^ 32.
Proof. apply (fld_range big b off 4). Qed.

Lemma fld_prefix big b d k off n : take k b = take k d -> (off + n <= k)%nat -> fld big b off n = fld big d off n.
Proof.
  intros E Hk. unfold fld. do 2 f_equal. rewrite !take_drop_commute.
  replace (off + n)%nat with (Nat.min (off + n) k) by lia. by rewrite <- !take_take, E.
Qed.

Lemma ehdr_of_prefix big b d : take 52 b = take 52 d -> ehdr_of big b = ehdr_of big d.
Proof.
  intros E. unfold ehdr_of. rewrite !(fld_prefix big b d 52) by (done || lia). f_equal.
  change 16%nat with (Nat.min 16 52). by rewrite <- !take_take, E.
Qed.

Lemma table_of_Forall {A} (P : A -> Prop) f sz n b : (forall x, P (f x)) -> Forall P (table_of f sz n b).
Proof. intros H. revert b. induction n; intros b; cbn; constructor; auto. Qed.

(** The segment that is loaded next. *)
Lemma lowest_spec phs i low best :
  match lowest phs i low best with
  | None => best = None /\ forall q, q ∈ phs -> p_type q = PT_LOAD -> low <= p_offset q
  | Some (k, ph) =>
      (best = Some (k, ph) /\ forall q, q ∈ phs -> p_type q = PT_LOAD -> low <= p_offset q) \/
      (exists j, k = (i + j)%nat /\ phs !! j = Some ph /\ p_type ph = PT_LOAD /\ p_offset ph < low /\
         forall q, q ∈ phs -> p_type q = PT_LOAD -> p_offset ph <= p_offset q)
  end.
Proof.
  revert i low best. induction phs as [|p phs IH]; intros i low best; cbn [lowest].
  - destruct best as [[k ph]|]; [left|]; (split; [done|]); intros q Hq; by apply elem_of_nil in Hq.
  - destruct (_ && _) eqn:C; [specialize (IH (S i) (p_offset p) (Some (i, p)))|specialize (IH (S i) low best)];
      destruct (lowest phs (S i) _ _) as [[k ph]|].
    + apply andb_prop in C as [Et%Z.eqb_eq Hl%Z.ltb_lt]. right. destruct IH as [[[= <- <-] Hq]|(j & -> & Hj & Ht & Hlt & Hq)].
      * exists 0%nat. repeat split; [lia|done|done|]. intros q [-> |Hin]%elem_of_cons Hp; [lia|auto].
      * exists (S j). repeat split; [lia|done|done|lia|]. intros q [-> |Hin]%elem_of_cons Hp; [lia|auto].
    + by destruct IH.
    + destruct IH as [[Hb Hq]|(j & -> & Hj & Ht & Hlt & Hq)]; [left; split; [done|]|right; exists (S j); repeat split; [lia|done..|]];
        intros q [-> |Hin]%elem_of_cons Hp; auto; rewrite Hp in C; apply Z.ltb_ge in C; lia.
    + destruct IH as [Hb Hq]. split; [done|]. intros q [-> |Hin]%elem_of_cons Hp; auto. rewrite Hp in C. by apply Z.ltb_ge in C.
Qed.

Lemma lowest_first phs k ph : lowest phs 0 0xffffffff None = Some (k, ph) ->
  phs !! k = Some ph /\ p_type ph = PT_LOAD /\ forall q, q ∈ phs -> p_type q = PT_LOAD -> p_offset ph <= p_offset q.
Proof. intros E. pose proof (lowest_spec phs 0 0xffffffff None) as Hl. rewrite E in Hl. destruct Hl as [[? _]|(j & -> & ? & ? & _ & ?)]; done. Qed.

(** The state of a result, or of the step that has none, and why. *)
Definition end_of {F A : Type} (m : res (F := F) (A * boot (F := F))) : boot (F := F) :=
  match m with Ret (_, b) => b | Stuck _ b => b end.
Definition reason {F A : Type} (m : res (F := F) (A * boot (F := F))) : option stuck :=
  match m with Ret _ => None | Stuck why _ => Some why end.

(** The steps without a result there are when no symbols are read: a read that
    waits for ever or is of a negative number of bytes, the two ways the loaders
    of records leave their buffers, records without an end, and, for a Windows CE
    image with [-y], the value returned. *)
Definition stuck_ok (fl : Loadrec.flags) (why : option stuck) : Prop :=
  match why with
  | None | Some (Waits | NegativeRead | NullCopy | Overrun | Rounds) => True
  | Some NotSet => YFLAG fl = true
  | Some (DivByZero | OffTable | LongName) => False
  end.

Section Safe.
Context {F : Type} `{NetFileOk F}.
Context (big kseg0 : bool) (malloc_ok : Z -> bool) (alloc : symtab -> option nat) (fl : Loadrec.flags).
#[local] Set Default Proof Using "Type*".
#[local] Notation boot := (boot (F := F)).

Definition b_safe (b b' : boot) : Prop := safe fl (b_dl b) (b_dl b').

#[local] Instance b_safe_preorder : PreOrder b_safe.
Proof. split; [intros b; unfold b_safe; reflexivity|]. intros b1 b2 b3. unfold b_safe. apply transitivity. Qed.

Definition m_safe {A} (b : boot) (m : res (A * boot)) : Prop := b_safe b (end_of m) /\ stuck_ok fl (reason m).

Lemma m_ret {A} b b' (a : A) : b_safe b b' -> m_safe b (Ret (a, b')).
Proof. done. Qed.

Lemma m_stuck {A} why b b' : stuck_ok fl (Some why) -> b_safe b b' -> m_safe (A := A) b (Stuck why b').
Proof. done. Qed.

Lemma m_from {A} b b1 (m : res (A * boot)) : b_safe b b1 -> m_safe b1 m -> m_safe b m.
Proof. intros H1 [H2 H3]. split; [by transitivity b1|done]. Qed.

Lemma m_bind {A B} b (m : res (A * boot)) (k : A * boot -> res (B * boot)) :
  m_safe b m -> (forall a b1, m = Ret (a, b1) -> b_safe b b1 -> m_safe b1 (k (a, b1))) -> m_safe b (m ≫= k).
Proof.
  intros Hm Hk. destruct m as [[a b1]|why b1]; [|exact Hm]. destruct Hm as [Hm _]. apply (m_from b b1); [exact Hm|]. by apply Hk.
Qed.

Lemma m_given {A B} why (o : option A) b (k : A -> res (B * boot)) :
  stuck_ok fl (Some why) -> (forall a, o = Some a -> m_safe b (k a)) -> m_safe b (given why o b ≫= k).
Proof. intros Hw Hk. destruct o as [a|]; [by apply Hk|]. apply m_stuck; [done|reflexivity]. Qed.

Lemma m_if {A} (c : bool) b (m1 m2 : res (A * boot)) : m_safe b m1 -> m_safe b m2 -> m_safe b (if c then m1 else m2).
Proof. by destruct c. Qed.

(** Steps that keep memory and the load. *)
Lemma same_dl (b b' : boot) : b_dl b' = b_dl b -> b_safe b b'.
Proof. intros E. unfold b_safe. rewrite E. reflexivity. Qed.

Lemma tell_safe o b : b_safe b (tell o b).
Proof. by apply safe_same. Qed.

Lemma tell_from o b b' : b_safe b b' -> b_safe b (tell o b').
Proof. intros S1. transitivity b'; [exact S1|apply tell_safe]. Qed.

Lemma seg_note_safe a n b : b_safe b (seg_note a n b).
Proof. unfold seg_note. destruct (bootscheme b); apply tell_safe. Qed.

#[local] Hint Resolve m_ret m_stuck tell_from : safe.
#[local] Hint Extern 1 (b_safe ?b ?b) => reflexivity : safe.
#[local] Hint Extern 1 (stuck_ok _ _) => exact I : safe.
#[local] Hint Extern 2 (b_safe _ _) => apply same_dl; reflexivity : safe.
#[local] Hint Extern 2 (m_safe _ (if _ then _ else _)) => apply m_if : safe.

Lemma netread_safe n b : m_safe b (netread n b).
Proof. unfold netread. destruct (f_read n (b_file b)) as [[[bs ok] f]|]; auto with safe. Qed.

Lemma netread_length n b bs ok b' : 0 <= n -> netread n b = Ret (bs, ok, b') -> Z.of_nat (length bs) <= n.
Proof.
  intros Hn E. unfold netread in E. destruct (f_read n (b_file b)) as [[[bs' ok'] f]|] eqn:Ef; [|done].
  injection E as -> _ _. by apply f_read_len in Ef.
Qed.

Lemma read_exact_safe n b : m_safe b (read_exact n b).
Proof. apply m_bind; [apply netread_safe|]. intros [bs ok] b1 _ _. auto with safe. Qed.

Lemma read_at_safe o n b : m_safe b (read_at o n b).
Proof.
  unfold read_at. destruct (f_seek _ _) as [p f]. apply m_if; [by auto with safe|].
  apply (m_from b (with_file f b)); [by auto with safe|]. apply read_exact_safe.
Qed.

Lemma fill_buf_safe n b : m_safe b (fill_buf n b).
Proof. apply m_bind; [apply netread_safe|]. intros [bs ok] b1 _ _. auto with safe. Qed.

Lemma store_at_safe a bs b : room (d_lay (b_dl b)) a (length bs) -> b_safe b (store_at a bs b).
Proof.
  intros Hr. destruct bs as [|x bs]; [by apply safe_same|].
  assert (in_space a (length (x :: bs))) as Hs.
  { split; [destruct (Hr 0); cbn; lia|]. destruct (Hr (Z.of_nat (length (x :: bs)) - 1)); cbn in *; lia. }
  split; [done..|]. intros y Hy. change (store_bytes (b_mem b) a (x :: bs) y <> b_mem b y) in Hy. rewrite store_bytes_at in Hy by done.
  destruct (Z.leb_spec a y), (Z.ltb_spec y (a + Z.of_nat (length (x :: bs)))); cbn [andb] in Hy; try done.
  destruct (Hr (y - a)) as [_ Hl]; [lia|]. replace (a + (y - a)) with y in Hl by lia. split; [apply Hl|done].
Qed.

(** A store where [dl_checkloadaddr] said yes. *)
Lemma checked_room a n v (b : boot) d (bs : list Z) : 0 <= a < 2 ^ 32 -> n <= 2 ^ 31 ->
  dl_checkloadaddr a n v (b_dl b) = (true, d) -> Z.of_nat (length bs) <= n -> room (d_lay d) a (length bs).
Proof.
  intros Ha Hn Hc Hl i Hi. destruct (check_frame _ _ _ _ _ _ Hc) as (_ & -> & _).
  apply (check_ok _ _ _ _ _ i Hc); lia.
Qed.

Lemma bootread_safe a n b : 0 <= a < 2 ^ 32 -> n < 2 ^ 31 -> m_safe b (bootread a n b).
Proof.
  intros Ha Hn. unfold bootread. apply (m_from b (seg_note a n b)); [apply seg_note_safe|]. set (b1 := seg_note a n b).
  destruct (dl_checkloadaddr _ _ _ _) as [ok d] eqn:Ec. set (b2 := with_dl d b1).
  apply (m_from b1 b2); [exact (safe_check fl _ _ _ _ _ _ Ec)|]. destruct ok; cbn [negb]; [|auto with safe].
  destruct (Z.ltb_spec n 0); [by auto with safe|].
  assert (forall f, d_lay (b_dl (with_file f b2)) = d_lay d) as El by done.
  unfold netread. destruct (f_read n (b_file b2)) as [[[bs okr] f]|] eqn:E; [|cbn; auto with safe].
  apply f_read_len in E; [|done]. cbn [mbind res_bind].
  assert (b_safe b2 (store_at a bs (with_file f b2))) as S1.
  { apply (transitivity (y := with_file f b2)); [by auto with safe|]. apply store_at_safe. rewrite El.
    apply (checked_room a n true b1 d bs Ha); [lia|done|done]. }
  destruct (_ && _); apply m_ret; [exact S1|]. etransitivity; [exact S1|]. apply tell_safe.
Qed.

Lemma bootclear_safe a n b : 0 <= a < 2 ^ 32 -> n < 2 ^ 31 -> b_safe b (bootclear a n b).2.
Proof.
  intros Ha Hn. unfold bootclear, plus_note. set (o := _ ++ _).
  transitivity (next_seg (tell o b)); [apply tell_safe|]. set (b1 := next_seg _).
  destruct (dl_checkloadaddr _ _ _ _) as [ok d] eqn:Ec. pose proof (safe_check fl _ _ _ _ _ _ Ec) as S1.
  destruct ok; cbn [negb snd]; [|exact S1]. destruct (Z.ltb_spec 0 n); [|exact S1].
  transitivity (with_dl d b1); [exact S1|]. apply store_at_safe.
  apply (checked_room a n true b1 d _ Ha); [lia|done|]. rewrite length_replicate. lia.
Qed.

(** The segments of an ELF file. *)
Definition ph_ok (ph : Elf32_Phdr) : Prop := 0 <= p_vaddr ph < 2 ^ 32.

Lemma load_part_safe ph b : ph_ok ph -> m_safe b (load_part ph b).
Proof.
  intros Hp. unfold load_part. apply m_if; [by auto with safe|]. destruct (f_seek _ _) as [o f].
  apply m_if; [by auto with safe|]. apply (m_from b (with_file f b)); [by auto with safe|].
  apply m_bind; [apply bootread_safe; [exact Hp|apply s32_range]|]. intros r b1 _ _. auto with safe.
Qed.

Lemma load_seg_safe ph b : ph_ok ph -> m_safe b (load_seg ph b).
Proof.
  intros Hp. apply m_bind; [by apply load_part_safe|]. intros ok b1 _ _. apply m_if; [by auto with safe|].
  apply m_ret. destruct (_ <? _); [|reflexivity]. apply bootclear_safe; [apply u32_range|apply s32_range].
Qed.

Lemma load_segs_safe fuel phs b : Forall ph_ok phs -> m_safe b (load_segs fuel phs b).
Proof.
  revert phs b. induction fuel as [|fu IH]; intros phs b Hf; cbn [load_segs]; destruct (lowest _ _ _ _) as [[i ph]|] eqn:El;
    try (auto with safe; fail).
  apply lowest_first in El as [El _]. pose proof (Forall_lookup_1 _ _ _ _ Hf El) as Hp.
  apply m_bind; [by apply load_seg_safe|]. intros ok b1 _ _. apply m_if; [by auto with safe|].
  apply IH, Forall_insert; [done|exact Hp].
Qed.

Context (Hn : NFLAG fl = true).

(** The test of the magic number, after the buffer has been filled. *)
Lemma fill_if_safe (c : bool) n b : m_safe b (if c then fill_buf n b else Ret (true, b)).
Proof. apply m_if; [apply fill_buf_safe|auto with safe]. Qed.

Lemma no_flash_safe e b : m_safe b (Ret (no_flash e b)).
Proof. unfold no_flash. apply m_ret. by apply safe_same. Qed.

Lemma load_elf_body_safe eh b : m_safe b (load_elf_body big kseg0 malloc_ok alloc fl eh b).
Proof.
  unfold load_elf_body. apply m_if; [apply no_flash_safe|]. apply m_if; [by auto with safe|]. apply m_if; [by auto with safe|].
  apply m_bind; [apply read_at_safe|]. intros [bs|] b1 _ _; [|auto with safe]. rewrite Hn. cbn [negb andb].
  cbn [mbind res_bind]. apply m_bind.
  { apply m_if; [by auto with safe|]. apply load_segs_safe, table_of_Forall. intros x. apply fld4. }
  intros ok b2 _ _. apply m_if; [by auto with safe|]. unfold late_syms. rewrite Hn. cbn. auto with safe.
Qed.

Lemma load_elf_safe b : m_safe b (load_elf big kseg0 malloc_ok alloc fl b).
Proof.
  apply m_bind; [apply fill_if_safe|]. intros ok b1 _ _. apply m_if; [by auto with safe|]. apply m_if; [by auto with safe|].
  set (eh := ehdr_of _ _). apply (m_from _ (tell [Printf "(elf)\n" []] b1)); [apply tell_safe|].
  destruct (nogood _ _); [by auto with safe|]. apply load_elf_body_safe.
Qed.

Lemma ecoff_segs_safe m b :
  0 <= a_text_start m < 2 ^ 32 -> 0 <= a_data_start m < 2 ^ 32 -> 0 <= a_bss_start m < 2 ^ 32 ->
  a_tsize m < 2 ^ 31 -> a_dsize m < 2 ^ 31 -> a_bsize m < 2 ^ 31 -> m_safe b (ecoff_segs m b).
Proof.
  intros. unfold ecoff_segs. destruct (f_seek _ _) as [o f]. apply m_if; [by auto with safe|].
  apply (m_from _ (with_file f b)); [by auto with safe|]. apply m_bind; [by apply bootread_safe|]. intros r1 b1 _ _.
  apply m_if; [by auto with safe|]. apply m_bind; [by apply bootread_safe|]. intros r2 b2 _ _.
  apply m_if; [by auto with safe|]. apply m_ret. by apply bootclear_safe.
Qed.

Lemma load_ecoff_safe b : m_safe b (load_ecoff big kseg0 alloc fl b).
Proof.
  apply m_bind; [apply fill_if_safe|]. intros ok b1 _ _. apply m_if; [by auto with safe|]. apply m_if; [by auto with safe|].
  set (m := mipsexec_of _ _). apply (m_from _ (tell [Printf "(ecoff)\n" []] b1)); [apply tell_safe|].
  apply m_if; [apply no_flash_safe|]. rewrite Hn. apply m_if; [by auto with safe|].
  apply m_bind; [apply ecoff_segs_safe; (apply fld4 || apply s32_range)|]. intros ok2 b2 _ _. apply m_if; [by auto with safe|].
  cbn. auto with safe.
Qed.

Lemma cebin_loop_safe fuel b : m_safe b (cebin_loop fuel b).
Proof.
  revert b. induction fuel as [|fu IH]; intros b; cbn [cebin_loop]; [by auto with safe|].
  apply m_bind; [apply read_exact_safe|]. intros [bs|] b1 _ _; [|auto with safe]. apply m_if; [by auto with safe|].
  apply m_bind; [apply bootread_safe; [apply fld4|apply s32_range]|]. intros r b2 _ _.
  apply m_if; [by auto with safe|]. apply m_if; [by auto with safe|]. apply IH.
Qed.

Lemma load_cebin_safe fuel b : m_safe b (load_cebin big fuel fl b).
Proof.
  unfold load_cebin. apply m_if; [by auto with safe|]. apply m_bind; [apply fill_if_safe|]. intros ok b1 _ _.
  apply m_if; [by auto with safe|]. apply m_if; [by auto with safe|]. set (b2 := tell _ b1).
  apply (m_from _ b2); [apply tell_safe|]. apply m_if; [apply no_flash_safe|].
  destruct (YFLAG fl) eqn:Ey; [apply m_stuck; [exact Ey|reflexivity]|].
  apply m_bind; [apply read_exact_safe|]. intros [bs|] b3 _ _; [|auto with safe].
  destruct (dl_checkloadaddr _ _ _ _) as [ok4 d] eqn:Ec. apply (m_from _ (with_dl d b3)); [exact (safe_check fl _ _ _ _ _ _ Ec)|].
  apply m_if; [by auto with safe|]. apply (m_from _ (with_scheme (with_dl d b3))); [by auto with safe|]. apply cebin_loop_safe.
Qed.

Lemma line_loop_safe k b : m_safe b (line_loop k b).
Proof.
  revert b. induction k as [|k IH]; intros b; cbn [line_loop]; [by auto with safe|].
  apply m_bind; [apply read_exact_safe|]. intros [[|c [|]]|] b1 _ _; auto with safe. apply m_if; [by auto with safe|].
  apply m_bind; [apply IH|]. intros l b2 _ _. auto with safe.
Qed.

Lemma fdgets_safe off k b : m_safe b (fdgets off k b).
Proof. apply m_bind; [apply line_loop_safe|]. intros l b1 _ _. auto with safe. Qed.

(** A handler of records that is safe. *)
Definition fn_safe (fn : list Z -> nat -> dl -> dlcode * Z * dl) : Prop :=
  forall buf nb d, 0 <= nextaddr d < 2 ^ 32 -> safe fl d (fn buf nb d).2.

Lemma next_range b b' : b_safe b b' -> 0 <= nextaddr (b_dl b) < 2 ^ 32 -> 0 <= nextaddr (b_dl b') < 2 ^ 32.
Proof. apply safe_next. Qed.

Lemma xx_loop_safe fuel fn nb p rest b :
  fn_safe fn -> 0 <= nextaddr (b_dl b) < 2 ^ 32 -> m_safe b (xx_loop fuel fn nb p rest b).
Proof.
  intros Hfn. revert nb p rest b. induction fuel as [|fu IH]; intros nb p rest b Ha; cbn [xx_loop]; [by auto with safe|].
  pose proof (Hfn (b_buf b) nb (b_dl b) Ha) as S1. destruct (fn _ _ _) as [[s len] d]. cbn [snd] in S1.
  apply (m_from b (with_dl d b)); [exact S1|]. pose proof (next_range b (with_dl d b) S1 Ha) as Ha1.
  set (b1 := with_dl d b) in *. clearbody b1. clear S1.
  destruct s; auto with safe. apply m_if.
  - apply m_bind; [apply fdgets_safe|]. intros k b2 _ S2. by apply IH, (next_range b1).
  - apply m_given; [done|]. intros q _. set (buf := patch _ _ _).
    destruct (strnchr _ _ _) as [i|].
    + apply (m_from b1 (with_buf (patch i [0] buf) (b_n b1) b1)); [by auto with safe|]. apply IH. exact Ha1.
    + apply (m_from b1 (with_buf buf (b_n b1) b1)); [by auto with safe|]. apply m_bind; [apply fdgets_safe|].
      intros k b2 _ S2. apply IH, (next_range _ _ S2). exact Ha1.
Qed.

Lemma load_xx_safe fuel rectype recid fn b :
  fn_safe fn -> 0 <= nextaddr (b_dl b) < 2 ^ 32 -> m_safe b (load_xx fuel rectype recid fn b).
Proof.
  intros Hfn Ha. unfold load_xx. apply m_bind.
  { destruct (strnchr _ _ _); [by auto with safe|]. apply m_bind; [apply fdgets_safe|]. intros k b1 _ _. auto with safe. }
  intros [[nb p] rest] b1 _ S1. apply m_if; [by auto with safe|]. set (b2 := tell _ b1).
  apply (m_from _ b2); [apply tell_safe|]. apply xx_loop_safe; [done|]. apply (next_range b1); [apply tell_safe|].
  by apply (next_range b).
Qed.

Lemma fastload_safe recbuf d : 0 <= nextaddr d < 2 ^ 32 -> safe fl d (dl_fastload alloc recbuf fl d).2.
Proof. intros Ha. unfold dl_fastload. destruct (negb _); [reflexivity|]. by apply fast_loop_safe. Qed.

Lemma try_loaders_safe ls b :
  Forall (fun l => forall b, 0 <= nextaddr (b_dl b) < 2 ^ 32 -> m_safe b (l b)) ls ->
  0 <= nextaddr (b_dl b) < 2 ^ 32 -> m_safe b (try_loaders ls b).
Proof.
  intros Hl. revert b. induction Hl as [|l ls Hx Hl IH]; intros b Ha; cbn [try_loaders]; [by auto with safe|].
  apply m_bind; [by apply Hx|]. intros ep b1 _ S1. apply m_if; [by apply IH, (next_range b)|auto with safe].
Qed.

Lemma loaders_safe fuel b : 0 <= nextaddr (b_dl b) < 2 ^ 32 ->
  m_safe b (try_loaders (loaders big kseg0 malloc_ok alloc fuel fl) b).
Proof.
  intros Ha. apply try_loaders_safe; [|done].
  repeat apply List.Forall_cons; [..|apply List.Forall_nil]; intros b1 Ha1.
  - apply load_cebin_safe.
  - apply load_elf_safe.
  - apply load_ecoff_safe.
  - apply load_xx_safe; [|done]. intros buf nb d _. cbn.
    destruct (dl_s3load _ _ _ _) as [[c k] d'] eqn:E. by apply dl_s3load_safe in E.
  - apply load_xx_safe; [|done]. intros buf nb d. apply fastload_safe.
Qed.
End Safe.

(** ** What a file asks for *)

(** The byte that a segment has at an address: one of the file, then zeros. *)
Definition seg_byte (d : list Z) (ph : Elf32_Phdr) (x : Z) : option Z :=
  if (p_type ph =? PT_LOAD) && (p_vaddr ph <=? x) && (x <? p_vaddr ph + p_memsz ph)
  then Some (if x <? p_vaddr ph + p_filesz ph then default 0 (d !! Z.to_nat (p_offset ph + (x - p_vaddr ph))) else 0)
  else None.

(** The byte that a program has there. *)
Fixpoint image (d : list Z) (phs : list Elf32_Phdr) (x : Z) : option Z :=
  match phs with
  | [] => None
  | ph :: phs' => match seg_byte d ph x with Some v => Some v | None => image d phs' x end
  end.

Definition elf_segments (big : bool) (d : list Z) : list Elf32_Phdr :=
  let eh := ehdr_of big d in
  table_of (phdr_of big) PHDRSZ (Z.to_nat (e_phnum eh)) (take (Z.to_nat (e_phnum eh * Z.of_nat PHDRSZ)) (drop (Z.to_nat (e_phoff eh)) d)).

(** A segment in the file from [from] on, for memory that may be loaded. *)
Record seg_ok (l : layout) (d : list Z) (from : Z) (ph : Elf32_Phdr) : Prop := mkSegOk {
  seg_file : from <= p_offset ph /\ p_offset ph + p_filesz ph <= Z.of_nat (length d);
  seg_size : 0 <= p_filesz ph <= p_memsz ph /\ p_memsz ph < 2 ^ 31;
  seg_space : 0 <= p_vaddr ph /\ p_vaddr ph + p_memsz ph <= 2 ^ 32;
  seg_loads : 0 < p_memsz ph -> loads l (p_vaddr ph) (p_memsz ph) = true }.

(** No two segments share bytes of memory or of the file. *)
Definition segs_apart (phs : list Elf32_Phdr) : Prop :=
  forall i j p q, phs !! i = Some p -> phs !! j = Some q -> i <> j -> p_type p = PT_LOAD -> p_type q = PT_LOAD ->
  (p_vaddr p + p_memsz p <= p_vaddr q \/ p_vaddr q + p_memsz q <= p_vaddr p) /\
  (p_offset p + p_filesz p <= p_offset q \/ p_offset q + p_filesz q <= p_offset p).

(** An executable: the headers, and segments behind them, in any order. *)
Record elf_ok (big : bool) (l : layout) (d : list Z) : Prop := mkElfOk {
  elf_len : 52 <= Z.of_nat (length d) < 2 ^ 31;
  elf_magic : take 4 d = [127; 69; 76; 70];
  elf_head : nogood big (ehdr_of big d) = None;
  elf_phdr : 0 < e_phnum (ehdr_of big d) /\ e_phentsize (ehdr_of big d) = 32 /\ 52 <= e_phoff (ehdr_of big d) /\
    e_phoff (ehdr_of big d) + e_phnum (ehdr_of big d) * 32 <= Z.of_nat (length d);
  elf_segs : Forall (fun ph => p_type ph = PT_LOAD ->
    seg_ok l d (e_phoff (ehdr_of big d) + e_phnum (ehdr_of big d) * 32) ph) (elf_segments big d);
  elf_apart : segs_apart (elf_segments big d) }.

(** ** Segments taken one by one *)

Lemma image_app d l1 l2 x : image d (l1 ++ l2) x = match image d l1 x with Some v => Some v | None => image d l2 x end.
Proof. induction l1 as [|p l1 IH]; cbn; [done|]. by destruct (seg_byte d p x). Qed.

Lemma image_none d l x : (forall q, q ∈ l -> seg_byte d q x = None) -> image d l x = None.
Proof.
  induction l as [|p l IH]; intros Hq; cbn; [done|]. rewrite (Hq p) by apply list_elem_of_here.
  apply IH. intros q Hin. apply Hq. by apply list_elem_of_further.
Qed.

Lemma seg_byte_some d ph x v : seg_byte d ph x = Some v -> p_type ph = PT_LOAD /\ p_vaddr ph <= x < p_vaddr ph + p_memsz ph.
Proof.
  unfold seg_byte. destruct (Z.eqb_spec (p_type ph) PT_LOAD), (Z.leb_spec (p_vaddr ph) x), (Z.ltb_spec x (p_vaddr ph + p_memsz ph)); cbn; done || lia.
Qed.

Lemma apart_byte d phs i j p q x v : segs_apart phs -> phs !! i = Some p -> phs !! j = Some q -> i <> j ->
  seg_byte d p x = Some v -> seg_byte d q x = None.
Proof.
  intros Ha Hi Hj Hne Hp%seg_byte_some. destruct (seg_byte d q x) as [w|] eqn:Hq; [|done]. apply seg_byte_some in Hq.
  destruct (Ha i j p q) as [? _]; try done; try tauto. lia.
Qed.

(** The program is its segment [i] and the rest. *)
Lemma image_take d phs i ph m x : segs_apart phs -> phs !! i = Some ph ->
  default (default m (seg_byte d ph x)) (image d (<[i := set_null ph]> phs) x) = default m (image d phs x).
Proof.
  intros Ha Hi. assert (i < length phs)%nat as Hlt by (by apply lookup_lt_Some in Hi).
  rewrite <- (take_drop_middle phs i ph Hi) at 2. rewrite (insert_take_drop phs i) by done. rewrite !image_app.
  cbn [image]. change (seg_byte d (set_null ph) x) with (@None Z). cbn iota.
  destruct (seg_byte d ph x) as [v|] eqn:Ev; [|done].
  rewrite !image_none; [done|..]; intros q [j Hj]%list_elem_of_lookup_1; (eapply (apart_byte d phs i _ ph q); [done|done| | |done]).
  - rewrite lookup_drop in Hj. exact Hj.
  - lia.
  - rewrite lookup_take_Some in Hj. exact (proj1 Hj).
  - rewrite lookup_take_Some in Hj. lia.
Qed.

Lemma set_null_lookup (phs : list Elf32_Phdr) i ph j q : <[i := set_null ph]> phs !! j = Some q -> p_type q = PT_LOAD -> phs !! j = Some q /\ i <> j.
Proof. intros [(<- & <- & _)|[? ?]]%list_lookup_insert_Some; done. Qed.

Lemma set_null_apart phs i ph : segs_apart phs -> segs_apart (<[i := set_null ph]> phs).
Proof. intros Ha j k p q Hj Hk Hne Hp Hq. apply set_null_lookup in Hj as [Hj _], Hk as [Hk _]; [|done..]. by apply (Ha j k). Qed.

(** The number of segments still to load. *)
Definition todo (phs : list Elf32_Phdr) : nat := length (List.filter (fun ph => p_type ph =? PT_LOAD) phs).

Lemma todo_take (phs : list Elf32_Phdr) i ph : phs !! i = Some ph -> p_type ph = PT_LOAD -> todo phs = S (todo (<[i := set_null ph]> phs)).
Proof.
  intros Hi Ht. assert (i < length phs)%nat as Hlt by (by apply lookup_lt_Some in Hi).
  rewrite <- (take_drop_middle phs i ph Hi) at 1. rewrite (insert_take_drop phs i) by done. unfold todo.
  rewrite !List.filter_app, !length_app. cbn. rewrite Ht. cbn. lia.
Qed.

Lemma todo_le phs : (todo phs <= length phs)%nat.
Proof. unfold todo. induction phs as [|p phs IH]; cbn; [lia|]. destruct (_ =? _); cbn; lia. Qed.

(** ** The segments *)

Section Image.
Context {F : Type} `{NetFile F} (file : list Z -> Z -> F -> Prop) `{!NetFileData F file}.
Context (big kseg0 : bool) (malloc_ok : Z -> bool) (alloc : symtab -> option nat) (fl : Loadrec.flags).
#[local] Set Default Proof Using "Type*".
#[local] Notation boot := (boot (F := F)).

Lemma check_yes a n v s : loads (d_lay s) a n = true -> exists s', dl_checkloadaddr a n v s = (true, s') /\ d_mem s' = d_mem s /\ d_lay s' = d_lay s.
Proof.
  intros Hl. rewrite <- (check_loads a n v) in Hl. destruct (dl_checkloadaddr _ _ _ _) as [ok s'] eqn:E. cbn in Hl. subst ok.
  apply check_frame in E as (? & ? & _). by exists s'.
Qed.

Lemma netread_ok d o n (b : boot) : file d o (b_file b) -> 0 <= n -> o + n <= Z.of_nat (length d) ->
  exists f', netread n b = Ret (take (Z.to_nat n) (drop (Z.to_nat o) d), true, with_file f' b) /\ file d (o + n) f'.
Proof.
  intros Hf Hn Hl. unfold netread. destruct (fd_read d o n _ Hf Hn Hl) as (f' & -> & Hf'). by exists f'.
Qed.

Lemma bootread_ok a n o d (b : boot) : loads (d_lay (b_dl b)) a n = true -> 0 <= n -> 0 <= o -> file d o (b_file b) -> o + n <= Z.of_nat (length d) ->
  exists b', bootread a n b = Ret (n, b') /\ b_mem b' = store_bytes (b_mem b) a (take (Z.to_nat n) (drop (Z.to_nat o) d)) /\
    d_lay (b_dl b') = d_lay (b_dl b) /\ file d (o + n) (b_file b').
Proof.
  intros Hl Hn Ho Hf Hlen. unfold bootread. set (b1 := seg_note a n b).
  assert (b_mem b1 = b_mem b /\ d_lay (b_dl b1) = d_lay (b_dl b) /\ b_file b1 = b_file b) as (Em & El & Ef)
    by (unfold b1, seg_note, plus_note; by destruct (bootscheme b)).
  clearbody b1. destruct (check_yes a n true (b_dl b1)) as (s' & -> & Em1 & El1); [by rewrite El|]. cbn [negb].
  rewrite (proj2 (Z.ltb_ge n 0)) by lia. rewrite <- Ef in Hf. destruct (netread_ok d o n (with_dl s' b1) Hf Hn Hlen) as (f' & -> & Hf').
  cbn [mbind res_bind andb]. rewrite length_take, length_drop, (proj2 (Z.leb_le n _)) by lia.
  eexists. split; [reflexivity|]. cbn. unfold b_mem in *. cbn. by rewrite Em1, Em, El1, El.
Qed.

Lemma bootclear_ok a n (b : boot) : loads (d_lay (b_dl b)) a n = true -> 0 < n ->
  b_mem (bootclear a n b).2 = store_bytes (b_mem b) a (replicate (Z.to_nat n) 0) /\
  d_lay (b_dl (bootclear a n b).2) = d_lay (b_dl b) /\ b_file (bootclear a n b).2 = b_file b.
Proof.
  intros Hl Hn. unfold bootclear, plus_note. set (b1 := next_seg _).
  destruct (check_yes a n true (b_dl b1)) as (s' & -> & Em1 & El1); [done|]. cbn [negb]. rewrite (proj2 (Z.ltb_lt 0 n)) by lia.
  cbn. unfold b_mem. cbn. by rewrite Em1, El1.
Qed.

(** One segment: the part that is in the file. *)
Lemma load_file_part l d from pos ph (b : boot) : seg_ok l d from ph -> Z.of_nat (length d) < 2 ^ 31 ->
  0 <= from -> file d pos (b_file b) -> (0 < p_filesz ph -> pos <= p_offset ph) -> d_lay (b_dl b) = l ->
  exists b', load_part ph b = Ret (true, b') /\
    b_mem b' = store_bytes (b_mem b) (p_vaddr ph) (take (Z.to_nat (p_filesz ph)) (drop (Z.to_nat (p_offset ph)) d)) /\
    d_lay (b_dl b') = l /\ file d (if p_filesz ph =? 0 then pos else p_offset ph + p_filesz ph) (b_file b').
Proof.
  intros [[Hof Hlen] [Hfm Hm] [Hv0 Hv1] Hld] Hd Hfr Hf Hle El. unfold load_part. destruct (Z.eqb_spec (p_filesz ph) 0) as [E|E].
  { exists b. by rewrite E. }
  rewrite !s32_small by lia. destruct (fd_seek d pos (p_offset ph) _ Hf) as (f' & -> & Hf'); [lia|].
  rewrite u32_small, Z.eqb_refl by lia. cbn [negb].
  destruct (bootread_ok (p_vaddr ph) (p_filesz ph) (p_offset ph) d (with_file f' b)) as (b' & -> & Em & El' & Hb'); [|lia|lia|done|done|].
  { cbn. rewrite El, <- (Z.add_0_r (p_vaddr ph)). apply (loads_sub _ _ (p_memsz ph)); [apply Hld|..]; lia. }
  exists b'. cbn [mbind res_bind]. rewrite u32_small, Z.eqb_refl by lia. by rewrite El', <- El.
Qed.

(** The bytes of a segment, as they are stored. *)
Lemma seg_stored l d from ph m x : seg_ok l d from ph -> p_type ph = PT_LOAD -> 0 <= from ->
  store_bytes (store_bytes m (p_vaddr ph) (take (Z.to_nat (p_filesz ph)) (drop (Z.to_nat (p_offset ph)) d)))
    (p_vaddr ph + p_filesz ph) (replicate (Z.to_nat (p_memsz ph - p_filesz ph)) 0) x = default (m x) (seg_byte d ph x).
Proof.
  intros [[Hof Hlen] [Hfm Hm] [Hv0 Hv1] _] Ht Hfr.
  assert (length (take (Z.to_nat (p_filesz ph)) (drop (Z.to_nat (p_offset ph)) d)) = Z.to_nat (p_filesz ph)) as El
    by (rewrite length_take, length_drop; lia).
  rewrite !store_bytes_at, El, length_replicate by (split; rewrite ?El, ?length_replicate; lia). unfold seg_byte. rewrite Ht, Z.eqb_refl. cbn [andb].
  destruct (Z.leb_spec (p_vaddr ph + p_filesz ph) x), (Z.leb_spec (p_vaddr ph) x), (Z.ltb_spec x (p_vaddr ph + p_memsz ph)),
    (Z.ltb_spec x (p_vaddr ph + p_filesz ph)), (Z.ltb_spec x (p_vaddr ph + p_filesz ph + Z.of_nat (Z.to_nat (p_memsz ph - p_filesz ph)))),
    (Z.ltb_spec x (p_vaddr ph + Z.of_nat (Z.to_nat (p_filesz ph)))); cbn [andb default]; try lia; try done.
  - rewrite lookup_replicate_2 by lia. done.
  - unfold id. rewrite lookup_take_lt, lookup_drop by lia. f_equal. f_equal. lia.
Qed.

(** One segment. *)
Lemma load_seg_image l d from pos ph (b : boot) : seg_ok l d from ph -> p_type ph = PT_LOAD -> Z.of_nat (length d) < 2 ^ 31 ->
  0 <= from -> file d pos (b_file b) -> (0 < p_filesz ph -> pos <= p_offset ph) -> d_lay (b_dl b) = l ->
  exists b', load_seg ph b = Ret (true, b') /\ (forall x, b_mem b' x = default (b_mem b x) (seg_byte d ph x)) /\
    d_lay (b_dl b') = l /\ file d (if p_filesz ph =? 0 then pos else p_offset ph + p_filesz ph) (b_file b').
Proof.
  intros Hok Ht Hd Hfr Hf Hle El. unfold load_seg.
  destruct (load_file_part l d from pos ph b Hok Hd Hfr Hf Hle El) as (b1 & -> & Em & El1 & Hf1). cbn [mbind res_bind negb].
  pose proof (fun x => seg_stored l d from ph (b_mem b) x Hok Ht Hfr) as Hst. destruct Hok as [[Hof Hlen] [Hfm Hm] [Hv0 Hv1] Hld].
  eexists. split; [reflexivity|]. destruct (Z.ltb_spec (p_filesz ph) (p_memsz ph)) as [Hlt|Hge].
  - assert (loads l (p_vaddr ph + p_filesz ph) (p_memsz ph - p_filesz ph) = true) as Hl2
      by (apply (loads_sub _ _ (p_memsz ph)); [apply Hld|..]; lia).
    rewrite u32_small, s32_small by lia.
    destruct (bootclear_ok (p_vaddr ph + p_filesz ph) (p_memsz ph - p_filesz ph) b1) as (Em2 & El2 & Ef2); [by rewrite El1|lia|].
    rewrite Em2, El2, Ef2, Em. done.
  - split; [|done]. intros x. rewrite <- Hst. replace (p_memsz ph - p_filesz ph) with 0 by lia. cbn. by rewrite Em.
Qed.

(** All the segments, in the order of the file. *)
Lemma load_segs_image l d from fuel phs pos (b : boot) :
  Forall (fun ph => p_type ph = PT_LOAD -> seg_ok l d from ph) phs -> segs_apart phs -> (todo phs <= fuel)%nat ->
  Z.of_nat (length d) < 2 ^ 31 -> 0 <= from -> file d pos (b_file b) -> d_lay (b_dl b) = l ->
  (forall ph, ph ∈ phs -> p_type ph = PT_LOAD -> 0 < p_filesz ph -> pos <= p_offset ph) ->
  exists b', load_segs fuel phs b = Ret (true, b') /\ forall x, b_mem b' x = default (b_mem b x) (image d phs x).
Proof.
  revert phs pos b. induction fuel as [|fu IH]; intros phs pos b Hok Ha Hn Hd Hfr Hf El Hpos; cbn [load_segs];
    destruct (lowest phs 0 0xffffffff None) as [[i ph]|] eqn:Elo.
  2, 4: exists b; (split; [done|]); intros x; rewrite image_none; [done|]; intros q Hq;
    pose proof (lowest_spec phs 0 0xffffffff None) as Hl; rewrite Elo in Hl; destruct Hl as [_ Hl];
    destruct (seg_byte d q x) eqn:Es; [|done]; apply seg_byte_some in Es as [Et _]; specialize (Hl q Hq Et);
    rewrite List.Forall_forall in Hok; apply list_elem_of_In in Hq; destruct (Hok q Hq Et); lia.
  - apply lowest_first in Elo as (Hi & Ht & _). rewrite (todo_take _ _ _ Hi Ht) in Hn. lia.
  - apply lowest_first in Elo as (Hi & Ht & Hmin).
    pose proof (Forall_lookup_1 _ _ _ _ Hok Hi Ht) as Hph. pose proof (list_elem_of_lookup_2 _ _ _ Hi) as Hin.
    destruct (load_seg_image l d from pos ph b) as (b1 & -> & Em & El1 & Hf1); try done; [auto|]. cbn [mbind res_bind negb].
    rewrite (todo_take _ _ _ Hi Ht) in Hn.
    edestruct (IH (<[i := set_null ph]> phs)) as (b2 & -> & Em2);
      [|by apply set_null_apart|lia|done|done|exact Hf1|done| |].
    + by apply Forall_insert.
    + intros q [j Hj]%list_elem_of_lookup_1 Hq Hsz. apply set_null_lookup in Hj as [Hj Hne]; [|done].
      specialize (Hmin q (list_elem_of_lookup_2 _ _ _ Hj) Hq). destruct (Z.eqb_spec (p_filesz ph) 0).
      * apply Hpos; [by apply list_elem_of_lookup_2 in Hj|done..].
      * destruct (Ha i j ph q) as [_ ?]; try done. destruct Hph as [_ ? _ _]. lia.
    + exists b2. split; [done|]. intros x. rewrite Em2, Em. by apply image_take.
Qed.

(** The buffer has the first bytes of the file, which is at the next one. *)
Definition buffered (d : list Z) (b : boot) : Prop :=
  0 <= b_n b <= Z.of_nat (length d) /\ take (Z.to_nat (b_n b)) (b_buf b) = take (Z.to_nat (b_n b)) d /\ file d (b_n b) (b_file b).

Lemma fill_buf_ok d size b : buffered d b -> b_n b <= size <= Z.of_nat (length d) ->
  exists b', fill_buf size b = Ret (true, b') /\ buffered d b' /\ b_n b' = size /\ b_dl b' = b_dl b.
Proof.
  intros (Hn & Hb & Hf) Hs. unfold fill_buf. destruct (netread_ok d _ (size - b_n b) b Hf) as (f' & -> & Hf'); [lia..|].
  cbn [mbind res_bind]. rewrite length_take, length_drop, (proj2 (Z.eqb_eq _ (size - b_n b))) by lia. cbn [andb].
  eexists. split; [reflexivity|]. split; [|done]. cbn [b_n b_buf b_file with_buf with_file]. split; [cbn; lia|]. split.
  - cbn [b_n with_buf]. unfold patch. rewrite Hb.
    replace (Z.to_nat size) with (Z.to_nat (b_n b) + Z.to_nat (size - b_n b))%nat by lia.
    rewrite app_assoc, take_take_drop. apply take_app_length'. rewrite length_take. lia.
  - by replace (b_n b + (size - b_n b)) with size in Hf' by lia.
Qed.

Lemma read_at_ok d o off n (b : boot) : file d o (b_file b) -> 0 <= o <= off -> 0 <= n -> off + n <= Z.of_nat (length d) ->
  Z.of_nat (length d) < 2 ^ 31 ->
  exists b', read_at off n b = Ret (Some (take (Z.to_nat n) (drop (Z.to_nat off) d)), b') /\ file d (off + n) (b_file b') /\ b_dl b' = b_dl b.
Proof.
  intros Hf Ho Hn Hl Hd. unfold read_at. rewrite s32_small by lia. destruct (fd_seek d o off _ Hf) as (f' & -> & Hf'); [lia|].
  rewrite u32_small, Z.eqb_refl by lia. cbn [negb]. unfold read_exact.
  destruct (netread_ok d off n (with_file f' b) Hf' Hn Hl) as (f2 & -> & Hf2). cbn [mbind res_bind].
  rewrite length_take, length_drop, (proj2 (Z.eqb_eq _ n)) by lia. cbn [andb]. eexists. split; [reflexivity|]. done.
Qed.

Context (Hfl : FFLAG fl = false /\ YFLAG fl = false /\ NFLAG fl = true).

Lemma load_elf_image d b : malloc_ok (e_phnum (ehdr_of big d) * 32) = true -> buffered d b -> b_n b <= 52 ->
  elf_ok big (d_lay (b_dl b)) d ->
  exists b', load_elf big kseg0 malloc_ok alloc fl b = Ret (s32 (e_entry (ehdr_of big d)), b') /\
    forall x, b_mem b' x = default (b_mem b x) (image d (elf_segments big d) x).
Proof.
  intros Hm Hb Hn [Hlen Hmag Hhead (Hp1 & Hp2 & Hp3 & Hp4) Hsegs Hap]. destruct Hfl as (Hff & Hyf & Hnf). unfold load_elf.
  assert (exists b1, (if b_n b <? Z.of_nat EHDRSZ then fill_buf (Z.of_nat EHDRSZ) b else Ret (true, b)) = Ret (true, b1) /\
    buffered d b1 /\ b_n b1 = 52 /\ b_dl b1 = b_dl b) as (b1 & -> & (_ & Hb1 & Hf1) & Hn1 & Ed).
  { change (Z.of_nat EHDRSZ) with 52. destruct (Z.ltb_spec (b_n b) 52); [apply (fill_buf_ok d 52 b Hb); lia|].
    exists b. split; [done|]. split; [done|]. split; [lia|done]. }
  cbn [mbind res_bind negb]. rewrite Hn1 in Hb1, Hf1. change (Z.to_nat 52) with 52%nat in Hb1.
  assert (ehdr_of big (b_buf b1) = ehdr_of big d) as -> by (by apply ehdr_of_prefix).
  assert (take 4 (e_ident (ehdr_of big d)) = [127; 69; 76; 70]) as -> by (cbn; by rewrite take_take).
  rewrite bool_decide_eq_true_2 by done. cbn [negb]. rewrite Hhead. unfold load_elf_body. rewrite Hff, Hyf, Hnf.
  change (Z.of_nat PHDRSZ) with 32. rewrite (proj2 (Z.eqb_neq (e_phoff _) 0)), (proj2 (Z.eqb_neq (e_phnum _) 0)), Hp2, Z.eqb_refl, Hm by lia.
  cbn [orb negb andb].
  destruct (read_at_ok d 52 (e_phoff (ehdr_of big d)) (e_phnum (ehdr_of big d) * 32) (tell [Printf "(elf)\n" []] b1))
    as (b2 & -> & Hf2 & Ed2); [exact Hf1|lia..|]. cbn [mbind res_bind].
  change (table_of _ _ _ _) with (elf_segments big d). set (from := e_phoff _ + _) in *.
  destruct (load_segs_image (d_lay (b_dl b)) d from (length (elf_segments big d)) (elf_segments big d) from b2) as (b3 & -> & Em);
    try done; [apply todo_le|lia|unfold from; lia|rewrite Ed2; cbn; by rewrite Ed| |].
  { intros ph Hin Ht _. rewrite List.Forall_forall in Hsegs. apply list_elem_of_In in Hin. destruct (Hsegs ph Hin Ht) as [[? _] _ _ _]. done. }
  cbn [mbind res_bind negb]. unfold late_syms. rewrite Hnf. cbn [mbind res_bind]. exists b3. split; [done|]. intros x.
  rewrite Em. unfold b_mem. rewrite Ed2. cbn. by rewrite Ed.
Qed.

Lemma load_cebin_other d fuel b : buffered d b -> b_n b = 0 -> 52 <= Z.of_nat (length d) -> take 4 d = [127; 69; 76; 70] ->
  exists b', load_cebin big fuel fl b = Ret (-1, b') /\ buffered d b' /\ b_n b' <= 52 /\ b_dl b' = b_dl b.
Proof.
  intros Hb Hn Hlen Hmag. unfold load_cebin. destruct big; [exists b; repeat split; try done; apply Hb || lia|].
  rewrite Hn. change (0 <? 7) with true. cbn iota. destruct (fill_buf_ok d 7 b Hb) as (b1 & -> & Hb1 & Hn1 & Ed); [lia|].
  cbn [mbind res_bind negb]. exists b1. rewrite bool_decide_eq_false_2; [cbn [negb]; repeat split; try done; apply Hb1 || lia|].
  intros E. destruct Hb1 as (_ & Hb1 & _). rewrite Hn1 in Hb1. change (Z.to_nat 7) with 7%nat in Hb1. rewrite Hb1 in E.
  apply (f_equal (take 4)) in E. rewrite take_take in E. change (Nat.min 4 7) with 4%nat in E. rewrite Hmag in E. done.
Qed.

Lemma loaders_elf d fuel b : malloc_ok (e_phnum (ehdr_of big d) * 32) = true -> buffered d b -> b_n b = 0 ->
  elf_ok big (d_lay (b_dl b)) d -> e_entry (ehdr_of big d) <> 0xffffffff ->
  exists b', try_loaders (loaders big kseg0 malloc_ok alloc fuel fl) b = Ret (s32 (e_entry (ehdr_of big d)), b') /\
    forall x, b_mem b' x = default (b_mem b x) (image d (elf_segments big d) x).
Proof.
  intros Hm Hb Hn Hok He. unfold loaders. cbn [try_loaders].
  destruct (load_cebin_other d fuel b Hb Hn) as (b1 & -> & Hb1 & Hn1 & Ed); [apply (elf_len _ _ _ Hok)|apply (elf_magic _ _ _ Hok)|].
  cbn [mbind res_bind]. change (-1 =? -1) with true. cbn iota. rewrite <- Ed in Hok.
  destruct (load_elf_image d b1 Hm Hb1 Hn1 Hok) as (b2 & -> & Em). cbn [mbind res_bind].
  rewrite (proj2 (Z.eqb_neq _ (-1))); [exists b2; split; [done|]; intros x; unfold b_mem in *; by rewrite Em, Ed|].
  intros E. apply He. assert (0 <= e_entry (ehdr_of big d) < 2 ^ 32) by apply fld4.
  rewrite <- (u32_small (e_entry _)), <- (wrapu_wraps 32 (e_entry _)), E by lia. done.
Qed.
End Image.

(** ** The theorems *)


(** C4. A program is loaded. [boot -n] (with neither [-f], which loads flash, nor
    [-y], which loads nothing but symbols), given a 32-bit ELF executable of this
    machine and byte order, of less than 2 GB, whose segments lie behind the headers
    in the file, share no bytes and lie in memory that a client may be loaded into,
    in any order, returns its entry address, and then every byte of memory is the
    one the program has there (the file's, or zero behind the file's part of a
    segment), and the one it was before where the program has none. There must be
    memory for the program headers, and the entry address must not be 0xffffffff,
    which is the code for a file of another format. The file need only be read and
    moved forwards in, as a TFTP transfer whose blocks get through can be. Without
    [-n] the loader also reads the tables of symbols into memory. *)
Theorem boot_loads_program {F : Type} `{NetFile F} (file : list Z -> Z -> F -> Prop) `{!NetFileData F file}
  (big kseg0 : bool) (malloc_ok : Z -> bool) (alloc : symtab -> option nat) (fl : Loadrec.flags) (fuel : nat)
  (d : list Z) (b : boot (F := F))
  (Hfl : FFLAG fl = false /\ YFLAG fl = false /\ NFLAG fl = true)
  (Hm : malloc_ok (e_phnum (ehdr_of big d) * 32) = true) (Hn : b_n b = 0) (Hf : file d 0 (b_file b))
  (Hok : elf_ok big (d_lay (b_dl b)) d) (He : e_entry (ehdr_of big d) <> 0xffffffff) :
  exists b', try_loaders (loaders big kseg0 malloc_ok alloc fuel fl) b = Ret (s32 (e_entry (ehdr_of big d)), b') /\
    forall x, b_mem b' x = default (b_mem b x) (image d (elf_segments big d) x).
Proof.
  apply (loaders_elf file big kseg0 malloc_ok alloc fl Hfl d fuel b Hm); [|done..].
  unfold buffered. rewrite Hn. split; [lia|done].
Qed.

(** ** A concrete program

    Two segments, the second of the file first in the table: eight bytes at
    0x80200000 of which four are in the file, and four at 0x80201000. *)
Definition phdr0 (off vaddr filesz memsz : Z) : list Z :=
  concat (map (bytes_of true 4) [1; off; vaddr; vaddr; filesz; memsz; 7; 4]).
Definition elf0 : list Z :=
  [127; 69; 76; 70; 1; 2; 1; 0; 0; 0; 0; 0; 0; 0; 0; 0] ++
  concat (map (bytes_of true 2) [2; 8]) ++ concat (map (bytes_of true 4) [1; 0x80201000; 52; 0; 0]) ++
  concat (map (bytes_of true 2) [52; 32; 2; 40; 0; 0]) ++
  phdr0 120 0x80200000 4 8 ++ phdr0 116 0x80201000 4 4 ++ [1; 2; 3; 4; 5; 6; 7; 8].

Definition n_flags : Loadrec.flags := mkFlags false false false false false false false false true false false.
Definition boot0 : boot (F := tftpfile * net) :=
  mkBoot (set_dmem (fun _ => 255) dl0) (mkTftp 4000 1 0 true 0 124 0 elf0, mkNet [] [] [] EOK []) 0 false true 0x400000 [] 0.

Lemma elf0_ok : elf_ok true layout0 elf0.
Proof.
  split.
  - vm_compute. split; congruence.
  - reflexivity.
  - vm_compute. reflexivity.
  - vm_compute. repeat split; congruence.
  - change (elf_segments true elf0) with [mkPhdr 1 120 0x80200000 4 8; mkPhdr 1 116 0x80201000 4 4].
    repeat apply List.Forall_cons; [..|apply List.Forall_nil]; intros _; (split; [vm_compute; repeat split; congruence..|intros _; vm_compute; reflexivity]).
  - change (elf_segments true elf0) with [mkPhdr 1 120 0x80200000 4 8; mkPhdr 1 116 0x80201000 4 4].
    intros [|[|i]] [|[|j]] p q Hi Hj Hne _ _; try done; injection Hi as <-; injection Hj as <-; cbn; lia.
Qed.

Lemma elf0_stands : tftp_stands 4000 elf0 0 (b_file boot0).
Proof.
  split; [vm_compute; reflexivity|]. split; [|done]. left. exists 1%nat.
  split; [|split; [done|apply del_end; vm_compute; lia]]. repeat split; vm_compute; congruence || lia.
Qed.

Lemma boot_loads_program_witness :
  exists b', try_loaders (loaders true true (fun _ => true) (fun _ => None) 0 n_flags) boot0 = Ret (s32 0x80201000, b') /\
    forall x, b_mem b' x = default (b_mem boot0 x) (image elf0 (elf_segments true elf0) x).
Proof.
  apply (boot_loads_program (tftp_stands 4000) true true (fun _ => true) (fun _ => None) n_flags 0 elf0 boot0);
    [done|done|done|exact elf0_stands|exact elf0_ok|vm_compute; congruence].
Defined.


(** ** Where it goes wrong *)

Definition boot1 (d : list Z) : boot (F := tftpfile * net) :=
  mkBoot dl0 (mkTftp 4000 1 0 true 0 (Z.of_nat (length d)) 0 d, mkNet [] [] [] EOK []) 0 false true 0x400000 [] 0.
Definition srec0 : list cstr := [str "S00600004844521B"; str "S30980200000010203044C"; str "S705802000005A"].

(** Three records that the [load] command loads without an error. When they come
    over the network the third is lost: the first 52 bytes have been read for the
    other formats and end within it, and the rest of the line is read over its
    beginning. *)
Lemma records_overwritten :
  (exists l, load_records (fun _ => None) false n_flags srec0 dl0 = Loaded l /\ err l = 0) /\
  exists b', try_loaders (loaders true true (fun _ => true) (fun _ => None) 10 n_flags)
    (boot1 (concat (map (fun l => l ++ [nl]) srec0))) = Ret (-2, b').
Proof. split; [eexists; vm_compute; split; reflexivity|]. eexists. vm_compute. reflexivity. Qed.

(** The test of a load address passes a negative size, so that a segment of 256
    bytes less than 4 GB in the file, in the memory of a client, is read. *)
Definition elf1 : list Z :=
  [127; 69; 76; 70; 1; 2; 1; 0; 0; 0; 0; 0; 0; 0; 0; 0] ++
  concat (map (bytes_of true 2) [2; 8]) ++ concat (map (bytes_of true 4) [1; 0x80400000; 52; 0; 0]) ++
  concat (map (bytes_of true 2) [52; 32; 1; 40; 0; 0]) ++ phdr0 84 0x80400000 0xffffff00 0xffffff00.

Lemma negative_size_read :
  loads layout0 0x80400000 (-256) = true /\
  reason (try_loaders (loaders true true (fun _ => true) (fun _ => None) 0 n_flags) (boot1 elf1)) = Some NegativeRead.
Proof. split; vm_compute; reflexivity. Qed.

(** Fast records that the [load] command loads without an error. Over the network
    the test for S-records, which comes first, has put a NUL at the end of the first
    line, and the loader takes it and the second line for one record. *)
Definition fast0 : list cstr := [str "/ACgEgAA"; str "AAABAAAC"; str "/ACgEgAA/EAA"; str "/KAA/KAA/KAA/KAA/KAA/KAA"; str "/KAA"].

Lemma fast_records_spoiled :
  (exists l, load_records (fun _ => None) false n_flags fast0 dl0 = Loaded l /\ err l = 0) /\
  exists b', try_loaders (loaders true true (fun _ => true) (fun _ => None) 10 n_flags)
    (boot1 (concat (map (fun l => l ++ [nl]) fast0))) = Ret (-2, b').
Proof. split; [eexists; vm_compute; split; reflexivity|]. eexists. vm_compute. reflexivity. Qed.
