(* ===== verification/Stack.v ===== *)
(** * Stack: the arguments and the environment of the client

    [initstack] of [src/pmon/go.c] with the part of [envbuild] of
    [src/pmon/set.c] that writes to the client's stack, and a client that reads
    its vectors back.

    The theorem: the client finds in [$a1] and [$a2] the vectors of its arguments
    and of the environment, and nothing but the room of the vectors and of the
    strings is written; a lemma shows that this room is larger than the one that
    was made for it. *)

From S2P Require Import Prelude CString Memory Tunables Env Loadrec Watch.

(** ** The operation *)

(** A C string as bytes. *)
Definition c_bytes (s : cstr) : list Z := map u8 s ++ [0].

Definition put_ptr (big : bool) (m : mem) (a p : Z) : mem := store_bytes m a (bytes_of big 4 p).

(** The loop over the arguments: where it leaves the two pointers and the memory.
    [src/pmon/go.c:93-97] *)
Fixpoint put_strings (big : bool) (l : list cstr) (vsp ssp : Z) (m : mem) : Z * Z * mem :=
  match l with
  | [] => (vsp, ssp, m)
  | a :: l' =>
      put_strings big l' (u32 (vsp + 4)) (u32 (ssp + strlen (Some a) + 1))
        (store_bytes (put_ptr big m vsp ssp) ssp (c_bytes a))
  end.

(** The texts of the environment, in the order of the table. *)
Definition env_text (ep : envpair) : option cstr := n ← e_name ep; Some (n ++ ch "=" :: default [] (e_value ep)).
Definition env_strings {W : Type} (s : env (W := W)) : list cstr := omap env_text (envvar s).

(** [src/pmon/set.c:461-476] *)
Definition envbuild_mem {W : Type} (big : bool) (s : env (W := W)) (vsp ssp : Z) (m : mem) : mem :=
  let '(vsp, _, m) := put_strings big (env_strings s) vsp ssp m in put_ptr big m vsp 0.

(** The length of strings with their NULs. [src/pmon/go.c:57-60] *)
Definition strs_len (l : list cstr) : Z := fold_left (fun n a => n + strlen (Some a) + 1) l 0.

(** The registers that are set. [src/pmon/go.c:79-86] *)
Record startregs : Type := mkStart { r_a0 : Z; r_a1 : Z; r_a2 : Z; r_sp : Z }.

(** [envsize] sets the length to that of the environment alone. The sum for [$a2]
    is unsigned, the others are signed. [src/pmon/go.c:46-105] *)
Definition initstack {W : Type} (big : bool) (av : list cstr) (addenv : bool) (s : env (W := W)) (sp : Z) (m : mem) : startregs * mem :=
  let ac := Z.of_nat (length av) in
  let slen := strs_len av in
  let '(ec, slen) := if addenv then envsize s else (0, slen) in
  let slen := Z.ldiff (slen + 3) 3 in
  let vlen := (ac + ec + 2) * 4 in
  let stklen := Z.ldiff (vlen + slen + 7) 7 in
  let nsp := s32 (sp - stklen) in
  let r := mkStart ac nsp (u32 (nsp + (ac + 1) * 4)) (s32 (nsp - 32)) in
  let '(vsp, ssp, m) := put_strings big av (u32 nsp) (u32 (nsp + vlen)) m in
  let m := put_ptr big m vsp 0 in
  let vsp := u32 (vsp + 4) in
  (r, if ec =? 0 then put_ptr big m vsp 0 else envbuild_mem big s vsp ssp m).

(** ** A client *)

(** The strings of a vector that ends with a null pointer, each shorter than
    [fuel]. *)
Fixpoint read_vec (big : bool) (fuel n : nat) (m : mem) (a : Z) : option (list cstr) :=
  match n with
  | O => None
  | S n' =>
      let p := u32 (load_word big m a) in
      if p =? 0 then Some []
      else s ← mem_str fuel m p; l ← read_vec big fuel n' m (a + 4); Some (s :: l)
  end.

(** ** Lemmas *)

(** The length of all the strings. *)
Fixpoint total_len (l : list cstr) : Z :=
  match l with
  | [] => 0
  | a :: l' => Z.of_nat (length a) + 1 + total_len l'
  end.

Lemma total_len_nonneg l : 0 <= total_len l.
Proof. induction l as [|a l IH]; cbn; lia. Qed.

Lemma strs_len_total l : strs_len l = total_len l.
Proof.
  unfold strs_len. assert (forall n, fold_left (fun n a => n + strlen (Some a) + 1) l n = n + total_len l) as H.
  { induction l as [|a l IH]; intros n; cbn [fold_left total_len]; [lia|]. rewrite IH, strlen_spec. lia. }
  rewrite H. lia.
Qed.

Lemma envsize_text acc ep : envsize_step acc ep =
  match env_text ep with Some t => (acc.1 + 1, acc.2 + (Z.of_nat (length t) + 1)) | None => acc end.
Proof.
  unfold envsize_step, env_text. destruct ep as [[n|] [v|]]; cbn [e_name e_value mbind option_bind default]; try done;
    rewrite ?strlen_spec, length_app; cbn [length]; f_equal; unfold id; lia.
Qed.

Lemma envsize_strings {W : Type} (s : env (W := W)) : envsize s = (Z.of_nat (length (env_strings s)), total_len (env_strings s)).
Proof.
  unfold envsize, env_strings.
  assert (forall vs acc, fold_left envsize_step vs acc =
    (acc.1 + Z.of_nat (length (omap env_text vs)), acc.2 + total_len (omap env_text vs))) as H by
    (induction vs as [|ep vs IH]; intros [a b]; cbn [fold_left omap list_omap]; [cbn; f_equal; lia|];
     rewrite IH, envsize_text; destruct (env_text ep); cbn [fst snd length total_len]; f_equal; lia).
  rewrite H. done.
Qed.

Lemma c_bytes_length a : length (c_bytes a) = S (length a).
Proof. unfold c_bytes. rewrite length_app, length_map. cbn. lia. Qed.

(** The strings [l] are at [ssp], one after the other, and the pointers to them
    at [vsp]. *)
Fixpoint vec_at (big : bool) (m : mem) (vsp ssp : Z) (l : list cstr) : Prop :=
  match l with
  | [] => True
  | a :: l' =>
      load_bytes m vsp 4 = bytes_of big 4 ssp /\ load_bytes m ssp (S (length a)) = c_bytes a /\
      vec_at big m (vsp + 4) (ssp + Z.of_nat (length a) + 1) l'
  end.

(** Vector and strings lie apart and inside the address space. *)
Definition laid_out (vsp ssp : Z) (l : list cstr) : Prop :=
  0 <= vsp /\ vsp + 4 * Z.of_nat (length l) <= ssp /\ ssp + total_len l <= 2 ^ 32.

Lemma load_bytes_ext m1 m2 a n : in_space a n -> (forall x, a <= x < a + Z.of_nat n -> m1 x = m2 x) -> load_bytes m1 a n = load_bytes m2 a n.
Proof.
  intros Hs Hx. apply list_eq. intros i. destruct (decide (i < n)%nat).
  - rewrite !load_bytes_at by done. f_equal. apply Hx. lia.
  - rewrite !lookup_ge_None_2; rewrite ?load_bytes_length; try lia. done.
Qed.

Lemma vec_at_ext big m1 m2 vsp ssp l : laid_out vsp ssp l ->
  (forall x, vsp <= x < vsp + 4 * Z.of_nat (length l) \/ ssp <= x < ssp + total_len l -> m1 x = m2 x) ->
  vec_at big m1 vsp ssp l -> vec_at big m2 vsp ssp l.
Proof.
  revert vsp ssp. induction l as [|a l IH]; intros vsp ssp (H1 & H2 & H3) Hx Hv; [done|].
  cbn [vec_at length total_len] in *. pose proof (total_len_nonneg l). destruct Hv as (Hp & Hs & Hv). split; [|split].
  - rewrite <- Hp. symmetry. apply load_bytes_ext; [split; lia|]. intros x Hr. apply Hx. lia.
  - rewrite <- Hs. symmetry. apply load_bytes_ext; [split; lia|]. intros x Hr. apply Hx. lia.
  - apply IH; [repeat split; lia| |done]. intros x Hr. apply Hx. lia.
Qed.

(** What the loop writes. *)
Lemma put_strings_vec big l vsp ssp m : laid_out vsp ssp l -> ssp + total_len l < 2 ^ 32 ->
  exists m', put_strings big l vsp ssp m = (vsp + 4 * Z.of_nat (length l), ssp + total_len l, m') /\ vec_at big m' vsp ssp l /\
    forall x, ~ (vsp <= x < vsp + 4 * Z.of_nat (length l) \/ ssp <= x < ssp + total_len l) -> m' x = m x.
Proof.
  revert vsp ssp m. induction l as [|a l IH]; intros vsp ssp m (H1 & H2 & H3) Hlt; cbn [put_strings vec_at length total_len] in *.
  { exists m. split; [f_equal; f_equal; lia|done]. }
  pose proof (total_len_nonneg l). rewrite strlen_spec, !u32_small by lia.
  set (m1 := store_bytes (put_ptr big m vsp ssp) ssp (c_bytes a)).
  destruct (IH (vsp + 4) (ssp + Z.of_nat (length a) + 1) m1) as (m' & E & Hv & Hx); [repeat split; lia|lia|].
  rewrite E. exists m'. split; [f_equal; f_equal; lia|].
  assert (forall x, m1 x = if (ssp <=? x) && (x <? ssp + Z.of_nat (S (length a))) then default 0 (c_bytes a !! Z.to_nat (x - ssp))
                           else put_ptr big m vsp ssp x) as E1.
  { intros x. unfold m1. rewrite store_bytes_at by (split; rewrite ?c_bytes_length; lia). by rewrite c_bytes_length. }
  split; [split; [|split; [|exact Hv]]|].
  - transitivity (load_bytes m1 vsp 4); [apply load_bytes_ext; [split; lia|]; intros x Hr; apply Hx; lia|].
    unfold m1. rewrite load_store_apart; [|split; lia|split; rewrite ?c_bytes_length; lia|left; lia].
    pose proof (load_store_bytes m vsp (bytes_of big 4 ssp)) as Hl. rewrite bytes_of_length in Hl. apply Hl. split; lia.
  - transitivity (load_bytes m1 ssp (S (length a))); [apply load_bytes_ext; [split; lia|]; intros x Hr; apply Hx; lia|].
    rewrite <- (c_bytes_length a). apply load_store_bytes. split; rewrite ?c_bytes_length; lia.
  - intros x Hr. rewrite Hx by lia. rewrite E1.
    destruct (Z.leb_spec ssp x), (Z.ltb_spec x (ssp + Z.of_nat (S (length a)))); cbn [andb]; try lia;
      (unfold put_ptr; rewrite store_bytes_at by (split; rewrite ?bytes_of_length; lia); rewrite bytes_of_length;
       destruct (Z.leb_spec vsp x), (Z.ltb_spec x (vsp + Z.of_nat 4)); cbn [andb]; done || lia).
Qed.

Lemma ldiff_down x k : 0 <= k -> Z.ldiff x (Z.ones k) = x - x mod 2 ^ k.
Proof.
  intros Hk. rewrite Z.ldiff_ones_r, Z.shiftl_mul_pow2, Z.shiftr_div_pow2 by done.
  pose proof (Z.div_mod x (2 ^ k)). lia.
Qed.

Lemma s32_mod8 x : s32 x mod 8 = x mod 8.
Proof.
  rewrite (Znumtheory.Zmod_div_mod 8 (2 ^ 32) (s32 x)), (Znumtheory.Zmod_div_mod 8 (2 ^ 32) x) by (lia || by exists (2 ^ 29)).
  change ((s32 x mod 2 ^ 32) mod 8) with (u32 (s32 x) mod 8). by rewrite wrapu_wraps.
Qed.

(** What a client reads. *)
Lemma ptr_at big m a p : load_bytes m a 4 = bytes_of big 4 p -> u32 (load_word big m a) = u32 p.
Proof.
  intros E. unfold load_word. rewrite E, val_of_bytes, wrapu_wraps. change (256 ^ Z.of_nat 4) with (2 ^ 32). apply wrapu_wrapu.
Qed.

Lemma mem_str_at fuel m p a : cstr_ok a -> (length a < fuel)%nat -> load_bytes m p (S (length a)) = c_bytes a -> mem_str fuel m p = Some a.
Proof.
  revert m p fuel. induction a as [|c a IH]; intros m p fuel Hok Hf E; (destruct fuel as [|fuel]; [cbn in Hf; lia|]); cbn [mem_str].
  - injection E as ->. done.
  - apply Forall_cons_iff in Hok as [[Hc1 Hc2] Hok]. cbn [length] in Hf. cbn [length load_bytes] in E. injection E as Ec E. rewrite Ec.
    rewrite wraps_wrapu, wraps_small by (cbn; lia). rewrite (proj2 (Z.eqb_neq c 0) Hc1).
    rewrite (IH m (p + 1) fuel Hok); [done|lia|]. cbn [load_bytes]. by rewrite E.
Qed.

Definition arg_ok (fuel : nat) (a : cstr) : Prop := cstr_ok a /\ (length a < fuel)%nat.

Lemma read_vec_at big fuel m vsp ssp l : laid_out vsp ssp l -> 0 < ssp -> ssp + total_len l < 2 ^ 32 -> Forall (arg_ok fuel) l ->
  vec_at big m vsp ssp l -> load_bytes m (vsp + 4 * Z.of_nat (length l)) 4 = bytes_of big 4 0 ->
  read_vec big fuel (S (length l)) m vsp = Some l.
Proof.
  intros Hlay. revert vsp ssp Hlay. induction l as [|a l IH]; intros vsp ssp (H1 & H2 & H3) Hp Hlt Hok Hv Hz; cbn [read_vec length total_len vec_at] in *.
  - rewrite Z.add_0_r in Hz. rewrite (ptr_at _ _ _ _ Hz). done.
  - destruct Hv as (E1 & E2 & Hv). apply Forall_cons_iff in Hok as [[Ha Hf] Hok]. pose proof (total_len_nonneg l).
    rewrite (ptr_at _ _ _ _ E1), u32_small, (proj2 (Z.eqb_neq ssp 0)) by lia. rewrite (mem_str_at fuel m ssp a Ha Hf E2). cbn [mbind option_bind].
    cbn [read_vec] in IH. rewrite (IH (vsp + 4) (ssp + Z.of_nat (length a) + 1)); [done|repeat split; lia|lia|lia|done|done|].
    rewrite <- Hz. f_equal. lia.
Qed.

Lemma put_ptr_other big m a p x : in_space a 4 -> ~ a <= x < a + 4 -> put_ptr big m a p x = m x.
Proof.
  intros Hs Hx. unfold put_ptr. rewrite store_bytes_at by (rewrite bytes_of_length; exact Hs). rewrite bytes_of_length.
  destruct (Z.leb_spec a x), (Z.ltb_spec x (a + Z.of_nat 4)); cbn [andb]; done || lia.
Qed.

Lemma put_ptr_same big m a p : in_space a 4 -> load_bytes (put_ptr big m a p) a 4 = bytes_of big 4 p.
Proof. intros Hs. pose proof (load_store_bytes m a (bytes_of big 4 p)) as Hl. rewrite bytes_of_length in Hl. by apply Hl. Qed.

(** The two vectors. *)
Definition build_vectors (big : bool) (av ev : list cstr) (vsp ssp : Z) (m : mem) : mem :=
  let '(vsp, ssp, m) := put_strings big av vsp ssp m in
  let m := put_ptr big m vsp 0 in
  let '(vsp, _, m) := put_strings big ev (u32 (vsp + 4)) ssp m in
  put_ptr big m vsp 0.

Lemma vectors_read big fuel av ev base m :
  let vlen := (Z.of_nat (length av) + Z.of_nat (length ev) + 2) * 4 in
  0 <= base -> base + vlen + total_len av + total_len ev < 2 ^ 32 -> Forall (arg_ok fuel) av -> Forall (arg_ok fuel) ev ->
  let m' := build_vectors big av ev base (base + vlen) m in
  read_vec big fuel (S (length av)) m' base = Some av /\
  read_vec big fuel (S (length ev)) m' (base + (Z.of_nat (length av) + 1) * 4) = Some ev /\
  forall x, m' x <> m x -> base <= x < base + vlen + total_len av + total_len ev.
Proof.
  intros vlen Hb Hlt Hav Hev. unfold build_vectors. pose proof (total_len_nonneg av). pose proof (total_len_nonneg ev).
  destruct (put_strings_vec big av base (base + vlen) m) as (m1 & -> & V1 & X1); [repeat split; lia|lia|].
  set (z1 := base + 4 * Z.of_nat (length av)) in *. set (m2 := put_ptr big m1 z1 0).
  assert (forall x, ~ z1 <= x < z1 + 4 -> m2 x = m1 x) as X2 by (intros x Hx; apply put_ptr_other; [split; lia|done]).
  rewrite (u32_small (z1 + 4)) by lia.
  destruct (put_strings_vec big ev (z1 + 4) (base + vlen + total_len av) m2) as (m3 & -> & V3 & X3); [repeat split; lia|lia|].
  set (z2 := z1 + 4 + 4 * Z.of_nat (length ev)) in *. set (m4 := put_ptr big m3 z2 0).
  assert (forall x, ~ z2 <= x < z2 + 4 -> m4 x = m3 x) as X4 by (intros x Hx; apply put_ptr_other; [split; lia|done]).
  cbv zeta. split; [|split].
  - apply (read_vec_at big fuel m4 base (base + vlen) av); [repeat split; lia|lia|lia|done| |].
    + apply (vec_at_ext big m1); [repeat split; lia| |done]. intros x Hx. rewrite X4, X3, X2 by lia. done.
    + transitivity (load_bytes m2 z1 4); [|apply put_ptr_same; split; lia].
      apply load_bytes_ext; [split; lia|]. intros x Hx. rewrite X4, X3 by lia. done.
  - replace (base + (Z.of_nat (length av) + 1) * 4) with (z1 + 4) by lia.
    apply (read_vec_at big fuel m4 (z1 + 4) (base + vlen + total_len av) ev); [repeat split; lia|lia|lia|done| |].
    + apply (vec_at_ext big m3); [repeat split; lia| |done]. intros x Hx. rewrite X4 by lia. done.
    + apply put_ptr_same. split; lia.
  - intros x Hx. destruct (decide (base <= x < base + vlen + total_len av + total_len ev)) as [|Hn]; [done|]. destruct Hx. rewrite X4, X3, X2, X1 by lia. done.
Qed.

(** The length the code reserves. *)
Definition vec_len (av ev : list cstr) : Z := (Z.of_nat (length av) + Z.of_nat (length ev) + 2) * 4.
Definition stack_len (addenv : bool) (av ev : list cstr) : Z :=
  Z.ldiff (vec_len av ev + Z.ldiff (total_len (if addenv then ev else av) + 3) 3 + 7) 7.

Lemma stack_len_bounds (addenv : bool) av ev :
  vec_len av ev + total_len (if addenv then ev else av) <= stack_len addenv av ev <= vec_len av ev + total_len (if addenv then ev else av) + 10 /\
  stack_len addenv av ev mod 8 = 0.
Proof.
  unfold stack_len. set (t := total_len _). set (v := vec_len av ev).
  change (Z.ldiff (t + 3) 3) with (Z.ldiff (t + 3) (Z.ones 2)). change (Z.ldiff ?x 7) with (Z.ldiff x (Z.ones 3)).
  rewrite (ldiff_down (t + 3) 2), ldiff_down by lia. change (2 ^ 2) with 4. change (2 ^ 3) with 8.
  pose proof (Z.mod_pos_bound (t + 3) 4). set (y := v + _ + 7). pose proof (Z.mod_pos_bound y 8).
  split; [lia|]. rewrite Zminus_mod_idemp_r, Z.sub_diag. done.
Qed.

Lemma initstack_vectors {W : Type} big (addenv : bool) av (s : env (W := W)) sp m :
  let ev := if addenv then env_strings s else [] in
  let nsp := s32 (sp - stack_len addenv av ev) in
  let ac := Z.of_nat (length av) in
  initstack big av addenv s sp m =
    (mkStart ac nsp (u32 (nsp + (ac + 1) * 4)) (s32 (nsp - 32)), build_vectors big av ev (u32 nsp) (u32 (nsp + vec_len av ev)) m).
Proof.
  cbv zeta. unfold initstack, build_vectors, stack_len, vec_len. rewrite strs_len_total, envsize_strings.
  destruct addenv; cbn [length total_len].
  - destruct (put_strings _ av _ _ _) as [[vsp ssp] m1]. f_equal. unfold envbuild_mem.
    destruct (Z.eqb_spec (Z.of_nat (length (env_strings s))) 0) as [E|]; [|done].
    destruct (env_strings s); [done|cbn in E; lia].
  - by destruct (put_strings _ av _ _ _) as [[vsp ssp] m1].
Qed.

(** ** The theorem *)

(** The most that the stack needs: the vectors, the strings and the padding. *)
Definition stack_need (av ev : list cstr) : Z :=
  4 * (Z.of_nat (length av) + Z.of_nat (length ev) + 2) + total_len av + total_len ev + 16.

(** C33. The client is given its arguments. When there is room below the stack
    pointer, [initstack] leaves the number of the arguments in [$a0] and the vectors
    of the arguments and of the environment in [$a1] and [$a2], as the client reads
    them; the stack pointer stays aligned and is 32 bytes below the vectors; and
    nothing is written above the old stack pointer but, with the environment, as
    many bytes as the arguments have. *)
Theorem client_args {W : Type} (big addenv : bool) (fuel : nat) (av : list cstr) (s : env (W := W)) (sp : Z) (m : mem)
  (Hav : Forall (arg_ok fuel) av) (Hev : Forall (arg_ok fuel) (env_strings s))
  (Hlo : stack_need av (env_strings s) < sp) (Hhi : sp + total_len av < 2 ^ 32) :
  let ev := if addenv then env_strings s else [] in
  let '(r, m') := initstack big av addenv s sp m in
  r_a0 r = Z.of_nat (length av) /\
  read_vec big fuel (S (length av)) m' (u32 (r_a1 r)) = Some av /\
  read_vec big fuel (S (length ev)) m' (u32 (r_a2 r)) = Some ev /\
  r_sp r = s32 (r_a1 r - 32) /\ (sp mod 8 = 0 -> r_sp r mod 8 = 0) /\
  forall x, m' x <> m x -> sp - stack_need av ev <= x < sp + (if addenv then total_len av else 0).
Proof.
  intros ev. rewrite initstack_vectors. fold ev. set (n := stack_len addenv av ev).
  destruct (stack_len_bounds addenv av ev) as [Hn H8]. fold n in Hn, H8.
  assert (0 <= total_len av /\ 0 <= total_len ev /\ stack_need av ev <= stack_need av (env_strings s)) as (T1 & T2 & Hne).
  { unfold stack_need, ev. pose proof (total_len_nonneg av). pose proof (total_len_nonneg (env_strings s)). destruct addenv; cbn; lia. }
  assert (total_len (if addenv then ev else av) + (if addenv then total_len av else 0) = total_len av + total_len ev) as Et
    by (unfold ev; destruct addenv; cbn; lia).
  assert (u32 (s32 (sp - n)) = sp - n) as En by (rewrite wrapu_wraps; unfold stack_need, vec_len in *; apply u32_small; destruct addenv; lia).
  assert (forall k, 0 <= k <= vec_len av ev -> u32 (s32 (sp - n) + k) = sp - n + k) as Ek.
  { intros k Hk. rewrite <- wrapu_add_l, En. apply u32_small. unfold stack_need, vec_len in *. destruct addenv; lia. }
  cbn [r_a0 r_a1 r_a2 r_sp]. rewrite (Ek (vec_len av ev)), wrapu_wrapu, Ek, En by (unfold vec_len; lia).
  destruct (vectors_read big fuel av ev (sp - n) m) as (R1 & R2 & R3);
    [unfold stack_need, vec_len in *; destruct addenv; lia|fold (vec_len av ev); destruct addenv; lia|done|unfold ev; by destruct addenv|].
  fold (vec_len av ev) in R1, R2, R3. split; [done|]. split; [done|]. split; [done|]. split; [done|]. split.
  - intros Hs. rewrite s32_mod8, Zminus_mod, s32_mod8, (Zminus_mod sp n), Hs, H8. done.
  - intros x Hx. apply R3 in Hx. unfold stack_need, vec_len in *. destruct addenv; lia.
Qed.

(** ** Concrete stacks *)

Definition env2 : env (W := unit) :=
  mkEnv true [mkPair (Some (str "brkcmd")) (Some (str "l @epc 1")); mkPair None None; mkPair (Some (str "dlecho")) None]
    (mkTunables 24 0 0 false 0) tt [].
Definition args2 : list cstr := [str "g"; str "-v"; str "input"].

Lemma client_args_witness :
  let '(r, m') := initstack true args2 true env2 0x80400000 (fun _ => 255) in
  r_a0 r = 3 /\ read_vec true 100 4 m' (u32 (r_a1 r)) = Some args2 /\
  read_vec true 100 3 m' (u32 (r_a2 r)) = Some [str "brkcmd=l @epc 1"; str "dlecho="] /\
  r_sp r = s32 (r_a1 r - 32) /\ (0x80400000 mod 8 = 0 -> r_sp r mod 8 = 0) /\
  forall x, m' x <> 255 -> 0x80400000 - stack_need args2 (env_strings env2) <= x < 0x80400000 + total_len args2.
Proof.
  apply (client_args true true 100 args2 env2 0x80400000 (fun _ => 255)).
  - repeat apply List.Forall_cons; [..|apply List.Forall_nil]; (split; [repeat constructor; done|cbn; lia]).
  - repeat apply List.Forall_cons; [..|apply List.Forall_nil]; (split; [repeat constructor; done|cbn; lia]).
  - vm_compute. reflexivity.
  - vm_compute. reflexivity.
Defined.

(** Where it goes wrong: [envsize] starts the length again from 0, so no room is
    made for the arguments. With the client's stack at the top of a memory of
    4 MB, arguments of 42 characters are written over the end of memory. *)
Definition long_args : list cstr := [str "g"; str "--file=/usr/local/lib/vmlinux"; str "console=tty0"].

Lemma args_past_memory :
  let m' := (initstack true long_args true env2 (clienttos 0x400000) (fun _ => 255)).2 in
  exists x, K0BASE + 0x400000 <= x /\ m' x <> 255.
Proof. exists (K0BASE + 0x400000). split; [lia|]. vm_compute. congruence. Qed.
