(* ===== verification/Comp.v ===== *)
(** * Comp: computations on a state that may fail

    The code that drives hardware is a state monad with faults: a computation
    runs out of fuel, indexes an array out of its bounds, waits for a device for
    ever, or jumps to code that does not come back. [wp] is its weakest precondition: the result and the state it
    leaves satisfy a predicate, and the faults it may end in are listed. *)

From S2P Require Import Prelude.

(** ** Computations *)

Inductive fault : Type := OutOfFuel | OutOfBounds | Hung | Jumped.

Inductive res (A : Type) : Type :=
| Ok (a : A)
| Err (f : fault).
Arguments Ok {A} a.
Arguments Err {A} f.

Definition M (S A : Type) : Type := S -> res (A * S).

#[export] Instance M_ret {S} : MRet (M S) := fun A a s => Ok (a, s).
#[export] Instance M_bind {S} : MBind (M S) := fun A B k m s =>
  match m s with
  | Ok (a, s') => k a s'
  | Err f => Err f
  end.

Definition fail {S A} (f : fault) : M S A := fun _ => Err f.
Definition gets {S A} (f : S -> A) : M S A := fun s => Ok (f s, s).
Definition modify {S} (f : S -> S) : M S unit := fun s => Ok (tt, f s).
(** A value that must be there: the element of an array. *)
Definition need {S A} (o : option A) : M S A :=
  match o with Some a => mret a | None => fail OutOfBounds end.
Definition when {S} (b : bool) (m : M S unit) : M S unit := if b then m else mret tt.

(** [for] over the elements of a list, in order. *)
Fixpoint for_each {S A} (l : list A) (body : A -> M S unit) : M S unit :=
  match l with
  | [] => mret tt
  | x :: l' => body x ≫= fun _ => for_each l' body
  end.

(** The same over an array whose elements the body replaces. *)
Fixpoint map_each {S A} (l : list A) (body : A -> M S A) : M S (list A) :=
  match l with
  | [] => mret []
  | x :: l' => body x ≫= fun y => map_each l' body ≫= fun r => mret (y :: r)
  end.

(** A step whose result is known. *)
Lemma bind_ok {S A B} (m : M S A) (k : A -> M S B) s a s' : m s = Ok (a, s') -> (m ≫= k) s = k a s'.
Proof. intros H. unfold mbind, M_bind. by rewrite H. Qed.

(** ** Weakest preconditions

    [E] says which faults are allowed. *)
Definition wp {S A} (E : fault -> Prop) (m : M S A) (Q : A -> S -> Prop) (s : S) : Prop :=
  match m s with
  | Ok (a, s') => Q a s'
  | Err f => E f
  end.

(** No fault at all. *)
Abbreviation no_fault := (fun _ : fault => False).

Section Wp.
Context {S : Type} (E : fault -> Prop).

Lemma wp_ret {A} (a : A) (Q : A -> S -> Prop) s : Q a s -> wp E (mret a) Q s.
Proof. done. Qed.

Lemma wp_bind {A A'} (m : M S A) (k : A -> M S A') Q s :
  wp E m (fun a s' => wp E (k a) Q s') s -> wp E (m ≫= k) Q s.
Proof. unfold wp, mbind, M_bind. by destruct (m s) as [[a s']|f]. Qed.

Lemma wp_bind_assoc {A A' A''} (m : M S A) (f : A -> M S A') (k : A' -> M S A'') Q s :
  wp E (m ≫= f) (fun b s' => wp E (k b) Q s') s -> wp E (m ≫= fun a => f a ≫= k) Q s.
Proof. unfold wp, mbind, M_bind. by destruct (m s) as [[a s']|e]; [destruct (f a s') as [[b s'']|e]|]. Qed.

Lemma wp_mono {A} (m : M S A) (Q Q' : A -> S -> Prop) s :
  wp E m Q s -> (forall a s', Q a s' -> Q' a s') -> wp E m Q' s.
Proof. unfold wp. intros H HQ. destruct (m s) as [[a s']|f]; auto. Qed.

Lemma wp_gets {A} (f : S -> A) Q s : Q (f s) s -> wp E (gets f) Q s.
Proof. done. Qed.

Lemma wp_modify f Q (s : S) : Q tt (f s) -> wp E (modify f) Q s.
Proof. done. Qed.

Lemma wp_need {A} (o : option A) (a : A) (Q : A -> S -> Prop) s :
  o = Some a -> Q a s -> wp E (need o) Q s.
Proof. by intros ->. Qed.

Lemma wp_when (b : bool) m (Q : unit -> S -> Prop) s :
  (b = true -> wp E m Q s) -> (b = false -> Q tt s) -> wp E (when b m) Q s.
Proof. destruct b; cbn; auto. Qed.

Lemma wp_run {A} (m : M S A) (Q : A -> S -> Prop) s a s' : m s = Ok (a, s') -> Q a s' -> wp E m Q s.
Proof. unfold wp. by intros ->. Qed.

Lemma wp_elim {A} (m : M S A) (Q : A -> S -> Prop) s : wp (fun _ => False) m Q s -> exists a s', m s = Ok (a, s') /\ Q a s'.
Proof. unfold wp. destruct (m s) as [[a s']|f]; [eauto|done]. Qed.

Lemma wp_ok {A} (m : M S A) Q s a s' : wp E m Q s -> m s = Ok (a, s') -> Q a s'.
Proof. unfold wp. intros H Hm. by rewrite Hm in H. Qed.

Lemma wp_err {A} (m : M S A) Q s f : wp E m Q s -> m s = Err f -> E f.
Proof. unfold wp. intros H Hm. by rewrite Hm in H. Qed.

(** A loop keeps an invariant that may speak of the elements done so far. *)
Lemma wp_for_each {A} (I : list A -> S -> Prop) (l : list A) body s :
  (forall l1 x l2 s, l = l1 ++ x :: l2 -> I l1 s -> wp E (body x) (fun _ => I (l1 ++ [x])) s) ->
  I [] s -> wp E (for_each l body) (fun _ => I l) s.
Proof.
  intros Hb. enough (forall l1 l2 s, l = l1 ++ l2 -> I l1 s -> wp E (for_each l2 body) (fun _ => I l) s)
    as Hi by (intros; by apply (Hi [])).
  intros l1 l2. revert l1. induction l2 as [|x l2 IH]; intros l1 s' -> HI; cbn.
  - apply wp_ret. by rewrite app_nil_r.
  - apply wp_bind. eapply wp_mono; [by apply (Hb l1 x l2)|]. intros [] s'' HI'.
    apply (IH (l1 ++ [x])); [by rewrite <- app_assoc|done].
Qed.

(** The same when the elements are replaced: the invariant speaks of the
    elements done and of what they became. *)
Lemma wp_map_each {A} (I : list A -> list A -> S -> Prop) (l : list A) body s (Q : list A -> S -> Prop) :
  (forall l1 x l2 r s, l = l1 ++ x :: l2 -> I l1 r s ->
     wp E (body x) (fun y => I (l1 ++ [x]) (r ++ [y])) s) ->
  (forall r s, I l r s -> Q r s) ->
  I [] [] s -> wp E (map_each l body) Q s.
Proof.
  intros Hb HQ.
  enough (forall l1 l2 r s, l = l1 ++ l2 -> I l1 r s ->
            wp E (map_each l2 body) (fun r' => I l (r ++ r')) s) as Hi.
  { intros H0. eapply wp_mono; [by apply (Hi [] l [])|]. auto. }
  intros l1 l2. revert l1. induction l2 as [|x l2 IH]; intros l1 r s' -> HI; cbn.
  - apply wp_ret. by rewrite !app_nil_r in *.
  - apply wp_bind. eapply wp_mono; [by apply (Hb l1 x l2)|]. intros y s'' HI'. cbn in *.
    apply wp_bind. eapply wp_mono; [apply (IH (l1 ++ [x]) (r ++ [y])); [by rewrite <- app_assoc|done]|].
    cbn. intros r' s3 H3. apply wp_ret. by rewrite <- app_assoc in H3.
Qed.
End Wp.

(** One step of a computation. *)
Ltac wps :=
  repeat match goal with
  | |- wp _ (_ ≫= _) _ _ => apply wp_bind
  | |- wp _ (gets _) _ _ => apply wp_gets
  | |- wp _ (modify _) _ _ => apply wp_modify
  end; cbn beta.
