(* ===== verification/Flashdev.v ===== *)
(** * Flashdev: the interface of the flash devices

    [src/pmon/p5064/flashdev.h]: a client opens a flash device at a physical
    address and reaches it through the vector of functions behind its cookie.
    [FlashDev] is that vector; [FlashDevOk] is what a device promises to its
    clients: reads give the bytes that were programmed, a write that only clears
    bits of one sector succeeds and stores its bytes in the order given, an erase
    sets one sector to ones. A device remembers which contents it has held
    ([past]), so that a client can say what a power failure at any moment
    leaves. *)

From S2P Require Import Prelude Comp.

(** [src/pmon/p5064/flashdev.h:39-49] *)
Record flashinfo : Type := {
  fi_name : string;
  fi_base : Z;
  fi_size : Z;
  fi_mapbase : Z;
  fi_unit : Z;
  fi_maxssize : Z;
  fi_soffs : Z;
  fi_ssize : Z;
  fi_sprot : Z
}.

(** [src/pmon/p5064/flashdev.h:84] *)
Definition FLASHDEV_OK : Z := 0.
(** [src/pmon/p5064/flashdev.h:85] *)
Definition FLASHDEV_FAIL : Z := -1.
(** [src/pmon/p5064/flashdev.h:86] *)
Definition FLASHDEV_PROTECTED : Z := -2.
(** [src/pmon/p5064/flashdev.h:87] *)
Definition FLASHDEV_PARTIAL : Z := -3.
(** [src/pmon/p5064/flashdev.h:88] *)
Definition FLASHDEV_NOMEM : Z := -4.
(** [src/pmon/p5064/flashdev.h:89] *)
Definition FLASHDEV_FATAL : Z := -5.

(** [src/pmon/p5064/flashdev.h:92] *)
Definition FLASHDEV_PROG_REBOOT : Z := 0x01.
(** [src/pmon/p5064/flashdev.h:94] *)
Definition FLASHDEV_PROG_MERGE : Z := 0x04.
(** [src/pmon/p5064/flashdev.h:95] *)
Definition FLASHDEV_PROG_CODE_EB : Z := 0x08.
(** [src/pmon/p5064/flashdev.h:96] *)
Definition FLASHDEV_PROG_CODE_EL : Z := 0x00.
(** [src/pmon/p5064/flashdev.h:102] *)
Definition FLASHDEV_PROG_STREAM : Z := 0x10.
(** [src/pmon/p5064/flashdev.h:105] *)
Definition FLASHDEV_READ_CODE_EB : Z := 0x08.
(** [src/pmon/p5064/flashdev.h:107] *)
Definition FLASHDEV_READ_STREAM : Z := 0x10.

(** The vector of functions. The buffer of a write is the list of its bytes,
    [None] for the null pointer that asks for a flush; that of a read holds
    what it held before where the device does not fill it.
    [src/pmon/p5064/flashdev.h:55-78] *)
Class FlashDev (D C : Type) : Type := {
  flash_open : Z -> M D (option C);
  flash_info : C -> Z -> M D (Z * flashinfo);
  flash_erasesector : C -> Z -> M D Z;
  flash_programbytes : C -> Z -> option (list Z) -> Z -> M D Z;
  flash_readbytes : C -> Z -> list Z -> Z -> M D (Z * list Z)
}.

(** ** Contents *)

(** [n] bytes from [o]. *)
Definition slice (m : mem) (o : Z) (n : nat) : list Z := m <$> seqZ o (Z.of_nat n).

(** The contents after [bs] has been stored from [o] on. *)
Fixpoint burn (m : mem) (o : Z) (bs : list Z) : mem :=
  match bs with
  | [] => m
  | b :: bs' => burn (upd m o b) (o + 1) bs'
  end.

(** The contents after the erasure of [n] bytes from [o]. *)
Definition wipe (m : mem) (o n : Z) : mem :=
  fun a => if (o <=? a) && (a <? o + n) then 0xff else m a.

Definition byte_ok (b : Z) : Prop := 0 <= b < 256.

(** A byte that can be programmed over another: it only clears bits. *)
Definition clears (old new : Z) : Prop := Z.land new old = new.

#[export] Instance clears_dec : RelDecision clears.
Proof. intros x y. unfold clears. apply _. Defined.

(** ** What a device promises *)

(** A device that the monitor opens at [FLASH_BASE]. *)
(** [src/pmon/p5064/sbd.h:57] *)
Definition FLASH_BASE : Z := 0x1fe00000.

Class FlashDevOk (D C : Type) `{FD : FlashDev D C} : Type := {
  dev_ok : C -> D -> Prop;
  (** The bytes by their offsets, and those the device has held. *)
  contents : C -> D -> mem;
  past : C -> D -> list mem;
  fl_size : C -> Z;
  (** The base and the size of the sector of an offset, unless it is protected. *)
  geometry : C -> Z -> option (Z * Z);
  (** The device of the environment; the device after power-on. *)
  flash0 : C;
  powered : D -> Prop;
  power_cycle : D -> D;
  (** Contents with which the device is recognised; its last sector does not
      matter. *)
  openable : mem -> Prop;
  openable_home m m' so sn : geometry flash0 (fl_size flash0 - 512) = Some (so, sn) -> openable m ->
    (forall a, ~ (so <= a < so + sn) -> m' a = m a) -> openable m';
  fl_size_ok c : 512 <= fl_size c < 2 ^ 31;
  geometry_ok c o so sn : geometry c o = Some (so, sn) -> 0 <= so <= o /\ o < so + sn /\ so + sn <= fl_size c;
  geometry_same c o so sn a : geometry c o = Some (so, sn) -> so <= a < so + sn -> geometry c a = Some (so, sn);
  contents_ok c d a : dev_ok c d -> byte_ok (contents c d a);
  (** An operation leaves the contents [m], and those in between satisfy [P]. *)
  evolves (c : C) (d : D) (P : mem -> Prop) (m : mem) (d' : D) : Prop :=
    dev_ok c d' /\ contents c d' =m= m /\ forall x, x ∈ past c d' -> x ∈ past c d \/ P x;
  power_cycle_ok d : dev_ok flash0 d -> openable (contents flash0 d) ->
    powered (power_cycle d) /\ contents flash0 (power_cycle d) =m= contents flash0 d;
  powered_ok d : powered d -> openable (contents flash0 d);
  open_ok d : powered d ->
    wp no_fault (flash_open FLASH_BASE) (fun oc d' => oc = Some flash0 /\
      evolves flash0 d (fun x => x =m= contents flash0 d) (contents flash0 d) d') d;
  info_ok c o d : dev_ok c d -> 0 <= o < fl_size c ->
    wp no_fault (flash_info c o) (fun '(r, i) d' =>
      evolves c d (fun x => x =m= contents c d) (contents c d) d' /\ r = FLASHDEV_OK /\
      fi_size i = fl_size c /\
      match geometry c o with
      | Some (so, sn) => fi_sprot i = 0 /\ fi_soffs i = so /\ fi_ssize i = sn
      | None => fi_sprot i <> 0
      end) d;
  read_ok c o buf d : dev_ok c d -> 0 <= o -> o + Z.of_nat (length buf) <= fl_size c ->
    wp no_fault (flash_readbytes c o buf FLASHDEV_READ_STREAM) (fun '(r, l) d' =>
      d' = d /\ r = FLASHDEV_OK /\ l = slice (contents c d) o (length buf)) d;
  program_ok c so sn o bs d : dev_ok c d -> bs <> [] ->
    (forall a, o <= a < o + Z.of_nat (length bs) -> geometry c a = Some (so, sn)) -> Forall byte_ok bs ->
    Forall2 clears (slice (contents c d) o (length bs)) bs ->
    wp no_fault (flash_programbytes c o (Some bs) FLASHDEV_PROG_STREAM) (fun r d' =>
      r = FLASHDEV_OK /\
      evolves c d (fun x => exists n, (n <= length bs)%nat /\ x =m= burn (contents c d) o (take n bs))
        (burn (contents c d) o bs) d') d;
  (** A null pointer or no bytes: nothing happens. *)
  flush_ok c o mem flags d : dev_ok c d -> default [] mem = [] -> 0 <= o <= fl_size c ->
    wp no_fault (flash_programbytes c o mem flags) (fun r d' => r = FLASHDEV_OK /\ d' = d) d;
  erase_ok c so sn o d : dev_ok c d -> geometry c o = Some (so, sn) ->
    wp no_fault (flash_erasesector c o) (fun r d' =>
      r = FLASHDEV_OK /\
      evolves c d (fun x => x =m= contents c d \/ x =m= wipe (contents c d) so sn)
        (wipe (contents c d) so sn) d') d
}.

(** ** Lemmas on contents *)

Lemma length_pos {A} (l : list A) : l <> [] -> (0 < length l)%nat.
Proof. destruct l; [done|cbn; lia]. Qed.

Lemma slice_length m o n : length (slice m o n) = n.
Proof. unfold slice. rewrite length_fmap, length_seqZ. lia. Qed.

Lemma slice_lookup m o n i : (i < n)%nat -> slice m o n !! i = Some (m (o + Z.of_nat i)).
Proof.
  intros Hi. unfold slice. rewrite list_lookup_fmap, lookup_seqZ_lt by lia. done.
Qed.

#[export] Instance slice_proper : Proper (mem_eq ==> eq ==> eq ==> eq) slice.
Proof. intros m m' Hm o ? <- n ? <-. unfold slice. apply list_fmap_ext. intros. apply Hm. Qed.

Lemma slice_eq m m' o n : m =m= m' -> slice m o n = slice m' o n.
Proof. intros H. by apply slice_proper. Qed.

Lemma slice_app m o n k : slice m o (n + k) = slice m o n ++ slice m (o + Z.of_nat n) k.
Proof. unfold slice. rewrite Nat2Z.inj_add, seqZ_app, fmap_app by lia. done. Qed.

Lemma slice_cons m o n : slice m o (S n) = m o :: slice m (o + 1) n.
Proof. change (S n) with (1 + n)%nat. by rewrite slice_app. Qed.

#[export] Instance burn_proper : Proper (mem_eq ==> eq ==> eq ==> mem_eq) burn.
Proof.
  intros m m' Hm o ? <- bs ? <-. revert m m' o Hm. induction bs as [|b bs IH]; intros m m' o Hm; [done|].
  cbn. apply IH. by rewrite Hm.
Qed.

Lemma burn_spec bs m o a :
  burn m o bs a = if (o <=? a) && (a <? o + Z.of_nat (length bs)) then default 0 (bs !! Z.to_nat (a - o)) else m a.
Proof.
  revert m o. induction bs as [|b bs IH]; intros m o.
  - cbn [burn length]. by repeat (case_bool; try lia).
  - cbn [burn length]. rewrite IH. unfold upd. repeat case_bool; try lia; try done; cbn.
    all: try (replace (Z.to_nat (a - o)) with (S (Z.to_nat (a - (o + 1)))) by lia; done).
    by replace (a - o) with 0 by lia.
Qed.

Lemma burn_app m o bs cs : burn m o (bs ++ cs) = burn (burn m o bs) (o + Z.of_nat (length bs)) cs.
Proof.
  revert m o. induction bs as [|b bs IH]; intros m o; cbn [burn app length].
  - f_equal. lia.
  - rewrite IH. f_equal. lia.
Qed.

(** Storing bytes inside a stretch replaces them in its list. *)
Lemma slice_burn m o n k bs : (k + length bs <= n)%nat ->
  slice (burn m (o + Z.of_nat k) bs) o n = take k (slice m o n) ++ bs ++ drop (k + length bs) (slice m o n).
Proof.
  intros Hk. apply list_eq. intros i. destruct (Nat.lt_ge_cases i n) as [Hi|Hi].
  2:{ rewrite !lookup_ge_None_2; [done| |]; rewrite ?length_app, ?length_take, ?length_drop, !slice_length; lia. }
  rewrite slice_lookup, burn_spec by lia. destruct (Nat.lt_ge_cases i k).
  - rewrite lookup_app_l by (rewrite length_take, slice_length; lia). rewrite lookup_take_lt, slice_lookup by lia.
    by repeat (case_bool; try lia).
  - rewrite lookup_app_r by (rewrite length_take, slice_length; lia). rewrite length_take, slice_length, Nat.min_l by lia.
    destruct (Nat.lt_ge_cases i (k + length bs)).
    + rewrite lookup_app_l by lia. do 2 (case_bool; try lia). cbn.
      replace (Z.to_nat _) with (i - k)%nat by lia.
      by destruct (lookup_lt_is_Some_2 bs (i - k)%nat) as [b ->]; [lia|].
    + rewrite lookup_app_r by lia. rewrite lookup_drop, slice_lookup by lia.
      do 2 (case_bool; try lia). cbn. do 2 f_equal. lia.
Qed.

Lemma slice_wipe m so sn o n : so <= o -> o + Z.of_nat n <= so + sn -> slice (wipe m so sn) o n = replicate n 0xff.
Proof.
  intros H1 H2. apply list_eq. intros i. destruct (Nat.lt_ge_cases i n) as [Hi|Hi].
  - rewrite slice_lookup, lookup_replicate_2 by lia. unfold wipe. by repeat (case_bool; try lia).
  - rewrite !lookup_ge_None_2; [done| |]; rewrite ?length_replicate, ?slice_length; lia.
Qed.

(** Ones can be programmed over. *)
Lemma clears_ff b : byte_ok b -> clears 0xff b.
Proof.
  intros Hb. unfold clears. change 0xff with (Z.ones 8). rewrite Z.land_ones by lia.
  apply Z.mod_small. unfold byte_ok in Hb. lia.
Qed.

Lemma clears_zero b : clears b 0.
Proof. done. Qed.

(** The test of the drivers. *)
Lemma clears_test old new : clears old new <-> Z.land new (Z.lnot old) = 0.
Proof.
  unfold clears. rewrite <- Z.ldiff_land. split; intros H.
  - rewrite <- H. apply Z.bits_inj'. intros i Hi. rewrite Z.ldiff_spec, Z.land_spec, Z.bits_0.
    by destruct (Z.testbit new i), (Z.testbit old i).
  - pose proof (Z.lor_ldiff_and new old) as E. by rewrite H, Z.lor_0_l in E.
Qed.

(** A stretch that is stored as a whole, with some bytes of it replaced. *)
Lemma burn_sector m so n k bs a : (k + length bs <= n)%nat ->
  burn (wipe m so (Z.of_nat n)) so (take k (slice m so n) ++ bs ++ drop (k + length bs) (slice m so n)) a =
  burn m (so + Z.of_nat k) bs a.
Proof.
  intros Hk. rewrite <- slice_burn by done. set (m' := burn m (so + Z.of_nat k) bs).
  rewrite burn_spec, slice_length. destruct (Z.leb_spec so a), (Z.ltb_spec a (so + Z.of_nat n)); cbn [andb].
  - rewrite slice_lookup by lia. cbn. f_equal. lia.
  - unfold wipe. rewrite (proj2 (Z.ltb_ge _ _)) by lia. rewrite andb_false_r. unfold m'. rewrite burn_spec.
    by rewrite (proj2 (Z.ltb_ge _ _)), andb_false_r by lia.
  - unfold wipe, m'. rewrite burn_spec. by rewrite !(proj2 (Z.leb_gt _ _)) by lia.
  - unfold wipe, m'. rewrite burn_spec. by rewrite !(proj2 (Z.leb_gt _ _)) by lia.
Qed.

Lemma burn_outside m o bs a : ~ (o <= a < o + Z.of_nat (length bs)) -> burn m o bs a = m a.
Proof. intros H. rewrite burn_spec. by repeat (case_bool; try lia). Qed.

Lemma clears_ones bs : Forall byte_ok bs -> Forall2 clears (replicate (length bs) 0xff) bs.
Proof. intros H. induction H; cbn; constructor; [by apply clears_ff|done]. Qed.

Lemma slice_bytes V o n : (forall a, byte_ok (V a)) -> Forall byte_ok (slice V o n).
Proof. intros H. apply Forall_fmap, List.Forall_forall. intros a _. apply H. Qed.

Lemma merged_bytes V o n k j bs : (forall a, byte_ok (V a)) -> Forall byte_ok bs ->
  Forall byte_ok (take k (slice V o n) ++ bs ++ drop j (slice V o n)).
Proof.
  intros HV Hb. pose proof (slice_bytes V o n HV). apply Forall_app. split; [by apply Forall_take|].
  apply Forall_app. split; [done|by apply Forall_drop].
Qed.
