(* ===== verification/Flashenv.v ===== *)
(** * Flashenv: the environment in flash memory

    [src/pmon/p5064/flashenv.c] and [src/pmon/p5064/sbdflashenv.c]: variables
    that survive power-off, kept in one sector of a flash device as a sequence
    of records, each a size byte (counting itself), the name, and [=] and the
    value where there is one. A byte of ones ends the sequence. A variable is
    deleted by clearing the first byte of its name, and is added at the end, so
    that the sector is erased only when the end is reached.

    The static variables of the file are a record; the device is reached
    through [FlashDev]. A byte that a failed read leaves uninitialised is a
    parameter, as is the segment the monitor runs in. *)

From S2P Require Import Prelude CString Comp Flashdev.

(** [src/pmon/p5064/flashenv.h:11] *)
Definition ENVOFF_MAGIC : Z := 0.
(** [src/pmon/p5064/flashenv.h:12] *)
Definition ENVOFF_BASE : Z := 2.
(** [src/pmon/p5064/flashenv.h:16] *)
Definition ENV_MAGIC_0 : Z := 0xde.
(** [src/pmon/p5064/flashenv.h:17] *)
Definition ENV_MAGIC_1 : Z := 0xaf.
(** [src/pmon/p5064/flashenv.h:19] *)
Definition ENVSTATE_UNKNOWN : Z := -1.
(** [src/pmon/p5064/flashenv.h:20] *)
Definition ENVSTATE_OK : Z := 0.
(** [src/pmon/p5064/flashenv.h:21] *)
Definition ENVSTATE_UNINITIALISED : Z := 1.
(** [src/pmon/p5064/flashenv.h:23] *)
Definition ENVSTATE_UNRECOVERABLE : Z := 3.
(** [src/pmon/p5064/flashenv.h:24] *)
Definition ENVSTATE_MISSING : Z := 4.

(** [src/include/errno.h:7] *)
Definition EINVAL : Z := 1.
(** [src/include/errno.h:8] *)
Definition ENODEV : Z := 2.
(** [src/include/errno.h:9] *)
Definition ENOENT : Z := 2.
(** [src/include/errno.h:12] *)
Definition ENOSPC : Z := 28.
(** [src/include/errno.h:14] *)
Definition ENAMETOOLONG : Z := 63.

Definition eq_sign : Z := 61.

(** The static variables of [flashenv.c], the device, [memorysize] and [errno].
    [src/pmon/p5064/flashenv.c:18-27] *)
Record fenv {D C : Type} : Type := {
  fe_dev : D;
  env_state : Z;
  env_init_state : Z;
  env_cookie : option C;
  env_offs : Z;
  env_maxsize : Z;
  env_compbuf : Z;
  envsize : Z;
  envfree : Z;
  memorysize : Z;
  errno : Z
}.
Arguments fenv : clear implicits.

Section Flashenv.
Context {D C : Type} `{FD : FlashDev D C}.
(** What an uninitialised byte holds, and whether the monitor runs in the
    cached segment ([IS_KVA0 (&env_compbuf)]). *)
Variable stale : Z.
Variable in_kva0 : bool.

Abbreviation S := (fenv D C).
Abbreviation MF := (M S).

Definition set_dev d (s : S) : S := Build_fenv D C d (env_state s) (env_init_state s) (env_cookie s)
  (env_offs s) (env_maxsize s) (env_compbuf s) (envsize s) (envfree s) (memorysize s) (errno s).
Definition set_state v (s : S) : S := Build_fenv D C (fe_dev s) v (env_init_state s) (env_cookie s)
  (env_offs s) (env_maxsize s) (env_compbuf s) (envsize s) (envfree s) (memorysize s) (errno s).
Definition set_init v (s : S) : S := Build_fenv D C (fe_dev s) (env_state s) v (env_cookie s)
  (env_offs s) (env_maxsize s) (env_compbuf s) (envsize s) (envfree s) (memorysize s) (errno s).
Definition set_place c o n (s : S) : S := Build_fenv D C (fe_dev s) (env_state s) (env_init_state s) c
  o n (env_compbuf s) (envsize s) (envfree s) (memorysize s) (errno s).
Definition set_compbuf a n (s : S) : S := Build_fenv D C (fe_dev s) (env_state s) (env_init_state s) (env_cookie s)
  (env_offs s) (env_maxsize s) a (envsize s) (envfree s) n (errno s).
Definition set_size v (s : S) : S := Build_fenv D C (fe_dev s) (env_state s) (env_init_state s) (env_cookie s)
  (env_offs s) (env_maxsize s) (env_compbuf s) v (envfree s) (memorysize s) (errno s).
Definition set_free v (s : S) : S := Build_fenv D C (fe_dev s) (env_state s) (env_init_state s) (env_cookie s)
  (env_offs s) (env_maxsize s) (env_compbuf s) (envsize s) v (memorysize s) (errno s).
Definition set_errno v (s : S) : S := Build_fenv D C (fe_dev s) (env_state s) (env_init_state s) (env_cookie s)
  (env_offs s) (env_maxsize s) (env_compbuf s) (envsize s) (envfree s) (memorysize s) v.

(** An operation of the device; the cookie must be there. *)
Definition on_dev {A} (m : M D A) : MF A := fun s =>
  match m (fe_dev s) with
  | Ok (a, d) => Ok (a, set_dev d s)
  | Err f => Err f
  end.
Definition with_cookie {A} (f : C -> M D A) : MF A :=
  gets env_cookie ≫= fun oc => need oc ≫= fun c => on_dev (f c).

(** [src/pmon/p5064/flashenv.c:29-34] *)
Definition env_flush : MF unit :=
  with_cookie (fun c => flash_programbytes c 0 None 0) ≫= fun _ => mret tt.

(** The buffer keeps what it held when the read fails.
    [src/pmon/p5064/flashenv.c:37-42] *)
Definition env_getbytes (offs : Z) (bp : list Z) : MF (list Z) :=
  gets env_offs ≫= fun eo =>
  with_cookie (fun c => flash_readbytes c (u32 (eo + offs)) bp FLASHDEV_READ_STREAM) ≫= fun r => mret r.2.

(** [src/pmon/p5064/flashenv.c:45-50] *)
Definition env_setbytes (offs : Z) (bp : list Z) : MF unit :=
  gets env_offs ≫= fun eo =>
  with_cookie (fun c => flash_programbytes c (u32 (eo + offs)) (Some bp) FLASHDEV_PROG_STREAM) ≫= fun _ => mret tt.

(** [src/pmon/p5064/flashenv.c:53-59] *)
Definition env_getbyte (offs : Z) : MF Z :=
  env_getbytes offs [stale] ≫= fun l => mret (default stale (head l)).

(** [src/pmon/p5064/flashenv.c:61-66] *)
Definition env_setbyte (offs val : Z) : MF unit := env_setbytes offs [u8 val].

(** The loop that checks the characters of a name.
    [src/pmon/p5064/flashenv.c:98-104] *)
Fixpoint check_name (n : nat) (i : Z) : MF bool :=
  match n with
  | O => mret true
  | Datatypes.S n' =>
    env_getbyte i ≫= fun c =>
    if c =? eq_sign then mret true
    else if (c <? 32) || (0x7f <=? c) then mret false
    else check_name n' (i + 1)
  end.

Definition active (c : Z) : bool := negb (c =? 0x00) && negb (c =? 0xff).

(** The loop over the entries; [None] when one of them is not valid, and the
    offset it stops at.
    [src/pmon/p5064/flashenv.c:82-113] *)
Fixpoint check_entries (fuel : nat) (envp top : Z) : MF (option Z) :=
  match fuel with
  | O => fail OutOfFuel
  | Datatypes.S fuel =>
    if envp <? top then
      env_getbyte envp ≫= fun varsize =>
      if varsize =? 0xff then mret (Some envp)
      else if (varsize <=? 1) || (top <? envp + varsize) then mret None
      else
        env_getbyte (envp + 1) ≫= fun c =>
        (if active c then
           if c =? eq_sign then mret false
           else check_name (Z.to_nat (varsize - 1)) (envp + 1)
         else modify (fun s => set_free (envfree s + varsize) s) ≫= fun _ => mret true) ≫= fun ok : bool =>
        if ok then check_entries fuel (envp + varsize) top else mret None
    else mret (Some envp)
  end.

(** The loop over the bytes behind the entries.
    [src/pmon/p5064/flashenv.c:119-123] *)
Fixpoint check_rest (n : nat) (envp : Z) : MF bool :=
  match n with
  | O => mret true
  | Datatypes.S n' =>
    env_getbyte envp ≫= fun c =>
    if negb (c =? 0xff) then mret false
    else modify (fun s => set_free (envfree s + 1) s) ≫= fun _ => check_rest n' (envp + 1)
  end.

(** [src/pmon/p5064/flashenv.c:72-126] *)
Definition env_structcheck : MF bool :=
  gets env_maxsize ≫= fun top =>
  modify (set_free 0) ≫= fun _ =>
  check_entries (Datatypes.S (Z.to_nat top)) ENVOFF_BASE top ≫= fun r =>
  match r with
  | None => mret false
  | Some envp =>
    modify (set_size (envp - ENVOFF_BASE)) ≫= fun _ =>
    check_rest (Z.to_nat (top - envp)) envp
  end.

(** [src/pmon/p5064/flashenv.c:132-144] *)
Definition env_reset : MF unit :=
  gets env_offs ≫= fun eo =>
  with_cookie (fun c => flash_erasesector c eo) ≫= fun _ =>
  env_setbytes ENVOFF_MAGIC [ENV_MAGIC_0; ENV_MAGIC_1] ≫= fun _ =>
  env_flush ≫= fun _ =>
  modify (set_size 0) ≫= fun _ =>
  modify (fun s => set_free (env_maxsize s - ENVOFF_BASE) s) ≫= fun _ =>
  modify (set_state ENVSTATE_OK).

(** The cookie, and the offset and the size where it is there.
    [src/pmon/p5064/sbdflashenv.c:17-43] *)
Definition _sbd_flashenv_open : M D (option C * option (Z * Z)) :=
  flash_open FLASH_BASE ≫= fun oc =>
  match oc with
  | None => mret (None, None)
  | Some cookie =>
    flash_info cookie 0 ≫= fun '((r, info) : Z * flashinfo) =>
    if negb (r =? FLASHDEV_OK) then mret (None, None)
    else
      flash_info cookie (u32 (fi_size info - 512)) ≫= fun '((_, info) : Z * flashinfo) =>
      if negb (fi_sprot info =? 0) then mret (None, None)
      else mret (Some cookie, Some (fi_soffs info, fi_ssize info))
  end.

(** [src/include/mips.h:196-210] *)
Definition PA_TO_KVA0 (a : Z) : Z := Z.lor a 0x80000000.
(** [src/include/mips.h:197-211] *)
Definition PA_TO_KVA1 (a : Z) : Z := Z.lor a 0xa0000000.

(** The check of the magic number and of the structure, and the recovery.
    [src/pmon/p5064/flashenv.c:175-200] *)
Definition env_load : MF unit :=
  env_getbytes ENVOFF_MAGIC [stale; stale] ≫= fun magic =>
  modify (set_init (if negb (default stale (magic !! 0%nat) =? ENV_MAGIC_0)
                       || negb (default stale (magic !! 1%nat) =? ENV_MAGIC_1)
                    then ENVSTATE_UNINITIALISED else ENVSTATE_OK)) ≫= fun _ =>
  modify (fun s => set_state (env_init_state s) s) ≫= fun _ =>
  gets env_state ≫= fun st =>
  if st =? ENVSTATE_OK then
    env_structcheck ≫= fun ok : bool =>
    if ok then mret tt
    else modify (set_init ENVSTATE_UNRECOVERABLE) ≫= fun _ => env_reset
  else env_reset.

(** Offset and size are made even.
    [src/pmon/p5064/flashenv.c:169-173] *)
Definition env_align (s : S) : S :=
  let s := if Z.odd (env_offs s)
           then set_place (env_cookie s) (env_offs s + 1) (env_maxsize s - 1) s else s in
  if Z.odd (env_maxsize s)
  then set_place (env_cookie s) (env_offs s) (env_maxsize s - 1) s else s.

(** [src/pmon/p5064/flashenv.c:150-212] *)
Definition env_invalid : MF Z :=
  gets env_state ≫= fun st =>
  if negb (st =? ENVSTATE_UNKNOWN) then mret st
  else
    on_dev _sbd_flashenv_open ≫= fun '((oc, place) : option C * option (Z * Z)) =>
    modify (fun s => let '(o, n) := default (env_offs s, env_maxsize s) place in set_place oc o n s) ≫= fun _ =>
    gets env_maxsize ≫= fun max =>
    if (if oc then false else true) || (max <? ENVOFF_BASE + 64) then
      modify (set_init ENVSTATE_MISSING) ≫= fun _ =>
      modify (set_state ENVSTATE_MISSING) ≫= fun _ => gets env_state
    else
      modify env_align ≫= fun _ =>
      env_load ≫= fun _ =>
      modify (fun s =>
        let ms := Z.land (u32 (memorysize s - env_maxsize s)) (Z.lnot 31) in
        set_compbuf (if in_kva0 then PA_TO_KVA0 ms else PA_TO_KVA1 ms) ms s) ≫= fun _ =>
      gets env_state.

(** The loop that compares a name with the bytes of an entry.
    [src/pmon/p5064/flashenv.c:244-246] *)
Fixpoint match_name (name : cstr) (p : Z) : MF bool :=
  match name with
  | [] => mret true
  | x :: name' =>
    env_getbyte p ≫= fun c =>
    if c =? u8 x then match_name name' (p + 1) else mret false
  end.

(** [src/pmon/p5064/flashenv.c:232-255] *)
Fixpoint find_loop (fuel : nat) (name : cstr) (envp top : Z) : MF Z :=
  match fuel with
  | O => fail OutOfFuel
  | Datatypes.S fuel =>
    if envp <? top then
      env_getbyte envp ≫= fun varsize =>
      if (varsize <=? 1) || (varsize =? 0xff) || (top <? envp + varsize) then mret 0
      else
        let namelen := Z.of_nat (length name) in
        env_getbyte (envp + 1) ≫= fun c =>
        (if active c && negb (c =? eq_sign) && (namelen <=? varsize - 1) then
           match_name name (envp + 1) ≫= fun same : bool =>
           if same then
             if namelen =? varsize - 1 then mret true
             else env_getbyte (envp + 1 + namelen) ≫= fun c => mret (c =? eq_sign)
           else mret false
         else mret false) ≫= fun found : bool =>
        if found then mret envp
        else find_loop fuel name (envp + varsize) top
    else mret 0
  end.

(** [src/pmon/p5064/flashenv.c:219-258] *)
Definition env_find (name : cstr) : MF Z :=
  if 254 <=? Z.of_nat (length name) then mret 0
  else
    gets envsize ≫= fun sz =>
    find_loop (Datatypes.S (Z.to_nat sz)) name ENVOFF_BASE (ENVOFF_BASE + sz).

(** [src/pmon/p5064/flashenv.c:264-270] *)
Definition env_delete (envp : Z) : MF unit :=
  env_getbyte envp ≫= fun n =>
  modify (fun s => set_free (envfree s + n) s) ≫= fun _ =>
  env_setbyte (envp + 1) 0 ≫= fun _ =>
  env_flush.

(** The loop that copies the active entries; [None] when it gives up.
    [src/pmon/p5064/flashenv.c:294-310] *)
Fixpoint compress_loop (fuel : nat) (envp top : Z) (cbuf : list Z) : MF (option (list Z)) :=
  match fuel with
  | O => fail OutOfFuel
  | Datatypes.S fuel =>
    if envp <? top then
      env_getbyte envp ≫= fun varlen =>
      if (varlen <=? 1) || (varlen =? 0xff) || (top <? envp + varlen) then mret None
      else
        env_getbyte (envp + 1) ≫= fun c =>
        (if active c then
           env_getbytes envp (replicate (Z.to_nat varlen) stale) ≫= fun l => mret (cbuf ++ l)
         else mret cbuf) ≫= fun cbuf =>
        compress_loop fuel (envp + varlen) top cbuf
    else mret (Some cbuf)
  end.

(** [src/pmon/p5064/flashenv.c:276-320] *)
Definition env_compress : MF unit :=
  gets env_compbuf ≫= fun p =>
  if p =? 0 then mret tt
  else
    gets envsize ≫= fun sz =>
    compress_loop (Datatypes.S (Z.to_nat sz)) ENVOFF_BASE (ENVOFF_BASE + sz) [] ≫= fun r =>
    match r with
    | None => mret tt
    | Some cbuf =>
      env_reset ≫= fun _ =>
      modify (set_size (Z.of_nat (length cbuf))) ≫= fun _ =>
      modify (fun s => set_free (envfree s - envsize s) s) ≫= fun _ =>
      env_setbytes ENVOFF_BASE cbuf ≫= fun _ =>
      env_flush
    end.

(** The value, with the [=] before it. *)
Definition val_len (val : cptr) : Z := Z.of_nat (length (default [] val)).
Definition rec_size (name : cstr) (val : cptr) : Z :=
  1 + Z.of_nat (length name) + (if val_len val =? 0 then 0 else 1 + val_len val).

(** The writes that append an entry, the first byte of the name last.
    [src/pmon/p5064/flashenv.c:391-413] *)
Definition env_append (name : cstr) (val : cptr) (total : Z) : MF unit :=
  gets envsize ≫= fun sz =>
  let envp := ENVOFF_BASE + sz in
  let namelen := Z.of_nat (length name) in
  env_setbyte envp (u8 total) ≫= fun _ =>
  env_flush ≫= fun _ =>
  when (1 <? namelen) (env_setbytes (envp + 2) (u8 <$> tail name)) ≫= fun _ =>
  when (negb (val_len val =? 0))
    (env_setbyte (envp + 1 + namelen) eq_sign ≫= fun _ =>
     env_setbytes (envp + 1 + namelen + 1) (u8 <$> default [] val)) ≫= fun _ =>
  env_setbyte (envp + 1) (at_ name 0) ≫= fun _ =>
  env_flush ≫= fun _ =>
  modify (fun s => set_size (envsize s + total) s) ≫= fun _ =>
  modify (fun s => set_free (envfree s - total) s).

Definition failed (e : Z) : MF Z := modify (set_errno e) ≫= fun _ => mret (-1).

(** Whether there is no room behind the entries; sizes are compared as unsigned
    numbers. *)
Definition env_full (total : Z) : MF bool :=
  gets (fun s => env_maxsize s <? u32 (ENVOFF_BASE + envsize s + total)).

(** The end of [_sbd_setenv], when the old entry is gone.
    [src/pmon/p5064/flashenv.c:371-415] *)
Definition env_put (name : cstr) (val : cptr) (total : Z) : MF Z :=
  env_full total ≫= fun b : bool =>
  when b env_compress ≫= fun _ =>
  (if b then env_full total else mret false) ≫= fun still : bool =>
  if still then failed ENOSPC
  else env_append name val total ≫= fun _ => mret 0.

(** [src/pmon/p5064/flashenv.c:328-416] *)
Definition _sbd_setenv (name val : cptr) (overwrite : bool) : MF Z :=
  env_invalid ≫= fun bad =>
  if negb (bad =? 0) then failed ENODEV
  else
    let name := default [] name in
    if Z.of_nat (length name) =? 0 then failed EINVAL
    else
      env_find name ≫= fun envp =>
      if negb (envp =? 0) && negb overwrite then mret 0
      else
        (if envp =? 0 then mret 0 else env_getbyte envp) ≫= fun oldlen =>
        let total := rec_size name val in
        if 255 <=? total then failed ENAMETOOLONG
        else
          gets envfree ≫= fun free =>
          if u32 (free + oldlen) <? total then failed ENOSPC
          else
            when (negb (envp =? 0)) (env_delete envp) ≫= fun _ =>
            env_put name val total.

(** A buffer of bytes as a string of characters: it ends at a NUL. *)
Fixpoint to_cstr (l : list Z) : cstr :=
  match l with
  | [] => []
  | b :: l' => if b =? 0 then [] else s8 b :: to_cstr l'
  end.

(** The loop that fetches a value.
    [src/pmon/p5064/flashenv.c:442-443] *)
Fixpoint get_bytes (n : nat) (envp : Z) : MF (list Z) :=
  match n with
  | O => mret []
  | Datatypes.S n' => env_getbyte envp ≫= fun b => get_bytes n' (envp + 1) ≫= fun l => mret (b :: l)
  end.

(** [src/pmon/p5064/flashenv.c:419-447] *)
Definition _sbd_getenv (name : cstr) : MF cptr :=
  env_invalid ≫= fun bad =>
  if negb (bad =? 0) then modify (set_errno ENODEV) ≫= fun _ => mret None
  else
    env_find name ≫= fun envp =>
    if envp =? 0 then modify (set_errno ENOENT) ≫= fun _ => mret None
    else
      let namelen := Z.of_nat (length name) in
      env_getbyte envp ≫= fun varlen =>
      (if namelen + 2 <? varlen
       then get_bytes (Z.to_nat (varlen - (namelen + 2))) (envp + (namelen + 2))
       else mret []) ≫= fun l =>
      mret (Some (to_cstr l)).

(** [src/pmon/p5064/flashenv.c:450-458] *)
Definition _sbd_unsetenv (name : cstr) : MF unit :=
  env_invalid ≫= fun bad =>
  if bad =? 0 then
    env_find name ≫= fun envp =>
    when (negb (envp =? 0)) (env_delete envp)
  else mret tt.

(** The buffer of an entry split at its first [=]: what [func] is called with.
    [src/pmon/p5064/flashenv.c:492-507] *)
Fixpoint split_entry (l : list Z) : list Z * list Z :=
  match l with
  | [] => ([], [])
  | b :: l' => if b =? eq_sign then ([], l') else let '(n, v) := split_entry l' in (b :: n, v)
  end.

(** [src/pmon/p5064/flashenv.c:477-509] *)
Fixpoint map_loop (fuel : nat) (envp top : Z) : MF (list (cstr * cptr)) :=
  match fuel with
  | O => fail OutOfFuel
  | Datatypes.S fuel =>
    if envp <? top then
      env_getbyte envp ≫= fun varlen =>
      if (varlen <=? 1) || (varlen =? 0xff) || (top <? envp + varlen) then mret []
      else
        env_getbyte (envp + 1) ≫= fun c =>
        (if active c then
           get_bytes (Z.to_nat (varlen - 1)) (envp + 1) ≫= fun l =>
           let nv := split_entry l in mret [(to_cstr nv.1, Some (to_cstr nv.2))]
         else mret []) ≫= fun call =>
        map_loop fuel (envp + varlen) top ≫= fun calls => mret (call ++ calls)
    else mret []
  end.

(** The calls of [func], in order.
    [src/pmon/p5064/flashenv.c:464-510] *)
Definition _sbd_mapenv : MF (list (cstr * cptr)) :=
  env_invalid ≫= fun bad =>
  if negb (bad =? 0) then mret []
  else
    gets envsize ≫= fun sz =>
    map_loop (Datatypes.S (Z.to_nat sz)) ENVOFF_BASE (ENVOFF_BASE + sz).

(** [src/pmon/p5064/flashenv.c:513-516] *)
Definition sbd_setenv (name val : cptr) : MF bool :=
  _sbd_setenv name val true ≫= fun r => mret (r =? 0).

(** [src/pmon/p5064/flashenv.c:519-523] *)
Definition sbd_unsetenv (name : cstr) : MF bool :=
  _sbd_unsetenv name ≫= fun _ => mret true.

(** The message for the first failure, [None] where there was none.
    [src/pmon/p5064/flashenv.c:529-558] *)
Definition _sbd_envinit : MF (option string) :=
  env_invalid ≫= fun _ =>
  gets env_init_state ≫= fun st =>
  if st =? ENVSTATE_OK then mret None
  else
    modify (set_init ENVSTATE_OK) ≫= fun _ =>
    mret (Some (if st =? ENVSTATE_UNINITIALISED then "uninitialised"%string
                else if st =? ENVSTATE_MISSING then "no flash device found"%string
                else if st =? ENVSTATE_UNRECOVERABLE then "unrecoverable error"%string
                else "bad state"%string)).

(** The static variables as the program is loaded, over a device. *)
Definition fenv_boot (d : D) (memsz : Z) : S :=
  Build_fenv D C d ENVSTATE_UNKNOWN 0 None 0 0 0 0 0 memsz 0.

End Flashenv.
