(* ===== verification/FlashenvOk.v ===== *)
(** * FlashenvOk: the flash environment is a map that survives power-off

    The sector as a list of records, the parsing loops of [Flashenv] as functions
    of that list, and the invariant [env_ok] of the static variables and the
    device. *)

From S2P Require Import Prelude CString Comp Flashdev Flashenv.

(** ** Records *)

(** A record is its bytes behind the size byte. *)
Definition enc (e : list Z) : list Z := Z.of_nat (S (length e)) :: e.
Definition encs (es : list (list Z)) : list Z := concat (enc <$> es).

Definition live (e : list Z) : bool := match e with [] => false | c :: _ => active c end.

(** The characters up to the [=] are printable. *)
Fixpoint printable_name (e : list Z) : bool :=
  match e with
  | [] => true
  | c :: e' => if c =? eq_sign then true else if (c <? 32) || (0x7f <=? c) then false else printable_name e'
  end.

Record entry_ok (e : list Z) : Prop := {
  entry_len : (1 <= length e <= 253)%nat;
  entry_bytes : Forall byte_ok e;
  entry_name : live e = true -> head e <> Some eq_sign /\ printable_name e = true
}.

Definition ones (n : nat) : list Z := replicate n 0xff.

(** A sector of [n] bytes that holds the records. *)
Definition area (n : nat) (es : list (list Z)) : list Z :=
  [ENV_MAGIC_0; ENV_MAGIC_1] ++ encs es ++ ones (n - 2 - length (encs es)).

(** The bytes of the records in use, and of those that are not. *)
Definition live_size (es : list (list Z)) : Z :=
  foldr (fun e a => (if live e then Z.of_nat (S (length e)) else 0) + a) 0 es.
Definition dead_size (es : list (list Z)) : Z :=
  foldr (fun e a => (if live e then 0 else Z.of_nat (S (length e))) + a) 0 es.

(** The variables, in order. *)
Definition var_of (e : list Z) : cstr * cstr :=
  let nv := split_entry e in (to_cstr nv.1, to_cstr nv.2).
Definition vars (es : list (list Z)) : list (cstr * cstr) := var_of <$> filter (fun e => live e = true) es.

(** The record of a variable. *)
Definition body (name : cstr) (val : cptr) : list Z :=
  (u8 <$> name) ++ (if val_len val =? 0 then [] else eq_sign :: (u8 <$> default [] val)).

(** Whether [env_find] stops at a record. *)
Definition matches (name : cstr) (e : list Z) : bool :=
  live e && negb (default 0 (head e) =? eq_sign) &&
  bool_decide (take (length name) e = u8 <$> name) &&
  ((length name =? length e)%nat || bool_decide (e !! length name = Some eq_sign)).

(** The offset [env_find] gives: the first record that matches. *)
Fixpoint find_off (name : cstr) (p : nat) (es : list (list Z)) : nat :=
  match es with
  | [] => 0
  | e :: es' => if matches name e then p else find_off name (p + S (length e)) es'
  end.

Lemma encs_cons e es : encs (e :: es) = enc e ++ encs es.
Proof. done. Qed.

Lemma encs_app es es' : encs (es ++ es') = encs es ++ encs es'.
Proof. unfold encs. by rewrite fmap_app, concat_app. Qed.

Lemma length_enc e : length (enc e) = S (length e).
Proof. done. Qed.

Lemma live_size_cons e es : live_size (e :: es) = (if live e then Z.of_nat (S (length e)) else 0) + live_size es.
Proof. done. Qed.

Lemma dead_size_cons e es : dead_size (e :: es) = (if live e then 0 else Z.of_nat (S (length e))) + dead_size es.
Proof. done. Qed.

Lemma size_split es : live_size es + dead_size es = Z.of_nat (length (encs es)).
Proof.
  induction es as [|e es IH]; [done|]. rewrite encs_cons, length_app, length_enc, live_size_cons, dead_size_cons.
  destruct (live e); lia.
Qed.

Lemma live_size_nonneg es : 0 <= live_size es.
Proof. induction es as [|e es IH]; [done|]. rewrite live_size_cons. destruct (live e); lia. Qed.

Lemma dead_size_nonneg es : 0 <= dead_size es.
Proof. induction es as [|e es IH]; [done|]. rewrite dead_size_cons. destruct (live e); lia. Qed.

Lemma live_size_app es es' : live_size (es ++ es') = live_size es + live_size es'.
Proof. induction es as [|e es IH]; [done|]. cbn [app]. rewrite !live_size_cons. lia. Qed.

Lemma live_size_filter es : live_size (filter (fun e => live e = true) es) = Z.of_nat (length (encs (filter (fun e => live e = true) es))).
Proof.
  pose proof (size_split (filter (fun e => live e = true) es)) as H.
  enough (dead_size (filter (fun e => live e = true) es) = 0) by lia. clear H.
  induction es as [|e es IH]; [done|]. rewrite filter_cons. destruct (decide (live e = true)) as [E|]; [|done].
  by rewrite dead_size_cons, E, IH.
Qed.

Lemma live_size_live es : live_size (filter (fun e => live e = true) es) = live_size es.
Proof.
  induction es as [|e es IH]; [done|]. rewrite filter_cons.
  rewrite live_size_cons. destruct (decide (live e = true)) as [E|E]; [by rewrite live_size_cons, E, IH|].
  by rewrite (not_true_is_false _ E).
Qed.

Lemma vars_app es es' : vars (es ++ es') = vars es ++ vars es'.
Proof. unfold vars. by rewrite list.filter_app, fmap_app. Qed.

Lemma vars_live es : vars (filter (fun e => live e = true) es) = vars es.
Proof.
  unfold vars. f_equal. induction es as [|e es IH]; [done|].
  rewrite !filter_cons. destruct (decide (live e = true)) as [E|]; [|done].
  rewrite filter_cons, decide_True by done. by rewrite IH.
Qed.

Lemma vars_dead e : live e = false -> vars [e] = [].
Proof. intros E. unfold vars. rewrite filter_cons. by rewrite decide_False by (by rewrite E). Qed.

Lemma length_area n es : (2 + length (encs es) <= n)%nat -> length (area n es) = n.
Proof. intros. unfold area, ones. rewrite !length_app, length_replicate. cbn. lia. Qed.

Lemma drop_cons_inv {A} (l : list A) p x r : drop p l = x :: r -> l !! p = Some x /\ drop (S p) l = r /\ (p < length l)%nat.
Proof.
  intros H. assert (l !! p = Some x) as E.
  { rewrite <- (Nat.add_0_r p), <- lookup_drop, H. done. }
  split; [done|]. split; [|by eapply lookup_lt_Some].
  rewrite (drop_cons_lookup _ _ _ E) in H. by simplify_eq.
Qed.

(** ** Reading the sector

    [conn s c l]: the variables are connected to the device [c], whose bytes
    from [env_offs] on are [l]. *)
Section Reading.
Context {D C : Type} `{FO : FlashDevOk D C}.
Variable stale : Z.

Record conn (s : fenv D C) (c : C) (l : list Z) : Prop := {
  conn_cookie : env_cookie s = Some c;
  conn_ok : dev_ok c (fe_dev s);
  conn_low : 0 <= env_offs s;
  conn_high : env_offs s + Z.of_nat (length l) <= fl_size c;
  conn_bytes : slice (contents c (fe_dev s)) (env_offs s) (length l) = l;
  conn_open : openable (contents c (fe_dev s))
}.

Lemma set_dev_id (s : fenv D C) : set_dev (fe_dev s) s = s.
Proof. by destruct s. Qed.

Lemma take_drop_slice m o n i k : (i + k <= n)%nat -> slice m (o + Z.of_nat i) k = take k (drop i (slice m o n)).
Proof.
  intros Hi. replace n with (i + (k + (n - i - k)))%nat by lia. rewrite slice_app.
  rewrite drop_app_length' by (by rewrite slice_length). rewrite slice_app.
  by rewrite take_app_length' by (by rewrite slice_length).
Qed.

Lemma wp_with_cookie {A} E (f : C -> M D A) c (s : fenv D C) (Q : A -> fenv D C -> Prop) :
  env_cookie s = Some c -> wp E (f c) (fun a d => Q a (set_dev d s)) (fe_dev s) -> wp E (with_cookie f) Q s.
Proof.
  intros Hc H. unfold with_cookie. wps. eapply wp_need; [done|]. unfold wp, on_dev in *.
  by destruct (f c (fe_dev s)) as [[a d]|].
Qed.

Lemma getbytes_conn s c l i buf : conn s c l -> (i + length buf <= length l)%nat ->
  env_getbytes (Z.of_nat i) buf s = Ok (take (length buf) (drop i l), s).
Proof.
  intros [Hc Hd Hl Hh Hb _] Hi. pose proof (fl_size_ok c).
  enough (wp no_fault (env_getbytes (Z.of_nat i) buf) (fun r s' => r = take (length buf) (drop i l) /\ s' = s) s) as H0.
  { unfold wp in H0. destruct (env_getbytes (Z.of_nat i) buf s) as [[a s']|f]; [|done]. by destruct H0 as [-> ->]. }
  unfold env_getbytes. wps. eapply wp_with_cookie; [done|].
  rewrite u32_small by lia. eapply wp_mono; [apply read_ok; [done|lia|lia]|].
  intros [r l'] d (-> & -> & ->). apply wp_ret. rewrite set_dev_id. split; [|done]. cbn [snd].
  rewrite <- Hb. by apply take_drop_slice.
Qed.

Lemma getbyte_conn s c l i x r : conn s c l -> drop i l = x :: r -> env_getbyte stale (Z.of_nat i) s = Ok (x, s).
Proof.
  intros Hs Hx. destruct (drop_cons_inv _ _ _ _ Hx) as (_ & _ & Hlt).
  unfold env_getbyte, mbind, M_bind. rewrite (getbytes_conn s c l) by (try done; cbn; lia). by rewrite Hx.
Qed.

Lemma match_name_conn s c l name p : conn s c l -> (p + length name <= length l)%nat ->
  match_name stale name (Z.of_nat p) s = Ok (bool_decide (take (length name) (drop p l) = u8 <$> name), s).
Proof.
  intros Hs. revert p. induction name as [|x name IH]; intros p Hp; cbn [match_name length] in *; [done|].
  destruct (drop p l) as [|b r] eqn:E.
  { apply (f_equal length) in E. rewrite length_drop in E. cbn in E. lia. }
  rewrite (bind_ok _ _ _ _ _ (getbyte_conn s c l p b r Hs E)).
  destruct (drop_cons_inv _ _ _ _ E) as (_ & E' & _). cbn [take fmap list_fmap].
  destruct (Z.eqb_spec b (u8 x)) as [->|Hb].
  - replace (Z.of_nat p + 1) with (Z.of_nat (S p)) by lia. rewrite IH by lia. rewrite E'.
    f_equal. f_equal. apply bool_decide_ext. split; [by intros ->|by intros [= ?]].
  - rewrite bool_decide_eq_false_2; [done|]. by intros [= ? ?].
Qed.

Lemma get_bytes_conn s c l n p : conn s c l -> (p + n <= length l)%nat ->
  get_bytes stale n (Z.of_nat p) s = Ok (take n (drop p l), s).
Proof.
  intros Hs. revert p. induction n as [|n IH]; intros p Hp; cbn [get_bytes]; [done|].
  destruct (drop p l) as [|b r] eqn:E.
  { apply (f_equal length) in E. rewrite length_drop in E. cbn in E. lia. }
  rewrite (bind_ok _ _ _ _ _ (getbyte_conn s c l p b r Hs E)).
  destruct (drop_cons_inv _ _ _ _ E) as (_ & E' & _).
  replace (Z.of_nat p + 1) with (Z.of_nat (S p)) by lia.
  erewrite bind_ok by (by apply IH; lia). by rewrite E'.
Qed.

Lemma check_name_conn s c l n p : conn s c l -> (p + n <= length l)%nat ->
  check_name stale n (Z.of_nat p) s = Ok (printable_name (take n (drop p l)), s).
Proof.
  intros Hs. revert p. induction n as [|n IH]; intros p Hp; cbn [check_name]; [done|].
  destruct (drop p l) as [|b r] eqn:E.
  { apply (f_equal length) in E. rewrite length_drop in E. cbn in E. lia. }
  rewrite (bind_ok _ _ _ _ _ (getbyte_conn s c l p b r Hs E)).
  destruct (drop_cons_inv _ _ _ _ E) as (_ & E' & _). cbn [take printable_name].
  destruct (b =? eq_sign); [done|]. destruct (_ || _); [done|].
  replace (Z.of_nat p + 1) with (Z.of_nat (S p)) by lia. rewrite IH by lia. by rewrite E'.
Qed.

(** The head of a record, as every loop reads it: the size, that it is sane, and
    the first byte. *)
Lemma record_head s c l p e r : conn s c l -> drop p l = enc e ++ r -> entry_ok e ->
  env_getbyte stale (Z.of_nat p) s = Ok (Z.of_nat (S (length e)), s) /\
  env_getbyte stale (Z.of_nat p + 1) s = Ok (default 0 (head e), s) /\
  drop (S p) l = e ++ r /\ drop (p + S (length e)) l = r /\ (p + S (length e) <= length l)%nat /\
  live e = active (default 0 (head e)).
Proof.
  intros Hs Hp [[Hl Hl'] _ _]. split; [eapply getbyte_conn; [done|exact Hp]|].
  destruct (drop_cons_inv _ _ _ _ Hp) as (_ & E & Hlt). fold (e ++ r) in E.
  assert (length (drop p l) = S (length e + length r)) as Hn by (by rewrite Hp, length_app).
  rewrite length_drop in Hn. split; [|split; [done|split; [|split; [lia|]]]].
  - replace (Z.of_nat p + 1) with (Z.of_nat (S p)) by lia. destruct e as [|x e]; [cbn in *; lia|].
    by eapply getbyte_conn.
  - rewrite <- drop_drop, Hp. change (S (length e)) with (length (enc e)). by rewrite drop_app_length.
  - destruct e; [cbn in *; lia|done].
Qed.

(** The tests on a size that is sane. *)
Lemma sane_size e p n : entry_ok e -> (p + S (length e) <= n)%nat ->
  (Z.of_nat (S (length e)) <=? 1) = false /\ (Z.of_nat (S (length e)) =? 0xff) = false /\
  (Z.of_nat n <? Z.of_nat p + Z.of_nat (S (length e))) = false /\ (Z.of_nat p <? Z.of_nat n) = true.
Proof.
  intros [[Hl Hl'] _ _] Hp. split_and!; [apply Z.leb_gt|apply Z.eqb_neq|apply Z.ltb_ge|apply Z.ltb_lt]; lia.
Qed.

(** Whether the loop of [env_find] stops at the record it reads. *)
Lemma matches_conn s c l p name e r : conn s c l -> drop p l = enc e ++ r -> entry_ok e ->
  (if active (default 0 (head e)) && negb (default 0 (head e) =? eq_sign)
        && (Z.of_nat (length name) <=? Z.of_nat (S (length e)) - 1)
   then match_name stale name (Z.of_nat p + 1) ≫= fun same : bool =>
        if same then
          if Z.of_nat (length name) =? Z.of_nat (S (length e)) - 1 then mret true
          else env_getbyte stale (Z.of_nat p + 1 + Z.of_nat (length name)) ≫= fun c => mret (c =? eq_sign)
        else mret false
   else mret false) s = Ok (matches name e, s).
Proof.
  intros Hs Hp He. destruct (record_head s c l p e r Hs Hp He) as (_ & _ & E & _ & Hle & Hv).
  unfold matches. rewrite Hv. destruct (active _); [|done]. destruct (_ =? eq_sign); [done|]. cbn [andb negb].
  destruct (Z.leb_spec (Z.of_nat (length name)) (Z.of_nat (S (length e)) - 1)) as [Hn|Hn].
  2:{ rewrite bool_decide_eq_false_2; [done|]. intros H. apply (f_equal length) in H.
      rewrite length_take, length_fmap in H. lia. }
  replace (Z.of_nat p + 1) with (Z.of_nat (S p)) by lia.
  erewrite bind_ok by (eapply match_name_conn; [done|lia]). rewrite E.
  assert (take (length name) (e ++ r) = take (length name) e) as -> by (apply take_app_le; lia).
  destruct (bool_decide _); [|done]. cbn [andb].
  destruct (Z.eqb_spec (Z.of_nat (length name)) (Z.of_nat (S (length e)) - 1)) as [Hl|Hl].
  - by rewrite (proj2 (Nat.eqb_eq _ _)) by lia.
  - rewrite (proj2 (Nat.eqb_neq _ _)) by lia. cbn [orb].
    destruct (lookup_lt_is_Some_2 e (length name)) as [b Hb]; [lia|]. rewrite Hb.
    replace (Z.of_nat (S p) + Z.of_nat (length name)) with (Z.of_nat (S p + length name)) by lia.
    erewrite bind_ok.
    2:{ eapply (getbyte_conn s c l _ b (drop (S (length name)) (e ++ r)) Hs). rewrite <- drop_drop, E.
        apply drop_cons_lookup. by rewrite lookup_app_l by lia. }
    unfold mret, M_ret. do 2 f_equal. destruct (Z.eqb_spec b eq_sign) as [->|Hne].
    + by rewrite bool_decide_eq_true_2.
    + rewrite bool_decide_eq_false_2; [done|]. by intros [= ?].
Qed.

Lemma find_loop_conn s c l name es : forall fuel p r, conn s c l -> drop p l = encs es ++ r -> Forall entry_ok es ->
  (length (encs es) < fuel)%nat ->
  find_loop stale fuel name (Z.of_nat p) (Z.of_nat (p + length (encs es))) s = Ok (Z.of_nat (find_off name p es), s).
Proof.
  induction es as [|e es IH]; intros fuel p r Hs Hp Hes Hf; (destruct fuel as [|fuel]; [lia|]); cbn [find_loop].
  - by rewrite Nat.add_0_r, Z.ltb_irrefl.
  - apply Forall_cons_iff in Hes as [He Hes]. rewrite encs_cons, <- app_assoc in Hp.
    rewrite encs_cons, length_app, length_enc in *.
    destruct (record_head s c l p e _ Hs Hp He) as (R1 & R2 & _ & R4 & _ & _).
    destruct (sane_size e p (p + (S (length e) + length (encs es))) He ltac:(lia)) as (T1 & T2 & T3 & ->).
    rewrite (bind_ok _ _ _ _ _ R1), T1, T2, T3. cbn [orb]. rewrite (bind_ok _ _ _ _ _ R2).
    erewrite bind_ok by (by eapply matches_conn). cbn [find_off]. destruct (matches name e); [done|].
    rewrite <- Nat2Z.inj_add. replace (p + (S (length e) + length (encs es)))%nat
      with (p + S (length e) + length (encs es))%nat by lia.
    eapply IH; [done|done|done|lia].
Qed.

Lemma compress_loop_conn s c l es : forall fuel p r cbuf, conn s c l -> drop p l = encs es ++ r -> Forall entry_ok es ->
  (length (encs es) < fuel)%nat ->
  compress_loop stale fuel (Z.of_nat p) (Z.of_nat (p + length (encs es))) cbuf s =
    Ok (Some (cbuf ++ encs (filter (fun e => live e = true) es)), s).
Proof.
  induction es as [|e es IH]; intros fuel p r cbuf Hs Hp Hes Hf; (destruct fuel as [|fuel]; [lia|]); cbn [compress_loop].
  - by rewrite Nat.add_0_r, Z.ltb_irrefl, app_nil_r.
  - apply Forall_cons_iff in Hes as [He Hes]. rewrite encs_cons, <- app_assoc in Hp.
    rewrite encs_cons, length_app, length_enc in *.
    destruct (record_head s c l p e _ Hs Hp He) as (R1 & R2 & _ & R4 & R5 & Hv).
    destruct (sane_size e p (p + (S (length e) + length (encs es))) He ltac:(lia)) as (T1 & T2 & T3 & ->).
    rewrite (bind_ok _ _ _ _ _ R1), T1, T2, T3. cbn [orb]. rewrite (bind_ok _ _ _ _ _ R2), <- Hv.
    rewrite filter_cons, <- Nat2Z.inj_add. replace (p + (S (length e) + length (encs es)))%nat
      with (p + S (length e) + length (encs es))%nat by lia.
    destruct (live e) eqn:El; cycle 1.
    + rewrite decide_False by done. rewrite bind_ok with (a := cbuf) (s' := s) by done.
      eapply IH; [done|done|done|lia].
    + rewrite decide_True by done. rewrite Nat2Z.id.
      rewrite bind_ok with (a := cbuf ++ enc e) (s' := s).
      * rewrite (IH _ _ r) by (done || lia). by rewrite encs_cons, app_assoc.
      * erewrite bind_ok by (eapply getbytes_conn; [done|by rewrite length_replicate]).
        rewrite length_replicate, Hp. change (S (length e)) with (length (enc e)). by rewrite take_app_length.
Qed.

Lemma map_loop_conn s c l es : forall fuel p r, conn s c l -> drop p l = encs es ++ r -> Forall entry_ok es ->
  (length (encs es) < fuel)%nat ->
  map_loop stale fuel (Z.of_nat p) (Z.of_nat (p + length (encs es))) s =
    Ok ((fun v => (v.1, Some v.2)) <$> vars es, s).
Proof.
  induction es as [|e es IH]; intros fuel p r Hs Hp Hes Hf; (destruct fuel as [|fuel]; [lia|]); cbn [map_loop].
  - by rewrite Nat.add_0_r, Z.ltb_irrefl.
  - apply Forall_cons_iff in Hes as [He Hes]. rewrite encs_cons, <- app_assoc in Hp.
    rewrite encs_cons, length_app, length_enc in *.
    destruct (record_head s c l p e _ Hs Hp He) as (R1 & R2 & R3 & R4 & R5 & Hv).
    destruct (sane_size e p (p + (S (length e) + length (encs es))) He ltac:(lia)) as (T1 & T2 & T3 & ->).
    rewrite (bind_ok _ _ _ _ _ R1), T1, T2, T3. cbn [orb]. rewrite (bind_ok _ _ _ _ _ R2), <- Hv.
    rewrite <- Nat2Z.inj_add. replace (p + (S (length e) + length (encs es)))%nat
      with (p + S (length e) + length (encs es))%nat by lia.
    unfold vars. rewrite filter_cons. destruct (live e) eqn:El; cycle 1.
    + rewrite decide_False by done. rewrite bind_ok with (a := []) (s' := s) by done.
      erewrite bind_ok by (eapply IH; [done|done|done|lia]). done.
    + rewrite decide_True by done. rewrite bind_ok with (a := [((var_of e).1, Some (var_of e).2)]) (s' := s).
      * erewrite bind_ok by (eapply IH; [done|done|done|lia]). done.
      * replace (Z.of_nat p + 1) with (Z.of_nat (S p)) by lia.
        replace (Z.to_nat (Z.of_nat (S (length e)) - 1)) with (length e) by lia.
        erewrite bind_ok by (eapply get_bytes_conn; [done|lia]). by rewrite R3, take_app_length.
Qed.

(** The test of one entry by [env_structcheck]. *)
Lemma check_entry_conn s c l p e r : conn s c l -> drop p l = enc e ++ r -> (1 <= length e <= 253)%nat ->
  (if active (default 0 (head e)) then
     if default 0 (head e) =? eq_sign then mret false
     else check_name stale (Z.to_nat (Z.of_nat (S (length e)) - 1)) (Z.of_nat p + 1)
   else modify (fun s => set_free (envfree s + Z.of_nat (S (length e))) s) ≫= fun _ => mret true) s =
  Ok (if live e then negb (default 0 (head e) =? eq_sign) && printable_name e else true,
      set_free (envfree s + if live e then 0 else Z.of_nat (S (length e))) s).
Proof.
  intros Hs Hp Hl. assert (live e = active (default 0 (head e))) as -> by (destruct e; [cbn in *; lia|done]).
  assert (set_free (envfree s + 0) s = s) as H0 by (rewrite Z.add_0_r; by destruct s).
  destruct (drop_cons_inv _ _ _ _ Hp) as (_ & E & _). fold (e ++ r) in E.
  assert (length (drop p l) = S (length e + length r)) as Hn by (by rewrite Hp, length_app).
  rewrite length_drop in Hn.
  destruct (active _); [|done]. rewrite H0. destruct (_ =? eq_sign); [done|]. cbn [andb negb].
  replace (Z.to_nat (Z.of_nat (S (length e)) - 1)) with (length e) by lia.
  replace (Z.of_nat p + 1) with (Z.of_nat (S p)) by lia.
  rewrite (check_name_conn s c l) by (done || lia). by rewrite E, take_app_length.
Qed.

Lemma entry_ok_test e : entry_ok e ->
  (if live e then negb (default 0 (head e) =? eq_sign) && printable_name e else true) = true.
Proof.
  intros [_ _ H]. destruct (live e); [|done]. destruct H as [H ->]; [done|]. rewrite andb_true_r.
  destruct e as [|x e]; [done|]. cbn in *. apply negb_true_iff, Z.eqb_neq. intros ->. by apply H.
Qed.

Lemma entry_test_ok e : (1 <= length e <= 253)%nat -> Forall byte_ok e ->
  (if live e then negb (default 0 (head e) =? eq_sign) && printable_name e else true) = true -> entry_ok e.
Proof.
  intros Hl Hb Ht. split; [done|done|]. intros Hv. rewrite Hv in Ht. apply andb_true_iff in Ht as [Ht ->].
  split; [|done]. destruct e as [|x e]; [done|]. intros [= ->]. done.
Qed.

(** The end of the records: the end of the sector, or a byte of ones. *)
Definition ends (r : list Z) : Prop := r = [] \/ head r = Some 0xff.

Lemma check_entries_complete c l es : forall s fuel p r, conn s c l -> drop p l = encs es ++ r -> Forall entry_ok es ->
  ends r -> (p <= length l)%nat -> (length (encs es) < fuel)%nat ->
  check_entries stale fuel (Z.of_nat p) (Z.of_nat (length l)) s =
    Ok (Some (Z.of_nat (p + length (encs es))), set_free (envfree s + dead_size es) s).
Proof.
  induction es as [|e es IH]; intros s fuel p r Hs Hp Hes Hr Hle Hf; (destruct fuel as [|fuel]; [lia|]); cbn [check_entries].
  - cbn [encs fmap list_fmap concat app length] in *. rewrite Nat.add_0_r.
    assert (set_free (envfree s + dead_size []) s = s) as -> by (cbn; rewrite Z.add_0_r; by destruct s).
    destruct r as [|x r].
    + apply (f_equal length) in Hp. rewrite length_drop in Hp. cbn in Hp.
      replace p with (length l) by lia. by rewrite Z.ltb_irrefl.
    + destruct Hr as [|[= ->]]; [done|]. destruct (drop_cons_inv _ _ _ _ Hp) as (_ & _ & Hlt).
      rewrite (proj2 (Z.ltb_lt _ _)) by lia. by rewrite (bind_ok _ _ _ _ _ (getbyte_conn s c l p _ r Hs Hp)).
  - apply Forall_cons_iff in Hes as [He Hes]. rewrite encs_cons, <- app_assoc in Hp.
    rewrite encs_cons, length_app, length_enc in *.
    destruct (record_head s c l p e _ Hs Hp He) as (R1 & R2 & _ & R4 & R5 & _).
    destruct (sane_size e p (length l) He R5) as (T1 & T2 & T3 & ->).
    rewrite (bind_ok _ _ _ _ _ R1), T1, T2, T3. cbn [orb]. rewrite (bind_ok _ _ _ _ _ R2).
    rewrite (bind_ok _ _ _ _ _ (check_entry_conn s c l p e _ Hs Hp (entry_len _ He))), (entry_ok_test _ He).
    rewrite <- Nat2Z.inj_add. erewrite IH; [| |exact R4|done|done|lia|lia]; [|by destruct Hs; split].
    rewrite dead_size_cons. f_equal. f_equal; [f_equal; lia|]. cbn. unfold set_free. f_equal. lia.
Qed.

Lemma check_entries_sound c l : forall fuel s p, conn s c l -> (p <= length l)%nat -> (length l - p < fuel)%nat ->
  exists v o, check_entries stale fuel (Z.of_nat p) (Z.of_nat (length l)) s = Ok (o, set_free v s) /\
    match o with
    | None => True
    | Some q => exists es r, drop p l = encs es ++ r /\ Forall entry_ok es /\ ends r /\
        q = Z.of_nat (p + length (encs es)) /\ v = envfree s + dead_size es
    end.
Proof.
  induction fuel as [|fuel IH]; intros s p Hs Hle Hf; [lia|]. cbn [check_entries].
  assert (set_free (envfree s) s = s) as Hid by (by destruct s).
  destruct (Z.ltb_spec (Z.of_nat p) (Z.of_nat (length l))) as [Hlt|Hge]; cycle 1.
  { exists (envfree s), (Some (Z.of_nat p)). rewrite Hid. split; [done|]. exists [], [].
    split; [by rewrite drop_ge by lia|]. split; [done|]. split; [by left|]. cbn. split; [f_equal|]; lia. }
  destruct (drop p l) as [|x r] eqn:E.
  { apply (f_equal length) in E. rewrite length_drop in E. cbn in E. lia. }
  rewrite (bind_ok _ _ _ _ _ (getbyte_conn s c l p x r Hs E)).
  destruct (drop_cons_inv _ _ _ _ E) as (Hx & E' & _).
  assert (Forall byte_ok l) as Hby.
  { rewrite <- (conn_bytes _ _ _ Hs). apply Forall_fmap, List.Forall_forall. intros a _.
    apply contents_ok, (conn_ok _ _ _ Hs). }
  assert (byte_ok x) as Hxb by (by eapply Forall_lookup_1 in Hby).
  destruct (Z.eqb_spec x 0xff) as [->|Hff].
  { exists (envfree s), (Some (Z.of_nat p)). rewrite Hid. split; [done|]. exists [], (0xff :: r).
    split; [done|]. split; [done|]. split; [by right|]. cbn. split; [f_equal|]; lia. }
  destruct ((x <=? 1) || _) eqn:Et.
  { exists (envfree s), None. by rewrite Hid. }
  apply orb_false_iff in Et as [Et1 Et2]. apply Z.leb_gt in Et1. apply Z.ltb_ge in Et2. unfold byte_ok in Hxb.
  pose (n := Z.to_nat (x - 1)). assert (x = Z.of_nat (S n)) as Hxn by lia.
  assert (length (take n r) = n) as Hn.
  { rewrite length_take. apply (f_equal length) in E. rewrite length_drop in E. cbn in E. lia. }
  assert (drop p l = enc (take n r) ++ drop n r) as E2.
  { rewrite E. unfold enc. rewrite Hn, <- Hxn. cbn. by rewrite take_drop. }
  assert (1 <= length (take n r) <= 253)%nat as Hlen by lia.
  assert (env_getbyte stale (Z.of_nat p + 1) s = Ok (default 0 (head (take n r)), s)) as R2.
  { replace (Z.of_nat p + 1) with (Z.of_nat (S p)) by lia.
    destruct (take n r) as [|y t] eqn:Et; [cbn in *; lia|]. eapply (getbyte_conn s c l _ y (t ++ drop n r) Hs).
    rewrite E'. rewrite <- (take_drop n r) at 1. by rewrite Et. }
  rewrite (bind_ok _ _ _ _ _ R2). clearbody n.
  assert (x = Z.of_nat (S (length (take n r)))) as -> by lia.
  rewrite (bind_ok _ _ _ _ _ (check_entry_conn s c l p (take n r) _ Hs E2 Hlen)).
  destruct (if live (take n r) then _ else _) eqn:Et; cycle 1.
  { eexists _, None. split; [|done]. done. }
  rewrite <- Nat2Z.inj_add.
  edestruct (IH (set_free (envfree s + (if live (take n r) then 0 else Z.of_nat (S (length (take n r))))) s) (p + S (length (take n r)))%nat)
    as (v & o & -> & Ho); [by destruct Hs; split|lia|lia|].
  exists v, o. split; [done|]. destruct o as [q|]; [|done]. destruct Ho as (es & r' & Hd & Hes & Hr & -> & ->).
  exists (take n r :: es), r'.
  assert (drop n r = encs es ++ r') as Hd'.
  { rewrite <- Hd, <- drop_drop, E2. change (S (length (take n r))) with (length (enc (take n r))). by rewrite drop_app_length. }
  split; [by rewrite <- E, E2, Hd', encs_cons, app_assoc|]. split.
  { constructor; [|done]. apply entry_test_ok; [done| |done]. apply Forall_take. rewrite <- E'. by apply Forall_drop. }
  split; [done|]. rewrite encs_cons, length_app, length_enc, dead_size_cons. cbn [envfree set_free]. split; [f_equal; lia|lia].
Qed.

Lemma check_rest_conn c l : forall n s p, conn s c l -> (p + n = length l)%nat ->
  exists v b, check_rest stale n (Z.of_nat p) s = Ok (b, set_free v s) /\
    (b = true -> drop p l = ones n /\ v = envfree s + Z.of_nat n) /\
    (drop p l = ones n -> b = true).
Proof.
  induction n as [|n IH]; intros s p Hs Hp; cbn [check_rest].
  - exists (envfree s), true. split; [by destruct s|]. rewrite drop_ge by lia. split; [|done]. intros _. split; [done|lia].
  - destruct (drop p l) as [|x r] eqn:E.
    { apply (f_equal length) in E. rewrite length_drop in E. cbn in E. lia. }
    rewrite (bind_ok _ _ _ _ _ (getbyte_conn s c l p x r Hs E)).
    destruct (drop_cons_inv _ _ _ _ E) as (_ & E' & _).
    destruct (Z.eqb_spec x 0xff) as [->|Hx]; cbn [negb].
    + rewrite bind_ok with (a := tt) (s' := set_free (envfree s + 1) s) by done.
      replace (Z.of_nat p + 1) with (Z.of_nat (S p)) by lia.
      destruct (IH (set_free (envfree s + 1) s) (S p)) as (v & b & -> & H1 & H2); [by destruct Hs; split|lia|].
      exists v, b. split; [done|]. split.
      * intros Hb. destruct (H1 Hb) as [H3 ->]. rewrite E' in H3. cbn [envfree set_free]. rewrite H3. split; [done|lia].
      * intros [= ->]. apply H2. by rewrite E'.
    + exists (envfree s), false. split; [by destruct s|]. split; [done|]. by intros [= ? ?].
Qed.

End Reading.

(** ** Writing the sector *)
Section Writing.
Context {D C : Type} `{FO : FlashDevOk D C}.

(** The sector that [_sbd_flashenv_open] finds. *)
Variables so sn : Z.
Hypothesis Hgeo : geometry flash0 (fl_size flash0 - 512) = Some (so, sn).

(** The part of it that is used: even offsets. *)
Definition home_offs : Z := if Z.odd so then so + 1 else so.
Definition home_size : Z :=
  let n := if Z.odd so then sn - 1 else sn in if Z.odd n then n - 1 else n.

Lemma home_ok : 0 <= so /\ so <= home_offs /\ home_offs + home_size <= so + sn /\ so + sn <= fl_size flash0 /\
  sn - 2 <= home_size.
Proof.
  destruct (geometry_ok _ _ _ _ Hgeo) as (? & ? & ?). unfold home_offs, home_size.
  destruct (Z.odd so), (Z.odd _); lia.
Qed.

Lemma home_sector a : home_offs <= a < home_offs + home_size -> geometry flash0 a = Some (so, sn).
Proof. intros Ha. destruct home_ok as (? & ? & ? & ?). eapply geometry_same; [done|]. lia. Qed.

(** [s'] differs from [s] in the device, which now holds [l]; the bytes it held
    in between satisfy [P]. *)
Definition upto (s s' : fenv D C) (l : list Z) (P : list Z -> Prop) : Prop :=
  exists d, s' = set_dev d s /\ conn s' flash0 l /\
    forall x, x ∈ past flash0 d -> x ∈ past flash0 (fe_dev s) \/ P (slice x home_offs (length l)).

Lemma upto_weaken s s' l (P Q : list Z -> Prop) : upto s s' l P -> (forall y, P y -> Q y) -> upto s s' l Q.
Proof. intros (d & ? & ? & H) HPQ. exists d. split; [done|]. split; [done|]. intros x Hx. destruct (H x Hx); auto. Qed.

Lemma upto_trans s s1 s2 l1 l2 P : length l1 = length l2 -> upto s s1 l1 P -> upto s1 s2 l2 P -> upto s s2 l2 P.
Proof.
  intros Hl (d1 & -> & _ & H1) (d2 & -> & Hc & H2). exists d2. split; [done|]. split; [done|].
  intros x Hx. destruct (H2 x Hx) as [Hx'|]; [|by right]. destruct (H1 x Hx'); [by left|right; by rewrite <- Hl].
Qed.

Lemma env_flush_wp s l P (Q : unit -> fenv D C -> Prop) : conn s flash0 l -> (forall s', upto s s' l P -> Q tt s') ->
  wp no_fault env_flush Q s.
Proof.
  intros Hs HQ. unfold env_flush. wps. eapply wp_with_cookie; [apply Hs|].
  pose proof (fl_size_ok flash0). eapply wp_mono; [apply flush_ok; [apply Hs|done|lia]|].
  intros r d [_ ->]. apply wp_ret, HQ. exists (fe_dev s). split; [done|]. split; [by rewrite set_dev_id|]. auto.
Qed.

Lemma splice_take {A} (a b r bs : list A) n : length b = length bs -> (n <= length bs)%nat ->
  take (length a) (a ++ b ++ r) ++ take n bs ++ drop (length a + length (take n bs)) (a ++ b ++ r) =
  a ++ take n bs ++ drop n b ++ r.
Proof.
  intros Hb Hn. rewrite take_app_length, length_take, Nat.min_l by lia. do 2 f_equal.
  rewrite <- drop_drop, drop_app_length. by rewrite drop_app_le by lia.
Qed.

Lemma env_setbytes_wp s a b r bs (Q : unit -> fenv D C -> Prop) :
  conn s flash0 (a ++ b ++ r) -> env_offs s = home_offs -> Z.of_nat (length (a ++ b ++ r)) = home_size ->
  length b = length bs -> Forall2 clears b bs -> Forall byte_ok bs ->
  (forall s', upto s s' (a ++ bs ++ r) (fun y => exists n, (n <= length bs)%nat /\ y = a ++ take n bs ++ drop n b ++ r) ->
     Q tt s') ->
  wp no_fault (env_setbytes (Z.of_nat (length a)) bs) Q s.
Proof.
  intros Hs Ho Hn Hb Hcl Hby HQ. destruct Hs as [Hc Hd Hl Hh Hsl Hop]. destruct home_ok as (? & ? & ? & ? & _).
  pose proof (fl_size_ok flash0). rewrite !length_app in *.
  assert (length a + length bs <= length a + (length b + length r))%nat as Hle by lia.
  pose proof (take_drop_slice (contents flash0 (fe_dev s)) (env_offs s) _ (length a) (length bs) Hle) as Hmid.
  rewrite Hsl, drop_app_length, <- Hb, take_app_length in Hmid.
  assert (forall n, (n <= length bs)%nat -> forall x, x =m= burn (contents flash0 (fe_dev s)) (env_offs s + Z.of_nat (length a)) (take n bs) ->
    slice x (env_offs s) (length a + (length b + length r)) = a ++ take n bs ++ drop n b ++ r) as Hx.
  { intros n Hn' x ->. rewrite slice_burn by (rewrite length_take; lia). rewrite Hsl. by apply splice_take. }
  unfold env_setbytes. wps. eapply wp_with_cookie; [done|]. rewrite u32_small by lia.
  destruct (decide (bs = [])) as [->|Hne].
  - destruct b; [|done]. eapply wp_mono; [apply flush_ok; [done|done|]|].
    { lia. }
    intros r' d [_ ->]. apply wp_ret, HQ. exists (fe_dev s). split; [done|]. split; [|auto].
    rewrite set_dev_id. split; rewrite ?length_app in *; done.
  - eapply wp_mono; [eapply (program_ok flash0 so sn); [done|done| |done|by rewrite <- Hb, Hmid]|].
    { intros x Hx'. apply home_sector. lia. }
    intros r' d (_ & Hd' & Hcd & Hp). apply wp_ret, HQ. exists d. split; [done|]. split.
    + split; rewrite ?length_app; cbn [env_cookie fe_dev set_dev env_offs]; try done; try lia.
      2:{ eapply openable_home; [exact Hgeo|exact Hop|]. intros y Hy. rewrite Hcd, burn_spec.
          by repeat (case_bool; try lia). }
      rewrite <- Hb, (Hx (length bs)); [|lia|by rewrite firstn_all]. by rewrite firstn_all, drop_ge by lia.
    + rewrite length_app, length_app, <- Hb, <- Ho. intros x Hin. destruct (Hp x Hin) as [|(n & Hn' & Hxn)]; [by left|right].
      exists n. split; [lia|]. apply Hx; [lia|done].
Qed.

Lemma ones_app i j : ones (i + j) = ones i ++ ones j.
Proof. apply replicate_add. Qed.

Lemma ones_bytes i : Forall byte_ok (ones i).
Proof. apply Forall_replicate. unfold byte_ok. lia. Qed.

Lemma ones_clear bs : Forall byte_ok bs -> Forall2 clears (ones (length bs)) bs.
Proof. apply clears_ones. Qed.

(** Writes into a record whose first byte is still ones. *)
Lemma write_dead s pre t g1 g3 r bs (Q : unit -> fenv D C -> Prop) :
  conn s flash0 (pre ++ (t :: 0xff :: g1 ++ ones (length bs) ++ g3) ++ r) -> env_offs s = home_offs ->
  Z.of_nat (length (pre ++ (t :: 0xff :: g1 ++ bs ++ g3) ++ r)) = home_size -> Forall byte_ok (g1 ++ bs ++ g3) ->
  (forall s', upto s s' (pre ++ (t :: 0xff :: g1 ++ bs ++ g3) ++ r)
     (fun y => exists g, length g = length (g1 ++ bs ++ g3) /\ Forall byte_ok g /\ y = pre ++ (t :: 0xff :: g) ++ r) -> Q tt s') ->
  wp no_fault (env_setbytes (Z.of_nat (length pre + 2 + length g1)) bs) Q s.
Proof.
  intros Hs Ho Hn Hby HQ.
  assert (forall k h, pre ++ (t :: 0xff :: g1 ++ k ++ h) ++ r = (pre ++ [t; 0xff] ++ g1) ++ k ++ h ++ r) as Ea.
  { intros. by rewrite <- !app_assoc; cbn; rewrite <- !app_assoc. }
  rewrite Ea in Hs, Hn. rewrite Ea in HQ.
  replace (length pre + 2 + length g1)%nat with (length (pre ++ [t; 0xff] ++ g1)) by (rewrite !length_app; cbn; lia).
  apply Forall_app in Hby as [H1 [H2 H3]%Forall_app].
  eapply env_setbytes_wp; [exact Hs|done| |apply length_replicate|by apply ones_clear|done|].
  { rewrite <- Hn. rewrite !length_app. unfold ones. by rewrite length_replicate. }
  intros s' Hu. apply HQ. eapply upto_weaken; [exact Hu|]. intros y (n & Hle & ->).
  exists (g1 ++ (take n bs ++ drop n (ones (length bs))) ++ g3). unfold ones. rewrite drop_replicate.
  split; [rewrite !length_app, length_take, length_replicate; lia|]. split; [|by rewrite Ea, <- !app_assoc].
  apply Forall_app. split; [done|]. apply Forall_app. split; [|done]. apply Forall_app.
  split; [by apply Forall_take|apply ones_bytes].
Qed.

Lemma area_snoc n es e : (2 + length (encs es) + S (length e) <= n)%nat ->
  area n (es ++ [e]) =
    ([ENV_MAGIC_0; ENV_MAGIC_1] ++ encs es) ++ enc e ++ ones (n - 2 - length (encs es) - S (length e)).
Proof.
  intros Hn. unfold area. rewrite encs_app, length_app, <- !app_assoc.
  assert (encs [e] = enc e) as -> by (by unfold encs; cbn; rewrite app_nil_r).
  rewrite length_enc. by replace (n - 2 - (length (encs es) + S (length e)))%nat
    with (n - 2 - length (encs es) - S (length e))%nat by lia.
Qed.

Lemma area_room n es k : (2 + length (encs es) + k <= n)%nat ->
  area n es = ([ENV_MAGIC_0; ENV_MAGIC_1] ++ encs es) ++ ones k ++ ones (n - 2 - length (encs es) - k).
Proof.
  intros Hn. unfold area. rewrite <- ones_app, <- app_assoc.
  by replace (k + (n - 2 - length (encs es) - k))%nat with (n - 2 - length (encs es))%nat by lia.
Qed.

Lemma rec_size_body name val : rec_size name val = Z.of_nat (S (length (body name val))).
Proof.
  unfold rec_size, body, val_len. rewrite length_app, length_fmap.
  destruct (Z.eqb_spec (Z.of_nat (length (default [] val))) 0); cbn [length]; rewrite ?length_fmap; lia.
Qed.

Lemma u8_bytes (s : cstr) : Forall byte_ok (u8 <$> s).
Proof. apply Forall_fmap, Forall_true. intros x. apply u8_range. Qed.

Lemma body_bytes name val : Forall byte_ok (body name val).
Proof.
  unfold body. apply Forall_app. split; [apply u8_bytes|]. destruct (_ =? _); [done|].
  constructor; [unfold byte_ok, eq_sign; lia|apply u8_bytes].
Qed.

(** What the sector holds while a record is appended. *)
Definition appending (n : nat) (es : list (list Z)) (e y : list Z) : Prop :=
  y = area n es \/ y = area n (es ++ [e]) \/
  exists g, length g = length e /\ Forall byte_ok g /\ live g = false /\ y = area n (es ++ [g]).

Lemma appending_dead n es e g t : (2 + length (encs es) + S (length e) <= n)%nat ->
  S (length g) = length e -> Forall byte_ok g -> t = Z.of_nat (S (length e)) ->
  appending n es e (([ENV_MAGIC_0; ENV_MAGIC_1] ++ encs es) ++ (t :: 0xff :: g) ++ ones (n - 2 - length (encs es) - S (length e))).
Proof.
  intros Hn Hg Hb ->. right. right. exists (0xff :: g). split; [done|]. split; [constructor; [unfold byte_ok; lia|done]|].
  split; [done|]. rewrite area_snoc by (cbn; lia). unfold enc. cbn [length]. by rewrite Hg.
Qed.

(** The stages of [env_append]: the record is there with its size, its first byte
    is ones, and [g] is what the rest holds. *)
Section Append.
Variables (s : fenv D C) (es : list (list Z)) (x : Z) (tl : cstr) (val : cptr).
Let n := Z.to_nat home_size.
Let e := body (x :: tl) val.
Let pre := [ENV_MAGIC_0; ENV_MAGIC_1] ++ encs es.
Let r := ones (n - 2 - length (encs es) - S (length e)).
Let t := Z.of_nat (S (length e)).
Let vp := if val_len val =? 0 then [] else eq_sign :: (u8 <$> default [] val).
Hypothesis Hs : conn s flash0 (area n es).
Hypothesis Ho : env_offs s = home_offs.
Hypothesis Hn : (2 + length (encs es) + S (length e) <= n)%nat.
Hypothesis Hle : (S (length e) <= 254)%nat.

Definition stage (s' : fenv D C) (g : list Z) : Prop :=
  upto s s' (pre ++ (t :: 0xff :: g) ++ r) (appending n es e).

Let glen := (length tl + length vp)%nat.

Lemma body_length : length e = S glen.
Proof. unfold e, body. rewrite length_app, length_fmap. unfold glen, vp. cbn. lia. Qed.

Lemma pre_length : length pre = (2 + length (encs es))%nat.
Proof. done. Qed.

Lemma stage_length g : length g = glen -> length (pre ++ (t :: 0xff :: g) ++ r) = n.
Proof.
  intros Hg. unfold r, ones. rewrite !length_app, length_replicate. cbn [length].
  pose proof body_length. pose proof pre_length. lia.
Qed.

Lemma stage_write s1 g1 bs g3 : stage s1 (g1 ++ ones (length bs) ++ g3) -> length (g1 ++ bs ++ g3) = glen ->
  Forall byte_ok (g1 ++ bs ++ g3) ->
  wp no_fault (env_setbytes (Z.of_nat (length pre + 2 + length g1)) bs) (fun _ s2 => stage s2 (g1 ++ bs ++ g3)) s1.
Proof.
  intros Hu Hg Hb. pose proof (stage_length _ Hg) as Hl. pose proof body_length.
  assert (length (g1 ++ ones (length bs) ++ g3) = glen) as Hg'.
  { rewrite <- Hg, !length_app. unfold ones. by rewrite length_replicate. }
  pose proof Hu as (d & -> & Hc & _).
  eapply write_dead; [exact Hc|done|rewrite Hl; lia|done|]. intros s' Hu'.
  eapply upto_trans; [|exact Hu|]; [by rewrite !stage_length|].
  eapply upto_weaken; [exact Hu'|]. intros y (g & Hgl & Hgb & ->). apply appending_dead; [done|lia|done|done].
Qed.

Lemma stage_size : wp no_fault (env_setbytes (Z.of_nat (length pre)) [t]) (fun _ s1 => stage s1 (ones glen)) s.
Proof.
  pose proof body_length as Hel. pose proof pre_length.
  assert (area n es = pre ++ [0xff] ++ (0xff :: ones glen) ++ r) as Ea.
  { rewrite (area_room n es (S (length e))) by done. fold pre r. rewrite Hel. done. }
  assert (length (ones glen) = glen) as Hg by apply length_replicate.
  assert (byte_ok t) by (unfold byte_ok, t; lia).
  eapply env_setbytes_wp; [rewrite <- Ea; exact Hs|done| |done| | |].
  { rewrite <- Ea, length_area; lia. }
  { constructor; [by apply clears_ff|constructor]. }
  { by constructor. }
  intros s' Hu. eapply upto_weaken; [exact Hu|]. intros y (k & Hk & ->). cbn in Hk.
  destruct k as [|k]; [left; by rewrite Ea|]. replace k with 0%nat by lia.
  apply (appending_dead n es e (ones glen) t); [done|lia|apply ones_bytes|done].
Qed.

Lemma stage_first s1 (Q : unit -> fenv D C -> Prop) : stage s1 ((u8 <$> tl) ++ vp) ->
  (forall s2, upto s s2 (area n (es ++ [e])) (appending n es e) -> Q tt s2) ->
  wp no_fault (env_setbytes (Z.of_nat (length pre + 1)) [u8 x]) Q s1.
Proof.
  intros Hu HQ. pose proof body_length as Hel. pose proof pre_length.
  assert (length ((u8 <$> tl) ++ vp) = glen) as Hg by (by rewrite length_app, length_fmap).
  assert (forall b, pre ++ (t :: b :: (u8 <$> tl) ++ vp) ++ r = (pre ++ [t]) ++ [b] ++ ((u8 <$> tl) ++ vp) ++ r) as Ea.
  { intros b. by rewrite <- !app_assoc; cbn; rewrite <- !app_assoc. }
  assert (area n (es ++ [e]) = (pre ++ [t]) ++ [u8 x] ++ ((u8 <$> tl) ++ vp) ++ r) as Ee.
  { rewrite area_snoc by done. fold pre r. by rewrite <- Ea. }
  pose proof Hu as (d & -> & Hc & _). rewrite Ea in Hc.
  replace (length pre + 1)%nat with (length (pre ++ [t])) by (by rewrite length_app).
  eapply env_setbytes_wp; [exact Hc|done| |done| | |].
  { rewrite <- Ea, stage_length by done. lia. }
  { constructor; [apply clears_ff; unfold byte_ok; apply u8_range|constructor]. }
  { constructor; [apply u8_range|done]. }
  intros s' Hu'. apply HQ. rewrite <- Ee in Hu'. eapply upto_trans; [|exact Hu|].
  { rewrite stage_length by done. rewrite Ee, <- (stage_length _ Hg), Ea. by rewrite !length_app. }
  eapply upto_weaken; [exact Hu'|]. intros y (k & Hk & ->). cbn in Hk. destruct k as [|k].
  - cbn [take drop app]. change (0xff :: ((u8 <$> tl) ++ vp) ++ r) with ([0xff] ++ ((u8 <$> tl) ++ vp) ++ r).
    rewrite <- Ea. apply appending_dead; [done|lia| |done].
    pose proof (body_bytes (x :: tl) val) as H1. by inversion H1.
  - right. left. rewrite Ee. by replace k with 0%nat by lia.
Qed.

Lemma stage_flush s1 g (Q : unit -> fenv D C -> Prop) : stage s1 g -> length g = glen ->
  (forall s2, stage s2 g -> Q tt s2) -> wp no_fault env_flush Q s1.
Proof.
  intros Hu Hg HQ. pose proof Hu as (d & _ & Hc & _). eapply env_flush_wp; [exact Hc|]. intros s' Hu'.
  apply HQ. eapply upto_trans; [|exact Hu|exact Hu']. done.
Qed.

Lemma env_append_wp (Q : unit -> fenv D C -> Prop) : envsize s = Z.of_nat (length (encs es)) ->
  (forall s', upto s s' (area n (es ++ [e])) (appending n es e) -> Q tt (set_free (envfree s' - t) (set_size (envsize s' + t) s'))) ->
  wp no_fault (env_append (x :: tl) val (rec_size (x :: tl) val)) Q s.
Proof.
  intros Hsz HQ. pose proof body_length as Hel. pose proof pre_length as Hpre.
  assert (Forall byte_ok ((u8 <$> tl) ++ vp)) as Hby.
  { pose proof (body_bytes (x :: tl) val) as H. by inversion H. }
  pose proof Hby as [Hb1 Hb2]%Forall_app.
  unfold env_append. wps. rewrite Hsz, rec_size_body. fold e t. unfold env_setbyte.
  rewrite wrapu_wrapu, (u8_small t) by (unfold t; lia).
  replace (ENVOFF_BASE + Z.of_nat (length (encs es))) with (Z.of_nat (length pre)) by (unfold ENVOFF_BASE; lia).
  eapply wp_mono; [apply stage_size|]. intros [] s1 H1. cbn beta. wps.
  eapply stage_flush; [exact H1|apply length_replicate|]. clear s1 H1. intros s1 H1. wps.
  replace (Z.of_nat (length pre) + 2) with (Z.of_nat (length pre + 2 + length (@nil Z))) by (cbn; lia).
  cbn [list.tail]. apply wp_mono with (Q := fun _ s2 => stage s2 ((u8 <$> tl) ++ ones (length vp))).
  { pose proof (stage_write s1 [] (u8 <$> tl) (ones (length vp))) as Hw. cbn [app] in Hw.
    unfold glen in H1. rewrite ones_app in H1. rewrite length_fmap in Hw.
    apply wp_when; [intros _; apply Hw|intros Ht].
    - done.
    - rewrite length_app, length_fmap. unfold ones. by rewrite length_replicate.
    - apply Forall_app. split; [done|apply ones_bytes].
    - apply Z.ltb_ge in Ht. cbn [length] in Ht.
      assert (forall l : cstr, length l = 0%nat -> u8 <$> l = ones (length l)) as -> by (by intros [|]); [done|lia]. }
  clear s1 H1. intros [] s1 H1. wps.
  apply wp_mono with (Q := fun _ s2 => stage s2 ((u8 <$> tl) ++ vp)).
  { apply wp_when; intros Ev.
    2:{ assert (vp = []) as Hvp by (unfold vp; apply negb_false_iff in Ev; by rewrite Ev). by rewrite Hvp in H1 |- *. }
    assert (vp = eq_sign :: (u8 <$> default [] val)) as Hvp by (unfold vp; apply negb_true_iff in Ev; by rewrite Ev).
    assert (glen = length tl + S (length (default [] val)))%nat as Hgl.
    { unfold glen. rewrite Hvp. cbn [length]. by rewrite length_fmap. }
    rewrite Hvp in H1, Hby |- *. cbn [length] in H1. rewrite length_fmap in H1. wps.
    pose proof (stage_write s1 (u8 <$> tl) [eq_sign] (ones (length (u8 <$> default [] val)))) as Hw.
    pose proof (fun s2 => stage_write s2 ((u8 <$> tl) ++ [eq_sign]) (u8 <$> default [] val) []) as Hw2.
    rewrite !app_nil_r in Hw2. rewrite !length_fmap in *.
    replace (Z.of_nat (length pre) + 1 + Z.of_nat (length (x :: tl))) with (Z.of_nat (length pre + 2 + length tl)) by (cbn [length]; lia).
    rewrite (u8_small eq_sign) by (unfold eq_sign; lia).
    eapply wp_mono; [apply Hw|].
    - exact H1.
    - rewrite !length_app, length_fmap. unfold ones. by rewrite length_replicate.
    - apply Forall_app. split; [done|]. constructor; [unfold byte_ok, eq_sign; lia|apply ones_bytes].
    - intros [] s2 H2. cbn beta.
      replace (Z.of_nat (length pre + 2 + length tl) + 1) with (Z.of_nat (length pre + 2 + length ((u8 <$> tl) ++ [eq_sign])))
        by (rewrite length_app, length_fmap; cbn [length]; lia).
      rewrite app_assoc in H2. eapply wp_mono; [apply Hw2; [done| |]|].
      + rewrite !length_app, !length_fmap. cbn [length]. lia.
      + by rewrite <- app_assoc.
      + intros [] s3. by rewrite <- app_assoc. }
  clear s1 H1. intros [] s1 H1. wps. replace (Z.of_nat (length pre) + 1) with (Z.of_nat (length pre + 1)) by lia.
  eapply stage_first; [exact H1|]. intros s2 H2. wps. pose proof H2 as (d & _ & Hc & _).
  eapply env_flush_wp; [exact Hc|]. intros s3 H3. wps. apply (HQ s3). by eapply upto_trans.
Qed.
End Append.

End Writing.
