(* ===== verification/FlashenvMap.v ===== *)
(** * FlashenvMap: the operations of the flash environment on its variables

    What each operation of [Flashenv] does to the list of variables in the
    sector, and what a power failure in the middle of it leaves. *)

From S2P Require Import Prelude CString Comp Flashdev Flashenv FlashenvOk.

(** ** Names and records *)

(** Names the format can hold: printable characters other than [=]. *)
Definition name_char (c : Z) : Prop := 32 <= c < 127 /\ c <> eq_sign.
Definition valid_name (name : cstr) : Prop := name <> [] /\ Forall name_char name.

#[export] Instance name_char_dec c : Decision (name_char c).
Proof. unfold name_char. apply _. Defined.
#[export] Instance valid_name_dec n : Decision (valid_name n).
Proof. unfold valid_name. apply _. Defined.

(** The first value of a name, and the list without its first entry. *)
Fixpoint a_get (name : cstr) (vs : list (cstr * cstr)) : cptr :=
  match vs with
  | [] => None
  | (n, v) :: vs' => if decide (n = name) then Some v else a_get name vs'
  end.
Fixpoint a_del (name : cstr) (vs : list (cstr * cstr)) : list (cstr * cstr) :=
  match vs with
  | [] => []
  | (n, v) :: vs' => if decide (n = name) then vs' else (n, v) :: a_del name vs'
  end.

Lemma name_char_u8 c : name_char c -> u8 c = c /\ s8 c = c /\ c <> 0.
Proof. intros [? ?]. rewrite u8_small, s8_small by lia. lia. Qed.

Lemma name_u8 n : Forall name_char n -> u8 <$> n = n.
Proof. intros H. induction H as [|c n Hc _ IH]; cbn; [done|]. rewrite IH. f_equal. by apply name_char_u8. Qed.

Lemma name_to_cstr n : Forall name_char n -> to_cstr n = n.
Proof.
  intros H. induction H as [|c n Hc _ IH]; cbn; [done|]. apply name_char_u8 in Hc as (_ & Hs & H0).
  by rewrite (proj2 (Z.eqb_neq _ _)), Hs, IH.
Qed.

Lemma to_cstr_u8 v : cstr_ok v -> to_cstr (u8 <$> v) = v.
Proof.
  intros H. induction H as [|c v [H0 Hc] _ IH]; cbn; [done|].
  assert (s8 (u8 c) = c) as Hs by (rewrite wraps_wrapu; apply s8_small; lia).
  destruct (Z.eqb_spec (u8 c) 0) as [E|]; [|by rewrite Hs, IH].
  rewrite E in Hs. change (s8 0) with 0 in Hs. congruence.
Qed.

Lemma split_prefix name e : Forall name_char name -> take (length name) e = name ->
  length name = length e \/ e !! length name = Some eq_sign ->
  split_entry e = (name, drop (S (length name)) e).
Proof.
  intros H. revert e. induction H as [|c name Hc _ IH]; intros e He Hl; cbn [length] in *.
  - destruct e as [|b e]; [done|]. destruct Hl as [Hl|[= ->]]; [cbn in Hl; lia|]. cbn. by rewrite drop_0.
  - destruct e as [|b e]; [done|]. cbn in He. injection He as -> He. cbn [split_entry].
    destruct (Z.eqb_spec c eq_sign) as [->|]; [by destruct Hc|]. rewrite IH; [done|done|].
    destruct Hl as [Hl|Hl]; [left; cbn in Hl; lia|by right].
Qed.

Lemma split_fst e : let n := (split_entry e).1 in take (length n) e = n /\
  (length n = length e \/ e !! length n = Some eq_sign) /\ (printable_name e = true -> Forall name_char n).
Proof.
  induction e as [|b e IH]; cbn; [split; [done|split; [by left|done]]|].
  destruct (Z.eqb_spec b eq_sign) as [->|Hb]; [split; [done|split; [by right|done]]|].
  destruct (split_entry e) as [n v]. destruct IH as (H1 & H2 & H3). cbn in *. rewrite H1.
  split; [done|]. split; [destruct H2; [left; lia|by right]|].
  destruct (_ || _) eqn:E; [done|]. intros Hp. apply orb_false_iff in E as [E1 E2].
  apply Z.ltb_ge in E1. apply Z.leb_gt in E2. constructor; [split; [lia|done]|by apply H3].
Qed.

(** [env_find] stops at the record whose variable has the name. *)
Lemma matches_name name e : valid_name name -> entry_ok e ->
  matches name e = true <-> live e = true /\ (var_of e).1 = name.
Proof.
  intros [Hne Hc] [_ _ He]. unfold matches, var_of. cbn [fst]. destruct (live e); [|split; [done|by intros []]].
  destruct He as [Hh Hp]; [done|]. destruct (split_fst e) as (S1 & S2 & S3). specialize (S3 Hp).
  rewrite (name_to_cstr _ S3), (name_u8 _ Hc). cbn [andb].
  assert (negb (default 0 (head e) =? eq_sign) = true) as ->.
  { destruct e as [|b e]; [done|]. apply negb_true_iff, Z.eqb_neq. cbn in *. congruence. }
  cbn [andb]. rewrite andb_true_iff, bool_decide_eq_true, orb_true_iff, bool_decide_eq_true, Nat.eqb_eq.
  split.
  - intros [H1 H2]. split; [done|]. by rewrite (split_prefix name e).
  - intros [_ H]. by rewrite <- H.
Qed.

Lemma body_split name val : valid_name name -> split_entry (body name val) = (name, u8 <$> default [] val).
Proof.
  intros [_ Hc]. unfold body. rewrite (name_u8 _ Hc).
  rewrite (split_prefix name); [|done|by rewrite take_app_length|].
  - f_equal. unfold val_len. destruct (Z.eqb_spec (Z.of_nat (length (default [] val))) 0) as [E|].
    + rewrite app_nil_r, drop_ge by lia. destruct (default [] val); [done|cbn in E; lia].
    + by rewrite <- (Nat.add_1_r (length name)), <- drop_drop, drop_app_length.
  - destruct (_ =? _); [left; by rewrite app_nil_r|right]. by rewrite list_lookup_middle.
Qed.

Lemma body_live name val : valid_name name -> live (body name val) = true.
Proof.
  intros [Hne Hc]. unfold body. rewrite (name_u8 _ Hc). destruct Hc as [|c name [Hc _] _]; [done|]. cbn.
  unfold active. by repeat (case_bool; try lia).
Qed.

Lemma body_var name val : valid_name name -> cstr_ok (default [] val) -> var_of (body name val) = (name, default [] val).
Proof.
  intros Hn Hv. unfold var_of. rewrite body_split by done. cbn [fst snd].
  by rewrite to_cstr_u8, (name_to_cstr _ (proj2 Hn)).
Qed.

Lemma printable_app n r : Forall name_char n -> (r = [] \/ head r = Some eq_sign) -> printable_name (n ++ r) = true.
Proof.
  intros H Hr. induction H as [|c n [Hc Hce] _ IH]; cbn.
  - destruct r as [|b r]; [done|]. destruct Hr as [|[= ->]]; done.
  - rewrite (proj2 (Z.eqb_neq _ _) Hce). rewrite (proj2 (Z.ltb_ge _ _)), (proj2 (Z.leb_gt _ _)) by lia. done.
Qed.

Lemma body_ok name val : valid_name name -> rec_size name val < 255 -> entry_ok (body name val).
Proof.
  intros Hn Hs. rewrite rec_size_body in Hs. pose proof Hn as [Hne Hc]. split.
  - split; [|lia]. unfold body. rewrite length_app, length_fmap. destruct name; [done|cbn; lia].
  - apply body_bytes.
  - intros _. unfold body. rewrite (name_u8 _ Hc). split.
    + destruct Hc as [|c name [_ Hc] _]; [done|]. cbn. congruence.
    + apply printable_app; [done|]. destruct (_ =? _); [by left|by right].
Qed.

(** ** The variables of a list of records *)

Lemma vars_one e : live e = true -> vars [e] = [var_of e].
Proof. intros E. unfold vars. rewrite filter_cons. by rewrite decide_True by done. Qed.

Lemma find_off_split name es : forall p, (0 < p)%nat ->
  (find_off name p es = 0%nat /\ Forall (fun e => matches name e = false) es) \/
  exists es1 e es2, es = es1 ++ e :: es2 /\ Forall (fun e => matches name e = false) es1 /\ matches name e = true /\
    find_off name p es = (p + length (encs es1))%nat.
Proof.
  induction es as [|e es IH]; intros p Hp; cbn [find_off]; [by left|].
  destruct (matches name e) eqn:E.
  - right. exists [], e, es. split; [done|]. split; [done|]. split; [done|]. cbn. lia.
  - destruct (IH (p + S (length e))%nat ltac:(lia)) as [[H1 H2]|(es1 & e' & es2 & -> & H1 & H2 & H3)].
    + left. split; [done|by constructor].
    + right. exists (e :: es1), e', es2. split; [done|]. split; [by constructor|]. split; [done|].
      rewrite encs_cons, length_app, length_enc. lia.
Qed.

Section Vars.
Variable name : cstr.
Hypothesis Hn : valid_name name.

Lemma vars_skip es vs : Forall entry_ok es -> Forall (fun e => matches name e = false) es ->
  a_get name (vars es ++ vs) = a_get name vs /\ a_del name (vars es ++ vs) = vars es ++ a_del name vs.
Proof.
  intros He Hm. induction es as [|e es IH]; [done|].
  apply Forall_cons_iff in He as [He Hes]. apply Forall_cons_iff in Hm as [Hm Hms].
  change (e :: es) with ([e] ++ es). rewrite vars_app, <- app_assoc.
  destruct (live e) eqn:E; [|rewrite vars_dead by done; exact (IH Hes Hms)]. rewrite vars_one by done.
  destruct (IH Hes Hms) as [I1 I2]. destruct (var_of e) as [n v] eqn:Ev. cbn.
  destruct (decide (n = name)) as [->|]; [|by rewrite I1, I2]. exfalso.
  rewrite (proj2 (matches_name _ _ Hn He)) in Hm; [done|]. by rewrite Ev.
Qed.

Lemma vars_none es : Forall entry_ok es -> Forall (fun e => matches name e = false) es ->
  a_get name (vars es) = None /\ a_del name (vars es) = vars es.
Proof. intros H1 H2. destruct (vars_skip es [] H1 H2) as [H3 H4]. rewrite !app_nil_r in *. done. Qed.

Lemma vars_found es1 e es2 : Forall entry_ok es1 -> entry_ok e ->
  Forall (fun e => matches name e = false) es1 -> matches name e = true ->
  a_get name (vars (es1 ++ e :: es2)) = Some (var_of e).2 /\ a_del name (vars (es1 ++ e :: es2)) = vars (es1 ++ es2).
Proof.
  intros H1 He Hm1 Hm. apply matches_name in Hm as [Hl Hv]; [|done|done].
  change (e :: es2) with ([e] ++ es2). rewrite !vars_app, vars_one by done.
  destruct (vars_skip es1 ([var_of e] ++ vars es2) H1 Hm1) as [-> ->].
  destruct (var_of e) as [n v]. cbn in *. subst n. by destruct (decide (name = name)).
Qed.
End Vars.

(** A deleted record. *)
Definition kill (e : list Z) : list Z := 0 :: tail e.

Lemma kill_ok e : entry_ok e -> entry_ok (kill e) /\ live (kill e) = false /\ length (kill e) = length e.
Proof.
  intros [[Hl Hl'] Hb _]. destruct e as [|b e]; [cbn in Hl; lia|]. split; [|done].
  split; [done| |done]. apply Forall_cons_iff in Hb as [_ Hb]. constructor; [unfold byte_ok; lia|done].
Qed.

Lemma vars_kill es1 e es2 : entry_ok e -> vars (es1 ++ kill e :: es2) = vars (es1 ++ es2).
Proof.
  intros He. destruct (kill_ok e He) as (_ & Hk & _). change (kill e :: es2) with ([kill e] ++ es2).
  by rewrite !vars_app, (vars_dead (kill e)).
Qed.

(** ** The invariant *)
Section Ops.
Context {D C : Type} `{FO : FlashDevOk D C}.
Variables (stale : Z) (in_kva0 : bool) (so sn : Z).
Hypothesis Hgeo : geometry flash0 (fl_size flash0 - 512) = Some (so, sn).
Hypothesis Hbig : 66 <= sn.

Abbreviation offs := (home_offs so).
Abbreviation size := (home_size so sn).
Abbreviation n := (Z.to_nat size).

(** Records that fit into the sector. *)
Record records_ok (es : list (list Z)) : Prop := {
  rec_entries : Forall entry_ok es;
  rec_fit : (2 + length (encs es) <= n)%nat
}.

(** Every live record is the one [_sbd_setenv] would write. *)
Definition canon (es : list (list Z)) : Prop :=
  Forall (fun e => live e = true -> e = body (var_of e).1 (Some (var_of e).2)) es.

(** The records [es'] of a sector that held [es]. *)
Definition good (es es' : list (list Z)) : Prop := records_ok es' /\ (canon es -> canon es').

(** The static variables describe the records of the sector. *)
Record env_ok (s : fenv D C) (es : list (list Z)) : Prop := {
  ok_state : env_state s = ENVSTATE_OK;
  ok_offs : env_offs s = offs;
  ok_max : env_maxsize s = size;
  ok_comp : env_compbuf s <> 0;
  ok_conn : conn s flash0 (area n es);
  ok_rec : records_ok es;
  ok_size : envsize s = Z.of_nat (length (encs es));
  ok_free : envfree s = size - 2 - live_size es
}.

(** What the sector has held between [s] and [s']. *)
Definition held (s s' : fenv D C) (P : list Z -> Prop) : Prop :=
  forall x, x ∈ past flash0 (fe_dev s') -> x ∈ past flash0 (fe_dev s) \/ P (slice x offs n).

Lemma held_weaken s s' (P Q : list Z -> Prop) : held s s' P -> (forall y, P y -> Q y) -> held s s' Q.
Proof. intros H HPQ x Hx. destruct (H x Hx); auto. Qed.

Lemma held_trans s s1 s2 P : held s s1 P -> held s1 s2 P -> held s s2 P.
Proof. intros H1 H2 x Hx. destruct (H2 x Hx) as [Hx'|]; auto. Qed.

Lemma held_refl s P : held s s P.
Proof. intros x Hx. by left. Qed.

Lemma upto_held s s' l P : length l = n -> upto so s s' l P -> held s s' P.
Proof. intros Hl (d & -> & _ & H) x Hx. destruct (H x Hx); [by left|right]. by rewrite <- Hl. Qed.

Lemma size_ok : 64 <= size < 2 ^ 31 /\ 0 <= offs /\ offs + size <= fl_size flash0.
Proof. destruct (home_ok so sn Hgeo) as (? & ? & ? & ? & ?). pose proof (fl_size_ok flash0). lia. Qed.

Lemma env_invalid_ok s es : env_ok s es -> env_invalid stale in_kva0 s = Ok (0, s).
Proof.
  intros Hs. unfold env_invalid. rewrite bind_ok with (a := ENVSTATE_OK) (s' := s); [done|].
  unfold gets. by rewrite (ok_state _ _ Hs).
Qed.

Lemma area_drop es : drop 2 (area n es) = encs es ++ ones (n - 2 - length (encs es)).
Proof. done. Qed.

(** ** Looking a variable up *)
Lemma env_find_ok s es name : env_ok s es ->
  env_find stale name s = Ok (Z.of_nat (find_off name 2 es), s).
Proof.
  intros Hs. unfold env_find. destruct (Z.leb_spec 254 (Z.of_nat (length name))) as [Hl|Hl].
  - destruct (find_off_split name es 2 ltac:(lia)) as [[-> _]|(es1 & e & es2 & -> & _ & Hm & _)]; [done|].
    exfalso. pose proof (rec_entries _ (ok_rec _ _ Hs)) as He. apply Forall_app in He as [_ He].
    apply Forall_cons_iff in He as [[Hlen _ _] _]. unfold matches in Hm.
    apply andb_true_iff in Hm as [[[_ _]%andb_true_iff Hm]%andb_true_iff _].
    apply bool_decide_eq_true, (f_equal length) in Hm. rewrite length_take, length_fmap in Hm. lia.
  - rewrite bind_ok with (a := envsize s) (s' := s) by done. rewrite (ok_size _ _ Hs).
    replace (ENVOFF_BASE + Z.of_nat (length (encs es))) with (Z.of_nat (2 + length (encs es))) by (unfold ENVOFF_BASE; lia).
    eapply (find_loop_conn stale s flash0 (area n es) name es _ 2%nat); [by apply Hs|by apply area_drop|apply Hs|lia].
Qed.

(** The record that [env_find] found. *)
Lemma found_head s es1 e es2 : env_ok s (es1 ++ e :: es2) ->
  entry_ok e /\ drop (2 + length (encs es1)) (area n (es1 ++ e :: es2)) =
    enc e ++ encs es2 ++ ones (n - 2 - length (encs (es1 ++ e :: es2))).
Proof.
  intros Hs. pose proof (rec_entries _ (ok_rec _ _ Hs)) as He. apply Forall_app in He as [_ He].
  apply Forall_cons_iff in He as [He _]. split; [done|].
  rewrite <- drop_drop, area_drop, encs_app, encs_cons, <- !app_assoc. by rewrite drop_app_length.
Qed.

Lemma getenv_ok s es name : env_ok s es -> valid_name name ->
  exists e, _sbd_getenv stale in_kva0 name s = Ok (a_get name (vars es), set_errno e s) /\
    (a_get name (vars es) = None -> e = ENOENT) /\ (a_get name (vars es) <> None -> e = errno s).
Proof.
  intros Hs Hn. unfold _sbd_getenv.
  rewrite (bind_ok _ _ _ _ _ (env_invalid_ok s es Hs)). cbn [negb Z.eqb].
  rewrite (bind_ok _ _ _ _ _ (env_find_ok s es name Hs)).
  pose proof (rec_entries _ (ok_rec _ _ Hs)) as Hes.
  destruct (find_off_split name es 2 ltac:(lia)) as [[-> Hno]|(es1 & e & es2 & -> & Hno & Hm & ->)].
  - destruct (vars_none name Hn es Hes Hno) as [-> _]. by exists ENOENT.
  - destruct (found_head s es1 e es2 Hs) as [He Hd]. apply Forall_app in Hes as [Hes1 _].
    destruct (vars_found name Hn es1 e es2 Hes1 He Hno Hm) as [-> _]. exists (errno s).
    rewrite (proj2 (Z.eqb_neq _ _)) by lia.
    destruct (record_head stale s flash0 _ _ _ _ (ok_conn _ _ Hs) Hd He) as (R1 & _ & R3 & _ & R5 & _).
    rewrite (bind_ok _ _ _ _ _ R1). apply matches_name in Hm as [Hl Hv]; [|done|done].
    assert (set_errno (errno s) s = s) as -> by (by destruct s).
    split; [|done]. destruct (split_fst e) as (S1 & S2 & S3).
    destruct (entry_name _ He Hl) as [_ Hp]. specialize (S3 Hp). unfold var_of in *. cbn [fst snd] in *.
    rewrite (name_to_cstr _ S3) in Hv. rewrite Hv in S1, S2.
    rewrite (split_prefix name e) by (done || apply Hn). cbn [snd].
    destruct (Z.ltb_spec (Z.of_nat (length name) + 2) (Z.of_nat (S (length e)))) as [Hlt|Hge].
    + replace (Z.of_nat (2 + length (encs es1)) + (Z.of_nat (length name) + 2))
        with (Z.of_nat (S (2 + length (encs es1)) + S (length name))) by lia.
      erewrite bind_ok by (eapply get_bytes_conn; [by apply Hs|lia]).
      rewrite <- drop_drop, R3. rewrite drop_app_le, take_app_le by (rewrite ?length_drop; lia).
      rewrite take_ge by (rewrite length_drop; lia). done.
    + rewrite bind_ok with (a := []) (s' := s) by done. by rewrite drop_ge by lia.
Qed.

Lemma mapenv_ok s es : env_ok s es ->
  _sbd_mapenv stale in_kva0 s = Ok ((fun v => (v.1, Some v.2)) <$> vars es, s).
Proof.
  intros Hs. unfold _sbd_mapenv. rewrite (bind_ok _ _ _ _ _ (env_invalid_ok s es Hs)). cbn [negb Z.eqb].
  rewrite bind_ok with (a := envsize s) (s' := s) by done. rewrite (ok_size _ _ Hs).
  replace (ENVOFF_BASE + Z.of_nat (length (encs es))) with (Z.of_nat (2 + length (encs es))) by (unfold ENVOFF_BASE; lia).
  eapply (map_loop_conn stale s flash0 (area n es) es _ 2%nat); [by apply Hs|by apply area_drop|apply Hs|lia].
Qed.

(** ** Deleting *)
Lemma area_record es1 b t es2 : let e := b :: t in (2 + length (encs (es1 ++ e :: es2)) <= n)%nat ->
  area n (es1 ++ e :: es2) =
    ([ENV_MAGIC_0; ENV_MAGIC_1] ++ encs es1 ++ [Z.of_nat (S (S (length t)))]) ++ [b] ++
    (t ++ encs es2 ++ ones (n - 2 - (length (encs es1) + S (S (length t)) + length (encs es2)))).
Proof.
  intros e Hn. unfold area, e. rewrite encs_app, encs_cons, !length_app, length_enc. cbn [length].
  replace (length (encs es1) + (S (S (length t)) + length (encs es2)))%nat
    with (length (encs es1) + S (S (length t)) + length (encs es2))%nat by lia.
  unfold enc. cbn [length app]. by repeat first [rewrite <- app_assoc | progress cbn [app]].
Qed.

Lemma length_encs_kill es1 e es2 : entry_ok e -> length (encs (es1 ++ kill e :: es2)) = length (encs (es1 ++ e :: es2)).
Proof.
  intros He. destruct (kill_ok e He) as (_ & _ & Hl). rewrite !encs_app, !encs_cons, !length_app, !length_enc. lia.
Qed.

Lemma live_size_kill es1 e es2 : entry_ok e -> live e = true ->
  live_size (es1 ++ e :: es2) = live_size (es1 ++ kill e :: es2) + Z.of_nat (S (length e)).
Proof.
  intros He Hl. destruct (kill_ok e He) as (_ & Hk & _). rewrite !live_size_app, !live_size_cons, Hl, Hk. lia.
Qed.

Lemma records_kill es1 e es2 : records_ok (es1 ++ e :: es2) -> records_ok (es1 ++ kill e :: es2).
Proof.
  intros [He Hf]. apply Forall_app in He as [He1 He]. apply Forall_cons_iff in He as [He He2].
  destruct (kill_ok e He) as (Hk & _ & _). split; [|by rewrite length_encs_kill].
  apply Forall_app. split; [done|by constructor].
Qed.

Lemma canon_kill es1 e es2 : entry_ok e -> canon (es1 ++ e :: es2) -> canon (es1 ++ kill e :: es2).
Proof.
  intros He Hc. destruct (kill_ok e He) as (_ & Hk & _). apply Forall_app in Hc as [H1 H2].
  apply Forall_cons_iff in H2 as [_ H2]. apply Forall_app. split; [done|]. constructor; [by rewrite Hk|done].
Qed.

Lemma env_delete_wp s es1 e es2 : let es := es1 ++ e :: es2 in let es' := es1 ++ kill e :: es2 in
  env_ok s es -> live e = true ->
  wp no_fault (env_delete stale (Z.of_nat (2 + length (encs es1)))) (fun _ s' =>
    env_ok s' es' /\ held s s' (fun y => y = area n es \/ y = area n es')) s.
Proof.
  intros es es' Hs Hl. destruct (found_head s es1 e es2 Hs) as [He Hd]. pose proof (ok_conn _ _ Hs) as Hc.
  destruct (record_head stale s flash0 _ _ _ _ Hc Hd He) as (R1 & _).
  assert (records_ok es') as Hr by apply records_kill, Hs. pose proof (ok_rec _ _ Hs) as [_ Hfit].
  pose proof (length_encs_kill es1 e es2 He) as Hk. pose proof (live_size_kill es1 e es2 He Hl) as Hv. fold es es' in Hk, Hv.
  unfold env_delete. wps. eapply wp_run; [exact R1|]. wps.
  destruct e as [|b t]; [done|]. pose proof (area_record es1 b t es2 Hfit) as Ea.
  pose proof (area_record es1 0 t es2 (rec_fit _ Hr)) as Ea'. cbn zeta in Ea, Ea'.
  set (a := [ENV_MAGIC_0; ENV_MAGIC_1] ++ encs es1 ++ _) in Ea, Ea'.
  replace (Z.of_nat (2 + length (encs es1)) + 1) with (Z.of_nat (length a)) by (unfold a; rewrite !length_app; cbn; lia).
  unfold env_setbyte. change (u8 0) with 0. fold es in Ea. change (area n (es1 ++ (0 :: t) :: es2)) with (area n es') in Ea'.
  eapply (env_setbytes_wp so sn Hgeo _ a [b]); [rewrite <- Ea; destruct Hc; by split|apply Hs| |done| | |].
  { rewrite <- Ea, length_area by apply Hs. pose proof size_ok. lia. }
  { constructor; [apply clears_zero|constructor]. }
  { constructor; [unfold byte_ok; lia|done]. }
  intros s1 Hu. rewrite <- Ea' in Hu. pose proof Hu as (d & Hd1 & Hc1 & _).
  eapply (env_flush_wp so); [exact Hc1|]. intros s2 Hu2. pose proof Hu2 as (d2 & Hd2 & Hc2 & _). split.
  - subst s1 s2. split; try apply Hs; [done|done| |].
    + cbn. rewrite (ok_size _ _ Hs). fold es. by rewrite Hk.
    + cbn. rewrite (ok_free _ _ Hs). fold es. cbn [length] in *. lia.
  - apply held_trans with s1.
    + eapply (upto_held _ _ (area n es')) in Hu; [|by apply length_area, Hr]. eapply held_weaken; [exact Hu|].
      intros y (k & Hk' & ->). cbn in Hk'. destruct k as [|k]; [left; by rewrite Ea|right].
      rewrite Ea'. by replace k with 0%nat by lia.
    + eapply upto_held; [|exact Hu2]. by apply length_area, Hr.
Qed.

Lemma unsetenv_wp s es name : env_ok s es -> valid_name name ->
  wp no_fault (_sbd_unsetenv stale in_kva0 name) (fun _ s' => exists es',
    env_ok s' es' /\ good es es' /\ vars es' = a_del name (vars es) /\
    held s s' (fun y => exists z, y = area n z /\ good es z /\ (vars z = vars es \/ vars z = a_del name (vars es)))) s.
Proof.
  intros Hs Hn. unfold _sbd_unsetenv. wps. eapply wp_run; [exact (env_invalid_ok s es Hs)|]. cbn [Z.eqb].
  wps. eapply wp_run; [exact (env_find_ok s es name Hs)|].
  pose proof (rec_entries _ (ok_rec _ _ Hs)) as Hes.
  destruct (find_off_split name es 2 ltac:(lia)) as [[-> Hno]|(es1 & e & es2 & -> & Hno & Hm & ->)].
  - destruct (vars_none name Hn es Hes Hno) as [_ ->]. exists es. split; [done|].
    split; [split; [apply Hs|done]|]. split; [done|apply held_refl].
  - destruct (found_head s es1 e es2 Hs) as [He Hd]. apply Forall_app in Hes as [Hes1 _].
    destruct (vars_found name Hn es1 e es2 Hes1 He Hno Hm) as [_ ->].
    apply matches_name in Hm as [Hl Hv]; [|done|done].
    rewrite (proj2 (Z.eqb_neq _ _)) by lia. cbn [negb when].
    eapply wp_mono; [by apply env_delete_wp|]. intros [] s' [Hs' Hh]. exists (es1 ++ kill e :: es2).
    assert (good (es1 ++ e :: es2) (es1 ++ kill e :: es2)) as Hg by (split; [apply Hs'|by apply canon_kill]).
    rewrite vars_kill by done. split; [done|]. split; [done|]. split; [done|]. eapply held_weaken; [exact Hh|].
    intros y [-> | ->]; [exists (es1 ++ e :: es2)|exists (es1 ++ kill e :: es2)].
    + split; [done|]. split; [split; [apply Hs|done]|by left].
    + split; [done|]. split; [done|right; by rewrite vars_kill].
Qed.

(** ** Resetting and compressing *)
Lemma env_reset_wp s (Q : unit -> fenv D C -> Prop) :
  env_cookie s = Some flash0 -> dev_ok flash0 (fe_dev s) -> openable (contents flash0 (fe_dev s)) -> env_offs s = offs -> env_maxsize s = size ->
  (forall d, conn (set_dev d s) flash0 (area n []) ->
     Q tt (set_state ENVSTATE_OK (set_free (size - ENVOFF_BASE) (set_size 0 (set_dev d s))))) ->
  wp no_fault env_reset Q s.
Proof.
  intros Hck Hd Hop Ho Hm HQ. pose proof size_ok as (Hsz & Hof & Hfl). destruct (home_ok so sn Hgeo) as (H1 & H2 & H3 & H4 & _).
  unfold env_reset. wps. eapply wp_with_cookie; [done|]. rewrite Ho.
  eapply wp_mono; [eapply erase_ok; [done|apply home_sector; [exact Hgeo|lia]]|]. intros r d (_ & Hd1 & Hw & _). wps.
  assert (conn (set_dev d s) flash0 ([] ++ ones 2 ++ ones (n - 2))) as Hc.
  { cbn [app]. rewrite <- ones_app. replace (2 + (n - 2))%nat with n by lia.
    split; unfold ones; rewrite ?length_replicate; cbn [env_cookie set_dev fe_dev env_offs]; try done; try lia.
    - rewrite Hw, Ho. apply slice_wipe; lia.
    - eapply openable_home; [exact Hgeo|exact Hop|]. intros y Hy. rewrite Hw. unfold wipe.
      by repeat (case_bool; try lia). }
  change ENVOFF_MAGIC with (Z.of_nat (length (@nil Z))).
  eapply (env_setbytes_wp so sn Hgeo); [exact Hc|done| |done| | |].
  { unfold ones. rewrite !length_app, !length_replicate. cbn [length]. lia. }
  { by repeat constructor. }
  { unfold byte_ok, ENV_MAGIC_0, ENV_MAGIC_1. repeat constructor; lia. }
  intros s1 (d1 & -> & Hc1 & _). wps. assert (area n [] = [] ++ [ENV_MAGIC_0; ENV_MAGIC_1] ++ ones (n - 2)) as Ea.
  { unfold area. cbn. by rewrite Nat.sub_0_r. }
  rewrite <- Ea in Hc1. eapply (env_flush_wp so _ _ (fun _ => True)); [exact Hc1|]. intros s2 (d2 & -> & Hc2 & _). wps.
  pose proof (HQ d2 Hc2) as HQ'. cbn in HQ' |- *. rewrite Hm. exact HQ'.
Qed.

Lemma env_compress_wp s es : env_ok s es ->
  wp no_fault (env_compress stale) (fun _ s' => env_ok s' (filter (fun e => live e = true) es)) s.
Proof.
  intros Hs. pose proof size_ok as (Hsz & Hof & Hfl). unfold env_compress. wps. pose proof (ok_rec _ _ Hs) as [Hes Hfit].
  rewrite (proj2 (Z.eqb_neq _ _)) by apply Hs. wps. rewrite (ok_size _ _ Hs). set (fs := filter (fun e => live e = true) es).
  replace (ENVOFF_BASE + Z.of_nat (length (encs es))) with (Z.of_nat (2 + length (encs es))) by (unfold ENVOFF_BASE; lia).
  eapply wp_run.
  { eapply (compress_loop_conn stale s flash0 (area n es) es _ 2%nat); [by apply Hs|by apply area_drop|done|lia]. }
  fold fs. cbn [app]. wps. pose proof (conn_cookie _ _ _ (ok_conn _ _ Hs)) as Hck. pose proof (conn_ok _ _ _ (ok_conn _ _ Hs)) as Hdk.
  eapply env_reset_wp; [done|done|apply Hs|apply Hs|apply Hs|]. intros d Hc. wps.
  assert (Forall entry_ok fs) as Hfs.
  { apply List.Forall_forall. intros e He. apply list_elem_of_In, list_elem_of_filter in He as [_ He].
    eapply Forall_elem; [exact Hes|done]. }
  assert (length (encs fs) <= length (encs es))%nat as Hle.
  { pose proof (size_split es). pose proof (live_size_filter es) as Hf. fold fs in Hf. unfold fs in Hf at 1.
    rewrite live_size_live in Hf. pose proof (dead_size_nonneg es). lia. }
  assert (area n [] = [ENV_MAGIC_0; ENV_MAGIC_1] ++ ones (length (encs fs)) ++ ones (n - 2 - length (encs fs))) as Ea.
  { rewrite (area_room n [] (length (encs fs))) by (cbn; lia). cbn [encs fmap list_fmap concat length app]. by rewrite Nat.sub_0_r. }
  rewrite Ea in Hc. change ENVOFF_BASE with (Z.of_nat (length [ENV_MAGIC_0; ENV_MAGIC_1])) at 1.
  assert (Forall byte_ok (encs fs)) as Hby.
  { clear -Hfs. induction Hfs as [|e l He _ IH]; [done|]. rewrite encs_cons. apply Forall_app. split; [|done].
    destruct He as [[? ?] Hb _]. constructor; [unfold byte_ok; lia|done]. }
  eapply (env_setbytes_wp so sn Hgeo); [destruct Hc; split; done|apply Hs| |apply length_replicate|by apply ones_clear|done|].
  { rewrite <- Ea, length_area by (cbn; lia). lia. }
  intros s1 (d1 & -> & Hc1 & _). wps. change ([ENV_MAGIC_0; ENV_MAGIC_1] ++ encs fs ++ _) with (area n fs) in Hc1.
  eapply (env_flush_wp so _ _ (fun _ => True)); [exact Hc1|]. intros s2 (d2 & -> & Hc2 & _).
  pose proof (live_size_filter es) as Hf. fold fs in Hf.
  split; try apply Hs; [done|done|split; [done|lia]|done|]. cbn. rewrite Hf. unfold ENVOFF_BASE. lia.
Qed.

(** ** Setting *)

(** The size of the record that is replaced. *)
Fixpoint old_size (name : cstr) (es : list (list Z)) : Z :=
  match es with
  | [] => 0
  | e :: es' => if matches name e then Z.of_nat (S (length e)) else old_size name es'
  end.

Lemma old_size_none name es : Forall (fun e => matches name e = false) es -> old_size name es = 0.
Proof. intros H. induction H as [|e es He _ IH]; cbn; [done|]. by rewrite He. Qed.

Lemma old_size_found name es1 e es2 : Forall (fun e => matches name e = false) es1 -> matches name e = true ->
  old_size name (es1 ++ e :: es2) = Z.of_nat (S (length e)).
Proof. intros H Hm. induction H as [|x es Hx _ IH]; cbn [app old_size]; [by rewrite Hm|]. by rewrite Hx. Qed.

Lemma canon_app es es' : canon (es ++ es') <-> canon es /\ canon es'.
Proof. apply Forall_app. Qed.

Section Set_.
Variables (name : cstr) (val : cptr).
Hypothesis Hn : valid_name name.
Hypothesis Hv : cstr_ok (default [] val).
Let v := default [] val.
Let e := body name val.
Let total := rec_size name val.

Lemma total_eq : total = Z.of_nat (S (length e)).
Proof. apply rec_size_body. Qed.

Lemma canon_dead g : live g = false -> canon [g].
Proof. intros Hg. constructor; [by rewrite Hg|done]. Qed.

Lemma canon_body : canon [e].
Proof.
  constructor; [|done]. intros _. unfold e. rewrite body_var by done. cbn [fst snd]. unfold body, val_len. done.
Qed.

Lemma records_snoc es g : records_ok es -> entry_ok g -> (2 + length (encs es) + S (length g) <= n)%nat -> records_ok (es ++ [g]).
Proof.
  intros [H1 H2] Hg Hf. split; [apply Forall_app; split; [done|by constructor]|].
  rewrite encs_app, length_app. change (length (encs [g])) with (length (enc g ++ [])). rewrite app_nil_r, length_enc. lia.
Qed.

(** Appending, when there is room. *)
Lemma append_wp s es : env_ok s es -> total < 255 -> 2 + Z.of_nat (length (encs es)) + total <= size ->
  wp no_fault (env_append name val total) (fun _ s' =>
    env_ok s' (es ++ [e]) /\ good es (es ++ [e]) /\ vars (es ++ [e]) = vars es ++ [(name, v)] /\
    held s s' (fun y => exists z, y = area n z /\ good es z /\ (vars z = vars es \/ vars z = vars es ++ [(name, v)]))) s.
Proof.
  intros Hs Ht Hf. pose proof total_eq as Et. pose proof size_ok as (Hsz & _). pose proof (body_ok _ _ Hn Ht) as He. fold e in He.
  assert (2 + length (encs es) + S (length e) <= n)%nat as Hf' by lia. pose proof (ok_rec _ _ Hs) as Hr.
  assert (vars (es ++ [e]) = vars es ++ [(name, v)]) as Hvs.
  { rewrite vars_app, vars_one by (by apply body_live). by rewrite (body_var name val Hn Hv : var_of e = (name, v)). }
  assert (good es (es ++ [e])) as Hg.
  { split; [by apply records_snoc|]. intros Hc. apply canon_app. split; [done|apply canon_body]. }
  assert (live_size (es ++ [e]) = live_size es + total) as Hls.
  { rewrite live_size_app, live_size_cons, (body_live name val Hn : live e = true), Et. cbn [live_size foldr]. lia. }
  assert (length (encs (es ++ [e])) = length (encs es) + S (length e))%nat as Hle.
  { rewrite encs_app, length_app. change (length (encs [e])) with (length (enc e ++ [])). by rewrite app_nil_r, length_enc. }
  assert (exists x tl, name = x :: tl) as (x & tl & En) by (destruct Hn; destruct name; [done|by do 2 eexists]).
  pose proof (env_append_wp so sn Hgeo s es x tl val) as Happ. rewrite <- En in Happ. eapply Happ; [apply Hs|apply Hs|exact Hf'|fold e; lia|apply Hs|].
  intros s' Hu. split; [|split; [done|split; [done|]]].
  - pose proof Hu as (d & -> & Hc & _). split; try apply Hs; [destruct Hc; by split|apply Hg| |].
    + change (envsize s + Z.of_nat (S (length e)) = Z.of_nat (length (encs (es ++ [e])))). rewrite (ok_size _ _ Hs). lia.
    + change (envfree s - Z.of_nat (S (length e)) = size - 2 - live_size (es ++ [e])). rewrite (ok_free _ _ Hs). lia.
  - eapply held_weaken.
    { eapply (upto_held s s' (area n (es ++ [e]))); [apply length_area, Hg|]. exact Hu. }
    intros y [-> |[-> |(g & Hgl & Hgb & Hgd & ->)]].
    + exists es. split; [done|]. split; [by split|by left].
    + exists (es ++ [e]). split; [done|]. split; [done|by right].
    + exists (es ++ [g]). split; [done|]. fold e in Hgl. split.
      * split; [apply records_snoc; [done| |lia]|].
        -- split; [rewrite Hgl; apply He|done|by rewrite Hgd].
        -- intros Hc. apply canon_app. split; [done|by apply canon_dead].
      * left. rewrite vars_app, (vars_dead g Hgd). apply app_nil_r.
Qed.

(** The end of [_sbd_setenv]: the sector is compressed where that is needed, and
    then there is room. *)
Lemma env_put_wp s es : env_ok s es -> total < 255 -> live_size es + total <= size - 2 ->
  wp no_fault (env_put stale name val total) (fun r s' => r = 0 /\ exists es',
    env_ok s' es' /\ good es es' /\ vars es' = vars es ++ [(name, v)] /\
    (2 + Z.of_nat (length (encs es)) + total <= size ->
     held s s' (fun y => exists z, y = area n z /\ good es z /\ (vars z = vars es \/ vars z = vars es ++ [(name, v)])))) s.
Proof.
  intros Hs Ht Hf. pose proof total_eq as Et. pose proof size_ok as (Hsz & _). pose proof (ok_rec _ _ Hs) as [Hes Hfit].
  assert (forall s es, env_ok s es -> env_full total s = Ok (size <? 2 + Z.of_nat (length (encs es)) + total, s)) as Hfull.
  { intros s0 es0 H0. unfold env_full, gets. rewrite (ok_max _ _ H0), (ok_size _ _ H0).
    pose proof (rec_fit _ (ok_rec _ _ H0)). by rewrite u32_small by (unfold ENVOFF_BASE; lia). }
  unfold env_put. wps. eapply wp_run; [by apply Hfull|]. wps.
  destruct (Z.ltb_spec size (2 + Z.of_nat (length (encs es)) + total)) as [Hlt|Hge]; cbn [when].
  - eapply wp_mono; [by apply env_compress_wp|]. intros [] s1 Hs1. set (fs := filter _ es) in Hs1. cbn beta. wps.
    pose proof (live_size_filter es) as Hl1. rewrite live_size_live in Hl1. fold fs in Hl1.
    eapply wp_run; [by apply (Hfull s1 fs)|].
    rewrite (proj2 (Z.ltb_ge _ _)) by lia. wps. eapply wp_mono; [apply (append_wp s1 fs); [done|done|lia]|].
    intros [] s2 (H1 & H2 & H3 & _). apply wp_ret. split; [done|]. exists (fs ++ [e]). split; [done|].
    unfold fs in H3 at 2. rewrite vars_live in H3. split; [|split; [done|lia]].
    split; [apply H2|]. intros Hc. apply H2. unfold fs. apply List.Forall_forall. intros x Hx.
    apply list_elem_of_In, list_elem_of_filter in Hx as [_ Hx].
    apply (Forall_elem _ _ _ Hc Hx).
  - apply wp_ret. wps. apply wp_ret. wps. eapply wp_mono; [by apply append_wp|]. intros [] s2 (H1 & H2 & H3 & H4). apply wp_ret. split; [done|]. by exists (es ++ [e]).
Qed.

Lemma failed_wp er s (Q : Z -> fenv D C -> Prop) : Q (-1) (set_errno er s) -> wp no_fault (failed er) Q s.
Proof. intros H. unfold failed. wps. by apply wp_ret. Qed.

(** The whole of [_sbd_setenv], by the branch it takes. *)
Lemma setenv_wp s es ow : env_ok s es ->
  wp no_fault (_sbd_setenv stale in_kva0 (Some name) val ow) (fun r s' =>
    if bool_decide (a_get name (vars es) <> None) && negb ow then r = 0 /\ s' = s
    else if 255 <=? total then r = -1 /\ s' = set_errno ENAMETOOLONG s
    else if size - 2 - live_size es + old_size name es <? total then r = -1 /\ s' = set_errno ENOSPC s
    else r = 0 /\ exists es', env_ok s' es' /\ good es es' /\ vars es' = a_del name (vars es) ++ [(name, v)] /\
      (2 + envsize s + total <= size ->
       held s s' (fun y => exists z, y = area n z /\ good es z /\
         (vars z = vars es \/ vars z = a_del name (vars es) \/ vars z = a_del name (vars es) ++ [(name, v)])))) s.
Proof.
  intros Hs. unfold _sbd_setenv. wps. eapply wp_run; [exact (env_invalid_ok s es Hs)|]. cbn beta. change (negb (0 =? 0)) with false. cbn iota.
  change (default [] (Some name)) with name. cbn zeta. assert (Z.of_nat (length name) <> 0) as Hne.
  { destruct Hn as [Hne _]. intros E. apply Hne, nil_length_inv. lia. }
  rewrite (proj2 (Z.eqb_neq _ _) Hne).
  wps. eapply wp_run; [exact (env_find_ok s es name Hs)|].
  pose proof (ok_rec _ _ Hs) as [Hes Hfit]. pose proof size_ok as (Hsz & _).
  destruct (find_off_split name es 2 ltac:(lia)) as [[-> Hno]|(es1 & o & es2 & -> & Hno & Hm & ->)].
  - destruct (vars_none name Hn es Hes Hno) as [-> ->]. rewrite old_size_none by done. rewrite bool_decide_eq_false_2 by (intros H; by apply H).
    change (Z.of_nat 0 =? 0) with true. cbn [negb andb when]. wps. apply wp_ret. fold total. destruct (255 <=? total) eqn:Et; [by apply failed_wp|]. apply Z.leb_gt in Et. wps.
    rewrite (ok_free _ _ Hs). pose proof (live_size_nonneg es). pose proof (size_split es). pose proof (dead_size_nonneg es).
    rewrite u32_small by lia. destruct (Z.ltb_spec (size - 2 - live_size es + 0) total) as [Hlt|Hge]; [by apply failed_wp|].
    wps. apply wp_ret. eapply wp_mono; [apply env_put_wp; [done|done|lia]|].
    intros r s' (-> & es' & P1 & P2 & P3 & P4). split; [done|]. exists es'. split; [done|]. split; [done|]. split; [done|].
    rewrite (ok_size _ _ Hs). intros Hfit'. eapply held_weaken; [by apply P4|]. intros y (z & -> & Hz & [Hz'|Hz']); exists z; auto.
  - destruct (found_head s es1 o es2 Hs) as [Ho Hd]. apply Forall_app in Hes as [Hes1 Hes2].
    destruct (vars_found name Hn es1 o es2 Hes1 Ho Hno Hm) as [-> ->]. rewrite (old_size_found name es1 o es2 Hno Hm).
    rewrite bool_decide_eq_true_2 by done. rewrite (proj2 (Z.eqb_neq _ _)) by lia. cbn [negb andb].
    destruct ow; cbn [negb]; [|done]. wps.
    destruct (record_head stale s flash0 _ _ _ _ (ok_conn _ _ Hs) Hd Ho) as (R1 & _).
    eapply wp_run; [exact R1|]. fold total. destruct (255 <=? total) eqn:Et; [by apply failed_wp|]. apply Z.leb_gt in Et. wps.
    rewrite (ok_free _ _ Hs). pose proof (live_size_nonneg (es1 ++ o :: es2)). pose proof (size_split (es1 ++ o :: es2)) as Hspl.
    pose proof (dead_size_nonneg (es1 ++ o :: es2)). pose proof (entry_len _ Ho).
    rewrite u32_small by lia. destruct (Z.ltb_spec (size - 2 - live_size (es1 ++ o :: es2) + Z.of_nat (S (length o))) total) as [Hlt|Hge]; [by apply failed_wp|].
    cbn [when]. wps. apply matches_name in Hm as [Hl _]; [|done|done].
    eapply wp_mono; [by apply env_delete_wp|]. intros [] s1 [Hs1 Hh1]. cbn beta.
    pose proof (live_size_kill es1 o es2 Ho Hl) as Hk.
    eapply wp_mono; [apply (env_put_wp s1 _ Hs1 Et); lia|]. intros r s' (-> & es' & P1 & P2 & P3 & P4). split; [done|].
    rewrite vars_kill in P3, P4 by done. pose proof (canon_kill es1 o es2 Ho) as Hck.
    exists es'. split; [done|]. split; [split; [apply P2|]; intros Hc; by apply P2, Hck|]. split; [done|].
    rewrite (ok_size _ _ Hs). intros Hfit'. rewrite length_encs_kill in P4 by done.
    apply held_trans with s1.
    + eapply held_weaken; [exact Hh1|]. intros y [-> | ->]; eexists; (split; [reflexivity|]).
      * split; [split; [apply Hs|done]|by left].
      * split; [split; [apply Hs1|done]|right; left; by apply vars_kill].
    + eapply held_weaken; [by apply P4|]. intros y (z & -> & Hz & Hz'). exists z. split; [done|].
      split; [split; [apply Hz|]; intros Hc; by apply Hz, Hck|]. by right.
Qed.
End Set_.

End Ops.
