(* ===== verification/FlashenvSafe.v ===== *)
(** * FlashenvSafe: the flash environment across power-off

    What the monitor finds in the flash when it starts, and the theorems about
    the environment as a store of variables: its operations refine those of an
    abstract store, also across restarts, and a power failure at any moment of an
    operation leaves the store of before or after it. *)

From S2P Require Import Prelude CString Comp Flashdev Flashenv FlashenvOk FlashenvMap.

(** ** The abstract store *)

(** The operations of the environment, and a restart of the machine. *)
Inductive op : Type :=
| OSet (name : cstr) (val : cptr) (overwrite : bool)
| OUnset (name : cstr)
| OGet (name : cstr)
| OMap
| ORestart.

Inductive ans : Type :=
| AStatus (r e : Z)
| AValue (v : cptr)
| ACalls (l : list (cstr * cptr))
| ADone.

(** The room the variables take. *)
Definition used (vs : list (cstr * cstr)) : Z := foldr (fun v a => rec_size v.1 (Some v.2) + a) 0 vs.

(** A store of [cap] bytes: what the caller is told, and the variables after it.
    A value replaces the one it finds, and comes last; it is refused when its
    record is too long or when there would be no room even without the old one. *)
Definition a_set (cap : Z) (name : cstr) (val : cptr) (ow : bool) (vs : list (cstr * cstr)) : ans * list (cstr * cstr) :=
  let old := match a_get name vs with Some v => rec_size name (Some v) | None => 0 end in
  if bool_decide (a_get name vs <> None) && negb ow then (AStatus 0 0, vs)
  else if 255 <=? rec_size name val then (AStatus (-1) ENAMETOOLONG, vs)
  else if cap <? used vs - old + rec_size name val then (AStatus (-1) ENOSPC, vs)
  else (AStatus 0 0, a_del name vs ++ [(name, default [] val)]).

Definition a_op (cap : Z) (o : op) (vs : list (cstr * cstr)) : ans * list (cstr * cstr) :=
  match o with
  | OSet name val ow => a_set cap name val ow vs
  | OUnset name => (ADone, a_del name vs)
  | OGet name => (AValue (a_get name vs), vs)
  | OMap => (ACalls ((fun v => (v.1, Some v.2)) <$> vs), vs)
  | ORestart => (ADone, vs)
  end.

Fixpoint a_run (cap : Z) (os : list op) (vs : list (cstr * cstr)) : list ans * list (cstr * cstr) :=
  match os with
  | [] => ([], vs)
  | o :: os' => let '(a, vs1) := a_op cap o vs in let '(l, vs2) := a_run cap os' vs1 in (a :: l, vs2)
  end.

(** Operations whose strings the format can hold. *)
Definition op_ok (o : op) : Prop :=
  match o with
  | OSet name val _ => valid_name name /\ cstr_ok (default [] val)
  | OUnset name | OGet name => valid_name name
  | OMap | ORestart => True
  end.

Lemma a_del_app_notin name vs v : a_get name vs = None -> a_get name (vs ++ [(name, v)]) = Some v.
Proof.
  induction vs as [|[m w] vs IH]; cbn; [by destruct (decide (name = name))|]. by destruct (decide (m = name)).
Qed.

Lemma a_get_none name vs : a_get name vs = None <-> name ∉ vs.*1.
Proof.
  induction vs as [|[m w] vs IH]; cbn; [split; [intros _; apply not_elem_of_nil|done]|].
  rewrite not_elem_of_cons. destruct (decide (m = name)) as [->|]; [|rewrite IH]; naive_solver.
Qed.

Lemma a_del_sub name vs x : x ∈ (a_del name vs).*1 -> x ∈ vs.*1.
Proof.
  induction vs as [|[m w] vs IH]; cbn; [done|]. destruct (decide (m = name)); cbn; set_solver.
Qed.

Lemma a_del_unique name vs : NoDup vs.*1 -> NoDup (a_del name vs).*1 /\ name ∉ (a_del name vs).*1.
Proof.
  induction vs as [|[m w] vs IH]; cbn; [by split; [apply NoDup_nil_2|apply not_elem_of_nil]|].
  intros [Hm Hvs]%list.NoDup_cons. destruct (decide (m = name)) as [->|Hne]; [done|]. cbn. destruct (IH Hvs) as [H1 H2].
  split; [apply list.NoDup_cons; split; [|done]; by intros ?%a_del_sub|]. by apply not_elem_of_cons.
Qed.

Lemma set_unique name v vs : NoDup vs.*1 -> NoDup (a_del name vs ++ [(name, v)]).*1.
Proof.
  intros H. destruct (a_del_unique name vs H) as [H1 H2]. rewrite fmap_app. apply list.NoDup_app.
  split; [done|]. split; [|apply NoDup_singleton]. intros x Hx ->%list_elem_of_singleton. done.
Qed.

(** Records as [_sbd_setenv] writes them: the room is that of the variables. *)
Lemma canon_used es : canon es -> live_size es = used (vars es).
Proof.
  intros H. induction H as [|e es He _ IH]; [done|]. change (e :: es) with ([e] ++ es). rewrite vars_app.
  rewrite live_size_app, IH. cbn [live_size foldr]. destruct (live e) eqn:El.
  - rewrite vars_one by done. cbn [app used foldr]. fold (used (vars es)). rewrite rec_size_body, <- He by done. lia.
  - by rewrite vars_dead.
Qed.

Lemma canon_old name es : valid_name name -> Forall entry_ok es -> canon es ->
  old_size name es = match a_get name (vars es) with Some v => rec_size name (Some v) | None => 0 end.
Proof.
  intros Hn Hes Hc. destruct (find_off_split name es 2 ltac:(lia)) as [[_ Hno]|(es1 & e & es2 & -> & Hno & Hm & _)].
  - destruct (vars_none name Hn es Hes Hno) as [-> _]. by apply old_size_none.
  - apply Forall_app in Hes as [Hes1 Hes2]. apply Forall_cons_iff in Hes2 as [He _].
    destruct (vars_found name Hn es1 e es2 Hes1 He Hno Hm) as [-> _]. rewrite (old_size_found name es1 e es2 Hno Hm).
    apply Forall_app in Hc as [_ Hc]. apply Forall_cons_iff in Hc as [Hc _].
    apply matches_name in Hm as [Hl Hv]; [|done|done]. rewrite rec_size_body, <- Hv. by rewrite <- Hc.
Qed.

Section Boot.
Context {D C : Type} `{FO : FlashDevOk D C}.
Variables (stale : Z) (in_kva0 : bool) (so sn : Z).
Hypothesis Hgeo : geometry flash0 (fl_size flash0 - 512) = Some (so, sn).
Hypothesis Hbig : 66 <= sn.

Abbreviation offs := (home_offs so).
Abbreviation size := (home_size so sn).
Abbreviation n := (Z.to_nat size).

(** ** The check of the structure *)

Lemma ends_ones k : ends (ones k).
Proof. destruct k; [by left|by right]. Qed.

Lemma structcheck_complete s es : conn s flash0 (area n es) -> env_maxsize s = size -> records_ok so sn es ->
  env_structcheck stale s =
    Ok (true, set_free (size - 2 - live_size es) (set_size (Z.of_nat (length (encs es))) s)).
Proof.
  intros Hs Hm [Hes Hf]. pose proof (size_ok so sn Hgeo Hbig) as (Hsz & _).
  pose proof (length_area n es Hf) as Hl.
  unfold env_structcheck. rewrite bind_ok with (a := size) (s' := s) by (unfold gets; by rewrite Hm).
  rewrite bind_ok with (a := tt) (s' := set_free 0 s) by done.
  assert (conn (set_free 0 s) flash0 (area n es)) as Hs0 by (destruct Hs; by split).
  replace size with (Z.of_nat (length (area n es))) at 2 by (rewrite Hl; lia).
  erewrite bind_ok.
  2:{ eapply (check_entries_complete stale flash0 _ es _ _ 2%nat); [exact Hs0|by apply area_drop|done|apply ends_ones|lia|lia]. }
  cbn iota. rewrite bind_ok with (a := tt) (s' := set_size (Z.of_nat (length (encs es))) (set_free (dead_size es) s)).
  2:{ unfold modify. do 2 f_equal. unfold set_size, set_free. cbn. f_equal. unfold ENVOFF_BASE. lia. }
  set (s1 := set_size _ _).
  destruct (check_rest_conn stale flash0 (area n es) (Z.to_nat (size - Z.of_nat (2 + length (encs es)))) s1 (2 + length (encs es)))
    as (v & b & -> & H1 & H2); [destruct Hs; by split|lia|].
  assert (drop (2 + length (encs es)) (area n es) = ones (Z.to_nat (size - Z.of_nat (2 + length (encs es))))) as Hd.
  { rewrite <- drop_drop, area_drop, drop_app_length. f_equal. lia. }
  rewrite (H2 Hd) in *. destruct (H1 eq_refl) as [_ ->]. unfold s1, set_size, set_free. cbn.
  do 3 f_equal. pose proof (size_split es). lia.
Qed.

Lemma structcheck_sound s l : conn s flash0 l -> length l = n -> env_maxsize s = size ->
  take 2 l = [ENV_MAGIC_0; ENV_MAGIC_1] ->
  exists b v w, env_structcheck stale s = Ok (b, set_free v (set_size w s)) /\
    (b = true -> exists es, l = area n es /\ records_ok so sn es).
Proof.
  intros Hs Hl Hm Hmag. pose proof (size_ok so sn Hgeo Hbig) as (Hsz & _).
  unfold env_structcheck. rewrite bind_ok with (a := size) (s' := s) by (unfold gets; by rewrite Hm).
  rewrite bind_ok with (a := tt) (s' := set_free 0 s) by done.
  destruct (check_entries_sound stale flash0 l (S (Z.to_nat size)) (set_free 0 s) 2) as (v & o & E & Ho);
    [destruct Hs; by split|lia|lia|].
  replace (Z.of_nat (length l)) with size in E by lia. change (Z.of_nat 2) with ENVOFF_BASE in E. rewrite (bind_ok _ _ _ _ _ E). destruct o as [q|]; cycle 1.
  { exists false, v, (envsize s). split; [|done]. by destruct s. }
  destruct Ho as (es & r & Hd & Hes & Hr & -> & ->).
  rewrite bind_ok with (a := tt) (s' := set_size (Z.of_nat (length (encs es))) (set_free (dead_size es) s)).
  2:{ unfold modify. do 2 f_equal. unfold set_size, set_free. cbn. f_equal. unfold ENVOFF_BASE. lia. }
  set (s1 := set_size _ _).
  assert (length (encs es) + length r = n - 2)%nat as Hlen.
  { apply (f_equal length) in Hd. rewrite length_drop, length_app, Hl in Hd. lia. }
  destruct (check_rest_conn stale flash0 l (Z.to_nat (size - Z.of_nat (2 + length (encs es)))) s1 (2 + length (encs es)))
    as (v & b & -> & H1 & _); [destruct Hs; by split|lia|].
  exists b, v, (Z.of_nat (length (encs es))). split; [by destruct s|]. intros Hb. destruct (H1 Hb) as [H2 _].
  exists es. split; [|split; [done|lia]]. rewrite <- (take_drop 2 l), Hmag, Hd. unfold area. do 2 f_equal.
  rewrite <- drop_drop, Hd, drop_app_length in H2. rewrite H2. f_equal. lia.
Qed.

(** ** Starting up *)

Lemma flashenv_open_wp d : powered d ->
  wp no_fault (_sbd_flashenv_open (D := D) (C := C)) (fun r d' => r = (Some flash0, Some (so, sn)) /\
    dev_ok flash0 d' /\ contents flash0 d' =m= contents flash0 d) d.
Proof.
  intros Hd. pose proof (fl_size_ok flash0) as Hsz. unfold _sbd_flashenv_open. wps.
  eapply wp_mono; [by apply open_ok|]. intros oc d1 (-> & Hd1 & Hc1 & _). cbn beta iota. wps.
  eapply wp_mono; [apply info_ok; [done|lia]|]. intros [r1 i] d2 ((Hd2 & Hc2 & _) & -> & Hi & _). cbn beta iota.
  change (negb (FLASHDEV_OK =? FLASHDEV_OK)) with false. cbn iota. wps. rewrite Hi, u32_small by lia.
  eapply wp_mono; [apply info_ok; [done|lia]|]. intros [r2 i'] d3 ((Hd3 & Hc3 & _) & -> & _ & Hg). cbn beta iota.
  rewrite Hgeo in Hg. destruct Hg as (-> & -> & ->). change (negb (0 =? 0)) with false. cbn iota.
  apply wp_ret. split; [done|]. split; [done|]. by rewrite Hc3, Hc2.
Qed.

(** What the sector of a device holds. *)
Definition sector_is (m : mem) (es : list (list Z)) : Prop := slice m offs n = area n es /\ records_ok so sn es.

(** The records of a sector are determined by its bytes. *)
Lemma encs_unique es : forall es' r r', Forall entry_ok es -> Forall entry_ok es' -> ends r -> ends r' ->
  encs es ++ r = encs es' ++ r' -> es = es'.
Proof.
  assert (forall e r es r', entry_ok e -> ends r -> r = enc e ++ es ++ r' -> False) as Hend.
  { intros e r es0 r' [[? ?] _ _] [->|Hr] E; [done|]. subst r. cbn in Hr. injection Hr as Hr. lia. }
  induction es as [|e es IH]; intros [|e' es'] r r' He He' Hr Hr' E; [done| | |].
  - apply Forall_cons_iff in He' as [He' _]. rewrite encs_cons, <- app_assoc in E. by eapply Hend in E.
  - apply Forall_cons_iff in He as [He _]. rewrite encs_cons, <- app_assoc in E. symmetry in E. by eapply Hend in E.
  - apply Forall_cons_iff in He as [He Hes]. apply Forall_cons_iff in He' as [He' Hes'].
    rewrite !encs_cons, <- !app_assoc in E. unfold enc in E. cbn [app] in E. injection E as Hl E.
    apply app_inj_1 in E as [-> E]; [|lia]. f_equal. eapply (IH es' r r'); [exact Hes|exact Hes'|done|done|exact E].
Qed.

Lemma sector_unique m es es' : sector_is m es -> sector_is m es' -> es = es'.
Proof.
  intros [E1 [H1 _]] [E2 [H2 _]]. rewrite E1 in E2. apply (f_equal (drop 2)) in E2. rewrite !area_drop in E2.
  eapply encs_unique; [exact H1|exact H2|apply ends_ones|apply ends_ones|exact E2].
Qed.

Lemma sector_magic m es : sector_is m es -> m offs = ENV_MAGIC_0.
Proof.
  intros [E [_ Hf]]. apply (f_equal (fun l => l !! 0%nat)) in E. rewrite slice_lookup in E by lia.
  rewrite Z.add_0_r in E. by injection E.
Qed.

Lemma compbuf_nonzero (x : Z) (b : bool) : (if b then PA_TO_KVA0 x else PA_TO_KVA1 x) <> 0.
Proof. destruct b; unfold PA_TO_KVA0, PA_TO_KVA1; intros [_ H]%Z.lor_eq_0_iff; done. Qed.

Lemma records_nil : records_ok so sn [].
Proof. pose proof (size_ok so sn Hgeo Hbig). split; [done|cbn; lia]. Qed.

(** The outcome of the check of a sector that holds [l]: it is accepted exactly when
    it holds records, and otherwise emptied. *)
Definition loaded (s : fenv D C) (l : list Z) (s' : fenv D C) : Prop :=
  env_state s' = ENVSTATE_OK /\ env_offs s' = offs /\ env_maxsize s' = size /\
  exists es, conn s' flash0 (area n es) /\ records_ok so sn es /\
    envsize s' = Z.of_nat (length (encs es)) /\ envfree s' = size - 2 - live_size es /\
    ((l = area n es /\ env_init_state s' = ENVSTATE_OK /\ fe_dev s' = fe_dev s) \/
     ((forall z, ~ (l = area n z /\ records_ok so sn z)) /\ es = [] /\
        (env_init_state s' = ENVSTATE_UNINITIALISED \/ env_init_state s' = ENVSTATE_UNRECOVERABLE))).

Lemma load_reset s l s1 : env_cookie s1 = Some flash0 -> dev_ok flash0 (fe_dev s1) -> openable (contents flash0 (fe_dev s1)) ->
  env_offs s1 = offs -> env_maxsize s1 = size ->
  (env_init_state s1 = ENVSTATE_UNINITIALISED \/ env_init_state s1 = ENVSTATE_UNRECOVERABLE) ->
  (forall z, ~ (l = area n z /\ records_ok so sn z)) ->
  wp no_fault env_reset (fun _ => loaded s l) s1.
Proof.
  intros Hck Hdk Hop Ho1 Hm1 Hst Hno. apply (env_reset_wp so sn Hgeo Hbig); [done..|]. intros d Hc.
  split; [done|]. split; [done|]. split; [done|]. exists []. split; [destruct Hc; by split|].
  split; [apply records_nil|]. split; [done|]. split; [cbn; unfold ENVOFF_BASE; lia|]. right. by split.
Qed.

Lemma env_load_wp s l : conn s flash0 l -> length l = n -> env_offs s = offs -> env_maxsize s = size ->
  wp no_fault (env_load stale) (fun _ => loaded s l) s.
Proof.
  intros Hs Hl Ho Hm. pose proof (size_ok so sn Hgeo Hbig) as (Hsz & Hof & Hfl).
  unfold env_load. wps. change ENVOFF_MAGIC with (Z.of_nat 0).
  eapply wp_run; [apply (getbytes_conn s flash0 l); [done|cbn [length]; lia]|]. rewrite drop_0. cbn [length]. wps.
  assert (exists a b r, l = a :: b :: r) as (a & b & r & El).
  { destruct l as [|a [|b r]]; [cbn in Hl; lia..|]. by eexists _, _, _. }
  assert (forall z, l = area n z -> a = ENV_MAGIC_0 /\ b = ENV_MAGIC_1) as Hmag by (rewrite El; by intros z [= -> -> _]).
  assert (default stale (take 2 l !! 0%nat) = a) as -> by (by rewrite El).
  assert (default stale (take 2 l !! 1%nat) = b) as -> by (by rewrite El).
  destruct (negb (a =? ENV_MAGIC_0) || negb (b =? ENV_MAGIC_1)) eqn:Et.
  { change (env_state _ =? ENVSTATE_OK) with false. cbn iota. eapply load_reset; [apply Hs|apply Hs|apply Hs|done|done|by left|].
    intros z [Hz _]. destruct (Hmag z Hz) as [-> ->]. done. }
  apply orb_false_iff in Et as [Ea%negb_false_iff%Z.eqb_eq Eb%negb_false_iff%Z.eqb_eq].
  change (env_state _ =? ENVSTATE_OK) with true. cbn iota. set (s1 := set_state _ _).
  assert (conn s1 flash0 l) as Hs1 by (destruct Hs; by split). wps.
  destruct (structcheck_sound s1 l Hs1 Hl Hm ltac:(by rewrite El, Ea, Eb)) as (ok & v & w & E & Hok).
  eapply wp_run; [exact E|]. destruct ok.
  - destruct Hok as (es & Hes & Hr); [done|]. rewrite Hes in Hs1.
    pose proof (structcheck_complete s1 es Hs1 Hm Hr) as E'. rewrite E in E'. injection E' as -> ->. apply wp_ret.
    split; [done|]. split; [done|]. split; [done|]. exists es. split; [destruct Hs1; by split|].
    split; [done|]. split; [done|]. split; [done|]. by left.
  - wps. eapply load_reset; [apply Hs|apply Hs|apply Hs|done|done|by right|]. intros z [Hz Hr]. rewrite Hz in Hs1.
    rewrite (structcheck_complete s1 z Hs1 Hm Hr) in E. done.
Qed.

Lemma boot_wp d ms : powered d ->
  wp no_fault (env_invalid stale in_kva0) (fun r s' => r = 0 /\
    ((exists es, sector_is (contents flash0 d) es /\ env_ok so sn s' es /\ env_init_state s' = ENVSTATE_OK /\
        contents flash0 (fe_dev s') =m= contents flash0 d) \/
     ((forall es, ~ sector_is (contents flash0 d) es) /\ env_ok so sn s' [] /\
        (env_init_state s' = ENVSTATE_UNINITIALISED \/ env_init_state s' = ENVSTATE_UNRECOVERABLE))))
    (fenv_boot d ms).
Proof.
  intros Hd. pose proof (size_ok so sn Hgeo Hbig) as (Hsz & Hof & Hfl). unfold env_invalid. wps.
  change (negb (env_state (fenv_boot d ms) =? ENVSTATE_UNKNOWN)) with false. cbn iota. wps.
  unfold wp at 1, on_dev. pose proof (flashenv_open_wp d Hd) as Ho. unfold wp at 1 in Ho.
  change (fe_dev (fenv_boot d ms)) with d. destruct (_sbd_flashenv_open d) as [[r d1]|f]; [|done].
  destruct Ho as (-> & Hd1 & Hc1). wps. change (default _ (Some (so, sn))) with (so, sn). cbn iota.
  set (s0 := set_place _ _ _ _). change (env_maxsize s0) with sn. rewrite (proj2 (Z.ltb_ge _ _)) by (unfold ENVOFF_BASE; lia).
  cbn [orb]. wps. assert (env_align s0 = set_place (Some flash0) offs size s0) as ->.
  { unfold env_align, home_offs, home_size. change (env_offs s0) with so. change (env_maxsize s0) with sn.
    destruct (Z.odd so); cbn [env_maxsize set_place]; [|change (env_maxsize s0) with sn]; by destruct (Z.odd _). }
  set (s1 := set_place _ _ _ s0). set (l := slice (contents flash0 d) offs n).
  assert (length l = n) as Hl by apply slice_length.
  assert (conn s1 flash0 l) as Hs1.
  { split; cbn [env_cookie env_offs fe_dev s1 set_place]; [done|done|done|rewrite Hl; lia| |].
    - rewrite Hl. unfold l. change (fe_dev s0) with d1. by rewrite Hc1.
    - eapply openable_home; [exact Hgeo|by apply powered_ok|]. intros a _. apply Hc1. }
  eapply wp_mono; [by apply (env_load_wp s1 l)|].
  intros [] s2 (H1 & H2 & H3 & es & Hc & Hr & H4 & H5 & Hcase). wps. split; [exact H1|].
  assert (env_ok so sn (set_compbuf (if in_kva0 then PA_TO_KVA0 (Z.land (u32 (memorysize s2 - env_maxsize s2)) (Z.lnot 31))
       else PA_TO_KVA1 (Z.land (u32 (memorysize s2 - env_maxsize s2)) (Z.lnot 31)))
       (Z.land (u32 (memorysize s2 - env_maxsize s2)) (Z.lnot 31)) s2) es) as Hok.
  { destruct Hc. split; try done; apply compbuf_nonzero. }
  destruct Hcase as [(Hes & Hi & Hdev)|(Hno & -> & Hi)]; [left|right].
  - exists es. split; [by split|]. split; [done|]. split; [done|]. cbn [fe_dev set_compbuf]. rewrite Hdev. exact Hc1.
  - split; [exact Hno|]. by split.
Qed.

(** ** Refinement *)

Variable ms : Z.
Abbreviation MF := (M (fenv D C)).

(** The operations of the environment, and a power cycle: the variables of the
    program are lost, the device keeps its contents. *)
Definition restart : MF unit := fun s =>
  (env_invalid stale in_kva0 ≫= fun _ => mret tt) (fenv_boot (power_cycle (fe_dev s)) ms).

Definition run_op (o : op) : MF ans :=
  match o with
  | OSet name val ow =>
    _sbd_setenv stale in_kva0 (Some name) val ow ≫= fun r =>
    gets errno ≫= fun e => mret (AStatus r (if r =? 0 then 0 else e))
  | OUnset name => _sbd_unsetenv stale in_kva0 name ≫= fun _ => mret ADone
  | OGet name => _sbd_getenv stale in_kva0 name ≫= fun v => mret (AValue v)
  | OMap => _sbd_mapenv stale in_kva0 ≫= fun l => mret (ACalls l)
  | ORestart => restart ≫= fun _ => mret ADone
  end.

Fixpoint run_ops (os : list op) : MF (list ans) :=
  match os with
  | [] => mret []
  | o :: os' => run_op o ≫= fun a => run_ops os' ≫= fun l => mret (a :: l)
  end.

(** The environment holds the variables [vs], each under a name of its own. *)
Definition store (s : fenv D C) (vs : list (cstr * cstr)) : Prop :=
  exists es, env_ok so sn s es /\ canon es /\ vars es = vs /\ NoDup vs.*1.

Lemma env_ok_errno s es e : env_ok so sn s es -> env_ok so sn (set_errno e s) es.
Proof. intros [? ? ? ? [] ? ? ?]. by split. Qed.

Lemma store_boot d es : powered d -> sector_is (contents flash0 d) es -> canon es -> NoDup (vars es).*1 ->
  wp no_fault (env_invalid stale in_kva0) (fun r s' =>
    r = 0 /\ env_init_state s' = ENVSTATE_OK /\ store s' (vars es)) (fenv_boot d ms).
Proof.
  intros Hd Hes Hc Hu. eapply wp_mono; [by apply boot_wp|]. intros r s' [-> [(es' & Hes' & Hok & Hi & _)|(Hno & _)]].
  - split; [done|]. split; [done|]. exists es. split; [|done].
    assert (es' = es) as -> by (eapply sector_unique; [apply Hes'|apply Hes]). done.
  - by apply Hno in Hes.
Qed.

Lemma run_op_wp s vs o : store s vs -> op_ok o ->
  wp no_fault (run_op o) (fun a s' => (a, (a_op (size - 2) o vs).2) = a_op (size - 2) o vs /\ store s' (a_op (size - 2) o vs).2) s.
Proof.
  intros (es & Hs & Hc & <- & Hu) Ho. pose proof (rec_entries _ _ _ (ok_rec _ _ _ _ Hs)) as Hes. destruct o as [name val ow|name|name| |]; cbn [run_op a_op op_ok] in *; wps.
  - destruct Ho as [Hn Hv]. eapply wp_mono; [by apply (setenv_wp stale in_kva0 so sn Hgeo Hbig name val Hn Hv s es ow)|].
    intros r s' Hr. cbn beta. wps. apply wp_ret. revert Hr. unfold a_set.
    rewrite (canon_used es Hc), (canon_old name es Hn Hes Hc).
    set (old := match a_get name (vars es) with Some v => rec_size name (Some v) | None => 0 end).
    destruct (_ && _). { intros [-> ->]. split; [done|]. by exists es. }
    destruct (255 <=? rec_size name val). { intros [-> ->]. split; [done|]. exists es. split; [by apply env_ok_errno|done]. }
    assert ((size - 2 - used (vars es) + old <? rec_size name val) = (size - 2 <? used (vars es) - old + rec_size name val)) as ->.
    { destruct (Z.ltb_spec (size - 2 - used (vars es) + old) (rec_size name val)); symmetry; [apply Z.ltb_lt|apply Z.ltb_ge]; lia. }
    destruct (_ <? _). { intros [-> ->]. split; [done|]. exists es. split; [by apply env_ok_errno|done]. }
    intros (-> & es' & Hs' & [_ Hg] & Hvs & _). split; [done|]. exists es'. cbn [snd].
    split; [done|]. split; [by apply Hg|]. split; [done|by apply set_unique].
  - eapply wp_mono; [by apply (unsetenv_wp stale in_kva0 so sn Hgeo Hbig s es name)|].
    intros [] s' (es' & Hs' & [_ Hg] & Hvs & _). apply wp_ret. split; [done|]. exists es'. cbn [snd].
    split; [done|]. split; [by apply Hg|]. split; [done|by apply a_del_unique].
  - destruct (getenv_ok stale in_kva0 so sn s es name Hs Ho) as (e & E & _). eapply wp_run; [exact E|].
    apply wp_ret. split; [done|]. exists es. split; [by apply env_ok_errno|done].
  - eapply wp_run; [by apply (mapenv_ok stale in_kva0 so sn s es)|]. apply wp_ret. split; [done|]. by exists es.
  - unfold restart. pose proof (ok_conn _ _ _ _ Hs) as [_ Hd _ _ Hb Hop].
    destruct (power_cycle_ok (fe_dev s) Hd Hop) as [Hp Hpc].
    assert (wp no_fault (env_invalid stale in_kva0) (fun r s' => r = 0 /\ env_init_state s' = ENVSTATE_OK /\ store s' (vars es))
      (fenv_boot (power_cycle (fe_dev s)) ms)) as Hb'.
    { apply store_boot; [done| |done|done]. split; [|apply Hs]. rewrite Hpc, <- (ok_offs _ _ _ _ Hs).
      by rewrite length_area in Hb by apply Hs. }
    unfold wp at 1. revert Hb'. unfold wp at 1, mbind, M_bind.
    destruct (env_invalid stale in_kva0 (fenv_boot (power_cycle (fe_dev s)) ms)) as [[r s']|f]; [|done].
    intros (_ & _ & Hst). split; done.
Qed.

(** C5. The flash environment refines a list of variables. From a state that
    stores [vs], any sequence of calls of [_sbd_setenv], [_sbd_unsetenv],
    [_sbd_getenv] and [_sbd_mapenv] whose names are not empty, printable and
    without an equals sign and whose values are C strings ([op_ok]), and of
    restarts of the machine, ends without a fault; the status, [errno], value or
    list of variables each call gives are those of the abstract store [a_run], and
    the state afterwards stores its variables. The abstract store replaces a value
    (and moves it to the end), refuses a record of 255 bytes or more and one for
    which there would be no room even without the old one, and a restart keeps it.
    The last sector of the chip is not protected and has at least 66 bytes, and
    the flash driver keeps the promises of [FlashDevOk]. Other names break the
    store: [unprintable_name_erases_all], [equals_in_name]. *)
Theorem flashenv_refines s vs os : store s vs -> Forall op_ok os ->
  wp no_fault (run_ops os) (fun l s' =>
    l = (a_run (size - 2) os vs).1 /\ store s' (a_run (size - 2) os vs).2) s.
Proof.
  intros Hs Hos. revert s vs Hs. induction Hos as [|o os Ho _ IH]; intros s vs Hs; cbn [run_ops a_run]; [by apply wp_ret|].
  wps. eapply wp_mono; [by apply (run_op_wp s vs o)|]. intros a s1 [Ha Hs1]. cbn beta. wps.
  destruct (a_op (size - 2) o vs) as [a' vs1]. cbn [snd] in *. injection Ha as ->.
  eapply wp_mono; [by apply IH|]. intros l s2 [-> Hs2]. apply wp_ret.
  by destruct (a_run (size - 2) os vs1) as [l vs2].
Qed.

(** What an operation may have done when it is cut short. *)
Definition between (o : op) (vs vs' : list (cstr * cstr)) : Prop :=
  vs' = vs \/ vs' = (a_op (size - 2) o vs).2 \/
  match o with OSet name _ _ => vs' = a_del name vs | _ => False end.

(** A machine that starts with the flash contents [x] has variables that
    satisfy [P]. *)
Definition recovers (x : mem) (P : list (cstr * cstr) -> Prop) : Prop :=
  forall d, powered d -> contents flash0 d =m= x ->
    wp no_fault (env_invalid stale in_kva0) (fun r s1 => r = 0 /\ env_init_state s1 = ENVSTATE_OK /\
      exists vs, store s1 vs /\ P vs) (fenv_boot d ms).

Lemma held_recovers s s' es (P : list (cstr * cstr) -> Prop) : canon es ->
  held so sn s s' (fun y => exists z, y = area n z /\ good so sn es z /\ P (vars z)) ->
  (forall vs, P vs -> NoDup vs.*1) ->
  forall x, x ∈ past flash0 (fe_dev s') -> x ∈ past flash0 (fe_dev s) \/ recovers x P.
Proof.
  intros Hc Hh Hu x Hx. destruct (Hh x Hx) as [|(z & Hz & [Hzr Hzc] & Hp)]; [by left|right]. intros d Hd Hdx.
  eapply wp_mono; [apply (store_boot d z); [done| |by apply Hzc|by apply Hu]|].
  - split; [by rewrite Hdx|done].
  - intros r s1 (-> & Hi & Hst). split; [done|]. split; [done|]. by exists (vars z).
Qed.

Lemma between_unique o vs vs' : NoDup vs.*1 -> between o vs vs' -> NoDup vs'.*1.
Proof.
  intros Hu [-> |[-> |Hb]]; [done| |].
  - destruct o; cbn [a_op snd]; [|by apply a_del_unique|done..]. unfold a_set.
    repeat case_match; cbn [snd]; first [done|by apply set_unique].
  - destruct o; try done. subst. by apply a_del_unique.
Qed.

(** C6. A power failure loses no other variable. While one of the calls of [op_ok]
    (printable names without an equals sign) runs from a state that stores [vs],
    the flash holds a sequence of contents, one after each byte that is programmed
    and each sector that is erased. When the new record fits behind those that are
    there, so that the area is not compressed, a machine that starts with any of
    these contents finds a valid environment whose variables are those before the
    operation, those after it, or (while a value is replaced) those before it
    without the variable that is being set. Not meant are calls that compress the
    area, which erase the sector first, and a failure in the middle of a byte or
    of an erasure ([half_programmed_name] is such a byte, which makes the whole
    environment unreadable). *)
Theorem flashenv_power_failure s vs o : store s vs -> op_ok o -> o <> ORestart ->
  match o with OSet name val _ => 2 + envsize s + rec_size name val <= size | _ => True end ->
  wp no_fault (run_op o) (fun _ s' =>
    forall x, x ∈ past flash0 (fe_dev s') -> x ∈ past flash0 (fe_dev s) \/ recovers x (between o vs)) s.
Proof.
  intros (es & Hs & Hc & <- & Hu) Ho Hre Hfit.
  assert (forall s', held so sn s s' (fun y => exists z, y = area n z /\ good so sn es z /\ between o (vars es) (vars z)) ->
    forall x, x ∈ past flash0 (fe_dev s') -> x ∈ past flash0 (fe_dev s) \/ recovers x (between o (vars es))) as Hheld.
  { intros s' Hh. apply (held_recovers s s' es); [done|done|]. intros vs. by apply between_unique. }
  pose proof (rec_entries _ _ _ (ok_rec _ _ _ _ Hs)) as Hes.
  destruct o as [name val ow|name|name| |]; cbn [run_op op_ok] in *; wps; [| | | |done].
  - destruct Ho as [Hn Hv]. eapply wp_mono; [by apply (setenv_wp stale in_kva0 so sn Hgeo Hbig name val Hn Hv s es ow)|].
    intros r s' Hr. cbn beta. wps. apply wp_ret, Hheld. revert Hr.
    destruct (bool_decide _ && _) eqn:E1; [intros [_ ->]; exact (held_refl so sn s _)|].
    destruct (255 <=? rec_size name val) eqn:E2; [intros [_ ->]; exact (held_refl so sn s _)|].
    destruct (_ <? _) eqn:E3; [intros [_ ->]; exact (held_refl so sn s _)|].
    intros (_ & es' & _ & _ & _ & Hh). eapply held_weaken; [by apply Hh|].
    intros y (z & Hy & Hg & Hz). exists z. split; [done|]. split; [done|].
    destruct Hz as [Hz|[Hz|Hz]]; [by left|by right; right|right; left]. rewrite Hz. cbn [a_op]. unfold a_set.
    rewrite E1, E2. rewrite (canon_used es Hc), (canon_old name es Hn Hes Hc) in E3.
    destruct (size - 2 <? _) eqn:E4; [|done]. apply Z.ltb_ge in E3. apply Z.ltb_lt in E4. lia.
  - eapply wp_mono; [by apply (unsetenv_wp stale in_kva0 so sn Hgeo Hbig s es name)|].
    intros [] s' (es' & _ & _ & _ & Hh). apply wp_ret, Hheld. eapply held_weaken; [exact Hh|].
    intros y (z & Hy & Hg & [Hz|Hz]); exists z; (split; [done|]; split; [done|]); [by left|by right; left].
  - destruct (getenv_ok stale in_kva0 so sn s es name Hs Ho) as (e & E & _). eapply wp_run; [exact E|].
    apply wp_ret, Hheld. exact (held_refl so sn s _).
  - eapply wp_run; [by apply (mapenv_ok stale in_kva0 so sn s es)|]. apply wp_ret, Hheld. exact (held_refl so sn s _).
Qed.

(** C30. The start of the environment, on a chip with any contents, ends without
    a fault. If the sector holds a well-formed list of records, the state is
    [ENVSTATE_OK], the records are those of the sector, and the flash is not
    changed; otherwise the sector is erased and marked again, the environment is
    empty, and the state says that the sector was never initialised or could not
    be recovered. *)
Theorem flashenv_start d : powered d ->
  wp no_fault (env_invalid stale in_kva0) (fun r s' => r = 0 /\
    ((exists es, sector_is (contents flash0 d) es /\ env_ok so sn s' es /\ env_init_state s' = ENVSTATE_OK /\
        contents flash0 (fe_dev s') =m= contents flash0 d) \/
     ((forall es, ~ sector_is (contents flash0 d) es) /\ store s' [] /\
        (env_init_state s' = ENVSTATE_UNINITIALISED \/ env_init_state s' = ENVSTATE_UNRECOVERABLE))))
    (fenv_boot d ms).
Proof.
  intros Hd. eapply wp_mono; [by apply boot_wp|]. intros r s' [-> [H|(Hno & Hok & Hi)]]; (split; [done|]); [by left|right].
  split; [done|]. split; [|done]. exists []. split; [done|]. split; [by constructor|]. split; [done|]. apply NoDup_nil_2.
Qed.

End Boot.
