(* ===== verification/Sbdfrom.v ===== *)
(** * Sbdfrom: the flash chips of the P-5064

    [src/pmon/p5064/sbdfrom.c], the driver behind [FlashDev], and
    [src/pmon/p5064/flash.c], the command that programs the flash. The chips are
    reached by single byte accesses to two windows of physical addresses: one
    for programming, which shows the chip as it is, and one for reading, where
    the board swaps the bytes of a word when the processor is big-endian. The
    class [FlashBus] is the machine: the accesses, the heap, the contents of the
    chip; every write records the contents it leaves ([f_past]).

    The routines that [SAFEROUTINE] wraps are copied to the heap the first time
    they are called; the cache operations have no counterpart. *)

From S2P Require Import Prelude Comp Flashdev.

(** [src/pmon/p5064/sbd.h:55] *)
Definition BOOTPROM_BASE : Z := 0x1fc00000.
(** [src/pmon/p5064/sbd.h:56] *)
Definition EPROM_BASE : Z := 0x1fd00000.
(** [src/pmon/p5064/sbd.h:60] *)
Definition PROGRAM_OFFS : Z := 0x00400000.

(** [src/pmon/p5064/from.h:9-16] *)
Definition UNLOCK1_4Mb_OFFS : Z := 0xaaaa.
Definition UNLOCK1_8Mb_OFFS : Z := 0x5555.
Definition UNLOCK1_DATA : Z := 0xaa.
Definition UNLOCK2_4Mb_OFFS : Z := 0x5555.
Definition UNLOCK2_8Mb_OFFS : Z := 0x2aaa.
Definition UNLOCK2_DATA : Z := 0x55.

(** [src/pmon/p5064/from.h:19-24] *)
Definition FROM_RESET : Z := 0xf0.
Definition FROM_AUTOSELECT : Z := 0x90.
Definition FROM_PROGRAM : Z := 0xa0.
Definition FROM_ERASE : Z := 0x80.
Definition FROM_ERASECHIP : Z := 0x10.
Definition FROM_ERASESECT : Z := 0x30.

(** [src/pmon/p5064/from.h:27-30] *)
Definition MAN_AMD : Z := 0x01.
Definition MAN_FUJITSU : Z := 0x04.
Definition MAN_MICRON : Z := 0x2c.
Definition MAN_INTEL : Z := 0x89.

(** [src/pmon/p5064/from.h:33] *)
Definition DQPOLL : Z := 0x80.
(** [src/pmon/p5064/from.h:35] *)
Definition DQTIMEEXCEEDED : Z := 0x20.
(** [src/pmon/p5064/from.h:40] *)
Definition FROMMAXSECTORS : nat := 19.

(** [src/pmon/p5064/sbdfrom.c:47] *)
Inductive bootsects : Type := FBNONE | FBTOP | FBBOT.

#[export] Instance bootsects_eq_dec : EqDecision bootsects.
Proof. solve_decision. Defined.

(** [src/pmon/p5064/sbdfrom.c:49-58] *)
Record mandevinfo : Type := {
  md_name : string;
  md_man : Z;
  md_dev : Z;
  md_size : Z;
  md_boot : bootsects;
  md_secsize : Z;
  unlock1_offs : Z;
  unlock2_offs : Z
}.

Definition md_4Mb name man dev boot : mandevinfo :=
  Build_mandevinfo name man dev 0x080000 boot 0x10000 UNLOCK1_4Mb_OFFS UNLOCK2_4Mb_OFFS.
Definition md_8Mb name man dev boot : mandevinfo :=
  Build_mandevinfo name man dev 0x100000 boot 0x10000 UNLOCK1_8Mb_OFFS UNLOCK2_8Mb_OFFS.

(** The table, without its end mark.
    [src/pmon/p5064/sbdfrom.c:58-86] *)
Definition mandevs : list mandevinfo :=
  [ md_4Mb "Am29F400T" MAN_AMD 0x23 FBTOP;
    md_4Mb "Am29F400B" MAN_AMD 0xab FBBOT;
    md_4Mb "Fujitsu 29F400-T" MAN_FUJITSU 0x23 FBTOP;
    md_4Mb "Fujitsu 29F400-B" MAN_FUJITSU 0xab FBBOT;
    md_4Mb "Micron MT28LF400T" MAN_MICRON 0x30 FBTOP;
    md_4Mb "Micron MT28LF400B" MAN_MICRON 0x31 FBBOT;
    md_4Mb "Intel 28F400-T" MAN_INTEL 0x70 FBTOP;
    md_4Mb "Intel 28F400-B" MAN_INTEL 0x71 FBBOT;
    md_8Mb "Am29F080" MAN_AMD 0xd5 FBNONE;
    md_8Mb "Fujitsu 29F080" MAN_FUJITSU 0xd5 FBNONE ].

(** [src/pmon/p5064/flashdev.h:13-19] *)
Record flashcookie : Type := { ck_base : Z; ck_size : Z; ck_unit : Z }.

(** The places of the flash chips; the [data] of a cookie is in the state.
    [src/pmon/p5064/sbdfrom.c:97-105] *)
Definition cookies : list flashcookie :=
  [ Build_flashcookie BOOTPROM_BASE 0x100000 1;
    Build_flashcookie FLASH_BASE 0x100000 1;
    Build_flashcookie EPROM_BASE 0x080000 1 ].

(** [src/pmon/p5064/sbdfrom.c:89] *)
Definition PROGRAM_BASE (cp : flashcookie) : Z := ck_base cp - PROGRAM_OFFS.
(** [src/pmon/p5064/sbdfrom.c:90] *)
Definition READ_BASE (cp : flashcookie) : Z := ck_base cp.

(** The routines that are copied before they are called. *)
Inductive routine : Type := Autoselect | EraseDevice | EraseSector | ReallyProgram.

#[export] Instance routine_eq_dec : EqDecision routine.
Proof. solve_decision. Defined.

(** The machine: byte reads and writes of physical addresses, the heap, the
    sizes of the compiled routines, and the bytes the chips hold by the
    addresses of the programming window. *)
Class FlashBus (B : Type) : Type := {
  pread8 : Z -> B -> Z * B;
  pwrite8 : Z -> Z -> B -> B;
  malloc_ok : Z -> B -> bool * B;
  codesize : routine -> Z;
  cells : B -> mem
}.

(** The machine, the [data] of the cookies, the routines that have been copied,
    and the contents the chips have held. *)
Record from {B : Type} : Type := {
  f_bus : B;
  f_data : list (option mandevinfo);
  f_fns : list routine;
  f_past : list mem
}.
Arguments from : clear implicits.

Section From.
Context {B : Type} `{FB : FlashBus B}.
(** The byte order of the processor, the number of times a chip is polled before
    it counts as hung, and what uninitialised bytes hold. *)
Variables (big_endian : bool) (polls : nat) (stale : Z).

Abbreviation MR := (M (from B)).

Definition set_bus b (s : from B) : from B := Build_from B b (f_data s) (f_fns s) (f_past s).
Definition set_data i md (s : from B) : from B := Build_from B (f_bus s) (<[i := Some md]> (f_data s)) (f_fns s) (f_past s).
Definition add_fn r (s : from B) : from B := Build_from B (f_bus s) (f_data s) (r :: f_fns s) (f_past s).

Definition rd8 (a : Z) : MR Z := fun s =>
  let '(v, b) := pread8 a (f_bus s) in Ok (v, set_bus b s).
Definition wr8 (a v : Z) : MR unit := fun s =>
  let b := pwrite8 a v (f_bus s) in Ok (tt, Build_from B b (f_data s) (f_fns s) (f_past s ++ [cells b])).
Definition malloc (n : Z) : MR bool := fun s =>
  let '(ok, b) := malloc_ok n (f_bus s) in Ok (ok, set_bus b s).

(** The device information behind a cookie. *)
Definition md_of (cp : nat) : MR mandevinfo := gets f_data ≫= fun l => need (l !! cp ≫= id).
Definition ck_of (cp : nat) : MR flashcookie := need (cookies !! cp).

(** A routine is copied to the heap when it is called for the first time.
    [src/pmon/p5064/sbdfrom.c:111-123] *)
Definition safe {A} (r : routine) (nomem : A) (m : MR A) : MR A :=
  gets f_fns ≫= fun l =>
  if bool_decide (r ∈ l) then m
  else
    malloc (codesize r) ≫= fun ok : bool =>
    if ok then modify (add_fn r) ≫= fun _ => m else mret nomem.

(** [src/pmon/p5064/sbdfrom.c:131-136] *)
Definition fromunlock (base : Z) (md : mandevinfo) : MR unit :=
  wr8 (base + unlock1_offs md) UNLOCK1_DATA ≫= fun _ =>
  wr8 (base + unlock2_offs md) UNLOCK2_DATA.

(** [src/pmon/p5064/sbdfrom.c:139-145] *)
Definition fromcmd (base : Z) (md : mandevinfo) (cmd : Z) : MR unit :=
  wr8 (base + unlock1_offs md) UNLOCK1_DATA ≫= fun _ =>
  wr8 (base + unlock2_offs md) UNLOCK2_DATA ≫= fun _ =>
  wr8 (base + unlock1_offs md) cmd.

(** [src/pmon/p5064/sbdfrom.c:148-167] *)
Fixpoint frompoll (n : nat) (fp expect : Z) : MR Z :=
  match n with
  | O => fail Hung
  | S n' =>
    rd8 fp ≫= fun poll =>
    if Z.land (Z.lxor poll expect) DQPOLL =? 0 then mret FLASHDEV_OK
    else if negb (Z.land poll DQTIMEEXCEEDED =? 0) then
      rd8 fp ≫= fun poll =>
      if Z.land (Z.lxor poll expect) DQPOLL =? 0 then mret FLASHDEV_OK
      else
        wr8 fp FROM_RESET ≫= fun _ =>
        rd8 fp ≫= fun _ =>
        mret FLASHDEV_FATAL
    else frompoll n' fp expect
  end.

(** The protection of a sector and, when they are asked for, the codes of the
    manufacturer and the device.
    [src/pmon/p5064/sbdfrom.c:170-191] *)
Definition _fromautoselect (cp : flashcookie) (md : mandevinfo) (offs : Z) (ids : bool) : MR (Z * (Z * Z)) :=
  let fp := PROGRAM_BASE cp in
  fromcmd fp md FROM_AUTOSELECT ≫= fun _ =>
  (if ids then rd8 fp ≫= fun man => rd8 (fp + 1) ≫= fun dev => mret (man, dev)
   else mret (stale, stale)) ≫= fun id =>
  rd8 (fp + offs + 2) ≫= fun p =>
  wr8 fp FROM_RESET ≫= fun _ =>
  rd8 fp ≫= fun _ =>
  mret (Z.land p 1, id).

(** [src/pmon/p5064/sbdfrom.c:194-197] *)
Definition fromautoselect (cp : flashcookie) (md : mandevinfo) (offs : Z) (ids : bool) : MR (Z * (Z * Z)) :=
  safe Autoselect (FLASHDEV_NOMEM, (stale, stale)) (_fromautoselect cp md offs ids).

(** The scan of the table of device types.
    [src/pmon/p5064/sbdfrom.c:223-238] *)
Fixpoint scan_types (cp : flashcookie) (l : list mandevinfo) : MR (option mandevinfo) :=
  match l with
  | [] => mret None
  | md :: l' =>
    fromautoselect cp md 0 true ≫= fun '((_, (man, dev)) : Z * (Z * Z)) =>
    rd8 (PROGRAM_BASE cp) ≫= fun b0 =>
    (if man =? b0 then rd8 (PROGRAM_BASE cp + 1) ≫= fun b1 => mret (dev =? b1) else mret false) ≫= fun eprom : bool =>
    if eprom then scan_types cp l'
    else if (md_man md =? man) && (md_dev md =? dev) then mret (Some md)
    else scan_types cp l'
  end.

(** The index of the cookie whose addresses hold [devaddr].
    [src/pmon/p5064/sbdfrom.c:207-213] *)
Definition find_cookie (devaddr : Z) : option nat :=
  fst <$> list_find (fun cp => READ_BASE cp <= devaddr < READ_BASE cp + ck_size cp) cookies.

(** [src/pmon/p5064/sbdfrom.c:201-245] *)
Definition _sbd_flashopen (devaddr : Z) : MR (option nat) :=
  match find_cookie devaddr with
  | None => mret None
  | Some i =>
    ck_of i ≫= fun cp =>
    gets f_data ≫= fun l =>
    match l !! i ≫= id with
    | Some _ => mret (Some i)
    | None =>
      scan_types cp mandevs ≫= fun r =>
      match r with
      | None => mret None
      | Some md => modify (set_data i md) ≫= fun _ => mret (Some i)
      end
    end
  end.

(** The boot sectors from the top of the chip.
    [src/pmon/p5064/sbdfrom.c:270-285] *)
Fixpoint top_sector (secs : list Z) (md : mandevinfo) (offs soffs : Z) : Z * Z :=
  match secs with
  | [] => (u32 (md_size md - md_secsize md), soffs)
  | ssize :: secs' =>
    let soffs := u32 (soffs - ssize) in
    if soffs <? offs then (soffs, ssize) else top_sector secs' md offs soffs
  end.

(** The boot sectors from the bottom.
    [src/pmon/p5064/sbdfrom.c:289-298] *)
Fixpoint bot_sector (secs : list Z) (md : mandevinfo) (offs soffs : Z) : Z * Z :=
  match secs with
  | [] => (soffs, md_secsize md - soffs)
  | ssize :: secs' => if offs <? soffs + ssize then (soffs, ssize) else bot_sector secs' md offs (soffs + ssize)
  end.

(** The base and the size of the sector of an offset.
    [src/pmon/p5064/sbdfrom.c:258-304] *)
Definition sector_of (md : mandevinfo) (offs : Z) : Z * Z :=
  let bootsecs := [0x4000; 0x2000; 0x2000] in
  if md_size md <=? offs then (0, 0)
  else if bool_decide (md_boot md = FBTOP) && (md_size md - md_secsize md <=? offs) then
    top_sector bootsecs md offs (md_size md)
  else if bool_decide (md_boot md = FBBOT) && (offs <? md_secsize md) then
    bot_sector bootsecs md offs 0
  else (Z.land offs (Z.lnot (md_secsize md - 1)), md_secsize md).

(** The protection, the base and the size.
    [src/pmon/p5064/sbdfrom.c:254-314] *)
Definition findsector (cp : nat) (offs : Z) : MR (Z * (Z * Z)) :=
  md_of cp ≫= fun md =>
  let '(soffs, ssize) := sector_of md offs in
  if ssize =? 0 then mret (1, (soffs, ssize))
  else
    ck_of cp ≫= fun c =>
    fromautoselect c md soffs false ≫= fun r =>
    mret (r.1, (soffs, ssize)).

(** [src/pmon/p5064/sbdfrom.c:317-336] *)
Definition frominfo (cp : nat) (offs : Z) : MR (Z * flashinfo) :=
  md_of cp ≫= fun md =>
  ck_of cp ≫= fun c =>
  findsector cp offs ≫= fun '((sprot, (soffs, ssize)) : Z * (Z * Z)) =>
  mret (FLASHDEV_OK,
        {| fi_name := md_name md; fi_base := ck_base c; fi_size := md_size md; fi_mapbase := ck_base c;
           fi_unit := ck_unit c; fi_maxssize := md_secsize md;
           fi_soffs := soffs; fi_ssize := ssize; fi_sprot := sprot |}).

(** [src/pmon/p5064/sbdfrom.c:346-355] *)
Definition _fromerasedevice (cp : nat) : MR Z :=
  md_of cp ≫= fun md => ck_of cp ≫= fun c =>
  let fp := PROGRAM_BASE c in
  fromcmd fp md FROM_ERASE ≫= fun _ =>
  fromcmd fp md FROM_ERASECHIP ≫= fun _ =>
  frompoll polls fp 0xff.

(** [src/pmon/p5064/sbdfrom.c:357-359] *)
Definition fromerasedevice (cp : nat) : MR Z := safe EraseDevice FLASHDEV_NOMEM (_fromerasedevice cp).

(** The cycles that erase the sector of an address. *)
Definition erase_at (fp : Z) (md : mandevinfo) (sp : Z) : MR Z :=
  fromcmd fp md FROM_ERASE ≫= fun _ =>
  fromunlock fp md ≫= fun _ =>
  wr8 sp FROM_ERASESECT ≫= fun _ =>
  frompoll polls sp 0xff.

(** [src/pmon/p5064/sbdfrom.c:362-376] *)
Definition _fromerasesector (cp : nat) (secoffset : Z) : MR Z :=
  md_of cp ≫= fun md => ck_of cp ≫= fun c =>
  let fp := PROGRAM_BASE c in
  if md_size md <=? secoffset then mret FLASHDEV_FAIL
  else erase_at fp md (fp + secoffset).

(** [src/pmon/p5064/sbdfrom.c:378-380] *)
Definition fromerasesector (cp : nat) (secoffset : Z) : MR Z :=
  safe EraseSector FLASHDEV_NOMEM (_fromerasesector cp secoffset).

(** Reads of [n] bytes, each at the address [addr] gives. *)
Fixpoint read_bytes (addr : Z -> Z) (n : nat) (o : Z) : MR (list Z) :=
  match n with
  | O => mret []
  | S n' => rd8 (addr o) ≫= fun b => read_bytes addr n' (o + 1) ≫= fun l => mret (b :: l)
  end.

Definition bit (flags mask : Z) : bool := negb (Z.land flags mask =? 0).

(** [src/pmon/p5064/sbdfrom.c:400-410] *)
Definition read_swap (flags : Z) : bool :=
  if big_endian then bit flags FLASHDEV_READ_STREAM || negb (bit flags FLASHDEV_READ_CODE_EB)
  else bit flags FLASHDEV_READ_CODE_EB.

(** [src/pmon/p5064/sbdfrom.c:383-422] *)
Definition fromreadbytes (cp : nat) (offs : Z) (buf : list Z) (flags : Z) : MR (Z * list Z) :=
  md_of cp ≫= fun md => ck_of cp ≫= fun c =>
  if md_size md <? u32 (offs + Z.of_nat (length buf)) then mret (FLASHDEV_FAIL, buf)
  else
    let dp := READ_BASE c in
    let addr o := if read_swap flags then dp + Z.lxor o 3 else dp + o in
    read_bytes addr (length buf) offs ≫= fun l => mret (FLASHDEV_OK, l).

(** [src/pmon/p5064/sbdfrom.c:428-434] *)
Record flashvec : Type := { v_offs : Z; v_mem : list Z; v_erase : bool; v_scratch : bool }.

(** Where a byte of the programming window goes.
    [src/pmon/p5064/sbdfrom.c:468-476] *)
Definition prog_offs (flags o : Z) : Z := if bit flags FLASHDEV_PROG_CODE_EB then Z.lxor o 3 else o.

(** The loop over the bytes of one vector.
    [src/pmon/p5064/sbdfrom.c:466-485] *)
Fixpoint program_loop (fp : Z) (md : mandevinfo) (flags o status : Z) (mem : list Z) : MR Z :=
  match mem with
  | [] => mret status
  | b :: mem' =>
    let sp := fp + prog_offs flags o in
    rd8 sp ≫= fun x =>
    (if negb (x =? b) then
       fromcmd fp md FROM_PROGRAM ≫= fun _ =>
       wr8 sp b ≫= fun _ =>
       frompoll polls sp b ≫= fun stat =>
       mret (if stat =? FLASHDEV_OK then status else stat)
     else mret status) ≫= fun status =>
    program_loop fp md flags (o + 1) status mem'
  end.

(** [src/pmon/p5064/sbdfrom.c:449-491] *)
Fixpoint vec_loop (fp : Z) (md : mandevinfo) (flags status : Z) (vs : list flashvec) : MR Z :=
  match vs with
  | [] => mret status
  | v :: vs' =>
    (if v_erase v then
       erase_at fp md (fp + v_offs v) ≫= fun stat =>
       mret (if stat =? FLASHDEV_OK then status else stat)
     else mret status) ≫= fun status =>
    program_loop fp md flags (v_offs v) status (v_mem v) ≫= fun status =>
    vec_loop fp md flags status vs'
  end.

(** [src/pmon/p5064/sbdfrom.c:437-498] *)
Definition _reallyprogrambytes (cp : nat) (vs : list flashvec) (flags : Z) : MR Z :=
  md_of cp ≫= fun md => ck_of cp ≫= fun c =>
  vec_loop (PROGRAM_BASE c) md flags FLASHDEV_OK vs ≫= fun status =>
  if bit flags FLASHDEV_PROG_REBOOT then fail Jumped else mret status.

(** [src/pmon/p5064/sbdfrom.c:501-503] *)
Definition reallyprogrambytes (cp : nat) (vs : list flashvec) (flags : Z) : MR Z :=
  safe ReallyProgram FLASHDEV_NOMEM (_reallyprogrambytes cp vs flags).

(** Whether a byte of the sector would have to be set: the address is formed
    from the base of the stretch and the munged index.
    [src/pmon/p5064/sbdfrom.c:562-579] *)
Fixpoint needs_erase (fp flags i : Z) (mem : list Z) : MR bool :=
  match mem with
  | [] => mret false
  | b :: mem' =>
    rd8 (fp + (if bit flags FLASHDEV_PROG_CODE_EB then Z.lxor i 3 else i)) ≫= fun x =>
    if negb (Z.land b (Z.lnot x) =? 0) then mret true else needs_erase fp flags (i + 1) mem'
  end.

(** The vector of the sector of [o], and how many bytes it takes; a status when it
    cannot be built.
    [src/pmon/p5064/sbdfrom.c:533-599] *)
Definition build_one (cp : nat) (flags o : Z) (mem : list Z) (nv : nat) : MR (Z + flashvec * nat) :=
  ck_of cp ≫= fun c =>
  findsector cp o ≫= fun '((prot, (soffs, ssize)) : Z * (Z * Z)) =>
  if negb (prot =? 0) then mret (inl FLASHDEV_PROTECTED)
  else
    let n := Z.to_nat (Z.min (u32 (ssize - (o - soffs))) (Z.of_nat (length mem))) in
    if (FROMMAXSECTORS <=? nv)%nat then fail OutOfBounds
    else
      needs_erase (PROGRAM_BASE c + o) flags 0 (take n mem) ≫= fun erase : bool =>
      if erase && negb (Z.of_nat n =? ssize) then
        if negb (bit flags FLASHDEV_PROG_MERGE) then mret (inl FLASHDEV_PARTIAL)
        else
          malloc ssize ≫= fun ok : bool =>
          if negb ok then mret (inl FLASHDEV_NOMEM)
          else
            fromreadbytes cp soffs (replicate (Z.to_nat ssize) stale) flags ≫= fun '((_, sbuf) : Z * list Z) =>
            let k := Z.to_nat (o - soffs) in
            mret (inr ({| v_offs := soffs; v_mem := take k sbuf ++ take n mem ++ drop (k + n) sbuf;
                          v_erase := erase; v_scratch := true |}, n))
      else mret (inr ({| v_offs := o; v_mem := take n mem; v_erase := erase; v_scratch := false |}, n)).

(** The programming vector. The array has [FROMMAXSECTORS] elements.
    [src/pmon/p5064/sbdfrom.c:527-606] *)
Fixpoint build_vec (fuel : nat) (cp : nat) (flags o : Z) (mem : list Z) (vs : list flashvec) : MR (Z + list flashvec) :=
  match mem with
  | [] => mret (inr vs)
  | _ =>
    match fuel with
    | O => fail OutOfFuel
    | S fuel =>
      build_one cp flags o mem (length vs) ≫= fun r =>
      match r with
      | inl e => mret (inl e)
      | inr (v, n) => build_vec fuel cp flags (o + Z.of_nat n) (drop n mem) (vs ++ [v])
      end
    end
  end.

(** [src/pmon/p5064/sbdfrom.c:506-621] *)
Definition fromprogrambytes (cp : nat) (offs : Z) (mem : option (list Z)) (flags : Z) : MR Z :=
  md_of cp ≫= fun md =>
  let bs := default [] mem in
  if md_size md <? u32 (offs + Z.of_nat (length bs)) then mret FLASHDEV_FAIL
  else if bool_decide (bs = []) then mret FLASHDEV_OK
  else
    build_vec (S FROMMAXSECTORS) cp flags offs bs [] ≫= fun r =>
    match r with
    | inl e => mret e
    | inr vs => reallyprogrambytes cp vs flags
    end.

(** The vector of functions.
    [src/pmon/p5064/sbdfrom.c:38-44] *)
#[global] Instance flashdev : FlashDev (from B) nat := {
  flash_open := _sbd_flashopen;
  flash_info := frominfo;
  flash_erasesector := fromerasesector;
  flash_programbytes := fromprogrambytes;
  flash_readbytes := fromreadbytes
}.

End From.
