(* ===== verification/SbdfromOk.v ===== *)
(** * SbdfromOk: the flash driver keeps its promises

    [AmdChip] is the behaviour of the 8 Mbit chips of the table as their data
    sheets document it: the command cycles, the identification, the programming
    and erasing operations and how their end is polled. Against it the driver is
    proved to implement [FlashDevOk], and to program any bytes in sectors of 64 KB
    that are not protected. *)

From S2P Require Import Prelude Comp Flashdev Sbdfrom.

(** ** The chip *)

(** The states of the command register. [CBusy n a v]: an operation that ends
    within [n] polls, and whose data polling is at [a] and expects [v]. *)
Inductive cmode : Type :=
| CIdle | CUnlock1 | CUnlock2 | CIdent | CArmed | CErase | CErase1 | CErase2
| CBusy (n : nat) (a v : Z).

(** The write cycles that only change the command register: the offset, the data.
    The unlock cycles of the 4 Mbit chips are none of this chip's. *)
Inductive cycle : cmode -> Z -> Z -> cmode -> Prop :=
| cyc_unlock1 : cycle CIdle UNLOCK1_8Mb_OFFS UNLOCK1_DATA CUnlock1
| cyc_unlock2 : cycle CUnlock1 UNLOCK2_8Mb_OFFS UNLOCK2_DATA CUnlock2
| cyc_ident : cycle CUnlock2 UNLOCK1_8Mb_OFFS FROM_AUTOSELECT CIdent
| cyc_program : cycle CUnlock2 UNLOCK1_8Mb_OFFS FROM_PROGRAM CArmed
| cyc_erase : cycle CUnlock2 UNLOCK1_8Mb_OFFS FROM_ERASE CErase
| cyc_erase1 : cycle CErase UNLOCK1_8Mb_OFFS UNLOCK1_DATA CErase1
| cyc_erase2 : cycle CErase1 UNLOCK2_8Mb_OFFS UNLOCK2_DATA CErase2
| cyc_reset m : m = CIdent \/ m = CIdle -> cycle m 0 FROM_RESET CIdle
| cyc_alien1 : cycle CIdle UNLOCK1_4Mb_OFFS UNLOCK1_DATA CIdle
| cyc_alien2 : cycle CIdle UNLOCK2_4Mb_OFFS UNLOCK2_DATA CIdle
| cyc_alien3 : cycle CIdle UNLOCK1_4Mb_OFFS FROM_AUTOSELECT CIdle.

Definition PB : Z := FLASH_BASE - PROGRAM_OFFS.
Definition chip_size : Z := 0x100000.
(** The sector of an offset: sixteen of 64 Kbyte. *)
Definition sec (o : Z) : Z := o / 0x10000 * 0x10000.

Class AmdChip (B : Type) `{FB : FlashBus B} (big : bool) (polls : nat) (md : mandevinfo) : Type := {
  chip_md : md ∈ drop 8 mandevs;
  in_mode : cmode -> B -> Prop;
  protect : Z -> Z;
  bus_reset : B -> B;
  protect_bit so : protect so = 0 \/ protect so = 1;
  cell_byte m b a : in_mode m b -> byte_ok (cells b a);
  chip_cycle m o v m' b : cycle m o v m' -> in_mode m b ->
    in_mode m' (pwrite8 (PB + o) v b) /\ cells (pwrite8 (PB + o) v b) =m= cells b;
  chip_read o b : in_mode CIdle b -> 0 <= o < chip_size ->
    pread8 (PB + o) b = (cells b (PB + o), b) /\
    pread8 (FLASH_BASE + o) b = (cells b (PB + (if big then Z.lxor o 3 else o)), b);
  chip_man b : in_mode CIdent b -> pread8 PB b = (md_man md, b);
  chip_dev b : in_mode CIdent b -> pread8 (PB + 1) b = (md_dev md, b);
  chip_protect o b : in_mode CIdent b -> 0 <= o < chip_size -> o = sec o ->
    exists x, pread8 (PB + o + 2) b = (x, b) /\ Z.land x 1 = protect o;
  chip_program o v b : in_mode CArmed b -> 0 <= o < chip_size -> protect (sec o) = 0 -> byte_ok v ->
    clears (cells b (PB + o)) v ->
    exists n, (n < polls)%nat /\ in_mode (CBusy n (PB + o) v) (pwrite8 (PB + o) v b) /\
      cells (pwrite8 (PB + o) v b) =m= upd (cells b) (PB + o) v;
  chip_erase o b : in_mode CErase2 b -> 0 <= o < chip_size -> protect (sec o) = 0 ->
    exists n, (n < polls)%nat /\ in_mode (CBusy n (PB + o) 0xff) (pwrite8 (PB + o) FROM_ERASESECT b) /\
      cells (pwrite8 (PB + o) FROM_ERASESECT b) =m= wipe (cells b) (PB + sec o) 0x10000;
  chip_poll n a v b : in_mode (CBusy n a v) b -> exists x b', pread8 a b = (x, b') /\ cells b' =m= cells b /\
    (Z.land (Z.lxor x v) DQPOLL = 0 /\ in_mode CIdle b' \/
     Z.land (Z.lxor x v) DQPOLL <> 0 /\ Z.land x DQTIMEEXCEEDED = 0 /\ exists n', n = S n' /\ in_mode (CBusy n' a v) b');
  heap_ok k b : in_mode CIdle b -> exists b', malloc_ok k b = (true, b') /\ in_mode CIdle b' /\ cells b' =m= cells b;
  reset_ok m b : in_mode m b -> in_mode CIdle (bus_reset b) /\ cells (bus_reset b) =m= cells b
}.

(** ** The byte order *)

Lemma lxor3 o : Z.lxor o 3 = o / 4 * 4 + (3 - o mod 4).
Proof.
  assert (forall q r, 0 <= r < 4 -> Z.lxor (q * 4 + r) 3 = q * 4 + (3 - r)) as H.
  { intros q r Hr. change 4 with (2 ^ 2) at 1 2. rewrite <- (Z.shiftl_mul_pow2 q 2) by lia.
    assert (forall x, 0 <= x < 4 -> Z.land (Z.shiftl q 2) x = 0) as Hl.
    { intros x Hx. apply Z.bits_inj'. intros i Hi. rewrite Z.land_spec, Z.bits_0. destruct (Z.lt_ge_cases i 2).
      - by rewrite Z.shiftl_spec_low.
      - rewrite <- (Z.mod_small x (2 ^ 2)) by lia. rewrite Z.mod_pow2_bits_high by lia. apply andb_false_r. }
    rewrite (Z.add_nocarry_lxor _ r), Z.lxor_assoc by auto.
    assert (Z.lxor r 3 = 3 - r) as ->.
    { assert (r = 0 \/ r = 1 \/ r = 2 \/ r = 3) as [-> |[-> |[-> | ->]]] by lia; done. }
    by rewrite <- Z.add_nocarry_lxor by (apply Hl; lia). }
  rewrite <- (H (o / 4) (o mod 4)) by (apply Z.mod_pos_bound; lia). f_equal. pose proof (Z.div_mod o 4). lia.
Qed.

Lemma prog_offs_invol f o : prog_offs f (prog_offs f o) = o.
Proof. unfold prog_offs. destruct (bit f _); [|done]. rewrite Z.lxor_assoc, Z.lxor_nilpotent. apply Z.lxor_0_r. Qed.

(** An aligned stretch maps to itself. *)
Lemma prog_offs_range f o lo hi : lo mod 4 = 0 -> hi mod 4 = 0 -> lo <= prog_offs f o < hi <-> lo <= o < hi.
Proof.
  intros Hl Hh. unfold prog_offs. destruct (bit f _); [|done]. rewrite lxor3. Z.div_mod_to_equations. lia.
Qed.

Lemma prog_offs_add f o i : (bit f FLASHDEV_PROG_CODE_EB = true -> o mod 4 = 0) ->
  o + (if bit f FLASHDEV_PROG_CODE_EB then Z.lxor i 3 else i) = prog_offs f (o + i).
Proof.
  unfold prog_offs. destruct (bit f _); [|done]. intros H. specialize (H eq_refl). rewrite !lxor3.
  Z.div_mod_to_equations. lia.
Qed.

(** The contents in the order of the bytes given to the driver. *)
Definition view (f : Z) (m : mem) : mem := fun o => m (prog_offs f o).

#[export] Instance view_proper : Proper (eq ==> mem_eq ==> mem_eq) view.
Proof. intros f ? <- m m' Hm o. apply Hm. Qed.

Lemma view_upd f m o b : view f (upd m (prog_offs f o) b) =m= upd (view f m) o b.
Proof.
  intros a. unfold view, upd. destruct (Z.eqb_spec a o) as [->|Hne]; [by rewrite Z.eqb_refl|].
  destruct (Z.eqb_spec (prog_offs f a) (prog_offs f o)) as [E|]; [|done].
  apply (f_equal (prog_offs f)) in E. by rewrite !prog_offs_invol in E.
Qed.

Lemma view_wipe f m so sn : so mod 4 = 0 -> (so + sn) mod 4 = 0 -> view f (wipe m so sn) =m= wipe (view f m) so sn.
Proof.
  intros H1 H2 a. unfold view, wipe. pose proof (prog_offs_range f a so (so + sn) H1 H2).
  repeat (case_bool; try lia); done.
Qed.

(** ** The driver's steps *)
Section Driver.
Context {B : Type} `{FB : FlashBus B}.
Variables (big : bool) (polls : nat) (stale : Z) (md : mandevinfo).
Context {AC : AmdChip B big polls md}.

Lemma chip_md_eq : md_size md = chip_size /\ md_boot md = FBNONE /\ md_secsize md = 0x10000 /\
  unlock1_offs md = UNLOCK1_8Mb_OFFS /\ unlock2_offs md = UNLOCK2_8Mb_OFFS.
Proof.
  pose proof (chip_md : md ∈ drop 8 mandevs) as H. cbn in H.
  apply elem_of_cons in H as [-> |[-> |[]%elem_of_nil]%elem_of_cons]; done.
Qed.

(** The cookie at [FLASH_BASE]. *)
Definition ck1 : flashcookie := Build_flashcookie FLASH_BASE 0x100000 1.

(** From [s] to [s'] nothing is written: the tables are the same, and the chip has
    held the same bytes all the time. *)
Definition quiet (s s' : from B) : Prop :=
  f_data s' = f_data s /\ cells (f_bus s') =m= cells (f_bus s) /\
  forall x, x ∈ f_past s' -> x ∈ f_past s \/ x =m= cells (f_bus s).

Lemma quiet_refl s : quiet s s.
Proof. split; [done|]. split; [done|]. auto. Qed.

Lemma quiet_trans s s1 s2 : quiet s s1 -> quiet s1 s2 -> quiet s s2.
Proof.
  intros (H1 & H2 & H3) (K1 & K2 & K3). split; [congruence|]. split; [by rewrite K2|].
  intros x Hx. destruct (K3 x Hx) as [Hx'|Hx']; [auto|right]. by rewrite Hx'.
Qed.

Abbreviation mode m s := (in_mode (AmdChip := AC) m (f_bus s)).
Abbreviation wpo := (wp no_fault).

Lemma wr8_cycle m o v m' s (Q : unit -> from B -> Prop) : mode m s -> cycle m o v m' ->
  (forall s', mode m' s' -> quiet s s' -> Q tt s') -> wpo (wr8 (PB + o) v) Q s.
Proof.
  intros Hm Hc HQ. destruct (chip_cycle m o v m' (f_bus s) Hc Hm) as [H1 H2]. unfold wp, wr8. apply HQ; [done|].
  split; [done|]. split; [done|]. intros x [Hx|Hx%list_elem_of_singleton]%elem_of_app; [by left|right]. by subst x.
Qed.

Lemma rd8_idle o s (Q : Z -> from B -> Prop) : mode CIdle s -> 0 <= o < chip_size ->
  Q (cells (f_bus s) (PB + o)) s -> wpo (rd8 (PB + o)) Q s.
Proof.
  intros Hm Ho HQ. unfold wp, rd8. rewrite (proj1 (chip_read o (f_bus s) Hm Ho)).
  by destruct s.
Qed.

Lemma fromcmd_wp cmd m s (Q : unit -> from B -> Prop) : mode CIdle s -> cycle CUnlock2 UNLOCK1_8Mb_OFFS cmd m ->
  (forall s', mode m s' -> quiet s s' -> Q tt s') -> wpo (fromcmd PB md cmd) Q s.
Proof.
  intros Hm Hc HQ. unfold fromcmd.
  destruct chip_md_eq as (_ & _ & _ & E1 & E2). rewrite E1, E2. wps.
  eapply wr8_cycle; [exact Hm|constructor|]. intros s1 H1 Q1. wps.
  eapply wr8_cycle; [exact H1|constructor|]. intros s2 H2 Q2. wps.
  eapply wr8_cycle; [exact H2|exact Hc|]. intros s3 H3 Q3. apply HQ; [done|].
  eapply quiet_trans; [exact Q1|]. by eapply quiet_trans.
Qed.

Lemma frompoll_wp a v : forall k n s (Q : Z -> from B -> Prop), mode (CBusy n a v) s -> (n < k)%nat ->
  (forall s', mode CIdle s' -> quiet s s' -> Q FLASHDEV_OK s') -> wpo (frompoll k a v) Q s.
Proof.
  induction k as [|k IH]; intros n s Q Hm Hk HQ; [lia|]. cbn [frompoll]. apply wp_bind.
  destruct (chip_poll n a v (f_bus s) Hm) as (x & b' & E & Hc & Hcase).
  assert (quiet s (set_bus b' s)) as Hq by (split; [done|split; [done|auto]]).
  apply wp_run with (a := x) (s' := set_bus b' s); [unfold rd8; by rewrite E|]. cbn beta.
  destruct Hcase as [[-> Hi]|(Hne & Ht & n' & -> & Hb)].
  - apply wp_ret. by apply HQ.
  - rewrite (proj2 (Z.eqb_neq _ _) Hne). rewrite Ht. cbn [negb Z.eqb].
    eapply IH; [exact Hb|lia|]. intros s' Hs' Hq'. apply HQ; [done|]. by eapply quiet_trans.
Qed.

(** A routine is copied first where it has to be. *)
Lemma safe_wp {A} r (nomem : A) m s (Q : A -> from B -> Prop) : mode CIdle s ->
  (forall s', mode CIdle s' -> quiet s s' -> wpo m Q s') -> wpo (safe r nomem m) Q s.
Proof.
  intros Hm HQ. unfold safe. wps. destruct (bool_decide _); [apply HQ; [done|apply quiet_refl]|].
  wps. destruct (heap_ok (codesize r) (f_bus s) Hm) as (b' & E & Hb & Hc).
  apply wp_run with (a := true) (s' := set_bus b' s); [unfold malloc; by rewrite E|]. cbn beta iota. wps.
  apply HQ; [done|]. split; [done|]. split; [done|auto].
Qed.

Lemma sec_spec o : sec o mod 0x10000 = 0 /\ sec o <= o < sec o + 0x10000.
Proof. unfold sec. Z.div_mod_to_equations. lia. Qed.

Lemma sec_same o a : sec o <= a < sec o + 0x10000 -> sec a = sec o.
Proof. unfold sec. Z.div_mod_to_equations. lia. Qed.

(** The identification of the chip. *)
Lemma autoselect_wp o ids s (Q : Z * (Z * Z) -> from B -> Prop) : mode CIdle s -> 0 <= o < chip_size -> o = sec o ->
  (forall s' i, mode CIdle s' -> quiet s s' -> (ids = true -> i = (md_man md, md_dev md)) -> Q (protect o, i) s') ->
  wpo (fromautoselect stale ck1 md o ids) Q s.
Proof.
  intros Hm Ho Hs HQ. unfold fromautoselect. apply safe_wp; [done|]. intros s0 Hm0 Q0. unfold _fromautoselect.
  change (PROGRAM_BASE ck1) with PB. wps. eapply fromcmd_wp; [exact Hm0|constructor|]. intros s1 Hm1 Q1. wps.
  assert (forall a x, pread8 a (f_bus s1) = (x, f_bus s1) -> rd8 a s1 = Ok (x, s1)) as Hrd.
  { intros a x E. unfold rd8. rewrite E. by destruct s1. }
  apply wp_mono with (Q := fun i s' => s' = s1 /\ (ids = true -> i = (md_man md, md_dev md))).
  { destruct ids; [|by apply wp_ret]. wps. eapply wp_run; [by apply Hrd, chip_man|]. cbn beta. wps.
    eapply wp_run; [by apply Hrd, chip_dev|]. by apply wp_ret. }
  intros i s' [-> Hi]. cbn beta. wps.
  destruct (chip_protect o (f_bus s1) Hm1 Ho Hs) as (x & E & Hx).
  eapply wp_run; [by apply Hrd|]. cbn beta. wps. replace PB with (PB + 0) at 1 by lia.
  eapply wr8_cycle; [exact Hm1|by constructor; left|]. intros s2 Hm2 Q2. wps.
  replace PB with (PB + 0) at 1 by lia. apply rd8_idle; [done|unfold chip_size; lia|]. apply wp_ret.
  rewrite Hx. apply HQ; [done| |done]. eapply quiet_trans; [exact Q0|]. by eapply quiet_trans.
Qed.

(** The driver's state with the flash open. *)
Definition drv_ok (s : from B) : Prop := mode CIdle s /\ f_data s !! 1%nat = Some (Some md).

Lemma drv_quiet s s' : drv_ok s -> mode CIdle s' -> quiet s s' -> drv_ok s'.
Proof. intros [_ H] Hm (E & _). split; [done|by rewrite E]. Qed.

Lemma md_of_wp s (Q : mandevinfo -> from B -> Prop) : drv_ok s -> Q md s -> wpo (md_of 1) Q s.
Proof. intros [_ H] HQ. unfold md_of. wps. eapply wp_need; [|exact HQ]. by rewrite H. Qed.

Lemma ck_of_wp s (Q : flashcookie -> from B -> Prop) : Q ck1 s -> wpo (ck_of 1) Q s.
Proof. intros HQ. by eapply wp_need. Qed.

Lemma sector_of_chip o : 0 <= o < chip_size -> sector_of md o = (sec o, 0x10000).
Proof.
  destruct chip_md_eq as (E1 & E2 & E3 & _). intros Ho. unfold sector_of. rewrite E1, E2, E3.
  rewrite (proj2 (Z.leb_gt _ _)) by lia. rewrite !bool_decide_eq_false_2 by done. cbn [andb]. f_equal.
  change (0x10000 - 1) with (Z.ones 16).
  unfold sec. rewrite <- Z.ldiff_land, Z.ldiff_ones_r, Z.shiftl_mul_pow2, Z.shiftr_div_pow2 by lia. done.
Qed.

Lemma findsector_wp o s (Q : Z * (Z * Z) -> from B -> Prop) : drv_ok s -> 0 <= o < chip_size ->
  (forall s', drv_ok s' -> quiet s s' -> Q (protect (sec o), (sec o, 0x10000)) s') ->
  wpo (findsector stale 1 o) Q s.
Proof.
  intros Hs Ho HQ. unfold findsector. wps. apply md_of_wp; [done|]. rewrite sector_of_chip by done.
  change (0x10000 =? 0) with false. cbn iota. wps. apply ck_of_wp. wps.
  pose proof (sec_spec o). apply autoselect_wp; [apply Hs|unfold chip_size, sec in *; Z.div_mod_to_equations; lia|symmetry; apply sec_same; lia|].
  intros s' i Hm Hq _. apply wp_ret, HQ; [by eapply drv_quiet|done].
Qed.

(** ** Programming *)

(** The bytes of the chip by their offsets. *)
Definition shift (m : mem) : mem := fun o => m (PB + o).
Definition cont (s : from B) : mem := shift (cells (f_bus s)).

#[local] Instance shift_proper : Proper (mem_eq ==> mem_eq) shift.
Proof. intros m m' Hm o. apply Hm. Qed.

Lemma quiet_cont s s' : quiet s s' -> cont s' =m= cont s.
Proof. intros (_ & H & _). unfold cont. by rewrite H. Qed.

(** The driver has gone from [s] to [s']: the chip now holds [V], in the order of
    the flags [f], and what it held in between satisfies [P]. *)
Definition moves (f : Z) (s s' : from B) (P : mem -> Prop) (V : mem) : Prop :=
  drv_ok s' /\ view f (cont s') =m= V /\ forall x, x ∈ f_past s' -> x ∈ f_past s \/ P (view f (shift x)).

Lemma moves_quiet f s s' (P : mem -> Prop) : (forall x, x =m= view f (cont s) -> P x) ->
  drv_ok s' -> quiet s s' -> moves f s s' P (view f (cont s)).
Proof.
  intros HP Hd Hq. split; [done|]. split; [by rewrite (quiet_cont _ _ Hq)|]. intros x Hx.
  destruct Hq as (_ & _ & Hq). destruct (Hq x Hx) as [|Hx']; [by left|right]. apply HP. unfold cont. by rewrite Hx'.
Qed.

Lemma moves_trans f s s1 s2 P V1 V2 : moves f s s1 P V1 -> moves f s1 s2 P V2 -> moves f s s2 P V2.
Proof.
  intros (_ & _ & H1) (Hd & HV & H2). split; [done|]. split; [done|]. intros x Hx. destruct (H2 x Hx); auto.
Qed.

Lemma moves_weaken f s s' (P Q : mem -> Prop) V : moves f s s' P V -> (forall x, P x -> Q x) -> moves f s s' Q V.
Proof. intros (H1 & H2 & H3) HPQ. split; [done|]. split; [done|]. intros x Hx. destruct (H3 x Hx); auto. Qed.

Lemma moves_eq f s s' P V V' : moves f s s' P V -> V =m= V' -> moves f s s' P V'.
Proof. intros (H1 & H2 & H3) HV. split; [done|]. split; [by rewrite H2|done]. Qed.

(** Offsets that can be written. *)
Definition free_at (a : Z) : Prop := 0 <= a < chip_size /\ protect (sec a) = 0.

Lemma free_prog f a : free_at a -> free_at (prog_offs f a) /\ sec (prog_offs f a) = sec a.
Proof.
  intros [Ha Hp]. assert (sec (prog_offs f a) = sec a) as E.
  { pose proof (sec_spec a) as [Hm Hs]. apply sec_same. apply prog_offs_range; [| |lia]; Z.div_mod_to_equations; lia. }
  split; [|done]. split; [|by rewrite E]. by apply prog_offs_range.
Qed.

(** One byte. *)
Lemma program_byte_wp f o st b s : drv_ok s -> free_at o -> byte_ok b -> clears (view f (cont s) o) b ->
  wpo (fromcmd PB md FROM_PROGRAM ≫= fun _ =>
       wr8 (PB + prog_offs f o) b ≫= fun _ =>
       frompoll polls (PB + prog_offs f o) b ≫= fun stat =>
       mret (if stat =? FLASHDEV_OK then st else stat)) (fun r s' => r = st /\
    moves f s s' (fun x => x =m= view f (cont s) \/ x =m= upd (view f (cont s)) o b) (upd (view f (cont s)) o b)) s.
Proof.
  intros Hs Ho Hb Hc. destruct (free_prog f o Ho) as [[Hp1 Hp2] _]. wps.
  eapply fromcmd_wp; [apply Hs|constructor|]. intros s1 Hm1 Q1. wps.
  assert (clears (cells (f_bus s1) (PB + prog_offs f o)) b) as Hc1.
  { pose proof (quiet_cont _ _ Q1 (prog_offs f o)) as E. unfold cont, shift in E. by rewrite E. }
  destruct (chip_program (prog_offs f o) b (f_bus s1) Hm1 Hp1 Hp2 Hb Hc1) as (n & Hn & Hm2 & Hcell).
  set (s2 := Build_from B (pwrite8 (PB + prog_offs f o) b (f_bus s1)) (f_data s1) (f_fns s1)
               (f_past s1 ++ [cells (pwrite8 (PB + prog_offs f o) b (f_bus s1))])).
  apply wp_run with (a := tt) (s' := s2); [done|]. wps.
  assert (view f (cont s2) =m= upd (view f (cont s)) o b) as Hv.
  { rewrite <- view_upd. intros a. unfold view, cont, shift. cbn [f_bus s2]. rewrite Hcell.
    pose proof (quiet_cont _ _ Q1 (prog_offs f a)) as E. unfold cont, shift in E. unfold upd.
    destruct (Z.eqb_spec (PB + prog_offs f a) (PB + prog_offs f o)), (Z.eqb_spec (prog_offs f a) (prog_offs f o)); try lia; done. }
  eapply frompoll_wp; [exact Hm2|done|]. intros s3 Hm3 Q3. apply wp_ret. split; [done|].
  split; [split; [done|]|split].
  - destruct Q3 as (-> & _). cbn [f_data s2]. destruct Q1 as (-> & _). apply Hs.
  - by rewrite (quiet_cont _ _ Q3).
  - intros x Hx. destruct Q3 as (_ & _ & H3). destruct (H3 x Hx) as [Hx2|Hx2].
    + cbn [f_past s2] in Hx2. apply elem_of_app in Hx2 as [Hx1|Hx1]; [|apply list_elem_of_singleton in Hx1; subst x; by right; right].
      destruct Q1 as (_ & _ & H1). destruct (H1 x Hx1) as [|Hx0]; [by left|right; left]. unfold cont. by rewrite Hx0.
    + right. right. rewrite <- Hv. unfold cont. by rewrite Hx2.
Qed.

Lemma program_loop_wp f bs : forall s o st, drv_ok s ->
  (forall a, o <= a < o + Z.of_nat (length bs) -> free_at a) -> Forall byte_ok bs ->
  Forall2 clears (slice (view f (cont s)) o (length bs)) bs ->
  wpo (program_loop polls PB md f o st bs) (fun r s' => r = st /\
    moves f s s' (fun x => exists k, (k <= length bs)%nat /\ x =m= burn (view f (cont s)) o (take k bs))
      (burn (view f (cont s)) o bs)) s.
Proof.
  induction bs as [|b bs IH]; intros s o st Hs Hf Hb Hc; cbn [program_loop length burn] in *.
  { apply wp_ret. split; [done|]. apply moves_quiet; [|done|apply quiet_refl]. intros x Hx. by exists 0%nat. }
  apply Forall_cons_iff in Hb as [Hb Hbs]. rewrite slice_cons in Hc. apply list.Forall2_cons_1 in Hc as [Hc Hcs].
  assert (free_at o) as Ho by (apply Hf; lia). destruct (free_prog f o Ho) as [[Hp _] _]. wps.
  apply rd8_idle; [apply Hs|done|]. wps. fold (shift (cells (f_bus s)) (prog_offs f o)). fold (cont s).
  change (cont s (prog_offs f o)) with (view f (cont s) o).
  apply wp_mono with (Q := fun r s1 => r = st /\ moves f s s1
    (fun x => x =m= view f (cont s) \/ x =m= upd (view f (cont s)) o b) (upd (view f (cont s)) o b)).
  { destruct (Z.eqb_spec (view f (cont s) o) b) as [E|E]; cbn [negb]; [|by apply program_byte_wp].
    apply wp_ret. split; [done|]. eapply moves_eq; [apply moves_quiet; [|done|apply quiet_refl]; auto|].
    rewrite <- E. by rewrite upd_id. }
  intros r s1 (-> & Hmv). cbn beta. pose proof Hmv as (Hd1 & Hv1 & _).
  eapply wp_mono; [apply (IH s1); [done|intros; apply Hf; lia|done|]|].
  { assert (slice (view f (cont s1)) (o + 1) (length bs) = slice (view f (cont s)) (o + 1) (length bs)) as ->; [|done].
    rewrite Hv1. apply list_eq. intros i. destruct (Nat.lt_ge_cases i (length bs)).
    - rewrite !slice_lookup by done. by rewrite upd_ne by lia.
    - rewrite !lookup_ge_None_2; [done|rewrite slice_length; lia..]. }
  intros r s2 (-> & Hmv2). split; [done|]. eapply moves_trans.
  - eapply moves_weaken; [exact Hmv|]. intros x [Hx|Hx]; [exists 0%nat|exists 1%nat]; (split; [lia|done]).
  - eapply moves_eq; [eapply moves_weaken; [exact Hmv2|]|by rewrite Hv1].
    intros x (k & Hk & Hx). exists (S k). split; [lia|]. rewrite Hx. cbn [take burn]. by rewrite Hv1.
Qed.

(** Erasing a sector. *)
Lemma erase_at_wp f a s : drv_ok s -> free_at a ->
  wpo (erase_at polls PB md (PB + a)) (fun r s' => r = FLASHDEV_OK /\
    moves f s s' (fun x => x =m= view f (cont s) \/ x =m= wipe (view f (cont s)) (sec a) 0x10000)
      (wipe (view f (cont s)) (sec a) 0x10000)) s.
Proof.
  intros Hs [Ha Hp]. unfold erase_at. wps. eapply fromcmd_wp; [apply Hs|constructor|]. intros s1 Hm1 Q1. wps.
  unfold fromunlock. destruct chip_md_eq as (_ & _ & _ & -> & ->). wps.
  eapply wr8_cycle; [exact Hm1|constructor|]. intros s2 Hm2 Q2. wps.
  eapply wr8_cycle; [exact Hm2|constructor|]. intros s3 Hm3 Q3. wps.
  assert (quiet s s3) as Q by (eapply quiet_trans; [exact Q1|]; by eapply quiet_trans).
  destruct (chip_erase a (f_bus s3) Hm3 Ha Hp) as (n & Hn & Hm4 & Hcell).
  set (s4 := Build_from B (pwrite8 (PB + a) FROM_ERASESECT (f_bus s3)) (f_data s3) (f_fns s3)
               (f_past s3 ++ [cells (pwrite8 (PB + a) FROM_ERASESECT (f_bus s3))])).
  apply wp_run with (a := tt) (s' := s4); [done|]. wps.
  assert (view f (cont s4) =m= wipe (view f (cont s)) (sec a) 0x10000) as Hv.
  { pose proof (sec_spec a) as [H1 H2]. rewrite <- view_wipe by (Z.div_mod_to_equations; lia).
    intros o. unfold view, cont, shift. cbn [f_bus s4]. rewrite Hcell.
    pose proof (quiet_cont _ _ Q (prog_offs f o)) as E. unfold cont, shift in E. unfold wipe.
    destruct (_ && _) eqn:E1, (_ && _) eqn:E2 in |- *; try done.
    all: rewrite ?andb_true_iff, ?andb_false_iff, ?Z.leb_le, ?Z.leb_gt, ?Z.ltb_lt, ?Z.ltb_ge in E1, E2; lia. }
  eapply frompoll_wp; [exact Hm4|done|]. intros s5 Hm5 Q5. split; [done|].
  split; [split; [done|]|split].
  - destruct Q5 as (-> & _). cbn [f_data s4]. destruct Q as (-> & _). apply Hs.
  - by rewrite (quiet_cont _ _ Q5).
  - intros x Hx. destruct Q5 as (_ & _ & H5). destruct (H5 x Hx) as [Hx2|Hx2].
    + cbn [f_past s4] in Hx2. apply elem_of_app in Hx2 as [Hx1|Hx1]; [|apply list_elem_of_singleton in Hx1; subst x; by right; right].
      destruct Q as (_ & _ & H1). destruct (H1 x Hx1) as [|Hx0]; [by left|right; left]. unfold cont. by rewrite Hx0.
    + right. right. rewrite <- Hv. unfold cont. by rewrite Hx2.
Qed.

(** ** Reading *)

(** The flags of code and of byte streams, not both. *)
Definition flags_ok (f : Z) : Prop := bit f FLASHDEV_PROG_STREAM = true -> bit f FLASHDEV_PROG_CODE_EB = false.

Lemma read_bytes_wp addr g s : drv_ok s -> forall n o,
  (forall a, o <= a < o + Z.of_nat n -> rd8 (addr a) s = Ok (g a, s)) ->
  read_bytes addr n o s = Ok (slice g o n, s).
Proof.
  intros Hs. induction n as [|n IH]; intros o Ha; cbn [read_bytes]; [done|].
  rewrite (bind_ok _ _ _ _ _ (Ha o ltac:(lia))), (bind_ok _ _ _ _ _ (IH (o + 1) ltac:(intros; apply Ha; lia))).
  by rewrite slice_cons.
Qed.

Lemma fromreadbytes_ok f o buf s : drv_ok s -> flags_ok f -> 0 <= o -> o + Z.of_nat (length buf) <= chip_size ->
  fromreadbytes big 1 o buf f s = Ok ((FLASHDEV_OK, slice (view f (cont s)) o (length buf)), s).
Proof.
  intros Hs Hf Ho Hn. destruct chip_md_eq as (Esz & _). unfold fromreadbytes.
  assert (md_of 1 s = Ok (md, s)) as E1.
  { unfold md_of. rewrite bind_ok with (a := f_data s) (s' := s) by done. destruct Hs as [_ ->]. done. }
  rewrite (bind_ok _ _ _ _ _ E1), bind_ok with (a := ck1) (s' := s) by done.
  rewrite Esz, u32_small by (unfold chip_size in *; lia). rewrite (proj2 (Z.ltb_ge _ _)) by lia.
  erewrite bind_ok; [done|]. apply read_bytes_wp; [done|]. intros a Ha. change (READ_BASE ck1) with FLASH_BASE.
  assert (forall x, 0 <= x < chip_size -> (if big then Z.lxor x 3 else x) = prog_offs f a -> rd8 (FLASH_BASE + x) s = Ok (view f (cont s) a, s)) as Hrd.
  { intros x Hx E. unfold rd8. rewrite (proj2 (chip_read x (f_bus s) (proj1 Hs) Hx)), E. by destruct s. }
  assert (0 <= Z.lxor a 3 < chip_size) as Hr.
  { rewrite lxor3. unfold chip_size in *. Z.div_mod_to_equations. lia. }
  assert (Z.lxor (Z.lxor a 3) 3 = a) as Hinv by (rewrite Z.lxor_assoc, Z.lxor_nilpotent; apply Z.lxor_0_r).
  unfold read_swap, flags_ok, prog_offs in *. change FLASHDEV_READ_STREAM with FLASHDEV_PROG_STREAM.
  change FLASHDEV_READ_CODE_EB with FLASHDEV_PROG_CODE_EB.
  revert Hrd. generalize big. intros be Hrd. destruct be, (bit f FLASHDEV_PROG_CODE_EB), (bit f FLASHDEV_PROG_STREAM); cbn [orb negb]; try (by discriminate Hf);
    apply Hrd; try done; lia.
Qed.

(** ** The programming vector *)

Definition secn : nat := Z.to_nat 0x10000.
Lemma secn_eq : Z.of_nat secn = 0x10000.
Proof. unfold secn. lia. Qed.

(** The vector for the bytes [bs] of one sector: they are programmed where they
    only clear bits, and otherwise the whole sector is rewritten. *)
Definition vec_for (V : mem) (o : Z) (bs : list Z) (v : flashvec) : Prop :=
  let k := Z.to_nat (o - sec o) in let old := slice V (sec o) secn in
  (Forall2 clears (slice V o (length bs)) bs /\ v_erase v = false /\ v_offs v = o /\ v_mem v = bs) \/
  (~ Forall2 clears (slice V o (length bs)) bs /\ v_erase v = true /\ v_offs v = sec o /\
   v_mem v = take k old ++ bs ++ drop (k + length bs) old).

(** How many of [n] bytes from [o] on are in its sector. *)
Definition in_sector (o : Z) (n : nat) : nat := Z.to_nat (Z.min (sec o + 0x10000 - o) (Z.of_nat n)).

Inductive plan (V : mem) : Z -> list Z -> list flashvec -> Prop :=
| plan_nil o : plan V o [] []
| plan_cons o mem v vs : mem <> [] ->
    vec_for V o (take (in_sector o (length mem)) mem) v ->
    plan V (o + Z.of_nat (in_sector o (length mem))) (drop (in_sector o (length mem)) mem) vs ->
    plan V o mem (v :: vs).

Lemma in_sector_spec o n : (0 < n)%nat -> (0 < in_sector o n <= n)%nat /\ o + Z.of_nat (in_sector o n) <= sec o + 0x10000 /\
  ((in_sector o n < n)%nat -> o + Z.of_nat (in_sector o n) = sec o + 0x10000).
Proof. intros Hn. unfold in_sector. destruct (sec_spec o) as [_ H]. lia. Qed.

Lemma clears_split V o mem k : (k <= length mem)%nat ->
  Forall2 clears (slice V o (length mem)) mem <->
  Forall2 clears (slice V o (length (take k mem))) (take k mem) /\
  Forall2 clears (slice V (o + Z.of_nat k) (length (drop k mem))) (drop k mem).
Proof.
  intros Hk. rewrite length_take, length_drop, Nat.min_l by done. rewrite <- (take_drop k mem) at 2.
  replace (length mem) with (k + (length mem - k))%nat at 1 by lia. rewrite slice_app.
  split.
  - intros H. apply list.Forall2_app_inv in H; [done|]. by rewrite slice_length, length_take, Nat.min_l.
  - intros [H1 H2]. by apply List.Forall2_app.
Qed.

Lemma needs_erase_wp f o s : drv_ok s -> (bit f FLASHDEV_PROG_CODE_EB = true -> o mod 4 = 0) ->
  forall bs i, 0 <= o + i -> o + i + Z.of_nat (length bs) <= chip_size ->
  needs_erase (PB + o) f i bs s =
    Ok (bool_decide (~ Forall2 clears (slice (view f (cont s)) (o + i) (length bs)) bs), s).
Proof.
  intros Hs Ho. induction bs as [|b bs IH]; intros i Hi Hn; cbn [needs_erase length] in *.
  { rewrite bool_decide_eq_false_2; [done|]. intros H. apply H. constructor. }
  rewrite <- Z.add_assoc, (prog_offs_add f o i Ho).
  assert (rd8 (PB + prog_offs f (o + i)) s = Ok (view f (cont s) (o + i), s)) as E.
  { assert (0 <= prog_offs f (o + i) < chip_size) as Hr by (apply prog_offs_range; [done|done|lia]).
    unfold rd8. rewrite (proj1 (chip_read _ (f_bus s) (proj1 Hs) Hr)). by destruct s. }
  rewrite (bind_ok _ _ _ _ _ E), slice_cons.
  destruct (Z.eqb_spec (Z.land b (Z.lnot (view f (cont s) (o + i)))) 0) as [E0|E0]; cbn [negb].
  - rewrite IH by lia. replace (o + (i + 1)) with (o + i + 1) by lia. do 2 f_equal. apply bool_decide_ext.
    apply clears_test in E0. split; intros H1 H2; apply H1; [by apply list.Forall2_cons_1 in H2 as [_ ?]|by constructor].
  - rewrite bool_decide_eq_true_2; [done|]. intros [H _]%list.Forall2_cons_1. by apply clears_test in H.
Qed.

Lemma free_split o (mem : list Z) k : (forall a, o <= a < o + Z.of_nat (length mem) -> free_at a) -> (k <= length mem)%nat ->
  (forall a, o <= a < o + Z.of_nat (length (take k mem)) -> free_at a) /\
  (forall a, o + Z.of_nat k <= a < o + Z.of_nat k + Z.of_nat (length (drop k mem)) -> free_at a).
Proof. intros H Hk. rewrite length_take, length_drop. split; intros; apply H; lia. Qed.

Lemma build_vec_cons f fuel o mem vs : mem <> [] ->
  build_vec big stale (S fuel) 1 f o mem vs =
    (build_one big stale 1 f o mem (length vs) ≫= fun r =>
     match r with
     | inl e => mret (inl e)
     | inr (v, n) => build_vec big stale fuel 1 f (o + Z.of_nat n) (drop n mem) (vs ++ [v])
     end).
Proof. by destruct mem. Qed.

(** One round of the loop that builds the vector. *)
Lemma build_one_wp f s o mem nv : flags_ok f -> drv_ok s -> (bit f FLASHDEV_PROG_CODE_EB = true -> o mod 4 = 0) ->
  (forall a, o <= a < o + Z.of_nat (length mem) -> free_at a) -> mem <> [] -> (nv < FROMMAXSECTORS)%nat ->
  let k := in_sector o (length mem) in let V := view f (cont s) in
  wpo (build_one big stale 1 f o mem nv) (fun r s' => drv_ok s' /\ quiet s s' /\
    match r with
    | inr (v, n) => n = k /\ vec_for V o (take k mem) v
    | inl e => e = FLASHDEV_PARTIAL /\ bit f FLASHDEV_PROG_MERGE = false /\
        ~ Forall2 clears (slice V o (length (take k mem))) (take k mem)
    end) s.
Proof.
  intros Hfl Hs Ho Hfree Hne Hnv k V. pose proof (length_pos mem Hne) as Hlen.
  destruct (Hfree o) as [Ho1 Hp]; [lia|]. destruct (sec_spec o) as [Hsec1 Hsec2].
  pose proof (in_sector_spec o (length mem) Hlen) as (Hk1 & Hk2 & Hk3). fold k in Hk1, Hk2, Hk3.
  assert (0 <= sec o /\ sec o + 0x10000 <= chip_size) as Hsb.
  { unfold chip_size, sec in *. Z.div_mod_to_equations. lia. }
  unfold build_one. wps. apply ck_of_wp. wps. apply findsector_wp; [done|done|]. intros s1 Hs1 Q1. rewrite Hp.
  change (negb (0 =? 0)) with false. cbn iota. rewrite u32_small by lia.
  replace (0x10000 - (o - sec o)) with (sec o + 0x10000 - o) by lia. fold (in_sector o (length mem)). fold k.
  rewrite (proj2 (Nat.leb_gt _ _) Hnv). wps. change (PROGRAM_BASE ck1) with PB.
  assert (view f (cont s1) =m= V) as HV by (unfold V; by rewrite (quiet_cont _ _ Q1)).
  assert (length (take k mem) = k) as Htk by (rewrite length_take; lia).
  eapply wp_run; [apply needs_erase_wp; [done|done|lia|lia]|]. cbn beta. rewrite Z.add_0_r, (slice_eq _ V) by done.
  destruct (decide (Forall2 clears (slice V o (length (take k mem))) (take k mem))) as [Hcl|Hcl].
  { rewrite bool_decide_eq_false_2 by (intros H; by apply H). cbn [andb]. apply wp_ret. split; [done|]. split; [done|].
    split; [done|]. left. done. }
  rewrite bool_decide_eq_true_2 by done. cbn [andb].
  destruct (Z.eqb_spec (Z.of_nat k) 0x10000) as [Ek|Ek]; cbn [negb].
  { apply wp_ret. split; [done|]. split; [done|]. split; [done|]. right. assert (o = sec o) as Eo by lia. rewrite Htk.
    split; [by rewrite Htk in Hcl|]. split; [done|]. split; [exact Eo|]. cbn [v_mem]. rewrite <- Eo, Z.sub_diag. cbn [Z.to_nat take app].
    rewrite drop_ge by (rewrite slice_length; pose proof secn_eq; lia). by rewrite app_nil_r. }
  destruct (bit f FLASHDEV_PROG_MERGE) eqn:Emg; cbn [negb]; [|by apply wp_ret]. wps.
  destruct (heap_ok 0x10000 (f_bus s1) (proj1 Hs1)) as (b' & E & Hb & Hc).
  assert (quiet s1 (set_bus b' s1)) as Q2 by (split; [done|split; [done|auto]]).
  assert (drv_ok (set_bus b' s1)) as Hs2 by (split; [done|apply Hs1]).
  apply wp_run with (a := true) (s' := set_bus b' s1); [unfold malloc; by rewrite E|]. cbn beta iota. cbn [negb]. wps.
  fold secn. eapply wp_run; [apply fromreadbytes_ok; [done|done|lia|rewrite length_replicate; pose proof secn_eq; lia]|].
  cbn beta iota. rewrite length_replicate. apply wp_ret. split; [done|]. split; [by eapply quiet_trans|]. split; [done|].
  right. split; [done|]. split; [done|]. split; [done|]. cbn [v_mem]. rewrite Htk.
  assert (slice (view f (cont (set_bus b' s1))) (sec o) secn = slice V (sec o) secn) as ->; [|done].
  apply slice_eq. rewrite (quiet_cont _ _ Q2). exact HV.
Qed.

Lemma vec_for_proper V V' o bs v : V =m= V' -> vec_for V o bs v -> vec_for V' o bs v.
Proof. intros HV. unfold vec_for. by rewrite HV. Qed.

Lemma plan_proper V V' o mem vs : V =m= V' -> plan V o mem vs -> plan V' o mem vs.
Proof. intros HV H. induction H; constructor; [done| |done]. by eapply vec_for_proper. Qed.

Lemma build_vec_wp f : flags_ok f -> forall fuel s o mem vs, drv_ok s ->
  (mem <> [] -> bit f FLASHDEV_PROG_CODE_EB = true -> o mod 4 = 0) ->
  (forall a, o <= a < o + Z.of_nat (length mem) -> free_at a) ->
  (mem <> [] -> Z.of_nat (length vs) <= o / 0x10000 /\ 16 < Z.of_nat fuel + o / 0x10000) ->
  wpo (build_vec big stale fuel 1 f o mem vs) (fun r s' => drv_ok s' /\ quiet s s' /\
    match r with
    | inr vs' => exists pl, vs' = vs ++ pl /\ plan (view f (cont s)) o mem pl
    | inl e => e = FLASHDEV_PARTIAL /\ bit f FLASHDEV_PROG_MERGE = false /\
        ~ Forall2 clears (slice (view f (cont s)) o (length mem)) mem
    end) s.
Proof.
  intros Hfl. induction fuel as [|fuel IH]; intros s o mem vs Hs Ho Hfree Hcnt.
  all: destruct (decide (mem = [])) as [->|Hne];
    [apply wp_ret; split; [done|]; split; [apply quiet_refl|]; exists []; split; [by rewrite app_nil_r|constructor]|].
  all: specialize (Hcnt Hne); specialize (Ho Hne); pose proof (length_pos mem Hne) as Hlen.
  all: destruct (Hfree o) as [Ho1 _]; [lia|]; unfold chip_size in Ho1.
  all: assert (o / 0x10000 < 16) as Hj by (apply Z.div_lt_upper_bound; lia).
  { lia. }
  rewrite build_vec_cons by done. wps.
  eapply wp_mono; [apply build_one_wp; try done; unfold FROMMAXSECTORS; lia|].
  intros r s1 (Hs1 & Q1 & Hr). cbn beta.
  pose proof (in_sector_spec o (length mem) Hlen) as (Hk1 & Hk2 & Hk3). set (k := in_sector o (length mem)) in *.
  assert (view f (cont s1) =m= view f (cont s)) as HV by (by rewrite (quiet_cont _ _ Q1)).
  destruct r as [e|[v n]].
  { destruct Hr as (-> & Hmg & Hcl). apply wp_ret. split; [done|]. split; [done|]. split; [done|]. split; [done|].
    intros H. apply Hcl. by apply (clears_split _ o mem k ltac:(lia)) in H as [H _]. }
  destruct Hr as (-> & Hv). destruct (free_split o mem k Hfree ltac:(lia)) as [_ Hfree2].
  destruct (sec_spec o) as [Hsec1 Hsec2].
  assert (drop k mem <> [] -> o + Z.of_nat k = sec o + 0x10000) as Hnext.
  { intros Hd. apply Hk3. destruct (decide (k < length mem)%nat); [done|]. destruct Hd. apply drop_ge. lia. }
  eapply wp_mono; [apply (IH s1); [done| |done|]|].
  { intros Hd _. rewrite (Hnext Hd). Z.div_mod_to_equations. lia. }
  { intros Hd. rewrite (Hnext Hd), length_app. cbn [length]. unfold sec in *.
    replace (o / 0x10000 * 0x10000 + 0x10000) with ((o / 0x10000 + 1) * 0x10000) by lia. rewrite Z.div_mul by lia. lia. }
  intros r s2 (Hs2 & Q2 & Hr2). split; [done|]. split; [by eapply quiet_trans|]. destruct r as [e|vs'].
  - destruct Hr2 as (-> & Hmg & Hcl). split; [done|]. split; [done|]. intros H. apply Hcl.
    rewrite (slice_eq _ _ _ _ HV). by apply (clears_split _ o mem k ltac:(lia)) in H as [_ H].
  - destruct Hr2 as (pl & -> & Hpl). exists (v :: pl). split; [by rewrite <- app_assoc|].
    constructor; [done|done|]. by eapply plan_proper.
Qed.

(** ** Carrying the vector out *)

Lemma erase_sector_view V o bs : (forall a, o <= a < o + Z.of_nat (length bs) -> sec a = sec o) -> bs <> [] ->
  let k := Z.to_nat (o - sec o) in let old := slice V (sec o) secn in
  burn (wipe V (sec o) 0x10000) (sec o) (take k old ++ bs ++ drop (k + length bs) old) =m= burn V o bs.
Proof.
  intros Hin Hne k old a. pose proof secn_eq. destruct (sec_spec o) as [_ Ho].
  pose proof (length_pos bs Hne).
  pose proof (Hin (o + Z.of_nat (length bs) - 1) ltac:(lia)) as Hl. destruct (sec_spec (o + Z.of_nat (length bs) - 1)) as [_ Hl2].
  rewrite <- secn_eq. unfold old. rewrite burn_sector by lia. by replace (sec o + Z.of_nat k) with o by lia.
Qed.

(** One vector: the bytes of its sector are stored. *)
Lemma vec_one_wp f st s o bs v : drv_ok s -> bs <> [] -> Forall byte_ok bs ->
  (forall a, o <= a < o + Z.of_nat (length bs) -> free_at a /\ sec a = sec o) ->
  vec_for (view f (cont s)) o bs v ->
  wpo ((if v_erase v then
          erase_at polls PB md (PB + v_offs v) ≫= fun stat => mret (if stat =? FLASHDEV_OK then st else stat)
        else mret st) ≫= fun st => program_loop polls PB md f (v_offs v) st (v_mem v)) (fun r s' => r = st /\
    moves f s s' (fun x => Forall2 clears (slice (view f (cont s)) o (length bs)) bs ->
                    exists k, (k <= length bs)%nat /\ x =m= burn (view f (cont s)) o (take k bs))
      (burn (view f (cont s)) o bs)) s.
Proof.
  intros Hs Hne Hby Hin [(Hcl & -> & -> & ->)|(Hcl & -> & -> & ->)].
  - wps. apply wp_ret. eapply wp_mono; [apply program_loop_wp; [done| |done|done]|].
    { intros a Ha. by apply Hin. }
    intros r s' [-> Hm]. split; [done|]. eapply moves_weaken; [exact Hm|]. auto.
  - pose proof (length_pos bs Hne) as Hlen. pose proof secn_eq as Hsn.
    destruct (sec_spec o) as [Hs1 Hs2]. assert (sec (sec o) = sec o) as Hss by (apply sec_same; lia).
    destruct (Hin o ltac:(lia)) as [[Hf Hp] _].
    assert (forall a, sec o <= a < sec o + 0x10000 -> free_at a) as Hfs.
    { intros a Ha. split; [unfold chip_size, sec in *; Z.div_mod_to_equations; lia|]. by rewrite (sec_same o a). }
    set (V := view f (cont s)). set (old := slice V (sec o) secn). set (k := Z.to_nat (o - sec o)).
    destruct (sec_spec (o + Z.of_nat (length bs) - 1)) as [_ Hl2]. rewrite (proj2 (Hin (o + Z.of_nat (length bs) - 1) ltac:(lia))) in Hl2.
    assert (length old = secn) as Hol by apply slice_length.
    assert (length (take k old ++ bs ++ drop (k + length bs) old) = secn) as Hll.
    { rewrite !length_app, length_take, length_drop, Hol. lia. }
    wps. eapply wp_mono; [apply (erase_at_wp f); [done|apply Hfs; lia]|]. intros r s1 (-> & Hm1). rewrite Hss in Hm1.
    apply wp_ret. change (FLASHDEV_OK =? FLASHDEV_OK) with true. cbn iota. pose proof Hm1 as (Hd1 & Hv1 & _). fold V in Hv1.
    eapply wp_mono; [apply program_loop_wp; [done| | |]|].
    { rewrite Hll. intros a Ha. apply Hfs. lia. }
    { apply merged_bytes; [|done]. intros a. apply (cell_byte CIdle), Hs. }
    { rewrite Hll, (slice_eq _ _ _ _ Hv1), slice_wipe by lia. rewrite <- Hll. apply clears_ones, merged_bytes; [|done].
      intros a. apply (cell_byte CIdle), Hs. }
    intros r s2 [-> Hm2]. split; [done|]. eapply moves_eq.
    + eapply moves_trans; [eapply moves_weaken; [exact Hm1|]|eapply moves_weaken; [exact Hm2|]]; intros x _ H; destruct (Hcl H).
    + rewrite Hv1. apply erase_sector_view; [|done]. intros a Ha. by apply Hin.
Qed.

Lemma vec_for_agree V V' o bs v : (forall a, sec o <= a -> V' a = V a) -> vec_for V o bs v -> vec_for V' o bs v.
Proof.
  intros Ha. destruct (sec_spec o) as [_ Ho].
  assert (forall p n, sec o <= p -> slice V' p n = slice V p n) as Hsl.
  { intros p n Hp. apply list_eq. intros i. destruct (Nat.lt_ge_cases i n).
    - rewrite !slice_lookup by done. f_equal. apply Ha. lia.
    - rewrite !lookup_ge_None_2; [done|rewrite slice_length; lia..]. }
  unfold vec_for. by rewrite !Hsl by lia.
Qed.

Lemma vec_loop_wp f V o mem pl : plan V o mem pl -> forall s st, drv_ok s -> Forall byte_ok mem ->
  (forall a, o <= a < o + Z.of_nat (length mem) -> free_at a) ->
  (mem <> [] -> forall a, sec o <= a -> view f (cont s) a = V a) ->
  wpo (vec_loop polls PB md f st pl) (fun r s' => r = st /\
    moves f s s' (fun x => Forall2 clears (slice V o (length mem)) mem ->
                    exists k, (k <= length mem)%nat /\ x =m= burn (view f (cont s)) o (take k mem))
      (burn (view f (cont s)) o mem)) s.
Proof.
  induction 1 as [o|o mem v pl Hne Hv Hpl IH]; intros s st Hs Hby Hfree Hag; cbn [vec_loop].
  { apply wp_ret. split; [done|]. apply moves_quiet; [|done|apply quiet_refl]. intros x Hx _. by exists 0%nat. }
  pose proof (length_pos mem Hne) as Hlen. specialize (Hag Hne).
  pose proof (in_sector_spec o (length mem) Hlen) as (Hk1 & Hk2 & Hk3). set (k := in_sector o (length mem)) in *.
  assert (length (take k mem) = k) as Htk by (rewrite length_take; lia). destruct (sec_spec o) as [Hs1 Hs2].
  destruct (free_split o mem k Hfree ltac:(lia)) as [Hfree1 Hfree2].
  destruct (Forall_take_drop _ k _ Hby) as [Hby1 Hby2].
  apply wp_bind_assoc. eapply wp_mono; [apply (vec_one_wp f st s o (take k mem)); [done| |done| |by eapply vec_for_agree]|].
  { intros E. apply (f_equal length) in E. rewrite Htk in E. cbn in E. lia. }
  { intros a Ha. split; [by apply Hfree1|]. apply sec_same. lia. }
  intros r s1 [-> Hm1]. cbn beta. pose proof Hm1 as (Hd1 & Hv1 & _).
  eapply wp_mono; [apply (IH s1); [done|done|done|]|].
  { intros Hd a Ha. rewrite Hv1. assert (o + Z.of_nat k = sec o + 0x10000) as E.
    { apply Hk3. destruct (decide (k < length mem)%nat); [done|]. destruct Hd. apply drop_ge. lia. }
    assert (sec (o + Z.of_nat k) = o + Z.of_nat k) as E2 by (rewrite E; unfold sec in *; Z.div_mod_to_equations; lia).
    rewrite burn_outside by (rewrite Htk; lia). apply Hag. lia. }
  intros r s2 [-> Hm2]. split; [done|].
  assert (forall j, burn (view f (cont s1)) (o + Z.of_nat k) (take j (drop k mem)) =m= burn (view f (cont s)) o (take (k + j) mem)) as Happ.
  { intros j. rewrite Hv1, <- take_take_drop, burn_app, Htk. done. }
  assert (slice (view f (cont s)) o (length (take k mem)) = slice V o (length (take k mem))) as Hsl.
  { apply list_eq. intros i. destruct (Nat.lt_ge_cases i (length (take k mem))).
    - rewrite !slice_lookup by done. f_equal. apply Hag. lia.
    - rewrite !lookup_ge_None_2; [done|rewrite slice_length; lia..]. }
  eapply moves_eq; [eapply moves_trans; [eapply moves_weaken; [exact Hm1|]|eapply moves_weaken; [exact Hm2|]]|].
  - intros x Hx Hcl. apply (clears_split _ o mem k ltac:(lia)) in Hcl as [Hcl _]. rewrite Hsl in Hx.
    destruct (Hx Hcl) as (j & Hj & Hxj). exists j. split; [lia|]. by rewrite take_take, Nat.min_l in Hxj by lia.
  - intros x Hx Hcl. apply (clears_split _ o mem k ltac:(lia)) in Hcl as [_ Hcl].
    destruct (Hx Hcl) as (j & Hj & Hxj). exists (k + j)%nat. rewrite length_drop in Hj. split; [lia|].
    by rewrite Hxj, Happ.
  - specialize (Happ (length (drop k mem))). rewrite firstn_all in Happ. rewrite Happ. by rewrite take_ge by (rewrite length_drop; lia).
Qed.

(** ** The functions of the driver *)

(** Programming: the bytes are stored, or nothing is done because a part of a
    sector would have to be erased and the caller has not asked for that. *)
Lemma fromprogrambytes_wp f o bs s : drv_ok s -> flags_ok f -> bit f FLASHDEV_PROG_REBOOT = false ->
  (bit f FLASHDEV_PROG_CODE_EB = true -> o mod 4 = 0) -> bs <> [] -> Forall byte_ok bs ->
  (forall a, o <= a < o + Z.of_nat (length bs) -> free_at a) ->
  wpo (fromprogrambytes big polls stale 1 o (Some bs) f) (fun r s' =>
    (r = FLASHDEV_OK /\
     moves f s s' (fun x => Forall2 clears (slice (view f (cont s)) o (length bs)) bs ->
                     exists k, (k <= length bs)%nat /\ x =m= burn (view f (cont s)) o (take k bs))
       (burn (view f (cont s)) o bs)) \/
    (r = FLASHDEV_PARTIAL /\ bit f FLASHDEV_PROG_MERGE = false /\
     ~ Forall2 clears (slice (view f (cont s)) o (length bs)) bs /\ drv_ok s' /\ quiet s s')) s.
Proof.
  intros Hs Hfl Hrb Heb Hne Hby Hfree. destruct chip_md_eq as (Esz & _). pose proof (length_pos bs Hne) as Hlen.
  destruct (Hfree o) as [Ho _]; [lia|]. destruct (Hfree (o + Z.of_nat (length bs) - 1)) as [Ho2 _]; [lia|]. unfold chip_size in *.
  unfold fromprogrambytes. wps. apply md_of_wp; [done|]. change (default [] (Some bs)) with bs. cbn zeta.
  rewrite Esz, u32_small by lia. unfold chip_size. rewrite (proj2 (Z.ltb_ge _ _)) by lia. rewrite bool_decide_eq_false_2 by done. wps.
  eapply wp_mono; [apply build_vec_wp; [done|done|done|done|]|].
  { intros _. unfold FROMMAXSECTORS. cbn [length]. split; [apply Z.div_pos; lia|]. pose proof (Z.div_pos o 0x10000). lia. }
  intros r s1 (Hs1 & Q1 & Hr). destruct r as [e|vs]; cbn beta iota.
  { destruct Hr as (-> & H1 & H2). apply wp_ret. right. done. }
  destruct Hr as (pl & -> & Hpl). cbn [app]. unfold reallyprogrambytes. apply safe_wp; [apply Hs1|]. intros s2 Hm2 Q2.
  assert (drv_ok s2) as Hs2 by (by eapply drv_quiet). assert (quiet s s2) as Q by (by eapply quiet_trans).
  unfold _reallyprogrambytes. wps. apply md_of_wp; [done|]. wps. apply ck_of_wp. wps. change (PROGRAM_BASE ck1) with PB.
  eapply wp_mono; [apply (vec_loop_wp f _ _ _ _ Hpl); [done|done|done|]|].
  { intros _ a _. unfold view. apply (quiet_cont _ _ Q). }
  intros r s3 [-> Hm]. cbn beta. rewrite Hrb. apply wp_ret. left. split; [done|].
  pose proof (quiet_cont _ _ Q) as HV.
  eapply moves_eq; [eapply moves_trans; [apply (moves_quiet f s s2); [|done|done]|eapply moves_weaken; [exact Hm|]]|].
  - intros x Hx _. exists 0%nat. split; [lia|done].
  - intros x Hx Hcl. destruct (Hx Hcl) as (k & Hk & Hxk). exists k. split; [done|]. by rewrite Hxk, HV.
  - by rewrite HV.
Qed.

Lemma frominfo_wp o s (Q : Z * flashinfo -> from B -> Prop) : drv_ok s -> 0 <= o < chip_size ->
  (forall i s', drv_ok s' -> quiet s s' -> fi_size i = chip_size -> fi_sprot i = protect (sec o) ->
     fi_soffs i = sec o -> fi_ssize i = 0x10000 -> Q (FLASHDEV_OK, i) s') ->
  wpo (frominfo stale 1 o) Q s.
Proof.
  intros Hs Ho HQ. destruct chip_md_eq as (Esz & _). unfold frominfo. wps. apply md_of_wp; [done|]. wps. apply ck_of_wp. wps.
  apply findsector_wp; [done|done|]. intros s1 Hs1 Q1. apply wp_ret. by apply HQ.
Qed.

Lemma fromerasesector_wp f o s : drv_ok s -> free_at o ->
  wpo (fromerasesector polls 1 o) (fun r s' => r = FLASHDEV_OK /\
    moves f s s' (fun x => x =m= view f (cont s) \/ x =m= wipe (view f (cont s)) (sec o) 0x10000)
      (wipe (view f (cont s)) (sec o) 0x10000)) s.
Proof.
  intros Hs Ho. destruct chip_md_eq as (Esz & _). unfold fromerasesector. apply safe_wp; [apply Hs|]. intros s1 Hm1 Q1.
  assert (drv_ok s1) as Hs1 by (by eapply drv_quiet). unfold _fromerasesector. wps. apply md_of_wp; [done|]. wps. apply ck_of_wp.
  rewrite Esz, (proj2 (Z.leb_gt _ _)) by apply Ho. change (PROGRAM_BASE ck1) with PB.
  pose proof (quiet_cont _ _ Q1) as HV.
  assert (wipe (view f (cont s1)) (sec o) 0x10000 =m= wipe (view f (cont s)) (sec o) 0x10000) as HW.
  { intros a. unfold wipe, view. by rewrite HV. }
  eapply wp_mono; [by apply (erase_at_wp f)|]. intros r s2 [-> Hm]. split; [done|].
  eapply moves_eq; [|exact HW]. eapply moves_trans; [apply (moves_quiet f s s1); [auto|done|done]|].
  eapply moves_weaken; [exact Hm|]. intros x [Hx|Hx]; [left; by rewrite Hx, HV|right; by rewrite Hx].
Qed.

(** ** Opening the flash *)

Lemma unlock_same md' : unlock1_offs md' = unlock1_offs md -> unlock2_offs md' = unlock2_offs md ->
  forall o ids, fromautoselect stale ck1 md' o ids = fromautoselect stale ck1 md o ids.
Proof. intros E1 E2 o ids. unfold fromautoselect, _fromautoselect, fromcmd. by rewrite E1, E2. Qed.

(** The unlock cycles of the 4 Mbit chips leave the chip alone: what is read is what
    it holds. *)
Lemma autoselect_alien md' s (Q : Z * (Z * Z) -> from B -> Prop) : mode CIdle s ->
  unlock1_offs md' = UNLOCK1_4Mb_OFFS -> unlock2_offs md' = UNLOCK2_4Mb_OFFS ->
  (forall s' p, mode CIdle s' -> quiet s s' -> Q (p, (cont s' 0, cont s' 1)) s') ->
  wpo (fromautoselect stale ck1 md' 0 true) Q s.
Proof.
  intros Hm E1 E2 HQ. unfold fromautoselect. apply safe_wp; [done|]. intros s0 Hm0 Q0.
  unfold _fromautoselect, fromcmd. change (PROGRAM_BASE ck1) with PB. rewrite E1, E2. wps.
  eapply wr8_cycle; [exact Hm0|constructor|]. intros s1 Hm1 Q1. wps.
  eapply wr8_cycle; [exact Hm1|constructor|]. intros s2 Hm2 Q2. wps.
  eapply wr8_cycle; [exact Hm2|constructor|]. intros s3 Hm3 Q3. wps.
  assert (PB = PB + 0) as EB by lia.
  rewrite EB at 1. apply rd8_idle; [done|unfold chip_size; lia|]. wps.
  apply rd8_idle; [done|unfold chip_size; lia|]. wps. apply wp_ret. wps.
  replace (PB + 0 + 2) with (PB + 2) by lia. apply rd8_idle; [done|unfold chip_size; lia|]. wps.
  rewrite EB at 1. eapply wr8_cycle; [exact Hm3|by constructor; right|]. intros s4 Hm4 Q4. wps.
  rewrite EB at 1. apply rd8_idle; [done|unfold chip_size; lia|]. apply wp_ret.
  pose proof (quiet_cont _ _ Q4) as HV. change (cells (f_bus s3) (PB + 0)) with (cont s3 0). change (cells (f_bus s3) (PB + 1)) with (cont s3 1).
  rewrite <- (HV 0), <- (HV 1). apply HQ; [done|].
  eapply quiet_trans; [exact Q0|]. eapply quiet_trans; [exact Q1|]. eapply quiet_trans; [exact Q2|]. by eapply quiet_trans.
Qed.

(** The chip's own codes are not what it holds at its start. *)
Definition not_ids (m : mem) : Prop := ~ (m 0 = md_man md /\ m 1 = md_dev md).

Lemma rd8_first k s (Q : Z -> from B -> Prop) : mode CIdle s -> k = 0 \/ k = 1 ->
  Q (cont s k) s -> wpo (rd8 (PB + k)) Q s.
Proof. intros Hm Hk HQ. apply rd8_idle; [done|unfold chip_size; lia|done]. Qed.

Lemma scan_aliens rest (Q : option mandevinfo -> from B -> Prop) l :
  Forall (fun m => unlock1_offs m = UNLOCK1_4Mb_OFFS /\ unlock2_offs m = UNLOCK2_4Mb_OFFS) l -> forall s, mode CIdle s ->
  (forall s', mode CIdle s' -> quiet s s' -> wpo (scan_types stale ck1 rest) Q s') ->
  wpo (scan_types stale ck1 (l ++ rest)) Q s.
Proof.
  induction 1 as [|m l [E1 E2] _ IH]; intros s Hm HQ; cbn [app scan_types]; [apply HQ; [done|apply quiet_refl]|].
  wps. apply autoselect_alien; [done|done|done|]. intros s1 p Hm1 Q1. change (PROGRAM_BASE ck1) with PB. wps.
  replace PB with (PB + 0) at 1 by lia. apply rd8_first; [done|by left|]. rewrite Z.eqb_refl. wps.
  apply rd8_first; [done|by right|]. rewrite Z.eqb_refl. apply wp_ret. apply IH; [done|].
  intros s2 Hm2 Q2. apply HQ; [done|]. by eapply quiet_trans.
Qed.

(** A type of chip with this chip's unlock cycles. *)
Lemma scan_own md' rest s (Q : option mandevinfo -> from B -> Prop) : mode CIdle s -> not_ids (cont s) ->
  unlock1_offs md' = unlock1_offs md -> unlock2_offs md' = unlock2_offs md ->
  (forall s', mode CIdle s' -> quiet s s' ->
     if (md_man md' =? md_man md) && (md_dev md' =? md_dev md) then Q (Some md') s' else wpo (scan_types stale ck1 rest) Q s') ->
  wpo (scan_types stale ck1 (md' :: rest)) Q s.
Proof.
  intros Hm Hno E1 E2 HQ. cbn [scan_types]. rewrite (unlock_same md' E1 E2). wps.
  apply autoselect_wp; [done|unfold chip_size; lia|done|]. intros s1 i Hm1 Q1 Hi. rewrite (Hi eq_refl).
  change (PROGRAM_BASE ck1) with PB. pose proof (quiet_cont _ _ Q1) as HV. specialize (HQ s1 Hm1 Q1). wps.
  replace PB with (PB + 0) at 1 by lia. apply rd8_first; [done|by left|]. wps.
  apply wp_mono with (Q := fun r s' => r = false /\ s' = s1).
  { destruct (Z.eqb_spec (md_man md) (cont s1 0)) as [E0|]; [|by apply wp_ret]. wps.
    apply rd8_first; [done|by right|]. apply wp_ret. split; [|done]. apply Z.eqb_neq. intros E. apply Hno.
    rewrite <- (HV 0), <- (HV 1). done. }
  intros r s' [-> ->]. cbn iota. by destruct (_ && _); [apply wp_ret|].
Qed.

(** The state at power-on. *)
Definition drv_powered (s : from B) : Prop :=
  mode CIdle s /\ f_data s = [None; None; None] /\ not_ids (cont s).

Lemma flashopen_wp s : drv_powered s ->
  wpo (_sbd_flashopen stale FLASH_BASE) (fun r s' => r = Some 1%nat /\ drv_ok s' /\
    cells (f_bus s') =m= cells (f_bus s) /\ forall x, x ∈ f_past s' -> x ∈ f_past s \/ x =m= cells (f_bus s)) s.
Proof.
  intros (Hm & Hd & Hno). unfold _sbd_flashopen. change (find_cookie FLASH_BASE) with (Some 1%nat). cbn iota. wps.
  apply ck_of_wp. wps. rewrite Hd. change ([None; None; None] !! 1%nat ≫= id) with (@None mandevinfo). cbn iota. wps.
  destruct chip_md_eq as (_ & _ & _ & E1 & E2).
  assert (forall s', mode CIdle s' -> quiet s s' -> wpo (modify (set_data 1 md) ≫= fun _ => mret (Some 1%nat)) (fun r s' => r = Some 1%nat /\ drv_ok s' /\
    cells (f_bus s') =m= cells (f_bus s) /\ forall x, x ∈ f_past s' -> x ∈ f_past s \/ x =m= cells (f_bus s)) s') as Hend.
  { intros s' Hm' (H1 & H2 & H3). wps. apply wp_ret. split; [done|]. split; [split; [done|]|by split].
    cbn [f_data set_data]. by rewrite H1, Hd. }
  change mandevs with (take 8 mandevs ++ drop 8 mandevs). apply scan_aliens; [by repeat constructor|done|]. intros s1 Hm1 Q1.
  assert (forall s', quiet s s' -> not_ids (cont s')) as Hno'.
  { intros s' Q'. pose proof (quiet_cont _ _ Q') as HV. intros [F1 F2]. apply Hno. by rewrite <- (HV 0), <- (HV 1). }
  pose proof (chip_md : md ∈ drop 8 mandevs) as Hmd. cbn [drop mandevs] in *.
  apply scan_own; [done|by apply Hno'|by rewrite E1|by rewrite E2|]. intros s2 Hm2 Q2.
  assert (quiet s s2) as Q12 by (by eapply quiet_trans).
  apply elem_of_cons in Hmd as [Emd|Hmd].
  { assert (md_man md = MAN_AMD /\ md_dev md = 0xd5) as [-> ->] by (by rewrite Emd). cbn [md_man md_dev md_8Mb].
    rewrite !Z.eqb_refl. cbn [andb]. rewrite <- Emd. by apply Hend. }
  apply elem_of_cons in Hmd as [Emd|[]%elem_of_nil].
  assert (md_man md = MAN_FUJITSU /\ md_dev md = 0xd5) as [F1 F2] by (by rewrite Emd).
  rewrite F1, F2. cbn [md_man md_dev md_8Mb]. change (MAN_AMD =? MAN_FUJITSU) with false. cbn [andb].
  apply scan_own; [done|by apply Hno'|by rewrite E1|by rewrite E2|]. intros s3 Hm3 Q3.
  rewrite F1, F2. cbn [md_man md_dev md_8Mb]. rewrite !Z.eqb_refl. cbn [andb]. rewrite <- Emd. apply Hend; [done|]. by eapply quiet_trans.
Qed.

(** ** The promises of a flash device *)

Definition drv_past (s : from B) : list mem := shift <$> f_past s.
Definition drv_geometry (o : Z) : option (Z * Z) :=
  if decide (free_at o) then Some (sec o, 0x10000) else None.
Definition drv_power_cycle (s : from B) : from B := Build_from B (bus_reset (f_bus s)) [None; None; None] [] [].
(** An operation leaves the contents [m], and those in between satisfy [P]. *)
Definition drv_evolves (s : from B) (P : mem -> Prop) (m : mem) (s' : from B) : Prop :=
  (1%nat = 1%nat /\ drv_ok s') /\ cont s' =m= m /\ forall x, x ∈ drv_past s' -> x ∈ drv_past s \/ P x.

Lemma evolves_moves s s' (P : mem -> Prop) V : moves FLASHDEV_PROG_STREAM s s' P V -> drv_evolves s P V s'.
Proof.
  intros (H1 & H2 & H3). split; [done|]. split; [done|]. unfold drv_past.
  intros x (y & -> & Hy)%list_elem_of_fmap. destruct (H3 y Hy) as [Hy'|Hy']; [left|by right].
  apply list_elem_of_fmap. by exists y.
Qed.

Lemma evolves_quiet s s' : drv_ok s' -> quiet s s' -> drv_evolves s (fun x => x =m= cont s) (cont s) s'.
Proof. intros Hd Hq. apply evolves_moves. by apply (moves_quiet FLASHDEV_PROG_STREAM). Qed.

Lemma geometry_inv o so sn : drv_geometry o = Some (so, sn) -> free_at o /\ so = sec o /\ sn = 0x10000.
Proof. unfold drv_geometry. destruct (decide (free_at o)); [|done]. by intros [= <- <-]. Qed.

Lemma sec_inside o : 0 <= o < chip_size -> 0 <= sec o <= o /\ o < sec o + 0x10000 /\ sec o + 0x10000 <= chip_size.
Proof. intros Ho. unfold chip_size, sec in *. Z.div_mod_to_equations. lia. Qed.

Abbreviation FDev := (flashdev big polls stale).

#[global] Instance sbdfrom_ok : FlashDevOk (from B) nat (FD := FDev).
Proof.
  refine {| dev_ok c s := c = 1%nat /\ drv_ok s; contents _ s := cont s; past _ s := drv_past s;
            fl_size _ := chip_size; geometry _ := drv_geometry; flash0 := 1%nat;
            powered := drv_powered; power_cycle := drv_power_cycle; openable := not_ids |}.
  - intros m m' so sn (Hf & -> & ->)%geometry_inv Hno Ha [E1 E2]. apply Hno.
    assert (sec (chip_size - 512) = 0xf0000) as Es by done. rewrite Es in Ha. by rewrite <- !Ha by lia.
  - intros _. unfold chip_size. lia.
  - intros _ o so sn ([Hf _] & -> & ->)%geometry_inv. by apply sec_inside.
  - intros _ o so sn a (Hf & -> & ->)%geometry_inv Ha. unfold drv_geometry. pose proof (sec_same o a Ha) as E.
    rewrite decide_True, E; [done|]. destruct Hf as [Hf Hp]. pose proof (sec_inside o Hf). split; [lia|by rewrite E].
  - intros c s a [_ [Hm _]]. apply (cell_byte CIdle _ _ Hm).
  - intros s [_ [Hm _]] Hno. destruct (reset_ok CIdle (f_bus s) Hm) as [H1 H2].
    assert (cont (drv_power_cycle s) =m= cont s) as HV by (intros a; apply H2).
    split; [|done]. split; [done|]. split; [done|]. intros [F1 F2]. apply Hno. by rewrite <- (HV 0), <- (HV 1).
  - by intros s (_ & _ & Hno).
  - intros s Hs. eapply wp_mono; [by apply flashopen_wp|]. intros r s' (-> & Hd & Hc & Hp). split; [done|].
    split; [done|]. split; [intros a; apply Hc|]. intros x (y & -> & Hy)%list_elem_of_fmap.
    destruct (Hp y Hy) as [Hy'|Hy']; [left; apply list_elem_of_fmap; by exists y|right]. intros a. apply Hy'.
  - intros c o s [-> Hs] Ho. apply frominfo_wp; [done|done|]. intros i s' Hd Hq H1 H2 H3 H4. split; [by apply evolves_quiet|].
    split; [done|]. split; [done|]. unfold drv_geometry. destruct (decide (free_at o)) as [[_ Hp]|Hn].
    + by rewrite H2, Hp.
    + rewrite H2. intros E. by apply Hn.
  - intros c o buf s [-> Hs] Ho Hn. eapply wp_run; [by apply fromreadbytes_ok|]. done.
  - intros c so sn o bs s [-> Hs] Hne Hg Hby Hcl.
    eapply wp_mono; [apply (fromprogrambytes_wp FLASHDEV_PROG_STREAM); try done|].
    { intros a Ha. by destruct (geometry_inv a so sn (Hg a Ha)) as [? _]. }
    intros r s' [[-> Hm]|(_ & _ & Hn & _)]; [|by destruct Hn]. split; [done|]. apply evolves_moves.
    eapply moves_weaken; [exact Hm|]. intros x Hx. by apply Hx.
  - intros c o mem f s [-> Hs] Hm Ho. cbn [flash_programbytes flashdev]. unfold fromprogrambytes. wps. apply md_of_wp; [done|].
    destruct chip_md_eq as (Esz & _). rewrite Hm, Esz. cbn [length]. rewrite u32_small by (unfold chip_size in *; lia).
    rewrite (proj2 (Z.ltb_ge _ _)) by lia. by apply wp_ret.
  - intros c so sn o s [-> Hs] (Hf & -> & ->)%geometry_inv.
    eapply wp_mono; [by apply (fromerasesector_wp FLASHDEV_PROG_STREAM)|]. intros r s' [-> Hm]. split; [done|].
    by apply evolves_moves.
Defined.

(** ** Properties of the driver *)

(** What the driver programs it reads back. On a chip that keeps to the
    protocol of the 8 Mbit chips of the table, whose sectors are all of 64 KB, a
    call of [fromprogrambytes] for at least one byte that may merge
    ([FLASHDEV_PROG_MERGE]) and does not ask for a reboot, over sectors that are
    not protected, and from a multiple of four on when the bytes are big-endian
    code, ends without a fault with [FLASHDEV_OK], whatever those sectors held and
    however many it spans; [fromreadbytes] with the same flags then gives the
    bytes, and all others are as they were. (Chips with small boot sectors are
    misread: [top_boot_sectors_misplaced].) *)
Theorem flash_program_read f o bs buf s : drv_ok s -> flags_ok f -> bit f FLASHDEV_PROG_REBOOT = false ->
  bit f FLASHDEV_PROG_MERGE = true -> (bit f FLASHDEV_PROG_CODE_EB = true -> o mod 4 = 0) ->
  bs <> [] -> Forall byte_ok bs -> length buf = length bs ->
  (forall a, o <= a < o + Z.of_nat (length bs) -> free_at a) ->
  wp no_fault (fromprogrambytes big polls stale 1 o (Some bs) f) (fun r s' => r = FLASHDEV_OK /\ drv_ok s' /\
    fromreadbytes big 1 o buf f s' = Ok ((FLASHDEV_OK, bs), s') /\
    forall a, ~ (o <= a < o + Z.of_nat (length bs)) -> view f (cont s') a = view f (cont s) a) s.
Proof.
  intros Hs Hfl Hrb Hmg Heb Hne Hby Hbuf Hfree. eapply wp_mono; [by apply fromprogrambytes_wp|].
  intros r s' [[-> (Hd & HV & _)]|(_ & Hn & _)]; [|by rewrite Hmg in Hn]. split; [done|]. split; [done|].
  pose proof (length_pos bs Hne) as Hlen. destruct (Hfree o) as [Ho _]; [lia|].
  destruct (Hfree (o + Z.of_nat (length bs) - 1)) as [Ho2 _]; [lia|]. split.
  - rewrite fromreadbytes_ok by (done || lia). rewrite Hbuf, (slice_eq _ _ _ _ HV). do 3 f_equal.
    pose proof (slice_burn (view f (cont s)) o (length bs) 0 bs ltac:(lia)) as E. rewrite Z.add_0_r in E. rewrite E.
    rewrite drop_ge by (rewrite slice_length; lia). by rewrite app_nil_r.
  - intros a Ha. rewrite HV. by apply burn_outside.
Qed.

End Driver.
