(* ===== verification/FlashSim.v ===== *)
(** * FlashSim: a simulated flash chip

    An executable chip of the kind [AmdChip] describes; with it the theorems about
    the driver and about the environment hold of a concrete machine, and the
    places where the code does not do what it means to can be run. *)

From S2P Require Import Prelude CString Comp Flashdev Flashenv FlashenvOk FlashenvMap FlashenvSafe Sbdfrom SbdfromOk.

(** An Am29F080. *)
Definition am29f080 : mandevinfo := md_8Mb "Am29F080" MAN_AMD 0xd5 FBNONE.

Record sim : Type := { sm_mode : cmode; sm_cells : mem }.

Definition sim_write (a v : Z) (b : sim) : sim :=
  let o := a - PB in
  let to m := {| sm_mode := m; sm_cells := sm_cells b |} in
  match sm_mode b with
  | CIdle => if (o =? UNLOCK1_8Mb_OFFS) && (v =? UNLOCK1_DATA) then to CUnlock1 else to CIdle
  | CUnlock1 => if (o =? UNLOCK2_8Mb_OFFS) && (v =? UNLOCK2_DATA) then to CUnlock2 else to CIdle
  | CUnlock2 =>
    if o =? UNLOCK1_8Mb_OFFS then
      if v =? FROM_AUTOSELECT then to CIdent else if v =? FROM_PROGRAM then to CArmed
      else if v =? FROM_ERASE then to CErase else to CIdle
    else to CIdle
  | CIdent => if v =? FROM_RESET then to CIdle else to CIdent
  | CArmed => {| sm_mode := CBusy 1 a v; sm_cells := upd (sm_cells b) a (Z.land v (sm_cells b a)) |}
  | CErase => if (o =? UNLOCK1_8Mb_OFFS) && (v =? UNLOCK1_DATA) then to CErase1 else to CIdle
  | CErase1 => if (o =? UNLOCK2_8Mb_OFFS) && (v =? UNLOCK2_DATA) then to CErase2 else to CIdle
  | CErase2 =>
    if v =? FROM_ERASESECT
    then {| sm_mode := CBusy 1 a 0xff; sm_cells := wipe (sm_cells b) (PB + sec o) 0x10000 |}
    else to CIdle
  | CBusy n a' v' => to (CBusy n a' v')
  end.

Section Sim.
Variable big : bool.

Definition sim_read (a : Z) (b : sim) : Z * sim :=
  match sm_mode b with
  | CIdent => (if a =? PB then md_man am29f080 else if a =? PB + 1 then md_dev am29f080 else 0, b)
  | CBusy (S n) a' v' => (if Z.testbit v' 7 then 0 else 0x80, {| sm_mode := CBusy n a' v'; sm_cells := sm_cells b |})
  | CBusy O a' v' => (v', {| sm_mode := CIdle; sm_cells := sm_cells b |})
  | _ =>
    (if a <? FLASH_BASE then sm_cells b a
     else sm_cells b (PB + (if big then Z.lxor (a - FLASH_BASE) 3 else a - FLASH_BASE)), b)
  end.

#[global] Instance sim_bus : FlashBus sim := {
  pread8 := sim_read;
  pwrite8 := sim_write;
  malloc_ok _ b := (true, b);
  codesize _ := 256;
  cells := sm_cells
}.

Definition sim_in (m : cmode) (b : sim) : Prop := sm_mode b = m /\ forall a, byte_ok (sm_cells b a).

Lemma land_128 v : Z.land v 128 = if Z.testbit v 7 then 128 else 0.
Proof.
  apply Z.bits_inj'. intros i Hi. rewrite Z.land_spec. change 128 with (2 ^ 7). rewrite Z.pow2_bits_eqb by lia.
  destruct (Z.eqb_spec 7 i) as [<-|Hne].
  - by destruct (Z.testbit v 7).
  - rewrite andb_false_r. destruct (Z.testbit v 7); [|by rewrite Z.bits_0].
    rewrite Z.pow2_bits_eqb by lia. by destruct (Z.eqb_spec 7 i).
Qed.

#[global] Instance sim_chip : AmdChip sim big 3 am29f080.
Proof.
  refine {| in_mode := sim_in; protect _ := 0; bus_reset b := {| sm_mode := CIdle; sm_cells := sm_cells b |} |}.
  - apply list_elem_of_here.
  - auto.
  - by intros m b a [_ H].
  - intros m o v m' [bm bc] Hc [Hm Hb]. cbn in Hm. subst bm. cbn [pwrite8 sim_bus cells].
    unfold sim_write. cbn [sm_mode sm_cells]. replace (PB + o - PB) with o by lia.
    destruct Hc; try (destruct H as [-> | ->]); by cbn.
  - intros o [bm bc] [Hm Hb] Ho. cbn in Hm. subst bm. cbn [pread8 sim_bus cells sm_cells sim_read sm_mode].
    unfold PB, chip_size in *. rewrite (proj2 (Z.ltb_lt _ _)) by (unfold FLASH_BASE, PROGRAM_OFFS; lia). split; [done|].
    rewrite (proj2 (Z.ltb_ge _ _)) by lia. by replace (FLASH_BASE + o - FLASH_BASE) with o by lia.
  - intros [bm bc] [Hm Hb]. cbn in Hm. by subst bm.
  - intros [bm bc] [Hm Hb]. cbn in Hm. by subst bm.
  - intros o [bm bc] [Hm Hb] Ho Hs. cbn in Hm. subst bm. exists 0. split; [|done]. cbn [pread8 sim_bus sim_read sm_mode].
    rewrite !(proj2 (Z.eqb_neq _ _)) by lia. done.
  - intros o v [bm bc] [Hm Hb] Ho _ Hv Hc. cbn in Hm. subst bm. exists 1%nat. split; [lia|]. cbn [pwrite8 sim_bus cells sm_cells sim_write sm_mode] in *.
    unfold clears in Hc. rewrite Hc. split; [|done]. split; [done|]. cbn [sm_cells]. intros a. unfold upd. by destruct (_ =? _).
  - intros o [bm bc] [Hm Hb] Ho _. cbn in Hm. subst bm. exists 1%nat. split; [lia|]. cbn [pwrite8 sim_bus cells sm_cells sim_write sm_mode].
    replace (PB + o - PB) with o by lia. rewrite Z.eqb_refl. split; [|done]. split; [done|]. cbn [sm_cells]. intros a. unfold wipe.
    case_match; [unfold byte_ok; lia|done].
  - intros n a v [bm bc] [Hm Hb]. cbn in Hm. subst bm. cbn [pread8 sim_bus cells sm_cells sim_read sm_mode]. destruct n as [|n].
    + eexists _, _. split; [done|]. split; [done|]. left. by rewrite Z.lxor_nilpotent.
    + eexists _, _. split; [done|]. split; [done|]. right. unfold DQPOLL, DQTIMEEXCEEDED. change 0x80 with 128.
      rewrite land_128, Z.lxor_spec. destruct (Z.testbit v 7) eqn:E; (split; [by cbn|split; [done|by exists n]]).
  - intros k b Hb. by exists b.
  - intros m b [_ Hb]. done.
Defined.

End Sim.

(** ** A machine

    A little-endian machine with an erased chip. *)
#[local] Existing Instance sim_bus | 0.
#[export] Instance sim_dev : FlashDev (from sim) nat := flashdev (FB := sim_bus false) false 3 0.
#[export] Instance sim_ok : FlashDevOk (from sim) nat (FD := sim_dev) :=
  sbdfrom_ok (FB := sim_bus false) false 3 0 am29f080 (AC := sim_chip false).

Definition sim_blank : from sim :=
  Build_from sim {| sm_mode := CIdle; sm_cells := fun _ => 0xff |} [None; None; None] [] [].

Lemma sim_geometry : geometry (FlashDevOk := sim_ok) flash0 (fl_size flash0 - 512) = Some (0xf0000, 0x10000).
Proof. reflexivity. Defined.

Lemma sim_powered : powered (FlashDevOk := sim_ok) sim_blank.
Proof. split; [split; [done|intros a; unfold byte_ok; cbn; lia]|]. split; [done|]. by intros [? _]. Defined.

Lemma sim_store : exists s, store (FO := sim_ok) 0xf0000 0x10000 s [] /\ envsize s = 0.
Proof.
  destruct (wp_elim _ _ _ (boot_wp (FO := sim_ok) 0 true 0xf0000 0x10000 sim_geometry ltac:(lia) sim_blank 0x2000000 sim_powered))
    as (r & s & _ & _ & [(es & Hes & _)|(_ & Hok & _)]).
  - apply sector_magic in Hes. discriminate Hes.
  - exists s. split; [|apply (ok_size _ _ _ _ Hok)]. exists []. split; [done|]. split; [by constructor|]. split; [done|apply NoDup_nil_2].
Defined.

(** ** Witnesses *)

Definition sim_ops : list op :=
  [OSet (str "bootdelay") (Some (str "5")) true; OSet (str "ethaddr") (Some (str "00:40:bc:01")) true;
   OSet (str "bootdelay") (Some (str "9")) true; ORestart; OGet (str "bootdelay"); OUnset (str "ethaddr"); OMap].

Lemma flashenv_refines_witness : exists s, store (FO := sim_ok) 0xf0000 0x10000 s [] /\
  wp no_fault (run_ops (FO := sim_ok) 0 true 0x2000000 sim_ops) (fun l _ =>
    l = [AStatus 0 0; AStatus 0 0; AStatus 0 0; ADone; AValue (Some (str "9")); ADone;
         ACalls [(str "bootdelay", Some (str "9"))]]) s.
Proof.
  destruct sim_store as (s & Hs & _). exists s. split; [exact Hs|].
  eapply wp_mono; [apply (flashenv_refines 0 true 0xf0000 0x10000 sim_geometry ltac:(lia) 0x2000000 s [] sim_ops Hs)|].
  - repeat constructor; cbn; try done; try lia.
  - intros l s' [-> _]. vm_compute. reflexivity.
Defined.

Lemma flashenv_power_failure_witness : exists s, store (FO := sim_ok) 0xf0000 0x10000 s [] /\
  wp no_fault (run_op (FO := sim_ok) 0 true 0x2000000 (OSet (str "a") (Some (str "b")) true)) (fun _ s' =>
    forall x, x ∈ past flash0 (fe_dev s') -> x ∈ past flash0 (fe_dev s) \/
      recovers (FO := sim_ok) 0 true 0xf0000 0x10000 0x2000000 x
        (between 0xf0000 0x10000 (OSet (str "a") (Some (str "b")) true) [])) s.
Proof.
  destruct sim_store as (s & Hs & Hsz). exists s. split; [exact Hs|].
  apply (flashenv_power_failure 0 true 0xf0000 0x10000 sim_geometry ltac:(lia) 0x2000000 s [] _ Hs).
  - repeat constructor; cbn; try done; try lia.
  - done.
  - rewrite Hsz. vm_compute. discriminate.
Defined.

Lemma flashenv_start_witness :
  wp no_fault (env_invalid (FD := sim_dev) 0 true) (fun r s' => r = 0 /\ store (FO := sim_ok) 0xf0000 0x10000 s' [])
    (fenv_boot sim_blank 0x2000000).
Proof.
  eapply wp_mono; [apply (flashenv_start (FO := sim_ok) 0 true 0xf0000 0x10000 sim_geometry ltac:(lia) 0x2000000 sim_blank sim_powered)|].
  intros r s' [-> [(es & Hes & _)|(_ & Hst & _)]]; [|done]. apply sector_magic in Hes. discriminate Hes.
Defined.

(** The driver with the chip open. *)
Definition sim_open : from sim :=
  Build_from sim {| sm_mode := CIdle; sm_cells := fun a => Z.land a 0x0f |} [None; Some am29f080; None] [] [].

(** Big-endian code over what the chip holds; the sector is merged. *)
Lemma flash_program_read_witness :
  wp no_fault (fromprogrambytes (FB := sim_bus false) false 3 0 1 0x1fffc (Some [1; 2; 3; 4; 5; 6])
      (Z.lor FLASHDEV_PROG_MERGE FLASHDEV_PROG_CODE_EB)) (fun r s' => r = FLASHDEV_OK /\
    fromreadbytes (FB := sim_bus false) false 1 0x1fffc (replicate 6 0) (Z.lor FLASHDEV_PROG_MERGE FLASHDEV_PROG_CODE_EB) s' =
      Ok ((FLASHDEV_OK, [1; 2; 3; 4; 5; 6]), s')) sim_open.
Proof.
  eapply wp_mono; [apply (flash_program_read (FB := sim_bus false) false 3 0 am29f080 (AC := sim_chip false)
    (Z.lor FLASHDEV_PROG_MERGE FLASHDEV_PROG_CODE_EB) 0x1fffc [1; 2; 3; 4; 5; 6] (replicate 6 0))|].
  - split; [split; [done|]|done]. intros a. unfold byte_ok. cbn [sim_open f_bus sm_cells]. change 0x0f with (Z.ones 4).
    rewrite Z.land_ones by lia. pose proof (Z.mod_pos_bound a (2 ^ 4)). lia.
  - done.
  - done.
  - done.
  - done.
  - done.
  - repeat constructor; unfold byte_ok; lia.
  - done.
  - cbn [length]. intros a Ha. split; [unfold chip_size; lia|done].
  - intros r s' (-> & _ & H & _). done.
Defined.

(** ** What the code does not do *)

(** A session on a new chip: the answers, and how the environment started last. *)
Definition session (os : list op) : option (list ans * Z) :=
  match env_invalid (FD := sim_dev) 0 true (fenv_boot sim_blank 0x2000000) with
  | Ok (_, s) =>
    match run_ops (FO := sim_ok) 0 true 0x2000000 os s with
    | Ok (l, s') => Some (l, env_init_state s')
    | Err _ => None
    end
  | Err _ => None
  end.

(** A name that is not printable is stored, and the next start takes the whole
    environment for a damaged one and erases it. *)
Lemma unprintable_name_erases_all :
  session [OSet (str "a") (Some (str "1")) true; OSet [1] None true; OMap; ORestart; OMap] =
    Some ([AStatus 0 0; AStatus 0 0; ACalls [(str "a", Some (str "1")); ([1], Some [])]; ADone; ACalls []],
      ENVSTATE_UNRECOVERABLE).
Proof. vm_compute. reflexivity. Qed.

(** A name with an equals sign is read back as another variable. *)
Lemma equals_in_name :
  session [OSet (str "A=B") (Some (str "x")) true; OGet (str "A"); OGet (str "A=B")] =
    Some ([AStatus 0 0; AValue (Some (str "B=x")); AValue (Some (str "x"))], ENVSTATE_UNINITIALISED).
Proof. vm_compute. reflexivity. Qed.

(** The first name byte of a record goes from erased through any of the bytes the
    chip has cleared half of: 0xe1 on the way to an [a]. Such a byte is neither
    free, nor deleted, nor printable. *)
Lemma half_programmed_name : clears 0xff 0xe1 /\ clears 0xe1 (nth 0 (str "a") 0) /\
  active 0xe1 = true /\ (0xe1 <? 32) || (0x7f <=? 0xe1) = true.
Proof. repeat split. Qed.

Definition am29f400t : mandevinfo := md_4Mb "Am29F400T" MAN_AMD 0x23 FBTOP.
Definition sim_with (cells : mem) (md : option mandevinfo) : from sim :=
  Build_from sim {| sm_mode := CIdle; sm_cells := cells |} [None; md; None] [] [].

(** The boot sectors at the top of a 4 Mbit chip: the first byte of one is taken
    for the sector below it, and the large sector gets its end as its size. *)
Lemma top_boot_sectors_misplaced :
  sector_of am29f400t 0x7c000 = (0x7a000, 0x2000) /\ sector_of am29f400t 0x70000 = (0x70000, 0x78000).
Proof. split; vm_compute; reflexivity. Qed.

(** Programming such a byte makes no progress, and runs over the vector. *)
Lemma top_boot_sector_overrun :
  fromprogrambytes (FB := sim_bus false) false 3 0 1 0x7c000 (Some [1; 2]) 0 (sim_with (fun _ => 0) (Some am29f400t)) =
    Err OutOfBounds.
Proof. vm_compute. reflexivity. Qed.

(** The erase test of big-endian code looks at another byte than the programming,
    when the offset is not a multiple of four: the sector is not erased. *)
Lemma erase_test_misaligned :
  match fromprogrambytes (FB := sim_bus false) false 3 0 1 1 (Some [0x55]) (Z.lor FLASHDEV_PROG_MERGE FLASHDEV_PROG_CODE_EB)
      (sim_with (fun a => if a =? PB + 2 then 0 else 0xff) (Some am29f080)) with
  | Ok (r, s) => r = FLASHDEV_OK /\ sm_cells (f_bus s) (PB + 2) = 0
  | Err _ => False
  end.
Proof. vm_compute. split; reflexivity. Qed.

(** A chip that holds its own identity in its first two bytes is taken for an EPROM. *)
Lemma own_identity_not_found :
  match _sbd_flashopen (FB := sim_bus false) 0 FLASH_BASE
      (sim_with (fun a => if a =? PB then 1 else if a =? PB + 1 then 0xd5 else 0xff) None) with
  | Ok (r, _) => r = None
  | Err _ => False
  end /\
  match _sbd_flashopen (FB := sim_bus false) 0 FLASH_BASE sim_blank with Ok (r, _) => r = Some 1%nat | Err _ => False end.
Proof. vm_compute. split; reflexivity. Qed.
