(* ===== verification/Flashcmd.v ===== *)
(** * Flashcmd: the flash command

    [src/pmon/p5064/flash.c], the public functions that describe and program the
    flash of the P-5064, and the command [flash] of [src/pmon/commands.c] above
    them. The device is reached through [FlashDev]; the theorem takes the driver
    of [Sbdfrom] for it. *)

From S2P Require Import Prelude CString Comp Memory Tunables Env Symtab Expr Memcmds Flashdev Sbdfrom SbdfromOk FlashSim.

(** [src/pmon/p5064/sbd.h:55] *)
Definition BOOTPROM_BASE : Z := 0x1fc00000.

(** [src/include/mips.h:199-212] *)
Definition KVA_TO_PA (va : Z) : Z := Z.land (u32 va) (0x20000000 - 1).

(** The statics of the file, the device and what was printed.
    [src/pmon/p5064/flash.c:8-9] *)
Record flashcmd (D C : Type) : Type := {
  fc_cookie : option C;
  fc_size : Z;
  fc_dev : D;
  fc_out : trace
}.
Arguments Build_flashcmd {D C}.
Arguments fc_cookie {D C} _.
Arguments fc_size {D C} _.
Arguments fc_dev {D C} _.
Arguments fc_out {D C} _.

Section Flashcmd.
Context {D C : Type} {FD : FlashDev D C}.
(** The top of the heap, and the places the linker gave the monitor. *)
Variables (heaptop ftext etext fdata edata : Z).

Abbreviation ST := (flashcmd D C).
Abbreviation MC := (M ST).

Definition set_found (c : option C) (n : Z) (s : ST) : ST := Build_flashcmd c n (fc_dev s) (fc_out s).
Definition print (ev : trace) : MC unit :=
  Comp.modify (fun s => Build_flashcmd (fc_cookie s) (fc_size s) (fc_dev s) (fc_out s ++ ev)).
Definition on_flash {A} (m : M D A) : MC A := fun s =>
  match m (fc_dev s) with
  | Ok (a, d) => Ok (a, Build_flashcmd (fc_cookie s) (fc_size s) d (fc_out s))
  | Err f => Err f
  end.

(** The buffer and the size it gives back.
    [src/pmon/p5064/flash.c:11-28] *)
Definition sbd_flashinfo : MC (Z * Z) :=
  gets fc_cookie ≫= fun c0 =>
  (match c0 with
   | Some _ => mret tt
   | None =>
     on_flash (flash_open FLASH_BASE) ≫= fun c =>
     match c with
     | Some ck => on_flash (flash_info ck 0) ≫= fun '((_, i) : Z * flashinfo) => Comp.modify (set_found (Some ck) (fi_size i))
     | None => Comp.modify (fun s => set_found None (fc_size s) s)
     end
   end) ≫= fun _ =>
  gets fc_cookie ≫= fun c =>
  match c with
  | Some _ => gets fc_size ≫= fun n => mret (heaptop, n)
  | None => mret (0, 0)
  end.

(** Whether the monitor itself is programmed.
    [src/pmon/p5064/flash.c:48-50] *)
Definition reboot_needed (offset : Z) : bool :=
  (BOOTPROM_BASE <=? KVA_TO_PA ftext) &&
  (offset <? u32 (Z.land ((etext - ftext) + 15) (Z.lnot 15) + (edata - fdata))).

(** The flags of the call.
    [src/pmon/p5064/flash.c:66-69] *)
Definition prog_flags (bigend reboot : bool) : Z :=
  Z.lor (Z.lor FLASHDEV_PROG_MERGE (if bigend then FLASHDEV_PROG_CODE_EB else FLASHDEV_PROG_CODE_EL))
    (if reboot then FLASHDEV_PROG_REBOOT else 0).

(** [src/pmon/p5064/flash.c:71-93] *)
Definition status_text (res : Z) : event :=
  if res =? FLASHDEV_OK then Printf "completed ok\n" []
  else if res =? FLASHDEV_FAIL then Printf "parameter error\n" []
  else if res =? FLASHDEV_PROTECTED then Printf "can't program protected sector\n" []
  else if res =? FLASHDEV_PARTIAL then Printf "can't erase partial sector\n" []
  else if res =? FLASHDEV_NOMEM then Printf "no programming buffer space\n" []
  else if res =? FLASHDEV_FATAL then Printf "fatal programming error\n" []
  else Printf "unknown error code %d\n" [AInt res].

(** The question.
    [src/pmon/p5064/flash.c:52-57] *)
Definition question (size offset : Z) (bigend reboot : bool) : trace :=
  [Printf "Programming FLASH 0x%x-0x%x (" [AInt offset; AInt (u32 (offset + size))];
   Printf "writing %s endian" [AStr (Some (str (if bigend then "big" else "little")))]] ++
  (if reboot then [Printf ", then rebooting" []] else []) ++
  [Printf ")\nAre you sure? (y/n) " []].

(** The bytes to program are those of memory at [data]; [answer] is the character
    that is typed.
    [src/pmon/p5064/flash.c:34-97] *)
Definition sbd_flashprogram (m : mem) (answer : Z) (data size offset : Z) (bigend : bool) : MC Z :=
  gets fc_size ≫= fun n =>
  if n <? u32 (size + offset) then
    print [Printf "Too large for FLASH (offset 0x%x + size 0x%x > max 0x%x)\n" [AInt offset; AInt size; AInt n]] ≫= fun _ =>
    mret 1
  else
    let reboot := reboot_needed offset in
    print (question size offset bigend reboot) ≫= fun _ =>
    if negb (answer =? ch "Y") && negb (answer =? ch "y") then
      print [Printf "\nAbandoned\n" []] ≫= fun _ => mret 0
    else
      print [Printf "\nStarting..." []] ≫= fun _ =>
      gets fc_cookie ≫= fun c => need c ≫= fun ck =>
      on_flash (flash_programbytes ck offset (Some (slice m data (Z.to_nat size))) (prog_flags bigend reboot)) ≫= fun res =>
      print [status_text res] ≫= fun _ => mret 0.

(** ** The command *)

Section Command.
Context {W : Type} (big : bool) (r : dbgreg) (st : symtab) (en : Env.env (W := W)) (m : mem).

(** A number of the command line, or the message.
    [src/pmon/commands.c:456-469] *)
Definition with_number (p : cstr) (what : string) (k : Z -> MC Z) : MC Z :=
  match get_rsa big r m st en p with
  | (Val v, t) => print t ≫= fun _ => k v
  | (Bad, t) => print (t ++ [Printf what []]) ≫= fun _ => mret (-1)
  | (Unset, _) => fail OutOfBounds
  end.

(** The byte order the option asks for; whether there was one.
    [src/pmon/commands.c:436-454] *)
Definition endian_option (w : cstr) : option bool :=
  if striequ (Some w) (Some (str "-eb")) then Some true
  else if striequ (Some w) (Some (str "-el")) then Some false
  else if striequ (Some w) (Some (str "-w")) then Some (negb big)
  else None.

(** [src/pmon/commands.c:417-475] *)
Definition flashprogram (answer : Z) (av : list cstr) : MC Z :=
  sbd_flashinfo ≫= fun '((_, fsize) : Z * Z) =>
  if fsize =? 0 then print [Printf "No flash found\n" []] ≫= fun _ => mret 1
  else
    let opt := endian_option (argn av 1) in
    if bool_decide (opt <> None) && (length av <? 5)%nat then mret 1
    else
      let bigend := default big opt in
      let av := match opt with Some _ => tail av | None => av end in
      with_number (argn av 1) "bad address\n" (fun addr =>
      with_number (argn av 2) "bad size\n" (fun size =>
      with_number (argn av 3) "bad offset\n" (fun offset =>
        print [Printf "Address = %x, Size = %x, Offset = %x\n" [AInt addr; AInt size; AInt offset]] ≫= fun _ =>
        sbd_flashprogram m answer addr size offset bigend ≫= fun _ => mret 0))).

End Command.
End Flashcmd.

(** ** The command on the P-5064 *)

Section P5064.
Context {B : Type} `{FB : FlashBus B}.
Variables (big : bool) (polls : nat) (stale : Z) (md : mandevinfo).
Context {AC : AmdChip B big polls md}.
Variables (heaptop ftext etext fdata edata : Z).
Context {W : Type} (r : dbgreg) (st : symtab) (en : Env.env (W := W)) (m : mem).
#[local] Set Default Proof Using "Type".

Abbreviation FDev := (flashdev (FB := FB) big polls stale).
Abbreviation FOk := (sbdfrom_ok (FB := FB) big polls stale md (AC := AC)).
Abbreviation S := (flashcmd (from B) nat).
Abbreviation drv_ok := (SbdfromOk.drv_ok (FB := FB) big polls md (AC := AC)).

Lemma on_flash_wp {A} (c : M (from B) A) (Q : A -> S -> Prop) (s : S) :
  wp no_fault c (fun a d => Q a (Build_flashcmd (fc_cookie s) (fc_size s) d (fc_out s))) (fc_dev s) ->
  wp no_fault (on_flash c) Q s.
Proof. unfold wp, on_flash. by destruct (c (fc_dev s)) as [[a d]|f]. Qed.

(** The chip is found: it is open, and its size is known. *)
Record found (s0 s : S) : Prop := {
  fd_cookie : fc_cookie s = Some 1%nat;
  fd_size : fc_size s = chip_size;
  fd_dev : drv_ok (fc_dev s);
  fd_cont : cont (fc_dev s) =m= cont (fc_dev s0)
}.

Lemma flashinfo_wp (s : S) : fc_cookie s = None -> powered (FlashDevOk := FOk) (fc_dev s) ->
  wp no_fault (sbd_flashinfo (FD := FDev) heaptop) (fun '(_, n) s' => n = chip_size /\ found s s') s.
Proof.
  intros Hc Hp. unfold sbd_flashinfo. wps. rewrite Hc. wps. apply on_flash_wp.
  eapply wp_mono; [by apply (open_ok (FlashDevOk := FOk))|]. intros c d [-> Hd]. cbn beta iota. wps.
  apply on_flash_wp. cbn [fc_dev]. destruct Hd as (Hd & HV & _).
  eapply wp_mono; [apply (info_ok (FlashDevOk := FOk) 1%nat 0); [exact Hd|done]|].
  intros [r0 i] d' ((Hd' & HV' & _) & -> & Hn & _). cbn beta iota. wps. cbn [set_found fc_cookie]. wps. apply wp_ret.
  cbn [set_found fc_size]. split; [exact Hn|]. split; cbn [set_found fc_cookie fc_size fc_dev]; [done|exact Hn|apply Hd'|].
  intros a. exact (eq_trans (HV' a) (HV a)).
Qed.

Lemma flashprogram_wp (s0 s : S) answer data size offset bigend : found s0 s ->
  (forall a, byte_ok (m a)) -> 0 < size -> 0 <= offset -> offset + size <= chip_size ->
  (bigend = true -> offset mod 4 = 0) ->
  (forall a, offset <= a < offset + size -> free_at (FB := FB) big polls md (AC := AC) a) ->
  reboot_needed ftext etext fdata edata offset = false ->
  let f := prog_flags bigend false in
  wp no_fault (sbd_flashprogram (FD := FDev) ftext etext fdata edata m answer data size offset bigend) (fun r s' =>
    drv_ok (fc_dev s') /\
    if (answer =? ch "Y") || (answer =? ch "y")
    then fc_out s' = fc_out s ++ question size offset bigend false ++ [Printf "\nStarting..." []; Printf "completed ok\n" []] /\
         (forall i, 0 <= i < size -> view f (cont (fc_dev s')) (offset + i) = m (data + i)) /\
         forall a, ~ (offset <= a < offset + size) -> view f (cont (fc_dev s')) a = view f (cont (fc_dev s)) a
    else fc_out s' = fc_out s ++ question size offset bigend false ++ [Printf "\nAbandoned\n" []] /\
         fc_dev s' = fc_dev s) s.
Proof.
  intros [Hc Hsz Hd _] Hm Hs Ho Hfit Heb Hfree Hrb f. unfold sbd_flashprogram. wps. rewrite Hsz.
  rewrite u32_small by (unfold chip_size in *; lia). rewrite (proj2 (Z.ltb_ge _ _)) by lia. rewrite Hrb. cbn zeta.
  unfold print. wps. rewrite <- negb_orb. destruct (_ || _); cbn [negb]; wps.
  - cbn [fc_cookie]. rewrite Hc. wps. apply (wp_need _ _ 1%nat); [done|]. wps. apply on_flash_wp. cbn [fc_dev].
    pose proof (slice_length m data (Z.to_nat size)) as Hl. set (bs := slice m data (Z.to_nat size)) in *.
    assert (Forall byte_ok bs) as Hby by (apply List.Forall_forall; intros b (a & <- & _)%List.in_map_iff; apply Hm).
    eapply wp_mono; [apply (fromprogrambytes_wp (FB := FB) big polls stale md f offset bs)|].
    + done.
    + by unfold flags_ok, f; destruct bigend.
    + by unfold f; destruct bigend.
    + unfold f. intros Hb. apply Heb. by destruct bigend.
    + intros E. rewrite E in Hl. cbn in Hl. lia.
    + done.
    + intros a Ha. apply Hfree. lia.
    + intros r0 d' [[-> (Hd' & HV & _)]|(_ & Hn & _)]; [|by unfold f in Hn; destruct bigend]. wps. apply wp_ret.
      cbn [fc_dev fc_out]. split; [done|]. split; [by rewrite <- !app_assoc|]. split.
      * intros i Hi. rewrite (HV (offset + i)), burn_spec.
        rewrite (proj2 (Z.leb_le _ _)), (proj2 (Z.ltb_lt _ _)) by lia. cbn [andb].
        unfold bs. rewrite slice_lookup by lia. cbn [default]. unfold id. f_equal. lia.
      * intros a Ha. rewrite (HV a). apply burn_outside. lia.
  - apply wp_ret. cbn [fc_dev fc_out]. split; [done|]. split; [by rewrite <- !app_assoc|done].
Qed.

Abbreviation rsa_of p := (get_rsa big r m st en p).

Lemma with_number_wp p what k v t (Q : Z -> S -> Prop) (s : S) : rsa_of p = (Val v, t) ->
  wp no_fault (k v) Q (Build_flashcmd (fc_cookie s) (fc_size s) (fc_dev s) (fc_out s ++ t)) ->
  wp no_fault (with_number big r st en m p what k) Q s.
Proof. intros H Hk. unfold with_number. rewrite H. unfold print. by wps. Qed.

Lemma found_print (s0 s : S) o : found s0 s -> found s0 (Build_flashcmd (fc_cookie s) (fc_size s) (fc_dev s) o).
Proof. intros []. by split. Qed.


End P5064.

(** ** Witness *)

(** [flash 80020000 8 10], big-endian code on a little-endian machine. *)
Definition sim_words : list cstr := str <$> ["flash"; "-eb"; "80020000"; "8"; "10"]%string.
Definition sim_mem : mem := fun a => a mod 256.

