(* ===== verification/EnvFlash.v ===== *)
(** * EnvFlash: the environment over the flash

    The environment of [src/pmon/set.c] ([Env]) with the flash environment
    ([Flashenv]) as its non-volatile store and the P-5064's own defaults: what the
    [set] command stores of a variable that is not a standard one is there after the machine has been switched off and on. *)

From S2P Require Import Prelude CString Comp Format Tunables Env Flashdev Flashenv FlashenvOk FlashenvMap FlashenvSafe Sbdfrom SbdfromOk FlashSim.

Section EnvFlash.
Context {D C : Type} `{FO : FlashDevOk D C}.
Variables (stale : Z) (in_kva0 : bool) (so sn ms : Z).
(** The size of memory that the reset code found, in units of 4 MB. *)
Variable memsz : Z.
Hypothesis Hgeo : geometry flash0 (fl_size flash0 - 512) = Some (so, sn).
Hypothesis Hbig : 66 <= sn.

Abbreviation W := (fenv D C).
(** Memory is available, and the heap is not in the flash. *)
Definition nv_malloc (n : Z) (w : W) : bool * W := (true, w).

(** The three functions of the store that [set.c] calls; they do not fault from a
    state that stores variables. *)
Definition nv_setenv (name : cstr) (val : cptr) (w : W) : bool * W :=
  match sbd_setenv stale in_kva0 (Some name) val w with Ok r => r | Err _ => (false, w) end.
Definition nv_unsetenv (name : cstr) (w : W) : bool * W :=
  match sbd_unsetenv stale in_kva0 name w with Ok r => r | Err _ => (false, w) end.
Definition nv_vars (w : W) : list (cstr * cptr) :=
  match _sbd_mapenv stale in_kva0 w with Ok (l, _) => l | Err _ => [] end.

Abbreviation env := (Env.env (W := W)).
Abbreviation _setenv := (Env._setenv nv_malloc).
Abbreviation setenv := (Env.setenv nv_malloc nv_setenv nv_unsetenv).
(** A variable of the board, unless it is set. *)
Definition board_default (s : env) (v : cstr * cstr) : env :=
  match _getenv v.1 s with
  | Some _ => s
  | None => (_setenv v.1 (Some v.2) s).2
  end.

(** [src/pmon/p5064/sbd.c:212-229] *)
Definition sbd_boardenv (s : env) : env :=
  let s := board_default s (str "ethaddr", str "00:40:bc:04:00:00") in
  let memsize := memsz * 4 * 0x100000 in
  let memsize := if (memsize <? 4 * 0x100000) || (256 * 0x100000 <? memsize) then 4 * 0x100000 else memsize in
  board_default s (str "memsize", default [] (sprintf "0x%08x" [AInt memsize])).

Abbreviation envinit := (Env.envinit nv_malloc nv_vars sbd_boardenv).

(** The machine is switched off and on: the flash is all that is left, and the
    start of the monitor reads it ([t] is the start of the tunable variables). *)
Definition power_off_on (t : tunables) (s : env) : env :=
  match restart stale in_kva0 ms (world s) with
  | Ok (_, w) => envinit (mkEnv false [] t w [])
  | Err _ => s
  end.

Lemma setenv_check_world name value (s : env) : world (setenv_check name value s).2 = world s.
Proof.
  unfold setenv_check. destruct (getstdenv name) as [sp|]; [|done].
  assert (forall f, world (run_chg f value s).2 = world s) as Hr.
  { intros f. unfold run_chg. by destruct (match f with Chg_moresz => _ | Chg_validpc => _ | Chg_heaptop => _ end) as [[ev b] t]. }
  destruct (sv_chgfunc sp) as [f|]; cbn.
  - specialize (Hr f). destruct (run_chg f value s) as [ok s1]. cbn in Hr. destruct ok; cbn; [|done].
    destruct (sv_values sp); [|done]. by destruct (_ && _).
  - destruct (sv_values sp); [|done]. by destruct (_ && _).
Qed.

Lemma _setenv_world name value (s : env) : world (_setenv name value s).2 = world s.
Proof.
  unfold Env._setenv. pose proof (setenv_check_world name value s) as Hc.
  destruct (setenv_check name value s) as [ok s1]. cbn in Hc. destruct ok; cbn [negb]; [|done].
  destruct (env_scan _ _ _ _) as [[i|] [j|]]; cbn; try done; by destruct value.
Qed.

(** The variables of the store, as [envinit] takes them over. *)
Lemma nv_vars_store w vs : store so sn w vs -> nv_vars w = (fun v => (v.1, Some v.2)) <$> vs.
Proof. intros (es & Hs & _ & <- & _). unfold nv_vars. by rewrite (mapenv_ok stale in_kva0 so sn w es Hs). Qed.

Lemma nv_setenv_store name v w w' vs : store so sn w vs -> valid_name name -> cstr_ok v ->
  nv_setenv name (Some v) w = (true, w') -> store so sn w' (a_del name vs ++ [(name, v)]).
Proof.
  intros (es & Hs & Hc & <- & Hu) Hn Hv. unfold nv_setenv, sbd_setenv, mbind, M_bind.
  destruct (wp_elim _ _ _ (setenv_wp stale in_kva0 so sn Hgeo Hbig name (Some v) Hn Hv w es true Hs)) as (r & w1 & -> & H).
  cbn. intros [= Hr <-]. apply Z.eqb_eq in Hr as ->. revert H. rewrite andb_false_r.
  destruct (_ <=? _); [by intros [? _]|]. destruct (_ <? _); [by intros [? _]|].
  intros (_ & es' & Hs' & [_ Hg] & Hvs & _). exists es'. split; [done|]. split; [by apply Hg|]. split; [done|by apply set_unique].
Qed.

Lemma restart_store w vs : store so sn w vs ->
  exists w', restart stale in_kva0 ms w = Ok (tt, w') /\ store so sn w' vs.
Proof.
  intros (es & Hs & Hc & <- & Hu). pose proof (ok_conn _ _ _ _ Hs) as [_ Hd _ _ Hb Hop].
  destruct (power_cycle_ok (fe_dev w) Hd Hop) as [Hp Hpc].
  destruct (wp_elim _ _ _ (store_boot stale in_kva0 so sn Hgeo Hbig ms (power_cycle (fe_dev w)) es Hp
    ltac:(split; [rewrite Hpc, <- (ok_offs _ _ _ _ Hs); rewrite length_area in Hb by apply Hs; exact Hb|apply Hs]) Hc Hu))
    as (r & w' & E & _ & _ & Hst).
  exists w'. split; [|done]. unfold restart, mbind, M_bind. by rewrite E.
Qed.

(** ** Taking over the stored variables *)

Lemma _setenv_used name value (s : env) :
  (Env.used (envvar (_setenv name value s).2) <= S (Env.used (envvar s)))%nat.
Proof.
  unfold Env._setenv. destruct (setenv_check name value s) as [ok s1] eqn:Ec.
  apply setenv_check_vars in Ec as [<- _]. destruct ok; cbn [negb]; [|cbn; lia].
  assert (forall i n v0 (s2 : env), envvar s2 = envvar s1 ->
    (Env.used (envvar (store_value nv_malloc i n value (set_slot i (mkPair (Some n) v0) s2)).2) <=
     S (Env.used (envvar s1)))%nat) as Hst.
  { intros i n v0 s2 <-. destruct value; cbn; rewrite ?list_insert_insert_eq; apply used_insert. }
  destruct (env_scan _ _ _ _) as [[i|] [j|]]; cbn [nv_malloc]; try by apply Hst. cbn. lia.
Qed.

Lemma fold_setenv l : forall s : env, Env.env_ok s ->
  let s' := fold_left (fun s v => (_setenv v.1 v.2 s).2) l s in
  Env.env_ok s' /\ (Env.used (envvar s') <= Env.used (envvar s) + length l)%nat.
Proof.
  induction l as [|v l IH]; intros s Hs; cbn [fold_left length]; [split; [done|lia]|].
  pose proof (_setenv_used v.1 v.2 s) as Hu.
  destruct (_setenv v.1 v.2 s) as [b s1] eqn:E. cbn [snd] in *.
  destruct (_setenv_spec _ _ _ _ _ _ Hs E) as [Hs1 _].
  destruct (IH s1 Hs1) as [? ?]. split; [done|]. lia.
Qed.

(** The board's variables leave one that is set as it is. *)
Lemma board_default_keeps name v x (s : env) : Env.env_ok s -> _getenv name s = Some v ->
  Env.env_ok (board_default s x) /\ _getenv name (board_default s x) = Some v.
Proof.
  intros Hs Hv. unfold board_default. destruct (_getenv x.1 s) as [u|] eqn:Ex; [done|].
  destruct (_setenv x.1 (Some x.2) s) as [b s1] eqn:E. destruct (_setenv_spec _ _ _ _ _ _ Hs E) as (Hs1 & _ & He). split; [done|].
  assert (striequ (Some name) (Some x.1) = false) as Hne.
  { apply not_true_iff_false. intros Heq. unfold _getenv in Hv, Ex. rewrite (getenv_loop_striequ _ _ _ Heq), Ex in Hv. discriminate. }
  cbn [snd]. destruct b; [by rewrite He, Hne|]. destruct He as [He|(_ & _ & _ & He)]; [by rewrite He|by rewrite He, Hne].
Qed.

Lemma sbd_boardenv_keeps name v (s : env) : Env.env_ok s -> _getenv name s = Some v ->
  Env.env_ok (sbd_boardenv s) /\ _getenv name (sbd_boardenv s) = Some v.
Proof.
  intros Hs Hv. unfold sbd_boardenv. destruct (board_default_keeps name v (str "ethaddr", str "00:40:bc:04:00:00") s Hs Hv) as [Hs1 Hv1].
  by apply board_default_keeps.
Qed.

(** The defaults do not touch a variable that is not a standard one. *)
Lemma getstdenv_none tab name sp : getstdenv_loop tab name = None -> sp ∈ tab ->
  striequ (Some name) (Some (sv_name sp)) = false.
Proof.
  induction tab as [|sp' tab IH]; cbn [getstdenv_loop]; [by intros _ ?%elem_of_nil|].
  destruct (striequ (Some name) (Some (sv_name sp'))) eqn:E; [done|]. intros H [->|Hi]%elem_of_cons; [done|by apply IH].
Qed.

Lemma defaults_keep name l : forall s : env, Env.env_ok s ->
  Forall (fun sp => striequ (Some name) (Some (sv_name sp)) = false) l ->
  _getenv name (fold_left (env_default nv_malloc) l s) = _getenv name s.
Proof.
  induction l as [|sp l IH]; intros s Hs; [done|]. intros [Hn Hl]%Forall_cons_iff. cbn [fold_left].
  assert (exists s1, env_default nv_malloc s sp = s1 /\ Env.env_ok s1 /\ _getenv name s1 = _getenv name s)
    as (s1 & -> & Hs1 & <-); [|by apply IH].
  unfold env_default. destruct (_getenv (sv_name sp) s); [by exists s|].
  destruct (_setenv _ _ s) as [b s1] eqn:E. exists s1. split; [done|].
  destruct (_setenv_spec _ _ _ _ _ _ Hs E) as (Hs1 & _ & He). split; [done|].
  destruct b; [by rewrite He, Hn|]. destruct He as [He|(_ & _ & _ & He)]; [done|by rewrite He, Hn].
Qed.

Lemma empty_ok t (w : W) : Env.env_ok (mkEnv false (replicate NVAR (mkPair None None)) t w []).
Proof.
  assert (forall j ep, replicate NVAR (mkPair None None) !! j = Some ep -> ep = mkPair None None) as Hrep.
  { intros j ep Hj. by apply lookup_replicate in Hj as [-> _]. }
  split; cbn [envvar]; [done| |].
  - intros i ep Hi. by rewrite (Hrep i ep Hi).
  - intros i j e1 e2 n H1 _ N1 _. by rewrite (Hrep i e1 H1) in N1.
Qed.

(** A start of the monitor takes over the last variable of the store. *)
Lemma take_over_last name v l tab (s0 : env) : Env.env_ok s0 -> Env.used (envvar s0) = 0%nat ->
  (length l < NVAR)%nat -> getstdenv name = None ->
  Forall (fun sp => striequ (Some name) (Some (sv_name sp)) = false) tab ->
  _getenv name (fold_left (env_default nv_malloc) tab
    (sbd_boardenv (fold_left (fun s v => (_setenv v.1 v.2 s).2) (l ++ [(name, Some v)]) s0))) = Some v.
Proof.
  intros H0 Hu0 Hl Hstd Hf. rewrite fold_left_app. destruct (fold_setenv l s0 H0) as [H1 Hu].
  set (s1 := fold_left _ l s0) in *. clearbody s1. cbn [fold_left fst snd].
  destruct (_setenv_succeeds nv_malloc name v s1 s1 ltac:(done) H1) as (s2 & E & _ & _).
  { unfold setenv_check. by rewrite Hstd. }
  { lia. }
  destruct (_setenv_spec _ _ _ _ _ _ H1 E) as (H2 & _ & He). rewrite E. cbn [snd].
  destruct (sbd_boardenv_keeps name v s2 H2) as [H3 Hv3]; [by rewrite He, striequ_refl|].
  by rewrite (defaults_keep name tab _ H3 Hf).
Qed.

Lemma not_standard name : getstdenv name = None ->
  Forall (fun sp => striequ (Some name) (Some (sv_name sp)) = false) stdenvtab.
Proof.
  intros H. apply List.Forall_forall. intros sp Hi.
  apply (getstdenv_none stdenvtab); [done|by apply list_elem_of_In].
Qed.

(** The end of [envinit]. *)
Definition started (s : env) : env := mkEnv true (envvar s) (tun s) (world s) (out s).

Lemma getenv_started name s : getenv name (started s) = _getenv name s.
Proof. done. Qed.

Lemma envinit_stages t (w : W) : envinit (mkEnv false [] t w []) =
  started (fold_left (env_default nv_malloc) stdenvtab
    (sbd_boardenv (fold_left (fun s v => (_setenv v.1 v.2 s).2) (nv_vars w)
      (mkEnv false (replicate NVAR (mkPair None None)) t w [])))).
Proof. reflexivity. Qed.

Lemma envinit_last t (w : W) l name v : nv_vars w = l ++ [(name, Some v)] -> (length l < NVAR)%nat ->
  getstdenv name = None -> getenv name (envinit (mkEnv false [] t w [])) = Some v.
Proof.
  intros Hv Hl Hstd. rewrite envinit_stages, getenv_started, Hv.
  apply take_over_last; [apply empty_ok|reflexivity|done|done|by apply not_standard].
Qed.

Lemma length_a_del name vs : (length (a_del name vs) <= length vs)%nat.
Proof. induction vs as [|[n v] vs IH]; cbn; [lia|]. destruct (decide _); cbn; lia. Qed.

(** C14. A variable that the [set] command has stored is there after the P-5064 has
    been switched off and on. If the flash environment holds the variables [vs]
    (fewer than the 64 slots of the monitor), memory is available, and [setenv] of
    a variable that is not a standard one, with a printable name without an equals
    sign and a C string as its value, returns success, then, after the flash has
    gone through a power cycle and the start of the monitor has opened it again,
    taken over its variables, and added those of the board and the standard ones,
    [getenv] answers that value. The last sector of the chip is not protected and
    has at least 66 bytes, and the flash driver keeps the promises of
    [FlashDevOk]. *)
Theorem set_survives_restart (t : tunables) (name v : cstr) (vs : list (cstr * cstr)) (s s' : env)
  (Hs : store so sn (world s) vs) (Hn : valid_name name) (Hv : cstr_ok v)
  (Hstd : getstdenv name = None) (Hlen : (length vs < NVAR)%nat)
  (Hset : setenv name (Some v) s = (true, s')) :
  getenv name (power_off_on t s') = Some v.
Proof.
  assert (store so sn (world s') (a_del name vs ++ [(name, v)])) as Hs'.
  { revert Hset. unfold Env.setenv. pose proof (_setenv_world name (Some v) s) as Hw.
    destruct (_setenv name (Some v) s) as [ok s1]. cbn in Hw. destruct ok; [|done]. rewrite Hstd, Hw.
    destruct (nv_setenv name (Some v) (world s)) as [r w] eqn:E. intros [= -> <-].
    by apply (nv_setenv_store name v (world s)). }
  destruct (restart_store _ _ Hs') as (w & Er & Hw). unfold power_off_on. rewrite Er.
  apply (envinit_last t w ((fun v => (v.1, Some v.2)) <$> a_del name vs)); [|rewrite length_fmap|done].
  - by rewrite (nv_vars_store _ _ Hw), fmap_app.
  - pose proof (length_a_del name vs). lia.
Qed.

End EnvFlash.

(** ** Witness *)

(** The monitor on a board whose chip had never been written. *)
Definition sim_first : fenv (from sim) nat :=
  match env_invalid (FD := sim_dev) 0 true (fenv_boot sim_blank 0x2000000) with
  | Ok (_, s) => s
  | Err _ => fenv_boot sim_blank 0x2000000
  end.

Lemma sim_first_store : store (FO := sim_ok) 0xf0000 0x10000 sim_first [].
Proof.
  destruct (wp_elim _ _ _ (boot_wp (FO := sim_ok) 0 true 0xf0000 0x10000 sim_geometry ltac:(lia) sim_blank 0x2000000 sim_powered))
    as (r & s & E & _ & [(es & Hes & _)|(_ & Hok & _)]).
  - apply sector_magic in Hes. discriminate Hes.
  - unfold sim_first. rewrite E. exists []. split; [done|]. split; [by constructor|]. split; [done|apply NoDup_nil_2].
Qed.

Definition sim_env : Env.env (W := fenv (from sim) nat) :=
  mkEnv true (replicate NVAR (mkPair None None)) (mkTunables 10 0x80010000 0 false (-1)) sim_first [].

Definition sim_set : bool * Env.env (W := fenv (from sim) nat) :=
  Env.setenv nv_malloc (nv_setenv (FD := sim_dev) 0 true) (nv_unsetenv (FD := sim_dev) 0 true)
    (str "ethaddr") (Some (str "00:40:bc:01")) sim_env.

Lemma set_survives_restart_witness : sim_set.1 = true /\
  getenv (str "ethaddr") (power_off_on (FO := sim_ok) 0 true 0x2000000 4 (tun sim_env) sim_set.2) = Some (str "00:40:bc:01").
Proof.
  assert (sim_set.1 = true) as H by (vm_compute; reflexivity). split; [exact H|].
  apply (set_survives_restart (FO := sim_ok) 0 true 0xf0000 0x10000 0x2000000 4 sim_geometry ltac:(lia)
    (tun sim_env) (str "ethaddr") (str "00:40:bc:01") [] sim_env sim_set.2 sim_first_store).
  - repeat constructor; cbn; try done; try lia.
  - repeat constructor; cbn; try done; try lia.
  - reflexivity.
  - apply Nat.lt_0_succ.
  - revert H. unfold sim_set. destruct (Env.setenv _ _ _ _ _ _) as [b s]. cbn [fst snd]. by intros ->.
Defined.
