(* ===== verification/Clock.v ===== *)
(** * Clock: dates and times

    [src/pmon/time.c]: the conversions between seconds since 1970 and the fields
    of a date, time zones with their rules for summer time, and the [date]
    command over the board's clock. A [time_t] is a [long], a signed word; sums
    that can leave it are reduced with [s32]. *)

From S2P Require Import Prelude CString Comp.

(** [src/pmon/pmon.h:269-281] *)
Record tm : Type := {
  tm_sec : Z;
  tm_min : Z;
  tm_hour : Z;
  tm_mday : Z;
  tm_mon : Z;
  tm_year : Z;
  tm_wday : Z;
  tm_yday : Z;
  tm_isdst : Z;
  tm_gmtoff : Z;
  tm_zone : cptr
}.

Definition TZNAME_MAX : nat := 32.
Definition SECS_PER_MIN : Z := 60.
Definition MINS_PER_HOUR : Z := 60.
Definition HOURS_PER_DAY : Z := 24.
Definition DAYS_PER_WEEK : Z := 7.
Definition DAYS_PER_NYEAR : Z := 365.
Definition DAYS_PER_LYEAR : Z := 366.
Definition SECS_PER_HOUR : Z := 3600.
Definition SECS_PER_DAY : Z := 86400.
Definition MONS_PER_YEAR : Z := 12.
Definition TM_YEAR_BASE : Z := 1900.
Definition EPOCH_YEAR : Z := 1970.
Definition EPOCH_WDAY : Z := 4.

(** [src/pmon/time.c:72] *)
Definition isleap (y : Z) : bool :=
  (Z.rem y 4 =? 0) && (negb (Z.rem y 100 =? 0) || (Z.rem y 400 =? 0)).

(** [src/pmon/time.c:74-77] *)
Definition mon_lengths (leap : bool) : list Z :=
  if leap then [31; 29; 31; 30; 31; 30; 31; 31; 30; 31; 30; 31]
  else [31; 28; 31; 30; 31; 30; 31; 31; 30; 31; 30; 31].

(** [src/pmon/time.c:79-81] *)
Definition year_lengths (leap : bool) : Z := if leap then DAYS_PER_LYEAR else DAYS_PER_NYEAR.

(** ** The fields of a time *)

(** The seconds of the day are brought into it.
    [src/pmon/time.c:109-113] *)
Fixpoint rem_up (fuel : nat) (rem days : Z) : Z * Z :=
  match fuel with
  | S f => if rem <? 0 then rem_up f (rem + SECS_PER_DAY) (days - 1) else (rem, days)
  | O => (rem, days)
  end.

(** [src/pmon/time.c:114-117] *)
Fixpoint rem_down (fuel : nat) (rem days : Z) : Z * Z :=
  match fuel with
  | S f => if SECS_PER_DAY <=? rem then rem_down f (rem - SECS_PER_DAY) (days + 1) else (rem, days)
  | O => (rem, days)
  end.

(** The year, from 1970 on, and the day in it.
    [src/pmon/time.c:125-133] *)
Fixpoint years_up (fuel : nat) (y days : Z) : Z * Z :=
  match fuel with
  | S f =>
    let len := year_lengths (isleap y) in
    if days <? len then (y, days) else years_up f (y + 1) (days - len)
  | O => (y, days)
  end.

(** The same for a time before 1970.
    [src/pmon/time.c:134-138] *)
Fixpoint years_down (fuel : nat) (y days : Z) : Z * Z :=
  match fuel with
  | S f =>
    let y := y - 1 in
    let days := days + year_lengths (isleap y) in
    if days <? 0 then years_down f y days else (y, days)
  | O => (y, days)
  end.

(** The month and the day in it; a day of the year is never beyond the last
    month.
    [src/pmon/time.c:141-144] *)
Fixpoint months (l : list Z) (mon days : Z) : Z * Z :=
  match l with
  | len :: l' => if len <=? days then months l' (mon + 1) (days - len) else (mon, days)
  | [] => (mon, days)
  end.

Definition rounds (n unit : Z) : nat := S (Z.to_nat (Z.abs n / unit)).

(** [src/pmon/time.c:96-149] *)
Definition offtime (clock offset : Z) : tm :=
  let days := Z.quot clock SECS_PER_DAY in
  let rem := s32 (Z.rem clock SECS_PER_DAY + offset) in
  let '(rem, days) := rem_up (rounds rem SECS_PER_DAY) rem days in
  let '(rem, days) := rem_down (rounds rem SECS_PER_DAY) rem days in
  let tm_hour := Z.quot rem SECS_PER_HOUR in
  let rem := Z.rem rem SECS_PER_HOUR in
  let tm_wday := Z.rem (EPOCH_WDAY + days) DAYS_PER_WEEK in
  let '(y, days) :=
    if 0 <=? days then years_up (rounds days DAYS_PER_NYEAR) EPOCH_YEAR days
    else years_down (rounds days DAYS_PER_NYEAR) EPOCH_YEAR days in
  let '(mon, mday) := months (mon_lengths (isleap y)) 0 days in
  {| tm_sec := Z.rem rem SECS_PER_MIN;
     tm_min := Z.quot rem SECS_PER_MIN;
     tm_hour := tm_hour;
     tm_mday := mday + 1;
     tm_mon := mon;
     tm_year := y - TM_YEAR_BASE;
     tm_wday := if tm_wday <? 0 then tm_wday + DAYS_PER_WEEK else tm_wday;
     tm_yday := days;
     tm_isdst := 0;
     tm_gmtoff := offset;
     tm_zone := Some [] |}.

Definition with_zone (z : cptr) (t : tm) : tm := Build_tm (tm_sec t) (tm_min t) (tm_hour t) (tm_mday t) (tm_mon t) (tm_year t) (tm_wday t) (tm_yday t) (tm_isdst t) (tm_gmtoff t) z.
Definition with_dst (d : Z) (t : tm) : tm := Build_tm (tm_sec t) (tm_min t) (tm_hour t) (tm_mday t) (tm_mon t) (tm_year t) (tm_wday t) (tm_yday t) d (tm_gmtoff t) (tm_zone t).

(** [src/pmon/time.c:151-158] *)
Definition gmtime (clock : Z) : tm := with_zone (Some (str "GMT")) (offtime clock 0).

(** ** The time of some fields *)

(** The seconds of the years from [y] on.
    [src/pmon/time.c:591-592] *)
Fixpoint year_secs (n : nat) (y secs : Z) : Z :=
  match n with
  | O => secs
  | S n' => year_secs n' (y + 1) (s32 (secs + year_lengths (isleap y) * SECS_PER_DAY))
  end.

(** The seconds of the first months of a year.
    [src/pmon/time.c:588-589] *)
Fixpoint month_secs (n : nat) (l : list Z) (secs : Z) : Z :=
  match n, l with
  | S n', len :: l' => month_secs n' l' (s32 (secs + len * SECS_PER_DAY))
  | _, _ => secs
  end.

(** [src/pmon/time.c:571-576] *)
Definition bad_fields (t : tm) : bool :=
  (61 <? tm_sec t) || (59 <? tm_min t) || (23 <? tm_hour t) || (31 <? tm_mday t) || (12 <? tm_mon t) || (tm_year t <? 70).

(** [src/pmon/time.c:583-592] *)
Definition sum_fields (t : tm) : Z :=
  let secs := s32 (tm_sec t + tm_min t * SECS_PER_MIN + tm_hour t * SECS_PER_HOUR + (tm_mday t - 1) * SECS_PER_DAY) in
  let secs := month_secs (Z.to_nat (tm_mon t)) (mon_lengths (isleap (tm_year t + 1900))) secs in
  year_secs (Z.to_nat (s32 (tm_year t + 1900) - 1970)) 1970 secs.

(** [src/pmon/time.c:565-595] *)
Definition gmmktime (t : tm) : Z := if bad_fields t then -1 else sum_fields t.

(** ** Time zones *)

(** [src/pmon/time.c:83-89] *)
Record rule : Type := { r_type : Z; r_day : Z; r_week : Z; r_mon : Z; r_time : Z }.

Definition RT_NONE : Z := 0.
Definition RT_JULIAN_DAY : Z := 1.
Definition RT_DAY_OF_YEAR : Z := 2.
Definition RT_MONTH_NTH_DAY_OF_WEEK : Z := 3.

Definition zero_rule : rule := Build_rule 0 0 0 0 0.
Definition set_r_type v r := Build_rule v (r_day r) (r_week r) (r_mon r) (r_time r).
Definition set_r_day v r := Build_rule (r_type r) v (r_week r) (r_mon r) (r_time r).
Definition set_r_week v r := Build_rule (r_type r) (r_day r) v (r_mon r) (r_time r).
Definition set_r_mon v r := Build_rule (r_type r) (r_day r) (r_week r) v (r_time r).
Definition set_r_time v r := Build_rule (r_type r) (r_day r) (r_week r) (r_mon r) v.

(** The rest of the text behind a name.
    [src/pmon/time.c:167-175] *)
Fixpoint getzname (s : cstr) : cstr :=
  match s with
  | c :: s' => if negb (isdigit c) && negb (c =? ch ",") && negb (c =? ch "-") && negb (c =? ch "+") then getzname s' else s
  | [] => []
  end.

(** [src/pmon/time.c:192-198] *)
Fixpoint getnum_loop (s : cstr) (num max : Z) : option (Z * cstr) :=
  match s with
  | c :: s' =>
    if isdigit c then
      let num := num * 10 + (c - ch "0") in
      if max <? num then None else getnum_loop s' num max
    else Some (num, s)
  | [] => Some (num, [])
  end.

(** The number and the rest of the text.
    [src/pmon/time.c:184-203] *)
Definition getnum (p : cptr) (min max : Z) : option (Z * cstr) :=
  match p with
  | None => None
  | Some s =>
    if negb (isdigit (at_ s 0)) then None
    else
      match getnum_loop s 0 max with
      | None => None
      | Some (num, s') => if num <? min then None else Some (num, s')
      end
  end.

(** The rest of the text, and what is in [*secsp] then, which is also changed
    when the text turns out to be bad later.
    [src/pmon/time.c:213-236] *)
Definition getsecs (p : cptr) (secs : Z) : cptr * Z :=
  match getnum p 0 HOURS_PER_DAY with
  | None => (None, secs)
  | Some (num, s) =>
    let secs := num * SECS_PER_HOUR in
    if negb (at_ s 0 =? ch ":") then (Some s, secs)
    else
      match getnum (Some (drop 1 s)) 0 (MINS_PER_HOUR - 1) with
      | None => (None, secs)
      | Some (num, s) =>
        let secs := secs + num * SECS_PER_MIN in
        if negb (at_ s 0 =? ch ":") then (Some s, secs)
        else
          match getnum (Some (drop 1 s)) 0 (SECS_PER_MIN - 1) with
          | None => (None, secs)
          | Some (num, s) => (Some s, secs + num)
          end
      end
  end.

(** [src/pmon/time.c:245-261] *)
Definition getoffset (s : cstr) (offset : Z) : cptr * Z :=
  let neg := at_ s 0 =? ch "-" in
  if negb neg && negb (isdigit (at_ s 0)) && negb (at_ s 0 =? ch "+") then (None, offset)
  else
    match getsecs (Some (if isdigit (at_ s 0) then s else drop 1 s)) offset with
    | (None, o) => (None, o)
    | (Some s, o) => (Some s, if neg then - o else o)
    end.

(** The rest of the text must start with a character, which is left out. *)
Definition expect (c : Z) (s : cstr) : cptr := if at_ s 0 =? c then Some (drop 1 s) else None.

(** The date of a rule.
    [src/pmon/time.c:272-305] *)
Definition getrule_date (s : cstr) (r : rule) : cptr * rule :=
  if at_ s 0 =? ch "J" then
    let r := set_r_type RT_JULIAN_DAY r in
    match getnum (Some (drop 1 s)) 1 DAYS_PER_NYEAR with
    | None => (None, r)
    | Some (n, s) => (Some s, set_r_day n r)
    end
  else if at_ s 0 =? ch "M" then
    let r := set_r_type RT_MONTH_NTH_DAY_OF_WEEK r in
    match getnum (Some (drop 1 s)) 1 MONS_PER_YEAR with
    | None => (None, r)
    | Some (n, s) =>
      let r := set_r_mon n r in
      match getnum (expect (ch ".") s) 1 5 with
      | None => (None, r)
      | Some (n, s) =>
        let r := set_r_week n r in
        match getnum (expect (ch ".") s) 0 (DAYS_PER_WEEK - 1) with
        | None => (None, r)
        | Some (n, s) => (Some s, set_r_day n r)
        end
      end
    end
  else if isdigit (at_ s 0) then
    let r := set_r_type RT_DAY_OF_YEAR r in
    match getnum (Some s) 0 (DAYS_PER_LYEAR - 1) with
    | None => (None, r)
    | Some (n, s) => (Some s, set_r_day n r)
    end
  else (None, r).

(** [src/pmon/time.c:270-315] *)
Definition getrule (s : cstr) (r : rule) : cptr * rule :=
  match getrule_date s r with
  | (None, r) => (None, r)
  | (Some s, r) =>
    if at_ s 0 =? ch "/" then
      let '(p, t) := getsecs (Some (drop 1 s)) (r_time r) in (p, set_r_time t r)
    else (Some s, set_r_time (2 * SECS_PER_HOUR) r)
  end.

(** [src/pmon/time.c:389-394] *)
Fixpoint week_loop (n : nat) (d len : Z) : Z :=
  match n with
  | S n' => if len <=? d + DAYS_PER_WEEK then d else week_loop n' (d + DAYS_PER_WEEK) len
  | O => d
  end.

(** The day of the week of the first of a month, by Zeller's congruence.
    [src/pmon/time.c:372-379] *)
Definition zeller (mon year : Z) : Z :=
  let m1 := Z.rem (mon + 9) 12 + 1 in
  let yy0 := if mon <=? 2 then year - 1 else year in
  let yy1 := Z.quot yy0 100 in
  let yy2 := Z.rem yy0 100 in
  let dow := Z.rem (Z.quot (26 * m1 - 2) 10 + 1 + yy2 + Z.quot yy2 4 + Z.quot yy1 4 - 2 * yy1) 7 in
  if dow <? 0 then dow + DAYS_PER_WEEK else dow.

(** [src/pmon/time.c:323-410] *)
Definition transtime (janfirst year : Z) (r : rule) (offset : Z) : Z :=
  let leapyear := isleap year in
  let at_day (value : Z) := s32 (value + r_time r + offset) in
  if r_type r =? RT_JULIAN_DAY then
    let value := s32 (janfirst + (r_day r - 1) * SECS_PER_DAY) in
    at_day (if leapyear && (60 <=? r_day r) then s32 (value + SECS_PER_DAY) else value)
  else if r_type r =? RT_DAY_OF_YEAR then at_day (s32 (janfirst + r_day r * SECS_PER_DAY))
  else if r_type r =? RT_MONTH_NTH_DAY_OF_WEEK then
    let value := month_secs (Z.to_nat (r_mon r - 1)) (mon_lengths leapyear) janfirst in
    let d := r_day r - zeller (r_mon r) year in
    let d := if d <? 0 then d + DAYS_PER_WEEK else d in
    let d := week_loop (Z.to_nat (r_week r - 1)) d (nth (Z.to_nat (r_mon r - 1)) (mon_lengths leapyear) 0) in
    at_day (s32 (value + d * SECS_PER_DAY))
  else -1.

(** The variables of the file: the two names are arrays, [tz_envval] is the text
    the zone was read from.
    [src/pmon/time.c:412-419] *)
Record tzstate : Type := {
  tz_stdnam : list Z;
  tz_dstnam : list Z;
  tz_stdoffset : Z;
  tz_dstoffset : Z;
  tz_dststart : rule;
  tz_dstend : rule;
  tz_hasdst : bool;
  tz_envval : cptr
}.

Definition tz_start : tzstate :=
  {| tz_stdnam := str "UCT" ++ replicate 29 0; tz_dstnam := str "UCT" ++ replicate 29 0; tz_stdoffset := 0;
     tz_dstoffset := 0; tz_dststart := zero_rule; tz_dstend := zero_rule; tz_hasdst := false; tz_envval := None |}.

Definition set_stdnam v t := Build_tzstate v (tz_dstnam t) (tz_stdoffset t) (tz_dstoffset t) (tz_dststart t) (tz_dstend t) (tz_hasdst t) (tz_envval t).
Definition set_dstnam v t := Build_tzstate (tz_stdnam t) v (tz_stdoffset t) (tz_dstoffset t) (tz_dststart t) (tz_dstend t) (tz_hasdst t) (tz_envval t).
Definition set_stdoffset v t := Build_tzstate (tz_stdnam t) (tz_dstnam t) v (tz_dstoffset t) (tz_dststart t) (tz_dstend t) (tz_hasdst t) (tz_envval t).
Definition set_dstoffset v t := Build_tzstate (tz_stdnam t) (tz_dstnam t) (tz_stdoffset t) v (tz_dststart t) (tz_dstend t) (tz_hasdst t) (tz_envval t).
Definition set_dststart v t := Build_tzstate (tz_stdnam t) (tz_dstnam t) (tz_stdoffset t) (tz_dstoffset t) v (tz_dstend t) (tz_hasdst t) (tz_envval t).
Definition set_dstend v t := Build_tzstate (tz_stdnam t) (tz_dstnam t) (tz_stdoffset t) (tz_dstoffset t) (tz_dststart t) v (tz_hasdst t) (tz_envval t).
Definition set_hasdst v t := Build_tzstate (tz_stdnam t) (tz_dstnam t) (tz_stdoffset t) (tz_dstoffset t) (tz_dststart t) (tz_dstend t) v (tz_envval t).
Definition set_envval v t := Build_tzstate (tz_stdnam t) (tz_dstnam t) (tz_stdoffset t) (tz_dstoffset t) (tz_dststart t) (tz_dstend t) (tz_hasdst t) v.

(** A name written over an array, without a NUL. *)
Definition put_name (s : cstr) (n : nat) (arr : list Z) : list Z := strncpy s n ++ drop n arr.

(** The rules behind the name and the offset of summer time; whether the text is
    good.
    [src/pmon/time.c:465-475] *)
Definition tzparse_rules (s : cstr) (t : tzstate) : bool * tzstate :=
  if at_ s 0 =? ch "," then
    match getrule (drop 1 s) (tz_dststart t) with
    | (None, r) => (false, set_dststart r t)
    | (Some s, r) =>
      let t := set_dststart r t in
      match expect (ch ",") s with
      | None => (false, t)
      | Some s =>
        match getrule s (tz_dstend t) with
        | (None, r) => (false, set_dstend r t)
        | (Some s, r) => (match s with [] => true | _ => false end, set_dstend r t)
        end
      end
    end
  else (match s with [] => true | _ => false end, t).

(** What follows the offset of the standard time.
    [src/pmon/time.c:449-481] *)
Definition tzparse_dst (s : cstr) (t : tzstate) : bool * tzstate :=
  match s with
  | [] => (true, set_hasdst false (set_dstoffset 0 (set_dstnam (put_name (str "   ") 4 (tz_dstnam t)) t)))
  | _ =>
    let s' := getzname s in
    let dstlen := (length s - length s')%nat in
    if (dstlen <? 3)%nat || (TZNAME_MAX <=? dstlen)%nat then (false, t)
    else
      let t := set_dstnam (put_name s dstlen (tz_dstnam t)) t in
      match (if negb (at_ s' 0 =? 0) && negb (at_ s' 0 =? ch ",") then getoffset s' (tz_dstoffset t)
             else (Some s', tz_stdoffset t - SECS_PER_HOUR)) with
      | (None, o) => (false, set_dstoffset o t)
      | (Some s', o) => tzparse_rules s' (set_hasdst true (set_dstoffset o t))
      end
  end.

(** [src/pmon/time.c:425-482] *)
Definition tzparse (name : cstr) (t : tzstate) : bool * tzstate :=
  let t := set_dstend zero_rule (set_dststart zero_rule t) in
  let s := getzname name in
  let stdlen := (length name - length s)%nat in
  if (stdlen <? 3)%nat || (TZNAME_MAX <=? stdlen)%nat then (false, t)
  else
    let t := set_stdnam (put_name name stdlen (tz_stdnam t)) t in
    match s with
    | [] => (false, t)
    | _ =>
      match getoffset s (tz_stdoffset t) with
      | (None, o) => (false, set_stdoffset o t)
      | (Some s, o) => tzparse_dst s (set_stdoffset o t)
      end
    end.

(** [src/pmon/time.c:487-490] *)
Definition tzreset (t : tzstate) : tzstate := (tzparse (str "UTC0") t).2.

(** [env] is the value of the variable TZ.
    [src/pmon/time.c:492-515] *)
Definition tzset (env : cptr) (t : tzstate) : tzstate :=
  let reset (t : tzstate) := match tz_envval t with None => t | Some _ => tzreset (set_envval None t) end in
  match env with
  | None | Some [] => reset t
  | Some tz =>
    if bool_decide (tz_envval t = Some tz) then t
    else
      match tzparse tz (set_envval (Some tz) t) with
      | (true, t) => t
      | (false, t) => reset t
      end
  end.

(** The start of the year of a time, and the year.
    [src/pmon/time.c:535-540] *)
Fixpoint year_loop (fuel : nat) (yr tyr tjan : Z) : Z * Z :=
  match fuel with
  | S f =>
    let yl := year_lengths (isleap yr) * SECS_PER_DAY in
    if yl <=? tyr then year_loop f (yr + 1) (tyr - yl) (tjan + yl) else (yr, tjan)
  | O => (yr, tjan)
  end.

(** Whether a time is in summer: 1, 0, or -1 for unknown.
    [src/pmon/time.c:526-557] *)
Definition local_dst (t : tzstate) (tgmt : Z) : Z :=
  if negb (tz_hasdst t) then 0
  else if r_type (tz_dststart t) =? RT_NONE then -1
  else
    let '(yr, tjan) := year_loop (rounds tgmt (DAYS_PER_NYEAR * SECS_PER_DAY)) EPOCH_YEAR tgmt 0 in
    let stim := transtime tjan yr (tz_dststart t) 0 in
    let etim := transtime tjan yr (tz_dstend t) 0 in
    if stim <? etim then (if (stim <=? tgmt) && (tgmt <? etim) then 1 else 0)
    else (if (etim <=? tgmt) && (tgmt <? stim) then 0 else 1).

(** [src/pmon/time.c:559-562] *)
Definition local_fields (t : tzstate) (tgmt : Z) : tm :=
  let dst := local_dst t tgmt in
  with_zone None (with_dst dst (offtime tgmt (if dst =? 1 then - tz_dstoffset t else - tz_stdoffset t))).

(** [src/pmon/time.c:517-563] *)
Definition localtime (env : cptr) (tp : Z) (t : tzstate) : tm * tzstate :=
  let t := tzset env t in (local_fields t tp, t).

(** Whether two records agree in the fields that [mktime] compares.
    [src/pmon/time.c:649-656] *)
Definition same_fields (n t : tm) : bool :=
  (tm_year n =? tm_year t) && (tm_mon n =? tm_mon t) && (tm_mday n =? tm_mday t) && (tm_hour n =? tm_hour t) &&
  (tm_min n =? tm_min t) && (tm_sec n =? tm_sec t) && ((tm_isdst t <? 0) || (tm_isdst n =? tm_isdst t)).

(** The time, the fields as they are then, and the zone.
    [src/pmon/time.c:598-661] *)
Definition mktime (env : cptr) (t : tm) (z : tzstate) : Z * tm * tzstate :=
  if bad_fields t then (-1, t, z)
  else
    let secs := sum_fields t in
    let finish (secs : Z) (n t : tm) (z : tzstate) := if same_fields n t then (secs, n, z) else (-1, t, z) in
    if tm_isdst t =? 0 then
      let secs := s32 (secs - tz_stdoffset z) in
      let '(n, z) := localtime env secs z in finish secs n t z
    else if 0 <? tm_isdst t then
      let t := with_dst 1 t in
      let secs := s32 (secs - tz_dstoffset z) in
      let '(n, z) := localtime env secs z in finish secs n t z
    else
      let secs := s32 (secs - tz_stdoffset z) in
      let '(n, z) := localtime env secs z in
      let secs :=
        if negb (tm_mday n =? tm_mday t) || negb (tm_hour n =? tm_hour t) || negb (tm_min n =? tm_min t) ||
           negb (tm_sec n =? tm_sec t)
        then s32 (s32 (secs + tz_stdoffset z) - tz_dstoffset z) else secs in
      finish secs n t z.

(** ** The date command *)

Definition dayname : list cstr := str <$> ["Sun"; "Mon"; "Tue"; "Wed"; "Thu"; "Fri"; "Sat"]%string.
Definition monthname : list cstr :=
  str <$> ["Jan"; "Feb"; "Mar"; "Apr"; "May"; "Jun"; "Jul"; "Aug"; "Sep"; "Oct"; "Nov"; "Dec"]%string.

(** Two digits at a place, or -1.
    [src/pmon/time.c:745-751] *)
Definition get2 (s : cstr) (i : nat) : Z :=
  let bad (c : Z) := (c <? ch "0") || (ch "9" <? c) in
  if bad (at_ s i) || bad (at_ s (S i)) then -1 else (at_ s i - ch "0") * 10 + (at_ s (S i) - ch "0").

Definition with_sec (v : Z) (t : tm) : tm := Build_tm v (tm_min t) (tm_hour t) (tm_mday t) (tm_mon t) (tm_year t) (tm_wday t) (tm_yday t) (tm_isdst t) (tm_gmtoff t) (tm_zone t).
Definition with_min (v : Z) (t : tm) : tm := Build_tm (tm_sec t) v (tm_hour t) (tm_mday t) (tm_mon t) (tm_year t) (tm_wday t) (tm_yday t) (tm_isdst t) (tm_gmtoff t) (tm_zone t).
Definition with_hour (v : Z) (t : tm) : tm := Build_tm (tm_sec t) (tm_min t) v (tm_mday t) (tm_mon t) (tm_year t) (tm_wday t) (tm_yday t) (tm_isdst t) (tm_gmtoff t) (tm_zone t).
Definition with_mday (v : Z) (t : tm) : tm := Build_tm (tm_sec t) (tm_min t) (tm_hour t) v (tm_mon t) (tm_year t) (tm_wday t) (tm_yday t) (tm_isdst t) (tm_gmtoff t) (tm_zone t).
Definition with_mon (v : Z) (t : tm) : tm := Build_tm (tm_sec t) (tm_min t) (tm_hour t) (tm_mday t) v (tm_year t) (tm_wday t) (tm_yday t) (tm_isdst t) (tm_gmtoff t) (tm_zone t).
Definition with_year (v : Z) (t : tm) : tm := Build_tm (tm_sec t) (tm_min t) (tm_hour t) (tm_mday t) (tm_mon t) v (tm_wday t) (tm_yday t) (tm_isdst t) (tm_gmtoff t) (tm_zone t).

(** The argument is read from its end: the fields so far and the length of the
    text that is left, or a message. *)
Abbreviation fields := (string + (tm * nat))%type.

(** Two more digits, if there are any: they are checked and stored. *)
Definition two (s : cstr) (ok : Z -> bool) (msg : string) (put : Z -> tm -> tm) (st : fields) : fields :=
  match st with
  | inl m => inl m
  | inr (t, n) =>
    if (2 <=? n)%nat then
      let v := get2 s (n - 2) in
      if (v <? 0) || negb (ok v) then inl msg else inr (put v t, (n - 2)%nat)
    else inr (t, n)
  end.

(** [src/pmon/time.c:769-825] *)
Definition date_fields (s : cstr) (t : tm) : fields :=
  let n := length s in
  let hadsecs := (3 <=? n)%nat && (at_ s (n - 3) =? ch ".") in
  let st :=
    if hadsecs then
      let v := get2 s (n - 2) in
      if (v <? 0) || (60 <=? v) then inl "bad seconds\n"%string else inr (with_sec v t, (n - 3)%nat)
    else inr (t, n) in
  let st := two s (fun v => v <? 60) "bad minutes\n" (fun v t => let t := with_min v t in if hadsecs then t else with_sec 0 t) st in
  let st := two s (fun v => v <? 24) "bad hours\n" with_hour st in
  let st := two s (fun v => v <=? 31) "bad day\n" with_mday st in
  let st := two s (fun v => (1 <=? v) && (v <=? 12)) "bad month\n" (fun v => with_mon (v - 1)) st in
  two s (fun _ => true) "bad year\n" (fun v => with_year (if v <? 95 then v + 100 else v)) st.

(** The line that is printed.
    [src/pmon/time.c:836-843] *)
Definition date_line (t : tm) : event :=
  Printf "%s %s %2d %02d:%02d:%02d %d\n"
    [AStr (dayname !! Z.to_nat (tm_wday t)); AStr (monthname !! Z.to_nat (tm_mon t)); AInt (tm_mday t); AInt (tm_hour t);
     AInt (tm_min t); AInt (tm_sec t); AInt (TM_YEAR_BASE + tm_year t)].

Section Date.
(** The board's clock. *)
Context {B : Type} (sbd_gettime : M B Z) (sbd_settime : Z -> M B unit).

Definition date_show (t : Z) (f : tm) : trace :=
  if negb (t =? -1) then [date_line f] else [Printf "date is not valid\n" []].

(** The result, what is printed, and the zone; [env] is the variable TZ, and
    [args] the arguments.
    [src/pmon/time.c:754-845] *)
Definition date_cmd (env : cptr) (args : list cstr) (z : tzstate) : M B (Z * trace * tzstate) :=
  sbd_gettime ≫= fun t =>
  let '(f, z) := localtime env t z in
  match args with
  | [s] =>
    match date_fields s f with
    | inl msg => mret (1, [Printf msg []], z)
    | inr (f, n) =>
      if negb (n =? 0)%nat then mret (1, [Printf "%s: bad date syntax\n" [AStr (Some s)]], z)
      else
        let '(t, f, z) := mktime env f z in
        when (negb (t =? -1)) (sbd_settime t) ≫= fun _ => mret (0, date_show t f, z)
    end
  | _ => mret (0, date_show t f, z)
  end.
End Date.
