(* ===== verification/ClockOk.v ===== *)
(** * ClockOk: the calendar

    The civil calendar as closed formulas, that [offtime] gives the date and the
    time of day of a number of seconds in it, and that [gmmktime] is its
    inverse. *)

From S2P Require Import Prelude CString Comp Clock.

(** ** The civil calendar *)

(** The number of leap years up to [y], and the day, from 1 January 1970, of the
    first of January of [y]. *)
Definition leaps (y : Z) : Z := y / 4 - y / 100 + y / 400.
Definition jan1 (y : Z) : Z := 365 * (y - 1970) + (leaps (y - 1) - leaps 1969).

(** The days of the year before a month, and the length of the month. *)
Definition month_start (leap : bool) (m : nat) : Z := foldr Z.add 0 (take m (mon_lengths leap)).
Definition month_len (leap : bool) (m : nat) : Z := nth m (mon_lengths leap) 0.

Definition valid_date (y : Z) (m : nat) (d : Z) : Prop := (m < 12)%nat /\ 1 <= d <= month_len (isleap y) m.
Definition civil (y : Z) (m : nat) (d : Z) : Z := jan1 y + month_start (isleap y) m + d - 1.

(** The fields that say when a time is. *)
Definition tm_fields (t : tm) : list Z := [tm_sec t; tm_min t; tm_hour t; tm_mday t; tm_mon t; tm_year t].

Record valid_fields (t : tm) : Prop := {
  vf_date : valid_date (tm_year t + 1900) (Z.to_nat (tm_mon t)) (tm_mday t);
  vf_mon : 0 <= tm_mon t;
  vf_hour : 0 <= tm_hour t < 24;
  vf_min : 0 <= tm_min t < 60;
  vf_sec : 0 <= tm_sec t < 60
}.

Definition fields_day (t : tm) : Z := civil (tm_year t + 1900) (Z.to_nat (tm_mon t)) (tm_mday t).
Definition fields_secs (t : tm) : Z := 86400 * fields_day t + 3600 * tm_hour t + 60 * tm_min t + tm_sec t.

(** The fields are those of [s] seconds since 1970, with the day of the week and
    of the year. *)
Record is_time (s : Z) (t : tm) : Prop := {
  it_valid : valid_fields t;
  it_secs : fields_secs t = s;
  it_wday : tm_wday t = (4 + fields_day t) mod 7;
  it_yday : tm_yday t = fields_day t - jan1 (tm_year t + 1900)
}.

Ltac euclid := Z.to_euclidean_division_equations; lia.

Lemma isleap_mod y : isleap y = (y mod 4 =? 0) && (negb (y mod 100 =? 0) || (y mod 400 =? 0)).
Proof.
  unfold isleap. assert (forall n, 0 < n -> (Z.rem y n =? 0) = (y mod n =? 0)) as H; [|by rewrite !H by lia].
  intros n Hn. apply eq_true_iff_eq. rewrite !Z.eqb_eq. rewrite Z.rem_divide, Z.mod_divide by lia. done.
Qed.

Lemma jan1_succ y : jan1 (y + 1) = jan1 y + year_lengths (isleap y).
Proof.
  unfold jan1, leaps, year_lengths, DAYS_PER_LYEAR, DAYS_PER_NYEAR. rewrite isleap_mod.
  replace (y + 1 - 1) with y by lia.
  destruct (Z.eqb_spec (y mod 4) 0), (Z.eqb_spec (y mod 100) 0), (Z.eqb_spec (y mod 400) 0); cbn; euclid.
Qed.

Lemma year_len_range leap : 365 <= year_lengths leap <= 366.
Proof. by destruct leap. Qed.

Lemma jan1_mono a b : a <= b -> jan1 a <= jan1 b.
Proof.
  intros H. replace b with (a + (b - a)) by lia. assert (0 <= b - a) as Hn by lia. generalize dependent (b - a). clear b H.
  intros n Hn. revert n Hn. apply natlike_ind; [by rewrite Z.add_0_r|].
  intros n _ IH. replace (a + Z.succ n) with (a + n + 1) by lia. rewrite jan1_succ. pose proof (year_len_range (isleap (a + n))). lia.
Qed.

(** The year of a day is unique. *)
Lemma jan1_inj y y' d d' : jan1 y + d = jan1 y' + d' ->
  0 <= d < year_lengths (isleap y) -> 0 <= d' < year_lengths (isleap y') -> y = y' /\ d = d'.
Proof.
  intros E Hd Hd'. pose proof (jan1_succ y) as S. pose proof (jan1_succ y') as S'.
  destruct (Z.lt_trichotomy y y') as [H|[->|H]]; [|lia|].
  - pose proof (jan1_mono (y + 1) y' ltac:(lia)). lia.
  - pose proof (jan1_mono (y' + 1) y ltac:(lia)). lia.
Qed.

Lemma month_start_succ leap m : (m < 12)%nat -> month_start leap (S m) = month_start leap m + month_len leap m.
Proof. intros H. do 12 (destruct m as [|m]; [by destruct leap|]). lia. Qed.

Lemma month_start_year leap : month_start leap 12 = year_lengths leap.
Proof. by destruct leap. Qed.

Lemma month_start_mono leap a b : (a <= b <= 12)%nat -> month_start leap a <= month_start leap b.
Proof.
  intros [H Hb]. induction H as [|b H IH]; [lia|]. rewrite month_start_succ by lia.
  assert (0 <= month_len leap b); [|lia]. do 12 (destruct b as [|b]; [by destruct leap|]). lia.
Qed.

Lemma month_day_range leap m d : (m < 12)%nat -> 1 <= d <= month_len leap m -> 0 <= month_start leap m + d - 1 < year_lengths leap.
Proof.
  intros Hm Hd. rewrite <- month_start_year. pose proof (month_start_mono leap (S m) 12 ltac:(lia)) as H.
  rewrite month_start_succ in H by lia. pose proof (month_start_mono leap 0 m ltac:(lia)) as H0. change (month_start leap 0) with 0 in H0. lia.
Qed.

Lemma month_inj leap m m' d d' : (m < 12)%nat -> (m' < 12)%nat -> 1 <= d <= month_len leap m -> 1 <= d' <= month_len leap m' ->
  month_start leap m + d = month_start leap m' + d' -> m = m' /\ d = d'.
Proof.
  intros Hm Hm' Hd Hd' E. destruct (Nat.lt_trichotomy m m') as [H|[->|H]]; [|lia|].
  - pose proof (month_start_mono leap (S m) m' ltac:(lia)) as Hs. rewrite month_start_succ in Hs by lia. lia.
  - pose proof (month_start_mono leap (S m') m ltac:(lia)) as Hs. rewrite month_start_succ in Hs by lia. lia.
Qed.

(** The date of a day is unique. *)
Lemma civil_inj y m d y' m' d' : valid_date y m d -> valid_date y' m' d' -> civil y m d = civil y' m' d' ->
  y = y' /\ m = m' /\ d = d'.
Proof.
  intros [Hm Hd] [Hm' Hd'] E. unfold civil in E.
  destruct (jan1_inj y y' (month_start (isleap y) m + d - 1) (month_start (isleap y') m' + d' - 1)) as [-> E'];
    [lia|by apply month_day_range|by apply month_day_range|]. split; [done|].
  apply (month_inj (isleap y')); try done. lia.
Qed.

(** ** Times are unique *)

Lemma is_time_fields s t t' : valid_fields t -> valid_fields t' -> fields_secs t = s -> fields_secs t' = s -> tm_fields t = tm_fields t'.
Proof.
  intros [D M H Mi S] [D' M' H' Mi' S'] E E'. unfold fields_secs in *.
  assert (fields_day t = fields_day t') as Ed by lia.
  destruct (civil_inj _ _ _ _ _ _ D D' Ed) as (Ey & Em & Emd). unfold tm_fields.
  assert (tm_hour t = tm_hour t') by lia. assert (tm_min t = tm_min t') by lia. assert (tm_sec t = tm_sec t') by lia.
  assert (tm_mon t = tm_mon t') by lia. assert (tm_year t = tm_year t') by lia. congruence.
Qed.

Lemma fields_same t t' : tm_fields t = tm_fields t' -> valid_fields t -> valid_fields t' /\ fields_secs t' = fields_secs t.
Proof.
  unfold tm_fields. intros Ef [D M H Mi S]. injection Ef as E1 E2 E3 E4 E5 E6. unfold fields_secs, fields_day.
  rewrite <- E1, <- E2, <- E3, <- E4, <- E5, <- E6. split; [|done]. by split; rewrite <- ?E1, <- ?E2, <- ?E3, <- ?E4, <- ?E5, <- ?E6.
Qed.

(** ** The loops of [offtime] *)

Lemma rounds_enough n unit : 0 < unit -> Z.abs n < unit * Z.of_nat (rounds n unit).
Proof. intros H. unfold rounds. pose proof (Z.div_pos (Z.abs n) unit). pose proof (Z.mul_succ_div_gt (Z.abs n) unit H). lia. Qed.

Lemma rem_up_spec fuel r days : - r <= 86400 * Z.of_nat fuel ->
  let '(r', days') := rem_up fuel r days in 86400 * days' + r' = 86400 * days + r /\ 0 <= r' /\ (0 <= r -> r' = r) /\ (r < 0 -> r' < 86400).
Proof.
  revert r days. induction fuel as [|f IH]; intros r days H; cbn [rem_up]; [lia|]. unfold SECS_PER_DAY. case_bool; [|lia].
  specialize (IH (r + 86400) (days - 1)). destruct (rem_up f _ _) as [r' d']. lia.
Qed.

Lemma rem_down_spec fuel r days : 0 <= r -> r < 86400 * Z.of_nat fuel ->
  let '(r', days') := rem_down fuel r days in 86400 * days' + r' = 86400 * days + r /\ 0 <= r' < 86400.
Proof.
  revert r days. induction fuel as [|f IH]; intros r days H0 H; cbn [rem_down]; [lia|]. unfold SECS_PER_DAY. case_bool; [|lia].
  specialize (IH (r - 86400) (days + 1)). destruct (rem_down f _ _) as [r' d']. lia.
Qed.

Lemma years_up_spec fuel y days : 0 <= days -> days < 365 * Z.of_nat fuel ->
  let '(y', d) := years_up fuel y days in jan1 y' + d = jan1 y + days /\ 0 <= d < year_lengths (isleap y').
Proof.
  revert y days. induction fuel as [|f IH]; intros y days H0 H; cbn [years_up]; [lia|].
  case_bool; [lia|]. pose proof (year_len_range (isleap y)). specialize (IH (y + 1) (days - year_lengths (isleap y))).
  rewrite jan1_succ in IH. destruct (years_up f _ _) as [y' d]. lia.
Qed.

Lemma years_down_spec fuel y days : days < 0 -> - days <= 365 * Z.of_nat fuel ->
  let '(y', d) := years_down fuel y days in jan1 y' + d = jan1 y + days /\ 0 <= d < year_lengths (isleap y').
Proof.
  revert y days. induction fuel as [|f IH]; intros y days H0 H; cbn [years_down]; [lia|].
  pose proof (jan1_succ (y - 1)) as E. rewrite Z.sub_add in E. pose proof (year_len_range (isleap (y - 1))).
  case_bool; [|lia]. specialize (IH (y - 1) (days + year_lengths (isleap (y - 1)))). destruct (years_down f _ _) as [y' d]. lia.
Qed.

Lemma months_spec l mon days : 0 <= days < foldr Z.add 0 l -> exists i, (i < length l)%nat /\
  months l mon days = (mon + Z.of_nat i, days - foldr Z.add 0 (take i l)) /\ 0 <= days - foldr Z.add 0 (take i l) < nth i l 0.
Proof.
  revert mon days. induction l as [|len l IH]; intros mon days H; cbn in *; [lia|]. case_bool.
  - destruct (IH (mon + 1) (days - len)) as (i & Hi & -> & Hr); [lia|]. exists (S i). cbn. split; [lia|]. split; [f_equal; lia|lia].
  - exists 0%nat. cbn. split; [lia|]. split; [f_equal; lia|lia].
Qed.

Lemma month_of_day leap days : 0 <= days < year_lengths leap -> exists m, (m < 12)%nat /\
  months (mon_lengths leap) 0 days = (Z.of_nat m, days - month_start leap m) /\ 1 <= days - month_start leap m + 1 <= month_len leap m.
Proof.
  intros H. destruct (months_spec (mon_lengths leap) 0 days) as (m & Hm & E & Hr); [by destruct leap|].
  exists m. split; [by destruct leap|]. split; [done|]. unfold month_start, month_len. lia.
Qed.

(** The fields of a time in a zone. *)
Lemma offtime_spec s offset : Z.abs offset <= 2000000000 -> is_time (s + offset) (offtime s offset) /\ tm_isdst (offtime s offset) = 0.
Proof.
  intros Ho. unfold offtime. rewrite s32_small by (unfold SECS_PER_DAY; euclid).
  set (r := Z.rem s SECS_PER_DAY + offset). set (days := Z.quot s SECS_PER_DAY).
  assert (86400 * days + r = s + offset) as E by (unfold days, r, SECS_PER_DAY; euclid).
  generalize dependent days. generalize dependent r. intros r days E.
  pose proof (rem_up_spec (rounds r 86400) r days) as H1. unfold SECS_PER_DAY in *.
  destruct (rem_up _ _ _) as [r1 d1]. destruct H1 as (E1 & P1 & _); [pose proof (rounds_enough r 86400); lia|].
  pose proof (rem_down_spec (rounds r1 86400) r1 d1 P1) as H2.
  destruct (rem_down _ _ _) as [r2 d2]. destruct H2 as (E2 & P2); [pose proof (rounds_enough r1 86400); lia|].
  assert (exists y yd, (if 0 <=? d2 then years_up (rounds d2 DAYS_PER_NYEAR) EPOCH_YEAR d2
     else years_down (rounds d2 DAYS_PER_NYEAR) EPOCH_YEAR d2) = (y, yd) /\ jan1 y + yd = d2 /\ 0 <= yd < year_lengths (isleap y)) as (y & yd & -> & Ey & Hyd).
  { unfold DAYS_PER_NYEAR, EPOCH_YEAR. case_bool.
    - pose proof (years_up_spec (rounds d2 365) 1970 d2) as Hy. destruct (years_up _ _ _) as [y yd]. exists y, yd.
      change (jan1 1970) with 0 in Hy. pose proof (rounds_enough d2 365). split; [done|]. destruct Hy; [lia..|]. split; [lia|done].
    - pose proof (years_down_spec (rounds d2 365) 1970 d2) as Hy. destruct (years_down _ _ _) as [y yd]. exists y, yd.
      change (jan1 1970) with 0 in Hy. pose proof (rounds_enough d2 365). split; [done|]. destruct Hy; [lia..|]. split; [lia|done]. }
  destruct (month_of_day (isleap y) yd Hyd) as (m & Hm & -> & Hmd).
  unfold TM_YEAR_BASE, SECS_PER_HOUR, SECS_PER_MIN, EPOCH_WDAY, DAYS_PER_WEEK.
  assert (y - 1900 + 1900 = y) as Ey' by lia.
  split; [|done]. assert (civil y m (yd - month_start (isleap y) m + 1) = d2) as Hc by (unfold civil; lia).
  split; unfold fields_secs, fields_day; cbn; rewrite ?Ey', ?Nat2Z.id, ?Hc.
  - split; cbn; rewrite ?Ey', ?Nat2Z.id; [done|lia|euclid|euclid|euclid].
  - euclid.
  - clear -P2. case_bool; euclid.
  - lia.
Qed.

Lemma is_time_zone z s t : is_time s t -> is_time s (with_zone z t).
Proof. destruct t. by intros [[] ? ? ?]. Qed.

Lemma is_time_dst d s t : is_time s t -> is_time s (with_dst d t).
Proof. destruct t. by intros [[] ? ? ?]. Qed.

Lemma gmtime_is_time s : is_time s (gmtime s).
Proof. unfold gmtime. apply is_time_zone. rewrite <- (Z.add_0_r s) at 1. apply offtime_spec. lia. Qed.

(** ** The inverse *)

Lemma s32_add_l x y : s32 (s32 x + y) = s32 (x + y).
Proof. apply (wraps_inj_wrapu 32). rewrite <- (wrapu_add_l 32 (s32 x)), wrapu_wraps. apply wrapu_add_l. Qed.

Lemma month_secs_spec n l x : month_secs n l (s32 x) = s32 (x + 86400 * foldr Z.add 0 (take n l)).
Proof.
  revert l x. induction n as [|n IH]; intros l x; [by rewrite Z.add_0_r|].
  destruct l as [|len l]; cbn; [by rewrite Z.add_0_r|]. rewrite s32_add_l, IH. unfold SECS_PER_DAY. f_equal. lia.
Qed.

Lemma year_secs_spec n y x : year_secs n y (s32 x) = s32 (x + 86400 * (jan1 (y + Z.of_nat n) - jan1 y)).
Proof.
  revert y x. induction n as [|n IH]; intros y x; cbn [year_secs]; [replace (y + Z.of_nat 0) with y by lia; f_equal; lia|].
  rewrite s32_add_l, IH, jan1_succ. unfold SECS_PER_DAY. f_equal.
  replace (y + 1 + Z.of_nat n) with (y + Z.of_nat (S n)) by lia. lia.
Qed.

(** [sum_fields] adds up the calendar, modulo the width of a [long]. *)
Lemma sum_fields_spec t : 0 <= tm_mon t -> 70 <= tm_year t < 2 ^ 31 - 1900 -> sum_fields t = s32 (fields_secs t).
Proof.
  intros Hm Hy. unfold sum_fields.
  rewrite month_secs_spec, (s32_small (tm_year t + 1900)) by lia. rewrite year_secs_spec. f_equal.
  rewrite Z2Nat.id by lia. replace (1970 + (tm_year t + 1900 - 1970)) with (tm_year t + 1900) by lia. change (jan1 1970) with 0.
  unfold fields_secs, fields_day, civil, month_start, SECS_PER_MIN, SECS_PER_HOUR, SECS_PER_DAY. lia.
Qed.

Lemma fields_year t : valid_fields t -> 0 <= fields_secs t < 2 ^ 31 -> 70 <= tm_year t <= 138.
Proof.
  intros V Hs. assert (0 <= fields_day t < 24856) as Hd.
  { destruct V. unfold fields_secs in Hs. lia. }
  destruct V as [[Hm Hmd] _ _ _ _]. pose proof (month_day_range _ _ _ Hm Hmd) as Hr. unfold fields_day, civil in Hd.
  pose proof (jan1_succ (tm_year t + 1900)) as Hj. split.
  - destruct (Z.le_gt_cases 70 (tm_year t)) as [|H]; [done|]. pose proof (jan1_mono (tm_year t + 1900 + 1) 1970 ltac:(lia)) as Hc.
    change (jan1 1970) with 0 in Hc. lia.
  - destruct (Z.le_gt_cases (tm_year t) 138) as [|H]; [done|]. pose proof (jan1_mono 2039 (tm_year t + 1900) ltac:(lia)) as Hc.
    change (jan1 2039) with 25202 in Hc. lia.
Qed.

Lemma fields_after t : valid_fields t -> 70 <= tm_year t -> 0 <= fields_secs t.
Proof.
  intros [[Hm Hmd] _ ? ? ?] Hy. pose proof (month_day_range _ _ _ Hm Hmd). pose proof (jan1_mono 1970 (tm_year t + 1900) ltac:(lia)) as Hj.
  change (jan1 1970) with 0 in Hj. unfold fields_secs, fields_day, civil. lia.
Qed.

(** The calendar's lengths are those the test of the fields allows. *)
Lemma month_len_31 leap m : month_len leap m <= 31.
Proof. do 12 (destruct m as [|m]; [by destruct leap|]). by destruct leap, m. Qed.

Lemma fields_sum t : valid_fields t -> 0 <= fields_secs t < 2 ^ 31 -> bad_fields t = false /\ sum_fields t = fields_secs t.
Proof.
  intros V Hs. pose proof (fields_year t V Hs) as Hy. destruct V as [[Hm Hmd] Hmon Hh Hmi Hsec].
  pose proof (month_len_31 (isleap (tm_year t + 1900)) (Z.to_nat (tm_mon t))).
  split; [unfold bad_fields; repeat case_bool; try done; lia|]. rewrite sum_fields_spec by lia. apply s32_small. lia.
Qed.

(** ** The properties of the calendar *)

(** Every time of a signed word, also before 1970, is given the fields of the
    Gregorian calendar: a date that exists whose day, counted in the calendar from
    1 January 1970, and whose time of day make up the seconds, the day of the week
    and the day of the year. *)
Theorem gmtime_calendar (s : Z) : is_time s (gmtime s).
Proof.
  exact (gmtime_is_time s).
Qed.

(** [gmmktime] and [gmtime] are inverse: a time that a signed word can hold
    is that of some fields of the calendar, before the year 2038 runs out of the
    word, exactly when these are its fields. *)
Theorem gmmktime_gmtime (s : Z) (t : tm) (Hs : 0 <= s < 2 ^ 31) (Ht : fields_secs t < 2 ^ 31) :
  (valid_fields t /\ gmmktime t = s) <-> tm_fields t = tm_fields (gmtime s).
Proof.
  destruct (gmtime_is_time s) as [V E _ _]. split.
  - intros [Vt Et]. assert (fields_secs t = s) as Es; [|by apply (is_time_fields s)].
    unfold gmmktime in Et. destruct (bad_fields t) eqn:Eb; [lia|].
    assert (70 <= tm_year t) as Hy by (unfold bad_fields in Eb; rewrite !orb_false_iff in Eb; lia).
    rewrite (proj2 (fields_sum t Vt ltac:(pose proof (fields_after t Vt Hy); lia))) in Et. done.
  - intros Ef. symmetry in Ef. destruct (fields_same _ _ Ef V) as [Vt Es].
    split; [done|]. unfold gmmktime. destruct (fields_sum t Vt) as [-> ->]; [lia|congruence].
Qed.

Lemma gmmktime_gmtime_witness : gmmktime (gmtime 951827696) = 951827696 /\ tm_fields (gmtime 951827696) = [56; 34; 12; 29; 1; 100].
Proof. split; [|reflexivity]. apply (gmmktime_gmtime 951827696 (gmtime 951827696)); [lia|reflexivity|reflexivity]. Defined.
