(* ===== verification/ClockTz.v ===== *)
(** * ClockTz: time zones

    What the rules of a time zone mean, that [transtime] and [localtime] follow
    them, that [tzparse] reads back the text of a zone, and [mktime] where there
    is no zone; what the code does in a zone away from Greenwich. *)

From S2P Require Import Prelude CString Comp Clock ClockOk.

(** ** Rules

    The days, from 1 January 1970, that a rule means in a year. *)
Definition rule_day (y : Z) (r : rule) (day : Z) : Prop :=
  if r_type r =? RT_JULIAN_DAY then
    (* the day of that number in a common year: 29 February is never counted *)
    exists m d, valid_date y m d /\ ~ (m = 1%nat /\ d = 29) /\ r_day r = month_start false m + d /\ day = civil y m d
  else if r_type r =? RT_DAY_OF_YEAR then day = jan1 y + r_day r
  else
    (* the given day of the week in the given week of the month, the last one for 5 *)
    exists d, let m := Z.to_nat (r_mon r - 1) in
      valid_date y m d /\ day = civil y m d /\ (4 + day) mod 7 = r_day r /\
      (if r_week r =? 5 then month_len (isleap y) m < d + 7 else 7 * (r_week r - 1) < d <= 7 * r_week r).

Definition rule_ok (r : rule) : Prop :=
  0 <= r_time r < 90000 /\
  ((r_type r = RT_JULIAN_DAY /\ 1 <= r_day r <= 365) \/
   (r_type r = RT_DAY_OF_YEAR /\ 0 <= r_day r <= 365) \/
   (r_type r = RT_MONTH_NTH_DAY_OF_WEEK /\ 1 <= r_mon r <= 12 /\ 1 <= r_week r <= 5 /\ 0 <= r_day r <= 6)).

(** The years of a signed word. *)
Definition years : list Z := (fun n => Z.of_nat n + 1970) <$> seq 0 69.

Lemma years_spec y : 1970 <= y <= 2038 -> y ∈ years.
Proof. intros H. apply list_elem_of_fmap. exists (Z.to_nat (y - 1970)). split; [lia|]. apply elem_of_seq. lia. Qed.

(** Zeller's congruence is the day of the week of the first of the month. *)
Lemma zeller_spec y m : 1970 <= y <= 2038 -> (m < 12)%nat -> zeller (Z.of_nat m + 1) y = (4 + civil y m 1) mod 7.
Proof.
  intros Hy Hm.
  assert (Forall (fun y => Forall (fun m => zeller (Z.of_nat m + 1) y = (4 + civil y m 1) mod 7) (seq 0 12)) years) as H.
  { apply (bool_decide_unpack _). vm_compute. exact I. }
  apply (Forall_elem _ _ m (Forall_elem _ _ y H (years_spec y Hy))). apply elem_of_seq. lia.
Qed.

(** A common year's day in a common and in a leap year. *)
Lemma julian_day y n : 1 <= n <= 365 -> exists m d, valid_date y m d /\ ~ (m = 1%nat /\ d = 29) /\ n = month_start false m + d /\
  civil y m d = jan1 y + (n - 1) + (if isleap y && (60 <=? n) then 1 else 0).
Proof.
  intros Hn. destruct (month_of_day false (n - 1)) as (m & Hm & _ & Hd); [unfold year_lengths, DAYS_PER_NYEAR; lia|].
  assert (exists d, n = month_start false m + d /\ 1 <= d <= month_len false m) as (d & E & Hd') by (eexists; split; [|exact Hd]; lia).
  clear Hd. exists m, d.
  assert (d <= month_len (isleap y) m /\ ~ (m = 1%nat /\ d = 29) /\
          month_start (isleap y) m = month_start false m + (if isleap y && (60 <=? n) then 1 else 0)) as (H1 & H2 & H3).
  { destruct (isleap y); [|split; [lia|split; [|by rewrite Z.add_0_r]]].
    - destruct (Z.leb_spec 60 n); do 12 (destruct m as [|m]; [cbn in *; lia|]); lia.
    - intros [-> ->]. cbn in Hd'. lia. }
  unfold valid_date, civil. rewrite H3. repeat split; try done; lia.
Qed.

Lemma week_loop_spec n d len : 0 <= d < 7 -> d + 7 * Z.of_nat n < len + 7 -> (n <= 4)%nat -> 28 <= len <= 31 ->
  let d' := week_loop n d len in 0 <= d' < len /\ (d' - d) mod 7 = 0 /\
  (if (n =? 4)%nat then len <= d' + 7 else 7 * Z.of_nat n <= d' < 7 * Z.of_nat n + 7).
Proof.
  intros Hd H1 Hn Hl. unfold DAYS_PER_WEEK.
  do 5 (destruct n as [|n]; [cbn; unfold DAYS_PER_WEEK; repeat case_bool; try lia; repeat split; try lia; euclid|]). lia.
Qed.

(** ** The transitions *)

Lemma jan1_2038 y : 1970 <= y <= 2037 -> 0 <= jan1 y <= 24472.
Proof.
  intros H. pose proof (jan1_mono 1970 y ltac:(lia)) as H1. pose proof (jan1_mono y 2037 ltac:(lia)) as H2.
  change (jan1 1970) with 0 in H1. change (jan1 2037) with 24472 in H2. lia.
Qed.

Lemma month_len_range leap m : (m < 12)%nat -> 28 <= month_len leap m <= 31.
Proof. intros H. do 12 (destruct m as [|m]; [by destruct leap|]). lia. Qed.

(** The day the code finds in a month. *)
Lemma month_rule_day y m w wd : 1970 <= y <= 2037 -> (m < 12)%nat -> 1 <= w <= 5 -> 0 <= wd <= 6 ->
  let d := wd - zeller (Z.of_nat m + 1) y in
  let d := if d <? 0 then d + DAYS_PER_WEEK else d in
  let d := week_loop (Z.to_nat (w - 1)) d (month_len (isleap y) m) in
  valid_date y m (d + 1) /\ (4 + civil y m (d + 1)) mod 7 = wd /\
  (if w =? 5 then month_len (isleap y) m < d + 1 + 7 else 7 * (w - 1) < d + 1 <= 7 * w).
Proof.
  intros Hy Hm Hw Hwd. cbn zeta. rewrite zeller_spec by lia. unfold DAYS_PER_WEEK. set (z := 4 + civil y m 1).
  set (d := if wd - z mod 7 <? 0 then wd - z mod 7 + 7 else wd - z mod 7).
  assert (0 <= d < 7 /\ (d + z) mod 7 = wd) as [Hd Ez] by (clear -Hwd; subst d; case_bool; euclid).
  pose proof (month_len_range (isleap y) m Hm) as Hl.
  destruct (week_loop_spec (Z.to_nat (w - 1)) d (month_len (isleap y) m)) as (H1 & H2 & H3); [lia|lia|lia|lia|].
  set (d' := week_loop _ _ _) in *. clearbody d' d. split; [split; [done|lia]|]. split.
  - replace (4 + civil y m (d' + 1)) with (z + d') by (unfold z, civil; lia). clear -Ez H2 Hwd. euclid.
  - destruct (Z.eqb_spec w 5) as [->|]; [change (Z.to_nat (5 - 1) =? 4)%nat with true in H3; cbv iota in H3; lia|].
    destruct (Nat.eqb_spec (Z.to_nat (w - 1)) 4); lia.
Qed.

(** [transtime] is the time of the rule's day. *)
Lemma transtime_day y r off : 1970 <= y <= 2037 -> rule_ok r -> Z.abs off <= 100000 ->
  exists day, rule_day y r day /\ transtime (86400 * jan1 y) y r off = 86400 * day + r_time r + off /\ jan1 y <= day <= jan1 y + 365.
Proof.
  intros Hy [Ht Hr] Ho. pose proof (jan1_2038 y Hy) as Hj. unfold rule_day, transtime, SECS_PER_DAY.
  destruct Hr as [[-> Hd]|[[-> Hd]|(-> & Hm & Hw & Hd)]]; cbn -[Z.mul isleap s32 civil month_start].
  - destruct (julian_day y (r_day r) Hd) as (m & d & Hv & Hne & E & Ec). exists (civil y m d). split; [by exists m, d|].
    assert (jan1 y <= civil y m d <= jan1 y + 365) as Hc by (rewrite Ec; destruct (isleap y), (60 <=? r_day r); cbn; lia).
    split; [|done]. rewrite Ec in *. rewrite (s32_small (86400 * jan1 y + (r_day r - 1) * 86400)) by lia.
    destruct (isleap y && (60 <=? r_day r)); [rewrite (s32_small (_ + 86400)) by lia|]; rewrite s32_small; lia.
  - exists (jan1 y + r_day r). split; [done|]. split; [|lia]. rewrite (s32_small (86400 * jan1 y + r_day r * 86400)) by lia. rewrite s32_small; lia.
  - destruct (month_rule_day y (Z.to_nat (r_mon r - 1)) (r_week r) (r_day r)) as (Hv & Hwd & Hk); [done|lia|done|lia|].
    rewrite Z2Nat.id, Z.sub_add in Hv, Hwd, Hk by lia. cbn zeta in Hv, Hwd, Hk. unfold month_len in Hv, Hwd, Hk |- *.
    set (d := week_loop _ _ _) in *. exists (civil y (Z.to_nat (r_mon r - 1)) (d + 1)).
    split; [by exists (d + 1)|].
    assert (jan1 y <= civil y (Z.to_nat (r_mon r - 1)) (d + 1) <= jan1 y + 365) as Hc.
    { destruct Hv as [Hm' Hv]. pose proof (month_day_range _ _ _ Hm' Hv). pose proof (year_len_range (isleap y)). unfold civil. lia. }
    split; [|done]. rewrite <- (s32_small (86400 * jan1 y)) by lia. rewrite month_secs_spec, s32_add_l.
    unfold civil in *. rewrite (s32_small (_ + d * 86400)) by (unfold month_start in *; lia).
    unfold month_start in *. rewrite s32_small; lia.
Qed.

(** A rule means one day of a year. *)
Lemma rule_day_unique y r a b : rule_ok r -> rule_day y r a -> rule_day y r b -> a = b.
Proof.
  intros [_ Hr]. unfold rule_day. destruct Hr as [[-> Hd]|[[-> Hd]|(-> & Hm & Hw & Hd)]]; cbn -[civil month_start].
  - intros (m & d & [Hm Hv] & Hne & E & ->) (m' & d' & [Hm' Hv'] & Hne' & E' & ->).
    assert (forall m d, (m < 12)%nat -> 1 <= d <= month_len (isleap y) m -> ~ (m = 1%nat /\ d = 29) -> 1 <= d <= month_len false m) as H.
    { clear. intros m d Hm. destruct (isleap y); [|done]. do 12 (destruct m as [|m]; [cbn; lia|]). lia. }
    destruct (month_inj false m m' d d') as [-> ->]; try done; [by apply H|by apply H|lia].
  - lia.
  - intros (d & [Hm' Hv] & -> & E & Hk) (d' & [_ Hv'] & -> & E' & Hk'). unfold civil in *.
    assert (d = d'); [|congruence]. destruct (Z.eqb_spec (r_week r) 5); clear Hd; euclid.
Qed.

Lemma year_loop_spec fuel y tyr tjan : 0 <= tyr -> tyr < 31536000 * Z.of_nat fuel -> tjan = 86400 * jan1 y ->
  exists y', year_loop fuel y tyr tjan = (y', 86400 * jan1 y') /\ 86400 * jan1 y' <= tyr + tjan < 86400 * jan1 (y' + 1).
Proof.
  revert y tyr tjan. induction fuel as [|f IH]; intros y tyr tjan H0 H ->; cbn [year_loop]; [lia|].
  pose proof (year_len_range (isleap y)). unfold SECS_PER_DAY. case_bool.
  - destruct (IH (y + 1) (tyr - year_lengths (isleap y) * 86400) (86400 * jan1 y + year_lengths (isleap y) * 86400)) as (y' & -> & Hy);
      [lia|lia|rewrite jan1_succ; lia|]. exists y'. split; [done|lia].
  - exists y. split; [done|]. rewrite jan1_succ. lia.
Qed.

(** Whether it is summer: the time is between the two transitions of its year. *)
Definition summer (z : tzstate) (t : Z) : Prop := exists y ds de,
  86400 * jan1 y <= t < 86400 * jan1 (y + 1) /\ rule_day y (tz_dststart z) ds /\ rule_day y (tz_dstend z) de /\
  let s := 86400 * ds + r_time (tz_dststart z) in
  let e := 86400 * de + r_time (tz_dstend z) in
  if s <? e then s <= t < e else ~ (e <= t < s).

Record zone_ok (z : tzstate) : Prop := {
  zo_start : rule_ok (tz_dststart z);
  zo_end : rule_ok (tz_dstend z);
  zo_std : Z.abs (tz_stdoffset z) < 90000;
  zo_dst : Z.abs (tz_dstoffset z) < 93600
}.

Lemma rule_ok_type r : rule_ok r -> r_type r <> RT_NONE.
Proof. intros [_ H]. unfold RT_NONE, RT_JULIAN_DAY, RT_DAY_OF_YEAR, RT_MONTH_NTH_DAY_OF_WEEK in *. lia. Qed.

Lemma year_of_unique t y y' : 86400 * jan1 y <= t < 86400 * jan1 (y + 1) -> 86400 * jan1 y' <= t < 86400 * jan1 (y' + 1) -> y = y'.
Proof.
  intros H H'. destruct (Z.lt_trichotomy y y') as [Hl|[->|Hl]]; [|done|].
  - pose proof (jan1_mono (y + 1) y' ltac:(lia)). lia.
  - pose proof (jan1_mono (y' + 1) y ltac:(lia)). lia.
Qed.

Lemma local_dst_spec z t : zone_ok z -> tz_hasdst z = true -> 0 <= t < 86400 * jan1 2038 ->
  (local_dst z t = 1 /\ summer z t) \/ (local_dst z t = 0 /\ ~ summer z t).
Proof.
  intros [Hs He _ _] Hd Ht. unfold local_dst. rewrite Hd, (proj2 (Z.eqb_neq _ _) (rule_ok_type _ Hs)). cbn [negb].
  pose proof (rounds_enough t 31536000 ltac:(lia)) as Hf.
  destruct (year_loop_spec (rounds t (DAYS_PER_NYEAR * SECS_PER_DAY)) EPOCH_YEAR t 0) as (y & -> & Hy); [lia|change (DAYS_PER_NYEAR * SECS_PER_DAY) with 31536000; lia|done|].
  rewrite Z.add_0_r in Hy.
  assert (1970 <= y <= 2037) as Hyr.
  { split; [destruct (Z.le_gt_cases 1970 y) as [|H]; [done|]; pose proof (jan1_mono (y + 1) 1970 ltac:(lia)) as Hm; change (jan1 1970) with 0 in Hm; lia|].
    destruct (Z.le_gt_cases y 2037) as [|H]; [done|]. pose proof (jan1_mono 2038 y ltac:(lia)). lia. }
  destruct (transtime_day y (tz_dststart z) 0 Hyr Hs ltac:(lia)) as (ds & Hds & -> & _).
  destruct (transtime_day y (tz_dstend z) 0 Hyr He ltac:(lia)) as (de & Hde & -> & _). rewrite !Z.add_0_r.
  set (in_summer := let s := 86400 * ds + r_time (tz_dststart z) in let e := 86400 * de + r_time (tz_dstend z) in
    if s <? e then s <= t < e else ~ (e <= t < s)).
  assert (summer z t <-> in_summer) as ->.
  { split; [|intros H; by exists y, ds, de]. intros (y' & ds' & de' & Hy' & Hds' & Hde' & H).
    rewrite <- (year_of_unique t y y' Hy Hy') in Hds', Hde'.
    assert (ds' = ds) as -> by by apply (rule_day_unique y (tz_dststart z)).
    by assert (de' = de) as -> by by apply (rule_day_unique y (tz_dstend z)). }
  unfold in_summer. cbn zeta. destruct (_ <? _).
  - destruct (Z.leb_spec (86400 * ds + r_time (tz_dststart z)) t), (Z.ltb_spec t (86400 * de + r_time (tz_dstend z))); cbn; lia.
  - destruct (Z.leb_spec (86400 * de + r_time (tz_dstend z)) t), (Z.ltb_spec t (86400 * ds + r_time (tz_dststart z))); cbn; lia.
Qed.

(** C25. The time of day in a zone with rules for summer time, for instants from
    1970 to the end of 2037 and an environment whose zone [tzset] takes to a sound
    one ([zone_ok]: offsets of less than 25 hours, 26 in summer, and rules that name days and
    times of day that exist) with daylight saving: whatever zone was in use
    before, [localtime] says that it is summer exactly when the time is between
    the two transitions of its year (the days the rules mean in the calendar, also
    when summer spans the new year, at the rules' hours in Greenwich, which is
    where the code takes them: [summer_at_greenwich]), and gives the fields of the
    calendar for the time shifted by the offset of the season. *)
Theorem localtime_zone (env : cptr) (t : Z) (z : tzstate) (Ht : 0 <= t < 86400 * jan1 2038)
  (Hz : zone_ok (tzset env z)) (Hd : tz_hasdst (tzset env z) = true) :
  exists f z', localtime env t z = (f, z') /\ z' = tzset env z /\
  ((tm_isdst f = 1 /\ summer z' t /\ is_time (t - tz_dstoffset z') f) \/
   (tm_isdst f = 0 /\ ~ summer z' t /\ is_time (t - tz_stdoffset z') f)).
Proof.
  eexists _, _. split; [done|]. split; [done|]. unfold local_fields. generalize dependent (tzset env z). clear z. intros z Hz Hd.
  destruct Hz as [Hs He Ho Ho'].
  destruct (local_dst_spec z t (Build_zone_ok z Hs He Ho Ho') Hd Ht) as [[-> H]|[-> H]]; [left|right]; (split; [done|]; split; [done|]); cbn [Z.eqb Pos.eqb];
    apply is_time_zone, is_time_dst; rewrite <- Z.add_opp_r; apply offtime_spec; lia.
Qed.

(** ** The text of a zone

    Numbers with three digits; names, offsets and rules as POSIX writes them. *)
Definition num_text (n : Z) : cstr := [ch "0" + n / 100; ch "0" + n / 10 mod 10; ch "0" + n mod 10].
Definition secs_text (s : Z) : cstr := num_text (s / 3600) ++ ch ":" :: num_text (s / 60 mod 60) ++ ch ":" :: num_text (s mod 60).
Definition off_text (o : Z) : cstr := (if o <? 0 then [ch "-"] else []) ++ secs_text (Z.abs o).
Definition rule_text (r : rule) : cstr :=
  (if r_type r =? RT_JULIAN_DAY then ch "J" :: num_text (r_day r)
   else if r_type r =? RT_DAY_OF_YEAR then num_text (r_day r)
   else ch "M" :: num_text (r_mon r) ++ ch "." :: num_text (r_week r) ++ ch "." :: num_text (r_day r)) ++
  ch "/" :: secs_text (r_time r).
Definition zone_text (std : cstr) (off : Z) (dst : cstr) (dstoff : Z) (s e : rule) : cstr :=
  std ++ off_text off ++ dst ++ off_text dstoff ++ ch "," :: rule_text s ++ ch "," :: rule_text e.

Definition name_char (c : Z) : bool := negb (isdigit c) && negb (c =? ch ",") && negb (c =? ch "-") && negb (c =? ch "+").
Definition name_ok (n : cstr) : Prop := forallb name_char n = true /\ (3 <= length n < TZNAME_MAX)%nat.

(** The fields a rule does not have are zero. *)
Definition rule_plain (r : rule) : Prop := r_type r <> RT_MONTH_NTH_DAY_OF_WEEK -> r_mon r = 0 /\ r_week r = 0.

Lemma digit_char d : 0 <= d <= 9 -> isdigit (ch "0" + d) = true.
Proof. intros H. unfold isdigit. change (ch "0") with 48. change (ch "9") with 57. repeat case_bool; done || lia. Qed.

Lemma getnum_text n rest min max : 0 <= n < 1000 -> min <= n <= max -> isdigit (at_ rest 0) = false ->
  getnum (Some (num_text n ++ rest)) min max = Some (n, rest).
Proof.
  intros Hn Hm Hr. unfold getnum, num_text. cbn [app].
  assert (isdigit (ch "0" + n / 100) = true /\ isdigit (ch "0" + n / 10 mod 10) = true /\ isdigit (ch "0" + n mod 10) = true) as (D1 & D2 & D3)
    by (repeat split; apply digit_char; euclid).
  assert (forall c s, at_ (c :: s) 0 = c) as -> by done. rewrite D1. cbn [negb].
  cbn [getnum_loop]. rewrite D1, D2, D3. change (ch "0") with 48.
  rewrite (proj2 (Z.ltb_ge _ _)) by euclid. rewrite (proj2 (Z.ltb_ge _ _)) by euclid. rewrite (proj2 (Z.ltb_ge _ _)) by euclid.
  assert (((0 * 10 + (48 + n / 100 - 48)) * 10 + (48 + n / 10 mod 10 - 48)) * 10 + (48 + n mod 10 - 48) = n) as -> by euclid.
  destruct rest as [|c rest]; cbn [getnum_loop]; [|cbn in Hr; rewrite Hr]; by rewrite (proj2 (Z.ltb_ge _ _)) by lia.
Qed.

Lemma getsecs_text s rest old : 0 <= s < 90000 -> isdigit (at_ rest 0) = false -> getsecs (Some (secs_text s ++ rest)) old = (Some rest, s).
Proof.
  intros Hs Hr. unfold getsecs, secs_text, HOURS_PER_DAY, MINS_PER_HOUR, SECS_PER_MIN, SECS_PER_HOUR. rewrite <- app_assoc.
  rewrite getnum_text by (done || euclid). cbn [app]. change (at_ (ch ":" :: _) 0) with (ch ":"). rewrite Z.eqb_refl. cbn [negb drop]; rewrite ?drop_0.
  rewrite <- app_assoc. rewrite getnum_text by (done || euclid). cbn [app]. change (at_ (ch ":" :: _) 0) with (ch ":"). rewrite Z.eqb_refl. cbn [negb drop]; rewrite ?drop_0.
  rewrite getnum_text by (done || euclid). f_equal. euclid.
Qed.

Lemma secs_text_start s rest : 0 <= s < 90000 -> isdigit (at_ (secs_text s ++ rest) 0) = true.
Proof. intros H. apply (digit_char (s / 3600 / 100)). euclid. Qed.

Lemma getoffset_text o rest old : Z.abs o < 90000 -> isdigit (at_ rest 0) = false -> getoffset (off_text o ++ rest) old = (Some rest, o).
Proof.
  intros Ho Hr. unfold off_text, getoffset. pose proof (secs_text_start (Z.abs o) rest ltac:(lia)) as Hd.
  destruct (Z.ltb_spec o 0).
  - cbn [app]. change (at_ (ch "-" :: _) 0) with (ch "-"). change (isdigit (ch "-")) with false. rewrite Z.eqb_refl. cbn [negb andb drop]; rewrite ?drop_0.
    rewrite getsecs_text by (done || lia). f_equal. lia.
  - cbn [app]. rewrite Hd. assert (at_ (secs_text (Z.abs o) ++ rest) 0 =? ch "-" = false) as ->.
    { apply Z.eqb_neq. intros E. rewrite E in Hd. done. }
    cbn [negb andb]. rewrite getsecs_text by (done || lia). f_equal. lia.
Qed.

Lemma getrule_text r rest : rule_ok r -> rule_plain r -> isdigit (at_ rest 0) = false ->
  getrule (rule_text r ++ rest) zero_rule = (Some rest, r).
Proof.
  intros [Ht Hr] Hp Hrest. unfold getrule.
  assert (getrule_date (rule_text r ++ rest) zero_rule = (Some (ch "/" :: secs_text (r_time r) ++ rest), set_r_time 0 r)) as ->.
  { unfold getrule_date, rule_text. destruct r as [ty day week mon time]. cbn [r_type r_day r_week r_mon r_time] in *.
    unfold rule_plain in Hp. cbn [r_type r_mon r_week] in Hp.
    unfold DAYS_PER_NYEAR, MONS_PER_YEAR, DAYS_PER_WEEK, DAYS_PER_LYEAR.
    destruct Hr as [[-> Hd]|[[-> Hd]|(-> & Hm & Hw & Hd)]].
    - destruct Hp as [-> ->]; [done|]. cbn [Z.eqb RT_JULIAN_DAY Pos.eqb]. cbn [app].
      change (at_ (ch "J" :: _) 0 =? ch "J") with true. cbn [drop]; rewrite ?drop_0. cbv iota. rewrite <- app_assoc. by rewrite getnum_text by (done || lia).
    - destruct Hp as [-> ->]; [done|]. cbn [Z.eqb RT_JULIAN_DAY RT_DAY_OF_YEAR Pos.eqb]. rewrite <- app_assoc.
      pose proof (digit_char (day / 100) ltac:(euclid)) as Hdg. change (ch "0" + day / 100) with (at_ (num_text day ++ ((ch "/" :: secs_text time) ++ rest)) 0) in Hdg.
      assert (forall c, isdigit c = false -> at_ (num_text day ++ ((ch "/" :: secs_text time) ++ rest)) 0 =? c = false) as Hne
        by (intros c Hc; apply Z.eqb_neq; intros E; rewrite E, Hc in Hdg; done).
      rewrite !Hne by done. rewrite Hdg. by rewrite getnum_text by (done || lia).
    - cbn [Z.eqb RT_JULIAN_DAY RT_DAY_OF_YEAR RT_MONTH_NTH_DAY_OF_WEEK Pos.eqb]. cbn [app].
      change (at_ (ch "M" :: _) 0 =? ch "J") with false. change (at_ (ch "M" :: _) 0 =? ch "M") with true. cbn [drop]; rewrite ?drop_0. cbv iota.
      rewrite <- !app_assoc. rewrite getnum_text by (done || lia). cbn [app].
      change (expect (ch ".") (ch "." :: ?s)) with (Some s). rewrite <- !app_assoc. rewrite getnum_text by (done || lia). cbn [app].
      change (expect (ch ".") (ch "." :: ?s)) with (Some s). rewrite <- ?app_assoc. by rewrite getnum_text by (done || lia). }
  change (at_ (ch "/" :: _) 0 =? ch "/") with true. cbn [drop]; rewrite ?drop_0. cbv iota. rewrite getsecs_text by done. by destruct r.
Qed.

Lemma getzname_text n rest : forallb name_char n = true -> name_char (at_ rest 0) = false \/ rest = [] -> getzname (n ++ rest) = rest.
Proof.
  intros Hn Hr. induction n as [|c n IH]; cbn [app].
  - destruct rest as [|c rest]; [done|]. destruct Hr as [Hr|]; [|done]. cbn in Hr |- *. unfold name_char in Hr. by rewrite Hr.
  - cbn in Hn. apply andb_prop in Hn as [Hc Hn]. cbn [getzname]. unfold name_char in Hc. rewrite Hc. by apply IH.
Qed.

Lemma off_text_start o rest : Z.abs o < 90000 -> name_char (at_ (off_text o ++ rest) 0) = false /\ off_text o ++ rest <> [].
Proof.
  intros H. unfold off_text. destruct (o <? 0); cbn [app]; [done|]. unfold name_char.
  by rewrite secs_text_start by lia.
Qed.

Lemma put_name_text n rest arr : put_name (n ++ rest) (length n) arr = n ++ drop (length n) arr.
Proof. unfold put_name. rewrite strncpy_prefix by (rewrite length_app; lia). by rewrite take_app_length. Qed.

(** A zone can be written down and read back: the POSIX text of two names, two
    offsets and two rules is accepted by [tzparse], and sets exactly these,
    whatever zone was in use before; of the old names only what lies behind the
    new ones is left in their arrays. *)
Theorem tzparse_text (std dst : cstr) (off dstoff : Z) (s e : rule) (z : tzstate)
  (Hstd : name_ok std) (Hdst : name_ok dst) (Hoff : Z.abs off < 90000) (Hdoff : Z.abs dstoff < 90000)
  (Hs : rule_ok s /\ rule_plain s) (He : rule_ok e /\ rule_plain e) :
  tzparse (zone_text std off dst dstoff s e) z =
  (true, Build_tzstate (std ++ drop (length std) (tz_stdnam z)) (dst ++ drop (length dst) (tz_dstnam z))
           off dstoff s e true (tz_envval z)).
Proof.
  destruct Hstd as [N1 L1], Hdst as [N2 L2], Hs as [Hs Ps], He as [He Pe]. unfold tzparse, zone_text.
  set (r4 := ch "," :: rule_text s ++ ch "," :: rule_text e). set (r3 := off_text dstoff ++ r4). set (r2 := dst ++ r3).
  destruct (off_text_start off r2 Hoff) as [S1 E1]. destruct (off_text_start dstoff r4 Hdoff) as [S3 E3].
  rewrite getzname_text by auto. rewrite length_app. replace (length std + length (off_text off ++ r2) - length (off_text off ++ r2))%nat with (length std) by lia.
  assert (forall n, (3 <= n < TZNAME_MAX)%nat -> (n <? 3)%nat || (TZNAME_MAX <=? n)%nat = false) as Hlen.
  { intros n Hn. apply orb_false_iff. split; [apply Nat.ltb_ge; lia|apply Nat.leb_gt; lia]. }
  rewrite Hlen by done. destruct (off_text off ++ r2) as [|c t] eqn:Et; [done|]. rewrite <- Et. clear c t Et E1 S1.
  assert (isdigit (at_ r2 0) = false) as Hd2.
  { unfold r2. destruct dst as [|c dst]; [cbn in L2; lia|]. cbn in N2 |- *. unfold name_char in N2.
    destruct (isdigit c); [done|done]. }
  rewrite getoffset_text by done. unfold tzparse_dst. destruct r2 as [|c t] eqn:Et; [destruct dst; [cbn in L2; lia|done]|]. rewrite <- Et. clear c t Et Hd2.
  unfold r2. rewrite getzname_text by auto. rewrite length_app. replace (length dst + length r3 - length r3)%nat with (length dst) by lia.
  rewrite Hlen by done.
  assert (at_ r3 0 =? 0 = false /\ at_ r3 0 =? ch "," = false) as [-> ->].
  { clear -Hdoff. unfold r3, off_text. destruct (dstoff <? 0); [done|]. cbn [app]. pose proof (secs_text_start (Z.abs dstoff) r4 ltac:(lia)) as Hd.
    split; apply Z.eqb_neq; intros E; rewrite E in Hd; done. }
  cbn [negb andb]. unfold r3. rewrite getoffset_text by done. unfold tzparse_rules, r4.
  change (at_ (ch "," :: _) 0 =? ch ",") with true. cbn [drop]; rewrite ?drop_0. cbv iota.
  change (tz_dststart _) with zero_rule at 1. rewrite getrule_text by done.
  change (expect (ch ",") (ch "," :: ?s)) with (Some s). cbv iota beta.
  change (tz_dstend _) with zero_rule at 1. rewrite <- (app_nil_r (rule_text e)), getrule_text by done.
  rewrite !put_name_text. by destruct z.
Qed.

(** Summer time in central Europe; the zone before was another one. *)
Definition met_start : rule := Build_rule RT_MONTH_NTH_DAY_OF_WEEK 0 5 3 7200.
Definition met_end : rule := Build_rule RT_MONTH_NTH_DAY_OF_WEEK 0 5 10 10800.
Definition met_text : cstr := zone_text (str "MET") (-3600) (str "METDST") (-7200) met_start met_end.

Lemma met_rules : (rule_ok met_start /\ rule_plain met_start) /\ (rule_ok met_end /\ rule_plain met_end).
Proof. unfold rule_ok, rule_plain, RT_MONTH_NTH_DAY_OF_WEEK, RT_JULIAN_DAY, RT_DAY_OF_YEAR. cbn [met_start met_end r_type r_time r_day r_mon r_week]. unfold RT_MONTH_NTH_DAY_OF_WEEK. lia. Qed.

Lemma tzparse_text_witness : met_text = str "MET-001:000:000METDST-002:000:000,M003.005.000/002:000:000,M010.005.000/003:000:000" /\
  (tzparse met_text tz_start).1 = true.
Proof.
  split; [reflexivity|]. unfold met_text. rewrite (tzparse_text (str "MET") (str "METDST") (-3600) (-7200) met_start met_end tz_start);
    [reflexivity| | | | |apply met_rules|apply met_rules]; try lia; split; try reflexivity; cbn; unfold TZNAME_MAX; lia.
Defined.

(** 1 July 2001, 12:00 GMT. *)
Lemma localtime_zone_witness : tm_fields (localtime (Some met_text) 993988800 tz_start).1 = [0; 0; 14; 1; 6; 101] /\
  tm_isdst (localtime (Some met_text) 993988800 tz_start).1 = 1 /\ summer (tzset (Some met_text) tz_start) 993988800.
Proof.
  split; [reflexivity|]. split; [reflexivity|].
  assert (zone_ok (tzset (Some met_text) tz_start)) as Hz by (split; [apply met_rules|apply met_rules|reflexivity|reflexivity]).
  destruct (localtime_zone (Some met_text) 993988800 tz_start ltac:(split; [lia|reflexivity]) Hz eq_refl)
    as (f & z' & E & Ez & [(_ & Hs & _)|(Hn & _)]); [by rewrite <- Ez|].
  apply (f_equal (fun r => tm_isdst r.1)) in E. cbn [fst] in E. rewrite Hn in E. vm_compute in E. discriminate E.
Defined.

(** ** [mktime] *)

(** A zone without summer time that is the one in use. *)
Record fixed_zone (env : cptr) (z : tzstate) : Prop := {
  fz_set : tzset env z = z;
  fz_dst : tz_hasdst z = false;
  fz_off : Z.abs (tz_stdoffset z) < 90000
}.

Lemma same_fields_spec n t : tm_isdst t = tm_isdst n -> same_fields n t = true <-> tm_fields n = tm_fields t.
Proof.
  intros Hd. unfold same_fields, tm_fields. rewrite Hd, Z.eqb_refl, orb_true_r, andb_true_r, !andb_true_iff, !Z.eqb_eq.
  split; [intros (((((-> & ->) & ->) & ->) & ->) & ->); done|intros H; by injection H as -> -> -> -> -> ->].
Qed.

Lemma localtime_fixed env z t : fixed_zone env z ->
  localtime env t z = (local_fields z t, z) /\ is_time (t - tz_stdoffset z) (local_fields z t) /\ tm_isdst (local_fields z t) = 0.
Proof.
  intros [Hs Hd Ho]. unfold localtime. rewrite Hs. split; [done|]. unfold local_fields, local_dst. rewrite Hd. cbn [negb].
  split; [|done]. cbn [Z.eqb]. apply is_time_zone, is_time_dst. rewrite <- Z.add_opp_r. apply offtime_spec. lia.
Qed.

(** The offset is subtracted where it must be added: the fields that come out
    are those of a time twice the offset away, so that [mktime] accepts what it is
    given only at Greenwich. *)
Lemma mktime_fixed env z t : fixed_zone env z -> valid_fields t -> tm_isdst t = 0 ->
  0 <= fields_secs t < 2 ^ 31 - 90000 -> 0 <= fields_secs t - tz_stdoffset z ->
  if tz_stdoffset z =? 0 then mktime env t z = (fields_secs t, local_fields z (fields_secs t), z)
  else mktime env t z = (-1, t, z).
Proof.
  intros Hz Hv Hd Hs Hp. pose proof (fz_off _ _ Hz). unfold mktime. destruct (fields_sum t Hv) as [-> ->]; [lia|]. rewrite Hd. cbn [Z.eqb].
  rewrite s32_small by lia. destruct (localtime_fixed env z (fields_secs t - tz_stdoffset z) Hz) as (-> & Ht & Hi).
  set (f := local_fields z _) in *. pose proof (same_fields_spec f t ltac:(congruence)) as Hf.
  destruct (Z.eqb_spec (tz_stdoffset z) 0) as [E|E].
  - unfold f in *. clear f. rewrite E, !Z.sub_0_r in *. 
    pose proof (is_time_fields (fields_secs t) _ t (it_valid _ _ Ht) Hv (it_secs _ _ Ht) eq_refl) as Ef. by rewrite (proj2 Hf Ef).
  - destruct (same_fields f t); [|done]. destruct (fields_same _ _ (proj1 Hf eq_refl) (it_valid _ _ Ht)) as [_ Es].
    rewrite (it_secs _ _ Ht) in Es. lia.
Qed.

(** Five hours west: no date can be set. *)
Lemma mktime_away env z t : fixed_zone env z -> tz_stdoffset z <> 0 -> valid_fields t -> tm_isdst t = 0 ->
  0 <= fields_secs t < 2 ^ 31 - 90000 -> 0 <= fields_secs t - tz_stdoffset z -> (mktime env t z).1.1 = -1.
Proof.
  intros Hz Ho Hv Hd Hs Hp. pose proof (mktime_fixed env z t Hz Hv Hd Hs Hp) as H.
  rewrite (proj2 (Z.eqb_neq _ _) Ho) in H. by rewrite H.
Qed.

Lemma mktime_away_witness : let z := tzset (Some (str "EST5")) tz_start in
  (mktime (Some (str "EST5")) (localtime (Some (str "EST5")) 900000000 z).1 z).1.1 = -1.
Proof.
  cbn zeta. set (z := tzset _ tz_start). assert (fixed_zone (Some (str "EST5")) z) as Hz by (split; vm_compute; reflexivity).
  destruct (localtime_fixed _ z 900000000 Hz) as (-> & Ht & Hd). assert (tz_stdoffset z = 18000) as Ho by reflexivity.
  cbn [fst]. apply mktime_away; [done|by rewrite Ho|apply Ht|done|..]; rewrite (it_secs _ _ Ht), Ho; lia.
Defined.

(** A rule for two o'clock takes effect at two o'clock Greenwich time: 25 March
    2001, 1:30 GMT, was 3:30 summer time in central Europe. *)
Lemma summer_at_greenwich : tm_fields (localtime (Some met_text) 985483800 tz_start).1 = [0; 30; 2; 25; 2; 101] /\
  tm_isdst (localtime (Some met_text) 985483800 tz_start).1 = 0.
Proof. split; reflexivity. Qed.

(** A name that is shorter than the one before keeps the end of that. *)
Lemma stale_name_tail : take 5 (tz_stdnam (tzset (Some (str "UTC0")) (tzset (Some (str "WEST1")) tz_start))) = str "UTCT" ++ [0].
Proof. reflexivity. Qed.

(** ** The date command

    A date as the command takes it: [yymmddhhmm.ss]. *)
Definition two_digits (n : Z) : cstr := [ch "0" + n / 10; ch "0" + n mod 10].
Definition date_text (t : tm) : cstr :=
  two_digits (tm_year t mod 100) ++ two_digits (tm_mon t + 1) ++ two_digits (tm_mday t) ++ two_digits (tm_hour t) ++
  two_digits (tm_min t) ++ ch "." :: two_digits (tm_sec t).

Lemma get2_digits s i n : 0 <= n < 100 -> at_ s i = ch "0" + n / 10 -> at_ s (S i) = ch "0" + n mod 10 -> get2 s i = n.
Proof.
  intros Hn E1 E2. unfold get2. rewrite E1, E2. change (ch "0") with 48. change (ch "9") with 57.
  rewrite !(proj2 (Z.ltb_ge _ _)) by euclid. cbn [orb]. euclid.
Qed.

Lemma two_digits_step s ok msg put t n v : 0 <= v < 100 -> (2 <= n)%nat -> at_ s (n - 2) = ch "0" + v / 10 -> at_ s (S (n - 2)) = ch "0" + v mod 10 ->
  ok v = true -> two s ok msg put (inr (t, n)) = inr (put v t, (n - 2)%nat).
Proof.
  intros Hv Hn E1 E2 Hok. unfold two. rewrite (proj2 (Nat.leb_le 2 n)) by done. rewrite (get2_digits _ _ v) by done.
  rewrite Hok, (proj2 (Z.ltb_ge v 0)) by lia. done.
Qed.

Lemma date_fields_text t t0 : valid_fields t -> 95 <= tm_year t < 195 -> exists t', date_fields (date_text t) t0 = inr (t', 0%nat) /\
  tm_fields t' = tm_fields t /\ tm_isdst t' = tm_isdst t0.
Proof.
  intros [[Hm Hd] Hm0 Hh Hmi Hs] Hy. pose proof (month_len_31 (isleap (tm_year t + 1900)) (Z.to_nat (tm_mon t))).
  unfold date_fields. set (s := date_text t). change (length s) with 13%nat. change (at_ s (13 - 3)) with (ch "."). rewrite Z.eqb_refl. cbn [Nat.leb andb Nat.sub].
  rewrite (get2_digits s 11 (tm_sec t)) by (done || lia). rewrite (proj2 (Z.ltb_ge _ 0)), (proj2 (Z.leb_gt 60 _)) by lia. cbn [orb].
  rewrite (two_digits_step s _ _ _ _ 10 (tm_min t)) by (done || lia || (apply Z.ltb_lt; lia)). cbn [Nat.sub].
  rewrite (two_digits_step s _ _ _ _ 8 (tm_hour t)) by (done || lia || (apply Z.ltb_lt; lia)). cbn [Nat.sub].
  rewrite (two_digits_step s _ _ _ _ 6 (tm_mday t)) by (done || lia || (apply Z.leb_le; lia)). cbn [Nat.sub].
  rewrite (two_digits_step s _ _ _ _ 4 (tm_mon t + 1)) by (done || lia || (apply andb_true_intro; split; apply Z.leb_le; lia)). cbn [Nat.sub].
  rewrite (two_digits_step s _ _ _ _ 2 (tm_year t mod 100)) by (done || euclid). cbn [Nat.sub].
  eexists. split; [done|]. split; [|done]. unfold tm_fields. cbn -[Z.modulo Z.ltb Z.add Z.sub].
  assert ((if tm_year t mod 100 <? 95 then tm_year t mod 100 + 100 else tm_year t mod 100) = tm_year t) as -> by (case_bool; euclid).
  by rewrite Z.add_simpl_r.
Qed.

(** Setting the date: at Greenwich, the command [date] with the two-digit
    year, month, day, hour, minute and second of a date of the calendar from 1995
    on reads the clock, sets it to the seconds of exactly that date and prints it,
    with its day of the week, whatever the clock showed before. *)
Theorem date_sets {B} (get : M B Z) (set : Z -> M B unit) (env : cptr) (z : tzstate) (t : tm) (s : B)
  (Hz : fixed_zone env z) (Hutc : tz_stdoffset z = 0) (Hv : valid_fields t) (Hy : 95 <= tm_year t) (Hs : fields_secs t < 2 ^ 31 - 90000) :
  exists f, is_time (fields_secs t) f /\ tm_fields f = tm_fields t /\
    date_cmd get set env [date_text t] z s =
    (get ≫= fun _ => set (fields_secs t) ≫= fun _ => mret (0, [date_line f], z)) s.
Proof.
  pose proof (fields_after t Hv ltac:(lia)) as H0. pose proof (fields_year t Hv ltac:(lia)) as Hyr.
  exists (local_fields z (fields_secs t)). destruct (localtime_fixed env z (fields_secs t) Hz) as (_ & Hf & _). rewrite Hutc, Z.sub_0_r in Hf.
  split; [done|]. split; [apply (is_time_fields (fields_secs t)); [apply Hf|done|apply Hf|done]|].
  unfold date_cmd, mbind, M_bind. destruct (get s) as [[now s1]|]; [|done].
  destruct (localtime_fixed env z now Hz) as (-> & _ & Hd). destruct (date_fields_text t (local_fields z now) Hv ltac:(lia)) as (t' & -> & E' & D').
  cbn [Nat.eqb negb]. destruct (fields_same t t' (eq_sym E') Hv) as [V' S'].
  pose proof (mktime_fixed env z t' Hz V' ltac:(congruence) ltac:(lia) ltac:(lia)) as Hmk. rewrite Hutc, S' in Hmk. cbn [Z.eqb] in Hmk.
  rewrite Hmk. rewrite (proj2 (Z.eqb_neq _ (-1))) by lia. cbn [negb when].
  destruct (set (fields_secs t) s1) as [[[] s2]|]; [|done]. unfold date_show. by rewrite (proj2 (Z.eqb_neq _ (-1))) by lia.
Qed.

(** 29 February 2004. *)
Lemma date_sets_witness : exists f, tm_fields f = [30; 15; 12; 29; 1; 104] /\ date_cmd (fun s => Ok (s, s)) (fun t _ => Ok (tt, t)) None [str "0402291215.30"] tz_start 77 = Ok (0, [date_line f], tz_start, 1078056930).
Proof.
  destruct (date_sets (fun s : Z => Ok (s, s)) (fun t _ => Ok (tt, t)) None tz_start (gmtime 1078056930) 77) as (f & _ & Ef & Ec).
  - split; reflexivity.
  - reflexivity.
  - apply gmtime_is_time.
  - vm_compute. discriminate.
  - vm_compute. reflexivity.
  - exists f. split; [rewrite Ef; vm_compute; reflexivity|].
    assert (date_text (gmtime 1078056930) = str "0402291215.30") as Et by (vm_compute; reflexivity). rewrite Et in Ec. rewrite Ec.
    assert (fields_secs (gmtime 1078056930) = 1078056930) as Es by apply gmtime_is_time. unfold mbind, M_bind. by rewrite Es.
Defined.
