(* ===== verification/Rtc.v ===== *)
(** * Rtc: the clock chip of the P-5064

    [src/pmon/p5064/rtc.c]: the registers of the PC-style clock behind their two
    ports, with the banks of the PC97307, and reading and setting the time. *)

From S2P Require Import Prelude CString Comp Clock.

(** The ports. *)
Class RtcPort (B : Type) : Type := {
  outb : Z -> Z -> B -> B;
  inb : Z -> B -> Z * B
}.

Definition RTC_ADDR_PORT : Z := 0x70.
Definition RTC_DATA_PORT : Z := 0x71.

(** [src/pmon/p5064/rtc.h:9-44] *)
Definition RTC_SEC : Z := 0.
Definition RTC_MIN : Z := 2.
Definition RTC_HRS : Z := 4.
Definition RTC_WDAY : Z := 6.
Definition RTC_DAY : Z := 7.
Definition RTC_MONTH : Z := 8.
Definition RTC_YEAR : Z := 9.
Definition RTC_STATUSA : Z := 0x0a.
Definition RTCSA_UIP : Z := 0x80.
Definition RTCSA_DVMASK : Z := 0x70.
Definition RTC_STATUSB : Z := 0x0b.
Definition RTCSB_UTI : Z := 0x80.
Definition RTCSB_BINARY : Z := 0x04.
Definition RTCSB_24HR : Z := 0x02.
Definition RTC_INTR : Z := 0x0c.
Definition RTC_STATUSD : Z := 0x0d.
Definition RTCSD_VRT : Z := 0x80.
Definition RTC_CENTURY : Z := 0x0e.
Definition RTC_NTODREGS : nat := 15.
Definition RTC_DV0_OSC_ON : Z := 0x20.
Definition RTC_DV1_OSC_ON : Z := 0x30.
Definition RTC_DV2_OSC_ON : Z := 0x40.
Definition RTC_BANK1_URADDR : Z := 0x50.
Definition RTC_BANK1_URDATA : Z := 0x53.

Section Rtc.
Context {B : Type} {RP : RtcPort B}.

(** The revision of the board, a letter. *)
Variable BOARD_REVISION : Z.

(** A port has eight bits. *)
Definition out_b (port v : Z) : M B unit := modify (outb port (u8 v)).
Definition in_b (port : Z) : M B Z := fun s => Ok (inb port s).

(** The divisor bits of status register A, which select the bank on the PC97307.
    [src/pmon/p5064/rtc.c:26-27] *)
Definition bank (rtca dv : Z) : M B unit :=
  when (negb (Z.land rtca RTCSA_DVMASK =? dv)) (out_b RTC_DATA_PORT (Z.lor (Z.land rtca (Z.lnot RTCSA_DVMASK)) dv)).

(** [src/pmon/p5064/rtc.c:11-41] *)
Definition setaddress (reg : Z) : M B unit :=
  if ch "C" <=? BOARD_REVISION then
    if reg <? 0x40 then out_b RTC_ADDR_PORT reg
    else
      out_b RTC_ADDR_PORT RTC_STATUSA ≫= fun _ =>
      in_b RTC_DATA_PORT ≫= fun rtca =>
      if reg <? 0x80 then bank rtca RTC_DV0_OSC_ON ≫= fun _ => out_b RTC_ADDR_PORT reg
      else
        bank rtca RTC_DV1_OSC_ON ≫= fun _ =>
        out_b RTC_ADDR_PORT RTC_BANK1_URADDR ≫= fun _ =>
        out_b RTC_DATA_PORT (reg - 0x80) ≫= fun _ =>
        out_b RTC_ADDR_PORT RTC_BANK1_URDATA
  else out_b RTC_ADDR_PORT reg.

(** [src/pmon/p5064/rtc.c:43-48] *)
Definition rtc_get (reg : Z) : M B Z := setaddress reg ≫= fun _ => in_b RTC_DATA_PORT.

(** A register is read, and written if its value is to change; the old value is
    returned. *)
Definition rtc_modify (reg : Z) (f : Z -> Z) : M B Z :=
  setaddress reg ≫= fun _ =>
  in_b RTC_DATA_PORT ≫= fun o =>
  when (negb (f o =? o)) (out_b RTC_DATA_PORT (f o)) ≫= fun _ => mret o.

(** [src/pmon/p5064/rtc.c:50-59] *)
Definition rtc_set (reg val : Z) : M B Z := rtc_modify reg (fun _ => val).

(** [src/pmon/p5064/rtc.c:61-72] *)
Definition rtc_bis (reg val : Z) : M B Z := rtc_modify reg (fun o => Z.lor o val).

(** [src/pmon/p5064/rtc.c:74-85] *)
Definition rtc_bic (reg val : Z) : M B Z := rtc_modify reg (fun o => Z.land o (Z.lnot val)).

(** The registers of the power control: bank 2 is selected and left again. Boards
    before revision C have none.
    [src/pmon/p5064/rtc.c:92-107] *)
Definition apc_with (reg : Z) (k : M B Z) : M B Z :=
  if BOARD_REVISION <? ch "C" then mret (u32 (-1))
  else
    out_b RTC_ADDR_PORT RTC_STATUSA ≫= fun _ =>
    in_b RTC_DATA_PORT ≫= fun rtcsa =>
    bank rtcsa RTC_DV2_OSC_ON ≫= fun _ =>
    out_b RTC_ADDR_PORT reg ≫= fun _ =>
    k ≫= fun v =>
    out_b RTC_ADDR_PORT RTC_STATUSA ≫= fun _ =>
    out_b RTC_DATA_PORT (Z.lor (Z.land rtcsa (Z.lnot RTCSA_DVMASK)) RTC_DV0_OSC_ON) ≫= fun _ => mret v.

(** [src/pmon/p5064/rtc.c:87-108] *)
Definition apc_get (reg : Z) : M B Z := apc_with reg (in_b RTC_DATA_PORT).

(** The code returns no value at its end.
    [src/pmon/p5064/rtc.c:110-129] *)
Definition apc_set (reg val : Z) : M B unit := apc_with reg (out_b RTC_DATA_PORT val ≫= fun _ => mret 0) ≫= fun _ => mret tt.

Definition apc_modify (reg : Z) (f : Z -> Z) : M B Z :=
  apc_with reg (in_b RTC_DATA_PORT ≫= fun o => when (negb (o =? f o)) (out_b RTC_DATA_PORT (f o)) ≫= fun _ => mret o).

(** [src/pmon/p5064/rtc.c:132-156] *)
Definition apc_bis (reg val : Z) : M B Z := apc_modify reg (fun o => Z.lor o val).

(** [src/pmon/p5064/rtc.c:158-182] *)
Definition apc_bic (reg val : Z) : M B Z := apc_modify reg (fun o => Z.land o (Z.lnot val)).

(** ** The time *)

(** The wait for the end of an update: at most 1000 polls.
    [src/pmon/p5064/rtc.c:199-203] *)
Fixpoint uip_spin (i : nat) : M B bool :=
  rtc_get RTC_STATUSA ≫= fun a =>
  if Z.land a RTCSA_UIP =? 0 then mret true
  else match i with O | S O => mret false | S i' => uip_spin i' end.

(** [src/pmon/p5064/rtc.c:206-207] *)
Fixpoint read_regs (n : nat) (i : Z) : M B (list Z) :=
  match n with
  | O => mret []
  | S n' => rtc_get i ≫= fun v => read_regs n' (i + 1) ≫= fun l => mret (u8 v :: l)
  end.

(** Whether the registers were read, and the array: zeros when they were not.
    [src/pmon/p5064/rtc.c:185-210] *)
Definition rtcload : M B (bool * list Z) :=
  let none := (false, replicate RTC_NTODREGS 0) in
  rtc_bis RTC_STATUSB (Z.lor RTCSB_BINARY RTCSB_24HR) ≫= fun _ =>
  rtc_get RTC_STATUSD ≫= fun d =>
  if Z.land d RTCSD_VRT =? 0 then mret none
  else
    uip_spin 1000 ≫= fun ok : bool =>
    if negb ok then mret none
    else read_regs RTC_NTODREGS 0 ≫= fun l => mret (true, l).

(** The array with the fields of a time.
    [src/pmon/p5064/rtc.c:261-268] *)
Definition set_regs (t : tm) (l : list Z) : list Z :=
  <[Z.to_nat RTC_DAY := u8 (tm_mday t)]> (<[Z.to_nat RTC_MONTH := u8 (tm_mon t + 1)]>
  (<[Z.to_nat RTC_CENTURY := u8 (Z.quot (tm_year t) 100 + 19)]> (<[Z.to_nat RTC_YEAR := u8 (Z.rem (tm_year t) 100)]>
  (<[Z.to_nat RTC_WDAY := u8 (tm_wday t + 1)]> (<[Z.to_nat RTC_HRS := u8 (tm_hour t)]>
  (<[Z.to_nat RTC_MIN := u8 (tm_min t)]> (<[Z.to_nat RTC_SEC := u8 (tm_sec t)]> l))))))).

(** [src/pmon/p5064/rtc.c:274-275] *)
Fixpoint write_regs (l : list Z) (i : Z) : M B unit :=
  match l with
  | [] => mret tt
  | v :: l' => rtc_set i v ≫= fun _ => write_regs l' (i + 1)
  end.

(** [src/pmon/p5064/rtc.c:252-279] *)
Definition sbd_settime (t : Z) : M B unit :=
  rtcload ≫= fun '((_, l) : bool * list Z) =>
  rtc_bis RTC_STATUSB RTCSB_UTI ≫= fun _ =>
  write_regs (set_regs (gmtime t) l) 0 ≫= fun _ =>
  rtc_bic RTC_STATUSB RTCSB_UTI ≫= fun _ => mret tt.

(** The fields in the array, with a century that is put right for a year before
    1970.
    [src/pmon/p5064/rtc.c:228-242] *)
Definition regs_fields (l : list Z) : tm :=
  let reg (r : Z) := nth (Z.to_nat r) l 0 in
  let cent := reg RTC_CENTURY in
  let year := reg RTC_YEAR in
  let cent := if (cent =? 19) && (year <? 70) then cent + 1 else cent in
  Build_tm (reg RTC_SEC) (reg RTC_MIN) (reg RTC_HRS) (reg RTC_DAY) (reg RTC_MONTH - 1) (year + (cent - 19) * 100) 0 0 0 0 None.

(** [src/pmon/p5064/rtc.c:213-249] *)
Definition sbd_gettime : M B Z :=
  rtcload ≫= fun '((ok, l) : bool * list Z) =>
  if negb ok then mret (-1)
  else
    let cent := nth (Z.to_nat RTC_CENTURY) l 0 in
    when ((cent <? 19) || (22 <? cent)) (sbd_settime 0) ≫= fun _ =>
    let t := gmmktime (regs_fields l) in
    if t =? -1 then sbd_settime 0 ≫= fun _ => mret 0 else mret t.
End Rtc.
