(* ===== verification/RtcOk.v ===== *)
(** * RtcOk: reading and setting the clock

    The promises of a clock chip ([RtcChip]) while time passes, and that
    [sbd_settime] and [sbd_gettime] keep its time. *)

From S2P Require Import Prelude CString Comp Clock ClockOk Rtc.

(** ** The chip *)

(** What is inside: the selected register, the registers, and for how many
    accesses it will not update them. *)
Record chip : Type := { c_addr : Z; c_reg : Z -> Z; c_still : nat }.

(** The registers that show the time, and what they hold at a time [t]. *)
Definition tod_regs : list Z := [RTC_SEC; RTC_MIN; RTC_HRS; RTC_WDAY; RTC_DAY; RTC_MONTH; RTC_YEAR; RTC_CENTURY].

Definition tod (t : Z) : list Z :=
  let f := gmtime t in
  [tm_sec f; tm_min f; tm_hour f; tm_wday f + 1; tm_mday f; tm_mon f + 1; Z.rem (tm_year f) 100; Z.quot (tm_year f) 100 + 19].

Definition shows (c : chip) (t : Z) : Prop := c_reg c <$> tod_regs = tod t.

Definition inhibited (c : chip) : bool := negb (Z.land (c_reg c RTC_STATUSB) RTCSB_UTI =? 0).

(** What may happen up to an access: nothing, or an update, unless it is
    inhibited or was said not to come; an update adds a second to the time that is
    shown, which is one of the first 2^32 seconds after 1970. *)
Definition passes (c c' : chip) : Prop :=
  c_addr c' = c_addr c /\ c_reg c' RTC_STATUSB = c_reg c RTC_STATUSB /\
  Z.land (c_reg c' RTC_STATUSD) RTCSD_VRT = Z.land (c_reg c RTC_STATUSD) RTCSD_VRT /\
  ((c_reg c' <$> tod_regs = c_reg c <$> tod_regs /\ (c_still c <= S (c_still c'))%nat) \/
   (inhibited c = false /\ c_still c = 0%nat /\ forall t, 0 <= t < 2 ^ 32 - 1 -> shows c t -> shows c' (t + 1))).

(** The registers that can be written, and read without an effect. *)
Definition plain_reg (r : Z) : Prop := 0 <= r < 15 /\ r <> RTC_STATUSA /\ r <> RTC_INTR /\ r <> RTC_STATUSD.

(** The promises of the data sheet. A port access takes less than a second. When
    no update is in progress none will begin before the registers can be read. *)
Class RtcChip (B : Type) {RP : RtcPort B} : Type := {
  view : B -> chip;
  chip_select (r : Z) (s : B) : 0 <= r < 0x40 ->
    passes (Build_chip r (c_reg (view s)) (c_still (view s))) (view (outb RTC_ADDR_PORT r s));
  chip_read (s : B) (v : Z) (s' : B) : inb RTC_DATA_PORT s = (v, s') ->
    passes (view s) (view s') /\ 0 <= v < 256 /\
    (c_addr (view s) <> RTC_INTR -> v = c_reg (view s') (c_addr (view s))) /\
    (c_addr (view s) = RTC_STATUSA -> Z.land v RTCSA_UIP = 0 -> (2 * RTC_NTODREGS <= c_still (view s'))%nat);
  chip_write (v : Z) (s : B) : 0 <= v < 256 -> exists c, passes (view s) c /\
    let c' := view (outb RTC_DATA_PORT v s) in
    c_addr c' = c_addr c /\ Z.land (c_reg c' RTC_STATUSD) RTCSD_VRT = Z.land (c_reg c RTC_STATUSD) RTCSD_VRT /\
    forall r, plain_reg r -> c_reg c' r = if r =? c_addr c then v else c_reg c r
}.

Lemma tod_plain r : r ∈ tod_regs -> plain_reg r.
Proof. unfold tod_regs, plain_reg, RTC_STATUSA, RTC_INTR, RTC_STATUSD. intros H. repeat (apply elem_of_cons in H as [->|H]; [unfold RTC_SEC, RTC_MIN, RTC_HRS, RTC_WDAY, RTC_DAY, RTC_MONTH, RTC_YEAR, RTC_CENTURY; lia|]). by apply elem_of_nil in H. Qed.

Lemma statusb_plain : plain_reg RTC_STATUSB.
Proof. unfold plain_reg, RTC_STATUSA, RTC_STATUSB, RTC_INTR, RTC_STATUSD. lia. Qed.

(** ** The clock over time

    The chip runs, its battery is good, and it shows a time in a range. *)
Definition showing (c : chip) (t : Z) : Prop := 0 <= t /\ (t < 2 ^ 32 -> shows c t).

Record running (b lo hi : Z) (c : chip) : Prop := {
  rn_time : exists t, lo <= t <= hi /\ showing c t;
  rn_mode : c_reg c RTC_STATUSB = b;
  rn_vrt : Z.land (c_reg c RTC_STATUSD) RTCSD_VRT <> 0
}.

Lemma running_passes b lo hi c c' : passes c c' -> running b lo hi c -> running b lo (hi + 1) c'.
Proof.
  intros (_ & Hb & Hd & Hp) [(t & Ht & Hs) Hm Hv]. split; [|by rewrite Hb|by rewrite Hd].
  destruct Hp as [[E _]|(_ & _ & Hu)].
  - exists t. split; [lia|]. unfold showing, shows. by rewrite E.
  - exists (t + 1). split; [lia|]. destruct Hs as [H0 Hs]. split; [lia|]. intros H. apply Hu; [lia|apply Hs; lia].
Qed.

Lemma running_weaken b lo hi hi' c : hi <= hi' -> running b lo hi c -> running b lo hi' c.
Proof. intros H [(t & Ht & Hs) ? ?]. split; try done. exists t. split; [lia|done]. Qed.

Section RtcOk.
Context {B : Type} {RP : RtcPort B} {CH : RtcChip B} (rev : Z).

Lemma setaddress_low r s : 0 <= r < 0x40 -> setaddress rev r s = Ok (tt, outb RTC_ADDR_PORT r s).
Proof.
  intros H. unfold setaddress, out_b, modify. rewrite u8_small by lia. destruct (_ <=? _); [|done].
  by rewrite (proj2 (Z.ltb_lt r 0x40)) by lia.
Qed.

(** A register is selected and read: time passes twice. *)
Lemma get_wp r (Q : Z -> B -> Prop) s : 0 <= r < 0x40 ->
  (forall v c s', passes (Build_chip r (c_reg (view s)) (c_still (view s))) c -> passes c (view s') ->
     c_addr (view s') = r -> 0 <= v < 256 -> (r <> RTC_INTR -> v = c_reg (view s') r) ->
     (r = RTC_STATUSA -> Z.land v RTCSA_UIP = 0 -> (2 * RTC_NTODREGS <= c_still (view s'))%nat) -> Q v s') ->
  wp no_fault (rtc_get rev r) Q s.
Proof.
  intros Hr Hk. unfold rtc_get. apply wp_bind. eapply wp_run; [by apply setaddress_low|]. cbn beta.
  pose proof (chip_select r s Hr) as H1. set (s1 := outb RTC_ADDR_PORT r s) in *.
  destruct (inb RTC_DATA_PORT s1) as [v s'] eqn:E. eapply wp_run; [unfold in_b; by rewrite E|].
  destruct (chip_read _ _ _ E) as (H2 & Hv & Hreg & Hst).
  assert (c_addr (view s1) = r) as Ha by apply H1.
  rewrite Ha in *. apply (Hk v (view s1) s'); try done. destruct H2 as (-> & _). done.
Qed.

Lemma modify_wp r f (Q : Z -> B -> Prop) s :
  wp no_fault (rtc_get rev r) (fun o s' => wp no_fault (when (negb (f o =? o)) (out_b RTC_DATA_PORT (f o)) ≫= fun _ => mret o) Q s') s ->
  wp no_fault (rtc_modify rev r f) Q s.
Proof. apply wp_bind_assoc. Qed.

Definition runs (b lo hi : Z) (s : B) : Prop := running b lo hi (view s).

Lemma select_running b lo hi r c : running b lo hi c -> running b lo hi (Build_chip r (c_reg c) (c_still c)).
Proof. by intros [? ? ?]. Qed.

Lemma access_running b lo hi r s c s' : runs b lo hi s -> passes (Build_chip r (c_reg (view s)) (c_still (view s))) c -> passes c (view s') ->
  runs b lo (hi + 2) s'.
Proof.
  intros H H1 H2. unfold runs. replace (hi + 2) with (hi + 1 + 1) by lia. eapply running_passes, running_passes; [done|done|by apply select_running].
Qed.

Lemma rtc_get_wp b lo hi r s (Q : Z -> B -> Prop) : 0 <= r < 0x40 -> runs b lo hi s ->
  (forall v s', runs b lo (hi + 2) s' -> 0 <= v < 256 -> (r <> RTC_INTR -> v = c_reg (view s') r) ->
     (r = RTC_STATUSA -> Z.land v RTCSA_UIP = 0 -> (2 * RTC_NTODREGS <= c_still (view s'))%nat) -> Q v s') ->
  wp no_fault (rtc_get rev r) Q s.
Proof.
  intros Hr Hs HQ. apply get_wp; [done|]. intros v c s' H1 H2 _ Hv Hreg Hst. apply HQ; try done.
  by apply (access_running b lo hi r s c).
Qed.

(** A register that already has its value is left alone. *)
Lemma rtc_modify_same b lo hi r f s (Q : Z -> B -> Prop) : 0 <= r < 0x40 -> runs b lo hi s -> r = RTC_STATUSB -> f b = b ->
  (forall v s', runs b lo (hi + 2) s' -> Q v s') -> wp no_fault (rtc_modify rev r f) Q s.
Proof.
  intros Hr Hs -> Hf HQ. apply modify_wp, get_wp; [done|]. intros v c s' H1 H2 _ Hv Hreg _.
  pose proof (access_running b lo hi _ s c s' Hs H1 H2) as Hs'. rewrite Hreg by done. rewrite (rn_mode _ _ _ _ Hs'), Hf, Z.eqb_refl.
  apply wp_bind, wp_ret, wp_ret. by apply HQ.
Qed.

(** ** Reading *)

(** A time that is shown for some accesses to come. *)
Record quiet (b t : Z) (k : nat) (c : chip) : Prop := { qu_running : running b t t c; qu_still : (k <= c_still c)%nat }.

Lemma quiet_passes b t k c c' : passes c c' -> quiet b t (S k) c -> quiet b t k c'.
Proof.
  intros (_ & Hb & Hd & Hp) [[(t' & Ht & Hs) Hm Hv] Hk].
  destruct Hp as [[E Hst]|(_ & Hn & _)]; [|lia]. split; [|lia]. split; [|by rewrite Hb|by rewrite Hd].
  exists t'. split; [done|]. unfold showing, shows. by rewrite E.
Qed.

Lemma shows_reg c t j r : shows c t -> tod_regs !! j = Some r -> tod t !! j = Some (c_reg c r).
Proof. intros <- Hj. rewrite list_lookup_fmap, Hj. done. Qed.

(** Reads without an update in between. *)
Lemma read_regs_wp b t n i s (Q : list Z -> B -> Prop) :
  quiet b t (2 * n) (view s) -> t < 2 ^ 32 -> 0 <= i -> i + Z.of_nat n <= 0x40 ->
  (forall l s', length l = n -> (forall j r, tod_regs !! j = Some r -> i <= r < i + Z.of_nat n -> l !! Z.to_nat (r - i) = tod t !! j) ->
     (i <= RTC_STATUSB < i + Z.of_nat n -> l !! Z.to_nat (RTC_STATUSB - i) = Some b) -> Forall (fun v => 0 <= v < 256) l ->
     runs b t t s' -> Q l s') ->
  wp no_fault (read_regs rev n i) Q s.
Proof.
  revert i s Q. induction n as [|n IH]; intros i s Q Hq Htb Hi Hn HQ; cbn [read_regs].
  - apply wp_ret, HQ; [done|lia|lia|done|apply Hq].
  - apply wp_bind. apply get_wp; [lia|].
    intros v c s' H1 H2 _ Hv Hreg _.
    assert (quiet b t (2 * n) (view s')) as Hq'.
    { eapply quiet_passes, quiet_passes; [exact H2|exact H1|]. replace (S (S (2 * n))) with (2 * S n)%nat by lia. destruct Hq as [[] ?]. by split. }
    apply wp_bind. apply IH; [done|done|lia|lia|]. intros l s'' Hl Ht Hb Hf Hs''. apply wp_ret. rewrite u8_small by done. apply HQ; [cbn; lia| | | |done].
    + intros j r Hj Hr. destruct (Z.eq_dec r i) as [->|Hne].
      * rewrite Z.sub_diag. cbn. destruct (tod_plain i) as (_ & _ & Hi' & _); [by apply list_elem_of_lookup_2 in Hj|].
        rewrite Hreg by done. destruct (rn_time _ _ _ _ (qu_running _ _ _ _ Hq')) as (t' & Ht' & Hs'). replace t' with t in * by lia.
        symmetry. apply shows_reg; [by apply Hs'|done].
      * replace (Z.to_nat (r - i)) with (S (Z.to_nat (r - (i + 1)))) by lia. apply Ht; [done|lia].
    + intros Hr. destruct (Z.eq_dec RTC_STATUSB i) as [E|Hne].
      * subst i. rewrite Z.sub_diag, Hreg by done. change (Some (c_reg (view s') RTC_STATUSB) = Some b). f_equal. apply (rn_mode _ _ _ _ (qu_running _ _ _ _ Hq')).
      * replace (Z.to_nat (RTC_STATUSB - i)) with (S (Z.to_nat (RTC_STATUSB - (i + 1)))) by lia. apply Hb. lia.
    + by constructor.
Qed.

(** What [rtcload] reads when the clock runs in its mode. *)
Definition loaded (b t : Z) (l : list Z) : Prop :=
  length l = RTC_NTODREGS /\ (forall (j : nat) (r : Z), tod_regs !! j = Some r -> l !! Z.to_nat r = tod t !! j) /\ l !! Z.to_nat RTC_STATUSB = Some b /\ Forall (fun v => 0 <= v < 256) l.

Definition in_mode (b : Z) : Prop := 0 <= b < 256 /\ Z.lor b (Z.lor RTCSB_BINARY RTCSB_24HR) = b /\ Z.land b RTCSB_UTI = 0.

Lemma uip_spin_wp b lo hi i s (Q : bool -> B -> Prop) : (0 < i)%nat -> runs b lo hi s ->
  (forall s', runs b lo (hi + 2 * Z.of_nat i) s' -> Q false s') ->
  (forall t s', lo <= t <= hi + 2 * Z.of_nat i -> quiet b t (2 * RTC_NTODREGS) (view s') -> Q true s') ->
  wp no_fault (uip_spin rev i) Q s.
Proof.
  revert hi s. induction i as [|i IH]; intros hi s Hi Hs Hf Ht; [lia|]. cbn [uip_spin]. apply wp_bind.
  apply (rtc_get_wp b lo hi); [done|done|]. intros v s' Hs' Hv Hreg Hst. case_bool.
  - destruct (rn_time _ _ _ _ Hs') as (t & Hr & Hsh). apply wp_ret, (Ht t); [lia|].
    split; [|by apply Hst]. split; [exists t; split; [lia|done]|apply Hs'|apply Hs'].
  - destruct i as [|i].
    + apply wp_ret, Hf. apply (running_weaken b lo (hi + 2)); [lia|done].
    + apply (IH (hi + 2)); [lia|done| |].
      * intros s'' H. apply Hf. eapply running_weaken; [|exact H]. lia.
      * intros t s'' H. apply Ht. lia.
Qed.

Lemma rtcload_wp b lo hi s (Q : bool * list Z -> B -> Prop) : in_mode b -> runs b lo hi s -> hi + 2004 < 2 ^ 32 ->
  (forall s', runs b lo (hi + 2004) s' -> Q (false, replicate RTC_NTODREGS 0) s') ->
  (forall t l s', lo <= t <= hi + 2004 -> loaded b t l -> runs b t t s' -> Q (true, l) s') ->
  wp no_fault (rtcload rev) Q s.
Proof.
  intros (_ & Hm & _) Hs Hhi Hf Ht. unfold rtcload. apply wp_bind. apply (rtc_modify_same b lo hi); [done|done|done|done|].
  intros _ s1 Hs1. apply wp_bind. apply (rtc_get_wp b lo (hi + 2)); [done|done|]. intros d s2 Hs2 Hd Hreg _.
  rewrite Hreg by done. rewrite (proj2 (Z.eqb_neq _ _)) by apply Hs2. apply wp_bind.
  apply (uip_spin_wp b lo (hi + 2 + 2)); [lia|done| |].
  - intros s3 Hs3. apply wp_ret, Hf. eapply running_weaken; [|exact Hs3]. lia.
  - intros t s3 Hr Hq. cbn [negb]. apply wp_bind. apply (read_regs_wp b t); [done|lia|done|done|].
    intros l s4 Hl Htod Hb Hfa Hs4. apply wp_ret, (Ht t); [lia| |done]. split; [done|]. split; [|split; [by apply Hb|done]].
    intros j r Hj. rewrite <- (Htod j r Hj); [by rewrite Z.sub_0_r|]. destruct (tod_plain r) as [? _]; [by apply list_elem_of_lookup_2 in Hj|]. done.
Qed.

Lemma nth_some (l : list Z) n v : l !! n = Some v -> nth n l 0 = v.
Proof. intros H. rewrite nth_lookup, H. done. Qed.

Lemma loaded_reg b t l j r : loaded b t l -> tod_regs !! j = Some r -> Some (nth (Z.to_nat r) l 0) = tod t !! j.
Proof.
  intros (_ & H & _) Hj. specialize (H j r Hj). rewrite <- H. destruct (l !! Z.to_nat r) eqn:E; [by rewrite (nth_some _ _ _ E)|].
  apply lookup_lt_Some in Hj. symmetry in H. apply lookup_ge_None_1 in H. cbn in Hj, H. lia.
Qed.

(** The fields in the array are those of the time that was shown. *)
Lemma loaded_fields b t l : loaded b t l -> 0 <= t < 2 ^ 31 ->
  gmmktime (regs_fields l) = t /\ 19 <= nth (Z.to_nat RTC_CENTURY) l 0 <= 22.
Proof.
  intros Hl Ht.
  pose proof (loaded_reg b t l 0 RTC_SEC Hl eq_refl) as R0. pose proof (loaded_reg b t l 1 RTC_MIN Hl eq_refl) as R1.
  pose proof (loaded_reg b t l 2 RTC_HRS Hl eq_refl) as R2. pose proof (loaded_reg b t l 4 RTC_DAY Hl eq_refl) as R4.
  pose proof (loaded_reg b t l 5 RTC_MONTH Hl eq_refl) as R5. pose proof (loaded_reg b t l 6 RTC_YEAR Hl eq_refl) as R6.
  pose proof (loaded_reg b t l 7 RTC_CENTURY Hl eq_refl) as R7. unfold tod in R0, R1, R2, R4, R5, R6, R7. cbn zeta in R0, R1, R2, R4, R5, R6, R7.
  destruct (gmtime_is_time t) as [V E _ _]. pose proof (fields_year _ V ltac:(lia)) as Hy.
  set (f := gmtime t) in *. clearbody f.
  injection R0 as R0. injection R1 as R1. injection R2 as R2. injection R4 as R4. injection R5 as R5. injection R6 as R6. injection R7 as R7.
  assert (0 <= Z.quot (tm_year f) 100 <= 1 /\ 0 <= Z.rem (tm_year f) 100 < 100 /\
          tm_year f = Z.rem (tm_year f) 100 + Z.quot (tm_year f) 100 * 100) as (Hq & Hr & Ey) by euclid.
  split; [|lia]. assert (tm_fields f = tm_fields (regs_fields l)) as Ef.
  { unfold regs_fields, tm_fields. cbn [tm_sec tm_min tm_hour tm_mday tm_mon tm_year]. rewrite R0, R1, R2, R4, R5, R6, R7.
    assert ((Z.quot (tm_year f) 100 + 19 =? 19) && (Z.rem (tm_year f) 100 <? 70) = false) as ->.
    { destruct (Z.eqb_spec (Z.quot (tm_year f) 100 + 19) 19); [|done]. apply Z.ltb_ge. lia. }
    repeat f_equal; lia. }
  destruct (fields_same _ _ Ef V) as [V' E']. unfold gmmktime. destruct (fields_sum _ V') as [-> ->]; lia.
Qed.

Lemma gettime_wp b lo hi s (Q : Z -> B -> Prop) : in_mode b -> runs b lo hi s -> 0 <= lo -> hi + 2004 < 2 ^ 31 ->
  (forall s', runs b lo (hi + 2004) s' -> Q (-1) s') -> (forall t s', lo <= t <= hi + 2004 -> runs b t t s' -> Q t s') ->
  wp no_fault (sbd_gettime rev) Q s.
Proof.
  intros Hm Hs Hlo Hhi Hf Ht. unfold sbd_gettime. apply wp_bind. apply (rtcload_wp b lo hi); [done|done|lia| |].
  - intros s' Hs'. apply wp_ret, Hf, Hs'.
  - intros t l s' Hr Hl Hs'. cbn [negb]. destruct (loaded_fields b t l Hl) as [Eg Hc]; [lia|].
    rewrite (proj2 (Z.ltb_ge _ 19)), (proj2 (Z.ltb_ge 22 _)) by lia. cbn [orb when].
    apply wp_bind, wp_ret. rewrite Eg, (proj2 (Z.eqb_neq t (-1))) by lia. by apply wp_ret, Ht.
Qed.

(** ** Setting *)

(** Updates are inhibited, and the registers hold given values. *)
Record frozen (b : Z) (vals : Z -> Z) (c : chip) : Prop := {
  fr_vals : forall r, r ∈ tod_regs -> c_reg c r = vals r;
  fr_mode : c_reg c RTC_STATUSB = b;
  fr_uti : Z.land b RTCSB_UTI <> 0;
  fr_vrt : Z.land (c_reg c RTC_STATUSD) RTCSD_VRT <> 0
}.

Lemma frozen_passes b vals c c' : passes c c' -> frozen b vals c -> frozen b vals c'.
Proof.
  intros (_ & Hb & Hd & Hp) [Hv Hm Hu Hvrt]. split; [|by rewrite Hb|done|by rewrite Hd].
  destruct Hp as [[E _]|(Hi & _)]; [|unfold inhibited in Hi; rewrite Hm in Hi; apply negb_false_iff, Z.eqb_eq in Hi; done].
  intros r Hr. rewrite <- Hv by done. apply list_elem_of_lookup_1 in Hr as [j Hj].
  apply (f_equal (fun l => l !! j)) in E. rewrite !list_lookup_fmap, Hj in E. by injection E.
Qed.

Lemma frozen_select b vals r c : frozen b vals c -> frozen b vals (Build_chip r (c_reg c) (c_still c)).
Proof. by intros [? ? ? ?]. Qed.

(** A value is in its register after [rtc_set]: [P n] holds after [n] accesses,
    and writing says what it becomes. *)
Lemma rtc_set_wp (P : nat -> chip -> Prop) (P' : chip -> Prop) r v s (Q : Z -> B -> Prop) : 0 <= r < 0x40 -> 0 <= v < 256 ->
  P 0%nat (Build_chip r (c_reg (view s)) (c_still (view s))) -> (forall n c c', passes c c' -> P n c -> P (S n) c') ->
  (forall c, P 2%nat c -> (r <> RTC_INTR -> c_reg c r = v) -> P' c) ->
  (forall c c', P 3%nat c -> Z.land (c_reg c' RTC_STATUSD) RTCSD_VRT = Z.land (c_reg c RTC_STATUSD) RTCSD_VRT ->
     (forall x, plain_reg x -> c_reg c' x = if x =? r then v else c_reg c x) -> P' c') ->
  (forall o s', P' (view s') -> Q o s') ->
  wp no_fault (rtc_set rev r v) Q s.
Proof.
  intros Hr Hv HP Hpass Hsame Hw HQ. unfold rtc_set. apply modify_wp, get_wp; [done|].
  intros o c s' H1 H2 Ha Ho Hreg _. assert (P 2%nat (view s')) as HP' by (eapply Hpass; [exact H2|eapply Hpass; [exact H1|done]]).
  apply wp_bind, wp_when; intros Hc.
  - unfold out_b. apply wp_modify, wp_ret, HQ. rewrite u8_small by done.
    destruct (chip_write v s' Hv) as (c1 & Hp1 & Ha1 & Hd1 & Hw1). assert (c_addr c1 = r) as Ea by (by rewrite <- Ha; apply Hp1).
    rewrite Ea in Hw1. apply (Hw c1); [by eapply Hpass|done|done].
  - apply wp_ret, HQ, Hsame; [done|]. intros Hi. rewrite <- Hreg by done. by apply negb_false_iff, Z.eqb_eq in Hc.
Qed.

Lemma rtc_set_frozen b vals r v s (Q : Z -> B -> Prop) : 0 <= r < 15 -> r <> RTC_STATUSB -> 0 <= v < 256 -> frozen b vals (view s) ->
  (forall o s', frozen b (fun x => if x =? r then v else vals x) (view s') -> Q o s') ->
  wp no_fault (rtc_set rev r v) Q s.
Proof.
  intros Hr Hne Hv Hs HQ. apply (rtc_set_wp (fun _ => frozen b vals) (frozen b (fun x => if x =? r then v else vals x))); try done; [lia|by apply frozen_select|intros _; apply frozen_passes| |].
  - intros c [Hc ? ? ?] Hcv. split; try done. intros x Hx. case_bool; [|by apply Hc]. subst. apply Hcv. by apply tod_plain.
  - intros c c' [Hc Hm Hu Hvrt] Hd Hw. split; [|rewrite Hw by apply statusb_plain|done|by rewrite Hd].
    + intros x Hx. rewrite Hw by (by apply tod_plain). case_bool; [done|by apply Hc].
    + by rewrite (proj2 (Z.eqb_neq _ _)).
Qed.

Lemma write_frozen b l vals i s (Q : unit -> B -> Prop) : 0 <= i -> i + Z.of_nat (length l) <= RTC_STATUSB -> Forall (fun v => 0 <= v < 256) l ->
  frozen b vals (view s) ->
  (forall s', frozen b (fun r => if (i <=? r) && (r <? i + Z.of_nat (length l)) then nth (Z.to_nat (r - i)) l 0 else vals r) (view s') -> Q tt s') ->
  wp no_fault (write_regs rev l i) Q s.
Proof.
  revert vals i s. induction l as [|v l IH]; intros vals i s Hi Hl Hf Hs HQ; cbn [write_regs].
  - apply wp_ret, HQ. destruct Hs as [Hv ? ? ?]. split; try done. intros r Hr. rewrite (Hv r Hr). cbn. repeat case_bool; cbn; done || lia.
  - apply Forall_cons_iff in Hf as [Hv Hf]. cbn [length] in Hl. apply wp_bind. unfold RTC_STATUSB in Hl.
    apply (rtc_set_frozen b vals); [lia|unfold RTC_STATUSB; lia|done|done|].
    intros _ s1 Hs1. eapply IH; [lia|unfold RTC_STATUSB; lia|done|exact Hs1|]. intros s2 [Hv2 ? ? ?]. apply HQ. split; try done.
    intros r Hr. rewrite (Hv2 r Hr). cbn [length].
    destruct (Z.eqb_spec r i) as [->|Hne].
    + rewrite (proj2 (Z.leb_gt (i + 1) i)), (proj2 (Z.leb_le i i)), (proj2 (Z.ltb_lt i (i + Z.of_nat (S (length l))))) by lia. cbn [andb].
      by rewrite Z.sub_diag.
    + replace (i + 1 + Z.of_nat (length l)) with (i + Z.of_nat (S (length l))) by lia.
      destruct (Z.leb_spec (i + 1) r), (Z.leb_spec i r), (Z.ltb_spec r (i + Z.of_nat (S (length l)))); try lia; cbn [andb]; try done.
      replace (Z.to_nat (r - i)) with (S (Z.to_nat (r - (i + 1)))) by lia. done.
Qed.

Lemma write_regs_app l1 l2 i s (Q : unit -> B -> Prop) :
  wp no_fault (write_regs rev l1 i) (fun _ s' => wp no_fault (write_regs rev l2 (i + Z.of_nat (length l1))) Q s') s ->
  wp no_fault (write_regs rev (l1 ++ l2) i) Q s.
Proof.
  revert i s. induction l1 as [|v l1 IH]; intros i s H; cbn [write_regs app] in *; [by rewrite Z.add_0_r in H|].
  apply wp_bind. unfold wp in H at 1. unfold mbind, M_bind in H. unfold wp at 1. destruct (rtc_set rev i v s) as [[o s']|]; [|done].
  apply IH. cbn [length] in H. by replace (i + 1 + Z.of_nat (length l1)) with (i + Z.of_nat (S (length l1))) by lia.
Qed.

(** Registers that do not show the time are written while the clock runs. *)
Lemma rtc_set_running b lo hi r v s (Q : B -> Prop) : 0 <= r < 15 -> r <> RTC_STATUSB -> 0 <= v < 256 ->
  (r ∈ tod_regs -> forall t j, lo <= t <= hi + 3 -> tod_regs !! j = Some r -> tod t !! j = Some v) ->
  runs b lo hi s -> (forall s', runs b lo (hi + 3) s' -> Q s') ->
  wp no_fault (rtc_set rev r v) (fun _ => Q) s.
Proof.
  intros Hr Hne Hv Hcent Hs HQ.
  apply (rtc_set_wp (fun n => running b lo (hi + Z.of_nat n)) (running b lo (hi + 3))); [lia|done| | | | |auto].
  - rewrite Z.add_0_r. by apply select_running.
  - intros n c c' Hp Hc. replace (hi + Z.of_nat (S n)) with (hi + Z.of_nat n + 1) by lia. by eapply running_passes.
  - intros c Hc _. eapply running_weaken; [|exact Hc]. lia.
  - intros c c' [(t & Ht & Hsh) Hm Hvrt] Hd Hw. split; [|by rewrite Hw, (proj2 (Z.eqb_neq RTC_STATUSB r)) by (done || apply statusb_plain)|by rewrite Hd].
    exists t. split; [lia|]. split; [apply Hsh|]. intros Hlt. pose proof (proj2 Hsh Hlt) as Hsh'. unfold shows. rewrite <- Hsh'. apply list_eq. intros j. rewrite !list_lookup_fmap.
    destruct (tod_regs !! j) as [x|] eqn:Hj; [|done]. cbn. rewrite Hw by (apply tod_plain; by apply list_elem_of_lookup_2 in Hj).
    case_bool; [|done]. subst x. rewrite <- (Hcent (list_elem_of_lookup_2 _ _ _ Hj) t j ltac:(lia) Hj). by apply shows_reg.
Qed.

(** The century in which a time is. *)
Definition century (t : Z) : Z := Z.quot (tm_year (gmtime t)) 100 + 19.

Lemma tod_at t j r : tod_regs !! j = Some r -> r = RTC_CENTURY -> tod t !! j = Some (century t).
Proof. intros H ->. do 8 (destruct j as [|j]; [try done|]). done. Qed.

Lemma set_regs_bytes t l : Forall (fun v => 0 <= v < 256) l -> Forall (fun v => 0 <= v < 256) (set_regs (gmtime t) l).
Proof. intros H. unfold set_regs. repeat apply Forall_insert; auto using u8_range. Qed.

(** The array holds the registers of the new time. *)
Lemma set_regs_tod t l j r : 0 <= t < 2 ^ 31 -> length l = RTC_NTODREGS -> tod_regs !! j = Some r ->
  Some (nth (Z.to_nat r) (set_regs (gmtime t) l) 0) = tod t !! j.
Proof.
  intros Ht Hl Hj. destruct (gmtime_is_time t) as [V E W _]. pose proof (fields_year _ V ltac:(lia)) as Hy.
  assert (0 <= tm_wday (gmtime t) < 7) as Hw by (rewrite W; apply Z.mod_pos_bound; lia).
  destruct V as [[Hmo Hd] Hm0 Hh Hmi Hs]. pose proof (month_len_31 (isleap (tm_year (gmtime t) + 1900)) (Z.to_nat (tm_mon (gmtime t)))).
  unfold tod, set_regs. set (f := gmtime t) in *. clearbody f.
  assert (0 <= Z.quot (tm_year f) 100 <= 1 /\ 0 <= Z.rem (tm_year f) 100 < 100) as [Hq Hr] by euclid.
  do 15 (destruct l as [|? l]; [done|]). destruct l; [|done].
  unfold tod_regs in Hj. unfold RTC_SEC, RTC_MIN, RTC_HRS, RTC_WDAY, RTC_DAY, RTC_MONTH, RTC_YEAR, RTC_CENTURY in *.
  assert (Some (nth (Z.to_nat r) (<[7%nat := tm_mday f]> (<[8%nat := tm_mon f + 1]> (<[14%nat := Z.quot (tm_year f) 100 + 19]>
    (<[9%nat := Z.rem (tm_year f) 100]> (<[6%nat := tm_wday f + 1]> (<[4%nat := tm_hour f]> (<[2%nat := tm_min f]> (<[0%nat := tm_sec f]>
    [z; z0; z1; z2; z3; z4; z5; z6; z7; z8; z9; z10; z11; z12; z13])))))))) 0) =
    [tm_sec f; tm_min f; tm_hour f; tm_wday f + 1; tm_mday f; tm_mon f + 1; Z.rem (tm_year f) 100; Z.quot (tm_year f) 100 + 19] !! j) as <-.
  { clear -Hj. do 8 (destruct j as [|j]; [injection Hj as <-; reflexivity|]). done. }
  rewrite !u8_small by lia. reflexivity.
Qed.

Lemma rtcload_ok b lo hi s l s1 : in_mode b -> runs b lo hi s -> hi + 2004 < 2 ^ 32 -> rtcload rev s = Ok ((true, l), s1) ->
  exists t0, lo <= t0 <= hi + 2004 /\ loaded b t0 l /\ runs b t0 t0 s1.
Proof.
  intros Hm Hs Hhi El.
  assert (wp no_fault (rtcload rev) (fun '((ok, l) : bool * list Z) s' => ok = true -> exists t0, lo <= t0 <= hi + 2004 /\ loaded b t0 l /\ runs b t0 t0 s') s) as H.
  { apply (rtcload_wp b lo hi); [done|done|done|done|]. intros t l' s' Hr Hl Hs' _. by exists t. }
  by apply (wp_ok _ _ _ _ _ _ H El).
Qed.

Lemma uti_clear b : 0 <= b < 256 -> Z.land b RTCSB_UTI = 0 -> Z.lor b RTCSB_UTI = b + 128 /\ 0 <= b < 128 /\
  Z.land (Z.lor b RTCSB_UTI) RTCSB_UTI <> 0 /\ Z.land b (Z.lnot RTCSB_UTI) = b.
Proof.
  intros Hb Hu. assert (Z.testbit b 7 = false) as H7.
  { apply (f_equal (fun x => Z.testbit x 7)) in Hu. rewrite Z.land_spec, Z.bits_0 in Hu. by rewrite andb_true_r in Hu. }
  split; [symmetry; by apply Z.add_nocarry_lor|]. split; [|split].
  - split; [lia|]. destruct (Z.lt_ge_cases b 128) as [|H]; [done|]. apply Z.testbit_false in H7; [|lia]. change (2 ^ 7) with 128 in H7.
    replace (b / 128) with 1 in H7 by euclid. done.
  - rewrite Z.land_lor_distr_l, Hu. done.
  - apply Z.bits_inj'. intros n Hn. apply (f_equal (fun x => Z.testbit x n)) in Hu. rewrite Z.land_spec, Z.bits_0 in Hu.
    rewrite Z.land_spec, Z.lnot_spec by done. destruct (Z.testbit b n), (Z.testbit RTCSB_UTI n); done.
Qed.

(** Updates are inhibited: the clock stands still. *)
Lemma inhibit_wp b t0 s (Q : Z -> B -> Prop) : in_mode b -> runs b t0 t0 s -> t0 + 3 < 2 ^ 32 ->
  (forall o s' vals x, frozen (Z.lor b RTCSB_UTI) vals (view s') -> t0 <= x <= t0 + 3 ->
     (forall j r, tod_regs !! j = Some r -> tod x !! j = Some (vals r)) -> Q o s') ->
  wp no_fault (rtc_bis rev RTC_STATUSB RTCSB_UTI) Q s.
Proof.
  intros (Hb & _ & Huti) Hs Hhi HQ. apply modify_wp, get_wp; [done|]. intros o c s1 H1 H2 Ha _ Hreg _.
  pose proof (access_running b t0 t0 _ s c s1 Hs H1 H2) as Hs1. rewrite Hreg, (rn_mode _ _ _ _ Hs1) by done.
  destruct (uti_clear b Hb Huti) as (E & Hb' & Hset & _).
  rewrite (proj2 (Z.eqb_neq (Z.lor b RTCSB_UTI) b)) by lia. cbn [negb when]. apply wp_bind. unfold out_b. apply wp_modify, wp_ret.
  rewrite u8_small by lia. destruct (chip_write (Z.lor b RTCSB_UTI) s1 ltac:(lia)) as (c1 & Hp1 & Ha1 & Hd1 & Hw1).
  pose proof (running_passes _ _ _ _ _ Hp1 Hs1) as [(x & Hx & Hsh) _ Hvrt].
  assert (c_addr c1 = RTC_STATUSB) as Ea by (rewrite <- Ha; apply Hp1). rewrite Ea in Hw1.
  apply (HQ _ _ (c_reg c1) x); [|lia|intros j r Hj; apply shows_reg; [apply Hsh; lia|done]]. split; [|by rewrite Hw1 by apply statusb_plain|done|by rewrite Hd1].
  intros r Hr. rewrite Hw1 by (by apply tod_plain). rewrite (proj2 (Z.eqb_neq _ _)); [done|]. intros ->. clear -Hr.
  unfold tod_regs in Hr. repeat (apply elem_of_cons in Hr as [Hr|Hr]; [discriminate Hr|]). by apply elem_of_nil in Hr.
Qed.

Lemma set_regs_split f l b : length l = RTC_NTODREGS -> l !! Z.to_nat RTC_STATUSB = Some b -> exists a x y,
  set_regs f l = a ++ [b; x; y; u8 (Z.quot (tm_year f) 100 + 19)] /\ length a = 11%nat.
Proof.
  intros Hl Hb. do 15 (destruct l as [|? l]; [done|]). destruct l; [|done]. injection Hb as ->.
  exists (take 11 (set_regs f [z; z0; z1; z2; z3; z4; z5; z6; z7; z8; z9; b; z11; z12; z13])), z11, z12. split; reflexivity.
Qed.

(** The mode is written back, which lets updates happen again: by then the clock
    shows the new time. *)
Lemma release_wp b b' t vals s (Q : B -> Prop) : 0 <= b < 256 -> b' <> b -> frozen b' vals (view s) -> 0 <= t ->
  (forall j r, tod_regs !! j = Some r -> tod t !! j = Some (vals r)) -> (forall s', runs b t t s' -> Q s') ->
  wp no_fault (rtc_set rev RTC_STATUSB b) (fun _ => Q) s.
Proof.
  intros Hb Hne Hs Ht0 Hvals HQ.
  apply (rtc_set_wp (fun _ => frozen b' vals) (running b t t)); [done|done|by apply frozen_select|intros _; apply frozen_passes| | |auto].
  - intros c Hc E. rewrite (fr_mode _ _ _ Hc) in E. by rewrite E in Hne.
  - intros c c' [Hv Hm Hu Hvrt] Hd Hw. split; [|by rewrite Hw by apply statusb_plain|by rewrite Hd].
    exists t. split; [lia|]. split; [done|]. intros _. apply list_eq. intros j. rewrite list_lookup_fmap. destruct (tod_regs !! j) as [r|] eqn:Hj.
    + rewrite (Hvals j r Hj). cbn. assert (r ∈ tod_regs) as Hr by (by apply list_elem_of_lookup_2 in Hj). f_equal. rewrite Hw by (by apply tod_plain).
      rewrite (proj2 (Z.eqb_neq _ _)); [by apply Hv|]. intros ->. clear -Hr.
      unfold tod_regs in Hr. repeat (apply elem_of_cons in Hr as [Hr|Hr]; [discriminate Hr|]). by apply elem_of_nil in Hr.
    + apply lookup_ge_None in Hj. symmetry. apply lookup_ge_None. done.
Qed.

(** Setting a running clock: [sbd_settime] leaves it running and showing the new
    time, or a few seconds more, when no new century begins meanwhile. *)
Lemma settime_wp b lo hi t s (Q : unit -> B -> Prop) : in_mode b -> runs b lo hi s -> hi + 2010 < 2 ^ 32 -> 0 <= t < 2 ^ 31 - 20 ->
  (exists l s1, rtcload rev s = Ok ((true, l), s1)) ->
  (forall x, lo <= x <= hi + 2010 \/ t <= x <= t + 20 -> century x = century t) ->
  (forall s', runs b t (t + 11) s' -> Q tt s') -> wp no_fault (sbd_settime rev t) Q s.
Proof.
  intros Hm Hs Hhi Ht (l & s1 & El) Hcent HQ. unfold sbd_settime. apply wp_bind. destruct (rtcload_ok b lo hi s l s1 Hm Hs ltac:(lia) El) as (t0 & Ht0 & Hld & Hs1).
  eapply wp_run; [exact El|]. apply wp_bind. apply (inhibit_wp b t0); [done|done|lia|]. intros _ s2 vals x Hfr Hx Hvals.
  destruct Hm as (Hb & _ & Huti). destruct (uti_clear b Hb Huti) as (Eb & _ & _ & Ebic). destruct Hld as (Hlen & _ & Hlb & Hbytes).
  pose proof (set_regs_bytes t l Hbytes) as Hsb.
  assert (forall j r, tod_regs !! j = Some r -> Some (nth (Z.to_nat r) (set_regs (gmtime t) l) 0) = tod t !! j) as Htod by (intros; apply set_regs_tod; lia || done).
  destruct (set_regs_split (gmtime t) l b Hlen Hlb) as (a & v12 & v13 & Esr & Ha). rewrite Esr in *. clear Esr.
  apply Forall_app in Hsb as [Hab Hrest]. repeat match goal with H : Forall _ (_ :: _) |- _ => apply Forall_cons_iff in H as [? H] end. clear Hrest.
  apply wp_bind, write_regs_app. eapply write_frozen; [lia|rewrite Ha; done|done|exact Hfr|]. intros s3 Hs3. rewrite Ha in *.
  cbn [write_regs]. change (0 + Z.of_nat 11) with RTC_STATUSB. apply wp_bind.
  apply (release_wp b (Z.lor b RTCSB_UTI) t _ _ _ Hb ltac:(lia) Hs3 ltac:(lia)).
  { intros j r Hj. cbn beta. rewrite <- (Htod j r Hj). destruct (Z.leb_spec 0 r) as [|], (Z.ltb_spec r (0 + Z.of_nat 11)) as [|Hge]; cbn [andb];
      try (destruct (tod_plain r) as [? _]; [by apply list_elem_of_lookup_2 in Hj|lia]).
    - f_equal. rewrite Z.sub_0_r, nth_lookup, lookup_app_l, <- nth_lookup by lia. done.
    - assert (r = RTC_CENTURY) as -> by (clear -Hj Hge; do 8 (destruct j as [|j]; [injection Hj as <-; (reflexivity || (exfalso; apply Hge; reflexivity))|]); done).
      rewrite (Htod j _ Hj). rewrite (tod_at t j _ Hj eq_refl). specialize (Hvals j _ Hj). rewrite (tod_at x j _ Hj eq_refl) in Hvals.
      rewrite <- (Hcent x) by lia. done. }
  intros s4 Hs4. cbn [Z.add Pos.add RTC_STATUSB]. apply wp_bind. apply (rtc_set_running b t t); [done|done|done|by intros (_ & _ & [] & _)%tod_plain|done|].
  intros s5 Hs5. apply wp_bind. apply (rtc_set_running b t (t + 3)); [done|done|done|by intros (_ & _ & _ & [])%tod_plain|done|].
  intros s6 Hs6. apply wp_bind. apply (rtc_set_running b t (t + 3 + 3)); [done|done|done| |done|].
  { intros _ t' j Ht' Hj. rewrite (tod_at t' j _ Hj eq_refl), (Hcent t') by lia. f_equal.
    rewrite u8_small; [done|]. destruct (gmtime_is_time t) as [V E _ _]. pose proof (fields_year _ V ltac:(lia)). euclid. }
  intros s7 Hs7. apply wp_ret, wp_bind. apply (rtc_modify_same b t (t + 3 + 3 + 3)); [done|done|done|done|].
  intros _ s8 Hs8. apply wp_ret, HQ. eapply running_weaken; [|exact Hs8]. lia.
Qed.

End RtcOk.
