(* ===== verification/RtcSim.v ===== *)
(** * RtcSim: a simulated clock chip

    A chip that keeps the promises of [RtcChip] and adds a second every 200
    accesses, a witness on it, and what goes wrong on a chip whose battery is
    empty. *)

From S2P Require Import Prelude CString Comp Clock ClockOk Rtc RtcOk.

Record sim : Type := { m_addr : Z; m_reg : Z -> Z; m_count : nat }.

(** Status register A shows an update that is due within 64 accesses, status
    register D the battery. *)
Definition sim_reg (s : sim) (r : Z) : Z :=
  if r =? RTC_STATUSA then (if (m_count s <? 64)%nat then 0xa6 else 0x26)
  else if r =? RTC_STATUSD then RTCSD_VRT else u8 (m_reg s r).

Definition sim_view (s : sim) : chip := {| c_addr := m_addr s; c_reg := sim_reg s; c_still := m_count s |}.

(** The time in the registers, and the registers of a time. *)
Definition sim_secs (reg : Z -> Z) : Z :=
  fields_secs (Build_tm (reg RTC_SEC) (reg RTC_MIN) (reg RTC_HRS) (reg RTC_DAY) (reg RTC_MONTH - 1)
    (reg RTC_YEAR + (reg RTC_CENTURY - 19) * 100) 0 0 0 0 None).

Definition sim_show (t : Z) (reg : Z -> Z) (r : Z) : Z :=
  match list_find (fun x => x = r) tod_regs with
  | Some (j, _) => nth j (tod t) 0
  | None => reg r
  end.

(** An access. *)
Definition sim_pass (s : sim) : sim :=
  if inhibited (sim_view s) then s
  else
    match m_count s with
    | O => {| m_addr := m_addr s; m_reg := sim_show (sim_secs (sim_reg s) + 1) (m_reg s); m_count := 199 |}
    | S n => {| m_addr := m_addr s; m_reg := m_reg s; m_count := n |}
    end.

#[export] Instance SimPort : RtcPort sim := {
  outb p v s :=
    let s := sim_pass s in
    if p =? RTC_ADDR_PORT then {| m_addr := v; m_reg := m_reg s; m_count := m_count s |}
    else {| m_addr := m_addr s; m_reg := upd (m_reg s) (m_addr s) v; m_count := m_count s |};
  inb p s := let s := sim_pass s in (sim_reg s (m_addr s), s)
}.

Lemma sim_show_tod t reg r j : tod_regs !! j = Some r -> sim_show t reg r = nth j (tod t) 0.
Proof. intros H. do 8 (destruct j as [|j]; [injection H as <-; reflexivity|]). done. Qed.

Lemma sim_show_other t reg r : ~ r ∈ tod_regs -> sim_show t reg r = reg r.
Proof.
  intros H. unfold sim_show. destruct (list_find _ _) as [[j x]|] eqn:E; [|done].
  apply list_find_Some in E as (Hj & -> & _). by apply list_elem_of_lookup_2 in Hj.
Qed.

(** The registers of some fields. *)
Definition tod_of (f : tm) : list Z :=
  [tm_sec f; tm_min f; tm_hour f; tm_wday f + 1; tm_mday f; tm_mon f + 1; Z.rem (tm_year f) 100; Z.quot (tm_year f) 100 + 19].

Lemma fields_bytes f t : is_time t f -> 0 <= t < 2 ^ 32 -> Forall (fun v => 0 <= v < 256) (tod_of f).
Proof.
  intros [V E W _] Ht.
  assert (70 <= tm_year f <= 300) as Hy.
  { pose proof V as [[Hm Hmd] _ ? ? ?]. pose proof (month_day_range _ _ _ Hm Hmd) as Hr. unfold fields_secs, fields_day, civil in E.
    pose proof (jan1_succ (tm_year f + 1900)) as Hj. split.
    - destruct (Z.le_gt_cases 70 (tm_year f)) as [|Hc]; [done|]. pose proof (jan1_mono (tm_year f + 1900 + 1) 1970 ltac:(lia)) as Hc'.
      change (jan1 1970) with 0 in Hc'. lia.
    - destruct (Z.le_gt_cases (tm_year f) 300) as [|Hc]; [done|]. pose proof (jan1_mono 2200 (tm_year f + 1900) ltac:(lia)) as Hc'.
      change (jan1 2200) with 84006 in Hc'. lia. }
  assert (0 <= tm_wday f < 7) as Hw by (rewrite W; apply Z.mod_pos_bound; lia).
  destruct V as [[Hmo Hd] Hm0 Hh Hmi Hs]. pose proof (month_len_31 (isleap (tm_year f + 1900)) (Z.to_nat (tm_mon f))).
  unfold tod_of. clear E W. repeat (constructor; [euclid|]). constructor.
Qed.

Lemma tod_bytes t : 0 <= t < 2 ^ 32 -> Forall (fun v => 0 <= v < 256) (tod t).
Proof. exact (fields_bytes (gmtime t) t (gmtime_is_time t)). Qed.

(** The time is found in the registers that show it. *)
Lemma secs_of_fields reg f t : is_time t f -> reg <$> tod_regs = tod_of f -> sim_secs reg = t.
Proof.
  intros [V Es _ _] E. unfold sim_secs, tod_of, tod_regs in *. cbn [fmap list_fmap] in E.
  injection E as -> -> -> _ -> -> Ey Ec. rewrite <- Es. apply (fields_same f); [|done].
  unfold tm_fields. cbn [tm_sec tm_min tm_hour tm_mday tm_mon tm_year]. rewrite Ey, Ec. repeat f_equal; euclid.
Qed.

Lemma sim_secs_shows reg t : reg <$> tod_regs = tod t -> sim_secs reg = t.
Proof. exact (secs_of_fields reg (gmtime t) t (gmtime_is_time t)). Qed.

Lemma sim_passes s : passes (sim_view s) (sim_view (sim_pass s)).
Proof.
  unfold sim_pass. destruct (inhibited (sim_view s)) eqn:Ei; [repeat split; left; split; [done|cbn; lia]|].
  destruct (m_count s) as [|n] eqn:Ec.
  - split; [done|]. split; [|split; [done|]].
    + cbn. unfold sim_reg. cbn [Z.eqb RTC_STATUSB RTC_STATUSA RTC_STATUSD Pos.eqb m_reg]. rewrite sim_show_other; [done|].
      unfold tod_regs. rewrite !not_elem_of_cons. repeat split; try discriminate. apply not_elem_of_nil.
    + right. split; [done|]. split; [done|]. intros t Ht Hs. pose proof (tod_bytes (t + 1) ltac:(lia)) as Hb.
      assert (sim_secs (sim_reg s) = t) as -> by (by apply sim_secs_shows).
      unfold shows, sim_view. cbn [c_reg]. apply list_eq. intros j. rewrite list_lookup_fmap.
      destruct (tod_regs !! j) as [r|] eqn:Hj.
      * cbn [fmap option_fmap option_map]. destruct (tod_plain r) as (_ & H1 & _ & H2); [by apply list_elem_of_lookup_2 in Hj|].
        unfold sim_reg. rewrite (proj2 (Z.eqb_neq _ _) H1), (proj2 (Z.eqb_neq _ _) H2). cbn [m_reg]. rewrite (sim_show_tod _ _ _ j) by done.
        assert (j < length (tod (t + 1)))%nat as Hl by (by apply lookup_lt_Some in Hj).
        apply lookup_lt_is_Some in Hl as [v Hv]. rewrite Hv, nth_lookup, Hv. cbn [default]. rewrite u8_small; [done|]. by apply (Forall_lookup_1 _ _ _ _ Hb Hv).
      * apply lookup_ge_None in Hj. symmetry. by apply lookup_ge_None.
  - split; [done|]. split; [done|]. split; [done|]. left. cbn [sim_view c_still m_count]. rewrite Ec. split; [|lia].
    apply list_fmap_ext. intros i r Hr. cbn. apply list_elem_of_lookup_2 in Hr. destruct (tod_plain r Hr) as (_ & H1 & _ & H2). unfold sim_reg.
    by rewrite (proj2 (Z.eqb_neq _ _) H1), (proj2 (Z.eqb_neq _ _) H2).
Qed.

Lemma pass_addr s : m_addr (sim_pass s) = m_addr s.
Proof. unfold sim_pass. destruct (inhibited _); [done|]. by destruct (m_count s). Qed.

#[export] Instance SimChip : RtcChip sim.
Proof.
  refine {| view := sim_view |}.
  - intros r s _. by destruct (sim_passes s) as (_ & H).
  - intros s v s' E. injection E as <- <-. split; [apply sim_passes|]. rewrite pass_addr. split; [|split].
    + unfold sim_reg. repeat case_match; try (unfold RTCSD_VRT; lia). apply u8_range.
    + done.
    + cbn [sim_view c_addr c_still]. intros -> H. unfold sim_reg in H. cbn [Z.eqb RTC_STATUSA Pos.eqb] in H.
      destruct (Nat.ltb_spec (m_count (sim_pass s)) 64); [discriminate H|]. unfold RTC_NTODREGS. lia.
  - intros v s Hv. exists (sim_view (sim_pass s)). split; [apply sim_passes|]. split; [done|]. split; [done|].
    intros r (_ & H1 & _ & H2). cbn. unfold sim_reg. rewrite (proj2 (Z.eqb_neq _ _) H1), (proj2 (Z.eqb_neq _ _) H2). cbn [m_reg].
    unfold upd. destruct (r =? _); [by apply u8_small|done].
Defined.

(** 30 October 1999, 12:00. *)
Definition sim_start : sim := {| m_addr := 0; m_reg := sim_show 941284800 (fun r => if r =? RTC_STATUSB then 6 else 0); m_count := 150 |}.

Lemma fields_century f x : is_time x f -> 0 <= x < 946684800 -> Z.quot (tm_year f) 100 + 19 = 19.
Proof.
  intros [V E _ _] Hx. pose proof (fields_year _ V ltac:(lia)). destruct V as [[Hm Hmd] _ ? ? ?].
  pose proof (month_day_range _ _ _ Hm Hmd) as Hr. unfold fields_secs, fields_day, civil in E.
  assert (tm_year f < 100); [|euclid]. destruct (Z.lt_ge_cases (tm_year f) 100) as [|Hc]; [done|].
  pose proof (jan1_mono 2000 (tm_year f + 1900) ltac:(lia)) as Hc'. change (jan1 2000) with 10957 in Hc'. lia.
Qed.

Lemma century_19 x : 0 <= x < 946684800 -> century x = 19.
Proof. exact (fields_century (gmtime x) x (gmtime_is_time x)). Qed.

Lemma sim_mode : in_mode 6.
Proof. repeat split; lia. Qed.

Lemma sim_runs : runs 6 941284800 941284800 sim_start.
Proof.
  split; [|vm_compute; reflexivity|vm_compute; discriminate].
  exists 941284800. split; [lia|]. split; [lia|]. intros _. vm_compute. reflexivity.
Qed.


(** ** An empty battery

    A chip that stands still, whose status register D says that its battery is
    empty: [rtcload] leaves the array at zero, and [sbd_settime] writes all of it,
    the status registers included. The time is set, but the oscillator is off and
    the clock no longer in binary mode. *)
Definition DeadPort : RtcPort (Z * (Z -> Z)) := {|
  outb p v s := if p =? RTC_ADDR_PORT then (v, s.2) else (s.1, if s.1 =? RTC_STATUSD then s.2 else upd s.2 s.1 v);
  inb p s := (s.2 s.1, s)
|}.

Definition dead_start : Z * (Z -> Z) := (0, upd (upd (fun _ => 0) RTC_STATUSA 0x26) RTC_STATUSB 0x06).

Lemma dead_battery_stops_clock :
  match sbd_settime (RP := DeadPort) (ch "C") 941371200 dead_start with
  | Ok (_, (_, reg)) => reg RTC_STATUSA = 0 /\ reg RTC_STATUSB = 0 /\ reg RTC_HRS = 12
  | Err _ => False
  end.
Proof. vm_compute. done. Qed.
