(* ===== verification/Pager.v ===== *)
(** * Pager: output a page at a time

    [src/pmon/more.c]: the paginator with its prompt, its search, and the mark that
    turns while nothing is shown. The keys that will be typed are part of the
    state; a key that is waited for in vain is [Hung]. *)

From S2P Require Import Prelude CString Glob Comp.

(** [more_tik] is an index into [more_tiks], [None] before its first use.
    [src/pmon/more.c:9-14] *)
Record pager : Type := {
  more_pat : cstr;
  tik_cnt : Z;
  more_tik : option nat;
  keys : list Z;
  out : trace
}.

Definition more_tiks : cstr := str "|/-\".
Definition more_msg : cstr := str "more... ".
Definition TIKRATE : Z := 256000.

Definition set_pat v (p : pager) : pager := Build_pager v (tik_cnt p) (more_tik p) (keys p) (out p).
Definition set_tik c t (p : pager) : pager := Build_pager (more_pat p) c t (keys p) (out p).
Definition set_keys v (p : pager) : pager := Build_pager (more_pat p) (tik_cnt p) (more_tik p) v (out p).
Definition emit ev : M pager unit := modify (fun p => Build_pager (more_pat p) (tik_cnt p) (more_tik p) (keys p) (out p ++ [ev])).

(** [src/pmon/more.c:134-151] *)
Definition dotik (rate : Z) (use_ret : bool) : M pager unit :=
  gets tik_cnt ≫= fun c =>
  let c := s32 (c - rate) in
  gets more_tik ≫= fun t =>
  if 0 <? c then modify (set_tik c t)
  else
    let i := match t with Some i => if (i <? length more_tiks)%nat then i else 0%nat | None => 0%nat end in
    emit (Printf (if use_ret then " %c\r" else "\b%c") [AInt (at_ more_tiks i)]) ≫= fun _ =>
    modify (set_tik TIKRATE (Some (S i))).

Definition getchar : M pager Z :=
  gets keys ≫= fun k =>
  match k with
  | [] => fail Hung
  | c :: k' => modify (set_keys k') ≫= fun _ => mret c
  end.

(** [src/lib/eraline.c:5-10] *)
Definition era_line (s : cstr) : M pager unit := for_each s (fun _ => emit (Printf "\b \b" [])).

(** The string in an array of characters. *)
Fixpoint until0 (arr : list Z) : cstr :=
  match arr with
  | c :: arr' => if c =? 0 then [] else c :: until0 arr'
  | [] => []
  end.

Definition putchar (c : Z) : M pager unit := emit (Putc c).

(** A character stored in [more_pat], inside it.
    [src/pmon/more.c:116-119] *)
Definition put_pat (i : nat) (c : Z) : M pager unit :=
  gets more_pat ≫= fun a => if (i <? length a)%nat then modify (set_pat (<[i := c]> a)) else fail OutOfBounds.

(** The key that answers the prompt; others ring the bell.
    [src/pmon/more.c:83-88] *)
Fixpoint get_answer (fuel : nat) : M pager Z :=
  match fuel with
  | O => fail Hung
  | S f =>
    getchar ≫= fun c =>
    if bool_decide (strchr (Some (str "nq/ " ++ [nl])) c <> None) then mret c
    else putchar bel ≫= fun _ => get_answer f
  end.

(** The pattern, [i] characters of which are there; whether it is finished.
    [src/pmon/more.c:102-119] *)
Fixpoint get_pattern (fuel i : nat) : M pager bool :=
  match fuel with
  | O => fail Hung
  | S f =>
    getchar ≫= fun c =>
    if c =? nl then put_pat i 0 ≫= fun _ => mret true
    else if c =? bs then
      match i with
      | S i' => putchar c ≫= fun _ => get_pattern f i'
      | O => putchar bs ≫= fun _ => mret false
      end
    else putchar c ≫= fun _ => put_pat i c ≫= fun _ => get_pattern f (S i)
  end.

Definition waiting : M pager nat := gets (fun p => S (length (keys p))).

(** What is returned, and [*cnt].
    [src/pmon/more.c:77-128] *)
Definition getinp (cnt size : Z) : M pager (Z * Z) :=
  emit (Printf "%s" [AStr (Some more_msg)]) ≫= fun _ =>
  waiting ≫= fun f =>
  get_answer f ≫= fun c =>
  era_line more_msg ≫= fun _ =>
  if c =? ch "q" then mret (1, cnt)
  else if c =? ch " " then mret (0, size)
  else if c =? nl then mret (0, 1)
  else if c =? ch "/" then
    putchar (ch "/") ≫= fun _ =>
    get_pattern f 0 ≫= fun ok : bool =>
    if ok then emit (Printf "  " []) ≫= fun _ => mret (0, -1) else mret (-1, cnt)
  else
    gets more_pat ≫= fun a =>
    emit (Printf "/%s  " [AStr (Some (until0 a))]) ≫= fun _ => mret (0, -1).

(** [src/pmon/more.c:53] *)
Fixpoint getinps (fuel : nat) (cnt size : Z) : M pager (Z * Z) :=
  match fuel with
  | O => fail Hung
  | S f => getinp cnt size ≫= fun '((r, cnt) : Z * Z) => if r =? -1 then getinps f cnt size else mret (r, cnt)
  end.

(** Whether to stop, and [*cnt]; the line is emptied unless it is skipped or there
    is no size.
    [src/pmon/more.c:44-72] *)
Definition more (p : cstr) (cnt size : Z) : M pager (bool * Z) :=
  let print (cnt : Z) := emit (Printf "%s\n" [AStr (Some p)]) ≫= fun _ => mret (false, s32 (cnt - 1)) in
  let rest (cnt : Z) :=
    if cnt =? -1 then
      gets more_pat ≫= fun a =>
      match strposn (Some p) (Some (until0 a)) with
      | None => dotik 256 false ≫= fun _ => mret (false, cnt)
      | Some _ => emit (Printf "\b \n" []) ≫= fun _ => print size
      end
    else print cnt in
  if cnt =? 0 then
    if size =? 0 then mret (true, cnt)
    else
      waiting ≫= fun f =>
      getinps f cnt size ≫= fun '((r, cnt) : Z * Z) =>
      if negb (r =? 0) then mret (true, cnt) else rest cnt
  else rest cnt.

(** The way the commands use it: line after line until it says to stop. *)
Fixpoint pages (lines : list cstr) (cnt size : Z) : M pager unit :=
  match lines with
  | [] => mret tt
  | l :: ls => more l cnt size ≫= fun '((stop, cnt) : bool * Z) => if stop then mret tt else pages ls cnt size
  end.

(** ** What is shown

    The answers a user may give at the prompt. *)
Inductive answer : Type :=
| Space
| Line
| Quit
| Next
| Search (ks : list Z) (p : cstr).

Definition answer_text (a : answer) : list Z :=
  match a with
  | Space => [ch " "] | Line => [nl] | Quit => [ch "q"] | Next => [ch "n"]
  | Search ks _ => ch "/" :: ks ++ [nl]
  end.

(** Keys that mean nothing may come before an answer. *)
Definition typed (noise : list Z) (a : answer) : list Z := noise ++ answer_text a.

Definition noise_ok (noise : list Z) : Prop := Forall (fun c => ~ c ∈ str "nq/ " ++ [nl]) noise.

(** The text that keys give, behind the text [acc]: a backspace takes a character
    back; [None] when there is none. *)
Fixpoint rub (acc : cstr) (ks : list Z) : option cstr :=
  match ks with
  | [] => Some acc
  | c :: ks =>
      if c =? bs then match acc with [] => None | _ => rub (removelast acc) ks end
      else rub (acc ++ [c]) ks
  end.

(** The keys of a search give its pattern. *)
Definition answer_ok (a : answer) : Prop :=
  match a with
  | Search ks p => Forall (fun c => c <> 0 /\ c <> nl) ks /\ (length ks < 200)%nat /\ rub [] ks = Some p
  | _ => True
  end.

(** Whether a text occurs in a line. *)
Definition occurs (p l : cstr) : Prop := exists a b, l = a ++ p ++ b.

#[export] Instance occurs_dec p l : Decision (occurs p l).
Proof.
  destruct (decide (Exists (fun i => take (length p) (drop i l) = p) (seq 0 (S (length l))))) as [H|H]; [left|right].
  - apply Exists_exists in H as (i & _ & H). exists (take i l), (drop (length p) (drop i l)).
    rewrite <- H at 1. by rewrite take_drop, take_drop.
  - intros (a & b & ->). apply H, Exists_exists. exists (length a). split; [apply in_seq; rewrite length_app; lia|].
    by rewrite drop_app_length, take_app_length.
Defined.

(** How many lines are shown before the next prompt, or that lines are skipped
    until one with the pattern. *)
Inductive mode : Type := Show (n : nat) | Find.

Section Shown.
Variable size : nat.

(** The lines that are shown of some lines, for the answers at the prompts;
    [None] when there are too few answers. *)
Fixpoint shown (lines : list cstr) (md : mode) (pat : cstr) (answers : list answer) : option (list cstr) :=
  match lines with
  | [] => Some []
  | l :: ls =>
    let find (pat : cstr) (answers : list answer) :=
      if decide (occurs pat l) then cons l <$> shown ls (Show (size - 1)) pat answers else shown ls Find pat answers in
    match md with
    | Find => find pat answers
    | Show (S n) => cons l <$> shown ls (Show n) pat answers
    | Show O =>
      match answers with
      | [] => None
      | Quit :: _ => Some []
      | Space :: answers => cons l <$> shown ls (Show (size - 1)) pat answers
      | Line :: answers => cons l <$> shown ls (Show 0) pat answers
      | Next :: answers => find pat answers
      | Search _ p :: answers => find p answers
      end
    end
  end.
End Shown.

Definition cnt_of (md : mode) : Z := match md with Show n => Z.of_nat n | Find => -1 end.

(** The lines in an output. *)
Definition line_of (ev : event) : option cstr :=
  match ev with Printf fmt [AStr (Some l)] => if String.eqb fmt "%s\n" then Some l else None | _ => None end.
Definition lines_of (o : trace) : list cstr := omap line_of o.

Record paged (ks : list Z) (pat : cstr) (shown : list cstr) (p : pager) : Prop := {
  pg_keys : keys p = ks;
  pg_len : length (more_pat p) = 200%nat;
  pg_pat : until0 (more_pat p) = pat;
  pg_lines : lines_of (out p) = shown
}.

Lemma strposn_occurs pat l : (match strposn (Some l) (Some pat) with Some _ => true | None => false end) = bool_decide (occurs pat l).
Proof.
  destruct (strposn (Some l) (Some pat)) as [i|] eqn:E; symmetry.
  - apply bool_decide_eq_true. destruct pat as [|c pat]; [by exists [], l|]. cbn [strposn] in E.
    apply find_sub_sound in E as (r & E & _). exists (take i l), r. by rewrite <- E, take_drop.
  - apply bool_decide_eq_false. intros (a & b & ->). destruct pat as [|c pat]; [discriminate E|]. cbn [strposn] in E.
    destruct (find_sub_complete a (c :: pat) b) as (i & H & _); [done|]. by rewrite H in E.
Qed.

Lemma emit_wp E ev ks pat sh p (Q : unit -> pager -> Prop) : paged ks pat sh p -> line_of ev = None ->
  (forall p', paged ks pat sh p' -> Q tt p') -> wp E (emit ev) Q p.
Proof.
  intros [Hk Hl Hp Hs] Hev HQ. apply wp_modify, HQ. split; try done. cbn [out]. unfold lines_of in *. rewrite omap_app, Hs. cbn.
  by rewrite Hev, app_nil_r.
Qed.

Lemma print_wp E l ks pat sh p (Q : unit -> pager -> Prop) : paged ks pat sh p ->
  (forall p', paged ks pat (sh ++ [l]) p' -> Q tt p') -> wp E (emit (Printf "%s\n" [AStr (Some l)])) Q p.
Proof.
  intros [Hk Hl Hp Hs] HQ. apply wp_modify, HQ. split; try done. cbn [out]. unfold lines_of in *. by rewrite omap_app, Hs.
Qed.

Lemma getchar_wp E c ks pat sh p (Q : Z -> pager -> Prop) : paged (c :: ks) pat sh p ->
  (forall p', paged ks pat sh p' -> more_pat p' = more_pat p -> Q c p') -> wp E getchar Q p.
Proof.
  intros [Hk Hl Hp Hs] HQ. unfold getchar. apply wp_bind, wp_gets. rewrite Hk. apply wp_bind, wp_modify, wp_ret, HQ; [|done]. by split.
Qed.

Lemma era_line_wp E s ks pat sh p (Q : unit -> pager -> Prop) : paged ks pat sh p ->
  (forall p', paged ks pat sh p' -> Q tt p') -> wp E (era_line s) Q p.
Proof.
  intros Hp HQ. eapply wp_mono; [apply (wp_for_each E (fun _ => paged ks pat sh)); [|exact Hp]|intros [] p'; apply HQ].
  intros l1 x l2 p' _ Hp'. by eapply emit_wp.
Qed.

Lemma dotik_wp E rate b ks pat sh p (Q : unit -> pager -> Prop) : paged ks pat sh p ->
  (forall p', paged ks pat sh p' -> Q tt p') -> wp E (dotik rate b) Q p.
Proof.
  intros Hp HQ. unfold dotik. wps. destruct (0 <? _).
  - apply wp_modify, HQ. by destruct Hp.
  - apply wp_bind. eapply emit_wp; [done|by destruct b|]. intros p' Hp'. apply wp_modify, HQ. by destruct Hp'.
Qed.

(** The answer is found behind the keys that mean nothing. *)
Lemma get_answer_wp noise c fuel ks pat sh p (Q : Z -> pager -> Prop) : noise_ok noise -> c ∈ str "nq/ " ++ [nl] -> (length noise < fuel)%nat ->
  paged (noise ++ c :: ks) pat sh p -> (forall p', paged ks pat sh p' -> Q c p') -> wp no_fault (get_answer fuel) Q p.
Proof.
  revert fuel p. induction noise as [|n noise IH]; intros [|f] p Hn Hc Hf Hp HQ; cbn [length app get_answer] in *; try lia.
  - apply wp_bind. eapply getchar_wp; [done|]. intros p' Hp' _. rewrite bool_decide_eq_true_2 by (by rewrite strchr_None; intros []).
    by apply wp_ret, HQ.
  - apply Forall_cons_iff in Hn as [Hn Hns]. apply wp_bind. eapply getchar_wp; [done|]. intros p' Hp' _.
    rewrite bool_decide_eq_false_2 by (intros H; apply H, strchr_None; exact Hn).
    apply wp_bind. eapply emit_wp; [done|done|]. intros p2 Hp2. apply IH; try done. lia.
Qed.

Lemma until0_app l r : Forall (fun c => c <> 0) l -> until0 (l ++ 0 :: r) = l.
Proof. intros H. induction H as [|c l Hc H IH]; [done|]. cbn. by rewrite (proj2 (Z.eqb_neq _ _) Hc), IH. Qed.

Lemma removelast_of_take {A} (l : list A) i : (S i <= length l)%nat -> removelast (take (S i) l) = take i l.
Proof.
  intros Hi. destruct (lookup_lt_is_Some_2 l i ltac:(lia)) as [x Hx].
  by rewrite (take_S_r l i x Hx), removelast_last.
Qed.

(** The pattern replaces the old one. *)
Lemma get_pattern_wp q : forall i fuel ks pat q' sh p (Q : bool -> pager -> Prop), Forall (fun c => c <> 0 /\ c <> nl) q ->
  (i + length q < 200)%nat -> (length q < fuel)%nat -> Forall (fun c => c <> 0) (take i (more_pat p)) -> paged (q ++ nl :: ks) pat sh p ->
  rub (take i (more_pat p)) q = Some q' ->
  (forall p', paged ks q' sh p' -> Q true p') -> wp no_fault (get_pattern fuel i) Q p.
Proof.
  induction q as [|c q IH]; intros i [|f] ks pat q' sh p Q Hq Hi Hf Ht Hp Hr HQ; cbn [length app get_pattern rub] in *; try lia.
  - injection Hr as <-. apply wp_bind. eapply getchar_wp; [done|]. intros p1 Hp1 E1. rewrite Z.eqb_refl. unfold put_pat.
    apply wp_bind, wp_bind, wp_gets.
    rewrite (proj2 (Nat.ltb_lt i (length (more_pat p1)))) by (rewrite (pg_len _ _ _ _ Hp1); lia). apply wp_modify, wp_ret, HQ.
    destruct Hp1 as [Hk Hl _ Hs]. split; try done; cbn [more_pat set_pat]; [by rewrite length_insert|].
    rewrite <- E1, insert_take_drop by lia. apply until0_app. by rewrite E1.
  - apply Forall_cons_iff in Hq as [(H0 & Hnl) Hq]. apply wp_bind. eapply getchar_wp; [done|]. intros p1 Hp1 E1.
    pose proof (pg_len _ _ _ _ Hp1) as Hl1. rewrite (proj2 (Z.eqb_neq _ _) Hnl). destruct (Z.eqb_spec c bs) as [->|Hbs].
    + destruct i as [|i]; [done|]. assert (rub (take i (more_pat p)) q = Some q') as Hr'.
      { rewrite <- removelast_of_take by (rewrite <- E1; lia). by destruct (take (S i) (more_pat p)). }
      apply wp_bind, wp_modify. eapply (IH i f ks _ q' sh); [done|lia|lia| | | |exact HQ].
      * cbn [more_pat]. rewrite E1. rewrite <- (removelast_of_take (more_pat p)) by (rewrite <- E1; lia).
        rewrite (take_S_r _ _ (default 0 (more_pat p !! i))) in Ht |- *.
        2, 3: destruct (lookup_lt_is_Some_2 (more_pat p) i ltac:(rewrite <- E1; lia)) as [x ->]; done.
        rewrite removelast_last. by apply Forall_app in Ht as [Ht _].
      * destruct Hp1 as [Hk Hl Hpt Hs]. split; [done|done|done|]. cbn [out]. unfold lines_of in *. rewrite omap_app, Hs. cbn. by rewrite app_nil_r.
      * cbn [more_pat]. by rewrite E1.
    + apply wp_bind, wp_modify. unfold put_pat. apply wp_bind, wp_bind, wp_gets. cbn [more_pat].
      rewrite (proj2 (Nat.ltb_lt i (length (more_pat p1)))) by lia. apply wp_modify.
      assert (take (S i) (<[i:=c]> (more_pat p1)) = take i (more_pat p) ++ [c]) as Et.
      { rewrite <- E1. rewrite (take_S_r _ _ c) by (rewrite list_lookup_insert_eq; [done|lia]). by rewrite take_insert_ge by lia. }
      eapply (IH (S i) f ks _ q' sh); [done|lia|lia| | | |exact HQ].
      * cbn [more_pat set_pat]. rewrite Et. apply Forall_app. split; [done|]. by constructor.
      * destruct Hp1 as [Hk Hl _ Hs]. split; [done|by cbn; rewrite length_insert|done|].
        cbn [out set_pat]. unfold lines_of in *. rewrite omap_app, Hs. cbn. by rewrite app_nil_r.
      * cbn [more_pat set_pat]. by rewrite Et.
Qed.

(** The answer at the prompt. *)
Lemma getinp_wp noise a cnt size ks pat sh p (Q : Z * Z -> pager -> Prop) : noise_ok noise -> answer_ok a ->
  paged (typed noise a ++ ks) pat sh p ->
  (forall p', paged ks (match a with Search _ q => q | _ => pat end) sh p' ->
     Q (match a with Quit => (1, cnt) | Space => (0, size) | Line => (0, 1) | _ => (0, -1) end) p') ->
  wp no_fault (getinp cnt size) Q p.
Proof.
  intros Hn Ha Hp HQ. unfold getinp. apply wp_bind. eapply emit_wp; [done|done|]. intros p1 Hp1. apply wp_bind, wp_gets.
  rewrite (pg_keys _ _ _ _ Hp1). unfold typed in *.
  assert (exists c r, answer_text a = c :: r /\ c ∈ str "nq/ " ++ [nl]) as (c & r & Ea & Hc).
  { destruct a; eexists _, _; (split; [reflexivity|]); apply (bool_decide_unpack _); reflexivity. }
  rewrite Ea, <- app_assoc in *. cbn [app] in *. apply wp_bind. apply (get_answer_wp noise c _ (r ++ ks) pat sh); [done|done|rewrite length_app; lia|done|].
  intros p2 Hp2. apply wp_bind. eapply era_line_wp; [done|]. intros p3 Hp3.
  destruct a; injection Ea as <- <-; cbn [app] in *.
  - apply wp_ret, HQ, Hp3.
  - apply wp_ret, HQ, Hp3.
  - apply wp_ret, HQ, Hp3.
  - apply wp_bind, wp_gets. rewrite (pg_pat _ _ _ _ Hp3). apply wp_bind. eapply emit_wp; [done|done|]. intros p4 Hp4. apply wp_ret, HQ, Hp4.
  - destruct Ha as (Hq & Hl & Hrub). apply wp_bind. eapply emit_wp; [exact Hp3|done|]. intros p4 Hp4. apply wp_bind.
    rewrite <- app_assoc in Hp4. cbn [app] in Hp4.
    eapply (get_pattern_wp ks0 0); [done|lia| |constructor|exact Hp4|exact Hrub|].
    + rewrite !length_app. cbn [length]. rewrite !length_app. lia.
    + intros p5 Hp5. apply wp_bind. eapply emit_wp; [done|done|]. intros p6 Hp6. by apply wp_ret, HQ.
Qed.

Definition keys_of (answers : list (list Z * answer)) : list Z := concat ((fun na => typed na.1 na.2) <$> answers).
Definition answers_ok (answers : list (list Z * answer)) : Prop := Forall (fun na => noise_ok na.1 /\ answer_ok na.2) answers.
Definition mode_ok (md : mode) : Prop := match md with Show n => Z.of_nat n < 2 ^ 31 | Find => True end.

(** The loop from a line on, when lines are skipped. *)
Lemma pages_find size lines l pat ks ans sh res p :
  1 <= Z.of_nat size < 2 ^ 31 -> paged ks pat sh p ->
  (forall md pat' ans' res sh' p', mode_ok md -> paged ks pat' sh' p' -> shown size lines md pat' ans' = Some res -> ans' = ans ->
     wp no_fault (pages lines (cnt_of md) (Z.of_nat size)) (fun _ p' => lines_of (out p') = sh' ++ res) p') ->
  (if decide (occurs pat l) then cons l <$> shown size lines (Show (size - 1)) pat ans else shown size lines Find pat ans) = Some res ->
  wp no_fault (gets more_pat ≫= fun a =>
      match strposn (Some l) (Some (until0 a)) with
      | None => dotik 256 false ≫= fun _ => mret (false, -1)
      | Some _ => emit (Printf "\b \n" []) ≫= fun _ => emit (Printf "%s\n" [AStr (Some l)]) ≫= fun _ => mret (false, s32 (Z.of_nat size - 1))
      end)
    (fun (a : bool * Z) p' => wp no_fault (let '(stop, cnt) := a in if stop : bool then mret tt else pages lines cnt (Z.of_nat size)) (fun _ p'' => lines_of (out p'') = sh ++ res) p') p.
Proof.
  intros Hs Hp IH Hr. apply wp_bind, wp_gets. rewrite (pg_pat _ _ _ _ Hp).
  pose proof (strposn_occurs pat l) as Ho. destruct (decide (occurs pat l)) as [H|H].
  - rewrite bool_decide_eq_true_2 in Ho by done. destruct (strposn _ _); [|done]. apply fmap_Some in Hr as (res' & Hr & ->).
    apply wp_bind. eapply emit_wp; [done|done|]. intros p1 Hp1. apply wp_bind. eapply print_wp; [done|]. intros p2 Hp2. apply wp_ret.
    rewrite s32_small by lia. replace (Z.of_nat size - 1) with (cnt_of (Show (size - 1))) by (cbn; lia).
    eapply wp_mono; [eapply IH; [|exact Hp2|exact Hr|done]|].
    + cbn. lia.
    + intros _ p3 ->. by rewrite <- app_assoc.
  - rewrite bool_decide_eq_false_2 in Ho by done. destruct (strposn _ _); [done|].
    apply wp_bind. eapply dotik_wp; [done|]. intros p1 Hp1. apply wp_ret. change (-1) with (cnt_of Find). by eapply IH.
Qed.

(** C24. The paginator shows what the user asked for. For any lines, a page of at
    least one line, and any answers at the prompts (one of the keys with a
    meaning, after any keys without, and for a search any keys of a pattern that
    fit its buffer, with backspaces that do not go past its start, where one
    more would cancel the search: [answers_ok]), enough of them for the lines there are, the lines that are
    printed, in order, are those that the page sizes and searches select: a page
    or a line at a time, from the next line with the pattern on, none after the
    user quits; the pattern that is searched for is what the typed keys and
    backspaces leave. *)
Theorem pages_shown (size : nat) (lines : list cstr) (md : mode) (pat : cstr) (answers : list (list Z * answer)) (rest : list Z)
  (sh res : list cstr) (p : pager) (Hs : 1 <= Z.of_nat size < 2 ^ 31) (Hm : mode_ok md) (Ha : answers_ok answers)
  (Hp : paged (keys_of answers ++ rest) pat sh p) (Hr : shown size lines md pat (snd <$> answers) = Some res) :
  wp no_fault (pages lines (cnt_of md) (Z.of_nat size)) (fun _ p' => lines_of (out p') = sh ++ res) p.
Proof.
  revert md pat answers sh res p Hm Ha Hp Hr. induction lines as [|l lines IH]; intros md pat answers sh res p Hm Ha Hp Hr; cbn [pages].
  - injection Hr as <-. apply wp_ret. rewrite app_nil_r. apply Hp.
  - assert (forall answers, answers_ok answers -> forall md pat' ans' res sh' p', mode_ok md -> paged (keys_of answers ++ rest) pat' sh' p' ->
      shown size lines md pat' ans' = Some res -> ans' = snd <$> answers ->
      wp no_fault (pages lines (cnt_of md) (Z.of_nat size)) (fun _ p' => lines_of (out p') = sh' ++ res) p') as IH'
      by (intros; subst; eapply IH; eauto).
    clear IH. apply wp_bind. cbn [shown] in Hr. destruct md as [[|n]|]; unfold more; cbn [cnt_of].
    + rewrite Z.eqb_refl. rewrite (proj2 (Z.eqb_neq (Z.of_nat size) 0)) by lia. apply wp_bind, wp_gets, wp_bind.
      destruct answers as [|[noise a] answers]; [done|]. apply Forall_cons_iff in Ha as [[Hn Hao] Ha].
      unfold keys_of in Hp. cbn [fmap list_fmap concat fst snd] in Hp. rewrite <- app_assoc in Hp. fold (keys_of answers) in Hp.
      cbn [getinps]. apply wp_bind. eapply getinp_wp; [exact Hn|exact Hao|exact Hp|]. intros p1 Hp1. cbn [fmap list_fmap snd] in Hr.
      destruct a; cbn [Z.eqb Pos.eqb]; apply wp_ret; cbn [Z.eqb negb Pos.eqb].
      * rewrite (proj2 (Z.eqb_neq (Z.of_nat size) (-1))) by lia. apply fmap_Some in Hr as (res' & Hr & ->).
        apply wp_bind. eapply print_wp; [done|]. intros p2 Hp2. apply wp_ret. rewrite s32_small by lia.
        replace (Z.of_nat size - 1) with (cnt_of (Show (size - 1))) by (cbn; lia).
        eapply wp_mono; [eapply (IH' answers Ha); [|exact Hp2|exact Hr|done]; cbn; lia|]. intros _ p3 ->. by rewrite <- app_assoc.
      * apply fmap_Some in Hr as (res' & Hr & ->). apply wp_bind. eapply print_wp; [done|]. intros p2 Hp2. apply wp_ret.
        eapply wp_mono; [eapply (IH' answers Ha (Show 0)); [done|exact Hp2|exact Hr|done]|]. intros _ p3 ->. by rewrite <- app_assoc.
      * injection Hr as <-. apply wp_ret, wp_ret. rewrite app_nil_r. apply Hp1.
      * eapply pages_find; [done|exact Hp1|exact (IH' answers Ha)|exact Hr].
      * eapply pages_find; [done|exact Hp1|exact (IH' answers Ha)|exact Hr].
    + rewrite (proj2 (Z.eqb_neq (Z.of_nat (S n)) 0)), (proj2 (Z.eqb_neq (Z.of_nat (S n)) (-1))) by lia. apply fmap_Some in Hr as (res' & Hr & ->).
      apply wp_bind. eapply print_wp; [done|]. intros p2 Hp2. apply wp_ret. cbn in Hm. rewrite s32_small by lia.
      replace (Z.of_nat (S n) - 1) with (cnt_of (Show n)) by (cbn; lia).
      eapply wp_mono; [eapply (IH' answers Ha); [|exact Hp2|exact Hr|done]; cbn; lia|]. intros _ p3 ->. by rewrite <- app_assoc.
    + cbn [Z.eqb]. eapply pages_find; [done|exact Hp|exact (IH' answers Ha)|exact Hr].
Qed.

Definition pager_start (k : list Z) : pager :=
  {| more_pat := replicate 200 0; tik_cnt := 0; more_tik := None; keys := k; out := [] |}.

(** Two lines, a key that means nothing, a line more, and a search. *)
Lemma pages_shown_witness :
  let lines := str <$> ["one"; "two"; "three"; "four"; "fourteen"; "six"]%string in
  wp no_fault (pages lines 2 2) (fun _ p => lines_of (out p) = str <$> ["one"; "two"; "three"; "fourteen"; "six"]%string)
    (pager_start (str "x" ++ [nl] ++ str "/tex" ++ [bs] ++ str "en" ++ [nl])).
Proof.
  intros lines. set (answers := [(str "x", Line); ([], Search (str "tex" ++ [bs] ++ str "en") (str "teen"))]).
  assert (shown 2 lines (Show 2) [] (snd <$> answers) = Some (str <$> ["one"; "two"; "three"; "fourteen"; "six"]%string)) as Hr by (vm_compute; reflexivity).
  assert (answers_ok answers) as Ha.
  { repeat constructor; try (apply (bool_decide_unpack _); reflexivity); cbn; lia. }
  assert (paged (keys_of answers ++ []) [] [] (pager_start (str "x" ++ [nl] ++ str "/tex" ++ [bs] ++ str "en" ++ [nl]))) as Hp by (split; vm_compute; reflexivity).
  exact (pages_shown 2 lines (Show 2) [] answers [] [] _ _ ltac:(lia) ltac:(cbn; lia) Ha Hp Hr).
Defined.
