(* ===== verification/Memtst.v ===== *)
(** * Memtst: the memory test

    [src/pmon/memtst.c]: a walking one through every word, then every word holding
    its own address. The memory under test may be broken, so it is an interface:
    a store and a load of a word, which change the memory in any way. *)

From S2P Require Import Prelude CString Env Expr Memory Tunables Symtab Comp Pager.

(** The memory that is tested. *)
Class Words (B : Type) : Type := {
  put_word : Z -> Z -> B -> B;
  get_word : Z -> B -> Z
}.

Record mt (B : Type) : Type := { mt_mem : B; mt_out : pager }.
Arguments Build_mt {B}.
Arguments mt_mem {B} _.
Arguments mt_out {B} _.

Section Memtst.
Context {B : Type} {WB : Words B}.
Abbreviation MT := (M (mt B)).

Definition store (p v : Z) : MT unit := modify (fun s => Build_mt (put_word p v (mt_mem s)) (mt_out s)).
Definition load (p : Z) : MT Z := gets (fun s => u32 (get_word p (mt_mem s))).
Definition on_out {A} (m : M pager A) : MT A := fun s =>
  match m (mt_out s) with Ok (a, o) => Ok (a, Build_mt (mt_mem s) o) | Err f => Err f end.
Definition mt_print (fmt : string) (args : list arg) : MT unit := on_out (emit (Printf fmt args)).

(** A word that must read as [w]: the errors so far, and one more.
    [src/pmon/memtst.c:92-97] *)
Definition check (fmt : string) (p w err : Z) : MT Z :=
  load p ≫= fun r =>
  if negb (r =? w) then mt_print fmt [AInt p; AInt r; AInt w] ≫= fun _ => mret (s32 (err + 1)) else mret err.

(** [src/pmon/memtst.c:89-100] *)
Fixpoint walk_bits (n : nat) (p w err : Z) : MT Z :=
  match n with
  | O => mret err
  | S n' =>
    store p w ≫= fun _ =>
    check "\b\nerror: addr=%08x read=%08x expected=%08x  " p w err ≫= fun err =>
    on_out (dotik 1 false) ≫= fun _ =>
    walk_bits n' p (u32 (Z.shiftl w 1)) err
  end.

(** [src/pmon/memtst.c:87-101] *)
Fixpoint walk_words (n : nat) (p err : Z) : MT Z :=
  match n with
  | O => mret err
  | S n' => walk_bits 32 p 1 err ≫= fun err => walk_words n' (u32 (p + 4)) err
  end.

(** [src/pmon/memtst.c:104-107] *)
Fixpoint store_adrs (n : nat) (p : Z) : MT unit :=
  match n with
  | O => mret tt
  | S n' => store p p ≫= fun _ => on_out (dotik 1 false) ≫= fun _ => store_adrs n' (u32 (p + 4))
  end.

(** [src/pmon/memtst.c:110-117] *)
Fixpoint check_adrs (n : nat) (p err : Z) : MT Z :=
  match n with
  | O => mret err
  | S n' =>
    check "\b\nerror: adr=%08x read=%08x expected=%08x  " p p err ≫= fun err =>
    on_out (dotik 1 false) ≫= fun _ => check_adrs n' (u32 (p + 4)) err
  end.

(** The words of a size, which is signed here.
    [src/pmon/memtst.c:87-87] *)
Definition words (siz : Z) : nat := Z.to_nat ((s32 siz + 3) / 4).

(** [src/pmon/memtst.c:77-119] *)
Definition domt (adr siz : Z) : MT Z :=
  walk_words (words siz) adr 0 ≫= fun err =>
  store_adrs (words siz) adr ≫= fun _ =>
  check_adrs (words siz) adr err.

(** With [-c] the test goes on until it finds an error.
    [src/pmon/memtst.c:64-65] *)
Fixpoint domt_loop (fuel : nat) (adr siz : Z) : MT Z :=
  match fuel with
  | O => fail OutOfFuel
  | S f => domt adr siz ≫= fun err => if err =? 0 then domt_loop f adr siz else mret err
  end.

(** [src/include/mips.h:197-199] *)
Definition PHYS_TO_K1 (pa : Z) : Z := Z.lor (u32 pa) 0xa0000000.
Definition K1_TO_PHYS (va : Z) : Z := Z.land (u32 va) 0x1fffffff.

(** The options and numbers of the command: -c, and the addresses, or a bad option
    or argument.
    [src/pmon/memtst.c:24-53] *)
Section Args.
Variable rsa : cstr -> option Z.

Fixpoint option_c (s : cstr) (cflag : bool) : Z + bool :=
  match s with
  | [] => inr cflag
  | c :: s' => if c =? ch "c" then option_c s' true else inl c
  end.

Fixpoint mt_args (av : list cstr) (cnt : nat) (cflag : bool) (adr siz : Z) : trace + (bool * Z * Z) :=
  match av with
  | [] => inr (cflag, adr, siz)
  | a :: av' =>
    if at_ a 0 =? ch "-" then
      match option_c (drop 1 a) cflag with
      | inl c => inl [Printf "%c: bad option\n" [AInt c]]
      | inr cflag => mt_args av' cnt cflag adr siz
      end
    else
      match cnt with
      | O => match rsa a with None => inl [] | Some v => mt_args av' 1 cflag adr v end
      | S O => match rsa a with None => inl [] | Some v => mt_args av' 2 cflag siz v end
      | _ => inl [Printf "%s: Unknown argument\n" [AStr (Some a)]]
      end
  end.
End Args.

(** [rsa] is [get_rsa], [cbreak] the change of the terminal.
    [src/pmon/memtst.c:12-75] *)
Definition memtst (rsa : cstr -> option Z) (cbreak : M pager unit) (memorysize : Z) (fuel : nat) (av : list cstr) : MT Z :=
  let adr := PHYS_TO_K1 (K0_TO_PHYS CLIENTPC) in
  match mt_args rsa av 0 false adr (u32 (memorysize - K1_TO_PHYS adr)) with
  | inl msg => on_out (for_each msg emit) ≫= fun _ => mret (-1)
  | inr (cflag, adr, siz) =>
    let adr := Z.land adr (Z.lnot 3) in
    let siz := Z.land siz (Z.lnot 3) in
    on_out cbreak ≫= fun _ =>
    mt_print "Testing %08x to %08x %s\n" [AInt adr; AInt (u32 (adr + siz)); AStr (Some (if cflag then str "continuous" else []))] ≫= fun _ =>
    mt_print "Memory test running..  " [] ≫= fun _ =>
    (if cflag then domt_loop fuel adr siz else domt adr siz) ≫= fun err =>
    if negb (err =? 0) then mt_print "\b\nThere were %d errors.\n" [AInt err] ≫= fun _ => mret 1
    else mt_print "\b\nTest passed with no errors.\n" [] ≫= fun _ => mret 0
  end.
End Memtst.
