(* ===== verification/MemtstOk.v ===== *)
(** * MemtstOk: what the memory test finds

    A memory with faults: bits that are stuck, data lines that are joined, and
    addresses that reach the same cell. The test finds an error exactly when there
    is one in its range. *)

From S2P Require Import Prelude CString Comp Pager Memtst.

(** ** Faults

    A bit that is read: constant, or the disjunction or conjunction of some of the
    bits that were written. *)
Inductive wire : Type :=
| Stuck (b : bool)
| Wired_or (l : list nat)
| Wired_and (l : list nat).

Definition bit (v : Z) (i : nat) : bool := Z.testbit v (Z.of_nat i).

Definition wire_value (w : wire) (v : Z) : bool :=
  match w with
  | Stuck b => b
  | Wired_or l => existsb (bit v) l
  | Wired_and l => forallb (bit v) l
  end.

(** A word of bits. *)
Definition word_of (f : nat -> bool) : Z := foldr (fun i acc => acc + (if f i then 2 ^ Z.of_nat i else 0)) 0 (seq 0 32).

Lemma words_of n : 4 * Z.of_nat n < 2 ^ 31 -> words (4 * Z.of_nat n) = n.
Proof. intros Hn. unfold words. rewrite s32_small by lia. replace ((4 * Z.of_nat n + 3) / 4) with (Z.of_nat n) by (Z.to_euclidean_division_equations; lia). lia. Qed.

Section Faults.
(** The cell an address reaches, and the wires of a cell. *)
Context (cell : Z -> Z) (wires : Z -> nat -> wire).

Definition read_back (c v : Z) : Z := word_of (fun i => wire_value (wires c i) v).

#[local] Instance FaultyWords : Words (Z -> Z) := {
  put_word p v b := upd b (cell p) v;
  get_word p b := read_back (cell p) (b (cell p))
}.

(** The words of a range read back what is written, and are words of their own. *)
Definition address (adr : Z) (i : nat) : Z := adr + 4 * Z.of_nat i.
Definition works (adr : Z) (n : nat) : Prop :=
  (forall i v, (i < n)%nat -> 0 <= v < 2 ^ 32 -> read_back (cell (address adr i)) v = v) /\
  (forall i j, (i < n)%nat -> (j < n)%nat -> cell (address adr i) = cell (address adr j) -> i = j).

(** ** Words and bits *)

Lemma word_of_bits_aux f k l : Forall (fun i => (i < k)%nat) l -> NoDup l ->
  0 <= foldr (fun i acc => acc + (if f i : bool then 2 ^ Z.of_nat i else 0)) 0 l /\
  forall i, Z.testbit (foldr (fun i acc => acc + (if f i : bool then 2 ^ Z.of_nat i else 0)) 0 l) (Z.of_nat i) = bool_decide (i ∈ l) && f i.
Proof.
  intros Hk. induction l as [|x l IH]; intros Hd; cbn [foldr].
  - split; [lia|]. intros i. by rewrite Z.bits_0, bool_decide_eq_false_2 by apply not_elem_of_nil.
  - apply Forall_cons_iff in Hk as [Hx Hk]. inversion Hd as [|? ? Hxl Hd']; subst. destruct (IH Hk Hd') as [H0 Hb]. clear IH.
    set (acc := foldr _ 0 l) in *. clearbody acc. destruct (f x) eqn:Ef.
    + assert (Z.land acc (2 ^ Z.of_nat x) = 0) as Hl.
      { apply Z.bits_inj'. intros n Hn. rewrite Z.land_spec, Z.bits_0, Z.pow2_bits_eqb by lia. destruct (Z.eqb_spec (Z.of_nat x) n) as [<-|]; [|apply andb_false_r].
        by rewrite Hb, bool_decide_eq_false_2. }
      rewrite Z.add_nocarry_lor by done. split; [apply Z.lor_nonneg; lia|]. intros i. rewrite Z.lor_spec, Hb, Z.pow2_bits_eqb by lia.
      destruct (Z.eqb_spec (Z.of_nat x) (Z.of_nat i)) as [E|E].
      * assert (i = x) as -> by lia. by rewrite orb_true_r, Ef, bool_decide_eq_true_2 by left.
      * rewrite orb_false_r. f_equal. apply bool_decide_ext. rewrite elem_of_cons. split; [by right|]. intros [->|]; [lia|done].
    + rewrite Z.add_0_r. split; [done|]. intros i. rewrite Hb. destruct (Nat.eq_dec i x) as [->|Hne]; [by rewrite Ef, !andb_false_r|].
      f_equal. apply bool_decide_ext. rewrite elem_of_cons. split; [by right|]. intros [->|]; done.
Qed.

Lemma word_of_bits f : 0 <= word_of f /\ forall i, bit (word_of f) i = (i <? 32)%nat && f i.
Proof.
  destruct (word_of_bits_aux f 32 (seq 0 32)) as [H0 Hb]; [apply List.Forall_forall; intros i Hi; apply in_seq in Hi; lia|apply NoDup_seq|].
  split; [exact H0|]. intros i. unfold bit, word_of. rewrite Hb. f_equal. destruct (Nat.ltb_spec i 32).
  - apply bool_decide_eq_true. apply elem_of_seq. lia.
  - apply bool_decide_eq_false. intros ?%elem_of_seq. lia.
Qed.

(** A word is the word of its bits. *)
Lemma word_of_id f v : 0 <= v < 2 ^ 32 -> (forall i, (i < 32)%nat -> f i = bit v i) <-> word_of f = v.
Proof.
  intros Hv. destruct (word_of_bits f) as [H0 Hb]. split.
  - intros H. apply Z.bits_inj'. intros n Hn. specialize (Hb (Z.to_nat n)). unfold bit in Hb. rewrite Z2Nat.id in Hb by done. rewrite Hb.
    destruct (Nat.ltb_spec (Z.to_nat n) 32) as [Hl|Hl]; cbn [andb].
    + rewrite H by done. unfold bit. by rewrite Z2Nat.id.
    + destruct (Z.eq_dec v 0) as [->|]; [by rewrite Z.bits_0|]. symmetry. apply Z.bits_above_log2; [lia|].
      apply Z.lt_le_trans with 32; [apply Z.log2_lt_pow2; lia|lia].
  - intros <- i Hi. by rewrite Hb, (proj2 (Nat.ltb_lt _ _) Hi).
Qed.

Lemma word_of_range f : 0 <= word_of f < 2 ^ 32.
Proof.
  destruct (word_of_bits f) as [H0 Hb]. split; [exact H0|]. generalize dependent (word_of f). intros x H0 Hb.
  destruct (Z.eq_dec x 0) as [->|]; [done|]. apply Z.log2_lt_pow2; [lia|].
  destruct (Z.lt_ge_cases (Z.log2 x) 32) as [|Hge]; [done|]. exfalso. pose proof (Z.bit_log2 x ltac:(lia)) as Hl.
  specialize (Hb (Z.to_nat (Z.log2 x))). unfold bit in Hb. rewrite Z2Nat.id, Hl in Hb by (apply Z.log2_nonneg).
  destruct (Nat.ltb_spec (Z.to_nat (Z.log2 x)) 32); [lia|discriminate Hb].
Qed.

Lemma read_back_range c v : 0 <= read_back c v < 2 ^ 32.
Proof. exact (word_of_range (fun i => wire_value (wires c i) v)). Qed.

Lemma read_back_id c v : 0 <= v < 2 ^ 32 -> (forall i, (i < 32)%nat -> wire_value (wires c i) v = bit v i) <-> read_back c v = v.
Proof. exact (word_of_id (fun i => wire_value (wires c i) v) v). Qed.

(** Walking a one through a cell shows whether any of its wires is wrong. *)
Lemma walking_one c : (forall k, (k < 32)%nat -> read_back c (2 ^ Z.of_nat k) = 2 ^ Z.of_nat k) <->
  (forall v, 0 <= v < 2 ^ 32 -> read_back c v = v).
Proof.
  split; intros H.
  - assert (forall i k, (i < 32)%nat -> (k < 32)%nat -> wire_value (wires c i) (2 ^ Z.of_nat k) = (k =? i)%nat) as Hw.
    { intros i k Hi Hk. assert (0 <= 2 ^ Z.of_nat k < 2 ^ 32) as Hr by (split; [apply Z.pow_nonneg; lia|apply Z.pow_lt_mono_r; lia]).
      rewrite (proj2 (read_back_id c _ Hr) (H k Hk) i Hi). unfold bit. rewrite Z.pow2_bits_eqb by lia.
      destruct (Nat.eqb_spec k i), (Z.eqb_spec (Z.of_nat k) (Z.of_nat i)); done || lia. }
    intros v Hv. apply (read_back_id c v Hv). intros i Hi.
    assert (forall k j, (k < 32)%nat -> bit (2 ^ Z.of_nat k) j = (k =? j)%nat) as Hp.
    { intros k j _. unfold bit. rewrite Z.pow2_bits_eqb by lia. destruct (Nat.eqb_spec k j), (Z.eqb_spec (Z.of_nat k) (Z.of_nat j)); done || lia. }
    specialize (Hw i). destruct (wires c i) as [b|l|l]; cbn [wire_value] in *.
    + pose proof (Hw i Hi Hi) as H1. rewrite Nat.eqb_refl in H1. subst b. exfalso.
      destruct (Nat.eq_dec i 0%nat) as [->|Hne]; [discriminate (Hw 1%nat ltac:(lia) ltac:(lia))|].
      specialize (Hw 0%nat Hi ltac:(lia)). destruct i; [done|discriminate Hw].
    + apply eq_true_iff_eq. rewrite existsb_exists. split.
      * intros (j & Hj & Hbj). assert (j < 32)%nat as Hj32.
        { destruct (Nat.lt_ge_cases j 32) as [|Hge]; [done|]. exfalso. unfold bit in Hbj. destruct (Z.eq_dec v 0) as [->|]; [by rewrite Z.bits_0 in Hbj|].
          rewrite Z.bits_above_log2 in Hbj; [done|lia|]. apply Z.lt_le_trans with 32; [apply Z.log2_lt_pow2; lia|lia]. }
        specialize (Hw j Hi Hj32). assert (existsb (bit (2 ^ Z.of_nat j)) l = true) as E by (apply existsb_exists; exists j; rewrite Hp, Nat.eqb_refl by done; done).
        rewrite E in Hw. symmetry in Hw. by apply Nat.eqb_eq in Hw as ->.
      * intros Hb. specialize (Hw i Hi Hi). rewrite Nat.eqb_refl in Hw. apply existsb_exists in Hw as (j & Hj & Hbj).
        rewrite Hp in Hbj by done. apply Nat.eqb_eq in Hbj as <-. by exists i.
    + pose proof (Hw i Hi Hi) as H1. rewrite Nat.eqb_refl in H1. rewrite forallb_forall in H1.
      assert (forall j, In j l -> j = i) as Hall by (intros j Hj; specialize (H1 j Hj); rewrite Hp in H1 by done; by apply Nat.eqb_eq in H1).
      destruct l as [|j l].
      { exfalso. destruct (Nat.eq_dec i 0%nat) as [->|Hne]; [discriminate (Hw 1%nat ltac:(lia) ltac:(lia))|].
        specialize (Hw 0%nat Hi ltac:(lia)). destruct i; [done|discriminate Hw]. }
      apply eq_true_iff_eq. rewrite forallb_forall. split; [intros Hf; specialize (Hf j (or_introl eq_refl)); by rewrite (Hall j (or_introl eq_refl)) in Hf|].
      intros Hb x Hx. by rewrite (Hall x Hx).
  - intros k Hk. apply H. split; [apply Z.pow_nonneg; lia|apply Z.pow_lt_mono_r; lia].
Qed.

#[local] Opaque read_back word_of.

(** ** The loops of the test *)

Abbreviation ST := (mt (Z -> Z)).

Lemma emit_ok ev o : exists o', emit ev o = Ok (tt, o').
Proof. by eexists. Qed.

Lemma dotik_ok rate b o : exists o', dotik rate b o = Ok (tt, o').
Proof. unfold dotik, mbind, M_bind, gets, modify, emit. destruct (0 <? _); by eexists. Qed.

Lemma on_out_wp {A} (m : M pager A) a (Q : A -> ST -> Prop) s : (forall o, exists o', m o = Ok (a, o')) ->
  (forall o, Q a (Build_mt (mt_mem s) o)) -> wp no_fault (on_out m) Q s.
Proof. intros Hm HQ. unfold wp, on_out. destruct (Hm (mt_out s)) as [o' ->]. apply HQ. Qed.

(** A check counts the words that are wrong. *)
Lemma check_wp fmt p w err (Q : Z -> ST -> Prop) s : 0 <= err < 2 ^ 31 - 1 -> 0 <= read_back (cell p) (mt_mem s (cell p)) < 2 ^ 32 ->
  (forall o, Q (if read_back (cell p) (mt_mem s (cell p)) =? w then err else err + 1) (Build_mt (mt_mem s) o)) ->
  wp no_fault (check fmt p w err) Q s.
Proof.
  intros He Hr HQ. unfold check, load. apply wp_bind, wp_gets. cbn [get_word FaultyWords]. rewrite u32_small by done.
  destruct (_ =? w); cbn [negb].
  - apply wp_ret. destruct s. apply HQ.
  - apply wp_bind. unfold mt_print. apply on_out_wp with tt; [intros; apply emit_ok|]. intros o. apply wp_ret. rewrite s32_small by lia. apply HQ.
Qed.

(** The errors grow, unless all is right. *)
Definition counted (err err' n : Z) (good : Prop) : Prop := err <= err' <= err + n /\ (err' = err <-> good).

Lemma counted_zero err (P : Prop) : P -> counted err err 0 P.
Proof. unfold counted. intros H. split; [lia|done]. Qed.

Lemma counted_trans a b c m n (P Q R : Prop) : counted a b m P -> counted b c n Q -> (R <-> P /\ Q) -> counted a c (m + n) R.
Proof. intros [H1 E1] [H2 E2] HR. split; [lia|]. rewrite HR, <- E1, <- E2. lia. Qed.

Lemma counted_check err (r w : Z) : counted err (if r =? w then err else err + 1) 1 (r = w).
Proof. unfold counted. case_bool; lia. Qed.

Lemma counted_iff a b n (P Q : Prop) : (P <-> Q) -> counted a b n P -> counted a b n Q.
Proof. unfold counted. intros H [? ?]. split; [done|]. by rewrite <- H. Qed.

Lemma walk_bits_wp n k p err (Q : Z -> ST -> Prop) s : (k + n <= 32)%nat -> 0 <= err -> err + Z.of_nat n < 2 ^ 31 ->
  (forall err' s', counted err err' (Z.of_nat n) (forall j, (k <= j < k + n)%nat -> read_back (cell p) (2 ^ Z.of_nat j) = 2 ^ Z.of_nat j) -> Q err' s') ->
  wp no_fault (walk_bits n p (u32 (2 ^ Z.of_nat k)) err) Q s.
Proof.
  revert k err s. induction n as [|n IH]; intros k err s Hk H0 He HQ; cbn [walk_bits].
  - apply wp_ret, HQ, counted_zero. intros j Hj. lia.
  - assert (u32 (2 ^ Z.of_nat k) = 2 ^ Z.of_nat k) as Ek.
    { apply wrapu_small. split; [apply Z.pow_nonneg; lia|apply Z.pow_lt_mono_r; lia]. }
    assert (u32 (Z.shiftl (2 ^ Z.of_nat k) 1) = u32 (2 ^ Z.of_nat (S k))) as Es.
    { rewrite Z.shiftl_mul_pow2 by lia. rewrite Nat2Z.inj_succ, Z.pow_succ_r by lia. f_equal. lia. }
    rewrite Ek. apply wp_bind, wp_modify. cbn [put_word FaultyWords]. apply wp_bind. apply check_wp; [lia|apply read_back_range|].
    intros o. cbn [mt_mem]. rewrite upd_eq. apply wp_bind. apply on_out_wp with tt; [intros; apply dotik_ok|]. intros o'.
    pose proof (counted_check err (read_back (cell p) (2 ^ Z.of_nat k)) (2 ^ Z.of_nat k)) as Hc. set (err1 := if _ =? _ then _ else _) in *.
    rewrite Es. apply IH; [lia|unfold counted in Hc; lia|unfold counted in Hc; lia|]. intros err' s' Hc'. apply HQ.
    replace (Z.of_nat (S n)) with (1 + Z.of_nat n) by lia. eapply counted_trans; [exact Hc|exact Hc'|]. split.
    + intros H. split; [apply H; lia|]. intros j Hj. apply H. lia.
    + intros [H1 H2] j Hj. destruct (Nat.eq_dec j k) as [->|]; [done|]. apply H2. lia.
Qed.

Lemma address_succ adr i : address adr (S i) = address (adr + 4) i.
Proof. unfold address. lia. Qed.

Lemma walk_words_wp n p err (Q : Z -> ST -> Prop) s : 0 <= p -> p + 4 * Z.of_nat n <= 2 ^ 32 -> 0 <= err -> err + 32 * Z.of_nat n < 2 ^ 31 ->
  (forall err' s', counted err err' (32 * Z.of_nat n) (forall i v, (i < n)%nat -> 0 <= v < 2 ^ 32 -> read_back (cell (address p i)) v = v) -> Q err' s') ->
  wp no_fault (walk_words n p err) Q s.
Proof.
  revert p err s. induction n as [|n IH]; intros p err s Hp Hn H0 He HQ; cbn [walk_words].
  - apply wp_ret, HQ, counted_zero. intros i v Hi. lia.
  - apply wp_bind. change 1 with (u32 (2 ^ Z.of_nat 0)) at 1. apply walk_bits_wp; [lia|lia|lia|]. intros err1 s1 Hc.
    assert (counted err err1 32 (forall v, 0 <= v < 2 ^ 32 -> read_back (cell (address p 0)) v = v)) as Hc1.
    { eapply counted_iff; [|exact Hc]. unfold address. rewrite Z.add_0_r. rewrite <- walking_one. split; intros H k Hk; apply H; lia. }
    clear Hc. assert (u32 (p + 4) = p + 4 \/ n = 0%nat) as Hu by (destruct n; [by right|left; apply u32_small; lia]).
    destruct Hu as [->| ->].
    + apply IH; [lia|lia|unfold counted in Hc1; lia|unfold counted in Hc1; lia|]. intros err' s' Hc'. apply HQ.
      replace (32 * Z.of_nat (S n)) with (32 + 32 * Z.of_nat n) by lia. eapply counted_trans; [exact Hc1|exact Hc'|]. split.
      * intros H. split; [intros v Hv; apply H; [lia|done]|]. intros i v Hi Hv. rewrite <- address_succ. apply H; [lia|done].
      * intros [H1 H2] [|i] v Hi Hv; [by apply H1|]. rewrite address_succ. apply H2; [lia|done].
    + cbn [walk_words]. apply wp_ret, HQ. change (32 * Z.of_nat 1) with (32 + 0). eapply counted_trans; [exact Hc1|by apply (counted_zero err1 True)|]. split.
      * intros H. split; [|done]. intros v Hv. apply H; [lia|done].
      * intros [H1 _] [|i] v Hi Hv; [by apply H1|lia].
Qed.

(** Which address a cell holds after the addresses were stored: the last of those that reach it. *)
Definition holds_last (mem : Z -> Z) (p : Z) (n i : nat) : Prop :=
  exists m, (m < n)%nat /\ cell (address p m) = cell (address p i) /\ mem (cell (address p i)) = address p m /\
  forall j, (j < n)%nat -> cell (address p j) = cell (address p i) -> (j <= m)%nat.

Lemma holds_last_succ mem p n i : holds_last mem (p + 4) n i -> holds_last mem p (S n) (S i).
Proof.
  intros (m & Hm & Ec & Em & Hl). exists (S m). rewrite !address_succ. repeat split; [lia|done|done|].
  intros [|j] Hj Hc; [lia|]. rewrite address_succ in Hc. specialize (Hl j ltac:(lia) Hc). lia.
Qed.

Lemma holds_last_first mem p n : (forall i, (i < n)%nat -> holds_last mem (p + 4) n i) ->
  ((forall i, (i < n)%nat -> cell (address (p + 4) i) <> cell p) -> mem (cell p) = p) -> holds_last mem p (S n) 0.
Proof.
  intros Hh H0. assert (address p 0 = p) as Ea by (unfold address; lia).
  destruct (decide (Exists (fun i => cell (address (p + 4) i) = cell p) (seq 0 n))) as [He|He].
  - apply List.Exists_exists in He as (i & Hi & Hc). apply in_seq in Hi. destruct (Hh i ltac:(lia)) as (m & Hm & Ec & Em & Hl).
    exists (S m). rewrite Ea, address_succ, <- Hc. repeat split; [lia|done|done|].
    intros [|j] Hj Hcj; [lia|]. rewrite address_succ in Hcj. specialize (Hl j ltac:(lia) Hcj). lia.
  - assert (forall i, (i < n)%nat -> cell (address (p + 4) i) <> cell p) as Hne.
    { intros i Hi Hc. apply He, List.Exists_exists. exists i. split; [apply in_seq; lia|done]. }
    exists 0%nat. rewrite Ea. repeat split; [lia|by apply H0|]. intros [|j] Hj Hc; [lia|]. rewrite address_succ in Hc. by destruct (Hne j ltac:(lia)).
Qed.

Lemma store_adrs_wp n p (Q : unit -> ST -> Prop) s : 0 <= p -> p + 4 * Z.of_nat n <= 2 ^ 32 ->
  (forall s', (forall i, (i < n)%nat -> holds_last (mt_mem s') p n i) ->
    (forall c, (forall i, (i < n)%nat -> cell (address p i) <> c) -> mt_mem s' c = mt_mem s c) -> Q tt s') ->
  wp no_fault (store_adrs n p) Q s.
Proof.
  revert p s. induction n as [|n IH]; intros p s Hp Hn HQ; cbn [store_adrs].
  - apply wp_ret, HQ; [intros; lia|done].
  - apply wp_bind, wp_modify. cbn [put_word FaultyWords]. apply wp_bind. apply on_out_wp with tt; [intros; apply dotik_ok|]. intros o. cbn [mt_mem].
    assert (forall s', (forall i, (i < n)%nat -> holds_last (mt_mem s') (p + 4) n i) ->
      (forall c, (forall i, (i < n)%nat -> cell (address (p + 4) i) <> c) -> mt_mem s' c = upd (mt_mem s) (cell p) p c) -> Q tt s') as Hdone.
    { intros s' Hh Hu. apply HQ.
      - intros [|i] Hi; [|apply holds_last_succ, Hh; lia]. apply holds_last_first; [done|]. intros Hne. by rewrite Hu, upd_eq.
      - intros c Hc. rewrite Hu by (intros i Hi; rewrite <- address_succ; apply Hc; lia). apply upd_ne.
        specialize (Hc 0%nat ltac:(lia)). unfold address in Hc. rewrite Z.add_0_r in Hc. done. }
    destruct n as [|n]; [apply wp_ret, Hdone; [intros; lia|done]|].
    rewrite u32_small by lia. apply IH; [lia|lia|]. exact Hdone.
Qed.

Lemma check_adrs_wp n p err (Q : Z -> ST -> Prop) s : 0 <= p -> p + 4 * Z.of_nat n <= 2 ^ 32 -> 0 <= err -> err + Z.of_nat n < 2 ^ 31 ->
  (forall err' s', counted err err' (Z.of_nat n) (forall i, (i < n)%nat -> read_back (cell (address p i)) (mt_mem s (cell (address p i))) = address p i) -> Q err' s') ->
  wp no_fault (check_adrs n p err) Q s.
Proof.
  revert p err s. induction n as [|n IH]; intros p err s Hp Hn H0 He HQ; cbn [check_adrs].
  - apply wp_ret, HQ, counted_zero. intros i Hi. lia.
  - apply wp_bind. apply check_wp; [lia|apply read_back_range|]. intros o. apply wp_bind. apply on_out_wp with tt; [intros; apply dotik_ok|]. intros o'. cbn [mt_mem].
    pose proof (counted_check err (read_back (cell p) (mt_mem s (cell p))) p) as Hc. set (err1 := if _ =? _ then _ else _) in *. clearbody err1.
    assert (address p 0 = p) as Ea by (unfold address; lia).
    assert (forall err' s', counted err1 err' (Z.of_nat n) (forall i, (i < n)%nat -> read_back (cell (address (p + 4) i)) (mt_mem s (cell (address (p + 4) i))) = address (p + 4) i) -> Q err' s') as Hdone.
    { intros err' s' Hc'. apply HQ. replace (Z.of_nat (S n)) with (1 + Z.of_nat n) by lia. eapply counted_trans; [exact Hc|exact Hc'|]. split.
      - intros H. split; [specialize (H 0%nat ltac:(lia)); by rewrite Ea in H|]. intros i Hi. rewrite <- address_succ. apply H. lia.
      - intros [H1 H2] [|i] Hi; [by rewrite Ea|]. rewrite address_succ. apply H2. lia. }
    unfold counted in Hc. destruct n as [|n]; [apply wp_ret, Hdone, counted_zero; intros; lia|].
    rewrite u32_small by lia. apply IH; [lia|lia|lia|lia|]. exact Hdone.
Qed.

(** ** The test *)

(** Cells that read back what is written each hold their own address exactly when no two addresses share one. *)
Lemma own_addresses mem p n : (forall i v, (i < n)%nat -> 0 <= v < 2 ^ 32 -> read_back (cell (address p i)) v = v) -> 0 <= p -> p + 4 * Z.of_nat n <= 2 ^ 32 ->
  (forall i, (i < n)%nat -> holds_last mem p n i) ->
  (forall i, (i < n)%nat -> read_back (cell (address p i)) (mem (cell (address p i))) = address p i) <->
  (forall i j, (i < n)%nat -> (j < n)%nat -> cell (address p i) = cell (address p j) -> i = j).
Proof.
  intros Hr Hp Hn Hh. assert (forall i, (i < n)%nat -> 0 <= address p i < 2 ^ 32) as Ha by (unfold address; lia).
  assert (forall i j, (i < n)%nat -> (j < n)%nat -> address p i = address p j -> i = j) as Hinj by (unfold address; lia).
  split.
  - intros Hown i j Hi Hj Hc. destruct (Hh i Hi) as (m & Hm & Ec & Em & Hl).
    assert (m = i) as -> by (apply Hinj; [done|done|]; rewrite <- (Hown i Hi), Em; symmetry; apply Hr; auto).
    destruct (Hh j Hj) as (m & Hm' & Ec' & Em' & Hl').
    assert (m = j) as -> by (apply Hinj; [done|done|]; rewrite <- (Hown j Hj), Em'; symmetry; apply Hr; auto).
    specialize (Hl j Hj (eq_sym Hc)). specialize (Hl' i Hi Hc). lia.
  - intros Hd i Hi. destruct (Hh i Hi) as (m & Hm & Ec & -> & _). rewrite Hr by auto. by rewrite (Hd m i Hm Hi Ec).
Qed.
End Faults.

(** C36. The memory test is exact. In a memory whose bits may be stuck, whose data
    lines may be joined as ORs and ANDs, and whose addresses may reach the same
    cell, the test of a range of at most 2^25 words (128 MB) counts no error
    exactly when every word of the range reads back whatever is written and no two
    words share a cell; it counts at most 33 errors a word. Faults that depend on
    time or on the neighbouring cells are not in this model of a memory. *)
Theorem memtst_exact (cell : Z -> Z) (wires : Z -> nat -> wire) (adr : Z) (n : nat) (s : mt (Z -> Z)) :
  0 <= adr -> adr + 4 * Z.of_nat n <= 2 ^ 32 -> Z.of_nat n < 2 ^ 25 ->
  wp no_fault (@domt _ (FaultyWords cell wires) adr (4 * Z.of_nat n))
    (fun err _ => 0 <= err <= 33 * Z.of_nat n /\ (err = 0 <-> works cell wires adr n)) s.
Proof.
  intros Ha Hn Hs. assert (33 * Z.of_nat n < 2 ^ 31) as H31 by (change (2 ^ 31) with 2147483648; change (2 ^ 25) with 33554432 in Hs; lia).
  unfold domt. rewrite words_of by lia.
  apply wp_bind, walk_words_wp; [lia|lia|lia|lia|]. intros err1 s1 Hc1.
  apply wp_bind, store_adrs_wp; [lia|lia|]. intros s2 Hh _.
  unfold counted in Hc1. apply check_adrs_wp; [lia|lia|lia|lia|]. intros err s3 [Hb Hc]. split; [lia|].
  unfold works. destruct Hc1 as [Hb1 Hc1]. split.
  - intros ->. assert (err1 = 0) as E by lia. subst. destruct Hc1 as [Hr _]. specialize (Hr eq_refl). split; [exact Hr|].
    apply (own_addresses _ _ _ _ _ Hr Ha Hn Hh), Hc. done.
  - intros [Hr Hd]. apply Hc1 in Hr as E. subst err1. apply Hc. by apply (own_addresses _ _ _ _ _ Hr Ha Hn Hh).
Qed.

(** Two words on good wires. *)
Lemma memtst_exact_witness : exists s,
  0 <= 0xa0020000 /\ 0xa0020000 + 4 * Z.of_nat 2 <= 2 ^ 32 /\ Z.of_nat 2 < 2 ^ 25 /\
  wp no_fault (@domt _ (FaultyWords (fun p => p) (fun _ i => Wired_or [i])) 0xa0020000 (4 * Z.of_nat 2))
    (fun err _ => 0 <= err <= 33 * Z.of_nat 2 /\ (err = 0 <-> works (fun p => p) (fun _ i => Wired_or [i]) 0xa0020000 2)) s.
Proof.
  exists (Build_mt (fun _ => 0) (Build_pager [] 0 None [] [])). split; [done|]. split; [done|]. split; [done|].
  apply memtst_exact; done.
Defined.
