(* ===== verification/Ttymode.v ===== *)
(** * Ttymode: the settings of a terminal

    The flags of [src/include/termio.h], and from [src/pmon/stty.c] the encoding of
    baud rates and the compact mode strings ([9600,8N1]). *)

From S2P Require Import Prelude CString Numconv.

(** ** Settings *)

(** [src/include/termio.h:26] *)
Definition ISTRIP : Z := 0x0020.
(** [src/include/termio.h:27] *)
Definition ICRNL : Z := 0x0040.
(** [src/include/termio.h:28] *)
Definition IXON : Z := 0x0400.
(** [src/include/termio.h:29] *)
Definition IXANY : Z := 0x0800.
(** [src/include/termio.h:30] *)
Definition IXOFF : Z := 0x1000.
(** [src/include/termio.h:31] *)
Definition ICTS_OFLOW : Z := 0x2000.
(** [src/include/termio.h:32] *)
Definition IRTS_IFLOW : Z := 0x4000.
(** [src/include/termio.h:35] *)
Definition ONLCR : Z := 0x0004.
(** [src/include/termio.h:38] *)
Definition ISIG : Z := 0x0001.
(** [src/include/termio.h:39] *)
Definition ICANON : Z := 0x0002.
(** [src/include/termio.h:40] *)
Definition ECHO : Z := 0x0008.
(** [src/include/termio.h:41] *)
Definition ECHOE : Z := 0x0010.
(** [src/include/termio.h:46] *)
Definition CSIZE : Z := 0x0300.
(** [src/include/termio.h:47] *)
Definition CS8 : Z := 0x0000.
(** [src/include/termio.h:48] *)
Definition CS7 : Z := 0x0100.
(** [src/include/termio.h:49] *)
Definition CS6 : Z := 0x0200.
(** [src/include/termio.h:50] *)
Definition CS5 : Z := 0x0300.
(** [src/include/termio.h:51] *)
Definition CSTOPB : Z := 0x0400.
(** [src/include/termio.h:52] *)
Definition PARENB : Z := 0x0800.
(** [src/include/termio.h:53] *)
Definition PARODD : Z := 0x1000.
(** [src/include/termio.h:56] *)
Definition CXBAUD : Z := 0x8000.
(** [src/include/termio.h:60] *)
Definition CBAUD : Z := 0xf.

(** [src/include/termio.h:79-84] *)
Definition VINTR : nat := 0.
Definition VERASE : nat := 2.
Definition VEOL : nat := 5.
Definition VEOL2 : nat := 6.
Definition V_START : nat := 8.
Definition V_STOP : nat := 9.

(** [src/include/termio.h:101] *)
Definition DEV_MAX : nat := 8.
(** [src/include/stdio.h:72] *)
Definition OPEN_MAX : nat := 8.

(** [src/include/termio.h:115] *)
Definition CNTRL (c : Z) : Z := Z.land c 0x1f.

Definition BS : Z := 8.
Definition NL : Z := 10.
Definition CR : Z := 13.

(** [src/include/termio.h:118-125] *)
Record termio : Type := { c_iflag : Z; c_oflag : Z; c_cflag : Z; c_lflag : Z; c_cc : list Z }.

Definition with_iflag (t : termio) v : termio := {| c_iflag := v; c_oflag := c_oflag t; c_cflag := c_cflag t; c_lflag := c_lflag t; c_cc := c_cc t |}.
Definition with_oflag (t : termio) v : termio := {| c_iflag := c_iflag t; c_oflag := v; c_cflag := c_cflag t; c_lflag := c_lflag t; c_cc := c_cc t |}.
Definition with_cflag (t : termio) v : termio := {| c_iflag := c_iflag t; c_oflag := c_oflag t; c_cflag := v; c_lflag := c_lflag t; c_cc := c_cc t |}.
Definition with_lflag (t : termio) v : termio := {| c_iflag := c_iflag t; c_oflag := c_oflag t; c_cflag := c_cflag t; c_lflag := v; c_cc := c_cc t |}.
Definition with_cc (t : termio) v : termio := {| c_iflag := c_iflag t; c_oflag := c_oflag t; c_cflag := c_cflag t; c_lflag := c_lflag t; c_cc := v |}.

(** A bit of a flag word, and a control character. *)
Definition on (flags mask : Z) : bool := negb (Z.land flags mask =? 0).
Definition cc (t : termio) (n : nat) : Z := default 0 (c_cc t !! n).


(** ** Baud rates *)

(** The standard rates and their codes.
    [src/pmon/stty.c:12-29] *)
Definition btable : list (cstr * Z) :=
  [(str "50", 1); (str "75", 2); (str "110", 3); (str "134", 4); (str "200", 6); (str "150", 5); (str "300", 7);
   (str "600", 8); (str "1200", 9); (str "1800", 10); (str "2400", 11); (str "4800", 12); (str "9600", 13);
   (str "19200", 14); (str "38400", 15)].

(** [src/include/termio.h:57] *)
Definition CXBAUDDECODE (c : Z) : Z := Z.land c (Z.lnot CXBAUD) * 100.
(** [src/include/termio.h:58] *)
Definition CXBAUDENCODE (b : Z) : Z := Z.lor CXBAUD (Z.quot b 100).

(** [src/pmon/stty.c:364-385] *)
Definition getbaudrate (p : cstr) : Z :=
  match list_find (fun e => strequ (Some p) (Some e.1) = true) btable with
  | Some (_, e) => e.2
  | None =>
    let baud := atoi p in
    let cxbaud := u16 (CXBAUDENCODE baud) in
    if CXBAUDDECODE cxbaud =? baud then cxbaud else 0
  end.

(** [src/pmon/stty.c:388-403] *)
Definition getbaudval (cbaud : Z) : Z :=
  if on cbaud CXBAUD then CXBAUDDECODE cbaud
  else
    let c := Z.land cbaud CBAUD in
    match list_find (fun e => e.2 = c) btable with
    | Some (_, e) => atoi e.1
    | None => 0
    end.

(** ** Mode strings *)

(** The digits at the start, and what follows them.
    [src/pmon/stty.c:267-268] *)
Fixpoint span_digits (s : cstr) : cstr * cstr :=
  match s with
  | c :: s' => if isdigit c then let '(d, r) := span_digits s' in (c :: d, r) else ([], s)
  | [] => ([], [])
  end.

(** [src/pmon/stty.c:282-283] *)
Fixpoint skip_sep (s : cstr) : cstr :=
  match s with
  | c :: s' => if (c =? ch ",") || (c =? ch " ") then skip_sep s' else s
  | [] => []
  end.

(** The size of a character.
    [src/pmon/stty.c:287-294] *)
Definition parse_size (c lflag : Z) : option Z :=
  let l := Z.land lflag (Z.lnot CSIZE) in
  if c =? ch "5" then Some (Z.lor l CS5)
  else if c =? ch "6" then Some (Z.lor l CS6)
  else if c =? ch "7" then Some (Z.lor l CS7)
  else if c =? ch "8" then Some (Z.lor l CS8)
  else None.

(** [src/pmon/stty.c:303-310] *)
Definition parse_parity (c lflag : Z) : option Z :=
  let l := Z.land lflag (Z.lnot (Z.lor PARENB PARODD)) in
  if (c =? ch "n") || (c =? ch "N") then Some l
  else if (c =? ch "e") || (c =? ch "E") then Some (Z.lor l PARENB)
  else if (c =? ch "o") || (c =? ch "O") then Some (Z.lor l (Z.lor PARENB PARODD))
  else None.

(** [src/pmon/stty.c:318-323] *)
Definition parse_stop (c lflag : Z) : option Z :=
  let l := Z.land lflag (Z.lnot CSTOPB) in
  if c =? ch "1" then Some l
  else if c =? ch "2" then Some (Z.lor l CSTOPB)
  else None.

(** One letter of the flow control.
    [src/pmon/stty.c:334-345] *)
Definition flow_bits (c : Z) : option Z :=
  if (c =? ch "n") || (c =? ch "N") then Some 0
  else if (c =? ch "c") || (c =? ch "C") then Some ICTS_OFLOW
  else if (c =? ch "r") || (c =? ch "R") then Some IRTS_IFLOW
  else if (c =? ch "h") || (c =? ch "H") then Some (Z.lor ICTS_OFLOW IRTS_IFLOW)
  else if (c =? ch "o") || (c =? ch "O") then Some IXON
  else if (c =? ch "i") || (c =? ch "I") then Some IXOFF
  else if (c =? ch "x") || (c =? ch "X") || (c =? ch "s") || (c =? ch "S") then Some (Z.lor IXON IXOFF)
  else if (c =? ch "a") || (c =? ch "A") then Some IXANY
  else None.

(** The letters up to a comma.
    [src/pmon/stty.c:333-346] *)
Fixpoint parse_flow (s : cstr) (iflag : Z) : option (Z * cstr) :=
  match s with
  | [] => Some (iflag, [])
  | c :: s' =>
    if c =? ch "," then Some (iflag, s)
    else b ← flow_bits c; parse_flow s' (Z.lor iflag b)
  end.

Definition FLOW : Z := Z.lor ICTS_OFLOW (Z.lor IRTS_IFLOW (Z.lor IXON (Z.lor IXOFF IXANY))).

(** A field of the mode, if there is anything left.
    [src/pmon/stty.c:281-295] *)
Definition field {A} (msg : string) (parse : Z -> A -> option A) (st : cstr * A) : string + cstr * A :=
  match skip_sep st.1 with
  | [] => inr ([], st.2)
  | c :: s' => match parse c st.2 with Some a => inr (s', a) | None => inl msg end
  end.

(** The message of an error, or the new settings.
    [src/pmon/stty.c:255-361] *)
Definition parsettymode (mode : cstr) (t : termio) : string + termio :=
  let '(digits, s) := span_digits mode in
  if (7 <? length digits)%nat then inl "baud rate too long"%string
  else
    let ncflag := match digits with [] => c_cflag t | _ => getbaudrate digits end in
    if bool_decide (digits <> []) && (ncflag =? 0) then inl "illegal baud rate"%string
    else
      match field "bad character size" parse_size (s, c_lflag t) with
      | inl e => inl e
      | inr st =>
        match field "bad parity" parse_parity st with
        | inl e => inl e
        | inr st =>
          match field "bad stop bits" parse_stop st with
          | inl e => inl e
          | inr (s, nlflag) =>
            match (match skip_sep s with
                   | [] => Some (c_iflag t, [])
                   | s' => parse_flow s' (Z.land (c_iflag t) (Z.lnot FLOW))
                   end) with
            | None => inl "bad flow control"%string
            | Some (niflag, s) =>
              match skip_sep s with
              | [] => inr (with_iflag (with_lflag (with_cflag t (u16 ncflag)) (u16 nlflag)) (u16 niflag))
              | _ => inl "mode too long"%string
              end
            end
          end
        end
      end.

(** ** Fields of a flag word *)

(** The bits [m] of [v], the others of [l]. *)
Definition put_bits (m v l : Z) : Z := Z.lor (Z.land l (Z.lnot m)) (Z.land v m).

Ltac bits := apply Z.bits_inj'; intros ?n ?Hn; unfold put_bits;
  repeat first [rewrite Z.lor_spec | rewrite Z.land_spec | rewrite Z.lnot_spec by done];
  repeat match goal with |- context [Z.testbit ?x ?n] => is_var n; destruct (Z.testbit x n) end; done.

Lemma put_bits_put m1 m2 v l : put_bits m2 v (put_bits m1 v l) = put_bits (Z.lor m1 m2) v l.
Proof. bits. Qed.

Lemma put_idem m v l : put_bits m (put_bits m v l) l = put_bits m v l.
Proof. bits. Qed.

Lemma put_set m v l : Z.land v m = m -> put_bits m v l = Z.lor l m.
Proof. unfold put_bits. intros ->. bits. Qed.

Lemma put_set' m v l : Z.land v m = m -> put_bits m v l = Z.lor (Z.land l (Z.lnot m)) m.
Proof. by unfold put_bits; intros ->. Qed.

Lemma put_clear m v l : Z.land v m = 0 -> put_bits m v l = Z.land l (Z.lnot m).
Proof. unfold put_bits. intros ->. by rewrite Z.lor_0_r. Qed.

Lemma put_field m v l x : Z.land v m = x -> put_bits m v l = Z.lor (Z.land l (Z.lnot m)) x.
Proof. by unfold put_bits; intros ->. Qed.

(** A single bit is set or clear. *)
Lemma one_bit k v : 0 <= k -> Z.land v (2 ^ k) = if on v (2 ^ k) then 2 ^ k else 0.
Proof.
  intros Hk. unfold on. assert (Z.land v (2 ^ k) = if Z.testbit v k then 2 ^ k else 0) as ->.
  { apply Z.bits_inj'. intros n Hn. rewrite Z.land_spec, Z.pow2_bits_eqb by done. destruct (Z.eqb_spec k n) as [<-|Hne].
    - destruct (Z.testbit v k); [by rewrite Z.pow2_bits_eqb, Z.eqb_refl by done|by rewrite Z.bits_0].
    - rewrite andb_false_r. destruct (Z.testbit v k); [|by rewrite Z.bits_0]. rewrite Z.pow2_bits_eqb by done. by rewrite (proj2 (Z.eqb_neq _ _)). }
  destruct (Z.testbit v k); [|done]. by rewrite (proj2 (Z.eqb_neq _ _)) by (apply Z.pow_nonzero; lia).
Qed.

Definition is_u16 (x : Z) : Prop := Z.land x 0xffff = x.

Lemma u16_id x : is_u16 x -> u16 x = x.
Proof. unfold is_u16, wrapu. change 0xffff with (Z.ones 16). by rewrite Z.land_ones by lia. Qed.

Lemma put_u16 m v l : is_u16 v -> is_u16 l -> is_u16 (put_bits m v l).
Proof.
  unfold is_u16. intros Hv Hl. rewrite <- Hv, <- Hl. generalize 0xffff. intros w. bits.
Qed.

(** ** The mode string of a terminal *)

Definition size_char (l : Z) : Z :=
  let z := Z.land l CSIZE in
  if z =? CS5 then ch "5" else if z =? CS6 then ch "6" else if z =? CS7 then ch "7" else ch "8".
Definition parity_char (l : Z) : Z := if on l PARENB then if on l PARODD then ch "O" else ch "E" else ch "N".
Definition stop_char (l : Z) : Z := if on l CSTOPB then ch "2" else ch "1".
Definition letter (b : bool) (c : Z) : list Z := if b then [c] else [].
Definition flow_text (i : Z) : cstr :=
  match letter (on i ICTS_OFLOW) (ch "c") ++ letter (on i IRTS_IFLOW) (ch "r") ++ letter (on i IXON) (ch "o") ++
        letter (on i IXOFF) (ch "i") ++ letter (on i IXANY) (ch "a") with
  | [] => [ch "n"]
  | l => l
  end.

(** [r] is the text of the baud rate. *)
Definition mode_text (r : cstr) (t : termio) : cstr :=
  r ++ ch "," :: size_char (c_lflag t) :: parity_char (c_lflag t) :: stop_char (c_lflag t) :: ch "," :: flow_text (c_iflag t).

Definition PARITY : Z := Z.lor PARENB PARODD.
Definition FRAME : Z := Z.lor (Z.lor CSIZE PARITY) CSTOPB.

Lemma span_digits_app r c s : forallb isdigit r = true -> isdigit c = false -> span_digits (r ++ c :: s) = (r, c :: s).
Proof.
  intros Hr Hc. induction r as [|d r IH]; cbn [app span_digits]; [by rewrite Hc|].
  cbn [forallb] in Hr. apply andb_true_iff in Hr as [-> Hr]. by rewrite IH.
Qed.

Lemma csize_cases l : let z := Z.land l CSIZE in z = CS5 \/ z = CS6 \/ z = CS7 \/ z = CS8.
Proof.
  cbn zeta. assert (Z.land l CSIZE = Z.lor (Z.land l (2 ^ 8)) (Z.land l (2 ^ 9))) as ->.
  { change CSIZE with (Z.lor (2 ^ 8) (2 ^ 9)). apply Z.land_lor_distr_r. }
  rewrite !one_bit by lia. destruct (on l (2 ^ 8)), (on l (2 ^ 9)); auto.
Qed.

Lemma parse_size_char v l : parse_size (size_char v) l = Some (put_bits CSIZE v l).
Proof.
  unfold size_char. destruct (csize_cases v) as [E|[E|[E|E]]]; rewrite E; unfold parse_size; cbn -[Z.lor Z.land Z.lnot];
    by rewrite (put_field _ _ _ _ E).
Qed.

Lemma parse_parity_char v l : (on v PARENB = false -> on v PARODD = false) ->
  parse_parity (parity_char v) l = Some (put_bits PARITY v l).
Proof.
  intros Hc. assert (Z.land v PARITY = Z.lor (if on v PARENB then PARENB else 0) (if on v PARODD then PARODD else 0)) as E.
  { change PARITY with (Z.lor (2 ^ 11) (2 ^ 12)). rewrite Z.land_lor_distr_r, !one_bit by lia. done. }
  unfold parity_char. destruct (on v PARENB); [destruct (on v PARODD)|rewrite Hc in E by done];
    rewrite (put_field _ _ _ _ E); unfold parse_parity; cbn -[Z.lor Z.land Z.lnot]; try done. by rewrite Z.lor_0_r.
Qed.

Lemma parse_stop_char v l : parse_stop (stop_char v) l = Some (put_bits CSTOPB v l).
Proof.
  pose proof (one_bit 10 v ltac:(lia)) as E. change (2 ^ 10) with CSTOPB in E. unfold stop_char.
  rewrite (put_field _ _ _ _ E). destruct (on v CSTOPB); unfold parse_stop; cbn -[Z.lor Z.land Z.lnot]; [done|]. by rewrite Z.lor_0_r.
Qed.

Lemma parse_flow_text v l : parse_flow (flow_text v) (Z.land l (Z.lnot FLOW)) = Some (put_bits FLOW v l, []).
Proof.
  assert (Z.land v FLOW = Z.lor (if on v ICTS_OFLOW then ICTS_OFLOW else 0) (Z.lor (if on v IRTS_IFLOW then IRTS_IFLOW else 0)
    (Z.lor (if on v IXON then IXON else 0) (Z.lor (if on v IXOFF then IXOFF else 0) (if on v IXANY then IXANY else 0))))) as E.
  { change FLOW with (Z.lor (2 ^ 13) (Z.lor (2 ^ 14) (Z.lor (2 ^ 10) (Z.lor (2 ^ 12) (2 ^ 11))))).
    rewrite !Z.land_lor_distr_r, !one_bit by lia. done. }
  rewrite (put_field _ _ _ _ E). generalize (Z.land l (Z.lnot FLOW)). intros x. unfold flow_text, letter.
  destruct (on v ICTS_OFLOW), (on v IRTS_IFLOW), (on v IXON), (on v IXOFF), (on v IXANY); cbv -[Z.lor];
    by rewrite <- ?Z.lor_assoc, ?Z.lor_0_l, ?Z.lor_0_r.
Qed.

Lemma flow_text_start v : exists c s, flow_text v = c :: s /\ (c =? ch ",") || (c =? ch " ") = false.
Proof.
  unfold flow_text, letter. destruct (on v ICTS_OFLOW), (on v IRTS_IFLOW), (on v IXON), (on v IXOFF), (on v IXANY);
    eexists _, _; (split; [reflexivity|done]).
Qed.

Lemma skip_start c s : (c =? ch ",") || (c =? ch " ") = false -> skip_sep (c :: s) = c :: s.
Proof. cbn [skip_sep]. by intros ->. Qed.

Definition separator (c : Z) : bool := (c =? ch ",") || (c =? ch " ").

Lemma size_char_start v : separator (size_char v) = false.
Proof. unfold size_char. by repeat case_match. Qed.

Lemma parity_char_start v : separator (parity_char v) = false.
Proof. unfold parity_char. by repeat case_match. Qed.

Lemma stop_char_start v : separator (stop_char v) = false.
Proof. unfold stop_char. by case_match. Qed.

(** C19. Reading a mode string back. The compact string of a terminal's settings
    (its baud rate, size, parity, stop bits and flow control) is accepted by
    [parsettymode], and sets exactly these settings on any other terminal: the
    rate, the bits of the frame and those of the flow control become the ones of
    the first terminal, and all others stay. *)
Theorem mode_roundtrip (r : cstr) (t t0 : termio)
  (Hr : forallb isdigit r = true) (Hne : r <> []) (Hlen : (length r <= 7)%nat)
  (Hb : getbaudrate r = c_cflag t) (Hb0 : c_cflag t <> 0)
  (Hpar : on (c_lflag t) PARENB = false -> on (c_lflag t) PARODD = false)
  (Hu : is_u16 (c_iflag t) /\ is_u16 (c_cflag t) /\ is_u16 (c_lflag t)) (Hu0 : is_u16 (c_iflag t0) /\ is_u16 (c_lflag t0)) :
  parsettymode (mode_text r t) t0 = inr {| c_iflag := put_bits FLOW (c_iflag t) (c_iflag t0);
    c_oflag := c_oflag t0; c_cflag := c_cflag t; c_lflag := put_bits FRAME (c_lflag t) (c_lflag t0); c_cc := c_cc t0 |}.
Proof.
  destruct Hu as (U1 & U2 & U3), Hu0 as (V1 & V3). unfold parsettymode, mode_text. rewrite span_digits_app by done.
  rewrite (proj2 (Nat.ltb_ge _ _)) by lia. destruct r as [|d r]; [done|]. rewrite Hb, (proj2 (Z.eqb_neq _ _)) by done.
  rewrite andb_false_r. cbn [fst snd].
  assert (forall A (p : Z -> A -> option A) msg c s a a', (c =? ch ",") || (c =? ch " ") = false -> p c a = Some a' ->
    field msg p (c :: s, a) = inr (s, a')) as Hf by (intros A p msg c s a a' Hc Hp; unfold field; cbn [fst snd]; by rewrite skip_start, Hp).
  assert (forall A (p : Z -> A -> option A) msg s a, field msg p (ch "," :: s, a) = field msg p (s, a)) as Hskip by done.
  rewrite Hskip. rewrite (Hf _ _ _ _ _ _ _ (size_char_start (c_lflag t)) (parse_size_char (c_lflag t) (c_lflag t0))).
  rewrite (Hf _ _ _ _ _ _ _ (parity_char_start (c_lflag t)) (parse_parity_char (c_lflag t) _ Hpar)).
  rewrite (Hf _ _ _ _ _ _ _ (stop_char_start (c_lflag t)) (parse_stop_char (c_lflag t) _)).
  change (skip_sep (ch "," :: flow_text (c_iflag t))) with (skip_sep (flow_text (c_iflag t))).
  pose proof (parse_flow_text (c_iflag t) (c_iflag t0)) as Hfl. destruct (flow_text_start (c_iflag t)) as (c & s & E & Hc).
  rewrite E in *. rewrite skip_start, Hfl by done. cbn [skip_sep]. rewrite !put_bits_put, !u16_id; [done|by apply put_u16|by apply put_u16|done].
Qed.

(** A terminal at 9600 baud with seven bits, even parity and software flow control. *)
Definition mode_example : termio := {| c_iflag := 0x1400; c_oflag := 4; c_cflag := 13; c_lflag := 0x0900; c_cc := [] |}.

Lemma mode_roundtrip_witness : mode_text (str "9600") mode_example = str "9600,7E1,oi" /\
  parsettymode (mode_text (str "9600") mode_example) {| c_iflag := 0x4060; c_oflag := 4; c_cflag := 3; c_lflag := 0x001b; c_cc := [] |} =
    inr {| c_iflag := 0x1460; c_oflag := 4; c_cflag := 13; c_lflag := 0x091b; c_cc := [] |}.
Proof.
  split; [reflexivity|]. rewrite (mode_roundtrip (str "9600") mode_example); [reflexivity|..]; try reflexivity; try discriminate.
  - cbn. lia.
  - split; [|split]; reflexivity.
  - split; reflexivity.
Defined.

(** ** Baud rates *)

(** A baud rate is read back: whatever [getbaudrate] accepts is encoded in
    16 bits so that [getbaudval] gives the number of the text. *)
Theorem baud_roundtrip (p : cstr) : getbaudrate p <> 0 -> is_u16 (getbaudrate p) /\ getbaudval (getbaudrate p) = atoi p.
Proof.
  unfold getbaudrate. destruct (list_find _ btable) as [[i e]|] eqn:E.
  - apply list_find_Some in E as (Hi & Hs%strequ_spec & _). intros _. rewrite Hs. clear Hs.
    assert (Forall (fun e => is_u16 e.2 /\ getbaudval e.2 = atoi e.1) btable) as H by (repeat constructor).
    apply (Forall_lookup_1 _ _ _ _ H Hi).
  - destruct (Z.eqb_spec (CXBAUDDECODE (u16 (CXBAUDENCODE (atoi p)))) (atoi p)) as [Ed|]; [|done]. intros _.
    set (x := CXBAUDENCODE (atoi p)) in *. split; [unfold is_u16, wrapu; change 0xffff with (Z.ones 16); rewrite <- Z.land_ones by lia; by rewrite <- Z.land_assoc|].
    unfold getbaudval. assert (on (u16 x) CXBAUD = true) as ->; [|done].
    unfold on. apply negb_true_iff, Z.eqb_neq. unfold wrapu. rewrite <- Z.land_ones by lia. rewrite <- Z.land_assoc.
    change (Z.land (Z.ones 16) CXBAUD) with CXBAUD. unfold x, CXBAUDENCODE. rewrite Z.land_lor_distr_l.
    intros [H _]%Z.lor_eq_0_iff. discriminate H.
Qed.

Lemma baud_roundtrip_witness : getbaudval (getbaudrate (str "57600")) = 57600.
Proof. change 57600 with (atoi (str "57600")). apply (baud_roundtrip (str "57600")). discriminate. Defined.

(** A rate of nothing is accepted. *)
Lemma zero_baud : getbaudrate (str "0") = CXBAUD /\ getbaudval CXBAUD = 0.
Proof. split; reflexivity. Qed.
