(* ===== verification/Termio.v ===== *)
(** * Termio: the terminal driver

    [src/lib/termio.c] with the settings of [src/include/termio.h]: the table of
    devices with their receive queues, the table of open files, the poll of all
    devices, reading with the editing of lines and echo, writing, flow control in
    both directions, [ioctl], [devinit], opening and closing, and the terminal
    types of [src/lib/terms.c]. The drivers of the serial lines, the network
    files and the polls of the board are an interface ([Board]).

    The functions that wait for a device call the poll, and the poll writes a
    stop character when a queue gets full: they are one mutual recursion, with
    fuel for its depth. *)

From S2P Require Import Prelude CString Comp Queue Ttymode.

(** The calls of a device's handler.
    [src/include/termio.h:87-99] *)
Inductive devop : Type :=
| OP_INIT (qsize : Z)
| OP_TX (ch : Z)
| OP_RX
| OP_RXRDY
| OP_TXRDY
| OP_BAUD (rate : Z)
| OP_RXSTOP (stop : bool)
| OP_FLUSH
| OP_RESET
| OP_OPEN
| OP_CLOSE
| OP_XBAUD (rate : Z)
| OP_TCSET (t : termio).

(** A serial line: the driver that handles it, its registers and its channel. *)
Record line : Type := { l_handler : nat; l_sio : Z; l_chan : Z }.

#[export] Instance line_eq_dec : EqDecision line.
Proof. solve_decision. Defined.

(** The drivers of the serial lines, the files of the network, and what the board
    polls. *)
Class Board (B : Type) : Type := {
  handler : line -> devop -> B -> Z * B;
  board_poll : B -> B;
  netopen : cstr -> Z -> B -> Z * B;
  netread : Z -> Z -> B -> (Z * list Z) * B;
  netwrite : Z -> list Z -> B -> Z * B;
  netclose : Z -> B -> B;
  netioctl : Z -> Z -> B -> Z * B
}.

(** [src/include/termio.h:129-135] *)
Record ConfigEntry : Type := { q_devinfo : Z; q_chan : Z; q_handler : nat; q_rxqsize : Z; q_brate : Z }.

(** The terminal types, by their numbers in [TermTable]. *)
Inductive tfun : Type := tvi920 | vt100.

(** [p_intr] is the address of the [jmp_buf]; the line is that of [sio], [chan]
    and [handler], all null before [devinit].
    [src/include/termio.h:139-151] *)
Record DevEntry : Type := {
  p_txoff : bool;
  p_qsize : Z;
  p_rxq : option Queue;
  p_line : option line;
  p_rxoff : bool;
  p_intr : option Z;
  p_term : option (cstr * tfun);
  p_t : termio
}.

(** [src/include/termio.h:153-159] *)
Record File : Type := { f_dev : Z; f_valid : bool; f_netfd : Z }.

(** [src/lib/termio.c:34-48] *)
Definition TermTable : list (cstr * tfun) := [(str "tvi920", tvi920); (str "vt100", vt100)].

Definition zero_termio : termio := {| c_iflag := 0; c_oflag := 0; c_cflag := 0; c_lflag := 0; c_cc := replicate 23 0 |}.
Definition zero_dev : DevEntry :=
  {| p_txoff := false; p_qsize := 0; p_rxq := None; p_line := None; p_rxoff := false; p_intr := None;
     p_term := None; p_t := zero_termio |}.

Definition set_txoff v (p : DevEntry) : DevEntry := {| p_txoff := v; p_qsize := p_qsize p; p_rxq := p_rxq p; p_line := p_line p; p_rxoff := p_rxoff p; p_intr := p_intr p; p_term := p_term p; p_t := p_t p |}.
Definition set_rxq v (p : DevEntry) : DevEntry := {| p_txoff := p_txoff p; p_qsize := p_qsize p; p_rxq := v; p_line := p_line p; p_rxoff := p_rxoff p; p_intr := p_intr p; p_term := p_term p; p_t := p_t p |}.
Definition set_rxoff v (p : DevEntry) : DevEntry := {| p_txoff := p_txoff p; p_qsize := p_qsize p; p_rxq := p_rxq p; p_line := p_line p; p_rxoff := v; p_intr := p_intr p; p_term := p_term p; p_t := p_t p |}.
Definition set_intr v (p : DevEntry) : DevEntry := {| p_txoff := p_txoff p; p_qsize := p_qsize p; p_rxq := p_rxq p; p_line := p_line p; p_rxoff := p_rxoff p; p_intr := v; p_term := p_term p; p_t := p_t p |}.
Definition set_term v (p : DevEntry) : DevEntry := {| p_txoff := p_txoff p; p_qsize := p_qsize p; p_rxq := p_rxq p; p_line := p_line p; p_rxoff := p_rxoff p; p_intr := p_intr p; p_term := v; p_t := p_t p |}.
Definition set_t v (p : DevEntry) : DevEntry := {| p_txoff := p_txoff p; p_qsize := p_qsize p; p_rxq := p_rxq p; p_line := p_line p; p_rxoff := p_rxoff p; p_intr := p_intr p; p_term := p_term p; p_t := v |}.

(** The variables of the file: the board, the two tables, and the word [curlst]
    points to.
    [src/lib/termio.c:18-50] *)
Record tty (B : Type) : Type := {
  s_board : B;
  DevTable : list DevEntry;
  _file : list File;
  curlst : option Z
}.
Arguments Build_tty {B}.
Arguments s_board {B} _.
Arguments DevTable {B} _.
Arguments _file {B} _.
Arguments curlst {B} _.

(** The tables at the start: the three standard files are those of device 0.
    [src/lib/termio.c:18-32] *)
Definition tty_start {B} (b : B) : tty B :=
  let std := {| f_dev := 0; f_valid := true; f_netfd := -1 |} in
  Build_tty b (replicate DEV_MAX zero_dev)
    ([std; std; std] ++ replicate 5 {| f_dev := 0; f_valid := false; f_netfd := 0 |}) None.

Section Termio.
Context {B : Type} {BD : Board B}.
Abbreviation ST := (tty B).
Abbreviation MT := (M ST).

Definition set_board b (s : ST) : ST := Build_tty b (DevTable s) (_file s) (curlst s).
Definition set_dev i p (s : ST) : ST := Build_tty (s_board s) (<[i := p]> (DevTable s)) (_file s) (curlst s).
Definition set_file fd f (s : ST) : ST := Build_tty (s_board s) (DevTable s) (<[fd := f]> (_file s)) (curlst s).
Definition set_curlst v (s : ST) : ST := Build_tty (s_board s) (DevTable s) (_file s) v.

(** An element of a table; a read outside of it is a fault. *)
Definition dev (i : nat) : MT DevEntry := fun s =>
  match DevTable s !! i with Some p => Ok (p, s) | None => Err OutOfBounds end.
Definition upd_dev (i : nat) (f : DevEntry -> DevEntry) : MT unit := dev i ≫= fun p => modify (set_dev i (f p)).
Definition file (fd : Z) : MT File := fun s =>
  match _file s !! Z.to_nat fd with
  | Some f => if fd <? 0 then Err OutOfBounds else Ok (f, s)
  | None => Err OutOfBounds
  end.

(** A call of the handler of a device. *)
Definition run_handler (ln : line) (op : devop) : MT Z := fun s =>
  let '(r, b) := handler ln op (s_board s) in Ok (r, set_board b s).
Definition call (i : nat) (op : devop) : MT Z := dev i ≫= fun p => need (p_line p) ≫= fun ln => run_handler ln op.

(** The receive queue of a device. *)
Definition rxq (i : nat) : MT Queue := dev i ≫= fun p => need (p_rxq p).

(** The stop or start of the sender.
    [src/lib/termio.c:252] *)
Definition rx_stop (i : nat) (stop : bool) : MT unit :=
  upd_dev i (set_rxoff stop) ≫= fun _ => call i (OP_RXSTOP stop) ≫= fun _ => mret tt.

(** What becomes of a character that was received.
    [src/lib/termio.c:225-246] *)
Inductive rx_action : Type := RxIntr | RxStart | RxStop | RxData (c : Z).

(** [src/lib/termio.c:225-240] *)
Definition rx_decide (p : DevEntry) (c : Z) : rx_action :=
  let t := p_t p in
  let c := if on (c_iflag t) ISTRIP then Z.land c 0x7f else c in
  if on (c_lflag t) ISIG && (c =? cc t VINTR) then RxIntr
  else if on (c_iflag t) IXON then
    if on (c_iflag t) IXANY && p_txoff p then RxStart
    else if c =? cc t V_STOP then RxStop
    else if c =? cc t V_START then RxStart
    else RxData c
  else RxData c.

(** [gsignal] jumps to the place that waits for the interrupt, if there is one.
    [src/pmon/p5064/sbd.c:499-502] *)
Definition gsignal (jb : option Z) : MT unit := match jb with Some _ => fail Jumped | None => mret tt end.

(** [scandevs], the loop over the table, the loop over the characters of a device,
    [_chwrite], and its loop until the transmitter is ready.
    [src/lib/termio.c:193-266] *)
Fixpoint scandevs (fuel : nat) : MT unit :=
  match fuel with
  | O => fail OutOfFuel
  | S f => scan_from f 0
  end
with scan_from (fuel i : nat) : MT unit :=
  match fuel with
  | O => fail OutOfFuel
  | S f =>
    dev i ≫= fun p =>
    if p_qsize p =? 0 then modify (fun s => set_board (board_poll (s_board s)) s)
    else
      (match p_rxq p with None => mret tt | Some _ => rx_loop f i end) ≫= fun _ =>
      scan_from f (S i)
  end
with rx_loop (fuel i : nat) : MT unit :=
  match fuel with
  | O => fail OutOfFuel
  | S f =>
    call i OP_RXRDY ≫= fun rdy =>
    if rdy =? 0 then mret tt
    else
      call i OP_RX ≫= fun c =>
      dev i ≫= fun p =>
      (match rx_decide p c with
       | RxIntr => gsignal (p_intr p)
       | RxStart => upd_dev i (set_txoff false)
       | RxStop => upd_dev i (set_txoff true)
       | RxData c =>
         rxq i ≫= fun q =>
         let n := Qspace q in
         when (0 <? n)
           (need (Qput q c) ≫= fun q' =>
            upd_dev i (set_rxq (Some q')) ≫= fun _ =>
            when ((n <? 20) && negb (p_rxoff p))
              (rx_stop i true ≫= fun _ =>
               when (on (c_iflag (p_t p)) IXOFF) (_chwrite f i (CNTRL (ch "S")))))
       end) ≫= fun _ =>
      rx_loop f i
  end
with _chwrite (fuel i : nat) (c : Z) : MT unit :=
  match fuel with
  | O => fail OutOfFuel
  | S f =>
    dev i ≫= fun p =>
    if p_txoff p then scandevs f ≫= fun _ => _chwrite f i c
    else match p_line p with
         | Some _ => tx_loop f i c
         | None => mret tt
         end
  end
with tx_loop (fuel i : nat) (c : Z) : MT unit :=
  match fuel with
  | O => fail OutOfFuel
  | S f =>
    call i OP_TXRDY ≫= fun rdy =>
    if rdy =? 0 then scandevs f ≫= fun _ => tx_loop f i c
    else call i (OP_TX c) ≫= fun _ => mret tt
  end.

(** The loop of [_write].
    [src/lib/termio.c:182-189] *)
Fixpoint write_loop (fuel : nat) (i : nat) (buf : list Z) : MT unit :=
  match buf with
  | [] => mret tt
  | c :: buf' =>
    dev i ≫= fun p =>
    when (on (c_oflag (p_t p)) ONLCR && (c =? NL))
      (_chwrite fuel i CR ≫= fun _ => scandevs fuel) ≫= fun _ =>
    _chwrite fuel i c ≫= fun _ =>
    scandevs fuel ≫= fun _ =>
    write_loop fuel i buf'
  end.

(** A file that must be valid, its network side or its device. *)
Definition with_dev {A} (fd : Z) (bad : A) (net : Z -> MT A) (k : nat -> MT A) : MT A :=
  file fd ≫= fun f =>
  if negb (f_valid f) then mret bad
  else if 0 <=? f_netfd f then net (f_netfd f)
  else if f_dev f <? 0 then fail OutOfBounds
  else k (Z.to_nat (f_dev f)).

Definition on_board {A} (g : B -> A * B) : MT A := fun s =>
  let '(a, b) := g (s_board s) in Ok (a, set_board b s).

(** [src/lib/termio.c:164-191] *)
Definition _write (fuel : nat) (fd : Z) (buf : list Z) : MT Z :=
  with_dev fd (-1) (fun n => on_board (netwrite n buf)) (fun i =>
    write_loop fuel i buf ≫= fun _ => mret (Z.of_nat (length buf))).

(** The loop that waits for a character; how many there are.
    [src/lib/termio.c:566-567] *)
Fixpoint wait_input (fuel i : nat) : MT Z :=
  rxq i ≫= fun q =>
  if negb (Qused q =? 0) then mret (Qused q)
  else
    match fuel with
    | O => fail OutOfFuel
    | S f => scandevs f ≫= fun _ => wait_input f i
    end.

(** A character is taken out of the queue; the sender is let go on when there is
    room again.
    [src/lib/termio.c:565-575] *)
Definition next_char (fuel i : nat) : MT Z :=
  scandevs fuel ≫= fun _ =>
  wait_input fuel i ≫= fun used =>
  dev i ≫= fun p =>
  when ((used <? 20) && p_rxoff p)
    (rx_stop i false ≫= fun _ => when (on (c_iflag (p_t p)) IXOFF) (_chwrite fuel i (CNTRL (ch "Q")))) ≫= fun _ =>
  rxq i ≫= fun q =>
  need (Qget q) ≫= fun '((m, q') : Z * Queue) =>
  upd_dev i (set_rxq (Some q')) ≫= fun _ =>
  let c := s8 m in
  mret (if on (c_iflag (p_t p)) ICRNL && (c =? CR) then NL else c).

(** The loop of [_read]: the bytes of the buffer so far, and the room.
    [src/lib/termio.c:564-595] *)
Fixpoint read_loop (fuel : nat) (fd : Z) (i : nat) (n : nat) (buf : list Z) : MT (list Z) :=
  if (n <=? length buf)%nat then mret buf
  else
    match fuel with
    | O => fail OutOfFuel
    | S f =>
      next_char f i ≫= fun c =>
      dev i ≫= fun p =>
      let t := p_t p in
      if on (c_lflag t) ICANON then
        if c =? cc t VERASE then
          match buf with
          | [] => read_loop f fd i n []
          | _ =>
            (if on (c_lflag t) ECHOE then _write f fd [BS; ch " "; BS] ≫= fun _ => mret tt
             else when (on (c_lflag t) ECHO) (_write f fd [BS] ≫= fun _ => mret tt)) ≫= fun _ =>
            read_loop f fd i n (removelast buf)
          end
        else
          when (on (c_lflag t) ECHO) (_write f fd [c] ≫= fun _ => mret tt) ≫= fun _ =>
          let buf := buf ++ [c] in
          dev i ≫= fun p =>
          if (c =? cc (p_t p) VEOL) || (c =? cc (p_t p) VEOL2) then mret buf
          else read_loop f fd i n buf
      else read_loop f fd i n (buf ++ [c])
    end.

(** The count and the bytes.
    [src/lib/termio.c:547-597] *)
Definition _read (fuel : nat) (fd : Z) (n : Z) : MT (Z * list Z) :=
  with_dev fd (-1, []) (fun nf => on_board (netread nf n)) (fun i =>
    read_loop fuel fd i (Z.to_nat n) [] ≫= fun buf => mret (Z.of_nat (length buf), buf)).

(** ** Control operations *)

(** The operations with what they are given.
    [src/include/termio.h:10-22] *)
Inductive ioctl_op : Type :=
| TCGETA
| TCSETAF (at_ : termio)
| TCSETAW (at_ : termio)
| SETINTR (jb : option Z)
| SETSANE
| FIONREAD
| GETINTR
| GETTERM
| SETTERM (name : cstr)
| SETNCNE
| CBREAK
| TERMTYPE
| OTHER (op : Z).

(** What is stored through the pointer. *)
Inductive ioctl_out : Type :=
| ONone
| OTermio (t : termio)
| OInt (n : Z)
| OIntr (jb : option Z)
| OText (s : cstr).

(** The number of an operation, which the files of the network are given. *)
Definition op_number (op : ioctl_op) : Z :=
  match op with
  | TCGETA => 1 | TCSETAF _ => 2 | TCSETAW _ => 3 | SETINTR _ => 4 | SETSANE => 5 | FIONREAD => 6 | GETINTR => 7
  | GETTERM => 8 | SETTERM _ => 9 | SETNCNE => 10 | CBREAK => 11 | TERMTYPE => 12 | OTHER n => n
  end.

(** [src/lib/termio.c:303-318] *)
Definition tc_set (i : nat) (at_ : termio) : MT (Z * ioctl_out) :=
  dev i ≫= fun p =>
  (if negb (c_cflag (p_t p) =? c_cflag at_) then
     if on (c_cflag at_) CXBAUD then call i (OP_XBAUD (c_cflag at_))
     else call i (OP_BAUD (Z.land CBAUD (c_cflag at_)))
   else mret 0) ≫= fun r =>
  if negb (r =? 0) then mret (-1, ONone)
  else
    upd_dev i (set_t at_) ≫= fun _ =>
    call i (OP_TCSET at_) ≫= fun _ => mret (0, ONone).

(** Emptying the receive queue.
    [src/lib/termio.c:293-294] *)
Fixpoint flush_queue (n : nat) (q : Queue) : option Queue :=
  if Qempty q then Some q
  else
    match n with
    | O => None
    | S n' => '(_, q') ← Qget q; flush_queue n' q'
    end.

(** [src/lib/termio.c:293-300] *)
Definition tc_flush (fuel i : nat) : MT unit :=
  rxq i ≫= fun q =>
  need (flush_queue (Z.to_nat (Qused q)) q) ≫= fun q' =>
  upd_dev i (set_rxq (Some q')) ≫= fun _ =>
  call i OP_FLUSH ≫= fun _ =>
  dev i ≫= fun p =>
  when (p_rxoff p)
    (rx_stop i false ≫= fun _ => when (on (c_iflag (p_t p)) IXOFF) (_chwrite fuel i (CNTRL (ch "Q")))).

(** The control characters of a sane terminal.
    [src/lib/termio.c:335-340] *)
Definition sane_cc (l : list Z) : list Z :=
  <[V_START := CNTRL (ch "q")]> (<[V_STOP := CNTRL (ch "s")]> (<[VERASE := CNTRL (ch "h")]>
    (<[VEOL2 := CNTRL (ch "c")]> (<[VEOL := NL]> (<[VINTR := CNTRL (ch "c")]> l))))).

(** [src/lib/termio.c:331-340] *)
Definition sane (t : termio) : termio :=
  {| c_iflag := Z.lor (c_iflag t) (Z.lor ISTRIP (Z.lor ICRNL IXON));
     c_oflag := ONLCR;
     c_cflag := c_cflag t;
     c_lflag := Z.lor (Z.land (c_lflag t) (Z.lor CSIZE (Z.lor CSTOPB (Z.lor PARENB PARODD))))
                  (Z.lor ICANON (Z.lor ISIG (Z.lor ECHO ECHOE)));
     c_cc := sane_cc (c_cc t) |}.

(** [src/lib/termio.c:362-370] *)
Definition set_termtype (i : nat) (name : cstr) : MT (Z * ioctl_out) :=
  match list_find (fun e => strequ (Some name) (Some e.1) = true) TermTable with
  | None => mret (-1, ONone)
  | Some (_, e) => upd_dev i (set_term (Some e)) ≫= fun _ => mret (0, ONone)
  end.

(** The settings without line editing, with what they were.
    [src/lib/termio.c:343-354] *)
Definition clear_lflag (i : nat) (mask : Z) : MT (Z * ioctl_out) :=
  dev i ≫= fun p =>
  let t := p_t p in
  upd_dev i (set_t (with_cc (with_lflag t (Z.land (c_lflag t) (Z.lnot mask))) (<[4%nat := 1]> (c_cc t)))) ≫= fun _ =>
  mret (0, OTermio t).

(** [src/lib/termio.c:269-380] *)
Definition ioctl (fuel : nat) (fd : Z) (op : ioctl_op) : MT (Z * ioctl_out) :=
  file fd ≫= fun f =>
  if negb (f_valid f) then mret (-1, ONone)
  else if 0 <=? f_netfd f then on_board (netioctl (f_netfd f) (op_number op)) ≫= fun r => mret (r, ONone)
  else if f_dev f <? 0 then mret (-1, ONone)
  else
    let i := Z.to_nat (f_dev f) in
    match op with
    | TCGETA => dev i ≫= fun p => mret (0, OTermio (p_t p))
    | TCSETAF at_ => tc_flush fuel i ≫= fun _ => tc_set i at_
    | TCSETAW at_ => tc_set i at_
    | FIONREAD => scandevs fuel ≫= fun _ => rxq i ≫= fun q => mret (0, OInt (Qused q))
    | SETINTR jb => upd_dev i (set_intr jb) ≫= fun _ => mret (0, ONone)
    | GETINTR => dev i ≫= fun p => mret (0, OIntr (p_intr p))
    | SETSANE =>
      call i OP_RESET ≫= fun _ =>
      upd_dev i (fun p => set_t (sane (p_t p)) p) ≫= fun _ =>
      dev i ≫= fun p => call i (OP_TCSET (p_t p)) ≫= fun _ => mret (0, ONone)
    | SETNCNE => clear_lflag i (Z.lor ICANON (Z.lor ECHO ECHOE))
    | CBREAK => clear_lflag i (Z.lor ICANON ECHO)
    | GETTERM =>
      dev i ≫= fun p =>
      match p_term p with None => mret (-1, OInt 0) | Some (name, _) => mret (0, OText name) end
    | SETTERM name => set_termtype i name
    | TERMTYPE =>
      match TermTable !! Z.to_nat fd with
      | Some (name, _) => mret (fd + 1, OText name)
      | None => if fd =? Z.of_nat (length TermTable) then mret (-1, ONone) else fail OutOfBounds
      end
    | OTHER _ => mret (-1, ONone)
    end.

(** ** Starting, opening and closing *)

Section Devinit.
(** The monitor's copy in memory, the environment, and the memory [malloc] gives a
    queue. *)
Variables (ConfigTable : list ConfigEntry) (_pmon_in_ram : bool) (getenv : cstr -> cptr)
  (qstore : Z -> option (list Z)).

(** [src/lib/termio.c:426-435] *)
Definition first_termio (t : termio) (brate : Z) : termio :=
  {| c_iflag := Z.lor ISTRIP (Z.lor ICRNL IXON); c_oflag := ONLCR; c_cflag := u16 brate;
     c_lflag := Z.lor CS8 (Z.lor ICANON (Z.lor ISIG (Z.lor ECHO ECHOE)));
     c_cc := sane_cc (c_cc t) |}.

Definition set_rate (ln : line) (rate : Z) : MT Z :=
  run_handler ln (if on rate CXBAUD then OP_XBAUD rate else OP_BAUD rate).

(** [ttyx] with the number of the device.
    [src/lib/termio.c:439] *)
Definition dev_name (i : nat) : cstr :=
  str "tty" ++ [if (i <? 10)%nat then Z.of_nat i + ch "0" else Z.of_nat i - 10 + ch "a"].

(** The settings from the environment, and the first character.
    [src/lib/termio.c:437-450] *)
Definition dev_mode (fuel i : nat) (ln : line) : MT unit :=
  dev i ≫= fun p =>
  (match getenv (dev_name i) with
   | None => mret tt
   | Some m =>
     match parsettymode m (p_t p) with
     | inl _ => mret tt
     | inr t => set_rate ln (c_cflag t) ≫= fun r => when (r =? 0) (upd_dev i (set_t t))
     end
   end) ≫= fun _ =>
  dev i ≫= fun p =>
  call i (OP_TCSET (p_t p)) ≫= fun _ =>
  _chwrite fuel i (CNTRL (ch "Q")).

(** One device; whether the start goes on.
    [src/lib/termio.c:394-451] *)
Definition dev_start (fuel i : nat) (q : ConfigEntry) : MT bool :=
  let ln := {| l_handler := q_handler q; l_sio := q_devinfo q; l_chan := q_chan q |} in
  let init := negb _pmon_in_ram || (q_rxqsize q <? 0) in
  let qsize := Z.abs (q_rxqsize q) in
  upd_dev i (fun p => {| p_txoff := false; p_qsize := qsize; p_rxq := p_rxq p; p_line := p_line p; p_rxoff := false;
                         p_intr := p_intr p; p_term := p_term p; p_t := p_t p |}) ≫= fun _ =>
  (if (q_chan q =? 0) && init then run_handler {| l_handler := q_handler q; l_sio := q_devinfo q; l_chan := 0 |} (OP_INIT qsize)
   else mret 0) ≫= fun r =>
  if negb (r =? 0) then mret true
  else
    let rq := (Qcreate qsize (qstore qsize)).2 in
    upd_dev i (set_rxq rq) ≫= fun _ =>
    match rq with
    | None => mret false
    | Some _ =>
      when init (set_rate ln (q_brate q) ≫= fun _ => mret tt) ≫= fun _ =>
      upd_dev i (fun p => {| p_txoff := p_txoff p; p_qsize := p_qsize p; p_rxq := p_rxq p; p_line := Some ln;
                             p_rxoff := p_rxoff p; p_intr := None; p_term := None;
                             p_t := first_termio (p_t p) (q_brate q) |}) ≫= fun _ =>
      when init (dev_mode fuel i ln) ≫= fun _ => mret true
    end.

Fixpoint dev_starts (fuel i : nat) (l : list ConfigEntry) : MT Z :=
  match l with
  | [] => mret 0
  | q :: l' =>
    if (q_devinfo q =? 0) || (DEV_MAX <=? i)%nat then mret 0
    else dev_start fuel i q ≫= fun go : bool => if go then dev_starts fuel (S i) l' else mret (-1)
  end.

(** [src/lib/termio.c:384-454] *)
Definition devinit (fuel : nat) : MT Z := dev_starts fuel 0 ConfigTable.
End Devinit.

(** The device a name of four characters means; [None] when the last one is
    neither a letter nor a digit, where the code uses a variable that is not set.
    [src/lib/termio.c:490-496] *)
Definition tty_number (c : Z) : option Z :=
  if (ch "a" <=? c) && (c <=? ch "z") then Some (c - ch "a")
  else if (ch "A" <=? c) && (c <=? ch "Z") then Some (c - ch "A")
  else if (ch "0" <=? c) && (c <=? ch "9") then Some (c - ch "0")
  else None.

(** [src/lib/termio.c:485-487] *)
Definition strip_dev (fname : cstr) : cstr :=
  if strncmp (Some fname) (Some (str "/dev/")) 5 =? 0 then drop 5 fname else fname.

Definition free_file (l : list File) : option nat := fst <$> list_find (fun f => f_valid f = false) l.

Definition note_open (fd : nat) (v : Z -> Z -> Z) : MT unit :=
  modify (fun s => set_curlst ((fun l => v l (2 ^ Z.of_nat fd)) <$> curlst s) s).

(** [src/lib/termio.c:474-522] *)
Definition _open (fuel : nat) (fname : cstr) (mode : Z) : MT Z :=
  gets (fun s => free_file (_file s)) ≫= fun fr =>
  match fr with
  | None => mret (-1)
  | Some i =>
    let dname := strip_dev fname in
    (if (length dname =? 4)%nat && (strncmp (Some dname) (Some (str "tty")) 3 =? 0) then
       need (tty_number (at_ dname 3)) ≫= fun d =>
       if Z.of_nat DEV_MAX <=? d then mret false
       else
         dev (Z.to_nat d) ≫= fun p =>
         match p_rxq p with
         | None => mret false
         | Some _ =>
           modify (set_file i {| f_dev := d; f_valid := true; f_netfd := -1 |}) ≫= fun _ =>
           call (Z.to_nat d) OP_OPEN ≫= fun _ =>
           ioctl fuel (Z.of_nat i) SETSANE ≫= fun _ => mret true
         end
     else
       on_board (netopen fname mode) ≫= fun n =>
       file (Z.of_nat i) ≫= fun f =>
       if n <? 0 then modify (set_file i {| f_dev := f_dev f; f_valid := f_valid f; f_netfd := wraps 16 n |}) ≫= fun _ => mret false
       else modify (set_file i {| f_dev := -1; f_valid := true; f_netfd := wraps 16 n |}) ≫= fun _ => mret true) ≫= fun ok : bool =>
    if ok then note_open i Z.lor ≫= fun _ => mret (Z.of_nat i) else mret (-1)
  end.

(** [src/lib/termio.c:525-544] *)
Definition _close (fd : Z) : MT unit :=
  file fd ≫= fun f =>
  if negb (f_valid f) then mret tt
  else
    (if 0 <=? f_netfd f then
       modify (fun s => set_board (netclose (f_netfd f) (s_board s)) s) ≫= fun _ =>
       modify (set_file (Z.to_nat fd) {| f_dev := f_dev f; f_valid := true; f_netfd := -1 |})
     else
       if f_dev f <? 0 then fail OutOfBounds
       else call (Z.to_nat (f_dev f)) OP_CLOSE ≫= fun _ => mret tt) ≫= fun _ =>
    file fd ≫= fun f =>
    modify (set_file (Z.to_nat fd) {| f_dev := f_dev f; f_valid := false; f_netfd := f_netfd f |}) ≫= fun _ =>
    note_open (Z.to_nat fd) (fun l b => Z.land l (Z.lnot b)).

(** ** Terminal types *)

(** [src/include/termio.h:107-110] *)
Inductive tt_op : Type := TT_CM | TT_CLR | TT_CUROFF | TT_CURON | TT_OTHER.

(** What a terminal is sent.
    [src/lib/terms.c:5-47] *)
Definition term_text (f : tfun) (op : tt_op) (a1 a2 : Z) : option event :=
  match f, op with
  | tvi920, TT_CM => Some (Printf "\033=%c%c" [AInt (a2 + ch " "); AInt (a1 + ch " ")])
  | tvi920, TT_CLR => Some (Printf "\032" [])
  | tvi920, TT_CUROFF => Some (Printf "\033.0" [])
  | tvi920, TT_CURON => Some (Printf "\033.2" [])
  | vt100, TT_CM => Some (Printf "\033[%d;%dH" [AInt (a2 + 1); AInt (a1 + 1)])
  | vt100, TT_CLR => Some (Printf "\033[H\033[J" [])
  | vt100, TT_CUROFF => Some (Printf "\033[?25l" [])
  | vt100, TT_CURON => Some (Printf "\033[?25h" [])
  | _, TT_OTHER => None
  end.

(** The text goes to the standard output, whatever [fd] is.
    [src/lib/termio.c:457-471] *)
Definition ttctl (fd : Z) (op : tt_op) (a1 a2 : Z) : MT (Z * trace) :=
  file fd ≫= fun f =>
  if negb (f_valid f) || (f_dev f <? 0) then mret (-1, [])
  else
    dev (Z.to_nat (f_dev f)) ≫= fun p =>
    match p_term p with
    | None => mret (-1, [])
    | Some (_, tf) => match term_text tf op a1 a2 with Some ev => mret (0, [ev]) | None => mret (-1, []) end
    end.
End Termio.
