(* ===== verification/TermioOk.v ===== *)
(** * TermioOk: the terminal driver delivers what is typed

    [SerialOk] is what the driver relies on of every serial line with its chip and
    its low-level driver: the characters that are still to come, those that were
    sent, how long a poll can fail, and that the other end of a line that was told
    to stop ([OP_RXSTOP]) sends no more than 18 further characters. Ns16550 proves
    it of the driver of the P-5064's ports; a driver that ignores [OP_RXSTOP], as
    that of the 2681 in [src/pmon/p5064/p2681.c] does, does not keep it, and then
    characters can be lost. TermioRead has the theorems. *)

From S2P Require Import Prelude CString Comp Queue Ttymode Termio.

(** ** The serial lines *)

(** Between two states of the board, nothing has happened on the lines [P]: time
    may have passed. *)
Class SerialOk (B : Type) {BD : Board B} : Type := {
  board_ok : B -> Prop;
  rx : line -> B -> list Z;
  tx : line -> B -> list Z;
  (** [Some n]: the other end has been told to stop, and will send [n] more. *)
  credit : line -> B -> option nat;
  rready : line -> B -> Prop;
  tready : line -> B -> Prop;
  (** How many polls of the receiver and of the transmitter can still fail. *)
  rdelay : line -> B -> nat;
  tdelay : line -> B -> nat;
  patience : nat;
  patience_ok ln b : board_ok b -> (rdelay ln b <= patience)%nat /\ (tdelay ln b <= patience)%nat;
  rx_bytes ln b : board_ok b -> Forall (fun c => 0 <= c < 256) (rx ln b);
  untouched (P : line -> Prop) (b b' : B) : Prop := board_ok b' /\ forall ln, P ln ->
    rx ln b' = rx ln b /\ tx ln b' = tx ln b /\ credit ln b' = credit ln b /\
    (rdelay ln b' <= rdelay ln b)%nat /\ (tdelay ln b' <= tdelay ln b)%nat;
  rxrdy_ok ln b : board_ok b ->
    let '(r, b') := handler ln OP_RXRDY b in
    untouched (fun _ => True) b b' /\
    (r <> 0 -> rready ln b' /\ rx ln b <> [] /\ credit ln b <> Some O) /\
    (r = 0 -> rx ln b <> [] -> credit ln b <> Some O -> (rdelay ln b' < rdelay ln b)%nat);
  rx_ok ln b c l : board_ok b -> rready ln b -> rx ln b = c :: l ->
    let '(r, b') := handler ln OP_RX b in
    r = c /\ untouched (fun ln' => ln' <> ln) b b' /\
    rx ln b' = l /\ tx ln b' = tx ln b /\ credit ln b' = pred <$> credit ln b /\ (tdelay ln b' <= tdelay ln b)%nat;
  txrdy_ok ln b : board_ok b ->
    let '(r, b') := handler ln OP_TXRDY b in
    untouched (fun _ => True) b b' /\ (r <> 0 -> tready ln b') /\ (r = 0 -> (tdelay ln b' < tdelay ln b)%nat);
  tx_ok ln c b : board_ok b -> tready ln b ->
    let '(_, b') := handler ln (OP_TX c) b in
    untouched (fun ln' => ln' <> ln) b b' /\
    rx ln b' = rx ln b /\ tx ln b' = tx ln b ++ [c] /\ credit ln b' = credit ln b /\ (rdelay ln b' <= rdelay ln b)%nat;
  rxstop_ok ln stop b : board_ok b ->
    let '(_, b') := handler ln (OP_RXSTOP stop) b in
    untouched (fun ln' => ln' <> ln) b b' /\
    rx ln b' = rx ln b /\ tx ln b' = tx ln b /\ (rdelay ln b' <= rdelay ln b)%nat /\ (tdelay ln b' <= tdelay ln b)%nat /\
    (if stop then exists n, credit ln b' = Some n /\ (n <= 18)%nat else credit ln b' = None);
  poll_ok b : board_ok b -> untouched (fun _ => True) b (board_poll b)
}.

Section TermioOk.
Context {B : Type} {BD : Board B} {SO : SerialOk B}.
Abbreviation ST := (tty B).
Abbreviation wpo := (wp no_fault).

(** ** Characters *)

Definition strip (t : termio) (c : Z) : Z := if on (c_iflag t) ISTRIP then Z.land c 0x7f else c.

(** A character that neither interrupts nor stops the output. *)
Definition clean (t : termio) (c : Z) : Prop :=
  ~ (on (c_lflag t) ISIG = true /\ strip t c = cc t VINTR) /\ ~ (on (c_iflag t) IXON = true /\ strip t c = cc t V_STOP).

(** What is put in the queue for a character. *)
Definition recv (t : termio) (c : Z) : option Z :=
  if on (c_iflag t) IXON && (strip t c =? cc t V_START) then None else Some (strip t c).

Lemma rx_decide_clean p c : p_txoff p = false -> clean (p_t p) c ->
  rx_decide p c = match recv (p_t p) c with Some c' => RxData c' | None => RxStart end.
Proof.
  intros Hx [H1 H2]. unfold rx_decide, recv. fold (strip (p_t p) c). rewrite Hx, andb_false_r.
  destruct (on (c_lflag _) ISIG && _) eqn:E1.
  { exfalso. apply H1. apply andb_true_iff in E1 as [? ?%Z.eqb_eq]. done. }
  destruct (on (c_iflag _) IXON) eqn:E2; cbn [andb]; [|done].
  destruct (Z.eqb_spec (strip (p_t p) c) (cc (p_t p) V_STOP)) as [E|_]; [exfalso; by apply H2|].
  by destruct (strip (p_t p) c =? cc (p_t p) V_START).
Qed.

Lemma strip_byte t c : 0 <= c < 256 -> 0 <= strip t c < 256.
Proof.
  intros H. unfold strip. destruct (on _ _); [|done]. change 0x7f with (Z.ones 7). rewrite Z.land_ones by lia.
  pose proof (Z.mod_pos_bound c (2 ^ 7)). lia.
Qed.

(** ** The invariant *)

(** The characters on their way to the reader of a device. *)
Definition stream_of (b : B) (p : DevEntry) : list Z :=
  match p_rxq p, p_line p with
  | Some q, Some ln => contents q ++ omap (recv (p_t p)) (rx ln b)
  | _, _ => []
  end.

Definition meas (ln : line) (b : B) : nat := (length (rx ln b) * S patience + rdelay ln b)%nat.

(** The sender is stopped, and there is room for what it may still send; or it is
    not, and there is room for one that stops late. *)
Record dev_inv (b : B) (p : DevEntry) (q : Queue) (ln : line) : Prop := {
  di_queue : queue_ok q;
  di_limit : 38 <= q_limit q;
  di_txoff : p_txoff p = false;
  di_clean : Forall (clean (p_t p)) (rx ln b);
  di_room : if p_rxoff p then (exists n, credit ln b = Some n /\ Z.of_nat n <= Qspace q) /\ 19 <= Qused q
            else credit ln b = None /\ 19 <= Qspace q
}.

(** A device in use: it has a queue and a line. *)
Definition live (s : ST) (i : nat) (p : DevEntry) (q : Queue) (ln : line) : Prop :=
  DevTable s !! i = Some p /\ p_rxq p = Some q /\ p_line p = Some ln.

Record inv (e : nat) (s : ST) : Prop := {
  iv_board : board_ok (s_board s);
  iv_devs : forall i p, DevTable s !! i = Some p -> p_rxq p = None \/
    exists q ln, p_rxq p = Some q /\ p_line p = Some ln /\ dev_inv (s_board s) p q ln /\ (i < e)%nat;
  iv_lines : forall i j p p' q q' ln, live s i p q ln -> live s j p' q' ln -> i = j;
  iv_used : forall i, (i < e)%nat -> exists p, DevTable s !! i = Some p /\ p_qsize p <> 0;
  iv_end : exists p, DevTable s !! e = Some p /\ p_qsize p = 0;
  iv_size : length (DevTable s) = DEV_MAX
}.

Lemma live_inv e s i p q ln : inv e s -> live s i p q ln -> dev_inv (s_board s) p q ln /\ (i < e)%nat.
Proof.
  intros Hi (H1 & H2 & H3). destruct (iv_devs e s Hi i p H1) as [?|(q' & ln' & ? & ? & ? & ?)]; [congruence|].
  assert (q' = q) as -> by congruence. by assert (ln' = ln) as -> by congruence.
Qed.

(** ** What a poll does

    A device keeps its settings; what it has received is longer, the stream is
    the same, and nothing but [w] was sent (and flow control characters, when it
    sends them). *)
Record dev_step (w : list Z) (b b' : B) (p p' : DevEntry) : Prop := {
  ds_static : p_qsize p' = p_qsize p /\ p_line p' = p_line p /\ p_intr p' = p_intr p /\ p_term p' = p_term p /\ p_t p' = p_t p;
  ds_none : p_rxq p = None -> p_rxq p' = None;
  ds_rxoff : p_rxoff p = true -> p_rxoff p' = true;
  ds_live q ln : p_rxq p = Some q -> p_line p = Some ln -> exists q', p_rxq p' = Some q' /\
    stream_of b' p' = stream_of b p /\ Qused q <= Qused q' /\
    (p_rxoff p = false -> p_rxoff p' = true -> 20 <= Qused q') /\
    (meas ln b' <= meas ln b)%nat /\ (length (rx ln b') <= length (rx ln b))%nat /\
    (on (c_iflag (p_t p)) IXOFF = false -> tx ln b' = tx ln b ++ w) /\
    (w = [] -> p_rxoff p' = p_rxoff p -> (tdelay ln b' <= tdelay ln b)%nat)
}.

Definition only (i : nat) (w : list Z) (j : nat) : list Z := if decide (j = i) then w else [].
Definition nothing (j : nat) : list Z := [].

Record later (w : nat -> list Z) (s s' : ST) : Prop := {
  lt_file : _file s' = _file s;
  lt_curlst : curlst s' = curlst s;
  lt_size : length (DevTable s') = length (DevTable s);
  lt_devs : forall i p, DevTable s !! i = Some p -> exists p', DevTable s' !! i = Some p' /\ dev_step (w i) (s_board s) (s_board s') p p'
}.

Lemma dev_step_refl b p : dev_step [] b b p p.
Proof.
  split; [done|done|done|]. intros q ln H1 H2. exists q. split_and!; try done; try lia.
  - intros ? ?. congruence.
  - by rewrite app_nil_r.
Qed.

Lemma dev_step_trans w1 w2 b1 b2 b3 p1 p2 p3 : dev_step w1 b1 b2 p1 p2 -> dev_step w2 b2 b3 p2 p3 ->
  dev_step (w1 ++ w2) b1 b3 p1 p3.
Proof.
  intros [(A1 & A2 & A3 & A4 & A5) N1 R1 L1] [(B1 & B2 & B3 & B4 & B5) N2 R2 L2]. split; [split_and!; congruence|auto|auto|].
  intros q ln Hq Hl. destruct (L1 q ln Hq Hl) as (q2 & Hq2 & S1 & U1 & O1 & M1 & X1 & T1 & D1).
  destruct (L2 q2 ln Hq2 ltac:(congruence)) as (q3 & Hq3 & S2 & U2 & O2 & M2 & X2 & T2 & D2). exists q3.
  split_and!; try done; try lia; try congruence.
  - intros H1 H3. destruct (p_rxoff p2) eqn:E; [|auto]. specialize (O1 H1 eq_refl). lia.
  - intros H. rewrite T2, T1, app_assoc by (try rewrite A5; done). done.
  - intros [-> ->]%app_eq_nil E. assert (p_rxoff p2 = p_rxoff p1) as E2.
    { destruct (p_rxoff p1); [by apply R1|]. destruct (p_rxoff p2); [|done]. by rewrite (R2 eq_refl) in E. }
    specialize (D1 eq_refl E2). specialize (D2 eq_refl ltac:(congruence)). lia.
Qed.

Lemma later_refl s : later nothing s s.
Proof. split; [done|done|done|]. intros i p Hp. exists p. split; [done|apply dev_step_refl]. Qed.

Lemma later_trans w1 w2 w3 s1 s2 s3 : (forall i, w3 i = w1 i ++ w2 i) -> later w1 s1 s2 -> later w2 s2 s3 -> later w3 s1 s3.
Proof.
  intros Hw [F1 C1 Z1 D1] [F2 C2 Z2 D2]. split; [congruence|congruence|congruence|]. intros i p Hp.
  destruct (D1 i p Hp) as (p2 & H2 & S2). destruct (D2 i p2 H2) as (p3 & H3 & S3). exists p3. split; [done|].
  rewrite Hw. by apply (dev_step_trans _ _ _ (s_board s2) _ _ p2).
Qed.

Lemma later_only i s s' : later (only i []) s s' -> later nothing s s'.
Proof.
  intros [? ? ? H]. split; try done. intros j p Hp. destruct (H j p Hp) as (p' & ? & Hs). exists p'. split; [done|].
  unfold only in Hs. by destruct (decide _).
Qed.

Lemma later_nothing s1 s2 s3 : later nothing s1 s2 -> later nothing s2 s3 -> later nothing s1 s3.
Proof. by apply later_trans. Qed.

Lemma later_live w s s' i p q ln : later w s s' -> live s i p q ln ->
  exists p' q', live s' i p' q' ln /\ dev_step (w i) (s_board s) (s_board s') p p'.
Proof.
  intros Hl (H1 & H2 & H3). destruct (lt_devs _ _ _ Hl i p H1) as (p' & H4 & H5).
  destruct (ds_live _ _ _ _ _ H5 q ln H2 H3) as (q' & H6 & _). exists p', q'. split; [|done]. split; [done|]. split; [done|].
  destruct (ds_static _ _ _ _ _ H5) as (_ & -> & _). done.
Qed.

(** ** Elementary steps *)

Definition agree (ln : line) (b b' : B) : Prop :=
  rx ln b' = rx ln b /\ tx ln b' = tx ln b /\ credit ln b' = credit ln b /\
  (rdelay ln b' <= rdelay ln b)%nat /\ (tdelay ln b' <= tdelay ln b)%nat.

Lemma dev_inv_agree b b' p q ln : agree ln b b' -> dev_inv b p q ln -> dev_inv b' p q ln.
Proof. intros (Hr & _ & Hc & _) []. by split; rewrite ?Hr, ?Hc. Qed.

Lemma dev_step_agree b b' p : (forall ln, p_line p = Some ln -> p_rxq p <> None -> agree ln b b') -> dev_step [] b b' p p.
Proof.
  intros H. split; [done|done|done|]. intros q ln Hq Hl. destruct (H ln Hl ltac:(congruence)) as (Hr & Ht & _ & Hd & Hd').
  exists q. split_and!; try done; try lia.
  - unfold stream_of. by rewrite Hq, Hl, Hr.
  - intros ? ?. congruence.
  - unfold meas. rewrite Hr. lia.
  - by rewrite Hr.
  - by rewrite Ht, app_nil_r.
Qed.

(** The board goes on. *)
Lemma tick e s b' : inv e s -> untouched (fun _ => True) (s_board s) b' ->
  inv e (set_board b' s) /\ later nothing s (set_board b' s).
Proof.
  intros [H1 H2 H3 H4 H5 H6] [Hb Hu]. assert (forall ln, agree ln (s_board s) b') as Ha by (intros ln; by apply Hu). split.
  - split; cbn [s_board set_board DevTable]; try done. intros i p Hp.
    destruct (H2 i p Hp) as [?|(q & ln & ? & ? & ? & ?)]; [by left|right]. exists q, ln. split_and!; try done.
    by apply (dev_inv_agree (s_board s)).
  - split; cbn; try done. intros i p Hp. exists p. split; [done|]. by apply dev_step_agree.
Qed.

(** One device changes, and its line. *)
Definition put (i : nat) (p : DevEntry) (b : B) (s : ST) : ST := Build_tty b (<[i := p]> (DevTable s)) (_file s) (curlst s).

Lemma put_dev e s i p q ln b' p' q' : inv e s -> live s i p q ln ->
  untouched (fun ln' => ln' <> ln) (s_board s) b' ->
  p_qsize p' = p_qsize p -> p_rxq p' = Some q' -> p_line p' = Some ln -> dev_inv b' p' q' ln ->
  inv e (put i p' b' s) /\ live (put i p' b' s) i p' q' ln.
Proof.
  intros Hi Hl [Hb Hu] Hz Hq Hn Hd. destruct (live_inv _ _ _ _ _ _ Hi Hl) as [_ Hie]. destruct Hi as [H1 H2 H3 H4 H5 H6].
  assert (Hl' := Hl). destruct Hl' as (Hp & _ & Hpl). pose proof (lookup_lt_Some _ _ _ Hp) as Hlt.
  assert (live (put i p' b' s) i p' q' ln) as HL by (split; [by apply list_lookup_insert_eq|done]). split; [|done].
  assert (forall j x y z, j <> i -> live (put i p' b' s) j x y z -> live s j x y z) as Hback.
  { intros j x y z Hj (E & ? & ?). unfold put in E. cbn in E. rewrite list_lookup_insert_ne in E by done. done. }
  split; cbn [s_board put DevTable].
  - done.
  - intros j x Hx. destruct (decide (i = j)) as [<-|Hj].
    + rewrite list_lookup_insert_eq in Hx by done. simplify_eq. right. by exists q', ln.
    + rewrite list_lookup_insert_ne in Hx by done. destruct (H2 j x Hx) as [?|(y & z & ? & ? & ? & ?)]; [by left|right].
      exists y, z. split_and!; try done. apply (dev_inv_agree (s_board s)); [|done]. apply Hu. intros ->.
      apply Hj. apply (H3 i j p x q y ln); done.
  - intros j k x x' y y' z Hx Hx'. destruct (decide (j = i)) as [->|Hj], (decide (k = i)) as [->|Hk]; [done| | |].
    + destruct Hx as (E1 & E2 & E3). destruct HL as (F1 & F2 & F3). simplify_eq.
      apply (H3 i k p x' q y' ln); [done|by apply Hback].
    + destruct Hx' as (E1 & E2 & E3). destruct HL as (F1 & F2 & F3). simplify_eq.
      apply (H3 j i x p y q ln); [by apply Hback|done].
    + apply (H3 j k x x' y y' z); by apply Hback.
  - intros j Hj. destruct (decide (i = j)) as [<-|Hne].
    + rewrite list_lookup_insert_eq by done. exists p'. split; [done|]. rewrite Hz. destruct (H4 i Hj) as (x & Hx & Hxz). congruence.
    + rewrite list_lookup_insert_ne by done. by apply H4.
  - destruct H5 as (x & Hx & Hxz). exists x. split; [|done]. rewrite list_lookup_insert_ne by lia. done.
  - by rewrite length_insert.
Qed.

Lemma put_later w e s i p q ln b' p' : inv e s -> live s i p q ln -> untouched (fun ln' => ln' <> ln) (s_board s) b' ->
  dev_step w (s_board s) b' p p' -> later (only i w) s (put i p' b' s).
Proof.
  intros Hi Hl [_ Hu] Hd. split; cbn [_file curlst put DevTable s_board]; [done|done|by rewrite length_insert|].
  assert (Hl' := Hl). destruct Hl' as (Hp & _). pose proof (lookup_lt_Some _ _ _ Hp) as Hlt. intros j x Hx. unfold only.
  destruct (decide (j = i)) as [->|Hj].
  - exists p'. split; [by apply list_lookup_insert_eq|]. by simplify_eq.
  - exists x. split; [by rewrite list_lookup_insert_ne by done|]. apply dev_step_agree. intros z Hz Hn. apply Hu. intros ->.
    apply Hj. destruct (p_rxq x) as [y|] eqn:E; [|done]. by apply (iv_lines e s Hi j i x p y q ln).
Qed.

Lemma untouched_trans (P : line -> Prop) b1 b2 b3 : untouched P b1 b2 -> untouched P b2 b3 -> untouched P b1 b3.
Proof.
  intros [_ H1] [Hb H2]. split; [done|]. intros ln Hl.
  destruct (H1 ln Hl) as (E1 & E2 & E3 & ? & ?), (H2 ln Hl) as (F1 & F2 & F3 & ? & ?). split_and!; try congruence; lia.
Qed.

Lemma dev_wp i p (s : ST) (Q : DevEntry -> ST -> Prop) : DevTable s !! i = Some p -> Q p s -> wpo (dev i) Q s.
Proof. unfold wp, dev. by intros ->. Qed.

Lemma upd_dev_wp i f p (s : ST) (Q : unit -> ST -> Prop) : DevTable s !! i = Some p -> Q tt (put i (f p) (s_board s) s) ->
  wpo (upd_dev i f) Q s.
Proof. intros Hp H. unfold upd_dev. apply wp_bind. by apply (dev_wp i p). Qed.

Lemma call_wp i op p ln (s : ST) (Q : Z -> ST -> Prop) : DevTable s !! i = Some p -> p_line p = Some ln ->
  Q (handler ln op (s_board s)).1 (set_board (handler ln op (s_board s)).2 s) -> wpo (call i op) Q s.
Proof.
  intros Hp Hl H. unfold call. apply wp_bind, (dev_wp i p); [done|]. apply wp_bind, (wp_need _ _ ln); [done|].
  unfold wp, run_handler. by destruct (handler ln op (s_board s)).
Qed.

Lemma rxq_wp i p q (s : ST) (Q : Queue -> ST -> Prop) : DevTable s !! i = Some p -> p_rxq p = Some q -> Q q s -> wpo (rxq i) Q s.
Proof. intros Hp Hq H. unfold rxq. apply wp_bind, (dev_wp i p); [done|]. by apply (wp_need _ _ q). Qed.

Lemma live_tick s i p q ln b : live s i p q ln -> live (set_board b s) i p q ln.
Proof. done. Qed.

(** ** A character arrives *)

Lemma dev_step_take b b' p p' q q' ln c : board_ok b' ->
  p_qsize p' = p_qsize p -> p_line p' = p_line p -> p_intr p' = p_intr p -> p_term p' = p_term p -> p_t p' = p_t p ->
  p_rxq p = Some q -> p_rxq p' = Some q' -> p_line p = Some ln ->
  (p_rxoff p = true -> p_rxoff p' = true) -> (p_rxoff p = false -> p_rxoff p' = true -> 20 <= Qused q') ->
  rx ln b = c :: rx ln b' -> tx ln b' = tx ln b -> (tdelay ln b' <= tdelay ln b)%nat -> Qused q <= Qused q' -> stream_of b' p' = stream_of b p ->
  dev_step [] b b' p p' /\ (meas ln b' < meas ln b)%nat.
Proof.
  intros Hb H1 H2 H3 H4 H5 Hq Hq' Hl Ho Ho' Hr Ht Htd Hu Hs. destruct (patience_ok ln b' Hb) as [Hd _].
  assert (meas ln b' < meas ln b)%nat as Hm by (unfold meas; rewrite Hr; cbn [length]; lia). split; [|done].
  split; [done|congruence|done|]. intros q1 ln1 E1 E2. simplify_eq. exists q'. split_and!; try done; try lia.
  - rewrite Hr. cbn. lia.
  - by rewrite Ht, app_nil_r.
Qed.

Lemma queue_counts q : queue_ok q -> 0 <= Qused q /\ 0 <= Qspace q /\ Qused q + Qspace q = q_limit q.
Proof. intros []. unfold Qused, Qspace. lia. Qed.

Lemma put_queue q c : queue_ok q -> 0 < Qspace q -> 0 <= c < 256 ->
  exists q', Qput q c = Some q' /\ queue_ok q' /\ q_limit q' = q_limit q /\ contents q' = contents q ++ [c] /\
    Qused q' = Qused q + 1 /\ Qspace q' = Qspace q - 1.
Proof.
  intros Hq Hs Hc. destruct (Qput_ok q c Hq ltac:(unfold Qspace in Hs; lia)) as (q' & H1 & H2 & H3 & H4). exists q'.
  assert (u8 c = c) as Eu by (apply wrapu_small; change (2 ^ 8) with 256; lia). rewrite Eu in H4.
  pose proof (contents_length q Hq) as L1. pose proof (contents_length q' H2) as L2. rewrite H4, length_app in L2. cbn in L2.
  destruct (queue_counts q Hq) as (? & _ & ?), (queue_counts q' H2) as (? & _ & ?). unfold Qused, Qspace in *. split_and!; try done; lia.
Qed.

(** What the loop over the characters does with the one it received. *)
Definition take_char (f i : nat) (p : DevEntry) (c : Z) : M ST unit :=
  match rx_decide p c with
  | RxIntr => gsignal (p_intr p)
  | RxStart => upd_dev i (set_txoff false)
  | RxStop => upd_dev i (set_txoff true)
  | RxData c =>
    rxq i ≫= fun q =>
    let n := Qspace q in
    when (0 <? n)
      (need (Qput q c) ≫= fun q' =>
       upd_dev i (set_rxq (Some q')) ≫= fun _ =>
       when ((n <? 20) && negb (p_rxoff p))
         (rx_stop i true ≫= fun _ =>
          when (on (c_iflag (p_t p)) IXOFF) (_chwrite f i (CNTRL (ch "S")))))
  end.

Lemma rx_loop_eq f i : rx_loop (S f) i = (call i OP_RXRDY ≫= fun rdy =>
  if rdy =? 0 then mret tt
  else call i OP_RX ≫= fun c => dev i ≫= fun p => take_char f i p c ≫= fun _ => rx_loop f i).
Proof. reflexivity. Qed.

(** ** The poll ends *)

(** How many devices have not stopped their sender. *)
Fixpoint open_count (l : list DevEntry) : nat :=
  match l with
  | [] => 0
  | p :: l' => ((if p_rxoff p then 0 else 1) + open_count l')%nat
  end.

Lemma open_count_le l : forall l', length l' = length l ->
  (forall i p, l !! i = Some p -> exists p', l' !! i = Some p' /\ (p_rxoff p = true -> p_rxoff p' = true)) ->
  (open_count l' <= open_count l)%nat /\
  forall i p p', l !! i = Some p -> l' !! i = Some p' -> p_rxoff p = false -> p_rxoff p' = true ->
    (open_count l' < open_count l)%nat.
Proof.
  induction l as [|p l IH]; intros [|p' l'] Hl H; cbn in Hl; try lia; [by split|].
  destruct (IH l' ltac:(lia) (fun i => H (S i))) as [H1 H2]. destruct (H 0%nat p eq_refl) as (x & [= <-] & Hx).
  cbn [open_count]. split; [destruct (p_rxoff p), (p_rxoff p'); try lia; by specialize (Hx eq_refl)|].
  intros [|i] y y' Hy Hy' E1 E2; cbn in Hy, Hy'; simplify_eq; [rewrite E1, E2; lia|].
  pose proof (H2 i y y' Hy Hy' E1 E2). destruct (p_rxoff p), (p_rxoff p'); try lia.
Qed.

Definition nu (s : ST) : nat := open_count (DevTable s).

Lemma open_count_bound l : (open_count l <= length l)%nat.
Proof. induction l as [|p l IH]; cbn; [lia|]. destruct (p_rxoff p); lia. Qed.

Lemma later_nu w s s' : later w s s' -> (nu s' <= nu s)%nat /\
  forall i p p', DevTable s !! i = Some p -> DevTable s' !! i = Some p' -> p_rxoff p = false -> p_rxoff p' = true -> (nu s' < nu s)%nat.
Proof.
  intros [_ _ Hl Hd]. apply open_count_le; [done|]. intros i p Hp. destruct (Hd i p Hp) as (p' & Hp' & Hs). exists p'.
  split; [done|apply Hs].
Qed.

Lemma live_back w s s' i p' q' ln : later w s s' -> live s' i p' q' ln ->
  exists p q, live s i p q ln /\ dev_step (w i) (s_board s) (s_board s') p p'.
Proof.
  intros Hl (H1 & H2 & H3). pose proof (lookup_lt_Some _ _ _ H1) as Hlt. rewrite (lt_size _ _ _ Hl) in Hlt.
  destruct (lookup_lt_is_Some_2 _ _ Hlt) as [p Hp]. destruct (lt_devs _ _ _ Hl i p Hp) as (x & Hx & Hs). simplify_eq.
  destruct (p_rxq p) as [q|] eqn:E; [|by rewrite (ds_none _ _ _ _ _ Hs E) in H2]. exists p, q. split; [|done]. split_and!; try done.
  destruct (ds_static _ _ _ _ _ Hs) as (_ & <- & _). done.
Qed.

(** A flow control character that was sent when the sender was stopped. *)
Lemma later_stop i c s1 s2 s3 p1 p2 q ln : live s1 i p1 q ln -> DevTable s2 !! i = Some p2 ->
  p_rxoff p1 = false -> p_rxoff p2 = true -> on (c_iflag (p_t p1)) IXOFF = true ->
  later nothing s1 s2 -> later (only i [c]) s2 s3 -> later nothing s1 s3.
Proof.
  intros (Hp1 & _) Hp2 E1 E2 Ho L1 L2.
  pose proof (later_trans nothing (only i [c]) (only i [c]) s1 s2 s3 ltac:(done) L1 L2) as [H1 H2 H3 H4].
  split; [done|done|done|]. intros j x Hx. destruct (H4 j x Hx) as (x' & Hx' & Hs). exists x'. split; [done|]. unfold only in Hs.
  destruct (decide (j = i)) as [->|]; [|done]. simplify_eq.
  assert (p_rxoff x' = true) as E3.
  { destruct (lt_devs _ _ _ L2 i p2 Hp2) as (y & Hy & Hy'). simplify_eq. by apply (ds_rxoff _ _ _ _ _ Hy'). }
  destruct Hs as [A1 A2 A3 A4]. split; try done. intros q1 ln1 F1 F2.
  destruct (A4 q1 ln1 F1 F2) as (q' & ? & ? & ? & ? & ? & ? & _). exists q'. split_and!; try done; intros; congruence.
Qed.

Section Poll.
Variables (R e : nat).

Definition bounded (s : ST) : Prop := forall i p q ln, live s i p q ln -> (length (rx ln (s_board s)) <= R)%nat.

Lemma later_bounded w s s' : later w s s' -> bounded s -> bounded s'.
Proof.
  intros Hl Hb i p' q' ln H. destruct (live_back _ _ _ _ _ _ _ Hl H) as (p & q & Hp & Hs).
  specialize (Hb i p q ln Hp). destruct Hp as (_ & E1 & E2). destruct (ds_live _ _ _ _ _ Hs q ln E1 E2) as (? & _ & _ & _ & _ & _ & Hx & _). lia.
Qed.

Definition step_fuel : nat := (R + 9 * patience + 22)%nat.
Definition need_fuel (n : nat) : nat := (S n * step_fuel)%nat.

(** The poll has looked at every device: characters that were to come came, or
    came nearer, or the sender was stopped. *)
Definition nearer (s s' : ST) (i : nat) : Prop := forall p q ln, live s i p q ln -> exists p', DevTable s' !! i = Some p' /\
  (rx ln (s_board s) <> [] -> (meas ln (s_board s') < meas ln (s_board s))%nat \/ p_rxoff p' = true).

Definition scan_spec (n : nat) : Prop := forall fuel s, inv e s -> bounded s -> (nu s <= n)%nat -> (need_fuel n <= fuel)%nat ->
  wpo (scandevs fuel) (fun _ s' => inv e s' /\ later nothing s s' /\ forall i, nearer s s' i) s.

Lemma tx_step i c s p q ln : inv e s -> live s i p q ln -> tready ln (s_board s) ->
  let s' := set_board (handler ln (OP_TX c) (s_board s)).2 s in inv e s' /\ later (only i [c]) s s'.
Proof.
  intros Hi Hl Ht. pose proof (tx_ok ln c (s_board s) (iv_board _ _ Hi) Ht) as H.
  destruct (handler ln (OP_TX c) (s_board s)) as [r b']. destruct H as (Hu & Hr & Hx & Hc & Hd). cbn [snd].
  assert (set_board b' s = put i p b' s) as -> by (unfold set_board, put; rewrite list_insert_id by apply Hl; done).
  destruct (live_inv _ _ _ _ _ _ Hi Hl) as [[D1 D2 D3 D4 D5] _]. destruct (Hl) as (Hp & Hq & Hn). split.
  - apply (put_dev e s i p q ln b' p q); try done. by split; rewrite ?Hr, ?Hc.
  - apply (put_later [c] e s i p q ln); try done. split; [done|done|done|]. intros q1 ln1 E1 E2. simplify_eq. exists q.
    split_and!; try done; try lia.
    + unfold stream_of. by rewrite Hq, Hn, Hr.
    + intros ? ?. congruence.
    + unfold meas. rewrite Hr. lia.
    + by rewrite Hr.
Qed.

(** How long a write may wait. *)
Definition tmeas (ln : line) (s : ST) : nat := (nu s * S patience + tdelay ln (s_board s))%nat.

Lemma nu_bound s : inv e s -> (nu s <= 8)%nat.
Proof. intros Hi. unfold nu. pose proof (open_count_bound (DevTable s)) as H. rewrite (iv_size _ _ Hi) in H. exact H. Qed.

Lemma tmeas_bound ln s : inv e s -> (tmeas ln s <= 9 * patience + 8)%nat.
Proof.
  intros Hi. unfold tmeas. pose proof (nu_bound s Hi). destruct (patience_ok ln _ (iv_board _ _ Hi)) as [_ ?]. nia.
Qed.

Lemma later_tmeas s s' i p q ln : inv e s' -> later nothing s s' -> live s i p q ln -> (tmeas ln s' <= tmeas ln s)%nat.
Proof.
  intros Hi Hl Hp. destruct (later_live _ _ _ _ _ _ _ Hl Hp) as (p' & q' & (Hp' & _) & Hs). destruct (Hp) as (H1 & H2 & H3).
  destruct (ds_live _ _ _ _ _ Hs q ln H2 H3) as (? & _ & _ & _ & _ & _ & _ & _ & Hd). destruct (later_nu _ _ _ Hl) as [Hn Hn'].
  destruct (patience_ok ln _ (iv_board _ _ Hi)) as [_ Hpt]. unfold tmeas.
  destruct (p_rxoff p) eqn:E.
  - specialize (Hd eq_refl (ds_rxoff _ _ _ _ _ Hs E)). nia.
  - destruct (p_rxoff p') eqn:E'; [|specialize (Hd eq_refl eq_refl); nia]. specialize (Hn' i p p' H1 Hp' E E'). nia.
Qed.

Lemma tx_loop_wp n i c : scan_spec n -> forall fuel s p q ln, inv e s -> bounded s -> (nu s <= n)%nat -> live s i p q ln ->
  (need_fuel n + tmeas ln s + 1 <= fuel)%nat -> wpo (tx_loop fuel i c) (fun _ s' => inv e s' /\ later (only i [c]) s s') s.
Proof.
  intros Hn. induction fuel as [|f IH]; intros s p q ln Hi Hb Hnu Hl Hf; [lia|].
  change (tx_loop (S f) i c) with (call i OP_TXRDY ≫= fun rdy => if rdy =? 0 then scandevs f ≫= fun _ => tx_loop f i c
    else call i (OP_TX c) ≫= fun _ => mret tt). wps. destruct (Hl) as (Hp & _ & Hln).
  apply (call_wp i _ p ln); [done|done|]. pose proof (txrdy_ok ln (s_board s) (iv_board _ _ Hi)) as H.
  destruct (handler ln OP_TXRDY (s_board s)) as [r b']. destruct H as (Hu & H1 & H2). cbn [fst snd].
  destruct (tick e s b' Hi Hu) as [Hi1 Hl1]. destruct (Z.eqb_spec r 0) as [->|Hr].
  - specialize (H2 eq_refl). wps. assert (tmeas ln (set_board b' s) < tmeas ln s)%nat as Ht by (unfold tmeas, nu; cbn; lia).
    eapply wp_mono; [apply (Hn f (set_board b' s) Hi1 (later_bounded _ _ _ Hl1 Hb)); [done|lia]|].
    intros _ s2 (Hi2 & Hl2 & _). cbn beta. pose proof (later_nothing _ _ _ Hl1 Hl2) as Hl12.
    destruct (later_live _ _ _ _ _ _ _ Hl12 Hl) as (p2 & q2 & Hp2 & _).
    pose proof (later_tmeas (set_board b' s) s2 i p q ln Hi2 Hl2 ltac:(done)).
    eapply wp_mono; [apply (IH s2 p2 q2 ln); [done|by apply (later_bounded _ _ _ Hl12)| |done|lia]|].
    { pose proof (proj1 (later_nu _ _ _ Hl12)). lia. }
    intros _ s3 [Hi3 Hl3]. split; [done|]. by apply (later_trans nothing (only i [c]) _ s s2).
  - wps. apply (call_wp i _ p ln); [done|done|]. apply wp_ret.
    destruct (tx_step i c (set_board b' s) p q ln Hi1 ltac:(done) (H1 Hr)) as [Hi2 Hl2]. split; [done|].
    by apply (later_trans nothing (only i [c]) _ s (set_board b' s)).
Qed.

Lemma chwrite_wp n i c fuel s p q ln : scan_spec n -> inv e s -> bounded s -> (nu s <= n)%nat -> live s i p q ln ->
  (need_fuel n + 9 * patience + 10 <= fuel)%nat -> wpo (_chwrite fuel i c) (fun _ s' => inv e s' /\ later (only i [c]) s s') s.
Proof.
  intros Hn Hi Hb Hnu Hl Hf. destruct fuel as [|f]; [lia|].
  change (_chwrite (S f) i c) with (dev i ≫= fun p => if p_txoff p then scandevs f ≫= fun _ => _chwrite f i c
    else match p_line p with Some _ => tx_loop f i c | None => mret tt end). wps. destruct (Hl) as (Hp & _ & Hln).
  apply (dev_wp i p); [done|]. destruct (live_inv _ _ _ _ _ _ Hi Hl) as [Hd _]. rewrite (di_txoff _ _ _ _ Hd), Hln.
  pose proof (tmeas_bound ln s Hi). apply (tx_loop_wp n i c Hn f s p q ln); try done. lia.
Qed.

Lemma put_twice i p p' b b' s : put i p' b' (put i p b s) = put i p' b' s.
Proof. unfold put. cbn. by rewrite list_insert_insert_eq. Qed.

Lemma put_lookup i p b s x : DevTable s !! i = Some x -> DevTable (put i p b s) !! i = Some p.
Proof. intros H. apply list_lookup_insert_eq. by apply lookup_lt_Some in H. Qed.

Lemma rx_stop_wp i stop p ln (s : ST) (Q : unit -> ST -> Prop) : DevTable s !! i = Some p -> p_line p = Some ln ->
  Q tt (put i (set_rxoff stop p) (handler ln (OP_RXSTOP stop) (s_board s)).2 s) -> wpo (rx_stop i stop) Q s.
Proof.
  intros Hp Hl H. unfold rx_stop. wps. apply (upd_dev_wp i _ p); [done|]. wps.
  apply (call_wp i _ (set_rxoff stop p) ln); [by apply (put_lookup _ _ _ _ p)|done|]. by apply wp_ret.
Qed.

Section Take.
Variables (i : nat) (s : ST) (p : DevEntry) (q : Queue) (ln : line) (c : Z) (b2 : B).
Hypothesis (Hi : inv e s) (Hl : live s i p q ln).
Hypothesis (Hr : rx ln (s_board s) = c :: rx ln b2) (Hcr : credit ln (s_board s) <> Some O).
Hypothesis (Hu : untouched (fun ln' => ln' <> ln) (s_board s) b2).
Hypothesis (Ht : tx ln b2 = tx ln (s_board s)) (Hc2 : credit ln b2 = pred <$> credit ln (s_board s)).
Hypothesis (Hd2 : (tdelay ln b2 <= tdelay ln (s_board s))%nat).

(** The outcome: one character less is to come. *)
Definition took (s' : ST) : Prop := inv e s' /\ later nothing s s' /\
  (length (rx ln (s_board s')) < length (rx ln (s_board s)))%nat /\ (meas ln (s_board s') < meas ln (s_board s))%nat.

Lemma took_put p' q' b3 : untouched (fun ln' => ln' <> ln) (s_board s) b3 ->
  p_qsize p' = p_qsize p -> p_line p' = p_line p -> p_intr p' = p_intr p -> p_term p' = p_term p -> p_t p' = p_t p ->
  p_rxq p' = Some q' -> (p_rxoff p = true -> p_rxoff p' = true) -> (p_rxoff p = false -> p_rxoff p' = true -> 20 <= Qused q') ->
  rx ln b3 = rx ln b2 -> tx ln b3 = tx ln (s_board s) -> (tdelay ln b3 <= tdelay ln (s_board s))%nat ->
  Qused q <= Qused q' -> contents q' ++ omap (recv (p_t p)) (rx ln b2) = stream_of (s_board s) p -> dev_inv b3 p' q' ln ->
  took (put i p' b3 s).
Proof.
  intros Hu3 H1 H2 H3 H4 H5 Hq' Ho Ho' Hr3 Ht3 Hd3 Hus Hs Hdi. destruct (Hl) as (Hp & Hq & Hln).
  destruct (dev_step_take (s_board s) b3 p p' q q' ln c) as [Hst Hm]; try done.
  - by destruct Hu3.
  - by rewrite Hr3.
  - unfold stream_of. rewrite Hq', H2, Hln, H5, Hr3. rewrite Hs. unfold stream_of. by rewrite Hq, Hln.
  - split_and!; [|by apply (later_only i), (put_later [] e s i p q ln)| |done].
    + apply (put_dev e s i p q ln b3 p' q'); try done. congruence.
    + cbn [s_board put]. rewrite Hr3, Hr. cbn. lia.
Qed.

Lemma take_char_wp n f : (forall m, (m < n)%nat -> scan_spec m) -> bounded s -> (nu s <= n)%nat ->
  (forall m, n = S m -> (need_fuel m + 9 * patience + 10 <= f)%nat) ->
  wpo (take_char f i p c) (fun _ s' => took s') (set_board b2 s).
Proof.
  intros Hn Hb Hnu Hf. destruct (Hl) as (Hp & Hq & Hln). destruct (live_inv _ _ _ _ _ _ Hi Hl) as [[D1 D2 D3 D4 D5] _].
  destruct Hu as [Hb2 Hu2]. pose proof (rx_bytes ln _ (iv_board _ _ Hi)) as Hby. rewrite Hr in Hby, D4.
  apply Forall_cons_iff in Hby as [Hcb _], D4 as [Hcl Hcl']. destruct (queue_counts q D1) as (Hq0 & Hq1 & Hq2).
  unfold take_char. rewrite rx_decide_clean by done.
  assert (stream_of (s_board s) p = contents q ++ match recv (p_t p) c with Some c' => [c'] | None => [] end ++ omap (recv (p_t p)) (rx ln b2)) as Hst.
  { unfold stream_of. rewrite Hq, Hln, Hr. cbn. by destruct (recv (p_t p) c). }
  destruct (recv (p_t p) c) as [c'|] eqn:Erc.
  - assert (0 <= c' < 256) as Hcb' by (unfold recv in Erc; case_match; simplify_eq; by apply strip_byte).
    wps. apply (rxq_wp i p q); [done|done|]. cbn zeta.
    assert (0 < Qspace q) as Hsp. { destruct (p_rxoff p); [|lia]. destruct D5 as [(k & Ek & Hk) _]. rewrite Ek in Hcr. destruct k; [done|lia]. }
    destruct (put_queue q c' D1 Hsp Hcb') as (q' & Eq' & Q1 & Q2 & Q3 & Q4 & Q5).
    assert (contents q' ++ omap (recv (p_t p)) (rx ln b2) = stream_of (s_board s) p) as Hs by (by rewrite Hst, Q3, <- app_assoc).
    apply wp_when; [|rewrite (proj2 (Z.ltb_lt _ _)) by lia; done]. intros _. wps. apply (wp_need _ _ q'); [done|]. wps.
    apply (upd_dev_wp i _ p); [done|]. apply wp_when.
    + intros [Hlt%Z.ltb_lt Hno%negb_true_iff]%andb_true_iff. rewrite Hno in D5. destruct D5 as [Dc Ds].
      wps. apply (rx_stop_wp i true (set_rxq (Some q') p) ln); [by apply (put_lookup _ _ _ _ p)|done|].
      change (s_board (put i (set_rxq (Some q') p) (s_board (set_board b2 s)) (set_board b2 s))) with b2.
      pose proof (rxstop_ok ln true b2 Hb2) as H. destruct (handler ln (OP_RXSTOP true) b2) as [r b3].
      destruct H as (Hu3 & R1 & R2 & R3 & R4 & k & Ek & Hk). cbn [snd]. rewrite put_twice.
      change (put i ?x b3 (set_board b2 s)) with (put i x b3 s).
      set (p4 := set_rxoff true (set_rxq (Some q') p)).
      assert (took (put i p4 b3 s)) as Htk.
      { apply (took_put p4 q' b3); try done; try congruence; try lia.
        - apply (untouched_trans _ _ b2); done.
        - split; [done|lia|done|by rewrite R1|]. cbn. rewrite Ek. split; [exists k; split; [done|lia]|lia]. }
      apply wp_when; [|done]. intros Hixo. destruct Htk as (T1 & T2 & T3 & T4).
      assert (live (put i p4 b3 s) i p4 q' ln) as HL by (split; [by apply (put_lookup _ _ _ _ p)|done]).
      assert (DevTable (put i p4 b3 s) !! i = Some p4) as Hp4 by apply HL.
      pose proof (proj2 (later_nu _ _ _ T2) i p p4 Hp Hp4 Hno eq_refl) as Hnu4. destruct n as [|m]; [lia|].
      eapply wp_mono; [apply (chwrite_wp m i _ f (put i p4 b3 s) p4 q' ln); try done|].
      * apply Hn. lia.
      * by apply (later_bounded _ _ _ T2).
      * lia.
      * by apply Hf.
      * intros _ s5 [Hi5 Hl5]. destruct (later_live _ _ _ _ _ _ _ Hl5 HL) as (p5 & q5 & _ & Hs5).
        destruct (ds_live _ _ _ _ _ Hs5 q' ln ltac:(done) ltac:(done)) as (_ & _ & _ & _ & _ & Hm5 & Hx5 & _).
        split_and!; [done|by apply (later_stop i (CNTRL (ch "S")) s (put i p4 b3 s) s5 p p4 q ln)|lia|lia].
    + intros Hno. apply (took_put (set_rxq (Some q') p) q' b2); try done; try congruence; try lia; [cbn; congruence|].
      split; [done|lia|done|done|]. cbn [p_rxoff set_rxq]. rewrite Hc2. destruct (p_rxoff p) eqn:Ero.
      * destruct D5 as [(k & Ek & Hk) Hu19]. rewrite Ek in *. split; [|lia]. exists (pred k). split; [done|]. destruct k; [done|]. cbn. lia.
      * destruct D5 as [Dc Ds]. rewrite Dc. split; [done|]. rewrite andb_true_r in Hno. apply Z.ltb_ge in Hno. lia.
  - apply (upd_dev_wp i _ p); [done|]. apply (took_put (set_txoff false p) q b2); try done; try congruence; try lia; [cbn; congruence|].
    split; [done|lia|done|done|]. cbn [p_rxoff set_txoff]. rewrite Hc2. destruct (p_rxoff p) eqn:Ero.
    + destruct D5 as [(k & Ek & Hk) Hu19]. rewrite Ek. split; [|lia]. exists (pred k). split; [done|]. lia.
    + destruct D5 as [Dc Ds]. by rewrite Dc.
Qed.
End Take.

Lemma step_meas w s s' i p q ln : later w s s' -> live s i p q ln -> (meas ln (s_board s') <= meas ln (s_board s))%nat.
Proof.
  intros Hl Hp. destruct (later_live _ _ _ _ _ _ _ Hl Hp) as (p' & q' & _ & Hs). destruct Hp as (_ & H2 & H3).
  by destruct (ds_live _ _ _ _ _ Hs q ln H2 H3) as (? & _ & _ & _ & _ & Hm & _).
Qed.

Lemma nearer_l s s1 s2 i : inv e s1 -> later nothing s s1 -> later nothing s1 s2 -> nearer s1 s2 i -> nearer s s2 i.
Proof.
  intros Hi1 Hl1 Hl2 Hn p q ln Hp. destruct (later_live _ _ _ _ _ _ _ Hl1 Hp) as (p1 & q1 & Hp1 & _).
  destruct (Hn p1 q1 ln Hp1) as (p2 & Hp2 & H). exists p2. split; [done|]. intros Hr.
  pose proof (step_meas _ _ _ _ _ _ _ Hl1 Hp). pose proof (step_meas _ _ _ _ _ _ _ Hl2 Hp1).
  destruct (rx ln (s_board s1)) eqn:E; [|destruct H as [H|H]; [done|left; lia|by right]]. left.
  destruct (patience_ok ln _ (iv_board _ _ Hi1)) as [Hd _].
  assert (meas ln (s_board s1) <= patience)%nat by (unfold meas; rewrite E; cbn; lia).
  assert (S patience <= meas ln (s_board s))%nat by (unfold meas; destruct (rx ln (s_board s)); [done|cbn; lia]). lia.
Qed.

Lemma nearer_r s s1 s2 i : nearer s s1 i -> later nothing s s1 -> later nothing s1 s2 -> nearer s s2 i.
Proof.
  intros Hn Hl1 Hl2 p q ln Hp. destruct (Hn p q ln Hp) as (p1 & Hp1 & H).
  destruct (lt_devs _ _ _ Hl2 i p1 Hp1) as (p2 & Hp2 & Hs). exists p2. split; [done|]. intros Hr.
  destruct (H Hr) as [H'|H']; [left|right; by apply (ds_rxoff _ _ _ _ _ Hs)].
  destruct (later_live _ _ _ _ _ _ _ Hl1 Hp) as (x & y & Hx & _). pose proof (step_meas _ _ _ _ _ _ _ Hl2 Hx). lia.
Qed.

Definition stop_fuel (n : nat) : nat := match n with O => 0 | S m => need_fuel m + 9 * patience + 10 end.

Lemma rx_loop_wp n i : (forall m, (m < n)%nat -> scan_spec m) -> forall fuel s p q ln, inv e s -> bounded s -> (nu s <= n)%nat ->
  live s i p q ln -> (length (rx ln (s_board s)) + 1 + stop_fuel n <= fuel)%nat ->
  wpo (rx_loop fuel i) (fun _ s' => inv e s' /\ later nothing s s' /\ nearer s s' i) s.
Proof.
  intros Hn. induction fuel as [|f IH]; intros s p q ln Hi Hb Hnu Hl Hf; [lia|]. rewrite rx_loop_eq. wps.
  destruct (Hl) as (Hp & Hq & Hln). apply (call_wp i _ p ln); [done|done|].
  pose proof (rxrdy_ok ln (s_board s) (iv_board _ _ Hi)) as H. destruct (handler ln OP_RXRDY (s_board s)) as [r b1].
  destruct H as (Hu & H1 & H2). cbn [fst snd]. destruct (tick e s b1 Hi Hu) as [Hi1 Hl1]. destruct (Z.eqb_spec r 0) as [->|Hr].
  - apply wp_ret. split_and!; [done|done|]. intros p' q' ln' Hx. assert (live s i p q ln) as Hx' by done.
    destruct Hx as (X1 & X2 & X3). simplify_eq. exists p. split; [done|]. intros Hne. cbn [set_board s_board].
    destruct (p_rxoff p) eqn:Ero; [by right|left]. destruct (live_inv _ _ _ _ _ _ Hi Hx') as [[_ _ _ _ D5] _].
    rewrite Ero in D5. specialize (H2 eq_refl Hne). rewrite (proj1 D5) in H2. specialize (H2 ltac:(done)).
    unfold meas. destruct (proj2 Hu ln I) as (-> & _). lia.
  - destruct (H1 Hr) as (Hrr & Hne & Hc0). destruct (proj2 Hu ln I) as (Er & Et & Ec & _).
    destruct (rx ln b1) as [|c l] eqn:Eb1; [congruence|]. wps. apply (call_wp i _ p ln); [done|done|]. cbn [s_board set_board].
    pose proof (rx_ok ln b1 c l (iv_board _ _ Hi1) Hrr Eb1) as H. destruct (handler ln OP_RX b1) as [c' b2].
    destruct H as (-> & Hu2 & R1 & R2 & R3 & R4). cbn [fst snd]. wps. apply (dev_wp i p); [done|]. wps.
    eapply wp_mono; [apply (take_char_wp i (set_board b1 s) p q ln c b2 Hi1 ltac:(done)) with (n := n); cbn [s_board set_board]; try done|].
    + by rewrite R1.
    + by rewrite Ec.
    + by apply (later_bounded _ _ _ Hl1).
    + intros m ->. cbn [stop_fuel] in Hf. lia.
    + intros _ s2 (Hi2 & Hl2 & Hx2 & Hm2). cbn beta. cbn [s_board set_board] in Hx2, Hm2. rewrite Eb1 in Hx2. rewrite <- Er in Hf.
      pose proof (later_nothing _ _ _ Hl1 Hl2) as Hl12. destruct (later_live _ _ _ _ _ _ _ Hl12 Hl) as (p2 & q2 & Hp2 & _).
      eapply wp_mono; [apply (IH s2 p2 q2 ln); [done|by apply (later_bounded _ _ _ Hl12)| |done|]|].
      * pose proof (proj1 (later_nu _ _ _ Hl12)). lia.
      * cbn [length] in *. lia.
      * intros _ s3 (Hi3 & Hl3 & _). split_and!; [done|by apply (later_nothing _ s2)|].
        intros p' q' ln' Hx. destruct Hx as (X1 & X2 & X3). simplify_eq.
        destruct (later_live _ _ _ _ _ _ _ Hl3 Hp2) as (p3 & q3 & (Hp3 & _) & _). exists p3. split; [done|]. intros _. left.
        pose proof (step_meas _ _ _ _ _ _ _ Hl3 Hp2). pose proof (step_meas _ _ _ _ _ _ _ Hl1 Hl). cbn [s_board set_board] in *. lia.
Qed.

Lemma scan_from_wp n : (forall m, (m < n)%nat -> scan_spec m) -> forall fuel k s, inv e s -> bounded s -> (nu s <= n)%nat ->
  (k <= e)%nat -> (e - k + R + 2 + stop_fuel n <= fuel)%nat ->
  wpo (scan_from fuel k) (fun _ s' => inv e s' /\ later nothing s s' /\ forall i, (k <= i)%nat -> nearer s s' i) s.
Proof.
  intros Hn. induction fuel as [|f IH]; intros k s Hi Hb Hnu Hk Hf; [lia|].
  change (scan_from (S f) k) with (dev k ≫= fun p => if p_qsize p =? 0 then modify (fun s => set_board (board_poll (s_board s)) s)
    else (match p_rxq p with None => mret tt | Some _ => rx_loop f k end) ≫= fun _ => scan_from f (S k)). wps.
  destruct (decide (k = e)) as [->|Hke].
  - destruct (iv_end _ _ Hi) as (p & Hp & Hz). apply (dev_wp e p); [done|]. rewrite Hz. cbn [Z.eqb]. wps.
    destruct (tick e s _ Hi (poll_ok _ (iv_board _ _ Hi))) as [Hi1 Hl1]. split_and!; [done|done|].
    intros i Hie p' q' ln Hx. pose proof (proj2 (live_inv _ _ _ _ _ _ Hi Hx)). lia.
  - destruct (iv_used _ _ Hi k ltac:(lia)) as (p & Hp & Hz). apply (dev_wp k p); [done|]. rewrite (proj2 (Z.eqb_neq _ _) Hz). wps.
    assert (wpo (match p_rxq p with None => mret tt | Some _ => rx_loop f k end)
      (fun _ s' => inv e s' /\ later nothing s s' /\ nearer s s' k) s) as H1.
    { destruct (iv_devs _ _ Hi k p Hp) as [E|(q & ln & E1 & E2 & _ & _)].
      - rewrite E. apply wp_ret. split_and!; [done|apply later_refl|]. intros p' q' ln (X1 & X2 & _). congruence.
      - rewrite E1. assert (live s k p q ln) as HL by done. apply (rx_loop_wp n k Hn f s p q ln); try done. specialize (Hb k p q ln HL). lia. }
    eapply wp_mono; [apply H1|]. intros _ s1 (Hi1 & Hl1 & Hn1). cbn beta.
    eapply wp_mono; [apply (IH (S k) s1); [done|by apply (later_bounded _ _ _ Hl1)| |lia|lia]|].
    { pose proof (proj1 (later_nu _ _ _ Hl1)). lia. }
    intros _ s2 (Hi2 & Hl2 & Hn2). split_and!; [done|by apply (later_nothing _ s1)|]. intros i Hki.
    destruct (decide (i = k)) as [->|Hik]; [by apply (nearer_r _ s1)|]. apply (nearer_l _ s1); try done. apply Hn2. lia.
Qed.

Lemma scan_all n : scan_spec n.
Proof.
  induction n as [n IHn] using (well_founded_induction lt_wf). intros fuel s Hi Hb Hnu Hf.
  assert (e < 8)%nat as He. { destruct (iv_end _ _ Hi) as (p & Hp & _). apply lookup_lt_Some in Hp. by rewrite (iv_size _ _ Hi) in Hp. }
  assert (e + R + 3 + stop_fuel n <= need_fuel n)%nat as Hfu.
  { unfold stop_fuel, need_fuel, step_fuel. destruct n as [|m]; [lia|]. nia. }
  destruct fuel as [|f]; [lia|]. change (scandevs (S f)) with (scan_from f 0).
  eapply wp_mono; [apply (scan_from_wp n IHn f 0 s); try done; lia|]. intros _ s' (H1 & H2 & H3). split_and!; try done.
  intros i. apply H3. lia.
Qed.

End Poll.
End TermioOk.
