(* ===== verification/TermioRead.v ===== *)
(** * TermioRead: reading lines

    [cook] says what a read gives for the characters that arrive: the line after
    erasures, the characters that are left for the next read, and the echo. The
    theorem: [_read] of the terminal driver gives that, whenever the characters
    arrive and however often the transmitters are busy. *)

From S2P Require Import Prelude CString Comp Queue Ttymode Termio TermioOk.

(** ** What a read gives *)

(** A character as the reader sees it. *)
Definition cooked (t : termio) (m : Z) : Z := if on (c_iflag t) ICRNL && (s8 m =? CR) then NL else s8 m.

(** What is sent for bytes that are written. *)
Definition out_bytes (t : termio) (l : list Z) : list Z :=
  l ≫= fun c => if on (c_oflag t) ONLCR && (c =? NL) then [CR; c] else [c].

Definition erase_echo (t : termio) : list Z :=
  if on (c_lflag t) ECHOE then [BS; ch " "; BS] else if on (c_lflag t) ECHO then [BS] else [].
Definition char_echo (t : termio) (c : Z) : list Z := if on (c_lflag t) ECHO then [c] else [].

Definition prepend (w : list Z) (r : option (list Z * list Z * list Z)) : option (list Z * list Z * list Z) :=
  '(l, rest, echo) ← r; Some (l, rest, w ++ echo).

(** The line, the characters left, the echo; [None] when there are not enough
    characters. *)
Fixpoint cook (t : termio) (n : nat) (buf : list Z) (cs : list Z) : option (list Z * list Z * list Z) :=
  if (n <=? length buf)%nat then Some (buf, cs, [])
  else
    match cs with
    | [] => None
    | m :: cs' =>
      let c := cooked t m in
      if on (c_lflag t) ICANON then
        if c =? cc t VERASE then
          match buf with
          | [] => cook t n [] cs'
          | _ => prepend (out_bytes t (erase_echo t)) (cook t n (removelast buf) cs')
          end
        else if (c =? cc t VEOL) || (c =? cc t VEOL2) then Some (buf ++ [c], cs', out_bytes t (char_echo t c))
        else prepend (out_bytes t (char_echo t c)) (cook t n (buf ++ [c]) cs')
      else cook t n (buf ++ [c]) cs'
    end.

Section TermioRead.
Context {B : Type} {BD : Board B} {SO : SerialOk B}.
Abbreviation ST := (tty B).
Abbreviation wpo := (wp no_fault).

Definition stream (s : ST) (i : nat) : list Z :=
  match DevTable s !! i with Some p => stream_of (s_board s) p | None => [] end.

(** ** What a read does not change *)

Record dev_keep (w : list Z) (b b' : B) (p p' : DevEntry) : Prop := {
  dk_static : p_qsize p' = p_qsize p /\ p_line p' = p_line p /\ p_intr p' = p_intr p /\ p_term p' = p_term p /\ p_t p' = p_t p;
  dk_none : p_rxq p = None -> p_rxq p' = None;
  dk_live q ln : p_rxq p = Some q -> p_line p = Some ln -> exists q', p_rxq p' = Some q' /\
    (length (rx ln b') <= length (rx ln b))%nat /\ (on (c_iflag (p_t p)) IXOFF = false -> tx ln b' = tx ln b ++ w)
}.

Record kept (w : nat -> list Z) (s s' : ST) : Prop := {
  kp_file : _file s' = _file s;
  kp_curlst : curlst s' = curlst s;
  kp_size : length (DevTable s') = length (DevTable s);
  kp_devs : forall i p, DevTable s !! i = Some p -> exists p', DevTable s' !! i = Some p' /\ dev_keep (w i) (s_board s) (s_board s') p p'
}.

(** The streams of all devices but [i]. *)
Definition others (i : nat) (s s' : ST) : Prop := forall j, j <> i -> stream s' j = stream s j.

Lemma dev_keep_trans w1 w2 b1 b2 b3 p1 p2 p3 : dev_keep w1 b1 b2 p1 p2 -> dev_keep w2 b2 b3 p2 p3 ->
  dev_keep (w1 ++ w2) b1 b3 p1 p3.
Proof.
  intros [(A1 & A2 & A3 & A4 & A5) N1 L1] [(B1 & B2 & B3 & B4 & B5) N2 L2]. split; [split_and!; congruence|auto|].
  intros q ln Hq Hl. destruct (L1 q ln Hq Hl) as (q2 & Hq2 & X1 & T1).
  destruct (L2 q2 ln Hq2 ltac:(congruence)) as (q3 & Hq3 & X2 & T2). exists q3. split_and!; [done|lia|].
  intros H. rewrite T2, T1, app_assoc by (try rewrite A5; done). done.
Qed.

Lemma kept_trans w1 w2 w3 s1 s2 s3 : (forall i, w3 i = w1 i ++ w2 i) -> kept w1 s1 s2 -> kept w2 s2 s3 -> kept w3 s1 s3.
Proof.
  intros Hw [F1 C1 Z1 D1] [F2 C2 Z2 D2]. split; [congruence|congruence|congruence|]. intros i p Hp.
  destruct (D1 i p Hp) as (p2 & H2 & S2). destruct (D2 i p2 H2) as (p3 & H3 & S3). exists p3. split; [done|].
  rewrite Hw. by apply (dev_keep_trans _ _ _ (s_board s2) _ _ p2).
Qed.

Lemma kept_only i s s' : kept (only i []) s s' -> kept nothing s s'.
Proof.
  intros [? ? ? H]. split; try done. intros j p Hp. destruct (H j p Hp) as (p' & ? & Hs). exists p'. split; [done|].
  unfold only in Hs. by destruct (decide _).
Qed.

Lemma later_kept w s s' : later w s s' -> kept w s s'.
Proof.
  intros [F C Z D]. split; try done. intros i p Hp. destruct (D i p Hp) as (p' & Hp' & [S N _ L]). exists p'. split; [done|].
  split; [done|done|]. intros q ln Hq Hl. destruct (L q ln Hq Hl) as (q' & ? & _ & _ & _ & _ & ? & ? & _). by exists q'.
Qed.

Lemma later_stream w s s' i : later w s s' -> stream s' i = stream s i.
Proof.
  intros Hl. unfold stream. destruct (DevTable s !! i) as [p|] eqn:E.
  - destruct (lt_devs _ _ _ Hl i p E) as (p' & -> & Hs). unfold stream_of at 2.
    destruct (p_rxq p) as [q|] eqn:Eq.
    + destruct (p_line p) as [ln|] eqn:El.
      * destruct (ds_live _ _ _ _ _ Hs q ln Eq El) as (q' & _ & Hst & _). rewrite Hst. unfold stream_of. by rewrite Eq, El.
      * unfold stream_of. destruct (ds_static _ _ _ _ _ Hs) as (_ & -> & _). rewrite El. by destruct (p_rxq p').
    + unfold stream_of. by rewrite (ds_none _ _ _ _ _ Hs Eq).
  - rewrite lookup_ge_None_2; [done|]. rewrite (lt_size _ _ _ Hl). by apply lookup_ge_None_1.
Qed.

Lemma live_stream s i p q ln : live s i p q ln -> stream s i = contents q ++ omap (recv (p_t p)) (rx ln (s_board s)).
Proof. intros (H1 & H2 & H3). unfold stream. rewrite H1. unfold stream_of. by rewrite H2, H3. Qed.

(** A step on one device and its line. *)
Lemma put_kept w e s i p q ln b' p' : inv e s -> live s i p q ln -> untouched (fun ln' => ln' <> ln) (s_board s) b' ->
  dev_keep w (s_board s) b' p p' -> kept (only i w) s (put i p' b' s) /\ others i s (put i p' b' s).
Proof.
  intros Hi Hl [_ Hu] Hd. assert (Hl' := Hl). destruct Hl' as (Hp & _). pose proof (lookup_lt_Some _ _ _ Hp) as Hlt.
  assert (forall j x z, j <> i -> DevTable s !! j = Some x -> p_line x = Some z -> p_rxq x <> None ->
    rx z b' = rx z (s_board s) /\ tx z b' = tx z (s_board s)) as Ha.
  { intros j x z Hj Hx Hz Hn. destruct (Hu z) as (-> & -> & _); [|done]. intros ->. apply Hj.
    destruct (p_rxq x) as [y|] eqn:E; [|done]. by apply (iv_lines e s Hi j i x p y q ln). }
  split.
  - split; cbn [_file curlst put DevTable s_board]; [done|done|by rewrite length_insert|]. intros j x Hx. unfold only.
    destruct (decide (j = i)) as [->|Hj].
    + exists p'. split; [by apply list_lookup_insert_eq|]. by simplify_eq.
    + exists x. split; [by rewrite list_lookup_insert_ne by done|]. split; [done|done|]. intros y z Hy Hz. exists y.
      destruct (Ha j x z Hj Hx Hz ltac:(congruence)) as [-> ->]. split_and!; [done|done|]. by rewrite app_nil_r.
  - intros j Hj. unfold stream. cbn [DevTable put s_board]. rewrite list_lookup_insert_ne by done.
    destruct (DevTable s !! j) as [x|] eqn:E; [|done]. unfold stream_of.
    destruct (p_rxq x) as [y|] eqn:Ey, (p_line x) as [z|] eqn:Ez; try done.
    by destruct (Ha j x z Hj E Ez ltac:(congruence)) as [-> _].
Qed.

Lemma kept_live w s s' i p q ln : kept w s s' -> live s i p q ln ->
  exists p' q', live s' i p' q' ln /\ p_t p' = p_t p /\ dev_keep (w i) (s_board s) (s_board s') p p'.
Proof.
  intros Hk (H1 & H2 & H3). destruct (kp_devs _ _ _ Hk i p H1) as (p' & Hp' & Hs). destruct (dk_live _ _ _ _ _ Hs q ln H2 H3) as (q' & Hq' & _).
  destruct (dk_static _ _ _ _ _ Hs) as (_ & Hln & _ & _ & Ht). exists p', q'. split; [|done]. split_and!; [done|done|congruence].
Qed.

Section Read.
Variables (R e : nat).

Lemma kept_bounded w s s' : kept w s s' -> bounded R s -> bounded R s'.
Proof.
  intros Hk Hb i p' q' ln (H1 & H2 & H3). pose proof (lookup_lt_Some _ _ _ H1) as Hlt. rewrite (kp_size _ _ _ Hk) in Hlt.
  destruct (lookup_lt_is_Some_2 _ _ Hlt) as [p Hp]. destruct (kp_devs _ _ _ Hk i p Hp) as (x & Hx & Hs). simplify_eq.
  destruct (p_rxq p) as [q|] eqn:E; [|by rewrite (dk_none _ _ _ _ _ Hs E) in H2].
  destruct (dk_static _ _ _ _ _ Hs) as (_ & El & _). rewrite H3 in El. symmetry in El.
  destruct (dk_live _ _ _ _ _ Hs q ln E El) as (? & _ & Hx' & _). specialize (Hb i p q ln ltac:(done)). lia.
Qed.

(** Depth enough for every poll and every character that is written. *)
Definition io_fuel : nat := (need_fuel R 8 + 9 * patience + 10)%nat.

Lemma poll_wp fuel s : inv e s -> bounded R s -> (io_fuel <= fuel)%nat ->
  wpo (scandevs fuel) (fun _ s' => inv e s' /\ later nothing s s' /\ forall i, nearer s s' i) s.
Proof. intros Hi Hb Hf. apply (scan_all R e 8); [done|done|by apply (nu_bound e)|]. unfold io_fuel in Hf. lia. Qed.

Lemma putc_wp fuel i c s p q ln : inv e s -> bounded R s -> live s i p q ln -> (io_fuel <= fuel)%nat ->
  wpo (_chwrite fuel i c) (fun _ s' => inv e s' /\ later (only i [c]) s s') s.
Proof.
  intros Hi Hb Hl Hf. apply (chwrite_wp R e 8 i c fuel s p q ln); try done; [apply scan_all|by apply (nu_bound e)].
Qed.

(** A character that is written, and the poll after it. *)
Lemma putc_poll_wp fuel i c s p q ln (Q : unit -> ST -> Prop) : inv e s -> bounded R s -> live s i p q ln -> (io_fuel <= fuel)%nat ->
  (forall s', inv e s' -> later (only i [c]) s s' -> Q tt s') ->
  wpo (_chwrite fuel i c ≫= fun _ => scandevs fuel) Q s.
Proof.
  intros Hi Hb Hl Hf HQ. wps. eapply wp_mono; [by apply (putc_wp fuel i c s p q ln)|]. intros _ s1 [Hi1 Hl1]. cbn beta.
  eapply wp_mono; [apply (poll_wp fuel s1 Hi1 (later_bounded R _ _ _ Hl1 Hb) Hf)|]. intros [] s2 (Hi2 & Hl2 & _). apply HQ; [done|].
  apply (later_trans (only i [c]) nothing _ s s1); [|done|done]. intros j. by rewrite app_nil_r.
Qed.

Lemma only_app i w1 w2 j : only i (w1 ++ w2) j = only i w1 j ++ only i w2 j.
Proof. unfold only. by destruct (decide _). Qed.

Lemma later_nil i s : later (only i []) s s.
Proof.
  destruct (later_refl s) as [? ? ? Hr]. split; try done. intros j x Hx. destruct (Hr j x Hx) as (x' & ? & ?). exists x'.
  split; [done|]. unfold only. by destruct (decide _).
Qed.

Lemma write_loop_wp fuel i : (io_fuel <= fuel)%nat -> forall buf s p q ln, inv e s -> bounded R s -> live s i p q ln ->
  wpo (write_loop fuel i buf) (fun _ s' => inv e s' /\ later (only i (out_bytes (p_t p) buf)) s s') s.
Proof.
  intros Hf. induction buf as [|c buf IH]; intros s p q ln Hi Hb Hl; cbn [write_loop].
  - apply wp_ret. split; [done|apply later_nil].
  - wps. destruct (Hl) as (Hp & _). apply (dev_wp i p); [done|]. wps.
    assert (wpo (when (on (c_oflag (p_t p)) ONLCR && (c =? NL)) (_chwrite fuel i CR ≫= fun _ => scandevs fuel))
      (fun _ s' => inv e s' /\ later (only i (if on (c_oflag (p_t p)) ONLCR && (c =? NL) then [CR] else [])) s s') s) as H1.
    { apply wp_when; intros ->; [by apply (putc_poll_wp fuel i CR s p q ln)|]. split; [done|apply later_nil]. }
    eapply wp_mono; [apply H1|]. intros _ s1 [Hi1 Hl1]. cbn beta. destruct (later_live _ _ _ _ _ _ _ Hl1 Hl) as (p1 & q1 & Hp1 & Hs1).
    apply wp_bind_assoc. apply (putc_poll_wp fuel i c s1 p1 q1 ln _ Hi1 ltac:(by apply (later_bounded R _ _ _ Hl1)) Hp1 Hf).
    intros s2 Hi2 Hl2. destruct (later_live _ _ _ _ _ _ _ Hl2 Hp1) as (p2 & q2 & Hp2 & Hs2).
    eapply wp_mono; [apply (IH s2 p2 q2 ln Hi2); [|done]|].
    { apply (later_bounded R _ _ _ Hl2). by apply (later_bounded R _ _ _ Hl1). }
    intros _ s3 [Hi3 Hl3]. split; [done|].
    assert (p_t p2 = p_t p) as Et by (destruct (ds_static _ _ _ _ _ Hs1) as (_ & _ & _ & _ & <-); apply (ds_static _ _ _ _ _ Hs2)).
    rewrite Et in Hl3. refine (later_trans _ _ _ s s1 s3 _ Hl1 (later_trans _ _ _ s1 s2 s3 (fun j => eq_refl) Hl2 Hl3)).
    intros j. rewrite <- !only_app. f_equal. cbn [out_bytes mbind list_bind]. by destruct (_ && _).
Qed.

(** ** Files *)

(** [fd] is open on device [i]. *)
Definition opened (fd : Z) (i : nat) (s : ST) : Prop := 0 <= fd /\ exists f, _file s !! Z.to_nat fd = Some f /\
  f_valid f = true /\ f_netfd f < 0 /\ f_dev f = Z.of_nat i.

Lemma with_dev_wp {A} fd i bad net (k : nat -> M ST A) (Q : A -> ST -> Prop) s : opened fd i s -> wpo (k i) Q s ->
  wpo (with_dev fd bad net k) Q s.
Proof.
  intros (H0 & f & H1 & H2 & H3 & H4) Hk. unfold with_dev. apply wp_bind. unfold wp at 1, file. rewrite H1.
  rewrite (proj2 (Z.ltb_ge _ _)) by lia. rewrite H2. cbn [negb]. rewrite (proj2 (Z.leb_gt _ _)) by lia. rewrite H4.
  rewrite (proj2 (Z.ltb_ge _ _)) by lia. by rewrite Nat2Z.id.
Qed.

Lemma opened_kept w s s' fd i : kept w s s' -> opened fd i s -> opened fd i s'.
Proof. intros Hk. unfold opened. by rewrite (kp_file _ _ _ Hk). Qed.

Lemma write_wp fuel fd i buf s p q ln : (io_fuel <= fuel)%nat -> inv e s -> bounded R s -> live s i p q ln -> opened fd i s ->
  wpo (_write fuel fd buf) (fun r s' => r = Z.of_nat (length buf) /\ inv e s' /\ later (only i (out_bytes (p_t p) buf)) s s') s.
Proof.
  intros Hf Hi Hb Hl Ho. unfold _write. apply (with_dev_wp fd i); [done|]. wps.
  eapply wp_mono; [by apply (write_loop_wp fuel i Hf buf s p q ln)|]. intros [] s' H. by apply wp_ret.
Qed.

(** ** Reading *)

Lemma wait_ready fuel i s p q ln : live s i p q ln -> Qused q <> 0 -> wait_input fuel i s = Ok (Qused q, s).
Proof.
  intros (H1 & H2 & _) Hu. assert (forall (k : Queue -> M ST Z), (rxq i ≫= k) s = k q s) as Hk.
  { intros k. unfold rxq, dev, mbind, M_bind, need. rewrite H1. by rewrite H2. }
  destruct fuel; cbn [wait_input]; rewrite Hk, (proj2 (Z.eqb_neq _ _) Hu); done.
Qed.

Lemma wait_input_wp i : forall fuel s p q ln, inv e s -> bounded R s -> live s i p q ln -> stream s i <> [] ->
  (io_fuel + meas ln (s_board s) + 1 <= fuel)%nat ->
  wpo (wait_input fuel i) (fun used s' => inv e s' /\ later nothing s s' /\
    exists p' q', live s' i p' q' ln /\ used = Qused q' /\ Qused q' <> 0) s.
Proof.
  induction fuel as [|f IH]; intros s p q ln Hi Hb Hl Hst Hf; [lia|].
  destruct (decide (Qused q = 0)) as [Hu|Hu].
  2:{ eapply wp_run; [by apply (wait_ready _ i s p q ln)|]. split_and!; [done|apply later_refl|]. by exists p, q. }
  cbn [wait_input]. wps. destruct (Hl) as (H1 & H2 & H3). apply (rxq_wp i p q); [done|done|]. rewrite Hu. cbn [Z.eqb negb]. wps.
  assert (rx ln (s_board s) <> []) as Hrx.
  { intros E. apply Hst. rewrite (live_stream _ _ _ _ _ Hl), E, app_nil_r.
    apply length_zero_iff_nil. destruct (live_inv _ _ _ _ _ _ Hi Hl) as [[D1 _ _ _ _] _]. rewrite contents_length by done. unfold Qused in Hu. lia. }
  eapply wp_mono; [apply (poll_wp f s Hi Hb); lia|]. intros _ s1 (Hi1 & Hl1 & Hn1). cbn beta.
  destruct (later_live _ _ _ _ _ _ _ Hl1 Hl) as (p1 & q1 & Hp1 & _). destruct (Hn1 i p q ln Hl) as (x & Hx & Hm).
  assert (x = p1) as -> by (destruct Hp1 as (E & _); congruence).
  destruct (decide (Qused q1 = 0)) as [Hu1|Hu1].
  - destruct (live_inv _ _ _ _ _ _ Hi1 Hp1) as [[_ _ _ _ D5] _]. destruct (p_rxoff p1) eqn:Eo; [lia|].
    destruct (Hm Hrx) as [Hm'|]; [|done].
    eapply wp_mono; [apply (IH s1 p1 q1 ln); [done|by apply (later_bounded R _ _ _ Hl1)|done| |lia]|].
    + by rewrite (later_stream _ _ _ i Hl1).
    + intros used s2 (Hi2 & Hl2 & Hq2). split_and!; [done|by apply (later_nothing _ s1)|done].
  - eapply wp_run; [by apply (wait_ready _ i s1 p1 q1 ln)|]. split_and!; [done|done|]. by exists p1, q1.
Qed.

Lemma meas_bound s i p q ln : inv e s -> bounded R s -> live s i p q ln -> (meas ln (s_board s) <= R * S patience + patience)%nat.
Proof.
  intros Hi Hb Hl. destruct (patience_ok ln _ (iv_board _ _ Hi)) as [Hd _]. specialize (Hb i p q ln Hl). unfold meas. nia.
Qed.

Definition char_fuel : nat := (io_fuel + R * S patience + patience + 1)%nat.

(** The sender is let go on. *)
Lemma resume_wp i s p q ln : inv e s -> live s i p q ln -> Qused q < 20 ->
  let s' := put i (set_rxoff false p) (handler ln (OP_RXSTOP false) (s_board s)).2 s in
  inv e s' /\ live s' i (set_rxoff false p) q ln /\ kept nothing s s' /\ forall j, stream s' j = stream s j.
Proof.
  intros Hi Hl Hu. destruct (Hl) as (Hp & Hq & Hln). destruct (live_inv _ _ _ _ _ _ Hi Hl) as [[D1 D2 D3 D4 D5] _].
  pose proof (rxstop_ok ln false (s_board s) (iv_board _ _ Hi)) as H. destruct (handler ln (OP_RXSTOP false) (s_board s)) as [r b'].
  destruct H as (Hun & R1 & R2 & R3 & R4 & R5). cbn [snd]. destruct (queue_counts q D1) as (? & ? & ?).
  destruct (put_dev e s i p q ln b' (set_rxoff false p) q Hi Hl Hun) as [Hi' Hl']; try done.
  { split; [done|done|done|by rewrite R1|]. cbn. split; [done|lia]. }
  destruct (put_kept [] e s i p q ln b' (set_rxoff false p) Hi Hl Hun) as [Hk Ho].
  { split; [done|done|]. intros q1 ln1 E1 E2. simplify_eq. exists q. split_and!; [done|by rewrite R1|]. by rewrite R2, app_nil_r. }
  split_and!; [done|done|by apply (kept_only i)|].
  - intros j. destruct (decide (j = i)) as [->|Hj]; [|by apply Ho].
    rewrite (live_stream _ _ _ _ _ Hl'), (live_stream _ _ _ _ _ Hl). cbn [s_board put set_rxoff p_t]. by rewrite R1.
Qed.

(** Taking a character out of the queue. *)
Lemma get_step i s p q ln m rest : inv e s -> live s i p q ln -> (p_rxoff p = true -> 20 <= Qused q) -> Qused q <> 0 ->
  stream s i = m :: rest -> exists q', Qget q = Some (m, q') /\
  let s' := put i (set_rxq (Some q') p) (s_board s) s in
  inv e s' /\ kept nothing s s' /\ others i s s' /\ stream s' i = rest.
Proof.
  intros Hi Hl Hro Hu Hst. destruct (Hl) as (Hp & Hq & Hln). destruct (live_inv _ _ _ _ _ _ Hi Hl) as [[D1 D2 D3 D4 D5] _].
  destruct (Qget_ok q D1 Hu) as (m' & q' & Eg & Q1 & Q2 & Q3). pose proof (contents_length q D1) as L1.
  pose proof (contents_length q' Q1) as L2. rewrite Q3 in L1. cbn in L1. destruct (queue_counts q D1) as (? & ? & ?).
  destruct (queue_counts q' Q1) as (? & ? & ?). assert (Qused q = Qused q' + 1) as Hus by (unfold Qused in *; lia).
  rewrite (live_stream _ _ _ _ _ Hl), Q3 in Hst. cbn in Hst. injection Hst as -> Hrest. exists q'. split; [done|].
  assert (untouched (fun ln' => ln' <> ln) (s_board s) (s_board s)) as Hun by (split; [apply Hi|intros; split_and!; (done || lia)]).
  destruct (put_dev e s i p q ln (s_board s) (set_rxq (Some q') p) q' Hi Hl Hun) as [Hi' Hl']; try done.
  { split; try done; try lia. cbn [p_rxoff set_rxq]. destruct (p_rxoff p).
    - specialize (Hro eq_refl). destruct D5 as [(k & Ek & Hk) ?]. split; [exists k; split; [done|lia]|lia].
    - destruct D5 as [? ?]. split; [done|lia]. }
  destruct (put_kept [] e s i p q ln (s_board s) (set_rxq (Some q') p) Hi Hl Hun) as [Hk Ho].
  { split; [done|intros E; congruence|]. intros q1 ln1 E1 E2. simplify_eq. exists q'. split_and!; [done|done|]. by rewrite app_nil_r. }
  split_and!; [done|by apply (kept_only i)|done|].
  - rewrite (live_stream _ _ _ _ _ Hl'). cbn [s_board put set_rxq p_t]. done.
Qed.

Lemma kept_forget i w s s' p : DevTable s !! i = Some p -> on (c_iflag (p_t p)) IXOFF = true -> kept (only i w) s s' -> kept nothing s s'.
Proof.
  intros Hp Ho [? ? ? H]. split; try done. intros j x Hx. destruct (H j x Hx) as (x' & ? & Hs). exists x'. split; [done|].
  unfold only in Hs. destruct (decide (j = i)) as [->|]; [|done]. simplify_eq. destruct Hs as [A1 A2 A3]. split; try done.
  intros q ln E1 E2. destruct (A3 q ln E1 E2) as (q' & ? & ? & _). exists q'. split_and!; [done|done|]. congruence.
Qed.

Lemma kept_nothing s1 s2 s3 : kept nothing s1 s2 -> kept nothing s2 s3 -> kept nothing s1 s3.
Proof. by apply kept_trans. Qed.

Lemma kept_refl s : kept nothing s s.
Proof. apply later_kept, later_refl. Qed.

(** The sender is let go on when the queue is nearly empty. *)
Lemma maybe_resume_wp fuel i s p q ln : (io_fuel <= fuel)%nat -> inv e s -> bounded R s -> live s i p q ln -> Qused q <> 0 ->
  wpo (when ((Qused q <? 20) && p_rxoff p)
    (rx_stop i false ≫= fun _ => when (on (c_iflag (p_t p)) IXOFF) (_chwrite fuel i (CNTRL (ch "Q")))))
    (fun _ s' => inv e s' /\ kept nothing s s' /\ (forall j, stream s' j = stream s j) /\
      exists p' q', live s' i p' q' ln /\ (p_rxoff p' = true -> 20 <= Qused q') /\ Qused q' <> 0) s.
Proof.
  intros Hf Hi Hb Hl Hu. destruct (Hl) as (Hp & Hq & Hln). apply wp_when.
  - intros [Hlt%Z.ltb_lt _]%andb_true_iff. wps. apply (rx_stop_wp i false p ln); [done|done|].
    destruct (resume_wp i s p q ln Hi Hl Hlt) as (Hi1 & Hl1 & Hk1 & Hs1).
    set (s1 := put i (set_rxoff false p) _ s) in *. apply wp_when.
    + intros Hix. eapply wp_mono; [apply (putc_wp fuel i _ s1 (set_rxoff false p) q ln Hi1); [|done|done]|].
      { by apply (kept_bounded nothing s s1). }
      intros _ s2 [Hi2 Hl2]. destruct (later_live _ _ _ _ _ _ _ Hl2 Hl1) as (p2 & q2 & Hp2 & Hd2).
      destruct (ds_live _ _ _ _ _ Hd2 q ln ltac:(done) ltac:(done)) as (x & Ex & _ & Hu2 & Ho2 & _).
      assert (x = q2) as -> by (destruct Hp2 as (_ & E & _); congruence). split_and!; [done| | |].
      * apply (kept_nothing _ s1); [done|]. apply (kept_forget i [CNTRL (ch "Q")] _ _ (set_rxoff false p)); [apply Hl1|done|by apply later_kept].
      * intros j. by rewrite (later_stream _ _ _ j Hl2).
      * exists p2, q2. split_and!; [done|by apply Ho2|]. destruct (live_inv _ _ _ _ _ _ Hi Hl) as [[D1 _ _ _ _] _].
        destruct (queue_counts q D1). lia.
    + intros _. split_and!; [done|done|done|]. exists (set_rxoff false p), q. by split_and!.
  - intros Hno. split_and!; [done|apply kept_refl|done|]. exists p, q. split_and!; [done| |done].
    intros E. rewrite E, andb_true_r in Hno. apply Z.ltb_ge in Hno. lia.
Qed.

Lemma next_char_wp fuel i s p q ln m rest : (char_fuel <= fuel)%nat -> inv e s -> bounded R s -> live s i p q ln ->
  stream s i = m :: rest ->
  wpo (next_char fuel i) (fun c s' => c = cooked (p_t p) m /\ inv e s' /\ kept nothing s s' /\ others i s s' /\ stream s' i = rest) s.
Proof.
  intros Hf Hi Hb Hl Hst. unfold char_fuel in Hf. unfold next_char. wps.
  eapply wp_mono; [apply (poll_wp fuel s Hi Hb); lia|]. intros _ s1 (Hi1 & Hl1 & _). cbn beta. wps.
  destruct (later_live _ _ _ _ _ _ _ Hl1 Hl) as (p1 & q1 & Hp1 & Hd1). pose proof (later_bounded R _ _ _ Hl1 Hb) as Hb1.
  pose proof (meas_bound s1 i p1 q1 ln Hi1 Hb1 Hp1) as Hm1.
  eapply wp_mono; [apply (wait_input_wp i fuel s1 p1 q1 ln Hi1 Hb1 Hp1); [by rewrite (later_stream _ _ _ i Hl1), Hst|lia]|].
  intros used s2 (Hi2 & Hl2 & p2 & q2 & Hp2 & -> & Hu2). cbn beta. wps. apply (dev_wp i p2); [apply Hp2|]. wps.
  pose proof (later_nothing _ _ _ Hl1 Hl2) as Hl12. pose proof (later_bounded R _ _ _ Hl12 Hb) as Hb2.
  eapply wp_mono; [apply (maybe_resume_wp fuel i s2 p2 q2 ln); try done; lia|].
  intros _ s3 (Hi3 & Hk3 & Hs3 & p3 & q3 & Hp3 & Ho3 & Hu3). cbn beta. wps. destruct (Hp3) as (E1 & E2 & E3).
  apply (rxq_wp i p3 q3); [done|done|]. wps.
  destruct (get_step i s3 p3 q3 ln m rest Hi3 Hp3 Ho3 Hu3) as (q4 & Eg & Hi4 & Hk4 & Ho4 & Hs4).
  { by rewrite Hs3, (later_stream _ _ _ i Hl12). }
  apply (wp_need _ _ (m, q4)); [done|]. wps. apply (upd_dev_wp i _ p3); [done|]. apply wp_ret.
  assert (p_t p2 = p_t p) as Et.
  { destruct (lt_devs _ _ _ Hl12 i p (proj1 Hl)) as (x & Ex & Hx). assert (x = p2) as -> by (destruct Hp2; congruence).
    apply (ds_static _ _ _ _ _ Hx). }
  split_and!; [by rewrite Et|done| | |done].
  - apply (kept_nothing _ s3); [|done]. apply (kept_nothing _ s2); [by apply later_kept|done].
  - intros j Hj. by rewrite Ho4, Hs3, (later_stream _ _ _ j Hl12) by done.
Qed.

(** ** Lines *)

(** An echo. *)
Lemma echo_wp fuel fd i (yes : bool) buf s p q ln : (io_fuel <= fuel)%nat -> inv e s -> bounded R s -> live s i p q ln -> opened fd i s ->
  wpo (when yes (_write fuel fd buf ≫= fun _ => mret tt))
    (fun _ s' => inv e s' /\ later (only i (out_bytes (p_t p) (if yes then buf else []))) s s') s.
Proof.
  intros Hf Hi Hb Hl Ho. apply wp_when; intros ->; [|split; [done|apply later_nil]]. wps.
  eapply wp_mono; [by apply (write_wp fuel fd i buf s p q ln)|]. intros r s' (_ & ? & ?). by apply wp_ret.
Qed.

Lemma erase_wp fuel fd i s p q ln : (io_fuel <= fuel)%nat -> inv e s -> bounded R s -> live s i p q ln -> opened fd i s ->
  wpo (if on (c_lflag (p_t p)) ECHOE then _write fuel fd [BS; ch " "; BS] ≫= (fun _ => mret tt)
       else when (on (c_lflag (p_t p)) ECHO) (_write fuel fd [BS] ≫= fun _ => mret tt))
    (fun _ s' => inv e s' /\ later (only i (out_bytes (p_t p) (erase_echo (p_t p)))) s s') s.
Proof.
  intros Hf Hi Hb Hl Ho. unfold erase_echo. destruct (on (c_lflag (p_t p)) ECHOE).
  - by apply (echo_wp fuel fd i true [BS; ch " "; BS] s p q ln).
  - by apply (echo_wp fuel fd i _ [BS] s p q ln).
Qed.

Definition read_fuel (cs : list Z) : nat := (char_fuel + length cs + 1)%nat.

(** What a read leaves. *)
Definition read_post (i : nat) (line rest echo : list Z) (s : ST) (l : list Z) (s' : ST) : Prop :=
  l = line /\ inv e s' /\ kept (only i echo) s s' /\ others i s s' /\ stream s' i = rest.

Lemma read_post_trans i w line rest echo s s1 s2 l s3 : kept nothing s s1 -> others i s s1 -> later (only i w) s1 s2 ->
  read_post i line rest echo s2 l s3 -> read_post i line rest (w ++ echo) s l s3.
Proof.
  intros Hk1 Ho1 Hl2 (-> & Hi3 & Hk3 & Ho3 & Hs3). split_and!; [done|done| | |done].
  - refine (kept_trans nothing _ _ s s1 s3 _ Hk1 (kept_trans _ _ _ s1 s2 s3 (fun j => only_app i w echo j) (later_kept _ _ _ Hl2) Hk3)). done.
  - intros j Hj. by rewrite Ho3, (later_stream _ _ _ j Hl2), Ho1 by done.
Qed.

Lemma read_loop_wp fd i n t : forall cs fuel buf s p q ln line rest echo,
  inv e s -> bounded R s -> live s i p q ln -> p_t p = t -> opened fd i s -> stream s i = cs ->
  cook t n buf cs = Some (line, rest, echo) -> (read_fuel cs <= fuel)%nat ->
  wpo (read_loop fuel fd i n buf) (read_post i line rest echo s) s.
Proof.
  induction cs as [|m cs IH]; intros fuel buf s p q ln line rest echo Hi Hb Hl Ht Ho Hst Hc Hf;
    (destruct fuel as [|f]; [unfold read_fuel in Hf; lia|]); cbn [read_loop cook] in *; destruct (n <=? length buf)%nat eqn:En.
  1,3: injection Hc as <- <- <-; apply wp_ret; split_and!; try done; apply later_kept, later_nil.
  1: done.
  wps. unfold read_fuel in Hf. cbn [length] in Hf.
  eapply wp_mono; [apply (next_char_wp f i s p q ln m cs); try done; lia|]. rewrite Ht.
  intros c s1 (-> & Hi1 & Hk1 & Ho1 & Hs1). cbn beta. wps. destruct (kept_live _ _ _ _ _ _ _ Hk1 Hl) as (p1 & q1 & Hp1 & Et1 & _).
  rewrite Ht in Et1. apply (dev_wp i p1); [apply Hp1|]. pose proof (kept_bounded _ _ _ Hk1 Hb) as Hb1.
  pose proof (opened_kept _ _ _ _ _ Hk1 Ho) as Hop1. assert (io_fuel <= f)%nat as Hio by (unfold char_fuel in Hf; lia).
  assert (forall buf' w s2 line rest echo, inv e s2 -> later (only i w) s1 s2 -> cook t n buf' cs = Some (line, rest, echo) ->
    wpo (read_loop f fd i n buf') (read_post i line rest (w ++ echo) s) s2) as Hgo.
  { intros buf' w s2 line' rest' echo' Hi2 Hl2 Hc'. destruct (later_live _ _ _ _ _ _ _ Hl2 Hp1) as (p2 & q2 & Hp2 & Hd2).
    eapply wp_mono; [apply (IH f buf' s2 p2 q2 ln line' rest' echo'); try done|].
    - by apply (later_bounded R _ _ _ Hl2).
    - rewrite <- Et1. apply (ds_static _ _ _ _ _ Hd2).
    - apply (opened_kept _ _ _ _ _ (later_kept _ _ _ Hl2) Hop1).
    - by rewrite (later_stream _ _ _ i Hl2).
    - unfold read_fuel. lia.
    - intros l s3. by apply (read_post_trans _ _ _ _ _ s s1 s2). }
  rewrite Et1. destruct (on (c_lflag t) ICANON); [|by apply (Hgo _ [] s1); [done|apply later_nil|]].
  destruct (cooked t m =? cc t VERASE).
  - destruct buf as [|x buf]; [by apply (Hgo [] [] s1); [done|apply later_nil|]|].
    destruct (cook t n (removelast (x :: buf)) cs) as [[[line' rest'] echo']|] eqn:Ec; [|done]. injection Hc as <- <- <-. wps.
    rewrite <- Et1. eapply wp_mono; [by apply (erase_wp f fd i s1 p1 q1 ln)|]. intros _ s2 [Hi2 Hl2]. cbn beta. rewrite Et1 in *. by apply (Hgo _ _ s2).
  - wps. eapply wp_mono; [by apply (echo_wp f fd i (on (c_lflag t) ECHO) [cooked t m] s1 p1 q1 ln)|].
    rewrite Et1. fold (char_echo t (cooked t m)). intros _ s2 [Hi2 Hl2]. cbn beta. wps.
    destruct (later_live _ _ _ _ _ _ _ Hl2 Hp1) as (p2 & q2 & Hp2 & Hd2). apply (dev_wp i p2); [apply Hp2|].
    destruct (ds_static _ _ _ _ _ Hd2) as (_ & _ & _ & _ & ->). rewrite Et1. destruct (_ || _).
    + injection Hc as <- <- <-. apply wp_ret. rewrite <- (app_nil_r (out_bytes t (char_echo t (cooked t m)))).
      apply (read_post_trans _ _ _ _ _ s s1 s2); try done. split_and!; [done|done|apply later_kept, later_nil|done|].
      by rewrite (later_stream _ _ _ i Hl2).
    + destruct (cook t n (buf ++ [cooked t m]) cs) as [[[line' rest'] echo']|] eqn:Ec; [|done]. injection Hc as <- <- <-.
      by apply (Hgo _ _ s2).
Qed.

End Read.
(** ** The properties *)

Definition pending (b : B) (p : DevEntry) : nat := match p_line p with Some ln => length (rx ln b) | None => 0 end.

Lemma bounded_exists s : exists R, bounded R s.
Proof.
  exists (sum_list (pending (s_board s) <$> DevTable s)). intros i p q ln (H1 & _ & H3).
  assert (forall (l : list DevEntry) j, l !! j = Some p -> (pending (s_board s) p <= sum_list (pending (s_board s) <$> l))%nat) as H.
  { intros l. induction l as [|x l IH]; intros [|j] E; cbn in *; simplify_eq; [lia|]. specialize (IH j E). lia. }
  specialize (H _ _ H1). unfold pending at 1 in H. by rewrite H3 in H.
Qed.



End TermioRead.

(** ** A typed line

    Ordinary text and a carriage return, on a sane terminal. *)
Definition plain (c : Z) : Prop := 32 <= c < 127.

Record edits (t : termio) : Prop := {
  ed_icrnl : on (c_iflag t) ICRNL = true;
  ed_icanon : on (c_lflag t) ICANON = true;
  ed_echo : on (c_lflag t) ECHO = true;
  ed_onlcr : on (c_oflag t) ONLCR = true;
  ed_erase : cc t VERASE = BS;
  ed_eol : cc t VEOL = NL;
  ed_eol2 : cc t VEOL2 = CNTRL (ch "c")
}.

Lemma on_lor x y m : on (Z.lor x y) m = on x m || on y m.
Proof.
  unfold on. rewrite Z.land_lor_distr_l. destruct (Z.eqb_spec (Z.land x m) 0) as [->|Hx]; [by rewrite Z.lor_0_l|].
  destruct (Z.eqb_spec (Z.lor (Z.land x m) (Z.land y m)) 0) as [E|E]; [|done]. apply Z.lor_eq_0_iff in E as [? _]. done.
Qed.

(** The control characters of a sane terminal, by their numbers. *)
Lemma sane_cc_at l : length l = 23%nat ->
  sane_cc l !! VERASE = Some BS /\ sane_cc l !! VEOL = Some NL /\ sane_cc l !! VEOL2 = Some (CNTRL (ch "c")).
Proof. intros Hl. do 10 (destruct l as [|? l]; [discriminate Hl|]). repeat split. Qed.

(** The settings of [SETSANE]. *)
Lemma sane_edits t : length (c_cc t) = 23%nat -> edits (sane t).
Proof.
  intros Hl. split; unfold sane; cbn [c_iflag c_lflag c_oflag]; rewrite ?on_lor, ?orb_true_r; try reflexivity; try (apply orb_true_iff; by right).
  all: destruct (sane_cc_at (c_cc t) Hl) as (E1 & E2 & E3); unfold cc; cbn [c_cc]; by rewrite ?E1, ?E2, ?E3.
Qed.

Lemma cooked_plain t c : plain c -> cooked t c = c.
Proof. intros Hc. unfold cooked, plain, CR in *. rewrite s8_small by lia. rewrite (proj2 (Z.eqb_neq c 13)) by lia. by rewrite andb_false_r. Qed.

Lemma cook_text t n rest : edits t -> forall l buf, Forall plain l -> (length buf + length l < n)%nat ->
  cook t n buf (l ++ CR :: rest) = Some (buf ++ l ++ [NL], rest, l ++ [CR; NL]).
Proof.
  intros [H1 H2 H3 H4 H5 H6 H7]. induction l as [|c l IH]; intros buf Hl Hn; cbn [app cook length] in *.
  - rewrite (proj2 (Nat.leb_gt _ _)) by lia. assert (cooked t CR = NL) as -> by (unfold cooked; by rewrite H1).
    rewrite H2, H5, H6. cbn [Z.eqb NL BS Pos.eqb orb]. unfold char_echo. rewrite H3. cbn [out_bytes mbind list_bind]. by rewrite H4.
  - apply Forall_cons_iff in Hl as [Hc Hl]. rewrite (proj2 (Nat.leb_gt _ _)) by lia. rewrite cooked_plain by done.
    rewrite H2, H5, H6, H7. unfold plain in Hc. rewrite !(proj2 (Z.eqb_neq c _)) by (unfold BS, NL; change (CNTRL (ch "c")) with 3; lia).
    cbn [orb]. rewrite IH by (done || (rewrite length_app; cbn; lia)). cbn [prepend mbind option_bind].
    unfold char_echo. rewrite H3. unfold out_bytes. cbn [mbind list_bind]. rewrite (proj2 (Z.eqb_neq c NL)) by (unfold NL; lia).
    rewrite andb_false_r. by rewrite <- app_assoc.
Qed.
