(* ===== verification/Ns16550.v ===== *)
(** * Ns16550: the driver of the P-5064's serial ports

    [src/pmon/p5064/ns16550.c], over the registers of the chip, and the proof that
    it keeps the promise of [SerialOk] on which reading and writing without loss
    rest: a line that [OP_RXSTOP] stops sends at most 18 further characters. The
    chip is a parameter; [ChipOk] is what its data sheet says of the registers the
    driver uses. The lines are those of [ConfigTable], on channel 0. *)

From S2P Require Import Prelude CString Comp Queue Ttymode Termio TermioOk.

(** ** The chip *)

(** The registers; [fifo] is the one of [iir], written.
    [src/pmon/p5064/ns16550.h:16-26] *)
Inductive nsreg : Type := R_DATA | R_IER | R_IIR | R_CFCR | R_MCR | R_LSR.

(** Access to the registers, which has effects. *)
Class Chip (C : Type) : Type := {
  rd : nsreg -> C -> Z * C;
  wr : nsreg -> Z -> C -> C }.

(** [src/pmon/p5064/ns16550.h:45-45] *)
Definition IIR_FIFO_MASK : Z := 0xc0.
(** [src/pmon/p5064/ns16550.h:48-48] *)
Definition FIFO_ENABLE : Z := 0x01.
(** [src/pmon/p5064/ns16550.h:49-49] *)
Definition FIFO_RCV_RST : Z := 0x02.
(** [src/pmon/p5064/ns16550.h:50-50] *)
Definition FIFO_XMT_RST : Z := 0x04.
(** [src/pmon/p5064/ns16550.h:52-52] *)
Definition FIFO_TRIGGER_1 : Z := 0x00.
(** [src/pmon/p5064/ns16550.h:58-58] *)
Definition CFCR_DLAB : Z := 0x80.
(** [src/pmon/p5064/ns16550.h:66-66] *)
Definition CFCR_8BITS : Z := 0x03.
(** [src/pmon/p5064/ns16550.h:73-73] *)
Definition MCR_IENABLE : Z := 0x08.
(** [src/pmon/p5064/ns16550.h:75-75] *)
Definition MCR_RTS : Z := 0x02.
(** [src/pmon/p5064/ns16550.h:76-76] *)
Definition MCR_DTR : Z := 0x01.
(** [src/pmon/p5064/ns16550.h:80-80] *)
Definition LSR_TSRE : Z := 0x40.
(** [src/pmon/p5064/ns16550.h:81-81] *)
Definition LSR_TXRDY : Z := 0x20.
(** [src/pmon/p5064/ns16550.h:86-86] *)
Definition LSR_RXRDY : Z := 0x01.

(** [src/pmon/p5064/sbd.h:115-115] *)
Definition NS16550_HZ : Z := 24000000 / 13.
(** [src/pmon/p5064/ns16550.h:29-29] *)
Definition BRTC (x : Z) : Z := NS16550_HZ / (16 * x).

(** ** The driver *)

Section Driver.
Context {C : Type} `{Chip C}.

(** The flag [nsfifo] is set here and read nowhere.
    [src/pmon/p5064/ns16550.c:10-37] *)
Definition nsinit (c : C) : Z * C :=
  let c := wr R_CFCR 0 c in
  let c := wr R_IIR 0 c in
  let '(iir, c) := rd R_IIR c in
  if negb (Z.land iir 0x38 =? 0) then (1, c)
  else
    let c := wr R_IIR FIFO_ENABLE c in
    let c := wr R_IIR (Z.lor (Z.lor (Z.lor FIFO_ENABLE FIFO_RCV_RST) FIFO_XMT_RST) FIFO_TRIGGER_1) c in
    let '(iir, c) := rd R_IIR c in
    if Z.land iir IIR_FIFO_MASK =? IIR_FIFO_MASK then (0, c) else (0, wr R_IIR 0 c).

(** The wait for the transmitter, of [timeout] rounds.
    [src/pmon/p5064/ns16550.c:46-50] *)
Fixpoint drain (timeout : nat) (c : C) : C :=
  match timeout with
  | O => c
  | S t =>
      let '(lsr, c) := rd R_LSR c in
      if Z.land lsr LSR_TSRE =? 0 then drain t c else c
  end.

(** [src/pmon/p5064/ns16550.c:40-65] *)
Definition nsprogram (baudrate : Z) (c : C) : Z * C :=
  let c := drain 10000 c in
  let baudrate := getbaudval baudrate in
  if baudrate =? 0 then (1, c)
  else
    let brtc := wrapu 16 (BRTC baudrate) in
    let c := wr R_CFCR CFCR_DLAB c in
    let c := wr R_DATA (Z.land brtc 0xff) c in
    let c := wr R_IER (Z.shiftr brtc 8) c in
    let c := wr R_CFCR CFCR_8BITS c in
    let c := wr R_MCR (Z.lor (Z.lor MCR_DTR MCR_RTS) MCR_IENABLE) c in
    (0, wr R_IER 0 c).

(** [src/pmon/p5064/ns16550.c:68-104] *)
Definition ns16550 (op : devop) (chan : Z) (c : C) : Z * C :=
  if 0 <? chan then (1, c)
  else
    match op with
    | OP_INIT _ => nsinit c
    | OP_XBAUD data | OP_BAUD data => nsprogram data c
    | OP_TXRDY => let '(lsr, c) := rd R_LSR c in (Z.land lsr LSR_TXRDY, c)
    | OP_TX data => (0, wr R_DATA data c)
    | OP_RXRDY => let '(lsr, c) := rd R_LSR c in (Z.land lsr LSR_RXRDY, c)
    | OP_RX => let '(data, c) := rd R_DATA c in (Z.land data 0xff, c)
    | OP_RXSTOP data =>
        let '(mcr, c) := rd R_MCR c in
        (0, wr R_MCR (if data then Z.ldiff mcr MCR_RTS else Z.lor mcr MCR_RTS) c)
    | _ => (0, c)
    end.
End Driver.

(** ** The promise *)

(** The data sheet, for a line with a sender that obeys RTS: its status bits say
    what can be read and written, the data register delivers and takes the
    characters in order, and once RTS is dropped no more than the 16 characters of
    the sender's FIFO, the one in its shift register and the one on the way still
    come. *)
Class ChipOk (C : Type) `{Chip C} : Type := {
  c_ok : C -> Prop;
  c_rx : C -> list Z;
  c_tx : C -> list Z;
  c_credit : C -> option nat;
  c_rready : C -> Prop;
  c_tready : C -> Prop;
  c_rdelay : C -> nat;
  c_tdelay : C -> nat;
  c_patience : nat;
  c_patience_ok c : c_ok c -> (c_rdelay c <= c_patience)%nat /\ (c_tdelay c <= c_patience)%nat;
  c_bytes c : c_ok c -> Forall (fun x => 0 <= x < 256) (c_rx c);
  idle (c c' : C) : Prop :=
    c_ok c' /\ c_rx c' = c_rx c /\ c_tx c' = c_tx c /\ c_credit c' = c_credit c /\
    (c_rdelay c' <= c_rdelay c)%nat /\ (c_tdelay c' <= c_tdelay c)%nat;
  rd_lsr c : c_ok c ->
    let '(v, c') := rd R_LSR c in
    idle c c' /\
    (Z.land v LSR_RXRDY <> 0 -> c_rready c' /\ c_rx c <> [] /\ c_credit c <> Some O) /\
    (Z.land v LSR_RXRDY = 0 -> c_rx c <> [] -> c_credit c <> Some O -> (c_rdelay c' < c_rdelay c)%nat) /\
    (Z.land v LSR_TXRDY <> 0 -> c_tready c') /\
    (Z.land v LSR_TXRDY = 0 -> (c_tdelay c' < c_tdelay c)%nat);
  rd_data c x l : c_ok c -> c_rready c -> c_rx c = x :: l ->
    let '(v, c') := rd R_DATA c in
    Z.land v 0xff = x /\ c_ok c' /\ c_rx c' = l /\ c_tx c' = c_tx c /\
    c_credit c' = pred <$> c_credit c /\ (c_tdelay c' <= c_tdelay c)%nat;
  wr_data x c : c_ok c -> c_tready c ->
    let c' := wr R_DATA x c in
    c_ok c' /\ c_rx c' = c_rx c /\ c_tx c' = c_tx c ++ [x] /\ c_credit c' = c_credit c /\ (c_rdelay c' <= c_rdelay c)%nat;
  rd_mcr c : c_ok c -> idle c (rd R_MCR c).2;
  wr_mcr v c : c_ok c ->
    let c' := wr R_MCR v c in
    c_ok c' /\ c_rx c' = c_rx c /\ c_tx c' = c_tx c /\ (c_rdelay c' <= c_rdelay c)%nat /\ (c_tdelay c' <= c_tdelay c)%nat /\
    (if Z.land v MCR_RTS =? 0 then exists n, c_credit c' = Some n /\ (n <= 18)%nat else c_credit c' = None)
}.

(** A board whose lines are such chips, each on channel 0, and that has neither a
    network nor anything else to poll. *)
Section Boards.
Context {C : Type} `{ChipOk C}.

Definition uarts : Type := Termio.line -> C.
Definition set_uart (ln : Termio.line) (u : C) (b : uarts) : uarts := fun l => if decide (l = ln) then u else b l.

#[export] Instance ns_board : Board uarts := {
  handler ln op b := let '(r, u) := ns16550 op 0 (b ln) in (r, set_uart ln u b);
  board_poll b := b;
  netopen _ _ b := (-1, b);
  netread _ _ b := ((-1, []), b);
  netwrite _ _ b := (-1, b);
  netclose _ b := b;
  netioctl _ _ b := (-1, b)
}.

Lemma set_uart_eq ln u b : set_uart ln u b ln = u.
Proof. unfold set_uart. by rewrite decide_True. Qed.

Lemma set_uart_ne ln u b l : l <> ln -> set_uart ln u b l = b l.
Proof. intros Hl. unfold set_uart. by rewrite decide_False. Qed.

Lemma set_uart_all (P : C -> Prop) ln u b : (forall l, P (b l)) -> P u -> forall l, P (set_uart ln u b l).
Proof. intros Hb Hu l. unfold set_uart. by destruct (decide _). Qed.

(** Dropping RTS and raising it. *)
Lemma rts_dropped v : Z.land (Z.ldiff v MCR_RTS) MCR_RTS = 0.
Proof. apply Z.bits_inj'. intros n _. rewrite Z.land_spec, Z.ldiff_spec, Z.bits_0. by destruct (Z.testbit v n), (Z.testbit MCR_RTS n). Qed.

Lemma rts_raised v : Z.land (Z.lor v MCR_RTS) MCR_RTS = MCR_RTS.
Proof. apply Z.bits_inj'. intros n _. rewrite Z.land_spec, Z.lor_spec. by destruct (Z.testbit v n), (Z.testbit MCR_RTS n). Qed.

(** What the driver does about the sender. *)
Lemma rxstop_stops stop c : c_ok c ->
  let c' := (ns16550 (OP_RXSTOP stop) 0 c).2 in
  c_ok c' /\ c_rx c' = c_rx c /\ c_tx c' = c_tx c /\ (c_rdelay c' <= c_rdelay c)%nat /\ (c_tdelay c' <= c_tdelay c)%nat /\
  (if stop then exists n, c_credit c' = Some n /\ (n <= 18)%nat else c_credit c' = None).
Proof.
  intros Hc. cbv zeta. pose proof (rd_mcr c Hc) as Hr. destruct (rd R_MCR c) as [v c1] eqn:E. cbn [snd] in Hr.
  assert ((ns16550 (OP_RXSTOP stop) 0 c).2 = wr R_MCR (if stop then Z.ldiff v MCR_RTS else Z.lor v MCR_RTS) c1) as ->
    by (unfold ns16550; cbn; by rewrite E). destruct Hr as (H1 & Hrx & Htx & _ & Hd1 & Hd2).
  pose proof (wr_mcr (if stop then Z.ldiff v MCR_RTS else Z.lor v MCR_RTS) c1 H1) as (W1 & W2 & W3 & W4 & W5 & W6).
  assert (if stop then exists n, c_credit (wr R_MCR (if stop then Z.ldiff v MCR_RTS else Z.lor v MCR_RTS) c1) = Some n /\ (n <= 18)%nat
          else c_credit (wr R_MCR (if stop then Z.ldiff v MCR_RTS else Z.lor v MCR_RTS) c1) = None) as Hcr.
  { destruct stop; [rewrite rts_dropped in W6|rewrite rts_raised in W6]; exact W6. }
  split_and!; [done|congruence|congruence|lia|lia|exact Hcr].
Qed.

(** The driver keeps the promise. *)
#[export] Instance ns_serial : SerialOk uarts.
Proof.
  refine {| board_ok b := forall ln, c_ok (b ln); rx ln b := c_rx (b ln); tx ln b := c_tx (b ln); credit ln b := c_credit (b ln);
            rready ln b := c_rready (b ln); tready ln b := c_tready (b ln); rdelay ln b := c_rdelay (b ln);
            tdelay ln b := c_tdelay (b ln); patience := c_patience |}.
  - intros ln b Hb. by apply c_patience_ok.
  - intros ln b Hb. by apply c_bytes.
  - intros ln b Hb. cbn [handler ns_board]. change (ns16550 OP_RXRDY 0 (b ln)) with (let '(lsr, c) := rd R_LSR (b ln) in (Z.land lsr LSR_RXRDY, c)).
    pose proof (rd_lsr (b ln) (Hb ln)) as Hr. destruct (rd R_LSR (b ln)) as [v c']. destruct Hr as ((I1 & I2) & Hy & Hn & _ & _).
    rewrite set_uart_eq. split; [|done]. split; [by apply set_uart_all|].
    intros l _. unfold set_uart. destruct (decide (l = ln)) as [->|]; done.
  - intros ln b x l Hb Hr E. cbn [handler ns_board]. change (ns16550 OP_RX 0 (b ln)) with (let '(data, c) := rd R_DATA (b ln) in (Z.land data 0xff, c)).
    pose proof (rd_data (b ln) x l (Hb ln) Hr E) as Hd. destruct (rd R_DATA (b ln)) as [v c']. destruct Hd as (Hv & Hc & Hrest).
    split; [done|]. rewrite !set_uart_eq. split; [|done]. split; [by apply set_uart_all|]. intros l' Hl. by rewrite set_uart_ne.
  - intros ln b Hb. cbn [handler ns_board]. change (ns16550 OP_TXRDY 0 (b ln)) with (let '(lsr, c) := rd R_LSR (b ln) in (Z.land lsr LSR_TXRDY, c)).
    pose proof (rd_lsr (b ln) (Hb ln)) as Hr. destruct (rd R_LSR (b ln)) as [v c']. destruct Hr as ((I1 & I2) & _ & _ & Hy & Hn).
    rewrite set_uart_eq. split; [|done]. split; [by apply set_uart_all|].
    intros l _. unfold set_uart. destruct (decide (l = ln)) as [->|]; done.
  - intros ln x b Hb Hr. cbn [handler ns_board]. change (ns16550 (OP_TX x) 0 (b ln)) with (0, wr R_DATA x (b ln)).
    destruct (wr_data x (b ln) (Hb ln) Hr) as (Hc & Hrest). rewrite !set_uart_eq. split; [|done].
    split; [by apply set_uart_all|]. intros l' Hl. by rewrite set_uart_ne.
  - intros ln stop b Hb. pose proof (rxstop_stops stop (b ln) (Hb ln)) as Hs. cbn [handler ns_board].
    destruct (ns16550 (OP_RXSTOP stop) 0 (b ln)) as [r c']. cbn [snd] in Hs. destruct Hs as (Hc & Hrest).
    rewrite !set_uart_eq. split; [|done]. split; [by apply set_uart_all|]. intros l' Hl. by rewrite set_uart_ne.
  - intros b Hb. split; [done|]. intros ln _. done.
Defined.
End Boards.
