(* ===== verification/TermioSim.v ===== *)
(** * TermioSim: simulated serial ports

    An executable chip of the kind [ChipOk] describes: it delivers the characters
    it holds, each after two reads of its status, is busy for one read after a
    character was sent, and its sender stops 18 characters after RTS is dropped.
    With the driver of Ns16550 on top the theorems about the terminal driver hold
    of a concrete machine; and the defects of the driver. *)

From S2P Require Import Prelude CString Comp Queue Ttymode Termio TermioOk TermioRead Ns16550.

(** [u_dlab]: the data register is that of the divisor. *)
Record uart : Type := { u_rx : list Z; u_tx : list Z; u_credit : option nat; u_wait : nat; u_busy : nat; u_dlab : bool }.

Definition set_rx (l : list Z) (u : uart) : uart :=
  {| u_rx := l; u_tx := u_tx u; u_credit := pred <$> u_credit u; u_wait := 2; u_busy := u_busy u; u_dlab := u_dlab u |}.
Definition set_tx (l : list Z) (u : uart) : uart :=
  {| u_rx := u_rx u; u_tx := l; u_credit := u_credit u; u_wait := u_wait u; u_busy := 1; u_dlab := u_dlab u |}.
Definition set_dlab (d : bool) (u : uart) : uart :=
  {| u_rx := u_rx u; u_tx := u_tx u; u_credit := u_credit u; u_wait := u_wait u; u_busy := u_busy u; u_dlab := d |}.
Definition set_credit (n : option nat) (u : uart) : uart :=
  {| u_rx := u_rx u; u_tx := u_tx u; u_credit := n; u_wait := u_wait u; u_busy := u_busy u; u_dlab := u_dlab u |}.

(** Whether there is a character that can come. *)
Definition coming (u : uart) : bool := negb (bool_decide (u_rx u = []) || bool_decide (u_credit u = Some O)).

(** What the status register says, and the time that its reading takes. *)
Definition status (u : uart) : Z :=
  (if coming u && Nat.eqb (u_wait u) 0 then LSR_RXRDY else 0) + (if Nat.eqb (u_busy u) 0 then LSR_TXRDY + LSR_TSRE else 0).
Definition later_uart (u : uart) : uart :=
  {| u_rx := u_rx u; u_tx := u_tx u; u_credit := u_credit u; u_wait := pred (u_wait u); u_busy := pred (u_busy u); u_dlab := u_dlab u |}.

#[global] Instance sim_chip : Chip uart := {
  rd r u :=
    match r with
    | R_LSR => (status u, later_uart u)
    | R_DATA => match u_rx u with [] => (0, u) | c :: l => (c, set_rx l u) end
    | R_MCR => (if u_credit u then MCR_DTR else Z.lor MCR_DTR MCR_RTS, u)
    | _ => (0, u)
    end;
  wr r v u :=
    match r with
    | R_DATA => if u_dlab u then u else set_tx (u_tx u ++ [v]) u
    | R_CFCR => set_dlab (negb (Z.land v CFCR_DLAB =? 0)) u
    | R_MCR => set_credit (if Z.land v MCR_RTS =? 0 then Some 18%nat else None) u
    | _ => u
    end }.

Record uart_ok (u : uart) : Prop := {
  uo_bytes : Forall (fun c => 0 <= c < 256) (u_rx u);
  uo_wait : (u_wait u <= 2)%nat;
  uo_busy : (u_busy u <= 1)%nat;
  uo_dlab : u_dlab u = false
}.

Lemma status_bits u :
  Z.land (status u) LSR_RXRDY = (if coming u && Nat.eqb (u_wait u) 0 then LSR_RXRDY else 0) /\
  Z.land (status u) LSR_TXRDY = (if Nat.eqb (u_busy u) 0 then LSR_TXRDY else 0).
Proof. unfold status. by destruct (coming u && Nat.eqb (u_wait u) 0), (Nat.eqb (u_busy u) 0). Qed.

Lemma coming_spec u : coming u = true <-> u_rx u <> [] /\ u_credit u <> Some O.
Proof. unfold coming. rewrite negb_true_iff, orb_false_iff, !bool_decide_eq_false. done. Qed.

#[global] Instance sim_chip_ok : ChipOk uart.
Proof.
  refine {| c_ok := uart_ok; c_rx := u_rx; c_tx := u_tx; c_credit := u_credit; c_rready _ := True; c_tready _ := True;
            c_rdelay := u_wait; c_tdelay := u_busy; c_patience := 2 |}.
  - intros u [_ ? ? _]. lia.
  - by intros u [? _ _ _].
  - intros u [H1 H2 H3 H4]. cbn [rd sim_chip]. destruct (status_bits u) as [-> ->].
    split; [split; [constructor; cbn; done || lia|split_and!; cbn; done || lia]|]. split; [|split; [|split]].
    + destruct (coming u) eqn:E; [|done]. intros _. apply coming_spec in E. done.
    + intros Hz Hr Hc. rewrite (proj2 (coming_spec u)) in Hz by done. destruct (u_wait u) eqn:Ew; [done|]. cbn. lia.
    + done.
    + intros Hz. destruct (u_busy u) eqn:Eb; [done|]. cbn. lia.
  - intros u x l [H1 H2 H3 H4] _ E. cbn [rd sim_chip]. rewrite E in *. apply Forall_cons_iff in H1 as [Hx H1].
    split; [|split; [constructor; cbn; done || lia|split_and!; done]].
    change 0xff with (Z.ones 8). rewrite Z.land_ones, Z.mod_small by lia. done.
  - intros x u [H1 H2 H3 H4] _. cbn [wr sim_chip]. rewrite H4. split; [constructor; cbn; done || lia|]. split_and!; done.
  - intros u Hu. split_and!; done.
  - intros v u [H1 H2 H3 H4]. cbn [wr sim_chip]. split; [by split|]. split_and!; try done.
    destruct (_ =? 0); [by exists 18%nat|done].
Defined.

(** ** A machine with one terminal *)

Definition sim_line : Termio.line := {| l_handler := 0; l_sio := 0x1000; l_chan := 0 |}.
Definition sim_uart (typed : list Z) : uarts (C := uart) := fun _ => {| u_rx := typed; u_tx := []; u_credit := None; u_wait := 1; u_busy := 0; u_dlab := false |}.

Definition sim_queue : Queue := {| q_first := 0; q_count := 0; q_limit := 63; q_dat := replicate 64 0 |}.
Definition sim_dev0 : DevEntry :=
  {| p_txoff := false; p_qsize := 64; p_rxq := Some sim_queue; p_line := Some sim_line; p_rxoff := false; p_intr := None;
     p_term := None; p_t := sane zero_termio |}.

(** The state [devinit] leaves, and one in which [typed] is about to arrive. *)
Definition sim_tty (typed : list Z) : tty (uarts (C := uart)) :=
  let s := tty_start (sim_uart typed) in Build_tty (s_board s) (<[0%nat := sim_dev0]> (DevTable s)) (_file s) (curlst s).

Lemma sim_inv typed : Forall (fun c => 0 <= c < 256) typed -> Forall (clean (sane zero_termio)) typed -> inv 1 (sim_tty typed).
Proof.
  intros Hb Hc. assert (forall i p, DevTable (sim_tty typed) !! i = Some p -> i = 0%nat /\ p = sim_dev0 \/ p = zero_dev) as Hd.
  { intros [|i] p E; [left; by simplify_eq/=|right]. cbn in E. by do 8 (destruct i as [|i]; [by simplify_eq/=|]). }
  split.
  - intros ln. split; cbn; [done|lia|lia|done].
  - intros i p Hp. destruct (Hd i p Hp) as [[-> ->] | ->]; [right|by left]. exists sim_queue, sim_line. split_and!; [done|done| |lia].
    split; cbn; [|lia|done|done|split; [done|unfold Qspace; cbn; lia]].
    split; cbn; [exists 6; split; [lia|done]|lia|lia|lia].
  - intros i j p p' q q' ln (H1 & H2 & _) (H3 & H4 & _).
    destruct (Hd i p H1) as [[-> _] | ->]; [|done]. by destruct (Hd j p' H3) as [[-> _] | ->].
  - intros i Hi. assert (i = 0%nat) as -> by lia. by exists sim_dev0.
  - by exists zero_dev.
  - done.
Qed.

(** [ab], backspace, [c], return, and the first character of the next line. *)
Definition sim_typed : list Z := [97; 98; 8; 99; 13; 120].



(** [devinit] with one entry of the configuration leaves this state, but for the
    line: it has sent a start character. *)
Definition sim_config (n : nat) : list ConfigEntry :=
  (fun i => {| q_devinfo := 0x1000 + Z.of_nat i; q_chan := 0; q_handler := 0; q_rxqsize := 64; q_brate := 13 |}) <$> seq 0 n.

Definition sim_devinit (n : nat) : res (Z * tty (uarts (C := uart))) :=
  devinit (sim_config n) false (fun _ => None) (fun size => Some (replicate (Z.to_nat size) 0)) 20 (tty_start (sim_uart [])).

Lemma devinit_one : match sim_devinit 1 with
  | Ok (r, s) => r = 0 /\ DevTable s !! 0%nat = Some (set_t {| c_iflag := c_iflag (p_t sim_dev0); c_oflag := c_oflag (p_t sim_dev0);
        c_cflag := 13; c_lflag := c_lflag (p_t sim_dev0); c_cc := c_cc (p_t sim_dev0) |} sim_dev0) /\
      u_tx (s_board s sim_line) = [CNTRL (ch "Q")]
  | Err _ => False
  end.
Proof. vm_compute. repeat split. Qed.

(** ** What the code does not do *)

(** The table has no room for its end mark when all eight devices are
    configured: the poll runs over its end. *)
Lemma eight_devices_overrun : match sim_devinit 8 with
  | Ok (_, s) => scandevs 20 s = Err OutOfBounds
  | Err _ => False
  end.
Proof. vm_compute. reflexivity. Qed.

(** The number of the device is not set for a name such as [tty-]. *)
Lemma open_unset_number : _open 20 (str "tty-") 0 (sim_tty []) = Err OutOfBounds.
Proof. vm_compute. reflexivity. Qed.
