(* ===== verification/Stty.v ===== *)
(** * Stty: the stty command

    The command [stty] of [src/pmon/stty.c] over the terminal driver: the words of
    its command line, the settings it displays, and the lists of [-v]. Opening a
    terminal by name is [_open] of the driver (the monitor has no files in
    memory). *)

From S2P Require Import Prelude CString Numconv Glob Comp Queue Ttymode Termio TermioOk TermioRead TermioSim.

(** ** The words *)

Definition iflag_set (m : Z) (t : termio) : termio := with_iflag t (Z.lor (c_iflag t) m).
Definition iflag_clear (m : Z) (t : termio) : termio := with_iflag t (Z.land (c_iflag t) (Z.lnot m)).
Definition lflag_set (m : Z) (t : termio) : termio := with_lflag t (Z.lor (c_lflag t) m).
Definition lflag_clear (m : Z) (t : termio) : termio := with_lflag t (Z.land (c_lflag t) (Z.lnot m)).
Definition lflag_size (m : Z) (t : termio) : termio := with_lflag t (Z.lor (Z.land (c_lflag t) (Z.lnot CSIZE)) m).

(** The words that clear a setting.
    [src/pmon/stty.c:74-100] *)
Definition minus_words : list (string * (termio -> termio)) :=
  [("-ixoff", iflag_clear IXOFF); ("-ixany", iflag_clear IXANY); ("-ixon", iflag_clear IXON);
   ("-cts_oflow", iflag_clear ICTS_OFLOW); ("-rts_iflow", iflag_clear IRTS_IFLOW);
   ("-rtscts", iflag_clear (Z.lor IRTS_IFLOW ICTS_OFLOW)); ("-parenb", lflag_clear PARENB);
   ("-parodd", lflag_clear PARODD); ("-cstopb", lflag_clear CSTOPB)]%string.

(** The words that set one.
    [src/pmon/stty.c:119-157] *)
Definition plus_words : list (string * (termio -> termio)) :=
  [("ixoff", iflag_set IXOFF); ("ixany", iflag_set IXANY); ("ixon", iflag_set IXON);
   ("cts_oflow", iflag_set ICTS_OFLOW); ("rts_iflow", iflag_set IRTS_IFLOW);
   ("rtscts", iflag_set (Z.lor IRTS_IFLOW ICTS_OFLOW)); ("parenb", lflag_set PARENB);
   ("parodd", lflag_set PARODD); ("cstopb", lflag_set CSTOPB);
   ("cs5", lflag_size CS5); ("cs6", lflag_size CS6); ("cs7", lflag_size CS7); ("cs8", lflag_size CS8)]%string.

Fixpoint find_word (w : cstr) (l : list (string * (termio -> termio))) : option (termio -> termio) :=
  match l with
  | [] => None
  | (n, f) :: l' => if strequ (Some w) (Some (str n)) then Some f else find_word w l'
  end.

(** The letters of another option.
    [src/pmon/stty.c:102-109] *)
Fixpoint letters (s : cstr) (aflag vflag : bool) : option (bool * bool) :=
  match s with
  | [] => Some (aflag, vflag)
  | c :: s' => if c =? ch "a" then letters s' true vflag else if c =? ch "v" then letters s' aflag true else None
  end.

(** The variables of the command.
    [src/pmon/stty.c:65-66] *)
Record stty_st : Type := { st_fd : Z; st_flag : bool; st_aflag : bool; st_vflag : bool; st_tbuf : termio }.

Section Stty.
Context {B : Type} {BD : Board B}.
Variable fuel : nat.
Abbreviation MT := (M (tty B)).

Definition changed (f : termio -> termio) (st : stty_st) : stty_st :=
  {| st_fd := st_fd st; st_flag := true; st_aflag := st_aflag st; st_vflag := st_vflag st; st_tbuf := f (st_tbuf st) |}.

(** [TCGETA]; the buffer keeps what it held when the call fails. *)
Definition get_termio (fd : Z) (old : termio) : MT termio :=
  ioctl fuel fd TCGETA ≫= fun '((_, o) : Z * ioctl_out) => mret (match o with OTermio t => t | _ => old end).

(** One word: the end of the command, or the variables.
    [src/pmon/stty.c:73-174] *)
Definition stty_word (w : cstr) (st : stty_st) : MT ((Z * trace) + stty_st) :=
  if at_ w 0 =? ch "-" then
    match find_word w minus_words with
    | Some f => mret (inr (changed f st))
    | None =>
      match letters (tail w) (st_aflag st) (st_vflag st) with
      | Some (a, v) => mret (inr {| st_fd := st_fd st; st_flag := st_flag st; st_aflag := a; st_vflag := v; st_tbuf := st_tbuf st |})
      | None => mret (inl (-1, []))
      end
    end
  else if isdigit (at_ w 0) then
    let cbaud := getbaudrate w in
    if cbaud =? 0 then mret (inl (-1, [Printf "%s: illegal baud rate\n" [AStr (Some w)]]))
    else mret (inr (changed (fun t => with_cflag t cbaud) st))
  else
    match find_word w plus_words with
    | Some f => mret (inr (changed f st))
    | None =>
      if strequ (Some w) (Some (str "sane")) then
        ioctl fuel (st_fd st) SETSANE ≫= fun _ =>
        get_termio (st_fd st) (st_tbuf st) ≫= fun t =>
        mret (inr {| st_fd := st_fd st; st_flag := st_flag st; st_aflag := st_aflag st; st_vflag := st_vflag st; st_tbuf := t |})
      else if strpat (Some w) (Some (str "tty?")) then
        _open fuel w 0 ≫= fun fd =>
        if fd =? -1 then mret (inl (1, [Printf "can't open %s\n" [AStr (Some w)]]))
        else
          get_termio fd (st_tbuf st) ≫= fun t =>
          mret (inr {| st_fd := fd; st_flag := st_flag st; st_aflag := st_aflag st; st_vflag := st_vflag st; st_tbuf := t |})
      else
        ioctl fuel (st_fd st) (SETTERM w) ≫= fun '((r, _) : Z * ioctl_out) =>
        if r =? -1 then mret (inl (-1, [Printf "term type %s not found\n" [AStr (Some w)]]))
        else mret (inr (changed id st))
    end.

(** [src/pmon/stty.c:72-175] *)
Fixpoint stty_words (ws : list cstr) (st : stty_st) : MT ((Z * trace) + stty_st) :=
  match ws with
  | [] => mret (inr st)
  | w :: ws' =>
    stty_word w st ≫= fun r =>
    match r with
    | inl e => mret (inl e)
    | inr st => stty_words ws' st
    end
  end.

(** ** What is displayed *)

(** [src/pmon/stty.c:186-190] *)
Fixpoint term_types (n : nat) (i : Z) (o : trace) : MT trace :=
  match n with
  | O => mret o
  | S n' =>
    ioctl fuel i TERMTYPE ≫= fun '((r, out) : Z * ioctl_out) =>
    if r =? -1 then mret o
    else
      term_types n' r (o ++ (if Z.rem r 6 =? 0 then [Printf "\n" []] else []) ++
        [Printf "%10s " [AStr (match out with OText s => Some s | _ => None end)]])
  end.

(** [src/pmon/stty.c:178-183] *)
Definition baud_list : trace :=
  Printf "Baud rates:\n\t" [] ::
  concat (imap (fun i e => Printf "%5s " [AStr (Some e.1)] :: (if (i =? 8)%nat then [Printf "\n\t" []] else [])) btable).

(** [src/pmon/stty.c:177-192] *)
Definition stty_lists : MT trace :=
  term_types OPEN_MAX 0 (baud_list ++ [Printf "\n" []; Printf "Terminal types:\n" []]) ≫= fun o =>
  mret (o ++ [Printf "\n" []]).

(** A setting, by its flag. *)
Definition shown (fmt : string) (b : bool) : event := Printf fmt [AStr (Some (str (if b then "" else "-")))].

(** The size of a character.
    [src/pmon/stty.c:216-221] *)
Definition size_word (l : Z) : string :=
  let z := Z.land l CSIZE in
  if z =? CS5 then "cs5 "%string else if z =? CS6 then "cs6 "%string else if z =? CS7 then "cs7 "%string else "cs8 "%string.

(** [src/pmon/stty.c:216-228] *)
Definition frame_text (t : termio) : trace :=
  [Printf (size_word (c_lflag t)) []; shown "%scstopb " (on (c_lflag t) CSTOPB); shown "%sparenb " (on (c_lflag t) PARENB);
   shown "%sparodd " (on (c_lflag t) PARODD); shown "%scts_oflow " (on (c_iflag t) ICTS_OFLOW);
   shown "%srts_iflow " (on (c_iflag t) IRTS_IFLOW); Printf "\n" []].

(** [src/pmon/stty.c:230-239] *)
Definition input_text (t : termio) : trace :=
  [shown "%sistrip " (on (c_iflag t) ISTRIP); shown "%sixon " (on (c_iflag t) IXON); shown "%sixany " (on (c_iflag t) IXANY);
   shown "%sixoff " (on (c_iflag t) IXOFF); shown "%sicanon " (on (c_lflag t) ICANON); shown "%secho " (on (c_lflag t) ECHO);
   shown "%sechoe " (on (c_lflag t) ECHOE); shown "%sicrnl " (on (c_iflag t) ICRNL); shown "%sonlcr " (on (c_oflag t) ONLCR);
   Printf "\n" []].

(** [src/pmon/stty.c:241-247] *)
Definition cc_text (t : termio) : trace :=
  (fun '((fmt, n) : string * nat) => Printf fmt [AStr (Some (cc2str (cc t n)))]) <$>
    [("erase=%s ", VERASE); ("stop=%s ", V_STOP); ("start=%s ", V_START); ("eol=%s ", VEOL); ("eol2=%s ", VEOL2);
     ("vintr=%s ", VINTR)]%string.

(** [src/pmon/stty.c:204-249] *)
Definition stty_show (st : stty_st) : MT (Z * trace) :=
  ioctl fuel (st_fd st) GETTERM ≫= fun '((r, out) : Z * ioctl_out) =>
  let term := if negb (r =? -1) then [Printf "term=%s " [AStr (match out with OText s => Some s | _ => None end)]] else [] in
  let baud := getbaudval (c_cflag (st_tbuf st)) in
  let rate := if negb (baud =? 0) then [Printf "baud=%d " [AInt baud]] else [] in
  let head := term ++ rate ++ [Printf "\n" []] in
  if negb (st_aflag st) then mret (0, head)
  else
    let t := st_tbuf st in
    mret (0, head ++ frame_text t ++ input_text t ++ cc_text t ++ [Printf "\n" []]).

(** [src/pmon/stty.c:60-249] *)
Definition stty (av : list cstr) : MT (Z * trace) :=
  get_termio 0 zero_termio ≫= fun t0 =>
  stty_words (tail av) {| st_fd := 0; st_flag := false; st_aflag := false; st_vflag := false; st_tbuf := t0 |} ≫= fun r =>
  match r with
  | inl e => mret e
  | inr st =>
    (if st_vflag st then stty_lists else mret []) ≫= fun o1 =>
    if st_flag st then
      ioctl fuel (st_fd st) (TCSETAF (st_tbuf st)) ≫= fun '((r, _) : Z * ioctl_out) =>
      if r <? 0 then mret (1, o1 ++ [Printf "baud rate %d not available\n" [AInt (getbaudval (c_cflag (st_tbuf st)))]])
      else if negb (st_aflag st) then mret (0, o1)
      else stty_show st ≫= fun '((r, o) : Z * trace) => mret (r, o1 ++ o)
    else stty_show st ≫= fun '((r, o) : Z * trace) => mret (r, o1 ++ o)
  end.
End Stty.

(** ** What is displayed can be typed again

    The words of the display that are words of the command too, without their
    blanks. *)
Definition word_of (b : bool) (name : string) : cstr := str ((if b then "" else "-") ++ name)%string.

Definition display_words (t : termio) : list cstr :=
  [removelast (str (size_word (c_lflag t))); word_of (on (c_lflag t) CSTOPB) "cstopb"; word_of (on (c_lflag t) PARENB) "parenb";
   word_of (on (c_lflag t) PARODD) "parodd"; word_of (on (c_iflag t) ICTS_OFLOW) "cts_oflow";
   word_of (on (c_iflag t) IRTS_IFLOW) "rts_iflow"; word_of (on (c_iflag t) IXON) "ixon";
   word_of (on (c_iflag t) IXANY) "ixany"; word_of (on (c_iflag t) IXOFF) "ixoff"].

(** They are what the events of the display print. *)
Definition printed (ev : event) : list cstr :=
  match ev with
  | Printf fmt [] => if decide (str fmt = str "\n") then [] else [removelast (str fmt)]
  | Printf fmt [AStr (Some s)] => [s ++ removelast (drop 2 (str fmt))]
  | _ => []
  end.

Lemma printed_shown fmt name b : removelast (drop 2 (str fmt)) = str name -> printed (shown fmt b) = [word_of b name].
Proof. intros E. cbn [printed shown]. rewrite E. by destruct b. Qed.

Lemma display_printed t : display_words t =
  (frame_text t ≫= printed) ++ (take 3 (drop 1 (input_text t)) ≫= printed).
Proof.
  unfold display_words, frame_text, input_text. cbn [mbind list_bind take drop app].
  rewrite (printed_shown "%scstopb " "cstopb"), (printed_shown "%sparenb " "parenb"), (printed_shown "%sparodd " "parodd"),
    (printed_shown "%scts_oflow " "cts_oflow"), (printed_shown "%srts_iflow " "rts_iflow"), (printed_shown "%sixon " "ixon"),
    (printed_shown "%sixany " "ixany"), (printed_shown "%sixoff " "ixoff") by reflexivity.
  cbn [app]. unfold size_word. destruct (csize_cases (c_lflag t)) as [E|[E|[E|E]]]; rewrite E; reflexivity.
Qed.

Section Roundtrip.
Context {B : Type} {BD : Board B}.
Variable fuel : nat.

Definition lput (m v : Z) (t : termio) : termio := with_lflag t (put_bits m v (c_lflag t)).
Definition iput (m v : Z) (t : termio) : termio := with_iflag t (put_bits m v (c_iflag t)).

(** A word and its negation, which set and clear one bit. *)
Definition word_pair (name : string) (set clear : termio -> termio) : Prop :=
  find_word (word_of true name) plus_words = Some set /\ at_ (word_of true name) 0 <> ch "-" /\
  isdigit (at_ (word_of true name) 0) = false /\
  find_word (word_of false name) minus_words = Some clear /\ at_ (word_of false name) 0 = ch "-".

Lemma pair_step name set clear (b : bool) (st : stty_st) (s : tty B) : word_pair name set clear ->
  stty_word fuel (word_of b name) st s = Ok (inr (changed (if b then set else clear) st), s).
Proof.
  intros (H1 & H2 & H3 & H4 & H5). unfold stty_word. destruct b.
  - by rewrite (proj2 (Z.eqb_neq _ _) H2), H3, H1.
  - by rewrite H5, Z.eqb_refl, H4.
Qed.

Lemma lflag_bit k v t : 0 <= k -> (if on v (2 ^ k) then lflag_set (2 ^ k) else lflag_clear (2 ^ k)) t = lput (2 ^ k) v t.
Proof.
  intros Hk. pose proof (one_bit k v Hk) as E. unfold lput, lflag_set, lflag_clear. destruct (on v (2 ^ k)).
  - by rewrite put_set.
  - by rewrite put_clear.
Qed.

Lemma iflag_bit k v t : 0 <= k -> (if on v (2 ^ k) then iflag_set (2 ^ k) else iflag_clear (2 ^ k)) t = iput (2 ^ k) v t.
Proof.
  intros Hk. pose proof (one_bit k v Hk) as E. unfold iput, iflag_set, iflag_clear. destruct (on v (2 ^ k)).
  - by rewrite put_set.
  - by rewrite put_clear.
Qed.

Lemma words_lflag k name v st ws (s : tty B) : 0 <= k -> word_pair name (lflag_set (2 ^ k)) (lflag_clear (2 ^ k)) ->
  stty_words fuel (word_of (on v (2 ^ k)) name :: ws) st s = stty_words fuel ws (changed (lput (2 ^ k) v) st) s.
Proof.
  intros Hk Hw. cbn [stty_words]. rewrite (bind_ok _ _ _ _ _ (pair_step _ _ _ _ st s Hw)). f_equal.
  unfold changed. by rewrite <- lflag_bit.
Qed.

Lemma words_iflag k name v st ws (s : tty B) : 0 <= k -> word_pair name (iflag_set (2 ^ k)) (iflag_clear (2 ^ k)) ->
  stty_words fuel (word_of (on v (2 ^ k)) name :: ws) st s = stty_words fuel ws (changed (iput (2 ^ k) v) st) s.
Proof.
  intros Hk Hw. cbn [stty_words]. rewrite (bind_ok _ _ _ _ _ (pair_step _ _ _ _ st s Hw)). f_equal.
  unfold changed. by rewrite <- iflag_bit.
Qed.

Lemma words_size l st ws (s : tty B) :
  stty_words fuel (removelast (str (size_word l)) :: ws) st s = stty_words fuel ws (changed (lput CSIZE l) st) s.
Proof.
  unfold changed, lput. unfold size_word. destruct (csize_cases l) as [E|[E|[E|E]]]; rewrite (put_field _ _ _ _ E), E; reflexivity.
Qed.

Lemma changed_lput m1 m2 v st : changed (lput m2 v) (changed (lput m1 v) st) = changed (lput (Z.lor m1 m2) v) st.
Proof. unfold changed, lput. cbn [st_tbuf with_lflag c_lflag]. by rewrite put_bits_put. Qed.

Lemma changed_iput m1 m2 v st : changed (iput m2 v) (changed (iput m1 v) st) = changed (iput (Z.lor m1 m2) v) st.
Proof. unfold changed, iput. cbn [st_tbuf with_iflag c_iflag]. by rewrite put_bits_put. Qed.

(** C20. The display of [stty -a] can be typed again: the words it prints for
    the size of a character, stop bits, parity and flow control of a terminal, as
    the words of another [stty] command, give its buffer exactly these settings,
    whatever it held, keep all its other bits, and leave the terminal alone until
    the command applies them. *)
Theorem stty_display_roundtrip (t : termio) (st : stty_st) (s : tty B) :
  stty_words fuel ((frame_text t ≫= printed) ++ (take 3 (drop 1 (input_text t)) ≫= printed)) st s =
  Ok (inr {| st_fd := st_fd st; st_flag := true; st_aflag := st_aflag st; st_vflag := st_vflag st;
             st_tbuf := with_iflag (with_lflag (st_tbuf st) (put_bits FRAME (c_lflag t) (c_lflag (st_tbuf st))))
                          (put_bits FLOW (c_iflag t) (c_iflag (st_tbuf st))) |}, s).
Proof.
  rewrite <- display_printed. unfold display_words. rewrite words_size.
  rewrite (words_lflag 10), (words_lflag 11), (words_lflag 12) by (done || (repeat split; done)).
  rewrite (words_iflag 13), (words_iflag 14), (words_iflag 10), (words_iflag 11), (words_iflag 12) by (done || (repeat split; done)).
  rewrite !changed_lput, !changed_iput. reflexivity.
Qed.
End Roundtrip.
