(* ===== verification/Pci.v ===== *)
(** * Pci: configuration of the PCI buses

    [src/pmon/pci/pciconf.c]: the bridges are numbered, every function of
    every device is queried for the address windows it needs, the windows are
    sorted and given addresses, the bridges are opened for what lies behind
    them, and the devices are enabled and offered to the drivers. The file is
    shared by all boards; what it calls in a board's [pci_machdep.c] is the
    class [PciBoard], the drivers of [_pci_cfdata] are the class [PciDrivers].

    The static arrays ([pcidev], [pcimemwin], [pciiowin]) are lists of their
    full length with their counts beside them, so a second run finds what the
    first one left; the [dev] pointer of a window is an index, so all windows
    of a device see its [nmemwin]. A computation may fail: it runs out of
    fuel, it indexes an array out of its bounds, or it waits for a device for
    ever. *)

From S2P Require Import Prelude Numconv Format Qsort Comp.

(** ** Constants *)

(** [src/pmon/pci/pcireg.h:42] *)
Definition PCI_BUSMAX : Z := 255.
(** [src/pmon/pci/pcireg.h:43] *)
Definition PCI_DEVMAX : Z := 31.
(** [src/pmon/pci/pcireg.h:44] *)
Definition PCI_FUNCMAX : Z := 7.
(** [src/pmon/pci/pcireg.h:45] *)
Definition PCI_REGMAX : Z := 255.
(** [src/pmon/pci/pcireg.h:50] *)
Definition PCI_ID_REG : Z := 0x00.
(** [src/pmon/pci/pcireg.h:70] *)
Definition PCI_COMMAND_STATUS_REG : Z := 0x04.
(** [src/pmon/pci/pcireg.h:101] *)
Definition PCI_CLASS_REG : Z := 0x08.
(** [src/pmon/pci/pcireg.h:228] *)
Definition PCI_MISC_REG : Z := 0x0c.
(** [src/pmon/pci/pcireg.h:258] *)
Definition PCI_MAP_REG_START : Z := 0x10.
(** [src/pmon/pci/pcireg.h:259] *)
Definition PCI_MAP_REG_END : Z := 0x28.
(** [src/pmon/pci/pcireg.h:260] *)
Definition PCI_MAP_REG_ROM : Z := 0x30.
(** [src/pmon/pci/pcireg.h:303] *)
Definition PCI_BPARAM_REG : Z := 0x3c.
(** [src/pmon/pci/pcireg.h:318] *)
Definition PPB_BUS_REG : Z := 0x18.
(** [src/pmon/pci/pcireg.h:320] *)
Definition PPB_IO_REG : Z := 0x1c.
(** [src/pmon/pci/pcireg.h:324] *)
Definition PPB_MEM_REG : Z := 0x20.

Definition PCI_COMMAND_IO_ENABLE : Z := 0x1.
Definition PCI_COMMAND_MEM_ENABLE : Z := 0x2.
Definition PCI_COMMAND_MASTER_ENABLE : Z := 0x4.
Definition PCI_COMMAND_PARITY_ENABLE : Z := 0x40.
Definition PCI_COMMAND_SERR_ENABLE : Z := 0x100.
Definition PCI_COMMAND_BACKTOBACK_ENABLE : Z := 0x200.
Definition PCI_STATUS_66MHZ_OKAY : Z := 0x200000.
Definition PCI_STATUS_BACKTOBACK_OKAY : Z := 0x800000.
Definition PCI_STATUS_DEVSEL_MASK : Z := 0x6000000.
Definition PCI_STATUS_DEVSEL_SHIFT : Z := 25.

(** [src/pmon/pci/pcireg.h:110-113] *)
Definition PCI_CLASS (cr : Z) : Z := Z.land (Z.shiftr cr 24) 0xff.
(** [src/pmon/pci/pcireg.h:115-118] *)
Definition PCI_SUBCLASS (cr : Z) : Z := Z.land (Z.shiftr cr 16) 0xff.
Definition PCI_CLASS_BRIDGE : Z := 0x06.
Definition PCI_SUBCLASS_BRIDGE_PCI : Z := 0x04.
(** The test of [src/pmon/pci/pciconf.c:270-271], also made at 754 and 800.
    [src/pmon/pci/pciconf.c:270-271] *)
Definition is_ppb (class : Z) : bool :=
  (PCI_CLASS class =? PCI_CLASS_BRIDGE) && (PCI_SUBCLASS class =? PCI_SUBCLASS_BRIDGE_PCI).

(** [src/pmon/pci/pcireg.h:230-233] *)
Definition PCI_MISC_HDRTYPE (mr : Z) : Z := Z.land (Z.shiftr mr 16) 0xff.
Definition PCI_MISC_HDRTYPE_MULTI : Z := 0x80.
(** [src/pmon/pci/pcireg.h:239-245] *)
Definition PCI_MISC_LTIM_SET (mr v : Z) : Z :=
  u32 (Z.lor (Z.land mr (u32 (Z.lnot (Z.shiftl 0xff 8)))) (Z.shiftl v 8)).
(** [src/pmon/pci/pcireg.h:247-253] *)
Definition PCI_MISC_CLSZ_SET (mr v : Z) : Z :=
  u32 (Z.lor (Z.land mr (u32 (Z.lnot 0xff))) v).

Definition PCI_MAP_MEMORY_TYPE_32BIT : Z := 0x0.
Definition PCI_MAP_MEMORY_TYPE_32BIT_1M : Z := 0x2.
Definition PCI_MAP_MEMORY_TYPE_64BIT : Z := 0x4.
Definition PCI_MAP_MEMORY_TYPE_MASK : Z := 0x6.
Definition PCI_MAP_MEMORY_PREFETCHABLE : Z := 0x8.
Definition PCI_MAP_MEMORY_ADDRESS_MASK : Z := 0xfffffff0.
Definition PCI_MAP_IO : Z := 0x1.
Definition PCI_MAP_IO_ADDRESS_MASK : Z := 0xfffffffc.
Definition PCI_MAP_ROM : Z := 0x1.
Definition PCI_MAP_ROM_ADDRESS_MASK : Z := 0xfffff800.
(** [src/pmon/pci/pcireg.h:305-308] *)
Definition PCI_BPARAM_MAX_LAT (bp : Z) : Z := Z.land (Z.shiftr bp 24) 0xff.
(** [src/pmon/pci/pcireg.h:310-313] *)
Definition PCI_BPARAM_MIN_GNT (bp : Z) : Z := Z.land (Z.shiftr bp 16) 0xff.
Definition PPB_IO_BASE_MASK : Z := 0xff.
Definition PPB_IO_LIMIT_MASK : Z := 0xff00.
Definition PPB_MEM_BASE_MASK : Z := 0xffff.
Definition PPB_MEM_LIMIT_MASK : Z := 0xffff0000.

(** [x & ~m] on 32 bits. *)
Definition clear (x m : Z) : Z := Z.land x (u32 (Z.lnot m)).
(** A bit mask as a C truth value. *)
Definition bit_set (x m : Z) : bool := negb (Z.land x m =? 0).

(** [src/pmon/pci/pciconf.c:72] *)
Definition PCIMAX_DEV : nat := 16.
(** [src/pmon/pci/pciconf.c:73] *)
Definition PCIMAX_MEMWIN : nat := 3.
(** [src/pmon/pci/pciconf.c:74] *)
Definition PCIMAX_IOWIN : nat := 1.

(** ** Data *)

(** [src/pmon/pci/pcivar.h:143-162] *)
Record pci_bus : Type := {
  b_min_gnt : Z; b_max_lat : Z; b_devsel : Z;
  b_fast_b2b : Z; b_prefetch : Z; b_freq66 : Z; b_width64 : Z;
  b_bandwidth : Z; b_ndev : Z; b_def_ltim : Z; b_max_ltim : Z;
  b_primary : Z; b_tag : Z;
  b_min_io_addr : Z; b_max_io_addr : Z; b_min_mem_addr : Z; b_max_mem_addr : Z
}.

(** [src/pmon/pci/pcivar.h:70-76] *)
Record pci_attach_args : Type := {
  pa_bus : Z; pa_device : Z; pa_function : Z; pa_tag : Z; pa_id : Z; pa_class : Z
}.

(** [src/pmon/pci/pciconf.c:76-82] *)
Record pcidev : Type := {
  d_pa : pci_attach_args;
  d_min_gnt : Z; d_max_lat : Z; d_nmemwin : Z; d_niowin : Z
}.

(** [src/pmon/pci/pciconf.c:84-89] *)
Record pciwin : Type := { w_dev : nat; w_reg : Z; w_size : Z; w_address : Z }.

(** The fields of a bus that change together. *)
Definition with_status (ndev b2b f66 devsel : Z) (x : pci_bus) : pci_bus :=
  {| b_min_gnt := b_min_gnt x; b_max_lat := b_max_lat x; b_devsel := devsel;
     b_fast_b2b := b2b; b_prefetch := b_prefetch x; b_freq66 := f66;
     b_width64 := b_width64 x; b_bandwidth := b_bandwidth x; b_ndev := ndev;
     b_def_ltim := b_def_ltim x; b_max_ltim := b_max_ltim x;
     b_primary := b_primary x; b_tag := b_tag x;
     b_min_io_addr := b_min_io_addr x; b_max_io_addr := b_max_io_addr x;
     b_min_mem_addr := b_min_mem_addr x; b_max_mem_addr := b_max_mem_addr x |}.
Definition with_param (mingnt maxlat bw : Z) (x : pci_bus) : pci_bus :=
  {| b_min_gnt := mingnt; b_max_lat := maxlat; b_devsel := b_devsel x;
     b_fast_b2b := b_fast_b2b x; b_prefetch := b_prefetch x; b_freq66 := b_freq66 x;
     b_width64 := b_width64 x; b_bandwidth := bw; b_ndev := b_ndev x;
     b_def_ltim := b_def_ltim x; b_max_ltim := b_max_ltim x;
     b_primary := b_primary x; b_tag := b_tag x;
     b_min_io_addr := b_min_io_addr x; b_max_io_addr := b_max_io_addr x;
     b_min_mem_addr := b_min_mem_addr x; b_max_mem_addr := b_max_mem_addr x |}.
Definition with_prefetch (pf : Z) (x : pci_bus) : pci_bus :=
  {| b_min_gnt := b_min_gnt x; b_max_lat := b_max_lat x; b_devsel := b_devsel x;
     b_fast_b2b := b_fast_b2b x; b_prefetch := pf; b_freq66 := b_freq66 x;
     b_width64 := b_width64 x; b_bandwidth := b_bandwidth x; b_ndev := b_ndev x;
     b_def_ltim := b_def_ltim x; b_max_ltim := b_max_ltim x;
     b_primary := b_primary x; b_tag := b_tag x;
     b_min_io_addr := b_min_io_addr x; b_max_io_addr := b_max_io_addr x;
     b_min_mem_addr := b_min_mem_addr x; b_max_mem_addr := b_max_mem_addr x |}.
Definition with_ltim (def max : Z) (x : pci_bus) : pci_bus :=
  {| b_min_gnt := b_min_gnt x; b_max_lat := b_max_lat x; b_devsel := b_devsel x;
     b_fast_b2b := b_fast_b2b x; b_prefetch := b_prefetch x; b_freq66 := b_freq66 x;
     b_width64 := b_width64 x; b_bandwidth := b_bandwidth x; b_ndev := b_ndev x;
     b_def_ltim := def; b_max_ltim := max;
     b_primary := b_primary x; b_tag := b_tag x;
     b_min_io_addr := b_min_io_addr x; b_max_io_addr := b_max_io_addr x;
     b_min_mem_addr := b_min_mem_addr x; b_max_mem_addr := b_max_mem_addr x |}.
Definition with_upstream (tag primary : Z) (x : pci_bus) : pci_bus :=
  {| b_min_gnt := b_min_gnt x; b_max_lat := b_max_lat x; b_devsel := b_devsel x;
     b_fast_b2b := b_fast_b2b x; b_prefetch := b_prefetch x; b_freq66 := b_freq66 x;
     b_width64 := b_width64 x; b_bandwidth := b_bandwidth x; b_ndev := b_ndev x;
     b_def_ltim := b_def_ltim x; b_max_ltim := b_max_ltim x;
     b_primary := primary; b_tag := tag;
     b_min_io_addr := b_min_io_addr x; b_max_io_addr := b_max_io_addr x;
     b_min_mem_addr := b_min_mem_addr x; b_max_mem_addr := b_max_mem_addr x |}.
Definition with_io_range (lo hi : Z) (x : pci_bus) : pci_bus :=
  {| b_min_gnt := b_min_gnt x; b_max_lat := b_max_lat x; b_devsel := b_devsel x;
     b_fast_b2b := b_fast_b2b x; b_prefetch := b_prefetch x; b_freq66 := b_freq66 x;
     b_width64 := b_width64 x; b_bandwidth := b_bandwidth x; b_ndev := b_ndev x;
     b_def_ltim := b_def_ltim x; b_max_ltim := b_max_ltim x;
     b_primary := b_primary x; b_tag := b_tag x;
     b_min_io_addr := lo; b_max_io_addr := hi;
     b_min_mem_addr := b_min_mem_addr x; b_max_mem_addr := b_max_mem_addr x |}.
Definition with_mem_range (lo hi : Z) (x : pci_bus) : pci_bus :=
  {| b_min_gnt := b_min_gnt x; b_max_lat := b_max_lat x; b_devsel := b_devsel x;
     b_fast_b2b := b_fast_b2b x; b_prefetch := b_prefetch x; b_freq66 := b_freq66 x;
     b_width64 := b_width64 x; b_bandwidth := b_bandwidth x; b_ndev := b_ndev x;
     b_def_ltim := b_def_ltim x; b_max_ltim := b_max_ltim x;
     b_primary := b_primary x; b_tag := b_tag x;
     b_min_io_addr := b_min_io_addr x; b_max_io_addr := b_max_io_addr x;
     b_min_mem_addr := lo; b_max_mem_addr := hi |}.

(** What [pciconf.c] and the board's [pci_machdep.c] share: the board's own
    state, [_pci_bus], [_pci_nbus], [_pciverbose] and the console. *)
Record shared (B : Type) : Type := {
  s_board : B; s_bus : list pci_bus; s_nbus : Z; s_verbose : Z; s_out : trace
}.
Arguments s_board {B} s. Arguments s_bus {B} s. Arguments s_nbus {B} s.
Arguments s_verbose {B} s. Arguments s_out {B} s.

Section SharedState.
Context {B : Type}.
Definition with_board (b : B) (s : shared B) : shared B :=
  {| s_board := b; s_bus := s_bus s; s_nbus := s_nbus s; s_verbose := s_verbose s; s_out := s_out s |}.
Definition with_bus (l : list pci_bus) (s : shared B) : shared B :=
  {| s_board := s_board s; s_bus := l; s_nbus := s_nbus s; s_verbose := s_verbose s; s_out := s_out s |}.
Definition with_nbus (n : Z) (s : shared B) : shared B :=
  {| s_board := s_board s; s_bus := s_bus s; s_nbus := n; s_verbose := s_verbose s; s_out := s_out s |}.
Definition with_verbose (v : Z) (s : shared B) : shared B :=
  {| s_board := s_board s; s_bus := s_bus s; s_nbus := s_nbus s; s_verbose := v; s_out := s_out s |}.
Definition emit (t : trace) (s : shared B) : shared B :=
  {| s_board := s_board s; s_bus := s_bus s; s_nbus := s_nbus s; s_verbose := s_verbose s;
     s_out := s_out s ++ t |}.
End SharedState.

(** What a board's [pci_machdep.c] provides. *)
Class PciBoard (B : Type) : Type := {
  pci_maxbus : Z;
  pci_hwinit : Z -> M (shared B) Z;
  pci_hwreinit : M (shared B) unit;
  pci_make_tag : Z -> Z -> Z -> Z;
  pci_break_tag : Z -> Z * Z * Z;
  pci_canscan : Z -> bool;
  pci_conf_read : Z -> Z -> M (shared B) Z;
  pci_conf_write : Z -> Z -> Z -> M (shared B) unit;
  pci_allocate_mem : Z -> Z -> M (shared B) Z;
  pci_allocate_io : Z -> Z -> M (shared B) Z
}.

(** ** The configuration data of the drivers *)

(** The fields of [struct cfdata] that the code uses; [cf_driver] is an index
    into the drivers. [src/pmon/pci/device.h:83-91] *)
Record cfdata : Type := { cf_driver : nat; cf_unit : Z; cf_fstate : Z }.
Definition FSTATE_FOUND : Z := 1.

(** [src/pmon/pci/device.h:63-70] *)
Record device : Type := { dv_class : Z; dv_unit : Z; dv_xname : cstr }.

(** [cd_devs] is the allocated array ([cd_ndevs] its length).
    [src/pmon/pci/device.h:116-125] *)
Record cfdriver : Type := {
  cd_devs : list (option device); cd_name : cstr; cd_class : Z; cd_devsize : Z
}.
Definition with_devs (l : list (option device)) (c : cfdriver) : cfdriver :=
  {| cd_devs := l; cd_name := cd_name c; cd_class := cd_class c; cd_devsize := cd_devsize c |}.

(** The [cd_match] and [cd_attach] functions of the drivers, the vendor and
    product text of [_pci_devinfo], and whether [malloc] finds memory. *)
Class PciDrivers (B : Type) : Type := {
  drv_match : nat -> cfdata -> pci_attach_args -> M (shared B) bool;
  drv_attach : nat -> device -> pci_attach_args -> M (shared B) unit;
  drv_malloc : Z -> M (shared B) bool;
  drv_devinfo : Z -> Z -> cstr
}.

(** The state of [pciconf.c]. *)
Record pci (B : Type) : Type := {
  p_sh : shared B;
  p_dev : list pcidev; p_ndev : nat;
  p_memwin : list pciwin; p_nmemwin : nat;
  p_iowin : list pciwin; p_niowin : nat;
  p_cfdata : list cfdata; p_cfdrivers : list cfdriver;
  p_enumerated : Z
}.
Arguments p_sh {B} p. Arguments p_dev {B} p. Arguments p_ndev {B} p.
Arguments p_memwin {B} p. Arguments p_nmemwin {B} p.
Arguments p_iowin {B} p. Arguments p_niowin {B} p.
Arguments p_cfdata {B} p. Arguments p_cfdrivers {B} p. Arguments p_enumerated {B} p.

Section PciConf.
Context {B : Type} `{PB : PciBoard B} `{PD : PciDrivers B}.

Definition with_sh (x : shared B) (p : pci B) : pci B :=
  {| p_sh := x; p_dev := p_dev p; p_ndev := p_ndev p; p_memwin := p_memwin p;
     p_nmemwin := p_nmemwin p; p_iowin := p_iowin p; p_niowin := p_niowin p;
     p_cfdata := p_cfdata p; p_cfdrivers := p_cfdrivers p; p_enumerated := p_enumerated p |}.
Definition with_dev (l : list pcidev) (n : nat) (p : pci B) : pci B :=
  {| p_sh := p_sh p; p_dev := l; p_ndev := n; p_memwin := p_memwin p;
     p_nmemwin := p_nmemwin p; p_iowin := p_iowin p; p_niowin := p_niowin p;
     p_cfdata := p_cfdata p; p_cfdrivers := p_cfdrivers p; p_enumerated := p_enumerated p |}.
Definition with_memwin (l : list pciwin) (n : nat) (p : pci B) : pci B :=
  {| p_sh := p_sh p; p_dev := p_dev p; p_ndev := p_ndev p; p_memwin := l;
     p_nmemwin := n; p_iowin := p_iowin p; p_niowin := p_niowin p;
     p_cfdata := p_cfdata p; p_cfdrivers := p_cfdrivers p; p_enumerated := p_enumerated p |}.
Definition with_iowin (l : list pciwin) (n : nat) (p : pci B) : pci B :=
  {| p_sh := p_sh p; p_dev := p_dev p; p_ndev := p_ndev p; p_memwin := p_memwin p;
     p_nmemwin := p_nmemwin p; p_iowin := l; p_niowin := n;
     p_cfdata := p_cfdata p; p_cfdrivers := p_cfdrivers p; p_enumerated := p_enumerated p |}.
Definition with_cf (c : list cfdata) (d : list cfdriver) (p : pci B) : pci B :=
  {| p_sh := p_sh p; p_dev := p_dev p; p_ndev := p_ndev p; p_memwin := p_memwin p;
     p_nmemwin := p_nmemwin p; p_iowin := p_iowin p; p_niowin := p_niowin p;
     p_cfdata := c; p_cfdrivers := d; p_enumerated := p_enumerated p |}.
Definition with_enumerated (v : Z) (p : pci B) : pci B :=
  {| p_sh := p_sh p; p_dev := p_dev p; p_ndev := p_ndev p; p_memwin := p_memwin p;
     p_nmemwin := p_nmemwin p; p_iowin := p_iowin p; p_niowin := p_niowin p;
     p_cfdata := p_cfdata p; p_cfdrivers := p_cfdrivers p; p_enumerated := v |}.

(** A call into the board. *)
Definition sh {A} (m : M (shared B) A) : M (pci B) A := fun p =>
  match m (p_sh p) with
  | Ok (a, x) => Ok (a, with_sh x p)
  | Err f => Err f
  end.

Abbreviation MP := (M (pci B)).
Abbreviation MS := (M (shared B)).

(** [&_pci_bus[i]], to read and to change. *)
Definition the_bus (i : Z) : MS pci_bus :=
  gets s_bus ≫= fun l => if i <? 0 then fail OutOfBounds else need (l !! Z.to_nat i).
Definition mod_bus (i : Z) (f : pci_bus -> pci_bus) : MS unit :=
  the_bus i ≫= fun pb => modify (fun s => with_bus (<[Z.to_nat i := f pb]> (s_bus s)) s).

(** ** Messages *)

(** [src/pmon/pci/pciconf.c:130-141] *)
Definition print_bdf (nbus bus device function : Z) : trace :=
  [Printf "PCI" []] ++
  (if (1 <? nbus) && (0 <=? bus) then [Printf " bus %d" [AInt bus]] else []) ++
  (if 0 <=? device then [Printf " slot %d" [AInt device]] else []) ++
  (if 0 <=? function then [Printf "/%d" [AInt function]] else []) ++
  [Printf ": " []].

Definition PRINTF (fmt : string) (args : list arg) : MS unit := modify (emit [Printf fmt args]).

(** [src/pmon/pci/pciconf.c:143-156] *)
Definition _pci_bdfprintf (bus device function : Z) (fmt : string) (args : list arg) : MS unit :=
  modify (fun s => emit (print_bdf (s_nbus s) bus device function ++ [Printf fmt args]) s).

(** [src/pmon/pci/pciconf.c:158-174] *)
Definition _pci_tagprintf (tag : Z) (fmt : string) (args : list arg) : MS unit :=
  let '(bus, device, function) := pci_break_tag tag in
  modify (fun s => emit (print_bdf (s_nbus s) bus device function ++ [Printf fmt args]) s).

(** A message that depends on [_pciverbose]. *)
Definition verbose_at (level : Z) (m : MS unit) : MS unit :=
  gets s_verbose ≫= fun v => when (level <=? v) m.

(** ** Scanning *)

(** [src/pmon/pci/pciconf.c:228-241] *)
Definition add_status (stat : Z) (pb : pci_bus) : pci_bus :=
  let x := Z.shiftr (Z.land stat PCI_STATUS_DEVSEL_MASK) PCI_STATUS_DEVSEL_SHIFT in
  with_status (u8 (b_ndev pb + 1))
    (if bit_set stat PCI_STATUS_BACKTOBACK_OKAY then b_fast_b2b pb else 0)
    (if bit_set stat PCI_STATUS_66MHZ_OKAY then b_freq66 pb else 0)
    (if b_devsel pb <? x then x else b_devsel pb) pb.

(** [src/pmon/pci/pciconf.c:255-268] *)
Definition add_bparam (mingnt maxlat : Z) (pb : pci_bus) : pci_bus :=
  if negb (mingnt =? 0) || negb (maxlat =? 0) then
    with_param
      (if negb (mingnt =? 0) && (b_min_gnt pb <? mingnt) then mingnt else b_min_gnt pb)
      (if negb (maxlat =? 0) && (maxlat <? b_max_lat pb) then maxlat else b_max_lat pb)
      (if negb (maxlat =? 0)
       then s32 (b_bandwidth pb - Z.quot (mingnt * 4000000) (mingnt + maxlat))
       else b_bandwidth pb) pb
  else pb.

Definition mod_dev (k : nat) (f : pcidev -> pcidev) : MP unit :=
  gets p_dev ≫= fun l => need (l !! k) ≫= fun d =>
  modify (fun p => with_dev (<[k := f d]> (p_dev p)) (p_ndev p) p).
Definition the_dev (k : nat) : MP pcidev := gets p_dev ≫= fun l => need (l !! k).

Definition add_nmemwin (d : pcidev) : pcidev :=
  {| d_pa := d_pa d; d_min_gnt := d_min_gnt d; d_max_lat := d_max_lat d;
     d_nmemwin := d_nmemwin d + 1; d_niowin := d_niowin d |}.
Definition add_niowin (d : pcidev) : pcidev :=
  {| d_pa := d_pa d; d_min_gnt := d_min_gnt d; d_max_lat := d_max_lat d;
     d_nmemwin := d_nmemwin d; d_niowin := d_niowin d + 1 |}.
Definition set_grant (g l : Z) (d : pcidev) : pcidev :=
  {| d_pa := d_pa d; d_min_gnt := g; d_max_lat := l;
     d_nmemwin := d_nmemwin d; d_niowin := d_niowin d |}.
Definition no_windows (d : pcidev) : pcidev :=
  {| d_pa := d_pa d; d_min_gnt := d_min_gnt d; d_max_lat := d_max_lat d;
     d_nmemwin := -1; d_niowin := -1 |}.

(** A window takes the next entry of its array; its [address] is not
    touched. *)
Definition fill_win (k : nat) (reg size : Z) (w : pciwin) : pciwin :=
  {| w_dev := k; w_reg := reg; w_size := size; w_address := w_address w |}.

(** [src/pmon/pci/pciconf.c:317-326] *)
Definition add_memwin (k : nat) (reg size : Z) : MP unit :=
  gets p_nmemwin ≫= fun n =>
  if Nat.leb (PCIMAX_DEV * PCIMAX_MEMWIN) n then sh (PRINTF "pci: too many memory windows\n" [])
  else
    gets p_memwin ≫= fun l => need (l !! n) ≫= fun w =>
    modify (fun p => with_memwin (<[n := fill_win k reg size w]> (p_memwin p)) (S n) p) ≫= fun _ =>
    mod_dev k add_nmemwin.

(** [src/pmon/pci/pciconf.c:289-298] *)
Definition add_iowin (k : nat) (reg size : Z) : MP unit :=
  gets p_niowin ≫= fun n =>
  if Nat.leb (PCIMAX_DEV * PCIMAX_IOWIN) n then sh (PRINTF "pci: too many i/o windows\n" [])
  else
    gets p_iowin ≫= fun l => need (l !! n) ≫= fun w =>
    modify (fun p => with_iowin (<[n := fill_win k reg size w]> (p_iowin p)) (S n) p) ≫= fun _ =>
    mod_dev k add_niowin.

(** The size of a base register: all ones are written and the old contents put
    back. [src/pmon/pci/pciconf.c:275-278] *)
Definition probe_reg (tag reg : Z) : MS Z :=
  pci_conf_read tag reg ≫= fun old =>
  pci_conf_write tag reg 0xfffffffe ≫= fun _ =>
  pci_conf_read tag reg ≫= fun mask =>
  pci_conf_write tag reg old ≫= fun _ => mret mask.

(** A register that is not there. [src/pmon/pci/pciconf.c:280] *)
Definition no_reg (mask : Z) : bool := (mask =? 0) || (mask =? 0xffffffff).

(** [-(mask & am)] as a [vm_size_t]. *)
Definition win_size (mask am : Z) : Z := u32 (- Z.land mask am).

(** [src/pmon/pci/pciconf.c:274-328] *)
Definition query_map_reg (tag bus : Z) (k : nat) (reg : Z) : MP unit :=
  sh (probe_reg tag reg) ≫= fun mask =>
  if no_reg mask then mret tt else
  sh (verbose_at 3 (_pci_tagprintf tag "reg 0x%x = 0x%x\n" [AInt reg; AInt mask])) ≫= fun _ =>
  if bit_set mask PCI_MAP_IO then
    let mask := Z.lor mask 0xffff0000 in
    add_iowin k reg (win_size mask PCI_MAP_IO_ADDRESS_MASK)
  else
    let type := Z.land mask PCI_MAP_MEMORY_TYPE_MASK in
    if (type =? PCI_MAP_MEMORY_TYPE_32BIT) || (type =? PCI_MAP_MEMORY_TYPE_32BIT_1M) then
      sh (when (negb (bit_set mask PCI_MAP_MEMORY_PREFETCHABLE))
            (mod_bus bus (with_prefetch 0))) ≫= fun _ =>
      add_memwin k reg (win_size mask PCI_MAP_MEMORY_ADDRESS_MASK)
    else if type =? PCI_MAP_MEMORY_TYPE_64BIT then
      sh (_pci_tagprintf tag "64-bit region ignored\n" [])
    else sh (_pci_tagprintf tag "reserved mapping type 0x%x\n" [AInt type]).

(** [src/pmon/pci/pciconf.c:330-351] *)
Definition query_rom (tag : Z) (k : nat) : MP unit :=
  let reg := PCI_MAP_REG_ROM in
  sh (probe_reg tag reg) ≫= fun mask =>
  if no_reg mask then mret tt else
  sh (verbose_at 3 (_pci_tagprintf tag "reg 0x%x = 0x%x\n" [AInt reg; AInt mask])) ≫= fun _ =>
  add_memwin k reg (win_size mask PCI_MAP_ROM_ADDRESS_MASK).

(** The base registers 0x10, 0x14, ... [src/pmon/pci/pciconf.c:274] *)
Definition map_regs : list Z :=
  (fun i : nat => PCI_MAP_REG_START + 4 * Z.of_nat i) <$>
    seq 0 (Z.to_nat ((PCI_MAP_REG_END - PCI_MAP_REG_START) / 4)).

(** The new entry of [pcidev]: [min_gnt] and [max_lat] keep what they held.
    [src/pmon/pci/pciconf.c:212-223] *)
Definition new_dev (tag id class : Z) : MP nat :=
  gets p_ndev ≫= fun k => gets p_dev ≫= fun l => need (l !! k) ≫= fun d =>
  let '(bus, device, function) := pci_break_tag tag in
  let pa := {| pa_bus := bus; pa_device := device; pa_function := function;
               pa_tag := tag; pa_id := id; pa_class := class |} in
  let d := {| d_pa := pa; d_min_gnt := d_min_gnt d; d_max_lat := d_max_lat d;
              d_nmemwin := 0; d_niowin := 0 |} in
  modify (fun p => with_dev (<[k := d]> (p_dev p)) (S k) p) ≫= fun _ => mret k.

(** [src/pmon/pci/pciconf.c:250-268] *)
Definition query_params (tag bus : Z) (k : nat) : MP unit :=
  sh (pci_conf_read tag PCI_BPARAM_REG) ≫= fun bparam =>
  let g := PCI_BPARAM_MIN_GNT bparam in
  let l := PCI_BPARAM_MAX_LAT bparam in
  mod_dev k (set_grant g l) ≫= fun _ =>
  sh (mod_bus bus (add_bparam g l)).

(** [src/pmon/pci/pciconf.c:183-352] *)
Definition _pci_query_dev_func (tag initialise : Z) : MP unit :=
  sh (pci_conf_read tag PCI_CLASS_REG) ≫= fun class =>
  sh (pci_conf_read tag PCI_ID_REG) ≫= fun id =>
  gets (fun p => s_verbose (p_sh p)) ≫= fun v =>
  sh (when (negb (v =? 0))
        (_pci_tagprintf tag "%s\n" [AStr (Some (drv_devinfo id class))])) ≫= fun _ =>
  gets p_ndev ≫= fun n =>
  if Nat.leb PCIMAX_DEV n then sh (PRINTF "pci: too many devices\n" []) else
  new_dev tag id class ≫= fun k =>
  let bus := fst (fst (pci_break_tag tag)) in
  sh (pci_conf_read tag PCI_COMMAND_STATUS_REG) ≫= fun stat =>
  sh (mod_bus bus (add_status stat)) ≫= fun _ =>
  if initialise =? 0 then mret tt else
  query_params tag bus k ≫= fun _ =>
  if is_ppb class then mret tt else
  for_each map_regs (query_map_reg tag bus k) ≫= fun _ =>
  query_rom tag k.

(** No device answers. [src/pmon/pci/pciconf.c:374] *)
Definition no_id (id : Z) : bool := (id =? 0) || (id =? 0xffffffff).

(** The functions of a multi-function device, from [function] on.
    [src/pmon/pci/pciconf.c:383-389] *)
Fixpoint query_funcs (n : nat) (bus device function initialise : Z) : MP unit :=
  match n with
  | O => mret tt
  | S n' =>
      let tag := pci_make_tag bus device function in
      sh (pci_conf_read tag PCI_ID_REG) ≫= fun id =>
      if no_id id then mret tt else
      _pci_query_dev_func tag initialise ≫= fun _ =>
      query_funcs n' bus device (function + 1) initialise
  end.

(** [src/pmon/pci/pciconf.c:354-393] *)
Definition _pci_query_dev (bus device initialise : Z) : MP unit :=
  let tag := pci_make_tag bus device 0 in
  if negb (pci_canscan tag) then mret tt else
  sh (verbose_at 2 (_pci_bdfprintf bus device (-1) "probe..." [])) ≫= fun _ =>
  sh (pci_conf_read tag PCI_ID_REG) ≫= fun id =>
  sh (verbose_at 2 (PRINTF "completed\n" [])) ≫= fun _ =>
  if no_id id then mret tt else
  sh (pci_conf_read tag PCI_MISC_REG) ≫= fun misc =>
  let hdrtype := PCI_MISC_HDRTYPE misc in
  if bit_set hdrtype PCI_MISC_HDRTYPE_MULTI
  then query_funcs (Z.to_nat PCI_FUNCMAX) bus device 0 initialise
  else _pci_query_dev_func tag initialise.

(** ** Windows *)

(** [-1] as a [pcireg_t]. *)
Definition NOADDR : Z := 0xffffffff.

Definition dev_bus (devs : list pcidev) (w : pciwin) : Z :=
  match devs !! w_dev w with Some d => pa_bus (d_pa d) | None => 0 end.

(** [src/pmon/pci/pciconf.c:396-406] *)
Definition wincompare (devs : list pcidev) (wa wb : pciwin) : Z :=
  if negb (dev_bus devs wa =? dev_bus devs wb) then s32 (dev_bus devs wa - dev_bus devs wb)
  else s32 (u32 (w_size wb - w_size wa)).

(** [qsort] of the first [n] entries of a window array. *)
Definition sort_wins (devs : list pcidev) (l : list pciwin) (n : nat) : option (list pciwin) :=
  match qsort (wincompare devs) (take n l) with
  | Some l' => Some (l' ++ drop n l)
  | None => None
  end.

Definition set_address (a : Z) (w : pciwin) : pciwin :=
  {| w_dev := w_dev w; w_reg := w_reg w; w_size := w_size w; w_address := a |}.

(** The last address of a window. *)
Definition win_last (address size : Z) : Z := u32 (address + size - 1).

(** [src/pmon/pci/pciconf.c:431-435] *)
Definition grow_io (address size : Z) (pb : pci_bus) : pci_bus :=
  with_io_range
    (if address <? b_min_io_addr pb then address else b_min_io_addr pb)
    (if b_max_io_addr pb <? win_last address size then win_last address size
     else b_max_io_addr pb) pb.

(** [src/pmon/pci/pciconf.c:471-475] *)
Definition grow_mem (address size : Z) (pb : pci_bus) : pci_bus :=
  with_mem_range
    (if address <? b_min_mem_addr pb then address else b_min_mem_addr pb)
    (if b_max_mem_addr pb <? win_last address size then win_last address size
     else b_max_mem_addr pb) pb.

(** One turn of the loop. [src/pmon/pci/pciconf.c:416-443] *)
Definition setup_iowin (w : pciwin) : MP pciwin :=
  the_dev (w_dev w) ≫= fun pd =>
  if (d_niowin pd <? 0) || (w_size w =? 0) then mret w else
  let tag := pa_tag (d_pa pd) in
  sh (pci_allocate_io tag (w_size w)) ≫= fun a =>
  let w := set_address a w in
  if a =? NOADDR then
    sh (_pci_tagprintf tag "not enough PCI i/o space (%d requested)\n" [AInt (w_size w)]) ≫= fun _ =>
    mod_dev (w_dev w) no_windows ≫= fun _ => mret w
  else
    sh (mod_bus (pa_bus (d_pa pd)) (grow_io a (w_size w))) ≫= fun _ =>
    sh (verbose_at 2 (_pci_tagprintf tag "gets %d bytes of i/o @0x%x\n"
                        [AInt (w_size w); AInt a])) ≫= fun _ =>
    sh (pci_conf_read tag (w_reg w)) ≫= fun base =>
    sh (pci_conf_write tag (w_reg w) (Z.lor (clear base PCI_MAP_IO_ADDRESS_MASK) a)) ≫= fun _ =>
    mret w.

(** [src/pmon/pci/pciconf.c:409-444] *)
Definition _pci_setup_iowins : MP unit :=
  gets (fun p => sort_wins (p_dev p) (p_iowin p) (p_niowin p)) ≫= fun o =>
  match o with
  | None => fail OutOfFuel
  | Some l =>
      gets p_niowin ≫= fun n =>
      map_each (take n l) setup_iowin ≫= fun l' =>
      modify (with_iowin (l' ++ drop n l) n)
  end.

(** One turn of the first loop. [src/pmon/pci/pciconf.c:453-483] *)
Definition setup_memwin (w : pciwin) : MP pciwin :=
  the_dev (w_dev w) ≫= fun pd =>
  if (d_nmemwin pd <? 0) || (w_size w =? 0) then mret w else
  let tag := pa_tag (d_pa pd) in
  sh (pci_allocate_mem tag (w_size w)) ≫= fun a =>
  let w := set_address a w in
  if a =? NOADDR then
    sh (_pci_tagprintf tag "not enough PCI mem space (%d requested)\n" [AInt (w_size w)]) ≫= fun _ =>
    mod_dev (w_dev w) no_windows ≫= fun _ => mret w
  else
    sh (verbose_at 2 (_pci_tagprintf tag "gets %d bytes of memory @0x%x\n"
                        [AInt (w_size w); AInt a])) ≫= fun _ =>
    sh (mod_bus (pa_bus (d_pa pd)) (grow_mem a (w_size w))) ≫= fun _ =>
    (if negb (w_reg w =? PCI_MAP_REG_ROM) then
       sh (pci_conf_read tag (w_reg w)) ≫= fun base =>
       sh (pci_conf_write tag (w_reg w) (Z.lor a (clear base PCI_MAP_MEMORY_ADDRESS_MASK)))
     else mret tt) ≫= fun _ =>
    mret w.

(** One turn of the second loop. [src/pmon/pci/pciconf.c:487-493] *)
Definition setup_rom (w : pciwin) : MP unit :=
  if (w_reg w =? PCI_MAP_REG_ROM) && negb (w_address w =? NOADDR) then
    the_dev (w_dev w) ≫= fun pd =>
    sh (pci_conf_write (pa_tag (d_pa pd)) (w_reg w) (Z.lor (w_address w) PCI_MAP_ROM))
  else mret tt.

(** [src/pmon/pci/pciconf.c:446-494] *)
Definition _pci_setup_memwins : MP unit :=
  gets (fun p => sort_wins (p_dev p) (p_memwin p) (p_nmemwin p)) ≫= fun o =>
  match o with
  | None => fail OutOfFuel
  | Some l =>
      gets p_nmemwin ≫= fun n =>
      map_each (take n l) setup_memwin ≫= fun l' =>
      modify (with_memwin (l' ++ drop n l) n) ≫= fun _ =>
      for_each l' setup_rom
  end.

(** ** Bridges *)

(** [src/pmon/pci/pciconf.c:505-512] *)
Definition widen (psec ppri : pci_bus) : pci_bus :=
  with_io_range (Z.min (b_min_io_addr ppri) (b_min_io_addr psec))
                (Z.max (b_max_io_addr ppri) (b_max_io_addr psec))
    (with_mem_range (Z.min (b_min_mem_addr ppri) (b_min_mem_addr psec))
                    (Z.max (b_max_mem_addr ppri) (b_max_mem_addr psec)) ppri).

(** [1, ..., nbus - 1]. *)
Definition sec_buses (nbus : Z) : list Z := Z.of_nat <$> seq 1 (Z.to_nat nbus - 1).

(** [src/pmon/pci/pciconf.c:502-513] *)
Definition widen_primaries : MS unit :=
  gets s_nbus ≫= fun n =>
  for_each (reverse (sec_buses n)) (fun i =>
    the_bus i ≫= fun psec => mod_bus (b_primary psec) (widen psec)).

(** [src/pmon/pci/pciconf.c:533-546] *)
Definition open_io (i cmd : Z) (pb : pci_bus) : MS Z :=
  if b_min_io_addr pb <? b_max_io_addr pb then
    verbose_at 2 (_pci_bdfprintf i (-1) (-1) "io  0x%08x-0x%08x\n"
                    [AInt (b_min_io_addr pb); AInt (b_max_io_addr pb)]) ≫= fun _ =>
    pci_conf_read (b_tag pb) PPB_IO_REG ≫= fun iodata =>
    let iodata := Z.lor (clear iodata PPB_IO_BASE_MASK) (Z.shiftr (b_min_io_addr pb) 8) in
    let iodata := Z.lor (clear iodata PPB_IO_LIMIT_MASK)
                        (Z.land (b_max_io_addr pb) PPB_IO_LIMIT_MASK) in
    pci_conf_write (b_tag pb) PPB_IO_REG iodata ≫= fun _ =>
    mret (Z.lor cmd PCI_COMMAND_IO_ENABLE)
  else mret cmd.

(** The value of the memory base and limit register.
    [src/pmon/pci/pciconf.c:556-559] *)
Definition ppb_memdata (memdata lo hi : Z) : Z :=
  let memdata := Z.lor (clear memdata PPB_MEM_BASE_MASK) (Z.shiftr lo 16) in
  Z.lor (clear memdata PPB_MEM_LIMIT_MASK) (Z.land hi PPB_MEM_LIMIT_MASK).

(** [src/pmon/pci/pciconf.c:548-561] *)
Definition open_mem (i cmd : Z) (pb : pci_bus) : MS Z :=
  if b_min_mem_addr pb <? b_max_mem_addr pb then
    verbose_at 2 (_pci_bdfprintf i (-1) (-1) "mem  0x%08x-0x%08x\n"
                    [AInt (b_min_mem_addr pb); AInt (b_max_mem_addr pb)]) ≫= fun _ =>
    pci_conf_read (b_tag pb) PPB_MEM_REG ≫= fun memdata =>
    pci_conf_write (b_tag pb) PPB_MEM_REG
      (ppb_memdata memdata (b_min_mem_addr pb) (b_max_mem_addr pb)) ≫= fun _ =>
    mret (Z.lor cmd PCI_COMMAND_MEM_ENABLE)
  else mret cmd.

(** [src/pmon/pci/pciconf.c:525-564] *)
Definition open_bridge (i : Z) : MS unit :=
  the_bus i ≫= fun pb =>
  pci_conf_read (b_tag pb) PCI_COMMAND_STATUS_REG ≫= fun cmd =>
  verbose_at 2 (_pci_bdfprintf i (-1) (-1) "subordinate to bus %d\n" [AInt (b_primary pb)]) ≫= fun _ =>
  open_io i cmd pb ≫= fun cmd =>
  open_mem i cmd pb ≫= fun cmd =>
  pci_conf_write (b_tag pb) PCI_COMMAND_STATUS_REG cmd.

(** [src/pmon/pci/pciconf.c:515-523] *)
Definition print_bus0 : MS unit :=
  the_bus 0 ≫= fun pb =>
  when (b_min_io_addr pb <? b_max_io_addr pb)
    (_pci_bdfprintf 0 (-1) (-1) "io  0x%08x-0x%08x\n"
       [AInt (b_min_io_addr pb); AInt (b_max_io_addr pb)]) ≫= fun _ =>
  when (b_min_mem_addr pb <? b_max_mem_addr pb)
    (_pci_bdfprintf 0 (-1) (-1) "mem 0x%08x-0x%08x\n"
       [AInt (b_min_mem_addr pb); AInt (b_max_mem_addr pb)]).

(** [src/pmon/pci/pciconf.c:497-565] *)
Definition _pci_setup_ppb : MS unit :=
  widen_primaries ≫= fun _ =>
  verbose_at 2 print_bus0 ≫= fun _ =>
  gets s_nbus ≫= fun n =>
  for_each (sec_buses n) open_bridge.

(** ** Drivers *)

(** [while (new <= dv->dv_unit) new *= 2]. [src/pmon/pci/pciconf.c:609-611] *)
Fixpoint grow_to (fuel : nat) (new unit : nat) : option nat :=
  match fuel with
  | O => None
  | S f => if Nat.leb new unit then grow_to f (2 * new) unit else Some new
  end.

(** The array of the driver is made long enough for [unit]; [false] when there
    is no memory. [src/pmon/pci/pciconf.c:606-626] *)
Definition expand_devs (j : nat) (unit : nat) (cd : cfdriver) : MP (option cfdriver) :=
  let old := length (cd_devs cd) in
  if Nat.leb old unit then
    match grow_to (S unit) (if Nat.eqb old 0 then 1%nat else old) unit with
    | None => fail OutOfFuel
    | Some new =>
        sh (drv_malloc (Z.of_nat new * 4)) ≫= fun ok =>
        if negb ok then
          sh (PRINTF "_pci_autoconf: no memory when %sing device array\n"
                [AStr (Some (if Nat.eqb old 0 then str "creat" else str "expand"))]) ≫= fun _ =>
          mret None
        else
          let cd := with_devs (cd_devs cd ++ replicate (new - old) None) cd in
          modify (fun p => with_cf (p_cfdata p) (<[j := cd]> (p_cfdrivers p)) p) ≫= fun _ =>
          mret (Some cd)
    end
  else mret (Some cd).

(** [FREE (dv)] has no effect on the state that is modelled, and the name is
    printed as text, where the code uses it as the format.
    [src/pmon/pci/pciconf.c:582-638] *)
Definition attach_unit (i : nat) (cf : cfdata) (pa : pci_attach_args) : MP bool :=
  let j := cf_driver cf in
  gets p_cfdrivers ≫= fun cds => need (cds !! j) ≫= fun cd =>
  sh (drv_malloc (cd_devsize cd)) ≫= fun ok =>
  if negb ok then
    sh (PRINTF "_pci_autoconf: no memory when allocating device\n" []) ≫= fun _ => mret false
  else
    match sprintf "%s%d" [AStr (Some (cd_name cd)); AInt (cf_unit cf)] with
    | None => fail OutOfFuel
    | Some xname =>
        let dv := {| dv_class := cd_class cd; dv_unit := cf_unit cf; dv_xname := xname |} in
        let unit := Z.to_nat (cf_unit cf) in
        expand_devs j unit cd ≫= fun o =>
        match o with
        | None => mret false
        | Some cd =>
            need (cd_devs cd !! unit) ≫= fun slot =>
            match slot with
            | Some _ =>
                sh (PRINTF "_pci_autoconf: duplicate device %s\n" [AStr (Some xname)]) ≫= fun _ =>
                mret false
            | None =>
                modify (fun p => with_cf (p_cfdata p)
                  (<[j := with_devs (<[unit := Some dv]> (cd_devs cd)) cd]> (p_cfdrivers p)) p) ≫= fun _ =>
                sh (PRINTF "%s" [AStr (Some xname)]) ≫= fun _ =>
                sh (drv_attach j dv pa) ≫= fun _ =>
                modify (fun p => with_cf
                  (<[i := {| cf_driver := j; cf_unit := cf_unit cf; cf_fstate := FSTATE_FOUND |}]>
                     (p_cfdata p)) (p_cfdrivers p) p) ≫= fun _ =>
                mret true
            end
        end
    end.

(** The entries of [_pci_cfdata] from the [i]-th on.
    [src/pmon/pci/pciconf.c:576-640] *)
Fixpoint autoconf_loop (n i : nat) (pa : pci_attach_args) : MP unit :=
  match n with
  | O => mret tt
  | S n' =>
      gets p_cfdata ≫= fun l => need (l !! i) ≫= fun cf =>
      if cf_fstate cf =? FSTATE_FOUND then autoconf_loop n' (S i) pa else
      sh (drv_match (cf_driver cf) cf pa) ≫= fun m =>
      if negb m then autoconf_loop n' (S i) pa else
      attach_unit i cf pa ≫= fun found : bool =>
      if found then mret tt else autoconf_loop n' (S i) pa
  end.

(** [src/pmon/pci/pciconf.c:568-641] *)
Definition _pci_autoconf (pa : pci_attach_args) : MP unit :=
  gets p_cfdata ≫= fun l => autoconf_loop (length l) 0 pa.

(** ** Enabling the devices *)

(** The latency timer in bus cycles. [src/pmon/pci/pciconf.c:686-687] *)
Definition dev_ltim (pd : pcidev) (pb : pci_bus) : Z :=
  let ltim := Z.quot (d_min_gnt pd * (if b_freq66 pb =? 0 then 33 else 66)) 4 in
  Z.min (Z.max (b_def_ltim pb) ltim) (b_max_ltim pb).

(** The default of the weak symbol. [src/pmon/pci/pciconf.c:645-650] *)
Definition _pci_cacheline_log2 : Z := 3.

(** [src/pmon/pci/pciconf.c:669-692] *)
Definition enable_dev (pd : pcidev) : MS unit :=
  the_bus (pa_bus (d_pa pd)) ≫= fun pb =>
  let tag := pa_tag (d_pa pd) in
  pci_conf_read tag PCI_COMMAND_STATUS_REG ≫= fun cmd =>
  let cmd := Z.lor cmd (Z.lor (Z.lor PCI_COMMAND_MASTER_ENABLE PCI_COMMAND_SERR_ENABLE)
                              PCI_COMMAND_PARITY_ENABLE) in
  let cmd := Z.lor cmd (Z.lor PCI_COMMAND_IO_ENABLE PCI_COMMAND_MEM_ENABLE) in
  let cmd := if b_fast_b2b pb =? 0 then cmd else Z.lor cmd PCI_COMMAND_BACKTOBACK_ENABLE in
  pci_conf_write tag PCI_COMMAND_STATUS_REG cmd ≫= fun _ =>
  pci_conf_read tag PCI_MISC_REG ≫= fun misc =>
  let misc := PCI_MISC_LTIM_SET misc (dev_ltim pd pb) in
  let misc := PCI_MISC_CLSZ_SET misc (Z.shiftl 1 _pci_cacheline_log2) in
  pci_conf_write tag PCI_MISC_REG misc.

Definition io_or_mem (cmd : Z) : bool :=
  bit_set cmd (Z.lor PCI_COMMAND_IO_ENABLE PCI_COMMAND_MEM_ENABLE).

(** The wait for the enable bits; [n] is [retry], which leaves the loop when it
    reaches 0. [src/pmon/pci/pciconf.c:705-710] *)
Fixpoint wait_enabled (n : nat) (tag cmd : Z) : MS Z :=
  match n with
  | O => mret cmd
  | S n' =>
      if io_or_mem cmd then mret cmd
      else if Nat.eqb n' 0 then mret cmd
      else pci_conf_read tag PCI_COMMAND_STATUS_REG ≫= fun cmd => wait_enabled n' tag cmd
  end.

(** [src/pmon/pci/pciconf.c:697-721] *)
Definition start_dev (initialise : Z) (pd : pcidev) : MP unit :=
  let tag := pa_tag (d_pa pd) in
  sh (pci_conf_read tag PCI_COMMAND_STATUS_REG) ≫= fun cmd =>
  sh (if initialise =? 0 then wait_enabled 100000 tag cmd else mret cmd) ≫= fun cmd =>
  if negb (io_or_mem cmd) then
    sh (verbose_at 2 (_pci_tagprintf tag "no memory or i/o - not configured\n" []))
  else _pci_autoconf (d_pa pd).

(** [src/pmon/pci/pciconf.c:661-722] *)
Definition _pci_setup_devices (initialise : Z) : MP unit :=
  gets (fun p => take (p_ndev p) (p_dev p)) ≫= fun devs =>
  (if initialise =? 0 then mret tt else for_each devs (fun pd => sh (enable_dev pd))) ≫= fun _ =>
  for_each devs (start_dev initialise).

(** ** The bridge hierarchy *)

Definition all_devices : list Z := Z.of_nat <$> seq 0 (Z.to_nat (PCI_DEVMAX + 1)).

(** [src/pmon/pci/pciconf.c:742-745] *)
Definition reset_ranges (pb : pci_bus) : pci_bus :=
  with_io_range 0xffffffff 0 (with_mem_range 0xffffffff 0 pb).

(** A bridge found at [tag]: the bus behind it gets the next number and is
    scanned by [rec]. [src/pmon/pci/pciconf.c:756-776] *)
Definition number_bridge (rec : MS unit) (tag bus : Z) : MS unit :=
  gets s_nbus ≫= fun n =>
  mod_bus n (with_upstream tag (u8 bus)) ≫= fun _ =>
  let data := Z.lor (Z.lor (Z.shiftl PCI_BUSMAX 16) (Z.shiftl n 8)) bus in
  pci_conf_write tag PPB_BUS_REG data ≫= fun _ =>
  modify (fun s => with_nbus (s_nbus s + 1) s) ≫= fun _ =>
  rec ≫= fun _ =>
  gets s_nbus ≫= fun n' =>
  pci_conf_write tag PPB_BUS_REG (Z.lor (Z.land data 0xff00ffff) (Z.shiftl (n' - 1) 16)).

(** [src/pmon/pci/pciconf.c:748-778] *)
Definition ppbinit_dev (rec : MS unit) (bus device : Z) : MS unit :=
  let tag := pci_make_tag bus device 0 in
  if negb (pci_canscan tag) then mret tt else
  pci_conf_read tag PCI_ID_REG ≫= fun id =>
  if no_id id then mret tt else
  pci_conf_read tag PCI_CLASS_REG ≫= fun class =>
  if is_ppb class then number_bridge rec tag bus else mret tt.

(** [src/pmon/pci/pciconf.c:729-780] *)
Fixpoint _pci_ppbinit (fuel : nat) : MS unit :=
  match fuel with
  | O => fail OutOfFuel
  | S f =>
      gets s_nbus ≫= fun n =>
      if n =? pci_maxbus then mret tt else
      let bus := n - 1 in
      mod_bus bus reset_ranges ≫= fun _ =>
      for_each all_devices (ppbinit_dev (_pci_ppbinit f) bus)
  end.

(** [src/pmon/pci/pciconf.c:794-820] *)
Definition ppbfind_dev (rec : Z -> MS unit) (bus device : Z) : MS unit :=
  let tag := pci_make_tag bus device 0 in
  if negb (pci_canscan tag) then mret tt else
  pci_conf_read tag PCI_ID_REG ≫= fun id =>
  if no_id id then mret tt else
  pci_conf_read tag PCI_CLASS_REG ≫= fun class =>
  if negb (is_ppb class) then mret tt else
  pci_conf_read tag PPB_BUS_REG ≫= fun data =>
  let sbus := Z.land (Z.shiftr data 8) 0xff in
  if (sbus =? 0) || (pci_maxbus <=? sbus) then mret tt else
  mod_bus sbus (with_upstream tag (u8 bus)) ≫= fun _ =>
  modify (fun s => if s_nbus s <? sbus + 1 then with_nbus (sbus + 1) s else s) ≫= fun _ =>
  rec sbus.

(** [src/pmon/pci/pciconf.c:786-822] *)
Fixpoint _pci_ppbfind (fuel : nat) (bus : Z) : MS unit :=
  match fuel with
  | O => fail OutOfFuel
  | S f => for_each all_devices (ppbfind_dev (_pci_ppbfind f) bus)
  end.

(** ** The whole configuration *)

(** A grant time in units of 0.25us as a number of bus cycles. *)
Definition cycles (pb : pci_bus) (x : Z) : Z := u32 (x * (if b_freq66 pb =? 0 then 33 else 66)) / 4.

(** Rounded up to a multiple of 8 on 32 bits. *)
Definition round8 (x : Z) : Z := Z.land (u32 (x + 7)) (u32 (Z.lnot 7)).

(** [src/pmon/pci/pciconf.c:875-896] *)
Definition bus_ltim (pb : pci_bus) : pci_bus :=
  let max_ltim := cycles pb (b_min_gnt pb) in
  let def_ltim :=
    if b_bandwidth pb <=? 0 then 1
    else
      let d := Z.quot (b_bandwidth pb) (b_ndev pb) in
      cycles pb (if b_max_lat pb <? d then b_max_lat pb else d) in
  let def_ltim := round8 def_ltim in
  let max_ltim := round8 max_ltim in
  with_ltim (Z.min def_ltim 255) (Z.min (Z.max max_ltim def_ltim) 255) pb.

(** [src/pmon/pci/pciconf.c:863-898] *)
Definition query_bus (initialise bus : Z) : MP unit :=
  for_each all_devices (fun device => _pci_query_dev bus device initialise) ≫= fun _ =>
  sh (the_bus bus) ≫= fun pb =>
  if b_ndev pb =? 0 then mret tt else
  if initialise =? 0 then mret tt else
  sh (when (b_bandwidth pb <=? 0)
        (_pci_bdfprintf bus (-1) (-1) "warning: total bandwidth exceeded\n" [])) ≫= fun _ =>
  sh (mod_bus bus bus_ltim).

(** The numbers 0, ..., [nbus - 1]. *)
Definition buses (nbus : Z) : list Z := Z.of_nat <$> seq 0 (Z.to_nat nbus).

(** The recursion of [_pci_ppbinit] and of a sane hierarchy stops after
    [_pci_maxbus] levels. *)
Definition bus_fuel : nat := S (Z.to_nat pci_maxbus).

(** Bridges and devices are found. [src/pmon/pci/pciconf.c:849-898] *)
Definition pci_scan (initialise : Z) : MP unit :=
  sh (modify (fun s => if s_nbus s =? 0 then with_nbus 1 s else s)) ≫= fun _ =>
  sh (if initialise =? 0 then _pci_ppbfind bus_fuel 0 else _pci_ppbinit bus_fuel) ≫= fun _ =>
  modify (fun p => with_dev (p_dev p) 0 (with_memwin (p_memwin p) 0 (with_iowin (p_iowin p) 0 p))) ≫= fun _ =>
  gets (fun p => s_nbus (p_sh p)) ≫= fun n =>
  for_each (buses n) (query_bus initialise).

(** Windows are placed. [src/pmon/pci/pciconf.c:900-911] *)
Definition pci_assign (initialise : Z) : MP unit :=
  if initialise =? 0 then mret tt else
  sh pci_hwreinit ≫= fun _ =>
  _pci_setup_iowins ≫= fun _ =>
  _pci_setup_memwins ≫= fun _ =>
  gets (fun p => s_nbus (p_sh p)) ≫= fun n =>
  if 1 <? n then sh _pci_setup_ppb else mret tt.

(** [v] is what [getenv] returns for [pciverbose]. [src/pmon/pci/pciconf.c:826-917] *)
Definition _pci_configure (v : cptr) (initialise : Z) : MP unit :=
  sh (modify (fun s => match v with
                       | Some v => with_verbose (atol v) s
                       | None => s
                       end)) ≫= fun _ =>
  sh (pci_hwinit initialise) ≫= fun initialise =>
  if initialise <? 0 then mret tt else
  pci_scan initialise ≫= fun _ =>
  pci_assign initialise ≫= fun _ =>
  _pci_setup_devices initialise ≫= fun _ =>
  modify (with_enumerated 1).
End PciConf.
