(* ===== verification/P5064.v ===== *)
(** * P5064: the PCI layer of the P-5064 board

    [src/pmon/p5064/pci_machdep.c]: the V96x bridge chip is set up, the
    configuration space is read and written through it, PCI memory and I/O
    space is handed out from the top, and the addresses of PCI devices are
    translated to CPU addresses. The instance [p5064_board] is what
    [pciconf.c] calls.

    The hardware is a parameter: a state [H] with a load and a store of one,
    two or four bytes at an uncached address; a load may change the state. The
    file is compiled for one byte order, [big_endian]. [mips_wbflush] and
    [sbddelay] order and delay accesses and have no other effect. *)

From S2P Require Import Prelude CString Comp Pci.

(** The bus as the CPU sees it. *)
Class Hardware (H : Type) : Type := {
  hw_load : Z -> Z -> H -> Z * H;
  hw_store : Z -> Z -> Z -> H -> H
}.

(** ** Addresses *)

(** [src/net/sys/machine/r4000.h:277] *)
Definition KVA_TO_PA (v : Z) : Z := Z.land v 0x1fffffff.
(** [src/net/sys/machine/r4000.h:278] *)
Definition PA_TO_KVA0 (pa : Z) : Z := Z.lor pa 0x80000000.
(** [src/net/sys/machine/r4000.h:279] *)
Definition PA_TO_KVA1 (pa : Z) : Z := Z.lor pa 0xa0000000.

(** [src/pmon/p5064/sbd.h:39] *)
Definition PCI_MEM_SPACE_SIZE : Z := 128 * 1024 * 1024.
(** [src/pmon/p5064/sbd.h:40] *)
Definition PCI_IO_SPACE_SIZE : Z := 16 * 1024 * 1024.
Definition PCI_MEM_SPACE : Z := 0x10000000.
Definition PCI_IO_SPACE : Z := 0x1d000000.
Definition PCI_CONF_SPACE : Z := 0x1ee00000.
Definition V96XPBC_BASE : Z := 0x1ef00000.
Definition BCR1_BASE : Z := 0x1ffb0000.

(** [src/pmon/p5064/pci_machdep.c:56] *)
Definition PCI_IO_SPACE_PCI_BASE : Z := 0.
(** [src/pmon/p5064/pci_machdep.c:59-61] *)
Definition PCI_MEM_SPACE_PCI_BASE_NEW : Z := 0.
Definition PCI_LOCAL_MEM_PCI_BASE_NEW : Z := 0x80000000.
Definition PCI_LOCAL_MEM_ISA_BASE_NEW : Z := 0x00800000.
(** [src/pmon/p5064/pci_machdep.c:64-66] *)
Definition PCI_MEM_SPACE_PCI_BASE_OLD : Z := 0x10000000.
Definition PCI_LOCAL_MEM_PCI_BASE_OLD : Z := 0.
Definition PCI_LOCAL_MEM_ISA_BASE_OLD : Z := 0.

(** [src/pmon/p5064/pci_machdep.c:109-110] *)
Definition MAXBUS : nat := 3.

(** [src/pmon/p5064/pci_machdep.c:83-93] *)
Definition v96x_pci_bus : pci_bus :=
  {| b_min_gnt := 0; b_max_lat := 255; b_devsel := 0; b_fast_b2b := 1; b_prefetch := 1;
     b_freq66 := 0; b_width64 := 0; b_bandwidth := 4000000; b_ndev := 1;
     b_def_ltim := 0; b_max_ltim := 0; b_primary := 0; b_tag := 0;
     b_min_io_addr := 0; b_max_io_addr := 0; b_min_mem_addr := 0; b_max_mem_addr := 0 |}.

(** [src/pmon/p5064/pci_machdep.c:95-105] *)
Definition secondary_pci_bus : pci_bus :=
  {| b_min_gnt := 0; b_max_lat := 255; b_devsel := 0; b_fast_b2b := 0; b_prefetch := 0;
     b_freq66 := 0; b_width64 := 0; b_bandwidth := 4000000; b_ndev := 0;
     b_def_ltim := 0; b_max_ltim := 0; b_primary := 0; b_tag := 0;
     b_min_io_addr := 0; b_max_io_addr := 0; b_min_mem_addr := 0; b_max_mem_addr := 0 |}.

(** The variables of the file. [src/pmon/p5064/pci_machdep.c:68-81] *)
Record board (H : Type) : Type := {
  hw : H;
  v96x_vrev : Z;
  pcioldmap : bool;
  pci_mem_space_pci_base : Z; pci_local_mem_pci_base : Z; pci_local_mem_isa_base : Z;
  minpcimemaddr : Z; nextpcimemaddr : Z; minpciioaddr : Z; nextpciioaddr : Z
}.
Arguments hw {H} b. Arguments v96x_vrev {H} b. Arguments pcioldmap {H} b.
Arguments pci_mem_space_pci_base {H} b. Arguments pci_local_mem_pci_base {H} b.
Arguments pci_local_mem_isa_base {H} b.
Arguments minpcimemaddr {H} b. Arguments nextpcimemaddr {H} b.
Arguments minpciioaddr {H} b. Arguments nextpciioaddr {H} b.

(** ** Tags *)

(** [src/pmon/p5064/pci_machdep.c:387-393] *)
Definition _pci_make_tag (bus device function : Z) : Z :=
  u32 (Z.lor (Z.lor (Z.shiftl bus 16) (Z.shiftl device 11)) (Z.shiftl function 8)).

(** [src/pmon/p5064/pci_machdep.c:395-401] *)
Definition _pci_break_tag (tag : Z) : Z * Z * Z :=
  (Z.land (Z.shiftr tag 16) PCI_BUSMAX, Z.land (Z.shiftr tag 11) PCI_DEVMAX,
   Z.land (Z.shiftr tag 8) PCI_FUNCMAX).

(** [src/pmon/p5064/pci_machdep.c:403-407] *)
Definition _pci_canscan (tag : Z) : bool := true.

Section Board.
Context {H : Type} `{HW : Hardware H}.
(** The byte order the monitor is compiled for, how often the write FIFO is
    polled before the board counts as hung, and [_sbd_getenv]. *)
Variable big_endian : bool.
Variable polls : nat.
Variable sbd_getenv : cstr -> cptr.

Abbreviation MB := (M (shared (board H))).

Definition with_hw (h : H) (b : board H) : board H :=
  {| hw := h; v96x_vrev := v96x_vrev b; pcioldmap := pcioldmap b;
     pci_mem_space_pci_base := pci_mem_space_pci_base b;
     pci_local_mem_pci_base := pci_local_mem_pci_base b;
     pci_local_mem_isa_base := pci_local_mem_isa_base b;
     minpcimemaddr := minpcimemaddr b; nextpcimemaddr := nextpcimemaddr b;
     minpciioaddr := minpciioaddr b; nextpciioaddr := nextpciioaddr b |}.
Definition with_vrev (v : Z) (b : board H) : board H :=
  {| hw := hw b; v96x_vrev := v; pcioldmap := pcioldmap b;
     pci_mem_space_pci_base := pci_mem_space_pci_base b;
     pci_local_mem_pci_base := pci_local_mem_pci_base b;
     pci_local_mem_isa_base := pci_local_mem_isa_base b;
     minpcimemaddr := minpcimemaddr b; nextpcimemaddr := nextpcimemaddr b;
     minpciioaddr := minpciioaddr b; nextpciioaddr := nextpciioaddr b |}.
Definition with_nextmem (a : Z) (b : board H) : board H :=
  {| hw := hw b; v96x_vrev := v96x_vrev b; pcioldmap := pcioldmap b;
     pci_mem_space_pci_base := pci_mem_space_pci_base b;
     pci_local_mem_pci_base := pci_local_mem_pci_base b;
     pci_local_mem_isa_base := pci_local_mem_isa_base b;
     minpcimemaddr := minpcimemaddr b; nextpcimemaddr := a;
     minpciioaddr := minpciioaddr b; nextpciioaddr := nextpciioaddr b |}.
Definition with_nextio (a : Z) (b : board H) : board H :=
  {| hw := hw b; v96x_vrev := v96x_vrev b; pcioldmap := pcioldmap b;
     pci_mem_space_pci_base := pci_mem_space_pci_base b;
     pci_local_mem_pci_base := pci_local_mem_pci_base b;
     pci_local_mem_isa_base := pci_local_mem_isa_base b;
     minpcimemaddr := minpcimemaddr b; nextpcimemaddr := nextpcimemaddr b;
     minpciioaddr := minpciioaddr b; nextpciioaddr := a |}.

Definition load (w a : Z) : MB Z := fun s =>
  let '(v, h) := hw_load w a (hw (s_board s)) in
  Ok (v, with_board (with_hw h (s_board s)) s).
Definition store (w a v : Z) : MB unit :=
  modify (fun s => with_board (with_hw (hw_store w a v (hw (s_board s))) (s_board s)) s).

(** ** The registers of the bridge *)

(** A register: its width and its offset. *)
Definition vreg : Type := (Z * Z)%type.
(** [src/pmon/p5064/v96xpbc.h:23-31] *)
Definition V96XW (x : Z) : vreg := (4, x).
Definition V96XH (x : Z) : vreg := (2, if big_endian then Z.lxor x 2 else x).
Definition V96XB (x : Z) : vreg := (1, if big_endian then Z.lxor x 3 else x).

Definition V96X_PCI_CMD : vreg := V96XH 0x04.
Definition V96X_PCI_STAT : vreg := V96XH 0x06.
Definition V96X_PCI_CC_REV : vreg := V96XW 0x08.
Definition V96X_PCI_HDR_CFG : vreg := V96XW 0x0c.
Definition V96X_PCI_IO_BASE : vreg := V96XW 0x10.
Definition V96X_PCI_BASE0 : vreg := V96XW 0x14.
Definition V96X_PCI_BASE1 : vreg := V96XW 0x18.
Definition V96X_PCI_MAP0 : vreg := V96XW 0x40.
Definition V96X_PCI_MAP1 : vreg := V96XW 0x44.
Definition V96X_LB_BASE0 : vreg := V96XW 0x54.
Definition V96X_LB_BASE1 : vreg := V96XW 0x58.
Definition V96X_LB_MAP0 : vreg := V96XH 0x5e.
Definition V96X_LB_MAP1 : vreg := V96XH 0x62.
Definition V96X_LB_BASE2 : vreg := V96XH 0x64.
Definition V96X_LB_MAP2 : vreg := V96XH 0x66.
Definition V96X_FIFO_CFG : vreg := V96XH 0x70.
Definition V96X_FIFO_PRIORITY : vreg := V96XH 0x72.
Definition V96X_FIFO_STAT : vreg := V96XH 0x74.
Definition V96X_LB_ISTAT : vreg := V96XB 0x76.
Definition V96X_LB_IMASK : vreg := V96XB 0x77.
Definition V96X_SYSTEM : vreg := V96XH 0x78.
Definition V96X_PCI_CFG : vreg := V96XH 0x7c.

(** Loads and stores of a register of the chip, and [r |= v]. *)
Definition vget (r : vreg) : MB Z := load (fst r) (PA_TO_KVA1 V96XPBC_BASE + snd r).
Definition vset (r : vreg) (v : Z) : MB unit :=
  store (fst r) (PA_TO_KVA1 V96XPBC_BASE + snd r) (wrapu (8 * fst r) v).
Definition vor (r : vreg) (v : Z) : MB unit := vget r ≫= fun x => vset r (Z.lor x v).
Definition vclear (r : vreg) (v : Z) : MB unit := vget r ≫= fun x => vset r (Z.land x (Z.lnot v)).

Definition V96X_PCI_STAT_M_ABORT : Z := 0x2000.
Definition V96X_PCI_STAT_T_ABORT : Z := 0x1000.
Definition V96X_VREV_B2 : Z := 3.
Definition V96X_VREV_C0 : Z := 4.
(** [src/pmon/p5064/pci_machdep.c:47-53] *)
Definition V96X_SWAP_MEM : Z := if big_endian then 0x200 else 0.
Definition V96X_SWAP_IO : Z := if big_endian then 0x300 else 0.
Definition V96X_LB_BASEx_ENABLE : Z := 1.

(** ** Initialisation *)

(** [strcmp (s, "old") == 0] for [pcimap] or [PCIMAP].
    [src/pmon/p5064/pci_machdep.c:139-143] *)
Definition env_oldmap : bool :=
  match (match sbd_getenv (str "pcimap") with
         | Some v => Some v
         | None => sbd_getenv (str "PCIMAP")
         end) with
  | Some v => strcmp v (str "old") =? 0
  | None => false
  end.

(** [src/pmon/p5064/pci_machdep.c:145-166] *)
Definition init_spaces (old : bool) (b : board H) : board H :=
  {| hw := hw b; v96x_vrev := v96x_vrev b; pcioldmap := old;
     pci_mem_space_pci_base :=
       if old then PCI_MEM_SPACE_PCI_BASE_OLD else PCI_MEM_SPACE_PCI_BASE_NEW;
     pci_local_mem_pci_base :=
       if old then PCI_LOCAL_MEM_PCI_BASE_OLD else PCI_LOCAL_MEM_PCI_BASE_NEW;
     pci_local_mem_isa_base :=
       if old then PCI_LOCAL_MEM_ISA_BASE_OLD else PCI_LOCAL_MEM_ISA_BASE_NEW;
     minpcimemaddr :=
       if old then PCI_MEM_SPACE_PCI_BASE_OLD else PCI_MEM_SPACE_PCI_BASE_NEW + 0x1000000;
     nextpcimemaddr :=
       if old then PCI_MEM_SPACE_PCI_BASE_OLD + PCI_MEM_SPACE_SIZE
       else PCI_MEM_SPACE_PCI_BASE_NEW + PCI_MEM_SPACE_SIZE;
     minpciioaddr := PCI_IO_SPACE_PCI_BASE + 0x80000;
     nextpciioaddr := PCI_IO_SPACE_PCI_BASE + PCI_IO_SPACE_SIZE |}.

(** The apertures from the local bus to PCI.
    [src/pmon/p5064/pci_machdep.c:192-204] *)
Definition init_lb_apertures (b : board H) : MB unit :=
  vset V96X_LB_BASE0 (Z.lor (Z.lor PCI_CONF_SPACE V96X_SWAP_IO) V96X_LB_BASEx_ENABLE) ≫= fun _ =>
  vset V96X_LB_BASE1
    (Z.lor (Z.lor (Z.lor PCI_MEM_SPACE V96X_SWAP_MEM) 0x70) V96X_LB_BASEx_ENABLE) ≫= fun _ =>
  vset V96X_LB_MAP1 (Z.lor (Z.shiftr (pci_mem_space_pci_base b) 16) 0x6) ≫= fun _ =>
  vset V96X_LB_BASE2
    (Z.lor (Z.lor (Z.shiftr PCI_IO_SPACE 16) (Z.shiftr V96X_SWAP_IO 2)) V96X_LB_BASEx_ENABLE) ≫= fun _ =>
  vset V96X_LB_MAP2 (Z.shiftr PCI_IO_SPACE_PCI_BASE 16).

(** The apertures from PCI to local memory; the result is [pci_rd0].
    [src/pmon/p5064/pci_machdep.c:206-235] *)
Definition init_pci_apertures (b : board H) : MB Z :=
  vset V96X_PCI_BASE1 (Z.lor (pci_local_mem_pci_base b) 0x8) ≫= fun _ =>
  vset V96X_PCI_MAP1 (Z.lor (Z.lor (Z.lor 0x80 V96X_SWAP_MEM) 0x2) 0x1) ≫= fun _ =>
  if pcioldmap b then
    vset V96X_PCI_BASE0 0xC0000000 ≫= fun _ =>
    vset V96X_PCI_MAP0 (Z.lor (Z.lor (Z.lor 0x80 V96X_SWAP_MEM) 0x2) 0x1) ≫= fun _ =>
    mret 0
  else
    vset V96X_PCI_BASE0 (Z.lor (pci_local_mem_isa_base b) 0x8) ≫= fun _ =>
    vset V96X_PCI_MAP0 (Z.lor (Z.lor (Z.lor 0x30 V96X_SWAP_MEM) 0x2) 0x1) ≫= fun _ =>
    mret (if V96X_VREV_C0 <=? v96x_vrev b then 0x1 else 0x3).

(** The internal registers, the FIFOs and the interrupts.
    [src/pmon/p5064/pci_machdep.c:237-285] *)
Definition init_fifos (pci_rd0 pci_rd1 : Z) : MB unit :=
  vset V96X_PCI_IO_BASE (Z.lor 0xffffff00 0x1) ≫= fun _ =>
  vset V96X_PCI_CFG (Z.lor 0x2000 (Z.shiftl 0x1 8)) ≫= fun _ =>
  vset V96X_FIFO_CFG
    (Z.lor (Z.lor (Z.lor (Z.shiftl 0x3 14) (Z.shiftl 0x3 12)) (Z.shiftl 0x2 6)) (Z.shiftl 0x3 4)) ≫= fun _ =>
  vset V96X_FIFO_PRIORITY (Z.lor pci_rd0 (Z.shiftl pci_rd1 2)) ≫= fun _ =>
  vset V96X_LB_ISTAT 0 ≫= fun _ =>
  vset V96X_LB_IMASK (Z.lor 0x40 0x20).

(** The onboard devices are taken out of reset.
    [src/pmon/p5064/pci_machdep.c:291-298] *)
Definition enable_onboard : MB unit :=
  for_each [0x08; 0x04; 0x0c; 0x10] (fun off => store 4 (PA_TO_KVA1 BCR1_BASE + off) (u32 (-1))).

(** [src/pmon/p5064/pci_machdep.c:119-301] *)
Definition _pci_hwinit (initialise : Z) : MB Z :=
  vget V96X_PCI_CC_REV ≫= fun rev =>
  let vrev := Z.land rev 0xf in
  modify (fun s => with_board (with_vrev vrev (s_board s)) s) ≫= fun _ =>
  if vrev <? V96X_VREV_B2 then
    modify (emit [Printf "V96 revisions < B.2 not supported\n" []]) ≫= fun _ => mret (-1)
  else
    modify (with_bus (v96x_pci_bus :: replicate (MAXBUS - 1) secondary_pci_bus)) ≫= fun _ =>
    modify (fun s => with_board (init_spaces env_oldmap (s_board s)) s) ≫= fun _ =>
    if initialise =? 0 then mret 0 else
    vset V96X_PCI_CMD 0 ≫= fun _ =>
    vclear V96X_SYSTEM 0x8000 ≫= fun _ =>
    vset V96X_PCI_CMD (Z.lor (Z.lor (Z.lor 0x4 0x2) 0x100) 0x40) ≫= fun _ =>
    vset V96X_PCI_STAT
      (Z.lor (Z.lor (Z.lor (Z.lor (Z.lor 0x8000 0x4000) 0x2000) 0x1000) 0x100) 0x80) ≫= fun _ =>
    gets s_board ≫= fun b =>
    init_lb_apertures b ≫= fun _ =>
    init_pci_apertures b ≫= fun pci_rd0 =>
    init_fifos pci_rd0 (if V96X_VREV_C0 <=? vrev then 0x1 else 0x3) ≫= fun _ =>
    vor V96X_SYSTEM 0x8000 ≫= fun _ =>
    enable_onboard ≫= fun _ =>
    mret 1.

(** [src/pmon/p5064/pci_machdep.c:308-333] *)
Definition _pci_hwreinit : MB unit :=
  gets s_bus ≫= fun l => need (l !! 0%nat) ≫= fun pb =>
  when (negb (b_fast_b2b pb =? 0)) (vor V96X_PCI_CMD 0x200) ≫= fun _ =>
  vset V96X_PCI_HDR_CFG (Z.shiftl (b_def_ltim pb) 8) ≫= fun _ =>
  gets (fun s => v96x_vrev (s_board s)) ≫= fun vrev =>
  when (negb (b_prefetch pb =? 0) && (V96X_VREV_C0 <=? vrev))
    (vor V96X_LB_BASE1 0x8 ≫= fun _ =>
     vget V96X_FIFO_PRIORITY ≫= fun x =>
     vset V96X_FIFO_PRIORITY (Z.lor (Z.land x (Z.lnot 0xc00)) (Z.shiftl 0x1 10))) ≫= fun _ =>
  vset V96X_LB_ISTAT 0 ≫= fun _ =>
  vset V96X_LB_IMASK (Z.lor 0x40 0x20).

(** [src/pmon/p5064/pci_machdep.c:335-345] *)
Definition _pci_flush : MB unit :=
  gets (fun s => v96x_vrev (s_board s)) ≫= fun vrev =>
  when (vrev <? V96X_VREV_C0) (vor V96X_SYSTEM (Z.lor (Z.lor (Z.lor 0x40 0x20) 0x4) 0x2)).

(** ** DMA addresses *)

(** [src/pmon/p5064/pci_machdep.c:350-354] *)
Definition _pci_dmamap (b : board H) (va : Z) : Z := u32 (pci_local_mem_pci_base b + KVA_TO_PA va).
(** [src/pmon/p5064/pci_machdep.c:358-362] *)
Definition _pci_cpumap (b : board H) (pcia : Z) : Z := u32 (pcia - pci_local_mem_pci_base b).
(** [src/pmon/p5064/pci_machdep.c:367-376] *)
Definition _isa_dmamap (b : board H) (va len : Z) : Z :=
  let pa := KVA_TO_PA va in
  if u32 (0x1000000 - pci_local_mem_isa_base b) <? u32 (pa + len) then u32 (-1)
  else u32 (pci_local_mem_isa_base b + pa).
(** [src/pmon/p5064/pci_machdep.c:380-384] *)
Definition _isa_cpumap (b : board H) (pcia : Z) : Z := u32 (pcia - pci_local_mem_isa_base b).

(** ** Configuration space *)

Definition tagprintf (tag : Z) (fmt : string) (args : list arg) : MB unit :=
  let '(bus, device, function) := _pci_break_tag tag in
  _pci_bdfprintf bus device function fmt args.

(** The address of a register and the [AD(1:0)] bits: [None] when no cycle is
    run. [src/pmon/p5064/pci_machdep.c:424-441] *)
Definition conf_addr (vrev tag reg : Z) : option (Z * Z) :=
  let '(bus, device, function) := _pci_break_tag tag in
  if bus =? 0 then
    if (5 <? device) || (7 <? function) then None
    else Some (Z.lor (Z.lor (Z.shiftl 1 (device + 24)) (Z.shiftl function 8)) reg, 0)
  else if V96X_VREV_C0 <=? vrev then
    if (PCI_BUSMAX <? bus) || (PCI_DEVMAX <? device) || (PCI_FUNCMAX <? function) then None
    else Some (Z.lor (Z.lor (Z.lor (Z.shiftl bus 16) (Z.shiftl device 11))
                            (Z.shiftl function 8)) reg, 1)
  else None.

(** The map register is set and old aborts are cleared; the result is the
    address to access. [src/pmon/p5064/pci_machdep.c:443-453] *)
Definition conf_cycle (addr ad_low : Z) : MB Z :=
  vset V96X_LB_MAP0
    (Z.lor (Z.lor (Z.land (Z.shiftr addr 16) 0xfff0) ad_low) (Z.shiftl 0x5 1)) ≫= fun _ =>
  vor V96X_PCI_STAT (Z.lor V96X_PCI_STAT_M_ABORT V96X_PCI_STAT_T_ABORT) ≫= fun _ =>
  mret (PA_TO_KVA1 (PCI_CONF_SPACE + Z.land addr 0xfffff)).

(** [src/pmon/p5064/pci_machdep.c:409-484] *)
Definition _pci_conf_readn (tag reg width : Z) : MB Z :=
  if bit_set reg (width - 1) || (reg <? 0) || (PCI_REGMAX <=? reg) then
    verbose_at 1 (tagprintf tag "_pci_conf_readn: bad reg 0x%x\r\n" [AInt reg]) ≫= fun _ =>
    mret (u32 (-1))
  else
    gets (fun s => v96x_vrev (s_board s)) ≫= fun vrev =>
    match conf_addr vrev tag reg with
    | None => mret (u32 (-1))
    | Some (addr, ad_low) =>
        conf_cycle addr ad_low ≫= fun addrp =>
        load width addrp ≫= fun data =>
        vget V96X_PCI_STAT ≫= fun stat =>
        if bit_set stat V96X_PCI_STAT_M_ABORT then
          vor V96X_PCI_STAT V96X_PCI_STAT_M_ABORT ≫= fun _ => mret (u32 (-1))
        else
          vget V96X_PCI_STAT ≫= fun stat =>
          if bit_set stat V96X_PCI_STAT_T_ABORT then
            vor V96X_PCI_STAT V96X_PCI_STAT_T_ABORT ≫= fun _ =>
            verbose_at 1 (tagprintf tag "_pci_conf_read: target abort\r\n" []) ≫= fun _ =>
            mret (u32 (-1))
          else mret data
    end.

(** [src/pmon/p5064/pci_machdep.c:487-511] *)
Definition _pci_conf_read8 (tag reg : Z) : MB Z := _pci_conf_readn tag reg 1.
Definition _pci_conf_read16 (tag reg : Z) : MB Z := _pci_conf_readn tag reg 2.
Definition _pci_conf_read (tag reg : Z) : MB Z := _pci_conf_readn tag reg 4.

(** [while (V96X_FIFO_STAT & V96X_FIFO_STAT_L2P_WR) continue].
    [src/pmon/p5064/pci_machdep.c:572-574] *)
Fixpoint wait_fifo (n : nat) : MB unit :=
  match n with
  | O => fail Hung
  | S n' =>
      vget V96X_FIFO_STAT ≫= fun x =>
      if bit_set x 0x3000 then wait_fifo n' else mret tt
  end.

(** An abort of a write is reported and cleared.
    [src/pmon/p5064/pci_machdep.c:576-586] *)
Definition check_abort (tag bit : Z) (msg : string) : MB unit :=
  vget V96X_PCI_STAT ≫= fun stat =>
  when (bit_set stat bit)
    (vor V96X_PCI_STAT bit ≫= fun _ => verbose_at 1 (tagprintf tag msg [])).

(** [src/pmon/p5064/pci_machdep.c:513-587] *)
Definition _pci_conf_writen (tag reg data width : Z) : MB unit :=
  if bit_set reg (width - 1) || (reg <? 0) || (PCI_REGMAX <? reg) then
    verbose_at 1 (tagprintf tag "_pci_conf_read: bad reg %x\r\n" [AInt reg])
  else
    gets (fun s => v96x_vrev (s_board s)) ≫= fun vrev =>
    match conf_addr vrev tag reg with
    | None => mret tt
    | Some (addr, ad_low) =>
        conf_cycle addr ad_low ≫= fun addrp =>
        store width addrp (wrapu (8 * width) data) ≫= fun _ =>
        wait_fifo polls ≫= fun _ =>
        check_abort tag V96X_PCI_STAT_M_ABORT "_pci_conf_write: master abort\r\n" ≫= fun _ =>
        check_abort tag V96X_PCI_STAT_T_ABORT "_pci_conf_write: target abort\r\n"
    end.

(** [src/pmon/p5064/pci_machdep.c:589-613] *)
Definition _pci_conf_write8 (tag reg data : Z) : MB unit := _pci_conf_writen tag reg data 1.
Definition _pci_conf_write16 (tag reg data : Z) : MB unit := _pci_conf_writen tag reg data 2.
Definition _pci_conf_write (tag reg data : Z) : MB unit := _pci_conf_writen tag reg data 4.

(** ** Space *)

(** [(next - size) & ~(size - 1)], then the two comparisons of both
    allocators; [None] is the result -1. [src/pmon/p5064/pci_machdep.c:772-774] *)
Definition round_down (min next size : Z) : option Z :=
  let address := Z.land (u32 (next - size)) (u32 (Z.lnot (u32 (size - 1)))) in
  if (next <? address) || (address <? min) then None else Some address.

(** [src/pmon/p5064/pci_machdep.c:766-777] *)
Definition _pci_allocate_mem (tag size : Z) : MB Z :=
  gets s_board ≫= fun b =>
  match round_down (minpcimemaddr b) (nextpcimemaddr b) size with
  | None => mret (u32 (-1))
  | Some a => modify (fun s => with_board (with_nextmem a (s_board s)) s) ≫= fun _ => mret a
  end.

(** [src/pmon/p5064/pci_machdep.c:780-791] *)
Definition _pci_allocate_io (tag size : Z) : MB Z :=
  gets s_board ≫= fun b =>
  match round_down (minpciioaddr b) (nextpciioaddr b) size with
  | None => mret (u32 (-1))
  | Some a => modify (fun s => with_board (with_nextio a (s_board s)) s) ≫= fun _ => mret a
  end.

(** ** Mapping a base register *)

Definition bad_map_reg (reg : Z) : bool :=
  (reg <? PCI_MAP_REG_START) || (PCI_MAP_REG_END <=? reg) || bit_set reg 3.

(** [*port]; [None] is the result -1. [src/pmon/p5064/pci_machdep.c:617-638] *)
Definition _pci_map_port (tag reg : Z) : MB (option Z) :=
  if bad_map_reg reg then
    verbose_at 1 (tagprintf tag "_pci_map_port: bad request\r\n" []) ≫= fun _ => mret None
  else
    _pci_conf_read tag reg ≫= fun address =>
    if negb (bit_set address PCI_MAP_IO) then
      verbose_at 1 (tagprintf tag "_pci_map_port: attempt to i/o map a memory region\r\n" []) ≫= fun _ =>
      mret None
    else mret (Some (u32 (Z.land address PCI_MAP_IO_ADDRESS_MASK - PCI_IO_SPACE_PCI_BASE))).

(** [*vap] and [*pap]. [src/pmon/p5064/pci_machdep.c:641-670] *)
Definition _pci_map_io (tag reg : Z) : MB (option (Z * Z)) :=
  if bad_map_reg reg then
    verbose_at 1 (tagprintf tag "_pci_map_io: bad request\r\n" []) ≫= fun _ => mret None
  else
    _pci_conf_read tag reg ≫= fun address =>
    if negb (bit_set address PCI_MAP_IO) then
      verbose_at 1 (tagprintf tag "_pci_map_io: attempt to i/o map a memory region\r\n" []) ≫= fun _ =>
      mret None
    else
      let pa := u32 (Z.land address PCI_MAP_IO_ADDRESS_MASK - PCI_IO_SPACE_PCI_BASE) in
      let va := PA_TO_KVA1 (u32 (PCI_IO_SPACE + pa)) in
      verbose_at 3 (tagprintf tag "_pci_map_io: mapping i/o at virtual %08x, physical %08x\n"
                      [AInt va; AInt pa]) ≫= fun _ =>
      mret (Some (va, pa)).

(** The address part of a memory or ROM base register.
    [src/pmon/p5064/pci_machdep.c:679-717] *)
Definition map_mem_reg (tag reg : Z) : MB (option (Z * Z)) :=
  if reg =? PCI_MAP_REG_ROM then
    _pci_conf_read tag reg ≫= fun address =>
    if negb (bit_set address PCI_MAP_ROM) then
      tagprintf tag "_pci_map_mem: attempt to map missing rom\r\n" [] ≫= fun _ => mret None
    else mret (Some (address, Z.land address PCI_MAP_ROM_ADDRESS_MASK))
  else if bad_map_reg reg then
    verbose_at 1 (tagprintf tag "_pci_map_mem: bad request\r\n" []) ≫= fun _ => mret None
  else
    _pci_conf_read tag reg ≫= fun address =>
    if bit_set address PCI_MAP_IO then
      verbose_at 1 (tagprintf tag "pci_map_mem: attempt to memory map an I/O region\r\n" []) ≫= fun _ =>
      mret None
    else
      let type := Z.land address PCI_MAP_MEMORY_TYPE_MASK in
      if (type =? PCI_MAP_MEMORY_TYPE_32BIT) || (type =? PCI_MAP_MEMORY_TYPE_32BIT_1M) then
        mret (Some (address, Z.land address PCI_MAP_MEMORY_ADDRESS_MASK))
      else if type =? PCI_MAP_MEMORY_TYPE_64BIT then
        verbose_at 1 (tagprintf tag "_pci_map_mem: attempt to map 64-bit region\r\n" []) ≫= fun _ =>
        mret None
      else
        verbose_at 1 (tagprintf tag "_pci_map_mem: reserved mapping type\r\n" []) ≫= fun _ =>
        mret None.

(** [*vap] and [*pap]. [src/pmon/p5064/pci_machdep.c:673-730] *)
Definition _pci_map_mem (tag reg : Z) : MB (option (Z * Z)) :=
  map_mem_reg tag reg ≫= fun o =>
  match o with
  | None => mret None
  | Some (address, pa) =>
      gets (fun s => pci_mem_space_pci_base (s_board s)) ≫= fun base =>
      let pa := u32 (pa - base) in
      let a := u32 (PCI_MEM_SPACE + pa) in
      let va := if bit_set address PCI_MAP_MEMORY_PREFETCHABLE then PA_TO_KVA0 a else PA_TO_KVA1 a in
      verbose_at 3 (tagprintf tag "_pci_map_mem: mapping memory at virtual 0x%x, physical 0x%x\r\n"
                      [AInt va; AInt pa]) ≫= fun _ =>
      mret (Some (va, pa))
  end.

(** No interrupt is ever mapped; a use is reported.
    [src/pmon/p5064/pci_machdep.c:733-764] *)
Definition _pci_map_int (tag : Z) : MB unit :=
  _pci_conf_read tag PCI_BPARAM_REG ≫= fun data =>
  let pin := Z.land (Z.shiftr data 8) 0xff in
  if pin =? 0 then mret tt
  else if 4 <? pin then
    verbose_at 1 (tagprintf tag "_pci_map_int: bad interrupt pin %d\r\n" [AInt pin])
  else
    let '(bus, device, _) := _pci_break_tag tag in
    if negb (bus =? 0) || (5 <? device) then mret tt
    else tagprintf tag "_pci_map_int: attempt to map device %d pin %c\n"
           [AInt device; AInt (ch "@" + pin)].

#[export] Instance p5064_board : PciBoard (board H) := {|
  pci_maxbus := Z.of_nat MAXBUS;
  pci_hwinit := _pci_hwinit;
  pci_hwreinit := _pci_hwreinit;
  pci_make_tag := _pci_make_tag;
  pci_break_tag := _pci_break_tag;
  pci_canscan := _pci_canscan;
  pci_conf_read := _pci_conf_read;
  pci_conf_write := _pci_conf_write;
  pci_allocate_mem := _pci_allocate_mem;
  pci_allocate_io := _pci_allocate_io
|}.
End Board.
