(* ===== verification/PciScan.v ===== *)
(** * PciScan: scanning the PCI buses

    The class [PciSpec]
    of what the board's layer promises to [pciconf.c] (configuration cycles do
    not disturb the tables, an allocation comes from the free end of the space,
    a base register answers the size probe as the PCI specification says); and
    the invariant of the scan, proved against that class: the tables stay within
    their bounds, no function and no register is entered twice, every window has
    a size that is a power of two, and the numbering of the bridges ends with
    each bus below its bridge. *)

From S2P Require Import Prelude Qsort Comp Pci.

Lemma wp_sh {B A} (E : fault -> Prop) (m : M (shared B) A) (Q : A -> pci B -> Prop) p :
  wp E m (fun a x => Q a (with_sh x p)) (p_sh p) -> wp E (sh m) Q p.
Proof. unfold wp, sh. by destruct (m (p_sh p)) as [[a x]|f]. Qed.

(** ** What the board promises *)

Definition pow2 (x : Z) : Prop := exists k, 0 <= k <= 31 /\ x = 2 ^ k.

(** The answer of a base register or of the ROM register to the size probe:
    absent, or hard-wired zeros below a power of two. *)
Definition reg_mask (reg mask : Z) : Prop :=
  mask = 0 \/ mask = 0xffffffff \/
  if reg =? PCI_MAP_REG_ROM then pow2 (win_size mask PCI_MAP_ROM_ADDRESS_MASK)
  else if bit_set mask PCI_MAP_IO
       then pow2 (win_size (Z.lor mask 0xffff0000) PCI_MAP_IO_ADDRESS_MASK)
       else pow2 (win_size mask PCI_MAP_MEMORY_ADDRESS_MASK).

(** The result of an allocator that hands out [lo, next) from the top. *)
Definition alloc_ok (lo next size a next' : Z) : Prop :=
  (a = NOADDR /\ next' = next /\ ~ (lo <= next - size /\ (size | next))) \/
  (lo <= a /\ a + size <= next /\ (size | a) /\ next' = a /\ ((size | next) -> a = next - size)).

(** The address fields of a bus hold 32-bit values. *)
Definition ranged (pb : pci_bus) : Prop :=
  0 <= b_min_mem_addr pb /\ b_max_mem_addr pb < 2 ^ 32 /\
  0 <= b_min_io_addr pb /\ b_max_io_addr pb < 2 ^ 32.

Class PciSpec (B : Type) `{PB : PciBoard B} (E : fault -> Prop) : Type := {
  (** What holds of the board before [pci_hwinit], and what it keeps to after. *)
  board_init : B -> Prop;
  board_ok : B -> Prop;
  mem_lo : Z; mem_hi : Z; io_lo : Z; io_hi : Z;
  mem_next : B -> Z; io_next : B -> Z;
  spaces_ok : 0 < mem_lo <= mem_hi /\ mem_hi < NOADDR /\ 0 < io_lo <= io_hi /\ io_hi < NOADDR;
  maxbus_ok : 1 <= pci_maxbus <= 256;
  tag_ok b d f : 0 <= b < 256 -> 0 <= d < 32 -> 0 <= f < 8 ->
    pci_break_tag (pci_make_tag b d f) = (b, d, f);
  framed (s s' : shared B) : Prop :=
    board_ok (s_board s') /\ s_bus s' = s_bus s /\ s_nbus s' = s_nbus s /\
    mem_next (s_board s') = mem_next (s_board s) /\ io_next (s_board s') = io_next (s_board s);
  conf_read_ok tag reg s : board_ok (s_board s) ->
    wp E (pci_conf_read tag reg) (fun _ => framed s) s;
  conf_write_ok tag reg v s : board_ok (s_board s) ->
    wp E (pci_conf_write tag reg v) (fun _ => framed s) s;
  (** The functions that are bridges say so. *)
  bridge : Z -> bool;
  class_ok tag s : board_ok (s_board s) ->
    wp E (pci_conf_read tag PCI_CLASS_REG) (fun class _ => bridge tag = true -> is_ppb class = true) s;
  probe_ok tag reg s : board_ok (s_board s) -> bridge tag = false -> reg ∈ PCI_MAP_REG_ROM :: map_regs ->
    wp E (probe_reg tag reg) (fun mask _ => reg_mask reg mask) s;
  hwinit_ok i s : board_init (s_board s) ->
    wp E (pci_hwinit i) (fun r s' => 0 <= r -> (i <> 0 -> 0 < r) /\
      board_ok (s_board s') /\ Z.of_nat (length (s_bus s')) = pci_maxbus /\ Forall ranged (s_bus s') /\
      s_nbus s' = s_nbus s /\
      mem_next (s_board s') = mem_hi /\ io_next (s_board s') = io_hi) s;
  hwreinit_ok s : board_ok (s_board s) -> s_bus s <> [] -> wp E pci_hwreinit (fun _ => framed s) s;
  allocate_mem_ok tag size s : board_ok (s_board s) -> pow2 size ->
    mem_lo <= mem_next (s_board s) <= mem_hi ->
    wp E (pci_allocate_mem tag size) (fun a s' =>
      alloc_ok mem_lo (mem_next (s_board s)) size a (mem_next (s_board s')) /\
      board_ok (s_board s') /\ s_bus s' = s_bus s /\ s_nbus s' = s_nbus s /\
      io_next (s_board s') = io_next (s_board s)) s;
  allocate_io_ok tag size s : board_ok (s_board s) -> pow2 size ->
    io_lo <= io_next (s_board s) <= io_hi ->
    wp E (pci_allocate_io tag size) (fun a s' =>
      alloc_ok io_lo (io_next (s_board s)) size a (io_next (s_board s')) /\
      board_ok (s_board s') /\ s_bus s' = s_bus s /\ s_nbus s' = s_nbus s /\
      mem_next (s_board s') = mem_next (s_board s)) s
}.

(** ** The tables of the scan *)

(** A device by its place in the scan order. *)
Definition pos (d : pcidev) : Z :=
  (pa_bus (d_pa d) * 32 + pa_device (d_pa d)) * 8 + pa_function (d_pa d).

(** A window by its device and register. *)
Definition wkey (w : pciwin) : Z := Z.of_nat (w_dev w) * 64 + w_reg w.

Record win_ok (ndev : nat) (w : pciwin) : Prop := {
  win_dev : (w_dev w < ndev)%nat;
  win_reg : 0x10 <= w_reg w <= 0x30;
  win_pow2 : pow2 (w_size w)
}.

(** The first [n] of [max] windows; none has an address yet. *)
Record wins_ok (max ndev n : nat) (kb : Z) (l : list pciwin) : Prop := {
  wins_len : length l = max;
  wins_cnt : (n <= max)%nat;
  wins_all : Forall (win_ok ndev) (take n l);
  wins_keys : Forall (fun w => wkey w < kb) (take n l);
  wins_nodup : NoDup (wkey <$> take n l);
  wins_fresh : Forall (fun w => w_address w = 0) l
}.

Lemma take_insert_last {A} (l : list A) n x y : l !! n = Some y -> take (S n) (<[n := x]> l) = take n l ++ [x].
Proof.
  intros Hl. rewrite (take_S_r _ _ x); [by rewrite take_insert_ge by lia|].
  rewrite list_lookup_insert_eq; [done|]. by eapply lookup_lt_Some.
Qed.

Lemma wins_ok_weaken max ndev ndev' n kb kb' l :
  wins_ok max ndev n kb l -> (ndev <= ndev')%nat -> kb <= kb' -> wins_ok max ndev' n kb' l.
Proof.
  intros [Hl Hc Ha Hk' Hd Hf] Hn Hk. split; try done.
  - apply (Forall_weaken _ _ _ Ha). intros w [? ? ?]. split; [lia|done|done].
  - apply (Forall_weaken _ _ _ Hk'). cbn. lia.
Qed.

Lemma wins_ok_add max ndev n kb l k reg size w :
  wins_ok max ndev n kb l -> l !! n = Some w -> (k < ndev)%nat -> 0x10 <= reg <= 0x30 ->
  pow2 size -> kb <= Z.of_nat k * 64 + reg ->
  wins_ok max ndev (S n) (Z.of_nat k * 64 + reg + 1) (<[n := fill_win k reg size w]> l).
Proof.
  intros [Hl Hc Ha Hk Hd Hf] Hw Hkd Hr Hp Hb.
  pose proof (lookup_lt_Some _ _ _ Hw). split.
  - by rewrite length_insert.
  - lia.
  - rewrite (take_insert_last _ _ _ _ Hw). apply Forall_app. split; [done|].
    constructor; [|done]. by split.
  - rewrite (take_insert_last _ _ _ _ Hw). apply Forall_app. split.
    + apply (Forall_weaken _ _ _ Hk). cbn. lia.
    + constructor; [|done]. unfold wkey. cbn. lia.
  - rewrite (take_insert_last _ _ _ _ Hw), fmap_app. apply list.NoDup_app. split; [done|].
    split; [|apply NoDup_singleton]. intros x Hx Hx'.
    apply list_elem_of_fmap in Hx as (w' & -> & Hw'). apply (Forall_elem _ _ _ Hk) in Hw'.
    apply list_elem_of_singleton in Hx'. unfold wkey in *. cbn in *. lia.
  - apply Forall_insert; [done|]. cbn. by apply (Forall_lookup_1 _ _ _ _ Hf Hw).
Qed.

Section Scan.
Context {B : Type} `{PB : PciBoard B} `{PD : PciDrivers B} (E : fault -> Prop) `{PS : !PciSpec B E}.

(** Each bus behind a bridge hangs on a bus with a smaller number. *)
Definition tree_ok (nbus : Z) (l : list pci_bus) : Prop :=
  forall i pb, (1 <= i)%nat -> Z.of_nat i < nbus -> l !! i = Some pb -> 0 <= b_primary pb < Z.of_nat i.

Record sh_ok (s : shared B) : Prop := {
  sh_board : board_ok (s_board s);
  sh_len : Z.of_nat (length (s_bus s)) = pci_maxbus;
  sh_nbus : 1 <= s_nbus s <= pci_maxbus;
  sh_tree : tree_ok (s_nbus s) (s_bus s);
  sh_ranged : Forall ranged (s_bus s);
  sh_mem : mem_next (s_board s) = mem_hi;
  sh_io : io_next (s_board s) = io_hi
}.

(** A computation that keeps the buses and the spaces in order. *)
Definition keeps {A} (m : M (shared B) A) : Prop :=
  forall s, sh_ok s -> wp E m (fun _ s' => sh_ok s' /\ s_nbus s' = s_nbus s) s.

Lemma sh_ok_framed s s' : sh_ok s -> framed s s' -> sh_ok s' /\ s_nbus s' = s_nbus s.
Proof.
  intros [Hb Hl Hn Ht Hg Hm Hi] (Hb' & Hbus & Hnb & Hm' & Hi').
  split; [|done]. split; rewrite ?Hbus, ?Hnb; first [done|congruence].
Qed.

Lemma keeps_ret {A} (a : A) : keeps (mret a).
Proof. by intros s Hs. Qed.

Lemma keeps_bind {A A'} (m : M (shared B) A) (k : A -> M (shared B) A') :
  keeps m -> (forall a, keeps (k a)) -> keeps (m ≫= k).
Proof.
  intros Hm Hk s Hs. apply wp_bind. eapply wp_mono; [by apply Hm|]. intros a s' [Hs' En].
  eapply wp_mono; [by apply Hk|]. cbn. intros _ s'' [? ?]. split; [done|congruence].
Qed.

Lemma keeps_gets {A} (f : shared B -> A) : keeps (gets f).
Proof. by intros s Hs. Qed.

Lemma keeps_when b m : keeps m -> keeps (when b m).
Proof. destruct b; [done|]. intros _. apply keeps_ret. Qed.

Lemma keeps_read tag reg : keeps (pci_conf_read tag reg).
Proof.
  intros s Hs. eapply wp_mono; [apply conf_read_ok, Hs|]. cbn. intros _ s'. by apply sh_ok_framed.
Qed.

Lemma keeps_write tag reg v : keeps (pci_conf_write tag reg v).
Proof.
  intros s Hs. eapply wp_mono; [apply conf_write_ok, Hs|]. cbn. intros _ s'. by apply sh_ok_framed.
Qed.

Lemma keeps_emit (t : shared B -> trace) : keeps (modify (fun s => emit (t s) s)).
Proof. intros s []. split; [by split|done]. Qed.

Lemma keeps_tagprintf tag fmt args : keeps (_pci_tagprintf tag fmt args).
Proof. unfold _pci_tagprintf. destruct (pci_break_tag tag) as [[? ?] ?]. apply keeps_emit. Qed.

Lemma keeps_bdfprintf b d f fmt args : keeps (_pci_bdfprintf b d f fmt args).
Proof. apply keeps_emit. Qed.

Lemma keeps_printf fmt args : keeps (PRINTF fmt args).
Proof. apply (keeps_emit (fun _ => _)). Qed.

Lemma keeps_verbose n m : keeps m -> keeps (verbose_at n m).
Proof. intros. apply keeps_bind; [apply keeps_gets|]. intros. by apply keeps_when. Qed.

Lemma keeps_mod_bus i f :
  0 <= i < pci_maxbus -> (forall pb, b_primary (f pb) = b_primary pb) ->
  (forall pb, ranged pb -> ranged (f pb)) -> keeps (mod_bus i f).
Proof.
  intros Hi Hf Hg s Hs. pose proof (sh_len _ Hs) as Hl.
  destruct (lookup_lt_is_Some_2 (s_bus s) (Z.to_nat i)) as [pb Hpb]; [lia|].
  unfold mod_bus, the_bus. wps. destruct (Z.ltb_spec i 0); [lia|].
  eapply wp_need; [done|]. apply wp_modify. split; [|done]. destruct Hs as [? ? ? Ht Hr ? ?].
  split; cbn; try done; [by rewrite length_insert| |].
  2: { apply Forall_insert; [done|]. apply Hg. by apply (Forall_lookup_1 _ _ _ _ Hr Hpb). }
  intros j b Hj Hjn. rewrite list_lookup_insert_Some. intros [(<- & <- & _)|(_ & Hjb)].
  - rewrite Hf. by apply (Ht _ pb).
  - by apply (Ht j b).
Qed.

Lemma keeps_the_bus i : 0 <= i < pci_maxbus -> keeps (the_bus i).
Proof.
  intros Hi s Hs. pose proof (sh_len _ Hs) as Hl.
  destruct (lookup_lt_is_Some_2 (s_bus s) (Z.to_nat i)) as [pb Hpb]; [lia|].
  unfold the_bus. wps. destruct (Z.ltb_spec i 0); [lia|]. by eapply wp_need.
Qed.

#[local] Hint Resolve keeps_ret keeps_gets keeps_when keeps_read keeps_write keeps_tagprintf
  keeps_bdfprintf keeps_printf keeps_verbose keeps_the_bus : keeps.
#[local] Hint Extern 2 (keeps (mod_bus _ _)) => apply keeps_mod_bus; [lia|done|unfold ranged; cbn; lia] : keeps.

(** ** Scanning keeps the tables *)

Record dev_ok (nbus : Z) (d : pcidev) : Prop := {
  dev_bus_ok : 0 <= pa_bus (d_pa d) < nbus;
  dev_device_ok : 0 <= pa_device (d_pa d) < 32;
  dev_function_ok : 0 <= pa_function (d_pa d) < 8;
  dev_tag_ok : pa_tag (d_pa d) = pci_make_tag (pa_bus (d_pa d)) (pa_device (d_pa d)) (pa_function (d_pa d));
  dev_nwin_ok : 0 <= d_nmemwin d /\ 0 <= d_niowin d
}.

(** The tables while the scan is at place [bd] and at window key [kb]. *)
Record tables (nbus bd kb : Z) (p : pci B) : Prop := {
  t_len : length (p_dev p) = PCIMAX_DEV;
  t_cnt : (p_ndev p <= PCIMAX_DEV)%nat;
  t_devs : Forall (dev_ok nbus) (take (p_ndev p) (p_dev p));
  t_pos : Forall (fun d => pos d < bd) (take (p_ndev p) (p_dev p));
  t_nodup : NoDup (pos <$> take (p_ndev p) (p_dev p));
  t_mem : wins_ok (PCIMAX_DEV * PCIMAX_MEMWIN) (p_ndev p) (p_nmemwin p) kb (p_memwin p);
  t_io : wins_ok (PCIMAX_DEV * PCIMAX_IOWIN) (p_ndev p) (p_niowin p) kb (p_iowin p)
}.

(** The state of the scan, with [n] devices found. *)
Record scan_ok (n : nat) (bd kb : Z) (p : pci B) : Prop := {
  sc_sh : sh_ok (p_sh p);
  sc_tab : tables (s_nbus (p_sh p)) bd kb p;
  sc_n : p_ndev p = n
}.

(** What a step of the scan leaves: the invariant and the number of buses. *)
Definition scanned (nb : Z) (n : nat) (bd kb : Z) (p : pci B) : Prop :=
  scan_ok n bd kb p /\ s_nbus (p_sh p) = nb.

Lemma scan_sh {A} (m : M (shared B) A) nb n bd kb p :
  keeps m -> scanned nb n bd kb p -> wp E (sh m) (fun _ => scanned nb n bd kb) p.
Proof.
  intros Hm [[Hs Ht Hn] Hnb]. apply wp_sh. eapply wp_mono; [by apply Hm|]. cbn. intros _ x [Hx En].
  split; [|cbn; congruence]. split; [done| |done]. cbn. rewrite En. by destruct Ht.
Qed.

(** A call into the board during the scan. *)
Tactic Notation "sstep" "as" ident(x) ident(p) ident(H) :=
  wps; eapply wp_mono; [apply scan_sh; [auto with keeps|done]|]; cbn beta; intros x p H.

Lemma scanned_weaken nb n bd bd' kb kb' p :
  scanned nb n bd kb p -> bd <= bd' -> kb <= kb' -> scanned nb n bd' kb' p.
Proof.
  intros [[Hs [] Hn] Hnb] Hb Hk. split; [|done]. split; [done| |done]. split; try done.
  - apply (Forall_weaken _ _ _ t_pos0). cbn. lia.
  - by eapply wins_ok_weaken.
  - by eapply wins_ok_weaken.
Qed.

(** A change of a device that leaves its identity alone. *)
Lemma scan_mod_dev nb n bd kb k f p :
  (k < n)%nat -> (forall d, d_pa (f d) = d_pa d) -> (forall d, dev_ok nb d -> dev_ok nb (f d)) ->
  scanned nb n bd kb p ->
  wp E (mod_dev k f) (fun _ => scanned nb n bd kb) p.
Proof.
  intros Hk Hf Hok [[Hs [Hl Hc Hd Hp Hn Hm Hi] <-] Hnb]. unfold mod_dev. wps.
  destruct (lookup_lt_is_Some_2 (p_dev p) k) as [d Hdk]; [lia|].
  eapply wp_need; [done|]. apply wp_modify.
  assert (take (p_ndev p) (p_dev p) !! k = Some d) as Hkt by (rewrite lookup_take_lt; [done|lia]).
  split; [|done]. split; [done| |done]. split; try done; cbn.
  - by rewrite length_insert.
  - rewrite take_insert_lt by lia. apply Forall_insert; [done|].
    rewrite Hnb. apply Hok. rewrite <- Hnb. apply (Forall_lookup_1 _ _ _ _ Hd Hkt).
  - rewrite take_insert_lt by lia. apply Forall_insert; [done|].
    unfold pos. rewrite Hf. apply (Forall_lookup_1 _ _ _ _ Hp Hkt).
  - rewrite take_insert_lt, list_fmap_insert by lia. rewrite list_insert_id; [done|].
    rewrite list_lookup_fmap, Hkt. cbn. unfold pos. by rewrite Hf.
Qed.

(** A window is entered. *)
Lemma scan_add_memwin nb n bd kb k reg size p :
  (k < n)%nat -> 0x10 <= reg <= 0x30 -> pow2 size -> kb <= Z.of_nat k * 64 + reg ->
  scanned nb n bd kb p ->
  wp E (add_memwin k reg size) (fun _ => scanned nb n bd (Z.of_nat k * 64 + reg + 1)) p.
Proof.
  intros Hk Hr Hp Hkb Hs. unfold add_memwin. wps. destruct (Nat.leb_spec (PCIMAX_DEV * PCIMAX_MEMWIN) (p_nmemwin p)).
  { apply (scan_sh _ _ _ _ (Z.of_nat k * 64 + reg + 1)); [apply keeps_printf|].
    apply (scanned_weaken _ _ _ _ _ _ _ Hs); lia. }
  wps. destruct Hs as [[Hs [Hl Hc Hd Hpos Hn Hm Hi] <-] Hnb]. pose proof (wins_len _ _ _ _ _ Hm) as Hlm.
  destruct (lookup_lt_is_Some_2 (p_memwin p) (p_nmemwin p)) as [w Hw]; [lia|].
  eapply wp_need; [done|]. wps. apply scan_mod_dev; [done|done|by intros d [? ? ? ? ?]; split; cbn; (done || lia)|]. split; [|done].
  split; [done| |done]. split; try done; cbn.
  - by eapply wins_ok_add.
  - eapply wins_ok_weaken; [done|done|lia].
Qed.

Lemma scan_add_iowin nb n bd kb k reg size p :
  (k < n)%nat -> 0x10 <= reg <= 0x30 -> pow2 size -> kb <= Z.of_nat k * 64 + reg ->
  scanned nb n bd kb p ->
  wp E (add_iowin k reg size) (fun _ => scanned nb n bd (Z.of_nat k * 64 + reg + 1)) p.
Proof.
  intros Hk Hr Hp Hkb Hs. unfold add_iowin. wps. destruct (Nat.leb_spec (PCIMAX_DEV * PCIMAX_IOWIN) (p_niowin p)).
  { apply (scan_sh _ _ _ _ (Z.of_nat k * 64 + reg + 1)); [apply keeps_printf|].
    apply (scanned_weaken _ _ _ _ _ _ _ Hs); lia. }
  wps. destruct Hs as [[Hs [Hl Hc Hd Hpos Hn Hm Hi] <-] Hnb]. pose proof (wins_len _ _ _ _ _ Hi) as Hlm.
  destruct (lookup_lt_is_Some_2 (p_iowin p) (p_niowin p)) as [w Hw]; [lia|].
  eapply wp_need; [done|]. wps. apply scan_mod_dev; [done|done|by intros d [? ? ? ? ?]; split; cbn; (done || lia)|]. split; [|done].
  split; [done| |done]. split; try done; cbn.
  - eapply wins_ok_weaken; [done|done|lia].
  - by eapply wins_ok_add.
Qed.

(** The size probe. *)
Lemma wp_and {S A} (m : M S A) (Q1 Q2 : A -> S -> Prop) s :
  wp E m Q1 s -> wp E m Q2 s -> wp E m (fun a s' => Q1 a s' /\ Q2 a s') s.
Proof. unfold wp. by destruct (m s) as [[a s']|f]. Qed.

Lemma keeps_probe tag reg : keeps (probe_reg tag reg).
Proof.
  repeat (apply keeps_bind; [first [apply keeps_read|apply keeps_write]|intros ?]). apply keeps_ret.
Qed.

Lemma scan_probe nb n bd kb tag reg p :
  bridge tag = false -> reg ∈ PCI_MAP_REG_ROM :: map_regs -> scanned nb n bd kb p ->
  wp E (sh (probe_reg tag reg)) (fun mask p' => reg_mask reg mask /\ scanned nb n bd kb p') p.
Proof.
  intros Hb Hr Hs. apply wp_and; [|by apply scan_sh; [apply keeps_probe|]].
  apply wp_sh. apply probe_ok; [|done|done]. apply Hs.
Qed.

Lemma map_regs_range reg : reg ∈ map_regs -> 0x10 <= reg <= 0x24 /\ (reg =? PCI_MAP_REG_ROM) = false.
Proof.
  intros Hr. apply list_elem_of_fmap in Hr as (i & -> & Hi%elem_of_seq).
  change (Z.to_nat ((PCI_MAP_REG_END - PCI_MAP_REG_START) / 4)) with 6%nat in Hi.
  unfold PCI_MAP_REG_START, PCI_MAP_REG_ROM. split; [lia|]. apply Z.eqb_neq. lia.
Qed.

Lemma map_regs_at l1 x l2 : map_regs = l1 ++ x :: l2 -> x = 0x10 + 4 * Z.of_nat (length l1).
Proof.
  intros Hl. assert (map_regs !! length l1 = Some x) as Hx by (rewrite Hl; by apply list_lookup_middle).
  unfold map_regs in Hx. rewrite list_lookup_fmap in Hx.
  destruct (seq 0 _ !! length l1) as [j|] eqn:Hj; [|done].
  apply lookup_seq in Hj as [-> _]. by injection Hx as <-.
Qed.

Lemma scan_map_reg nb n bd kb tag bus k reg p :
  bridge tag = false -> (k < n)%nat -> reg ∈ map_regs -> 0 <= bus < pci_maxbus -> kb <= Z.of_nat k * 64 + reg ->
  scanned nb n bd kb p ->
  wp E (query_map_reg tag bus k reg) (fun _ => scanned nb n bd (Z.of_nat k * 64 + reg + 1)) p.
Proof.
  intros Hbr Hk Hr Hbus Hkb Hs. destruct (map_regs_range _ Hr) as [Hreg Hrom].
  assert (forall (m : M (shared B) unit) p', keeps m -> scanned nb n bd kb p' ->
            wp E (sh m) (fun _ => scanned nb n bd (Z.of_nat k * 64 + reg + 1)) p') as Hpr.
  { intros m p' Hm Hp'. apply scan_sh; [done|]. apply (scanned_weaken _ _ _ _ _ _ _ Hp'); lia. }
  unfold query_map_reg. wps. eapply wp_mono; [apply scan_probe; [done|by apply list_elem_of_further|done]|].
  cbn beta. intros mask p' [Hmask Hp']. unfold reg_mask in Hmask. rewrite Hrom in Hmask. clear Hrom.
  unfold no_reg. destruct (Z.eqb_spec mask 0); [apply (scanned_weaken _ _ _ _ _ _ _ Hp'); lia|].
  destruct (Z.eqb_spec mask 0xffffffff); [apply (scanned_weaken _ _ _ _ _ _ _ Hp'); lia|].
  destruct Hmask as [?|[?|Hmask]]; [done|done|]. cbn [orb]. wps.
  eapply wp_mono; [apply scan_sh; [apply keeps_verbose, keeps_tagprintf|done]|]. cbn beta. intros _ p'' Hp''.
  destruct (bit_set mask PCI_MAP_IO); [apply (scan_add_iowin _ _ _ kb); (done || lia)|].
  destruct (_ || _).
  - wps. eapply wp_mono; [apply scan_sh; [by apply keeps_when, keeps_mod_bus; [..|unfold ranged; cbn; lia]|done]|]. cbn beta.
    intros _ p3 Hp3. apply (scan_add_memwin _ _ _ kb); (done || lia).
  - destruct (_ =? _); apply Hpr; (apply keeps_tagprintf || done).
Qed.

Lemma scan_rom nb n bd kb tag k p :
  bridge tag = false -> (k < n)%nat -> kb <= Z.of_nat k * 64 + 0x30 -> scanned nb n bd kb p ->
  wp E (query_rom tag k) (fun _ => scanned nb n bd (Z.of_nat k * 64 + 0x31)) p.
Proof.
  intros Hbr Hk Hkb Hs. unfold query_rom. wps.
  eapply wp_mono; [apply scan_probe; [done|by apply list_elem_of_here|done]|].
  cbn beta. intros mask p' [Hmask Hp']. unfold reg_mask in Hmask. rewrite Z.eqb_refl in Hmask.
  unfold no_reg. destruct (Z.eqb_spec mask 0); [apply (scanned_weaken _ _ _ _ _ _ _ Hp'); lia|].
  destruct (Z.eqb_spec mask 0xffffffff); [apply (scanned_weaken _ _ _ _ _ _ _ Hp'); lia|].
  destruct Hmask as [?|[?|Hmask]]; [done|done|]. cbn [orb]. wps.
  eapply wp_mono; [apply scan_sh; [apply keeps_verbose, keeps_tagprintf|done]|]. cbn beta. intros _ p'' Hp''.
  eapply wp_mono; [apply (scan_add_memwin nb n bd kb); (done || unfold PCI_MAP_REG_ROM; lia)|].
  cbn beta. intros _ p3 H3. apply (scanned_weaken _ _ _ _ _ _ _ H3); unfold PCI_MAP_REG_ROM; lia.
Qed.

Lemma scan_map_regs nb n bd tag bus k p :
  bridge tag = false -> (k < n)%nat -> 0 <= bus < pci_maxbus -> scanned nb n bd (Z.of_nat k * 64) p ->
  wp E (for_each map_regs (query_map_reg tag bus k))
    (fun _ => scanned nb n bd (Z.of_nat k * 64 + 0x30)) p.
Proof.
  intros Hbr Hk Hbus Hs. eapply wp_mono.
  - apply (wp_for_each E (fun l1 => scanned nb n bd (Z.of_nat k * 64 + 0x10 + 4 * Z.of_nat (length l1)))).
    + intros l1 x l2 s Hl Hs'. pose proof (map_regs_at _ _ _ Hl) as Hx.
      eapply wp_mono; [eapply (scan_map_reg _ _ _ _ tag bus k x); [done|done| |done| |exact Hs']|].
      * rewrite Hl. apply elem_of_app. right. apply list_elem_of_here.
      * lia.
      * cbn. intros _ s' Hs''. apply (scanned_weaken _ _ _ _ _ _ _ Hs''); [lia|].
        rewrite length_app. cbn. lia.
    + apply (scanned_weaken _ _ _ _ _ _ _ Hs); cbn; lia.
  - cbn beta. intros _ p' Hp'. apply (scanned_weaken _ _ _ _ _ _ _ Hp'); [lia|].
    change (length map_regs) with 6%nat. lia.
Qed.

(** Between two functions: every window belongs to a device of the table. *)
Definition between (nb bd : Z) (p : pci B) : Prop :=
  exists n, scanned nb n bd (Z.of_nat n * 64) p.

Definition place (b d f : Z) : Z := (b * 32 + d) * 8 + f.

Lemma scan_new_dev nb n bd b d f id class p :
  (n < PCIMAX_DEV)%nat -> 0 <= b < nb -> 0 <= d < 32 -> 0 <= f < 8 -> bd <= place b d f ->
  scanned nb n bd (Z.of_nat n * 64) p ->
  wp E (new_dev (pci_make_tag b d f) id class)
    (fun k p' => k = n /\ scanned nb (S n) (place b d f + 1) (Z.of_nat n * 64) p') p.
Proof.
  intros Hn Hb Hd Hf Hbd [[Hs [Hl Hc Hds Hp Hnd Hm Hi] <-] Hnb]. pose proof maxbus_ok as Hmax.
  pose proof (sh_nbus _ Hs) as Hnbus.
  unfold new_dev. wps. destruct (lookup_lt_is_Some_2 (p_dev p) (p_ndev p)) as [x Hx]; [lia|].
  eapply wp_need; [done|]. rewrite tag_ok by lia. wps. apply wp_ret. split; [done|].
  split; [|done]. split; [done| |done].
  split; cbn; rewrite ?(take_insert_last _ _ _ _ Hx); try done.
  - by rewrite length_insert.
  - apply Forall_app. split; [done|]. constructor; [|done]. split; cbn; (done || lia).
  - apply Forall_app. split; [apply (Forall_weaken _ _ _ Hp); cbn; lia|].
    constructor; [|done]. unfold pos, place. cbn. lia.
  - rewrite fmap_app. apply list.NoDup_app. split; [done|]. split; [|apply NoDup_singleton].
    intros q Hq Hq'. apply list_elem_of_fmap in Hq as (y & -> & Hy). apply (Forall_elem _ _ _ Hp) in Hy.
    apply list_elem_of_singleton in Hq'. unfold pos, place in *. cbn in *. lia.
  - eapply wins_ok_weaken; [done|lia|lia].
  - eapply wins_ok_weaken; [done|lia|lia].
Qed.

Lemma add_bparam_primary g l pb : b_primary (add_bparam g l pb) = b_primary pb.
Proof. unfold add_bparam. by destruct (_ || _). Qed.

Lemma add_bparam_ranged g l pb : ranged pb -> ranged (add_bparam g l pb).
Proof. unfold add_bparam. by destruct (_ || _). Qed.

Lemma scan_dev_func nb bd b d f init p :
  0 <= b < nb -> 0 <= d < 32 -> 0 <= f < 8 -> bd <= place b d f -> between nb bd p ->
  wp E (_pci_query_dev_func (pci_make_tag b d f) init) (fun _ => between nb (place b d f + 1)) p.
Proof.
  intros Hb Hd Hf Hbd [n Hs]. pose proof maxbus_ok as Hmax.
  assert (nb <= pci_maxbus) as Hnb by (destruct Hs as [[? ? ?] <-]; by apply sh_nbus).
  unfold _pci_query_dev_func. wps.
  eapply wp_mono; [apply (wp_and _ (fun class _ => bridge (pci_make_tag b d f) = true -> is_ppb class = true));
    [apply wp_sh, class_ok, Hs|apply scan_sh; [auto with keeps|exact Hs]]|].
  cbn beta. intros class p1 [Hcl H1]. sstep as id p2 H2. wps.
  sstep as u p3 H3. wps. rewrite (sc_n _ _ _ _ (proj1 H3)).
  destruct (Nat.leb_spec PCIMAX_DEV n).
  { sstep as u' p4 H4. exists n. apply (scanned_weaken _ _ _ _ _ _ _ H4); lia. }
  wps. eapply wp_mono; [by eapply scan_new_dev|]. cbn beta. intros k p4 [-> H4]. rewrite tag_ok by lia.
  cbn [fst]. sstep as stat p5 H5. sstep as u' p6 H6.
  assert (forall p' kb, kb <= Z.of_nat (S n) * 64 ->
    scanned nb (S n) (place b d f + 1) kb p' -> between nb (place b d f + 1) p') as Hend.
  { intros p' kb Hkb Hp'. exists (S n). apply (scanned_weaken _ _ _ _ _ _ _ Hp'); lia. }
  destruct (_ =? 0); [apply wp_ret; eapply Hend; [|done]; lia|].
  unfold query_params. sstep as bparam p7 H7. wps.
  eapply wp_mono; [apply (scan_mod_dev nb (S n)); [lia|done|by intros ? []|done]|]. cbn beta. intros _ p8 H8. wps.
  eapply wp_mono; [apply scan_sh; [apply keeps_mod_bus; [lia|apply add_bparam_primary|apply add_bparam_ranged]|done]|].
  cbn beta. intros _ p9 H9. destruct (is_ppb class); [apply wp_ret; eapply Hend; [|done]; lia|].
  assert (bridge (pci_make_tag b d f) = false) as Hbr by (by destruct (bridge _); [discriminate Hcl|]).
  wps. eapply wp_mono; [apply scan_map_regs; [done| |lia|done]; lia|]. cbn beta. intros _ p10 H10.
  eapply wp_mono; [eapply scan_rom; [done| |reflexivity|done]; lia|]. cbn beta. intros _ p11 H11.
  eapply Hend; [|done]. lia.
Qed.

Lemma between_weaken nb bd bd' p : between nb bd p -> bd <= bd' -> between nb bd' p.
Proof. intros [n Hn] H. exists n. by apply (scanned_weaken _ _ _ _ _ _ _ Hn). Qed.

Lemma between_sh {A} (m : M (shared B) A) nb bd p :
  keeps m -> between nb bd p -> wp E (sh m) (fun _ => between nb bd) p.
Proof.
  intros Hm [n Hn]. eapply wp_mono; [by apply scan_sh|]. cbn. intros _ p' H. by exists n.
Qed.

(** A call into the board between two functions. *)
Tactic Notation "bstep" "as" ident(x) ident(p) ident(H) :=
  wps; eapply wp_mono; [apply between_sh; [auto with keeps|done]|]; cbn beta; intros x p H.

Lemma scan_funcs k nb bd b d f init p :
  0 <= b < nb -> 0 <= d < 32 -> 0 <= f -> f + Z.of_nat k <= 8 -> bd <= place b d f -> between nb bd p ->
  wp E (query_funcs k b d f init) (fun _ => between nb (place b (d + 1) 0)) p.
Proof.
  intros Hb Hd Hf Hk. revert f bd p Hf Hk. induction k as [|k IH]; intros f bd p Hf Hk Hbd Hp; cbn [query_funcs].
  { apply wp_ret. apply (between_weaken _ _ _ _ Hp). unfold place in *. lia. }
  bstep as id p1 H1. destruct (no_id id).
  { apply wp_ret. apply (between_weaken _ _ _ _ H1). unfold place in *. lia. }
  wps. eapply wp_mono; [apply (scan_dev_func nb bd); (done || lia)|]. cbn beta. intros _ p2 H2.
  apply (IH (f + 1) (place b d f + 1)); [lia|lia| |done]. unfold place. lia.
Qed.

Lemma scan_dev nb b d init p :
  0 <= b < nb -> 0 <= d < 32 -> between nb (place b d 0) p ->
  wp E (_pci_query_dev b d init) (fun _ => between nb (place b (d + 1) 0)) p.
Proof.
  intros Hb Hd Hp. unfold _pci_query_dev.
  assert (forall p', between nb (place b d 0) p' -> between nb (place b (d + 1) 0) p') as Hskip.
  { intros p' Hp'. apply (between_weaken _ _ _ _ Hp'). unfold place. lia. }
  destruct (negb _); [apply wp_ret; auto|]. bstep as u p1 H1. bstep as id p2 H2. bstep as u' p3 H3.
  destruct (no_id id); [apply wp_ret; auto|]. bstep as misc p4 H4.
  destruct (bit_set _ _); [apply (scan_funcs _ _ (place b d 0)); (done || lia)|].
  eapply wp_mono; [apply (scan_dev_func nb (place b d 0)); (done || lia)|]. cbn beta. intros _ p5 H5.
  apply (between_weaken _ _ _ _ H5). unfold place. lia.
Qed.

Lemma all_devices_at l1 x l2 : all_devices = l1 ++ x :: l2 -> x = Z.of_nat (length l1) /\ 0 <= x < 32.
Proof.
  intros Hl. assert (all_devices !! length l1 = Some x) as Hx by (rewrite Hl; by apply list_lookup_middle).
  unfold all_devices in Hx. rewrite list_lookup_fmap in Hx.
  destruct (seq 0 _ !! length l1) as [j|] eqn:Hj; [|done]. injection Hx as <-.
  apply lookup_seq in Hj as [-> Hlt]. change (Z.to_nat (PCI_DEVMAX + 1)) with 32%nat in Hlt. lia.
Qed.

Lemma scan_bus nb b init p :
  0 <= b < nb -> between nb (place b 0 0) p ->
  wp E (query_bus init b) (fun _ => between nb (place (b + 1) 0 0)) p.
Proof.
  intros Hb Hp. assert (nb <= pci_maxbus) as Hnb
    by (destruct Hp as [n [[? ? ?] <-]]; by apply sh_nbus).
  unfold query_bus. wps. eapply wp_mono.
  { apply (wp_for_each E (fun l1 => between nb (place b (Z.of_nat (length l1)) 0))); [|done].
    intros l1 x l2 s Hl Hs. destruct (all_devices_at _ _ _ Hl) as [Hx Hr].
    eapply wp_mono; [by apply (scan_dev nb b x); [| |rewrite Hx]|]. cbn beta. intros _ p' Hp'.
    rewrite length_app. cbn [length]. apply (between_weaken _ _ _ _ Hp'). unfold place. lia. }
  cbn beta. intros _ p1 H1. change (length all_devices) with 32%nat in H1.
  apply (between_weaken _ _ (place (b + 1) 0 0)) in H1; [|unfold place; lia].
  wps. eapply wp_mono; [apply between_sh; [apply keeps_the_bus; lia|done]|]. cbn beta. intros pb p2 H2.
  destruct (_ =? 0); [by apply wp_ret|]. destruct (_ =? 0); [by apply wp_ret|].
  bstep as u p3 H3. apply between_sh; [auto with keeps|done].
Qed.

Lemma buses_at n l1 x l2 : buses n = l1 ++ x :: l2 -> x = Z.of_nat (length l1) /\ 0 <= x < n.
Proof.
  intros Hl. assert (buses n !! length l1 = Some x) as Hx by (rewrite Hl; by apply list_lookup_middle).
  unfold buses in Hx. rewrite list_lookup_fmap in Hx.
  destruct (seq 0 _ !! length l1) as [j|] eqn:Hj; [|done]. injection Hx as <-.
  apply lookup_seq in Hj as [-> Hlt]. lia.
Qed.

Lemma scan_buses nb init p :
  between nb 0 p -> wp E (for_each (buses nb) (query_bus init)) (fun _ => between nb (place nb 0 0)) p.
Proof.
  intros Hp. assert (1 <= nb) as Hnb by (destruct Hp as [n [[? ? ?] <-]]; by apply sh_nbus).
  eapply wp_mono.
  { apply (wp_for_each E (fun l1 => between nb (place (Z.of_nat (length l1)) 0 0))); [|done].
    intros l1 x l2 s Hl Hs. destruct (buses_at _ _ _ _ Hl) as [Hx Hr].
    eapply wp_mono; [by apply (scan_bus nb x); [|rewrite Hx]|]. cbn beta. intros _ p' Hp'.
    rewrite length_app. cbn [length]. apply (between_weaken _ _ _ _ Hp'). unfold place. lia. }
  cbn beta. intros _ p1 H1. unfold buses in H1. rewrite length_fmap, length_seq in H1.
  by rewrite Z2Nat.id in H1 by lia.
Qed.

(** ** The bridge hierarchy *)

(** No function says it is a PCI-PCI bridge. *)
Definition no_bridges : Prop := forall tag s, board_ok (s_board s) ->
  wp E (pci_conf_read tag PCI_CLASS_REG) (fun class _ => is_ppb class = false) s.

(** A fault outside the table of buses is allowed, or there is no bridge. *)
Definition bridges_fit : Prop := E OutOfBounds \/ no_bridges.

(** [nbus] only grows, and not at all without bridges. *)
Definition numbered (n : Z) (s : shared B) : Prop :=
  sh_ok s /\ n <= s_nbus s /\ (no_bridges -> s_nbus s = n).

Lemma numbered_keeps {A} (m : M (shared B) A) n s :
  keeps m -> numbered n s -> wp E m (fun _ => numbered n) s.
Proof.
  intros Hm (Hs & Hn & Hb). eapply wp_mono; [by apply Hm|]. cbn. intros _ s' [Hs' En].
  by split; [|rewrite En].
Qed.

(** The next bus is entered behind its bridge. *)
Lemma number_step tag bus n s :
  bridges_fit -> ~ no_bridges -> sh_ok s -> s_nbus s = n -> 0 <= bus < n ->
  wp E (mod_bus n (with_upstream tag (u8 bus)))
    (fun _ s' => sh_ok (with_nbus (n + 1) s') /\ s_nbus s' = n) s.
Proof.
  intros Hfit Hnb Hs Hn Hbus. pose proof maxbus_ok as Hmax. destruct Hs as [Hb Hl Hnbus Ht Hg Hm Hi].
  unfold mod_bus, the_bus. wps. destruct (Z.ltb_spec n 0); [lia|].
  destruct (s_bus s !! Z.to_nat n) as [pb|] eqn:Hpb; [|by destruct Hfit].
  pose proof (lookup_lt_Some _ _ _ Hpb). eapply wp_need; [done|]. apply wp_modify. split; [|done].
  split; cbn; try done; [by rewrite length_insert|lia| |].
  2: { apply Forall_insert; [done|]. exact (Forall_lookup_1 _ _ _ _ Hg Hpb). }
  intros j b Hj Hjn. rewrite list_lookup_insert_Some. intros [(<- & <- & _)|(Hne & Hjb)].
  - cbn. rewrite u8_small by lia. lia.
  - apply (Ht j b); [done|lia|done].
Qed.

Lemma number_bridge_ok rec tag bus n s :
  bridges_fit -> ~ no_bridges -> 0 <= bus < s_nbus s -> numbered n s ->
  (forall s', sh_ok s' -> s_nbus s + 1 <= s_nbus s' -> wp E rec (fun _ => numbered (s_nbus s')) s') ->
  wp E (number_bridge rec tag bus) (fun _ => numbered n) s.
Proof.
  intros Hfit Hnb Hbus (Hs & Hn & Hb) Hrec. unfold number_bridge. wps.
  eapply wp_mono; [by apply number_step|]. cbn beta. intros _ s1 [Hs1 En1]. wps.
  eapply wp_mono.
  { apply (conf_write_ok tag PPB_BUS_REG _ s1). apply (sh_board _ Hs1). }
  cbn beta. intros _ s2 (Hb2 & Hbus2 & Hn2 & Hm2 & Hi2). wps.
  assert (sh_ok (with_nbus (s_nbus s2 + 1) s2)) as Hs2.
  { destruct Hs1. split; cbn in *; rewrite ?Hbus2, ?Hn2, ?En1; (done || congruence). }
  eapply wp_mono; [apply Hrec; [done|cbn; lia]|]. cbn beta. intros _ s3 (Hs3 & Hn3 & _). cbn in Hn3. wps.
  eapply wp_mono; [by apply keeps_write|]. cbn. intros _ s4 [Hs4 En4]. split; [done|]. by split; [lia|].
Qed.

(** What is read as a class is no bridge when there is none. *)
Lemma read_class tag s : sh_ok s ->
  wp E (pci_conf_read tag PCI_CLASS_REG) (fun class s' =>
    (no_bridges -> is_ppb class = false) /\ sh_ok s' /\ s_nbus s' = s_nbus s) s.
Proof.
  intros Hs. apply wp_and; [|by apply keeps_read].
  pose proof (conf_read_ok tag PCI_CLASS_REG s (sh_board _ Hs)) as Hr. unfold wp in *.
  destruct (pci_conf_read _ _ s) as [[c s']|] eqn:Ec; [|done].
  intros Hnb. pose proof (Hnb tag s (sh_board _ Hs)) as H. unfold wp in H. by rewrite Ec in H.
Qed.

Lemma ppbinit_dev_ok rec bus device n s :
  bridges_fit -> 0 <= bus < s_nbus s -> numbered n s ->
  (forall s', sh_ok s' -> s_nbus s + 1 <= s_nbus s' -> wp E rec (fun _ => numbered (s_nbus s')) s') ->
  wp E (ppbinit_dev rec bus device) (fun _ s' => numbered n s') s.
Proof.
  intros Hfit Hbus Hnum Hrec. unfold ppbinit_dev.
  destruct (negb _); [by apply wp_ret|]. wps. eapply wp_mono; [apply keeps_read, Hnum|].
  cbn beta. intros id s1 [Hs1 En1].
  assert (numbered n s1) as Hn1 by (destruct Hnum as (_ & ? & ?); split; [done|by rewrite En1]).
  destruct (no_id id); [by apply wp_ret|]. wps.
  eapply wp_mono; [by apply read_class|]. cbn beta. intros class s2 (Hc & Hs2 & En2).
  assert (numbered n s2) as Hn2 by (destruct Hnum as (_ & ? & ?); split; [done|by rewrite En2, En1]).
  destruct (is_ppb class); [|by apply wp_ret].
  apply number_bridge_ok; [done|by intros ?%Hc|lia|done|]. intros s' Hs' Hle. apply Hrec; [done|lia].
Qed.

(** With [fuel] above the number of buses left, the recursion ends. *)
Lemma ppbinit_ok fuel s :
  bridges_fit -> sh_ok s -> pci_maxbus - s_nbus s < Z.of_nat fuel ->
  wp E (_pci_ppbinit fuel) (fun _ => numbered (s_nbus s)) s.
Proof.
  intros Hfit. revert s. induction fuel as [|f IH]; intros s Hs Hf.
  { pose proof (sh_nbus _ Hs). lia. }
  cbn [_pci_ppbinit]. wps. destruct (Z.eqb_spec (s_nbus s) pci_maxbus); [by apply wp_ret|]. wps.
  pose proof (sh_nbus _ Hs). eapply wp_mono; [apply numbered_keeps; [auto with keeps|by split]|].
  cbn beta. intros _ s1 H1.
  apply (wp_for_each E (fun _ => numbered (s_nbus s))); [|done]. intros l1 x l2 s2 _ H2.
  assert (s_nbus s <= s_nbus s2) by apply H2.
  apply ppbinit_dev_ok; [done|lia|done|]. intros s' Hs' Hle. apply IH; [done|lia].
Qed.

(** ** The scan *)

(** The static arrays before the first run. *)
Record fresh (p : pci B) : Prop := {
  fresh_dev : length (p_dev p) = PCIMAX_DEV;
  fresh_mem : length (p_memwin p) = (PCIMAX_DEV * PCIMAX_MEMWIN)%nat;
  fresh_io : length (p_iowin p) = (PCIMAX_DEV * PCIMAX_IOWIN)%nat;
  fresh_mem0 : Forall (fun w => w_address w = 0) (p_memwin p);
  fresh_io0 : Forall (fun w => w_address w = 0) (p_iowin p);
  fresh_nbus : s_nbus (p_sh p) = 0
}.

(** The board is initialised and nothing is allocated. *)
Record ready (s : shared B) : Prop := {
  ready_board : board_ok (s_board s);
  ready_len : Z.of_nat (length (s_bus s)) = pci_maxbus;
  ready_ranged : Forall ranged (s_bus s);
  ready_mem : mem_next (s_board s) = mem_hi;
  ready_io : io_next (s_board s) = io_hi
}.

Lemma wins_ok_empty max l :
  length l = max -> Forall (fun w => w_address w = 0) l -> wins_ok max 0 0 0 l.
Proof. intros Hl Hf. split; cbn; try done; (lia || constructor). Qed.

Lemma pci_scan_ok init p :
  init <> 0 -> bridges_fit -> fresh p -> ready (p_sh p) ->
  wp E (pci_scan init) (fun _ p' =>
    exists nb, between nb (place nb 0 0) p' /\ (no_bridges -> nb = 1)) p.
Proof.
  intros Hi Hfit [Hd Hm Hio Hm0 Hio0 Hnb0] [Hb Hl Hrg Hmem Hion]. pose proof maxbus_ok as Hmax.
  unfold pci_scan. apply wp_bind, wp_sh. wps. rewrite Hnb0. cbn [Z.eqb].
  apply wp_sh. destruct (Z.eqb_spec init 0); [done|]. eapply wp_mono.
  { apply ppbinit_ok; [done| |].
    - split; cbn; try done; try lia.
      intros i pb Hi1 Hi2. cbn in Hi2. lia.
    - unfold bus_fuel. cbn. lia. }
  cbn. intros _ s1 (Hs1 & Hn1 & Hb1). wps. eapply wp_mono.
  { apply (scan_buses (s_nbus s1)). exists 0%nat. split; [|done]. split; [done| |done].
    split; cbn; try done; try lia; first [by apply wins_ok_empty | constructor]. }
  cbn. intros _ p' Hp'. exists (s_nbus s1). done.
Qed.
End Scan.
