(* ===== verification/PciOk.v ===== *)
(** * PciOk: what the PCI configuration guarantees

    The placement of the windows that the scan found, proved against the class
    [PciSpec]: every window that gets an address lies aligned in the board's
    space and apart from the others; windows that fit are all placed; the range
    of a bus covers the windows of its devices and of the buses behind it, and
    so does the range a bridge is programmed with. *)

From S2P Require Import Prelude Qsort Comp Pci PciScan.

(** ** Placing windows from the top of a space *)

(** A window that was given an address: 0 is the initial value. *)
Definition placed (w : pciwin) : Prop := w_address w <> 0 /\ w_address w <> NOADDR.

Definition ident (w : pciwin) : nat * Z * Z := (w_dev w, w_reg w, w_size w).

(** The window lies in [lo, hi), aligned to its size. *)
Record in_space (lo hi : Z) (w : pciwin) : Prop := {
  in_lo : lo <= w_address w;
  in_hi : w_address w + w_size w <= hi;
  in_align : (w_size w | w_address w)
}.

(** Two windows have no address in common. *)
Definition apart (w w' : pciwin) : Prop :=
  w_address w + w_size w <= w_address w' \/ w_address w' + w_size w' <= w_address w.

Definition below (w w' : pciwin) : Prop :=
  placed w -> placed w' -> w_address w' + w_size w' <= w_address w.

(** The windows [r] that [l1] became, with [next, hi) used up. *)
Record placing (lo hi next : Z) (l1 r : list pciwin) : Prop := {
  pl_ident : ident <$> r = ident <$> l1;
  pl_next : lo <= next <= hi;
  pl_in : Forall (fun w => placed w -> in_space next hi w) r;
  pl_below : ForallOrdPairs below r
}.

Lemma ForallOrdPairs_snoc {A} (R : A -> A -> Prop) l x :
  ForallOrdPairs R l -> Forall (fun y => R y x) l -> ForallOrdPairs R (l ++ [x]).
Proof.
  induction 1 as [|y l Hy _ IH]; intros Hx; cbn.
  - repeat constructor.
  - apply Forall_cons_iff in Hx as [Hx Hl]. constructor; [|auto].
    apply Forall_app. by split; [|constructor].
Qed.

Lemma placing_not lo hi next l1 r w a :
  placing lo hi next l1 r -> a = 0 \/ a = NOADDR -> placing lo hi next (l1 ++ [w]) (r ++ [set_address a w]).
Proof.
  intros [Hi Hn Ha Hb] Hw. assert (~ placed (set_address a w)) by (unfold placed; cbn; tauto).
  split; [by rewrite !fmap_app, Hi|done| |].
  - apply Forall_app. split; [done|]. by constructor.
  - apply ForallOrdPairs_snoc; [done|]. apply (Forall_weaken _ _ _ Ha). by intros y _ _ ?.
Qed.

Lemma placing_take lo hi next l1 r w a :
  placing lo hi next l1 r -> lo <= a -> 0 <= w_size w -> a + w_size w <= next -> (w_size w | a) ->
  placing lo hi a (l1 ++ [w]) (r ++ [set_address a w]).
Proof.
  intros [Hi Hn Ha Hb] Hlo Hs Hnx Hd. split; [by rewrite !fmap_app, Hi|lia| |].
  - apply Forall_app. split.
    + apply (Forall_weaken _ _ _ Ha). intros y Hy Hp. destruct (Hy Hp). split; (done || lia).
    + constructor; [|done]. intros _. split; cbn; (done || lia).
  - apply ForallOrdPairs_snoc; [done|]. apply (Forall_weaken _ _ _ Ha). intros y Hy Hp _.
    destruct (Hy Hp). cbn. lia.
Qed.

(** ** Sorting the windows *)

Lemma pow2_range x : pow2 x -> 1 <= x <= 2147483648.
Proof.
  intros (k & Hk & ->). split; [apply Z.lt_pred_le; cbn; apply Z.pow_pos_nonneg; lia|].
  change 2147483648 with (2 ^ 31). apply Z.pow_le_mono_r; lia.
Qed.

Lemma pow2_divide x y : pow2 x -> pow2 y -> x <= y -> (x | y).
Proof.
  intros (i & Hi & ->) (j & Hj & ->) Hle. apply Z.pow_le_mono_r_iff in Hle; [|lia..].
  exists (2 ^ (j - i)). rewrite <- Z.pow_add_r by lia. f_equal. lia.
Qed.

(** A window of a device on a bus with a number below 256. *)
Definition sortable (devs : list pcidev) (w : pciwin) : Prop :=
  pow2 (w_size w) /\ 0 <= dev_bus devs w < 256.

Lemma wincompare_exact devs x y : sortable devs x -> sortable devs y ->
  wincompare devs x y =
    if dev_bus devs x =? dev_bus devs y then w_size y - w_size x else dev_bus devs x - dev_bus devs y.
Proof.
  intros [Hx Hbx] [Hy Hby]. apply pow2_range in Hx, Hy. unfold wincompare.
  destruct (Z.eqb_spec (dev_bus devs x) (dev_bus devs y)); cbn [negb];
    rewrite ?wraps_wrapu, s32_small by lia; done.
Qed.

Lemma sort_wins_ok devs l n :
  Forall (sortable devs) (take n l) ->
  exists l', sort_wins devs l n = Some (l' ++ drop n l) /\ take n l ≡ₚ l' /\
    StronglySorted (fun x y => wincompare devs x y <= 0) l'.
Proof.
  intros Hl. destruct (qsort_sorts_on (sortable devs) (wincompare devs) (take n l))
    as (l' & E & Hp & Hs); [| |done|].
  - intros x y Hx Hy. rewrite !wincompare_exact by done. repeat case_match; lia.
  - intros x y z Hx Hy Hz. rewrite !wincompare_exact by done. repeat case_match; lia.
  - exists l'. unfold sort_wins. by rewrite E.
Qed.

(** ** Windows that fit *)

Definition total (l : list pciwin) : Z := foldr (fun w a => w_size w + a) 0 l.

Lemma wins_total_app l l' : total (l ++ l') = total l + total l'.
Proof. unfold total in *. induction l as [|x l IH]; [done|]. cbn in *. lia. Qed.

Lemma total_perm l l' : l ≡ₚ l' -> total l = total l'.
Proof. unfold total. induction 1; cbn; lia. Qed.

Lemma wins_total_nonneg l : Forall (fun w => pow2 (w_size w)) l -> 0 <= total l.
Proof. unfold total. induction 1 as [|x l Hx _ IH]; [done|]. cbn. apply pow2_range in Hx. lia. Qed.

(** Processed in this order, each window finds the free end aligned. *)
Record fits (lo hi : Z) (l : list pciwin) : Prop := {
  fit_total : total l <= hi - lo;
  fit_pow2 : Forall (fun w => pow2 (w_size w)) l;
  fit_top : Forall (fun w => (w_size w | hi)) l;
  fit_order : StronglySorted (fun x y => (w_size y | w_size x)) l
}.

Lemma StronglySorted_middle {A} (R : A -> A -> Prop) l1 x l2 :
  StronglySorted R (l1 ++ x :: l2) -> Forall (fun y => R y x) l1.
Proof.
  induction l1 as [|y l1 IH]; [done|]. cbn. intros [Hs Hy]%StronglySorted_inv. constructor; [|auto].
  rewrite List.Forall_forall in Hy. apply Hy. apply in_or_app. right. by left.
Qed.

Lemma fits_next lo hi l1 x l2 :
  fits lo hi (l1 ++ x :: l2) -> lo <= hi - total l1 - w_size x /\ (w_size x | hi - total l1).
Proof.
  intros [Ht Hp Hd Ho]. rewrite wins_total_app in Ht. apply Forall_app in Hp as [Hp1 Hp2].
  apply Forall_cons_iff in Hp2 as [Hx Hp2]. pose proof (wins_total_nonneg _ Hp2).
  change (total (x :: l2)) with (w_size x + total l2) in Ht. split; [lia|].
  apply StronglySorted_middle in Ho. apply Forall_app in Hd as [_ [Hdx _]%Forall_cons_iff].
  apply Z.divide_sub_r; [done|]. clear -Ho. induction Ho as [|y l1 Hy _ IH]; cbn; [apply Z.divide_0_r|].
  by apply Z.divide_add_r.
Qed.

(** ** The register of a bridge *)

(** The 32 bit positions. *)
Ltac bits32 i :=
  let H := fresh in
  assert (i = 0 \/ i = 1 \/ i = 2 \/ i = 3 \/ i = 4 \/ i = 5 \/ i = 6 \/ i = 7 \/ i = 8 \/ i = 9 \/
    i = 10 \/ i = 11 \/ i = 12 \/ i = 13 \/ i = 14 \/ i = 15 \/ i = 16 \/ i = 17 \/ i = 18 \/ i = 19 \/
    i = 20 \/ i = 21 \/ i = 22 \/ i = 23 \/ i = 24 \/ i = 25 \/ i = 26 \/ i = 27 \/ i = 28 \/ i = 29 \/
    i = 30 \/ i = 31) as H by lia;
  repeat (destruct H as [H|H]; [subst i|]); [..|subst i].

Lemma testbit_above x i : 0 <= x < 2 ^ 32 -> 32 <= i -> Z.testbit x i = false.
Proof.
  intros Hx Hi. destruct (Z.eq_dec x 0) as [->|]; [apply Z.bits_0|].
  apply Z.bits_above_log2; [lia|]. apply Z.log2_lt_pow2; [lia|].
  apply Z.lt_le_trans with (2 ^ 32); [lia|]. apply Z.pow_le_mono_r; lia.
Qed.

Lemma ppb_memdata_base m lo hi : 0 <= lo < 2 ^ 32 ->
  Z.land (ppb_memdata m lo hi) 0xfff0 = Z.shiftl (Z.shiftr lo 20) 4.
Proof.
  intros Hl. unfold ppb_memdata, clear, PPB_MEM_BASE_MASK, PPB_MEM_LIMIT_MASK.
  apply Z.bits_inj'. intros i Hi. rewrite !Z.land_spec, !Z.lor_spec, !Z.land_spec, !Z.lor_spec, !Z.land_spec.
  rewrite Z.shiftl_spec by lia.
  destruct (Z.lt_ge_cases i 4).
  { rewrite (Z.testbit_neg_r _ (i - 4)) by lia.
    assert (Z.testbit 0xfff0 i = false) as ->; [|by rewrite andb_false_r]. bits32 i; (reflexivity || lia). }
  rewrite (Z.shiftr_spec lo 20) by lia. destruct (Z.lt_ge_cases i 16).
  - rewrite (Z.shiftr_spec lo 16) by lia. replace (i - 4 + 20) with (i + 16) by lia.
    assert (Z.testbit 0xfff0 i = true /\ Z.testbit (u32 (Z.lnot 0xffff0000)) i = true /\
      Z.testbit 0xffff0000 i = false /\ Z.testbit (u32 (Z.lnot 0xffff)) i = false) as (-> & -> & -> & ->).
    { bits32 i; first [lia | repeat split; reflexivity]. }
    by rewrite ?andb_false_r, ?andb_true_r, ?orb_false_r.
  - rewrite (testbit_above lo (i - 4 + 20)) by lia.
    assert (Z.testbit 0xfff0 i = false) as ->; [|by rewrite andb_false_r].
    destruct (Z.lt_ge_cases i 32); [|by apply testbit_above]. bits32 i; (reflexivity || lia).
Qed.

Lemma ppb_memdata_limit m lo hi : 0 <= lo < 2 ^ 32 -> 0 <= hi < 2 ^ 32 ->
  Z.land (ppb_memdata m lo hi) 0xfff00000 = Z.shiftl (Z.shiftr hi 20) 20.
Proof.
  intros Hl Hh. unfold ppb_memdata, clear, PPB_MEM_BASE_MASK, PPB_MEM_LIMIT_MASK.
  apply Z.bits_inj'. intros i Hi. rewrite !Z.land_spec, !Z.lor_spec, !Z.land_spec, !Z.lor_spec, !Z.land_spec.
  rewrite Z.shiftl_spec by lia.
  destruct (Z.lt_ge_cases i 32).
  - destruct (Z.lt_ge_cases i 20).
    + rewrite (Z.testbit_neg_r _ (i - 20)) by lia.
      assert (Z.testbit 0xfff00000 i = false) as ->; [|by rewrite andb_false_r].
      bits32 i; (reflexivity || lia).
    + rewrite (Z.shiftr_spec hi 20), Z.sub_add by lia.
      assert (Z.testbit 0xfff00000 i = true /\ Z.testbit (u32 (Z.lnot 0xffff0000)) i = false /\
        Z.testbit 0xffff0000 i = true) as (-> & -> & ->).
      { bits32 i; first [lia | repeat split; reflexivity]. }
      by rewrite ?andb_false_r, ?andb_true_r.
  - rewrite (testbit_above 0xfff00000), !andb_false_r by lia.
    rewrite (Z.shiftr_spec hi 20), Z.sub_add, testbit_above by lia. done.
Qed.

Lemma ppb_covers m lo hi a : 0 <= lo < 2 ^ 32 -> 0 <= hi < 2 ^ 32 -> lo <= a <= hi ->
  Z.shiftl (Z.land (ppb_memdata m lo hi) 0xfff0) 16 <= a /\
  a <= Z.lor (Z.land (ppb_memdata m lo hi) 0xfff00000) 0xfffff.
Proof.
  intros Hl Hh Ha. rewrite ppb_memdata_base, ppb_memdata_limit by done. split.
  - rewrite !Z.shiftl_mul_pow2, Z.shiftr_div_pow2 by lia.
    pose proof (Z.mul_div_le lo (2 ^ 20)). lia.
  - rewrite Z.shiftl_mul_pow2, lor_low, Z.shiftr_div_pow2 by lia.
    pose proof (Z.mod_pos_bound hi (2 ^ 20)). pose proof (Z.div_mod hi (2 ^ 20)). lia.
Qed.

(** ** The two spaces *)

Inductive kind : Type := Mem | Io.
Definition other (K : kind) : kind := match K with Mem => Io | Io => Mem end.

(** The range a bus records covers the window. *)
Definition covers (K : kind) (pb : pci_bus) (w : pciwin) : Prop :=
  match K with
  | Mem => b_min_mem_addr pb <= w_address w /\ w_address w + w_size w - 1 <= b_max_mem_addr pb
  | Io => b_min_io_addr pb <= w_address w /\ w_address w + w_size w - 1 <= b_max_io_addr pb
  end.
Definition grow (K : kind) : Z -> Z -> pci_bus -> pci_bus :=
  match K with Mem => grow_mem | Io => grow_io end.

(** Every placed window is covered by the entry of its bus. *)
Definition covered (K : kind) (bus : list pci_bus) (devs : list pcidev) (ws : list pciwin) : Prop :=
  Forall (fun w => placed w ->
    exists pb, bus !! Z.to_nat (dev_bus devs w) = Some pb /\ covers K pb w) ws.

Lemma grow_primary K a size pb : b_primary (grow K a size pb) = b_primary pb.
Proof. by destruct K. Qed.

Lemma grow_other K a size pb w : covers (other K) pb w -> covers (other K) (grow K a size pb) w.
Proof. by destruct K. Qed.

Lemma grow_mono K a size pb w : covers K pb w -> covers K (grow K a size pb) w.
Proof. destruct K; unfold covers, grow, grow_mem, grow_io; cbn; repeat case_match; lia. Qed.

Lemma grow_covers K a w pb : 0 <= a -> pow2 (w_size w) -> a + w_size w <= NOADDR ->
  covers K (grow K a (w_size w) pb) (set_address a w).
Proof.
  intros Ha Hp Hs. apply pow2_range in Hp.
  assert (win_last a (w_size w) = a + w_size w - 1) as Hl.
  { unfold win_last. apply u32_small. unfold NOADDR in Hs. lia. }
  destruct K; unfold covers, grow, grow_mem, grow_io; cbn; rewrite Hl; repeat case_match; lia.
Qed.

Lemma grow_ranged K a size pb :
  pow2 size -> 0 <= a -> a + size <= NOADDR -> ranged pb -> ranged (grow K a size pb).
Proof.
  intros Hp Ha Hs Hr. apply pow2_range in Hp. unfold NOADDR in Hs.
  assert (win_last a size = a + size - 1) as Hl by (apply u32_small; lia).
  destruct K; unfold ranged, grow, grow_mem, grow_io in *; cbn in *; rewrite Hl; repeat case_match; lia.
Qed.

Lemma covered_insert K bus devs ws i pb f :
  bus !! i = Some pb -> (forall w, covers K pb w -> covers K (f pb) w) ->
  covered K bus devs ws -> covered K (<[i := f pb]> bus) devs ws.
Proof.
  intros Hi Hf Hc. apply (Forall_weaken _ _ _ Hc). intros w Hw Hp. destruct (Hw Hp) as (pb' & Hb & Hcv).
  destruct (decide (i = Z.to_nat (dev_bus devs w))) as [->|].
  - exists (f pb). split; [|apply Hf; congruence]. apply list_lookup_insert_eq. by eapply lookup_lt_Some.
  - exists pb'. by rewrite list_lookup_insert_ne.
Qed.

Lemma dev_bus_pa devs devs' w :
  d_pa <$> devs = d_pa <$> devs' -> dev_bus devs w = dev_bus devs' w.
Proof.
  intros Hd. assert ((d_pa <$> devs) !! w_dev w = (d_pa <$> devs') !! w_dev w) as H by by rewrite Hd.
  rewrite !list_lookup_fmap in H. unfold dev_bus.
  destruct (devs !! w_dev w), (devs' !! w_dev w); cbn in H; congruence.
Qed.

Section Assign.
Context {B : Type} `{PB : PciBoard B} `{PD : PciDrivers B} (E : fault -> Prop) `{PS : !PciSpec B E}.

Definition klo (K : kind) : Z := match K with Mem => mem_lo | Io => io_lo end.
Definition khi (K : kind) : Z := match K with Mem => mem_hi | Io => io_hi end.
Definition knext (K : kind) (p : pci B) : Z :=
  match K with Mem => mem_next (s_board (p_sh p)) | Io => io_next (s_board (p_sh p)) end.
Definition kalloc (K : kind) : Z -> Z -> M (shared B) Z :=
  match K with Mem => pci_allocate_mem | Io => pci_allocate_io end.

Lemma kspace K : 0 < klo K <= khi K /\ khi K < NOADDR.
Proof. pose proof spaces_ok. destruct K; cbn; lia. Qed.

(** ** The state while windows are placed

    [devs] are the devices the scan found, [q] is the state at the start of the
    loop. *)
Variable devs : list pcidev.
Variable nd : nat.
Variable nb : Z.

Record core (K : kind) (q : pci B) (r : list pciwin) (p : pci B) : Prop := {
  co_board : board_ok (s_board (p_sh p));
  co_len : Z.of_nat (length (s_bus (p_sh p))) = pci_maxbus;
  co_nbus : s_nbus (p_sh p) = nb;
  co_tree : tree_ok nb (s_bus (p_sh p));
  co_ranged : Forall ranged (s_bus (p_sh p));
  co_devs : d_pa <$> p_dev p = d_pa <$> devs;
  co_cov : covered K (s_bus (p_sh p)) devs r;
  co_other : forall ws, covered (other K) (s_bus (p_sh q)) devs ws ->
               covered (other K) (s_bus (p_sh p)) devs ws;
  co_next : knext (other K) p = knext (other K) q;
  co_mem : p_memwin p = p_memwin q /\ p_nmemwin p = p_nmemwin q;
  co_io : p_iowin p = p_iowin q /\ p_niowin p = p_niowin q;
  co_nd : p_ndev p = p_ndev q
}.

(** No device has been refused. *)
Definition all_live (p : pci B) : Prop :=
  Forall (fun d => 0 <= d_nmemwin d /\ 0 <= d_niowin d) (take nd (p_dev p)).

Record inv (K : kind) (live : Prop) (q : pci B) (l1 r : list pciwin) (p : pci B) : Prop := {
  inv_core : core K q r p;
  inv_placing : placing (klo K) (khi K) (knext K p) l1 r;
  inv_live : live -> knext K p = khi K - total l1 /\ Forall placed r /\ all_live p
}.

(** A computation that leaves tables and spaces alone. *)
Definition quiet {A} (m : M (shared B) A) : Prop :=
  forall s, board_ok (s_board s) -> wp E m (fun _ => framed s) s.

Lemma framed_refl s : board_ok (s_board s) -> framed s s.
Proof. by repeat split. Qed.

Lemma framed_trans s s' s'' : framed s s' -> framed s' s'' -> framed s s''.
Proof. intros (? & ? & ? & ? & ?) (? & ? & ? & ? & ?). repeat split; congruence. Qed.

Lemma quiet_read tag reg : quiet (pci_conf_read tag reg).
Proof. intros s. apply conf_read_ok. Qed.
Lemma quiet_write tag reg v : quiet (pci_conf_write tag reg v).
Proof. intros s. apply conf_write_ok. Qed.
Lemma quiet_ret {A} (a : A) : quiet (mret a).
Proof. intros s Hs. by apply framed_refl. Qed.
Lemma quiet_when b m : quiet m -> quiet (when b m).
Proof. destruct b; [done|]. intros _. apply quiet_ret. Qed.
Lemma quiet_tagprintf tag fmt args : quiet (_pci_tagprintf tag fmt args).
Proof. intros s Hs. unfold _pci_tagprintf. by destruct (pci_break_tag tag) as [[? ?] ?]. Qed.
Lemma quiet_bdfprintf b d f fmt args : quiet (_pci_bdfprintf b d f fmt args).
Proof. by intros s Hs. Qed.
Lemma quiet_bind {A A'} (m : M (shared B) A) (k : A -> M (shared B) A') :
  quiet m -> (forall a, quiet (k a)) -> quiet (m ≫= k).
Proof.
  intros Hm Hk s Hs. apply wp_bind. eapply wp_mono; [by apply Hm|]. intros a s' Hs'.
  eapply wp_mono; [apply Hk, Hs'|]. cbn. intros _ s''. by apply framed_trans.
Qed.
Lemma quiet_gets {A} (f : shared B -> A) : quiet (gets f).
Proof. intros s Hs. by apply framed_refl. Qed.
Lemma quiet_verbose n m : quiet m -> quiet (verbose_at n m).
Proof. intros Hm. apply quiet_bind; [apply quiet_gets|]. intros. by apply quiet_when. Qed.

#[local] Hint Resolve quiet_read quiet_write quiet_ret quiet_when quiet_tagprintf quiet_bdfprintf
  quiet_gets quiet_verbose : quiet.

Lemma core_sh {A} (m : M (shared B) A) K q r p a :
  quiet m -> core K q r p -> knext K p = a ->
  wp E (sh m) (fun _ p' => core K q r p' /\ knext K p' = a /\ p_dev p' = p_dev p) p.
Proof.
  intros Hm [Hb ? ? ? ? ? ? ? Hn ? ? ?] Ha. apply wp_sh. eapply wp_mono; [by apply Hm|]. cbn.
  intros _ x (Hbx & Hbus & Hnb & Hmn & Hin). split; [|split; [by destruct K; cbn in *; congruence|done]].
  split; cbn; rewrite ?Hbus, ?Hnb; try done. destruct K; cbn in *; congruence.
Qed.

(** The allocator of a space. *)
Lemma core_alloc tag size K q r p :
  core K q r p -> pow2 size -> klo K <= knext K p <= khi K ->
  wp E (sh (kalloc K tag size)) (fun a p' =>
    core K q r p' /\ p_dev p' = p_dev p /\ alloc_ok (klo K) (knext K p) size a (knext K p')) p.
Proof.
  intros [Hb ? ? ? ? ? ? ? Hn ? ? ?] Hp Hk. apply wp_sh.
  destruct K; cbn in *.
  - eapply wp_mono; [by apply allocate_mem_ok|]. cbn.
    intros a x (Ha & Hbx & Hbus & Hnb & Hio). split; [|done].
    split; cbn; rewrite ?Hbus, ?Hnb; first [done|congruence].
  - eapply wp_mono; [by apply allocate_io_ok|]. cbn.
    intros a x (Ha & Hbx & Hbus & Hnb & Hio). split; [|done].
    split; cbn; rewrite ?Hbus, ?Hnb; first [done|congruence].
Qed.

Hypothesis Hnb : 1 <= nb <= pci_maxbus.
Hypothesis Hdevs : Forall (dev_ok nb) (take nd devs).
Hypothesis Hnd : (nd <= length devs)%nat.

(** ** One window *)

Lemma core_dev K q r p w : core K q r p -> (w_dev w < nd)%nat ->
  exists d, p_dev p !! w_dev w = Some d /\ pa_bus (d_pa d) = dev_bus devs w /\
    0 <= dev_bus devs w < nb.
Proof.
  intros Hc Hw. destruct (lookup_lt_is_Some_2 devs (w_dev w)) as [d0 Hd0]; [lia|].
  assert (dev_bus devs w = pa_bus (d_pa d0)) as Hb by (unfold dev_bus; by rewrite Hd0).
  assert (dev_ok nb d0) as Hok.
  { apply (Forall_lookup_1 _ _ (w_dev w) _ Hdevs). by rewrite lookup_take_lt. }
  assert ((d_pa <$> p_dev p) !! w_dev w = (d_pa <$> devs) !! w_dev w) as H by by rewrite (co_devs _ _ _ _ Hc).
  rewrite !list_lookup_fmap, Hd0 in H. destruct (p_dev p !! w_dev w) as [d|]; [|done].
  exists d. split; [done|]. cbn in H. injection H as ->. rewrite Hb. split; [done|]. apply Hok.
Qed.

Lemma core_not K q r p w : core K q r p -> ~ placed w -> core K q (r ++ [w]) p.
Proof. intros [] Hw. split; try done. apply Forall_app. split; [done|]. by constructor. Qed.

Lemma core_grow K q r p w a n :
  core K q r p -> knext K p = n -> 0 <= dev_bus devs w < nb -> pow2 (w_size w) -> 0 <= a ->
  a + w_size w <= NOADDR ->
  wp E (sh (mod_bus (dev_bus devs w) (grow K a (w_size w)))) (fun _ p' =>
    core K q (r ++ [set_address a w]) p' /\ knext K p' = n /\ p_dev p' = p_dev p) p.
Proof.
  intros [Hb Hl Hn Ht Hg Hd Hc Ho Hnx ? ? ?] Hk Hbus Hp Ha Hs. apply wp_sh.
  destruct (lookup_lt_is_Some_2 (s_bus (p_sh p)) (Z.to_nat (dev_bus devs w))) as [pb Hpb]; [lia|].
  unfold mod_bus, the_bus. wps. destruct (Z.ltb_spec (dev_bus devs w) 0); [lia|].
  eapply wp_need; [done|]. apply wp_modify. split; [|by destruct K].
  split; cbn; try done.
  - by rewrite length_insert.
  - intros j b Hj Hjn. rewrite list_lookup_insert_Some. intros [(<- & <- & _)|(_ & Hjb)].
    + rewrite grow_primary. by apply (Ht _ pb).
    + by apply (Ht j b).
  - apply Forall_insert; [done|]. apply grow_ranged; [done|done|done|].
    by apply (Forall_lookup_1 _ _ _ _ Hg Hpb).
  - apply Forall_app. split; [apply covered_insert; [done|apply grow_mono|done]|].
    constructor; [|done]. intros _. exists (grow K a (w_size w) pb).
    split; [|by apply grow_covers]. apply list_lookup_insert_eq. by eapply lookup_lt_Some.
  - intros ws Hws. apply covered_insert; [done|apply grow_other|]. by apply Ho.
Qed.

Lemma set_address_id w : set_address (w_address w) w = w.
Proof. by destruct w. Qed.

Lemma inv_skip K live q l1 r p w :
  w_address w = 0 -> ~ live -> inv K live q l1 r p -> inv K live q (l1 ++ [w]) (r ++ [w]) p.
Proof.
  intros Hw Hl [Hc Hp _]. split; [|rewrite <- (set_address_id w) at 2; apply placing_not; auto|done].
  apply core_not; [done|]. unfold placed. tauto.
Qed.

(** A refused window: its device gets no more windows. *)
Lemma core_refuse K q r p w :
  core K q r p -> (w_dev w < nd)%nat ->
  wp E (mod_dev (w_dev w) no_windows) (fun _ p' =>
    core K q (r ++ [set_address NOADDR w]) p' /\ knext K p' = knext K p) p.
Proof.
  intros Hc Hw. destruct (core_dev _ _ _ _ _ Hc Hw) as (d & Hd & _ & _).
  unfold mod_dev. wps. eapply wp_need; [done|]. apply wp_modify. split; [|by destruct K].
  apply core_not; [|by intros [_ []]]. destruct Hc. split; cbn; try done.
  rewrite list_fmap_insert, list_insert_id; [done|]. by rewrite list_lookup_fmap, Hd.
Qed.

Lemma live_alloc (live : Prop) K q l1 x l2 r p :
  inv K live q l1 r p -> (live -> fits (klo K) (khi K) (l1 ++ x :: l2)) -> live ->
  klo K <= knext K p - w_size x /\ (w_size x | knext K p).
Proof.
  intros Hi Hf Hl. destruct (inv_live _ _ _ _ _ _ Hi Hl) as (-> & _). by eapply fits_next, Hf.
Qed.

Lemma inv_refused (live : Prop) K q l1 x r p p' :
  inv K live q l1 r p -> ~ live -> core K q (r ++ [set_address NOADDR x]) p' -> knext K p' = knext K p ->
  inv K live q (l1 ++ [x]) (r ++ [set_address NOADDR x]) p'.
Proof. intros Hi Hl Hc Hn. split; [done| |done]. rewrite Hn. apply placing_not; [apply Hi|by right]. Qed.

Lemma inv_placed (live : Prop) K q l1 x l2 r p p' a :
  inv K live q l1 r p -> (live -> fits (klo K) (khi K) (l1 ++ x :: l2)) ->
  pow2 (w_size x) -> klo K <= a -> a + w_size x <= knext K p -> (w_size x | a) ->
  ((w_size x | knext K p) -> a = knext K p - w_size x) ->
  core K q (r ++ [set_address a x]) p' -> knext K p' = a -> p_dev p' = p_dev p ->
  inv K live q (l1 ++ [x]) (r ++ [set_address a x]) p'.
Proof.
  intros Hi Hf Hp Hlo Hnx Hd Hex Hc Hn Hdv. pose proof (kspace K). apply pow2_range in Hp.
  pose proof (pl_next _ _ _ _ _ (inv_placing _ _ _ _ _ _ Hi)).
  split; [done| |].
  - rewrite Hn. apply (placing_take _ _ (knext K p)); [apply Hi|lia|lia|lia|done].
  - intros Hl. destruct (inv_live _ _ _ _ _ _ Hi Hl) as (Hk & Hpl & Hal).
    destruct (live_alloc _ _ _ _ _ _ _ _ Hi Hf Hl) as [_ Hdv'].
    split; [|split; [|by unfold all_live; rewrite Hdv]].
    + rewrite Hn, wins_total_app, (Hex Hdv'), Hk. unfold total. cbn. lia.
    + apply Forall_app. split; [done|]. constructor; [|done]. unfold placed, NOADDR in *. cbn. lia.
Qed.

Lemma live_dev p k d : all_live p -> (k < nd)%nat -> p_dev p !! k = Some d ->
  0 <= d_nmemwin d /\ 0 <= d_niowin d.
Proof. intros Ha Hk Hd. apply (Forall_lookup_1 _ _ k _ Ha). by rewrite lookup_take_lt. Qed.

(** A call into the board while a window is placed. *)
Tactic Notation "astep" "as" ident(x) ident(p) ident(H) ident(Hn) ident(Hd) :=
  wps; eapply wp_mono; [apply core_sh; [auto with quiet|done|done]|]; cbn beta; intros x p (H & Hn & Hd).

Lemma setup_memwin_ok (live : Prop) q l1 x l2 r p :
  win_ok nd x -> w_address x = 0 -> (live -> fits mem_lo mem_hi (l1 ++ x :: l2)) ->
  inv Mem live q l1 r p ->
  wp E (setup_memwin x) (fun y => inv Mem live q (l1 ++ [x]) (r ++ [y])) p.
Proof.
  intros [Hw _ Hp] Ha Hf Hi. pose proof (inv_core _ _ _ _ _ _ Hi) as Hc.
  pose proof (pl_next _ _ _ _ _ (inv_placing _ _ _ _ _ _ Hi)) as Hnx. pose proof (kspace Mem) as Hsp.
  destruct (core_dev _ _ _ _ _ Hc Hw) as (d & Hd & Hbus & Hbr).
  unfold setup_memwin, the_dev. wps. eapply wp_need; [done|].
  destruct (Z.ltb_spec (d_nmemwin d) 0).
  { apply wp_ret. apply inv_skip; [done| |done]. intros Hl.
    destruct (live_dev p _ _ (proj2 (proj2 (inv_live _ _ _ _ _ _ Hi Hl))) Hw Hd). lia. }
  destruct (Z.eqb_spec (w_size x) 0); [apply pow2_range in Hp; lia|]. cbn [orb]. wps.
  eapply wp_mono; [by apply (core_alloc _ _ Mem)|]. cbn beta. intros a p1 (H1 & Hd1 & [(-> & Hn1 & Hno)|Hyes]).
  { cbn [Z.eqb]. rewrite Z.eqb_refl. astep as u p2 H2 Hn2 Hd2. wps.
    eapply wp_mono; [by apply core_refuse|]. cbn beta. intros _ p3 [H3 Hn3]. apply wp_ret.
    apply (inv_refused _ _ _ _ _ _ p); [done| |done|congruence]. intros Hl. apply Hno.
    by apply (live_alloc _ Mem _ _ _ _ _ _ Hi Hf). }
  destruct Hyes as (Hlo & Htop & Hdiv & Hn1 & Hex). pose proof (pow2_range _ Hp).
  destruct (Z.eqb_spec a NOADDR); [lia|]. astep as u p2 H2 Hn2 Hd2. wps. rewrite Hbus.
  change (grow_mem a (w_size (set_address a x))) with (grow Mem a (w_size x)).
  eapply wp_mono; [apply (core_grow Mem); [done|exact Hn2|done|done|cbn in *; lia|cbn in *; lia]|].
  cbn beta. intros _ p3 (H3 & Hn3 & Hd3). wps.
  assert (wp E (if negb (w_reg x =? PCI_MAP_REG_ROM) then
       sh (pci_conf_read (pa_tag (d_pa d)) (w_reg x)) ≫= fun base =>
       sh (pci_conf_write (pa_tag (d_pa d)) (w_reg x) (Z.lor a (clear base PCI_MAP_MEMORY_ADDRESS_MASK)))
     else mret tt) (fun _ p' => core Mem q (r ++ [set_address a x]) p' /\ knext Mem p' = a /\
       p_dev p' = p_dev p) p3) as Hwr.
  { destruct (negb _); [|apply wp_ret; by split; [|split; congruence]].
    astep as base p4 H4 Hn4 Hd4. astep as u2 p5 H5 Hn5 Hd5. by split; [|split; congruence]. }
  eapply wp_mono; [exact Hwr|]. cbn beta. intros _ p4 (H4 & Hn4 & Hd4). apply wp_ret.
  eapply (inv_placed _ Mem _ _ _ l2 _ p); try done.
Qed.

Lemma setup_iowin_ok (live : Prop) q l1 x l2 r p :
  win_ok nd x -> w_address x = 0 -> (live -> fits io_lo io_hi (l1 ++ x :: l2)) ->
  inv Io live q l1 r p ->
  wp E (setup_iowin x) (fun y => inv Io live q (l1 ++ [x]) (r ++ [y])) p.
Proof.
  intros [Hw _ Hp] Ha Hf Hi. pose proof (inv_core _ _ _ _ _ _ Hi) as Hc.
  pose proof (pl_next _ _ _ _ _ (inv_placing _ _ _ _ _ _ Hi)) as Hnx. pose proof (kspace Io) as Hsp.
  destruct (core_dev _ _ _ _ _ Hc Hw) as (d & Hd & Hbus & Hbr).
  unfold setup_iowin, the_dev. wps. eapply wp_need; [done|].
  destruct (Z.ltb_spec (d_niowin d) 0).
  { apply wp_ret. apply inv_skip; [done| |done]. intros Hl.
    destruct (live_dev p _ _ (proj2 (proj2 (inv_live _ _ _ _ _ _ Hi Hl))) Hw Hd). lia. }
  destruct (Z.eqb_spec (w_size x) 0); [apply pow2_range in Hp; lia|]. cbn [orb]. wps.
  eapply wp_mono; [by apply (core_alloc _ _ Io)|]. cbn beta. intros a p1 (H1 & Hd1 & [(-> & Hn1 & Hno)|Hyes]).
  { rewrite Z.eqb_refl. astep as u p2 H2 Hn2 Hd2. wps.
    eapply wp_mono; [by apply core_refuse|]. cbn beta. intros _ p3 [H3 Hn3]. apply wp_ret.
    apply (inv_refused _ _ _ _ _ _ p); [done| |done|congruence]. intros Hl. apply Hno.
    by apply (live_alloc _ Io _ _ _ _ _ _ Hi Hf). }
  destruct Hyes as (Hlo & Htop & Hdiv & Hn1 & Hex). pose proof (pow2_range _ Hp).
  destruct (Z.eqb_spec a NOADDR); [lia|]. wps. rewrite Hbus.
  change (grow_io a (w_size (set_address a x))) with (grow Io a (w_size x)).
  eapply wp_mono; [apply (core_grow Io); [done|exact Hn1|done|done|cbn in *; lia|cbn in *; lia]|].
  cbn beta. intros _ p3 (H3 & Hn3 & Hd3). astep as u p4 H4 Hn4 Hd4. astep as base p5 H5 Hn5 Hd5.
  astep as u2 p6 H6 Hn6 Hd6. apply wp_ret.
  eapply (inv_placed _ Io _ _ _ l2 _ p); try done; congruence.
Qed.

(** ** The loops over the windows *)

Definition setup_win (K : kind) : pciwin -> M (pci B) pciwin :=
  match K with Mem => setup_memwin | Io => setup_iowin end.

Lemma setup_win_loop K (live : Prop) q l p :
  Forall (win_ok nd) l -> Forall (fun w => w_address w = 0) l ->
  (live -> fits (klo K) (khi K) l) -> inv K live q [] [] p ->
  wp E (map_each l (setup_win K)) (fun r => inv K live q l r) p.
Proof.
  intros Hw Ha Hf Hi. apply (wp_map_each E (fun l1 r => inv K live q l1 r) l); [|done|done].
  intros l1 x l2 r s Hl Hs.
  assert (x ∈ l) as Hx by (rewrite Hl; apply elem_of_app; right; apply list_elem_of_here).
  apply (Forall_elem _ _ _ Hw) in Hx as Hwx. apply (Forall_elem _ _ _ Ha) in Hx.
  rewrite Hl in Hf. destruct K; [by eapply setup_memwin_ok|by eapply setup_iowin_ok].
Qed.

(** The windows of a space: those of the table before sorting. *)
Definition room (K : kind) (l : list pciwin) : Prop :=
  total l <= khi K - klo K /\ Forall (fun w => (w_size w | khi K)) l.

(** Sorted windows on one bus come in the order of their sizes. *)
Lemma sorted_fits K l l' ds :
  nb = 1 -> d_pa <$> ds = d_pa <$> devs -> Forall (win_ok nd) l -> room K l -> l ≡ₚ l' ->
  StronglySorted (fun x y => wincompare ds x y <= 0) l' -> fits (klo K) (khi K) l'.
Proof.
  intros H1 Hds Hw [Ht Hd] Hp Hs. pose proof maxbus_ok.
  assert (Forall (win_ok nd) l') as Hw' by by rewrite <- Hp.
  split; [by rewrite <- (total_perm _ _ Hp)| |by rewrite <- Hp|].
  - apply (Forall_weaken _ _ _ Hw'). by intros w [].
  - assert (forall w, win_ok nd w -> dev_bus ds w = 0) as Hz.
    { intros w [Hwd _ _]. rewrite (dev_bus_pa _ _ w Hds). unfold dev_bus.
      destruct (lookup_lt_is_Some_2 devs (w_dev w)) as [d Hdw]; [lia|]. rewrite Hdw.
      assert (dev_ok nb d) as [? ? ? ?]; [|lia].
      apply (Forall_lookup_1 _ _ (w_dev w) _ Hdevs). by rewrite lookup_take_lt. }
    clear -Hs Hw' Hz. induction Hs as [|x l' _ IH Hx]; constructor.
    + apply IH. by apply Forall_cons_iff in Hw' as [_ ?].
    + apply Forall_cons_iff in Hw' as [Hx1 Hw']. rewrite List.Forall_forall in Hx, Hw' |- *.
      intros y Hy. pose proof (Hw' y Hy) as Hy1. pose proof (Hx y Hy) as Hle.
      assert (sortable ds x /\ sortable ds y) as [Sx Sy].
      { split; split; (by apply Hx1 || by apply Hy1 || rewrite Hz; (done || lia)). }
      rewrite wincompare_exact, !Hz, Z.eqb_refl in Hle by done.
      apply pow2_divide; [apply Hy1|apply Hx1|lia].
Qed.

(** ** The tables after the loops *)

Record base (p : pci B) : Prop := {
  ba_board : board_ok (s_board (p_sh p));
  ba_len : Z.of_nat (length (s_bus (p_sh p))) = pci_maxbus;
  ba_nbus : s_nbus (p_sh p) = nb;
  ba_tree : tree_ok nb (s_bus (p_sh p));
  ba_ranged : Forall ranged (s_bus (p_sh p));
  ba_devs : d_pa <$> p_dev p = d_pa <$> devs
}.

Lemma base_core K p : base p -> core K p [] p.
Proof. intros []. split; try done; constructor. Qed.

Lemma core_base K q r p : core K q r p -> base p.
Proof. intros []. by split. Qed.

(** The entries [ws] of a table, once [l0] before the loop. *)
Record done_with (K : kind) (live : Prop) (l0 ws : list pciwin) (p : pci B) : Prop := {
  dn_ident : ident <$> ws ≡ₚ ident <$> l0;
  dn_in : Forall (fun w => placed w -> in_space (klo K) (khi K) w) ws;
  dn_below : ForallOrdPairs below ws;
  dn_cov : covered K (s_bus (p_sh p)) devs ws;
  dn_live : live -> Forall placed ws
}.

Lemma inv_done K (live : Prop) q l0 l r p :
  inv K live q l r p -> l0 ≡ₚ l -> done_with K live l0 r p.
Proof.
  intros [Hc [Hi Hn Ha Hb] Hl] Hp. split; [by rewrite Hi, Hp| |done|apply Hc|].
  - apply (Forall_weaken _ _ _ Ha). intros w Hw Hpl. destruct (Hw Hpl). split; (done || lia).
  - intros Hlive. apply (Hl Hlive).
Qed.

Lemma win_inv_start K (live : Prop) p :
  base p -> knext K p = khi K -> (live -> all_live p) -> inv K live p [] [] p.
Proof.
  intros Hb Hk Hl. pose proof (kspace K). split; [by apply base_core| |].
  - split; [done|lia|constructor|constructor].
  - intros Hlive. split; [rewrite Hk; cbn; lia|]. split; [constructor|auto].
Qed.

(** A sorted table of windows. *)
Lemma sorted_table K (live : Prop) p l n :
  base p -> (n <= length l)%nat -> Forall (win_ok nd) (take n l) ->
  (live -> nb = 1 /\ room K (take n l)) ->
  exists l', sort_wins (p_dev p) l n = Some (l' ++ drop n l) /\ take n l ≡ₚ l' /\
    length l' = n /\ (live -> fits (klo K) (khi K) l').
Proof.
  intros Hb Hn Hw Hroom. pose proof maxbus_ok.
  destruct (sort_wins_ok (p_dev p) l n) as (l' & -> & Hp & Hs).
  { apply (Forall_weaken _ _ _ Hw). intros w [Hwd _ Hpw]. split; [done|].
    destruct (core_dev Mem _ _ _ w (base_core Mem p Hb) Hwd) as (d & _ & _ & Hr).
    rewrite (dev_bus_pa _ _ w (ba_devs _ Hb)). lia. }
  exists l'. split; [done|]. split; [done|]. split.
  - rewrite <- (Permutation_length Hp), length_take. lia.
  - intros Hl. destruct (Hroom Hl) as [H1 Hr]. apply (sorted_fits K (take n l) l' (p_dev p)); (done || apply Hb).
Qed.

Lemma setup_iowins_ok (live : Prop) p :
  base p -> knext Io p = io_hi -> (p_niowin p <= length (p_iowin p))%nat ->
  Forall (win_ok nd) (take (p_niowin p) (p_iowin p)) ->
  Forall (fun w => w_address w = 0) (take (p_niowin p) (p_iowin p)) ->
  (live -> nb = 1 /\ room Io (take (p_niowin p) (p_iowin p)) /\ all_live p) ->
  wp E _pci_setup_iowins (fun _ p' =>
    base p' /\ (live -> all_live p') /\
    done_with Io live (take (p_niowin p) (p_iowin p)) (take (p_niowin p') (p_iowin p')) p' /\
    knext Mem p' = knext Mem p /\ p_memwin p' = p_memwin p /\ p_nmemwin p' = p_nmemwin p) p.
Proof.
  intros Hb Hk Hn Hw Ha Hl. unfold _pci_setup_iowins. wps.
  destruct (sorted_table Io live p (p_iowin p) (p_niowin p)) as (l' & -> & Hp & Hlen & Hf);
    [done|done|done|by intros [? [? ?]]%Hl|].
  wps. rewrite take_app_length', drop_app_length' by done.
  eapply wp_mono; [apply (setup_win_loop Io live p l')|].
  { by rewrite <- Hp. } { by rewrite <- Hp. } { done. }
  { apply win_inv_start; [done|done|]. by intros [? [? ?]]%Hl. }
  cbn beta. intros r p' Hi. apply wp_modify. pose proof (inv_core _ _ _ _ _ _ Hi) as Hc. cbn.
  assert (length r = p_niowin p) as Hr.
  { rewrite <- Hlen, <- (length_fmap ident r), (pl_ident _ _ _ _ _ (inv_placing _ _ _ _ _ _ Hi)).
    by rewrite length_fmap. }
  rewrite take_app_length' by done. destruct Hc as [? ? ? ? ? ? ? ? Hn' [? ?] ? ?] eqn:EHc.
  split; [by split|]. split; [intros Hlive; apply (inv_live _ _ _ _ _ _ Hi Hlive)|].
  split; [|done]. destruct (inv_done _ _ _ _ _ _ _ Hi Hp). by split.
Qed.

Lemma setup_rom_ok w q r p :
  (w_dev w < nd)%nat -> core Mem q r p ->
  wp E (setup_rom w) (fun _ p' => core Mem q r p' /\ p_dev p' = p_dev p) p.
Proof.
  intros Hw Hc. destruct (core_dev _ _ _ _ _ Hc Hw) as (d & Hd & _).
  unfold setup_rom. destruct (_ && _); [|by apply wp_ret]. unfold the_dev. wps.
  eapply wp_need; [done|]. astep as u p1 H1 Hn1 Hd1. done.
Qed.

Lemma setup_memwins_ok (live : Prop) p lio wio :
  base p -> knext Mem p = mem_hi -> (p_nmemwin p <= length (p_memwin p))%nat ->
  Forall (win_ok nd) (take (p_nmemwin p) (p_memwin p)) ->
  Forall (fun w => w_address w = 0) (take (p_nmemwin p) (p_memwin p)) ->
  (live -> nb = 1 /\ room Mem (take (p_nmemwin p) (p_memwin p)) /\ all_live p) ->
  done_with Io live lio wio p ->
  wp E _pci_setup_memwins (fun _ p' =>
    base p' /\ (live -> all_live p') /\
    done_with Mem live (take (p_nmemwin p) (p_memwin p)) (take (p_nmemwin p') (p_memwin p')) p' /\
    done_with Io live lio wio p' /\ p_iowin p' = p_iowin p /\ p_niowin p' = p_niowin p) p.
Proof.
  intros Hb Hk Hn Hw Ha Hl Hio. unfold _pci_setup_memwins. wps.
  destruct (sorted_table Mem live p (p_memwin p) (p_nmemwin p)) as (l' & -> & Hp & Hlen & Hf);
    [done|done|done|by intros [? [? ?]]%Hl|].
  wps. rewrite take_app_length', drop_app_length' by done.
  eapply wp_mono; [apply (setup_win_loop Mem live p l')|].
  { by rewrite <- Hp. } { by rewrite <- Hp. } { done. }
  { apply win_inv_start; [done|done|]. by intros [? [? ?]]%Hl. }
  cbn beta. intros r p' Hi. wps. pose proof (inv_core _ _ _ _ _ _ Hi) as Hc.
  pose proof (pl_ident _ _ _ _ _ (inv_placing _ _ _ _ _ _ Hi)) as Hid.
  assert (length r = p_nmemwin p) as Hr
    by (rewrite <- Hlen, <- (length_fmap ident r), Hid; by rewrite length_fmap).
  set (p1 := with_memwin _ _ p').
  assert (core Mem p1 r p1) as H1 by (destruct Hc; by split).
  eapply wp_mono.
  { apply (wp_for_each E (fun _ s => core Mem p1 r s /\ p_dev s = p_dev p1)); [|done].
    intros l1 x l2 s Hx [Hs Hds]. eapply wp_mono; [apply setup_rom_ok; [|done]|].
    - assert (ident x ∈ ident <$> l') as Hx'.
      { rewrite <- Hid. apply list_elem_of_fmap. exists x. split; [done|].
        rewrite Hx. apply elem_of_app. right. apply list_elem_of_here. }
      apply list_elem_of_fmap in Hx' as (y & Hxy & Hy). injection Hxy as -> _ _.
      rewrite <- Hp in Hy. apply (Forall_elem _ _ _ Hw) in Hy. apply Hy.
    - cbn beta. intros _ s' [? ?]. split; [done|congruence]. }
  cbn beta. intros _ p2 [H2 Hd2].
  assert (done_with Mem live (take (p_nmemwin p) (p_memwin p)) r p2) as Hdone.
  { destruct (inv_done _ _ _ _ _ _ _ Hi Hp). split; try done. apply H2. }
  destruct (co_mem _ _ _ _ H2) as [Em En]. destruct (co_io _ _ _ _ H2) as [Ei Eni].
  rewrite Em, En, Ei, Eni. cbn. rewrite take_app_length' by done.
  split; [by eapply core_base|]. split.
  { intros Hlive. unfold all_live. rewrite Hd2. apply (inv_live _ _ _ _ _ _ Hi Hlive). }
  split; [done|]. split; [|apply Hc]. destruct Hio. split; try done.
  apply (co_other _ _ _ _ H2). by apply (co_other _ _ _ _ Hc).
Qed.

(** ** Opening the bridges *)

Lemma widen_primary psec pb : b_primary (widen psec pb) = b_primary pb.
Proof. done. Qed.

Lemma widen_covers K psec pb w : covers K pb w -> covers K (widen psec pb) w.
Proof. destruct K; cbn; lia. Qed.

Lemma widen_ranged psec pb : ranged psec -> ranged pb -> ranged (widen psec pb).
Proof. unfold ranged. cbn. lia. Qed.

(** The range of a bus lies within that of the bus it hangs on. *)
Definition within (pb pp : pci_bus) : Prop :=
  b_min_mem_addr pp <= b_min_mem_addr pb /\ b_max_mem_addr pb <= b_max_mem_addr pp /\
  b_min_io_addr pp <= b_min_io_addr pb /\ b_max_io_addr pb <= b_max_io_addr pp.

Definition nested (l : list pci_bus) (k : nat) : Prop :=
  forall pb pp, l !! k = Some pb -> l !! Z.to_nat (b_primary pb) = Some pp -> within pb pp.

Lemma nested_widen l i psec pp k :
  l !! i = Some psec -> l !! Z.to_nat (b_primary psec) = Some pp ->
  (Z.to_nat (b_primary psec) < i <= k)%nat -> (i < k -> nested l k)%nat ->
  nested (<[Z.to_nat (b_primary psec) := widen psec pp]> l) k.
Proof.
  intros Hi Hp Hlt Hn pb pp' Hk Hpp. set (j := Z.to_nat (b_primary psec)) in *.
  rewrite list_lookup_insert_ne in Hk by lia.
  destruct (decide (j = Z.to_nat (b_primary pb))) as [Hj|Hj].
  - rewrite <- Hj, list_lookup_insert_eq in Hpp by (by eapply lookup_lt_Some). injection Hpp as <-.
    destruct (decide (i = k)) as [->|]; [rewrite Hi in Hk; injection Hk as <-; unfold within; cbn; lia|].
    specialize (Hn ltac:(lia) pb pp Hk ltac:(by rewrite <- Hj)). unfold within in *. cbn. lia.
  - rewrite list_lookup_insert_ne in Hpp by done.
    destruct (decide (i = k)) as [->|]; [by rewrite Hi in Hk; injection Hk as <-|].
    by apply (Hn ltac:(lia)).
Qed.

(** The tables with the ranges of the buses from [n] on nested. *)
Record widened (n : nat) (q : pci B) (s : shared B) : Prop := {
  wd_base : base (with_sh s q);
  wd_cov : forall K ws, covered K (s_bus (p_sh q)) devs ws -> covered K (s_bus s) devs ws;
  wd_nested : forall k, (n <= k)%nat -> Z.of_nat k < nb -> nested (s_bus s) k
}.

Lemma the_bus_ok i (s : shared B) Q :
  0 <= i < Z.of_nat (length (s_bus s)) ->
  (forall pb, s_bus s !! Z.to_nat i = Some pb -> Q pb s) -> wp E (the_bus i) Q s.
Proof.
  intros Hi HQ. unfold the_bus. wps. destruct (Z.ltb_spec i 0); [lia|].
  destruct (lookup_lt_is_Some_2 (s_bus s) (Z.to_nat i)) as [pb Hpb]; [lia|].
  eapply wp_need; [done|]. by apply HQ.
Qed.

Lemma widen_step q i s :
  1 <= i < nb -> widened (S (Z.to_nat i)) q s ->
  wp E (the_bus i ≫= fun psec => mod_bus (b_primary psec) (widen psec))
    (fun _ => widened (Z.to_nat i) q) s.
Proof.
  intros Hi [[Hb Hl Hn Ht Hg Hd] Hc Hns]. cbn in *. wps. apply the_bus_ok; [lia|]. intros psec Hps.
  pose proof (Ht (Z.to_nat i) psec ltac:(lia) ltac:(lia) Hps) as Hpr. unfold mod_bus. wps.
  apply the_bus_ok; [lia|]. intros pp Hpp. apply wp_modify. split; cbn.
  - split; cbn; try done; [by rewrite length_insert| |].
    2: { apply Forall_insert; [done|]. apply widen_ranged;
         [by apply (Forall_lookup_1 _ _ _ _ Hg Hps)|by apply (Forall_lookup_1 _ _ _ _ Hg Hpp)]. }
    intros j b Hj Hjn. rewrite list_lookup_insert_Some. intros [(<- & <- & _)|(_ & Hjb)].
    + rewrite widen_primary. by apply (Ht _ pp).
    + by apply (Ht j b).
  - intros K ws Hws. apply covered_insert; [done|intros w; apply widen_covers|]. by apply Hc.
  - intros k Hk Hkn. apply (nested_widen _ (Z.to_nat i)); [done|done|lia|]. intros Hik. apply Hns; lia.
Qed.

Lemma sec_buses_at l1 x l2 :
  reverse (sec_buses nb) = l1 ++ x :: l2 -> x = nb - 1 - Z.of_nat (length l1) /\ 1 <= x < nb.
Proof.
  intros Hl. assert (reverse (sec_buses nb) !! length l1 = Some x) as Hx
    by (rewrite Hl; by apply list_lookup_middle).
  assert (length l1 < Z.to_nat nb - 1)%nat as Hlt.
  { apply lookup_lt_Some in Hx. unfold sec_buses in Hx.
    rewrite length_reverse, length_fmap, length_seq in Hx. lia. }
  rewrite reverse_lookup in Hx by (unfold sec_buses; rewrite length_fmap, length_seq; lia).
  unfold sec_buses in Hx. rewrite length_fmap, length_seq, list_lookup_fmap in Hx.
  destruct (seq 1 _ !! _) as [j|] eqn:Hj; [|done]. injection Hx as <-.
  apply lookup_seq in Hj as [-> _]. lia.
Qed.

Lemma widen_primaries_ok q :
  base q -> wp E widen_primaries (fun _ => widened 1 q) (p_sh q).
Proof.
  intros Hb. unfold widen_primaries. wps. rewrite (ba_nbus _ Hb). eapply wp_mono.
  { apply (wp_for_each E (fun l1 => widened (Z.to_nat nb - length l1) q)).
    - intros l1 x l2 s Hl Hs. destruct (sec_buses_at _ _ _ Hl) as [Hx Hr].
      eapply wp_mono; [apply (widen_step q x s Hr)|].
      + by replace (S (Z.to_nat x)) with (Z.to_nat nb - length l1)%nat by lia.
      + intros u s'. rewrite length_app. cbn [length].
        by replace (Z.to_nat nb - (length l1 + 1))%nat with (Z.to_nat x) by lia.
    - split; [by destruct q, Hb|done|]. cbn. intros k Hk Hk'. lia. }
  cbn beta. intros u s. rewrite length_reverse. unfold sec_buses. rewrite length_fmap, length_seq.
  by replace (Z.to_nat nb - (Z.to_nat nb - 1))%nat with 1%nat by lia.
Qed.

Lemma open_bridge_quiet i s :
  board_ok (s_board s) -> 0 <= i < Z.of_nat (length (s_bus s)) -> wp E (open_bridge i) (fun _ => framed s) s.
Proof.
  intros Hb Hi. unfold open_bridge. wps. apply the_bus_ok; [done|]. intros pb _.
  enough (quiet (pci_conf_read (b_tag pb) PCI_COMMAND_STATUS_REG ≫= fun cmd =>
    verbose_at 2 (_pci_bdfprintf i (-1) (-1) "subordinate to bus %d\n" [AInt (b_primary pb)]) ≫= fun _ =>
    open_io i cmd pb ≫= fun cmd => open_mem i cmd pb ≫= fun cmd =>
    pci_conf_write (b_tag pb) PCI_COMMAND_STATUS_REG cmd)) as Hq by by apply Hq.
  apply quiet_bind; [auto with quiet|]. intros cmd. apply quiet_bind; [auto with quiet|]. intros _.
  apply quiet_bind.
  { unfold open_io. destruct (_ <? _); [|apply quiet_ret].
    repeat (apply quiet_bind; [auto with quiet|intros ?]). apply quiet_ret. }
  intros cmd'. apply quiet_bind; [|auto with quiet].
  unfold open_mem. destruct (_ <? _); [|apply quiet_ret].
  repeat (apply quiet_bind; [auto with quiet|intros ?]). apply quiet_ret.
Qed.

Lemma framed_widened n q s s' : widened n q s -> framed s s' -> widened n q s'.
Proof.
  intros [[Hb Hl Hn Ht Hg Hd] Hc Hns] (Hb' & Hbus & Hnb' & _). cbn in *.
  split; rewrite ?Hbus; try done. split; cbn; rewrite ?Hbus, ?Hnb'; done.
Qed.

Lemma print_bus0_quiet s :
  board_ok (s_board s) -> 0 < Z.of_nat (length (s_bus s)) -> wp E print_bus0 (fun _ => framed s) s.
Proof.
  intros Hb Hl. unfold print_bus0. wps. apply the_bus_ok; [lia|]. intros pb _.
  apply (quiet_bind _ (fun _ => _)); auto with quiet.
Qed.

Lemma setup_ppb_ok q :
  base q -> wp E _pci_setup_ppb (fun _ => widened 1 q) (p_sh q).
Proof.
  intros Hb. unfold _pci_setup_ppb. wps. eapply wp_mono; [by apply widen_primaries_ok|].
  cbn beta. intros _ s1 H1. unfold verbose_at. wps.
  assert (forall s, widened 1 q s -> board_ok (s_board s) /\ Z.of_nat (length (s_bus s)) = pci_maxbus) as Hsz
    by (intros s [[] _ _]; done).
  eapply (wp_mono _ _ (fun _ => widened 1 q)).
  { apply wp_when; [|done]. intros _. destruct (Hsz _ H1). eapply wp_mono; [apply print_bus0_quiet; [done|lia]|].
    cbn beta. intros _ s. by apply framed_widened. }
  cbn beta. intros _ s2 H2. wps.
  assert (s_nbus s2 = nb) as -> by apply (ba_nbus _ (wd_base _ _ _ H2)).
  apply (wp_for_each E (fun _ => widened 1 q)); [|done]. intros l1 x l2 s Hl Hs. destruct (Hsz _ Hs).
  assert (1 <= x < nb).
  { assert (x ∈ sec_buses nb) as Hx by (rewrite Hl; apply elem_of_app; right; apply list_elem_of_here).
    apply list_elem_of_fmap in Hx as (j & -> & Hj%elem_of_seq). lia. }
  eapply wp_mono; [apply open_bridge_quiet; [done|lia]|]. cbn beta. intros _ s'. by apply framed_widened.
Qed.
End Assign.

(** ** The whole placement *)

Section Configure.
Context {B : Type} `{PB : PciBoard B} `{PD : PciDrivers B} (E : fault -> Prop) `{PS : !PciSpec B E}.

(** The used entries of a window table. *)
Definition wins (K : kind) (p : pci B) : list pciwin :=
  match K with
  | Mem => take (p_nmemwin p) (p_memwin p)
  | Io => take (p_niowin p) (p_iowin p)
  end.

(** One bus, and each space holds the windows it is asked for. *)
Definition all_fit (nb : Z) (p : pci B) : Prop :=
  nb = 1 /\ room E Mem (wins Mem p) /\ room E Io (wins Io p).

(** What the placement makes of the tables [q] of the scan. *)
Record assigned (nb : Z) (q p : pci B) : Prop := {
  ad_base : base E (p_dev q) nb p;
  ad_done K : done_with E (p_dev q) K (all_fit nb q) (wins K q) (wins K p) p;
  ad_nested k : (1 <= k)%nat -> Z.of_nat k < nb -> nested (s_bus (p_sh p)) k;
  ad_live : all_fit nb q -> all_live (p_ndev q) p
}.

Lemma wins_take max n m kb l : wins_ok max n m kb l ->
  (m <= length l)%nat /\ Forall (win_ok n) (take m l) /\ Forall (fun w => w_address w = 0) (take m l).
Proof.
  intros [Hl Hc Ha _ _ Hf]. split; [lia|]. split; [done|].
  by apply (Forall_take_drop _ m) in Hf as [? _].
Qed.

Lemma pci_assign_ok init nb n bd kb q :
  init <> 0 -> scanned E nb n bd kb q -> wp E (pci_assign init) (fun _ => assigned nb q) q.
Proof.
  intros Hi [[[Hbd Hln Hnb Htr Hrg Hmn Hin] [Hl Hc Hds _ _ Hm Hio] Hn] Hnb'].
  rewrite Hnb' in *. subst n.
  destruct (wins_take _ _ _ _ _ Hm) as (Hm1 & Hm2 & Hm3).
  destruct (wins_take _ _ _ _ _ Hio) as (Hi1 & Hi2 & Hi3).
  assert (p_ndev q <= length (p_dev q))%nat as Hnd by lia.
  assert (all_live (p_ndev q) q) as Hal.
  { apply (Forall_weaken _ _ _ Hds). by intros d []. }
  unfold pci_assign. destruct (Z.eqb_spec init 0); [done|]. wps. apply wp_sh.
  eapply wp_mono; [apply hwreinit_ok; [done|]|].
  { intros Hnil. rewrite Hnil in Hln. pose proof maxbus_ok. cbn in Hln. lia. }
  cbn beta. intros _ s0 (Hb0 & Hbus0 & Hn0 & Hm0 & Hi0). wps. set (p0 := with_sh s0 q).
  assert (base E (p_dev q) nb p0) as Hbase by (split; cbn; rewrite ?Hbus0, ?Hn0; done).
  eapply wp_mono.
  { apply (setup_iowins_ok E (p_dev q) (p_ndev q) nb Hnb Hds Hnd (all_fit nb q) p0); try done.
    - cbn. congruence.
    - intros (? & ? & ?). done. }
  cbn beta. intros _ p1 (Hb1 & Hl1 & Hd1 & Hk1 & Hmw1 & Hmn1). wps.
  eapply wp_mono.
  { apply (setup_memwins_ok E (p_dev q) (p_ndev q) nb Hnb Hds Hnd (all_fit nb q) p1
             (wins Io q) (wins Io p1)); rewrite ?Hmw1, ?Hmn1; try done.
    - rewrite Hk1. cbn. congruence.
    - intros Hf. split; [apply Hf|]. split; [apply Hf|auto]. }
  cbn beta. intros _ p2 (Hb2 & Hl2 & Hd2 & Hio2 & Hiw2 & Hin2). wps.
  rewrite Hmw1, Hmn1 in Hd2. cbn in Hd2.
  assert (wins Io p2 = wins Io p1) as Ew by (cbn; by rewrite Hiw2, Hin2).
  rewrite (ba_nbus _ _ _ _ Hb2). destruct (Z.ltb_spec 1 nb).
  - apply wp_sh. eapply wp_mono; [by apply (setup_ppb_ok E (p_dev q) (p_ndev q) nb)|]. cbn beta.
    intros _ s [Hbs Hcov Hns]. split; [done| |done|done].
    intros [].
    + destruct Hd2. split; try done. by apply (Hcov Mem).
    + change (wins Io (with_sh s p2)) with (wins Io p2). rewrite Ew.
      destruct Hio2. split; try done. by apply (Hcov Io).
  - apply wp_ret. split; [done| |lia|done]. intros []; [done|]. by rewrite Ew.
Qed.

(** ** What the devices and drivers leave alone *)

(** The window tables stay. *)
Definition same_wins (q p : pci B) : Prop := forall K, wins K p = wins K q.

Lemma sh_same {A} (m : M (shared B) A) q p :
  same_wins q p -> wp (fun _ => True) (sh m) (fun _ => same_wins q) p.
Proof. intros H. unfold wp, sh. destruct (m _) as [[a x]|f]; [|done]. intros []; [apply (H Mem)|apply (H Io)]. Qed.

Definition keeps_wins {A} (m : M (pci B) A) : Prop :=
  forall q p, same_wins q p -> wp (fun _ => True) m (fun _ => same_wins q) p.

Lemma kw_sh {A} (m : M (shared B) A) : keeps_wins (sh m).
Proof. intros q p. apply sh_same. Qed.
Lemma kw_ret {A} (a : A) : keeps_wins (mret a).
Proof. by intros q p H. Qed.
Lemma kw_fail {A} f : keeps_wins (fail (A := A) f).
Proof. by intros q p H. Qed.
Lemma kw_gets {A} (f : pci B -> A) : keeps_wins (gets f).
Proof. by intros q p H. Qed.
Lemma kw_need {A} (o : option A) : keeps_wins (need o).
Proof. intros q p H. by destruct o. Qed.
Lemma kw_cf c d : keeps_wins (modify (fun p => with_cf (c p) (d p) p)).
Proof. intros q p H []; [apply (H Mem)|apply (H Io)]. Qed.
Lemma kw_bind {A A'} (m : M (pci B) A) (k : A -> M (pci B) A') :
  keeps_wins m -> (forall a, keeps_wins (k a)) -> keeps_wins (m ≫= k).
Proof.
  intros Hm Hk q p H. apply wp_bind. eapply wp_mono; [by apply Hm|]. intros a p' H'. by apply Hk.
Qed.
Lemma kw_for_each {A} (l : list A) f : (forall x, keeps_wins (f x)) -> keeps_wins (for_each l f).
Proof.
  intros Hf. induction l as [|x l IH]; [apply kw_ret|]. apply kw_bind; [done|]. by intros _.
Qed.

Ltac kw := repeat match goal with
  | |- keeps_wins (_ ≫= _) => apply kw_bind; [|intros ?]
  | |- keeps_wins (sh _) => apply kw_sh
  | |- keeps_wins (mret _) => apply kw_ret
  | |- keeps_wins (fail _) => apply kw_fail
  | |- keeps_wins (gets _) => apply kw_gets
  | |- keeps_wins (need _) => apply kw_need
  | |- keeps_wins (modify _) => apply kw_cf
  | |- keeps_wins (for_each _ _) => apply kw_for_each; intros ?
  | |- keeps_wins (match _ with _ => _ end) => case_match
  end.

Lemma kw_expand j u cd : keeps_wins (expand_devs j u cd).
Proof. unfold expand_devs. kw. Qed.

Lemma kw_attach i cf pa : keeps_wins (attach_unit i cf pa).
Proof. unfold attach_unit. kw. apply kw_expand. Qed.

Lemma kw_autoconf n i pa : keeps_wins (autoconf_loop n i pa).
Proof.
  revert i. induction n as [|n IH]; intros i; cbn [autoconf_loop]; [apply kw_ret|].
  kw; try apply IH; apply kw_attach.
Qed.

Lemma kw_devices init : keeps_wins (_pci_setup_devices init).
Proof. unfold _pci_setup_devices, start_dev, _pci_autoconf. kw; apply kw_autoconf. Qed.

(** ** The guarantees *)

(** Windows that have an address lie aligned in [lo, hi), two of them apart. *)
Definition separated (lo hi : Z) (ws : list pciwin) : Prop :=
  Forall (fun w => placed w -> in_space lo hi w) ws /\
  forall i j w w', i <> j -> ws !! i = Some w -> ws !! j = Some w' -> placed w -> placed w' -> apart w w'.

Lemma ForallOrdPairs_lookup {A} (R : A -> A -> Prop) l i j x y :
  ForallOrdPairs R l -> (i < j)%nat -> l !! i = Some x -> l !! j = Some y -> R x y.
Proof.
  intros Hl. revert i j. induction Hl as [|z l Hz _ IH]; intros i j Hij Hi Hj; [done|].
  destruct j as [|j]; [lia|]. destruct i as [|i]; cbn in *.
  - injection Hi as <-. by apply (Forall_lookup_1 _ _ _ _ Hz Hj).
  - by apply (IH i j); [lia| |].
Qed.

Lemma below_separated lo hi ws :
  Forall (fun w => placed w -> in_space lo hi w) ws -> ForallOrdPairs below ws -> separated lo hi ws.
Proof.
  intros Hi Hb. split; [done|]. intros i j w w' Hij Hw Hw' Hp Hp'. unfold apart.
  destruct (Nat.lt_ge_cases i j).
  - right. by apply (ForallOrdPairs_lookup _ _ i j _ _ Hb).
  - left. apply (ForallOrdPairs_lookup _ _ j i _ _ Hb); (done || lia).
Qed.

Lemma unplaced_separated lo hi ws : Forall (fun w => w_address w = 0) ws -> separated lo hi ws.
Proof.
  intros Hf. split; [apply (Forall_weaken _ _ _ Hf); by intros w Hw [? _]|].
  intros i j w w' _ Hi _ [Hw _]. by destruct Hw; apply (Forall_lookup_1 _ _ _ _ Hf Hi).
Qed.

Lemma wp_any {S A} (F F' : fault -> Prop) (m : M S A) Q s :
  (forall f, F f -> F' f) -> wp F m Q s -> wp F' m Q s.
Proof. unfold wp. destruct (m s) as [[? ?]|]; auto. Qed.

(** A scan leaves well-formed tables, and without bridges there is one bus. *)
Lemma scan_result init p :
  init <> 0 -> bridges_fit E -> fresh p -> ready E (p_sh p) ->
  wp E (pci_scan init) (fun _ q => exists nb n, scanned E nb n (place nb 0 0) (Z.of_nat n * 64) q /\
    (no_bridges E -> nb = 1)) p.
Proof.
  intros Hi Hf Hp Hr. eapply wp_mono; [by apply pci_scan_ok|]. cbn beta.
  intros _ q (nb & (n & Hn) & Hb). by exists nb, n.
Qed.

Lemma assign_separated nb q p K : assigned nb q p -> separated (klo E K) (khi E K) (wins K p).
Proof. intros H. destruct (ad_done _ _ _ H K). by apply below_separated. Qed.

(** The whole configuration keeps the windows apart. *)
Lemma configure_separated v init p :
  init <> 0 -> bridges_fit E -> fresh p -> board_init (s_board (p_sh p)) ->
  wp (fun _ => True) (_pci_configure v init) (fun _ p' =>
    forall K, separated (klo E K) (khi E K) (wins K p')) p.
Proof.
  intros Hi Hf Hp Hb. unfold _pci_configure. wps. apply wp_sh. apply wp_modify.
  set (p0 := with_sh _ p).
  assert (fresh p0 /\ board_init (s_board (p_sh p0))) as [Hp0 Hb0].
  { subst p0. destruct Hp. split; [split|]; cbn; try done; by destruct v. }
  wps. apply wp_sh. eapply wp_mono; [eapply (wp_any E); [done|by apply hwinit_ok]|].
  cbn beta. intros r s Hr.
  assert (forall p', same_wins p p' -> forall K, separated (klo E K) (khi E K) (wins K p')) as Hnone.
  { intros p' Hs K. rewrite (Hs K). apply unplaced_separated. destruct Hp as [_ _ _ Hm0 Hi0 _].
    destruct K; [apply (Forall_take_drop _ (p_nmemwin p)) in Hm0 as [? _]|
                 apply (Forall_take_drop _ (p_niowin p)) in Hi0 as [? _]]; done. }
  destruct (Z.ltb_spec r 0). { apply wp_ret. apply Hnone. by intros []. }
  destruct (Hr ltac:(lia)) as (Hr0 & Hbs & Hls & Hgs & Hns & Hms & His). wps.
  eapply wp_mono; [eapply (wp_any E); [done|apply (scan_result r); [lia|done| |by split]]|].
  { destruct Hp0. by split; cbn; rewrite ?Hns. }
  cbn beta. intros _ q (nb & n & Hq & _). wps.
  eapply wp_mono; [eapply (wp_any E); [done|by eapply pci_assign_ok; [lia|]]|].
  cbn beta. intros _ p1 H1. wps. eapply wp_mono; [by apply (kw_devices r p1 p1)|].
  cbn beta. intros _ p2 H2. apply wp_modify. intros K.
  assert (wins K (with_enumerated 1 p2) = wins K p2) as -> by by destruct K.
  rewrite (H2 K). by eapply assign_separated.
Qed.

(** ** Ancestors of a bus *)

(** [a] is [b] or a bus between [b] and the host. *)
Inductive upstream (nb : Z) (l : list pci_bus) : Z -> Z -> Prop :=
| up_refl b : upstream nb l b b
| up_step b pb a : 1 <= b < nb -> l !! Z.to_nat b = Some pb ->
    upstream nb l (b_primary pb) a -> upstream nb l b a.

Lemma within_covers K pb pp w : within pb pp -> covers K pb w -> covers K pp w.
Proof. unfold within. destruct K; cbn; lia. Qed.

Lemma upstream_covers nb l K b a pb w :
  (forall k, (1 <= k)%nat -> Z.of_nat k < nb -> nested l k) -> tree_ok nb l ->
  nb <= Z.of_nat (length l) ->
  upstream nb l b a -> l !! Z.to_nat b = Some pb -> covers K pb w ->
  exists pa, l !! Z.to_nat a = Some pa /\ covers K pa w.
Proof.
  intros Hn Ht Hlen Hu. revert pb. induction Hu as [b|b pb' a Hb Hpb Hu IH]; intros pb Hl Hc; [by exists pb|].
  rewrite Hpb in Hl. injection Hl as ->. pose proof (Ht (Z.to_nat b) pb ltac:(lia) ltac:(lia) Hpb) as Hp.
  destruct (lookup_lt_is_Some_2 l (Z.to_nat (b_primary pb))) as [pp Hpp]; [lia|].
  apply (IH pp Hpp). apply (within_covers _ pb); [|done].
  apply (Hn (Z.to_nat b)); (done || lia).
Qed.

(** A placed window is covered on the whole way to the host. *)
Lemma assigned_covered nb q p K w a :
  nb <= pci_maxbus -> assigned nb q p -> w ∈ wins K p -> placed w ->
  upstream nb (s_bus (p_sh p)) (dev_bus (p_dev p) w) a ->
  exists pa, s_bus (p_sh p) !! Z.to_nat a = Some pa /\ covers K pa w /\ ranged pa.
Proof.
  intros Hnb [[Hb Hl Hn Ht Hg Hd] Hdn Hns _] Hw Hp Hu. rewrite (dev_bus_pa _ _ w Hd) in Hu.
  destruct (Hdn K) as [_ _ _ Hcov _]. pose proof (Forall_elem _ _ _ Hcov Hw Hp) as (pb & Hpb & Hc).
  destruct (upstream_covers nb (s_bus (p_sh p)) K (dev_bus (p_dev q) w) a pb w) as (pa & Hpa & Hca);
    try done; [lia|].
  exists pa. split; [done|]. split; [done|]. by apply (Forall_lookup_1 _ _ _ _ Hg Hpa).
Qed.
End Configure.
