(* ===== verification/P5064Ok.v ===== *)
(** * P5064Ok: PCI configuration on the P-5064

    The layer of [P5064] keeps the promises of the class [PciSpec], for every
    hardware of the class [V96xHw], so the theorems of [PciOk] hold on the
    board; PciSim has the simulated bus of the witnesses. *)

From S2P Require Import Prelude CString Comp Pci PciScan PciOk P5064.

(** ** The allocators *)

Lemma mask_down x k : 0 <= k <= 31 -> 0 <= x < 2 ^ 32 ->
  Z.land x (u32 (Z.lnot (u32 (2 ^ k - 1)))) = x / 2 ^ k * 2 ^ k.
Proof.
  intros Hk Hx. assert (0 < 2 ^ k) by (apply Z.pow_pos_nonneg; lia).
  assert (2 ^ k <= 2 ^ 31) by (apply Z.pow_le_mono_r; lia).
  assert (u32 (Z.lnot (u32 (2 ^ k - 1))) = Z.ldiff (Z.ones 32) (Z.ones k)) as ->.
  { unfold wrapu at 2. rewrite Z.mod_small by lia. unfold wrapu.
    rewrite <- Z.land_ones, Z.ldiff_land, Z.land_comm by lia. do 2 f_equal.
    rewrite Z.ones_equiv. lia. }
  rewrite <- Z.shiftr_div_pow2, <- Z.shiftl_mul_pow2, <- Z.ldiff_ones_r by lia.
  rewrite !Z.ldiff_land, Z.land_assoc, Z.land_ones, Z.mod_small by lia. done.
Qed.

Lemma round_down_pow2 lo next size :
  pow2 size -> 0 <= next < 2 ^ 32 ->
  round_down lo next size =
    if next <? size then None
    else let a := (next - size) / size * size in if a <? lo then None else Some a.
Proof.
  intros (k & Hk & ->) Hn. assert (0 < 2 ^ k) by (apply Z.pow_pos_nonneg; lia).
  assert (2 ^ k <= 2 ^ 31) by (apply Z.pow_le_mono_r; lia).
  unfold round_down. rewrite mask_down by (done || apply u32_range).
  destruct (Z.ltb_spec next (2 ^ k)).
  - assert (u32 (next - 2 ^ k) / 2 ^ k * 2 ^ k = 2 ^ 32 - 2 ^ k) as ->.
    { assert (u32 (next - 2 ^ k) = next + (2 ^ (32 - k) - 1) * 2 ^ k) as ->.
      { rewrite Z.mul_sub_distr_r, <- Z.pow_add_r, Z.sub_add, Z.mul_1_l by lia.
        unfold wrapu. rewrite <- (Z.mod_add _ 1) by lia. rewrite Z.mod_small; lia. }
      rewrite Z.div_add, (Z.div_small next), Z.add_0_l, Z.mul_sub_distr_r, <- Z.pow_add_r by lia.
      rewrite Z.sub_add. lia. }
    destruct (Z.ltb_spec next (2 ^ 32 - 2 ^ k)); [done|]. lia.
  - rewrite u32_small by lia. set (a := (next - 2 ^ k) / 2 ^ k * 2 ^ k). cbn zeta.
    assert (a <= next - 2 ^ k) by (unfold a; pose proof (Z.mul_div_le (next - 2 ^ k) (2 ^ k)); lia).
    destruct (Z.ltb_spec next a); [lia|done].
Qed.

Lemma round_down_ok lo hi next size :
  0 < lo -> lo <= next <= hi -> hi < NOADDR -> pow2 size ->
  let a := default NOADDR (round_down lo next size) in
  alloc_ok lo next size a (default next (round_down lo next size)).
Proof.
  intros Hlo Hn Hhi Hp. pose proof (pow2_range _ Hp) as Hs. unfold NOADDR in Hhi.
  rewrite round_down_pow2 by (done || lia). cbn zeta. set (a := (next - size) / size * size).
  assert (a <= next - size) as Ha
    by (unfold a; pose proof (Z.mul_div_le (next - size) size); lia).
  assert ((size | next) -> a = next - size) as Hex.
  { intros [q ->]. unfold a. replace (q * size - size) with ((q - 1) * size) by lia.
    by rewrite Z.div_mul by lia. }
  destruct (Z.ltb_spec next size).
  { left. split; [done|]. split; [done|]. intros [? [q Hq]]. lia. }
  destruct (Z.ltb_spec a lo); [left|right]; cbn.
  - split; [done|]. split; [done|]. intros [Hle Hd]. rewrite (Hex Hd) in *. lia.
  - split; [done|]. split; [lia|]. split; [|done]. unfold a. apply Z.divide_factor_r.
Qed.

(** ** Tags *)

Lemma tag_roundtrip b d f : 0 <= b < 256 -> 0 <= d < 32 -> 0 <= f < 8 ->
  _pci_break_tag (_pci_make_tag b d f) = (b, d, f).
Proof.
  intros Hb Hd Hf. assert (_pci_make_tag b d f = b * 2 ^ 16 + d * 2 ^ 11 + f * 2 ^ 8) as ->.
  { unfold _pci_make_tag. rewrite !Z.shiftl_mul_pow2 by lia.
    rewrite lor_low by lia. replace (b * 2 ^ 16 + d * 2 ^ 11) with ((b * 32 + d) * 2 ^ 11) by lia.
    rewrite lor_low by lia. apply u32_small. lia. }
  unfold _pci_break_tag, PCI_BUSMAX, PCI_DEVMAX, PCI_FUNCMAX.
  change 255 with (Z.ones 8). change 31 with (Z.ones 5). change 7 with (Z.ones 3).
  rewrite !Z.land_ones, !Z.shiftr_div_pow2 by lia. cbn [Z.pow Z.pow_pos Pos.iter Z.mul].
  f_equal; [f_equal|]; Z.div_mod_to_equations; lia.
Qed.

(** ** The hardware *)

(** The bridge chip and the devices behind it: [hw_ok] is an invariant of the
    hardware; the write FIFO drains (or a hang is an allowed fault); a bridge says
    what it is; and a base register of any other function answers the size probe as the PCI specification says. *)
Class V96xHw (H : Type) `{HW : Hardware H} (E : fault -> Prop) (big_endian : bool) (polls : nat) : Type := {
  hw_ok : H -> Prop;
  hw_load_ok w a h : hw_ok h -> hw_ok (snd (hw_load w a h));
  hw_store_ok w a v h : hw_ok h -> hw_ok (hw_store w a v h);
  hw_fifo : E Hung \/ (0 < polls)%nat /\ forall h, hw_ok h ->
    bit_set (fst (hw_load 2 (PA_TO_KVA1 V96XPBC_BASE + snd (V96X_FIFO_STAT big_endian)) h)) 0x3000 = false;
  hw_bridge : Z -> bool;
  hw_class tag s : hw_ok (hw (s_board s)) ->
    wp E (_pci_conf_read big_endian tag PCI_CLASS_REG)
      (fun class _ => hw_bridge tag = true -> is_ppb class = true) s;
  hw_probe tag reg s : hw_ok (hw (s_board s)) -> hw_bridge tag = false -> reg ∈ PCI_MAP_REG_ROM :: map_regs ->
    wp E (_pci_conf_write big_endian polls tag reg 0xfffffffe ≫= fun _ => _pci_conf_read big_endian tag reg)
      (fun mask _ => reg_mask reg mask) s
}.

Section P5064.
Context {H : Type} `{HW : Hardware H} (E : fault -> Prop).
Variable big_endian : bool.
Variable polls : nat.
Variable sbd_getenv : cstr -> cptr.
Context `{VH : !V96xHw H E big_endian polls}.

Abbreviation MB := (M (shared (board H))).

(** Only the hardware and the console change. *)
Definition calmed (s s' : shared (board H)) : Prop :=
  hw_ok (hw (s_board s')) /\ s_board s' = with_hw (hw (s_board s')) (s_board s) /\
  s_bus s' = s_bus s /\ s_nbus s' = s_nbus s.

Definition calm {A} (m : MB A) : Prop :=
  forall s, hw_ok (hw (s_board s)) -> wp E m (fun _ => calmed s) s.

Lemma calmed_refl s : hw_ok (hw (s_board s)) -> calmed s s.
Proof. intros Hs. split; [done|]. split; [by destruct (s_board s)|done]. Qed.

Lemma calmed_trans s s' s'' : calmed s s' -> calmed s' s'' -> calmed s s''.
Proof.
  intros (_ & Hb & Hbus & Hn) (Hh & Hb' & Hbus' & Hn'). split; [done|].
  split; [|split; congruence]. rewrite Hb'. by rewrite Hb.
Qed.

Lemma calm_ret {A} (a : A) : calm (mret a).
Proof. intros s Hs. by apply calmed_refl. Qed.
Lemma calm_gets {A} (f : shared (board H) -> A) : calm (gets f).
Proof. intros s Hs. by apply calmed_refl. Qed.
Lemma calm_bind {A A'} (m : MB A) (k : A -> MB A') : calm m -> (forall a, calm (k a)) -> calm (m ≫= k).
Proof.
  intros Hm Hk s Hs. apply wp_bind. eapply wp_mono; [by apply Hm|]. intros a s' Hs'.
  eapply wp_mono; [apply Hk, Hs'|]. cbn. intros _ s''. by apply calmed_trans.
Qed.
Lemma calm_when b m : calm m -> calm (when b m).
Proof. destruct b; [done|]. intros _. apply calm_ret. Qed.
Lemma calm_load w a : calm (load w a).
Proof.
  intros s Hs. unfold wp, load. destruct (hw_load w a (hw (s_board s))) as [v h] eqn:Ev.
  split; [|done]. cbn. change h with (snd (v, h)). rewrite <- Ev. by apply hw_load_ok.
Qed.
Lemma calm_store w a v : calm (store w a v).
Proof. intros s Hs. split; [|done]. cbn. by apply hw_store_ok. Qed.
Lemma calm_emit (t : shared (board H) -> trace) : calm (modify (fun s => emit (t s) s)).
Proof. intros s Hs. split; [done|]. split; [by destruct s as [[]]|done]. Qed.
Lemma calm_tagprintf tag fmt args : calm (tagprintf tag fmt args).
Proof. unfold tagprintf. destruct (_pci_break_tag tag) as [[? ?] ?]. apply calm_emit. Qed.
Lemma calm_verbose n m : calm m -> calm (verbose_at n m).
Proof. intros Hm. apply calm_bind; [apply calm_gets|]. intros. by apply calm_when. Qed.
Lemma calm_for_each {A} (l : list A) f : (forall x, calm (f x)) -> calm (for_each l f).
Proof. intros Hf. induction l as [|x l IH]; [apply calm_ret|]. apply calm_bind; [done|]. by intros _. Qed.

Lemma calm_wait_fifo : calm (wait_fifo big_endian polls).
Proof.
  assert (forall n, E Hung -> calm (wait_fifo big_endian n)) as Hh.
  { intros n HE. induction n as [|n IH]; cbn [wait_fifo]; [by intros s Hs|].
    apply calm_bind; [apply calm_load|]. intros x. destruct (bit_set _ _); [done|apply calm_ret]. }
  destruct hw_fifo as [HE|[Hp Hf]]; [by apply Hh|].
  enough (forall n, (0 < n)%nat -> calm (wait_fifo big_endian n)) as Hd by by apply Hd.
  intros [|n] Hn; [lia|]. cbn [wait_fifo]. intros s Hs. apply wp_bind.
  pose proof (calm_load 2 (PA_TO_KVA1 V96XPBC_BASE + snd (V96X_FIFO_STAT big_endian)) s Hs) as Hl.
  unfold wp, vget, load in *. cbn [fst V96X_FIFO_STAT V96XH]. specialize (Hf _ Hs).
  destruct (hw_load 2 _ (hw (s_board s))) as [v h]. cbn [fst] in Hf. by rewrite Hf.
Qed.

(** The same with a known result. *)
Definition calm_as {A} (v : A) (m : MB A) : Prop :=
  forall s, hw_ok (hw (s_board s)) -> wp E m (fun a s' => a = v /\ calmed s s') s.

Lemma calm_as_ret {A} (a : A) : calm_as a (mret a).
Proof. intros s Hs. split; [done|]. by apply calmed_refl. Qed.

Lemma calm_as_bind {A A'} (v : A') (m : MB A) (k : A -> MB A') :
  calm m -> (forall a, calm_as v (k a)) -> calm_as v (m ≫= k).
Proof.
  intros Hm Hk s Hs. apply wp_bind. eapply wp_mono; [by apply Hm|]. intros a s' Hs'.
  eapply wp_mono; [apply Hk, Hs'|]. cbn. intros a' s'' [? ?]. split; [done|]. by apply (calmed_trans _ s').
Qed.

Ltac calm := repeat match goal with
  | |- calm (_ ≫= _) => apply calm_bind; [|intros ?]
  | |- calm (mret _) => apply calm_ret
  | |- calm (gets _) => apply calm_gets
  | |- calm (when _ _) => apply calm_when
  | |- calm (load _ _) => apply calm_load
  | |- calm (store _ _ _) => apply calm_store
  | |- calm (vget _) => apply calm_load
  | |- calm (vset _ _) => apply calm_store
  | |- calm (vor _ _) => apply calm_bind; [|intros ?]
  | |- calm (vclear _ _) => apply calm_bind; [|intros ?]
  | |- calm (tagprintf _ _ _) => apply calm_tagprintf
  | |- calm (verbose_at _ _) => apply calm_verbose
  | |- calm (for_each _ _) => apply calm_for_each; intros ?
  | |- calm (wait_fifo _ _) => apply calm_wait_fifo
  | |- calm (check_abort _ _ _ _) => unfold check_abort
  | |- calm (conf_cycle _ _ _) => unfold conf_cycle
  | |- calm (match ?x with _ => _ end) => destruct x
  end.

Lemma calm_read tag reg : calm (_pci_conf_read big_endian tag reg).
Proof. unfold _pci_conf_read, _pci_conf_readn. calm. Qed.
Lemma calm_write tag reg v : calm (_pci_conf_write big_endian polls tag reg v).
Proof. unfold _pci_conf_write, _pci_conf_writen. calm. Qed.

(** ** The class of [pciconf.c] *)

(** The limits of the two spaces. *)
Definition p5064_mem_lo : Z :=
  if env_oldmap sbd_getenv then PCI_MEM_SPACE_PCI_BASE_OLD else PCI_MEM_SPACE_PCI_BASE_NEW + 0x1000000.
Definition p5064_mem_hi : Z :=
  if env_oldmap sbd_getenv then PCI_MEM_SPACE_PCI_BASE_OLD + PCI_MEM_SPACE_SIZE
  else PCI_MEM_SPACE_PCI_BASE_NEW + PCI_MEM_SPACE_SIZE.
Definition p5064_io_lo : Z := PCI_IO_SPACE_PCI_BASE + 0x80000.
Definition p5064_io_hi : Z := PCI_IO_SPACE_PCI_BASE + PCI_IO_SPACE_SIZE.

Definition p5064_ok (b : board H) : Prop :=
  hw_ok (hw b) /\ minpcimemaddr b = p5064_mem_lo /\ minpciioaddr b = p5064_io_lo.

Abbreviation p5064 := (p5064_board big_endian polls sbd_getenv).

Lemma calm_framed {A} (m : MB A) s : calm m -> p5064_ok (s_board s) ->
  wp E m (fun _ s' => p5064_ok (s_board s') /\ s_bus s' = s_bus s /\ s_nbus s' = s_nbus s /\
    nextpcimemaddr (s_board s') = nextpcimemaddr (s_board s) /\
    nextpciioaddr (s_board s') = nextpciioaddr (s_board s)) s.
Proof.
  intros Hm (Hs & Hlo & Hio). eapply wp_mono; [by apply Hm|]. cbn. intros _ s' (Hh & Hb & Hbus & Hn).
  rewrite Hb. cbn. by repeat split.
Qed.

Lemma p5064_hwinit_ok i s : hw_ok (hw (s_board s)) ->
  wp E (_pci_hwinit big_endian sbd_getenv i) (fun r s' => 0 <= r -> (i <> 0 -> 0 < r) /\
    p5064_ok (s_board s') /\ Z.of_nat (length (s_bus s')) = Z.of_nat MAXBUS /\
    Forall ranged (s_bus s') /\ s_nbus s' = s_nbus s /\
    nextpcimemaddr (s_board s') = p5064_mem_hi /\ nextpciioaddr (s_board s') = p5064_io_hi) s.
Proof.
  intros Hs. unfold _pci_hwinit. wps. eapply wp_mono; [by apply (calm_load _ _ s)|]. cbn beta.
  intros rev s1 (H1 & Hb1 & _ & Hn1). wps. destruct (_ <? _); [wps; by apply wp_ret|]. wps.
  set (s2 := with_board _ _).
  assert (hw_ok (hw (s_board s2))) as H2 by done.
  assert (p5064_ok (s_board s2) /\ length (s_bus s2) = MAXBUS /\ s_nbus s2 = s_nbus s /\
    nextpcimemaddr (s_board s2) = p5064_mem_hi /\ nextpciioaddr (s_board s2) = p5064_io_hi)
    as (Hok & Hl & Hn & Hm & Hio) by done.
  assert (Forall ranged (s_bus s2)) as Hg by (repeat constructor; done).
  destruct (Z.eqb_spec i 0). { apply wp_ret. intros _. split; [done|]. rewrite Hl. done. }
  match goal with |- wp E ?m _ _ => assert (calm_as 1 m) as Hc end.
  { unfold init_lb_apertures, init_pci_apertures, init_fifos, enable_onboard.
    repeat (apply calm_as_bind; [solve [calm]|intros ?]). apply calm_as_ret. }
  eapply wp_mono; [by apply Hc|]. cbn beta. intros r s3 (-> & Hh & Hb & Hbus & Hn3) _.
  split; [done|]. rewrite Hb, Hbus, Hn3. destruct Hok as (_ & ? & ?). by rewrite Hl.
Qed.

Lemma p5064_hwreinit_calm s : hw_ok (hw (s_board s)) -> s_bus s <> [] ->
  wp E (_pci_hwreinit big_endian) (fun _ => calmed s) s.
Proof.
  intros Hs Hb. unfold _pci_hwreinit. wps. destruct (s_bus s) as [|pb l] eqn:El; [done|].
  eapply wp_need; [done|].
  match goal with |- wp E ?m _ _ => enough (calm m) as Hc by by apply Hc end. calm.
Qed.

Lemma p5064_probe_ok tag reg s : hw_ok (hw (s_board s)) -> hw_bridge tag = false -> reg ∈ PCI_MAP_REG_ROM :: map_regs ->
  wp E (@probe_reg _ p5064 tag reg) (fun mask _ => reg_mask reg mask) s.
Proof.
  intros Hs Hbr Hr. unfold probe_reg. wps. eapply wp_mono; [by apply (calm_read tag reg s)|].
  cbn beta. intros old s1 [H1 _]. wps.
  pose proof (hw_probe tag reg s1 H1 Hbr Hr) as Hp.
  pose proof (calm_write tag reg 0xfffffffe s1 H1) as Hw. cbn [pci_conf_write pci_conf_read p5064_board].
  unfold wp, mbind, M_bind in *.
  destruct (_pci_conf_write _ _ tag reg 0xfffffffe s1) as [[u s2]|f]; [|done].
  pose proof (calm_read tag reg s2 (proj1 Hw)) as Hr2. unfold wp in Hr2.
  destruct (_pci_conf_read _ tag reg s2) as [[mask s3]|f]; [|done].
  pose proof (calm_write tag reg old s3 (proj1 Hr2)) as Hw3. unfold wp in Hw3.
  by destruct (_pci_conf_write _ _ tag reg old s3) as [[u' s4]|f].
Qed.

#[export] Instance p5064_spec : @PciSpec (board H) p5064 E.
Proof.
  refine {|
    board_init b := hw_ok (hw b); board_ok := p5064_ok;
    mem_lo := p5064_mem_lo; mem_hi := p5064_mem_hi; io_lo := p5064_io_lo; io_hi := p5064_io_hi;
    mem_next := nextpcimemaddr; io_next := nextpciioaddr; bridge := hw_bridge |}.
  - unfold p5064_mem_lo, p5064_mem_hi. by destruct (env_oldmap sbd_getenv).
  - done.
  - apply tag_roundtrip.
  - intros tag reg s. apply calm_framed, calm_read.
  - intros tag reg v s. apply calm_framed, calm_write.
  - intros tag s (Hs & _). by apply hw_class.
  - intros tag reg s (Hs & _). by apply p5064_probe_ok.
  - intros i s Hs. by apply p5064_hwinit_ok.
  - intros s (Hs & Hlo & Hio) Hb. eapply wp_mono; [by apply p5064_hwreinit_calm|].
    cbn. intros _ s' (Hh & Hbd & Hbus & Hn). rewrite Hbd. by repeat split.
  - intros tag size s (Hs & Hlo & Hio) Hp Hr. cbn [pci_allocate_mem p5064_board].
    unfold _pci_allocate_mem. wps. rewrite Hlo.
    assert (0 < p5064_mem_lo /\ p5064_mem_hi < NOADDR) as [? ?]
      by (unfold p5064_mem_lo, p5064_mem_hi; by destruct (env_oldmap sbd_getenv)).
    pose proof (round_down_ok p5064_mem_lo p5064_mem_hi (nextpcimemaddr (s_board s)) size) as Ha.
    cbn zeta in Ha. destruct (round_down _ _ _) as [a|]; cbn in Ha; specialize (Ha ltac:(lia) Hr ltac:(lia) Hp);
      [wps|]; by apply wp_ret.
  - intros tag size s (Hs & Hlo & Hio) Hp Hr. cbn [pci_allocate_io p5064_board].
    unfold _pci_allocate_io. wps. rewrite Hio.
    pose proof (round_down_ok p5064_io_lo p5064_io_hi (nextpciioaddr (s_board s)) size) as Ha.
    cbn zeta in Ha. destruct (round_down _ _ _) as [a|]; cbn in Ha; specialize (Ha ltac:(done) Hr ltac:(done) Hp);
      [wps|]; by apply wp_ret.
Defined.
End P5064.

(** ** The guarantees on the board *)

Section Guarantees.
Context {H : Type} `{HW : Hardware H} `{PD : PciDrivers (board H)}.
Variable big_endian : bool.
Variable polls : nat.
Variable sbd_getenv : cstr -> cptr.

#[local] Instance p5064 : PciBoard (board H) := p5064_board big_endian polls sbd_getenv.
Abbreviation spec E := (p5064_spec E big_endian polls sbd_getenv).

(** Whatever happens: nothing is assumed about hangs and bridges. *)
Abbreviation any := (fun _ : fault => True).

(** C12. The windows of the PCI devices do not collide. When [_pci_configure] on
    the P-5064, started with the static tables empty, completes, the memory
    windows that were given an address lie inside the board's PCI memory space,
    aligned to their size (so that the comparators of the device decode exactly
    that range), and no two of them share an address; the same for the I/O
    windows. This holds for every population of devices, however many windows are
    refused, whose base registers answer the size probe with a power of two,
    provided the call completes: the configuration cycles do not hang, and no more
    bridges are met than the table of buses has room for (with a third bus the
    code writes past [_pci_bus]: [third_bridge_out_of_bounds]). That it does
    complete without bridges is [p5064_windows_placed]. *)
Theorem p5064_windows_apart (VH : V96xHw H any big_endian polls) v init p p' :
  init <> 0 -> fresh p -> hw_ok (hw (s_board (p_sh p))) ->
  _pci_configure v init p = Ok (tt, p') ->
  separated (p5064_mem_lo sbd_getenv) (p5064_mem_hi sbd_getenv) (wins Mem p') /\
  separated p5064_io_lo p5064_io_hi (wins Io p').
Proof.
  intros Hi Hf Hh Hc.
  pose proof (configure_separated any (PS := spec any) v init p Hi (or_introl I) Hf Hh) as Hw.
  pose proof (wp_ok _ _ _ _ _ _ Hw Hc) as Hs. split; [apply (Hs Mem)|apply (Hs Io)].
Qed.

(** ** Everything that fits is placed *)

(** No fault is allowed. *)
Abbreviation none := (fun _ : fault => False).

Lemma wp_none {S A} (m : M S A) Q s : wp none m Q s -> exists a s', m s = Ok (a, s') /\ Q a s'.
Proof. unfold wp. destruct (m s) as [[a s']|f]; [|done]. by exists a, s'. Qed.

(** A space that ends at a multiple of 128 MB (16 MB for I/O) has room for
    what its size allows: the windows are aligned at the top. *)
Lemma room_total (VH : V96xHw H none big_endian polls) K ws :
  Forall (fun w => pow2 (w_size w)) ws -> total ws <= khi none (PS := spec none) K - klo none (PS := spec none) K ->
  room none (PS := spec none) K ws.
Proof.
  intros Hp Ht. split; [done|]. apply List.Forall_forall. intros w Hw. rewrite List.Forall_forall in Hp.
  pose proof (Hp w Hw) as Hpw.
  assert (w_size w <= total ws) as Hle.
  { apply in_split in Hw as (l1 & l2 & ->). rewrite wins_total_app. change (total (w :: l2)) with (w_size w + total l2).
    assert (Forall (fun w => pow2 (w_size w)) l1 /\ Forall (fun w => pow2 (w_size w)) l2) as [H1 H2].
    { split; apply List.Forall_forall; intros y Hy; apply Hp, in_or_app; [by left|right; by right]. }
    pose proof (wins_total_nonneg _ H1). pose proof (wins_total_nonneg _ H2). lia. }
  assert (forall n hi, w_size w <= 2 ^ n -> 0 <= n <= 31 -> (2 ^ n | hi) -> (w_size w | hi)) as Hd.
  { intros n hi Hwn Hn Hhi. transitivity (2 ^ n); [|done]. apply pow2_divide; [done| |done]. by exists n. }
  destruct K; cbn in *.
  - unfold p5064_mem_lo, p5064_mem_hi in *. apply (Hd 27); [|lia|].
    + destruct (env_oldmap sbd_getenv); cbv - [w_size total Z.le] in *; lia.
    + destruct (env_oldmap sbd_getenv); [exists 3|exists 1]; reflexivity.
  - apply (Hd 24); [|lia|exists 1; reflexivity]. unfold p5064_io_lo, p5064_io_hi in *.
    cbv - [w_size total Z.le] in *. lia.
Qed.

(** C13. Every window that fits gets an address. On a P-5064 without
    PCI-PCI bridges, with hardware that does not hang, the scan completes, and
    when the windows it found add up to no more than the board's memory space
    and I/O space, the placement completes too, every window of the two tables
    has an address, and the windows are those the scan found: placed largest
    first from an aligned top, powers of two leave no gap. *)
Theorem p5064_windows_placed (VH : V96xHw H none big_endian polls) p :
  fresh p -> ready none (PS := spec none) (p_sh p) -> no_bridges none (PS := spec none) ->
  exists q, pci_scan 1 p = Ok (tt, q) /\
    (total (wins Mem q) <= p5064_mem_hi sbd_getenv - p5064_mem_lo sbd_getenv ->
     total (wins Io q) <= p5064_io_hi - p5064_io_lo ->
     exists p', pci_assign 1 q = Ok (tt, p') /\
       forall K, Forall placed (wins K p') /\ ident <$> wins K p' ≡ₚ ident <$> wins K q).
Proof.
  intros Hf Hr Hb.
  pose proof (scan_result none (PS := spec none) 1 p ltac:(done) (or_intror Hb) Hf Hr) as Hs.
  apply wp_none in Hs as ([] & q & Hq & nb & n & Hsc & Hnb). exists q. split; [done|]. intros Hm Hi.
  pose proof (pci_assign_ok none (PS := spec none) 1 nb n _ _ q ltac:(done) Hsc) as Ha.
  apply wp_none in Ha as ([] & p' & Hp' & Had). exists p'. split; [done|]. intros K.
  assert (forall K, Forall (fun w => pow2 (w_size w)) (wins K q)) as Hp2.
  { destruct Hsc as [[_ [_ _ _ _ _ Hwm Hwi] <-] _].
    intros []; (eapply Forall_weaken; [by eapply wins_all|]); by intros w []. }
  destruct (ad_done _ _ _ _ Had K) as [Hid _ _ _ Hl]. split; [|done]. apply Hl.
  split; [auto|]. split; by apply (room_total VH).
Qed.

(** C27. The bridges forward what lies behind them. When the scan and the
    placement have completed, take any memory window that was given an address
    and any bus on the way from its device to the host: the entry of that bus
    exists, its range contains every address of the window, and the base and
    limit register value the code computes from that range makes the bridge
    forward every address of the window, whatever the register held before. *)
Theorem p5064_bridges_cover (VH : V96xHw H any big_endian polls) p q p' w a x old :
  fresh p -> ready any (PS := spec any) (p_sh p) ->
  pci_scan 1 p = Ok (tt, q) -> pci_assign 1 q = Ok (tt, p') ->
  w ∈ wins Mem p' -> placed w -> w_address w <= x < w_address w + w_size w ->
  upstream (s_nbus (p_sh p')) (s_bus (p_sh p')) (dev_bus (p_dev p') w) a ->
  exists pa, s_bus (p_sh p') !! Z.to_nat a = Some pa /\
    b_min_mem_addr pa <= x <= b_max_mem_addr pa /\
    let memdata := ppb_memdata old (b_min_mem_addr pa) (b_max_mem_addr pa) in
    Z.shiftl (Z.land memdata 0xfff0) 16 <= x /\
    x <= Z.lor (Z.land memdata 0xfff00000) 0xfffff.
Proof.
  intros Hf Hr Hq Hp' Hw Hpl Hx Hu.
  pose proof (scan_result any (PS := spec any) 1 p ltac:(done) (or_introl I) Hf Hr) as Hs.
  apply (wp_ok _ _ _ _ _ _) with (2 := Hq) in Hs. destruct Hs as (nb & n & Hsc & _).
  pose proof (pci_assign_ok any (PS := spec any) 1 nb n _ _ q ltac:(done) Hsc) as Ha.
  apply (wp_ok _ _ _ _ _ _) with (2 := Hp') in Ha.
  assert (1 <= nb <= pci_maxbus) as Hnb by (destruct Hsc as [[Hso _ _] <-]; by apply Hso).
  rewrite (ba_nbus _ _ _ _ (ad_base _ _ _ _ Ha)) in Hu.
  destruct (assigned_covered any (PS := spec any) nb q p' Mem w a (proj2 Hnb) Ha Hw Hpl Hu) as (pa & Hpa & Hc & Hg).
  exists pa. split; [done|]. cbn in Hc. unfold ranged in Hg. split; [lia|]. cbn zeta. apply ppb_covers; lia.
Qed.

(** C28. The tables of the scan are well formed. Whatever answers on the
    buses, a completed scan leaves at most 16 devices, each with a bus number,
    device and function in range and the tag that goes with them, no function
    twice; at most 48 memory and 16 I/O windows, each of an existing device, for
    a base register, with a size that is a power of two, and no register of a
    device twice; and every bus hangs on a bus with a smaller number. *)
Theorem p5064_scan_tables (VH : V96xHw H any big_endian polls) p q :
  fresh p -> ready any (PS := spec any) (p_sh p) -> pci_scan 1 p = Ok (tt, q) ->
  let devs := take (p_ndev q) (p_dev q) in
  (p_ndev q <= PCIMAX_DEV)%nat /\ Forall (dev_ok (s_nbus (p_sh q))) devs /\ NoDup (pos <$> devs) /\
  (p_nmemwin q <= 48)%nat /\ (p_niowin q <= 16)%nat /\
  (forall K, Forall (win_ok (p_ndev q)) (wins K q) /\ NoDup (wkey <$> wins K q)) /\
  tree_ok (s_nbus (p_sh q)) (s_bus (p_sh q)).
Proof.
  intros Hf Hr Hq.
  pose proof (scan_result any (PS := spec any) 1 p ltac:(done) (or_introl I) Hf Hr) as Hs.
  apply (wp_ok _ _ _ _ _ _) with (2 := Hq) in Hs. destruct Hs as (nb & n & [[Hso [] <-] <-] & _).
  cbn zeta. split; [done|]. split; [done|]. split; [done|].
  split; [apply (wins_cnt _ _ _ _ _ t_mem)|]. split; [apply (wins_cnt _ _ _ _ _ t_io)|].
  split; [|apply Hso]. intros []; [by destruct t_mem|by destruct t_io].
Qed.

(** A fault other than running out of fuel. *)
Abbreviation ends := (fun f : fault => f <> OutOfFuel).

(** Numbering the bridges, scanning and placing end. The recursion
    over the bridges, the loops and the sort of the windows finish within the
    fuel of the model on every bus population: the scan can only be cut short by
    a bridge beyond the table of buses or by hardware that hangs, and so can the
    placement. *)
Theorem p5064_scan_ends (VH : V96xHw H ends big_endian polls) p :
  fresh p -> ready ends (PS := spec ends) (p_sh p) ->
  pci_scan 1 p <> Err OutOfFuel /\
  forall q, pci_scan 1 p = Ok (tt, q) -> pci_assign 1 q <> Err OutOfFuel.
Proof.
  intros Hf Hr.
  assert (bridges_fit ends (PS := spec ends)) as Hb by by left.
  pose proof (scan_result ends (PS := spec ends) 1 p ltac:(done) Hb Hf Hr) as Hs. split.
  - intros Hq. by apply (wp_err _ _ _ _ _) with (2 := Hq) in Hs.
  - intros q Hq Ha. apply (wp_ok _ _ _ _ _ _) with (2 := Hq) in Hs. destruct Hs as (nb & n & Hsc & _).
    pose proof (pci_assign_ok ends (PS := spec ends) 1 nb n _ _ q ltac:(done) Hsc) as Hw.
    by apply (wp_err _ _ _ _ _) with (2 := Ha) in Hw.
Qed.
End Guarantees.
