(* ===== verification/PciSim.v ===== *)
(** * PciSim: a simulated PCI bus

    A concrete [Hardware]: the registers of the V96x bridge that the driver
    looks at, and a table of configuration registers with the mask of their
    writable bits. It is an instance of [V96xHw], so every hypothesis of the
    theorems of [P5064Ok] holds of it; the witnesses run on it. *)

From S2P Require Import Prelude CString Comp Pci PciScan PciOk P5064 P5064Ok.

(** ** The hardware *)

(** The address map register, the abort bits of the status register, and the
    configuration registers by map register and address: value and writable
    bits. *)
Record sim : Type := { sm_map0 : Z; sm_stat : Z; sm_cfg : gmap (Z * Z) (Z * Z) }.

Definition written (cell : Z * Z) (v : Z) : Z * Z :=
  (Z.lor (Z.land (fst cell) (Z.lnot (snd cell))) (Z.land v (snd cell)), snd cell).

Definition sim_load (w a : Z) (s : sim) : Z * sim :=
  if a <? 0xbef00000 then
    match sm_cfg s !! (sm_map0 s, a) with
    | Some c => (fst c, s)
    | None => (0xffffffff, {| sm_map0 := sm_map0 s; sm_stat := V96X_PCI_STAT_M_ABORT; sm_cfg := sm_cfg s |})
    end
  else if a =? 0xbef00006 then (sm_stat s, s)
  else if a =? 0xbef00008 then (V96X_VREV_C0, s)
  else (0, s).

Definition sim_store (w a v : Z) (s : sim) : sim :=
  if a <? 0xbef00000 then
    match sm_cfg s !! (sm_map0 s, a) with
    | Some c => {| sm_map0 := sm_map0 s; sm_stat := sm_stat s;
                   sm_cfg := <[(sm_map0 s, a) := written c v]> (sm_cfg s) |}
    | None => {| sm_map0 := sm_map0 s; sm_stat := V96X_PCI_STAT_M_ABORT; sm_cfg := sm_cfg s |}
    end
  else if a =? 0xbef00006 then {| sm_map0 := sm_map0 s; sm_stat := 0; sm_cfg := sm_cfg s |}
  else if a =? 0xbef0005e then {| sm_map0 := v; sm_stat := sm_stat s; sm_cfg := sm_cfg s |}
  else s.

#[export] Instance sim_hw : Hardware sim := {| hw_load := sim_load; hw_store := sim_store |}.

(** ** The law of the base registers *)

Definition reg_of (key : Z * Z) : Z := Z.land (snd key) 0xff.

(** The base registers answer the probe; with [br] false, no class register
    says bridge. *)
Definition cell_ok (br : bool) (key cell : Z * Z) : Prop :=
  (reg_of key ∈ PCI_MAP_REG_ROM :: map_regs -> reg_mask (reg_of key) (fst (written cell 0xfffffffe))) /\
  (br = false -> reg_of key = PCI_CLASS_REG -> snd cell = 0 /\ is_ppb (fst cell) = false).

Definition sim_ok (br : bool) (s : sim) : Prop := map_Forall (cell_ok br) (sm_cfg s).

Lemma written_twice c v w : fst (written (written c v) w) = fst (written c w).
Proof.
  destruct c as [x m]. cbn. apply Z.bits_inj'. intros n Hn.
  rewrite !Z.lor_spec, !Z.land_spec, !Z.lor_spec, !Z.land_spec, Z.lnot_spec by done.
  by destruct (Z.testbit x n), (Z.testbit v n), (Z.testbit w n), (Z.testbit m n).
Qed.

Lemma sim_load_ok br w a s : sim_ok br s -> sim_ok br (snd (sim_load w a s)).
Proof. intros Hs. unfold sim_load. by repeat case_match. Qed.

Lemma sim_store_ok br w a v s : sim_ok br s -> sim_ok br (sim_store w a v s).
Proof.
  intros Hs. unfold sim_store. destruct (a <? _); [|by repeat case_match].
  destruct (sm_cfg s !! (sm_map0 s, a)) as [c|] eqn:Hc; [|done].
  apply map_Forall_insert_2; [|done]. destruct (Hs _ _ Hc) as [H1 H2]. split.
  - intros Hr. rewrite written_twice. by apply H1.
  - intros Hb Hr. destruct (H2 Hb Hr) as [Hm Hp]. split; [done|]. destruct c as [x m]. cbn in *. subst m.
    by rewrite Z.land_0_r, Z.lor_0_r, Z.land_m1_r.
Qed.

(** The low byte of a configuration address is the register. *)
Definition conf_addrp (addr : Z) : Z := PA_TO_KVA1 (PCI_CONF_SPACE + Z.land addr 0xfffff).

Lemma kva1_add x : 0 <= x < 2 ^ 29 -> PA_TO_KVA1 x = 0xa0000000 + x.
Proof. intros Hx. unfold PA_TO_KVA1. rewrite Z.lor_comm. exact (lor_low 29 5 x ltac:(lia) Hx). Qed.

Lemma conf_addrp_range addr : 0xbee00000 <= conf_addrp addr < 0xbef00000.
Proof.
  unfold conf_addrp, PCI_CONF_SPACE. change 0xfffff with (Z.ones 20). rewrite Z.land_ones by lia.
  pose proof (Z.mod_pos_bound addr (2 ^ 20) ltac:(lia)). rewrite kva1_add; lia.
Qed.

Lemma low_byte_shift x n : 8 <= n -> Z.land (Z.shiftl x n) 0xff = 0.
Proof.
  intros Hn. change 0xff with (Z.ones 8). rewrite Z.land_ones, Z.shiftl_mul_pow2 by lia.
  replace (2 ^ n) with (2 ^ (n - 8) * 2 ^ 8) by (rewrite <- Z.pow_add_r by lia; f_equal; lia).
  rewrite Z.mul_assoc. apply Z.mod_mul. lia.
Qed.

Lemma conf_addr_reg vrev tag reg addr ad : 0 <= reg < 256 ->
  conf_addr vrev tag reg = Some (addr, ad) -> reg_of (0, conf_addrp addr) = reg.
Proof.
  intros Hr Hc.
  assert (Z.land reg 0xff = reg) as Hreg.
  { change 0xff with (Z.ones 8). rewrite Z.land_ones by lia. by apply Z.mod_small. }
  assert (Z.land addr 0xff = reg) as Ha.
  { unfold conf_addr, _pci_break_tag in Hc. set (d := Z.land (Z.shiftr tag 11) PCI_DEVMAX) in *.
    assert (0 <= d) by (apply Z.land_nonneg; right; unfold PCI_DEVMAX; lia).
    repeat case_match; simplify_eq;
      by rewrite !Z.land_lor_distr_l, !low_byte_shift, ?Z.lor_0_l, Hreg by lia. }
  unfold reg_of, conf_addrp, PCI_CONF_SPACE. cbn [snd].
  change 0xfffff with (Z.ones 20). rewrite Z.land_ones by lia.
  pose proof (Z.mod_pos_bound addr (2 ^ 20) ltac:(lia)). rewrite kva1_add by lia.
  change 0xff with (Z.ones 8) in *. rewrite Z.land_ones in * by lia. rewrite <- Ha.
  change (2 ^ 20) with 1048576. change (2 ^ 8) with 256. Z.div_mod_to_equations. lia.
Qed.

(** ** Configuration cycles *)

Definition map0_of (addr ad : Z) : Z :=
  wrapu 16 (Z.lor (Z.lor (Z.land (Z.shiftr addr 16) 0xfff0) ad) (Z.shiftl 0x5 1)).

(** The hardware after the map register is set and the aborts are cleared. *)
Definition cycle (addr ad : Z) (s : sim) : sim :=
  {| sm_map0 := map0_of addr ad; sm_stat := 0; sm_cfg := sm_cfg s |}.

Definition on_hw (f : sim -> sim) (s : shared (board sim)) : shared (board sim) :=
  with_board (with_hw (f (hw (s_board s))) (s_board s)) s.

Lemma sim_conf_cycle addr ad s :
  conf_cycle false addr ad s = Ok (conf_addrp addr, on_hw (cycle addr ad) s).
Proof. done. Qed.

Lemma sim_load_conf w a s :
  0 <= a < 0xbef00000 -> sim_load w a s =
    match sm_cfg s !! (sm_map0 s, a) with
    | Some c => (fst c, s)
    | None => (0xffffffff, {| sm_map0 := sm_map0 s; sm_stat := V96X_PCI_STAT_M_ABORT; sm_cfg := sm_cfg s |})
    end.
Proof. intros Ha. unfold sim_load. by destruct (Z.ltb_spec a 0xbef00000); [|lia]. Qed.

(** The value read, and the registers stay. *)
Lemma sim_conf_read tag reg s :
  0 <= reg < 255 -> bit_set reg 3 = false ->
  exists s', _pci_conf_read false tag reg s =
    Ok (match conf_addr (v96x_vrev (s_board s)) tag reg with
        | None => u32 (-1)
        | Some (addr, ad) =>
            match sm_cfg (hw (s_board s)) !! (map0_of addr ad, conf_addrp addr) with
            | Some c => fst c
            | None => u32 (-1)
            end
        end, s') /\ sm_cfg (hw (s_board s')) = sm_cfg (hw (s_board s)) /\
        v96x_vrev (s_board s') = v96x_vrev (s_board s).
Proof.
  intros Hr Hb. unfold _pci_conf_read, _pci_conf_readn. change (4 - 1) with 3. rewrite Hb.
  destruct (Z.ltb_spec reg 0); [lia|]. unfold PCI_REGMAX. destruct (Z.leb_spec 255 reg); [lia|].
  cbn [orb]. unfold mbind, M_bind, gets.
  destruct (conf_addr (v96x_vrev (s_board s)) tag reg) as [[addr ad]|]; [|by exists s].
  rewrite sim_conf_cycle. unfold load at 1. cbn [hw_load sim_hw].
  pose proof (conf_addrp_range addr). rewrite sim_load_conf by lia. cbn [sm_cfg sm_map0 cycle on_hw s_board with_board hw with_hw].
  destruct (sm_cfg (hw (s_board s)) !! _) as [c|]; by eexists.
Qed.

Definition stat_clear (s : sim) : sim :=
  {| sm_map0 := sm_map0 s; sm_stat := 0; sm_cfg := sm_cfg s |}.

(** Looking at the abort bits only changes these. *)
Lemma sim_check_abort tag bit msg s :
  exists s', check_abort false tag bit msg s = Ok (tt, s') /\
    v96x_vrev (s_board s') = v96x_vrev (s_board s) /\
    sm_cfg (hw (s_board s')) = sm_cfg (hw (s_board s)).
Proof.
  unfold check_abort. unfold mbind at 1, M_bind at 1.
  change (vget (V96X_PCI_STAT false) s) with (Ok (sm_stat (hw (s_board s)), on_hw id s)).
  unfold when at 1. destruct (bit_set _ _); [|by eexists]. unfold mbind at 1, M_bind at 1.
  change (vor (V96X_PCI_STAT false) bit (on_hw id s)) with (Ok (tt, on_hw stat_clear (on_hw id s))).
  cbn iota beta. unfold verbose_at, mbind, M_bind, gets. cbn iota beta.
  change (s_verbose (on_hw stat_clear (on_hw id s))) with (s_verbose s).
  unfold when. destruct (1 <=? s_verbose s); by eexists.
Qed.

(** A write leaves the registers, or changes the one addressed. *)
Lemma sim_conf_write tag reg v s :
  0 <= reg < 255 -> bit_set reg 3 = false ->
  exists s', _pci_conf_write false 1 tag reg v s = Ok (tt, s') /\
    v96x_vrev (s_board s') = v96x_vrev (s_board s) /\
    sm_cfg (hw (s_board s')) =
      match conf_addr (v96x_vrev (s_board s)) tag reg with
      | None => sm_cfg (hw (s_board s))
      | Some (addr, ad) =>
          match sm_cfg (hw (s_board s)) !! (map0_of addr ad, conf_addrp addr) with
          | Some c => <[(map0_of addr ad, conf_addrp addr) := written c (wrapu 32 v)]> (sm_cfg (hw (s_board s)))
          | None => sm_cfg (hw (s_board s))
          end
      end.
Proof.
  intros Hr Hb. unfold _pci_conf_write, _pci_conf_writen. change (4 - 1) with 3. rewrite Hb.
  destruct (Z.ltb_spec reg 0); [lia|]. unfold PCI_REGMAX. destruct (Z.ltb_spec 255 reg); [lia|].
  cbn [orb]. unfold mbind, M_bind, gets.
  destruct (conf_addr (v96x_vrev (s_board s)) tag reg) as [[addr ad]|]; [|by exists s].
  rewrite sim_conf_cycle. unfold store at 1, modify at 1. cbn [hw_store sim_hw].
  unfold sim_store at 1. pose proof (conf_addrp_range addr).
  destruct (Z.ltb_spec (conf_addrp addr) 0xbef00000); [|lia].
  cbn [sm_cfg sm_map0 cycle on_hw s_board with_board hw with_hw].
  destruct (sm_cfg (hw (s_board s)) !! _) as [c|]; [by eexists|].
  match goal with |- context [wait_fifo false 1 ?x] => change (wait_fifo false 1 x) with (Ok (tt, x)) end. cbn iota beta.
  match goal with |- context [check_abort false tag V96X_PCI_STAT_M_ABORT ?m ?x] =>
    destruct (sim_check_abort tag V96X_PCI_STAT_M_ABORT m x) as (s1 & -> & Hv1 & Hc1) end.
  cbn iota beta.
  match goal with |- context [check_abort false tag V96X_PCI_STAT_T_ABORT ?m ?x] =>
    destruct (sim_check_abort tag V96X_PCI_STAT_T_ABORT m x) as (s2 & -> & Hv2 & Hc2) end.
  exists s2. split; [done|]. by rewrite Hv2, Hv1, Hc2, Hc1.
Qed.

(** ** The instance *)

Lemma probe_reg_range reg : reg ∈ PCI_MAP_REG_ROM :: map_regs -> 0 <= reg < 255 /\ bit_set reg 3 = false.
Proof.
  change map_regs with [0x10; 0x14; 0x18; 0x1c; 0x20; 0x24]. intros Hr.
  repeat (apply elem_of_cons in Hr as [->|Hr]; [by split; [split|]|]). by apply not_elem_of_nil in Hr.
Qed.

Definition sim_v96x (E : fault -> Prop) (br : bool) : V96xHw sim E false 1.
Proof.
  refine {| hw_ok := sim_ok br; hw_bridge _ := false |}.
  - apply sim_load_ok.
  - apply sim_store_ok.
  - right. split; [lia|done].
  - intros tag s _. destruct (sim_conf_read tag PCI_CLASS_REG s ltac:(done) eq_refl) as (s1 & E1 & _).
    unfold wp. by rewrite E1.
  - intros tag reg s Hs _ Hr. destruct (probe_reg_range _ Hr) as [Hreg Hb].
    destruct (sim_conf_write tag reg 0xfffffffe s Hreg Hb) as (s1 & E1 & Hv1 & Hc1).
    destruct (sim_conf_read tag reg s1 Hreg Hb) as (s2 & E2 & _). unfold wp, mbind, M_bind.
    rewrite E1, E2, Hv1, Hc1.
    destruct (conf_addr (v96x_vrev (s_board s)) tag reg) as [[addr ad]|] eqn:Ha; [|right; by left].
    pose proof (conf_addr_reg _ _ reg _ _ ltac:(lia) Ha) as Hro.
    destruct (sm_cfg (hw (s_board s)) !! (map0_of addr ad, conf_addrp addr)) as [c|] eqn:Hc.
    + rewrite lookup_insert_eq. destruct (Hs _ _ Hc) as [Hbar _]. change (reg_of (map0_of addr ad, conf_addrp addr)) with
        (reg_of (0, conf_addrp addr)) in Hbar. rewrite Hro in Hbar. by apply Hbar.
    + rewrite Hc. right. by left.
Defined.

(** Without bridges in the table, none is read. *)
Lemma sim_no_bridges (E : fault -> Prop) getenv (VH := sim_v96x E false) :
  no_bridges E (PS := p5064_spec E false 1 getenv).
Proof.
  intros tag s (Hs & _). destruct (sim_conf_read tag PCI_CLASS_REG s ltac:(done) eq_refl) as (s1 & E1 & _).
  unfold wp. cbn [pci_conf_read p5064_board]. rewrite E1.
  destruct (conf_addr (v96x_vrev (s_board s)) tag PCI_CLASS_REG) as [[addr ad]|] eqn:Ha; [|done].
  pose proof (conf_addr_reg _ _ PCI_CLASS_REG _ _ ltac:(done) Ha) as Hro.
  destruct (sm_cfg (hw (s_board s)) !! (map0_of addr ad, conf_addrp addr)) as [c|] eqn:Hc; [|done].
  destruct (Hs _ _ Hc) as [_ Hcl]. by apply Hcl.
Qed.

(** ** A population *)

(** The registers of a function: offset, value and writable bits. *)
Definition sim_func (tag : Z) (regs : list (Z * (Z * Z))) : list ((Z * Z) * (Z * Z)) :=
  omap (fun '(reg, c) =>
    match conf_addr V96X_VREV_C0 tag reg with
    | Some (addr, ad) => Some ((map0_of addr ad, conf_addrp addr), c)
    | None => None
    end) regs.

(** Identification, status, header type and bus parameters. *)
Definition sim_std (id class : Z) : list (Z * (Z * Z)) :=
  [(PCI_ID_REG, (id, 0)); (PCI_COMMAND_STATUS_REG, (0x02800000, 0xffff)); (PCI_CLASS_REG, (class, 0));
   (PCI_MISC_REG, (0, 0xffff)); (PCI_BPARAM_REG, (0x01010100, 0xff))].

(** An Ethernet chip with a 128-byte I/O and memory window and a 256 KB ROM, and
    a card with a 16 MB window. *)
Definition sim_onboard : list ((Z * Z) * (Z * Z)) :=
  sim_func (_pci_make_tag 0 0 0) (sim_std 0x00091011 0x02000000 ++
    [(0x10, (1, 0xffffff80)); (0x14, (0, 0xffffff80)); (0x30, (0, 0xfffc0001))]) ++
  sim_func (_pci_make_tag 0 3 0) (sim_std 0x00011023 0x03000000 ++ [(0x10, (8, 0xff000000))]).

(** A bridge, without registers of its own to set up, and a SCSI chip behind
    it. *)
Definition sim_behind : list ((Z * Z) * (Z * Z)) :=
  sim_func (_pci_make_tag 0 4 0) (sim_std 0x00211011 0x06040000) ++
  sim_func (_pci_make_tag 1 2 0) (sim_std 0x00011000 0x01000000 ++ [(0x14, (0, 0xfff00000))]).

(** ** Checking a population *)

Definition pow2b (x : Z) : bool := existsb (fun k => x =? 2 ^ Z.of_nat k) (seq 0 32).

Lemma pow2b_ok x : pow2b x = true -> pow2 x.
Proof.
  intros H. apply existsb_exists in H as (k & Hk & Hx). apply in_seq in Hk. exists (Z.of_nat k). split; [lia|].
  by apply Z.eqb_eq.
Qed.

Definition reg_maskb (reg mask : Z) : bool :=
  (mask =? 0) || (mask =? 0xffffffff) ||
  if reg =? PCI_MAP_REG_ROM then pow2b (win_size mask PCI_MAP_ROM_ADDRESS_MASK)
  else if bit_set mask PCI_MAP_IO
       then pow2b (win_size (Z.lor mask 0xffff0000) PCI_MAP_IO_ADDRESS_MASK)
       else pow2b (win_size mask PCI_MAP_MEMORY_ADDRESS_MASK).

Lemma reg_maskb_ok reg mask : reg_maskb reg mask = true -> reg_mask reg mask.
Proof.
  unfold reg_maskb, reg_mask. intros H. apply orb_true_iff in H as [H|H].
  - apply orb_true_iff in H as [H%Z.eqb_eq|H%Z.eqb_eq]; auto.
  - right. right. repeat case_match; by apply pow2b_ok.
Qed.

Definition cell_okb (br : bool) (x : (Z * Z) * (Z * Z)) : bool :=
  let '(key, cell) := x in
  (negb (bool_decide (reg_of key ∈ PCI_MAP_REG_ROM :: map_regs)) ||
     reg_maskb (reg_of key) (fst (written cell 0xfffffffe))) &&
  (br || negb (reg_of key =? PCI_CLASS_REG) || ((snd cell =? 0) && negb (is_ppb (fst cell)))).

Lemma cell_okb_ok br key cell : cell_okb br (key, cell) = true -> cell_ok br key cell.
Proof.
  unfold cell_okb. intros [H1 H2]%andb_true_iff. split.
  - intros Hr. rewrite bool_decide_true in H1 by done. by apply reg_maskb_ok.
  - intros -> Hk. rewrite Hk, Z.eqb_refl in H2. cbn in H2. apply andb_true_iff in H2 as [H2%Z.eqb_eq H3].
    split; [done|]. by destruct (is_ppb _).
Qed.

Definition sim_of (l : list ((Z * Z) * (Z * Z))) : sim :=
  {| sm_map0 := 0; sm_stat := 0; sm_cfg := list_to_map l |}.

Lemma sim_of_ok br l : forallb (cell_okb br) l = true -> sim_ok br (sim_of l).
Proof.
  intros Hl key cell Hc. cbn in Hc. apply elem_of_list_to_map_2, list_elem_of_In in Hc.
  rewrite forallb_forall in Hl. by apply cell_okb_ok, Hl.
Qed.

(** ** Runs *)

(** A monitor without PCI drivers. *)
#[export] Instance sim_drivers : PciDrivers (board sim) := {|
  drv_match _ _ _ := mret false; drv_attach _ _ _ := mret tt; drv_malloc _ := mret true; drv_devinfo _ _ := []
|}.

Definition no_getenv (name : cstr) : cptr := None.

(** The static variables of [pci_machdep.c] and [pciconf.c] at power-on. *)
Definition sim_board (l : list ((Z * Z) * (Z * Z))) : board sim :=
  {| hw := sim_of l; v96x_vrev := 0; pcioldmap := false;
     pci_mem_space_pci_base := PCI_MEM_SPACE_PCI_BASE_NEW;
     pci_local_mem_pci_base := PCI_LOCAL_MEM_PCI_BASE_NEW;
     pci_local_mem_isa_base := PCI_LOCAL_MEM_ISA_BASE_NEW;
     minpcimemaddr := PCI_MEM_SPACE_PCI_BASE_NEW + 0x1000000;
     nextpcimemaddr := PCI_MEM_SPACE_PCI_BASE_NEW + PCI_MEM_SPACE_SIZE;
     minpciioaddr := PCI_IO_SPACE_PCI_BASE + 0x80000;
     nextpciioaddr := PCI_IO_SPACE_PCI_BASE + PCI_IO_SPACE_SIZE |}.

Definition dev0 : pcidev :=
  {| d_pa := {| pa_bus := 0; pa_device := 0; pa_function := 0; pa_tag := 0; pa_id := 0; pa_class := 0 |};
     d_min_gnt := 0; d_max_lat := 0; d_nmemwin := 0; d_niowin := 0 |}.
Definition win0 : pciwin := {| w_dev := 0; w_reg := 0; w_size := 0; w_address := 0 |}.

Definition sim_start (l : list ((Z * Z) * (Z * Z))) : pci (board sim) :=
  {| p_sh := {| s_board := sim_board l; s_bus := replicate 3 v96x_pci_bus; s_nbus := 0; s_verbose := 1; s_out := [] |};
     p_dev := replicate 16 dev0; p_ndev := 0; p_memwin := replicate 48 win0; p_nmemwin := 0;
     p_iowin := replicate 16 win0; p_niowin := 0; p_cfdata := []; p_cfdrivers := []; p_enumerated := 0 |}.

Lemma sim_fresh l x : fresh (with_sh x (sim_start l)) <-> s_nbus x = 0.
Proof.
  split; [by intros []|]. intros Hx. split; try done; by apply Forall_replicate.
Qed.

#[export] Instance sim_p5064 : PciBoard (board sim) := p5064_board false 1 no_getenv.

(** The state a computation ends in. *)
Definition end_of {S A} (m : M S A) (s : S) : S := match m s with Ok (_, s') => s' | Err _ => s end.

(** The board after [_pci_hwinit (1)]. *)
Definition sim_ready (l : list ((Z * Z) * (Z * Z))) : pci (board sim) :=
  with_sh (end_of (_pci_hwinit false no_getenv 1) (p_sh (sim_start l))) (sim_start l).

Lemma sim_ready_ok (E : fault -> Prop) br l (VH := sim_v96x E br) :
  forallb (cell_okb br) l = true -> ready E (PS := p5064_spec E false 1 no_getenv) (p_sh (sim_ready l)).
Proof.
  intros Hl. split; try done.
  - split; [|done]. exact (sim_of_ok br l Hl).
  - by repeat constructor.
Qed.

(** ** The theorems at work *)

Definition sim_all : list ((Z * Z) * (Z * Z)) := sim_onboard ++ sim_behind.
Definition sim_done : pci (board sim) := end_of (_pci_configure None 1) (sim_start sim_all).
Definition sim_scanned (l : list ((Z * Z) * (Z * Z))) : pci (board sim) := end_of (pci_scan 1) (sim_ready l).
Definition sim_assigned (l : list ((Z * Z) * (Z * Z))) : pci (board sim) :=
  end_of (pci_assign 1) (sim_scanned l).

Lemma p5064_windows_apart_witness :
  w_address <$> wins Mem sim_done = [0x7000000; 0x6fc0000; 0x6fbff80; 0x6e00000] /\
  separated (p5064_mem_lo no_getenv) (p5064_mem_hi no_getenv) (wins Mem sim_done) /\
  separated p5064_io_lo p5064_io_hi (wins Io sim_done).
Proof.
  split; [vm_compute; reflexivity|].
  apply (p5064_windows_apart false 1 no_getenv (sim_v96x _ true) None 1 (sim_start sim_all) sim_done).
  - lia.
  - by apply (sim_fresh sim_all (p_sh (sim_start sim_all))).
  - apply sim_of_ok. vm_compute. reflexivity.
  - vm_compute. reflexivity.
Defined.

Lemma p5064_windows_placed_witness :
  exists q, pci_scan 1 (sim_ready sim_onboard) = Ok (tt, q) /\
    (total (wins Mem q) <= p5064_mem_hi no_getenv - p5064_mem_lo no_getenv ->
     total (wins Io q) <= p5064_io_hi - p5064_io_lo ->
     exists p', pci_assign 1 q = Ok (tt, p') /\
       forall K, Forall placed (wins K p') /\ ident <$> wins K p' ≡ₚ ident <$> wins K q).
Proof.
  apply (p5064_windows_placed false 1 no_getenv (sim_v96x _ false) (sim_ready sim_onboard)).
  - by apply sim_fresh.
  - apply sim_ready_ok. vm_compute. reflexivity.
  - apply sim_no_bridges.
Defined.

(** The last byte of the window of the chip behind the bridge, on the bus of
    the host. *)
Lemma p5064_bridges_cover_witness :
  exists pa, s_bus (p_sh (sim_assigned sim_all)) !! 0%nat = Some pa /\
    b_min_mem_addr pa <= 0x6efffff <= b_max_mem_addr pa /\
    let memdata := ppb_memdata 0 (b_min_mem_addr pa) (b_max_mem_addr pa) in
    Z.shiftl (Z.land memdata 0xfff0) 16 <= 0x6efffff /\
    0x6efffff <= Z.lor (Z.land memdata 0xfff00000) 0xfffff.
Proof.
  apply (p5064_bridges_cover false 1 no_getenv (sim_v96x _ true) (sim_ready sim_all) (sim_scanned sim_all)
    (sim_assigned sim_all) {| w_dev := 3; w_reg := 0x14; w_size := 0x100000; w_address := 0x6e00000 |} 0).
  - by apply sim_fresh.
  - apply sim_ready_ok. vm_compute. reflexivity.
  - vm_compute. reflexivity.
  - vm_compute. reflexivity.
  - apply list_elem_of_lookup_2 with 3%nat. vm_compute. reflexivity.
  - split; done.
  - cbn. lia.
  - eapply up_step; [|vm_compute; reflexivity|apply up_refl]. vm_compute. done.
Defined.

Lemma p5064_scan_tables_witness :
  let q := sim_scanned sim_all in
  (p_ndev q <= PCIMAX_DEV)%nat /\ Forall (dev_ok (s_nbus (p_sh q))) (take (p_ndev q) (p_dev q)) /\
  NoDup (pos <$> take (p_ndev q) (p_dev q)) /\
  (p_nmemwin q <= 48)%nat /\ (p_niowin q <= 16)%nat /\
  (forall K, Forall (win_ok (p_ndev q)) (wins K q) /\ NoDup (wkey <$> wins K q)) /\
  tree_ok (s_nbus (p_sh q)) (s_bus (p_sh q)).
Proof.
  apply (p5064_scan_tables false 1 no_getenv (sim_v96x _ true) (sim_ready sim_all) (sim_scanned sim_all)).
  - by apply sim_fresh.
  - apply sim_ready_ok. vm_compute. reflexivity.
  - vm_compute. reflexivity.
Defined.

Lemma p5064_scan_ends_witness :
  pci_scan 1 (sim_ready sim_all) <> Err OutOfFuel /\
  forall q, pci_scan 1 (sim_ready sim_all) = Ok (tt, q) -> pci_assign 1 q <> Err OutOfFuel.
Proof.
  apply (p5064_scan_ends false 1 no_getenv (sim_v96x _ true) (sim_ready sim_all)).
  - by apply sim_fresh.
  - apply sim_ready_ok. vm_compute. reflexivity.
Defined.

(** ** Where the code falls short *)

(** A bridge on bus [b] and nothing else of its own. *)
Definition sim_bridge (b d : Z) : list ((Z * Z) * (Z * Z)) :=
  sim_func (_pci_make_tag b d 0) (sim_std 0x00211011 0x06040000).

(** [_pci_ppbinit] returns before it resets the ranges of the last bus of the
    table, so the range of bus 2 starts at 0 although its only window is at
    0x7f00000, and the ranges of the buses above it do so too. *)
Definition sim_nested : list ((Z * Z) * (Z * Z)) :=
  sim_bridge 0 3 ++ sim_bridge 1 3 ++
  sim_func (_pci_make_tag 2 1 0) (sim_std 0x00011000 0x01000000 ++ [(0x14, (0, 0xfff00000))]).

Lemma last_bus_range_not_reset :
  (w_address <$> wins Mem (sim_assigned sim_nested),
   (fun pb => (b_min_mem_addr pb, b_max_mem_addr pb)) <$> s_bus (p_sh (sim_assigned sim_nested))) =
  ([0x7f00000], [(0, 0x7ffffff); (0, 0x7ffffff); (0, 0x7ffffff)]).
Proof. vm_compute. reflexivity. Qed.

(** A third bridge is entered past the end of [_pci_bus]. *)
Lemma third_bridge_out_of_bounds :
  pci_scan 1 (sim_ready (sim_bridge 0 1 ++ sim_bridge 0 2 ++ sim_bridge 0 3)) = Err OutOfBounds.
Proof. vm_compute. reflexivity. Qed.

(** A device that is refused one window is still enabled, and its ROM, which was
    never given an address, is programmed and switched on at address 0. *)
Definition sim_refused : list ((Z * Z) * (Z * Z)) :=
  sim_func (_pci_make_tag 0 3 0) (sim_std 0x00011023 0x03000000 ++
    [(0x10, (0, 0xf0000000)); (0x30, (0, 0xffff0001))]).

Definition sim_peek (p : pci (board sim)) (tag reg : Z) : option Z :=
  match conf_addr V96X_VREV_C0 tag reg with
  | Some (addr, ad) => fst <$> sm_cfg (hw (s_board (p_sh p))) !! (map0_of addr ad, conf_addrp addr)
  | None => None
  end.

Lemma refused_rom_enabled_at_zero :
  let p := end_of (_pci_configure None 1) (sim_start sim_refused) in
  w_address <$> wins Mem p = [NOADDR; 0] /\
  sim_peek p (_pci_make_tag 0 3 0) PCI_MAP_REG_ROM = Some 1 /\
  option_map (fun c => Z.land c 3) (sim_peek p (_pci_make_tag 0 3 0) PCI_COMMAND_STATUS_REG) = Some 3.
Proof. vm_compute. auto. Qed.

(** A window behind a bridge and one before it share a megabyte, which is the
    grain of the bridge: both the bridge and the card answer at 0x7ff0000. *)
Definition sim_grain : list ((Z * Z) * (Z * Z)) :=
  sim_func (_pci_make_tag 0 1 0) (sim_std 0x00011023 0x03000000 ++ [(0x10, (0, 0xffff0000))]) ++
  sim_bridge 0 3 ++
  sim_func (_pci_make_tag 1 1 0) (sim_std 0x00011000 0x01000000 ++ [(0x14, (0, 0xffff0000))]).

Lemma bridge_grain_overlap :
  let p := sim_assigned sim_grain in
  w_address <$> wins Mem p = [0x7ff0000; 0x7fe0000] /\
  (fun pb => ppb_memdata 0 (b_min_mem_addr pb) (b_max_mem_addr pb)) <$> s_bus (p_sh p) !! 1%nat
    = Some 0x7fe07fe /\
  Z.shiftl (Z.land 0x7fe07fe 0xfff0) 16 <= 0x7ff0000 <= Z.lor (Z.land 0x7fe07fe 0xfff00000) 0xfffff.
Proof. vm_compute. repeat split; discriminate. Qed.
